(* ===== verification/_CoqProject ===== *)
-Q . S2P
Prelude.v
Bytes.v
Timeval.v
Dlist.v
Sloop.v
SloopInv.v
SloopRun.v
SloopProps.v
MemHelper.v
MemHelperInv.v
MemHelperProps.v
MemHelperApi.v
DhcpOptions.v
DhcpOptionsProps.v
DhcpPacket.v
DhcpPacketProps.v
DhcpLeases.v
DhcpLeasesProps.v
DhcpServer.v
DhcpReply.v
DhcpServerInv.v
DhcpServerProps.v
DhcpReplyBytes.v
DhcpServerSafety.v
DhcpServerDemo.v
DhcpFiles.v
DhcpFilesProps.v
DhcpClient.v
DhcpClientMsg.v
DhcpClientProps.v
DhcpClientLease.v
DhcpHandshake.v
DhcpClientDemo.v
DhcpScript.v
DhcpScriptProps.v
DhcpDump.v
Syscalls.v
DhcpSockets.v
SocketProps.v
ArpProps.v
DhcpConfigProps.v
DhcpStart.v
Dirutil.v
Xmldbc.v
PppFsm.v
PppFsmProps.v
PppFsmRun.v
PppFsmLink.v
LcpOptions.v
LcpOptionsProps.v
LcpNegotiate.v
LcpTyped.v
LcpNak.v
LcpDemo.v
Eloop.v
LcpEcho.v
LcpEchoProps.v
PppHdlc.v
PppHdlcProps.v
PppQueue.v
PppGre.v
PppGreProps.v
Pppoe.v
PppoeDisc.v
PppoeTags.v
PppoeSend.v
PppoeDiscProps.v
PppoeSafe.v
PppoeHandshake.v
PppoeSession.v
PppoeMss.v
PppoeSessProps.v
PppoeDemo.v
Md5.v
AuthFile.v
PppAuth.v
PapChap.v
AuthProps.v
AuthLink.v
AuthHandshake.v
