(* ===== verification/Prelude.v ===== *)
(** * Verification of the router's own user-land programs

    The repository is the source release of the WBR1310 router: a Linux kernel, a boot
    loader, busybox and other third-party programs, and a small part written or taken
    over for this device.  That part is modelled here:

    - [src/comlib], the common library: the select loop [sloop.c], the pool allocator
      [mem_helper.c], the client of the configuration database [libxmldbc.c], the
      paths of [dirutil.c], on the lists of [src/include/dlist.h];
    - [src/progs.gpl/udhcpcd], the DHCP server [dhcpd.c], the DHCP client [dhcpc.c],
      and [dumpleases.c];
    - of [src/progs.gpl/pppd.alpha], the PPP daemon with its PPPoE, PPTP and L2TP clients, the
      automaton of the control protocols [fsm.c], the options of LCP and the supervision of
      the peer [lcp.c], the event loop [eloop.c], the frames of the serial line
      ([ppp_fcs.c], [pptp/pptp_gre.c], [l2tp/async-pppd.c]), and the numbered data packets
      of PPTP ([pptp/pqueue.c], [pptp/pptp_gre.c]), the PPPoE client ([pppoe/common.c],
      [discovery.c], [if.c], [pppoe.c], [ppp.c]), and the authentication of both ends with
      PAP and CHAP ([upap.c], [chap.c], [md5.c], [auth.c], [getword] of [options.c]).

    The target is a 32-bit big-endian MIPS: [htonl] and its kin are the identity, a
    pointer is an unsigned number of 32 bits, [char] is signed.

    ** How the parts interact

    The pools and lists of the select loop and the blocks of the allocator are linked
    with the inline functions of dlist.h; the loop calls the handlers that its users
    have registered.  The two DHCP programs share the options (options.c), the
    packets (packet.c), the sockets (socket.c) and the ARP probe (arpping.c).  The
    server reads its configuration and its leases from files (files.c), keeps the table
    of leases (leases.c), answers messages (serverpacket.c, dhcpd.c) and writes the
    table; dumpleases prints that file.  The client (clientpacket.c, dhcpc.c) walks
    through its states and runs a script (script.c) that sets the interface up.

    The PPP daemon negotiates a link with the automaton, once per protocol; the protocol
    is an interface, the class [Callbacks].  LCP's side of it, the routines of the
    options and the echo requests on timeouts of the event loop, is modelled by itself.
    When LCP is open, [link_established] asks the peer for the proof of its name that was
    agreed to, and gives the own one: PAP sends the password, which check_passwd compares with
    the file of secrets; CHAP sends a challenge, and compares the response with the
    digest of the secret (get_secret, md5.c).  The files are read by scan_authfile, word by word
    (getword).  When nothing is pending any more, auth.c starts the network protocols; a failure
    closes LCP.
    With PPTP its frames go through a terminal:
    [pty_handler] takes packets out of frames (decaps_hdlc) and numbers them
    (encaps_gre); [gre_handler] takes packets out of datagrams (decaps_gre), keeps the
    early ones in the queue (pqueue.c, dequeue_gre) and writes frames (encaps_hdlc).
    The two halves are joined by callbacks, which are parameters here.

    With PPPoE the daemon first calls [discovery], which finds an access concentrator
    and its session; then the handlers of the event loop carry packets between the Ethernet
    (asyncReadFromEth) and the terminal (asyncReadFromPPP), whose frames are those
    of the L2TP client, and lower the maximum segment size of TCP on the way
    (clampMSS); [discovery_read] and [pppoe_module_disconnect] end the session.

    ** Conventions

    A C function is a function with the name it has in the source, from the state to
    [res] of its result: [Ok] for a completed execution, [Fault] for undefined
    behaviour or a failed [assert], [NoFuel] for a loop that did not stop within its fuel.  A machine
    integer is a [Z]; [u32], [s32], [u16] and so on wrap it where C does.  Objects whose
    layout matters (messages, frames, file buffers, environment strings) are lists of
    bytes (Bytes); reading or writing outside of one is a [Fault].  Lists of dlist.h
    are pointers in a heap.  Structures that are only used by their members are records.
    The programs that make system calls have the trace of their calls and the answers
    as their state (Syscalls).  The handlers of the authentication are a monad over its state,
    with the list of what they do to the outside (PppAuth).

    ** Files

    - Prelude: results, machine integers, lists; Bytes: objects of bytes.
    - Timeval: times of the two event loops.
    - Dlist: dlist.h on a heap of nodes, and its refinement of mathematical lists.
    - Sloop, SloopInv, SloopRun, SloopProps: comlib/sloop.c.  Sloop has the pools and the
      functions, [sloop_run] with its handlers as a parameter; SloopInv the
      invariant, that the seven lists partition the pools; SloopRun the contract of the
      handlers and the loop; SloopProps the theorems.
    - MemHelper, MemHelperInv, MemHelperProps, MemHelperApi: comlib/mem_helper.c.  [malloc] and [free] are operations of a heap with laws.
    - DhcpOptions, DhcpOptionsProps: options.c, the layout of packet.h and options.h.
    - DhcpPacket, DhcpPacketProps: packet.c and [get_raw_packet] of clientpacket.c.
    - DhcpLeases, DhcpLeasesProps: leases.c and the state of the server (dhcpd.h).
    - DhcpServer: serverpacket.c, [write_leases], and the loop of dhcpd.c, one turn at a
      time; DhcpReply and DhcpReplyBytes: what the replies contain; DhcpServerInv,
      DhcpServerProps, DhcpServerSafety: its invariant and theorems; DhcpServerDemo:
      concrete messages.
    - DhcpFiles, DhcpFilesProps, DhcpConfigProps: files.c, with C strings in buffers and
      [strtok]; DhcpDump: dumpleases.c.
    - DhcpClient, DhcpClientMsg, DhcpClientProps, DhcpClientLease, DhcpClientDemo:
      clientpacket.c and dhcpc.c, one turn of the loop of [main] at a time; DhcpHandshake:
      client and server together.
    - DhcpScript, DhcpScriptProps: [fill_envp] of script.c.
    - Syscalls, DhcpSockets, SocketProps, ArpProps: socket.c, arpping.c,
      pidfile.c, [raw_packet] and [kernel_packet], on an operating system [Os] that is
      any function of the calls so far that obeys the laws [OsOk]; [upto] of Syscalls is the
      triple of programs that wait without a bound.
    - DhcpStart: [main] of dhcpd.c up to its loop.
    - Dirutil: comlib/dirutil.c; Xmldbc: comlib/libxmldbc.c.
    - PppFsm, PppFsmProps, PppFsmRun, PppFsmLink: pppd.alpha/fsm.c as
      programs of a monad with actions; the table of RFC 1661; runs with the timer;
      two automata on a link.
    - LcpOptions: the options of lcp.c, from [lcp_cilen] to [lcp_reqci]; LcpOptionsProps:
      each routine by itself; LcpNegotiate, LcpNak: a request meets the answer of the
      peer; LcpTyped: values in range; [lcp_resetci], [lcp_up] and [lcp_down] are in
      LcpNak too; LcpDemo: concrete links.
    - Eloop: eloop.c, with its turns.
    - LcpEcho, LcpEchoProps: the echo requests of lcp.c on it.
    - PppHdlc, PppHdlcProps: ppp_fcs.c and the frames of both clients.
    - PppQueue: pptp/pqueue.c on a store of entries.
    - PppGre, PppGreProps: the data of a PPTP call, pptp/pptp_gre.c.
    - Pppoe: packets and tags of PPPoE, parsing and sending (common.c, the senders of
      discovery.c, if.c); PppoeDisc: [openInterface] and discovery.c; PppoeTags: tags as
      lists; PppoeSend, PppoeDiscProps: what is sent, and what one packet does; PppoeSafe:
      discovery on any network; PppoeHandshake: discovery and a concentrator.
    - PppoeSession: pppoe.c, ppp.c and [clampMSS]; PppoeMss: the segment size;
      PppoeSessProps: both ends of a session; PppoeDemo: concrete packets and networks.
    - Md5: md5.c, and RFC 1321.
    - AuthFile: [getword] of options.c and [scan_authfile] of auth.c, and files as lines of words.
    - PppAuth: the state of upap.c, chap.c and auth.c, and the functions of auth.c up to the
      outcome; PapChap: upap.c, chap.c, [link_established], and one input of the daemon
      ([auth_step]); the digests of MS-CHAP are the class [MsDigests].  AuthProps: what has
      to come before the networks; AuthLink: no input goes wrong; AuthHandshake: CHAP between
      two ends.

    ** What the theorems show

    - dlist.h: the pointer operations are the list operations ([dlist_refines_lists]).
    - sloop.c: an invariant of all reachable states, no valid call goes wrong unless the
      seconds of a timer overflow, timers are kept in order (the lemma
      [sloop_timeout_order]), the loop runs without a fault as long as the handlers obey
      their contract and the descriptors fit in an [fd_set] ([sloop_reachable_invariant],
      [sloop_calls_safe], [sloop_run_safe]).
    - mem_helper.c: blocks are disjoint and inside live memory in all reachable states,
      a call leaves the blocks it was not given alone, and each of the functions does what
      it is for, with its errors ([mh_reachable_invariant], [mh_calls_isolate],
      [mh_malloc_correct] and those after it).
    - The DHCP server: no turn of the loop goes wrong on a message that can be read
      ([input_ok]); one entry per client and per address, and every address in the range or
      static; a lease that is running is neither touched for another client nor
      given away; which address is offered, in which order of preference, and which
      acknowledged
      ([server_turn_safe], [server_isolates], [server_no_double_allocation],
      [server_offer_correct], [server_acks_own]); it starts in this invariant whatever
      its files hold ([server_start_correct], [read_config_correct]) and a
      restart keeps the leases ([leases_file_roundtrip]).
    - The DHCP client: no turn goes wrong on a frame that can be read ([event_ok]), the
      interface has the address of the state, but for a release during a renewal, it is
      bound by an acknowledgement only, and it renews, rebinds and gives its address up when
      the lease is over, if that is shorter than 2^32/7 seconds ([client_turn_safe], [client_binds_on_ack], [client_lease_runs_out]);
      its messages; and, with the server, the exchange that binds it
      ([client_server_handshake]).
    - Shared parts: [get_option] is safe on every message and correct on well-formed
      ones; the option lists are a map; frames are received as they were sent; the
      checksum is the Internet checksum.
    - The automaton of PPP does what the table of RFC 1661 says, but for the deviations
      listed in [expected], one of them the missing restart on Open in the state Stopping
      ([fsm_follows_rfc1661]), has its timer running exactly when it waits ([fsm_timer_invariant]), gives up
      when nobody answers ([fsm_gives_up]), and two of them open a link
      ([fsm_handshake]).
    - LCP: an Ack or Reject is good exactly when it is the request or a selection from it
      ([lcp_ackci_iff], [lcp_rejci_iff]); a request of any bytes is acknowledged exactly
      when it is a sequence of permitted options with at most one protocol of
      authentication ([lcp_reqci_acks_permitted]); the answers fit their buffer up to requests of
      1200 bytes ([lcp_reqci_bounds]) and are understood ([lcp_answer_understood]);
      the negotiation ends ([lcp_negotiation_ends]), and then one end sends what the
      other takes ([lcp_up_agrees]); the routines complete
      and values stay in the range of their types ([lcp_options_typed]).
    - The event loop calls each timeout once, in time and in order, when its time can be
      represented ([eloop_timers_correct]); on it LCP supervises its peer
      ([echo_supervises]), keeps one that answers often enough
      ([echo_keeps_answering_peer]) and gives up a silent one between two times that the
      options determine, which are one when no timeout is longer than its interval
      ([echo_detects_silence]).
    - Frames: the checksum is the CRC of RFC 1662 ([fcs_correct]) and packets survive
      framing ([frames_roundtrip]).
    - PPTP data: the queue is an ordered map ([pqueue_refines_ordered_map]); the
      packets of a peer that sends well-formed datagrams are
      delivered in order and at most once ([gre_in_order]), all of them if they arrive
      in time ([gre_complete]), and acknowledged ([gre_acknowledges]).
    - PPPoE: the loop over tags is a fold over a list ([parsePacket_equivalent]), and every
      packet that is sent is read as the tags it was built of
      ([discovery_packets_roundtrip]); discovery never goes wrong, and a session was offered,
      asked for and confirmed ([discovery_safe]); a concentrator that is there is
      found ([discovery_connects]); frames cross the session unchanged
      ([session_transparent]), but for the segment size, which is lowered where it
      should be ([clampMSS_correct]).
    - Authentication: the digest is that of RFC 1321 ([md5_correct]); the search in a file of
      secrets gives the first of the best lines ([scan_authfile_correct]), and words with quotes
      and escapes are read as they were written ([secrets_file_roundtrip]); no sequence of links
      with CHAP-MD5 or PAP, of packets with a zero behind them and of timeouts goes wrong
      ([auth_never_faults]), and the network protocols are started
      only after the peer has given the proof that was agreed to, with CHAP to a challenge of this
      very link ([networks_need_proof]); two ends with CHAP reach the networks exactly when their
      secrets give the same digest ([chap_handshake]).
    - Descriptors are closed, but for the cases that are named ([sockets_accounted],
      [arpping_correct], [xmldb_client_correct]).

    [arpping_correct] is about the results that the comment of [arpping] describes; what
    it returns when a call fails is shown by [arpping_outcome].

    Where the code does not do what it means to, the theorem says what it does
    ([get_raw_packet_bounds], [client_release_skipped],
    [server_infinite_lease_unrecorded]), or a lemma or example shows it.

    ** Fuel and bounds

    Loops over pointers have the number of nodes of the heap as their fuel, and the
    invariants show that it is enough.  Loops over a buffer have its length; each turn
    goes on by a byte at least; the same holds for the words of a file of secrets.  [dequeue_gre] has one turn for each entry.  The checksum folds twice ([checksum_correct]); the carry of
    the microseconds of a timer takes at most 2147 turns, as many as an [int] holds
    seconds, and goes wrong when the seconds pass 2^31 - 1; [find_address] has one turn for each address of its range.
    [make_valid_path] has the length of its path; the search for the segment size goes through
    a header of at most 60 bytes with 256 turns.  The waits of [arpping], of the
    database client and of discovery have no bound in the code; their theorems say that a run that uses
    up any fuel has been woken up that often.  The main loops are given turn by turn,
    and the theorems on them speak of all sequences of turns.

    ** Not modelled

    Logging and trace output (dtrace.c, [LOG], [d_error]); the choice of a program in
    frontend.c; [run_script] and the [notify_file] command, which only start processes;
    the socket pair that carries signals in the loops of the DHCP programs: signals are
    inputs of a turn; the microseconds that Linux leaves in the timeout of [select];
    name resolution and [inet_aton], which are parameters; the command line
    and the heading of dumpleases; [lxmldbc_system], which only calls [system].
    Of the PPP daemon: the options of the protocols other than LCP; EAP, whose results are
    inputs, the digests of MS-CHAP (chap_ms.c, md4.c, sha1.c and DES), the addresses that a line
    of the file of secrets permits and the options at its end, shadow passwords, PAM and plugins,
    and the limits of idle links of auth.c; the control connections of PPTP and L2TP, and the interface to the kernel; the
    statistics of pptp_gre.c; the dumps of packets, the options and the registration of the
    handlers of the PPPoE client; of lcp.c the options of the command line, the delayed
    start and printing.  LCP is not an instance of [Callbacks]: [lcp_nakci] may close the link
    while the automaton runs, and [lcp_up] sends a packet.  Everything else in the repository is third-party code with
    at most small vendor changes (the kernel, u-boot, busybox, hostapd, iptables, dnrd, mathopd,
    upnpd, klogd, syslogd, telnetd), object files without source (progs.priv), or
    serves the build. *)

From stdpp Require Import base numbers gmap list.

#[global] Open Scope Z_scope.

(** ** Results of C code

    [Ok] is a completed execution, [Fault] an execution that reaches undefined
    behaviour (null or dangling pointer, access outside an object, an uninitialised or
    overflowing value where the model watches for it) or a failed assertion, [NoFuel] a
    loop that has not stopped within the fuel it was given. *)
Inductive res (A : Type) : Type :=
| Ok (a : A)
| Fault
| NoFuel.
Arguments Ok {A} a.
Arguments Fault {A}.
Arguments NoFuel {A}.

#[export] Instance res_ret : MRet res := @Ok.
#[export] Instance res_bind : MBind res := fun A B f m =>
  match m with Ok a => f a | Fault => Fault | NoFuel => NoFuel end.
#[export] Instance res_fmap : FMap res := fun A B f m =>
  match m with Ok a => Ok (f a) | Fault => Fault | NoFuel => NoFuel end.

#[export] Instance res_eq_dec `{EqDecision A} : EqDecision (res A).
Proof. solve_decision. Defined.

(** A C object access that is undefined behaviour when there is no object. *)
Definition deref {A} (o : option A) : res A :=
  match o with Some a => Ok a | None => Fault end.

Lemma bind_ret {A B} (a : A) (f : A → res B) : Ok a ≫= f = f a.
Proof. done. Qed.

Lemma bind_Ok {A B} (m : res A) (f : A → res B) b :
  m ≫= f = Ok b ↔ ∃ a, m = Ok a ∧ f a = Ok b.
Proof. destruct m; cbn; naive_solver. Qed.

Lemma fmap_Ok {A B} (m : res A) (f : A → B) b :
  f <$> m = Ok b ↔ ∃ a, m = Ok a ∧ f a = b.
Proof. destruct m; cbn; naive_solver. Qed.

Lemma deref_Ok {A} (o : option A) a : deref o = Ok a ↔ o = Some a.
Proof. destruct o; cbn; naive_solver. Qed.

(** [res_inv] decomposes every hypothesis that says a sequence of operations
    completed. *)
Ltac res_inv :=
  repeat match goal with
  | H : _ ≫= _ = Ok _ |- _ => apply bind_Ok in H; destruct H as (? & ? & H)
  | H : _ <$> _ = Ok _ |- _ => apply fmap_Ok in H; destruct H as (? & ? & H)
  | H : deref _ = Ok _ |- _ => apply deref_Ok in H
  | H : Ok _ = Ok _ |- _ => injection H; clear H; intros; subst
  | H : mret _ = Ok _ |- _ => unfold mret, res_ret in H
  end.

(** ** Machine integers

    The target is 32-bit big-endian MIPS (boards/wrgg19/config.arch), on which
    [int], [long], [size_t] and pointers have 32 bits and [char] is signed. *)
Definition u8 (z : Z) : Z := z `mod` 256.
Definition u16 (z : Z) : Z := z `mod` 65536.
Definition u32 (z : Z) : Z := z `mod` 4294967296.
Definition s8 (z : Z) : Z := (z + 128) `mod` 256 - 128.
Definition s32 (z : Z) : Z := (z + 2147483648) `mod` 4294967296 - 2147483648.

Definition is_u8 (z : Z) : Prop := 0 ≤ z < 256.
Definition is_u32 (z : Z) : Prop := 0 ≤ z < 4294967296.

Lemma u8_range z : is_u8 (u8 z).
Proof. unfold is_u8, u8. apply Z.mod_pos_bound. lia. Qed.
Lemma u32_range z : is_u32 (u32 z).
Proof. unfold is_u32, u32. apply Z.mod_pos_bound. lia. Qed.
Lemma u8_id z : is_u8 z → u8 z = z.
Proof. unfold is_u8, u8. intros. apply Z.mod_small. lia. Qed.
Lemma u32_id z : is_u32 z → u32 z = z.
Proof. unfold is_u32, u32. intros. apply Z.mod_small. lia. Qed.
Lemma s32_id z : -2147483648 ≤ z < 2147483648 → s32 z = z.
Proof. unfold s32. intros. rewrite Z.mod_small; lia. Qed.
Lemma s8_id z : -128 ≤ z < 128 → s8 z = z.
Proof. unfold s8. intros. rewrite Z.mod_small; lia. Qed.

Create HintDb wbr.
Create Rewrite HintDb wbr_int.
#[export] Hint Resolve u8_range u32_range : wbr.
#[export] Hint Rewrite u8_id u32_id s32_id s8_id using (unfold is_u8, is_u32; lia) : wbr_int.

(** ** Lists *)

Lemma removelast_snoc {A} (l : list A) x : removelast (l ++ [x]) = l.
Proof. rewrite removelast_app by done. cbn. apply app_nil_r. Qed.

Lemma NoDup_cons_middle {A} (x y : A) l1 l2 :
  NoDup (x :: l1 ++ y :: l2) ↔ NoDup (y :: x :: l1 ++ l2).
Proof.
  assert (x :: l1 ++ y :: l2 ≡ₚ y :: x :: l1 ++ l2) as ->; [|done].
  rewrite <- Permutation_middle. apply Permutation_swap.
Qed.
