(* ===== verification/Bytes.v ===== *)
(** * Bytes: memory objects as byte lists

    A C object of fixed size is the list of its bytes; a read or write outside
    it is undefined behaviour.  Numbers are big-endian, on the target the byte
    order of both the host and the network, so that [htonl] and its kin are the
    identity. *)

From stdpp Require Import base numbers strings list.
From S2P Require Import Prelude.

Abbreviation bytes := (list Z).

Definition is_bytes (b : bytes) : Prop := Forall is_u8 b.

(** [p[i]] *)
Definition byte_at (b : bytes) (i : nat) : res Z := deref (b !! i).

(** The [n] bytes from [off] on. *)
Definition slice (b : bytes) (off n : nat) : bytes := take n (drop off b).

(** [memcpy(dst, b + off, n)]: the bytes read. *)
Definition read_at (b : bytes) (off n : nat) : res bytes :=
  if decide (off + n ≤ length b)%nat then Ok (slice b off n) else Fault.

Definition splice (b : bytes) (off : nat) (s : bytes) : bytes :=
  take off b ++ s ++ drop (off + length s) b.

(** [memcpy(b + off, s, sizeof s)] *)
Definition write_at (b : bytes) (off : nat) (s : bytes) : res bytes :=
  if decide (off + length s ≤ length b)%nat then Ok (splice b off s) else Fault.

(** ** Big-endian numbers *)

Fixpoint be_val (l : bytes) : Z :=
  match l with
  | [] => 0
  | x :: l => x * 256 ^ Z.of_nat (length l) + be_val l
  end.

Fixpoint be_bytes (n : nat) (z : Z) : bytes :=
  match n with
  | O => []
  | S n => (z / 256 ^ Z.of_nat n) `mod` 256 :: be_bytes n z
  end.

Definition read16 (b : bytes) (off : nat) : res Z := be_val <$> read_at b off 2.
Definition read32 (b : bytes) (off : nat) : res Z := be_val <$> read_at b off 4.
(** Accesses to a member of a structure, whose offset lies inside. *)
Definition get16 (b : bytes) (off : nat) : Z := be_val (slice b off 2).
Definition get32 (b : bytes) (off : nat) : Z := be_val (slice b off 4).
Definition set8 (b : bytes) (off : nat) (v : Z) : bytes := splice b off [u8 v].
Definition set16 (b : bytes) (off : nat) (v : Z) : bytes := splice b off (be_bytes 2 v).
Definition set32 (b : bytes) (off : nat) (v : Z) : bytes := splice b off (be_bytes 4 v).

(** The characters of a literal. *)
Definition chars (s : String.string) : bytes :=
  (λ c, Z.of_N (Ascii.N_of_ascii c)) <$> String.list_ascii_of_string s.

(** [!strncmp(a, b, n)] on C strings. *)
Fixpoint strncmp_eq (a b : bytes) (n : nat) : bool :=
  match n with
  | O => true
  | S n =>
      let x := hd 0 a in let y := hd 0 b in
      (x =? y) && ((x =? 0) || strncmp_eq (tail a) (tail b) n)
  end.

(** ** C strings *)

(** The string at a position; [None] when it is not terminated. *)
Fixpoint until_zero (b : bytes) : option bytes :=
  match b with
  | [] => None
  | x :: b => if x =? 0 then Some [] else (x ::.) <$> until_zero b
  end.
Definition string_at (b : bytes) (pos : nat) : res bytes := deref (until_zero (drop pos b)).

(** The bytes of a C string. *)
Fixpoint c_str (b : bytes) : bytes :=
  match b with
  | [] => []
  | x :: b => if x =? 0 then [] else x :: c_str b
  end.

Definition is_in (delims : bytes) (x : Z) : bool := existsb (Z.eqb x) delims.

Definition lower (c : Z) : Z := if (65 <=? c) && (c <=? 90) then c + 32 else c.
(** [!strcasecmp(a, b)] *)
Definition strcaseeq (a b : bytes) : bool := bool_decide (lower <$> a = lower <$> b).

Definition isspace (c : Z) : bool := is_in [32; 9; 10; 11; 12; 13] c.
Definition isdigit (c : Z) : bool := (48 <=? c) && (c <=? 57).

#[global] Arguments slice : simpl never.
#[global] Arguments splice : simpl never.
#[global] Arguments write_at : simpl never.
#[global] Arguments read_at : simpl never.
#[global] Arguments byte_at : simpl never.
#[global] Arguments set8 : simpl never.
#[global] Arguments set16 : simpl never.
#[global] Arguments set32 : simpl never.
#[global] Arguments get16 : simpl never.
#[global] Arguments get32 : simpl never.
#[global] Arguments be_bytes : simpl never.
#[global] Arguments be_val : simpl never.

(** ** Lemmas *)

Lemma length_slice b off n : (off + n ≤ length b)%nat → length (slice b off n) = n.
Proof. intros H. unfold slice. rewrite length_take, length_drop. lia. Qed.

Lemma length_splice b off s :
  (off + length s ≤ length b)%nat → length (splice b off s) = length b.
Proof. intros H. unfold splice. rewrite !length_app, length_take, length_drop. lia. Qed.

Lemma length_be_bytes n z : length (be_bytes n z) = n.
Proof. induction n as [|n IH]; cbn; [done|]. unfold be_bytes in *. cbn. by rewrite IH. Qed.

Lemma write_at_Ok b off s :
  (off + length s ≤ length b)%nat → write_at b off s = Ok (splice b off s).
Proof. intros H. unfold write_at. by rewrite decide_True. Qed.

Lemma read_at_Ok b off n : (off + n ≤ length b)%nat → read_at b off n = Ok (slice b off n).
Proof. intros H. unfold read_at. by rewrite decide_True. Qed.

(** Reading back what has been written. *)
Lemma slice_splice b off s :
  (off + length s ≤ length b)%nat → slice (splice b off s) off (length s) = s.
Proof.
  intros H. unfold slice, splice. rewrite drop_app_length'; [|rewrite length_take; lia].
  by rewrite take_app_length.
Qed.

(** A write does not affect the bytes before and after it. *)
Lemma slice_splice_before b off s o n :
  (o + n ≤ off)%nat → (off ≤ length b)%nat → slice (splice b off s) o n = slice b o n.
Proof.
  intros H Hl. unfold slice, splice. rewrite drop_app_le by (rewrite length_take; lia).
  rewrite skipn_firstn_comm. rewrite take_app_le by (rewrite length_take, length_drop; lia).
  rewrite take_take. f_equal. lia.
Qed.

Lemma slice_splice_after b off s o n :
  (off + length s ≤ o)%nat → (off + length s ≤ length b)%nat →
  slice (splice b off s) o n = slice b o n.
Proof.
  intros H Hl. unfold slice, splice. rewrite app_assoc. rewrite drop_app_ge.
  2: { rewrite length_app, length_take. lia. }
  rewrite length_app, length_take, drop_drop. f_equal. f_equal. lia.
Qed.

Lemma lookup_splice_ne b off s i :
  (i < off ∨ off + length s ≤ i)%nat → (off + length s ≤ length b)%nat →
  splice b off s !! i = b !! i.
Proof.
  intros H Hl. unfold splice. destruct H as [H|H].
  - rewrite lookup_app_l by (rewrite length_take; lia). apply lookup_take_lt. lia.
  - rewrite lookup_app_r by (rewrite length_take; lia).
    rewrite lookup_app_r by (rewrite length_take; lia).
    rewrite lookup_drop, length_take. f_equal. lia.
Qed.

Lemma be_val_cons x l : be_val (x :: l) = x * 256 ^ Z.of_nat (length l) + be_val l.
Proof. done. Qed.
Lemma be_bytes_S n z : be_bytes (S n) z = (z / 256 ^ Z.of_nat n) `mod` 256 :: be_bytes n z.
Proof. done. Qed.

Lemma be_val_bytes n z : be_val (be_bytes n z) = z `mod` 256 ^ Z.of_nat n.
Proof.
  induction n as [|n IH].
  - cbn. by rewrite Z.mod_1_r.
  - rewrite be_bytes_S, be_val_cons, IH, length_be_bytes.
    replace (256 ^ Z.of_nat (S n)) with (256 ^ Z.of_nat n * 256) by (rewrite Nat2Z.inj_succ, Z.pow_succ_r; lia).
    rewrite (Z.rem_mul_r z) by lia. lia.
Qed.

Lemma be_val_range l : is_bytes l → 0 ≤ be_val l < 256 ^ Z.of_nat (length l).
Proof.
  induction 1 as [|x l Hx _ IH]; [unfold be_val; cbn; lia|]. rewrite be_val_cons. unfold is_u8 in Hx.
  cbn [length]. rewrite Nat2Z.inj_succ, Z.pow_succ_r by lia. nia.
Qed.

Lemma be_bytes_add n m a v :
  (n ≤ m)%nat → be_bytes n (a * 256 ^ Z.of_nat m + v) = be_bytes n v.
Proof.
  induction n as [|n IH]; intros Hn; [done|]. rewrite !be_bytes_S, IH by lia. f_equal.
  replace (Z.of_nat m) with (Z.of_nat (m - S n) + 1 + Z.of_nat n) by lia.
  rewrite !Z.pow_add_r by lia.
  replace (a * (256 ^ Z.of_nat (m - S n) * 256 ^ 1 * 256 ^ Z.of_nat n) + v)
    with (a * 256 ^ Z.of_nat (m - S n) * 256 * 256 ^ Z.of_nat n + v) by lia.
  rewrite Z.div_add_l by lia. by rewrite Z.add_comm, Z_mod_plus_full.
Qed.

Lemma be_bytes_val l : is_bytes l → be_bytes (length l) (be_val l) = l.
Proof.
  induction 1 as [|x l Hx Hl IH]; [done|]. cbn [length]. rewrite be_bytes_S, be_val_cons.
  pose proof (be_val_range l Hl) as Hr. unfold is_u8 in Hx.
  rewrite be_bytes_add, IH by done. f_equal.
  rewrite Z.div_add_l by lia. rewrite (Z.div_small (be_val l)) by lia.
  rewrite Z.add_0_r. by apply Z.mod_small.
Qed.

Lemma is_bytes_be_bytes n z : is_bytes (be_bytes n z).
Proof.
  induction n as [|n IH]; [constructor|]. rewrite be_bytes_S. constructor; [|done].
  apply u8_range.
Qed.

Lemma is_bytes_splice b off s : is_bytes b → is_bytes s → is_bytes (splice b off s).
Proof.
  intros Hb Hs. unfold splice, is_bytes. rewrite !Forall_app.
  split; [by apply Forall_take|]. split; [done|by apply Forall_drop].
Qed.

Lemma is_bytes_slice b off n : is_bytes b → is_bytes (slice b off n).
Proof. intros Hb. unfold slice. by apply Forall_take, Forall_drop. Qed.

Lemma byte_at_range b i v : is_bytes b → byte_at b i = Ok v → is_u8 v.
Proof.
  intros Hb E. unfold byte_at in E. apply deref_Ok in E. by eapply Forall_lookup_1.
Qed.

Lemma byte_at_lt b i : (i < length b)%nat → ∃ v, byte_at b i = Ok v ∧ b !! i = Some v.
Proof.
  intros Hi. destruct (lookup_lt_is_Some_2 b i Hi) as [v Hv]. exists v.
  unfold byte_at. by rewrite Hv.
Qed.

Lemma length_set8 b off v : (off < length b)%nat → length (set8 b off v) = length b.
Proof. intros H. apply length_splice. cbn. lia. Qed.
Lemma length_set16 b off v : (off + 2 ≤ length b)%nat → length (set16 b off v) = length b.
Proof. intros H. apply length_splice. rewrite length_be_bytes. lia. Qed.
Lemma length_set32 b off v : (off + 4 ≤ length b)%nat → length (set32 b off v) = length b.
Proof. intros H. apply length_splice. rewrite length_be_bytes. lia. Qed.

Lemma get32_set32 b off v :
  (off + 4 ≤ length b)%nat → is_u32 v → get32 (set32 b off v) off = v.
Proof.
  intros H Hv. unfold get32, set32. pose proof (slice_splice b off (be_bytes 4 v)) as E.
  rewrite length_be_bytes in E. rewrite E by done. rewrite be_val_bytes.
  apply Z.mod_small. exact Hv.
Qed.

Lemma get16_range b off : is_bytes b → 0 ≤ get16 b off < 65536.
Proof.
  intros Hb. unfold get16. pose proof (be_val_range _ (is_bytes_slice b off 2 Hb)) as Hr.
  assert (Hl : (length (slice b off 2) ≤ 2)%nat) by (unfold slice; rewrite length_take; lia).
  destruct (length (slice b off 2)) as [|[|[|]]]; [..|lia]; cbn in Hr; lia.
Qed.

Lemma get32_range b off : is_bytes b → is_u32 (get32 b off).
Proof.
  intros Hb. unfold get32. pose proof (be_val_range _ (is_bytes_slice b off 4 Hb)) as Hr.
  assert (length (slice b off 4) ≤ 4)%nat by (unfold slice; rewrite length_take; lia).
  unfold is_u32. assert (256 ^ Z.of_nat (length (slice b off 4)) ≤ 256 ^ 4)
    by (apply Z.pow_le_mono_r; lia). change (256 ^ 4) with 4294967296 in *. lia.
Qed.

(** Bytes by computation. *)
Definition bytesb (b : bytes) : bool := forallb (λ z, (0 <=? z) && (z <? 256)) b.

Lemma bytesb_sound b : bytesb b = true → is_bytes b.
Proof.
  unfold bytesb, is_bytes. rewrite forallb_forall, Forall_forall. intros H z Hz.
  specialize (H z (proj1 (list_elem_of_In _ _) Hz)). unfold is_u8. lia.
Qed.

(** A string is terminated, and has no zero before. *)
Lemma until_zero_Some b s : until_zero b = Some s ↔ ∃ t, b = s ++ 0 :: t ∧ 0 ∉ s.
Proof.
  split.
  - revert s. induction b as [|x b IH]; intros s; cbn [until_zero]; [done|]. destruct (Z.eqb_spec x 0) as [->|Hx].
    + intros [= <-]. exists b. split; [done|]. apply not_elem_of_nil.
    + destruct (until_zero b) as [u|]; cbn; [|done]. intros [= <-]. destruct (IH u eq_refl) as (t & -> & Hn). exists t.
      rewrite not_elem_of_cons. split; [done|]. by split.
  - intros (t & -> & Hn). induction s as [|x s IH]; [done|]. rewrite not_elem_of_cons in Hn. destruct Hn as [Hx Hn].
    cbn [app until_zero]. destruct (Z.eqb_spec x 0) as [->|_]; [done|]. by rewrite IH.
Qed.
