(* ===== verification/Timeval.v ===== *)
(** * Times of the event loops ([struct timeval] and the macros of sys/time.h)

    Seconds and microseconds, with the comparison and the difference that sloop.c and
    eloop.c use, and the loop by which both carry microseconds over. *)

From stdpp Require Import base numbers.
From S2P Require Import Prelude.

Record timeval := mk_timeval { tv_sec : Z; tv_usec : Z }.

#[export] Instance timeval_eq_dec : EqDecision timeval.
Proof. solve_decision. Defined.

(** [timercmp(a, b, <)] and [timercmp(a, b, >=)] *)
Definition timer_lt (a b : timeval) : bool :=
  if decide (tv_sec a = tv_sec b) then tv_usec a <? tv_usec b else tv_sec a <? tv_sec b.
Definition timer_ge (a b : timeval) : bool :=
  if decide (tv_sec a = tv_sec b) then tv_usec b <=? tv_usec a else tv_sec b <=? tv_sec a.

(** [timersub] *)
Definition timersub (a b : timeval) : timeval :=
  let sec := tv_sec a - tv_sec b in
  let usec := tv_usec a - tv_usec b in
  if usec <? 0 then mk_timeval (sec - 1) (usec + 1000000) else mk_timeval sec usec.

(** The largest value of a signed 32-bit number. *)
Definition TIME_MAX : Z := 2147483647.

(** The loop that carries microseconds into seconds.  The seconds are signed, so that
    counting them beyond the largest value is undefined. *)
Fixpoint carry_usec (fuel : nat) (t : timeval) : res timeval :=
  if 1000000 <=? tv_usec t then
    if TIME_MAX <=? tv_sec t then Fault
    else
      match fuel with
      | O => NoFuel
      | S fuel => carry_usec fuel (mk_timeval (tv_sec t + 1) (tv_usec t - 1000000))
      end
  else mret t.

(** The seconds that the loop ends with can be represented. *)
Definition time_fits (t : timeval) : bool :=
  (tv_usec t <? 1000000) || (tv_sec t + tv_usec t `div` 1000000 <=? TIME_MAX).

(** ** The order of times *)

Lemma timer_lt_spec a b :
  timer_lt a b = true ↔
  tv_sec a < tv_sec b ∨ (tv_sec a = tv_sec b ∧ tv_usec a < tv_usec b).
Proof. unfold timer_lt. case_decide; rewrite Z.ltb_lt; lia. Qed.

Lemma timer_nlt_spec a b :
  timer_lt a b = false ↔
  tv_sec b < tv_sec a ∨ (tv_sec a = tv_sec b ∧ tv_usec b ≤ tv_usec a).
Proof. unfold timer_lt. case_decide; rewrite Z.ltb_ge; lia. Qed.

Lemma timer_ge_nlt a b : timer_ge a b = negb (timer_lt a b).
Proof.
  unfold timer_ge, timer_lt. case_decide as E.
  - by rewrite Z.ltb_antisym, negb_involutive.
  - destruct (Z.leb_spec (tv_sec b) (tv_sec a)), (Z.ltb_spec (tv_sec a) (tv_sec b)); cbn; lia.
Qed.

(** The carry loop stops and normalises the time it is given, if the seconds allow it. *)
Lemma carry_usec_spec fuel t :
  tv_usec t < 1000000 * (Z.of_nat fuel + 1) →
  carry_usec fuel t =
    if time_fits t then
      Ok (if 0 <=? tv_usec t
          then mk_timeval (tv_sec t + tv_usec t `div` 1000000) (tv_usec t `mod` 1000000)
          else t)
    else Fault.
Proof.
  revert t. induction fuel as [|fuel IH]; intros t Hf; cbn [carry_usec]; unfold time_fits;
    destruct (Z.leb_spec 1000000 (tv_usec t)) as [Hge|Hlt]; try lia.
  2: { rewrite (proj2 (Z.ltb_ge (tv_usec t) 1000000)) by lia. cbn [orb].
    assert (Hd : tv_usec t `div` 1000000 = (tv_usec t - 1000000) `div` 1000000 + 1).
    { replace (tv_usec t) with (tv_usec t - 1000000 + 1 * 1000000) at 1 by lia. rewrite Z.div_add by lia. done. }
    assert (H0 : 0 ≤ (tv_usec t - 1000000) `div` 1000000) by (apply Z.div_pos; lia).
    destruct (Z.leb_spec TIME_MAX (tv_sec t)).
    - by rewrite (proj2 (Z.leb_gt _ _)) by lia.
    - rewrite IH by (cbn; lia). unfold time_fits. cbn [tv_sec tv_usec].
      rewrite !(proj2 (Z.leb_le 0 _)) by lia.
      assert (Hm : (tv_usec t - 1000000) `mod` 1000000 = tv_usec t `mod` 1000000).
      { replace (tv_usec t) with (tv_usec t - 1000000 + 1 * 1000000) at 2 by lia. by rewrite Z.mod_add by lia. }
      rewrite Hm, Hd. destruct (Z.ltb_spec (tv_usec t - 1000000) 1000000).
      + rewrite (Z.div_small (tv_usec t - 1000000)) by lia. cbn [orb]. rewrite (proj2 (Z.leb_le _ _)) by lia. do 2 f_equal. lia.
      + cbn [orb]. replace (tv_sec t + 1 + (tv_usec t - 1000000) `div` 1000000)
          with (tv_sec t + ((tv_usec t - 1000000) `div` 1000000 + 1)) by lia. done. }
  all: rewrite (proj2 (Z.ltb_lt (tv_usec t) 1000000)) by lia; cbn [orb]; unfold mret, res_ret; f_equal;
    destruct (Z.leb_spec 0 (tv_usec t)); [|done];
    rewrite Z.div_small, Z.mod_small by lia; destruct t; cbn; f_equal; lia.
Qed.
