(* ===== verification/Dlist.v ===== *)
(** * Doubly linked lists (include/dlist.h)

    The list is modelled at the level of its pointers: a heap maps each
    [struct dlist_head] to its two fields, an operation is the sequence of
    loads and stores of the C inline function, and a load or store through an
    address that holds no [struct dlist_head] is a [Fault]. *)

From stdpp Require Import base numbers gmap list.
From S2P Require Import Prelude.

(** [struct dlist_head] *)
Record dlist_head (K : Type) := mk_head { next : K; prev : K }.
Arguments mk_head {K} _ _.
Arguments next {K} _.
Arguments prev {K} _.

(** Pointers: an address type with a distinguished null pointer. *)
Class Pointer (K : Type) := null : K.

Section dlist.
Context {K : Type} `{Countable K} `{!Pointer K}.

Abbreviation heap := (gmap K (dlist_head K)).
Implicit Types (h : heap) (p q x y head : K) (l : list K).

Definition load h p : res (dlist_head K) := deref (h !! p).
Definition set_next h p v : res heap :=
  n ← load h p; mret (<[p := mk_head v (prev n)]> h).
Definition set_prev h p v : res heap :=
  n ← load h p; mret (<[p := mk_head (next n) v]> h).

Definition INIT_DLIST_HEAD h p : res heap :=
  h ← set_next h p p; set_prev h p p.

Definition __dlist_add h new prv nxt : res heap :=
  h ← set_prev h nxt new;
  h ← set_next h new nxt;
  h ← set_prev h new prv;
  set_next h prv new.

Definition __dlist_del h prv nxt : res heap :=
  h ← set_prev h nxt prv; set_next h prv nxt.

Definition dlist_add h new head : res heap :=
  n ← load h head; __dlist_add h new head (next n).

Definition dlist_add_tail h new head : res heap :=
  n ← load h head; __dlist_add h new (prev n) head.

Definition dlist_del h entry : res heap :=
  n ← load h entry;
  h ← __dlist_del h (prev n) (next n);
  h ← set_next h entry null;
  set_prev h entry null.

Definition dlist_del_init h entry : res heap :=
  n ← load h entry;
  h ← __dlist_del h (prev n) (next n);
  INIT_DLIST_HEAD h entry.

Definition dlist_empty h head : res bool :=
  n ← load h head; mret (bool_decide (next n = head)).

(** The loop [for (entry = head->next; entry != head; entry = entry->next)]
    that the callers of this module write, as the entries it visits from
    [entry] on. *)
Fixpoint dlist_walk (fuel : nat) h head entry : res (list K) :=
  if bool_decide (entry = head) then mret []
  else match fuel with
       | O => NoFuel
       | S fuel =>
           n ← load h entry;
           es ← dlist_walk fuel h head (next n);
           mret (entry :: es)
       end.

Definition dlist_entries (fuel : nat) h head : res (list K) :=
  n ← load h head; dlist_walk fuel h head (next n).

(** ** Representation predicate *)

Definition nx h p : option K := next <$> h !! p.
Definition pv h p : option K := prev <$> h !! p.

(** [x->next == y] and [y->prev == x] *)
Definition link h x y : Prop := nx h x = Some y ∧ pv h y = Some x.

Fixpoint chain h (ls : list K) : Prop :=
  match ls with
  | x :: (y :: _) as t => link h x y ∧ chain h t
  | _ => True
  end.

(** [head] heads the circular list of the entries [l], in [next] order. *)
Definition is_dlist h head l : Prop :=
  NoDup (head :: l) ∧ chain h (head :: l ++ [head]).

(** ** Stores *)

Lemma nx_Some h p v : nx h p = Some v → is_Some (h !! p).
Proof. unfold nx. destruct (h !! p); naive_solver. Qed.
Lemma pv_Some h p v : pv h p = Some v → is_Some (h !! p).
Proof. unfold pv. destruct (h !! p); naive_solver. Qed.

Lemma set_next_Ok h p v :
  is_Some (h !! p) → ∃ h', set_next h p v = Ok h'
    ∧ (∀ q, nx h' q = if decide (q = p) then Some v else nx h q)
    ∧ (∀ q, pv h' q = pv h q)
    ∧ (∀ q, q ≠ p → h' !! q = h !! q)
    ∧ (∀ q, is_Some (h' !! q) ↔ is_Some (h !! q)).
Proof.
  intros [n Hn]. unfold set_next, load. rewrite Hn. cbn.
  eexists. split; [done|]. unfold nx, pv.
  repeat split; intros; repeat case_decide; subst;
    rewrite ?lookup_insert_eq, ?lookup_insert_ne in * by done; simplify_eq/=; auto.
  - destruct (decide (q = p)); subst;
      rewrite ?lookup_insert_eq, ?lookup_insert_ne, ?Hn by done; done.
  - destruct (decide (q = p)); subst;
      rewrite ?lookup_insert_eq, ?lookup_insert_ne in * by done; rewrite ?Hn; eauto.
  - destruct (decide (q = p)); subst;
      rewrite ?lookup_insert_eq, ?lookup_insert_ne in * by done; eauto.
Qed.

Lemma set_prev_Ok h p v :
  is_Some (h !! p) → ∃ h', set_prev h p v = Ok h'
    ∧ (∀ q, pv h' q = if decide (q = p) then Some v else pv h q)
    ∧ (∀ q, nx h' q = nx h q)
    ∧ (∀ q, q ≠ p → h' !! q = h !! q)
    ∧ (∀ q, is_Some (h' !! q) ↔ is_Some (h !! q)).
Proof.
  intros [n Hn]. unfold set_prev, load. rewrite Hn. cbn.
  eexists. split; [done|]. unfold nx, pv.
  repeat split; intros; repeat case_decide; subst;
    rewrite ?lookup_insert_eq, ?lookup_insert_ne in * by done; simplify_eq/=; auto.
  - destruct (decide (q = p)); subst;
      rewrite ?lookup_insert_eq, ?lookup_insert_ne, ?Hn by done; done.
  - destruct (decide (q = p)); subst;
      rewrite ?lookup_insert_eq, ?lookup_insert_ne in * by done; rewrite ?Hn; eauto.
  - destruct (decide (q = p)); subst;
      rewrite ?lookup_insert_eq, ?lookup_insert_ne in * by done; eauto.
Qed.

(** ** Chains *)

Lemma chain_app h l1 x l2 :
  chain h (l1 ++ x :: l2) ↔ chain h (l1 ++ [x]) ∧ chain h (x :: l2).
Proof.
  induction l1 as [|y l1 IH]; [cbn; tauto|].
  destruct l1 as [|z l1]; [cbn in *; tauto|].
  change (link h y z ∧ chain h ((z :: l1) ++ x :: l2)
    ↔ (link h y z ∧ chain h ((z :: l1) ++ [x])) ∧ chain h (x :: l2)).
  rewrite IH. tauto.
Qed.

Lemma chain_snoc2 h l x y :
  chain h (l ++ [x; y]) ↔ chain h (l ++ [x]) ∧ link h x y.
Proof. rewrite (chain_app h l x [y]). cbn. tauto. Qed.

(** A chain only depends on the [next] of all its elements but the last and
    on the [prev] of all but the first. *)
Lemma chain_frame h h' ls :
  (∀ q, q ∈ removelast ls → nx h' q = nx h q) →
  (∀ q, q ∈ tail ls → pv h' q = pv h q) →
  chain h ls → chain h' ls.
Proof.
  induction ls as [|x ls IH]; [done|].
  destruct ls as [|y ls]; [done|]. intros Hn Hp [[Hl1 Hl2] Hc].
  split.
  - split; [rewrite Hn by (cbn; set_solver)|rewrite Hp by (cbn; set_solver)]; done.
  - apply IH; [| |done].
    + intros q Hq. apply Hn. cbn -[removelast]. set_solver.
    + intros q Hq. apply Hp. cbn. set_solver.
Qed.

Lemma chain_mapped h ls x y :
  chain h (x :: y :: ls) → ∀ q, q ∈ x :: y :: ls → is_Some (h !! q).
Proof.
  revert x y. induction ls as [|z ls IH]; intros x y Hc q Hq.
  - destruct Hc as [[H1 H2] _]. apply nx_Some in H1. apply pv_Some in H2. set_solver.
  - destruct Hc as [[H1 H2] Hc]. apply nx_Some in H1.
    rewrite elem_of_cons in Hq. destruct Hq as [->|Hq]; [done|]. by eapply IH.
Qed.

(** Inserting between two consecutive elements of a chain. *)
Lemma dlist_add_chain h L p n R new :
  NoDup (removelast (L ++ p :: n :: R)) → NoDup (tail (L ++ p :: n :: R)) →
  chain h (L ++ p :: n :: R) → new ∉ L ++ p :: n :: R → is_Some (h !! new) →
  ∃ h', __dlist_add h new p n = Ok h'
    ∧ chain h' (L ++ p :: new :: n :: R)
    ∧ (∀ q, q ∉ [new; p; n] → h' !! q = h !! q)
    ∧ (∀ q, is_Some (h' !! q) ↔ is_Some (h !! q)).
Proof.
  intros Hnd1 Hnd2 Hc Hnew Hm.
  assert (Hpn : is_Some (h !! p) ∧ is_Some (h !! n)).
  { apply chain_app in Hc as [_ Hc]. split; eapply chain_mapped; eauto; set_solver. }
  destruct Hpn as [Hp Hn].
  destruct (set_prev_Ok h n new Hn) as (h1 & E1 & P1 & N1 & F1 & M1).
  destruct (set_next_Ok h1 new n) as (h2 & E2 & N2 & P2 & F2 & M2); [by apply M1|].
  destruct (set_prev_Ok h2 new p) as (h3 & E3 & P3 & N3 & F3 & M3); [by apply M2, M1|].
  destruct (set_next_Ok h3 p new) as (h4 & E4 & N4 & P4 & F4 & M4); [by apply M3, M2, M1|].
  exists h4. unfold __dlist_add. rewrite E1. cbn. rewrite E2. cbn. rewrite E3. cbn.
  rewrite E4. split; [done|].
  assert (Nx : ∀ q, q ≠ p → q ≠ new → nx h4 q = nx h q).
  { intros q ??. rewrite N4, decide_False, N3, N2, decide_False, N1 by done. done. }
  assert (Pv : ∀ q, q ≠ n → q ≠ new → pv h4 q = pv h q).
  { intros q ??. rewrite P4, P3, decide_False, P2, P1, decide_False by done. done. }
  rewrite removelast_app in Hnd1 by done.
  change (removelast (p :: n :: R)) with (p :: removelast (n :: R)) in Hnd1.
  apply NoDup_app in Hnd1 as (_ & HLp & HR). apply NoDup_cons in HR as [HpR _].
  apply chain_app in Hc as [HcL HcR]. destruct HcR as [_ HcR].
  assert (HnR : (n ∉ R) ∧ (n ∉ tail (L ++ [p]))).
  { destruct L as [|a L]; cbn in Hnd2.
    - apply NoDup_cons in Hnd2 as [? _]. split; [done|cbn; set_solver].
    - apply NoDup_app in Hnd2 as (_ & Hd & Hnd2). apply NoDup_cons in Hnd2 as [? Hnd2].
      apply NoDup_cons in Hnd2 as [? _]. cbn. set_solver. }
  split; [|split].
  - apply chain_app. split; [|split; [|split]].
    + eapply chain_frame, HcL; intros q Hq.
      * rewrite removelast_snoc in Hq. apply Nx; set_solver.
      * apply Pv; [set_solver|]. destruct L; set_solver.
    + split; [rewrite N4, decide_True by done; done|].
      rewrite P4, P3, decide_True by done. done.
    + split.
      * rewrite N4, decide_False, N3, N2, decide_True by set_solver. done.
      * rewrite P4, P3, decide_False, P2, P1, decide_True by set_solver. done.
    + eapply chain_frame, HcR; intros q Hq.
      * apply Nx; [set_solver|]. intros ->. apply Hnew, elem_of_app. right. right.
        assert (n :: R ≠ []) as Hne by done.
        apply (app_removelast_last n) in Hne. rewrite Hne. set_solver.
      * cbn in Hq. apply Pv; set_solver.
  - intros q Hq. rewrite F4, F3, F2, F1 by set_solver. done.
  - intros q. rewrite M4, M3, M2, M1. done.
Qed.

(** Unlinking the element between two others. *)
Lemma dlist_del_chain h L p e n R :
  NoDup (removelast (L ++ p :: e :: n :: R)) → NoDup (tail (L ++ p :: e :: n :: R)) →
  chain h (L ++ p :: e :: n :: R) →
  ∃ h', __dlist_del h p n = Ok h'
    ∧ chain h' (L ++ p :: n :: R)
    ∧ (∀ q, q ∉ [p; n] → h' !! q = h !! q)
    ∧ (∀ q, is_Some (h' !! q) ↔ is_Some (h !! q)).
Proof.
  intros Hnd1 Hnd2 Hc.
  assert (Hpn : is_Some (h !! p) ∧ is_Some (h !! n)).
  { apply chain_app in Hc as [_ Hc]. split; eapply chain_mapped; eauto; set_solver. }
  destruct Hpn as [Hp Hn].
  destruct (set_prev_Ok h n p Hn) as (h1 & E1 & P1 & N1 & F1 & M1).
  destruct (set_next_Ok h1 p n) as (h2 & E2 & N2 & P2 & F2 & M2); [by apply M1|].
  exists h2. unfold __dlist_del. rewrite E1. cbn. rewrite E2. split; [done|].
  rewrite removelast_app in Hnd1 by done.
  change (removelast (p :: e :: n :: R)) with (p :: e :: removelast (n :: R)) in Hnd1.
  apply NoDup_app in Hnd1 as (_ & HLp & HR). apply NoDup_cons in HR as [HpR _].
  apply chain_app in Hc as [HcL (_ & _ & HcR)].
  assert (HnR : (n ∉ R) ∧ (n ∉ tail (L ++ [p]))).
  { destruct L as [|a L]; cbn in Hnd2.
    - apply NoDup_cons in Hnd2 as [? Hnd2]. apply NoDup_cons in Hnd2 as [? _].
      split; [done|cbn; set_solver].
    - apply NoDup_app in Hnd2 as (_ & Hd & Hnd2). apply NoDup_cons in Hnd2 as [? Hnd2].
      apply NoDup_cons in Hnd2 as [? Hnd2]. apply NoDup_cons in Hnd2 as [? _].
      cbn. set_solver. }
  split; [|split].
  - apply chain_app. split; [|split].
    + eapply chain_frame, HcL; intros q Hq.
      * rewrite removelast_snoc in Hq. rewrite N2, decide_False, N1 by set_solver. done.
      * rewrite P2, P1, decide_False by set_solver. done.
    + split; [rewrite N2, decide_True by done; done|].
      rewrite P2, P1, decide_True by done. done.
    + eapply chain_frame, HcR; intros q Hq.
      * rewrite N2, decide_False, N1 by set_solver. done.
      * cbn in Hq. rewrite P2, P1, decide_False by set_solver. done.
  - intros q Hq. rewrite F2, F1 by set_solver. done.
  - intros q. rewrite M2, M1. done.
Qed.

(** ** Operations on one list *)

Lemma is_dlist_nodup h head l : is_dlist h head l → NoDup (head :: l).
Proof. by intros [? _]. Qed.

Lemma is_dlist_mapped h head l q : is_dlist h head l → q ∈ head :: l → is_Some (h !! q).
Proof.
  intros [_ Hc] Hq. destruct l as [|x l]; eapply chain_mapped; eauto; set_solver.
Qed.

Lemma is_dlist_frame h h' head l :
  (∀ q, q ∈ head :: l → h' !! q = h !! q) → is_dlist h head l → is_dlist h' head l.
Proof.
  intros Hf [Hnd Hc]. split; [done|].
  eapply chain_frame, Hc; unfold nx, pv; intros q Hq.
  - rewrite app_comm_cons, removelast_snoc in Hq. by rewrite Hf.
  - cbn in Hq. rewrite Hf by set_solver. done.
Qed.

(** The two ends of the list as the head sees them. *)
Lemma is_dlist_load h head l :
  is_dlist h head l →
  ∃ n, load h head = Ok n ∧ next n = hd head l ∧ prev n = List.last l head.
Proof.
  intros Hd. destruct (is_dlist_mapped h head l head Hd) as [n Hn]; [set_solver|].
  exists n. unfold load. rewrite Hn. split; [done|].
  destruct Hd as [_ Hc]. split.
  - destruct l as [|x l]; destruct Hc as [[Hx _] _];
      unfold nx in Hx; rewrite Hn in Hx; cbn in *; congruence.
  - destruct l as [|x l _] using rev_ind.
    + destruct Hc as [[_ Hx] _]. unfold pv in Hx. rewrite Hn in Hx. cbn in *. congruence.
    + rewrite <- app_assoc, app_comm_cons in Hc. apply chain_snoc2 in Hc as [_ [_ Hx]].
      unfold pv in Hx. rewrite Hn in Hx. rewrite List.last_last. cbn in *. congruence.
Qed.

Lemma dlist_empty_spec h head l :
  is_dlist h head l → dlist_empty h head = Ok (bool_decide (l = [])).
Proof.
  intros Hd. destruct (is_dlist_load h head l Hd) as (n & Hn & Hnext & _).
  unfold dlist_empty. rewrite Hn. cbn. f_equal. rewrite Hnext.
  destruct Hd as [Hnd _]. destruct l as [|x l]; cbn; [by rewrite !bool_decide_true|].
  rewrite !bool_decide_false; [done..|]. apply NoDup_cons in Hnd as [? _]. set_solver.
Qed.

Lemma INIT_DLIST_HEAD_spec h p :
  is_Some (h !! p) →
  ∃ h', INIT_DLIST_HEAD h p = Ok h' ∧ is_dlist h' p []
    ∧ (∀ q, q ≠ p → h' !! q = h !! q)
    ∧ (∀ q, is_Some (h' !! q) ↔ is_Some (h !! q)).
Proof.
  intros Hp. destruct (set_next_Ok h p p Hp) as (h1 & E1 & N1 & P1 & F1 & M1).
  destruct (set_prev_Ok h1 p p) as (h2 & E2 & P2 & N2 & F2 & M2); [by apply M1|].
  exists h2. unfold INIT_DLIST_HEAD. rewrite E1. cbn. rewrite E2.
  split; [done|split; [split; [apply NoDup_singleton|split; [split|done]]|split]].
  - rewrite N2, N1, decide_True by done. done.
  - rewrite P2, decide_True by done. done.
  - intros q Hq. by rewrite F2, F1.
  - intros q. by rewrite M2, M1.
Qed.

(** Insertion before [e], which is an entry of the list or its head. *)
Lemma dlist_insert_spec h head l1 l2 new :
  is_dlist h head (l1 ++ l2) → new ∉ head :: l1 ++ l2 → is_Some (h !! new) →
  ∃ h', __dlist_add h new (List.last l1 head) (hd head l2) = Ok h'
    ∧ is_dlist h' head (l1 ++ new :: l2)
    ∧ (∀ q, q ∉ new :: head :: l1 ++ l2 → h' !! q = h !! q)
    ∧ (∀ q, is_Some (h' !! q) ↔ is_Some (h !! q)).
Proof.
  intros [Hnd Hc] Hnew Hm.
  assert (∃ L R, head :: (l1 ++ l2) ++ [head] = L ++ List.last l1 head :: hd head l2 :: R
      ∧ head :: (l1 ++ new :: l2) ++ [head]
          = L ++ List.last l1 head :: new :: hd head l2 :: R)
    as (L & R & EQ & EQ').
  { assert (∃ R, l2 ++ [head] = hd head l2 :: R) as [R HR].
    { destruct l2; eexists; reflexivity. }
    assert (∃ L, head :: l1 = L ++ [List.last l1 head]) as [L HL].
    { destruct l1 as [|x l _] using rev_ind; [by exists []|].
      exists (head :: l). by rewrite List.last_last. }
    exists L, R. rewrite <- !app_assoc. cbn. rewrite HR.
    rewrite !app_comm_cons, HL, <- !app_assoc. done. }
  rewrite EQ in Hc.
  destruct (dlist_add_chain h L (List.last l1 head) (hd head l2) R new)
    as (h' & E & Hc' & F & M); [| |done| |done|].
  - rewrite <- EQ, app_comm_cons, removelast_snoc. done.
  - rewrite <- EQ. cbn. rewrite NoDup_cons in Hnd. apply NoDup_app.
    split_and!; [tauto|set_solver|apply NoDup_singleton].
  - rewrite <- EQ. set_solver.
  - exists h'. split; [done|]. split; [split|split].
    + rewrite NoDup_cons_middle. by apply NoDup_cons.
    + by rewrite EQ'.
    + intros q Hq. apply F. intros Hq'. apply Hq.
      assert (List.last l1 head ∈ head :: l1 ++ l2 ∧ hd head l2 ∈ head :: l1 ++ l2) as [].
      { split.
        - destruct l1 as [|x l _] using rev_ind; [set_solver|].
          rewrite List.last_last. set_solver.
        - destruct l2; cbn; set_solver. }
      set_solver.
    + done.
Qed.

(** Facts about an entry of a list, and the list without it. *)
Lemma dlist_del_spec h head l1 e l2 :
  is_dlist h head (l1 ++ e :: l2) →
  ∃ h', dlist_del h e = Ok h'
    ∧ is_dlist h' head (l1 ++ l2)
    ∧ (∀ q, q ∉ head :: l1 ++ e :: l2 → h' !! q = h !! q)
    ∧ (∀ q, is_Some (h' !! q) ↔ is_Some (h !! q))
    ∧ h' !! e = Some (mk_head null null).
Proof.
  intros Hd. pose proof Hd as [Hnd Hc].
  set (p := List.last l1 head). set (n := hd head l2).
  assert (∃ L R, head :: (l1 ++ e :: l2) ++ [head] = L ++ p :: e :: n :: R
      ∧ head :: (l1 ++ l2) ++ [head] = L ++ p :: n :: R) as (L & R & EQ & EQ').
  { assert (∃ R, l2 ++ [head] = n :: R) as [R HR]. { destruct l2; eexists; reflexivity. }
    assert (∃ L, head :: l1 = L ++ [p]) as [L HL].
    { unfold p. destruct l1 as [|x l _] using rev_ind; [by exists []|].
      exists (head :: l). by rewrite List.last_last. }
    exists L, R. rewrite <- !app_assoc. cbn. rewrite HR.
    rewrite !app_comm_cons, HL, <- !app_assoc. done. }
  rewrite EQ in Hc.
  destruct (dlist_del_chain h L p e n R) as (h1 & E1 & Hc1 & F1 & M1); [| |done|].
  { rewrite <- EQ, app_comm_cons, removelast_snoc. done. }
  { rewrite <- EQ. cbn. rewrite NoDup_cons in Hnd. apply NoDup_app.
    split_and!; [tauto|set_solver|apply NoDup_singleton]. }
  assert ((e ∉ head :: l1 ++ l2) ∧ NoDup (head :: l1 ++ l2)) as [He Hnd'].
  { apply NoDup_cons. by rewrite <- NoDup_cons_middle. }
  assert (Hpn : (p ∈ head :: l1 ++ l2) ∧ (n ∈ head :: l1 ++ l2)).
  { unfold p, n. split.
    - destruct l1 as [|x l _] using rev_ind; [set_solver|].
      rewrite List.last_last. set_solver.
    - destruct l2; cbn; set_solver. }
  destruct (is_dlist_mapped _ _ _ e Hd) as [ne Hne]; [set_solver|].
  assert (prev ne = p ∧ next ne = n) as [Hp Hn].
  { apply chain_app in Hc as [_ ([_ H1] & [H2 _] & _)].
    unfold pv, nx in *. rewrite Hne in *. cbn in *. split; congruence. }
  destruct (set_next_Ok h1 e null) as (h2 & E2 & N2 & P2 & F2 & M2); [apply M1; eauto|].
  destruct (set_prev_Ok h2 e null) as (h3 & E3 & P3 & N3 & F3 & M3); [apply M2, M1; eauto|].
  exists h3. unfold dlist_del, load. rewrite Hne. cbn. rewrite Hp, Hn, E1. cbn.
  rewrite E2. cbn. rewrite E3. split; [done|]. split; [|split; [|split]].
  - eapply (is_dlist_frame h1); [|split; [done|by rewrite EQ']].
    intros q Hq. rewrite F3, F2; [done|set_solver..].
  - intros q Hq. rewrite F3, F2, F1; set_solver.
  - intros q. rewrite M3, M2, M1. done.
  - assert (is_Some (h3 !! e)) as [n3 H3]. { apply M3, M2, M1. eauto. }
    rewrite H3. specialize (P3 e). specialize (N3 e). rewrite N2 in N3.
    rewrite decide_True in P3, N3 by done. unfold pv, nx in *. rewrite H3 in *.
    destruct n3; cbn in *. congruence.
Qed.

(** ** Traversal *)

Lemma dlist_walk_spec fuel h head l1 l2 :
  is_dlist h head (l1 ++ l2) → (length l2 ≤ fuel)%nat →
  dlist_walk fuel h head (hd head l2) = Ok l2.
Proof.
  revert fuel l1. induction l2 as [|x l2 IH]; intros fuel l1 Hd Hf.
  - destruct fuel; cbn; by rewrite bool_decide_true.
  - destruct fuel as [|fuel]; cbn in Hf; [lia|]. cbn [hd dlist_walk].
    pose proof (is_dlist_nodup _ _ _ Hd) as Hnd. apply NoDup_cons in Hnd as [Hnd _].
    rewrite bool_decide_false by set_solver.
    destruct (is_dlist_mapped _ _ _ x Hd) as [n Hn]; [set_solver|].
    unfold load. rewrite Hn. cbn.
    assert (next n = hd head l2) as ->.
    { destruct Hd as [_ Hc]. rewrite <- app_assoc, app_comm_cons in Hc.
      apply chain_app in Hc as [_ Hc].
      destruct l2 as [|y l2]; destruct Hc as [[Hx _] _];
        unfold nx in Hx; rewrite Hn in Hx; cbn in *; congruence. }
    rewrite (IH fuel (l1 ++ [x])); [done| |lia].
    by rewrite <- app_assoc.
Qed.

Lemma dlist_entries_spec fuel h head l :
  is_dlist h head l → (length l ≤ fuel)%nat → dlist_entries fuel h head = Ok l.
Proof.
  intros Hd Hf. destruct (is_dlist_load h head l Hd) as (n & Hn & Hnext & _).
  unfold dlist_entries. rewrite Hn. cbn. rewrite Hnext.
  by apply (dlist_walk_spec fuel h head [] l).
Qed.

(** ** All the lists of a heap

    The modules keep several lists at once, so their states are described by
    a map from list heads to entries; no node is on two lists. *)
Implicit Types (m : gmap K (list K)).

Definition on_list m x : Prop := ∃ head l, m !! head = Some l ∧ x ∈ head :: l.

Definition dlists h m : Prop :=
  (∀ head l, m !! head = Some l → is_dlist h head l) ∧
  (∀ hd1 hd2 l1 l2 x, m !! hd1 = Some l1 → m !! hd2 = Some l2 →
     x ∈ hd1 :: l1 → x ∈ hd2 :: l2 → hd1 = hd2).

Lemma dlists_is h m head l : dlists h m → m !! head = Some l → is_dlist h head l.
Proof. intros [Hd _]. apply Hd. Qed.

(** The general step: the nodes of one list change, the others are framed. *)
Lemma dlists_update h h' m head l l' :
  dlists h m → m !! head = Some l → is_dlist h' head l' →
  (∀ x, x ∈ l' → x ∈ l ∨ ¬ on_list m x) →
  (∀ q, q ∉ head :: l → q ∉ l' → h' !! q = h !! q) →
  dlists h' (<[head := l']> m).
Proof.
  intros [Hd Hdj] Hm Hd' Hsub Hfr.
  assert (Hsep : ∀ hd2 l2 x, hd2 ≠ head → m !! hd2 = Some l2 →
            x ∈ hd2 :: l2 → x ∉ head :: l').
  { intros hd2 l2 x Hne H2 Hx Hx'. apply elem_of_cons in Hx' as [->|Hx'].
    - apply Hne. eapply Hdj; [done|done|exact Hx|]. set_solver.
    - destruct (Hsub _ Hx') as [Hl|Hno].
      + apply Hne. eapply Hdj; [done|done|exact Hx|]. set_solver.
      + apply Hno. by exists hd2, l2. }
  split.
  - intros hd2 l2 H2. apply lookup_insert_Some in H2 as [[<- <-]|[Hne H2]]; [done|].
    eapply is_dlist_frame, Hd, H2. intros q Hq. apply Hfr.
    + intros Hq'. apply Hne. eapply Hdj; eauto.
    + specialize (Hsep hd2 l2 q). set_solver.
  - intros hd1 hd2 l1 l2 x H1 H2 Hx1 Hx2.
    apply lookup_insert_Some in H1 as [[<- <-]|[Hne1 H1]];
      apply lookup_insert_Some in H2 as [[<- <-]|[Hne2 H2]]; try done.
    + exfalso. eapply Hsep; eauto.
    + exfalso. eapply Hsep; eauto.
    + eapply Hdj; eauto.
Qed.

Lemma not_on_list m head l x : m !! head = Some l → ¬ on_list m x → x ∉ head :: l.
Proof. intros Hm Hno Hx. apply Hno. by exists head, l. Qed.

Lemma dlists_mapped h m x : dlists h m → on_list m x → is_Some (h !! x).
Proof. intros [Hd _] (head & l & Hm & Hx). eapply is_dlist_mapped; eauto. Qed.

Lemma on_list_insert m head l l' x :
  m !! head = Some l → on_list (<[head := l']> m) x → x ∈ l' ∨ on_list m x.
Proof.
  intros Hm (hd2 & l2 & H2 & Hx).
  apply lookup_insert_Some in H2 as [[<- <-]|[Hne H2]].
  - apply elem_of_cons in Hx as [->|Hx]; [|by left]. right. exists head, l. set_solver.
  - right. by exists hd2, l2.
Qed.

Lemma dlists_insert h m head l1 l2 new :
  dlists h m → m !! head = Some (l1 ++ l2) → ¬ on_list m new → is_Some (h !! new) →
  ∃ h', __dlist_add h new (List.last l1 head) (hd head l2) = Ok h'
    ∧ dlists h' (<[head := l1 ++ new :: l2]> m)
    ∧ (∀ q, ¬ on_list m q → q ≠ new → h' !! q = h !! q)
    ∧ (∀ q, is_Some (h' !! q) ↔ is_Some (h !! q)).
Proof.
  intros Hds Hm Hno Hnew.
  destruct (dlist_insert_spec h head l1 l2 new) as (h' & E & Hd' & F & M);
    [by eapply dlists_is|by eapply not_on_list|done|].
  exists h'. split; [done|]. split; [|split; [|done]].
  - eapply dlists_update; eauto; [set_solver|]. intros q ??. apply F. set_solver.
  - intros q Hq Hne. apply F. pose proof (not_on_list _ _ _ _ Hm Hq). set_solver.
Qed.

Lemma dlist_add_spec h m head l new :
  dlists h m → m !! head = Some l → ¬ on_list m new → is_Some (h !! new) →
  ∃ h', dlist_add h new head = Ok h'
    ∧ dlists h' (<[head := new :: l]> m)
    ∧ (∀ q, ¬ on_list m q → q ≠ new → h' !! q = h !! q)
    ∧ (∀ q, is_Some (h' !! q) ↔ is_Some (h !! q)).
Proof.
  intros Hds Hm Hno Hnew.
  destruct (is_dlist_load h head l) as (n & Hn & Hnext & _); [by eapply dlists_is|].
  unfold dlist_add. rewrite Hn. cbn. rewrite Hnext.
  by apply (dlists_insert h m head [] l new).
Qed.

(** [dlist_add_tail] on the list head appends. *)
Lemma dlist_add_tail_spec h m head l new :
  dlists h m → m !! head = Some l → ¬ on_list m new → is_Some (h !! new) →
  ∃ h', dlist_add_tail h new head = Ok h'
    ∧ dlists h' (<[head := l ++ [new]]> m)
    ∧ (∀ q, ¬ on_list m q → q ≠ new → h' !! q = h !! q)
    ∧ (∀ q, is_Some (h' !! q) ↔ is_Some (h !! q)).
Proof.
  intros Hds Hm Hno Hnew.
  destruct (is_dlist_load h head l) as (n & Hn & _ & Hprev); [by eapply dlists_is|].
  unfold dlist_add_tail. rewrite Hn. cbn. rewrite Hprev.
  apply (dlists_insert h m head l [] new); [done|by rewrite app_nil_r|done|done].
Qed.

(** The [prev] field of an entry is the entry before it. *)
Lemma is_dlist_entry h head l1 e l2 :
  is_dlist h head (l1 ++ e :: l2) →
  load h e = Ok (mk_head (hd head l2) (List.last l1 head)).
Proof.
  intros Hd. destruct (is_dlist_mapped _ _ _ e Hd) as [n Hn]; [set_solver|].
  unfold load. rewrite Hn. cbn. f_equal. destruct Hd as [_ Hc].
  rewrite <- app_assoc, app_comm_cons in Hc. apply chain_app in Hc as [Hc1 Hc2].
  assert (next n = hd head l2).
  { destruct l2 as [|y l2]; destruct Hc2 as [[Hx _] _];
      unfold nx in Hx; rewrite Hn in Hx; cbn in *; congruence. }
  assert (prev n = List.last l1 head).
  { destruct l1 as [|y l1 _] using rev_ind.
    - destruct Hc1 as [[_ Hx] _]. unfold pv in Hx. rewrite Hn in Hx. cbn in *. congruence.
    - rewrite app_comm_cons, <- app_assoc in Hc1. apply chain_snoc2 in Hc1 as [_ [_ Hx]].
      unfold pv in Hx. rewrite Hn in Hx. rewrite List.last_last. cbn in *. congruence. }
  destruct n; cbn in *. congruence.
Qed.

(** [dlist_add_tail] on an entry inserts in front of that entry. *)
Lemma dlist_add_before_spec h m head l1 e l2 new :
  dlists h m → m !! head = Some (l1 ++ e :: l2) → ¬ on_list m new → is_Some (h !! new) →
  ∃ h', dlist_add_tail h new e = Ok h'
    ∧ dlists h' (<[head := l1 ++ new :: e :: l2]> m)
    ∧ (∀ q, ¬ on_list m q → q ≠ new → h' !! q = h !! q)
    ∧ (∀ q, is_Some (h' !! q) ↔ is_Some (h !! q)).
Proof.
  intros Hds Hm Hno Hnew. unfold dlist_add_tail.
  rewrite (is_dlist_entry h head l1 e l2) by (by eapply dlists_is). cbn.
  by apply (dlists_insert h m head l1 (e :: l2) new).
Qed.

Lemma dlists_del_spec h m head l1 e l2 :
  dlists h m → m !! head = Some (l1 ++ e :: l2) →
  ∃ h', dlist_del h e = Ok h'
    ∧ dlists h' (<[head := l1 ++ l2]> m)
    ∧ ¬ on_list (<[head := l1 ++ l2]> m) e
    ∧ (∀ q, ¬ on_list m q → h' !! q = h !! q)
    ∧ (∀ q, is_Some (h' !! q) ↔ is_Some (h !! q)).
Proof.
  intros Hds Hm.
  pose proof (dlists_is _ _ _ _ Hds Hm) as Hd0.
  destruct (dlist_del_spec h head l1 e l2 Hd0) as (h' & E & Hd' & F & M & _).
  exists h'. split; [done|]. split; [|split; [|split; [|done]]].
  - eapply dlists_update; [done|done|done|set_solver|]. intros q ? _. by apply F.
  - intros (hd2 & l' & H2 & Hx). destruct Hds as [Hd Hdj].
    specialize (Hd _ _ Hm). apply is_dlist_nodup in Hd.
    rewrite NoDup_cons_middle, NoDup_cons in Hd. destruct Hd as [Hd _].
    apply lookup_insert_Some in H2 as [[<- <-]|[Hne H2]]; [done|].
    apply Hne. eapply Hdj; [done|done| |exact Hx]. set_solver.
  - intros q Hq. apply F. by eapply not_on_list.
Qed.

Lemma dlists_empty_spec h m head l :
  dlists h m → m !! head = Some l → dlist_empty h head = Ok (bool_decide (l = [])).
Proof. intros Hds Hm. eapply dlist_empty_spec, dlists_is; eauto. Qed.

(** ** Composite steps of the pool modules *)

Lemma dlists_first h m head l :
  dlists h m → m !! head = Some l →
  ∃ n, load h head = Ok n ∧ next n = hd head l.
Proof.
  intros Hds Hm. destruct (is_dlist_load h head l) as (n & ? & ? & _); eauto.
  by eapply dlists_is.
Qed.

(** An entry goes from one list to the front of another. *)
Lemma dlists_move h m src l1 x l2 dst ld :
  dlists h m → src ≠ dst → m !! src = Some (l1 ++ x :: l2) → m !! dst = Some ld →
  ∃ h1 h2, dlist_del h x = Ok h1 ∧ dlist_add h1 x dst = Ok h2
    ∧ dlists h2 (<[dst := x :: ld]> (<[src := l1 ++ l2]> m)).
Proof.
  intros Hds Hne Hs Hd.
  destruct (dlists_del_spec h m src l1 x l2 Hds Hs) as (h1 & E1 & Hds1 & Hno & _ & M1).
  destruct (dlist_add_spec h1 (<[src := l1 ++ l2]> m) dst ld x) as (h2 & E2 & Hds2 & _ & _);
    [done|by rewrite lookup_insert_ne|done| |].
  - apply M1. eapply dlists_mapped; [exact Hds|]. exists src, (l1 ++ x :: l2). set_solver.
  - eauto 6.
Qed.

Lemma dlists_frame h h' m :
  (∀ q, on_list m q → h' !! q = h !! q) → dlists h m → dlists h' m.
Proof.
  intros Hf [Hd Hdj]. split; [|done].
  intros head l Hm. eapply is_dlist_frame, Hd, Hm.
  intros q Hq. apply Hf. by exists head, l.
Qed.

Lemma INIT_DLIST_HEAD_dlists h m x :
  dlists h m → ¬ on_list m x → is_Some (h !! x) →
  ∃ h', INIT_DLIST_HEAD h x = Ok h' ∧ dlists h' m ∧ is_Some (h' !! x).
Proof.
  intros Hds Hno Hx. destruct (INIT_DLIST_HEAD_spec h x Hx) as (h' & E & _ & F & M).
  exists h'. split; [done|]. split; [|by apply M].
  eapply dlists_frame, Hds. intros q Hq. apply F. by intros ->.
Qed.

Lemma on_list_new m x q : on_list (<[x := []]> m) q → q = x ∨ on_list m q.
Proof.
  intros (head & l & Hm & Hq). apply lookup_insert_Some in Hm as [[<- <-]|[Hne Hm]].
  - left. set_solver.
  - right. by exists head, l.
Qed.

(** A node that is on no list becomes the head of an empty one. *)
Lemma INIT_DLIST_HEAD_new h m x :
  dlists h m → ¬ on_list m x → is_Some (h !! x) →
  ∃ h', INIT_DLIST_HEAD h x = Ok h' ∧ dlists h' (<[x := []]> m)
    ∧ (∀ q, is_Some (h' !! q) ↔ is_Some (h !! q)).
Proof.
  intros [Hd Hdj] Hno Hx. destruct (INIT_DLIST_HEAD_spec h x Hx) as (h' & E & Hx' & F & M).
  exists h'. split; [done|]. split; [|done].
  assert (Hsep : ∀ head l q, m !! head = Some l → q ∈ head :: l → q ≠ x).
  { intros head l q Hm Hq ->. apply Hno. by exists head, l. }
  split.
  - intros head l Hm. apply lookup_insert_Some in Hm as [[<- <-]|[Hne Hm]]; [done|].
    eapply is_dlist_frame, Hd, Hm. intros q Hq. apply F. eauto.
  - intros hd1 hd2 l1 l2 q H1 H2 Hq1 Hq2.
    apply lookup_insert_Some in H1 as [[<- <-]|[Hne1 H1]];
      apply lookup_insert_Some in H2 as [[<- <-]|[Hne2 H2]]; eauto.
    + exfalso. eapply (Hsep hd2); eauto. set_solver.
    + exfalso. eapply (Hsep hd1); eauto. set_solver.
Qed.

(** An entry leaves its list and becomes the head of an empty one. *)
Lemma dlist_del_init_spec h m head l1 e l2 :
  dlists h m → m !! head = Some (l1 ++ e :: l2) →
  ∃ h', dlist_del_init h e = Ok h'
    ∧ dlists h' (<[e := []]> (<[head := l1 ++ l2]> m))
    ∧ (∀ q, is_Some (h' !! q) ↔ is_Some (h !! q)).
Proof.
  intros Hds Hm. destruct (dlists_del_spec h m head l1 e l2 Hds Hm) as (h3 & E & Hds3 & Hno & _ & M3).
  assert (He : is_Some (h !! e)) by (eapply dlists_mapped; [exact Hds|]; exists head, (l1 ++ e :: l2); set_solver).
  unfold dlist_del in E. unfold dlist_del_init. destruct (load h e) as [n| |]; [|done|done]. rewrite bind_ret in E |- *.
  destruct (__dlist_del h (prev n) (next n)) as [h1| |]; [|done|done]. rewrite bind_ret in E |- *.
  assert (He1 : is_Some (h1 !! e)).
  { destruct (h1 !! e) eqn:E1; [done|]. unfold set_next, load in E. by rewrite E1 in E. }
  destruct (set_next_Ok h1 e null He1) as (h2 & E2 & _ & _ & F2 & M2). rewrite E2, bind_ret in E.
  destruct (set_prev_Ok h2 e null) as (h4 & E4 & _ & _ & F4 & M4); [by apply M2|]. rewrite E4 in E. injection E as ->.
  destruct (INIT_DLIST_HEAD_new h1 (<[head := l1 ++ l2]> m) e) as (h' & E' & Hds' & M'); [|done|done|].
  { eapply dlists_frame, Hds3. intros q Hq. assert (q ≠ e) by (by intros ->). by rewrite F4, F2. }
  exists h'. split; [done|]. split; [done|]. intros q. by rewrite M', <- M2, <- M4, M3.
Qed.

(** Fewer lists than there are. *)
Lemma dlists_forget h m x : dlists h (<[x := []]> m) → ¬ on_list m x → dlists h m.
Proof.
  intros [Hd Hdj] Hno. assert (Hx : ∀ head l, m !! head = Some l → <[x := []]> m !! head = Some l).
  { intros head l Hm. rewrite lookup_insert_ne; [done|]. intros <-. apply Hno. exists x, l. set_solver. }
  split; [eauto|]. intros hd1 hd2 l1 l2 q H1 H2. eapply Hdj; eauto.
Qed.

(** ** Sequences of operations *)

(** The uses of this module, with the list each is meant for. *)
Inductive dop : Type :=
| OpInit (x : K)                    (** INIT_DLIST_HEAD(x) *)
| OpAdd (new head : K)              (** dlist_add(new, head) *)
| OpAddTail (new head : K)          (** dlist_add_tail(new, head) *)
| OpAddBefore (new e head : K)      (** dlist_add_tail(new, e), [e] on [head] *)
| OpDel (e head : K)                (** dlist_del(e), [e] on [head] *)
| OpDelInit (e head : K)            (** dlist_del_init(e), [e] on [head] *)
| OpEmpty (head : K).               (** dlist_empty(head) *)

(** What is left of memory, and what the tests for emptiness have told. *)
Definition run_op h (o : dop) : res (heap * list bool) :=
  match o with
  | OpInit x => h ← INIT_DLIST_HEAD h x; mret (h, [])
  | OpAdd new head => h ← dlist_add h new head; mret (h, [])
  | OpAddTail new head => h ← dlist_add_tail h new head; mret (h, [])
  | OpAddBefore new e _ => h ← dlist_add_tail h new e; mret (h, [])
  | OpDel e _ => h ← dlist_del h e; mret (h, [])
  | OpDelInit e _ => h ← dlist_del_init h e; mret (h, [])
  | OpEmpty head => b ← dlist_empty h head; mret (h, [b])
  end.

Fixpoint run_ops h (os : list dop) : res (heap * list bool) :=
  match os with
  | [] => mret (h, [])
  | o :: os =>
      '(h, r) ← run_op h o;
      '(h, rs) ← run_ops h os;
      mret (h, r ++ rs)
  end.

(** The same operations on mathematical lists.  A node that has been taken off with
    [dlist_del_init] heads an empty list, until it is linked again. *)
Inductive abs_op m : dop → gmap K (list K) → list bool → Prop :=
| abs_init x : ¬ on_list m x → abs_op m (OpInit x) (<[x := []]> m) []
| abs_add new head l :
    m !! head = Some l → ¬ on_list m new →
    abs_op m (OpAdd new head) (<[head := new :: l]> m) []
| abs_add_tail new head l :
    m !! head = Some l → ¬ on_list m new →
    abs_op m (OpAddTail new head) (<[head := l ++ [new]]> m) []
| abs_add_before new e head l1 l2 :
    m !! head = Some (l1 ++ e :: l2) → ¬ on_list m new →
    abs_op m (OpAddBefore new e head) (<[head := l1 ++ new :: e :: l2]> m) []
| abs_del e head l1 l2 :
    m !! head = Some (l1 ++ e :: l2) →
    abs_op m (OpDel e head) (<[head := l1 ++ l2]> m) []
| abs_del_init e head l1 l2 :
    m !! head = Some (l1 ++ e :: l2) →
    abs_op m (OpDelInit e head) (<[e := []]> (<[head := l1 ++ l2]> m)) []
| abs_empty head l :
    m !! head = Some l →
    abs_op m (OpEmpty head) m [bool_decide (l = [])].

Inductive abs_ops : gmap K (list K) → list dop → gmap K (list K) → list bool → Prop :=
| abs_nil m : abs_ops m [] m []
| abs_cons m o m1 r os m2 rs : abs_op m o m1 r → abs_ops m1 os m2 rs → abs_ops m (o :: os) m2 (r ++ rs)
| abs_forget m x os m2 rs : ¬ on_list m x → abs_ops m os m2 rs → abs_ops (<[x := []]> m) os m2 rs.

(** The node an operation links; it has to exist in memory. *)
Definition op_node (o : dop) : K :=
  match o with
  | OpInit x => x | OpAdd x _ => x | OpAddTail x _ => x | OpAddBefore x _ _ => x
  | OpDel x _ => x | OpDelInit x _ => x | OpEmpty x => x
  end.

Lemma run_op_refines h m o m' r :
  dlists h m → abs_op m o m' r → is_Some (h !! op_node o) →
  ∃ h', run_op h o = Ok (h', r) ∧ dlists h' m' ∧ (∀ q, is_Some (h' !! q) ↔ is_Some (h !! q)).
Proof.
  intros Hds Hop Hx. destruct Hop as [x Hno|new head l Hm Hno|new head l Hm Hno
    |new e head l1 l2 Hm Hno|e head l1 l2 Hm|e head l1 l2 Hm|head l Hm]; cbn [run_op op_node] in *.
  - destruct (INIT_DLIST_HEAD_new h m x) as (h' & E & ? & ?); [done..|]. rewrite E, bind_ret. eauto.
  - destruct (dlist_add_spec h m head l new) as (h' & E & ? & _ & ?); [done..|]. rewrite E, bind_ret. eauto.
  - destruct (dlist_add_tail_spec h m head l new) as (h' & E & ? & _ & ?); [done..|]. rewrite E, bind_ret. eauto.
  - destruct (dlist_add_before_spec h m head l1 e l2 new) as (h' & E & ? & _ & ?); [done..|]. rewrite E, bind_ret. eauto.
  - destruct (dlists_del_spec h m head l1 e l2) as (h' & E & ? & _ & _ & ?); [done..|]. rewrite E, bind_ret. eauto.
  - destruct (dlist_del_init_spec h m head l1 e l2) as (h' & E & ? & ?); [done..|]. rewrite E, bind_ret. eauto.
  - rewrite (dlists_empty_spec h m head l Hds Hm), bind_ret. eauto.
Qed.

(** C38: the pointer manipulations of dlist.h implement lists.  Starting from
    any heap in which a family of lists is linked, a sequence of
    initialisations, insertions at the front, at the back and before an
    entry, deletions of both kinds, and tests for emptiness, each legal for the
    mathematical lists, completes without touching an unmapped node; the tests tell
    whether the mathematical list is empty; and walking [next] from any head then
    visits exactly the entries of the mathematical list, in order. *)
Theorem dlist_refines_lists h m os m' rs :
  dlists h m → abs_ops m os m' rs → (∀ o, o ∈ os → is_Some (h !! op_node o)) →
  ∃ h', run_ops h os = Ok (h', rs) ∧ dlists h' m'
    ∧ (∀ head l, m' !! head = Some l → dlist_entries (length l) h' head = Ok l).
Proof.
  intros Hds Hops. revert h Hds. induction Hops as [m|m o m1 r os m2 rs Hop Hops IH|m x os m2 rs Hno Hops IH];
    intros h Hds Hmap; cbn [run_ops].
  - exists h. split_and!; [done|done|]. intros head l Hm.
    apply dlist_entries_spec; [by eapply dlists_is|done].
  - destruct (run_op_refines h m o m1 r Hds Hop) as (h1 & E & Hds1 & M1); [apply Hmap; set_solver|].
    destruct (IH h1 Hds1) as (h' & E' & H'); [intros o' Ho'; apply M1, Hmap; set_solver|].
    exists h'. split; [|done]. by rewrite E, bind_ret, E', bind_ret.
  - apply IH; [by eapply dlists_forget|done].
Qed.
End dlist.

#[global] Arguments load : simpl never.
#[global] Arguments INIT_DLIST_HEAD : simpl never.
#[global] Arguments dlist_add : simpl never.
#[global] Arguments dlist_add_tail : simpl never.
#[global] Arguments dlist_del : simpl never.
#[global] Arguments dlist_del_init : simpl never.
#[global] Arguments dlist_empty : simpl never.

(** Nodes 1 (a head) to 4 in memory: insertions, deletions and tests; node 2 is taken off
    and linked again. *)
#[local] Instance nat_pointer : Pointer nat := 0%nat.

Definition demo_heap : gmap nat (dlist_head nat) :=
  list_to_map ((λ i, (i, mk_head 0%nat 0%nat)) <$> seq 1 4).
Definition demo_ops : list dop :=
  [OpInit 1; OpEmpty 1; OpAdd 2 1; OpAddTail 3 1; OpAddBefore 4 3 1; OpDelInit 2 1; OpEmpty 2; OpAddTail 2 1; OpDel 3 1; OpEmpty 1]%nat.

Lemma demo_free (m : gmap nat (list nat)) l x :
  m = {[1%nat := l]} → x ∉ (1%nat :: l) → ¬ on_list m x.
Proof. intros -> Hx (hd & l' & Hm & Hin). apply lookup_singleton_Some in Hm as [<- <-]. contradiction. Qed.

Lemma demo_abs : abs_ops ∅ demo_ops {[1 := [4; 2]]}%nat [true; true; false].
Proof.
  assert (He : ∀ x, ¬ on_list (∅ : gmap nat (list nat)) x).
  { intros x (hd & l' & Hm & _). rewrite lookup_empty in Hm. discriminate. }
  eapply (abs_cons _ _ _ []); [apply abs_init, He|].
  eapply (abs_cons _ _ _ [true]); [apply (abs_empty _ _ []); reflexivity|].
  eapply (abs_cons _ _ _ []); [apply (abs_add _ _ _ []); [reflexivity|]|].
  { eapply (demo_free _ []); [reflexivity|set_solver]. }
  eapply (abs_cons _ _ _ []); [apply (abs_add_tail _ _ _ [2%nat]); [reflexivity|]|].
  { eapply (demo_free _ [2%nat]); [reflexivity|set_solver]. }
  eapply (abs_cons _ _ _ []); [apply (abs_add_before _ _ _ _ [2%nat] []); [reflexivity|]|].
  { eapply (demo_free _ [2; 3]%nat); [reflexivity|set_solver]. }
  eapply (abs_cons _ _ _ []); [apply (abs_del_init _ _ _ [] [4; 3]%nat); reflexivity|].
  eapply (abs_cons _ _ _ [true]); [apply (abs_empty _ _ []); reflexivity|].
  apply abs_forget; [eapply (demo_free _ [4; 3]%nat); [reflexivity|set_solver]|].
  eapply (abs_cons _ _ _ []); [apply (abs_add_tail _ _ _ [4; 3]%nat); [reflexivity|]|].
  { eapply (demo_free _ [4; 3]%nat); [reflexivity|set_solver]. }
  eapply (abs_cons _ _ _ []); [apply (abs_del _ _ _ [4]%nat [2]%nat); reflexivity|].
  eapply (abs_cons _ _ _ [false]); [apply (abs_empty _ _ [4; 2]%nat); reflexivity|].
  apply abs_nil.
Qed.

Lemma dlist_refines_lists_witness :
  ∃ h, run_ops demo_heap demo_ops = Ok (h, [true; true; false]) ∧ dlist_entries 2 h 1%nat = Ok [4; 2]%nat.
Proof.
  destruct (dlist_refines_lists demo_heap ∅ demo_ops {[1 := [4; 2]]}%nat [true; true; false])
    as (h & E & _ & Hw).
  - split; intros *; rewrite lookup_empty; discriminate.
  - exact demo_abs.
  - intros o Ho. unfold demo_ops in Ho.
    repeat (apply elem_of_cons in Ho as [->|Ho]; [eexists; reflexivity|]).
    apply elem_of_nil in Ho. destruct Ho.
  - exists h. split; [exact E|]. exact (Hw 1%nat [4; 2]%nat eq_refl).
Defined.
