(* ===== verification/Sloop.v ===== *)
(** * The select loop (comlib/sloop.c, include/sloop.h)

    Sockets, timers and signals are nodes of three static pools, linked by
    [struct dlist_head] into free lists and into the lists of registered
    readers, writers, timers and signals.  The model keeps the pointer
    structure: the state has the heap of list nodes and the contents of the
    pool arrays, and every function is the C function's sequence of steps. *)

From stdpp Require Import base numbers gmap list sorting.
From S2P Require Import Prelude Timeval Dlist.

(** ** Addresses of list nodes

    The list heads are the fields of [static struct sloop_data sloop]; [Sk i],
    [Tm i] and [Sg i] are the [list] fields (the first field, so the address)
    of the i-th element of the three pool arrays. *)
Inductive addr : Type :=
| NULL
| H_free_sockets | H_free_timeout | H_free_signals
| H_readers | H_writers | H_signals | H_timeout
| Sk (i : nat) | Tm (i : nat) | Sg (i : nat).

#[export] Instance addr_eq_dec : EqDecision addr.
Proof. solve_decision. Defined.

Definition addr_code (a : addr) : nat * nat :=
  match a with
  | NULL => (0, 0) | H_free_sockets => (1, 0) | H_free_timeout => (2, 0)
  | H_free_signals => (3, 0) | H_readers => (4, 0) | H_writers => (5, 0)
  | H_signals => (6, 0) | H_timeout => (7, 0)
  | Sk i => (8, i) | Tm i => (9, i) | Sg i => (10, i)
  end%nat.

Definition addr_decode (c : nat * nat) : option addr :=
  match c with
  | (0, _) => Some NULL | (1, _) => Some H_free_sockets | (2, _) => Some H_free_timeout
  | (3, _) => Some H_free_signals | (4, _) => Some H_readers | (5, _) => Some H_writers
  | (6, _) => Some H_signals | (7, _) => Some H_timeout
  | (8, i) => Some (Sk i) | (9, i) => Some (Tm i) | (10, i) => Some (Sg i)
  | _ => None
  end%nat.

#[export] Program Instance addr_countable : Countable addr :=
  inj_countable addr_code addr_decode _.
Next Obligation. by intros []. Qed.

#[export] Instance addr_pointer : Pointer addr := NULL.

(** ** Data *)

Definition MAX_SLOOP_SOCKET : nat := 128.
Definition MAX_SLOOP_SIGNAL : nat := 16.
Definition MAX_SLOOP_TIMEOUT : nat := 128.

Definition SLOOP_TYPE_MASK : Z := 0x00ff.
Definition SLOOP_TYPE_SOCKET : Z := 1.
Definition SLOOP_TYPE_TIMEOUT : Z := 2.
Definition SLOOP_TYPE_SIGNAL : Z := 3.
Definition SLOOP_INUSED : Z := 0x0100.

(** Handlers are function pointers, named by a number. *)
Record sloop_socket := mk_socket
  { sk_flags : Z; sk_sock : Z; sk_param : Z; sk_handler : Z }.
Record sloop_timeout := mk_timeout
  { tm_flags : Z; tm_time : timeval; tm_param : Z; tm_handler : Z }.
Record sloop_signal := mk_signal
  { sg_flags : Z; sg_sig : Z; sg_param : Z; sg_handler : Z }.

(** What [signal(2)] has installed for a signal. *)
Inductive disposition := SIG_DFL | SIG_SLOOP.

(** The [static] data of the module.  [signal_fd] is
    [signal_pipe[0]] and [sig_pipe] the content of the pipe, oldest first. *)
Record sloop := mk_sloop
  { heap : gmap addr (dlist_head addr);
    sockets : gmap nat sloop_socket;
    timeouts : gmap nat sloop_timeout;
    signals : gmap nat sloop_signal;
    terminate : Z;
    signal_fd : Z;
    sig_pipe : list Z;
    sloop_data : Z;
    dispositions : gmap Z disposition }.

Definition with_heap (s : sloop) h :=
  mk_sloop h (sockets s) (timeouts s) (signals s) (terminate s) (signal_fd s) (sig_pipe s)
    (sloop_data s) (dispositions s).
Definition with_sockets (s : sloop) x :=
  mk_sloop (heap s) x (timeouts s) (signals s) (terminate s) (signal_fd s) (sig_pipe s)
    (sloop_data s) (dispositions s).
Definition with_timeouts (s : sloop) x :=
  mk_sloop (heap s) (sockets s) x (signals s) (terminate s) (signal_fd s) (sig_pipe s)
    (sloop_data s) (dispositions s).
Definition with_signals (s : sloop) x :=
  mk_sloop (heap s) (sockets s) (timeouts s) x (terminate s) (signal_fd s) (sig_pipe s)
    (sloop_data s) (dispositions s).
Definition with_pipe (s : sloop) x :=
  mk_sloop (heap s) (sockets s) (timeouts s) (signals s) (terminate s) (signal_fd s) x
    (sloop_data s) (dispositions s).
Definition with_dispositions (s : sloop) x :=
  mk_sloop (heap s) (sockets s) (timeouts s) (signals s) (terminate s) (signal_fd s) (sig_pipe s)
    (sloop_data s) x.

(** [dlist_entry(entry, struct sloop_socket, list)] and the like: an address
    that is not of a node of that pool is not a pointer to such a structure. *)
Definition socket_entry (a : addr) : res nat := match a with Sk i => Ok i | _ => Fault end.
Definition timeout_entry (a : addr) : res nat := match a with Tm i => Ok i | _ => Fault end.
Definition signal_entry (a : addr) : res nat := match a with Sg i => Ok i | _ => Fault end.

Definition get_sk (s : sloop) (a : addr) : res sloop_socket :=
  i ← socket_entry a; deref (sockets s !! i).
Definition get_tm (s : sloop) (a : addr) : res sloop_timeout :=
  i ← timeout_entry a; deref (timeouts s !! i).
Definition get_sg (s : sloop) (a : addr) : res sloop_signal :=
  i ← signal_entry a; deref (signals s !! i).

(** Writing through a pointer to a pool element. *)
Definition upd_sk (s : sloop) (a : addr) (f : sloop_socket → sloop_socket) : res sloop :=
  i ← socket_entry a; r ← deref (sockets s !! i);
  mret (with_sockets s (<[i := f r]> (sockets s))).
Definition upd_tm (s : sloop) (a : addr) (f : sloop_timeout → sloop_timeout) : res sloop :=
  i ← timeout_entry a; r ← deref (timeouts s !! i);
  mret (with_timeouts s (<[i := f r]> (timeouts s))).
Definition upd_sg (s : sloop) (a : addr) (f : sloop_signal → sloop_signal) : res sloop :=
  i ← signal_entry a; r ← deref (signals s !! i);
  mret (with_signals s (<[i := f r]> (signals s))).

Definition sk_set_flags f r := mk_socket f (sk_sock r) (sk_param r) (sk_handler r).
Definition tm_set_flags f r := mk_timeout f (tm_time r) (tm_param r) (tm_handler r).
Definition sg_set_flags f r := mk_signal f (sg_sig r) (sg_param r) (sg_handler r).

(** [flags &= (~SLOOP_INUSED)] *)
Definition clear_inused (flags : Z) : Z := Z.ldiff flags SLOOP_INUSED.

(** ** Pools *)

Definition get_socket (s : sloop) : res (addr * sloop) :=
  e ← dlist_empty (heap s) H_free_sockets;
  if (e : bool) then mret (NULL, s)
  else
    n ← load (heap s) H_free_sockets;
    let entry := next n in
    h ← dlist_del (heap s) entry;
    s ← upd_sk (with_heap s h) entry
          (sk_set_flags (Z.lor SLOOP_INUSED SLOOP_TYPE_SOCKET));
    mret (entry, s).

Definition get_timeout (s : sloop) : res (addr * sloop) :=
  e ← dlist_empty (heap s) H_free_timeout;
  if (e : bool) then mret (NULL, s)
  else
    n ← load (heap s) H_free_timeout;
    let entry := next n in
    h ← dlist_del (heap s) entry;
    s ← upd_tm (with_heap s h) entry
          (tm_set_flags (Z.lor SLOOP_INUSED SLOOP_TYPE_TIMEOUT));
    mret (entry, s).

Definition get_signal (s : sloop) : res (addr * sloop) :=
  e ← dlist_empty (heap s) H_free_signals;
  if (e : bool) then mret (NULL, s)
  else
    n ← load (heap s) H_free_signals;
    let entry := next n in
    h ← dlist_del (heap s) entry;
    s ← upd_sg (with_heap s h) entry
          (sg_set_flags (Z.lor SLOOP_INUSED SLOOP_TYPE_SIGNAL));
    mret (entry, s).

(** [dassert] is empty in this build (include/dtrace.h without [DDEBUG]). *)
Definition free_socket (s : sloop) (target : addr) : res sloop :=
  s ← upd_sk s target (λ r, sk_set_flags (clear_inused (sk_flags r)) r);
  h ← dlist_add (heap s) target H_free_sockets;
  mret (with_heap s h).

Definition free_timeout (s : sloop) (target : addr) : res sloop :=
  s ← upd_tm s target (λ r, tm_set_flags (clear_inused (tm_flags r)) r);
  h ← dlist_add (heap s) target H_free_timeout;
  mret (with_heap s h).

Definition free_signal (s : sloop) (target : addr) : res sloop :=
  s ← upd_sg s target (λ r, sg_set_flags (clear_inused (sg_flags r)) r);
  h ← dlist_add (heap s) target H_free_signals;
  mret (with_heap s h).

(** ** Registration *)

Definition register_socket (s : sloop) (sock handler param : Z) (head : addr)
  : res (addr * sloop) :=
  '(entry, s) ← get_socket s;
  if decide (entry = NULL) then mret (NULL, s)
  else
    s ← upd_sk s entry (λ r, mk_socket (sk_flags r) sock param handler);
    h ← dlist_add (heap s) entry head;
    mret (entry, with_heap s h).

(** The [while (!dlist_empty(head))] loop of [cancel_socket]. *)
Fixpoint cancel_all_sockets (fuel : nat) (s : sloop) (head : addr) : res sloop :=
  e ← dlist_empty (heap s) head;
  if (e : bool) then mret s
  else match fuel with
  | O => NoFuel
  | S fuel =>
      n ← load (heap s) head;
      let entry := next n in
      h ← dlist_del (heap s) entry;
      s ← free_socket (with_heap s h) entry;
      cancel_all_sockets fuel s head
  end.

Definition cancel_socket (s : sloop) (target head : addr) : res sloop :=
  if decide (target = NULL) then cancel_all_sockets MAX_SLOOP_SOCKET s head
  else
    h ← dlist_del (heap s) target;
    free_socket (with_heap s h) target.

(** The asynchronous handler: the signal number goes through the pipe. *)
Definition sloop_signals_handler (s : sloop) (sig : Z) : sloop :=
  with_pipe s (sig_pipe s ++ [sig]).

Definition sloop_register_read_sock (s : sloop) (sock handler param : Z) :=
  register_socket s sock handler param H_readers.
Definition sloop_register_write_sock (s : sloop) (sock handler param : Z) :=
  register_socket s sock handler param H_writers.
Definition sloop_cancel_read_sock (s : sloop) (handle : addr) :=
  cancel_socket s handle H_readers.
Definition sloop_cancel_write_sock (s : sloop) (handle : addr) :=
  cancel_socket s handle H_writers.

Definition signal_call (s : sloop) (sig : Z) (d : disposition) : sloop :=
  with_dispositions s (<[sig := d]> (dispositions s)).

Definition sloop_register_signal (s : sloop) (sig handler param : Z) : res (addr * sloop) :=
  '(entry, s) ← get_signal s;
  if decide (entry = NULL) then mret (NULL, s)
  else
    s ← upd_sg s entry (λ r, mk_signal (sg_flags r) sig param handler);
    h ← dlist_add (heap s) entry H_signals;
    mret (entry, signal_call (with_heap s h) sig SIG_SLOOP).

Fixpoint cancel_all_signals (fuel : nat) (s : sloop) : res sloop :=
  e ← dlist_empty (heap s) H_signals;
  if (e : bool) then mret s
  else match fuel with
  | O => NoFuel
  | S fuel =>
      n ← load (heap s) H_signals;
      let list := next n in
      r ← get_sg s list;
      let s := signal_call s (sg_sig r) SIG_DFL in
      h ← dlist_del (heap s) list;
      s ← free_signal (with_heap s h) list;
      cancel_all_signals fuel s
  end.

Definition sloop_cancel_signal (s : sloop) (handle : addr) : res sloop :=
  if decide (handle = NULL) then cancel_all_signals MAX_SLOOP_SIGNAL s
  else
    r ← get_sg s handle;
    let s := signal_call s (sg_sig r) SIG_DFL in
    h ← dlist_del (heap s) handle;
    free_signal (with_heap s h) handle.

(** [tv_sec] and [tv_usec] are signed 32-bit, [secs] and [usecs] unsigned. *)
Definition timeout_time (now secs usecs : Z) : res timeval :=
  carry_usec 2148 (mk_timeval (s32 (now + secs)) (s32 usecs)).

(** The search for the entry to insert before. *)
Fixpoint find_later (fuel : nat) (s : sloop) (t : timeval) (entry : addr) : res addr :=
  if decide (entry = H_timeout) then mret entry
  else match fuel with
  | O => NoFuel
  | S fuel =>
      tmp ← get_tm s entry;
      if timer_lt t (tm_time tmp) then mret entry
      else n ← load (heap s) entry; find_later fuel s t (next n)
  end.

(** [now] is the value of [get_uptime()]. *)
Definition sloop_register_timeout (s : sloop) (now secs usecs handler param : Z)
  : res (addr * sloop) :=
  '(timeout, s) ← get_timeout s;
  if decide (timeout = NULL) then mret (NULL, s)
  else
    t ← timeout_time now secs usecs;
    s ← upd_tm s timeout (λ r, mk_timeout (tm_flags r) t param handler);
    h ← INIT_DLIST_HEAD (heap s) timeout;
    let s := with_heap s h in
    e ← dlist_empty (heap s) H_timeout;
    if (e : bool) then
      h ← dlist_add (heap s) timeout H_timeout;
      mret (timeout, with_heap s h)
    else
      n ← load (heap s) H_timeout;
      entry ← find_later MAX_SLOOP_TIMEOUT s t (next n);
      h ← dlist_add_tail (heap s) timeout entry;
      mret (timeout, with_heap s h).

Fixpoint cancel_all_timeouts (fuel : nat) (s : sloop) : res sloop :=
  e ← dlist_empty (heap s) H_timeout;
  if (e : bool) then mret s
  else match fuel with
  | O => NoFuel
  | S fuel =>
      n ← load (heap s) H_timeout;
      let list := next n in
      h ← dlist_del (heap s) list;
      s ← free_timeout (with_heap s h) list;
      cancel_all_timeouts fuel s
  end.

Definition sloop_cancel_timeout (s : sloop) (handle : addr) : res sloop :=
  if decide (handle = NULL) then cancel_all_timeouts MAX_SLOOP_TIMEOUT s
  else
    h ← dlist_del (heap s) handle;
    free_timeout (with_heap s h) handle.

Definition sloop_terminate (s : sloop) : sloop :=
  mk_sloop (heap s) (sockets s) (timeouts s) (signals s) 1 (signal_fd s) (sig_pipe s)
    (sloop_data s) (dispositions s).

(** ** Initialisation *)

Definition zero_socket := mk_socket 0 0 0 0.
Definition zero_timeout := mk_timeout 0 (mk_timeval 0 0) 0 0.
Definition zero_signal := mk_signal 0 0 0 0.

Definition heads : list addr :=
  [H_readers; H_writers; H_signals; H_timeout;
   H_free_sockets; H_free_timeout; H_free_signals].

Definition pool_nodes : list addr :=
  (Sk <$> seq 0 MAX_SLOOP_SOCKET) ++ (Tm <$> seq 0 MAX_SLOOP_TIMEOUT)
  ++ (Sg <$> seq 0 MAX_SLOOP_SIGNAL).

(** The static objects of the module, zeroed. *)
Definition zero_heap : gmap addr (dlist_head addr) :=
  list_to_map ((λ a, (a, mk_head NULL NULL)) <$> (heads ++ pool_nodes)).

Fixpoint init_heads (h : gmap addr (dlist_head addr)) (l : list addr) :=
  match l with
  | [] => mret h
  | x :: l => h ← INIT_DLIST_HEAD h x; init_heads h l
  end.

(** [for (i=0; ...) dlist_add(&pool[i].list, &free_list)] *)
Fixpoint add_all (h : gmap addr (dlist_head addr)) (l : list addr) (head : addr) :=
  match l with
  | [] => mret h
  | x :: l => h ← dlist_add h x head; add_all h l head
  end.

Definition init_list_pools (s : sloop) : res sloop :=
  h ← add_all (heap s) (Sk <$> seq 0 MAX_SLOOP_SOCKET) H_free_sockets;
  h ← add_all h (Tm <$> seq 0 MAX_SLOOP_TIMEOUT) H_free_timeout;
  h ← add_all h (Sg <$> seq 0 MAX_SLOOP_SIGNAL) H_free_signals;
  mret (mk_sloop h
    (list_to_map ((λ i, (i, zero_socket)) <$> seq 0 MAX_SLOOP_SOCKET))
    (list_to_map ((λ i, (i, zero_timeout)) <$> seq 0 MAX_SLOOP_TIMEOUT))
    (list_to_map ((λ i, (i, zero_signal)) <$> seq 0 MAX_SLOOP_SIGNAL))
    (terminate s) (signal_fd s) (sig_pipe s) (sloop_data s) (dispositions s)).

(** [d] is what [signal(2)] had installed before, [fd] the descriptor that
    [pipe(2)] returns for reading. *)
Definition sloop_init (d : gmap Z disposition) (fd data : Z) : res sloop :=
  h ← init_heads zero_heap heads;
  s ← init_list_pools (mk_sloop h ∅ ∅ ∅ 0 0 [] 0 d);
  mret (mk_sloop (heap s) (sockets s) (timeouts s) (signals s) (terminate s) fd []
          data (dispositions s)).

(** ** The loop *)

(** The registered handlers: code outside the module, which may call it. *)
Class Handlers :=
  { call_socket : Z → Z → Z → Z → sloop → res (Z * sloop);
    call_signal : Z → Z → Z → Z → sloop → res (Z * sloop);
    call_timeout : Z → Z → Z → sloop → res sloop }.

(** What the system does in one round: the uptime before [select], the result
    of [select], whether the [read] of the signal pipe succeeds, and the uptime
    after. *)
Inductive select_result :=
| SelErr (eintr : bool)
| SelOk (res : Z) (rd wr : list Z).

Record round := mk_round
  { rd_now : Z; rd_select : select_result; rd_read : bool; rd_now' : Z }.

(** The timer at the head of the list and the time to wait for it; [None] is
    [select] without a limit. *)
Definition next_timeout (s : sloop) (now : Z) : res (option (addr * timeval)) :=
  e ← dlist_empty (heap s) H_timeout;
  if (e : bool) then mret None
  else
    n ← load (heap s) H_timeout;
    let entry := next n in
    r ← get_tm s entry;
    let nowtv := mk_timeval now 0 in
    if timer_ge nowtv (tm_time r) then mret (Some (entry, mk_timeval 0 0))
    else mret (Some (entry, timersub (tm_time r) nowtv)).

(** An [fd_set] has room for [FD_SETSIZE] descriptors; [FD_SET] does not check. *)
Definition FD_SETSIZE : Z := 1024.
Definition fd_ok (fd : Z) : bool := (0 <=? fd) && (fd <? FD_SETSIZE).

(** The [FD_SET] loop over a list of sockets: the descriptors put in the set
    and the running maximum. *)
Fixpoint collect_fds (fuel : nat) (s : sloop) (head entry : addr) (max_sock : Z)
  : res (list Z * Z) :=
  if decide (entry = head) then mret ([], max_sock)
  else match fuel with
  | O => NoFuel
  | S fuel =>
      r ← get_sk s entry;
      if negb (fd_ok (sk_sock r)) then Fault else
      let max_sock := if max_sock <? sk_sock r then sk_sock r else max_sock in
      n ← load (heap s) entry;
      '(fds, m) ← collect_fds fuel s head (next n) max_sock;
      mret (sk_sock r :: fds, m)
  end.

Definition setup_fds_fuel (fuel : nat) (s : sloop) : res (list Z * list Z * Z) :=
  if negb (fd_ok (signal_fd s)) then Fault else
  let max_sock := if 0 <? signal_fd s then signal_fd s else 0 in
  n ← load (heap s) H_readers;
  '(rfds, max_sock) ← collect_fds fuel s H_readers (next n) max_sock;
  n ← load (heap s) H_writers;
  '(wfds, max_sock) ← collect_fds fuel s H_writers (next n) max_sock;
  mret (signal_fd s :: rfds, wfds, max_sock).

Definition setup_fds (s : sloop) := setup_fds_fuel MAX_SLOOP_SOCKET s.

(** [select] leaves in a set the descriptors of the set that are ready. *)
Definition select_fds (req ready : list Z) : list Z :=
  filter (λ fd, fd ∈ ready) req.

Section run.
Context `{Handlers}.

(** Walk the signal list to the first entry for [sig] and call it. *)
Fixpoint dispatch_signal (fuel : nat) (s : sloop) (sig : Z) (entry : addr) : res sloop :=
  if decide (entry = H_signals) then mret s
  else match fuel with
  | O => NoFuel
  | S fuel =>
      r ← get_sg s entry;
      if decide (sg_sig r = sig) then
        '(ret, s) ← call_signal (sg_handler r) (sg_sig r) (sg_param r) (sloop_data s) s;
        if ret <? 0 then
          h ← dlist_del (heap s) entry;
          free_signal (with_heap s h) entry
        else mret s
      else
        n ← load (heap s) entry; dispatch_signal fuel s sig (next n)
  end.

(** The signal part of a round; the boolean is the [break] out of the loop.
    A [read] of the pipe with nothing in it is a failed one here. *)
Definition check_signal (s : sloop) (read_ok : bool) : res (bool * sloop) :=
  match sig_pipe s with
  | sig :: pipe =>
      if read_ok then
        let s := with_pipe s pipe in
        if decide (sig = 0) then mret (false, s)
        else
          e ← dlist_empty (heap s) H_signals;
          if (e : bool) then mret (false, s)
          else
            n ← load (heap s) H_signals;
            s ← dispatch_signal MAX_SLOOP_SIGNAL s sig (next n);
            mret (bool_decide (terminate s ≠ 0), s)
      else mret (false, s)
  | [] => mret (false, s)
  end.

(** [entry] is the timer that was at the head before [select]. *)
Definition check_timeout (s : sloop) (entry : option addr) (now : Z) : res sloop :=
  match entry with
  | None => mret s
  | Some entry =>
      n ← load (heap s) H_timeout;
      if decide (next n = entry) then
        r ← get_tm s entry;
        if timer_ge (mk_timeval now 0) (tm_time r) then
          s ← call_timeout (tm_handler r) (tm_param r) (sloop_data s) s;
          h ← dlist_del (heap s) entry;
          free_timeout (with_heap s h) entry
        else mret s
      else mret s
  end.

(** The loops over the ready readers and the ready writers. *)
Fixpoint run_sockets (fuel : nat) (s : sloop) (fds : list Z) (head entry : addr)
  : res sloop :=
  if decide (entry = head) then mret s
  else match fuel with
  | O => NoFuel
  | S fuel =>
      r ← get_sk s entry;
      '(ret, s) ← (if decide (sk_sock r ∈ fds)
                   then call_socket (sk_handler r) (sk_sock r) (sk_param r) (sloop_data s) s
                   else mret (0, s));
      n ← load (heap s) entry;
      s ← (if ret <? 0 then
             h ← dlist_del (heap s) entry;
             free_socket (with_heap s h) entry
           else mret s);
      run_sockets fuel s fds head (next n)
  end.

Definition check_sockets (s : sloop) (fds : list Z) (head : addr) : res sloop :=
  e ← dlist_empty (heap s) head;
  if (e : bool) then mret s
  else n ← load (heap s) head; run_sockets MAX_SLOOP_SOCKET s fds head (next n).

(** The body of the [while]; the boolean is a [break]. *)
Definition sloop_round (s : sloop) (rd : round) : res (bool * sloop) :=
  to ← next_timeout s (rd_now rd);
  '(rfds, wfds, max_sock) ← setup_fds s;
  match rd_select rd with
  | SelErr eintr => mret (negb eintr, s)
  | SelOk ret ready wready =>
      let rfds := select_fds rfds ready in
      let wfds := select_fds wfds wready in
      '(brk, s) ← (if (0 <? ret) && bool_decide (signal_fd s ∈ rfds)
                   then check_signal s (rd_read rd) else mret (false, s));
      if (brk : bool) then mret (true, s)
      else
        s ← check_timeout s (fst <$> to) (rd_now' rd);
        if ret <=? 0 then mret (false, s)
        else
          s ← check_sockets s rfds H_readers;
          s ← check_sockets s wfds H_writers;
          mret (false, s)
  end.

(** The condition of the [while]. *)
Definition sloop_active (s : sloop) : res bool :=
  t ← dlist_empty (heap s) H_timeout;
  r ← dlist_empty (heap s) H_readers;
  w ← dlist_empty (heap s) H_writers;
  g ← dlist_empty (heap s) H_signals;
  mret (bool_decide (terminate s = 0) && negb (t && r && w && g)).

Definition sloop_shutdown (s : sloop) : res sloop :=
  s ← sloop_cancel_signal s NULL;
  s ← sloop_cancel_timeout s NULL;
  s ← sloop_cancel_read_sock s NULL;
  sloop_cancel_write_sock s NULL.

(** [sloop_run] over the rounds the system provides: [true] when it has
    returned, [false] when it waits in [select] for a further round. *)
Fixpoint sloop_run (rounds : list round) (s : sloop) : res (bool * sloop) :=
  a ← sloop_active s;
  if (a : bool) then
    match rounds with
    | [] => mret (false, s)
    | rd :: rounds =>
        '(brk, s) ← sloop_round s rd;
        if (brk : bool) then s ← sloop_shutdown s; mret (true, s)
        else sloop_run rounds s
    end
  else s ← sloop_shutdown s; mret (true, s).
End run.

#[global] Arguments free_socket : simpl never.
#[global] Arguments free_timeout : simpl never.
#[global] Arguments free_signal : simpl never.
#[global] Arguments MAX_SLOOP_SOCKET : simpl never.
#[global] Arguments MAX_SLOOP_TIMEOUT : simpl never.
#[global] Arguments MAX_SLOOP_SIGNAL : simpl never.
#[global] Strategy 1000 [MAX_SLOOP_SOCKET MAX_SLOOP_TIMEOUT MAX_SLOOP_SIGNAL].
