(* ===== verification/SloopInv.v ===== *)
(** * The select loop: invariant and refinement

    The pointer structure of [Sloop] refines seven duplicate-free lists that
    partition the three pools; every operation of the module, and the loop
    itself under a contract on the handlers, keeps that invariant. *)

From stdpp Require Import base numbers gmap list sorting.
From S2P Require Import Prelude Timeval Dlist Sloop.

(** ** Invariant

    The state of the module is described by the map [m] from the seven list
    heads to the lists they head. *)

(** A pool of [N] nodes [mk i], some on the free list, the others in use. *)
Section pool.
Context {R : Type} (mk : nat → addr) `{!Inj (=) (=) mk} (N : nat).
Context (flags : R → Z) (inuse : Z).

Record pool_inv (recs : gmap nat R) (free used : list addr) : Prop := {
  pool_perm : free ++ used ≡ₚ mk <$> seq 0 N;
  pool_free : ∀ i, mk i ∈ free → ∃ r, recs !! i = Some r ∧ Z.testbit (flags r) 8 = false;
  pool_used : ∀ i, mk i ∈ used → ∃ r, recs !! i = Some r ∧ flags r = inuse }.

Lemma pool_nodup recs free used : pool_inv recs free used → NoDup (free ++ used).
Proof. intros [-> _ _]. apply NoDup_fmap_2; [done|]. apply NoDup_seq. Qed.

Lemma pool_node recs free used x :
  pool_inv recs free used → x ∈ free ++ used →
  ∃ i r, x = mk i ∧ (i < N)%nat ∧ recs !! i = Some r.
Proof.
  intros [Hp Hf Hu] Hx. pose proof Hx as Hx'. rewrite Hp in Hx.
  apply list_elem_of_fmap in Hx as (i & -> & Hi). apply elem_of_seq in Hi.
  apply elem_of_app in Hx' as [Hx'|Hx'];
    [destruct (Hf _ Hx') as (r & ? & _)|destruct (Hu _ Hx') as (r & ? & _)];
    exists i, r; split_and!; auto; lia.
Qed.

Lemma pool_used_perm recs free used used' :
  used ≡ₚ used' → pool_inv recs free used → pool_inv recs free used'.
Proof.
  intros Hu [Hp Hf Hus]. split; [by rewrite <- Hu|done|].
  intros i Hi. apply Hus. by rewrite Hu.
Qed.

Lemma pool_alloc recs i r free used :
  pool_inv recs (mk i :: free) used → flags r = inuse →
  pool_inv (<[i := r]> recs) free (mk i :: used).
Proof.
  intros Hpi Hr. pose proof (pool_nodup _ _ _ Hpi) as Hnd. destruct Hpi as [Hp Hf Hu].
  cbn in Hnd. apply NoDup_cons in Hnd as [Hni _]. split.
  - rewrite <- Hp. symmetry. apply Permutation_middle.
  - intros j Hj. destruct (decide (i = j)) as [->|Hne]; [set_solver|].
    rewrite lookup_insert_ne by done. apply Hf. set_solver.
  - intros j Hj. destruct (decide (i = j)) as [->|Hne].
    + exists r. by rewrite lookup_insert_eq.
    + rewrite lookup_insert_ne by done. apply Hu.
      apply elem_of_cons in Hj as [Hj|Hj]; [by apply (inj mk) in Hj|done].
Qed.

Lemma pool_release recs i r free used :
  pool_inv recs free (mk i :: used) → Z.testbit (flags r) 8 = false →
  pool_inv (<[i := r]> recs) (mk i :: free) used.
Proof.
  intros Hpi Hr. pose proof (pool_nodup _ _ _ Hpi) as Hnd. destruct Hpi as [Hp Hf Hu].
  rewrite <- Permutation_middle in Hnd. apply NoDup_cons in Hnd as [Hni _]. split.
  - rewrite <- Hp. cbn. apply Permutation_middle.
  - intros j Hj. destruct (decide (i = j)) as [->|Hne].
    + exists r. by rewrite lookup_insert_eq.
    + rewrite lookup_insert_ne by done. apply Hf.
      apply elem_of_cons in Hj as [Hj|Hj]; [by apply (inj mk) in Hj|done].
  - intros j Hj. destruct (decide (i = j)) as [->|Hne]; [set_solver|].
    rewrite lookup_insert_ne by done. apply Hu. set_solver.
Qed.

(** Changing the other fields of a node in use. *)
Lemma pool_set recs i r r' free used :
  pool_inv recs free used → recs !! i = Some r → flags r' = flags r →
  pool_inv (<[i := r']> recs) free used.
Proof.
  intros [Hp Hf Hu] Hr Hfl. split; [done| |].
  - intros j Hj. destruct (Hf _ Hj) as (rj & Hrj & ?).
    destruct (decide (i = j)) as [->|Hne].
    + exists r'. rewrite lookup_insert_eq. split; [done|]. congruence.
    + exists rj. by rewrite lookup_insert_ne.
  - intros j Hj. destruct (Hu _ Hj) as (rj & Hrj & ?).
    destruct (decide (i = j)) as [->|Hne].
    + exists r'. rewrite lookup_insert_eq. split; [done|]. congruence.
    + exists rj. by rewrite lookup_insert_ne.
Qed.
End pool.

#[export] Instance Sk_inj : Inj (=) (=) Sk.
Proof. by intros ?? [=]. Qed.
#[export] Instance Tm_inj : Inj (=) (=) Tm.
Proof. by intros ?? [=]. Qed.
#[export] Instance Sg_inj : Inj (=) (=) Sg.
Proof. by intros ?? [=]. Qed.

(** The expiry time of a timer node. *)
Definition time_at (tms : gmap nat sloop_timeout) (x : addr) : timeval :=
  match x with
  | Tm i => match tms !! i with Some r => tm_time r | None => mk_timeval 0 0 end
  | _ => mk_timeval 0 0
  end.

(** [x] does not expire after [y]. *)
Definition not_later (tms : gmap nat sloop_timeout) (x y : addr) : Prop :=
  timer_lt (time_at tms y) (time_at tms x) = false.

Abbreviation sk_pool := (pool_inv Sk MAX_SLOOP_SOCKET sk_flags 257).
Abbreviation tm_pool := (pool_inv Tm MAX_SLOOP_TIMEOUT tm_flags 258).
Abbreviation sg_pool := (pool_inv Sg MAX_SLOOP_SIGNAL sg_flags 259).

Record inv (s : sloop) (m : gmap addr (list addr)) : Prop := {
  inv_dl : dlists (heap s) m;
  inv_dom : ∀ head, head ∈ heads → m !! head = Some (m !!! head);
  inv_sk : sk_pool (sockets s) (m !!! H_free_sockets) (m !!! H_readers ++ m !!! H_writers);
  inv_tm : tm_pool (timeouts s) (m !!! H_free_timeout) (m !!! H_timeout);
  inv_sg : sg_pool (signals s) (m !!! H_free_signals) (m !!! H_signals);
  inv_sorted : StronglySorted (not_later (timeouts s)) (m !!! H_timeout) }.

Ltac in_heads := unfold heads; set_solver.

(** Lookups of the list heads in an updated map. *)
Ltac simpl_heads :=
  repeat first
    [ rewrite lookup_total_insert_eq in *
    | rewrite lookup_total_insert_ne in * by done ].

Lemma inv_head s m head l : inv s m → head ∈ heads → m !!! head = l → m !! head = Some l.
Proof. intros Hi Hh <-. by eapply inv_dom. Qed.

Lemma dom_insert2 (m : gmap addr (list addr)) a b la lb :
  (∀ head, head ∈ heads → m !! head = Some (m !!! head)) →
  ∀ head, head ∈ heads →
    <[a := la]> (<[b := lb]> m) !! head = Some (<[a := la]> (<[b := lb]> m) !!! head).
Proof.
  intros Hd head Hh. destruct (decide (a = head)) as [->|Ha].
  - by rewrite lookup_insert_eq, lookup_total_insert_eq.
  - rewrite lookup_insert_ne, lookup_total_insert_ne by done.
    destruct (decide (b = head)) as [->|Hb].
    + by rewrite lookup_insert_eq, lookup_total_insert_eq.
    + rewrite lookup_insert_ne, lookup_total_insert_ne by done. by apply Hd.
Qed.

(** The heads of the lists of registered sockets. *)
Definition sock_head (head : addr) : Prop := head = H_readers ∨ head = H_writers.

Lemma sock_head_heads head : sock_head head → head ∈ heads.
Proof. intros [-> | ->]; in_heads. Qed.
#[export] Hint Resolve sock_head_heads : wbr.

(** Taking the first node of the free list. *)
Lemma inv_first s m head x l :
  inv s m → head ∈ heads → m !!! head = x :: l →
  dlist_empty (heap s) head = Ok false ∧ ∃ n, load (heap s) head = Ok n ∧ next n = x.
Proof.
  intros Hi Hh Hl. apply (inv_head _ _ _ _ Hi Hh) in Hl.
  split; [by erewrite dlists_empty_spec by (eauto using inv_dl)|].
  destruct (dlists_first (heap s) m head (x :: l)) as (n & ? & ?); eauto using inv_dl.
Qed.

Lemma inv_nil s m head :
  inv s m → head ∈ heads → m !!! head = [] → dlist_empty (heap s) head = Ok true.
Proof.
  intros Hi Hh Hl. apply (inv_head _ _ _ _ Hi Hh) in Hl.
  by erewrite dlists_empty_spec by (eauto using inv_dl).
Qed.

Lemma sock_pool_move recs (m : gmap addr (list addr)) head x fs :
  sock_head head →
  sk_pool recs fs (x :: (m !!! H_readers ++ m !!! H_writers)) →
  sk_pool recs fs (<[head := x :: m !!! head]> m !!! H_readers
                   ++ <[head := x :: m !!! head]> m !!! H_writers).
Proof.
  intros [-> | ->] Hp; simpl_heads; [done|].
  eapply pool_used_perm, Hp. apply Permutation_middle.
Qed.

Lemma register_socket_spec s m head sock handler param :
  inv s m → sock_head head →
  match m !!! H_free_sockets with
  | [] => register_socket s sock handler param head = Ok (NULL, s)
  | x :: fs => ∃ i h, x = Sk i ∧
      let s' := with_sockets (with_heap s h)
                  (<[i := mk_socket 257 sock param handler]> (sockets s)) in
      register_socket s sock handler param head = Ok (x, s')
      ∧ inv s' (<[head := x :: m !!! head]> (<[H_free_sockets := fs]> m))
  end.
Proof.
  intros Hi Hh. destruct (m !!! H_free_sockets) as [|x fs] eqn:Hfs.
  - unfold register_socket, get_socket.
    by rewrite (inv_nil s m H_free_sockets Hi ltac:(in_heads) Hfs).
  - destruct (inv_first s m H_free_sockets x fs Hi ltac:(in_heads) Hfs) as (He & n & Hn & Hx).
    assert (Hne : H_free_sockets ≠ head) by (destruct Hh as [-> | ->]; done).
    destruct (dlists_move (heap s) m H_free_sockets [] x fs head (m !!! head))
      as (h1 & h2 & E1 & E2 & Hds);
      [by eapply inv_dl|done|eapply inv_head; [done|in_heads|exact Hfs]
      |eapply inv_head; eauto with wbr|].
    pose proof (inv_sk _ _ Hi) as Hp. rewrite Hfs in Hp.
    destruct (pool_node _ _ _ _ _ _ _ x Hp) as (i & r & -> & Hi' & Hr); [set_solver|].
    exists i, h2. split; [done|]. cbn zeta. split.
    + unfold register_socket, get_socket. rewrite He. cbn. rewrite Hn. cbn.
      rewrite Hx, E1. unfold upd_sk. cbn. rewrite Hr. cbn.
      rewrite lookup_insert_eq. cbn. rewrite E2. cbn.
      by rewrite insert_insert_eq.
    + split; cbn.
      * done.
      * apply dom_insert2. by eapply inv_dom.
      * rewrite (lookup_total_insert_ne _ head H_free_sockets) by done.
        rewrite lookup_total_insert_eq.
        pose proof (sock_pool_move (<[i:=mk_socket 257 sock param handler]> (sockets s))
          (<[H_free_sockets:=fs]> m) head (Sk i) fs Hh) as Hmv.
        rewrite (lookup_total_insert_ne m H_free_sockets head) in Hmv by done.
        apply Hmv. simpl_heads. by apply (pool_alloc Sk).
      * destruct Hh as [-> | ->]; simpl_heads; by eapply inv_tm.
      * destruct Hh as [-> | ->]; simpl_heads; by eapply inv_sg.
      * destruct Hh as [-> | ->]; simpl_heads; by eapply inv_sorted.
Qed.

Lemma clear_inused_bit f : Z.testbit (clear_inused f) 8 = false.
Proof. unfold clear_inused. rewrite Z.ldiff_spec. apply andb_false_r. Qed.

(** Unlinking a registered socket and returning it to the pool. *)
Definition freed_socket (s : sloop) (i : nat) (h : gmap addr (dlist_head addr)) : sloop :=
  match sockets s !! i with
  | Some r => with_sockets (with_heap s h)
                (<[i := sk_set_flags (clear_inused (sk_flags r)) r]> (sockets s))
  | None => s
  end.

Lemma release_socket_spec s m head l1 x l2 :
  inv s m → sock_head head → m !!! head = l1 ++ x :: l2 →
  ∃ i h, x = Sk i ∧
    (h1 ← dlist_del (heap s) x; free_socket (with_heap s h1) x) = Ok (freed_socket s i h)
    ∧ inv (freed_socket s i h)
        (<[H_free_sockets := x :: m !!! H_free_sockets]> (<[head := l1 ++ l2]> m)).
Proof.
  intros Hi Hh Hl.
  assert (Hne : head ≠ H_free_sockets) by (destruct Hh as [-> | ->]; done).
  destruct (dlists_move (heap s) m head l1 x l2 H_free_sockets (m !!! H_free_sockets))
    as (h1 & h2 & E1 & E2 & Hds);
    [by eapply inv_dl|done|eapply inv_head; eauto with wbr
    |eapply inv_head; [done|in_heads|done]|].
  assert (Hp : sk_pool (sockets s) (m !!! H_free_sockets)
            (x :: (<[head := l1 ++ l2]> m !!! H_readers
                   ++ <[head := l1 ++ l2]> m !!! H_writers))).
  { eapply pool_used_perm, inv_sk, Hi.
    destruct Hh as [-> | ->]; simpl_heads; rewrite Hl; solve_Permutation. }
  destruct (pool_node _ _ _ _ _ _ _ x Hp) as (i & r & -> & Hi' & Hr); [set_solver|].
  exists i, h2. split; [done|]. unfold freed_socket. rewrite Hr. split.
  - rewrite E1. cbn. unfold free_socket, upd_sk. cbn. rewrite Hr. cbn. rewrite E2. done.
  - split; cbn.
    + done.
    + apply dom_insert2. by eapply inv_dom.
    + rewrite lookup_total_insert_eq.
      rewrite !(lookup_total_insert_ne _ H_free_sockets) by done.
      apply (pool_release Sk); [done|]. apply clear_inused_bit.
    + destruct Hh as [-> | ->]; simpl_heads; by eapply inv_tm.
    + destruct Hh as [-> | ->]; simpl_heads; by eapply inv_sg.
    + destruct Hh as [-> | ->]; simpl_heads; by eapply inv_sorted.
Qed.

(** Emptying a list into the free list, node by node. *)
Lemma insert_drain (m : gmap addr (list addr)) F h x l f :
  F ≠ h →
  <[F := rev l ++ (<[F := x :: f]> (<[h := l]> m)) !!! F]>
    (<[h := []]> (<[F := x :: f]> (<[h := l]> m)))
  = <[F := rev (x :: l) ++ f]> (<[h := []]> m).
Proof.
  intros Hne. rewrite lookup_total_insert_eq.
  rewrite (insert_insert_ne _ h F) by done. rewrite !insert_insert_eq.
  cbn. by rewrite <- app_assoc.
Qed.

Lemma insert_drain_nil (m : gmap addr (list addr)) F h :
  m !! F = Some (m !!! F) → m !! h = Some [] →
  <[F := rev [] ++ m !!! F]> (<[h := []]> m) = m.
Proof.
  intros HF Hh. destruct (decide (F = h)) as [->|Hne].
  - apply map_eq. intros k. cbn. destruct (decide (k = h)) as [->|].
    + by rewrite lookup_insert_eq.
    + by rewrite !lookup_insert_ne.
  - rewrite (insert_id m h []) by done. by rewrite insert_id.
Qed.

Lemma cancel_all_sockets_spec fuel s m head :
  inv s m → sock_head head → (length (m !!! head) ≤ fuel)%nat →
  ∃ s', cancel_all_sockets fuel s head = Ok s'
    ∧ inv s' (<[H_free_sockets := rev (m !!! head) ++ m !!! H_free_sockets]>
                (<[head := []]> m))
    ∧ timeouts s' = timeouts s ∧ signals s' = signals s.
Proof.
  remember (m !!! head) as l eqn:Hl. symmetry in Hl.
  revert fuel s m Hl. induction l as [|x l IH]; intros fuel s m Hl Hi Hh Hf.
  - exists s. split.
    + destruct fuel; cbn; by rewrite (inv_nil s m head) by eauto with wbr.
    + rewrite insert_drain_nil; [done|eapply inv_dom; [done|in_heads]|].
      eapply inv_head; eauto with wbr.
  - destruct fuel as [|fuel]; cbn in Hf; [lia|].
    destruct (inv_first s m head x l) as (He & n & Hn & Hx); eauto with wbr.
    destruct (release_socket_spec s m head [] x l Hi Hh Hl) as (i & h & -> & E & Hi').
    edestruct (IH fuel (freed_socket s i h)) as (s' & E' & Hi'' & Ht & Hg);
      [|exact Hi'|done|lia|].
    { rewrite lookup_total_insert_ne by (destruct Hh as [-> | ->]; done).
      by rewrite lookup_total_insert_eq. }
    exists s'. split.
    + cbn [cancel_all_sockets]. rewrite He. cbn. rewrite Hn. cbn. rewrite Hx.
      apply bind_Ok in E as (h1 & E1 & E). rewrite E1. cbn. rewrite E. done.
    + cbn [app] in Hi''. rewrite insert_drain in Hi'' by (destruct Hh as [-> | ->]; done).
      split; [done|]. unfold freed_socket in Ht, Hg.
      destruct (sockets s !! i); cbn in *; auto.
Qed.

(** Registered sockets are cancelled through their handle or all at once. *)
Lemma cancel_socket_spec s m head l1 x l2 :
  inv s m → sock_head head → m !!! head = l1 ++ x :: l2 →
  ∃ i h, x = Sk i ∧ cancel_socket s x head = Ok (freed_socket s i h)
    ∧ inv (freed_socket s i h)
        (<[H_free_sockets := x :: m !!! H_free_sockets]> (<[head := l1 ++ l2]> m)).
Proof.
  intros Hi Hh Hl. destruct (release_socket_spec s m head l1 x l2 Hi Hh Hl)
    as (i & h & -> & E & Hi').
  exists i, h. split; [done|]. split; [|done]. exact E.
Qed.

Lemma pool_length {R} mk N flags inuse (recs : gmap nat R) free used :
  pool_inv mk N flags inuse recs free used → (length free + length used = N)%nat.
Proof.
  intros [Hp _ _]. apply Permutation_length in Hp.
  rewrite length_app, length_fmap, length_seq in Hp. done.
Qed.

Lemma cancel_sockets_spec s m head :
  inv s m → sock_head head →
  ∃ s', cancel_socket s NULL head = Ok s'
    ∧ inv s' (<[H_free_sockets := rev (m !!! head) ++ m !!! H_free_sockets]>
                (<[head := []]> m))
    ∧ timeouts s' = timeouts s ∧ signals s' = signals s.
Proof.
  intros Hi Hh. unfold cancel_socket. rewrite decide_True by done.
  apply cancel_all_sockets_spec; [done|done|].
  pose proof (pool_length _ _ _ _ _ _ _ (inv_sk _ _ Hi)) as Hlen.
  rewrite length_app in Hlen. destruct Hh as [-> | ->]; lia.
Qed.

(** ** Signals *)

Definition freed_signal (s : sloop) (i : nat) (h : gmap addr (dlist_head addr)) : sloop :=
  match signals s !! i with
  | Some r => with_signals (with_heap s h)
                (<[i := sg_set_flags (clear_inused (sg_flags r)) r]> (signals s))
  | None => s
  end.

Lemma release_signal_spec s m l1 x l2 :
  inv s m → m !!! H_signals = l1 ++ x :: l2 →
  ∃ i h, x = Sg i ∧
    (h1 ← dlist_del (heap s) x; free_signal (with_heap s h1) x) = Ok (freed_signal s i h)
    ∧ inv (freed_signal s i h)
        (<[H_free_signals := x :: m !!! H_free_signals]> (<[H_signals := l1 ++ l2]> m)).
Proof.
  intros Hi Hl.
  destruct (dlists_move (heap s) m H_signals l1 x l2 H_free_signals (m !!! H_free_signals))
    as (h1 & h2 & E1 & E2 & Hds);
    [by eapply inv_dl|done|eapply inv_head; [done|in_heads|done]..|].
  assert (Hp : sg_pool (signals s) (m !!! H_free_signals) (x :: l1 ++ l2)).
  { eapply pool_used_perm, inv_sg, Hi. rewrite Hl. solve_Permutation. }
  destruct (pool_node _ _ _ _ _ _ _ x Hp) as (i & r & -> & Hi' & Hr); [set_solver|].
  exists i, h2. split; [done|]. unfold freed_signal. rewrite Hr. split.
  - rewrite E1. cbn. unfold free_signal, upd_sg. cbn. rewrite Hr. cbn. rewrite E2. done.
  - split; cbn; [done|apply dom_insert2; by eapply inv_dom|..]; simpl_heads.
    + by eapply inv_sk.
    + by eapply inv_tm.
    + apply (pool_release Sg); [done|]. apply clear_inused_bit.
    + by eapply inv_sorted.
Qed.

(** [signal(2)] does not touch the lists. *)
Lemma inv_signal_call s m sig d : inv s m → inv (signal_call s sig d) m.
Proof. intros []. by split. Qed.

Lemma register_signal_spec s m sig handler param :
  inv s m →
  match m !!! H_free_signals with
  | [] => sloop_register_signal s sig handler param = Ok (NULL, s)
  | x :: fs => ∃ i h, x = Sg i ∧
      let s' := signal_call (with_signals (with_heap s h)
                  (<[i := mk_signal 259 sig param handler]> (signals s))) sig SIG_SLOOP in
      sloop_register_signal s sig handler param = Ok (x, s')
      ∧ inv s' (<[H_signals := x :: m !!! H_signals]> (<[H_free_signals := fs]> m))
  end.
Proof.
  intros Hi. destruct (m !!! H_free_signals) as [|x fs] eqn:Hfs.
  - unfold sloop_register_signal, get_signal.
    by rewrite (inv_nil s m H_free_signals Hi ltac:(in_heads) Hfs).
  - destruct (inv_first s m H_free_signals x fs Hi ltac:(in_heads) Hfs) as (He & n & Hn & Hx).
    destruct (dlists_move (heap s) m H_free_signals [] x fs H_signals (m !!! H_signals))
      as (h1 & h2 & E1 & E2 & Hds);
      [by eapply inv_dl|done|eapply inv_head; [done|in_heads|done]..|].
    pose proof (inv_sg _ _ Hi) as Hp. rewrite Hfs in Hp.
    destruct (pool_node _ _ _ _ _ _ _ x Hp) as (i & r & -> & Hi' & Hr); [set_solver|].
    exists i, h2. split; [done|]. cbn zeta. split.
    + unfold sloop_register_signal, get_signal. rewrite He. cbn. rewrite Hn. cbn.
      rewrite Hx, E1. unfold upd_sg. cbn. rewrite Hr. cbn.
      rewrite lookup_insert_eq. cbn. rewrite E2. cbn.
      by rewrite insert_insert_eq.
    + apply inv_signal_call.
      split; cbn; [done|apply dom_insert2; by eapply inv_dom|..]; simpl_heads.
      * by eapply inv_sk.
      * by eapply inv_tm.
      * by apply (pool_alloc Sg).
      * by eapply inv_sorted.
Qed.

Lemma get_sg_used s m x :
  inv s m → x ∈ m !!! H_signals → ∃ r, get_sg s x = Ok r.
Proof.
  intros Hi Hx. pose proof (inv_sg _ _ Hi) as Hp.
  destruct (pool_node _ _ _ _ _ _ _ x Hp) as (i & r & -> & Hi' & Hr); [set_solver|].
  exists r. unfold get_sg. cbn. by rewrite Hr.
Qed.

Lemma cancel_signal_spec s m l1 x l2 :
  inv s m → m !!! H_signals = l1 ++ x :: l2 →
  ∃ s' r, get_sg s x = Ok r ∧ sloop_cancel_signal s x = Ok s'
    ∧ inv s' (<[H_free_signals := x :: m !!! H_free_signals]> (<[H_signals := l1 ++ l2]> m))
    ∧ dispositions s' = <[sg_sig r := SIG_DFL]> (dispositions s).
Proof.
  intros Hi Hl. destruct (get_sg_used s m x Hi) as [r Hr]; [rewrite Hl; set_solver|].
  destruct (release_signal_spec (signal_call s (sg_sig r) SIG_DFL) m l1 x l2)
    as (i & h & -> & E & Hi'); [by apply inv_signal_call|done|].
  eexists _, r. split; [done|]. unfold sloop_cancel_signal. rewrite decide_False by done.
  rewrite Hr. cbn -[dlist_del free_signal]. split; [exact E|]. split; [done|].
  unfold freed_signal. cbn. by destruct (signals s !! i).
Qed.

Lemma cancel_all_signals_spec fuel s m :
  inv s m → (length (m !!! H_signals) ≤ fuel)%nat →
  ∃ s', cancel_all_signals fuel s = Ok s'
    ∧ inv s' (<[H_free_signals := rev (m !!! H_signals) ++ m !!! H_free_signals]>
                (<[H_signals := []]> m)).
Proof.
  remember (m !!! H_signals) as l eqn:Hl. symmetry in Hl.
  revert fuel s m Hl. induction l as [|x l IH]; intros fuel s m Hl Hi Hf.
  - exists s. split.
    + destruct fuel; cbn; by rewrite (inv_nil s m H_signals Hi ltac:(in_heads) Hl).
    + rewrite insert_drain_nil; [done|eapply inv_dom; [done|in_heads]|].
      eapply inv_head; [done|in_heads|done].
  - destruct fuel as [|fuel]; cbn in Hf; [lia|].
    destruct (inv_first s m H_signals x l Hi ltac:(in_heads) Hl) as (He & n & Hn & Hx).
    destruct (get_sg_used s m x Hi) as [r Hr]; [rewrite Hl; set_solver|].
    destruct (release_signal_spec (signal_call s (sg_sig r) SIG_DFL) m [] x l)
      as (i & h & -> & E & Hi'); [by apply inv_signal_call|done|].
    edestruct (IH fuel) as (s' & E' & Hi''); [|exact Hi'|lia|].
    { rewrite lookup_total_insert_ne by done. by rewrite lookup_total_insert_eq. }
    exists s'. split.
    + cbn [cancel_all_signals]. rewrite He. cbn. rewrite Hn. cbn. rewrite Hx, Hr. cbn.
      apply bind_Ok in E as (h1 & E1 & E). cbn in E1. rewrite E1. cbn. rewrite E. done.
    + cbn [app] in Hi''. by rewrite insert_drain in Hi''.
Qed.

Lemma cancel_signals_spec s m :
  inv s m → ∃ s', sloop_cancel_signal s NULL = Ok s'
    ∧ inv s' (<[H_free_signals := rev (m !!! H_signals) ++ m !!! H_free_signals]>
                (<[H_signals := []]> m)).
Proof.
  intros Hi. unfold sloop_cancel_signal. rewrite decide_True by done.
  apply cancel_all_signals_spec; [done|].
  pose proof (pool_length _ _ _ _ _ _ _ (inv_sg _ _ Hi)). lia.
Qed.

(** ** Timers *)

#[export] Instance not_later_trans tms : Transitive (not_later tms).
Proof. intros x y z. unfold not_later. rewrite !timer_nlt_spec. lia. Qed.

(** Insertion after every timer that does not expire later. *)
Fixpoint insert_timer (tms : gmap nat sloop_timeout) (t : timeval) (x : addr) (l : list addr) :=
  match l with
  | [] => [x]
  | y :: l' => if timer_lt t (time_at tms y) then x :: l else y :: insert_timer tms t x l'
  end.

Lemma insert_timer_split tms t x l :
  ∃ l1 l2, l = l1 ++ l2 ∧ insert_timer tms t x l = l1 ++ x :: l2
    ∧ Forall (λ y, timer_lt t (time_at tms y) = false) l1
    ∧ (∀ y l2', l2 = y :: l2' → timer_lt t (time_at tms y) = true).
Proof.
  induction l as [|y l IH]; cbn.
  - exists [], []. split_and!; auto; naive_solver.
  - destruct (timer_lt t (time_at tms y)) eqn:E.
    + exists [], (y :: l). split_and!; auto. naive_solver.
    + destruct IH as (l1 & l2 & -> & IH & HF & Hn). exists (y :: l1), l2.
      split_and!; [done|by rewrite IH|by constructor|done].
Qed.

Lemma insert_timer_perm tms t x l : insert_timer tms t x l ≡ₚ x :: l.
Proof.
  destruct (insert_timer_split tms t x l) as (l1 & l2 & -> & -> & _).
  symmetry. apply Permutation_middle.
Qed.

Lemma time_at_insert_ne tms i r y :
  y ≠ Tm i → time_at (<[i := r]> tms) y = time_at tms y.
Proof.
  destruct y; cbn; try done. intros Hne. rewrite lookup_insert_ne by congruence. done.
Qed.

Lemma insert_timer_sorted tms i r l :
  Tm i ∉ l → StronglySorted (not_later tms) l →
  StronglySorted (not_later (<[i := r]> tms)) (insert_timer tms (tm_time r) (Tm i) l).
Proof.
  intros Hni Hs.
  assert (Hti : time_at (<[i := r]> tms) (Tm i) = tm_time r).
  { cbn. by rewrite lookup_insert_eq. }
  assert (Hto : ∀ y, y ∈ l → time_at (<[i := r]> tms) y = time_at tms y).
  { intros y Hy. apply time_at_insert_ne. set_solver. }
  induction Hs as [|y l Hs IH HF]; cbn.
  - repeat constructor.
  - assert (Hl : StronglySorted (not_later (<[i:=r]> tms)) (insert_timer tms (tm_time r) (Tm i) l)).
    { apply IH; [set_solver|]. intros z Hz. apply Hto. set_solver. }
    assert (HF' : Forall (not_later (<[i:=r]> tms) y) l).
    { rewrite Forall_forall in *. intros z Hz. unfold not_later.
      rewrite !Hto by set_solver. by apply HF. }
    destruct (timer_lt (tm_time r) (time_at tms y)) eqn:E.
    + assert (Hxy : not_later (<[i:=r]> tms) (Tm i) y).
      { unfold not_later. rewrite Hti, Hto by set_solver.
        rewrite timer_lt_spec in E. rewrite timer_nlt_spec. lia. }
      constructor.
      * constructor; [|done]. clear -Hs Hto. induction Hs as [|z l Hs IH HF]; constructor.
        -- apply IH. intros w Hw. apply Hto. set_solver.
        -- rewrite Forall_forall in *. intros w Hw. unfold not_later.
           rewrite !Hto by set_solver. by apply HF.
      * constructor; [done|]. eapply Forall_impl; [exact HF'|]. intros z Hz. by etrans.
    + constructor; [done|]. rewrite insert_timer_perm. constructor; [|done].
      unfold not_later. by rewrite Hti, Hto by set_solver.
Qed.

(** The expiry time of a timer registered at uptime [now]. *)
Definition expiry (now secs usecs : Z) : timeval :=
  let t := mk_timeval (s32 (now + secs)) (s32 usecs) in
  if 0 <=? tv_usec t
  then mk_timeval (tv_sec t + tv_usec t `div` 1000000) (tv_usec t `mod` 1000000)
  else t.

(** Its seconds can be represented. *)
Definition expiry_fits (now secs usecs : Z) : bool := time_fits (mk_timeval (s32 (now + secs)) (s32 usecs)).

Lemma timeout_time_spec now secs usecs :
  timeout_time now secs usecs = if expiry_fits now secs usecs then Ok (expiry now secs usecs) else Fault.
Proof.
  unfold timeout_time. rewrite carry_usec_spec; [done|]. cbn.
  assert (s32 usecs < 2147483648); [|lia].
  unfold s32. pose proof (Z.mod_pos_bound (usecs + 2147483648) 4294967296). lia.
Qed.

Lemma get_tm_used s free used x :
  tm_pool (timeouts s) free used → x ∈ free ++ used →
  ∃ i r, x = Tm i ∧ timeouts s !! i = Some r ∧ get_tm s x = Ok r
    ∧ tm_time r = time_at (timeouts s) x.
Proof.
  intros Hp Hx. destruct (pool_node _ _ _ _ _ _ _ x Hp) as (i & r & -> & Hi' & Hr); [done|].
  exists i, r. unfold get_tm. cbn. rewrite Hr. done.
Qed.

Lemma find_later_spec fuel s t l1 l2 :
  is_dlist (heap s) H_timeout (l1 ++ l2) →
  (∀ x, x ∈ l2 → ∃ r, get_tm s x = Ok r ∧ tm_time r = time_at (timeouts s) x) →
  (length l2 ≤ fuel)%nat →
  ∃ la lb, l2 = la ++ lb
    ∧ find_later fuel s t (hd H_timeout l2) = Ok (hd H_timeout lb)
    ∧ ∀ x, insert_timer (timeouts s) t x l2 = la ++ x :: lb.
Proof.
  revert fuel l1. induction l2 as [|y l2 IH]; intros fuel l1 Hd Hr Hf.
  - exists [], []. split_and!; [done| |done]. destruct fuel; cbn; by rewrite decide_True.
  - destruct fuel as [|fuel]; cbn in Hf; [lia|]. cbn [find_later hd insert_timer].
    pose proof (is_dlist_nodup _ _ _ Hd) as Hnd. apply NoDup_cons in Hnd as [Hnd _].
    rewrite decide_False by set_solver.
    destruct (Hr y) as (r & Hg & Ht); [set_solver|]. rewrite Hg. cbn. rewrite Ht.
    destruct (timer_lt t (time_at (timeouts s) y)) eqn:E.
    + exists [], (y :: l2). split_and!; done.
    + rewrite (is_dlist_entry _ _ _ _ _ Hd). cbn.
      destruct (IH fuel (l1 ++ [y])) as (la & lb & -> & Hfl & Hins).
      * by rewrite <- app_assoc.
      * intros z Hz. apply Hr. set_solver.
      * lia.
      * exists (y :: la), lb. rewrite Hfl. split_and!; [done|done|]. intros x. by rewrite Hins.
Qed.

(** Linking a timer into the list at the place the search finds. *)
Lemma link_timer s m x t :
  dlists (heap s) m → m !! H_timeout = Some (m !!! H_timeout) →
  ¬ on_list m x → is_Some (heap s !! x) →
  (∀ y, y ∈ m !!! H_timeout → ∃ r, get_tm s y = Ok r ∧ tm_time r = time_at (timeouts s) y) →
  (length (m !!! H_timeout) ≤ MAX_SLOOP_TIMEOUT)%nat →
  ∃ h, (e ← dlist_empty (heap s) H_timeout;
        if (e : bool) then
          h ← dlist_add (heap s) x H_timeout; mret (x, with_heap s h)
        else
          n ← load (heap s) H_timeout;
          entry ← find_later MAX_SLOOP_TIMEOUT s t (next n);
          h ← dlist_add_tail (heap s) x entry;
          mret (x, with_heap s h)) = Ok (x, with_heap s h)
    ∧ dlists h (<[H_timeout := insert_timer (timeouts s) t x (m !!! H_timeout)]> m).
Proof.
  intros Hds Hm Hno Hx Hr Hlen. set (l := m !!! H_timeout) in *.
  rewrite (dlists_empty_spec _ _ _ _ Hds Hm). cbn [mbind res_bind].
  case_bool_decide as Hl.
  - rewrite Hl in *. destruct (dlist_add_spec _ _ _ _ x Hds Hm) as (h & E & Hds' & _); auto.
    exists h. rewrite E. split; [done|]. done.
  - destruct (dlists_first _ _ _ _ Hds Hm) as (n & Hn & Hnx). rewrite Hn. cbn [mbind res_bind].
    rewrite Hnx.
    destruct (find_later_spec MAX_SLOOP_TIMEOUT s t [] l) as (la & lb & Hla & Hfl & Hins);
      [by eapply dlists_is|done|done|].
    rewrite Hfl. cbn [mbind res_bind]. rewrite Hins.
    destruct lb as [|y lb]; cbn [hd].
    + destruct (dlist_add_tail_spec _ _ _ _ x Hds Hm) as (h & E & Hds' & _); auto.
      exists h. rewrite E. split; [done|]. by rewrite Hla, app_nil_r in Hds'.
    + rewrite Hla in Hm.
      destruct (dlist_add_before_spec _ _ _ _ _ _ x Hds Hm) as (h & E & Hds' & _); auto.
      exists h. rewrite E. split; done.
Qed.

Lemma register_timeout_spec s m now secs usecs handler param :
  inv s m →
  match m !!! H_free_timeout with
  | [] => sloop_register_timeout s now secs usecs handler param = Ok (NULL, s)
  | x :: fs =>
      if expiry_fits now secs usecs then ∃ i h, x = Tm i ∧
      let t := expiry now secs usecs in
      let s' := with_timeouts (with_heap s h)
                  (<[i := mk_timeout 258 t param handler]> (timeouts s)) in
      sloop_register_timeout s now secs usecs handler param = Ok (x, s')
      ∧ inv s' (<[H_timeout := insert_timer (timeouts s) t x (m !!! H_timeout)]>
                  (<[H_free_timeout := fs]> m))
      else sloop_register_timeout s now secs usecs handler param = Fault
  end.
Proof.
  intros Hi. destruct (m !!! H_free_timeout) as [|x fs] eqn:Hfs.
  - unfold sloop_register_timeout, get_timeout.
    by rewrite (inv_nil s m H_free_timeout Hi ltac:(in_heads) Hfs).
  - destruct (inv_first s m H_free_timeout x fs Hi ltac:(in_heads) Hfs) as (He & n & Hn & Hx).
    pose proof (inv_tm _ _ Hi) as Hp. rewrite Hfs in Hp.
    destruct (get_tm_used s _ _ x Hp) as (i & r & -> & Hr & _ & _); [set_solver|].
    pose proof (pool_nodup _ _ _ _ _ _ _ Hp) as Hnd. cbn in Hnd.
    apply NoDup_cons in Hnd as [Hnin _].
    destruct (dlists_del_spec (heap s) m H_free_timeout [] (Tm i) fs)
      as (h1 & E1 & Hds1 & Hno & _ & M1);
      [by eapply inv_dl|eapply inv_head; [done|in_heads|done]|].
    cbn [app] in Hds1, Hno.
    destruct (INIT_DLIST_HEAD_dlists h1 _ (Tm i) Hds1 Hno) as (h2 & E2 & Hds2 & Hm2).
    { apply M1. eapply dlists_mapped; [by eapply inv_dl|].
      exists H_free_timeout, (Tm i :: fs). split; [|set_solver].
      eapply inv_head; [done|in_heads|done]. }
    assert (Hg : get_timeout s = Ok (Tm i,
        with_timeouts (with_heap s h1) (<[i := tm_set_flags 258 r]> (timeouts s)))).
    { unfold get_timeout. rewrite He. cbn. rewrite Hn. cbn. rewrite Hx, E1.
      unfold upd_tm. cbn. by rewrite Hr. }
    destruct (expiry_fits now secs usecs) eqn:Hfit.
    2: { unfold sloop_register_timeout. rewrite Hg, bind_ret.
      rewrite decide_False by done. by rewrite timeout_time_spec, Hfit. }
    set (t := expiry now secs usecs).
    set (tms := <[i := mk_timeout 258 t param handler]> (timeouts s)).
    set (s2 := with_timeouts (with_heap s h2) tms).
    assert (Hto : ∀ y, y ∈ m !!! H_timeout → time_at tms y = time_at (timeouts s) y).
    { intros y Hy. apply time_at_insert_ne. set_solver. }
    assert (Hins : ∀ l, (∀ y, y ∈ l → y ∈ m !!! H_timeout) →
        insert_timer tms t (Tm i) l = insert_timer (timeouts s) t (Tm i) l).
    { induction l as [|y l IH]; intros Hl; cbn; [done|].
      rewrite Hto by set_solver. rewrite IH by set_solver. done. }
    destruct (link_timer s2 (<[H_free_timeout := fs]> m) (Tm i) t) as (h3 & E3 & Hds3).
    { done. }
    { rewrite lookup_insert_ne, lookup_total_insert_ne by done.
      eapply inv_dom; [done|in_heads]. }
    { done. }
    { done. }
    { simpl_heads. intros y Hy. destruct (get_tm_used s _ _ y Hp) as (j & rj & -> & Hj & _);
        [set_solver|].
      exists rj. unfold get_tm, s2, tms. cbn.
      rewrite lookup_insert_ne by (intros ->; set_solver). by rewrite Hj. }
    { simpl_heads. pose proof (pool_length _ _ _ _ _ _ _ Hp). cbn in *. lia. }
    exists i, h3. split; [done|]. cbn zeta. fold t. split.
    + unfold sloop_register_timeout. rewrite Hg. cbn [mbind res_bind].
      rewrite decide_False by done. rewrite timeout_time_spec, Hfit. cbn [mbind res_bind].
      unfold upd_tm. cbn [timeout_entry timeouts with_timeouts mbind res_bind].
      rewrite lookup_insert_eq. cbn [deref mbind res_bind mret res_ret].
      rewrite insert_insert_eq. cbn [heap with_timeouts with_heap].
      rewrite E2. cbn [mbind res_bind]. exact E3.
    + rewrite lookup_total_insert_ne in Hds3 by done.
      change (timeouts s2) with tms in Hds3. rewrite Hins in Hds3 by done.
      clear E3 Hins Hto.
      split; cbn; [done|apply dom_insert2; by eapply inv_dom|..]; simpl_heads.
      * by eapply inv_sk.
      * eapply pool_used_perm; [symmetry; apply insert_timer_perm|].
        by apply (pool_alloc Tm).
      * by eapply inv_sg.
      * apply (insert_timer_sorted _ i (mk_timeout 258 t param handler)).
        -- set_solver.
        -- by eapply inv_sorted.
Qed.

Definition freed_timeout (s : sloop) (i : nat) (h : gmap addr (dlist_head addr)) : sloop :=
  match timeouts s !! i with
  | Some r => with_timeouts (with_heap s h)
                (<[i := tm_set_flags (clear_inused (tm_flags r)) r]> (timeouts s))
  | None => s
  end.

Lemma time_at_set_flags tms i r f y :
  tms !! i = Some r → time_at (<[i := tm_set_flags f r]> tms) y = time_at tms y.
Proof.
  intros Hr. destruct (decide (y = Tm i)) as [->|Hne].
  - cbn. by rewrite lookup_insert_eq, Hr.
  - by apply time_at_insert_ne.
Qed.

Lemma StronglySorted_delete {A} (R : A → A → Prop) l1 x l2 :
  StronglySorted R (l1 ++ x :: l2) → StronglySorted R (l1 ++ l2).
Proof.
  induction l1 as [|y l1 IH]; cbn; inversion 1; subst; [done|].
  constructor; [by apply IH|]. rewrite Forall_app in *. rewrite Forall_cons in *. naive_solver.
Qed.

Lemma not_later_ext tms tms' l :
  (∀ y, time_at tms' y = time_at tms y) →
  StronglySorted (not_later tms) l → StronglySorted (not_later tms') l.
Proof.
  intros Hext. induction 1; constructor; [done|].
  eapply Forall_impl; [done|]. intros y. unfold not_later. by rewrite !Hext.
Qed.

Lemma release_timeout_spec s m l1 x l2 :
  inv s m → m !!! H_timeout = l1 ++ x :: l2 →
  ∃ i h, x = Tm i ∧
    (h1 ← dlist_del (heap s) x; free_timeout (with_heap s h1) x) = Ok (freed_timeout s i h)
    ∧ inv (freed_timeout s i h)
        (<[H_free_timeout := x :: m !!! H_free_timeout]> (<[H_timeout := l1 ++ l2]> m)).
Proof.
  intros Hi Hl.
  destruct (dlists_move (heap s) m H_timeout l1 x l2 H_free_timeout (m !!! H_free_timeout))
    as (h1 & h2 & E1 & E2 & Hds);
    [by eapply inv_dl|done|eapply inv_head; [done|in_heads|done]..|].
  assert (Hp : tm_pool (timeouts s) (m !!! H_free_timeout) (x :: l1 ++ l2)).
  { eapply pool_used_perm, inv_tm, Hi. rewrite Hl. solve_Permutation. }
  destruct (pool_node _ _ _ _ _ _ _ x Hp) as (i & r & -> & Hi' & Hr); [set_solver|].
  exists i, h2. split; [done|]. unfold freed_timeout. rewrite Hr. split.
  - rewrite E1. cbn. unfold free_timeout, upd_tm. cbn. rewrite Hr. cbn. rewrite E2. done.
  - split; cbn; [done|apply dom_insert2; by eapply inv_dom|..]; simpl_heads.
    + by eapply inv_sk.
    + apply (pool_release Tm); [done|]. apply clear_inused_bit.
    + by eapply inv_sg.
    + eapply not_later_ext; [intros; by apply time_at_set_flags|].
      eapply StronglySorted_delete. rewrite <- Hl. by eapply inv_sorted.
Qed.

Lemma cancel_timeout_spec s m l1 x l2 :
  inv s m → m !!! H_timeout = l1 ++ x :: l2 →
  ∃ i h, x = Tm i ∧ sloop_cancel_timeout s x = Ok (freed_timeout s i h)
    ∧ inv (freed_timeout s i h)
        (<[H_free_timeout := x :: m !!! H_free_timeout]> (<[H_timeout := l1 ++ l2]> m)).
Proof.
  intros Hi Hl. destruct (release_timeout_spec s m l1 x l2 Hi Hl) as (i & h & -> & E & Hi').
  exists i, h. split; [done|]. split; [|done]. exact E.
Qed.

Lemma cancel_all_timeouts_spec fuel s m :
  inv s m → (length (m !!! H_timeout) ≤ fuel)%nat →
  ∃ s', cancel_all_timeouts fuel s = Ok s'
    ∧ inv s' (<[H_free_timeout := rev (m !!! H_timeout) ++ m !!! H_free_timeout]>
                (<[H_timeout := []]> m)).
Proof.
  remember (m !!! H_timeout) as l eqn:Hl. symmetry in Hl.
  revert fuel s m Hl. induction l as [|x l IH]; intros fuel s m Hl Hi Hf.
  - exists s. split.
    + destruct fuel; cbn; by rewrite (inv_nil s m H_timeout Hi ltac:(in_heads) Hl).
    + rewrite insert_drain_nil; [done|eapply inv_dom; [done|in_heads]|].
      eapply inv_head; [done|in_heads|done].
  - destruct fuel as [|fuel]; cbn in Hf; [lia|].
    destruct (inv_first s m H_timeout x l Hi ltac:(in_heads) Hl) as (He & n & Hn & Hx).
    destruct (release_timeout_spec s m [] x l Hi Hl) as (i & h & -> & E & Hi').
    edestruct (IH fuel) as (s' & E' & Hi''); [|exact Hi'|lia|].
    { rewrite lookup_total_insert_ne by done. by rewrite lookup_total_insert_eq. }
    exists s'. split.
    + cbn [cancel_all_timeouts]. rewrite He. cbn. rewrite Hn. cbn. rewrite Hx.
      apply bind_Ok in E as (h1 & E1 & E). rewrite E1. cbn. rewrite E. done.
    + cbn [app] in Hi''. by rewrite insert_drain in Hi''.
Qed.

Lemma cancel_timeouts_spec s m :
  inv s m → ∃ s', sloop_cancel_timeout s NULL = Ok s'
    ∧ inv s' (<[H_free_timeout := rev (m !!! H_timeout) ++ m !!! H_free_timeout]>
                (<[H_timeout := []]> m)).
Proof.
  intros Hi. unfold sloop_cancel_timeout. rewrite decide_True by done.
  apply cancel_all_timeouts_spec; [done|].
  pose proof (pool_length _ _ _ _ _ _ _ (inv_tm _ _ Hi)). lia.
Qed.

(** ** Initialisation *)

Lemma init_heads_spec l h m :
  dlists h m → NoDup l → (∀ x, x ∈ l → is_Some (h !! x) ∧ ¬ on_list m x) →
  ∃ h', init_heads h l = Ok h'
    ∧ dlists h' (foldl (λ m x, <[x := []]> m) m l)
    ∧ (∀ q, is_Some (h' !! q) ↔ is_Some (h !! q))
    ∧ (∀ q, on_list (foldl (λ m x, <[x := []]> m) m l) q → q ∈ l ∨ on_list m q).
Proof.
  revert h m. induction l as [|x l IH]; intros h m Hds Hnd Hx; cbn.
  - exists h. split_and!; [done..|tauto].
  - apply NoDup_cons in Hnd as [Hni Hnd].
    destruct (INIT_DLIST_HEAD_new h m x Hds) as (h1 & E1 & Hds1 & M1); [apply Hx; set_solver..|].
    destruct (IH h1 (<[x := []]> m) Hds1 Hnd) as (h2 & E2 & Hds2 & M2 & O2).
    { intros y Hy. split; [apply M1, Hx; set_solver|]. intros Ho.
      apply on_list_new in Ho as [->|Ho]; [done|]. apply (Hx y); [set_solver|done]. }
    exists h2. rewrite E1. cbn. rewrite E2. split_and!; [done|done| |].
    + intros q. by rewrite M2, M1.
    + intros q Hq. apply O2 in Hq as [Hq|Hq]; [set_solver|].
      apply on_list_new in Hq as [->|Hq]; [set_solver|by right].
Qed.

Lemma add_all_spec l h m head l0 :
  dlists h m → m !! head = Some l0 → NoDup l →
  (∀ x, x ∈ l → is_Some (h !! x) ∧ ¬ on_list m x) →
  ∃ h', add_all h l head = Ok h'
    ∧ dlists h' (<[head := rev l ++ l0]> m)
    ∧ (∀ q, is_Some (h' !! q) ↔ is_Some (h !! q)).
Proof.
  revert h m l0. induction l as [|x l IH]; intros h m l0 Hds Hm Hnd Hx; cbn.
  - exists h. rewrite insert_id by done. done.
  - apply NoDup_cons in Hnd as [Hni Hnd].
    destruct (dlist_add_spec h m head l0 x Hds Hm) as (h1 & E1 & Hds1 & _ & M1);
      [apply Hx; set_solver..|].
    destruct (IH h1 (<[head := x :: l0]> m) (x :: l0) Hds1) as (h2 & E2 & Hds2 & M2).
    { apply lookup_insert_eq. }
    { done. }
    { intros y Hy. split; [apply M1, Hx; set_solver|]. intros Ho.
      apply (on_list_insert _ _ _ _ _ Hm) in Ho as [Ho|Ho].
      - apply elem_of_cons in Ho as [->|Ho]; [done|].
        apply (Hx y); [set_solver|]. exists head, l0. set_solver.
      - apply (Hx y); [set_solver|done]. }
    exists h2. rewrite E1. cbn. rewrite E2. split_and!; [done| |].
    + rewrite insert_insert_eq in Hds2. by rewrite <- app_assoc.
    + intros q. by rewrite M2, M1.
Qed.

(** The lists after initialisation: every node is free. *)
Definition init_lists : gmap addr (list addr) :=
  <[H_free_signals := rev (Sg <$> seq 0 MAX_SLOOP_SIGNAL)]>
  (<[H_free_timeout := rev (Tm <$> seq 0 MAX_SLOOP_TIMEOUT)]>
  (<[H_free_sockets := rev (Sk <$> seq 0 MAX_SLOOP_SOCKET)]>
  (foldl (λ m x, <[x := []]> m) ∅ heads))).

Lemma dlists_nil (h : gmap addr (dlist_head addr)) : dlists h ∅.
Proof. split; intros *; rewrite lookup_empty; done. Qed.

Lemma zero_heap_mapped x : x ∈ heads ++ pool_nodes → is_Some (zero_heap !! x).
Proof.
  intros Hx. unfold zero_heap. apply list_elem_of_lookup in Hx as [i Hi].
  apply elem_of_dom. rewrite dom_list_to_map_L. apply elem_of_list_to_set.
  rewrite <- list_fmap_compose. cbn. rewrite list_fmap_id. by apply list_elem_of_lookup_2 in Hi.
Qed.

Lemma pool_inv_init {R} mk `{!Inj (=) (=) mk} N (flags : R → Z) inuse r0 :
  Z.testbit (flags r0) 8 = false →
  pool_inv mk N flags inuse (list_to_map ((λ i, (i, r0)) <$> seq 0 N)) (rev (mk <$> seq 0 N)) [].
Proof.
  intros Hr0. split.
  - rewrite app_nil_r. symmetry. apply Permutation_rev.
  - intros i Hi. rewrite <- Permutation_rev in Hi.
    apply list_elem_of_fmap in Hi as (j & Hj & Hin). apply (inj mk) in Hj as <-.
    exists r0. split; [|done]. apply elem_of_list_to_map.
    + rewrite <- list_fmap_compose. cbn. rewrite list_fmap_id. apply NoDup_seq.
    + apply list_elem_of_fmap. eauto.
  - intros i Hi. set_solver.
Qed.

Lemma add_pool_spec (mk : nat → addr) `{!Inj (=) (=) mk} N h m head (P : addr → Prop) :
  dlists h m → m !! head = Some [] →
  (∀ q, on_list m q → P q) → (∀ i, ¬ P (mk i)) →
  (∀ i, (i < N)%nat → is_Some (h !! mk i)) →
  ∃ h', add_all h (mk <$> seq 0 N) head = Ok h'
    ∧ dlists h' (<[head := rev (mk <$> seq 0 N)]> m)
    ∧ (∀ q, is_Some (h' !! q) ↔ is_Some (h !! q))
    ∧ (∀ q, on_list (<[head := rev (mk <$> seq 0 N)]> m) q → P q ∨ ∃ i, q = mk i).
Proof.
  intros Hds Hm HP HnP Hmap.
  destruct (add_all_spec (mk <$> seq 0 N) h m head [] Hds Hm) as (h' & E & Hds' & M').
  - apply NoDup_fmap_2; [done|]. apply NoDup_seq.
  - intros x Hx. apply list_elem_of_fmap in Hx as (i & -> & Hi). apply elem_of_seq in Hi.
    split; [apply Hmap; lia|]. intros Ho. by apply HP, HnP in Ho.
  - rewrite app_nil_r in Hds'. exists h'. split_and!; [done..|].
    intros q Hq. apply (on_list_insert _ _ _ _ _ Hm) in Hq as [Hq|Hq].
    + right. rewrite <- Permutation_rev in Hq. apply list_elem_of_fmap in Hq as (i & -> & _).
      eauto.
    + left. by apply HP.
Qed.

(** Lookups in a map of that shape. *)
Lemma init_lists_lookup (a b c : list addr) :
  let m : gmap addr (list addr) := <[H_free_signals := a]> (<[H_free_timeout := b]> (<[H_free_sockets := c]>
             (foldl (λ m x, <[x := []]> m) ∅ heads))) in
  (∀ head, head ∈ heads → m !! head = Some (m !!! head))
  ∧ m !!! H_free_signals = a ∧ m !!! H_free_timeout = b ∧ m !!! H_free_sockets = c
  ∧ m !!! H_readers = [] ∧ m !!! H_writers = [] ∧ m !!! H_timeout = []
  ∧ m !!! H_signals = [].
Proof.
  split; [|repeat split; reflexivity]. intros head Hh. unfold heads in Hh.
  repeat (apply elem_of_cons in Hh as [->|Hh]; [reflexivity|]). set_solver.
Qed.

Lemma init_lists_at :
  (∀ head, head ∈ heads → init_lists !! head = Some (init_lists !!! head))
  ∧ init_lists !!! H_free_signals = rev (Sg <$> seq 0 MAX_SLOOP_SIGNAL)
  ∧ init_lists !!! H_free_timeout = rev (Tm <$> seq 0 MAX_SLOOP_TIMEOUT)
  ∧ init_lists !!! H_free_sockets = rev (Sk <$> seq 0 MAX_SLOOP_SOCKET)
  ∧ init_lists !!! H_readers = [] ∧ init_lists !!! H_writers = []
  ∧ init_lists !!! H_timeout = [] ∧ init_lists !!! H_signals = [].
Proof. unfold init_lists. apply init_lists_lookup. Qed.

Lemma node_not_head i : (Sk i ∉ heads) ∧ (Tm i ∉ heads) ∧ (Sg i ∉ heads).
Proof. split_and!; in_heads. Qed.

Lemma heads_nodup : NoDup heads.
Proof. unfold heads. repeat (apply NoDup_cons; split; [set_solver|]). by apply NoDup_nil. Qed.

Lemma pool_node_mapped i :
  ((i < MAX_SLOOP_SOCKET)%nat → Sk i ∈ pool_nodes)
  ∧ ((i < MAX_SLOOP_TIMEOUT)%nat → Tm i ∈ pool_nodes)
  ∧ ((i < MAX_SLOOP_SIGNAL)%nat → Sg i ∈ pool_nodes).
Proof.
  unfold pool_nodes. rewrite !elem_of_app.
  split_and!; intros Hi; [left|right; left|right; right];
    apply list_elem_of_fmap; exists i; (split; [done|]); apply elem_of_seq; lia.
Qed.

(** [init_list_pools] on a heap whose seven heads are initialised. *)
Lemma init_list_pools_spec h0 m0 s :
  heap s = h0 → dlists h0 m0 →
  m0 !! H_free_sockets = Some [] → m0 !! H_free_timeout = Some [] →
  m0 !! H_free_signals = Some [] →
  (∀ q, on_list m0 q → q ∈ heads) → (∀ q, q ∈ pool_nodes → is_Some (h0 !! q)) →
  ∃ h, init_list_pools s = Ok (mk_sloop h
      (list_to_map ((λ i, (i, zero_socket)) <$> seq 0 MAX_SLOOP_SOCKET))
      (list_to_map ((λ i, (i, zero_timeout)) <$> seq 0 MAX_SLOOP_TIMEOUT))
      (list_to_map ((λ i, (i, zero_signal)) <$> seq 0 MAX_SLOOP_SIGNAL))
      (terminate s) (signal_fd s) (sig_pipe s) (sloop_data s) (dispositions s))
    ∧ dlists h (<[H_free_signals := rev (Sg <$> seq 0 MAX_SLOOP_SIGNAL)]>
        (<[H_free_timeout := rev (Tm <$> seq 0 MAX_SLOOP_TIMEOUT)]>
        (<[H_free_sockets := rev (Sk <$> seq 0 MAX_SLOOP_SOCKET)]> m0))).
Proof.
  intros Hh0 Hds0 Hs Ht Hg HO Hmap.
  destruct (add_pool_spec Sk MAX_SLOOP_SOCKET h0 m0 H_free_sockets (λ q, q ∈ heads))
    as (h1 & E1 & Hds1 & M1 & O1);
    [exact Hds0|exact Hs|exact HO|apply node_not_head
    |intros i Hi; by apply Hmap, pool_node_mapped|].
  destruct (add_pool_spec Tm MAX_SLOOP_TIMEOUT h1
    (<[H_free_sockets := rev (Sk <$> seq 0 MAX_SLOOP_SOCKET)]> m0)
    H_free_timeout (λ q, q ∈ heads ∨ ∃ i, q = Sk i))
    as (h2 & E2 & Hds2 & M2 & O2);
    [exact Hds1|by rewrite lookup_insert_ne|exact O1| |
     intros i Hi; by apply M1, Hmap, pool_node_mapped|].
  { intros i [Hi|[j Hj]]; [by apply node_not_head in Hi|done]. }
  destruct (add_pool_spec Sg MAX_SLOOP_SIGNAL h2
      (<[H_free_timeout := rev (Tm <$> seq 0 MAX_SLOOP_TIMEOUT)]>
        (<[H_free_sockets := rev (Sk <$> seq 0 MAX_SLOOP_SOCKET)]> m0)) H_free_signals
      (λ q, (q ∈ heads ∨ ∃ i, q = Sk i) ∨ ∃ i, q = Tm i))
    as (h3 & E3 & Hds3 & M3 & O3);
    [exact Hds2|by rewrite !lookup_insert_ne|exact O2| |
     intros i Hi; by apply M2, M1, Hmap, pool_node_mapped|].
  { intros i [[Hi|[j Hj]]|[j Hj]]; [by apply node_not_head in Hi|done..]. }
  exists h3. split; [|exact Hds3]. unfold init_list_pools. rewrite Hh0, E1.
  cbn [mbind res_bind]. rewrite E2. cbn [mbind res_bind]. rewrite E3. reflexivity.
Qed.

Lemma sloop_init_spec d fd data :
  ∃ s, sloop_init d fd data = Ok s ∧ inv s init_lists
    ∧ terminate s = 0 ∧ sig_pipe s = [] ∧ dispositions s = d.
Proof.
  destruct (init_heads_spec heads zero_heap ∅ (dlists_nil _) heads_nodup)
    as (h0 & E0 & Hds0 & M0 & O0).
  { intros x Hx. split; [apply zero_heap_mapped, elem_of_app; by left|].
    intros (hd & l & Hm & _). by rewrite lookup_empty in Hm. }
  destruct (init_list_pools_spec h0 _ (mk_sloop h0 ∅ ∅ ∅ 0 0 [] 0 d) eq_refl Hds0)
    as (h & E & Hds); [reflexivity..| | |].
  { intros q Hq. apply O0 in Hq as [Hq|(hd & l & Hm & _)]; [exact Hq|].
    by rewrite lookup_empty in Hm. }
  { intros q Hq. apply M0, zero_heap_mapped, elem_of_app. by right. }
  unfold sloop_init. rewrite E0. cbn [mbind res_bind]. rewrite E.
  cbn [mbind res_bind mret res_ret].
  eexists. split; [reflexivity|]. split; [|repeat split].
  destruct init_lists_at as (Hdom & Hg & Ht & Hs & Hr & Hw & Htm & Hsg).
  split; cbn [heap sockets timeouts signals].
  - exact Hds.
  - exact Hdom.
  - rewrite Hs, Hr, Hw. apply (pool_inv_init Sk). reflexivity.
  - rewrite Ht, Htm. apply (pool_inv_init Tm). reflexivity.
  - rewrite Hg, Hsg. apply (pool_inv_init Sg). reflexivity.
  - rewrite Htm. constructor.
Qed.
