(* ===== verification/SloopRun.v ===== *)
(** * The select loop: running it

    The contract a handler has to respect, and what [sloop_run] guarantees
    when the handlers do: it never touches a node it should not, every inner
    loop stops, and when it returns every node is back in its pool. *)

From stdpp Require Import base numbers gmap list sorting.
From S2P Require Import Prelude Timeval Dlist Sloop SloopInv.

(** The descriptor of a socket entry. *)
Definition sock_of (s : sloop) (x : addr) : Z :=
  match get_sk s x with Ok r => sk_sock r | _ => 0 end.

(** The registered descriptors, and that of the pipe, fit into an [fd_set]. *)
Definition fds_ok (s : sloop) (m : gmap addr (list addr)) : Prop :=
  fd_ok (signal_fd s) = true
  ∧ ∀ head x, sock_head head → x ∈ m !!! head → fd_ok (sock_of s x) = true.

(** A state in which the loop can run. *)
Definition ready (s : sloop) (m : gmap addr (list addr)) : Prop := inv s m ∧ fds_ok s m.

Lemma fds_ok_ext s m s' m' :
  signal_fd s' = signal_fd s → (∀ x, sock_of s' x = sock_of s x) →
  (∀ head x, sock_head head → x ∈ m' !!! head → x ∈ m !!! head) → fds_ok s m → fds_ok s' m'.
Proof.
  intros H1 H2 H3 [F1 F2]. split; [by rewrite H1|]. intros head x Hh Hx. rewrite H2. eauto.
Qed.

(** A handler may register and cancel, but the node it is called for stays on
    its list, no node is put behind it (registration inserts in front), and what it
    registers is a descriptor for [select]. *)
Class HandlersOK `{Handlers} : Prop :=
  { socket_ok s m head l1 x l2 r :
      ready s m → sock_head head → m !!! head = l1 ++ x :: l2 → get_sk s x = Ok r →
      ∃ ret s' m' l1' l2',
        call_socket (sk_handler r) (sk_sock r) (sk_param r) (sloop_data s) s = Ok (ret, s')
        ∧ ready s' m' ∧ m' !!! head = l1' ++ x :: l2' ∧ l2' `sublist_of` l2;
    signal_ok s m x r :
      ready s m → x ∈ m !!! H_signals → get_sg s x = Ok r →
      ∃ ret s' m',
        call_signal (sg_handler r) (sg_sig r) (sg_param r) (sloop_data s) s = Ok (ret, s')
        ∧ ready s' m' ∧ x ∈ m' !!! H_signals;
    timeout_ok s m x r :
      ready s m → x ∈ m !!! H_timeout → get_tm s x = Ok r →
      ∃ s' m',
        call_timeout (tm_handler r) (tm_param r) (sloop_data s) s = Ok s'
        ∧ ready s' m' ∧ x ∈ m' !!! H_timeout }.

(** Entries that go back to their pools. *)
Lemma sock_of_freed_socket s i h x : sock_of (freed_socket s i h) x = sock_of s x.
Proof.
  unfold freed_socket. destruct (sockets s !! i) as [r|] eqn:Hr; [|done].
  unfold sock_of, get_sk. destruct (socket_entry x) as [j| |]; [|done|done]. cbn.
  destruct (decide (j = i)) as [->|Hne]; [by rewrite lookup_insert_eq, Hr|by rewrite lookup_insert_ne].
Qed.

Lemma ready_free_socket s m head l1 x l2 :
  ready s m → sock_head head → m !!! head = l1 ++ x :: l2 →
  ∃ i h, x = Sk i ∧
    (h1 ← dlist_del (heap s) x; free_socket (with_heap s h1) x) = Ok (freed_socket s i h)
    ∧ ready (freed_socket s i h)
        (<[H_free_sockets := x :: m !!! H_free_sockets]> (<[head := l1 ++ l2]> m)).
Proof.
  intros [Hi Hf] Hh Hl. destruct (release_socket_spec s m head l1 x l2 Hi Hh Hl) as (i & h & -> & E & Hi').
  exists i, h. split; [done|]. split; [done|]. split; [done|]. eapply fds_ok_ext, Hf.
  - unfold freed_socket. by destruct (sockets s !! i).
  - intros y. apply sock_of_freed_socket.
  - intros k y Hk Hy. rewrite lookup_total_insert_ne in Hy by (by destruct Hk as [-> | ->]).
    destruct (decide (head = k)) as [<-|Hne]; [|by rewrite lookup_total_insert_ne in Hy].
    rewrite lookup_total_insert_eq in Hy. rewrite Hl. set_solver.
Qed.

Lemma ready_free_timeout s m l1 x l2 :
  ready s m → m !!! H_timeout = l1 ++ x :: l2 →
  ∃ i h, x = Tm i ∧
    (h1 ← dlist_del (heap s) x; free_timeout (with_heap s h1) x) = Ok (freed_timeout s i h)
    ∧ ready (freed_timeout s i h)
        (<[H_free_timeout := x :: m !!! H_free_timeout]> (<[H_timeout := l1 ++ l2]> m)).
Proof.
  intros [Hi Hf] Hl. destruct (release_timeout_spec s m l1 x l2 Hi Hl) as (i & h & -> & E & Hi').
  exists i, h. split; [done|]. split; [done|]. split; [done|]. eapply fds_ok_ext, Hf.
  1, 2: intros; unfold freed_timeout; by destruct (timeouts s !! i).
  intros k y Hk Hy. by rewrite !lookup_total_insert_ne in Hy by (by destruct Hk as [-> | ->]).
Qed.

Lemma ready_free_signal s m l1 x l2 :
  ready s m → m !!! H_signals = l1 ++ x :: l2 →
  ∃ i h, x = Sg i ∧
    (h1 ← dlist_del (heap s) x; free_signal (with_heap s h1) x) = Ok (freed_signal s i h)
    ∧ ready (freed_signal s i h)
        (<[H_free_signals := x :: m !!! H_free_signals]> (<[H_signals := l1 ++ l2]> m)).
Proof.
  intros [Hi Hf] Hl. destruct (release_signal_spec s m l1 x l2 Hi Hl) as (i & h & -> & E & Hi').
  exists i, h. split; [done|]. split; [done|]. split; [done|]. eapply fds_ok_ext, Hf.
  1, 2: intros; unfold freed_signal; by destruct (signals s !! i).
  intros k y Hk Hy. by rewrite !lookup_total_insert_ne in Hy by (by destruct Hk as [-> | ->]).
Qed.

Lemma inv_is_dlist s m head : inv s m → head ∈ heads → is_dlist (heap s) head (m !!! head).
Proof. intros Hi Hh. eapply dlists_is; [by eapply inv_dl|]. by eapply inv_dom. Qed.

Lemma inv_load s m head :
  inv s m → head ∈ heads → ∃ n, load (heap s) head = Ok n ∧ next n = hd head (m !!! head).
Proof.
  intros Hi Hh. destruct (is_dlist_load _ _ _ (inv_is_dlist _ _ _ Hi Hh)) as (n & ? & ? & _).
  eauto.
Qed.

Lemma inv_entry s m head l1 x l2 :
  inv s m → head ∈ heads → m !!! head = l1 ++ x :: l2 →
  x ≠ head ∧ ∃ n, load (heap s) x = Ok n ∧ next n = hd head l2.
Proof.
  intros Hi Hh Hl. pose proof (inv_is_dlist _ _ _ Hi Hh) as Hd. rewrite Hl in Hd. split.
  - apply is_dlist_nodup, NoDup_cons in Hd as [Hd _]. set_solver.
  - rewrite (is_dlist_entry _ _ _ _ _ Hd). eexists. split; done.
Qed.

Lemma get_sk_used s m head x :
  inv s m → sock_head head → x ∈ m !!! head → ∃ r, get_sk s x = Ok r.
Proof.
  intros Hi Hh Hx. pose proof (inv_sk _ _ Hi) as Hp.
  destruct (pool_node _ _ _ _ _ _ _ x Hp) as (i & r & -> & Hi' & Hr).
  { destruct Hh as [-> | ->]; set_solver. }
  exists r. unfold get_sk. cbn. by rewrite Hr.
Qed.

Lemma inv_empty s m head :
  inv s m → head ∈ heads →
  dlist_empty (heap s) head = Ok (bool_decide (m !!! head = [])).
Proof. intros Hi Hh. by apply dlist_empty_spec, inv_is_dlist. Qed.

Section run.
Context `{HandlersOK}.

Lemma run_sockets_spec fuel s m fds head l1 l2 :
  ready s m → sock_head head → m !!! head = l1 ++ l2 → (length l2 ≤ fuel)%nat →
  ∃ s' m', run_sockets fuel s fds head (hd head l2) = Ok s' ∧ ready s' m'.
Proof.
  revert s m l1 l2. induction fuel as [|fuel IH]; intros s m l1 l2 Hi Hh Hl Hf.
  - destruct l2; cbn in Hf; [|lia]. exists s, m. cbn. by rewrite decide_True.
  - destruct l2 as [|x l2]; [exists s, m; cbn; by rewrite decide_True|]. cbn in Hf.
    destruct (inv_entry s m head l1 x l2 (proj1 Hi)) as (Hne & _); eauto with wbr.
    destruct (get_sk_used s m head x (proj1 Hi)) as [r Hr]; [done..|rewrite Hl; set_solver|].
    cbn [run_sockets hd]. rewrite decide_False by done. rewrite Hr. cbn [mbind res_bind].
    assert (∃ ret s' m' l1' l2',
        (if decide (sk_sock r ∈ fds)
         then call_socket (sk_handler r) (sk_sock r) (sk_param r) (sloop_data s) s
         else mret (0, s)) = Ok (ret, s')
        ∧ ready s' m' ∧ m' !!! head = l1' ++ x :: l2' ∧ l2' `sublist_of` l2)
      as (ret & s' & m' & l1' & l2' & E & Hi' & Hl' & Hsub).
    { case_decide; [by eapply socket_ok|]. exists 0, s, m, l1, l2. done. }
    rewrite E. cbn [mbind res_bind]. apply sublist_length in Hsub.
    destruct (inv_entry s' m' head l1' x l2' (proj1 Hi')) as (_ & n & Hn & Hnx); eauto with wbr.
    rewrite Hn. cbn [mbind res_bind]. rewrite Hnx.
    destruct (ret <? 0).
    + destruct (ready_free_socket s' m' head l1' x l2') as (i & h & -> & E' & Hi'');
        [done..|].
      rewrite E'. cbn [mbind res_bind]. eapply IH; [exact Hi''|done| |lia].
      rewrite lookup_total_insert_ne by (destruct Hh as [-> | ->]; done).
      apply lookup_total_insert_eq.
    + cbn [mbind res_bind mret res_ret]. eapply (IH s' m' (l1' ++ [x])); [done..| |lia].
      by rewrite <- app_assoc.
Qed.

Lemma check_sockets_spec s m fds head :
  ready s m → sock_head head → ∃ s' m', check_sockets s fds head = Ok s' ∧ ready s' m'.
Proof.
  intros Hi Hh. unfold check_sockets. rewrite (inv_empty s m head (proj1 Hi)) by eauto with wbr.
  cbn [mbind res_bind]. case_bool_decide; [by exists s, m|].
  destruct (inv_load s m head (proj1 Hi)) as (n & Hn & Hnx); eauto with wbr.
  rewrite Hn. cbn [mbind res_bind]. rewrite Hnx.
  eapply (run_sockets_spec _ _ _ _ _ []); [done..|].
  pose proof (pool_length _ _ _ _ _ _ _ (inv_sk _ _ (proj1 Hi))) as Hlen.
  rewrite length_app in Hlen. destruct Hh as [-> | ->]; lia.
Qed.

Lemma dispatch_signal_spec fuel s m sig l1 l2 :
  ready s m → m !!! H_signals = l1 ++ l2 → (length l2 ≤ fuel)%nat →
  ∃ s' m', dispatch_signal fuel s sig (hd H_signals l2) = Ok s' ∧ ready s' m'.
Proof.
  revert l1 l2. induction fuel as [|fuel IH]; intros l1 l2 Hi Hl Hf.
  - destruct l2; cbn in Hf; [|lia]. exists s, m. cbn. by rewrite decide_True.
  - destruct l2 as [|x l2]; [exists s, m; cbn; by rewrite decide_True|]. cbn in Hf.
    destruct (inv_entry s m H_signals l1 x l2 (proj1 Hi)) as (Hne & n & Hn & Hnx); [in_heads|done|].
    destruct (get_sg_used s m x (proj1 Hi)) as [r Hr]; [rewrite Hl; set_solver|].
    cbn [dispatch_signal hd]. rewrite decide_False by done. rewrite Hr. cbn [mbind res_bind].
    case_decide.
    + destruct (signal_ok s m x r) as (ret & s' & m' & E & Hi' & Hx);
        [done|rewrite Hl; set_solver|done|].
      rewrite E. cbn [mbind res_bind]. destruct (ret <? 0); [|by exists s', m'].
      apply list_elem_of_split in Hx as (la & lb & Hx).
      destruct (ready_free_signal s' m' la x lb Hi' Hx) as (i & h & -> & E' & Hi'').
      rewrite E'. eauto.
    + rewrite Hn. cbn [mbind res_bind]. rewrite Hnx. apply (IH (l1 ++ [x])); [done| |lia].
      by rewrite <- app_assoc.
Qed.

Lemma inv_with_pipe s m p : inv s m → inv (with_pipe s p) m.
Proof. intros []. by split. Qed.

Lemma ready_with_pipe s m p : ready s m → ready (with_pipe s p) m.
Proof. intros [Hi Hf]. split; [by apply inv_with_pipe|]. by eapply fds_ok_ext, Hf. Qed.

Lemma check_signal_spec s m ok :
  ready s m → ∃ brk s' m', check_signal s ok = Ok (brk, s') ∧ ready s' m'.
Proof.
  intros Hi. unfold check_signal. destruct (sig_pipe s) as [|sig p]; [by exists false, s, m|].
  destruct ok; [|by exists false, s, m].
  pose proof (ready_with_pipe s m p Hi) as Hi'.
  case_decide; [eauto 6|].
  rewrite (inv_empty _ m _ (proj1 Hi')) by in_heads. cbn [mbind res_bind].
  case_bool_decide; [eauto 6|].
  destruct (inv_load _ m H_signals (proj1 Hi')) as (n & Hn & Hnx); [in_heads|].
  rewrite Hn. cbn [mbind res_bind]. rewrite Hnx.
  destruct (dispatch_signal_spec MAX_SLOOP_SIGNAL _ m sig [] (m !!! H_signals) Hi')
    as (s' & m' & E & Hi''); [done| |].
  { pose proof (pool_length _ _ _ _ _ _ _ (inv_sg _ _ (proj1 Hi))). lia. }
  rewrite E. cbn [mbind res_bind mret res_ret]. eauto.
Qed.

(** The first timer, when it is due, is run and returned to the pool. *)
Lemma check_timeout_spec s m entry now :
  ready s m → (∀ e, entry = Some e → e ≠ H_timeout) →
  ∃ s' m', check_timeout s entry now = Ok s' ∧ ready s' m'.
Proof.
  intros Hi He. destruct entry as [e|]; [|by exists s, m]. cbn.
  destruct (inv_load s m H_timeout (proj1 Hi)) as (n & Hn & Hnx); [in_heads|].
  rewrite Hn. cbn [mbind res_bind]. case_decide as Hd; [|by exists s, m].
  destruct (m !!! H_timeout) as [|x l] eqn:Hl; cbn in Hnx; [naive_solver|].
  assert (e = x) as -> by congruence.
  destruct (get_tm_used s _ _ x (inv_tm _ _ (proj1 Hi))) as (i & r & -> & _ & Hr & _);
    [rewrite Hl; set_solver|].
  rewrite Hr. cbn [mbind res_bind]. destruct (timer_ge _ _); [|by exists s, m].
  destruct (timeout_ok s m (Tm i) r) as (s' & m' & E & Hi' & Hx);
    [done|rewrite Hl; set_solver|done|].
  rewrite E. cbn [mbind res_bind].
  apply list_elem_of_split in Hx as (la & lb & Hx).
  destruct (ready_free_timeout s' m' la (Tm i) lb Hi' Hx) as (j & h & Hj & E' & Hi'').
  rewrite E'. eauto.
Qed.
End run.

(** ** The parts of a round that do not call handlers *)

(** The descriptors of a list of sockets, as [FD_SET] collects them. *)
Lemma collect_fds_spec fuel s m head l1 l2 mx :
  ready s m → sock_head head → m !!! head = l1 ++ l2 → (length l2 ≤ fuel)%nat →
  collect_fds fuel s head (hd head l2) mx
  = Ok (sock_of s <$> l2, foldl Z.max mx (sock_of s <$> l2)).
Proof.
  revert l1 l2 mx. induction fuel as [|fuel IH]; intros l1 l2 mx Hi Hh Hl Hf.
  - destruct l2; cbn in Hf; [|lia]. cbn. by rewrite decide_True.
  - destruct l2 as [|x l2]; [cbn; by rewrite decide_True|]. cbn in Hf.
    destruct (inv_entry s m head l1 x l2 (proj1 Hi)) as (Hne & n & Hn & Hnx); eauto with wbr.
    destruct (get_sk_used s m head x (proj1 Hi)) as [r Hr]; [done..|rewrite Hl; set_solver|].
    assert (Hx : sock_of s x = sk_sock r) by (unfold sock_of; by rewrite Hr).
    assert (Hfd : fd_ok (sk_sock r) = true) by (rewrite <- Hx; eapply (proj2 (proj2 Hi)); [exact Hh|rewrite Hl; set_solver]).
    cbn [collect_fds hd]. rewrite decide_False by done. rewrite Hr. cbn [mbind res_bind].
    rewrite Hfd. cbn [negb]. rewrite Hn. cbn [mbind res_bind]. rewrite Hnx.
    rewrite (IH (l1 ++ [x])); [|done|done|by rewrite <- app_assoc|lia].
    cbn [mbind res_bind mret res_ret fmap list_fmap foldl]. rewrite Hx. do 3 f_equal.
    destruct (Z.ltb_spec mx (sk_sock r)); lia.
Qed.

Lemma foldl_max_bound (l : list Z) mx :
  mx ≤ foldl Z.max mx l ∧ Forall (λ x, x ≤ foldl Z.max mx l) l.
Proof.
  revert mx. induction l as [|x l IH]; intros mx; cbn; [split; [lia|constructor]|].
  destruct (IH (mx `max` x)) as [H1 H2]. split; [lia|]. constructor; [lia|done].
Qed.

(** Every registered descriptor is put in its set and is below [max_sock + 1]. *)
Lemma setup_fds_eq fuel s m :
  ready s m → (length (m !!! H_readers) ≤ fuel)%nat → (length (m !!! H_writers) ≤ fuel)%nat →
  setup_fds_fuel fuel s =
    Ok (signal_fd s :: (sock_of s <$> m !!! H_readers), sock_of s <$> m !!! H_writers,
        foldl Z.max (foldl Z.max (if 0 <? signal_fd s then signal_fd s else 0)
          (sock_of s <$> m !!! H_readers)) (sock_of s <$> m !!! H_writers)).
Proof.
  intros Hi Hr Hw. unfold setup_fds_fuel. rewrite (proj1 (proj2 Hi)). cbn [negb].
  destruct (inv_load s m H_readers (proj1 Hi)) as (n & Hn & Hnx); [in_heads|].
  destruct (inv_load s m H_writers (proj1 Hi)) as (n' & Hn' & Hnx'); [in_heads|].
  rewrite Hn. cbn [mbind res_bind]. rewrite Hnx.
  rewrite (collect_fds_spec _ _ m H_readers []); [|done|by left|done|done].
  cbn [mbind res_bind]. rewrite Hn'. cbn [mbind res_bind]. rewrite Hnx'.
  rewrite (collect_fds_spec _ _ m H_writers []); [|done|by right|done|done].
  reflexivity.
Qed.

Lemma setup_fds_spec s m :
  ready s m → ∃ mx, setup_fds s =
    Ok (signal_fd s :: (sock_of s <$> m !!! H_readers), sock_of s <$> m !!! H_writers, mx)
    ∧ signal_fd s ≤ mx ∧ Forall (λ x, sock_of s x ≤ mx) (m !!! H_readers ++ m !!! H_writers).
Proof.
  intros Hi.
  pose proof (pool_length _ _ _ _ _ _ _ (inv_sk _ _ (proj1 Hi))) as Hlen. rewrite length_app in Hlen.
  eexists. split; [apply setup_fds_eq; [done|lia..]|].
  set (mx0 := if 0 <? signal_fd s then signal_fd s else 0).
  destruct (foldl_max_bound (sock_of s <$> m !!! H_readers) mx0) as [H1 H2].
  destruct (foldl_max_bound (sock_of s <$> m !!! H_writers)
              (foldl Z.max mx0 (sock_of s <$> m !!! H_readers))) as [H3 H4].
  rewrite Forall_fmap in H2, H4.
  assert (signal_fd s ≤ mx0). { unfold mx0. destruct (Z.ltb_spec 0 (signal_fd s)); lia. }
  split; [lia|]. apply Forall_app. split; [|exact H4].
  eapply Forall_impl; [exact H2|]. cbn. lia.
Qed.

Lemma next_timeout_spec s m now :
  inv s m →
  match m !!! H_timeout with
  | [] => next_timeout s now = Ok None
  | x :: _ => next_timeout s now = Ok (Some (x,
      if timer_ge (mk_timeval now 0) (time_at (timeouts s) x) then mk_timeval 0 0
      else timersub (time_at (timeouts s) x) (mk_timeval now 0)))
  end.
Proof.
  intros Hi. unfold next_timeout. rewrite (inv_empty s m) by (done || in_heads).
  cbn [mbind res_bind].
  destruct (inv_load s m H_timeout Hi) as (n & Hn & Hnx); [in_heads|].
  destruct (m !!! H_timeout) as [|x l] eqn:Hl; [by rewrite bool_decide_true|].
  rewrite bool_decide_false by done. rewrite Hn. cbn [mbind res_bind]. cbn in Hnx. rewrite Hnx.
  destruct (get_tm_used s _ _ x (inv_tm _ _ Hi)) as (i & r & -> & _ & Hr & Ht);
    [rewrite Hl; set_solver|].
  rewrite Hr. cbn [mbind res_bind]. rewrite Ht. by destruct (timer_ge _ _).
Qed.

Section loop.
Context `{HandlersOK}.

Lemma sloop_round_spec s m rd :
  ready s m → ∃ brk s' m', sloop_round s rd = Ok (brk, s') ∧ ready s' m'.
Proof.
  intros Hi. unfold sloop_round.
  assert (∃ to, next_timeout s (rd_now rd) = Ok to
            ∧ ∀ e, fst <$> to = Some e → e ≠ H_timeout) as (to & -> & Hto).
  { pose proof (next_timeout_spec s m (rd_now rd) (proj1 Hi)) as Hnt.
    destruct (m !!! H_timeout) as [|x l] eqn:Hl; eexists; (split; [exact Hnt|]); [done|].
    cbn. intros e [= <-]. destruct (inv_entry s m H_timeout [] x l (proj1 Hi)) as [? _];
      [in_heads|done|done]. }
  cbn [mbind res_bind]. destruct (setup_fds_spec s m Hi) as (mx & E & _).
  rewrite E. cbn [mbind res_bind]. destruct (rd_select rd) as [|ret rdy wrdy]; [eauto 6|].
  assert (∃ brk s' m', (if (0 <? ret) && bool_decide (signal_fd s ∈
            select_fds (signal_fd s :: (sock_of s <$> m !!! H_readers)) rdy)
          then check_signal s (rd_read rd) else mret (false, s)) = Ok (brk, s') ∧ ready s' m')
    as (brk & s1 & m1 & E1 & Hi1).
  { destruct (_ && _); [by eapply check_signal_spec|]. by exists false, s, m. }
  rewrite E1. cbn [mbind res_bind]. destruct brk; [eauto 6|].
  destruct (check_timeout_spec s1 m1 (fst <$> to) (rd_now' rd) Hi1 Hto)
    as (s2 & m2 & E2 & Hi2).
  rewrite E2. cbn [mbind res_bind]. destruct (ret <=? 0); [eauto 6|].
  edestruct (check_sockets_spec s2 m2) as (s3 & m3 & E3 & Hi3); [done|by left|].
  rewrite E3. cbn [mbind res_bind].
  edestruct (check_sockets_spec s3 m3) as (s4 & m4 & E4 & Hi4); [done|by right|].
  rewrite E4. cbn [mbind res_bind mret res_ret]. eauto 6.
Qed.

Definition idle (m : gmap addr (list addr)) : Prop :=
  m !!! H_readers = [] ∧ m !!! H_writers = [] ∧ m !!! H_timeout = [] ∧ m !!! H_signals = [].

Lemma sloop_shutdown_spec s m :
  inv s m → ∃ s' m', sloop_shutdown s = Ok s' ∧ inv s' m' ∧ idle m'.
Proof.
  intros Hi. unfold sloop_shutdown.
  destruct (cancel_signals_spec s m Hi) as (s1 & E1 & Hi1). rewrite E1. cbn [mbind res_bind].
  destruct (cancel_timeouts_spec _ _ Hi1) as (s2 & E2 & Hi2). rewrite E2. cbn [mbind res_bind].
  destruct (cancel_sockets_spec _ _ H_readers Hi2) as (s3 & E3 & Hi3 & _); [by left|].
  unfold sloop_cancel_read_sock. rewrite E3. cbn [mbind res_bind].
  destruct (cancel_sockets_spec _ _ H_writers Hi3) as (s4 & E4 & Hi4 & _); [by right|].
  unfold sloop_cancel_write_sock. rewrite E4. eexists _, _. split; [done|].
  split; [exact Hi4|].
  unfold idle. repeat split; repeat (first [rewrite lookup_total_insert_eq
    | rewrite lookup_total_insert_ne by done]); done.
Qed.

Lemma sloop_active_spec s m :
  inv s m → ∃ a, sloop_active s = Ok a ∧ (a = true ↔ terminate s = 0 ∧ ¬ idle m).
Proof.
  intros Hi. unfold sloop_active. rewrite !(inv_empty s m) by (done || in_heads).
  cbn [mbind res_bind mret res_ret]. eexists. split; [done|]. unfold idle.
  rewrite andb_true_iff, bool_decide_eq_true, negb_true_iff, !andb_false_iff,
    !bool_decide_eq_false. split; [naive_solver|].
  intros [Ht Hn]. split; [done|].
  destruct (decide (m !!! H_timeout = [])); [|auto 6].
  destruct (decide (m !!! H_readers = [])); [|auto 6].
  destruct (decide (m !!! H_writers = [])); [|auto 6].
  destruct (decide (m !!! H_signals = [])); [|auto 6]. naive_solver.
Qed.

Lemma sloop_run_spec rounds s m :
  ready s m → ∃ b s' m', sloop_run rounds s = Ok (b, s') ∧ inv s' m'
    ∧ (b = true → idle m') ∧ (b = false → terminate s' = 0 ∧ ¬ idle m').
Proof.
  revert s m. induction rounds as [|rd rounds IH]; intros s m Hi; cbn [sloop_run];
    destruct (sloop_active_spec s m (proj1 Hi)) as (a & Ha & Hact); rewrite Ha; cbn [mbind res_bind].
  - destruct a; [exists false, s, m; destruct Hi; naive_solver|].
    destruct (sloop_shutdown_spec s m (proj1 Hi)) as (s' & m' & E & Hi' & Hid).
    rewrite E. exists true, s', m'. naive_solver.
  - destruct a.
    + destruct (sloop_round_spec s m rd Hi) as (brk & s1 & m1 & E1 & Hi1).
      rewrite E1. cbn [mbind res_bind]. destruct brk; [|by eapply IH].
      destruct (sloop_shutdown_spec s1 m1 (proj1 Hi1)) as (s' & m' & E & Hi' & Hid).
      rewrite E. exists true, s', m'. naive_solver.
    + destruct (sloop_shutdown_spec s m (proj1 Hi)) as (s' & m' & E & Hi' & Hid).
      rewrite E. exists true, s', m'. naive_solver.
Qed.
End loop.
