(* ===== verification/SloopProps.v ===== *)
(** * The select loop: properties

    Reachable states, the order of timers, how long the loop sleeps, what it
    leaves behind when it returns, and a handler that breaks its contract. *)

From stdpp Require Import base numbers gmap list sorting.
From S2P Require Import Prelude Timeval Dlist Sloop SloopInv SloopRun.

(** ** The API as a transition system *)

Inductive call : Type :=
| RegRead (sock handler param : Z)
| RegWrite (sock handler param : Z)
| RegSignal (sig handler param : Z)
| RegTimeout (now secs usecs handler param : Z)
| CancelRead (handle : addr)
| CancelWrite (handle : addr)
| CancelSignal (handle : addr)
| CancelTimeout (handle : addr)
| Terminate
| Deliver (sig : Z).

Definition ret_null (r : res sloop) : res (addr * sloop) := s ← r; mret (NULL, s).

Definition run_call (s : sloop) (c : call) : res (addr * sloop) :=
  match c with
  | RegRead sock h p => sloop_register_read_sock s sock h p
  | RegWrite sock h p => sloop_register_write_sock s sock h p
  | RegSignal sig h p => sloop_register_signal s sig h p
  | RegTimeout now secs usecs h p => sloop_register_timeout s now secs usecs h p
  | CancelRead a => ret_null (sloop_cancel_read_sock s a)
  | CancelWrite a => ret_null (sloop_cancel_write_sock s a)
  | CancelSignal a => ret_null (sloop_cancel_signal s a)
  | CancelTimeout a => ret_null (sloop_cancel_timeout s a)
  | Terminate => ret_null (Ok (sloop_terminate s))
  | Deliver sig => ret_null (Ok (sloop_signals_handler s sig))
  end.

(** A handle that is passed to a cancel function is [NULL] or on the list that
    function is for. *)
Definition registered (s : sloop) (head a : addr) : Prop :=
  a = NULL ∨ ∃ l, dlist_entries MAX_SLOOP_SOCKET (heap s) head = Ok l ∧ a ∈ l.

Definition valid_call (s : sloop) (c : call) : Prop :=
  match c with
  | CancelRead a => registered s H_readers a
  | CancelWrite a => registered s H_writers a
  | CancelSignal a => registered s H_signals a
  | CancelTimeout a => registered s H_timeout a
  | _ => True
  end.

(** A timeout is due at a time that can be represented. *)
Definition in_time (c : call) : Prop :=
  match c with RegTimeout now secs usecs _ _ => expiry_fits now secs usecs = true | _ => True end.

Inductive reachable : sloop → Prop :=
| reach_init d fd data s : sloop_init d fd data = Ok s → reachable s
| reach_call s c a s' :
    reachable s → valid_call s c → run_call s c = Ok (a, s') → reachable s'.

Lemma head_length s m head :
  inv s m → head ∈ heads → (length (m !!! head) ≤ MAX_SLOOP_SOCKET)%nat.
Proof.
  intros Hi Hh.
  pose proof (pool_length _ _ _ _ _ _ _ (inv_sk _ _ Hi)) as H1. rewrite length_app in H1.
  pose proof (pool_length _ _ _ _ _ _ _ (inv_tm _ _ Hi)) as H2.
  pose proof (pool_length _ _ _ _ _ _ _ (inv_sg _ _ Hi)) as H3.
  assert (MAX_SLOOP_SOCKET = 128 ∧ MAX_SLOOP_TIMEOUT = 128 ∧ MAX_SLOOP_SIGNAL = 16)%nat
    as (E1 & E2 & E3) by done.
  unfold heads in Hh. repeat (apply elem_of_cons in Hh as [->|Hh]; [lia|]).
  by apply elem_of_nil in Hh.
Qed.

Lemma registered_split s m head a :
  inv s m → head ∈ heads → registered s head a → a ≠ NULL →
  ∃ l1 l2, m !!! head = l1 ++ a :: l2.
Proof.
  intros Hi Hh [->|(l & E & Ha)] Hn; [done|].
  rewrite (dlist_entries_spec _ _ _ (m !!! head)) in E;
    [|by apply inv_is_dlist|by eapply head_length].
  injection E as <-. by apply list_elem_of_split.
Qed.

Lemma inv_terminate s m : inv s m → inv (sloop_terminate s) m.
Proof. intros []. by split. Qed.

(** One call of the API on a state that satisfies the invariant. *)
Lemma run_call_inv s m c :
  inv s m → valid_call s c → in_time c → ∃ a s' m', run_call s c = Ok (a, s') ∧ inv s' m'.
Proof.
  intros Hi Hv Hit.
  assert (Hsock : ∀ head sock h p, sock_head head →
    ∃ a s' m', register_socket s sock h p head = Ok (a, s') ∧ inv s' m').
  { intros head sock h p Hh. pose proof (register_socket_spec s m head sock h p Hi Hh) as Hr.
    destruct (m !!! H_free_sockets); [by eauto 6|].
    destruct Hr as (i & h' & -> & E & Hi'). eauto. }
  assert (Hcan : ∀ head a, sock_head head → registered s head a →
    ∃ s' m', cancel_socket s a head = Ok s' ∧ inv s' m').
  { intros head a Hh Hr. destruct (decide (a = NULL)) as [->|Hn].
    - destruct (cancel_sockets_spec s m head Hi Hh) as (s' & E & Hi' & _). eauto.
    - destruct (registered_split s m head a) as (l1 & l2 & Hl); eauto with wbr.
      destruct (cancel_socket_spec s m head l1 a l2 Hi Hh Hl) as (i & h & -> & E & Hi').
      eauto. }
  destruct c; cbn [run_call valid_call in_time] in *.
  - apply Hsock. by left.
  - apply Hsock. by right.
  - pose proof (register_signal_spec s m sig handler param Hi) as Hr.
    destruct (m !!! H_free_signals); [by eauto 6|].
    destruct Hr as (i & h' & -> & E & Hi'). eauto.
  - pose proof (register_timeout_spec s m now secs usecs handler param Hi) as Hr.
    destruct (m !!! H_free_timeout); [by eauto 6|]. rewrite Hit in Hr.
    destruct Hr as (i & h' & -> & E & Hi'). eauto.
  - destruct (Hcan H_readers handle) as (s' & m' & E & Hi'); [by left|done|].
    unfold sloop_cancel_read_sock. rewrite E. cbn. eauto 6.
  - destruct (Hcan H_writers handle) as (s' & m' & E & Hi'); [by right|done|].
    unfold sloop_cancel_write_sock. rewrite E. cbn. eauto 6.
  - destruct (decide (handle = NULL)) as [->|Hn].
    + destruct (cancel_signals_spec s m Hi) as (s' & E & Hi'). rewrite E. cbn. eauto 6.
    + destruct (registered_split s m H_signals handle) as (l1 & l2 & Hl);
        [done|in_heads|done|done|].
      destruct (cancel_signal_spec s m l1 handle l2 Hi Hl) as (s' & r & _ & E & Hi' & _).
      rewrite E. cbn. eauto 6.
  - destruct (decide (handle = NULL)) as [->|Hn].
    + destruct (cancel_timeouts_spec s m Hi) as (s' & E & Hi'). rewrite E. cbn. eauto 6.
    + destruct (registered_split s m H_timeout handle) as (l1 & l2 & Hl);
        [done|in_heads|done|done|].
      destruct (cancel_timeout_spec s m l1 handle l2 Hi Hl) as (i & h & -> & E & Hi').
      rewrite E. cbn. eauto 6.
  - cbn. eauto 7 using inv_terminate.
  - cbn. unfold sloop_signals_handler. eauto 7 using inv_with_pipe.
Qed.

(** A timeout that is not in time goes wrong, unless there is no entry for it. *)
Lemma run_call_late s m c : inv s m → ¬ in_time c → run_call s c = Fault ∨ run_call s c = Ok (NULL, s).
Proof.
  intros Hi Ht. destruct c as [| | |now secs usecs h p| | | | | |]; cbn [in_time] in Ht; try by destruct Ht.
  pose proof (register_timeout_spec s m now secs usecs h p Hi) as Hr. cbn [run_call].
  destruct (m !!! H_free_timeout); [by right|]. destruct (expiry_fits now secs usecs); [done|by left].
Qed.

Lemma reachable_has_inv s : reachable s → ∃ m, inv s m.
Proof.
  induction 1 as [d fd data s Hs|s c a s' _ [m Hi] Hv E].
  - destruct (sloop_init_spec d fd data) as (s' & E & Hi & _). rewrite Hs in E.
    injection E as ->. eauto.
  - assert (Hd : in_time c ∨ ¬ in_time c) by (destruct c; try (left; exact I); cbn [in_time]; destruct (expiry_fits _ _ _); [by left|by right]).
    destruct Hd as [Hd|Hd].
    + destruct (run_call_inv s m c Hi Hv Hd) as (a' & s'' & m' & E' & Hi').
      rewrite E in E'. injection E' as -> ->. eauto.
    + destruct (run_call_late s m c Hi Hd) as [E'|E']; rewrite E in E'; [done|]. injection E' as -> ->. eauto.
Qed.

(** ** Properties *)

(** The entries of a list, as the loops of the module walk it. *)
Definition entries (s : sloop) (head : addr) : res (list addr) :=
  dlist_entries MAX_SLOOP_SOCKET (heap s) head.

Lemma entries_spec s m head : inv s m → head ∈ heads → entries s head = Ok (m !!! head).
Proof.
  intros Hi Hh. apply dlist_entries_spec; [by apply inv_is_dlist|by eapply head_length].
Qed.

(** The seven lists can be walked, partition the pools and agree with the
    in-use flags, and the pending timers are sorted. *)
Definition well_linked (s : sloop) : Prop :=
  ∃ fs rd wr ft tm fg sg,
    entries s H_free_sockets = Ok fs ∧ entries s H_readers = Ok rd
    ∧ entries s H_writers = Ok wr ∧ entries s H_free_timeout = Ok ft
    ∧ entries s H_timeout = Ok tm ∧ entries s H_free_signals = Ok fg
    ∧ entries s H_signals = Ok sg
    ∧ fs ++ rd ++ wr ≡ₚ Sk <$> seq 0 128
    ∧ ft ++ tm ≡ₚ Tm <$> seq 0 128
    ∧ fg ++ sg ≡ₚ Sg <$> seq 0 16
    ∧ (∀ i r, sockets s !! i = Some r → (i < 128)%nat →
         Z.testbit (sk_flags r) 8 = bool_decide (Sk i ∈ rd ++ wr))
    ∧ StronglySorted (not_later (timeouts s)) tm.

(** C10: in every state the API can reach, each of the seven circular lists can
    be walked to its end; the free, reader and writer lists partition the socket
    pool, the free and pending lists the timer pool and the signal pool; exactly
    the nodes outside the free lists carry the in-use flag; and the pending
    timers are in the order of their expiry. *)
Theorem sloop_reachable_invariant s : reachable s → well_linked s.
Proof.
  intros Hr. destruct (reachable_has_inv s Hr) as [m Hi].
  eexists _, _, _, _, _, _, _.
  do 7 (split; [apply (entries_spec _ m); [done|in_heads]|]).
  split; [exact (pool_perm _ _ _ _ _ _ _ (inv_sk _ _ Hi))|].
  split; [exact (pool_perm _ _ _ _ _ _ _ (inv_tm _ _ Hi))|].
  split; [exact (pool_perm _ _ _ _ _ _ _ (inv_sg _ _ Hi))|].
  split; [|by eapply inv_sorted].
  intros i r Hr' Hlt. destruct (inv_sk _ _ Hi) as [Hp Hf Hu].
  assert (Hin : Sk i ∈ Sk <$> seq 0 MAX_SLOOP_SOCKET).
  { apply list_elem_of_fmap. exists i. split; [done|]. apply elem_of_seq. split; [lia|exact Hlt]. }
  rewrite <- Hp in Hin. apply elem_of_app in Hin as [Hin|Hin].
  - destruct (Hf _ Hin) as (r' & E & Hb). rewrite Hr' in E. injection E as <-. rewrite Hb.
    symmetry. apply bool_decide_eq_false. intros Hin'.
    destruct (Hu _ Hin') as (r'' & E & Hb'). rewrite Hr' in E. injection E as <-.
    by rewrite Hb' in Hb.
  - destruct (Hu _ Hin) as (r' & E & Hb). rewrite Hr' in E. injection E as <-.
    rewrite Hb, bool_decide_true by done. done.
Qed.

(** A registration that fails leaves the state alone. *)
Lemma failed_registration s m c s' :
  inv s m → run_call s c = Ok (NULL, s') →
  (∃ sock h p, c = RegRead sock h p ∨ c = RegWrite sock h p) ∨ (∃ sig h p, c = RegSignal sig h p)
    ∨ (∃ now secs usecs h p, c = RegTimeout now secs usecs h p) →
  s' = s.
Proof.
  intros Hi E Hc.
  assert (Hsock : ∀ head sock h p, sock_head head → register_socket s sock h p head = Ok (NULL, s') → s' = s).
  { intros head sock h p Hh E'. pose proof (register_socket_spec s m head sock h p Hi Hh) as Hs. revert Hs.
    destruct (m !!! H_free_sockets); [intros Hs; rewrite Hs in E'; by injection E'|].
    intros (i & h' & -> & E'' & _). by rewrite E' in E''. }
  destruct Hc as [(sock & h & p & [-> | ->])|[(sig & h & p & ->)|(now & secs & usecs & h & p & ->)]].
  - eapply (Hsock H_readers), E. by left.
  - eapply (Hsock H_writers), E. by right.
  - pose proof (register_signal_spec s m sig h p Hi) as Hs. cbn [run_call] in E. revert Hs.
    destruct (m !!! H_free_signals); [intros Hs; rewrite Hs in E; by injection E|].
    intros (i & h' & -> & E'' & _). by rewrite E in E''.
  - pose proof (register_timeout_spec s m now secs usecs h p Hi) as Hs. cbn [run_call] in E. revert Hs.
    destruct (m !!! H_free_timeout); [intros Hs; rewrite Hs in E; by injection E|].
    destruct (expiry_fits now secs usecs); [|intros Hs; by rewrite E in Hs].
    intros (i & h' & -> & E'' & _). by rewrite E in E''.
Qed.

(** C12: no call of the API goes wrong in a reachable state: with a handle that
    is [NULL] or registered, and with timeouts that are due at a time whose seconds
    can be represented, every call completes without a stray access and without a
    loop that does not end; and a registration fails, with [NULL] and the state
    unchanged, exactly when its free list is empty. *)
Theorem sloop_calls_safe s c :
  reachable s → valid_call s c → in_time c →
  ∃ a s', run_call s c = Ok (a, s')
    ∧ ((∃ sock h p, c = RegRead sock h p ∨ c = RegWrite sock h p) ∨ (∃ sig h p, c = RegSignal sig h p)
       ∨ (∃ now secs usecs h p, c = RegTimeout now secs usecs h p) → a = NULL → s' = s)
    ∧ (∀ sock h p, c = RegRead sock h p ∨ c = RegWrite sock h p →
         entries s H_free_sockets = Ok [] ↔ a = NULL)
    ∧ (∀ sig h p, c = RegSignal sig h p → entries s H_free_signals = Ok [] ↔ a = NULL)
    ∧ (∀ now secs usecs h p, c = RegTimeout now secs usecs h p →
         entries s H_free_timeout = Ok [] ↔ a = NULL).
Proof.
  intros Hr Hv Hit. destruct (reachable_has_inv s Hr) as [m Hi].
  destruct (run_call_inv s m c Hi Hv Hit) as (a & s' & m' & E & _).
  exists a, s'. split; [done|]. rewrite !(entries_spec s m _ Hi) by in_heads.
  split_and!.
  - intros Hc ->. by apply (failed_registration s m c).
  - assert (Hs : ∀ head sock h p, sock_head head → register_socket s sock h p head = Ok (a, s') →
              Ok (m !!! H_free_sockets) = Ok [] ↔ a = NULL).
    { intros head sock h p Hh E'.
      pose proof (register_socket_spec s m head sock h p Hi Hh) as Hs. revert Hs.
      destruct (m !!! H_free_sockets); [by intros Hs; rewrite Hs in E'; injection E' as <- _|].
      intros (i & h' & -> & E'' & _). rewrite E' in E''. by injection E'' as -> _. }
    intros sock h p [-> | ->]; eapply Hs, E; [by left|by right].
  - intros sig h p ->. pose proof (register_signal_spec s m sig h p Hi) as Hs. cbn in E. revert Hs.
    destruct (m !!! H_free_signals); [by intros Hs; rewrite Hs in E; injection E as <- _|].
    intros (i & h' & -> & E'' & _). rewrite E in E''. by injection E'' as -> _.
  - intros now secs usecs h p ->.
    pose proof (register_timeout_spec s m now secs usecs h p Hi) as Hs. cbn [run_call in_time] in E, Hit. revert Hs.
    destruct (m !!! H_free_timeout); [by intros Hs; rewrite Hs in E; injection E as <- _|]. rewrite Hit.
    intros (i & h' & -> & E'' & _). rewrite E in E''. by injection E'' as -> _.
Qed.

Lemma sorted_app_le tms l1 l2 x y :
  StronglySorted (not_later tms) (l1 ++ y :: l2) → x ∈ l2 → not_later tms y x.
Proof.
  induction l1 as [|z l1 IH]; cbn; inversion 1; subst; [|auto].
  rewrite Forall_forall in *. auto.
Qed.

(** Registering a timer puts it behind every timer that expires no later
    and in front of every timer that expires later, and leaves the order of the
    others alone: the list stays sorted and timers with equal expiry keep the
    order of their registration. *)
Theorem sloop_timeout_order s now secs usecs h p x s' tm :
  reachable s → entries s H_timeout = Ok tm →
  sloop_register_timeout s now secs usecs h p = Ok (x, s') → x ≠ NULL →
  ∃ l1 l2, tm = l1 ++ l2 ∧ entries s' H_timeout = Ok (l1 ++ x :: l2)
    ∧ time_at (timeouts s') x = expiry now secs usecs
    ∧ Forall (λ y, timer_lt (expiry now secs usecs) (time_at (timeouts s) y) = false) l1
    ∧ Forall (λ y, timer_lt (expiry now secs usecs) (time_at (timeouts s) y) = true) l2.
Proof.
  intros Hr Htm E Hx. destruct (reachable_has_inv s Hr) as [m Hi].
  rewrite (entries_spec s m) in Htm by (done || in_heads). injection Htm as <-.
  pose proof (register_timeout_spec s m now secs usecs h p Hi) as Hs. revert Hs.
  destruct (m !!! H_free_timeout) as [|y fs].
  { intros Hs. rewrite Hs in E. by injection E as <- _. }
  destruct (expiry_fits now secs usecs); [|intros Hs; by rewrite E in Hs].
  intros (i & h' & -> & E' & Hi'). rewrite E in E'. injection E' as -> ->.
  destruct (insert_timer_split (timeouts s) (expiry now secs usecs) (Tm i) (m !!! H_timeout))
    as (l1 & l2 & Hl & Hins & HF & Hn).
  exists l1, l2. split; [done|]. split.
  { rewrite (entries_spec _ _ H_timeout Hi') by in_heads.
    by rewrite lookup_total_insert_eq, Hins. }
  split; [cbn; by rewrite lookup_insert_eq|]. split; [done|].
  destruct l2 as [|y l2]; constructor; [by eapply Hn|].
  pose proof (inv_sorted _ _ Hi) as Hso. rewrite Hl in Hso.
  apply Forall_forall. intros z Hz. pose proof (sorted_app_le _ _ _ _ _ Hso Hz) as Hle.
  specialize (Hn y l2 eq_refl). unfold not_later in Hle.
  rewrite timer_lt_spec in Hn |- *. rewrite timer_nlt_spec in Hle. lia.
Qed.

(** [sloop_run] never sleeps past a pending timer: with [x] pending, the
    limit given to [select] is for the first timer [e], it is zero when [e] is
    due, and otherwise uptime plus the limit is not after the expiry of any
    pending timer. *)
Theorem sloop_wait_bound s now x tm :
  reachable s → entries s H_timeout = Ok tm → x ∈ tm →
  ∃ e tv, next_timeout s now = Ok (Some (e, tv)) ∧ not_later (timeouts s) e x
    ∧ if timer_ge (mk_timeval now 0) (time_at (timeouts s) e) then tv = mk_timeval 0 0
      else timer_lt (time_at (timeouts s) x)
             (mk_timeval (now + tv_sec tv) (tv_usec tv)) = false.
Proof.
  intros Hr Htm Hx. destruct (reachable_has_inv s Hr) as [m Hi].
  rewrite (entries_spec s m) in Htm by (done || in_heads). injection Htm as <-.
  pose proof (next_timeout_spec s m now Hi) as Hn.
  pose proof (inv_sorted _ _ Hi) as Hso.
  destruct (m !!! H_timeout) as [|e l]; [set_solver|].
  eexists e, _. split; [exact Hn|].
  assert (Hle : not_later (timeouts s) e x).
  { apply elem_of_cons in Hx as [->|Hx].
    - unfold not_later. rewrite timer_nlt_spec. lia.
    - inversion Hso as [|??? HF]; subst. rewrite Forall_forall in HF. by apply HF. }
  split; [done|]. destruct (timer_ge _ _) eqn:Hge; [done|].
  unfold not_later in Hle. rewrite timer_nlt_spec in Hle |- *. unfold timersub. cbn.
  destruct (Z.ltb_spec (tv_usec (time_at (timeouts s) e) - 0) 0); cbn; lia.
Qed.

(** The registered descriptors fit into an [fd_set]. *)
Definition descriptors_ok (s : sloop) : Prop :=
  fd_ok (signal_fd s) = true
  ∧ ∀ head l x, head = H_readers ∨ head = H_writers → entries s head = Ok l → x ∈ l → fd_ok (sock_of s x) = true.

Lemma reachable_ready s m : inv s m → descriptors_ok s → ready s m.
Proof.
  intros Hi [H1 H2]. split; [done|]. split; [done|]. intros head x Hh Hx.
  eapply H2, Hx; [done|]. apply entries_spec; [done|]. destruct Hh as [-> | ->]; in_heads.
Qed.

(** With handlers that respect their contract and descriptors that [select] can
    wait for, [sloop_run] does not go wrong whatever the system answers: after any number of rounds it is either
    waiting in [select] with something registered, or it has returned and every
    list of registrations is empty, so that all nodes are back in their pools. *)
Theorem sloop_run_safe `{HandlersOK} s rounds :
  reachable s → descriptors_ok s →
  ∃ b s', sloop_run rounds s = Ok (b, s')
    ∧ (if (b : bool)
       then entries s' H_readers = Ok [] ∧ entries s' H_writers = Ok []
            ∧ entries s' H_timeout = Ok [] ∧ entries s' H_signals = Ok []
            ∧ (∃ fs, entries s' H_free_sockets = Ok fs ∧ length fs = 128%nat)
            ∧ (∃ ft, entries s' H_free_timeout = Ok ft ∧ length ft = 128%nat)
            ∧ (∃ fg, entries s' H_free_signals = Ok fg ∧ length fg = 16%nat)
       else terminate s' = 0
            ∧ (entries s' H_readers ≠ Ok [] ∨ entries s' H_writers ≠ Ok []
               ∨ entries s' H_timeout ≠ Ok [] ∨ entries s' H_signals ≠ Ok [])).
Proof.
  intros Hr Hd. destruct (reachable_has_inv s Hr) as [m Hi].
  destruct (sloop_run_spec rounds s m (reachable_ready s m Hi Hd)) as (b & s' & m' & E & Hi' & Hid & Hna).
  exists b, s'. split; [done|]. rewrite !(entries_spec s' m' _ Hi') by in_heads.
  destruct b.
  - destruct (Hid eq_refl) as (H1 & H2 & H3 & H4). rewrite H1, H2, H3, H4.
    do 4 (split; [done|]).
    pose proof (pool_length _ _ _ _ _ _ _ (inv_sk _ _ Hi')) as L1.
    pose proof (pool_length _ _ _ _ _ _ _ (inv_tm _ _ Hi')) as L2.
    pose proof (pool_length _ _ _ _ _ _ _ (inv_sg _ _ Hi')) as L3.
    rewrite H1, H2 in L1. rewrite H3 in L2. rewrite H4 in L3.
    rewrite Nat.add_0_r in L1, L2, L3.
    split_and!; eexists; (split; [done|]); done.
  - destruct (Hna eq_refl) as [Ht Hn]. split; [done|]. unfold idle in Hn.
    destruct (decide (m' !!! H_readers = [])); [|left; congruence].
    destruct (decide (m' !!! H_writers = [])); [|right; left; congruence].
    destruct (decide (m' !!! H_timeout = [])); [|right; right; left; congruence].
    destruct (decide (m' !!! H_signals = [])); [|right; right; right; congruence].
    naive_solver.
Qed.

(** ** Concrete runs *)

Definition force {A} (d : A) (r : res A) : A := match r with Ok a => a | _ => d end.

Definition blank : sloop := mk_sloop ∅ ∅ ∅ ∅ 0 0 [] 0 ∅.
Definition demo0 : sloop := force blank (sloop_init ∅ 3 7).
Definition after (s : sloop) (c : call) : sloop := snd (force (NULL, blank) (run_call s c)).
Definition demo1 : sloop := after demo0 (RegTimeout 100 5 2500000 1 0).
Definition demo2 : sloop := after demo1 (RegTimeout 100 3 0 1 0).
Definition demo3 : sloop := after demo2 (RegRead 5 2 0).
Definition demo4 : sloop := after demo3 (RegSignal 15 1 0).

Definition completes {A} (r : res A) : bool := match r with Ok _ => true | _ => false end.

Lemma reachable_after s c :
  reachable s → valid_call s c → completes (run_call s c) = true → reachable (after s c).
Proof.
  intros Hr Hv Hc. unfold after. destruct (run_call s c) as [[a s']| |] eqn:E; [|done..].
  by eapply reach_call.
Qed.

Lemma run_after s c x :
  completes (run_call s c) = true → fst (force (NULL, blank) (run_call s c)) = x →
  run_call s c = Ok (x, after s c).
Proof.
  intros Hc <-. unfold after. by destruct (run_call s c) as [[a s']| |].
Qed.

Lemma demo0_reachable : reachable demo0.
Proof.
  unfold demo0. destruct (sloop_init_spec ∅ 3 7) as (s & E & _). rewrite E.
  by eapply reach_init.
Qed.

Lemma demo2_reachable : reachable demo2.
Proof.
  apply (reachable_after demo1 (RegTimeout 100 3 0 1 0)); [|exact I|vm_compute; reflexivity].
  apply (reachable_after demo0 (RegTimeout 100 5 2500000 1 0));
    [exact demo0_reachable|exact I|vm_compute; reflexivity].
Qed.

Lemma demo4_reachable : reachable demo4.
Proof.
  apply (reachable_after demo3 (RegSignal 15 1 0)); [|exact I|vm_compute; reflexivity].
  apply (reachable_after demo2 (RegRead 5 2 0));
    [exact demo2_reachable|exact I|vm_compute; reflexivity].
Qed.

Lemma sloop_reachable_invariant_witness : reachable demo4 ∧ well_linked demo4.
Proof.
  split; [exact demo4_reachable|]. apply sloop_reachable_invariant. exact demo4_reachable.
Defined.

Lemma sloop_calls_safe_witness :
  valid_call demo4 (CancelTimeout (Tm 127))
  ∧ ∃ a s', run_call demo4 (CancelTimeout (Tm 127)) = Ok (a, s').
Proof.
  assert (Hv : valid_call demo4 (CancelTimeout (Tm 127))).
  { right. exists [Tm 126; Tm 127]. split; [vm_compute; reflexivity|]. set_solver. }
  split; [exact Hv|].
  destruct (sloop_calls_safe demo4 (CancelTimeout (Tm 127)) demo4_reachable Hv I)
    as (a & s' & E & _).
  exists a, s'. exact E.
Defined.

Lemma sloop_timeout_order_witness :
  ∃ l1 l2, [Tm 126; Tm 127] = l1 ++ l2
    ∧ entries (after demo2 (RegTimeout 100 4 0 1 0)) H_timeout = Ok (l1 ++ Tm 125 :: l2).
Proof.
  destruct (sloop_timeout_order demo2 100 4 0 1 0 (Tm 125)
    (after demo2 (RegTimeout 100 4 0 1 0)) [Tm 126; Tm 127] demo2_reachable)
    as (l1 & l2 & H1 & H2 & _);
    [vm_compute; reflexivity
    |apply (run_after demo2 (RegTimeout 100 4 0 1 0)); vm_compute; reflexivity
    |discriminate|].
  exists l1, l2. split; assumption.
Defined.

Lemma sloop_wait_bound_witness :
  ∃ e tv, next_timeout demo2 101 = Ok (Some (e, tv)) ∧ not_later (timeouts demo2) e (Tm 127).
Proof.
  destruct (sloop_wait_bound demo2 101 (Tm 127) [Tm 126; Tm 127] demo2_reachable)
    as (e & tv & H1 & H2 & _); [vm_compute; reflexivity|set_solver|].
  exists e, tv. split; assumption.
Defined.

(** Handlers that respect the contract: a timer that rearms itself, sockets
    that stay (handler 1) or are to be cancelled (others), a signal that ends
    the loop. *)
#[local] Instance demo_handlers : Handlers :=
  { call_socket h sock p data s := Ok (if decide (h = 1) then 0 else -1, s);
    call_signal h sig p data s := Ok (0, sloop_terminate s);
    call_timeout h p data s :=
      '(_, s) ← sloop_register_timeout s 200 5 0 h p; mret s }.

#[local] Instance demo_handlers_ok : HandlersOK.
Proof.
  split.
  - intros s m head l1 x l2 r Hi Hh Hl Hr. eexists _, s, m, l1, l2. split; [reflexivity|].
    split_and!; [exact Hi|exact Hl|reflexivity].
  - intros s m x r [Hi Hf] Hx Hr. eexists _, _, m. split; [reflexivity|].
    split; [split; [by apply inv_terminate|by eapply fds_ok_ext, Hf]|exact Hx].
  - intros s m x r [Hi Hf] Hx Hr. cbn [call_timeout demo_handlers].
    pose proof (register_timeout_spec s m 200 5 0 (tm_handler r) (tm_param r) Hi) as Hs. revert Hs.
    destruct (m !!! H_free_timeout) as [|y fs]; [|change (expiry_fits 200 5 0) with true; cbv iota].
    + intros ->. exists s, m. split_and!; [reflexivity|by split|exact Hx].
    + intros (i & h & -> & E & Hi'). rewrite E. eexists _, _. split; [reflexivity|].
      split; [split; [exact Hi'|eapply fds_ok_ext, Hf; [done|done|]]|].
      { intros k z Hk Hz. by rewrite !lookup_total_insert_ne in Hz by (by destruct Hk as [-> | ->]). }
      rewrite lookup_total_insert_eq, insert_timer_perm. set_solver.
Qed.

Definition demo_rounds : list round :=
  [ mk_round 101 (SelOk 1 [5] []) true 101;
    mk_round 103 (SelOk 0 [] []) true 103;
    mk_round 104 (SelErr true) true 104 ].

Lemma demo4_descriptors : descriptors_ok demo4.
Proof.
  split; [reflexivity|]. intros head l x [-> | ->] E Hx; vm_compute in E; injection E as <-.
  - apply list_elem_of_singleton in Hx as ->. vm_compute. reflexivity.
  - by apply elem_of_nil in Hx.
Qed.

Lemma sloop_run_safe_witness :
  reachable demo4 ∧ ∃ b s', sloop_run demo_rounds demo4 = Ok (b, s').
Proof.
  split; [exact demo4_reachable|].
  destruct (sloop_run_safe demo4 demo_rounds demo4_reachable demo4_descriptors) as (b & s' & E & _).
  exists b, s'. exact E.
Defined.

(** A time beyond 2^31 - 1 seconds: counting the seconds up is undefined. *)
Example timeout_overflows :
  run_call demo0 (RegTimeout 100 2147483547 1000000 1 0) = Fault
  ∧ completes (run_call demo0 (RegTimeout 100 2147483547 999999 1 0)) = true.
Proof. by vm_compute. Qed.

(** A timer handler that cancels its own handle and arms a new timer. *)
Definition rearm_handlers : Handlers :=
  {| call_socket h sock p data s := Ok (0, s);
     call_signal h sig p data s := Ok (0, s);
     call_timeout h p data s :=
       s ← sloop_cancel_timeout s (Tm (Z.to_nat p));
       '(a, s) ← sloop_register_timeout s 105 10 0 h p;
       if decide (a = NULL) then Fault else mret s |}.

(** The contract is necessary.  The loop unlinks and frees the node of the
    timer it has just run; a handler that cancels that timer itself and then
    arms another gets the same node back from the free list, and the loop
    removes the new timer: nothing is pending although the registration
    succeeded.  A handler that does not cancel keeps its new timer. *)
Theorem sloop_self_cancel_loses_timer :
  let s := after demo0 (RegTimeout 100 5 0 1 127) in
  entries s H_timeout = Ok [Tm 127]
  ∧ (s' ← @check_timeout rearm_handlers s (Some (Tm 127)) 105; entries s' H_timeout) = Ok []
  ∧ (s' ← @check_timeout demo_handlers s (Some (Tm 127)) 105; entries s' H_timeout)
    = Ok [Tm 126].
Proof. vm_compute. repeat split. Qed.
