(* ===== verification/MemHelper.v ===== *)
(** * The memory helper (comlib/mem_helper.c, include/mem_helper.h)

    A pool allocator with blocks of 2^2 to 2^21 bytes.  Blocks of one size are
    carved out of super blocks obtained from [malloc]; each has a header of 20
    bytes with a list node, a signature with its size class, and the file and
    line of the allocation (CONFIG_MEM_HELPER_TRACKING is on).  Free and used
    blocks of each class are on doubly linked lists, super blocks on
    [mpool_free_list[0]]. *)

From stdpp Require Import base numbers gmap list strings.
From S2P Require Import Prelude Dlist.

(** ** Addresses of list nodes: the heads in the two static arrays, and the
    header of a block at an address. *)
Inductive maddr : Type :=
| MNULL
| FreeL (i : nat)
| UsedL (i : nat)
| Blk (p : Z).

#[export] Instance maddr_eq_dec : EqDecision maddr.
Proof. solve_decision. Defined.

#[export] Program Instance maddr_countable : Countable maddr :=
  inj_countable
    (λ a, match a with
          | MNULL => inl 0%nat | FreeL i => inl (2 * i + 1)%nat
          | UsedL i => inl (2 * i + 2)%nat | Blk p => inr p end)
    (λ c, match c with
          | inl 0%nat => Some MNULL
          | inl (S n) => Some (if Nat.even n then FreeL (Nat.div2 n) else UsedL (Nat.div2 n))
          | inr p => Some (Blk p) end) _.
Next Obligation.
  intros [|i|i|p]; cbn -[Nat.mul]; [done| | |done]; repeat f_equal.
  - replace (2 * i + 1)%nat with (S (2 * i)) by lia. cbn -[Nat.mul Nat.even].
    rewrite Nat.even_mul. cbn [orb Nat.even]. by rewrite Nat.div2_double.
  - replace (2 * i + 2)%nat with (S (S (2 * i))) by lia. cbn -[Nat.mul Nat.even Nat.div2].
    rewrite Nat.even_succ, <- Nat.negb_even, Nat.even_mul. cbn [orb negb Nat.even].
    by rewrite Nat.div2_succ_double.
Qed.

#[export] Instance maddr_pointer : Pointer maddr := MNULL.

(** ** Constants and data *)

Definition SIGN_MASK : Z := 0xffff0000.
Definition SIZE_MASK : Z := 0x0000ffff.
Definition MEMBLK_SIGN : Z := 0x55aa0000.
Definition SUPER_BLOCK_SIGN : Z := 0x5a5a0000.
Definition MEM_POOLS_COUNT : nat := 22.
Definition MAX_TRACKING_FILES : nat := 512.

(** [sizeof(memblk_hdr_t)]: two pointers, [flags], [file], [line]. *)
Definition HDR : Z := 20.

Record memblk_hdr := mk_hdr { flags : Z; file : Z; line : Z }.

(** [mpool_increase] *)
Definition mpool_increase : list Z :=
  [0; 0; 8; 8; 8; 8; 8; 8; 8; 8; 8; 8; 4; 2; 1; 1; 1; 1; 1; 1; 1; 1;
   0; 0; 0; 0; 0; 0; 0; 0; 0; 0].

(** The static data of the module and the memory it manages: [blocks] are the
    live results of [malloc] with their sizes, [mem] the bytes of the memory. *)
Record mh := mk_mh
  { heap : gmap maddr (dlist_head maddr);
    hdrs : gmap Z memblk_hdr;
    mpool_used : list Z;
    mpool_free : list Z;
    mpool_max_used : list Z;
    mpool_count : list Z;
    mh_files : list string;
    blocks : list (Z * Z);
    mem : Z → Z }.

Definition with_heap (s : mh) h :=
  mk_mh h (hdrs s) (mpool_used s) (mpool_free s) (mpool_max_used s) (mpool_count s)
    (mh_files s) (blocks s) (mem s).
Definition with_hdrs (s : mh) x :=
  mk_mh (heap s) x (mpool_used s) (mpool_free s) (mpool_max_used s) (mpool_count s)
    (mh_files s) (blocks s) (mem s).
Definition with_used (s : mh) x :=
  mk_mh (heap s) (hdrs s) x (mpool_free s) (mpool_max_used s) (mpool_count s)
    (mh_files s) (blocks s) (mem s).
Definition with_free (s : mh) x :=
  mk_mh (heap s) (hdrs s) (mpool_used s) x (mpool_max_used s) (mpool_count s)
    (mh_files s) (blocks s) (mem s).
Definition with_max_used (s : mh) x :=
  mk_mh (heap s) (hdrs s) (mpool_used s) (mpool_free s) x (mpool_count s)
    (mh_files s) (blocks s) (mem s).
Definition with_count (s : mh) x :=
  mk_mh (heap s) (hdrs s) (mpool_used s) (mpool_free s) (mpool_max_used s) x
    (mh_files s) (blocks s) (mem s).
Definition with_files (s : mh) x :=
  mk_mh (heap s) (hdrs s) (mpool_used s) (mpool_free s) (mpool_max_used s) (mpool_count s)
    x (blocks s) (mem s).
Definition with_blocks (s : mh) x :=
  mk_mh (heap s) (hdrs s) (mpool_used s) (mpool_free s) (mpool_max_used s) (mpool_count s)
    (mh_files s) x (mem s).
Definition with_mem (s : mh) x :=
  mk_mh (heap s) (hdrs s) (mpool_used s) (mpool_free s) (mpool_max_used s) (mpool_count s)
    (mh_files s) (blocks s) x.

(** [arr[i]], undefined behaviour outside the array. *)
Definition get (arr : list Z) (i : nat) : res Z := deref (arr !! i).
(** [arr[i] = f(arr[i])] on a [size_t] array *)
Definition upd (arr : list Z) (i : nat) (f : Z → Z) : res (list Z) :=
  v ← get arr i; mret (<[i := u32 (f v)]> arr).

(** [dlist_entry(entry, memblk_hdr_t, link)] *)
Definition blk_entry (a : maddr) : res Z := match a with Blk p => Ok p | _ => Fault end.

Definition MEMHDR (p : Z) : Z := p - HDR.
Definition MEMPTR (h : Z) : Z := h + HDR.
Definition MEMBLK_CHECK (h : memblk_hdr) : bool := Z.land (flags h) SIGN_MASK =? MEMBLK_SIGN.
Definition MEMBLK_SIZE (h : memblk_hdr) : nat := Z.to_nat (Z.land (flags h) SIZE_MASK).

(** The two list heads of a class; an index outside the arrays faults. *)
Definition free_head (s : nat) : res maddr :=
  if decide (s < MEM_POOLS_COUNT)%nat then Ok (FreeL s) else Fault.
Definition used_head (s : nat) : res maddr :=
  if decide (s < MEM_POOLS_COUNT)%nat then Ok (UsedL s) else Fault.

(** ** Initialisation *)

Definition mh_heads : list maddr :=
  (FreeL <$> seq 0 MEM_POOLS_COUNT) ++ (UsedL <$> seq 0 MEM_POOLS_COUNT).

(** The loop of [mh_init_all] over the classes from [i] on. *)
Fixpoint init_lists (h : gmap maddr (dlist_head maddr)) (l : list nat)
  : res (gmap maddr (dlist_head maddr)) :=
  match l with
  | [] => mret h
  | i :: l =>
      h ← INIT_DLIST_HEAD h (FreeL i);
      h ← INIT_DLIST_HEAD h (UsedL i);
      init_lists h l
  end.

Definition zeros : list Z := replicate MEM_POOLS_COUNT 0.

Definition mh_init_all (s : mh) : res mh :=
  h ← init_lists (heap s) (seq 0 MEM_POOLS_COUNT);
  mret (mk_mh h (hdrs s) zeros zeros zeros zeros [] (blocks s) (mem s)).

(** ** Allocation of super blocks *)

Section malloc.
(** The C library's [malloc], given the live blocks and the size. *)
Variable malloc : list (Z * Z) → Z → option Z.

(** [blk = (memblk_hdr_t * )ptr; INIT_DLIST_HEAD(&blk->link); blk->flags = f] in
    memory just obtained from [malloc]. *)
Definition init_block (s : mh) (p f : Z) : res mh :=
  h ← INIT_DLIST_HEAD (<[Blk p := mk_head MNULL MNULL]> (heap s)) (Blk p);
  mret (with_hdrs (with_heap s h) (<[p := mk_hdr f 0 0]> (hdrs s))).

(** The loop that puts the blocks of a super block on the free list. *)
Fixpoint carve (n : nat) (s : mh) (c : nat) (ptr block_size : Z) : res mh :=
  match n with
  | O => mret s
  | S n =>
      s ← init_block s ptr (Z.lor MEMBLK_SIGN (Z.land (Z.of_nat c) SIZE_MASK));
      head ← free_head c;
      h ← dlist_add_tail (heap s) (Blk ptr) head;
      f ← upd (mpool_free s) c (λ v, v + 1);
      carve n (with_free (with_heap s h) f) c (ptr + block_size) block_size
  end.

(** [alloc_memblk(c)] *)
Definition alloc_memblk (s : mh) (c : nat) : res mh :=
  inc ← get mpool_increase c;
  if 0 <? inc then
    let block_size := HDR + Z.shiftl 1 (Z.of_nat c) in
    let required_size := HDR + block_size * inc in
    match malloc (blocks s) required_size with
    | Some ptr =>
        s ← init_block (with_blocks s ((ptr, required_size) :: blocks s)) ptr SUPER_BLOCK_SIGN;
        h ← dlist_add_tail (heap s) (Blk ptr) (FreeL 0);
        cnt ← upd (mpool_count s) c (λ v, v + 1);
        carve (Z.to_nat inc) (with_count (with_heap s h) cnt) c (ptr + HDR) block_size
    | None => mret s
    end
  else mret s.

(** The second half of [memalloc]: the first free block moves to the used list. *)
Definition memalloc_take (s : mh) (c : nat) : res (option Z * mh) :=
  fh ← free_head c;
  e ← dlist_empty (heap s) fh;
  if (e : bool) then mret (None, s)
  else
    n ← load (heap s) fh;
    let entry := next n in
    h ← dlist_del (heap s) entry;
    f ← upd (mpool_free s) c (λ v, v - 1);
    uh ← used_head c;
    h ← dlist_add h entry uh;
    u ← upd (mpool_used s) c (λ v, v + 1);
    uc ← get u c;
    mx ← get (mpool_max_used s) c;
    p ← blk_entry entry;
    mret (Some p, with_max_used (with_used (with_free (with_heap s h) f) u)
                    (if mx <? uc then <[c := uc]> (mpool_max_used s) else mpool_max_used s)).

(** [memalloc(c)]: the header, or [None] for NULL. *)
Definition memalloc (s : mh) (c : nat) : res (option Z * mh) :=
  fh ← free_head c;
  e ← dlist_empty (heap s) fh;
  s ← (if (e : bool) then alloc_memblk s c else mret s);
  memalloc_take s c.

(** The search of [memblk_tracking] for the file name. *)
Fixpoint find_file (l : list string) (f : string) : nat :=
  match l with
  | [] => 0
  | x :: l => if String.eqb x f then 0 else S (find_file l f)
  end.

Definition memblk_tracking (s : mh) (p : Z) (f : string) (ln : Z) : res mh :=
  let i := find_file (mh_files s) f in
  let s := if decide (i = length (mh_files s) ∧ i < MAX_TRACKING_FILES)%nat
           then with_files s (mh_files s ++ [f]) else s in
  r ← deref (hdrs s !! p);
  mret (with_hdrs s (<[p := mk_hdr (flags r) (Z.of_nat i) ln]> (hdrs s))).

(** [mh_malloc]: the loop over the size classes from [i] on. *)
Fixpoint malloc_from (n : nat) (s : mh) (i : nat) (size : Z) (f : string) (ln : Z)
  : res (Z * mh) :=
  match n with
  | O => mret (0, s)
  | S n =>
      if size <=? Z.shiftl 1 (Z.of_nat i) then
        '(r, s) ← memalloc s i;
        match r with
        | Some p => s ← memblk_tracking s p f ln; mret (MEMPTR p, s)
        | None => malloc_from n s (S i) size f ln
        end
      else malloc_from n s (S i) size f ln
  end.

Definition mh_malloc (s : mh) (size : Z) (f : string) (ln : Z) : res (Z * mh) :=
  if 0 <? size then malloc_from (MEM_POOLS_COUNT - 3) s 3 size f ln
  else mret (0, s).

(** ** Release *)

Fixpoint is_entry_in_used (fuel : nat) (h : gmap maddr (dlist_head maddr))
    (head curr target : maddr) : res bool :=
  if decide (curr = head) then mret false
  else if decide (curr = target) then mret true
  else match fuel with
  | O => NoFuel
  | S fuel => n ← load h curr; is_entry_in_used fuel h head (next n) target
  end.

(** The boolean is [false] when the block was not in use and the error
    "already freed" is reported. *)
Definition memfree (s : mh) (p : Z) : res (bool * mh) :=
  r ← deref (hdrs s !! p);
  let c := MEMBLK_SIZE r in
  uh ← used_head c;
  n ← load (heap s) uh;
  b ← is_entry_in_used (size (heap s)) (heap s) uh (next n) (Blk p);
  if (b : bool) then
    h ← dlist_del (heap s) (Blk p);
    u ← upd (mpool_used s) c (λ v, v - 1);
    fh ← free_head c;
    h ← dlist_add h (Blk p) fh;
    f ← upd (mpool_free s) c (λ v, v + 1);
    mret (true, with_free (with_used (with_heap s h) u) f)
  else mret (false, s).

Definition mh_free (s : mh) (ptr : Z) : res (bool * mh) :=
  if decide (ptr = 0) then mret (true, s)
  else
    r ← deref (hdrs s !! MEMHDR ptr);
    if MEMBLK_CHECK r then memfree s (MEMHDR ptr) else mret (false, s).

(** ** Bytes *)

Definition memcpy (m : Z → Z) (dst src n : Z) : Z → Z :=
  λ a, if (dst <=? a) && (a <? dst + n) then m (src + (a - dst)) else m a.
Definition memset (m : Z → Z) (dst v n : Z) : Z → Z :=
  λ a, if (dst <=? a) && (a <? dst + n) then v else m a.

(** A C string in memory: its bytes without the terminator. *)
Definition c_string_at (m : Z → Z) (p : Z) (bs : list Z) : Prop :=
  (∀ i b, bs !! i = Some b → m (p + Z.of_nat i) = b ∧ b ≠ 0)
  ∧ m (p + Z.of_nat (length bs)) = 0.

(** [len] is [strlen(string)]. *)
Definition mh_strdup (s : mh) (string len : Z) (f : String.string) (ln : Z) : res (Z * mh) :=
  '(ptr, s) ← mh_malloc s (u32 (len + 1)) f ln;
  if decide (ptr = 0) then mret (0, s)
  else mret (ptr, with_mem s (memcpy (mem s) ptr string (len + 1))).

Definition mh_calloc (s : mh) (nmemb size : Z) (f : string) (ln : Z) : res (Z * mh) :=
  '(ptr, s) ← mh_malloc s (u32 (nmemb * size)) f ln;
  if decide (ptr = 0) then mret (0, s)
  else mret (ptr, with_mem s (memset (mem s) ptr 0 (u32 (nmemb * size)))).

Definition mh_realloc (s : mh) (ptr size : Z) (f : string) (ln : Z) : res (Z * mh) :=
  if decide (ptr = 0) then
    if decide (size = 0) then mret (0, s) else mh_malloc s size f ln
  else
    r ← deref (hdrs s !! MEMHDR ptr);
    if MEMBLK_CHECK r then
      let my_size := Z.shiftl 1 (Z.of_nat (MEMBLK_SIZE r)) in
      if my_size <? size then
        '(new_ptr, s) ← mh_malloc s size f ln;
        let s := if decide (new_ptr = 0) then s
                 else with_mem s (memcpy (mem s) new_ptr ptr my_size) in
        '(_, s) ← mh_free s ptr;
        mret (new_ptr, s)
      else mret (ptr, s)
    else mret (0, s).
End malloc.

(** ** Tear down and diagnosis *)

(** [free(p)]: the block ends, and with it the headers inside it. *)
Definition free_block (s : mh) (p : Z) : mh :=
  let inside q := existsb (λ b, (b.1 =? p) && (b.1 <=? q) && (q <? b.1 + b.2)) (blocks s) in
  mk_mh
    (filter (λ kv, match kv.1 with Blk q => inside q | _ => false end = false) (heap s))
    (filter (λ kv, inside kv.1 = false) (hdrs s))
    (mpool_used s) (mpool_free s) (mpool_max_used s) (mpool_count s) (mh_files s)
    (filter (λ b, b.1 ≠ p) (blocks s)) (mem s).

(** The loop of [mh_free_all]: [free] of every super block. *)
Fixpoint free_supers (fuel : nat) (s : mh) : res mh :=
  e ← dlist_empty (heap s) (FreeL 0);
  if (e : bool) then mret s
  else match fuel with
  | O => NoFuel
  | S fuel =>
      n ← load (heap s) (FreeL 0);
      h ← dlist_del (heap s) (next n);
      p ← blk_entry (next n);
      free_supers fuel (free_block (with_heap s h) p)
  end.

Definition mh_free_all (s : mh) : res mh :=
  s ← free_supers (length (blocks s)) s;
  mh_init_all s.

Definition count_list (h : gmap maddr (dlist_head maddr)) (head : maddr) : res Z :=
  l ← dlist_entries (size h) h head; mret (u32 (Z.of_nat (length l))).

(** The messages of [mh_diagnostic]. *)
Inductive diag := DiagFree (i : nat) | DiagUsed (i : nat) | DiagTotal (i : nat).

Definition diagnose (s : mh) (i : nat) : res (list diag) :=
  cf ← count_list (heap s) (FreeL i);
  f ← get (mpool_free s) i;
  cu ← count_list (heap s) (UsedL i);
  u ← get (mpool_used s) i;
  c ← get (mpool_count s) i;
  inc ← get mpool_increase i;
  mret ((if decide (f = cf) then [] else [DiagFree i])
        ++ (if decide (u = cu) then [] else [DiagUsed i])
        ++ (if decide (u32 (c * inc) = u32 (f + u)) then [] else [DiagTotal i])).

Fixpoint diagnose_all (s : mh) (l : list nat) : res (list diag) :=
  match l with
  | [] => mret []
  | i :: l => d ← diagnose s i; ds ← diagnose_all s l; mret (d ++ ds)
  end.

Definition mh_diagnostic (s : mh) : res (list diag) :=
  diagnose_all s (seq 1 (MEM_POOLS_COUNT - 1)).

(** The totals printed by [mh_dump]: total, free and used bytes. *)
Fixpoint dump_sizes (s : mh) (l : list nat) (acc : Z * Z * Z) : res (Z * Z * Z) :=
  match l with
  | [] => mret acc
  | i :: l =>
      let '(total_size, free_size, used_size) := acc in
      let block_size := Z.shiftl 1 (Z.of_nat i) in
      f ← get (mpool_free s) i;
      u ← get (mpool_used s) i;
      dump_sizes s l (u32 (total_size + block_size * (f + u)),
                      u32 (free_size + block_size * f), u32 (used_size + block_size * u))
  end.

Definition mh_dump (s : mh) : res (Z * Z * Z) :=
  dump_sizes s (seq 1 (MEM_POOLS_COUNT - 1)) (0, 0, 0).

(** One line of [mh_dump_used]: class, entry, file name and line number; the
    name is read from [_mh_files], whose unused elements are null. *)
Definition dump_entry (s : mh) (i : nat) (entry : maddr)
  : res (nat * maddr * option string * Z) :=
  p ← blk_entry entry;
  r ← deref (hdrs s !! p);
  if decide (0 ≤ file r < Z.of_nat MAX_TRACKING_FILES)
  then mret (i, entry, mh_files s !! Z.to_nat (file r), line r)
  else Fault.

Fixpoint dump_list (s : mh) (i : nat) (l : list maddr) :=
  match l with
  | [] => mret []
  | x :: l => d ← dump_entry s i x; ds ← dump_list s i l; mret (d :: ds)
  end.

Fixpoint dump_classes (s : mh) (l : list nat) :=
  match l with
  | [] => mret []
  | i :: l =>
      es ← dlist_entries (size (heap s)) (heap s) (UsedL i);
      d ← dump_list s i es;
      ds ← dump_classes s l;
      mret (d ++ ds)
  end.

Definition mh_dump_used (s : mh) := dump_classes s (seq 0 MEM_POOLS_COUNT).
