(* ===== verification/MemHelperInv.v ===== *)
(** * The memory helper: invariant

    The lists of each size class hold blocks of that class, cut out of live
    super blocks and disjoint from each other, and the counters agree with the
    lists; allocation and release keep this. *)

From stdpp Require Import base numbers gmap list strings.
From S2P Require Import Prelude Dlist MemHelper.

#[global] Arguments MEM_POOLS_COUNT : simpl never.
#[global] Arguments MAX_TRACKING_FILES : simpl never.
#[global] Arguments mpool_increase : simpl never.

Definition total_size (bs : list (Z * Z)) : Z := foldr (λ b n, b.2 + n) 0 bs.

Definition apart (p n q k : Z) : Prop := p + n ≤ q ∨ q + k ≤ p.

(** What the module relies on of [malloc]: a returned block lies in the address
    space, is apart from the live ones, and all of them fit in the 4 GB. *)
Class MallocOK (malloc : list (Z * Z) → Z → option Z) : Prop :=
  malloc_ok bs n p :
    malloc bs n = Some p → 0 < n →
    0 < p ∧ p + n ≤ 4294967296
    ∧ (∀ b k, (b, k) ∈ bs → apart p n b k)
    ∧ total_size bs + n < 4294967296.

Definition cls_size (c : nat) : Z := 2 ^ Z.of_nat c.

Lemma shiftl_cls c : Z.shiftl 1 (Z.of_nat c) = cls_size c.
Proof. unfold cls_size. rewrite Z.shiftl_mul_pow2 by lia. lia. Qed.

Lemma cls_size_pos c : 0 < cls_size c.
Proof. unfold cls_size. apply Z.pow_pos_nonneg; lia. Qed.

(** The blocks of a class, free or in use. *)
Definition cls (m : gmap maddr (list maddr)) (c : nat) : list maddr :=
  m !!! FreeL c ++ m !!! UsedL c.

Definition is_class (c : nat) : Prop := (2 ≤ c < 22)%nat.

Record minv (s : mh) (m : gmap maddr (list maddr)) : Prop := {
  mi_dl : dlists (heap s) m;
  mi_dom : ∀ i, (i < 22)%nat →
    m !! FreeL i = Some (m !!! FreeL i) ∧ m !! UsedL i = Some (m !!! UsedL i);
  mi_only : ∀ x, on_list m x → (∃ i, (i < 22)%nat ∧ (x = FreeL i ∨ x = UsedL i))
    ∨ x ∈ m !!! FreeL 0 ∨ ∃ c, is_class c ∧ x ∈ cls m c;
  mi_low : m !!! UsedL 0 = [] ∧ cls m 1 = [];
  mi_lens : length (mpool_max_used s) = 22%nat;
  mi_free : ∀ i, (1 ≤ i < 22)%nat →
    mpool_free s !! i = Some (Z.of_nat (length (m !!! FreeL i)));
  mi_used : ∀ i, (1 ≤ i < 22)%nat →
    mpool_used s !! i = Some (Z.of_nat (length (m !!! UsedL i)));
  mi_count : ∀ i, (1 ≤ i < 22)%nat → ∃ n inc,
    mpool_count s !! i = Some n ∧ mpool_increase !! i = Some inc
    ∧ 0 ≤ n ∧ n * inc = Z.of_nat (length (cls m i)) ∧ n ≤ total_size (blocks s);
  mi_super : m !!! FreeL 0 ≡ₚ (λ b, Blk b.1) <$> blocks s;
  mi_blk : ∀ c x, is_class c → x ∈ cls m c → ∃ p r, x = Blk p
    ∧ hdrs s !! p = Some r ∧ flags r = Z.lor MEMBLK_SIGN (Z.of_nat c)
    ∧ ∃ b n, (b, n) ∈ blocks s ∧ b + HDR ≤ p ∧ p + HDR + cls_size c ≤ b + n;
  mi_apart : ∀ c d p q, is_class c → is_class d → Blk p ∈ cls m c → Blk q ∈ cls m d → p ≠ q →
    apart p (HDR + cls_size c) q (HDR + cls_size d);
  mi_blocks : Forall (λ b, 0 < b.1 ∧ 0 < b.2) (blocks s);
  mi_nodup : NoDup (blocks s).*1;
  mi_disj : ∀ b n b' n', (b, n) ∈ blocks s → (b', n') ∈ blocks s → b ≠ b' → apart b n b' n';
  mi_total : total_size (blocks s) < 4294967296;
  mi_bound : ∀ c, is_class c → Z.of_nat (length (cls m c)) ≤ total_size (blocks s) }.

(** ** Blocks just obtained are on no list *)

Lemma super_block s m x :
  minv s m → x ∈ m !!! FreeL 0 → ∃ b n, x = Blk b ∧ (b, n) ∈ blocks s.
Proof.
  intros Hi. rewrite (mi_super _ _ Hi), list_elem_of_fmap. intros ([b n] & -> & Hb). eauto.
Qed.

Lemma fresh_block s m p n q :
  minv s m → (∀ b k, (b, k) ∈ blocks s → apart p n b k) → p ≤ q < p + n →
  ¬ on_list m (Blk q).
Proof.
  intros Hi Hap Hq Ho. apply (mi_only _ _ Hi) in Ho as [(i & _ & [? | ?])|[Ho|(c & Hc & Ho)]];
    [done..| |].
  - destruct (super_block _ _ _ Hi Ho) as (b & k & [= ->] & Hb).
    specialize (Hap _ _ Hb). unfold apart in Hap.
    pose proof (mi_blocks _ _ Hi) as Hpos. rewrite Forall_forall in Hpos.
    specialize (Hpos _ Hb). cbn in Hpos. lia.
  - destruct (mi_blk _ _ Hi _ _ Hc Ho) as (p' & r & [= <-] & _ & _ & b & k & Hb & H1 & H2).
    specialize (Hap _ _ Hb). unfold apart in Hap. unfold HDR in *.
    pose proof (cls_size_pos c). lia.
Qed.

(** ** Carving a super block *)

Definition blk_at (ptr size : Z) (k : nat) : Z := ptr + Z.of_nat k * size.

Lemma blk_at_S ptr size k : blk_at ptr size (S k) = blk_at (ptr + size) size k.
Proof. unfold blk_at. lia. Qed.

Lemma seq_blk_S ptr size n :
  (λ k, Blk (blk_at ptr size k)) <$> seq 0 (S n)
  = Blk ptr :: ((λ k, Blk (blk_at (ptr + size) size k)) <$> seq 0 n).
Proof.
  cbn. f_equal; [f_equal; unfold blk_at; lia|]. rewrite <- fmap_S_seq, <- list_fmap_compose.
  apply list_fmap_ext. intros i k _. cbn. by rewrite blk_at_S.
Qed.

(** The headers the loop writes. *)
Fixpoint carve_hdrs (n : nat) (H : gmap Z memblk_hdr) (f ptr size : Z) : gmap Z memblk_hdr :=
  match n with
  | O => H
  | S n => carve_hdrs n (<[ptr := mk_hdr f 0 0]> H) f (ptr + size) size
  end.

Lemma carve_hdrs_old n H f ptr size p :
  (∀ k, (k < n)%nat → p ≠ blk_at ptr size k) → carve_hdrs n H f ptr size !! p = H !! p.
Proof.
  revert H ptr. induction n as [|n IH]; intros H ptr Hp; cbn; [done|].
  rewrite IH.
  - rewrite lookup_insert_ne; [done|]. intros ->. apply (Hp 0%nat); [lia|].
    unfold blk_at. lia.
  - intros k Hk. rewrite <- blk_at_S. apply Hp. lia.
Qed.

Lemma carve_hdrs_new n H f ptr size k :
  0 < size → (k < n)%nat → carve_hdrs n H f ptr size !! blk_at ptr size k = Some (mk_hdr f 0 0).
Proof.
  intros Hs. revert H ptr k. induction n as [|n IH]; intros H ptr k Hk; [lia|]. cbn.
  destruct k as [|k].
  - rewrite carve_hdrs_old.
    + unfold blk_at. rewrite Z.add_0_r. apply lookup_insert_eq.
    + intros k Hk'. unfold blk_at. lia.
  - rewrite blk_at_S. apply IH. lia.
Qed.

Lemma init_block_spec s m p f :
  dlists (heap s) m → ¬ on_list m (Blk p) →
  ∃ h, init_block s p f = Ok (with_hdrs (with_heap s h) (<[p := mk_hdr f 0 0]> (hdrs s)))
    ∧ dlists h m ∧ is_Some (h !! Blk p).
Proof.
  intros Hds Hno. unfold init_block.
  destruct (INIT_DLIST_HEAD_dlists (<[Blk p := mk_head MNULL MNULL]> (heap s)) m (Blk p))
    as (h & E & Hds' & Hm).
  - eapply dlists_frame, Hds. intros q Hq. apply lookup_insert_ne. by intros <-.
  - done.
  - rewrite lookup_insert_eq. eauto.
  - rewrite E. cbn. eauto.
Qed.

Lemma carve_spec n s m c ptr size l :
  dlists (heap s) m → m !! FreeL c = Some l → (c < 22)%nat → 0 < size →
  mpool_free s !! c = Some (Z.of_nat (length l)) →
  Z.of_nat (length l + n) < 4294967296 →
  (∀ k, (k < n)%nat → ¬ on_list m (Blk (blk_at ptr size k))) →
  let f := Z.lor MEMBLK_SIGN (Z.land (Z.of_nat c) SIZE_MASK) in
  ∃ h, carve n s c ptr size
       = Ok (with_free (with_hdrs (with_heap s h) (carve_hdrs n (hdrs s) f ptr size))
               (<[c := Z.of_nat (length l + n)]> (mpool_free s)))
    ∧ dlists h (<[FreeL c := l ++ ((λ k, Blk (blk_at ptr size k)) <$> seq 0 n)]> m).
Proof.
  intros Hds Hm Hc Hsz Hf Hlt Hno f. revert s m ptr l Hds Hm Hf Hlt Hno.
  induction n as [|n IH]; intros s m ptr l Hds Hm Hf Hlt Hno.
  - exists (heap s). rewrite app_nil_r, Nat.add_0_r, insert_id by done.
    split; [|done]. rewrite list_insert_id by done. by destruct s.
  - cbn [carve]. fold f.
    assert (H0 : blk_at ptr size 0 = ptr) by (unfold blk_at; lia).
    pose proof (Hno 0%nat ltac:(lia)) as Hno0. rewrite H0 in Hno0.
    destruct (init_block_spec s m ptr f Hds Hno0) as (h1 & E1 & Hds1 & Hm1).
    rewrite E1. cbn [mbind res_bind]. unfold free_head. rewrite decide_True by done.
    cbn [mbind res_bind heap with_hdrs with_heap].
    destruct (dlist_add_tail_spec h1 m (FreeL c) l (Blk ptr) Hds1 Hm Hno0 Hm1)
      as (h2 & E2 & Hds2 & _ & _).
    rewrite E2. cbn [mbind res_bind]. unfold upd, get. cbn [mpool_free with_hdrs with_heap].
    rewrite Hf. cbn [deref mbind res_bind mret res_ret].
    rewrite u32_id by (unfold is_u32; lia).
    set (s1 := with_free _ _).
    destruct (IH s1 (<[FreeL c := l ++ [Blk ptr]]> m) (ptr + size) (l ++ [Blk ptr]))
      as (h3 & E3 & Hds3).
    + exact Hds2.
    + apply lookup_insert_eq.
    + subst s1. cbn. rewrite list_lookup_insert_eq by (by eapply lookup_lt_Some).
      rewrite length_app. cbn. f_equal. lia.
    + rewrite length_app. cbn. lia.
    + intros k Hk Ho. apply (on_list_insert _ _ _ _ _ Hm) in Ho as [Ho|Ho].
      * apply elem_of_app in Ho as [Ho|Ho].
        -- apply (Hno (S k)); [lia|]. rewrite blk_at_S. exists (FreeL c), l. set_solver.
        -- assert (blk_at (ptr + size) size k = ptr) as Hk' by set_solver.
           unfold blk_at in Hk'. lia.
      * apply (Hno (S k)); [lia|]. by rewrite blk_at_S.
    + exists h3. rewrite E3. split.
      * f_equal. subst s1. unfold with_free, with_hdrs, with_heap. cbn.
        rewrite list_insert_insert_eq. rewrite length_app. cbn.
        do 2 f_equal. lia.
      * rewrite insert_insert_eq in Hds3. rewrite seq_blk_S.
        by rewrite <- app_assoc in Hds3.
Qed.

Lemma mpool_increase_class c :
  is_class c → ∃ inc, mpool_increase !! c = Some inc ∧ 0 < inc ≤ 8.
Proof.
  intros Hc. unfold is_class in Hc.
  do 22 (destruct c as [|c]; [first [lia | eexists; split; [reflexivity|lia]]|]). lia.
Qed.

Lemma minv_head s m i :
  minv s m → (i < 22)%nat →
  m !! FreeL i = Some (m !!! FreeL i) ∧ m !! UsedL i = Some (m !!! UsedL i).
Proof. intros Hi. apply (mi_dom _ _ Hi). Qed.

Lemma cls_elem m c x : x ∈ cls m c ↔ x ∈ m !!! FreeL c ∨ x ∈ m !!! UsedL c.
Proof. apply elem_of_app. Qed.

Lemma total_size_nonneg bs : Forall (λ b : Z * Z, 0 < b.1 ∧ 0 < b.2) bs → 0 ≤ total_size bs.
Proof. unfold total_size. induction 1 as [|[? ?] ? [_ ?]]; cbn in *; lia. Qed.

Lemma total_size_cons b n bs : total_size ((b, n) :: bs) = n + total_size bs.
Proof. done. Qed.

Lemma total_size_elem bs b n :
  Forall (λ b, 0 < b.1 ∧ 0 < b.2) bs → (b, n) ∈ bs → n ≤ total_size bs.
Proof.
  induction 1 as [|[b' n'] bs [_ Hp] Hbs IH]; [set_solver|].
  rewrite total_size_cons. cbn in Hp.
  pose proof (total_size_nonneg bs Hbs).
  intros [[= -> ->]|Hin]%elem_of_cons; [lia|]. specialize (IH Hin). lia.
Qed.

(** The lists after a super block at [ptr] with [n] blocks has been added. *)
Section grow.
Context (m : gmap maddr (list maddr)) (c : nat) (ptr bs : Z) (n : nat).

Definition new_blocks : list maddr := (λ k, Blk (blk_at (ptr + HDR) bs k)) <$> seq 0 n.
Definition grown : gmap maddr (list maddr) :=
  <[FreeL c := m !!! FreeL c ++ new_blocks]> (<[FreeL 0 := m !!! FreeL 0 ++ [Blk ptr]]> m).

Lemma new_blocks_elem x :
  x ∈ new_blocks ↔ ∃ k, x = Blk (blk_at (ptr + HDR) bs k) ∧ (k < n)%nat.
Proof.
  unfold new_blocks. rewrite list_elem_of_fmap. setoid_rewrite elem_of_seq.
  split; intros (k & -> & Hk); exists k; (split; [done|lia]).
Qed.

Lemma grown_free i :
  (2 ≤ c)%nat → grown !!! FreeL i
  = if decide (i = c) then m !!! FreeL c ++ new_blocks
    else if decide (i = 0%nat) then m !!! FreeL 0 ++ [Blk ptr] else m !!! FreeL i.
Proof.
  intros Hc. unfold grown. repeat case_decide; subst.
  - by rewrite lookup_total_insert_eq.
  - rewrite lookup_total_insert_ne by congruence. by rewrite lookup_total_insert_eq.
  - rewrite !lookup_total_insert_ne by congruence. done.
Qed.

Lemma grown_used i : grown !!! UsedL i = m !!! UsedL i.
Proof. unfold grown. by rewrite !lookup_total_insert_ne by congruence. Qed.

Lemma grown_cls i x :
  (2 ≤ c)%nat → i ≠ 0%nat →
  x ∈ cls grown i ↔ x ∈ cls m i ∨ (i = c ∧ x ∈ new_blocks).
Proof.
  intros Hc Hi. rewrite !cls_elem, grown_used, grown_free by done.
  rewrite (decide_False (P := i = 0%nat)) by done.
  case_decide; subst; [rewrite elem_of_app|]; naive_solver.
Qed.

Lemma grown_length i :
  (2 ≤ c)%nat → i ≠ 0%nat →
  length (cls grown i) = (length (cls m i) + if decide (i = c) then n else 0)%nat.
Proof.
  intros Hc Hi. unfold cls. rewrite !length_app, grown_used, grown_free by done.
  rewrite (decide_False (P := i = 0%nat)) by done.
  case_decide; subst; [|lia]. rewrite length_app. unfold new_blocks.
  rewrite length_fmap, length_seq. lia.
Qed.

Lemma grown_on_list s x :
  minv s m → is_class c → on_list grown x →
  on_list m x ∨ x = Blk ptr ∨ x ∈ new_blocks.
Proof.
  intros Hi Hc Ho. unfold is_class in Hc.
  destruct (minv_head s m c Hi) as [Hfc _]; [lia|].
  destruct (minv_head s m 0 Hi) as [Hf0 _]; [lia|].
  apply (on_list_insert _ _ (m !!! FreeL c)) in Ho.
  2: { by rewrite lookup_insert_ne by (intros [=]; lia). }
  destruct Ho as [[Ho|Ho]%elem_of_app|Ho].
  - left. exists (FreeL c), (m !!! FreeL c). set_solver.
  - auto.
  - apply (on_list_insert _ _ _ _ _ Hf0) in Ho as [[Ho|Ho]%elem_of_app|Ho].
    + left. exists (FreeL 0), (m !!! FreeL 0). set_solver.
    + set_solver.
    + auto.
Qed.
End grow.

(** ** Growing a class *)

Definition grow_flags (c : nat) : Z := Z.lor MEMBLK_SIGN (Z.of_nat c).

Lemma land_class c : is_class c → Z.land (Z.of_nat c) SIZE_MASK = Z.of_nat c.
Proof.
  intros Hc. unfold is_class in Hc. change SIZE_MASK with (Z.ones 16).
  rewrite Z.land_ones by lia. apply Z.mod_small. lia.
Qed.

(** The state [alloc_memblk] leaves, given the heap the list operations produce. *)
Definition grown_state (s : mh) (m : gmap maddr (list maddr)) (h : gmap maddr (dlist_head maddr))
    (c : nat) (ptr inc cnt : Z) : mh :=
  let bs := HDR + cls_size c in
  mk_mh h
    (carve_hdrs (Z.to_nat inc) (<[ptr := mk_hdr SUPER_BLOCK_SIGN 0 0]> (hdrs s))
       (grow_flags c) (ptr + HDR) bs)
    (mpool_used s)
    (<[c := Z.of_nat (length (m !!! FreeL c) + Z.to_nat inc)]> (mpool_free s))
    (mpool_max_used s) (<[c := cnt + 1]> (mpool_count s)) (mh_files s)
    ((ptr, HDR + bs * inc) :: blocks s) (mem s).

Section grow_inv.
Context (s : mh) (m : gmap maddr (list maddr)) (c : nat) (ptr inc cnt : Z)
  (h : gmap maddr (dlist_head maddr)).
Abbreviation bs := (HDR + cls_size c).
Abbreviation n := (Z.to_nat inc).
Abbreviation m' := (grown m c ptr bs n).
Abbreviation s' := (grown_state s m h c ptr inc cnt).
Context (Hi : minv s m) (Hc : is_class c) (Hinc : mpool_increase !! c = Some inc)
  (Hinc8 : 0 < inc ≤ 8) (Hcnt : mpool_count s !! c = Some cnt)
  (Hds : dlists h m') (Hptr : 0 < ptr)
  (Hap : ∀ b k, (b, k) ∈ blocks s → apart ptr (HDR + bs * inc) b k)
  (Htot : total_size (blocks s) + (HDR + bs * inc) < 4294967296).

Lemma c_ge_2 : (2 ≤ c)%nat.
Proof. unfold is_class in Hc. lia. Qed.

Lemma new_block_range k :
  (k < n)%nat → ptr + HDR ≤ blk_at (ptr + HDR) bs k
  ∧ blk_at (ptr + HDR) bs k + bs ≤ ptr + (HDR + bs * inc).
Proof.
  intros Hk. unfold blk_at. pose proof (cls_size_pos c).
  assert (Z.of_nat k + 1 ≤ inc) by lia. unfold HDR. nia.
Qed.

Lemma new_block_fresh k : (k < n)%nat → ¬ on_list m (Blk (blk_at (ptr + HDR) bs k)).
Proof.
  intros Hk. pose proof (new_block_range k Hk). pose proof (cls_size_pos c).
  eapply (fresh_block s m ptr); [done|done|]. unfold HDR in *. lia.
Qed.

Lemma old_block_apart d p : is_class d → Blk p ∈ cls m d →
  apart ptr (HDR + bs * inc) p (HDR + cls_size d).
Proof.
  intros Hd Hp. destruct (mi_blk _ _ Hi _ _ Hd Hp) as (q & r & [= <-] & _ & _ & b & k & Hb & ?).
  specialize (Hap _ _ Hb). unfold apart, HDR in *. pose proof (cls_size_pos d). lia.
Qed.

Lemma grown_hdr_old d p : is_class d → Blk p ∈ cls m d → hdrs s' !! p = hdrs s !! p.
Proof.
  intros Hd Hp. pose proof (old_block_apart d p Hd Hp) as Ha.
  pose proof (cls_size_pos c). pose proof (cls_size_pos d).
  cbn [hdrs grown_state]. rewrite carve_hdrs_old.
  - apply lookup_insert_ne. unfold apart, HDR in Ha. nia.
  - intros k Hk. pose proof (new_block_range k Hk). unfold apart, HDR in *. lia.
Qed.

Lemma grown_only x : on_list m' x → (∃ i, (i < 22)%nat ∧ (x = FreeL i ∨ x = UsedL i))
  ∨ x ∈ m' !!! FreeL 0 ∨ ∃ d, is_class d ∧ x ∈ cls m' d.
Proof.
  intros Ho. pose proof c_ge_2.
  apply (grown_on_list _ _ _ _ _ s) in Ho as [Ho|[->|Ho]]; [| | |done..].
  - destruct (mi_only _ _ Hi _ Ho) as [?|[Hx|(d & Hd & Hx)]]; [by left| |].
    + right. left. rewrite grown_free by done. rewrite decide_False by lia. set_solver.
    + right. right. exists d. split; [done|].
      apply grown_cls; [done|unfold is_class in Hd; lia|auto].
  - right. left. rewrite grown_free by done. rewrite decide_False by lia. set_solver.
  - right. right. exists c. split; [done|]. apply grown_cls; [done|lia|auto].
Qed.

Lemma grown_blk d x : is_class d → x ∈ cls m' d → ∃ p r, x = Blk p
  ∧ hdrs s' !! p = Some r ∧ flags r = Z.lor MEMBLK_SIGN (Z.of_nat d)
  ∧ ∃ b k, (b, k) ∈ blocks s' ∧ b + HDR ≤ p ∧ p + HDR + cls_size d ≤ b + k.
Proof.
  intros Hd Hx. apply grown_cls in Hx as [Hx|[-> Hx]];
    [| |apply c_ge_2|unfold is_class in Hd; lia].
  - destruct (mi_blk _ _ Hi _ _ Hd Hx) as (p & r & -> & Hp & Hf & b & k & Hb & ?).
    exists p, r. rewrite (grown_hdr_old d) by done. split; [done|]. split; [done|].
    split; [done|]. exists b, k. cbn. set_solver.
  - apply new_blocks_elem in Hx as (k & -> & Hk). pose proof (new_block_range k Hk).
    exists (blk_at (ptr + HDR) bs k), (mk_hdr (grow_flags c) 0 0).
    split; [done|]. split.
    { apply carve_hdrs_new; [|done]. pose proof (cls_size_pos c). unfold HDR. lia. }
    split; [done|]. exists ptr, (HDR + bs * inc). split; [cbn; set_solver|]. unfold HDR in *. lia.
Qed.

Lemma grown_apart d e p q :
  is_class d → is_class e → Blk p ∈ cls m' d → Blk q ∈ cls m' e → p ≠ q →
  apart p (HDR + cls_size d) q (HDR + cls_size e).
Proof.
  intros Hd He Hp Hq Hne. pose proof c_ge_2 as H2.
  apply grown_cls in Hp; [|done|unfold is_class in Hd; lia].
  apply grown_cls in Hq; [|done|unfold is_class in He; lia].
  rewrite new_blocks_elem in Hp, Hq.
  destruct Hp as [Hp|(-> & k & [= ->] & Hk)], Hq as [Hq|(-> & j & [= ->] & Hj)].
  - by apply (mi_apart _ _ Hi).
  - pose proof (old_block_apart d p Hd Hp). pose proof (new_block_range j Hj).
    unfold apart, HDR in *. lia.
  - pose proof (old_block_apart e q He Hq). pose proof (new_block_range k Hk).
    unfold apart, HDR in *. lia.
  - assert (k ≠ j) by congruence. unfold apart, blk_at. pose proof (cls_size_pos c).
    unfold HDR. assert (k < j ∨ j < k)%nat as [?|?] by lia; nia.
Qed.

Lemma minv_grown : minv s' m'.
Proof.
  pose proof c_ge_2 as H2. pose proof (cls_size_pos c) as Hcs.
  assert (Hc22 : (c < 22)%nat) by (unfold is_class in Hc; lia).
  assert (Hreq : 0 < HDR + bs * inc ∧ inc ≤ HDR + bs * inc) by (unfold HDR; nia).
  constructor.
  - done.
  - intros i Hlt. destruct (mi_dom _ _ Hi i Hlt) as [Hf Hu]. rewrite grown_free, grown_used by done.
    unfold grown. repeat case_decide; subst;
      rewrite ?lookup_insert_eq, ?lookup_insert_ne by congruence;
      rewrite ?lookup_insert_eq, ?lookup_insert_ne by congruence; done.
  - apply grown_only.
  - destruct (mi_low _ _ Hi) as [Hu0 Hc1]. rewrite grown_used. split; [done|].
    unfold cls in *. rewrite grown_used, grown_free by done.
    by rewrite !decide_False by lia.
  - apply (mi_lens _ _ Hi).
  - intros i Hlt. rewrite grown_free by done. cbn [mpool_free grown_state].
    pose proof (mi_free _ _ Hi i Hlt) as Hf. case_decide; [subst i|].
    + rewrite list_lookup_insert_eq by (by eapply lookup_lt_Some).
      unfold new_blocks. by rewrite length_app, length_fmap, length_seq.
    + rewrite list_lookup_insert_ne by done. by rewrite decide_False by lia.
  - intros i Hlt. rewrite grown_used. apply (mi_used _ _ Hi i Hlt).
  - intros i Hlt. destruct (mi_count _ _ Hi i Hlt) as (k & inc' & Hk & Hinc' & ? & Hkn & ?).
    rewrite grown_length by (done || lia). cbn [mpool_count blocks grown_state].
    rewrite total_size_cons. case_decide; [subst i|].
    + rewrite Hcnt in Hk. injection Hk as ->. rewrite Hinc in Hinc'. injection Hinc' as ->.
      exists (k + 1), inc'. rewrite list_lookup_insert_eq by (by eapply lookup_lt_Some).
      split; [done|]. split; [done|]. split; [lia|]. split; [nia|]. lia.
    + exists k, inc'. rewrite list_lookup_insert_ne by done.
      split; [done|]. split; [done|]. split; [lia|]. split; [lia|]. lia.
  - rewrite grown_free by done. rewrite decide_False by lia. rewrite decide_True by done.
    rewrite <- Permutation_cons_append. cbn. constructor. apply (mi_super _ _ Hi).
  - apply grown_blk.
  - apply grown_apart.
  - cbn. constructor; [cbn; lia|]. apply (mi_blocks _ _ Hi).
  - cbn. constructor; [|apply (mi_nodup _ _ Hi)]. intros Hin.
    apply list_elem_of_fmap in Hin as ([b k] & Hb & Hin). cbn in Hb. subst b.
    pose proof (Hap _ _ Hin). pose proof (mi_blocks _ _ Hi) as Hpos.
    rewrite Forall_forall in Hpos. specialize (Hpos _ Hin). cbn in Hpos. unfold apart in *. lia.
  - cbn. intros b k b' k' [[= -> ->]|Hb]%elem_of_cons [[= -> ->]|Hb']%elem_of_cons Hne.
    + done.
    + by apply Hap.
    + pose proof (Hap _ _ Hb). unfold apart in *. lia.
    + by apply (mi_disj _ _ Hi).
  - cbn [blocks grown_state]. rewrite total_size_cons. lia.
  - intros d Hd. pose proof (mi_bound _ _ Hi d Hd). cbn [blocks grown_state].
    rewrite total_size_cons, grown_length by (done || (unfold is_class in Hd; lia)).
    case_decide; lia.
Qed.
End grow_inv.

Section alloc.
Context (malloc : list (Z * Z) → Z → option Z) `{!MallocOK malloc}.

(** The size of the super block [alloc_memblk] asks for. *)
Definition super_size (c : nat) : Z :=
  HDR + (HDR + cls_size c) * default 0 (mpool_increase !! c).

Lemma alloc_memblk_none s c :
  is_class c → malloc (blocks s) (super_size c) = None → alloc_memblk malloc s c = Ok s.
Proof.
  intros Hc Hno. destruct (mpool_increase_class c Hc) as (inc & Hinc & H8).
  unfold super_size in Hno. rewrite Hinc in Hno. cbn [default id] in Hno.
  unfold alloc_memblk, get. rewrite Hinc. cbn [deref mbind res_bind].
  assert ((0 <? inc) = true) as -> by (apply Z.ltb_lt; lia). rewrite shiftl_cls.
  by rewrite Hno.
Qed.

Lemma alloc_memblk_spec s m c :
  minv s m → is_class c →
  (malloc (blocks s) (super_size c) = None ∧ alloc_memblk malloc s c = Ok s)
  ∨ ∃ h ptr inc cnt, alloc_memblk malloc s c = Ok (grown_state s m h c ptr inc cnt)
    ∧ 0 < inc ∧ 0 < ptr
    ∧ minv (grown_state s m h c ptr inc cnt) (grown m c ptr (HDR + cls_size c) (Z.to_nat inc))
    ∧ (∀ d p, is_class d → Blk p ∈ cls m d →
         hdrs (grown_state s m h c ptr inc cnt) !! p = hdrs s !! p).
Proof.
  intros Hi Hc. destruct (mpool_increase_class c Hc) as (inc & Hinc & H8).
  assert (Hc22 : (1 ≤ c < 22)%nat) by (unfold is_class in Hc; lia).
  destruct (mi_count _ _ Hi c Hc22) as (cnt & inc' & Hcnt & Hinc' & Hn0 & _ & Hnt).
  unfold super_size, alloc_memblk, get. rewrite Hinc. cbn [deref mbind res_bind default].
  assert ((0 <? inc) = true) as -> by (apply Z.ltb_lt; lia). rewrite shiftl_cls. cbn [id option_fmap].
  pose proof (cls_size_pos c) as Hcs. pose proof (mi_total _ _ Hi) as Htot.
  assert (Hreq : 0 < HDR + (HDR + cls_size c) * inc ∧ inc ≤ HDR + (HDR + cls_size c) * inc)
    by (unfold HDR; nia).
  destruct (malloc _ _) as [ptr|] eqn:E; [right|by left].
  apply malloc_ok in E as (Hp & _ & Hap & Ht); [|lia].
  set (s1 := with_blocks s _).
  assert (Hno : ¬ on_list m (Blk ptr)).
  { eapply (fresh_block s m ptr); [done|done|]. unfold HDR. nia. }
  destruct (init_block_spec s1 m ptr SUPER_BLOCK_SIGN (mi_dl _ _ Hi) Hno) as (h1 & E1 & Hd1 & Hm1).
  rewrite E1. cbn [mbind res_bind heap with_hdrs with_heap].
  destruct (minv_head s m 0 Hi ltac:(lia)) as [Hf0 _].
  destruct (minv_head s m c Hi ltac:(lia)) as [Hfc _].
  destruct (dlist_add_tail_spec h1 m (FreeL 0) _ (Blk ptr) Hd1 Hf0 Hno Hm1) as (h2 & E2 & Hd2 & _).
  rewrite E2. cbn [mbind res_bind]. unfold upd, get. cbn [mpool_count with_hdrs with_heap with_blocks s1].
  rewrite Hcnt. cbn [deref mbind res_bind mret res_ret].
  rewrite u32_id by (unfold is_u32; lia).
  set (s2 := with_count _ _). set (m1 := <[FreeL 0 := _]> m) in *.
  edestruct (carve_spec (Z.to_nat inc) s2 m1 c (ptr + HDR) (HDR + cls_size c) (m !!! FreeL c))
    as (h3 & E3 & Hd3).
  - exact Hd2.
  - subst m1. rewrite lookup_insert_ne; [done|]. intros [=]. lia.
  - lia.
  - unfold HDR. lia.
  - subst s2 s1. cbn. by apply (mi_free _ _ Hi).
  - pose proof (mi_bound _ _ Hi c Hc) as Hb. unfold cls in Hb. rewrite length_app in Hb. lia.
  - intros k Hk Ho. subst m1. apply (on_list_insert _ _ _ _ _ Hf0) in Ho as [Ho|Ho].
    + apply elem_of_app in Ho as [Ho|Ho].
      * eapply (new_block_fresh s m c ptr inc Hi H8 Hap k Hk).
        exists (FreeL 0), (m !!! FreeL 0). set_solver.
      * assert (blk_at (ptr + HDR) (HDR + cls_size c) k = ptr) as Hk' by set_solver.
        pose proof (new_block_range c ptr inc H8 k Hk). unfold HDR in *. lia.
    + by eapply (new_block_fresh s m c ptr inc Hi H8 Hap k Hk).
  - exists h3, ptr, inc, cnt. rewrite E3. rewrite land_class by done. split; [done|].
    split; [lia|]. split; [done|]. split; [apply minv_grown; done|].
    intros d p Hd Hpd. by apply (grown_hdr_old s m c ptr inc cnt h3 Hi H8 Hap d).
Qed.
End alloc.
