(* ===== verification/MemHelperProps.v ===== *)
(** * The memory helper: allocation and release

    The specifications of the operations on top of the invariant of
    [MemHelperInv], and the theorems on the whole module. *)

From stdpp Require Import base numbers gmap list strings.
From S2P Require Import Prelude Dlist MemHelper MemHelperInv.

#[global] Arguments alloc_memblk : simpl never.
#[global] Arguments memalloc : simpl never.
#[global] Arguments dlist_add : simpl never.
#[global] Arguments dlist_del : simpl never.
#[global] Arguments cls : simpl never.

(** ** Moving a block between the lists of its class *)

Section move.
Context (s s' : mh) (m : gmap maddr (list maddr)) (c : nat) (fl ul : list maddr).
Abbreviation m' := (<[UsedL c := ul]> (<[FreeL c := fl]> m)).
Context (Hi : minv s m) (Hc : is_class c) (Hperm : fl ++ ul ≡ₚ cls m c)
  (Hds : dlists (heap s') m') (Hh : hdrs s' = hdrs s) (Hb : blocks s' = blocks s)
  (Hcnt : mpool_count s' = mpool_count s)
  (Hf : mpool_free s' = <[c := Z.of_nat (length fl)]> (mpool_free s))
  (Hu : mpool_used s' = <[c := Z.of_nat (length ul)]> (mpool_used s))
  (Hmx : length (mpool_max_used s') = 22%nat).

Lemma moved_free i : m' !!! FreeL i = if decide (i = c) then fl else m !!! FreeL i.
Proof.
  rewrite lookup_total_insert_ne by congruence. case_decide; subst.
  - by rewrite lookup_total_insert_eq.
  - by rewrite lookup_total_insert_ne by congruence.
Qed.

Lemma moved_used i : m' !!! UsedL i = if decide (i = c) then ul else m !!! UsedL i.
Proof.
  case_decide; subst.
  - by rewrite lookup_total_insert_eq.
  - by rewrite !lookup_total_insert_ne by congruence.
Qed.

Lemma moved_cls i : cls m' i ≡ₚ cls m i.
Proof.
  unfold cls in *. rewrite moved_free, moved_used. case_decide; by subst.
Qed.

Lemma moved_on_list x : on_list m' x → on_list m x.
Proof.
  destruct (minv_head s m c Hi) as [Hfc Huc]; [unfold is_class in Hc; lia|].
  intros Ho. apply (on_list_insert _ _ (m !!! UsedL c)) in Ho.
  2: { by rewrite lookup_insert_ne by congruence. }
  assert (Hx : x ∈ fl ++ ul → on_list m x).
  { rewrite Hperm, cls_elem.
    intros [?|?]; [exists (FreeL c), (m !!! FreeL c)|exists (UsedL c), (m !!! UsedL c)]; set_solver. }
  destruct Ho as [Ho|Ho]; [apply Hx; set_solver|].
  apply (on_list_insert _ _ _ _ _ Hfc) in Ho as [Ho|Ho]; [apply Hx; set_solver|done].
Qed.

Lemma minv_moved : minv s' m'.
Proof.
  assert (Hc22 : (1 ≤ c < 22)%nat ∧ c ≠ 0%nat ∧ c ≠ 1%nat) by (unfold is_class in Hc; lia).
  constructor; rewrite ?Hh, ?Hb, ?Hcnt, ?Hf, ?Hu.
  - done.
  - intros i Hlt. destruct (mi_dom _ _ Hi i Hlt) as [Hfi Hui]. rewrite moved_free, moved_used.
    case_decide; subst; rewrite ?lookup_insert_eq, ?lookup_insert_ne by congruence;
      rewrite ?lookup_insert_eq, ?lookup_insert_ne by congruence; done.
  - intros x Ho. apply moved_on_list in Ho. rewrite moved_free, decide_False by lia.
    destruct (mi_only _ _ Hi _ Ho) as [?|[?|(d & ? & ?)]]; [by left|right; by left|].
    right. right. exists d. by rewrite moved_cls.
  - destruct (mi_low _ _ Hi) as [? ?]. rewrite moved_used, decide_False by lia.
    unfold cls in *. rewrite moved_used, moved_free, !decide_False by lia. done.
  - done.
  - intros i Hlt. rewrite moved_free. case_decide; [subst i|].
    + rewrite list_lookup_insert_eq; [done|].
      eapply lookup_lt_Some, (mi_free _ _ Hi c). lia.
    + rewrite list_lookup_insert_ne by done. by apply (mi_free _ _ Hi).
  - intros i Hlt. rewrite moved_used. case_decide; [subst i|].
    + rewrite list_lookup_insert_eq; [done|].
      eapply lookup_lt_Some, (mi_used _ _ Hi c). lia.
    + rewrite list_lookup_insert_ne by done. by apply (mi_used _ _ Hi).
  - intros i Hlt. rewrite (Permutation_length (moved_cls i)). by apply (mi_count _ _ Hi).
  - rewrite moved_free, decide_False by lia. apply (mi_super _ _ Hi).
  - intros d x Hd. rewrite moved_cls. by apply (mi_blk _ _ Hi).
  - intros d e p q Hd He. rewrite !moved_cls. by apply (mi_apart _ _ Hi).
  - apply (mi_blocks _ _ Hi).
  - apply (mi_nodup _ _ Hi).
  - apply (mi_disj _ _ Hi).
  - apply (mi_total _ _ Hi).
  - intros d Hd. rewrite (Permutation_length (moved_cls d)). by apply (mi_bound _ _ Hi).
Qed.
End move.

(** ** [memalloc] *)

(** Blocks in use, with the part of the state a user of the module sees. *)
Definition in_use (m : gmap maddr (list maddr)) (c : nat) (p : Z) : Prop :=
  is_class c ∧ Blk p ∈ m !!! UsedL c.

(** [p] becomes a block in use of class [c]; every other block keeps its state,
    its header and its contents. *)
Record took (s s' : mh) (m m' : gmap maddr (list maddr)) (c : nat) (p : Z) : Prop := {
  tk_inv : minv s' m';
  tk_new : ∀ d, ¬ in_use m d p;
  tk_use : ∀ d q, in_use m' d q ↔ in_use m d q ∨ (d = c ∧ q = p);
  tk_hdr : ∀ d q, in_use m d q → hdrs s' !! q = hdrs s !! q;
  tk_mem : mem s' = mem s;
  tk_pos : 0 < p }.

Lemma minv_cls_unique s m c d p :
  minv s m → is_class c → is_class d → Blk p ∈ cls m c → Blk p ∈ cls m d → c = d.
Proof.
  intros Hi Hc Hd Hpc Hpd.
  destruct (mi_blk _ _ Hi _ _ Hc Hpc) as (? & r & [= <-] & Hr & Hf & _).
  destruct (mi_blk _ _ Hi _ _ Hd Hpd) as (? & r' & [= <-] & Hr' & Hf' & _).
  rewrite Hr in Hr'. injection Hr' as <-. rewrite Hf in Hf'.
  unfold is_class in *. clear -Hf' Hc Hd.
  assert (∀ k, (k < 22)%nat → Z.land (Z.lor MEMBLK_SIGN (Z.of_nat k)) SIZE_MASK = Z.of_nat k) as H.
  { intros k Hk. do 22 (destruct k as [|k]; [done|]). lia. }
  pose proof (H c ltac:(lia)). pose proof (H d ltac:(lia)). rewrite Hf' in *. lia.
Qed.

Lemma dlists_lookup_first s m c x l :
  minv s m → (c < 22)%nat → m !!! FreeL c = x :: l →
  ∃ n, dlist_empty (heap s) (FreeL c) = Ok false ∧ load (heap s) (FreeL c) = Ok n ∧ next n = x.
Proof.
  intros Hi Hc Hl. destruct (minv_head s m c Hi Hc) as [Hf _].
  pose proof (dlists_empty_spec _ _ _ _ (mi_dl _ _ Hi) Hf) as E.
  destruct (dlists_first _ _ _ _ (mi_dl _ _ Hi) Hf) as (n & En & Hn).
  exists n. rewrite E, Hl in *. done.
Qed.

Lemma minv_block_pos s m c p : minv s m → is_class c → Blk p ∈ cls m c → 0 < p.
Proof.
  intros Hi Hc Hp. destruct (mi_blk _ _ Hi _ _ Hc Hp) as (q & r & [= <-] & _ & _ & b & k & Hb & ? & _).
  pose proof (mi_blocks _ _ Hi) as Hpos. rewrite Forall_forall in Hpos.
  specialize (Hpos _ Hb). cbn in Hpos. unfold HDR in *. lia.
Qed.

Lemma length_bound s m c l :
  minv s m → is_class c → l ≡ₚ cls m c → Z.of_nat (length l) < 4294967296.
Proof.
  intros Hi Hc ->. pose proof (mi_bound _ _ Hi c Hc). pose proof (mi_total _ _ Hi). lia.
Qed.

Lemma memalloc_take_spec s m c x l :
  minv s m → is_class c → m !!! FreeL c = x :: l →
  ∃ p s', x = Blk p ∧ memalloc_take s c = Ok (Some p, s')
    ∧ minv s' (<[UsedL c := Blk p :: m !!! UsedL c]> (<[FreeL c := l]> m))
    ∧ hdrs s' = hdrs s ∧ mem s' = mem s ∧ mh_files s' = mh_files s ∧ blocks s' = blocks s.
Proof.
  intros Hi Hc Hl. assert (Hc22 : (1 ≤ c < 22)%nat) by (unfold is_class in Hc; lia).
  destruct (minv_head s m c Hi ltac:(lia)) as [Hf Hu]. rewrite Hl in Hf.
  destruct (dlists_lookup_first s m c x l Hi ltac:(lia) Hl) as (n & E1 & E2 & Hn).
  assert (Hx : x ∈ cls m c) by (rewrite cls_elem, Hl; set_solver).
  destruct (mi_blk _ _ Hi c x Hc Hx) as (p & _ & -> & _).
  destruct (dlists_move (heap s) m (FreeL c) [] (Blk p) l (UsedL c) _ (mi_dl _ _ Hi)
    ltac:(done) Hf Hu) as (h1 & h2 & E3 & E4 & Hds).
  pose proof (mi_free _ _ Hi c Hc22) as Hcf. pose proof (mi_used _ _ Hi c Hc22) as Hcu.
  destruct (lookup_lt_is_Some_2 (mpool_max_used s) c) as [mx Hmx]; [rewrite (mi_lens _ _ Hi); lia|].
  assert (Hperm : l ++ Blk p :: m !!! UsedL c ≡ₚ cls m c).
  { unfold cls. rewrite Hl. cbn. by rewrite Permutation_middle. }
  pose proof (length_bound s m c _ Hi Hc Hperm) as Hlen. rewrite length_app in Hlen. cbn in Hlen.
  exists p. unfold memalloc_take, free_head, used_head.
  rewrite !decide_True by (unfold MEM_POOLS_COUNT; lia). cbn [mbind res_bind].
  rewrite E1. cbn [mbind res_bind]. rewrite E2. cbn [mbind res_bind]. rewrite Hn, E3.
  cbn [mbind res_bind]. unfold upd, get. rewrite Hcf. cbn [deref mbind res_bind mret res_ret].
  rewrite E4. cbn [mbind res_bind]. rewrite Hcu. cbn [deref mbind res_bind mret res_ret].
  rewrite list_lookup_insert_eq by (by eapply lookup_lt_Some).
  cbn [deref mbind res_bind]. rewrite Hmx. cbn [deref mbind res_bind blk_entry mret res_ret].
  eexists. split; [done|]. split; [done|]. split; [|done].
  eapply (minv_moved s); try done; cbn [heap mpool_free mpool_used mpool_max_used with_heap
    with_free with_used with_max_used].
  - rewrite Hl. f_equal. rewrite u32_id; cbn; unfold is_u32; lia.
  - f_equal. rewrite u32_id; cbn; unfold is_u32; lia.
  - pose proof (mi_lens _ _ Hi). case_match; [by rewrite length_insert|done].
Qed.

Lemma took_first s s' m c p l :
  minv s m → is_class c → m !!! FreeL c = Blk p :: l →
  minv s' (<[UsedL c := Blk p :: m !!! UsedL c]> (<[FreeL c := l]> m)) →
  hdrs s' = hdrs s → mem s' = mem s →
  took s s' m (<[UsedL c := Blk p :: m !!! UsedL c]> (<[FreeL c := l]> m)) c p.
Proof.
  intros Hi Hc Hl Hi' Hh Hm.
  assert (Hp : Blk p ∈ cls m c) by (rewrite cls_elem, Hl; set_solver).
  destruct (minv_head s m c Hi) as [Hf Hu]; [unfold is_class in Hc; lia|].
  constructor; try done.
  - intros d [Hd Hin].
    assert (d = c) as ->.
    { apply (minv_cls_unique s m d c p); try done. rewrite cls_elem. auto. }
    enough (FreeL c = UsedL c) by done.
    eapply (proj2 (mi_dl _ _ Hi) _ _ _ _ (Blk p)); [exact Hf|exact Hu|rewrite Hl; set_solver|set_solver].
  - intros d q. unfold in_use. rewrite moved_used. case_decide; subst.
    + rewrite elem_of_cons. naive_solver.
    + naive_solver.
  - intros d q _. by rewrite Hh.
  - by apply (minv_block_pos s m c p).
Qed.

(** Headers may change as long as the blocks keep their flags. *)
Lemma minv_hdrs s s' m :
  minv s m → heap s' = heap s → mpool_used s' = mpool_used s → mpool_free s' = mpool_free s →
  mpool_max_used s' = mpool_max_used s → mpool_count s' = mpool_count s → blocks s' = blocks s →
  (∀ p r, hdrs s !! p = Some r → ∃ r', hdrs s' !! p = Some r' ∧ flags r' = flags r) →
  minv s' m.
Proof.
  intros [] Hh Hu Hf Hm Hc Hb Hr. constructor; rewrite ?Hh, ?Hu, ?Hf, ?Hm, ?Hc, ?Hb; try done.
  intros c x Hcl Hx. destruct (mi_blk c x Hcl Hx) as (p & r & -> & Hp & Hfl & Hrest).
  destruct (Hr p r Hp) as (r' & Hp' & Hfl'). rewrite <- Hfl' in Hfl. eauto 10.
Qed.

Lemma memblk_tracking_spec s p r f ln :
  hdrs s !! p = Some r →
  let i := find_file (mh_files s) f in
  ∃ s', memblk_tracking s p f ln = Ok s'
    ∧ hdrs s' = <[p := mk_hdr (flags r) (Z.of_nat i) ln]> (hdrs s)
    ∧ heap s' = heap s ∧ mpool_used s' = mpool_used s ∧ mpool_free s' = mpool_free s
    ∧ mpool_max_used s' = mpool_max_used s ∧ mpool_count s' = mpool_count s
    ∧ blocks s' = blocks s ∧ mem s' = mem s.
Proof.
  intros Hp i. unfold memblk_tracking. fold i.
  case_decide; cbn [hdrs with_files]; rewrite Hp; cbn; eauto 10.
Qed.

Lemma took_tracking s s1 m m' c p f ln :
  took s s1 m m' c p → Blk p ∈ cls m' c → is_class c →
  ∃ s', memblk_tracking s1 p f ln = Ok s' ∧ took s s' m m' c p
    ∧ ∃ r, hdrs s' !! p = Some r ∧ line r = ln.
Proof.
  intros [Hi Hnew Huse Hh Hm Hpos] Hp Hc.
  destruct (mi_blk _ _ Hi _ _ Hc Hp) as (? & r & [= <-] & Hr & _).
  destruct (memblk_tracking_spec s1 p r f ln Hr)
    as (s' & E & H1 & H2 & H3 & H4 & H5 & H6 & H7 & H8).
  exists s'. split; [done|]. split.
  - constructor; try done.
    + eapply minv_hdrs; eauto. intros q r' Hq. rewrite H1.
      destruct (decide (q = p)) as [->|].
      * rewrite lookup_insert_eq. rewrite Hr in Hq. injection Hq as <-. eauto.
      * rewrite lookup_insert_ne by done. eauto.
    + intros d q Hd. rewrite H1, lookup_insert_ne; [by apply (Hh d)|].
      intros <-. by eapply Hnew.
    + by rewrite H8.
  - rewrite H1, lookup_insert_eq. eauto.
Qed.

Section alloc_ops.
Context (malloc : list (Z * Z) → Z → option Z) `{!MallocOK malloc}.

Lemma memalloc_spec s m c :
  minv s m → is_class c →
  (memalloc malloc s c = Ok (None, s) ∧ m !!! FreeL c = []
     ∧ malloc (blocks s) (super_size c) = None)
  ∨ ∃ p s' m', memalloc malloc s c = Ok (Some p, s') ∧ took s s' m m' c p
      ∧ Blk p ∈ cls m' c ∧ mh_files s' = mh_files s.
Proof.
  intros Hi Hc. assert (Hc22 : (c < 22)%nat) by (unfold is_class in Hc; lia).
  destruct (minv_head s m c Hi Hc22) as [Hf _].
  pose proof (dlists_empty_spec _ _ _ _ (mi_dl _ _ Hi) Hf) as E.
  unfold memalloc, free_head. rewrite decide_True by (unfold MEM_POOLS_COUNT; lia).
  cbn [mbind res_bind]. rewrite E. cbn [mbind res_bind].
  destruct (m !!! FreeL c) as [|x l] eqn:Hl.
  - rewrite bool_decide_true by done.
    destruct (alloc_memblk_spec malloc s m c Hi Hc)
      as [[Hn E2]|(h & ptr & inc & cnt & E2 & Hinc & Hptr & Hi2 & Hold)];
      rewrite E2; cbn [mbind res_bind].
    + left. unfold memalloc_take, free_head. rewrite decide_True by (unfold MEM_POOLS_COUNT; lia).
      cbn [mbind res_bind]. rewrite E. cbn [mbind res_bind]. by rewrite bool_decide_true.
    + right. set (s2 := grown_state _ _ _ _ _ _ _) in *. set (m2 := grown _ _ _ _ _) in *.
      assert (Hc2 : (2 ≤ c)%nat) by (unfold is_class in Hc; lia).
      assert (Hl2 : m2 !!! FreeL c = new_blocks ptr (HDR + cls_size c) (Z.to_nat inc)).
      { subst m2. rewrite grown_free, decide_True by done. by rewrite Hl. }
      destruct (Z.to_nat inc) as [|k] eqn:Hk; [lia|]. unfold new_blocks in Hl2.
      rewrite seq_blk_S in Hl2.
      destruct (memalloc_take_spec s2 m2 c _ _ Hi2 Hc Hl2)
        as (p & s' & [= <-] & E3 & Hi3 & Hh & Hm & Hfl & _).
      eexists _, s', _. split; [exact E3|].
      pose proof (took_first s2 s' m2 c _ _ Hi2 Hc Hl2 Hi3 Hh Hm) as T.
      assert (HU : ∀ d q, in_use m2 d q ↔ in_use m d q).
      { intros d q. unfold in_use. subst m2. by rewrite grown_used. }
      split; [|split; [|done]].
      * destruct T as [T1 T2 T3 T4 T5 T6]. constructor; try done.
        -- intros d. rewrite <- HU. apply T2.
        -- intros d q. rewrite <- HU. apply T3.
        -- intros d q Hd. rewrite (T4 d q) by (by apply HU). apply (Hold d); [apply Hd|].
           rewrite cls_elem. right. apply Hd.
      * rewrite cls_elem. right. rewrite moved_used, decide_True by done. set_solver.
  - rewrite bool_decide_false by done. cbn [mbind res_bind mret res_ret]. right.
    destruct (memalloc_take_spec s m c _ _ Hi Hc Hl)
      as (p & s' & -> & E3 & Hi3 & Hh & Hm & Hfl & _).
    exists p, s'. eexists. split; [exact E3|]. split; [by apply took_first|].
    rewrite cls_elem, moved_used, decide_True by done. set_solver.
Qed.

Lemma memalloc_refused s m c :
  minv s m → is_class c → m !!! FreeL c = [] → malloc (blocks s) (super_size c) = None →
  memalloc malloc s c = Ok (None, s).
Proof.
  intros Hi Hc Hl Hno. assert (Hc22 : (c < 22)%nat) by (unfold is_class in Hc; lia).
  destruct (minv_head s m c Hi Hc22) as [Hf _].
  pose proof (dlists_empty_spec _ _ _ _ (mi_dl _ _ Hi) Hf) as E. rewrite Hl in E.
  rewrite bool_decide_true in E by done.
  unfold memalloc, memalloc_take, free_head. rewrite decide_True by (unfold MEM_POOLS_COUNT; lia).
  cbn [mbind res_bind]. rewrite E. cbn [mbind res_bind].
  rewrite alloc_memblk_none by done. cbn [mbind res_bind]. by rewrite E.
Qed.

(** A class that cannot serve a request: no free block and no memory for more. *)
Definition refuses (s : mh) (m : gmap maddr (list maddr)) (c : nat) : Prop :=
  m !!! FreeL c = [] ∧ malloc (blocks s) (super_size c) = None.

Lemma malloc_from_spec n s m i size f ln :
  minv s m → (3 ≤ i)%nat → (i + n = 22)%nat →
  (malloc_from malloc n s i size f ln = Ok (0, s)
     ∧ ∀ c, (i ≤ c < 22)%nat → size ≤ cls_size c → refuses s m c)
  ∨ ∃ c p s' m', malloc_from malloc n s i size f ln = Ok (MEMPTR p, s')
      ∧ (i ≤ c < 22)%nat ∧ size ≤ cls_size c ∧ took s s' m m' c p
      ∧ (∃ r, hdrs s' !! p = Some r ∧ line r = ln)
      ∧ ∀ d, (i ≤ d < c)%nat → size ≤ cls_size d → refuses s m d.
Proof.
  revert i. induction n as [|n IH]; intros i Hi Hi3 Hn.
  { left. split; [done|]. intros. lia. }
  cbn [malloc_from]. rewrite shiftl_cls.
  assert (Hc : is_class i) by (unfold is_class; lia).
  destruct (Z.leb_spec size (cls_size i)) as [Hle|Hgt].
  - destruct (memalloc_spec s m i Hi Hc) as [(E & Hnil & Hno)|(p & s1 & m1 & E & Ht & Hp & _)];
      rewrite E; cbn [mbind res_bind].
    + destruct (IH (S i) Hi) as [[E2 Hr]|(c & p & s' & m' & E2 & Hc' & Hsz & Ht & Hl & Hr)]; [lia..| |].
      * left. split; [done|]. intros c Hc'. destruct (decide (c = i)) as [->|]; [done|].
        apply Hr. lia.
      * right. exists c, p, s', m'. split; [done|]. split; [lia|]. do 3 (split; [done|]).
        intros d Hd Hsd. destruct (decide (d = i)) as [->|]; [done|]. apply Hr; [lia|done].
    + destruct (took_tracking s s1 m m1 i p f ln Ht Hp Hc) as (s' & E2 & Ht' & Hl).
      rewrite E2. right. exists i, p, s', m1. cbn. split; [done|]. split; [lia|].
      do 3 (split; [done|]). lia.
  - destruct (IH (S i) Hi) as [[E2 Hr]|(c & p & s' & m' & E2 & Hc' & Hsz & Ht & Hl & Hr)]; [lia..| |].
    + left. split; [done|]. intros c Hc'. destruct (decide (c = i)) as [->|]; [lia|]. apply Hr. lia.
    + right. exists c, p, s', m'. split; [done|]. split; [lia|]. do 3 (split; [done|]).
      intros d Hd Hsd. destruct (decide (d = i)) as [->|]; [lia|]. apply Hr; [lia|done].
Qed.
End alloc_ops.

(** ** Release *)

Lemma is_dlist_length_size (h : gmap maddr (dlist_head maddr)) head l :
  is_dlist h head l → (length l ≤ size h)%nat.
Proof.
  intros Hd. pose proof (is_dlist_nodup _ _ _ Hd) as [_ Hnd]%NoDup_cons.
  rewrite <- size_dom, <- (size_list_to_set (C := gset maddr)) by done.
  apply subseteq_size. intros x Hx. rewrite elem_of_list_to_set in Hx.
  apply elem_of_dom, (is_dlist_mapped _ _ _ _ Hd). set_solver.
Qed.

Lemma is_entry_in_used_spec fuel h head l1 l2 target :
  is_dlist h head (l1 ++ l2) → (length l2 ≤ fuel)%nat → target ≠ head →
  is_entry_in_used fuel h head (hd head l2) target = Ok (bool_decide (target ∈ l2)).
Proof.
  revert fuel l1. induction l2 as [|x l2 IH]; intros fuel l1 Hd Hf Ht.
  - destruct fuel; cbn; by rewrite decide_True, bool_decide_false by (done || set_solver).
  - destruct fuel as [|fuel]; cbn in Hf; [lia|]. cbn [hd is_entry_in_used].
    pose proof (is_dlist_nodup _ _ _ Hd) as [Hnd _]%NoDup_cons.
    rewrite decide_False by set_solver.
    destruct (decide (x = target)) as [->|Hne]; [by rewrite bool_decide_true by set_solver|].
    rewrite (is_dlist_entry _ _ _ _ _ Hd). cbn [mbind res_bind next].
    rewrite (IH fuel (l1 ++ [x])); [|by rewrite <- app_assoc|lia|done].
    f_equal. apply bool_decide_ext. set_solver.
Qed.

Lemma blk_flags c :
  is_class c → Z.land (Z.lor MEMBLK_SIGN (Z.of_nat c)) SIZE_MASK = Z.of_nat c
    ∧ Z.land (Z.lor MEMBLK_SIGN (Z.of_nat c)) SIGN_MASK = MEMBLK_SIGN.
Proof.
  unfold is_class. intros Hc. do 22 (destruct c as [|c]; [done|]). lia.
Qed.

Lemma block_checks s m c p :
  minv s m → is_class c → Blk p ∈ cls m c →
  ∃ r, hdrs s !! p = Some r ∧ MEMBLK_CHECK r = true ∧ MEMBLK_SIZE r = c.
Proof.
  intros Hi Hc Hp. destruct (mi_blk _ _ Hi _ _ Hc Hp) as (? & r & [= <-] & Hr & Hf & _).
  exists r. unfold MEMBLK_CHECK, MEMBLK_SIZE. rewrite Hf.
  destruct (blk_flags c Hc) as [-> ->]. split; [done|]. split; [done|lia].
Qed.

(** The block [p] of class [c] is free again; nothing else changes. *)
Record gave (s s' : mh) (m m' : gmap maddr (list maddr)) (c : nat) (p : Z) : Prop := {
  gv_inv : minv s' m';
  gv_use : ∀ d q, in_use m' d q ↔ in_use m d q ∧ q ≠ p;
  gv_first : ∃ l, m' !!! FreeL c = Blk p :: l;
  gv_hdr : hdrs s' = hdrs s;
  gv_mem : mem s' = mem s }.

Lemma memfree_walk s m c p :
  minv s m → is_class c →
  ∃ n, load (heap s) (UsedL c) = Ok n
    ∧ is_entry_in_used (size (heap s)) (heap s) (UsedL c) (next n) (Blk p)
      = Ok (bool_decide (Blk p ∈ m !!! UsedL c)).
Proof.
  intros Hi Hc. destruct (minv_head s m c Hi) as [_ Hu]; [unfold is_class in Hc; lia|].
  destruct (dlists_first _ _ _ _ (mi_dl _ _ Hi) Hu) as (n & En & Hn).
  pose proof (dlists_is _ _ _ _ (mi_dl _ _ Hi) Hu) as Hd.
  exists n. split; [done|]. rewrite Hn.
  by apply (is_entry_in_used_spec _ _ _ [] _); [|eapply is_dlist_length_size|].
Qed.

Lemma memfree_spec s m c p :
  minv s m → is_class c → Blk p ∈ cls m c →
  (Blk p ∈ m !!! UsedL c ∧ ∃ s' m', memfree s p = Ok (true, s') ∧ gave s s' m m' c p)
  ∨ ((Blk p ∉ m !!! UsedL c) ∧ memfree s p = Ok (false, s)).
Proof.
  intros Hi Hc Hp. assert (Hc22 : (1 ≤ c < 22)%nat) by (unfold is_class in Hc; lia).
  destruct (block_checks s m c p Hi Hc Hp) as (r & Hr & _ & Hs).
  destruct (memfree_walk s m c p Hi Hc) as (n & En & Ew).
  unfold memfree, used_head, free_head. rewrite Hr. cbn [deref mbind res_bind]. rewrite Hs.
  rewrite !decide_True by (unfold MEM_POOLS_COUNT; lia). cbn [mbind res_bind].
  rewrite En. cbn [mbind res_bind]. rewrite Ew. cbn [mbind res_bind].
  case_bool_decide as Hin; [left|by right]. split; [done|].
  destruct (minv_head s m c Hi ltac:(lia)) as [Hf Hu].
  apply list_elem_of_split in Hin as (l1 & l2 & Hl). rewrite Hl in Hu.
  destruct (dlists_move (heap s) m (UsedL c) l1 (Blk p) l2 (FreeL c) _ (mi_dl _ _ Hi)
    ltac:(done) Hu Hf) as (h1 & h2 & E3 & E4 & Hds).
  rewrite insert_insert_ne in Hds by done.
  pose proof (mi_free _ _ Hi c Hc22) as Hcf. pose proof (mi_used _ _ Hi c Hc22) as Hcu.
  assert (Hperm : (Blk p :: m !!! FreeL c) ++ l1 ++ l2 ≡ₚ cls m c).
  { unfold cls. rewrite Hl. solve_Permutation. }
  pose proof (length_bound s m c _ Hi Hc Hperm) as Hlen. rewrite !length_app in Hlen. cbn in Hlen.
  rewrite E3. cbn [mbind res_bind]. unfold upd, get. rewrite Hcu. cbn [deref mbind res_bind mret res_ret].
  rewrite E4. cbn [mbind res_bind]. rewrite Hcf. cbn [deref mbind res_bind mret res_ret].
  eexists _, _. split; [done|].
  set (s' := with_free _ _).
  assert (Hi' : minv s' (<[UsedL c := l1 ++ l2]> (<[FreeL c := Blk p :: m !!! FreeL c]> m))).
  { subst s'. eapply (minv_moved s); try done; cbn [heap mpool_free mpool_used mpool_max_used
      with_heap with_free with_used].
    - f_equal. rewrite u32_id; cbn; unfold is_u32; lia.
    - f_equal. rewrite Hl. rewrite u32_id; rewrite ?length_app; cbn; unfold is_u32; lia.
    - apply (mi_lens _ _ Hi). }
  constructor; try done.
  - intros d q. unfold in_use. rewrite moved_used. case_decide; [subst d|].
    + rewrite Hl. pose proof (is_dlist_nodup _ _ _ (dlists_is _ _ _ _ (mi_dl _ _ Hi) Hu))
        as [_ Hnd]%NoDup_cons. rewrite <- Permutation_middle in Hnd.
      apply NoDup_cons in Hnd as [Hnd _]. split; [|set_solver].
      intros [? Hq]. split; [set_solver|]. by intros ->.
    + split; [|naive_solver]. intros [Hd Hq]. split; [done|]. intros ->.
      enough (d = c) by done. apply (minv_cls_unique s m d c p); try done.
      rewrite cls_elem. auto.
  - rewrite moved_free, decide_True by done. eauto.
Qed.

Lemma mh_free_spec s m c p :
  minv s m → is_class c → Blk p ∈ cls m c →
  (in_use m c p ∧ ∃ s' m', mh_free s (MEMPTR p) = Ok (true, s') ∧ gave s s' m m' c p)
  ∨ (¬ in_use m c p ∧ mh_free s (MEMPTR p) = Ok (false, s)).
Proof.
  intros Hi Hc Hp. pose proof (minv_block_pos s m c p Hi Hc Hp) as Hpos.
  destruct (block_checks s m c p Hi Hc Hp) as (r & Hr & Hk & _).
  unfold mh_free, MEMPTR, MEMHDR. rewrite decide_False by (unfold HDR; lia).
  replace (p + HDR - HDR) with p by lia. rewrite Hr. cbn [deref mbind res_bind]. rewrite Hk.
  destruct (memfree_spec s m c p Hi Hc Hp) as [[Hu ?]|[Hu E]]; [left|right]; [done|].
  split; [|done]. intros [_ ?]. done.
Qed.
