(* ===== verification/MemHelperApi.v ===== *)
(** * The memory helper: the theorems

    The interface of the module as a transition system, and the theorems that
    hold in every state it can reach. *)

From stdpp Require Import base numbers gmap list strings pretty.
From S2P Require Import Prelude Dlist MemHelper MemHelperInv MemHelperProps.

#[global] Arguments mh_free : simpl never.
#[global] Arguments mh_malloc : simpl never.
#[global] Arguments memcpy : simpl never.
#[global] Arguments memset : simpl never.

(** ** Blocks, read off the lists of a state *)

Definition used_list (s : mh) (c : nat) : res (list maddr) :=
  dlist_entries (size (heap s)) (heap s) (UsedL c).
Definition free_list (s : mh) (c : nat) : res (list maddr) :=
  dlist_entries (size (heap s)) (heap s) (FreeL c).

(** The block with header at [p] is in use, or free, in class [c]. *)
Definition used_at (s : mh) (c : nat) (p : Z) : Prop :=
  is_class c ∧ ∃ l, used_list s c = Ok l ∧ Blk p ∈ l.
Definition free_at (s : mh) (c : nat) (p : Z) : Prop :=
  is_class c ∧ ∃ l, free_list s c = Ok l ∧ Blk p ∈ l.

Lemma used_list_spec s m c : minv s m → (c < 22)%nat → used_list s c = Ok (m !!! UsedL c).
Proof.
  intros Hi Hc. destruct (minv_head s m c Hi Hc) as [_ Hu].
  pose proof (dlists_is _ _ _ _ (mi_dl _ _ Hi) Hu) as Hd.
  apply dlist_entries_spec; [done|]. by eapply is_dlist_length_size.
Qed.

Lemma free_list_spec s m c : minv s m → (c < 22)%nat → free_list s c = Ok (m !!! FreeL c).
Proof.
  intros Hi Hc. destruct (minv_head s m c Hi Hc) as [Hu _].
  pose proof (dlists_is _ _ _ _ (mi_dl _ _ Hi) Hu) as Hd.
  apply dlist_entries_spec; [done|]. by eapply is_dlist_length_size.
Qed.

Lemma used_at_spec s m c p : minv s m → used_at s c p ↔ in_use m c p.
Proof.
  intros Hi. unfold used_at, in_use. split.
  - intros [Hc (l & E & Hl)]. rewrite (used_list_spec s m) in E by (done || (unfold is_class in Hc; lia)).
    injection E as <-. done.
  - intros [Hc Hl]. split; [done|]. rewrite (used_list_spec s m) by (done || (unfold is_class in Hc; lia)).
    eauto.
Qed.

Lemma free_at_spec s m c p : minv s m → free_at s c p ↔ is_class c ∧ Blk p ∈ m !!! FreeL c.
Proof.
  intros Hi. unfold free_at. split.
  - intros [Hc (l & E & Hl)]. rewrite (free_list_spec s m) in E by (done || (unfold is_class in Hc; lia)).
    injection E as <-. done.
  - intros [Hc Hl]. split; [done|]. rewrite (free_list_spec s m) by (done || (unfold is_class in Hc; lia)).
    eauto.
Qed.

Lemma block_of_class s m c p :
  minv s m → used_at s c p ∨ free_at s c p → is_class c ∧ Blk p ∈ cls m c.
Proof.
  intros Hi. rewrite (used_at_spec s m), (free_at_spec s m), cls_elem by done.
  unfold in_use. naive_solver.
Qed.

(** ** Initialisation *)

(** [m] with empty lists for the classes of [l]. *)
Definition empty_from (m : gmap maddr (list maddr)) (l : list nat) : gmap maddr (list maddr) :=
  foldl (λ m i, <[UsedL i := []]> (<[FreeL i := []]> m)) m l.

Lemma empty_from_lookup m l x :
  empty_from m l !! x = match x with
    | FreeL i | UsedL i => if decide (i ∈ l) then Some [] else m !! x
    | _ => m !! x end.
Proof.
  revert m. induction l as [|i l IH]; intros m.
  - destruct x; cbn; try done; rewrite decide_False by set_solver; done.
  - cbn [empty_from foldl]. fold (empty_from (<[UsedL i := []]> (<[FreeL i := []]> m)) l).
    rewrite IH. destruct x as [|j|j|p]; rewrite ?lookup_insert_ne by congruence; [done| | |done].
    + destruct (decide (j ∈ l)); [by rewrite decide_True by set_solver|].
      destruct (decide (j = i)) as [->|Hne].
      * rewrite lookup_insert_eq, decide_True by set_solver. done.
      * rewrite lookup_insert_ne by congruence. by rewrite decide_False by set_solver.
    + destruct (decide (j ∈ l)); [by rewrite decide_True by set_solver|].
      destruct (decide (j = i)) as [->|Hne].
      * rewrite lookup_insert_eq, decide_True by set_solver. done.
      * rewrite !lookup_insert_ne by congruence. by rewrite decide_False by set_solver.
Qed.

Lemma init_lists_spec l h m :
  dlists h m → NoDup l →
  (∀ i, i ∈ l → (is_Some (h !! FreeL i) ∧ ¬ on_list m (FreeL i))
              ∧ (is_Some (h !! UsedL i) ∧ ¬ on_list m (UsedL i))) →
  ∃ h', init_lists h l = Ok h' ∧ dlists h' (empty_from m l)
    ∧ ∀ q, is_Some (h' !! q) ↔ is_Some (h !! q).
Proof.
  revert h m. induction l as [|i l IH]; intros h m Hds Hnd Hx; cbn [init_lists].
  { by exists h. }
  apply NoDup_cons in Hnd as [Hni Hnd].
  destruct (Hx i) as [[Hf Hfn] [Hu Hun]]; [set_solver|].
  destruct (INIT_DLIST_HEAD_new h m (FreeL i) Hds Hfn Hf) as (h1 & E1 & Hd1 & M1).
  destruct (INIT_DLIST_HEAD_new h1 _ (UsedL i) Hd1) as (h2 & E2 & Hd2 & M2).
  { intros [?|?]%on_list_new; done. } { by apply M1. }
  destruct (IH h2 _ Hd2 Hnd) as (h3 & E3 & Hd3 & M3).
  { intros j Hj. rewrite !M2, !M1. assert (j ≠ i) by set_solver.
    destruct (Hx j) as [[? ?] [? ?]]; [set_solver|].
    split; (split; [done|]); intros [?|[?|?]%on_list_new]%on_list_new; congruence. }
  exists h3. rewrite E1. cbn [mbind res_bind]. rewrite E2. cbn [mbind res_bind].
  split; [done|]. split; [done|]. intros q. by rewrite M3, M2, M1.
Qed.

(** The lists of an initialised module. *)
Definition no_blocks : gmap maddr (list maddr) := empty_from ∅ (seq 0 22).

Lemma no_blocks_lookup x :
  no_blocks !! x = match x with
    | FreeL i | UsedL i => if decide (i < 22)%nat then Some [] else None
    | _ => None end.
Proof.
  unfold no_blocks. rewrite empty_from_lookup. destruct x; rewrite ?lookup_empty; try done;
    repeat case_decide; try done; rewrite elem_of_seq in *; lia.
Qed.

Lemma no_blocks_total x : no_blocks !!! x = [].
Proof.
  rewrite lookup_total_alt, no_blocks_lookup. destruct x; cbn; try done; by case_decide.
Qed.

Definition heads_mapped (h : gmap maddr (dlist_head maddr)) : Prop :=
  ∀ i, (i < 22)%nat → is_Some (h !! FreeL i) ∧ is_Some (h !! UsedL i).

Lemma zeros_lookup i : (i < 22)%nat → zeros !! i = Some 0.
Proof. intros Hi. by apply lookup_replicate_2. Qed.

Lemma mh_init_all_spec s :
  heads_mapped (heap s) → blocks s = [] →
  ∃ s', mh_init_all s = Ok s' ∧ minv s' no_blocks ∧ mem s' = mem s ∧ blocks s' = []
    ∧ ∀ c, (c < 22)%nat →
        mpool_used s' !! c = Some 0 ∧ mpool_free s' !! c = Some 0 ∧ mpool_count s' !! c = Some 0.
Proof.
  intros Hh Hb. unfold mh_init_all.
  destruct (init_lists_spec (seq 0 22) (heap s) ∅) as (h & E & Hd & M).
  { split; intros *; by rewrite lookup_empty. }
  { apply NoDup_seq. }
  { intros i Hi. rewrite elem_of_seq in Hi. destruct (Hh i) as [? ?]; [lia|].
    split; (split; [done|]); intros (? & ? & Hm & _); by rewrite lookup_empty in Hm. }
  change MEM_POOLS_COUNT with 22%nat. rewrite E. cbn [mbind res_bind mret res_ret]. eexists. split; [done|].
  split; [|do 2 (split; [done|]); intros c Hc; cbn; by rewrite zeros_lookup]. fold no_blocks in Hd.
  assert (Hcls : ∀ c, cls no_blocks c = []).
  { intros c. unfold cls. by rewrite !no_blocks_total. }
  constructor; cbn [heap hdrs mpool_used mpool_free mpool_max_used mpool_count blocks];
    rewrite ?Hb, ?no_blocks_total; try done.
  - intros i Hi. rewrite !no_blocks_total, !no_blocks_lookup. by rewrite decide_True.
  - intros x (head & l & Hm & Hx). left. rewrite no_blocks_lookup in Hm.
    destruct head as [|i|i|p]; try done; case_decide; try done; injection Hm as <-;
      exists i; split; set_solver.
  - intros i Hi. rewrite no_blocks_total, zeros_lookup by lia. done.
  - intros i Hi. rewrite no_blocks_total, zeros_lookup by lia. done.
  - intros i Hi. rewrite zeros_lookup, Hcls by lia.
    destruct (lookup_lt_is_Some_2 mpool_increase i) as [inc Hinc]; [change (length mpool_increase) with 32%nat; lia|].
    exists 0, inc. done.
  - intros c x _. rewrite Hcls. by intros ?%elem_of_nil.
  - intros c d p q _ _. rewrite Hcls. by intros ?%elem_of_nil.
  - constructor.
  - set_solver.
  - intros c _. by rewrite Hcls.
Qed.

(** ** Tear down *)

Definition inside (bs : list (Z * Z)) (p q : Z) : bool :=
  existsb (λ b, (b.1 =? p) && (b.1 <=? q) && (q <? b.1 + b.2)) bs.

Lemma inside_apart bs p q k :
  (∀ b n b' n', (b, n) ∈ bs → (b', n') ∈ bs → b ≠ b' → apart b n b' n') →
  (q, k) ∈ bs → 0 < k → q ≠ p → inside bs p q = false.
Proof.
  intros Hd Hq Hk Hne. apply not_true_is_false. unfold inside. rewrite existsb_exists.
  intros ([b n] & Hb & Ht). cbn in Ht. apply list_elem_of_In in Hb.
  rewrite !andb_true_iff, Z.eqb_eq, Z.leb_le, Z.ltb_lt in Ht. destruct Ht as [[-> ?] ?].
  destruct (Hd p n q k Hb Hq) as [?|?]; [done|lia..].
Qed.

Lemma free_block_heap s p a :
  match a with Blk q => inside (blocks s) p q = false | _ => True end →
  heap (free_block s p) !! a = heap s !! a.
Proof.
  intros Ha. unfold free_block. cbn [heap]. destruct (heap s !! a) as [n|] eqn:E.
  - apply map_lookup_filter_Some. split; [done|]. by destruct a.
  - apply map_lookup_filter_None. by left.
Qed.

(** What the loop of [mh_free_all] keeps. *)
Record tearing (s : mh) (l : list maddr) : Prop := {
  te_dl : is_dlist (heap s) (FreeL 0) l;
  te_heads : heads_mapped (heap s);
  te_super : l ≡ₚ (λ b, Blk b.1) <$> blocks s;
  te_pos : Forall (λ b, 0 < b.1 ∧ 0 < b.2) (blocks s);
  te_nodup : NoDup (blocks s).*1;
  te_disj : ∀ b n b' n', (b, n) ∈ blocks s → (b', n') ∈ blocks s → b ≠ b' → apart b n b' n' }.

Lemma filter_other (bs : list (Z * Z)) p n rest :
  NoDup bs.*1 → bs ≡ₚ (p, n) :: rest → filter (λ b, b.1 ≠ p) bs ≡ₚ rest.
Proof.
  intros Hnd Hp. rewrite Hp in Hnd |- *. cbn in Hnd. apply NoDup_cons in Hnd as [Hn _].
  rewrite filter_cons_False by (cbn; tauto).
  replace (filter _ rest) with rest; [done|]. clear Hp. induction rest as [|[b k] rest IH]; [done|].
  cbn in Hn. rewrite not_elem_of_cons in Hn. destruct Hn as [Hne Hn].
  rewrite filter_cons_True by (cbn; congruence). by rewrite <- IH.
Qed.

Lemma tearing_step s x l :
  tearing s (x :: l) →
  ∃ n h p, load (heap s) (FreeL 0) = Ok n ∧ next n = x ∧ dlist_del (heap s) x = Ok h
    ∧ x = Blk p ∧ tearing (free_block (with_heap s h) p) l
    ∧ mem (free_block (with_heap s h) p) = mem s
    ∧ (length (blocks s) = S (length (blocks (free_block (with_heap s h) p))))%nat.
Proof.
  intros [Hd Hh Hs Hp Hn Hdj].
  destruct (is_dlist_load _ _ _ Hd) as (n & En & Hnext & _). cbn in Hnext.
  destruct (dlist_del_spec (heap s) (FreeL 0) [] x l Hd) as (h & Eh & Hd' & F & M & _).
  assert (Hx : x ∈ (λ b : Z * Z, Blk b.1) <$> blocks s) by (rewrite <- Hs; set_solver).
  apply list_elem_of_fmap in Hx as ([p k] & -> & Hb). cbn in *.
  apply elem_of_Permutation in Hb as [rest Hrest].
  exists n, h, p. do 4 (split; [done|]).
  pose proof (filter_other _ _ _ _ Hn Hrest) as Hfil.
  assert (Hl : l ≡ₚ (λ b, Blk b.1) <$> rest).
  { rewrite Hrest in Hs. cbn in Hs. by apply Permutation_cons_inv in Hs. }
  assert (Hsub : ∀ b, b ∈ rest → b ∈ blocks s) by (intros b Hb; rewrite Hrest; set_solver).
  split; [|split; [done|]].
  - constructor; cbn [blocks free_block with_heap]; rewrite ?Hfil; try done.
    + eapply is_dlist_frame, Hd'. intros q Hq.
      rewrite free_block_heap; [done|]. apply elem_of_cons in Hq as [->|Hq]; [done|].
      rewrite Hl in Hq. apply list_elem_of_fmap in Hq as ([b k'] & -> & Hb).
      cbn [blocks with_heap fst]. apply (inside_apart _ _ _ k'); [done|by apply Hsub| |].
      * rewrite Forall_forall in Hp. apply (Hp (b, k')). by apply Hsub.
      * intros ->. rewrite Hrest in Hn. cbn in Hn. apply NoDup_cons in Hn as [Hn _].
        apply Hn, list_elem_of_fmap. by exists (p, k').
    + intros i Hi. destruct (Hh i Hi) as [? ?]. rewrite !free_block_heap by done.
      cbn [heap with_heap]. by rewrite !M.
    + rewrite Forall_forall in *. intros b Hb. by apply Hp, Hsub.
    + rewrite Hrest in Hn. cbn in Hn. by apply NoDup_cons in Hn as [_ Hn].
    + intros b k1 b' k2. rewrite !Hfil. intros H1 H2. apply Hdj; by apply Hsub.
  - cbn [blocks free_block with_heap]. by rewrite Hfil, Hrest.
Qed.

Lemma free_supers_spec l s fuel :
  tearing s l → (length (blocks s) ≤ fuel)%nat →
  ∃ s', free_supers fuel s = Ok s' ∧ tearing s' [] ∧ mem s' = mem s.
Proof.
  revert s fuel. induction l as [|x l IH]; intros s fuel Ht Hf.
  - exists s. split; [|done]. destruct fuel; cbn [free_supers];
      rewrite (dlist_empty_spec _ _ _ (te_dl _ _ Ht)); cbn [mbind res_bind]; by rewrite bool_decide_true.
  - destruct (tearing_step s x l Ht) as (n & h & p & En & Hn & Eh & -> & Ht' & Hm & Hlen).
    destruct fuel as [|fuel]; [lia|]. cbn [free_supers].
    rewrite (dlist_empty_spec _ _ _ (te_dl _ _ Ht)). cbn [mbind res_bind].
    rewrite bool_decide_false by done. rewrite En. cbn [mbind res_bind]. rewrite Hn, Eh.
    cbn [mbind res_bind blk_entry].
    destruct (IH _ fuel Ht') as (s' & E & Ht2 & Hm2); [lia|]. exists s'.
    split; [done|]. split; [done|]. by rewrite Hm2.
Qed.

Lemma mh_free_all_spec s m :
  minv s m → ∃ s', mh_free_all s = Ok s' ∧ minv s' no_blocks ∧ blocks s' = []
    ∧ ∀ c, (c < 22)%nat →
        mpool_used s' !! c = Some 0 ∧ mpool_free s' !! c = Some 0 ∧ mpool_count s' !! c = Some 0.
Proof.
  intros Hi. destruct (minv_head s m 0 Hi ltac:(lia)) as [H0 _].
  assert (Ht : tearing s (m !!! FreeL 0)).
  { constructor.
    - exact (dlists_is _ _ _ _ (mi_dl _ _ Hi) H0).
    - intros i Hlt. destruct (minv_head s m i Hi Hlt) as [Hf Hu].
      pose proof (dlists_is _ _ _ _ (mi_dl _ _ Hi) Hf) as Hdf.
      pose proof (dlists_is _ _ _ _ (mi_dl _ _ Hi) Hu) as Hdu.
      split; [apply (is_dlist_mapped _ _ _ _ Hdf)|apply (is_dlist_mapped _ _ _ _ Hdu)]; set_solver.
    - apply (mi_super _ _ Hi).
    - apply (mi_blocks _ _ Hi).
    - apply (mi_nodup _ _ Hi).
    - apply (mi_disj _ _ Hi). }
  destruct (free_supers_spec _ s (length (blocks s)) Ht (le_n _)) as (s1 & E1 & Ht1 & _).
  unfold mh_free_all. rewrite E1. cbn [mbind res_bind].
  assert (Hb : blocks s1 = []).
  { pose proof (te_super _ _ Ht1) as Hs. apply Permutation_nil in Hs. by apply fmap_nil_inv in Hs. }
  destruct (mh_init_all_spec s1 (te_heads _ _ Ht1) Hb) as (s' & E & Hi' & _ & Hb' & Hz). eauto 10.
Qed.

(** ** The interface as a transition system *)

Lemma minv_mem s m g : minv s m → minv (with_mem s g) m.
Proof. intros []. by constructor. Qed.

(** The bytes of a block. *)
Definition in_payload (c : nat) (p a : Z) : Prop := MEMPTR p ≤ a < MEMPTR p + cls_size c.

Lemma payload_apart s m c d p q a :
  minv s m → is_class c → is_class d → Blk p ∈ cls m c → Blk q ∈ cls m d → p ≠ q →
  in_payload c p a → ¬ in_payload d q a.
Proof.
  intros Hi Hc Hd Hp Hq Hne. pose proof (mi_apart _ _ Hi c d p q Hc Hd Hp Hq Hne) as Ha.
  unfold in_payload, apart, MEMPTR, HDR in *. lia.
Qed.

Lemma memcpy_other f dst src n a : ¬ (dst ≤ a < dst + n) → memcpy f dst src n a = f a.
Proof. intros Ha. unfold memcpy. destruct (Z.leb_spec dst a), (Z.ltb_spec a (dst + n)); cbn; lia || done. Qed.

Lemma memcpy_in f dst src n i :
  0 ≤ i < n → memcpy f dst src n (dst + i) = f (src + i).
Proof.
  intros Hi. unfold memcpy. destruct (Z.leb_spec dst (dst + i)), (Z.ltb_spec (dst + i) (dst + n)); cbn; try lia.
  f_equal. lia.
Qed.

Lemma memset_other f dst v n a : ¬ (dst ≤ a < dst + n) → memset f dst v n a = f a.
Proof. intros Ha. unfold memset. destruct (Z.leb_spec dst a), (Z.ltb_spec a (dst + n)); cbn; lia || done. Qed.

Lemma memset_in f dst v n i : 0 ≤ i < n → memset f dst v n (dst + i) = v.
Proof. intros Hi. unfold memset. destruct (Z.leb_spec dst (dst + i)), (Z.ltb_spec (dst + i) (dst + n)); cbn; lia || done. Qed.

Inductive mcall : Type :=
| MMalloc (size : Z) (file : string) (line : Z)
| MCalloc (nmemb size : Z) (file : string) (line : Z)
| MStrdup (src len : Z) (file : string) (line : Z)
| MRealloc (ptr size : Z) (file : string) (line : Z)
| MFree (ptr : Z)
| MFreeAll
| MStore (a v : Z).

(** What a call hands back: the block it was given. *)
Definition touches (c : mcall) (p : Z) : Prop :=
  match c with
  | MRealloc ptr _ _ _ | MFree ptr => ptr = MEMPTR p
  | MFreeAll => True
  | MStore _ _ => False
  | _ => False
  end.

Definition valid_mcall (s : mh) (c : mcall) : Prop :=
  match c with
  | MMalloc size _ _ => is_u32 size
  | MCalloc nmemb size _ _ => is_u32 nmemb ∧ is_u32 size
  | MStrdup src len _ _ => 0 ≤ len ∧ len + 1 < 4294967296
  | MRealloc ptr size _ _ => is_u32 size ∧ (ptr = 0 ∨ ∃ c p, ptr = MEMPTR p ∧ used_at s c p)
  | MFree ptr => ptr = 0 ∨ ∃ c p, ptr = MEMPTR p ∧ (used_at s c p ∨ free_at s c p)
  | MFreeAll => True
  | MStore a v => ∃ c p, used_at s c p ∧ in_payload c p a
  end.

Section api.
Context (malloc : list (Z * Z) → Z → option Z).

(** A call, with the pointer it returns (0 where it returns nothing). *)
Definition run_mcall (s : mh) (c : mcall) : res (Z * mh) :=
  match c with
  | MMalloc size f ln => mh_malloc malloc s size f ln
  | MCalloc nmemb size f ln => mh_calloc malloc s nmemb size f ln
  | MStrdup src len f ln => mh_strdup malloc s src len f ln
  | MRealloc ptr size f ln => mh_realloc malloc s ptr size f ln
  | MFree ptr => '(_, s) ← mh_free s ptr; mret (0, s)
  | MFreeAll => s ← mh_free_all s; mret (0, s)
  | MStore a v => mret (0, with_mem s (λ x, if decide (x = a) then v else mem s x))
  end.

(** The states reached from an initialisation by valid calls. *)
Inductive mreach : mh → Prop :=
| mreach_init s s' :
    heads_mapped (heap s) → blocks s = [] → mh_init_all s = Ok s' → mreach s'
| mreach_call s c r s' :
    mreach s → valid_mcall s c → run_mcall s c = Ok (r, s') → mreach s'.

Context `{!MallocOK malloc}.

Lemma mh_malloc_spec s m size f ln :
  minv s m → is_u32 size →
  (mh_malloc malloc s size f ln = Ok (0, s)
     ∧ (size = 0 ∨ ∀ c, (3 ≤ c < 22)%nat → size ≤ cls_size c → refuses malloc s m c))
  ∨ ∃ c p s' m', mh_malloc malloc s size f ln = Ok (MEMPTR p, s')
      ∧ (3 ≤ c < 22)%nat ∧ 0 < size ≤ cls_size c ∧ took s s' m m' c p
      ∧ (∃ r, hdrs s' !! p = Some r ∧ line r = ln)
      ∧ ∀ d, (3 ≤ d < c)%nat → size ≤ cls_size d → refuses malloc s m d.
Proof.
  intros Hi Hsz. unfold is_u32 in Hsz. unfold mh_malloc. destruct (Z.ltb_spec 0 size).
  - destruct (malloc_from_spec malloc 19 s m 3 size f ln Hi)
      as [[E Hr]|(c & p & s' & m' & E & Hc & Hs & Ht & Hl & Hr)]; [lia..| |].
    + left. split; [exact E|]. by right.
    + right. exists c, p, s', m'. split; [exact E|]. split; [done|]. split; [lia|]. done.
  - left. split; [done|]. left. lia.
Qed.

(** A class that refuses cannot be the one that served. *)
Lemma mh_malloc_refused s m size f ln :
  minv s m → is_u32 size → size ≠ 0 →
  (∀ c, (3 ≤ c < 22)%nat → size ≤ cls_size c → refuses malloc s m c) →
  mh_malloc malloc s size f ln = Ok (0, s).
Proof.
  intros Hi Hsz Hz Hr. unfold mh_malloc, is_u32 in *. destruct (Z.ltb_spec 0 size); [|lia].
  assert (Hg : ∀ n i, (3 ≤ i)%nat → (i + n = 22)%nat → malloc_from malloc n s i size f ln = Ok (0, s)).
  { induction n as [|n IH]; intros i Hi3 Hn; [done|]. cbn [malloc_from]. rewrite shiftl_cls.
    destruct (Z.leb_spec size (cls_size i)) as [Hle|_]; [|apply IH; lia].
    destruct (Hr i) as [Hnil Hno]; [lia|done|].
    rewrite (memalloc_refused malloc s m i); [cbn [mbind res_bind]; apply IH; lia|done| |done|done].
    unfold is_class. lia. }
  apply (Hg 19%nat 3%nat); lia.
Qed.

(** Blocks in use keep their place and contents, [q] excepted. *)
Definition keeps (s s' : mh) (m m' : gmap maddr (list maddr)) (P : Z → Prop) : Prop :=
  ∀ d q, in_use m d q → ¬ P q →
    in_use m' d q ∧ ∀ a, in_payload d q a → mem s' a = mem s a.

Lemma took_keeps s s' m m' c p P : took s s' m m' c p → keeps s s' m m' P.
Proof.
  intros T d q Hq _. split; [apply (tk_use _ _ _ _ _ _ T); auto|].
  intros a _. by rewrite (tk_mem _ _ _ _ _ _ T).
Qed.

Lemma in_use_cls m c p : in_use m c p → is_class c ∧ Blk p ∈ cls m c.
Proof. intros [? ?]. rewrite cls_elem. auto. Qed.

(** Writing the payload of the block just taken disturbs no other block. *)
Lemma took_write_keeps s s' m m' c p P n g :
  took s s' m m' c p → is_class c → n ≤ cls_size c →
  (∀ a, ¬ (MEMPTR p ≤ a < MEMPTR p + n) → g a = mem s' a) →
  minv (with_mem s' g) m' ∧ keeps s (with_mem s' g) m m' P.
Proof.
  intros T Hc Hn Hg. split; [by apply minv_mem, (tk_inv _ _ _ _ _ _ T)|].
  intros d q Hq _. pose proof (tk_use _ _ _ _ _ _ T) as HU.
  assert (Hq' : in_use m' d q) by (apply HU; auto). split; [done|].
  assert (Hp' : in_use m' c p) by (apply HU; auto).
  intros a Ha. cbn [mem with_mem]. rewrite Hg, (tk_mem _ _ _ _ _ _ T); [done|].
  intros Hr. apply in_use_cls in Hq' as [Hd Hq'], Hp' as [_ Hp'].
  eapply (payload_apart s' m' d c q p a); try done; [apply T| |unfold in_payload; lia].
  intros ->. by apply (tk_new _ _ _ _ _ _ T d).
Qed.

Lemma took_mem_any s s' m m' c p P :
  took s s' m m' c p → minv s' m' ∧ keeps s s' m m' P.
Proof. intros T. split; [apply T|by eapply took_keeps]. Qed.

Lemma keeps_refl s m P : keeps s s m m P.
Proof. intros d q Hq _. done. Qed.

Lemma gave_keeps s s' m m' c p : gave s s' m m' c p → keeps s s' m m' (.= p).
Proof.
  intros G d q Hq Hne. split; [by apply (gv_use _ _ _ _ _ _ G)|].
  intros a _. by rewrite (gv_mem _ _ _ _ _ _ G).
Qed.

Lemma mh_realloc_used s m c p size f ln :
  minv s m → in_use m c p → is_u32 size →
  (size ≤ cls_size c ∧ mh_realloc malloc s (MEMPTR p) size f ln = Ok (MEMPTR p, s))
  ∨ (cls_size c < size
     ∧ (∀ d, (3 ≤ d < 22)%nat → size ≤ cls_size d → refuses malloc s m d)
     ∧ ∃ s' m', mh_realloc malloc s (MEMPTR p) size f ln = Ok (0, s') ∧ gave s s' m m' c p)
  ∨ (cls_size c < size ∧ ∃ d q s' m', mh_realloc malloc s (MEMPTR p) size f ln = Ok (MEMPTR q, s')
     ∧ (3 ≤ d < 22)%nat ∧ size ≤ cls_size d ∧ minv s' m' ∧ 0 < q
     ∧ (∀ e r, in_use m' e r ↔ (in_use m e r ∧ r ≠ p) ∨ (e = d ∧ r = q))
     ∧ (∀ e, ¬ in_use m e q) ∧ keeps s s' m m' (.= p)
     ∧ ∀ i, 0 ≤ i < cls_size c → mem s' (MEMPTR q + i) = mem s (MEMPTR p + i)).
Proof.
  intros Hi Hp Hsz. destruct (in_use_cls _ _ _ Hp) as [Hc Hpc].
  pose proof (minv_block_pos s m c p Hi Hc Hpc) as Hpos. pose proof (cls_size_pos c) as Hcs.
  destruct (block_checks s m c p Hi Hc Hpc) as (r & Hr & Hk & Hs).
  unfold mh_realloc. rewrite decide_False by (unfold MEMPTR, HDR; lia).
  replace (MEMHDR (MEMPTR p)) with p by (unfold MEMPTR, MEMHDR; lia).
  rewrite Hr. cbn [deref mbind res_bind]. rewrite Hk, Hs, shiftl_cls.
  destruct (Z.ltb_spec (cls_size c) size) as [Hlt|Hge]; [right|left; by split].
  destruct (mh_malloc_spec s m size f ln Hi Hsz)
    as [[E Hno]|(d & q & s1 & m1 & E & Hd & Hsd & T & _ & _)]; rewrite E; cbn [mbind res_bind].
  - left. split; [done|]. destruct Hno as [?|Hno]; [lia|]. split; [done|].
    destruct (mh_free_spec s m c p Hi Hc Hpc) as [[_ (s' & m' & E' & G)]|[Hn _]]; [|done].
    rewrite decide_True by done. rewrite E'. cbn. eauto.
  - right. split; [done|].
    assert (Hdc : is_class d) by (unfold is_class; lia).
    rewrite decide_False by (pose proof (tk_pos _ _ _ _ _ _ T); unfold MEMPTR, HDR; lia).
    set (g := memcpy _ _ _ _).
    assert (Hne : q ≠ p) by (intros ->; by apply (tk_new _ _ _ _ _ _ T c)).
    assert (Hq1 : in_use m1 d q) by (apply (tk_use _ _ _ _ _ _ T); auto).
    assert (Hp1 : in_use m1 c p) by (apply (tk_use _ _ _ _ _ _ T); auto).
    destruct (took_write_keeps s s1 m m1 d q (λ _, False) (cls_size c) g T Hdc) as [Hi1 K1];
      [lia|intros a Ha; by apply memcpy_other|].
    destruct (mh_free_spec (with_mem s1 g) m1 c p Hi1 Hc (proj2 (in_use_cls _ _ _ Hp1)))
      as [[_ (s' & m' & E' & G)]|[Hn _]]; [|done].
    rewrite E'. cbn. exists d, q, s', m'. split; [done|]. split; [done|]. split; [lia|].
    split; [apply G|]. split; [apply T|]. split; [|split; [apply T|split]].
    + intros e r'. rewrite (gv_use _ _ _ _ _ _ G), (tk_use _ _ _ _ _ _ T). naive_solver.
    + intros e r' He Hr'. destruct (K1 e r' He) as [He1 Hm1]; [tauto|].
      split; [by apply (gv_use _ _ _ _ _ _ G)|]. intros a Ha.
      rewrite (gv_mem _ _ _ _ _ _ G). by apply Hm1.
    + intros i Hii. rewrite (gv_mem _ _ _ _ _ _ G). cbn [mem with_mem]. subst g.
      rewrite memcpy_in by lia. by rewrite (tk_mem _ _ _ _ _ _ T).
Qed.

Lemma run_mcall_spec s m c :
  minv s m → valid_mcall s c →
  ∃ r s' m', run_mcall s c = Ok (r, s') ∧ minv s' m'
    ∧ (match c with MStore _ _ => True | _ => keeps s s' m m' (touches c) end).
Proof.
  intros Hi Hv. destruct c as [size f ln|nm size f ln|src len f ln|ptr size f ln|ptr| |a v]; cbn in *.
  - destruct (mh_malloc_spec s m size f ln Hi Hv) as [[-> _]|(d & q & s1 & m1 & -> & _ & _ & T & _)].
    + eexists _, s, m. split; [done|]. split; [done|apply keeps_refl].
    + eexists _, s1, m1. split; [done|]. by eapply took_mem_any.
  - unfold mh_calloc.
    destruct (mh_malloc_spec s m (u32 (nm * size)) f ln Hi (u32_range _))
      as [[-> _]|(d & q & s1 & m1 & -> & Hd & Hs & T & _)]; cbn [mbind res_bind].
    + eexists _, s, m. split; [done|]. split; [done|apply keeps_refl].
    + rewrite decide_False by (pose proof (tk_pos _ _ _ _ _ _ T); unfold MEMPTR, HDR; lia).
      eexists _, _, m1. split; [done|].
      eapply took_write_keeps; [done|unfold is_class; lia|apply Hs|]. intros b Hb. by apply memset_other.
  - unfold mh_strdup. assert (Hu : is_u32 (u32 (len + 1))) by apply u32_range.
    rewrite u32_id in * by (unfold is_u32; lia).
    destruct (mh_malloc_spec s m (len + 1) f ln Hi Hu)
      as [[-> _]|(d & q & s1 & m1 & -> & Hd & Hs & T & _)]; cbn [mbind res_bind].
    + eexists _, s, m. split; [done|]. split; [done|apply keeps_refl].
    + rewrite decide_False by (pose proof (tk_pos _ _ _ _ _ _ T); unfold MEMPTR, HDR; lia).
      eexists _, _, m1. split; [done|].
      eapply took_write_keeps; [done|unfold is_class; lia|apply Hs|]. intros b Hb. by apply memcpy_other.
  - destruct Hv as [Hsz [->|(c & p & -> & Hp)]].
    + unfold mh_realloc. rewrite decide_True by done. case_decide.
      { eexists _, s, m. split; [done|]. split; [done|apply keeps_refl]. }
      destruct (mh_malloc_spec s m size f ln Hi Hsz) as [[-> _]|(d & q & s1 & m1 & -> & _ & _ & T & _)].
      * eexists _, s, m. split; [done|]. split; [done|apply keeps_refl].
      * eexists _, s1, m1. split; [done|]. by eapply took_mem_any.
    + apply (used_at_spec s m c p Hi) in Hp.
      assert (HP : ∀ s' m', keeps s s' m m' (.= p) → keeps s s' m m' (λ q, MEMPTR p = MEMPTR q)).
      { intros s' m' K d q Hq Hne. apply K; [done|]. by intros ->. }
      destruct (mh_realloc_used s m c p size f ln Hi Hp Hsz)
        as [[_ ->]|[(_ & _ & s' & m' & -> & G)|(_ & d & q & s' & m' & -> & _ & _ & Hi' & _ & _ & _ & K & _)]].
      * eexists _, s, m. split; [done|]. split; [done|apply keeps_refl].
      * eexists _, s', m'. split; [done|]. split; [apply G|]. by eapply HP, gave_keeps.
      * eexists _, s', m'. split; [done|]. split; [done|]. by apply HP.
  - destruct Hv as [->|(c & p & -> & Hp)].
    { unfold mh_free. rewrite decide_True by done. cbn.
      eexists _, s, m. split; [done|]. split; [done|apply keeps_refl]. }
    apply (block_of_class s m) in Hp as [Hc Hp]; [|done].
    destruct (mh_free_spec s m c p Hi Hc Hp) as [[_ (s' & m' & -> & G)]|[_ ->]]; cbn.
    + eexists _, s', m'. split; [done|]. split; [apply G|]. intros d q Hq Hne.
      apply (gave_keeps _ _ _ _ _ _ G); [done|]. by intros ->.
    + eexists _, s, m. split; [done|]. split; [done|apply keeps_refl].
  - destruct (mh_free_all_spec s m Hi) as (s' & -> & Hi' & _). cbn.
    eexists _, s', no_blocks. split; [done|]. split; [done|]. intros d q _ Hq. tauto.
  - eexists _, _, m. split; [done|]. split; [|done]. by apply minv_mem.
Qed.

Lemma mreach_inv s : mreach s → ∃ m, minv s m.
Proof.
  induction 1 as [s s' Hh Hb E|s c r s' _ [m Hi] Hv E].
  - destruct (mh_init_all_spec s Hh Hb) as (s1 & E1 & Hi & _). rewrite E in E1. injection E1 as ->. eauto.
  - destruct (run_mcall_spec s m c Hi Hv) as (r' & s1 & m1 & E1 & Hi1 & _).
    rewrite E in E1. injection E1 as -> ->. eauto.
Qed.

(** ** The module's own consistency check *)

Lemma list_length_bound s m i :
  minv s m → (1 ≤ i < 22)%nat → Z.of_nat (length (cls m i)) < 4294967296.
Proof.
  intros Hi Hlt. destruct (decide (i = 1%nat)) as [->|Hne].
  - destruct (mi_low _ _ Hi) as [_ ->]. cbn. lia.
  - pose proof (mi_bound _ _ Hi i). pose proof (mi_total _ _ Hi). unfold is_class in *. lia.
Qed.

Lemma count_list_spec s m i :
  minv s m → (1 ≤ i < 22)%nat →
  count_list (heap s) (FreeL i) = Ok (Z.of_nat (length (m !!! FreeL i)))
  ∧ count_list (heap s) (UsedL i) = Ok (Z.of_nat (length (m !!! UsedL i))).
Proof.
  intros Hi Hlt. pose proof (list_length_bound s m i Hi Hlt) as Hb. unfold cls in Hb.
  rewrite length_app in Hb. unfold count_list.
  pose proof (free_list_spec s m i Hi ltac:(lia)) as E1. unfold free_list in E1. rewrite E1.
  pose proof (used_list_spec s m i Hi ltac:(lia)) as E2. unfold used_list in E2. rewrite E2.
  cbn. rewrite !u32_id; [done|unfold is_u32; lia..].
Qed.

Lemma diagnose_spec s m i : minv s m → (1 ≤ i < 22)%nat → diagnose s i = Ok [].
Proof.
  intros Hi Hlt. unfold diagnose, get. destruct (count_list_spec s m i Hi Hlt) as [-> ->].
  cbn [mbind res_bind]. rewrite (mi_free _ _ Hi i Hlt), (mi_used _ _ Hi i Hlt).
  cbn [deref mbind res_bind].
  destruct (mi_count _ _ Hi i Hlt) as (n & inc & -> & -> & _ & Hn & _).
  cbn [deref mbind res_bind mret res_ret]. rewrite !decide_True by done.
  rewrite decide_True; [done|]. f_equal. rewrite Hn. unfold cls. rewrite length_app. lia.
Qed.

Lemma diagnose_all_spec s m l :
  minv s m → Forall (λ i, (1 ≤ i < 22)%nat) l → diagnose_all s l = Ok [].
Proof.
  intros Hi. induction 1 as [|i l Hx _ IH]; cbn [diagnose_all]; [done|].
  rewrite (diagnose_spec s m i Hi Hx). cbn [mbind res_bind]. by rewrite IH.
Qed.

Lemma used_not_free s m c d p : minv s m → used_at s c p → free_at s d p → False.
Proof.
  intros Hi Hu Hf. apply (used_at_spec s m c p Hi) in Hu as [Hc Hu].
  apply (free_at_spec s m d p Hi) in Hf as [Hd Hf].
  destruct (minv_head s m c Hi) as [_ E1]; [unfold is_class in Hc; lia|].
  destruct (minv_head s m d Hi) as [E2 _]; [unfold is_class in Hd; lia|].
  enough (UsedL c = FreeL d) by done.
  eapply (proj2 (mi_dl _ _ Hi) _ _ _ _ (Blk p)); [exact E1|exact E2|set_solver|set_solver].
Qed.

(** A free block at the head of the smallest class that is big enough is the one
    allocated. *)
Lemma malloc_from_first n s m i c p l size f ln :
  minv s m → (3 ≤ i ≤ c)%nat → (i + n = 22)%nat → is_class c → m !!! FreeL c = Blk p :: l →
  size ≤ cls_size c → (∀ d, (i ≤ d < c)%nat → cls_size d < size) →
  ∃ s', malloc_from malloc n s i size f ln = Ok (MEMPTR p, s').
Proof.
  intros Hi Hic Hn Hc Hl Hs. revert i Hic Hn. induction n as [|n IH]; intros i Hic Hn Hlow;
    [unfold is_class in Hc; lia|].
  cbn [malloc_from]. rewrite shiftl_cls. destruct (decide (i = c)) as [->|Hne].
  - destruct (Z.leb_spec size (cls_size c)); [|lia].
    destruct (dlists_lookup_first s m c (Blk p) l Hi) as (k & E1 & _ & _);
      [unfold is_class in Hc; lia|done|].
    destruct (memalloc_take_spec s m c (Blk p) l Hi Hc Hl) as (q & s1 & [= <-] & E & Hi1 & Hh & _).
    unfold memalloc, free_head. rewrite decide_True by (unfold is_class, MEM_POOLS_COUNT in *; lia).
    cbn [mbind res_bind]. rewrite E1. cbn [mbind res_bind mret res_ret]. rewrite E. cbn [mbind res_bind].
    destruct (block_checks s m c p Hi Hc) as (r & Hr & _); [rewrite cls_elem, Hl; set_solver|].
    destruct (memblk_tracking_spec s1 p r f ln) as (s2 & E2 & _); [by rewrite Hh|].
    rewrite E2. cbn. eauto.
  - destruct (Z.leb_spec size (cls_size i)) as [Hle|_].
    + specialize (Hlow i). lia.
    + apply IH; [lia|lia|]. intros d Hd. apply Hlow. lia.
Qed.

Lemma cls_size_mono c d : (c ≤ d)%nat → cls_size c ≤ cls_size d.
Proof. intros Hcd. unfold cls_size. apply Z.pow_le_mono_r; lia. Qed.

Lemma mh_malloc_first s m c p l size f ln :
  minv s m → is_class c → (3 ≤ c)%nat → m !!! FreeL c = Blk p :: l →
  0 < size ≤ cls_size c → c = 3%nat ∨ cls_size (c - 1) < size →
  ∃ s', mh_malloc malloc s size f ln = Ok (MEMPTR p, s').
Proof.
  intros Hi Hc H3 Hl Hs Hlow. unfold mh_malloc. destruct (Z.ltb_spec 0 size); [|lia].
  eapply (malloc_from_first 19 s m 3 c p l); try done; try lia.
  intros d Hd. destruct Hlow as [->|Hlow]; [lia|].
  pose proof (cls_size_mono d (c - 1)). lia.
Qed.

(** ** The theorems *)

(** The block [p] of class [c], header included, lies in a live super block. *)
Definition in_super (s : mh) (c : nat) (p : Z) : Prop :=
  ∃ b n, (b, n) ∈ blocks s ∧ b + HDR ≤ p ∧ p + HDR + cls_size c ≤ b + n.

(** C11: in every state of the memory helper that valid calls reach, the module's
    own check [mh_diagnostic] finds nothing (the counters agree with the lists
    and with the number of blocks carved), every block lies inside a live super
    block, two blocks never overlap, and no block is both free and in use. *)
Theorem mh_reachable_invariant s (Hr : mreach s) :
  mh_diagnostic s = Ok []
  ∧ (∀ c p, used_at s c p ∨ free_at s c p → in_super s c p)
  ∧ (∀ c d p q, used_at s c p ∨ free_at s c p → used_at s d q ∨ free_at s d q → p ≠ q →
       apart p (HDR + cls_size c) q (HDR + cls_size d))
  ∧ (∀ c d p, used_at s c p → ¬ free_at s d p).
Proof.
  destruct (mreach_inv s Hr) as [m Hi]. split; [|split; [|split]].
  - apply (diagnose_all_spec s m); [done|]. rewrite Forall_forall. intros i Hin.
    apply elem_of_seq in Hin. unfold MEM_POOLS_COUNT in Hin. lia.
  - intros c p Hp. apply (block_of_class s m) in Hp as [Hc Hp]; [|done].
    destruct (mi_blk _ _ Hi c _ Hc Hp) as (? & r & [= <-] & _ & _ & Hb). exact Hb.
  - intros c d p q Hp Hq. apply (block_of_class s m) in Hp as [Hc Hp]; [|done].
    apply (block_of_class s m) in Hq as [Hd Hq]; [|done]. by apply (mi_apart _ _ Hi).
  - intros c d p Hu Hf. by eapply (used_not_free s m).
Qed.

(** C13: a valid call completes, leaves a state reachable in the same way, and
    does not disturb the blocks it was not given: each block in use stays in use,
    in its class, with its bytes unchanged, whatever the call allocates, copies,
    clears or frees. *)
Theorem mh_calls_isolate s c (Hr : mreach s) (Hv : valid_mcall s c) :
  ∃ r s', run_mcall s c = Ok (r, s') ∧ mreach s'
    ∧ ∀ d q, used_at s d q → ¬ touches c q → (∀ a v, c = MStore a v → ¬ in_payload d q a) →
        used_at s' d q ∧ ∀ a, in_payload d q a → mem s' a = mem s a.
Proof.
  destruct (mreach_inv s Hr) as [m Hi].
  destruct (run_mcall_spec s m c Hi Hv) as (r & s' & m' & E & Hi' & K).
  exists r, s'. split; [done|]. split; [by eapply mreach_call|].
  intros d q Hq Ht Hst. apply (used_at_spec s m d q Hi) in Hq.
  destruct c as [| | | | | |a v]; try (destruct (K d q Hq Ht) as [Hq' Hm];
    split; [by apply (used_at_spec s' m')|done]).
  cbn in E. injection E as <- <-. split.
  - by apply (used_at_spec _ m); [apply minv_mem|].
  - intros b Hb. cbn. rewrite decide_False; [done|]. intros ->. by eapply Hst.
Qed.

(** [mh_malloc] hands out a block of the smallest class of at least 8 bytes
    that is big enough and can serve the request: never in use before, in use
    after, with the contents of memory unchanged and its line recorded.  It
    returns NULL, with the state unchanged, exactly when the size is 0 or every
    class that is big enough has no free block and gets no memory (above 2 MB
    there is no class). *)
Theorem mh_malloc_correct s size f ln (Hr : mreach s) (Hsz : is_u32 size) :
  let refuse c := free_list s c = Ok [] ∧ malloc (blocks s) (super_size c) = None in
  (mh_malloc malloc s size f ln = Ok (0, s)
     ∧ (size = 0 ∨ ∀ c, (3 ≤ c < 22)%nat → size ≤ cls_size c → refuse c))
  ∨ ∃ c p s', mh_malloc malloc s size f ln = Ok (MEMPTR p, s') ∧ MEMPTR p ≠ 0
      ∧ (3 ≤ c < 22)%nat ∧ 0 < size ≤ cls_size c
      ∧ (∀ d, (3 ≤ d < c)%nat → size ≤ cls_size d → refuse d)
      ∧ (∀ d q, used_at s' d q ↔ used_at s d q ∨ (d = c ∧ q = p)) ∧ (∀ d, ¬ used_at s d p)
      ∧ mem s' = mem s ∧ ∃ r, hdrs s' !! p = Some r ∧ line r = ln.
Proof.
  intros refuse. destruct (mreach_inv s Hr) as [m Hi].
  assert (HR : ∀ c, (3 ≤ c < 22)%nat → refuses malloc s m c → refuse c).
  { intros c Hc [Hn Hm]. split; [|done]. rewrite (free_list_spec s m) by (done || lia). by rewrite Hn. }
  destruct (mh_malloc_spec s m size f ln Hi Hsz)
    as [[E Hno]|(c & p & s' & m' & E & Hc & Hs & T & Hl & Hsm)].
  - left. split; [done|]. destruct Hno as [?|Hno]; [by left|right]. auto.
  - right. exists c, p, s'. split; [done|].
    split; [pose proof (tk_pos _ _ _ _ _ _ T); unfold MEMPTR, HDR; lia|].
    split; [done|]. split; [done|]. split; [intros d Hd Hds; apply HR; [lia|auto]|].
    split; [|split; [|split; [apply T|done]]].
    + intros d q. rewrite (used_at_spec s m), (used_at_spec s' m') by (done || apply T). apply T.
    + intros d. rewrite (used_at_spec s m) by done. apply T.
Qed.

(** [mh_free] of a block in use makes exactly that block free and keeps the
    memory; freeing a block that is already free is reported and changes nothing;
    and freed memory is reused, most recent first: the next allocation of a size
    that fits the class, and no smaller class, gets the same block back. *)
Theorem mh_free_correct s c p size f ln (Hr : mreach s) (Hsz : 0 < size ≤ cls_size c)
    (Hc : (3 ≤ c)%nat) (Hlow : c = 3%nat ∨ cls_size (c - 1) < size) :
  (used_at s c p →
     ∃ s', mh_free s (MEMPTR p) = Ok (true, s') ∧ mem s' = mem s
       ∧ (∀ d q, used_at s' d q ↔ used_at s d q ∧ q ≠ p) ∧ free_at s' c p
       ∧ mh_free s' (MEMPTR p) = Ok (false, s')
       ∧ ∃ s'', mh_malloc malloc s' size f ln = Ok (MEMPTR p, s''))
  ∧ (free_at s c p → mh_free s (MEMPTR p) = Ok (false, s)).
Proof.
  destruct (mreach_inv s Hr) as [m Hi]. split.
  - intros Hu. apply (used_at_spec s m c p Hi) in Hu. destruct (in_use_cls _ _ _ Hu) as [Hcl Hp].
    destruct (mh_free_spec s m c p Hi Hcl Hp) as [[_ (s' & m' & E & G)]|[? _]]; [|done].
    destruct (gv_first _ _ _ _ _ _ G) as [l Hl]. pose proof (gv_inv _ _ _ _ _ _ G) as Hi'.
    assert (Hp' : Blk p ∈ cls m' c) by (rewrite cls_elem, Hl; set_solver).
    exists s'. split; [done|]. split; [apply G|]. split; [|split; [|split]].
    + intros d q. rewrite (used_at_spec s m), (used_at_spec s' m') by done. apply G.
    + apply (free_at_spec s' m' c p Hi'). rewrite Hl. split; [done|set_solver].
    + destruct (mh_free_spec s' m' c p Hi' Hcl Hp') as [[Hx _]|[_ ?]]; [|done].
      by apply (gv_use _ _ _ _ _ _ G) in Hx as [_ ?].
    + by eapply mh_malloc_first.
  - intros Hf. destruct (block_of_class s m c p Hi) as [Hcl Hp]; [by right|].
    destruct (mh_free_spec s m c p Hi Hcl Hp) as [[Hu _]|[_ ?]]; [|done].
    apply (used_at_spec s m c p Hi) in Hu. by destruct (used_not_free s m c c p Hi).
Qed.

(** [mh_realloc] of a block in use returns the same block, nothing changed,
    when the size fits its class; otherwise it moves to a block of a class that
    is big enough, with the old contents at its start, the old block is free and
    every other block in use keeps its place and contents.  When no bigger block
    can be had it returns NULL -- and has freed the block all the same, so the
    caller's data is lost (the C library's [realloc] keeps it). *)
Theorem mh_realloc_correct s c p size f ln
    (Hr : mreach s) (Hu : used_at s c p) (Hsz : is_u32 size) :
  (size ≤ cls_size c ∧ mh_realloc malloc s (MEMPTR p) size f ln = Ok (MEMPTR p, s))
  ∨ (cls_size c < size ∧ ∃ s', mh_realloc malloc s (MEMPTR p) size f ln = Ok (0, s')
      ∧ free_at s' c p ∧ mh_malloc malloc s size f ln = Ok (0, s)
      ∧ ∀ d q, used_at s' d q ↔ used_at s d q ∧ q ≠ p)
  ∨ (cls_size c < size ∧ ∃ d q s', mh_realloc malloc s (MEMPTR p) size f ln = Ok (MEMPTR q, s')
      ∧ MEMPTR q ≠ 0 ∧ size ≤ cls_size d ∧ (∀ e, ¬ used_at s e q)
      ∧ (∀ e r, used_at s' e r ↔ (used_at s e r ∧ r ≠ p) ∨ (e = d ∧ r = q))
      ∧ (∀ i, 0 ≤ i < cls_size c → mem s' (MEMPTR q + i) = mem s (MEMPTR p + i))
      ∧ ∀ e r a, used_at s e r → r ≠ p → in_payload e r a → mem s' a = mem s a).
Proof.
  destruct (mreach_inv s Hr) as [m Hi]. apply (used_at_spec s m c p Hi) in Hu.
  destruct (mh_realloc_used s m c p size f ln Hi Hu Hsz)
    as [?|[(Hlt & Hno & s' & m' & E & G)|(Hlt & d & q & s' & m' & E & Hd & Hs & Hi' & Hq & HU & Hnew & K & Hm)]];
    [by left|right; left|right; right]; (split; [done|]).
  - pose proof (gv_inv _ _ _ _ _ _ G) as Hi'. destruct (gv_first _ _ _ _ _ _ G) as [l Hl].
    exists s'. split; [done|]. split; [|split].
    + apply (free_at_spec s' m' c p Hi'). rewrite Hl. split; [apply Hu|set_solver].
    + apply (mh_malloc_refused s m); try done. pose proof (cls_size_pos c). lia.
    + intros d q. rewrite (used_at_spec s m), (used_at_spec s' m') by done. apply G.
  - exists d, q, s'. split; [done|]. split; [unfold MEMPTR, HDR; lia|]. split; [done|].
    split; [|split; [|split; [done|]]].
    + intros e. by rewrite (used_at_spec s m).
    + intros e r. rewrite (used_at_spec s m), (used_at_spec s' m') by done. apply HU.
    + intros e r a He Hr' Ha. rewrite (used_at_spec s m) in He by done. by apply (K e r He Hr').
Qed.

(** [mh_free_all] frees every super block and leaves the module as it is
    after initialisation: no memory held, every list empty, every counter zero. *)
Theorem mh_free_all_correct s (Hr : mreach s) :
  ∃ s', mh_free_all s = Ok s' ∧ blocks s' = [] ∧ mreach s'
    ∧ ∀ c, (c < 22)%nat → used_list s' c = Ok [] ∧ free_list s' c = Ok []
        ∧ mpool_used s' !! c = Some 0 ∧ mpool_free s' !! c = Some 0 ∧ mpool_count s' !! c = Some 0.
Proof.
  destruct (mreach_inv s Hr) as [m Hi].
  destruct (mh_free_all_spec s m Hi) as (s' & E & Hi' & Hb & Hz). exists s'.
  split; [done|]. split; [done|]. split.
  - apply (mreach_call s MFreeAll 0 s'); [done|done|]. cbn. by rewrite E.
  - intros c Hc. rewrite (used_list_spec s' _ c Hi' Hc), (free_list_spec s' _ c Hi' Hc), !no_blocks_total.
    split; [done|]. split; [done|]. by apply Hz.
Qed.
End api.

(** ** The memory helper: concrete runs

    A [malloc] that satisfies the assumptions, runs of the module on it that
    exercise the theorems of [MemHelperApi], and two behaviours of the code on
    particular inputs. *)

(** The lowest address above every live block and above [x]. *)
Definition top (x : Z) (bs : list (Z * Z)) : Z := foldr (λ b t, Z.max (b.1 + b.2) t) x bs.

Lemma top_spec x bs : x ≤ top x bs ∧ ∀ b n, (b, n) ∈ bs → b + n ≤ top x bs.
Proof.
  induction bs as [|[b' n'] bs [IH1 IH2]]; cbn.
  - split; [lia|]. by intros b n ?%elem_of_nil.
  - split; [unfold top in *; lia|]. intros b n [[= -> ->]|Hb]%elem_of_cons; [lia|].
    specialize (IH2 b n Hb). unfold top in IH2. lia.
Qed.

(** An allocator that never reuses memory below the highest live block, with
    [limit] as the end of memory. *)
Definition bump (limit : Z) (bs : list (Z * Z)) (n : Z) : option Z :=
  if (top 4096 bs + n <=? limit) && (total_size bs + n <? 4294967296)
  then Some (top 4096 bs) else None.

#[export] Instance bump_ok limit : limit ≤ 4294967296 → MallocOK (bump limit).
Proof.
  intros Hl bs n p E Hn. unfold bump in E.
  destruct (Z.leb_spec (top 4096 bs + n) limit), (Z.ltb_spec (total_size bs + n) 4294967296);
    cbn in E; try done. injection E as <-. destruct (top_spec 4096 bs) as [H1 H2].
  split; [lia|]. split; [lia|]. split; [|done]. intros b k Hb. specialize (H2 b k Hb).
  right. lia.
Qed.

(** The static data before [mh_init_all]. *)
Definition zero_state : mh :=
  mk_mh (list_to_map ((λ a, (a, mk_head MNULL MNULL)) <$> mh_heads)) ∅
    zeros zeros zeros zeros [] [] (λ _, 0).

Definition force (r : res mh) : mh := match r with Ok s => s | _ => zero_state end.
Definition forcep (r : res (Z * mh)) : mh := match r with Ok (_, s) => s | _ => zero_state end.
Definition ptr_of (r : res (Z * mh)) : Z := match r with Ok (p, _) => p | _ => -1 end.
Definition completes {A} (r : res A) : bool := match r with Ok _ => true | _ => false end.

Lemma force_ok r : completes r = true → r = Ok (force r).
Proof. by destruct r. Qed.
Lemma forcep_ok r : completes r = true → r = Ok (ptr_of r, forcep r).
Proof. by destruct r as [[]| |]. Qed.

Definition s0 : mh := force (mh_init_all zero_state).

Lemma zero_heads : heads_mapped (heap zero_state).
Proof.
  intros i Hi. do 22 (destruct i as [|i]; [by split; vm_compute; eexists|]). lia.
Qed.

Lemma s0_reach malloc : mreach malloc s0.
Proof.
  apply (mreach_init _ zero_state); [exact zero_heads|done|]. apply force_ok. by vm_compute.
Qed.

Lemma reach_call malloc s c :
  mreach malloc s → valid_mcall s c → completes (run_mcall malloc s c) = true →
  mreach malloc (forcep (run_mcall malloc s c)).
Proof. intros Hr Hv Hc. eapply mreach_call; [done|done|]. by apply forcep_ok. Qed.

(** A block is in use: decided on the lists. *)
Definition usedb (s : mh) (c : nat) (p : Z) : bool :=
  match used_list s c with Ok l => bool_decide (Blk p ∈ l) | _ => false end.

Lemma usedb_at s c p : is_class c → usedb s c p = true → used_at s c p.
Proof.
  intros Hc. unfold usedb. destruct (used_list s c) as [l| |] eqn:E; try done.
  intros Hb%bool_decide_eq_true. split; eauto.
Qed.

(** Memory of 1 MB: two allocations, 10 bytes and 100 bytes. *)
Definition mem1 := bump 1048576.
Definition s1 : mh := forcep (run_mcall mem1 s0 (MMalloc 10 "a.c" 7)).
Definition s2 : mh := forcep (run_mcall mem1 s1 (MMalloc 100 "b.c" 9)).
Definition p1 : Z := MEMHDR (ptr_of (run_mcall mem1 s0 (MMalloc 10 "a.c" 7))).

#[export] Instance mem1_ok : MallocOK mem1.
Proof. apply bump_ok. lia. Qed.

Lemma s1_reach : mreach mem1 s1.
Proof. apply reach_call; [apply s0_reach|cbn; unfold is_u32; lia|by vm_compute]. Qed.
Lemma s2_reach : mreach mem1 s2.
Proof. apply reach_call; [apply s1_reach|cbn; unfold is_u32; lia|by vm_compute]. Qed.
Lemma p1_used : used_at s2 4 p1.
Proof. apply usedb_at; [unfold is_class; lia|by vm_compute]. Qed.

Lemma mh_reachable_invariant_witness : mreach mem1 s2 ∧ mh_diagnostic s2 = Ok [].
Proof. split; [exact s2_reach|exact (proj1 (mh_reachable_invariant mem1 s2 s2_reach))]. Defined.

Lemma mh_calls_isolate_witness :
  ∃ r s', run_mcall mem1 s2 (MCalloc 3 50 "c.c" 1) = Ok (r, s') ∧ used_at s' 4 p1.
Proof.
  assert (Hv : valid_mcall s2 (MCalloc 3 50 "c.c" 1)) by (cbn; unfold is_u32; lia).
  destruct (mh_calls_isolate mem1 s2 _ s2_reach Hv) as (r & s' & E & _ & K).
  exists r, s'. split; [exact E|].
  apply (K 4%nat p1 p1_used); [exact (λ x, x)|]. intros a v H. discriminate H.
Defined.

Lemma mh_malloc_correct_witness :
  mreach mem1 s2 ∧ is_u32 10
  ∧ ∃ p s', mh_malloc mem1 s2 10 "d.c" 3 = Ok (MEMPTR p, s') ∧ ¬ used_at s2 4 p.
Proof.
  assert (Hu : is_u32 10) by (unfold is_u32; lia).
  split; [exact s2_reach|]. split; [exact Hu|].
  destruct (mh_malloc_correct mem1 s2 10 "d.c" 3 s2_reach Hu)
    as [[E _]|(c & p & s' & E & _ & _ & _ & _ & _ & Hn & _)].
  - exfalso. apply (f_equal ptr_of) in E. vm_compute in E. discriminate E.
  - exists p, s'. split; [exact E|exact (Hn 4%nat)].
Defined.

Lemma mh_free_correct_witness :
  ∃ s' s'', mh_free s2 (MEMPTR p1) = Ok (true, s')
    ∧ mh_malloc mem1 s' 12 "e.c" 5 = Ok (MEMPTR p1, s'').
Proof.
  assert (Hs : 0 < 12 ≤ cls_size 4) by (unfold cls_size; cbn; lia).
  assert (Hc : (3 ≤ 4)%nat) by lia.
  assert (Hl : 4%nat = 3%nat ∨ cls_size (4 - 1) < 12) by (right; unfold cls_size; cbn; lia).
  destruct (proj1 (mh_free_correct mem1 s2 4 p1 12 "e.c" 5 s2_reach Hs Hc Hl) p1_used)
    as (s' & E & _ & _ & _ & _ & s'' & E').
  exists s', s''. split; [exact E|exact E'].
Defined.

(** With room for the first super block only, growing the block loses it. *)
Definition mem2 := bump 5000.
#[export] Instance mem2_ok : MallocOK mem2.
Proof. apply bump_ok. lia. Qed.
Definition t1 : mh := forcep (run_mcall mem2 s0 (MMalloc 10 "a.c" 7)).
Lemma t1_reach : mreach mem2 t1.
Proof. apply reach_call; [apply s0_reach|cbn; unfold is_u32; lia|by vm_compute]. Qed.
Lemma p1_used_t1 : used_at t1 4 p1.
Proof. apply usedb_at; [unfold is_class; lia|by vm_compute]. Qed.

Lemma mh_realloc_correct_witness :
  ∃ s', mh_realloc mem2 t1 (MEMPTR p1) 1000 "f.c" 2 = Ok (0, s') ∧ free_at s' 4 p1.
Proof.
  assert (Hu : is_u32 1000) by (unfold is_u32; lia).
  destruct (mh_realloc_correct mem2 t1 4 p1 1000 "f.c" 2 t1_reach p1_used_t1 Hu)
    as [[Hle _]|[(_ & s' & E & Hf & _)|(_ & d & q & s' & E & Hq)]].
  - exfalso. unfold cls_size in Hle. cbn in Hle. lia.
  - exists s'. split; [exact E|exact Hf].
  - exfalso. apply (f_equal ptr_of) in E.
    assert (E0 : ptr_of (mh_realloc mem2 t1 (MEMPTR p1) 1000 "f.c" 2) = 0) by (by vm_compute).
    rewrite E0 in E. destruct Hq as [Hq _]. exact (Hq (eq_sym E)).
Defined.

Lemma mh_free_all_correct_witness : ∃ s', mh_free_all s2 = Ok s' ∧ blocks s' = [].
Proof.
  destruct (mh_free_all_correct mem1 s2 s2_reach) as (s' & E & Hb & _).
  exists s'. split; [exact E|exact Hb].
Defined.

(** ** Two behaviours on particular inputs *)

(** [mh_calloc] does not check the multiplication: asked for 65536 elements
    of 65537 bytes it returns a block, of class 2^16, because the product wraps
    to 65536. *)
Theorem mh_calloc_wraps :
  ∃ p s', mh_calloc (bump 1048576) s0 65536 65537 "g.c" 1 = Ok (MEMPTR p, s')
    ∧ used_at s' 16 p ∧ cls_size 16 < 65536 * 65537.
Proof.
  set (r := mh_calloc (bump 1048576) s0 65536 65537 "g.c" 1).
  exists (MEMHDR (ptr_of r)), (forcep r). split.
  - replace (MEMPTR (MEMHDR (ptr_of r))) with (ptr_of r) by (unfold MEMPTR, MEMHDR; lia).
    apply forcep_ok. by vm_compute.
  - split; [|unfold cls_size; cbn; lia]. apply usedb_at; [unfold is_class; lia|by vm_compute].
Qed.

(** [n] allocations of 8 bytes, each from another source file. *)
Fixpoint many (n : nat) (s : mh) : mh :=
  match n with
  | O => s
  | S n => many n (forcep (mh_malloc (bump 1048576) s 8 ("f" +:+ pretty n) 1))
  end.

(** Once 512 source files have allocated, the block of the next one carries
    the index 512, and [mh_dump_used] then reads past the end of [_mh_files];
    with 512 files it prints one line per block. *)
Theorem mh_dump_used_overruns :
  (∃ l, mh_dump_used (many 512 s0) = Ok l ∧ length l = 512%nat)
  ∧ mh_dump_used (many 513 s0) = Fault.
Proof.
  split; [|by vm_compute].
  assert (H : (match mh_dump_used (many 512 s0) with Ok l => length l | _ => 0%nat end) = 512%nat)
    by (by vm_compute).
  destruct (mh_dump_used (many 512 s0)) as [l| |]; [by exists l|discriminate H..].
Qed.
