(* ===== verification/DhcpOptions.v ===== *)
(** * DHCP messages and their options (progs.gpl/udhcpcd: packet.h, options.h,
    options.c, the protocol constants of dhcpd.h)

    A [struct dhcpMessage] is the list of its 548 bytes.  [get_option] and its
    kin take pointers into the message; here they are offsets, and the reads and
    writes beyond the message fault. *)

From stdpp Require Import base numbers strings list.
From S2P Require Import Prelude Bytes.

(** ** [struct dhcpMessage]: offsets of the members *)

Definition MSG_SIZE : nat := 548.
Definition F_op : nat := 0.
Definition F_htype : nat := 1.
Definition F_hlen : nat := 2.
Definition F_xid : nat := 4.
Definition F_flags : nat := 10.
Definition F_ciaddr : nat := 12.
Definition F_yiaddr : nat := 16.
Definition F_siaddr : nat := 20.
Definition F_giaddr : nat := 24.
Definition F_chaddr : nat := 28.
Definition F_sname : nat := 44.
Definition F_file : nat := 108.
Definition F_cookie : nat := 236.
Definition F_options : nat := 240.

Definition xid (p : bytes) : Z := get32 p F_xid.
Definition flags (p : bytes) : Z := get16 p F_flags.
Definition ciaddr (p : bytes) : Z := get32 p F_ciaddr.
Definition yiaddr (p : bytes) : Z := get32 p F_yiaddr.
Definition siaddr (p : bytes) : Z := get32 p F_siaddr.
Definition giaddr (p : bytes) : Z := get32 p F_giaddr.
Definition cookie (p : bytes) : Z := get32 p F_cookie.
Definition chaddr (p : bytes) : bytes := slice p F_chaddr 16.
Definition op (p : bytes) : Z := be_val (slice p F_op 1).

(** ** Constants *)

Definition DHCP_MAGIC : Z := 0x63825363.
Definition DHCP_PADDING : Z := 0.
Definition DHCP_SUBNET : Z := 1.
Definition DHCP_HOST_NAME : Z := 0x0c.
Definition DHCP_REQUESTED_IP : Z := 0x32.
Definition DHCP_LEASE_TIME : Z := 0x33.
Definition DHCP_OPTION_OVER : Z := 0x34.
Definition DHCP_MESSAGE_TYPE : Z := 0x35.
Definition DHCP_SERVER_ID : Z := 0x36.
Definition DHCP_PARAM_REQ : Z := 0x37.
Definition DHCP_VENDOR : Z := 0x3c.
Definition DHCP_CLIENT_ID : Z := 0x3d.
Definition DHCP_END : Z := 0xFF.
Definition BOOTREQUEST : Z := 1.
Definition BOOTREPLY : Z := 2.
Definition ETH_10MB : Z := 1.
Definition ETH_10MB_LEN : Z := 6.
Definition DHCPDISCOVER : Z := 1.
Definition DHCPOFFER : Z := 2.
Definition DHCPREQUEST : Z := 3.
Definition DHCPDECLINE : Z := 4.
Definition DHCPACK : Z := 5.
Definition DHCPNAK : Z := 6.
Definition DHCPRELEASE : Z := 7.
Definition DHCPINFORM : Z := 8.
Definition BROADCAST_FLAG : Z := 0x8000.
Definition OPTION_FIELD : Z := 0.
Definition FILE_FIELD : Z := 1.
Definition SNAME_FIELD : Z := 2.

(** ** The table of supported options *)

Definition TYPE_MASK : Z := 0x0F.
Definition OPTION_IP : Z := 1.
Definition OPTION_IP_PAIR : Z := 2.
Definition OPTION_STRING : Z := 3.
Definition OPTION_BOOLEAN : Z := 4.
Definition OPTION_U8 : Z := 5.
Definition OPTION_U16 : Z := 6.
Definition OPTION_S16 : Z := 7.
Definition OPTION_U32 : Z := 8.
Definition OPTION_S32 : Z := 9.
Definition OPTION_REQ : Z := 0x10.
Definition OPTION_LIST : Z := 0x20.

Record dhcp_option := mk_option { opt_name : String.string; opt_flags : Z; opt_code : Z }.

#[local] Open Scope string_scope.
Definition options : list dhcp_option :=
  [ mk_option "subnet" (Z.lor OPTION_IP OPTION_REQ) 0x01;
    mk_option "timezone" OPTION_S32 0x02;
    mk_option "router" (Z.lor (Z.lor OPTION_IP OPTION_LIST) OPTION_REQ) 0x03;
    mk_option "timesvr" (Z.lor OPTION_IP OPTION_LIST) 0x04;
    mk_option "namesvr" (Z.lor OPTION_IP OPTION_LIST) 0x05;
    mk_option "dns" (Z.lor (Z.lor OPTION_IP OPTION_LIST) OPTION_REQ) 0x06;
    mk_option "logsvr" (Z.lor OPTION_IP OPTION_LIST) 0x07;
    mk_option "cookiesvr" (Z.lor OPTION_IP OPTION_LIST) 0x08;
    mk_option "lprsvr" (Z.lor OPTION_IP OPTION_LIST) 0x09;
    mk_option "hostname" OPTION_STRING 0x0c;
    mk_option "bootsize" OPTION_U16 0x0d;
    mk_option "domain" (Z.lor OPTION_STRING OPTION_REQ) 0x0f;
    mk_option "swapsvr" OPTION_IP 0x10;
    mk_option "rootpath" OPTION_STRING 0x11;
    mk_option "ipttl" OPTION_U8 0x17;
    mk_option "mtu" OPTION_U16 0x1a;
    mk_option "broadcast" OPTION_IP 0x1c;
    mk_option "ntpsrv" (Z.lor OPTION_IP OPTION_LIST) 0x2a;
    mk_option "wins" (Z.lor OPTION_IP OPTION_LIST) 0x2c;
    mk_option "requestip" OPTION_IP 0x32;
    mk_option "lease" OPTION_U32 0x33;
    mk_option "dhcptype" OPTION_U8 0x35;
    mk_option "serverid" OPTION_IP 0x36;
    mk_option "message" OPTION_STRING 0x38;
    mk_option "tftp" OPTION_STRING 0x42;
    mk_option "bootfile" OPTION_STRING 0x43 ].
#[local] Close Scope string_scope.

(** [option_lengths], indexed by the type. *)
Definition option_lengths : list Z := [0; 4; 8; 1; 1; 1; 2; 2; 4; 4].

(** ** [get_option] *)

(** The loop of [get_option]: [base] is where [optionptr] points, [len] is
    [length].  The result is the offset of the data, [None] for NULL. *)
Fixpoint get_option_loop (fuel : nat) (p : bytes) (base i len : nat) (over curr code : Z)
  : res (option nat) :=
  match fuel with
  | O => NoFuel
  | S fuel =>
      if decide (len ≤ i)%nat then mret None
      else
        c ← byte_at p (base + i);
        if c =? code then
          l ← byte_at p (base + i + 1);
          if decide (len ≤ i + 1 + Z.to_nat l)%nat then mret None
          else mret (Some (base + i + 2)%nat)
        else if c =? DHCP_PADDING then get_option_loop fuel p base (i + 1) len over curr code
        else if c =? DHCP_OPTION_OVER then
          l ← byte_at p (base + i + 1);
          if decide (len ≤ i + 1 + Z.to_nat l)%nat then mret None
          else
            over ← byte_at p (base + i + 3);
            l1 ← byte_at p (base + 1);
            get_option_loop fuel p base (i + Z.to_nat l1 + 2) len over curr code
        else if c =? DHCP_END then
          if (curr =? OPTION_FIELD) && negb (Z.land over FILE_FIELD =? 0)
          then get_option_loop fuel p F_file 0 128 over FILE_FIELD code
          else if (curr =? FILE_FIELD) && negb (Z.land over SNAME_FIELD =? 0)
          then get_option_loop fuel p F_sname 0 64 over SNAME_FIELD code
          else mret None
        else
          l ← byte_at p (base + i + 1);
          get_option_loop fuel p base (i + Z.to_nat l + 2) len over curr code
  end.

(** Three fields of 308, 128 and 64 bytes: no more steps than bytes, and one per
    change of field. *)
Definition OPTION_FUEL : nat := 504.

Definition get_option (p : bytes) (code : Z) : res (option nat) :=
  get_option_loop OPTION_FUEL p F_options 0 308 0 OPTION_FIELD code.

(** ** Adding options *)

Fixpoint end_option_loop (fuel : nat) (p : bytes) (i : nat) : res nat :=
  match fuel with
  | O => NoFuel
  | S fuel =>
      c ← byte_at p (F_options + i);
      if c =? DHCP_END then mret i
      else if c =? DHCP_PADDING then end_option_loop fuel p (i + 1)
      else
        l ← byte_at p (F_options + i + 1);
        end_option_loop fuel p (i + Z.to_nat l + 2)
  end.

Definition end_option (p : bytes) : res nat := end_option_loop 309 p 0.

(** The result is the number of bytes added, and the message. *)
Definition add_option_string (p string : bytes) : res (Z * bytes) :=
  e ← end_option p;
  l ← byte_at string 1;
  if 308 <=? Z.of_nat e + l + 2 + 1 then mret (0, p)
  else
    s ← read_at string 0 (Z.to_nat l + 2);
    p ← write_at p (F_options + e) s;
    p ← write_at p (F_options + e + Z.to_nat l + 2) [DHCP_END];
    mret (l + 2, p).

(** The loop over the table: the length of the last entry with this code. *)
Definition option_length (code : Z) : Z :=
  foldl (λ length o,
    if opt_code o =? code
    then option_lengths !!! Z.to_nat (Z.land (opt_flags o) TYPE_MASK) else length) 0 options.

Definition add_simple_option (p : bytes) (code data : Z) : res (Z * bytes) :=
  let length := option_length code in
  if length =? 0 then mret (0, p)
  else
    let aligned := be_bytes (Z.to_nat length) data in
    add_option_string p (code :: length :: aligned).

(** ** Option lists

    A [struct option_set] list is the list of its [data] blocks. *)

Definition option_set := list bytes.

(** [d[OPT_CODE]] of a block of a list. *)
Definition set_code (d : bytes) : Z := d !!! 0%nat.

(** [code] is a [char]. *)
Fixpoint find_option (l : option_set) (code : Z) : option bytes :=
  match l with
  | [] => None
  | d :: l =>
      if set_code d <? code then find_option l code
      else if set_code d =? code then Some d else None
  end.

(** The change of [existing->data] when the option is already present. *)
Definition attach_existing (existing : bytes) (o : dhcp_option) (buffer : bytes) : bytes :=
  if negb (Z.land (opt_flags o) OPTION_LIST =? 0) then
    let len := existing !!! 1%nat in
    let length := Z.of_nat (length buffer) in
    if len + length <=? 255
    then <[1%nat := len + length]> (take (Z.to_nat len + 2) existing ++ buffer)
    else existing
  else existing.

Fixpoint update_option (l : option_set) (code : Z) (f : bytes → bytes) : option_set :=
  match l with
  | [] => []
  | d :: l =>
      if set_code d <? code then d :: update_option l code f
      else if set_code d =? code then f d :: l else d :: l
  end.

Fixpoint insert_option (l : option_set) (d : bytes) (code : Z) : option_set :=
  match l with
  | [] => [d]
  | x :: l' => if set_code x <? code then x :: insert_option l' d code else d :: l
  end.

(** [attach_option(opt_list, option, buffer, length)] with [length] bytes in
    [buffer]; memory allocation succeeds. *)
Definition attach_option (l : option_set) (o : dhcp_option) (buffer : bytes) : option_set :=
  match find_option l (s8 (opt_code o)) with
  | Some _ => update_option l (s8 (opt_code o)) (λ d, attach_existing d o buffer)
  | None =>
      insert_option l (opt_code o :: u8 (Z.of_nat (length buffer)) :: buffer) (opt_code o)
  end.

(** The loops unfold last when two terms are compared. *)
#[global] Strategy 1000 [end_option end_option_loop get_option get_option_loop].
#[global] Strategy 500 [add_option_string add_simple_option].
