(* ===== verification/DhcpOptionsProps.v ===== *)
(** * DHCP options: the theorems

    Option fields as lists of items, and what the functions of options.c do on
    messages that hold such a list; safety of [get_option] on any message. *)

From stdpp Require Import base numbers sets sorting strings list.
From S2P Require Import Prelude Bytes DhcpOptions.

#[global] Arguments get_option : simpl never.
#[global] Arguments end_option : simpl never.
#[global] Arguments add_option_string : simpl never.
#[global] Arguments add_simple_option : simpl never.
#[global] Arguments F_options : simpl never.
#[global] Arguments MSG_SIZE : simpl never.

(** ** Items of an option field *)

Inductive item : Type := Pad | Opt (c : Z) (d : bytes).

Definition item_ok (it : item) : Prop :=
  match it with Pad => True | Opt c d => 0 < c < 255 ∧ (length d ≤ 255)%nat end.

Definition enc (it : item) : bytes :=
  match it with Pad => [0] | Opt c d => c :: Z.of_nat (length d) :: d end.

Definition encs (its : list item) : bytes := concat (enc <$> its).

(** The option field of [p] holds [its] and the end mark. *)
Definition has_items (p : bytes) (its : list item) : Prop :=
  length p = 548%nat ∧ Forall item_ok its ∧ ∃ rest, drop 240 p = encs its ++ 255 :: rest.

(** The first item with a code: where its data are, from [off] on, and the data. *)
Fixpoint find_item (its : list item) (code : Z) (off : nat) : option (nat * bytes) :=
  match its with
  | [] => None
  | Pad :: its => find_item its code (off + 1)
  | Opt c d :: its =>
      if c =? code then Some ((off + 2)%nat, d) else find_item its code (off + length d + 2)
  end.

Lemma encs_cons it its : encs (it :: its) = enc it ++ encs its.
Proof. done. Qed.

Lemma encs_app i1 i2 : encs (i1 ++ i2) = encs i1 ++ encs i2.
Proof. unfold encs. by rewrite fmap_app, concat_app. Qed.

Lemma length_its its : (length its ≤ length (encs its))%nat.
Proof.
  induction its as [|it its IH]; [done|]. rewrite encs_cons, length_app.
  destruct it; cbn in *; lia.
Qed.

Lemma has_items_length p its : has_items p its → (length (encs its) < 308)%nat.
Proof.
  intros (Hl & _ & rest & Hd). apply (f_equal length) in Hd.
  rewrite length_drop, length_app in Hd. cbn in Hd. lia.
Qed.

Lemma byte_at_drop p i b l : drop i p = b :: l → byte_at p i = Ok b.
Proof.
  intros Hd. unfold byte_at. replace i with (i + 0)%nat at 1 by lia.
  by rewrite <- lookup_drop, Hd.
Qed.

Lemma drop_step (p : bytes) i a l n : drop i p = a ++ l → n = (i + length a)%nat → drop n p = l.
Proof. intros Hd ->. rewrite <- drop_drop, Hd. apply drop_app_length. Qed.

(** An item in front of the rest of the field: what the loops read. *)
Lemma drop_opt p i c d l :
  drop i p = (c :: Z.of_nat (length d) :: d) ++ l →
  byte_at p i = Ok c ∧ byte_at p (i + 1) = Ok (Z.of_nat (length d))
  ∧ drop (i + 2) p = d ++ l ∧ drop (i + length d + 2) p = l.
Proof.
  intros Hd. cbn in Hd. split; [by eapply byte_at_drop|].
  assert (H1 : drop (i + 1) p = Z.of_nat (length d) :: d ++ l) by (by eapply (drop_step _ _ [c])).
  split; [by eapply byte_at_drop|].
  split; [by eapply (drop_step _ _ [c; Z.of_nat (length d)])|].
  eapply (drop_step _ _ (c :: Z.of_nat (length d) :: d)); [done|cbn; lia].
Qed.

Lemma slice_app p i d l : drop i p = d ++ l → slice p i (length d) = d.
Proof. intros Hd. unfold slice. rewrite Hd. apply take_app_length. Qed.

(** ** [get_option] on a list of items *)

Definition no_overload (its : list item) : Prop := ∀ d, Opt DHCP_OPTION_OVER d ∉ its.

Lemma no_overload_cons it its : no_overload (it :: its) → no_overload its.
Proof. intros H d Hd. apply (H d). set_solver. Qed.

Lemma get_option_items its p i rest fuel code :
  length p = 548%nat → Forall item_ok its → no_overload its → 0 < code < 255 →
  drop (240 + i) p = encs its ++ 255 :: rest →
  (i + length (encs its) < 308)%nat → (length its < fuel)%nat →
  get_option_loop fuel p 240 i 308 0 OPTION_FIELD code = Ok (fst <$> find_item its code (240 + i)).
Proof.
  intros Hl Hok. revert i fuel. induction Hok as [|it its Hit Hok IH];
    intros i fuel Hno Hc Hd Hlen Hf; (destruct fuel as [|fuel]; [cbn in Hf; lia|]);
    cbn [get_option_loop].
  - rewrite decide_False by (cbn in Hlen; lia). rewrite (byte_at_drop _ _ _ _ Hd). cbn [mbind res_bind].
    destruct (Z.eqb_spec 255 code); [lia|]. done.
  - rewrite encs_cons, length_app in Hlen. rewrite decide_False by (destruct it; cbn in *; lia).
    rewrite encs_cons, <- app_assoc in Hd.
    pose proof (no_overload_cons _ _ Hno) as Hno'. cbn [length] in Hf.
    destruct it as [|c d].
    + rewrite (byte_at_drop _ _ _ _ Hd). cbn [mbind res_bind].
      destruct (Z.eqb_spec 0 code); [lia|]. change (0 =? DHCP_PADDING) with true. cbv iota.
      cbn [find_item]. replace (240 + i + 1)%nat with (240 + (i + 1))%nat by lia.
      apply IH; [done|done| |cbn in Hlen; lia|lia].
      eapply (drop_step _ _ [0]); [exact Hd|cbn; lia].
    + cbn in Hit, Hlen. apply drop_opt in Hd as (E1 & E2 & E3 & E4). rewrite E1. cbn [mbind res_bind].
      cbn [find_item]. destruct (Z.eqb_spec c code) as [->|Hne].
      * rewrite E2. cbn [mbind res_bind]. rewrite decide_False by lia. done.
      * unfold DHCP_PADDING, DHCP_END.
        destruct (Z.eqb_spec c 0); [lia|].
        destruct (Z.eqb_spec c DHCP_OPTION_OVER) as [->|]; [exfalso; apply (Hno d); set_solver|].
        destruct (Z.eqb_spec c 255); [lia|]. rewrite E2. cbn [mbind res_bind].
        rewrite Nat2Z.id. replace (240 + i + length d + 2)%nat with (240 + (i + length d + 2))%nat by lia.
        apply IH; [done|done| |lia|lia]. rewrite <- E4. f_equal; lia.
Qed.

Lemma get_option_has_items p its code :
  has_items p its → no_overload its → 0 < code < 255 →
  get_option p code = Ok (fst <$> find_item its code 240).
Proof.
  intros Hp Hno Hc. pose proof (has_items_length _ _ Hp) as Hlen.
  destruct Hp as (Hl & Hok & rest & Hd). unfold get_option, OPTION_FUEL, F_options.
  apply (get_option_items its p 0 rest 504 code); try done. pose proof (length_its its). lia.
Qed.

Lemma find_item_data its p i rest code ptr d :
  drop i p = encs its ++ 255 :: rest → find_item its code i = Some (ptr, d) →
  slice p ptr (length d) = d ∧ byte_at p (ptr - 1) = Ok (Z.of_nat (length d))
  ∧ (i + 2 ≤ ptr)%nat ∧ (ptr + length d ≤ i + length (encs its))%nat ∧ Opt code d ∈ its.
Proof.
  revert i. induction its as [|it its IH]; intros i Hd Hf; [done|].
  rewrite encs_cons in *. rewrite <- app_assoc in Hd. rewrite length_app. destruct it as [|c e].
  - cbn in Hf, Hd. assert (Hd1 : drop (i + 1) p = encs its ++ 255 :: rest)
      by (by eapply (drop_step _ _ [0])).
    destruct (IH _ Hd1 Hf) as (? & ? & ? & ? & ?). cbn. split; [done|]. split; [done|].
    split; [lia|]. split; [lia|set_solver].
  - cbn [enc] in Hd. apply drop_opt in Hd as (E1 & E2 & E3 & E4). cbn [find_item] in Hf.
    cbn [enc length]. destruct (Z.eqb_spec c code) as [->|Hne].
    + injection Hf as <- <-. split; [by eapply slice_app|].
      replace (i + 2 - 1)%nat with (i + 1)%nat by lia. split; [done|]. split; [lia|].
      split; [lia|set_solver].
    + destruct (IH _ E4 Hf) as (? & ? & ? & ? & ?). split; [done|]. split; [done|].
      split; [lia|]. split; [lia|set_solver].
Qed.

Lemma find_item_app its1 its2 code off :
  find_item (its1 ++ its2) code off
  = match find_item its1 code off with
    | Some r => Some r
    | None => find_item its2 code (off + length (encs its1))
    end.
Proof.
  revert off. induction its1 as [|[|c d] its1 IH]; intros off; cbn [app find_item].
  - cbn. f_equal. lia.
  - rewrite IH, encs_cons, length_app. cbn [enc length]. destruct (find_item its1 code (off + 1)); [done|].
    f_equal. lia.
  - destruct (c =? code); [done|]. rewrite IH, encs_cons, length_app. cbn [enc length].
    destruct (find_item _ _ _); [done|]. f_equal. lia.
Qed.

(** ** Adding options *)

Lemma end_option_items its p i rest fuel :
  Forall item_ok its → drop (240 + i) p = encs its ++ 255 :: rest → (length its < fuel)%nat →
  end_option_loop fuel p i = Ok (i + length (encs its))%nat.
Proof.
  intros Hok. revert i fuel. induction Hok as [|it its Hit Hok IH];
    intros i fuel Hd Hf; (destruct fuel as [|fuel]; [cbn in Hf; lia|]); cbn [end_option_loop];
    unfold F_options.
  - rewrite (byte_at_drop _ _ _ _ Hd). cbn. f_equal. lia.
  - rewrite encs_cons, <- app_assoc in Hd. rewrite encs_cons, length_app. cbn [length] in Hf.
    destruct it as [|c d].
    + rewrite (byte_at_drop _ _ _ _ Hd). cbn [mbind res_bind]. cbv [DHCP_END DHCP_PADDING Z.eqb].
      rewrite IH; [cbn; f_equal; lia| |lia].
      replace (240 + (i + 1))%nat with (240 + i + 1)%nat by lia. by eapply (drop_step _ _ [0]).
    + cbn in Hit. apply drop_opt in Hd as (E1 & E2 & E3 & E4). rewrite E1. cbn [mbind res_bind].
      unfold DHCP_PADDING, DHCP_END. destruct (Z.eqb_spec c 255), (Z.eqb_spec c 0); try lia.
      rewrite E2. cbn [mbind res_bind]. rewrite Nat2Z.id.
      rewrite IH; [cbn [enc length]; f_equal; lia| |lia]. rewrite <- E4. f_equal; lia.
Qed.

Lemma end_option_spec p its : has_items p its → end_option p = Ok (length (encs its)).
Proof.
  intros Hp. pose proof (has_items_length _ _ Hp). destruct Hp as (Hl & Hok & rest & Hd).
  unfold end_option. rewrite (end_option_items its p 0 rest); [done|done|done|].
  pose proof (length_its its). lia.
Qed.

Lemma drop_splice (b : bytes) off s :
  (off + length s ≤ length b)%nat → drop off (splice b off s) = s ++ drop (off + length s) b.
Proof.
  intros H. unfold splice. rewrite drop_app_length'; [done|]. rewrite length_take. lia.
Qed.

Lemma drop_splice_lt (b : bytes) k off s :
  (k ≤ off)%nat → (off + length s ≤ length b)%nat →
  drop k (splice b off s) = take (off - k) (drop k b) ++ drop off (splice b off s).
Proof.
  intros Hk H. rewrite drop_splice by done. unfold splice.
  rewrite drop_app_le by (rewrite length_take; lia). by rewrite skipn_firstn_comm.
Qed.

(** What is written behind the items: an item and the end mark. *)
Lemma has_items_write p its c d :
  has_items p its → item_ok (Opt c d) → (length (encs its) + length d + 3 ≤ 308)%nat →
  has_items (splice (splice p (240 + length (encs its)) (enc (Opt c d)))
               (240 + length (encs its) + length d + 2) [255]) (its ++ [Opt c d]).
Proof.
  intros (Hl & Hok & rest & Hd) Hit Hlen. set (e := length (encs its)) in *.
  assert (Hs : (240 + e + length (enc (Opt c d)) ≤ length p)%nat) by (cbn; lia).
  set (p1 := splice p (240 + e) (enc (Opt c d))).
  assert (Hl1 : length p1 = 548%nat) by (subst p1; rewrite length_splice; done).
  split; [by rewrite length_splice by (rewrite Hl1; cbn; lia)|].
  split; [apply Forall_app; auto|].
  exists (drop (240 + e + length d + 3) p1).
  rewrite drop_splice_lt by (rewrite ?Hl1; cbn; lia).
  rewrite drop_splice by (rewrite Hl1; cbn; lia). cbn [length app].
  replace (240 + e + length d + 2 + 1)%nat with (240 + e + length d + 3)%nat by lia.
  rewrite encs_app. f_equal.
  subst p1. rewrite drop_splice_lt by lia. rewrite Hd.
  replace (240 + e - 240)%nat with (length (encs its)) by lia. rewrite take_app_length.
  rewrite drop_splice by done.
  assert (encs [Opt c d] = enc (Opt c d)) as -> by (unfold encs; cbn; by rewrite app_nil_r).
  rewrite take_app_ge by lia. f_equal. rewrite take_app_le by (cbn; lia).
  rewrite take_ge; [done|cbn; lia].
Qed.

Lemma take_splice (b : bytes) k off s :
  (k ≤ off)%nat → (off ≤ length b)%nat → take k (splice b off s) = take k b.
Proof.
  intros Hk Hl. unfold splice. rewrite take_app_le by (rewrite length_take; lia).
  rewrite take_take. f_equal. lia.
Qed.

(** Messages stay bytes. *)
Lemma write_at_bytes b off d b' : is_bytes b → is_bytes d → write_at b off d = Ok b' → is_bytes b'.
Proof.
  unfold write_at. intros Hb Hd H. destruct (decide _); [|done]. injection H as <-.
  by apply is_bytes_splice.
Qed.

Lemma read_at_bytes b off n d : is_bytes b → read_at b off n = Ok d → is_bytes d.
Proof.
  unfold read_at. intros Hb H. destruct (decide _); [|done]. injection H as <-. by apply is_bytes_slice.
Qed.

Lemma is_bytes_end : is_bytes [DHCP_END].
Proof. constructor; [unfold is_u8, DHCP_END; lia|constructor]. Qed.

Lemma add_option_string_bytes p d n p' :
  is_bytes p → is_bytes d → add_option_string p d = Ok (n, p') → is_bytes p'.
Proof.
  intros Hp Hd H. unfold add_option_string in H. apply bind_Ok in H as (e & _ & H).
  apply bind_Ok in H as (l & _ & H). destruct (308 <=? _); [injection H; congruence|].
  apply bind_Ok in H as (w & Ew & H). apply bind_Ok in H as (p1 & E1 & H).
  apply bind_Ok in H as (p2 & E2 & H). assert (p2 = p') as <- by (injection H; congruence).
  apply (read_at_bytes _ _ _ _ Hd) in Ew. apply (write_at_bytes _ _ _ _ Hp Ew) in E1.
  exact (write_at_bytes _ _ _ _ E1 is_bytes_end E2).
Qed.

Lemma add_option_string_spec p its c d tl :
  has_items p its → item_ok (Opt c d) →
  if decide (length (encs its) + length d + 3 < 308)%nat
  then ∃ p', add_option_string p (enc (Opt c d) ++ tl) = Ok (Z.of_nat (length d) + 2, p')
         ∧ has_items p' (its ++ [Opt c d]) ∧ take 240 p' = take 240 p
  else add_option_string p (enc (Opt c d) ++ tl) = Ok (0, p).
Proof.
  intros Hp Hit. pose proof (has_items_length _ _ Hp) as Hlt.
  unfold add_option_string. rewrite (end_option_spec p its Hp). cbn [mbind res_bind].
  assert (byte_at (enc (Opt c d) ++ tl) 1 = Ok (Z.of_nat (length d))) as -> by done.
  cbn [mbind res_bind]. case_decide as Hd.
  - destruct (Z.leb_spec 308 (Z.of_nat (length (encs its)) + Z.of_nat (length d) + 2 + 1)); [lia|].
    rewrite Nat2Z.id.
    assert (length (enc (Opt c d)) = length d + 2)%nat as He by (cbn; lia).
    rewrite read_at_Ok by (rewrite length_app; lia). cbn [mbind res_bind].
    assert (slice (enc (Opt c d) ++ tl) 0 (length d + 2) = enc (Opt c d)) as ->.
    { unfold slice. rewrite drop_0, <- He. apply take_app_length. }
    destruct Hp as (Hl & Hrest). unfold F_options.
    rewrite write_at_Ok by lia. cbn [mbind res_bind].
    rewrite write_at_Ok by (rewrite length_splice by lia; cbn; lia). cbn [mbind res_bind].
    eexists. split; [done|]. split.
    + apply has_items_write; [done|done|lia].
    + rewrite !take_splice; [done|lia..| |]; rewrite ?length_splice; lia.
  - destruct (Z.leb_spec 308 (Z.of_nat (length (encs its)) + Z.of_nat (length d) + 2 + 1)); [done|lia].
Qed.

Lemma add_simple_option_spec p its code data :
  has_items p its → 0 < code < 255 → option_length code ≠ 0 →
  (length (encs its) + Z.to_nat (option_length code) + 3 < 308)%nat →
  0 < option_length code ≤ 255 →
  let d := be_bytes (Z.to_nat (option_length code)) data in
  ∃ p', add_simple_option p code data = Ok (option_length code + 2, p')
    ∧ has_items p' (its ++ [Opt code d]) ∧ take 240 p' = take 240 p.
Proof.
  intros Hp Hc Hne Hfit Hr d. unfold add_simple_option.
  destruct (Z.eqb_spec (option_length code) 0); [done|].
  assert (Hd : length d = Z.to_nat (option_length code)) by apply length_be_bytes.
  pose proof (add_option_string_spec p its code d [] Hp) as H.
  rewrite decide_True in H by lia. rewrite app_nil_r in H. cbn [enc] in H.
  replace (Z.of_nat (length d)) with (option_length code) in H by lia.
  apply H. split; [done|lia].
Qed.

(** ** [get_option] on any message *)

(** The fields [get_option] looks at, with the steps left after each. *)
Definition in_field (base len : nat) (curr : Z) (later : nat) : Prop :=
  (base = 240%nat ∧ len = 308%nat ∧ curr = 0 ∧ later = 194%nat)
  ∨ (base = 108%nat ∧ len = 128%nat ∧ curr = 1 ∧ later = 65%nat)
  ∨ (base = 44%nat ∧ len = 64%nat ∧ curr = 2 ∧ later = 0%nat).

Lemma get_option_loop_total fuel p base i len over curr code later :
  in_field base len curr later → (len - i + later < fuel)%nat →
  get_option_loop fuel p base i len over curr code ≠ NoFuel.
Proof.
  revert base i len over curr later. induction fuel as [|fuel IH];
    intros base i len over curr later Hin Hf; [lia|]. cbn [get_option_loop].
  case_decide as Hlt; [done|]. unfold byte_at.
  destruct (p !! (base + i)%nat) as [c|]; [|done]. cbn [deref mbind res_bind].
  destruct (c =? code).
  { destruct (p !! (base + i + 1)%nat); [|done]. cbn [deref mbind res_bind]. by case_decide. }
  destruct (c =? DHCP_PADDING); [eapply IH; [done|lia]|].
  destruct (c =? DHCP_OPTION_OVER).
  { destruct (p !! (base + i + 1)%nat); [|done]. cbn [deref mbind res_bind]. case_decide; [done|].
    destruct (p !! (base + i + 3)%nat); [|done]. cbn [deref mbind res_bind].
    destruct (p !! (base + 1)%nat); [|done]. cbn [deref mbind res_bind]. eapply IH; [done|lia]. }
  destruct (c =? DHCP_END).
  { unfold OPTION_FIELD, FILE_FIELD, SNAME_FIELD.
    destruct Hin as [(-> & -> & -> & ->)|[(-> & -> & -> & ->)|(-> & -> & -> & ->)]]; cbn [Z.eqb andb].
    - destruct (negb _); [|done]. eapply (IH _ _ _ _ _ 65%nat); [right; left; done|lia].
    - destruct (negb _); [|done]. eapply (IH _ _ _ _ _ 0%nat); [right; right; done|lia].
    - done. }
  destruct (p !! (base + i + 1)%nat); [|done]. cbn [deref mbind res_bind]. eapply IH; [done|lia].
Qed.

(** The last bytes of a message that was not received in full. *)
Definition zero_tail (p : bytes) : Prop :=
  length p = 548%nat ∧ ∀ i, (544 ≤ i < 548)%nat → p !! i = Some 0.

Definition in_message (p : bytes) (ptr : nat) : Prop :=
  ∃ l, byte_at p (ptr - 1) = Ok l ∧ (2 ≤ ptr)%nat ∧ (ptr + Z.to_nat l ≤ 548)%nat.

Lemma get_option_loop_safe fuel p base i len over curr code later :
  zero_tail p → code ≠ 0 → in_field base len curr later → (len - i + later < fuel)%nat →
  ∃ r, get_option_loop fuel p base i len over curr code = Ok r
    ∧ ∀ ptr, r = Some ptr → in_message p ptr.
Proof.
  intros [Hl Hz] Hcode. revert base i len over curr later. induction fuel as [|fuel IH];
    intros base i len over curr later Hin Hf; [lia|]. cbn [get_option_loop].
  case_decide as Hlt; [by eexists|].
  assert (Hbase : (base + len ≤ 548)%nat ∧ (base + i < 548)%nat ∧ (base + 1 < 548)%nat)
    by (unfold in_field in Hin; lia).
  destruct (byte_at_lt p (base + i)) as (c & -> & Ec); [lia|]. cbn [mbind res_bind].
  assert (Htail : c = 0 ∨ (base + i < 544)%nat).
  { destruct (decide (base + i < 544)%nat); [by right|left].
    rewrite Hz in Ec by lia. by injection Ec. }
  destruct (Z.eqb_spec c code) as [->|Hne].
  { destruct Htail as [?|Ht]; [done|].
    destruct (byte_at_lt p (base + i + 1)) as (l & El & _); [lia|]. rewrite El. cbn [mbind res_bind].
    case_decide; [by eexists|]. eexists. split; [done|]. intros ptr [= <-]. exists l.
    replace (base + i + 2 - 1)%nat with (base + i + 1)%nat by lia. split; [done|]. lia. }
  unfold DHCP_PADDING. destruct (Z.eqb_spec c 0) as [->|Hc0]; [eapply IH; [done|lia]|].
  destruct Htail as [?|Ht]; [done|].
  destruct (c =? DHCP_OPTION_OVER).
  { destruct (byte_at_lt p (base + i + 1)) as (l & -> & _); [lia|]. cbn [mbind res_bind].
    case_decide; [by eexists|].
    destruct (byte_at_lt p (base + i + 3)) as (o & -> & _); [lia|]. cbn [mbind res_bind].
    destruct (byte_at_lt p (base + 1)) as (l1 & -> & _); [lia|]. cbn [mbind res_bind].
    eapply IH; [done|lia]. }
  destruct (c =? DHCP_END).
  { unfold OPTION_FIELD, FILE_FIELD, SNAME_FIELD.
    destruct Hin as [(-> & -> & -> & ->)|[(-> & -> & -> & ->)|(-> & -> & -> & ->)]]; cbn [Z.eqb andb].
    - destruct (negb _); [|by eexists]. eapply (IH _ _ _ _ _ 65%nat); [right; left; done|lia].
    - destruct (negb _); [|by eexists]. eapply (IH _ _ _ _ _ 0%nat); [right; right; done|lia].
    - by eexists. }
  destruct (byte_at_lt p (base + i + 1)) as (l & -> & _); [lia|]. cbn [mbind res_bind].
  eapply IH; [done|lia].
Qed.

Lemma get_option_zero_tail p code :
  zero_tail p → code ≠ 0 →
  ∃ r, get_option p code = Ok r ∧ ∀ ptr, r = Some ptr → in_message p ptr.
Proof.
  intros Hz Hc. unfold get_option, OPTION_FUEL, F_options.
  apply (get_option_loop_safe _ _ _ _ _ _ _ _ 194); [done|done| |lia]. left. done.
Qed.

(** ** The theorems *)

(** [get_option] stops on every message, whatever its bytes, for every code;
    and on a message of which at most 544 bytes were received (the rest is the
    zeros of [get_packet]'s memset) it reads only inside the message, and a
    pointer it returns is preceded by a length byte that keeps the data inside
    the message. *)
Theorem get_option_safe p code :
  get_option p code ≠ NoFuel
  ∧ (zero_tail p → code ≠ 0 →
     ∃ r, get_option p code = Ok r ∧ ∀ ptr, r = Some ptr →
       ∃ l, byte_at p (ptr - 1) = Ok l ∧ (2 ≤ ptr)%nat ∧ (ptr + Z.to_nat l ≤ 548)%nat).
Proof.
  split; [|intros Hz Hc; by apply get_option_zero_tail].
  unfold get_option, OPTION_FUEL, F_options.
  eapply (get_option_loop_total _ _ _ _ _ _ _ _ 194); [left; done|lia].
Qed.

(** On a message whose option field is a list of items and an end mark, and
    has no overload option, [get_option] finds exactly the first item with the
    code: it returns NULL when there is none, and otherwise a pointer to the
    item's data, preceded by its length. *)
Theorem get_option_correct p its code
    (Hp : has_items p its) (Hno : no_overload its) (Hc : 0 < code < 255) :
  match find_item its code 240 with
  | None => get_option p code = Ok None
  | Some (ptr, d) =>
      get_option p code = Ok (Some ptr) ∧ slice p ptr (length d) = d
      ∧ byte_at p (ptr - 1) = Ok (Z.of_nat (length d)) ∧ (ptr + length d < 548)%nat
  end.
Proof.
  pose proof (get_option_has_items p its code Hp Hno Hc) as E.
  pose proof (has_items_length _ _ Hp) as Hlen. destruct Hp as (Hl & Hok & rest & Hd).
  destruct (find_item its code 240) as [[ptr d]|] eqn:Ef; [|exact E].
  destruct (find_item_data its p 240 rest code ptr d Hd Ef) as (H1 & H2 & H3 & H4 & _).
  split; [exact E|]. split; [done|]. split; [done|]. lia.
Qed.

(** [add_option_string] appends its item behind the ones present, leaves the
    header fields alone, and a later [get_option] finds it when the code is new;
    when the field with the end mark would reach 308 bytes it writes nothing and
    returns 0. *)
Theorem add_option_string_correct p its c d
    (Hp : has_items p its) (Hc : 0 < c < 255) (Hd : (length d ≤ 255)%nat) :
  if decide (length (encs its) + length d + 3 < 308)%nat
  then ∃ p', add_option_string p (c :: Z.of_nat (length d) :: d) = Ok (Z.of_nat (length d) + 2, p')
         ∧ has_items p' (its ++ [Opt c d]) ∧ take 240 p' = take 240 p
         ∧ (no_overload its → c ≠ DHCP_OPTION_OVER → find_item its c 240 = None →
            ∃ ptr, get_option p' c = Ok (Some ptr) ∧ slice p' ptr (length d) = d)
  else add_option_string p (c :: Z.of_nat (length d) :: d) = Ok (0, p).
Proof.
  pose proof (add_option_string_spec p its c d [] Hp) as H. rewrite app_nil_r in H. cbn [enc] in H.
  specialize (H (conj Hc Hd)). case_decide; [|done]. destruct H as (p' & E & Hp' & Ht).
  exists p'. split; [done|]. split; [done|]. split; [done|]. intros Hno Hne Hf.
  assert (Hno' : no_overload (its ++ [Opt c d])).
  { intros e [He|He]%elem_of_app; [by apply (Hno e)|]. apply list_elem_of_singleton in He. congruence. }
  pose proof (get_option_has_items p' _ c Hp' Hno' Hc) as E'.
  destruct Hp' as (_ & _ & rest & Hd').
  rewrite find_item_app, Hf in E'. cbn [find_item] in E'. rewrite Z.eqb_refl in E'.
  eexists. split; [exact E'|].
  apply (find_item_data (its ++ [Opt c d]) p' 240 rest c _ d Hd').
  rewrite find_item_app, Hf. cbn [find_item]. by rewrite Z.eqb_refl.
Qed.

(** ** Option lists as maps *)

Definition set_ok (d : bytes) : Prop :=
  ∃ c v, d = c :: Z.of_nat (length v) :: v ∧ 0 < c < 128 ∧ (length v ≤ 255)%nat.

(** The lists [attach_option] builds: one block per code, in increasing order. *)
Definition options_ok (l : option_set) : Prop :=
  Forall set_ok l ∧ StronglySorted (λ a b, set_code a < set_code b) l.

Lemma options_ok_cons d l :
  options_ok (d :: l) ↔ set_ok d ∧ options_ok l ∧ Forall (λ b, set_code d < set_code b) l.
Proof.
  unfold options_ok. rewrite Forall_cons. split.
  - intros [[Hd Hl] Hs]. apply StronglySorted_inv in Hs as [Hs Hf]. done.
  - intros (Hd & [Hl Hs] & Hf). split; [done|]. by constructor.
Qed.

Lemma find_option_below l c : Forall (λ b, c < set_code b) l → find_option l c = None.
Proof.
  destruct 1 as [|d l Hd _]; [done|]. cbn. destruct (Z.ltb_spec (set_code d) c); [lia|].
  destruct (Z.eqb_spec (set_code d) c); [lia|done].
Qed.

Lemma find_option_cons d l c :
  options_ok (d :: l) →
  find_option (d :: l) c = if decide (set_code d = c) then Some d else find_option l c.
Proof.
  intros (_ & _ & Hf)%options_ok_cons. cbn. case_decide as E.
  - destruct (Z.ltb_spec (set_code d) c); [lia|]. by rewrite (proj2 (Z.eqb_eq _ _) E).
  - destruct (Z.ltb_spec (set_code d) c); [done|]. destruct (Z.eqb_spec (set_code d) c); [done|].
    symmetry. apply find_option_below. eapply Forall_impl; [exact Hf|]. cbn. lia.
Qed.

Lemma find_option_code l c d : find_option l c = Some d → set_code d = c ∧ d ∈ l.
Proof.
  induction l as [|x l IH]; [done|]. cbn. destruct (set_code x <? c).
  - intros H. destruct (IH H). set_solver.
  - destruct (Z.eqb_spec (set_code x) c); [|done]. intros [= <-]. set_solver.
Qed.

Lemma insert_option_spec l d c :
  options_ok l → set_ok d → set_code d = c → find_option l c = None →
  options_ok (insert_option l d c)
  ∧ (∀ k, find_option (insert_option l d c) k = if decide (k = c) then Some d else find_option l k)
  ∧ ∀ b, b ∈ insert_option l d c → b = d ∨ b ∈ l.
Proof.
  intros Hl Hd Hc. induction l as [|x l IH]; intros Hf.
  - cbn [insert_option]. assert (Hok : options_ok [d]) by (apply options_ok_cons; split; [done|split; [done|constructor]]).
    split; [done|]. split; [|set_solver]. intros k. rewrite (find_option_cons d [] k Hok). rewrite Hc.
    repeat case_decide; congruence.
  - rewrite (find_option_cons x l c Hl) in Hf. case_decide as Hx; [done|].
    pose proof (proj1 (options_ok_cons _ _) Hl) as (Hxok & Hlok & Hlt).
    cbn [insert_option]. destruct (Z.ltb_spec (set_code x) c) as [Hxc|Hxc].
    + destruct (IH Hlok Hf) as (IH1 & IH2 & IH3).
      assert (Hok : options_ok (x :: insert_option l d c)).
      { apply options_ok_cons. split; [done|]. split; [done|]. rewrite Forall_forall in *.
        intros b [->|Hb]%IH3; [lia|]. by apply Hlt. }
      split; [done|]. split; [|set_solver].
      intros k. rewrite !find_option_cons by done. rewrite IH2. repeat case_decide; congruence.
    + assert (Hok : options_ok (d :: x :: l)).
      { apply options_ok_cons. split; [done|]. split; [done|]. constructor; [lia|].
        eapply Forall_impl; [exact Hlt|]. cbn. lia. }
      split; [done|]. split; [|set_solver].
      intros k. rewrite (find_option_cons d (x :: l)) by done. rewrite Hc. repeat case_decide; congruence.
Qed.

Lemma update_option_spec l c f :
  options_ok l → (∀ d, set_ok d → set_ok (f d) ∧ set_code (f d) = set_code d) →
  options_ok (update_option l c f)
  ∧ (∀ k, find_option (update_option l c f) k
          = if decide (k = c) then f <$> find_option l k else find_option l k)
  ∧ set_code <$> update_option l c f = set_code <$> l.
Proof.
  intros Hl Hf. induction l as [|x l IH].
  - split; [done|]. split; [|done]. intros k. cbn. by case_decide.
  - pose proof (proj1 (options_ok_cons _ _) Hl) as (Hxok & Hlok & Hlt).
    destruct (IH Hlok) as (IH1 & IH2 & IH3). destruct (Hf x Hxok) as [Hfx Hcx].
    assert (Hstep : ∀ y l', set_ok y → set_code y = set_code x → options_ok l' →
      set_code <$> l' = set_code <$> l → options_ok (y :: l')).
    { intros y l' Hy Hcy Hl' Hm. apply options_ok_cons. split; [done|]. split; [done|].
      rewrite Hcy. apply (Forall_fmap set_code (λ z, set_code x < z)). rewrite Hm.
      by apply Forall_fmap. }
    cbn [update_option]. destruct (Z.ltb_spec (set_code x) c) as [Hxc|Hxc].
    + assert (Hok : options_ok (x :: update_option l c f)) by (by apply Hstep).
      split; [done|]. split; [|cbn; by rewrite IH3].
      intros k. rewrite !find_option_cons by done. rewrite IH2. repeat case_decide; try congruence. lia.
    + destruct (Z.eqb_spec (set_code x) c) as [He|Hne].
      * assert (Hok : options_ok (f x :: l)) by (by apply Hstep).
        split; [done|]. split; [|cbn; by rewrite Hcx].
        intros k. rewrite !find_option_cons by done. rewrite Hcx. repeat case_decide; cbn; congruence.
      * split; [done|]. split; [|done]. intros k. case_decide as Hk; [subst k|done].
        rewrite find_option_below; [done|]. constructor; [lia|].
        eapply Forall_impl; [exact Hlt|]. cbn. lia.
Qed.

(** The value of an option after another one has been attached to it. *)
Definition joined (d : bytes) (o : dhcp_option) (buffer : bytes) : bytes :=
  if negb (Z.land (opt_flags o) OPTION_LIST =? 0)
     && (Z.of_nat (length (drop 2 d)) + Z.of_nat (length buffer) <=? 255)
  then set_code d :: Z.of_nat (length (drop 2 d ++ buffer)) :: drop 2 d ++ buffer else d.

Lemma attach_existing_spec d o buffer :
  set_ok d → attach_existing d o buffer = joined d o buffer
    ∧ set_ok (joined d o buffer) ∧ set_code (joined d o buffer) = set_code d.
Proof.
  intros (c & v & -> & Hc & Hv). unfold attach_existing, joined. cbn [drop]. rewrite drop_0.
  destruct (negb _); cbn [andb]; [|split; [done|]; split; [by exists c, v|done]].
  cbv zeta. change ((c :: Z.of_nat (length v) :: v) !!! 1%nat) with (Z.of_nat (length v)).
  destruct (Z.leb_spec (Z.of_nat (length v) + Z.of_nat (length buffer)) 255);
    [|split; [done|]; split; [by exists c, v|done]].
  rewrite Nat2Z.id. split; [|split; [|done]].
  - replace (length v + 2)%nat with (S (S (length v))) by lia. cbn [take app].
    rewrite firstn_all. cbn [insert list_insert]. rewrite length_app, Nat2Z.inj_add. done.
  - exists c, (v ++ buffer). split; [done|]. split; [done|]. rewrite length_app. lia.
Qed.

(** The list [attach_option] maintains refines a map from codes to values:
    it stays sorted with one well-formed block per code, [find_option] is the
    lookup, attaching a new code inserts it, attaching to a code that is present
    appends when the option is a list and the result fits in 255 bytes and is
    ignored otherwise, and no other code is affected. *)
Theorem attach_option_refines_map l o buffer
    (Hl : options_ok l) (Hc : 0 < opt_code o < 128) (Hb : (length buffer ≤ 255)%nat) :
  let l' := attach_option l o buffer in
  options_ok l'
  ∧ (∀ k, k ≠ opt_code o → find_option l' k = find_option l k)
  ∧ find_option l' (opt_code o) = Some
      match find_option l (opt_code o) with
      | Some d => joined d o buffer
      | None => opt_code o :: Z.of_nat (length buffer) :: buffer
      end.
Proof.
  intros l'. subst l'. unfold attach_option. rewrite s8_id by lia.
  destruct (find_option l (opt_code o)) as [d|] eqn:Ef.
  - destruct (update_option_spec l (opt_code o) (λ d, attach_existing d o buffer) Hl) as (H1 & H2 & _).
    { intros e He. destruct (attach_existing_spec e o buffer He) as (-> & ? & ?). done. }
    split; [done|]. split; [intros k Hk; by rewrite H2, decide_False|].
    rewrite H2, decide_True, Ef by done. cbn. f_equal.
    destruct (find_option_code _ _ _ Ef) as [_ Hd]. destruct Hl as [Hok _].
    rewrite Forall_forall in Hok. by apply attach_existing_spec, Hok.
  - rewrite u8_id by (unfold is_u8; lia).
    destruct (insert_option_spec l (opt_code o :: Z.of_nat (length buffer) :: buffer) (opt_code o) Hl)
      as (H1 & H2 & _); [by exists (opt_code o), buffer|done|done|].
    split; [done|]. split; [intros k Hk; by rewrite H2, decide_False|]. by rewrite H2, decide_True.
Qed.

(** ** Concrete messages *)

(** A message with the given bytes at the start of its option field. *)
Definition message (opts : bytes) : bytes :=
  replicate 240 0 ++ opts ++ replicate (308 - length opts) 0.

Definition discover_items : list item :=
  [Opt DHCP_MESSAGE_TYPE [DHCPDISCOVER]; Pad; Opt DHCP_HOST_NAME [104; 111; 115; 116]].
Definition discover : bytes := message (encs discover_items ++ [255]).

Lemma discover_has_items : has_items discover discover_items.
Proof.
  split; [reflexivity|]. split; [repeat constructor; cbn; lia|].
  exists (replicate 297 0). reflexivity.
Qed.

Lemma discover_no_overload : no_overload discover_items.
Proof.
  intros d Hd. unfold discover_items in Hd. rewrite !elem_of_cons in Hd.
  destruct Hd as [Hd|[Hd|[Hd|Hd]]]; [discriminate Hd..|by apply elem_of_nil in Hd].
Qed.

(** The overload option is read at the wrong places: its value is taken from
    the byte after it ([i + 3] for [i + 2]), and the walk goes on by the length of
    the first option of the field instead of its own.  A message whose options
    are a requested address, an overload option and a message type has the
    message type in the list, and [get_option] does not find it.  And at the last
    byte of the field a code that is not padding or the end mark makes it read
    beyond the message. *)
Theorem get_option_overload :
  let its := [Opt DHCP_REQUESTED_IP [10; 0; 0; 1]; Opt DHCP_OPTION_OVER [1];
              Opt DHCP_MESSAGE_TYPE [DHCPREQUEST]] in
  let p := message (encs its ++ [255]) in
  has_items p its ∧ find_item its DHCP_MESSAGE_TYPE 240 = Some (251%nat, [DHCPREQUEST])
  ∧ get_option p DHCP_MESSAGE_TYPE = Ok None
  ∧ get_option (message (replicate 307 0 ++ [1])) DHCP_MESSAGE_TYPE = Fault.
Proof.
  cbv zeta. split; [|split; [|split]; by vm_compute].
  split; [reflexivity|]. split; [repeat constructor; cbn; lia|].
  exists (replicate 295 0). reflexivity.
Qed.

Lemma get_option_safe_witness :
  zero_tail discover ∧ ∃ r, get_option discover DHCP_MESSAGE_TYPE = Ok r.
Proof.
  assert (Hz : zero_tail discover).
  { split; [reflexivity|]. intros i Hi.
    assert (i = 544 ∨ i = 545 ∨ i = 546 ∨ i = 547)%nat as [->|[->|[->| ->]]] by lia; reflexivity. }
  split; [exact Hz|].
  destruct (proj2 (get_option_safe discover DHCP_MESSAGE_TYPE) Hz) as (r & E & _); [discriminate|].
  exists r. exact E.
Defined.

Lemma get_option_correct_witness :
  get_option discover DHCP_HOST_NAME = Ok (Some 246%nat) ∧ slice discover 246 4 = [104; 111; 115; 116].
Proof.
  assert (Hc : 0 < DHCP_HOST_NAME < 255) by (unfold DHCP_HOST_NAME; lia).
  pose proof (get_option_correct discover discover_items DHCP_HOST_NAME
    discover_has_items discover_no_overload Hc) as H.
  split; [exact (proj1 H)|exact (proj1 (proj2 H))].
Defined.

Lemma add_option_string_correct_witness :
  ∃ p, add_option_string discover [DHCP_SERVER_ID; 4; 192; 168; 0; 1] = Ok (6, p)
    ∧ has_items p (discover_items ++ [Opt DHCP_SERVER_ID [192; 168; 0; 1]]).
Proof.
  assert (Hc : 0 < DHCP_SERVER_ID < 255) by (unfold DHCP_SERVER_ID; lia).
  assert (Hd : (length [192; 168; 0; 1] ≤ 255)%nat) by (cbn; lia).
  pose proof (add_option_string_correct discover discover_items DHCP_SERVER_ID [192; 168; 0; 1]
    discover_has_items Hc Hd) as H.
  rewrite decide_True in H by (cbn; lia). destruct H as (p & E & Hp & _).
  exists p. split; [exact E|exact Hp].
Defined.

Definition dns_option : dhcp_option := mk_option "dns" (Z.lor (Z.lor OPTION_IP OPTION_LIST) OPTION_REQ) 6.

Lemma attach_option_refines_map_witness :
  find_option (attach_option [[1; 4; 255; 255; 255; 0]; [6; 4; 10; 0; 0; 1]] dns_option [10; 0; 0; 2]) 6
  = Some [6; 8; 10; 0; 0; 1; 10; 0; 0; 2].
Proof.
  assert (Hl : options_ok [[1; 4; 255; 255; 255; 0]; [6; 4; 10; 0; 0; 1]]).
  { split.
    - constructor; [|constructor; [|constructor]].
      + exists 1, [255; 255; 255; 0]. split; [reflexivity|]. cbn. lia.
      + exists 6, [10; 0; 0; 1]. split; [reflexivity|]. cbn. lia.
    - repeat constructor. }
  assert (Hc : 0 < opt_code dns_option < 128) by (cbn; lia).
  assert (Hb : (length [10; 0; 0; 2] ≤ 255)%nat) by (cbn; lia).
  exact (proj2 (proj2 (attach_option_refines_map _ dns_option [10; 0; 0; 2] Hl Hc Hb))).
Defined.
