(* ===== verification/DhcpPacket.v ===== *)
(** * DHCP packets (progs.gpl/udhcpcd: packet.c, packet.h and [get_raw_packet] of
    clientpacket.c)

    Construction of messages, their UDP/IP frames, the Internet checksum, and the
    two ways messages are received.  Sockets are outside: what a [read] returned
    is an argument, what would be sent is the result. *)

From stdpp Require Import base numbers strings list.
From S2P Require Import Prelude Bytes DhcpOptions.

(** ** [init_header] *)

Definition zero_msg : bytes := replicate MSG_SIZE 0.

(** [type] is a [char]; types outside the cases leave [op] zero. *)
Definition header_op (type : Z) : option Z :=
  if (type =? DHCPDISCOVER) || (type =? DHCPREQUEST) || (type =? DHCPRELEASE) || (type =? DHCPINFORM)
  then Some BOOTREQUEST
  else if (type =? DHCPOFFER) || (type =? DHCPACK) || (type =? DHCPNAK)
  then Some BOOTREPLY else None.

Definition init_header (type : Z) : res bytes :=
  let p := match header_op type with Some v => set8 zero_msg F_op v | None => zero_msg end in
  let p := set8 p F_htype ETH_10MB in
  let p := set8 p F_hlen ETH_10MB_LEN in
  let p := set32 p F_cookie DHCP_MAGIC in
  let p := set8 p F_options DHCP_END in
  '(_, p) ← add_simple_option p DHCP_MESSAGE_TYPE type;
  mret p.

(** ** [get_packet] *)

(** "MSFT 98" *)
Definition broken_vendor : bytes := [77; 83; 70; 84; 32; 57; 56].

(** [get_packet], given what [read] delivered ([None] when it failed, at most 548
    bytes): the result and the message. *)
Definition get_packet (input : option bytes) : res (Z * bytes) :=
  match input with
  | None => mret (-1, zero_msg)
  | Some data =>
      p ← write_at zero_msg 0 data;
      if negb (cookie p =? DHCP_MAGIC) then mret (-2, p)
      else
        p ← (if op p =? BOOTREQUEST then
               vendor ← get_option p DHCP_VENDOR;
               match vendor with
               | None => mret p
               | Some v =>
                   len ← byte_at p (v - 1);
                   if (len =? Z.of_nat (length broken_vendor))
                      && strncmp_eq (drop v p) broken_vendor (Z.to_nat len)
                   then mret (set16 p F_flags (Z.lor (flags p) BROADCAST_FLAG))
                   else mret p
               end
             else mret p);
        mret (Z.of_nat (length data), p)
  end.

(** ** The Internet checksum *)

(** The accumulation, an [int32_t]; the odd byte is the high byte of its word. *)
Fixpoint sum_words (sum : Z) (l : bytes) : Z :=
  match l with
  | a :: b :: l => sum_words (s32 (sum + (a * 256 + b))) l
  | [a] => s32 (sum + a * 256)
  | [] => sum
  end.

Fixpoint fold_sum (fuel : nat) (sum : Z) : res Z :=
  if Z.shiftr sum 16 =? 0 then mret sum
  else match fuel with
  | O => NoFuel
  | S fuel => fold_sum fuel (s32 (Z.land sum 0xffff + Z.shiftr sum 16))
  end.

Definition checksum (l : bytes) : res Z :=
  s ← fold_sum 2 (sum_words 0 l); mret (u16 (Z.lnot s)).

(** ** Frames: [struct udp_dhcp_packet] *)

Record frame := mk_frame
  { f_version : Z; f_ihl : Z; f_tos : Z; f_tot_len : Z; f_id : Z; f_frag : Z; f_ttl : Z;
    f_protocol : Z; f_ipcheck : Z; f_saddr : Z; f_daddr : Z;
    f_source : Z; f_dest : Z; f_len : Z; f_udpcheck : Z; f_data : bytes }.

Definition IP_SIZE : nat := 20.
Definition UDP_SIZE : nat := 8.
Definition FRAME_SIZE : nat := 576.
Definition IPPROTO_UDP : Z := 17.
Definition IPVERSION : Z := 4.
Definition IPDEFTTL : Z := 64.
Definition SERVER_PORT : Z := 67.
Definition CLIENT_PORT : Z := 68.

Definition ip_bytes (f : frame) : bytes :=
  [f_version f * 16 + f_ihl f; f_tos f] ++ be_bytes 2 (f_tot_len f) ++ be_bytes 2 (f_id f)
  ++ be_bytes 2 (f_frag f) ++ [f_ttl f; f_protocol f] ++ be_bytes 2 (f_ipcheck f)
  ++ be_bytes 4 (f_saddr f) ++ be_bytes 4 (f_daddr f).

Definition udp_bytes (f : frame) : bytes :=
  be_bytes 2 (f_source f) ++ be_bytes 2 (f_dest f) ++ be_bytes 2 (f_len f)
  ++ be_bytes 2 (f_udpcheck f).

Definition frame_bytes (f : frame) : bytes := ip_bytes f ++ udp_bytes f ++ f_data f.

Definition byte (b : bytes) (i : nat) : Z := b !!! i.

Definition frame_of (b : bytes) : frame :=
  mk_frame (byte b 0 / 16) (byte b 0 `mod` 16) (byte b 1) (get16 b 2) (get16 b 4) (get16 b 6)
    (byte b 8) (byte b 9) (get16 b 10) (get32 b 12) (get32 b 16)
    (get16 b 20) (get16 b 22) (get16 b 24) (get16 b 26) (drop 28 b).

Definition with_ipcheck (f : frame) v :=
  mk_frame (f_version f) (f_ihl f) (f_tos f) (f_tot_len f) (f_id f) (f_frag f) (f_ttl f)
    (f_protocol f) v (f_saddr f) (f_daddr f) (f_source f) (f_dest f) (f_len f) (f_udpcheck f)
    (f_data f).

(** The pseudo header in place of the IP header: zeros but for the protocol, the
    addresses and, in [tot_len], the UDP length. *)
Definition pseudo (saddr daddr source dest len check : Z) (data : bytes) : frame :=
  mk_frame 0 0 0 len 0 0 0 IPPROTO_UDP 0 saddr daddr source dest len check data.

(** The frame [raw_packet] sends. *)
Definition raw_packet_frame (payload : bytes) (source_ip source_port dest_ip dest_port : Z)
  : res frame :=
  let len := Z.of_nat (UDP_SIZE + MSG_SIZE) in
  let sp := u16 source_port in
  let dp := u16 dest_port in
  c ← checksum (frame_bytes (pseudo source_ip dest_ip sp dp len 0 payload));
  let f := mk_frame IPVERSION (Z.of_nat IP_SIZE / 4) 0 (Z.of_nat FRAME_SIZE) 0 0 IPDEFTTL
             IPPROTO_UDP 0 source_ip dest_ip sp dp len c payload in
  h ← checksum (ip_bytes f);
  mret (with_ipcheck f h).

(** ** [get_raw_packet] *)

(** [memcpy(_, b, n)] with [n] a [size_t]: the bytes read. *)
Definition read_n (b : bytes) (n : Z) : res bytes :=
  if n <=? Z.of_nat (length b) then Ok (take (Z.to_nat n) b) else Fault.

(** [input] is what [read] delivered, at most 576 bytes; [payload] the caller's
    buffer, which the message overwrites from its start. *)
Definition get_raw_packet (payload : bytes) (input : option bytes) : res (Z * bytes) :=
  match input with
  | None => mret (-1, payload)
  | Some data =>
      b ← write_at (replicate FRAME_SIZE 0) 0 data;
      let f := frame_of b in
      let n := Z.of_nat (length data) in
      if n <? Z.of_nat (IP_SIZE + UDP_SIZE) then mret (-2, payload)
      else if n <? f_tot_len f then mret (-2, payload)
      else
        let n := f_tot_len f in
        if negb (f_protocol f =? IPPROTO_UDP) || negb (f_version f =? IPVERSION)
           || negb (f_ihl f =? Z.of_nat IP_SIZE / 4) || negb (f_dest f =? CLIENT_PORT)
           || (Z.of_nat FRAME_SIZE <? n) || negb (f_len f =? n - Z.of_nat IP_SIZE)
        then mret (-2, payload)
        else
          c ← checksum (ip_bytes (with_ipcheck f 0));
          if negb (f_ipcheck f =? c) then mret (-1, payload)
          else
            let g := pseudo (f_saddr f) (f_daddr f) (f_source f) (f_dest f) (f_len f) 0 (f_data f) in
            c ← checksum (take (Z.to_nat n) (frame_bytes g));
            if negb (f_udpcheck f =? 0) && negb (f_udpcheck f =? c) then mret (-2, payload)
            else
              s ← read_n (f_data f) (u32 (n - Z.of_nat (IP_SIZE + UDP_SIZE)));
              payload ← write_at payload 0 s;
              if negb (cookie payload =? DHCP_MAGIC) then mret (-2, payload)
              else mret (n - Z.of_nat (IP_SIZE + UDP_SIZE), payload)
  end.

#[global] Strategy 400 [init_header get_packet checksum sum_words fold_sum].
