(* ===== verification/DhcpPacketProps.v ===== *)
(** * DHCP packets: the theorems

    Messages of [init_header], the Internet checksum, and frames: what
    [raw_packet] sends [get_raw_packet] accepts, and what [get_raw_packet] does
    on any other frame. *)

From stdpp Require Import base numbers sets strings list.
From S2P Require Import Prelude Bytes DhcpOptions DhcpOptionsProps DhcpPacket.

#[global] Arguments init_header : simpl never.
#[global] Arguments get_packet : simpl never.
#[global] Arguments checksum : simpl never.
#[global] Arguments FRAME_SIZE : simpl never.
#[global] Arguments zero_msg : simpl never.

(** ** Messages of [init_header] *)

Lemma init_header_spec t :
  1 ≤ t ≤ 8 →
  ∃ p, init_header t = Ok p ∧ has_items p [Opt DHCP_MESSAGE_TYPE [t]]
    ∧ cookie p = DHCP_MAGIC ∧ is_bytes p
    ∧ op p = (if decide (t = DHCPDECLINE) then 0
              else if decide (t = DHCPOFFER ∨ t = DHCPACK ∨ t = DHCPNAK) then BOOTREPLY else BOOTREQUEST).
Proof.
  intros Ht. assert (t = 1 ∨ t = 2 ∨ t = 3 ∨ t = 4 ∨ t = 5 ∨ t = 6 ∨ t = 7 ∨ t = 8) as Hc by lia.
  destruct_or! Hc; subst t; (eexists; split; [vm_compute; reflexivity|]);
    (split; [split; [reflexivity|split; [repeat constructor|exists (replicate 304 0); reflexivity]]|]);
    (split; [reflexivity|]);
    (split; [apply (bool_decide_eq_true_1 (Forall (λ z, 0 ≤ z < 256) _)); vm_compute; reflexivity|reflexivity]).
Qed.

(** ** The checksum *)

(** The sum of the 16-bit words. *)
Fixpoint words (l : bytes) : Z :=
  match l with
  | a :: b :: l => a * 256 + b + words l
  | [a] => a * 256
  | [] => 0
  end.

Lemma words_range n l : is_bytes l → (length l ≤ 2 * n)%nat → 0 ≤ words l ≤ 65535 * Z.of_nat n.
Proof.
  revert l. induction n as [|n IH]; intros l Hb Hl.
  - destruct l; cbn in *; lia.
  - destruct l as [|a [|b l]]; [cbn; lia| |].
    + inversion Hb; subst. unfold is_u8 in *. cbn. lia.
    + inversion Hb as [|? ? Ha Hb']; subst. inversion Hb' as [|? ? Hb2 Hl2]; subst.
      cbn in Hl. specialize (IH l Hl2 ltac:(lia)). unfold is_u8 in *. cbn [words]. lia.
Qed.

Lemma sum_words_spec n l sum :
  is_bytes l → (length l ≤ 2 * n)%nat → 0 ≤ sum → sum + 65535 * Z.of_nat n < 2147483648 →
  sum_words sum l = sum + words l.
Proof.
  revert l sum. induction n as [|n IH]; intros l sum Hb Hl H0 Hs.
  - destruct l; cbn in *; lia.
  - destruct l as [|a [|b l]]; [cbn; lia| |].
    + inversion Hb; subst. unfold is_u8 in *. cbn [sum_words words]. rewrite s32_id; lia.
    + inversion Hb as [|? ? Ha Hb']; subst. inversion Hb' as [|? ? Hb2 Hl2]; subst.
      cbn in Hl. unfold is_u8 in *. cbn [sum_words words]. rewrite s32_id by lia.
      rewrite IH by (done || lia). lia.
Qed.

Lemma fold_step s :
  0 ≤ s < 2147483648 →
  let s' := s32 (Z.land s 0xffff + Z.shiftr s 16) in
  s' = s `mod` 65536 + s / 65536 ∧ s' `mod` 65535 = s `mod` 65535
  ∧ (Z.shiftr s 16 =? 0) = bool_decide (s < 65536).
Proof.
  intros Hs s'. subst s'. change 0xffff with (Z.ones 16). rewrite Z.land_ones, Z.shiftr_div_pow2 by lia.
  change (2 ^ 16) with 65536.
  assert (0 ≤ s / 65536 < 32768) by (split; [apply Z.div_pos; lia|apply Z.div_lt_upper_bound; lia]).
  pose proof (Z.mod_pos_bound s 65536). rewrite s32_id by lia. split; [done|]. split.
  - rewrite (Z.div_mod s 65536) at 3 by lia.
    replace (65536 * (s / 65536) + s `mod` 65536)
      with (s `mod` 65536 + s / 65536 + s / 65536 * 65535) by lia.
    by rewrite Z_mod_plus_full.
  - case_bool_decide as Hd.
    + rewrite Z.div_small by lia. done.
    + apply Z.eqb_neq. intros E. apply Z.div_small_iff in E; lia.
Qed.

Lemma fold_sum_spec s :
  0 ≤ s < 2147483648 →
  ∃ r, fold_sum 2 s = Ok r ∧ 0 ≤ r < 65536 ∧ r `mod` 65535 = s `mod` 65535 ∧ (s = 0 ↔ r = 0).
Proof.
  intros Hs. destruct (fold_step s Hs) as (E1 & M1 & B1). cbn [fold_sum]. rewrite B1.
  case_bool_decide as H1; [exists s; split; [done|lia]|]. rewrite E1 in M1 |- *.
  set (s1 := s `mod` 65536 + s / 65536) in *.
  assert (Hr1 : 1 ≤ s1 < 98304).
  { subst s1. pose proof (Z.mod_pos_bound s 65536).
    assert (1 ≤ s / 65536) by (apply Z.div_le_lower_bound; lia).
    assert (s / 65536 < 32768) by (apply Z.div_lt_upper_bound; lia). lia. }
  destruct (fold_step s1 ltac:(lia)) as (E2 & M2 & B2). rewrite B2.
  case_bool_decide as H2; [exists s1; split; [done|lia]|]. rewrite E2 in M2 |- *.
  set (s2 := s1 `mod` 65536 + s1 / 65536) in *.
  assert (Hr2 : 1 ≤ s2 < 65536).
  { subst s2. assert (s1 / 65536 = 1) as -> by (symmetry; apply (Z.div_unique _ _ _ (s1 - 65536)); lia).
    assert (s1 `mod` 65536 = s1 - 65536) as -> by (symmetry; apply (Z.mod_unique _ _ 1); lia). lia. }
  destruct (fold_step s2 ltac:(lia)) as (_ & _ & B3). rewrite B3.
  rewrite bool_decide_true by lia. exists s2. split; [done|lia].
Qed.

Lemma checksum_spec l :
  is_bytes l → (length l ≤ 2000)%nat →
  ∃ c, checksum l = Ok c ∧ 0 ≤ c < 65536 ∧ (words l + c) `mod` 65535 = 0 ∧ (c = 65535 ↔ words l = 0).
Proof.
  intros Hb Hl. pose proof (words_range 1000 l Hb ltac:(lia)) as Hw. unfold checksum.
  rewrite (sum_words_spec 1000 l 0) by (done || lia). rewrite Z.add_0_l.
  destruct (fold_sum_spec (words l) ltac:(lia)) as (r & -> & Hr & Hm & Hz). cbn [mbind res_bind].
  assert (u16 (Z.lnot r) = 65535 - r) as ->.
  { unfold u16, Z.lnot. symmetry. apply (Z.mod_unique _ _ (-1)); lia. }
  eexists. split; [done|]. split; [lia|]. split; [|lia].
  rewrite Z.add_mod, <- Hm, <- Z.add_mod by lia.
  replace (r + (65535 - r)) with (1 * 65535) by lia. by apply Z_mod_mult.
Qed.

(** ** Frames *)

Definition frame_ok (f : frame) : Prop :=
  0 ≤ f_version f < 16 ∧ 0 ≤ f_ihl f < 16 ∧ is_u8 (f_tos f) ∧ is_u8 (f_ttl f)
  ∧ is_u8 (f_protocol f)
  ∧ Forall (λ v, 0 ≤ v < 65536) [f_tot_len f; f_id f; f_frag f; f_ipcheck f; f_source f;
      f_dest f; f_len f; f_udpcheck f]
  ∧ is_u32 (f_saddr f) ∧ is_u32 (f_daddr f) ∧ is_bytes (f_data f) ∧ length (f_data f) = 548%nat.

Lemma length_ip_bytes f : length (ip_bytes f) = 20%nat.
Proof. done. Qed.

Lemma length_frame_bytes f : length (f_data f) = 548%nat → length (frame_bytes f) = 576%nat.
Proof. intros H. unfold frame_bytes. rewrite !length_app, H. done. Qed.

Lemma is_bytes_ip f : frame_ok f → is_bytes (ip_bytes f).
Proof.
  intros (? & ? & ? & ? & ? & _). unfold ip_bytes, is_bytes. rewrite !Forall_app.
  repeat split; try apply is_bytes_be_bytes; repeat constructor; unfold is_u8 in *; lia.
Qed.

Lemma is_bytes_frame f : frame_ok f → is_bytes (frame_bytes f).
Proof.
  intros Hf. unfold frame_bytes, is_bytes. rewrite !Forall_app. split; [by apply is_bytes_ip|].
  split; [|apply Hf]. unfold udp_bytes. rewrite !Forall_app. repeat split; apply is_bytes_be_bytes.
Qed.

Lemma slice_app_skip (a b : bytes) off n :
  (length a ≤ off)%nat → slice (a ++ b) off n = slice b (off - length a) n.
Proof. intros H. unfold slice. by rewrite drop_app_ge. Qed.

Lemma slice_app_here (a b : bytes) n : length a = n → slice (a ++ b) 0 n = a.
Proof. intros <-. unfold slice. rewrite drop_0. apply take_app_length. Qed.

(** The words of a frame, read back. *)
Lemma frame_of_bytes f : frame_ok f → frame_of (frame_bytes f) = f.
Proof.
  intros (Hv & Hi & Ht & Htt & Hp & H16 & Hs & Hd & Hda & Hl).
  destruct f as [v i t tl id fr ttl pr ic sa da so de le uc data].
  cbn in Hv, Hi, Ht, Htt, Hp, H16, Hs, Hd, Hda, Hl.
  assert (B2 : ∀ x, x ∈ [tl; id; fr; ic; so; de; le; uc] → be_val (be_bytes 2 x) = x).
  { intros x Hx. rewrite be_val_bytes. apply Z.mod_small. rewrite Forall_forall in H16. by apply H16. }
  assert (B4 : ∀ x, is_u32 x → be_val (be_bytes 4 x) = x).
  { intros x Hx. rewrite be_val_bytes. by apply Z.mod_small. }
  assert (Hhd : byte (frame_bytes (mk_frame v i t tl id fr ttl pr ic sa da so de le uc data)) 0
                = v * 16 + i) by reflexivity.
  unfold frame_of. rewrite Hhd. f_equal; try reflexivity.
  - rewrite Z.div_add_l by lia. rewrite Z.div_small; lia.
  - rewrite Z.add_comm, Z_mod_plus_full. by apply Z.mod_small.
  - apply B2. set_solver.
  - apply B2. set_solver.
  - apply B2. set_solver.
  - apply B2. set_solver.
  - by apply B4.
  - by apply B4.
  - apply B2. set_solver.
  - apply B2. set_solver.
  - apply B2. set_solver.
  - apply B2. set_solver.
Qed.

Lemma frame_of_data b : length b = 576%nat → length (f_data (frame_of b)) = 548%nat.
Proof. intros Hb. cbn. rewrite length_drop, Hb. done. Qed.

Lemma byte_range b i : is_bytes b → is_u8 (byte b i).
Proof.
  intros Hb. unfold byte. rewrite list_lookup_total_alt. destruct (b !! i) eqn:E; cbn.
  - by eapply Forall_lookup_1.
  - unfold is_u8, inhabitant. cbn. lia.
Qed.

(** Every buffer of 576 bytes holds a frame in range. *)
Lemma frame_of_ok b : length b = 576%nat → is_bytes b → frame_ok (frame_of b).
Proof.
  intros Hl Hb. pose proof (byte_range b 0 Hb) as H0. unfold is_u8 in H0. unfold frame_of, frame_ok. split_and!; cbn;
    try apply (byte_range b _ Hb); try apply (get32_range b _ Hb).
  - apply Z.div_pos; lia.
  - apply Z.div_lt_upper_bound; lia.
  - apply Z.mod_pos_bound. lia.
  - apply Z.mod_pos_bound. lia.
  - repeat constructor; by apply get16_range.
  - by apply Forall_drop.
  - by rewrite length_drop, Hl.
Qed.

(** ** Sending and receiving frames *)

Lemma splice_all (b s : bytes) : length s = length b → splice b 0 s = s.
Proof.
  intros Hl. unfold splice. rewrite take_0, drop_ge by (rewrite Hl; lia). cbn. apply app_nil_r.
Qed.

Lemma write_all (b s : bytes) : length s = length b → write_at b 0 s = Ok s.
Proof. intros Hl. rewrite write_at_Ok by lia. by rewrite splice_all. Qed.

Lemma frame_ok_pseudo sa da so de le c data :
  is_u32 sa → is_u32 da → 0 ≤ so < 65536 → 0 ≤ de < 65536 → 0 ≤ le < 65536 → 0 ≤ c < 65536 →
  is_bytes data → length data = 548%nat → frame_ok (pseudo sa da so de le c data).
Proof.
  intros. unfold frame_ok, is_u8. cbn. split_and!; try done; try lia. repeat constructor; lia.
Qed.

Lemma u16_range z : 0 ≤ u16 z < 65536.
Proof. unfold u16. apply Z.mod_pos_bound. lia. Qed.

Lemma checksum_frame f :
  frame_ok f → ∃ c, checksum (frame_bytes f) = Ok c ∧ 0 ≤ c < 65536.
Proof.
  intros Hf. destruct (checksum_spec (frame_bytes f)) as (c & E & Hc & _); [by apply is_bytes_frame| |eauto].
  rewrite length_frame_bytes by apply Hf. lia.
Qed.

Lemma checksum_ip f : frame_ok f → ∃ c, checksum (ip_bytes f) = Ok c ∧ 0 ≤ c < 65536.
Proof.
  intros Hf. destruct (checksum_spec (ip_bytes f)) as (c & E & Hc & _); [by apply is_bytes_ip| |eauto].
  rewrite length_ip_bytes. lia.
Qed.

(** [checksum] is the Internet checksum: on up to 2000 bytes it stops, and
    the sum of the 16-bit words (an odd last byte taken as the high byte) with
    the checksum added is a multiple of 65535, so that a receiver's sum folds to
    zero; the checksum is 0xffff only for zeros. *)
Theorem checksum_correct l (Hb : is_bytes l) (Hl : (length l ≤ 2000)%nat) :
  ∃ c, checksum l = Ok c ∧ 0 ≤ c < 65536 ∧ (words l + c) `mod` 65535 = 0
    ∧ (c = 65535 ↔ words l = 0).
Proof. by apply checksum_spec. Qed.

(** What [raw_packet] puts into the frame. *)
Lemma raw_packet_frame_spec payload sip sport dip dport :
  is_bytes payload → length payload = 548%nat → is_u32 sip → is_u32 dip →
  ∃ c h, raw_packet_frame payload sip sport dip dport
    = Ok (with_ipcheck (mk_frame 4 5 0 576 0 0 64 17 0 sip dip (u16 sport) (u16 dport) 556 c payload) h)
    ∧ checksum (frame_bytes (pseudo sip dip (u16 sport) (u16 dport) 556 0 payload)) = Ok c
    ∧ checksum (ip_bytes (mk_frame 4 5 0 576 0 0 64 17 0 sip dip (u16 sport) (u16 dport) 556 c payload)) = Ok h
    ∧ frame_ok (with_ipcheck (mk_frame 4 5 0 576 0 0 64 17 0 sip dip (u16 sport) (u16 dport) 556 c payload) h).
Proof.
  intros Hb Hl Hs Hd. pose proof (u16_range sport) as H1. pose proof (u16_range dport) as H2.
  destruct (checksum_frame (pseudo sip dip (u16 sport) (u16 dport) 556 0 payload)) as (c & Ec & Hc).
  { apply frame_ok_pseudo; done || lia. }
  assert (Hok : ∀ h, 0 ≤ h < 65536 →
    frame_ok (mk_frame 4 5 0 576 0 0 64 17 h sip dip (u16 sport) (u16 dport) 556 c payload)).
  { intros h Hh. unfold frame_ok, is_u8. cbn. split_and!; try done; try lia. repeat constructor; lia. }
  destruct (checksum_ip _ (Hok 0 ltac:(lia))) as (h & Eh & Hh).
  exists c, h. unfold raw_packet_frame.
  change (Z.of_nat (UDP_SIZE + MSG_SIZE)) with 556. rewrite Ec. cbn [mbind res_bind].
  change (mk_frame IPVERSION (Z.of_nat IP_SIZE / 4) 0 (Z.of_nat FRAME_SIZE) 0 0 IPDEFTTL IPPROTO_UDP)
    with (mk_frame 4 5 0 576 0 0 64 17).
  rewrite Eh. cbn [mbind res_bind]. split; [done|]. split; [done|]. split; [done|].
  by apply Hok.
Qed.

(** A frame that [raw_packet] builds for the client's port is accepted by
    [get_raw_packet], which delivers the 548 bytes of the message: both checksums
    are those the receiver computes. *)
Theorem raw_packet_roundtrip payload old sip sport dip
    (Hb : is_bytes payload) (Hl : length payload = 548%nat) (Ho : length old = 548%nat)
    (Hs : is_u32 sip) (Hd : is_u32 dip) (Hm : cookie payload = DHCP_MAGIC) :
  ∃ f, raw_packet_frame payload sip sport dip CLIENT_PORT = Ok f
    ∧ length (frame_bytes f) = FRAME_SIZE
    ∧ get_raw_packet old (Some (frame_bytes f)) = Ok (548, payload).
Proof.
  destruct (raw_packet_frame_spec payload sip sport dip CLIENT_PORT Hb Hl Hs Hd)
    as (c & h & E & Ec & Eh & Hok).
  eexists. split; [exact E|]. set (f := with_ipcheck _ _) in *.
  assert (Hlf : length (frame_bytes f) = 576%nat) by (apply length_frame_bytes; done).
  split; [done|]. unfold get_raw_packet. rewrite write_all by (by rewrite Hlf).
  cbn [mbind res_bind]. rewrite (frame_of_bytes f Hok), Hlf.
  change (u16 CLIENT_PORT) with 68 in *. subst f.
  cbv zeta. cbn [f_version f_ihl f_tos f_tot_len f_id f_frag f_ttl f_protocol f_ipcheck f_saddr
    f_daddr f_source f_dest f_len f_udpcheck f_data with_ipcheck].
  change (Z.of_nat 576 <? Z.of_nat (IP_SIZE + UDP_SIZE)) with false.
  change (Z.of_nat 576 <? 576) with false. cbv iota.
  change (negb (17 =? IPPROTO_UDP) || negb (4 =? IPVERSION) || negb (5 =? Z.of_nat IP_SIZE / 4)
    || negb (68 =? CLIENT_PORT) || (Z.of_nat FRAME_SIZE <? 576) || negb (556 =? 576 - Z.of_nat IP_SIZE))
    with false.
  cbv iota.
  match goal with |- context [checksum (ip_bytes ?x)] =>
    replace (checksum (ip_bytes x)) with (Ok h) by (symmetry; exact Eh) end.
  cbn [mbind res_bind]. rewrite Z.eqb_refl. cbn [negb].
  rewrite take_ge by (rewrite length_frame_bytes by done; vm_compute; lia).
  rewrite Ec. cbn [mbind res_bind]. rewrite Z.eqb_refl, andb_false_r.
  change (u32 (576 - Z.of_nat (IP_SIZE + UDP_SIZE))) with 548. unfold read_n. rewrite Hl.
  change (548 <=? Z.of_nat 548) with true. cbn [mbind res_bind].
  rewrite take_ge by (rewrite Hl; vm_compute; lia).
  rewrite write_all by lia. cbn [mbind res_bind]. rewrite Hm, Z.eqb_refl. done.
Qed.

(** A frame whose IP header announces no data: 20 bytes of total length and a
    UDP length of 0, with a correct header checksum and no UDP checksum. *)
Definition short_frame : bytes :=
  let f := mk_frame 4 5 0 20 0 0 64 17 0 0 0 0 68 0 0 [] in
  match checksum (ip_bytes f) with
  | Ok h => frame_bytes (with_ipcheck f h)
  | _ => []
  end.

(** [get_raw_packet] stops on every frame of up to 576 bytes, and reads and
    writes only inside its buffers when the total length in the IP header is not
    20 to 27.  For those lengths the check [udp.len != bytes - 20] can pass, and
    the size of the copy, [bytes - 28], is negative and becomes 4 GB: the frame
    [short_frame], of 28 bytes, makes the client copy beyond its buffers. *)
Theorem get_raw_packet_bounds old data
    (Ho : length old = 548%nat) (Hb : is_bytes data) (Hl : (length data ≤ 576)%nat) :
  ((∃ r p, get_raw_packet old (Some data) = Ok (r, p) ∧ length p = 548%nat)
   ∨ get_raw_packet old (Some data) = Fault
     ∧ 20 ≤ f_tot_len (frame_of (splice (replicate FRAME_SIZE 0) 0 data)) < 28)
  ∧ get_raw_packet zero_msg (Some short_frame) = Fault.
Proof.
  split; [|by vm_compute]. unfold get_raw_packet.
  assert (Hz : length (replicate FRAME_SIZE 0) = 576%nat) by apply length_replicate.
  rewrite write_at_Ok by (rewrite Hz; lia). cbn [mbind res_bind].
  set (b := splice _ 0 data).
  assert (Hlb : length b = 576%nat) by (subst b; rewrite length_splice; rewrite Hz; lia).
  assert (Hbb : is_bytes b).
  { apply is_bytes_splice; [|done]. apply Forall_replicate. unfold is_u8. lia. }
  pose proof (frame_of_ok b Hlb Hbb) as Hok. set (f := frame_of b) in *. cbv zeta.
  destruct (_ <? Z.of_nat (IP_SIZE + UDP_SIZE)); [left; eauto|].
  destruct (_ <? f_tot_len f); [left; eauto|].
  destruct (_ || _) eqn:Eg; [left; eauto|].
  rewrite !orb_false_iff, !negb_false_iff, Z.ltb_ge, !Z.eqb_eq in Eg.
  destruct Eg as [[_ Hn] Hlen]. change (Z.of_nat FRAME_SIZE) with 576 in Hn.
  change (Z.of_nat IP_SIZE) with 20 in Hlen.
  assert (Hf : 0 ≤ f_len f < 65536 ∧ 0 ≤ f_tot_len f < 65536 ∧ 0 ≤ f_source f < 65536 ∧ 0 ≤ f_dest f < 65536).
  { destruct Hok as (_ & _ & _ & _ & _ & H16 & _). rewrite Forall_forall in H16.
    split_and!; apply H16; set_solver. }
  assert (Hok0 : frame_ok (with_ipcheck f 0)).
  { clear Hf. clearbody f. destruct Hok as (? & ? & ? & ? & ? & H16 & ?). do 5 (split; [done|]). split; [|done].
    rewrite !Forall_cons in H16. destruct H16 as (?&?&?&?&?&?&?&?&_). 
    rewrite !Forall_cons, Forall_nil. cbn. lia. }
  destruct (checksum_ip _ Hok0) as (c & -> & _). cbn [mbind res_bind].
  destruct (negb _); [left; eauto|].
  set (g := pseudo _ _ _ _ _ _ _).
  assert (Hg : frame_ok g).
  { destruct Hok as (_ & _ & _ & _ & _ & _ & ? & ? & ? & ?). apply frame_ok_pseudo; done || lia. }
  destruct (checksum_spec (take (Z.to_nat (f_tot_len f)) (frame_bytes g))) as (c' & -> & _).
  { by apply Forall_take, is_bytes_frame. } { rewrite length_take. lia. }
  cbn [mbind res_bind]. destruct (negb _ && _); [left; eauto|].
  change (Z.of_nat (IP_SIZE + UDP_SIZE)) with 28. unfold read_n.
  assert (Hd : length (f_data f) = 548%nat) by apply Hok. rewrite Hd.
  destruct (decide (f_tot_len f < 28)) as [Hlt|Hge].
  - right. destruct (Z.leb_spec (u32 (f_tot_len f - 28)) (Z.of_nat 548)) as [Hle|_]; [exfalso|split; [done|lia]].
    assert (u32 (f_tot_len f - 28) = f_tot_len f - 28 + 4294967296) as E; [|lia].
    unfold u32. symmetry. apply (Z.mod_unique _ _ (-1)); lia.
  - left. rewrite u32_id by (unfold is_u32; lia).
    destruct (Z.leb_spec (f_tot_len f - 28) (Z.of_nat 548)); [|lia]. cbn [mbind res_bind].
    set (d := take _ _). assert (Hld : (length d ≤ 548)%nat) by (subst d; rewrite length_take; lia).
    rewrite write_at_Ok by lia. cbn [mbind res_bind].
    assert (length (splice old 0 d) = 548%nat) by (rewrite length_splice; lia).
    destruct (negb _); eauto.
Qed.

(** ** Concrete packets *)

Definition offer_payload : bytes := match init_header DHCPOFFER with Ok p => p | _ => [] end.

Lemma offer_payload_ok :
  is_bytes offer_payload ∧ length offer_payload = 548%nat ∧ cookie offer_payload = DHCP_MAGIC.
Proof.
  split; [|split; by vm_compute].
  apply (bool_decide_eq_true_1 (Forall (λ z, 0 ≤ z < 256) _)). by vm_compute.
Qed.

Lemma checksum_correct_witness : ∃ c, checksum [69; 0; 2; 64; 64; 17; 7] = Ok c ∧ 0 ≤ c < 65536.
Proof.
  assert (Hb : is_bytes [69; 0; 2; 64; 64; 17; 7]) by (repeat constructor; cbn; lia).
  assert (Hl : (length [69; 0; 2; 64; 64; 17; 7] ≤ 2000)%nat) by (cbn; lia).
  destruct (checksum_correct _ Hb Hl) as (c & E & Hc & _). exists c. split; [exact E|exact Hc].
Defined.

Lemma raw_packet_roundtrip_witness :
  ∃ f, raw_packet_frame offer_payload 3232235521 SERVER_PORT 4294967295 CLIENT_PORT = Ok f
    ∧ get_raw_packet zero_msg (Some (frame_bytes f)) = Ok (548, offer_payload).
Proof.
  destruct offer_payload_ok as (Hb & Hl & Hm).
  assert (Hs : is_u32 3232235521) by (unfold is_u32; lia).
  assert (Hd : is_u32 4294967295) by (unfold is_u32; lia).
  destruct (raw_packet_roundtrip offer_payload zero_msg 3232235521 SERVER_PORT 4294967295
    Hb Hl eq_refl Hs Hd Hm) as (f & E & _ & E').
  exists f. split; [exact E|exact E'].
Defined.

Lemma get_raw_packet_bounds_witness :
  ∃ r p, get_raw_packet zero_msg (Some [1; 2; 3]) = Ok (r, p).
Proof.
  assert (Hb : is_bytes [1; 2; 3]) by (repeat constructor; cbn; lia).
  assert (Hl : (length [1; 2; 3] ≤ 576)%nat) by (cbn; lia).
  destruct (proj1 (get_raw_packet_bounds zero_msg [1; 2; 3] eq_refl Hb Hl))
    as [(r & p & E & _)|[E _]].
  - exists r, p. exact E.
  - exfalso. revert E. by vm_compute.
Defined.
