(* ===== verification/DhcpLeases.v ===== *)
(** * The lease table of the DHCP server (progs.gpl/udhcpcd: leases.c, leases.h,
    [struct server_config_t] of dhcpd.h)

    The table, the static leases and the configuration are the server's state;
    [time(0)] is the clock [now] of the state.  [arpping] is outside: it tells,
    for an address and a time, its result and the seconds it took, which is the
    only thing in these functions that makes the clock advance. *)

From stdpp Require Import base numbers list.
From S2P Require Import Prelude Bytes DhcpOptions.

(** ** Data *)

(** [struct dhcpOfferedAddr] *)
Record offered := mk_lease
  { l_chaddr : bytes; l_yiaddr : Z; l_expires : Z; l_acked : Z; l_hostname : bytes }.

Definition MAX_STATIC_LEASES : nat := 32.
Definition blank_chaddr : bytes := replicate 16 0.
Definition zero_lease : offered := mk_lease blank_chaddr 0 0 0 (replicate 64 0).

#[export] Instance offered_eq_dec : EqDecision offered.
Proof. solve_decision. Defined.

(** [struct server_config_t]; strings are their bytes, [None] for NULL. *)
Record server_config := mk_config
  { c_server : Z; c_start : Z; c_end : Z; c_options : option_set; c_interface : option bytes;
    c_ifindex : Z; c_arp : bytes; c_lease : Z; c_max_leases : Z; c_remaining : Z; c_auto_time : Z;
    c_decline_time : Z; c_conflict_time : Z; c_offer_time : Z; c_min_lease : Z;
    c_lease_file : option bytes; c_pidfile : option bytes; c_notify_file : option bytes;
    c_siaddr : Z; c_sname : option bytes; c_boot_file : option bytes }.

(** The globals of the server. *)
Record server := mk_server
  { cfg : server_config; leases : list offered; static_leases : list offered; now : Z }.

Definition with_leases (s : server) t := mk_server (cfg s) t (static_leases s) (now s).
Definition with_now (s : server) t := mk_server (cfg s) (leases s) (static_leases s) t.

(** [arpping]: 1 when the address is free, 0 when it is used, -1 on an error,
    and the seconds that have passed. *)
Class ArpPing := arpping : Z → Z → Z * Z.

(** ** C strings in fixed fields *)

(** What [strncpy(dst, src, n)] leaves in [dst]. *)
Definition strncpy (src : bytes) (n : nat) : bytes :=
  let s := take n (c_str src) in s ++ replicate (n - length s) 0.

(** ** The table *)

Definition is_blank (chaddr : bytes) : bool := forallb (λ x, x =? 0) chaddr.

Definition clears (chaddr : bytes) (yiaddr : Z) (l : offered) : bool :=
  (negb (is_blank chaddr) && bool_decide (l_chaddr l = chaddr))
  || (negb (yiaddr =? 0) && (l_yiaddr l =? yiaddr)).

Definition clear_lease (t : list offered) (chaddr : bytes) (yiaddr : Z) : list offered :=
  (λ l, if clears chaddr yiaddr l then zero_lease else l) <$> t.

Definition lease_expired (l : offered) (now : Z) : bool := l_expires l <? now.

Fixpoint oldest_loop (t : list offered) (i : nat) (oldest_lease : Z) (oldest : option nat)
  : option nat :=
  match t with
  | [] => oldest
  | l :: t =>
      if l_expires l <? oldest_lease then oldest_loop t (S i) (l_expires l) (Some i)
      else oldest_loop t (S i) oldest_lease oldest
  end.

Definition oldest_expired_lease (t : list offered) (now : Z) : option nat :=
  oldest_loop t 0 now None.

(** The entry [add_lease] makes of the expired one [l]. *)
Definition fill_lease (l : offered) (chaddr : bytes) (yiaddr expires : Z) (hostname : option bytes)
  : offered :=
  mk_lease chaddr yiaddr expires (l_acked l)
    match hostname with
    | Some h => <[63%nat := 0]> (strncpy h 64)
    | None => l_hostname l
    end.

(** [add_lease]: the index of the entry, or [None] when no entry is expired. *)
Definition add_lease (s : server) (chaddr : bytes) (yiaddr lease : Z) (hostname : option bytes)
  : option nat * server :=
  let t := clear_lease (leases s) chaddr yiaddr in
  match oldest_expired_lease t (now s) with
  | Some i =>
      (Some i, with_leases s
         (alter (λ l, fill_lease l chaddr yiaddr (u32 (now s + lease)) hostname) i t))
  | None => (None, with_leases s t)
  end.

(** The static table ends at the first entry without an address. *)
Fixpoint find_static (t : list offered) (P : offered → bool) : option offered :=
  match t with
  | [] => None
  | l :: t => if l_yiaddr l =? 0 then None else if P l then Some l else find_static t P
  end.

Definition find_static_lease_by_chaddr (s : server) (chaddr : bytes) : option offered :=
  find_static (static_leases s) (λ l, bool_decide (l_chaddr l = chaddr)).
Definition find_static_lease_by_yiaddr (s : server) (yiaddr : Z) : option offered :=
  find_static (static_leases s) (λ l, l_yiaddr l =? yiaddr).

Fixpoint find_lease (t : list offered) (i : nat) (P : offered → bool) : option (nat * offered) :=
  match t with
  | [] => None
  | l :: t => if P l then Some (i, l) else find_lease t (S i) P
  end.

Definition find_lease_by_chaddr (s : server) (chaddr : bytes) : option (nat * offered) :=
  find_lease (leases s) 0 (λ l, bool_decide (l_chaddr l = chaddr)).
Definition find_lease_by_yiaddr (s : server) (yiaddr : Z) : option (nat * offered) :=
  find_lease (leases s) 0 (λ l, l_yiaddr l =? yiaddr).

(** ** Free addresses *)

Section arp.
Context `{ArpPing}.

(** [check_ip]: whether somebody answers; the address is then reserved. *)
Definition check_ip (s : server) (addr : Z) : bool * server :=
  let '(rv, dt) := arpping addr (now s) in
  let s := with_now s (now s + dt) in
  if rv =? 0 then
    (true, snd (add_lease s blank_chaddr addr (c_conflict_time (cfg s)) None))
  else (false, s).

(** The loop of [find_address] from [addr] on. *)
Fixpoint find_address_loop (fuel : nat) (s : server) (addr : Z) (check_expired : bool)
  : res (Z * server) :=
  if c_end (cfg s) <? addr then mret (0, s)
  else match fuel with
  | O => NoFuel
  | S fuel =>
      if (Z.land addr 0xFF =? 0) || (Z.land addr 0xFF =? 0xFF)
      then find_address_loop fuel s (u32 (addr + 1)) check_expired
      else match find_static_lease_by_yiaddr s addr with
      | Some _ => find_address_loop fuel s (u32 (addr + 1)) check_expired
      | None =>
          if match find_lease_by_yiaddr s addr with
             | None => true
             | Some (_, l) => check_expired && lease_expired l (now s)
             end
          then
            let '(used, s) := check_ip s addr in
            if (used : bool) then find_address_loop fuel s (u32 (addr + 1)) check_expired
            else mret (addr, s)
          else find_address_loop fuel s (u32 (addr + 1)) check_expired
      end
  end.

(** One step per address of the range. *)
Definition find_address (s : server) (check_expired : bool) : res (Z * server) :=
  find_address_loop (Z.to_nat (c_end (cfg s) - c_start (cfg s) + 1)) s (c_start (cfg s))
    check_expired.
End arp.
