(* ===== verification/DhcpLeasesProps.v ===== *)
(** * The lease table: invariant and theorems *)

From stdpp Require Import base numbers sets list.
From S2P Require Import Prelude Bytes DhcpOptions DhcpLeases.

(** ** Searching *)

Lemma find_lease_Some t k P i l :
  find_lease t k P = Some (i, l) → ∃ j, i = (k + j)%nat ∧ t !! j = Some l ∧ P l = true.
Proof.
  revert k. induction t as [|x t IH]; intros k H; [done|]. cbn in H. destruct (P x) eqn:E.
  - injection H as <- <-. exists 0%nat. split; [lia|done].
  - destruct (IH _ H) as (j & -> & Hj & HP). exists (S j). split; [lia|done].
Qed.

Lemma find_lease_None t k P l : find_lease t k P = None → l ∈ t → P l = false.
Proof.
  revert k. induction t as [|x t IH]; intros k H Hl; [by apply elem_of_nil in Hl|].
  cbn in H. destruct (P x) eqn:E; [done|]. apply elem_of_cons in Hl as [->|Hl]; [done|]. by eapply IH.
Qed.

Lemma find_static_Some t P l : find_static t P = Some l → l ∈ t ∧ P l = true ∧ l_yiaddr l ≠ 0.
Proof.
  induction t as [|x t IH]; intros H; [done|]. cbn in H.
  destruct (Z.eqb_spec (l_yiaddr x) 0); [done|]. destruct (P x) eqn:E.
  - injection H as <-. set_solver.
  - destruct (IH H). set_solver.
Qed.

(** The entries of the static table that count. *)
Fixpoint statics (t : list offered) : list offered :=
  match t with
  | [] => []
  | l :: t => if l_yiaddr l =? 0 then [] else l :: statics t
  end.

Lemma find_static_None t P l : find_static t P = None → l ∈ statics t → P l = false.
Proof.
  induction t as [|x t IH]; intros H Hl; cbn in *; [by apply elem_of_nil in Hl|].
  destruct (Z.eqb_spec (l_yiaddr x) 0); [by apply elem_of_nil in Hl|].
  destruct (P x) eqn:E; [done|]. apply elem_of_cons in Hl as [->|Hl]; [done|]. by apply IH.
Qed.

Lemma find_static_in t P l : find_static t P = Some l → l ∈ statics t ∧ P l = true.
Proof.
  induction t as [|x t IH]; intros H; cbn in *; [done|].
  destruct (Z.eqb_spec (l_yiaddr x) 0); [done|]. destruct (P x) eqn:E.
  - injection H as <-. set_solver.
  - destruct (IH H). set_solver.
Qed.

Lemma oldest_loop_spec t k x o :
  match oldest_loop t k x o with
  | None => o = None ∧ Forall (λ l, x ≤ l_expires l) t
  | Some i =>
      (o = Some i ∧ Forall (λ l, x ≤ l_expires l) t)
      ∨ ∃ j l, i = (k + j)%nat ∧ t !! j = Some l ∧ l_expires l < x
          ∧ Forall (λ l', l_expires l ≤ l_expires l') t
  end.
Proof.
  revert k x o. induction t as [|a t IH]; intros k x o; cbn.
  - destruct o; [left; done|done].
  - destruct (Z.ltb_spec (l_expires a) x).
    + specialize (IH (S k) (l_expires a) (Some k)). destruct (oldest_loop _ _ _ _) as [i|].
      * right. destruct IH as [[[= <-] Hf]|(j & l & -> & Hj & Hl & Hf)].
        -- exists 0%nat, a. split; [lia|]. split; [done|]. split; [done|]. constructor; [lia|done].
        -- exists (S j), l. split; [lia|]. split; [done|]. split; [lia|]. constructor; [lia|done].
      * by destruct IH as [? _].
    + specialize (IH (S k) x o). destruct (oldest_loop _ _ _ _) as [i|].
      * destruct IH as [[-> Hf]|(j & l & -> & Hj & Hl & Hf)].
        -- left. split; [done|]. by constructor.
        -- right. exists (S j), l. split; [lia|]. split; [done|]. split; [done|]. constructor; [lia|done].
      * destruct IH as [-> Hf]. split; [done|]. by constructor.
Qed.

Lemma oldest_expired_Some t now i :
  oldest_expired_lease t now = Some i →
  ∃ l, t !! i = Some l ∧ l_expires l < now ∧ Forall (λ l', l_expires l ≤ l_expires l') t.
Proof.
  intros E. pose proof (oldest_loop_spec t 0 now None) as H. unfold oldest_expired_lease in E.
  rewrite E in H. destruct H as [[? _]|(j & l & -> & H)]; [done|]. by exists l.
Qed.

Lemma oldest_expired_None t now :
  oldest_expired_lease t now = None → Forall (λ l, now ≤ l_expires l) t.
Proof.
  intros E. pose proof (oldest_loop_spec t 0 now None) as H. unfold oldest_expired_lease in E.
  rewrite E in H. apply H.
Qed.

(** ** The invariant *)

Definition lease_ok (l : offered) : Prop :=
  length (l_chaddr l) = 16%nat ∧ is_u32 (l_yiaddr l) ∧ is_u32 (l_expires l)
  ∧ length (l_hostname l) = 64%nat.

(** No address and no client appears twice. *)
Definition table_ok (t : list offered) : Prop :=
  Forall lease_ok t
  ∧ (∀ i j a b, t !! i = Some a → t !! j = Some b → i ≠ j →
       (l_yiaddr a ≠ 0 → l_yiaddr a ≠ l_yiaddr b)
       ∧ (is_blank (l_chaddr a) = false → l_chaddr a ≠ l_chaddr b)).

Lemma is_blank_spec c : length c = 16%nat → is_blank c = true → c = blank_chaddr.
Proof.
  unfold blank_chaddr. generalize 16%nat as n. induction c as [|x c IH]; intros n Hn H; subst n; [done|].
  cbn in *. apply andb_true_iff in H as [Hx H]. apply Z.eqb_eq in Hx as ->. f_equal. by apply IH.
Qed.

Lemma zero_lease_ok : lease_ok zero_lease.
Proof. unfold lease_ok, is_u32. cbn. lia. Qed.

Lemma clear_lease_lookup t c y i :
  clear_lease t c y !! i = (λ l, if clears c y l then zero_lease else l) <$> t !! i.
Proof. apply list_lookup_fmap. Qed.

Lemma clears_false c y l :
  clears c y l = false →
  (is_blank c = false → l_chaddr l ≠ c) ∧ (y ≠ 0 → l_yiaddr l ≠ y).
Proof.
  unfold clears. rewrite orb_false_iff, !andb_false_iff, !negb_false_iff.
  intros [[H1|H1] H2]; split.
  - congruence.
  - intros Hy. destruct H2 as [H2|H2]; [apply Z.eqb_eq in H2; lia|by apply Z.eqb_neq].
  - intros _ E. by rewrite bool_decide_true in H1.
  - intros Hy. destruct H2 as [H2|H2]; [apply Z.eqb_eq in H2; lia|by apply Z.eqb_neq].
Qed.

Lemma clears_other c y l : l_chaddr l ≠ c → l_yiaddr l ≠ y → clears c y l = false.
Proof.
  intros Hc Hy. unfold clears. rewrite bool_decide_false by done.
  rewrite (proj2 (Z.eqb_neq _ _) Hy). by rewrite !andb_false_r.
Qed.

Lemma clear_lease_ok t c y : table_ok t → table_ok (clear_lease t c y).
Proof.
  intros [Hf Hu]. split.
  - unfold clear_lease. apply Forall_fmap. eapply Forall_impl; [exact Hf|]. intros l Hl. cbn.
    case_match; [apply zero_lease_ok|done].
  - intros i j a b Ha Hb Hij. rewrite clear_lease_lookup, fmap_Some in Ha, Hb.
    destruct Ha as (a0 & Ha & ->), Hb as (b0 & Hb & ->). destruct (Hu i j a0 b0 Ha Hb Hij) as [Hy Hc].
    destruct (clears c y a0) eqn:Ea; [split; [done|]; intros H; by vm_compute in H|].
    destruct (clears c y b0) eqn:Eb; [|done]. cbn. split; [done|].
    intros Hn E. rewrite E in Hn. by vm_compute in Hn.
Qed.

(** ** [add_lease] *)

Lemma alter_lookup {A} (f : A → A) (t : list A) i j :
  alter f i t !! j = if decide (j = i) then f <$> t !! j else t !! j.
Proof.
  case_decide as E; [subst; apply list_lookup_alter_eq|by apply list_lookup_alter_ne].
Qed.

Lemma strncpy_length s n : length (strncpy s n) = n.
Proof. unfold strncpy. rewrite length_app, length_replicate, length_take. lia. Qed.

Lemma fill_lease_ok l c y e h :
  lease_ok l → length c = 16%nat → is_u32 y → is_u32 e → lease_ok (fill_lease l c y e h).
Proof.
  intros (_ & _ & _ & Hh) Hc Hy He. unfold lease_ok. cbn. split; [done|]. split; [done|]. split; [done|].
  destruct h; [|done]. by rewrite length_insert, strncpy_length.
Qed.

(** [add_lease] clears, then fills the oldest expired entry. *)
Lemma add_lease_spec s c y d h :
  match add_lease s c y d h with
  | (None, s') => s' = with_leases s (clear_lease (leases s) c y)
      ∧ Forall (λ l, now s ≤ l_expires l) (leases s')
  | (Some i, s') => ∃ l, clear_lease (leases s) c y !! i = Some l ∧ l_expires l < now s
      ∧ Forall (λ l', l_expires l ≤ l_expires l') (clear_lease (leases s) c y)
      ∧ s' = with_leases s (leases s')
      ∧ ∀ j, leases s' !! j = if decide (j = i)
          then Some (fill_lease l c y (u32 (now s + d)) h) else clear_lease (leases s) c y !! j
  end.
Proof.
  unfold add_lease. destruct (oldest_expired_lease _ _) as [i|] eqn:E.
  - destruct (oldest_expired_Some _ _ _ E) as (l & Hl & Hlt & Hf). exists l.
    split; [done|]. split; [done|]. split; [done|]. split; [done|].
    intros j. cbn [leases with_leases]. rewrite alter_lookup. case_decide; [subst|done]. by rewrite Hl.
  - split; [done|]. by apply oldest_expired_None.
Qed.

Lemma add_lease_ok s c y d h :
  table_ok (leases s) → length c = 16%nat → is_u32 y →
  table_ok (leases (snd (add_lease s c y d h)))
  ∧ length (leases (snd (add_lease s c y d h))) = length (leases s).
Proof.
  intros Hok Hc Hy. pose proof (add_lease_spec s c y d h) as H.
  pose proof (clear_lease_ok (leases s) c y Hok) as Hck.
  destruct (add_lease s c y d h) as [[i|] s'] eqn:Ea; cbn [snd].
  - destruct H as (l & Hl & _ & _ & _ & Ht). destruct Hck as [Hf Hu].
    assert (Hlok : lease_ok l) by (by eapply Forall_lookup_1).
    assert (Hother : ∀ j b, j ≠ i → clear_lease (leases s) c y !! j = Some b →
      (y ≠ 0 → y ≠ l_yiaddr b) ∧ (is_blank c = false → c ≠ l_chaddr b)).
    { intros j b Hj Hb. rewrite clear_lease_lookup, fmap_Some in Hb. destruct Hb as (b0 & Hb & ->).
      destruct (clears c y b0) eqn:Eb.
      - cbn. split; [done|]. intros Hn ->. by vm_compute in Hn.
      - apply clears_false in Eb as [H1 H2]. split; intros; [symmetry|symmetry]; auto. }
    split; [split|].
    + apply Forall_lookup. intros j a Ha. rewrite Ht in Ha. case_decide.
      * injection Ha as <-. apply fill_lease_ok; [done..|apply u32_range].
      * by eapply Forall_lookup_1.
    + intros j k a b Ha Hb Hjk. rewrite Ht in Ha, Hb.
      destruct (decide (j = i)) as [->|Hj], (decide (k = i)) as [->|Hk]; [done| | |by apply (Hu j k)].
      * injection Ha as <-. cbn. by apply (Hother k b).
      * injection Hb as <-. cbn. destruct (Hother j a) as [H1 H2]; [done..|].
        split; intros Hn E; [apply H1; congruence|apply H2; congruence].
    + apply (f_equal snd) in Ea. cbn in Ea. subst s'. unfold add_lease.
      destruct (oldest_expired_lease _ _); cbn; rewrite ?length_alter; apply length_fmap.
  - destruct H as [-> _]. cbn. split; [done|]. apply length_fmap.
Qed.

(** What [add_lease] leaves alone. *)
Lemma add_lease_keeps s c y d h i l :
  leases s !! i = Some l → now s ≤ l_expires l → clears c y l = false →
  leases (snd (add_lease s c y d h)) !! i = Some l.
Proof.
  intros Hl Hexp Hcl. pose proof (add_lease_spec s c y d h) as H.
  assert (Hc : clear_lease (leases s) c y !! i = Some l) by (by rewrite clear_lease_lookup, Hl; cbn; rewrite Hcl).
  destruct (add_lease s c y d h) as [[k|] s']; cbn [snd].
  - destruct H as (l' & Hl' & Hlt & _ & _ & Ht). rewrite Ht. rewrite decide_False; [done|].
    intros ->. rewrite Hc in Hl'. injection Hl' as ->. lia.
  - destruct H as [-> _]. done.
Qed.

Lemma add_lease_fixed s c y d h :
  cfg (snd (add_lease s c y d h)) = cfg s ∧ static_leases (snd (add_lease s c y d h)) = static_leases s
  ∧ now (snd (add_lease s c y d h)) = now s.
Proof. unfold add_lease. by destruct (oldest_expired_lease _ _). Qed.

(** [add_lease] succeeds exactly when, with the old leases of the client and of
    the address cleared, some entry is expired; it then fills the entry that
    expired first with the client, the address and the expiry time.  Every entry
    of another client for another address that is not expired stays as it is, and
    the table keeps one entry per client and per address. *)
Theorem add_lease_correct s c y d h
    (Hok : table_ok (leases s)) (Hc : length c = 16%nat) (Hy : is_u32 y) :
  let r := add_lease s c y d h in
  (is_Some (fst r) ↔ ∃ l, l ∈ clear_lease (leases s) c y ∧ l_expires l < now s)
  ∧ (∀ i, fst r = Some i → ∃ l, leases (snd r) !! i = Some l ∧ l_chaddr l = c ∧ l_yiaddr l = y
        ∧ l_expires l = u32 (now s + d))
  ∧ (∀ i l, leases s !! i = Some l → now s ≤ l_expires l → l_chaddr l ≠ c → l_yiaddr l ≠ y →
        leases (snd r) !! i = Some l)
  ∧ table_ok (leases (snd r)) ∧ length (leases (snd r)) = length (leases s).
Proof.
  intros r. split; [|split; [|split; [|by apply add_lease_ok]]].
  - pose proof (add_lease_spec s c y d h) as H. subst r.
    destruct (add_lease s c y d h) as [[i|] s']; cbn [fst].
    + destruct H as (l & Hl & Hlt & _). split; [intros _|by eexists].
      exists l. split; [by eapply list_elem_of_lookup_2|done].
    + destruct H as [-> Hf]. cbn in Hf. rewrite Forall_forall in Hf. split; [by intros []|].
      intros (l & Hl & Hlt). specialize (Hf l Hl). lia.
  - intros i Hi. pose proof (add_lease_spec s c y d h) as H. subst r.
    destruct (add_lease s c y d h) as [o s']. cbn in *. subst o.
    destruct H as (l & _ & _ & _ & _ & Ht). rewrite (Ht i), decide_True by done. eexists. done.
  - intros i l Hl He Hlc Hly. apply add_lease_keeps; [done..|]. by apply clears_other.
Qed.

(** ** [find_address] *)

(** Addresses the server may give out: the last byte is not 0 or 255. *)
Definition suitable (a : Z) : bool := negb ((Z.land a 0xFF =? 0) || (Z.land a 0xFF =? 0xFF)).

Lemma suitable_pos a : suitable a = true → a ≠ 0.
Proof. by intros H ->. Qed.

Lemma table_unique_y t i j a b :
  table_ok t → t !! i = Some a → t !! j = Some b → l_yiaddr a = l_yiaddr b → l_yiaddr a ≠ 0 → i = j.
Proof.
  intros [_ Hu] Ha Hb E Hn. destruct (decide (i = j)); [done|].
  destruct (Hu i j a b Ha Hb n) as [H _]. by apply H in Hn.
Qed.

Lemma find_by_yiaddr_None s y l : find_lease_by_yiaddr s y = None → l ∈ leases s → l_yiaddr l ≠ y.
Proof.
  intros H Hl E. pose proof (find_lease_None _ _ _ _ H Hl) as Hn. cbn in Hn. apply Z.eqb_neq in Hn. done.
Qed.

Lemma find_by_yiaddr_Some s y i l :
  find_lease_by_yiaddr s y = Some (i, l) → leases s !! i = Some l ∧ l_yiaddr l = y.
Proof.
  intros H. apply find_lease_Some in H as (j & -> & Hj & Hy). apply Z.eqb_eq in Hy. done.
Qed.

Lemma find_by_chaddr_Some s c i l :
  find_lease_by_chaddr s c = Some (i, l) → leases s !! i = Some l ∧ l_chaddr l = c.
Proof.
  intros H. apply find_lease_Some in H as (j & -> & Hj & Hy). apply bool_decide_eq_true in Hy. done.
Qed.

(** No lease on [y] but an expired one. *)
Definition no_live (s : server) (y : Z) (check_expired : bool) : Prop :=
  ∀ l, l ∈ leases s → l_yiaddr l = y → check_expired = true ∧ l_expires l < now s.

Lemma no_live_find s y ce :
  table_ok (leases s) → y ≠ 0 →
  match find_lease_by_yiaddr s y with
  | None => true
  | Some (_, l) => ce && lease_expired l (now s)
  end = true → no_live s y ce.
Proof.
  intros Hok Hy. destruct (find_lease_by_yiaddr s y) as [[i l]|] eqn:E; intros H k Hk Hky.
  - apply find_by_yiaddr_Some in E as [Hi Hiy]. apply andb_true_iff in H as [-> H].
    apply Z.ltb_lt in H. apply list_elem_of_lookup in Hk as [j Hj].
    assert (j = i) as -> by (eapply table_unique_y; eauto; congruence).
    rewrite Hi in Hj. by injection Hj as <-.
  - by destruct (find_by_yiaddr_None _ _ _ E Hk).
Qed.

Lemma live_find s y ce :
  match find_lease_by_yiaddr s y with
  | None => true
  | Some (_, l) => ce && lease_expired l (now s)
  end = false → ∃ l, l ∈ leases s ∧ l_yiaddr l = y ∧ (ce = false ∨ now s ≤ l_expires l).
Proof.
  destruct (find_lease_by_yiaddr s y) as [[i l]|] eqn:E; [|done]. intros H.
  apply find_by_yiaddr_Some in E as [Hi Hiy]. exists l. split; [by eapply list_elem_of_lookup_2|].
  split; [done|]. apply andb_false_iff in H as [->|H]; [by left|right]. by apply Z.ltb_ge in H.
Qed.

(** The arpping of the C code takes no negative time. *)
Class ArpOK (arp : ArpPing) : Prop := arp_time : ∀ a t, 0 ≤ snd (arpping a t).

(** The addresses that the configuration provides for: none, those of the range, and
    the static ones. *)
Definition allocatable (s : server) (y : Z) : Prop :=
  y = 0 ∨ c_start (cfg s) ≤ y ≤ c_end (cfg s) ∨ ∃ x, x ∈ statics (static_leases s) ∧ l_yiaddr x = y.

(** The table holds no other addresses. *)
Definition planned (s : server) : Prop := ∀ l, l ∈ leases s → allocatable s (l_yiaddr l).

(** Addresses of the table, and those that it may hold. *)
Definition known (s : server) (y : Z) : Prop :=
  (∃ k, k ∈ leases s ∧ l_yiaddr k = y) ∨ allocatable s y.

Lemma known_in s l : l ∈ leases s → known s (l_yiaddr l).
Proof. left. by exists l. Qed.

Lemma known_zero s : known s 0.
Proof. by right; left. Qed.

Lemma known_step s s' y :
  cfg s' = cfg s → static_leases s' = static_leases s →
  (∀ l, l ∈ leases s' → known s (l_yiaddr l)) → known s' y → known s y.
Proof.
  intros Ec Es H [(k & Hk & <-)|Ha]; [by apply H|right].
  unfold allocatable in *. by rewrite Ec, Es in Ha.
Qed.

Lemma known_planned s s' :
  cfg s' = cfg s → static_leases s' = static_leases s →
  (∀ l, l ∈ leases s' → known s (l_yiaddr l)) → planned s → planned s'.
Proof.
  intros Ec Es H Hs l Hl. unfold allocatable. rewrite Ec, Es.
  destruct (H l Hl) as [(k & Hk & <-)|Ha]; [by apply Hs|done].
Qed.

(** The state changes of the search: reservations only. *)
Record searched (s s' : server) : Prop := {
  se_cfg : cfg s' = cfg s;
  se_static : static_leases s' = static_leases s;
  se_now : now s ≤ now s';
  se_ok : table_ok (leases s');
  se_len : length (leases s') = length (leases s);
  se_keep : ∀ i l, leases s !! i = Some l → now s' ≤ l_expires l → leases s' !! i = Some l;
  se_new : ∀ l, l ∈ leases s' → l ∈ leases s ∨ l = zero_lease
             ∨ l_chaddr l = blank_chaddr;
  se_known : ∀ l, l ∈ leases s' → known s (l_yiaddr l) }.

Lemma searched_refl s : table_ok (leases s) → searched s s.
Proof. intros H. constructor; auto using known_in; lia. Qed.

Lemma searched_trans s1 s2 s3 : searched s1 s2 → searched s2 s3 → searched s1 s3.
Proof.
  intros [A1 A2 A3 A4 A5 A6 A7 A8] [B1 B2 B3 B4 B5 B6 B7 B8]. constructor; try congruence; try lia; try done.
  - intros i l Hl He. apply B6; [|done]. apply A6; [done|lia].
  - intros l Hl. destruct (B7 l Hl) as [H|H]; [auto|by right].
  - intros l Hl. by eapply known_step; [..|apply B8].
Qed.

Section arp.
Context `{Harp : ArpPing} `{!ArpOK Harp}.

Lemma check_ip_spec s a ce :
  table_ok (leases s) → is_u32 a → a ≠ 0 → c_start (cfg s) ≤ a ≤ c_end (cfg s) → no_live s a ce →
  searched s (snd (check_ip s a))
  ∧ fst (check_ip s a) = (fst (arpping a (now s)) =? 0)
  ∧ (fst (check_ip s a) = false → leases (snd (check_ip s a)) = leases s)
  ∧ (∀ l, l ∈ leases (snd (check_ip s a)) → l ∈ leases s ∨ l_yiaddr l = 0 ∨ l_yiaddr l = a).
Proof.
  intros Hok Ha Ha0 Hrange Hno. unfold check_ip. pose proof (arp_time a (now s)) as Ht.
  destruct (arpping a (now s)) as [rv dt]. cbn [fst snd] in *. set (s0 := with_now s (now s + dt)).
  destruct (rv =? 0); cbn [fst snd]; [|split; [|auto]].
  - pose proof (add_lease_fixed s0 blank_chaddr a (c_conflict_time (cfg s0)) None) as (F1 & F2 & F3).
    destruct (add_lease_ok s0 blank_chaddr a (c_conflict_time (cfg s0)) None) as [O1 O2]; [done..|].
    pose proof (add_lease_spec s0 blank_chaddr a (c_conflict_time (cfg s0)) None) as Hsp.
    assert (Hin : ∀ l, l ∈ leases (snd (add_lease s0 blank_chaddr a (c_conflict_time (cfg s0)) None)) →
      l ∈ leases s ∨ l = zero_lease ∨ (l_yiaddr l = a ∧ l_chaddr l = blank_chaddr)).
    { assert (Hcl : ∀ l, l ∈ clear_lease (leases s0) blank_chaddr a → l ∈ leases s ∨ l = zero_lease).
      { intros l Hl. apply list_elem_of_fmap in Hl as (l0 & -> & Hl0). destruct (clears blank_chaddr a l0); [by right|by left]. }
      intros l Hl. destruct (add_lease s0 blank_chaddr a _ None) as [[i|] s']; cbn [snd] in *.
      - destruct Hsp as (l1 & _ & _ & _ & _ & Hlk). apply list_elem_of_lookup in Hl as [j Hj].
        rewrite Hlk in Hj. case_decide.
        + injection Hj as <-. cbn. auto.
        + destruct (Hcl l); [by eapply list_elem_of_lookup_2|auto..].
      - destruct Hsp as [-> _]. destruct (Hcl l Hl); auto. }
    split; [|split; [done|split; [done|]]].
    + constructor; rewrite ?F1, ?F2, ?F3; try done; cbn; try lia.
      * intros i l Hl He. apply add_lease_keeps; [done|cbn; lia|].
        unfold clears. change (is_blank blank_chaddr) with true. cbn [negb andb orb].
        destruct (Z.eqb_spec (l_yiaddr l) a); [|by rewrite andb_false_r].
        destruct (Hno l) as [_ ?]; [by eapply list_elem_of_lookup_2|done|lia].
      * intros l Hl. destruct (Hin l Hl) as [?|[?|[_ ?]]]; auto.
      * intros l Hl. destruct (Hin l Hl) as [?|[->|[-> _]]]; [by apply known_in|apply known_zero|by right; right; left].
    + intros l Hl. destruct (Hin l Hl) as [?|[->|[? _]]]; auto.
  - constructor; try done; cbn; auto using known_in. lia.
Qed.

(** What a search from [addr] on finds. *)
Definition search_result (s s' : server) (addr r : Z) (ce : bool) : Prop :=
  (r = 0 ∧ ∀ a, addr ≤ a ≤ c_end (cfg s) → suitable a = true →
      find_static_lease_by_yiaddr s a = None → (∀ t, fst (arpping a t) ≠ 0) →
      ∃ l, l ∈ leases s ∧ l_yiaddr l = a ∧ (ce = false ∨ now s ≤ l_expires l))
  ∨ (addr ≤ r ≤ c_end (cfg s) ∧ suitable r = true ∧ find_static_lease_by_yiaddr s r = None
     ∧ (∃ t, fst (arpping r t) ≠ 0) ∧ no_live s' r ce).

Lemma find_address_loop_spec fuel s addr ce :
  table_ok (leases s) → 0 ≤ addr → c_start (cfg s) ≤ addr → c_end (cfg s) < 4294967295 →
  c_end (cfg s) + 1 - addr ≤ Z.of_nat fuel →
  ∃ r s', find_address_loop fuel s addr ce = Ok (r, s') ∧ searched s s' ∧ search_result s s' addr r ce.
Proof.
  revert s addr. induction fuel as [|fuel IH]; intros s addr Hok H0 Hst0 He Hf; cbn [find_address_loop].
  { destruct (Z.ltb_spec (c_end (cfg s)) addr); [|lia]. exists 0, s. split; [done|].
    split; [by apply searched_refl|]. left. split; [done|]. intros a Ha. lia. }
  destruct (Z.ltb_spec (c_end (cfg s)) addr) as [Hlt|Hge].
  { exists 0, s. split; [done|]. split; [by apply searched_refl|]. left. split; [done|]. intros a Ha. lia. }
  rewrite u32_id by (unfold is_u32; lia).
  (* passing over an address that cannot be given out *)
  assert (Hskip : (∀ a, suitable a = true → find_static_lease_by_yiaddr s a = None → a = addr →
      ∃ l, l ∈ leases s ∧ l_yiaddr l = a ∧ (ce = false ∨ now s ≤ l_expires l)) →
    ∃ r s', find_address_loop fuel s (addr + 1) ce = Ok (r, s') ∧ searched s s'
      ∧ search_result s s' addr r ce).
  { intros Hthis. destruct (IH s (addr + 1) Hok) as (r & s' & E & Hs & Hr); [lia..|].
    exists r, s'. split; [done|]. split; [done|].
    destruct Hr as [[-> Hr]|(Hr & ?)]; [left|right; split; [lia|done]].
    split; [done|]. intros a Ha Hsu Hst Hp.
    destruct (decide (a = addr)) as [->|]; [by apply Hthis|].
    apply Hr; [lia|done..]. }
  destruct (_ || _) eqn:Esuit.
  { apply Hskip. intros a Hsu _ ->. unfold suitable in Hsu. by rewrite Esuit in Hsu. }
  assert (Hsu : suitable addr = true) by (unfold suitable; by rewrite Esuit).
  destruct (find_static_lease_by_yiaddr s addr) eqn:Est; [apply Hskip; intros a _ Hn ->; congruence|].
  destruct (match find_lease_by_yiaddr s addr with None => true | Some (_, l) => _ end) eqn:El.
  2: { apply Hskip. intros a _ _ ->. by apply live_find. }
  assert (Ha0 : addr ≠ 0) by (by apply suitable_pos).
  pose proof (no_live_find s addr ce Hok Ha0 El) as Hno.
  assert (Hu : is_u32 addr) by (unfold is_u32; lia).
  destruct (check_ip_spec s addr ce Hok Hu Ha0 ltac:(lia) Hno) as (Hse & Hused & Hsame & Hin).
  destruct (check_ip s addr) as [used s1]. cbn [fst snd] in *. destruct used.
  - destruct (IH s1 (addr + 1)) as (r & s' & E & Hs & Hr); [apply Hse|lia|rewrite ?(se_cfg _ _ Hse); lia..|].
    exists r, s'. split; [done|]. split; [by eapply searched_trans|].
    unfold search_result, find_static_lease_by_yiaddr in *. rewrite (se_cfg _ _ Hse), (se_static _ _ Hse) in Hr.
    destruct Hr as [[-> Hr]|(Hr & ?)]; [left|right; split; [lia|done]].
    split; [done|]. intros a Ha Hsua Hst Hp. destruct (decide (a = addr)) as [->|Hne].
    + symmetry in Hused. apply Z.eqb_eq in Hused. by apply Hp in Hused.
    + destruct (Hr a) as (l & Hl & Hly & Hlive); [lia|done..|].
      pose proof (suitable_pos a Hsua). destruct (Hin l Hl) as [?|[?|?]]; [|congruence..].
      exists l. split; [done|]. split; [done|]. pose proof (se_now _ _ Hse).
      destruct Hlive; [by left|right; lia].
  - exists addr, s1. split; [done|]. split; [done|]. right. split; [lia|]. split; [done|].
    split; [done|]. symmetry in Hused. apply Z.eqb_neq in Hused. split; [eauto|].
    intros l Hl Hly. rewrite Hsame in Hl by done. destruct (Hno l Hl Hly). pose proof (se_now _ _ Hse).
    split; [done|lia].
Qed.

(** [find_address] stops when the range does not end at 255.255.255.255, and
    an address it returns lies in the range, does not end in 0 or 255, is nobody's
    static address, was not answered for by ARP, and is in no lease that has not
    expired (in none at all unless expired ones may be taken).  When it returns 0,
    every such address that nobody answers for is taken.  The only change to the
    table are reservations; every lease that has not expired by the end stays. *)
Theorem find_address_correct s ce (Hok : table_ok (leases s))
    (Hs : 0 ≤ c_start (cfg s)) (He : c_end (cfg s) < 4294967295) :
  ∃ r s', find_address s ce = Ok (r, s')
    ∧ table_ok (leases s') ∧ length (leases s') = length (leases s)
    ∧ (∀ i l, leases s !! i = Some l → now s' ≤ l_expires l → leases s' !! i = Some l)
    ∧ ((r = 0 ∧ ∀ a, c_start (cfg s) ≤ a ≤ c_end (cfg s) → suitable a = true →
          find_static_lease_by_yiaddr s a = None → (∀ t, fst (arpping a t) ≠ 0) →
          ∃ l, l ∈ leases s ∧ l_yiaddr l = a ∧ (ce = false ∨ now s ≤ l_expires l))
       ∨ (c_start (cfg s) ≤ r ≤ c_end (cfg s) ∧ suitable r = true
          ∧ find_static_lease_by_yiaddr s r = None ∧ (∃ t, fst (arpping r t) ≠ 0)
          ∧ ∀ l, l ∈ leases s' → l_yiaddr l = r → ce = true ∧ l_expires l < now s')).
Proof.
  destruct (find_address_loop_spec (Z.to_nat (c_end (cfg s) - c_start (cfg s) + 1)) s (c_start (cfg s)) ce)
    as (r & s' & E & Hse & Hr); [done|done|lia|done|lia|].
  exists r, s'. split; [exact E|]. split; [apply Hse|]. split; [apply Hse|]. split; [apply Hse|done].
Qed.
End arp.

(** ** Concrete tables *)

Definition lease_okb (l : offered) : bool :=
  (length (l_chaddr l) =? 16)%nat && (0 <=? l_yiaddr l) && (l_yiaddr l <? 4294967296)
  && (0 <=? l_expires l) && (l_expires l <? 4294967296) && (length (l_hostname l) =? 64)%nat.

Definition compatible (a b : offered) : bool :=
  ((l_yiaddr a =? 0) || negb (l_yiaddr a =? l_yiaddr b))
  && (is_blank (l_chaddr a) || negb (bool_decide (l_chaddr a = l_chaddr b))).

Fixpoint table_okb (t : list offered) : bool :=
  match t with
  | [] => true
  | l :: t => lease_okb l && forallb (compatible l) t && table_okb t
  end.

Lemma lease_okb_sound l : lease_okb l = true → lease_ok l.
Proof.
  unfold lease_okb, lease_ok, is_u32. rewrite !andb_true_iff, !Nat.eqb_eq, !Z.leb_le, !Z.ltb_lt. naive_solver.
Qed.

Lemma compatible_sound a b :
  compatible a b = true →
  ((l_yiaddr a ≠ 0 → l_yiaddr a ≠ l_yiaddr b) ∧ (is_blank (l_chaddr a) = false → l_chaddr a ≠ l_chaddr b))
  ∧ ((l_yiaddr b ≠ 0 → l_yiaddr b ≠ l_yiaddr a) ∧ (is_blank (l_chaddr b) = false → l_chaddr b ≠ l_chaddr a)).
Proof.
  unfold compatible. rewrite andb_true_iff, !orb_true_iff, !negb_true_iff, Z.eqb_eq, Z.eqb_neq, bool_decide_eq_false.
  intros [Hy Hc]. split; split; [intros|intros|intros ? E|intros Hb E].
  - destruct Hy; congruence.
  - destruct Hc; congruence.
  - destruct Hy; congruence.
  - rewrite E in Hb. destruct Hc; congruence.
Qed.

Lemma table_okb_sound t : table_okb t = true → table_ok t.
Proof.
  induction t as [|l t IH]; cbn [table_okb]; [by repeat split|].
  rewrite !andb_true_iff, forallb_forall. intros [[Hl Hf] Ht]. destruct (IH Ht) as [Ha Hu].
  split; [constructor; [by apply lease_okb_sound|done]|].
  assert (Hc : ∀ j b, t !! j = Some b → compatible l b = true)
    by (intros j b Hj; apply Hf, list_elem_of_In; by eapply list_elem_of_lookup_2).
  intros [|i] [|j] a b Hi Hj Hij; cbn in Hi, Hj; [done| | |by apply (Hu i j); [..|congruence]].
  - injection Hi as <-. apply (compatible_sound l b). by eapply Hc.
  - injection Hj as <-. apply (compatible_sound l a). by eapply Hc.
Qed.

Definition demo_mac (n : Z) : bytes := [0; 80; 186; 1; 2; n] ++ replicate 10 0.

Definition demo_config : server_config :=
  {| c_server := 0x0A000001; c_start := 0x0A0000FE; c_end := 0x0A000104; c_options := [];
     c_interface := None; c_ifindex := 2; c_arp := [0; 80; 186; 0; 0; 1]; c_lease := 3600;
     c_max_leases := 4; c_remaining := 1; c_auto_time := 7200; c_decline_time := 3600;
     c_conflict_time := 3600; c_offer_time := 60; c_min_lease := 60; c_lease_file := None;
     c_pidfile := None; c_notify_file := None; c_siaddr := 0; c_sname := None; c_boot_file := None |}.

(** A live lease, an expired one, and two unused entries. *)
Definition demo_server : server :=
  {| cfg := demo_config;
     leases := [mk_lease (demo_mac 1) 0x0A000101 5000 1 (replicate 64 0);
                mk_lease (demo_mac 2) 0x0A000102 500 1 (replicate 64 0); zero_lease; zero_lease];
     static_leases := [mk_lease (demo_mac 9) 0x0A000103 0 0 (replicate 64 0); zero_lease];
     now := 1000 |}.

(** Somebody answers for 10.0.0.254; every probe takes two seconds. *)
Definition demo_arp : ArpPing := λ a _, (if a =? 0x0A0000FE then 0 else 1, 2).

Lemma demo_arp_ok : ArpOK demo_arp.
Proof. intros a t. by compute. Qed.

Lemma demo_table_ok : table_ok (leases demo_server).
Proof. apply table_okb_sound. by vm_compute. Qed.

Lemma add_lease_correct_witness :
  is_Some (fst (add_lease demo_server (demo_mac 3) 0x0A000102 3600 None))
  ∧ leases (snd (add_lease demo_server (demo_mac 3) 0x0A000102 3600 None)) !! 0%nat
    = Some (mk_lease (demo_mac 1) 0x0A000101 5000 1 (replicate 64 0)).
Proof.
  assert (Hy : is_u32 0x0A000102) by (unfold is_u32; lia).
  destruct (add_lease_correct demo_server (demo_mac 3) 0x0A000102 3600 None demo_table_ok eq_refl Hy)
    as (H1 & _ & H3 & _).
  split.
  - apply H1. exists zero_lease. split; [apply (list_elem_of_lookup_2 _ 1); by vm_compute|by vm_compute].
  - apply H3; [done|by vm_compute|by vm_compute|by vm_compute].
Defined.

Lemma find_address_correct_witness :
  ∃ s', @find_address demo_arp demo_server true = Ok (0x0A000102, s') ∧ table_ok (leases s').
Proof.
  pose proof demo_arp_ok as Hok.
  destruct (@find_address_correct demo_arp Hok demo_server true demo_table_ok) as (r & s' & E & Ht & _);
    [by vm_compute|by vm_compute|].
  assert (Hr : fst (match @find_address demo_arp demo_server true with Ok p => p | _ => (0, demo_server) end)
    = 0x0A000102) by (by vm_compute).
  rewrite E in Hr. cbn in Hr. subst r. by exists s'.
Defined.
