(* ===== verification/DhcpServer.v ===== *)
(** * The DHCP server (progs.gpl/udhcpcd: serverpacket.c, dhcpd.c, [write_leases]
    of files.c)

    Replies are built and sent by [sendOffer], [sendACK], [sendNAK] and
    [send_inform]; [handle_packet] is the switch of [main] on a message, and
    [server_round] one turn of its loop.  What goes out is a list of actions;
    the network decides what a send returns. *)

From stdpp Require Import base numbers list.
From S2P Require Import Prelude Bytes DhcpOptions DhcpPacket DhcpLeases.

(** ** What leaves the process *)

Inductive action : Type :=
| Kernel (payload : bytes) (source_ip source_port dest_ip dest_port : Z)
| Raw (payload : bytes) (source_ip source_port dest_ip dest_port : Z) (dest_arp : bytes) (ifindex : Z)
| WriteLeases (content : bytes).

(** The result of the socket calls that send a packet. *)
Class Network := net_send : action → Z.

Definition INADDR_BROADCAST : Z := 0xFFFFFFFF.
Definition MAC_BCAST_ADDR : bytes := replicate 6 255.

(** ** serverpacket.c *)

(** [send_packet], [send_packet_to_relay] and [send_packet_to_client]: the packet
    that is sent. *)
Definition send_packet_to_relay (s : server) (payload : bytes) : action :=
  Kernel payload (c_server (cfg s)) SERVER_PORT (giaddr payload) SERVER_PORT.

Definition send_packet_to_client (s : server) (payload : bytes) (force_broadcast : bool) : action :=
  let '(ip, mac) :=
    if force_broadcast then (INADDR_BROADCAST, MAC_BCAST_ADDR)
    else if negb (ciaddr payload =? 0) then (ciaddr payload, chaddr payload)
    else if negb (Z.land (flags payload) BROADCAST_FLAG =? 0) then (INADDR_BROADCAST, MAC_BCAST_ADDR)
    else (yiaddr payload, chaddr payload) in
  Raw payload (c_server (cfg s)) SERVER_PORT ip CLIENT_PORT mac (c_ifindex (cfg s)).

Definition send_packet (s : server) (payload : bytes) (force_broadcast : bool) : action :=
  if negb (giaddr payload =? 0) then send_packet_to_relay s payload
  else send_packet_to_client s payload force_broadcast.

(** The header fields [init_packet] copies from the message answered. *)
Definition copy_fields (p old : bytes) : bytes :=
  let p := set32 p F_xid (xid old) in
  let p := splice p F_chaddr (chaddr old) in
  let p := set16 p F_flags (flags old) in
  let p := set32 p F_giaddr (giaddr old) in
  set32 p F_ciaddr (ciaddr old).

Definition init_packet (s : server) (old : bytes) (type : Z) : res bytes :=
  p ← init_header type;
  '(_, p) ← add_simple_option (copy_fields p old) DHCP_SERVER_ID (c_server (cfg s));
  mret p.

Definition add_bootp_options (s : server) (p : bytes) : bytes :=
  let p := set32 p F_siaddr (c_siaddr (cfg s)) in
  let p := match c_sname (cfg s) with Some n => splice p F_sname (strncpy n 63) | None => p end in
  match c_boot_file (cfg s) with Some n => splice p F_file (strncpy n 127) | None => p end.

(** The loop over [server_config.options]. *)
Fixpoint add_options (p : bytes) (l : option_set) : res bytes :=
  match l with
  | [] => mret p
  | d :: l =>
      c ← byte_at d 0;
      if c =? DHCP_LEASE_TIME then add_options p l
      else '(_, p) ← add_option_string p d; add_options p l
  end.

(** The host name option of a message, copied into a string. *)
Definition host_name (old : bytes) : res (option bytes) :=
  h ← get_option old DHCP_HOST_NAME;
  match h with
  | None => mret None
  | Some ptr =>
      len ← byte_at old (ptr - 1);
      name ← read_at old ptr (Z.to_nat len);
      mret (Some name)
  end.

Definition finish_reply (s : server) (p : bytes) : res bytes :=
  p ← add_options p (c_options (cfg s));
  mret (add_bootp_options s p).

(** The lease time a message asks for, an unsigned number. *)
Definition asked_time (old : bytes) : res (option Z) :=
  t ← get_option old DHCP_LEASE_TIME;
  match t with
  | None => mret None
  | Some ptr => v ← read32 old ptr; mret (Some v)
  end.

Section server.
Context `{ArpPing} `{Network}.

(** The address [sendOffer] considers first, and the lease time that goes with it. *)
Definition offer_candidate (s : server) (old : bytes) : res (Z * Z) :=
  match find_lease_by_chaddr s (chaddr old) with
  | Some (_, l) =>
      mret (l_yiaddr l,
            if lease_expired l (now s) then c_lease (cfg s) else u32 (l_expires l - now s))
  | None =>
      req ← get_option old DHCP_REQUESTED_IP;
      match req with
      | None => mret (0, c_lease (cfg s))
      | Some ptr =>
          r ← read32 old ptr;
          let free :=
            match find_lease_by_yiaddr s r with
            | None => true
            | Some (_, l) => lease_expired l (now s)
            end in
          mret (if (c_start (cfg s) <=? r) && (r <=? c_end (cfg s))
                   && bool_decide (find_static_lease_by_yiaddr s r = None) && free
                then r else 0, c_lease (cfg s))
      end
  end.

Definition offer_address (s : server) (candidate : Z) : res (Z * server) :=
  if negb (candidate =? 0) then mret (candidate, s)
  else
    '(a, s) ← find_address s false;
    if negb (a =? 0) then mret (a, s) else find_address s true.

Definition offer_time (s : server) (lease_time : Z) (asked : option Z) : Z :=
  let t := match asked with
           | Some a => if c_lease (cfg s) <? a then c_lease (cfg s) else a
           | None => lease_time
           end in
  if t <? c_min_lease (cfg s) then c_lease (cfg s) else t.

Definition sendOffer (s : server) (old : bytes) : res (Z * server * list action) :=
  p ← init_packet s old DHCPOFFER;
  match find_static_lease_by_chaddr s (chaddr old) with
  | Some l =>
      let p := set32 p F_yiaddr (l_yiaddr l) in
      '(_, p) ← add_simple_option p DHCP_LEASE_TIME 0xFFFFFFFF;
      p ← finish_reply s p;
      let a := send_packet s p false in
      mret (net_send a, s, [a])
  | None =>
      '(candidate, lease_time) ← offer_candidate s old;
      '(addr, s) ← offer_address s candidate;
      let p := set32 p F_yiaddr addr in
      if addr =? 0 then mret (-1, s, [])
      else
        h ← host_name old;
        let '(o, s) := add_lease s (chaddr p) addr (c_offer_time (cfg s)) h in
        match o with
        | None => mret (-1, s, [])
        | Some _ =>
            asked ← asked_time old;
            '(_, p) ← add_simple_option p DHCP_LEASE_TIME (offer_time s lease_time asked);
            p ← finish_reply s p;
            let a := send_packet s p false in
            mret (net_send a, s, [a])
        end
  end.

Definition sendNAK (s : server) (old : bytes) : res (Z * server * list action) :=
  p ← init_packet s old DHCPNAK;
  let a := send_packet s p true in
  mret (net_send a, s, [a]).

(** ** [write_leases] *)

Definition lease_record (s : server) (l : offered) : bytes :=
  let lease_time :=
    if negb (c_remaining (cfg s) =? 0) then
      if lease_expired l (now s) then 0 else l_expires l - now s
    else l_expires l in
  l_chaddr l ++ be_bytes 4 (l_yiaddr l) ++ be_bytes 4 lease_time ++ be_bytes 4 (l_acked l)
  ++ l_hostname l.

(** The contents of the lease file. *)
Definition write_leases (s : server) : bytes :=
  concat ((λ l, if negb (l_yiaddr l =? 0) && negb (l_acked l =? 0) then lease_record s l else [])
    <$> leases s).

(** ** [sendACK] and [send_inform] *)

Definition ack_time (s : server) (asked : option Z) : Z :=
  match asked with
  | None => c_lease (cfg s)
  | Some a =>
      if negb (a =? 0xFFFFFFFF) && (c_lease (cfg s) <? a) then c_lease (cfg s)
      else if a <? c_min_lease (cfg s) then c_lease (cfg s) else a
  end.

Definition set_acked (l : offered) : offered :=
  mk_lease (l_chaddr l) (l_yiaddr l) (l_expires l) 1 (l_hostname l).

Definition sendACK (s : server) (old : bytes) (yiaddr : Z) : res (Z * server * list action) :=
  p ← init_packet s old DHCPACK;
  let p := set32 p F_yiaddr yiaddr in
  asked ← asked_time old;
  let lease_time := ack_time s asked in
  '(_, p) ← add_simple_option p DHCP_LEASE_TIME lease_time;
  p ← finish_reply s p;
  h ← get_option old DHCP_HOST_NAME;
  let a := send_packet s p false in
  if net_send a <? 0 then mret (-1, s, [a])
  else if lease_time =? 0xFFFFFFFF then mret (0, s, [a])
  else
    h ← host_name old;
    let '(o, s) := add_lease s (chaddr p) yiaddr lease_time h in
    let s := match o with Some i => with_leases s (alter set_acked i (leases s)) | None => s end in
    mret (0, s, [a; WriteLeases (write_leases s)]).

Definition send_inform (s : server) (old : bytes) : res (Z * server * list action) :=
  p ← init_packet s old DHCPACK;
  p ← finish_reply s p;
  let a := send_packet s p false in
  mret (net_send a, s, [a]).

(** ** The switch of [main] *)

(** [memcpy(&x, ptr, 4)] when the pointer is not NULL. *)
Definition option32 (p : bytes) (ptr : option nat) : res (option Z) :=
  match ptr with
  | None => mret None
  | Some i => v ← read32 p i; mret (Some v)
  end.

Definition result := res (server * list action).
Definition discard (r : res (Z * server * list action)) : result :=
  '(_, s, out) ← r; mret (s, out).

(** A REQUEST for which the client has the table entry [lease]. *)
Definition request_leased (s : server) (p : bytes) (lease : offered) (server_id requested : option Z)
  : result :=
  match server_id with
  | Some id =>
      if (id =? c_server (cfg s)) && bool_decide (requested = Some (l_yiaddr lease))
      then discard (sendACK s p (l_yiaddr lease)) else mret (s, [])
  | None =>
      match requested with
      | Some r =>
          if l_yiaddr lease =? r then discard (sendACK s p (l_yiaddr lease))
          else discard (sendNAK s p)
      | None =>
          if l_yiaddr lease =? ciaddr p then discard (sendACK s p (l_yiaddr lease))
          else discard (sendNAK s p)
      end
  end.

(** A REQUEST of a client without a table entry. *)
Definition request_unknown (s : server) (p : bytes) (server_id requested : option Z) : result :=
  match server_id with
  | Some _ => mret (s, [])
  | None =>
      match requested with
      | Some r =>
          match find_static_lease_by_yiaddr s r with
          | Some _ => discard (sendNAK s p)
          | None =>
              match find_lease_by_yiaddr s r with
              | Some (i, l) =>
                  if lease_expired l (now s)
                  then mret (with_leases s (alter (λ l, mk_lease blank_chaddr (l_yiaddr l)
                               (l_expires l) (l_acked l) (l_hostname l)) i (leases s)), [])
                  else discard (sendNAK s p)
              | None => discard (sendNAK s p)
              end
          end
      | None => if negb (ciaddr p =? 0) then discard (sendNAK s p) else mret (s, [])
      end
  end.

Definition handle_request (s : server) (p : bytes) : result :=
  rp ← get_option p DHCP_REQUESTED_IP;
  ip ← get_option p DHCP_SERVER_ID;
  requested ← option32 p rp;
  server_id ← option32 p ip;
  match find_static_lease_by_chaddr s (chaddr p), server_id with
  | Some t, Some id =>
      if id =? c_server (cfg s) then
        if bool_decide (requested = Some (l_yiaddr t)) then
          '(_, p) ← add_simple_option p DHCP_LEASE_TIME 0xFFFFFFFF;
          discard (sendACK s p (l_yiaddr t))
        else discard (sendNAK s p)
      else match find_lease_by_chaddr s (chaddr p) with
           | Some (_, l) => request_leased s p l server_id requested
           | None => request_unknown s p server_id requested
           end
  | _, _ =>
      match find_lease_by_chaddr s (chaddr p) with
      | Some (_, l) => request_leased s p l server_id requested
      | None => request_unknown s p server_id requested
      end
  end.

(** The change of the client's entry by DECLINE and RELEASE. *)
Definition update_own (s : server) (p : bytes) (f : offered → offered) : server :=
  match find_lease_by_chaddr s (chaddr p) with
  | Some (i, _) => with_leases s (alter f i (leases s))
  | None => s
  end.

Definition handle_packet (s : server) (p : bytes) : result :=
  state ← get_option p DHCP_MESSAGE_TYPE;
  match state with
  | None => mret (s, [])
  | Some ptr =>
      type ← byte_at p ptr;
      if type =? DHCPDISCOVER then discard (sendOffer s p)
      else if type =? DHCPREQUEST then handle_request s p
      else if type =? DHCPDECLINE then
        mret (update_own s p (λ l, mk_lease blank_chaddr (l_yiaddr l)
                (u32 (now s + c_decline_time (cfg s))) (l_acked l) (l_hostname l)), [])
      else if type =? DHCPRELEASE then
        mret (update_own s p (λ l, mk_lease (l_chaddr l) (l_yiaddr l) (u32 (now s)) (l_acked l)
                (l_hostname l)), [])
      else if type =? DHCPINFORM then discard (send_inform s p)
      else mret (s, [])
  end.

(** ** The loop of [main] *)

(** What one turn of the loop meets: [select] times out or fails, or a signal is
    pending, or a message (as [read] delivers it) is. *)
Inductive input : Type :=
| Timeout
| SelectError
| SignalUsr1
| SignalTerm
| Message (data : option bytes).

(** [None] for the exit of the process. *)
Definition server_round (s : server) (timeout_end : Z) (i : input)
  : res (option (server * Z) * list action) :=
  match i with
  | Timeout | SignalUsr1 =>
      mret (Some (s, u32 (now s + c_auto_time (cfg s))), [WriteLeases (write_leases s)])
  | SelectError => mret (Some (s, timeout_end), [])
  | SignalTerm => mret (None, [])
  | Message data =>
      '(n, p) ← get_packet data;
      if n <? 0 then mret (Some (s, timeout_end), [])
      else '(s, out) ← handle_packet s p; mret (Some (s, timeout_end), out)
  end.
End server.

#[global] Strategy 300 [init_packet add_options finish_reply asked_time host_name].
#[global] Strategy 200 [sendOffer sendACK sendNAK send_inform handle_request handle_packet].
