(* ===== verification/DhcpReply.v ===== *)
(** * The replies of the DHCP server

    What the messages that [sendOffer], [sendACK], [sendNAK] and [send_inform]
    send contain: the header fields taken from the request, and the options. *)

From stdpp Require Import base numbers sets list.
From S2P Require Import Prelude Bytes DhcpOptions DhcpOptionsProps DhcpPacket DhcpPacketProps.
From S2P Require Import DhcpLeases DhcpLeasesProps DhcpServer.

#[global] Arguments init_packet : simpl never.
#[global] Arguments add_options : simpl never.
#[global] Arguments finish_reply : simpl never.
#[global] Arguments add_bootp_options : simpl never.
#[global] Arguments send_packet : simpl never.

(** ** Header and options of a message under writes *)

Lemma drop_splice_ge (p : bytes) off s k :
  (off + length s ≤ k)%nat → (off + length s ≤ length p)%nat → drop k (splice p off s) = drop k p.
Proof.
  intros H Hl. unfold splice. rewrite drop_app_ge by (rewrite length_take; lia).
  rewrite length_take, drop_app_ge by lia. rewrite drop_drop. f_equal. lia.
Qed.

Lemma has_items_header p its off s :
  has_items p its → (off + length s ≤ 240)%nat → has_items (splice p off s) its.
Proof.
  intros (Hl & Hok & Hd) H. split; [rewrite length_splice; lia|]. split; [done|].
  by rewrite drop_splice_ge by lia.
Qed.

Lemma slice_head (p p' : bytes) off n :
  take 240 p' = take 240 p → (off + n ≤ 240)%nat → slice p' off n = slice p off n.
Proof.
  intros H Hn. unfold slice.
  assert (Hs : ∀ q : bytes, take n (drop off q) = take n (drop off (take 240 q))).
  { intros q. rewrite skipn_firstn_comm, take_take. f_equal. lia. }
  by rewrite (Hs p'), H, <- Hs.
Qed.

(** Options of the configuration file: well formed, and no overload option. *)
Definition cfg_options_ok (l : option_set) : Prop :=
  Forall (λ d, set_ok d ∧ set_code d ≠ DHCP_OPTION_OVER) l.

(** An item made of an option of the configuration. *)
Definition from_config (l : option_set) (it : item) : Prop :=
  ∃ c v, it = Opt c v ∧ c ≠ DHCP_LEASE_TIME ∧ c ≠ DHCP_OPTION_OVER ∧ enc it ∈ l.

Lemma add_options_spec p its l :
  has_items p its → cfg_options_ok l →
  ∃ p' more, add_options p l = Ok p' ∧ has_items p' (its ++ more) ∧ take 240 p' = take 240 p
    ∧ Forall (from_config l) more.
Proof.
  intros Hp Hl. revert p its Hp. induction Hl as [|d l [Hd Hno] Hl IH]; intros p its Hp.
  { exists p, []. rewrite app_nil_r. split; [done|]. auto. }
  destruct Hd as (c & v & -> & Hc & Hv). unfold add_options. fold add_options.
  change (byte_at (c :: Z.of_nat (length v) :: v) 0) with (@Ok Z c). cbn [mbind res_bind].
  assert (Hmono : ∀ more, Forall (from_config l) more →
    Forall (from_config ((c :: Z.of_nat (length v) :: v) :: l)) more).
  { intros more Hm. eapply Forall_impl; [exact Hm|]. intros it (c' & v' & -> & ? & ? & ?).
    exists c', v'. set_solver. }
  destruct (Z.eqb_spec c DHCP_LEASE_TIME) as [->|Hne].
  { destruct (IH p its Hp) as (p' & more & ? & ? & ? & ?). exists p', more. auto. }
  pose proof (add_option_string_spec p its c v [] Hp) as H. rewrite app_nil_r in H. cbn [enc] in H.
  specialize (H ltac:(split; lia)). case_decide.
  - destruct H as (p1 & -> & Hp1 & Ht1). cbn [mbind res_bind].
    destruct (IH p1 _ Hp1) as (p' & more & E & Hp' & Ht & Hm).
    exists p', (Opt c v :: more). split; [done|]. split; [by rewrite <- app_assoc in Hp'|].
    split; [congruence|]. constructor; [|by apply Hmono]. exists c, v. cbn in Hno. set_solver.
  - rewrite H. cbn [mbind res_bind]. destruct (IH p its Hp) as (p' & more & ? & ? & ? & ?).
    exists p', more. auto.
Qed.

Definition cfg_ok (c : server_config) : Prop :=
  is_u32 (c_server c) ∧ is_u32 (c_start c) ∧ 0 ≤ c_end c < 4294967295 ∧ is_u32 (c_lease c)
  ∧ cfg_options_ok (c_options c).

Lemma add_bootp_spec s p its :
  has_items p its →
  has_items (add_bootp_options s p) its
  ∧ ∀ off n, (off + n ≤ 20 ∨ (24 ≤ off ∧ off + n ≤ 44) ∨ 236 ≤ off)%nat →
      slice (add_bootp_options s p) off n = slice p off n.
Proof.
  intros Hp. unfold add_bootp_options, set32, F_siaddr, F_sname, F_file.
  set (p1 := splice p 20 (be_bytes 4 (c_siaddr (cfg s)))).
  assert (L4 : length (be_bytes 4 (c_siaddr (cfg s))) = 4%nat) by done.
  assert (H1 : has_items p1 its) by (apply has_items_header; [done|lia]).
  assert (Hl : length p = 548%nat) by apply Hp. assert (Hl1 : length p1 = 548%nat) by apply H1.
  assert (S1 : ∀ off n, (off + n ≤ 20 ∨ 24 ≤ off)%nat → slice p1 off n = slice p off n).
  { intros off n [H|H]; [apply slice_splice_before|apply slice_splice_after]; lia. }
  set (p2 := match c_sname (cfg s) with Some n => splice p1 44 (strncpy n 63) | None => p1 end).
  assert (H2 : has_items p2 its ∧ ∀ off n, (off + n ≤ 44 ∨ 107 ≤ off)%nat → slice p2 off n = slice p1 off n).
  { subst p2. destruct (c_sname _) as [nm|]; [|done]. pose proof (strncpy_length nm 63) as L.
    split; [apply has_items_header; [done|lia]|].
    intros off n [H|H]; [apply slice_splice_before|apply slice_splice_after]; lia. }
  destruct H2 as [H2 S2]. assert (Hl2 : length p2 = 548%nat) by apply H2.
  destruct (c_boot_file (cfg s)) as [nm|].
  - pose proof (strncpy_length nm 127) as L. split; [apply has_items_header; [done|lia]|].
    intros off n H. destruct (decide (236 ≤ off)%nat).
    + rewrite slice_splice_after by lia. rewrite S2 by lia. apply S1. lia.
    + rewrite slice_splice_before by lia. rewrite S2 by lia. apply S1. lia.
  - split; [done|]. intros off n H. rewrite S2 by lia. apply S1. lia.
Qed.

(** ** Replies *)

(** [p] is a reply of type [t] to [old], with the address [y], and the lease time
    [o] if any, before the options of the configuration. *)
Record is_reply (s : server) (old : bytes) (t y : Z) (o : option Z) (p : bytes) : Prop := {
  ir_items : ∃ more, has_items p (Opt DHCP_MESSAGE_TYPE [t]
      :: Opt DHCP_SERVER_ID (be_bytes 4 (c_server (cfg s)))
      :: match o with Some v => [Opt DHCP_LEASE_TIME (be_bytes 4 v)] | None => [] end ++ more)
    ∧ Forall (from_config (c_options (cfg s))) more;
  ir_xid : xid p = xid old;
  ir_chaddr : chaddr p = chaddr old;
  ir_flags : flags p = flags old;
  ir_giaddr : giaddr p = giaddr old;
  ir_ciaddr : ciaddr p = ciaddr old;
  ir_yiaddr : yiaddr p = y;
  ir_cookie : cookie p = DHCP_MAGIC }.

(** A message under construction: the items so far, the fields of [old]. *)
Record draft (old : bytes) (its : list item) (p : bytes) : Prop := {
  dr_items : has_items p its;
  dr_xid : slice p 4 4 = slice old 4 4;
  dr_chaddr : slice p 28 16 = slice old 28 16;
  dr_flags : slice p 10 2 = slice old 10 2;
  dr_giaddr : slice p 24 4 = slice old 24 4;
  dr_ciaddr : slice p 12 4 = slice old 12 4;
  dr_cookie : cookie p = DHCP_MAGIC }.

Lemma draft_head old its its' p p' :
  draft old its p → has_items p' its' → take 240 p' = take 240 p → draft old its' p'.
Proof.
  intros [] Hp' Ht. constructor; [done|..]; try (rewrite (slice_head p p') by (done || lia); done).
  unfold cookie, get32. by rewrite (slice_head p p') by (done || (unfold F_cookie; lia)).
Qed.

Lemma option_length_server_id : option_length DHCP_SERVER_ID = 4.
Proof. done. Qed.
Lemma option_length_lease_time : option_length DHCP_LEASE_TIME = 4.
Proof. done. Qed.

Lemma add_option32 p its code v :
  has_items p its → 0 < code < 255 → option_length code = 4 → (length (encs its) + 7 < 308)%nat →
  ∃ p', add_simple_option p code v = Ok (6, p')
    ∧ has_items p' (its ++ [Opt code (be_bytes 4 v)]) ∧ take 240 p' = take 240 p.
Proof.
  intros Hp Hc Ho Hf. pose proof (add_simple_option_spec p its code v Hp Hc) as H.
  rewrite Ho in H. change (Z.to_nat 4) with 4%nat in H. apply H; lia.
Qed.

Lemma be_slice (old : bytes) off n :
  is_bytes old → (off + n ≤ length old)%nat → be_bytes n (be_val (slice old off n)) = slice old off n.
Proof.
  intros Hb Hn. rewrite <- (length_slice old off n) at 1 by lia. by apply be_bytes_val, is_bytes_slice.
Qed.

(** The fields copied from [old]. *)
Definition copy_header (p old : bytes) : bytes :=
  let p := splice p 4 (slice old 4 4) in
  let p := splice p 28 (slice old 28 16) in
  let p := splice p 10 (slice old 10 2) in
  let p := splice p 24 (slice old 24 4) in
  splice p 12 (slice old 12 4).

Lemma slice_write (q old : bytes) off n :
  length q = 548%nat → length old = 548%nat → (off + n ≤ 548)%nat →
  slice (splice q off (slice old off n)) off n = slice old off n.
Proof.
  intros Hq Ho Hn. assert (L : length (slice old off n) = n) by (apply length_slice; lia).
  rewrite <- L at 2. apply slice_splice. lia.
Qed.

Lemma copy_header_draft p0 old its :
  has_items p0 its → length old = 548%nat → cookie p0 = DHCP_MAGIC → draft old its (copy_header p0 old).
Proof.
  intros H0 Hl Hc. unfold copy_header. cbv zeta.
  assert (L : ∀ off n, (off + n ≤ 548)%nat → length (slice old off n) = n) by (intros; apply length_slice; lia).
  pose proof (L 4%nat 4%nat ltac:(lia)) as L1. pose proof (L 28%nat 16%nat ltac:(lia)) as L2.
  pose proof (L 10%nat 2%nat ltac:(lia)) as L3. pose proof (L 24%nat 4%nat ltac:(lia)) as L4.
  pose proof (L 12%nat 4%nat ltac:(lia)) as L5.
  assert (K0 : length p0 = 548%nat) by apply H0.
  assert (E : ∀ p1 p2 p3 p4 p5, p1 = splice p0 4 (slice old 4 4) → p2 = splice p1 28 (slice old 28 16) →
    p3 = splice p2 10 (slice old 10 2) → p4 = splice p3 24 (slice old 24 4) →
    p5 = splice p4 12 (slice old 12 4) → draft old its p5); [|by eapply E].
  intros p1 p2 p3 p4 p5 E1 E2 E3 E4 E5.
  assert (H1 : has_items p1 its) by (subst p1; apply has_items_header; [done|lia]).
  assert (H2 : has_items p2 its) by (subst p2; apply has_items_header; [done|lia]).
  assert (H3 : has_items p3 its) by (subst p3; apply has_items_header; [done|lia]).
  assert (H4 : has_items p4 its) by (subst p4; apply has_items_header; [done|lia]).
  assert (H5 : has_items p5 its) by (subst p5; apply has_items_header; [done|lia]).
  assert (K1 : length p1 = 548%nat) by apply H1. assert (K2 : length p2 = 548%nat) by apply H2.
  assert (K3 : length p3 = 548%nat) by apply H3. assert (K4 : length p4 = 548%nat) by apply H4.
  constructor; [done|..].
  - rewrite E5, slice_splice_before by lia. rewrite E4, slice_splice_before by lia.
    rewrite E3, slice_splice_before by lia. rewrite E2, slice_splice_before by lia.
    rewrite E1. by apply slice_write; [..|lia].
  - rewrite E5, slice_splice_after by lia. rewrite E4, slice_splice_after by lia.
    rewrite E3, slice_splice_after by lia. rewrite E2. by apply slice_write; [..|lia].
  - rewrite E5, slice_splice_before by lia. rewrite E4, slice_splice_before by lia.
    rewrite E3. by apply slice_write; [..|lia].
  - rewrite E5, slice_splice_after by lia. rewrite E4. by apply slice_write; [..|lia].
  - rewrite E5. by apply slice_write; [..|lia].
  - rewrite <- Hc. unfold cookie, get32, F_cookie. f_equal.
    rewrite E5, slice_splice_after by lia. rewrite E4, slice_splice_after by lia.
    rewrite E3, slice_splice_after by lia. rewrite E2, slice_splice_after by lia.
    by rewrite E1, slice_splice_after by lia.
Qed.

Lemma copy_fields_eq p old :
  length old = 548%nat → is_bytes old → copy_fields p old = copy_header p old.
Proof.
  intros Hl Hb.
  unfold copy_fields, copy_header, set32, set16, xid, flags, giaddr, ciaddr, chaddr, get32, get16.
  cbv zeta. unfold F_xid, F_chaddr, F_flags, F_giaddr, F_ciaddr.
  rewrite !be_slice by (done || lia). reflexivity.
Qed.

Lemma init_packet_spec s old t :
  1 ≤ t ≤ 8 → length old = 548%nat → is_bytes old →
  ∃ p, init_packet s old t = Ok p
    ∧ draft old [Opt DHCP_MESSAGE_TYPE [t]; Opt DHCP_SERVER_ID (be_bytes 4 (c_server (cfg s)))] p.
Proof.
  intros Ht Hl Hb. destruct (init_header_spec t Ht) as (p0 & E0 & H0 & Hc & _ & _).
  pose proof (copy_header_draft p0 old _ H0 Hl Hc) as D. rewrite <- copy_fields_eq in D by done.
  destruct (add_option32 (copy_fields p0 old) [Opt DHCP_MESSAGE_TYPE [t]] DHCP_SERVER_ID (c_server (cfg s)))
    as (p' & E & Hp' & Htk);
    [apply D|unfold DHCP_SERVER_ID; lia|apply option_length_server_id|cbn; lia|].
  exists p'. split; [|by eapply draft_head].
  unfold init_packet. rewrite E0, bind_ret, E, bind_ret. reflexivity.
Qed.

Lemma draft_yiaddr old its p y :
  draft old its p → draft old its (set32 p F_yiaddr y)
    ∧ slice (set32 p F_yiaddr y) 16 4 = be_bytes 4 y.
Proof.
  intros [Hi ? ? ? ? ? ?]. assert (Hl : length p = 548%nat) by apply Hi.
  assert (L4 : length (be_bytes 4 y) = 4%nat) by done. unfold set32, F_yiaddr. split.
  - constructor.
    + apply has_items_header; [done|lia].
    + by rewrite slice_splice_before by lia.
    + by rewrite slice_splice_after by lia.
    + by rewrite slice_splice_before by lia.
    + by rewrite slice_splice_after by lia.
    + by rewrite slice_splice_before by lia.
    + unfold cookie, get32, F_cookie in *. by rewrite slice_splice_after by lia.
  - rewrite <- L4 at 2. apply slice_splice. lia.
Qed.

Lemma finish_reply_spec s old its p :
  cfg_options_ok (c_options (cfg s)) → draft old its p →
  ∃ p' more, finish_reply s p = Ok p' ∧ draft old (its ++ more) p'
    ∧ Forall (from_config (c_options (cfg s))) more ∧ slice p' 16 4 = slice p 16 4.
Proof.
  intros Hc D. destruct (add_options_spec p its _ (dr_items _ _ _ D) Hc) as (p1 & more & E & H1 & Ht & Hm).
  pose proof (draft_head _ _ _ _ _ D H1 Ht) as D1.
  destruct (add_bootp_spec s p1 _ H1) as [H2 S2].
  exists (add_bootp_options s p1), more. split; [unfold finish_reply; by rewrite E, bind_ret|].
  split; [|split; [done|]].
  - destruct D1 as [? ? ? ? ? ? Hck]. constructor; [done|..]; try (rewrite S2 by lia; done).
    unfold cookie, get32, F_cookie in *. by rewrite S2 by lia.
  - rewrite S2 by lia. by apply slice_head; [|lia].
Qed.

(** A draft with all its options is a reply. *)
Lemma draft_reply s old t y o p more :
  draft old (Opt DHCP_MESSAGE_TYPE [t] :: Opt DHCP_SERVER_ID (be_bytes 4 (c_server (cfg s)))
    :: match o with Some v => [Opt DHCP_LEASE_TIME (be_bytes 4 v)] | None => [] end ++ more) p →
  Forall (from_config (c_options (cfg s))) more → slice p 16 4 = be_bytes 4 y → is_u32 y →
  is_reply s old t y o p.
Proof.
  intros [] Hm Hy Hu.
  unfold xid, chaddr, flags, giaddr, ciaddr, get32, get16 in *. constructor; [by exists more|..]; try done.
  - unfold xid, get32, F_xid. congruence.
  - unfold flags, get16, F_flags. congruence.
  - unfold giaddr, get32, F_giaddr. congruence.
  - unfold ciaddr, get32, F_ciaddr. congruence.
  - unfold yiaddr, get32, F_yiaddr. rewrite Hy, be_val_bytes. apply Z.mod_small. exact Hu.
Qed.

(** The common tail of [sendOffer] and [sendACK]: lease time, configuration. *)
Lemma reply_tail s old t y p v :
  cfg_options_ok (c_options (cfg s)) → is_u32 y →
  draft old [Opt DHCP_MESSAGE_TYPE [t]; Opt DHCP_SERVER_ID (be_bytes 4 (c_server (cfg s)))] p →
  ∃ p1 p', add_simple_option (set32 p F_yiaddr y) DHCP_LEASE_TIME v = Ok (6, p1)
    ∧ finish_reply s p1 = Ok p' ∧ is_reply s old t y (Some v) p'.
Proof.
  intros Hc Hy D. destruct (draft_yiaddr _ _ _ y D) as [D1 Y1].
  destruct (add_option32 _ _ DHCP_LEASE_TIME v (dr_items _ _ _ D1)) as (p1 & E1 & H1 & Ht1);
    [unfold DHCP_LEASE_TIME; lia|apply option_length_lease_time| |].
  { rewrite !encs_cons, !length_app. cbn [enc length]. rewrite length_be_bytes. cbn. lia. }
  pose proof (draft_head _ _ _ _ _ D1 H1 Ht1) as D2.
  destruct (finish_reply_spec s _ _ _ Hc D2) as (p' & more & E2 & D3 & Hm & Y2).
  exists p1, p'. split; [done|]. split; [done|].
  eapply (draft_reply s old t y (Some v) p' more); [exact D3|done| |done].
  rewrite Y2, (slice_head _ _ _ _ Ht1) by lia. done.
Qed.

Lemma chaddr_yiaddr p y : length p = 548%nat → chaddr (set32 p F_yiaddr y) = chaddr p.
Proof.
  intros Hl. unfold chaddr, set32, F_chaddr, F_yiaddr.
  assert (L4 : length (be_bytes 4 y) = 4%nat) by done. by rewrite slice_splice_after by lia.
Qed.
