(* ===== verification/DhcpServerInv.v ===== *)
(** * The DHCP server: invariant and the effect of each handler

    Messages the server can read, the invariant of its tables, and what
    [sendOffer] and [sendACK] do to them and send. *)

From stdpp Require Import base numbers sets list.
From S2P Require Import Prelude Bytes DhcpOptions DhcpOptionsProps DhcpPacket DhcpPacketProps.
From S2P Require Import DhcpLeases DhcpLeasesProps DhcpServer DhcpReply.

#[global] Arguments sendOffer : simpl never.
#[global] Arguments sendACK : simpl never.
#[global] Arguments sendNAK : simpl never.
#[global] Arguments send_inform : simpl never.
#[global] Arguments get_packet : simpl never.
#[global] Arguments add_lease : simpl never.
#[global] Arguments find_address : simpl never.

(** ** Messages *)

(** The options that are numbers of four bytes. *)
Definition number_codes : list Z := [DHCP_REQUESTED_IP; DHCP_LEASE_TIME; DHCP_SERVER_ID].

(** Every option can be looked up, and the numbers lie inside the message. *)
Record readable (p : bytes) : Prop := {
  rd_len : length p = 548%nat;
  rd_bytes : is_bytes p;
  rd_opt : ∀ code, 0 < code < 255 → ∃ r, get_option p code = Ok r ∧ ∀ ptr, r = Some ptr →
    in_message p ptr ∧ (ptr < 548)%nat ∧ (code ∈ number_codes → (ptr + 4 ≤ 548)%nat) }.

(** The items of a message; its numbers have four bytes. *)
Definition items_readable (its : list item) : Prop :=
  no_overload its ∧ ∀ c d, Opt c d ∈ its → c ∈ number_codes → length d = 4%nat.

Lemma readable_items p its :
  has_items p its → items_readable its → is_bytes p → readable p.
Proof.
  intros Hp [Hno H4] Hb. constructor; [apply Hp|done|]. intros code Hc.
  rewrite (get_option_has_items p its code Hp Hno Hc). eexists. split; [done|].
  pose proof (has_items_length _ _ Hp) as Hlen. destruct Hp as (Hl & Hok & rest & Hd).
  intros ptr Hptr. destruct (find_item its code 240) as [[q d]|] eqn:Ef; [|done].
  cbn in Hptr. injection Hptr as ->.
  destruct (find_item_data its p 240 rest code ptr d Hd Ef) as (H1 & H2 & H3 & H5 & Hin).
  split; [exists (Z.of_nat (length d)); rewrite Nat2Z.id; split; [done|lia]|]. split; [lia|].
  intros Hn. rewrite (H4 _ _ Hin Hn) in H5. lia.
Qed.

(** What [get_option] returns is behind a byte with the code. *)
Lemma get_option_loop_code fuel p base i len over curr code ptr :
  get_option_loop fuel p base i len over curr code = Ok (Some ptr) →
  (2 ≤ ptr)%nat ∧ byte_at p (ptr - 2) = Ok code.
Proof.
  revert base i len over curr. induction fuel as [|fuel IH]; intros base i len over curr H; [done|].
  cbn [get_option_loop] in H. case_decide; [done|]. apply bind_Ok in H as (c & Ec & H).
  destruct (Z.eqb_spec c code) as [->|].
  { apply bind_Ok in H as (l & _ & H). case_decide; [done|]. injection H as <-. split; [lia|].
    by replace (base + i + 2 - 2)%nat with (base + i)%nat by lia. }
  destruct (c =? DHCP_PADDING); [by eapply IH|].
  destruct (c =? DHCP_OPTION_OVER).
  { apply bind_Ok in H as (l & _ & H). case_decide; [done|]. res_inv. by eapply IH. }
  destruct (c =? DHCP_END).
  { destruct (_ && _); [by eapply IH|]. destruct (_ && _); [by eapply IH|done]. }
  res_inv. by eapply IH.
Qed.

Lemma get_option_code p code ptr :
  get_option p code = Ok (Some ptr) → (2 ≤ ptr)%nat ∧ p !! (ptr - 2)%nat = Some code.
Proof.
  unfold get_option. intros H. apply get_option_loop_code in H as [H2 E]. split; [done|].
  by apply deref_Ok in E.
Qed.

(** The bytes of [p] from [n] on are those of the memset. *)
Definition received (p : bytes) (n : nat) : Prop :=
  length p = 548%nat ∧ ∀ i, (n ≤ i < 548)%nat → p !! i = Some 0.

Lemma received_zero_tail p n : received p n → (n ≤ 544)%nat → zero_tail p.
Proof. intros [Hl Hz] Hn. split; [done|]. intros i Hi. apply Hz. lia. Qed.

Lemma received_before p n i v : received p n → p !! i = Some v → v ≠ 0 → (i < n)%nat.
Proof.
  intros [Hl Hz] Hi Hv. pose proof (lookup_lt_Some _ _ _ Hi).
  destruct (decide (i < n)%nat); [done|]. rewrite Hz in Hi by lia. congruence.
Qed.

(** A message whose last five bytes were not received is readable. *)
Lemma readable_received p n : received p n → (n ≤ 543)%nat → is_bytes p → readable p.
Proof.
  intros Hr Hn Hb. constructor; [apply Hr|done|]. intros code Hc.
  destruct (get_option_zero_tail p code) as (r & E & Hin);
    [apply (received_zero_tail p n); [done|lia]|lia|].
  exists r. split; [done|]. intros ptr ->. split; [by apply Hin|].
  apply get_option_code in E as [H2 E].
  assert (ptr - 2 < n)%nat by (apply (received_before p n _ code); [done..|lia]).
  split; [lia|]. intros _. lia.
Qed.

Lemma read32_slice p off : (off + 4 ≤ length p)%nat → read32 p off = Ok (be_val (slice p off 4)).
Proof. intros H. unfold read32. by rewrite read_at_Ok. Qed.

(** [option32] of a number option. *)
Lemma option32_spec p code :
  readable p → code ∈ number_codes →
  ∃ o r, get_option p code = Ok o ∧ option32 p o = Ok r
    ∧ (∀ v, r = Some v → is_u32 v) ∧ (o = None ↔ r = None)
    ∧ (∀ ptr, o = Some ptr → r = Some (get32 p ptr)).
Proof.
  intros [Hl Hb H] Hc. destruct (H code) as (o & E & Ho).
  { unfold number_codes, DHCP_REQUESTED_IP, DHCP_LEASE_TIME, DHCP_SERVER_ID in Hc.
    apply elem_of_cons in Hc as [->|Hc]; [lia|]. apply elem_of_cons in Hc as [->|Hc]; [lia|].
    apply list_elem_of_singleton in Hc as ->. lia. }
  exists o. destruct o as [ptr|].
  - destruct (Ho ptr eq_refl) as (_ & _ & H4). exists (Some (get32 p ptr)). split; [done|].
    unfold option32. rewrite read32_slice by (rewrite Hl; auto). split; [done|].
    split; [intros v [= <-]; by apply get32_range|]. split; [done|]. by intros ? [= <-].
  - exists None. done.
Qed.

(** The number in an option of a message. *)
Definition number (p : bytes) (code : Z) : res (option Z) :=
  o ← get_option p code; option32 p o.

Lemma asked_time_spec p :
  readable p → ∃ a, asked_time p = Ok a ∧ ∀ v, a = Some v → is_u32 v.
Proof.
  intros Hp. destruct (option32_spec p DHCP_LEASE_TIME Hp) as (o & r & E & Er & Hr & _); [set_solver|].
  exists r. split; [|done]. unfold asked_time. rewrite E, bind_ret. by destruct o.
Qed.

Lemma host_name_spec p : readable p → ∃ h, host_name p = Ok h.
Proof.
  intros [Hl Hb H]. destruct (H DHCP_HOST_NAME) as (o & E & Ho); [unfold DHCP_HOST_NAME; lia|].
  unfold host_name. rewrite E, bind_ret. destruct o as [ptr|]; [|by eexists].
  destruct (Ho ptr eq_refl) as ((l & E1 & H2 & H3) & _ & _). rewrite E1, bind_ret.
  rewrite read_at_Ok by lia. by eexists.
Qed.

(** ** The invariant *)

(** Static addresses are in the table only for their owners. *)
Definition separated (st t : list offered) : Prop :=
  ∀ l x, l ∈ t → x ∈ statics st → l_yiaddr l = l_yiaddr x →
    l_chaddr l = l_chaddr x ∨ is_blank (l_chaddr l) = true.

Record sinv (s : server) : Prop := {
  si_table : table_ok (leases s);
  si_cfg : cfg_ok (cfg s);
  si_static : Forall lease_ok (static_leases s);
  si_unique : ∀ a b, a ∈ statics (static_leases s) → b ∈ statics (static_leases s) →
    l_yiaddr a = l_yiaddr b → a = b;
  si_sep : separated (static_leases s) (leases s);
  si_now : 0 < now s }.

(** What an event of the client [c] may change: its own entry, expired entries,
    and reservations. *)
Record evolves (s s' : server) (c : bytes) : Prop := {
  ev_cfg : cfg s' = cfg s;
  ev_static : static_leases s' = static_leases s;
  ev_now : now s ≤ now s';
  ev_ok : table_ok (leases s');
  ev_len : length (leases s') = length (leases s);
  ev_sep : separated (static_leases s) (leases s');
  ev_keep : ∀ i l, leases s !! i = Some l → now s' ≤ l_expires l → l_chaddr l ≠ c →
    is_blank (l_chaddr l) = false → leases s' !! i = Some l;
  ev_known : ∀ l, l ∈ leases s' → known s (l_yiaddr l) }.

Lemma evolves_refl s c : sinv s → evolves s s c.
Proof. intros []. constructor; auto using known_in; lia. Qed.

Lemma evolves_trans s1 s2 s3 c : evolves s1 s2 c → evolves s2 s3 c → evolves s1 s3 c.
Proof.
  intros [A1 A2 A3 A4 A5 A6 A7 A8] [B1 B2 B3 B4 B5 B6 B7 B8].
  constructor; try congruence; try lia; try done.
  - by rewrite A2 in B6.
  - intros i l Hl He Hc Hb. apply B7; [|done..]. apply A7; [done|lia|done..].
  - intros l Hl. by eapply known_step; [..|apply B8].
Qed.

Lemma evolves_sinv s s' c : sinv s → evolves s s' c → sinv s'.
Proof.
  intros [] []. constructor; [done|congruence|congruence| | |lia].
  - rewrite ev_static0. done.
  - rewrite ev_static0. done.
Qed.

Lemma searched_evolves s s' c : sinv s → searched s s' → evolves s s' c.
Proof.
  intros [] []. constructor; try done.
  - intros l x Hl Hx Hy. destruct (se_new l Hl) as [H| [->|H]].
    + by apply si_sep0.
    + by right.
    + right. by rewrite H.
  - intros i l Hl He _ _. by apply se_keep.
Qed.

(** The entries after [add_lease]. *)
Lemma add_lease_in s c y d h l :
  l ∈ leases (snd (add_lease s c y d h)) →
  l ∈ leases s ∨ l = zero_lease ∨ (l_chaddr l = c ∧ l_yiaddr l = y).
Proof.
  assert (Hcl : ∀ l, l ∈ clear_lease (leases s) c y → l ∈ leases s ∨ l = zero_lease).
  { intros k Hk. apply list_elem_of_fmap in Hk as (l0 & -> & Hl0).
    destruct (clears c y l0); [by right|by left]. }
  pose proof (add_lease_spec s c y d h) as Hsp. intros Hl.
  destruct (add_lease s c y d h) as [[i|] s']; cbn [snd] in *.
  - destruct Hsp as (l1 & _ & _ & _ & _ & Hlk). apply list_elem_of_lookup in Hl as [j Hj].
    rewrite Hlk in Hj. case_decide.
    + injection Hj as <-. cbn. auto.
    + destruct (Hcl l); [by eapply list_elem_of_lookup_2|auto..].
  - destruct Hsp as [-> _]. destruct (Hcl l Hl); auto.
Qed.

(** The client [c] may have the address [y]: nobody else holds it, and it is not
    the static address of another client. *)
Record may_have (s : server) (c : bytes) (y : Z) : Prop := {
  mh_len : length c = 16%nat;
  mh_u32 : is_u32 y;
  mh_free : ∀ l, l ∈ leases s → y ≠ 0 → l_yiaddr l = y →
    l_chaddr l = c ∨ is_blank (l_chaddr l) = true ∨ l_expires l < now s;
  mh_static : ∀ x, x ∈ statics (static_leases s) → y = l_yiaddr x →
    c = l_chaddr x ∨ is_blank c = true;
  mh_known : known s y }.

Lemma add_lease_evolves s c y d h :
  sinv s → may_have s c y → evolves s (snd (add_lease s c y d h)) c.
Proof.
  intros [] [Hc Hy Hfree Hst Hkn].
  pose proof (add_lease_fixed s c y d h) as (F1 & F2 & F3).
  destruct (add_lease_ok s c y d h si_table0 Hc Hy) as [O1 O2].
  constructor; rewrite ?F1, ?F2, ?F3; try done.
  - intros l x Hl Hx E. destruct (add_lease_in s c y d h l Hl) as [H|[->|[<- <-]]].
    + by apply si_sep0.
    + by right.
    + by apply Hst.
  - intros i l Hl He Hne Hb. apply add_lease_keeps; [done|done|].
    unfold clears. rewrite bool_decide_false by done. rewrite andb_false_r. cbn [orb].
    destruct (Z.eqb_spec (l_yiaddr l) y) as [E|]; [|apply andb_false_r].
    destruct (Z.eqb_spec y 0); [done|exfalso].
    destruct (Hfree l) as [?|[?|?]]; [by eapply list_elem_of_lookup_2|done|done|congruence|congruence|lia].
  - intros l Hl. destruct (add_lease_in s c y d h l Hl) as [?|[->|[_ ->]]];
      [by apply known_in|apply known_zero|done].
Qed.

Lemma is_reply_cfg s s' old t y o p : cfg s' = cfg s → is_reply s' old t y o p → is_reply s old t y o p.
Proof. intros E []. rewrite E in *. constructor; done. Qed.

(** ** Offers *)

Section arp.
Context `{Harp : ArpPing} `{!ArpOK Harp} `{Hnet : Network}.

Lemma length_chaddr p : length p = 548%nat → length (chaddr p) = 16%nat.
Proof. intros H. unfold chaddr. apply length_slice. unfold F_chaddr. lia. Qed.

(** The client's entry holds [y]. *)
Definition holds (s : server) (c : bytes) (y : Z) : Prop :=
  ∃ l, l ∈ leases s ∧ l_chaddr l = c ∧ l_yiaddr l = y.

(** Addresses for clients without one: in the range, nobody's static address. *)
Definition in_pool (s : server) (y : Z) : Prop :=
  c_start (cfg s) ≤ y ≤ c_end (cfg s) ∧ find_static_lease_by_yiaddr s y = None.

Lemma pool_static s y x : in_pool s y → x ∈ statics (static_leases s) → y ≠ l_yiaddr x.
Proof.
  intros [_ Hn] Hx ->. unfold find_static_lease_by_yiaddr in Hn.
  pose proof (find_static_None _ _ _ Hn Hx) as E. cbn in E. by rewrite Z.eqb_refl in E.
Qed.

Lemma holds_may_have s c y : sinv s → length c = 16%nat → holds s c y → may_have s c y.
Proof.
  intros [Hok _ _ _ Hsep _] Hc (l & Hl & Hlc & Hly). pose proof Hok as [Hf _].
  rewrite Forall_forall in Hf. constructor; [done| | | |].
  - rewrite <- Hly. apply Hf. done.
  - intros k Hk Hy0 Hky. left. apply list_elem_of_lookup in Hl as [i Hi].
    apply list_elem_of_lookup in Hk as [j Hj].
    assert (j = i) as -> by (eapply table_unique_y; eauto; congruence). congruence.
  - intros x Hx E. rewrite <- Hlc. apply (Hsep l x); [done..|congruence].
  - left. by exists l.
Qed.

Lemma pool_may_have s c y ce :
  cfg_ok (cfg s) → length c = 16%nat → in_pool s y → no_live s y ce → may_have s c y.
Proof.
  intros Hcfg Hc Hp Hno. constructor; [done| | | |].
  - destruct Hcfg as (_ & Hs & He & _), Hp as [Hr _]. unfold is_u32 in *. lia.
  - intros l Hl _ Hy. destruct (Hno l Hl Hy). by right; right.
  - intros x Hx E. by apply (pool_static s y x) in Hx.
  - right; right; left. apply Hp.
Qed.

(** A requested address that the client may be offered: in the pool, and nobody's, or
    its lease has expired. *)
Definition requestable (s : server) (p : bytes) (y : Z) : Prop :=
  number p DHCP_REQUESTED_IP = Ok (Some y) ∧ in_pool s y ∧ no_live s y true.

(** The address that [sendOffer] prefers: the one of the client's entry, or in the
    absence of an entry the requested one. *)
Definition preferred (s : server) (p : bytes) (y : Z) : Prop :=
  y ≠ 0 ∧
  match find_lease_by_chaddr s (chaddr p) with
  | Some (_, l) => l_yiaddr l = y
  | None => requestable s p y
  end.

Lemma offer_candidate_spec s p :
  sinv s → readable p →
  ∃ y t, offer_candidate s p = Ok (y, t)
    ∧ (y ≠ 0 → may_have s (chaddr p) y ∧ preferred s p y)
    ∧ (∀ y', preferred s p y' → y = y').
Proof.
  intros Hs Hp. pose proof (length_chaddr p (rd_len p Hp)) as Hc. unfold offer_candidate, preferred.
  destruct (find_lease_by_chaddr s (chaddr p)) as [[i l]|] eqn:Ef.
  { apply find_by_chaddr_Some in Ef as [Hi Hl]. eexists _, _. split; [done|]. split; [|by intros y' [_ <-]].
    intros Hy. split; [|done]. apply holds_may_have; [done|done|]. exists l. split; [by eapply list_elem_of_lookup_2|done]. }
  destruct (option32_spec p DHCP_REQUESTED_IP Hp) as (o & r & E & Er & Hr & _ & Hv); [set_solver|].
  assert (En : number p DHCP_REQUESTED_IP = Ok r) by (unfold number; by rewrite E, bind_ret).
  rewrite E, bind_ret. unfold requestable. rewrite En. destruct o as [ptr|].
  2: { exists 0, (c_lease (cfg s)). cbn in Er. injection Er as <-. split; [done|]. split; [done|]. by intros y' [_ [? _]]. }
  specialize (Hv ptr eq_refl). subst r. cbn [option32] in Er.
  destruct (read32 p ptr) as [v| |]; [|done|done]. cbn [mbind res_bind mret res_ret] in Er.
  injection Er as ->. rewrite bind_ret. set (y := get32 p ptr) in *. eexists _, _. split; [done|].
  destruct (_ && _ && _ && _) eqn:Ec.
  - apply andb_true_iff in Ec as [[[H1 H2]%andb_true_iff H3]%andb_true_iff H4].
    apply Z.leb_le in H1, H2. apply bool_decide_eq_true in H3.
    assert (Hpool : in_pool s y) by (split; [lia|done]). split; [|by intros y' (_ & [= <-] & _)].
    intros Hy0. assert (Hno : no_live s y true) by (by apply no_live_find; [apply Hs|..]).
    split; [|done]. apply (pool_may_have s _ _ true); [apply Hs|done..].
  - split; [done|]. intros y' (Hy0 & [= <-] & [[H1 H2] H3] & Hno). exfalso. revert Ec.
    rewrite (proj2 (Z.leb_le _ _) H1), (proj2 (Z.leb_le _ _) H2), bool_decide_true by done. cbn [andb].
    destruct (find_lease_by_yiaddr s y) as [[j k]|] eqn:Ek; [|done].
    apply find_by_yiaddr_Some in Ek as [Hj Hjy]. unfold lease_expired.
    destruct (Hno k) as [_ Hexp]; [by eapply list_elem_of_lookup_2|done|]. by rewrite (proj2 (Z.ltb_lt _ _) Hexp).
Qed.

(** No address of the pool is free. *)
Definition exhausted (s : server) : Prop :=
  ∀ a, c_start (cfg s) ≤ a ≤ c_end (cfg s) → suitable a = true →
    find_static_lease_by_yiaddr s a = None → (∀ t, fst (arpping a t) ≠ 0) →
    ∃ l, l ∈ leases s ∧ l_yiaddr l = a ∧ now s ≤ l_expires l.

Lemma find_address_spec s ce :
  sinv s →
  ∃ r s', find_address s ce = Ok (r, s') ∧ searched s s' ∧ search_result s s' (c_start (cfg s)) r ce.
Proof.
  intros [Hok (_ & Hs & He & _) _ _ _ _]. unfold is_u32 in Hs. unfold find_address.
  apply find_address_loop_spec; [done|lia|lia|lia|lia].
Qed.

Lemma found_may_have s s' c r ce :
  sinv s → length c = 16%nat → searched s s' → search_result s s' (c_start (cfg s)) r ce → r ≠ 0 →
  may_have s' c r ∧ in_pool s' r ∧ suitable r = true.
Proof.
  intros Hs Hc Hse [[-> _]|(Hr & Hsu & Hst & _ & Hno)] H0; [done|].
  assert (Hp : in_pool s' r).
  { unfold in_pool, find_static_lease_by_yiaddr in *. by rewrite (se_cfg _ _ Hse), (se_static _ _ Hse). }
  split; [|done]. apply (pool_may_have s' c r ce); [|done..]. rewrite (se_cfg _ _ Hse). apply Hs.
Qed.

(** What the search from [s] to [s1] finds: an address of the pool that does not end in
    0 or 255, that nobody answers for and that no lease holds that has not expired.  A
    lease holds it only if every such address of the pool is in the table. *)
Record free_address (s s1 : server) (y : Z) : Prop := {
  fa_search : searched s s1;
  fa_pool : in_pool s y;
  fa_suitable : suitable y = true;
  fa_quiet : ∃ t, fst (arpping y t) ≠ 0;
  fa_free : ∀ l, l ∈ leases s → l_yiaddr l = y → l_expires l < now s1;
  fa_fresh : (∃ l, l ∈ leases s1 ∧ l_yiaddr l = y) →
    ∀ a, in_pool s a → suitable a = true → (∀ t, fst (arpping a t) ≠ 0) → ∃ l, l ∈ leases s ∧ l_yiaddr l = a }.

Lemma no_live_before s s1 y ce :
  searched s s1 → no_live s1 y ce → ∀ l, l ∈ leases s → l_yiaddr l = y → l_expires l < now s1.
Proof.
  intros Hse Hno l Hl Hy. apply list_elem_of_lookup in Hl as [i Hi].
  destruct (Z.ltb_spec (l_expires l) (now s1)) as [|Hge]; [done|].
  apply (Hno l); [|done]. eapply list_elem_of_lookup_2, (se_keep _ _ Hse); done.
Qed.

Lemma offer_address_spec s cand c :
  sinv s → length c = 16%nat → (cand ≠ 0 → may_have s c cand) →
  ∃ y s', offer_address s cand = Ok (y, s') ∧ evolves s s' c
    ∧ (y ≠ 0 → may_have s' c y ∧ (y = cand ∨ (cand = 0 ∧ free_address s s' y)))
    ∧ (y = 0 → ∃ s1, searched s s1 ∧ exhausted s1).
Proof.
  intros Hs Hc Hcand. unfold offer_address. destruct (Z.eqb_spec cand 0) as [->|H0]; cbn [negb].
  2: { exists cand, s. split; [done|]. split; [by apply evolves_refl|]. split; [auto|done]. }
  assert (Hpool : ∀ s1 y, searched s s1 → in_pool s1 y → in_pool s y).
  { intros s1 y Hse. unfold in_pool, find_static_lease_by_yiaddr.
    by rewrite (se_cfg _ _ Hse), (se_static _ _ Hse). }
  destruct (find_address_spec s false Hs) as (r1 & s1 & E1 & Hse1 & Hr1). rewrite E1, bind_ret.
  pose proof (searched_evolves _ _ c Hs Hse1) as Ev1.
  destruct (Z.eqb_spec r1 0) as [->|H1]; cbn [negb].
  2: { destruct (found_may_have s s1 c r1 false) as (Hm & Hp & Hsu); [done..|].
       exists r1, s1. split; [done|]. split; [done|]. split; [|done]. intros _. split; [done|]. right. split; [done|].
       destruct Hr1 as [[? _]|(_ & _ & _ & Hq & Hno)]; [done|]. constructor; [done|by eapply Hpool|done|done|by eapply no_live_before|].
       intros (l & Hl & Hly). by destruct (Hno l Hl Hly). }
  pose proof (evolves_sinv _ _ _ Hs Ev1) as Hs1.
  destruct (find_address_spec s1 true Hs1) as (r2 & s2 & E2 & Hse2 & Hr2).
  exists r2, s2. split; [done|].
  assert (Hse : searched s s2) by (by eapply searched_trans).
  split; [by apply searched_evolves|]. split.
  - intros H2. destruct (found_may_have s1 s2 c r2 true) as (Hm & Hp & Hsu); [done..|].
    split; [done|]. right. split; [done|].
    destruct Hr2 as [[? _]|(_ & _ & _ & Hq & Hno)]; [done|]. constructor; [done|by eapply Hpool|done|done|by eapply no_live_before|].
    intros _ a [Ha Hst] Hsa Hqa. destruct Hr1 as [[_ Hr1]|(_ & Hs0 & _)]; [|by apply suitable_pos in Hs0].
    destruct (Hr1 a Ha Hsa Hst Hqa) as (l & Hl & Hly & _). by exists l.
  - intros ->. exists s1. split; [done|]. intros a Ha Hsu Hst Harpa.
    destruct Hr2 as [[_ Hr2]|(Hr2 & Hsu2 & _)]; [|by apply suitable_pos in Hsu2].
    destruct (Hr2 a) as (l & Hl & Hy & [?|?]); [done..|]. by exists l.
Qed.

(** The address [y] is the one to offer: the preferred one if there is one, a free one
    otherwise. *)
Definition chosen (s s' : server) (p : bytes) (y : Z) : Prop :=
  preferred s p y
  ∨ ((∀ y', ¬ preferred s p y') ∧ ∃ s1, now s1 = now s' ∧ free_address s s1 y).

(** The outcome of [sendOffer] for a client without a static address. *)
Definition offered_to (s s' : server) (p : bytes) (out : list action) : Prop :=
  ∃ y t q i l, out = [send_packet s q false] ∧ is_reply s p DHCPOFFER y (Some t) q
    ∧ y ≠ 0 ∧ chosen s s' p y
    ∧ leases s' !! i = Some l ∧ l_chaddr l = chaddr p ∧ l_yiaddr l = y
    ∧ l_expires l = u32 (now s' + c_offer_time (cfg s))
    ∧ (t = c_lease (cfg s) ∨ c_min_lease (cfg s) ≤ t)
    ∧ (∀ a, asked_time p = Ok (Some a) → t ≤ c_lease (cfg s)).

Lemma offer_time_spec s lt asked :
  (offer_time s lt asked = c_lease (cfg s) ∨ c_min_lease (cfg s) ≤ offer_time s lt asked)
  ∧ (∀ a, asked = Some a → offer_time s lt asked ≤ c_lease (cfg s)).
Proof.
  unfold offer_time.
  set (u := match asked with Some a => if c_lease (cfg s) <? a then c_lease (cfg s) else a | None => lt end).
  split; [destruct (Z.ltb_spec u (c_min_lease (cfg s))); auto|].
  intros a ->. assert (u ≤ c_lease (cfg s)) by (subst u; destruct (Z.ltb_spec (c_lease (cfg s)) a); lia).
  destruct (u <? c_min_lease (cfg s)); lia.
Qed.

Lemma send_packet_cfg s s' q b : cfg s' = cfg s → send_packet s' q b = send_packet s q b.
Proof. intros E. unfold send_packet, send_packet_to_relay, send_packet_to_client. by rewrite E. Qed.

Lemma sendOffer_static s p t :
  sinv s → readable p → find_static_lease_by_chaddr s (chaddr p) = Some t →
  ∃ q, sendOffer s p = Ok (net_send (send_packet s q false), s, [send_packet s q false])
    ∧ is_reply s p DHCPOFFER (l_yiaddr t) (Some 0xFFFFFFFF) q.
Proof.
  intros Hs [Hl Hb _] Ht. unfold sendOffer.
  destruct (init_packet_spec s p DHCPOFFER) as (q & E & D); [unfold DHCPOFFER; lia|done..|].
  rewrite E, bind_ret, Ht.
  assert (Hy : is_u32 (l_yiaddr t)).
  { apply find_static_Some in Ht as (Hin & _). pose proof (si_static s Hs) as Hf.
    rewrite Forall_forall in Hf. by apply Hf. }
  destruct (reply_tail s p DHCPOFFER (l_yiaddr t) q 0xFFFFFFFF) as (q1 & q2 & E1 & E2 & Hq);
    [apply Hs|done|done|].
  cbv zeta. rewrite E1, bind_ret, E2, bind_ret. by exists q2.
Qed.

Lemma set_yiaddr_is_bytes old its p y : draft old its p → chaddr (set32 p F_yiaddr y) = chaddr old.
Proof.
  intros [Hi _ Hc _ _ _ _]. rewrite chaddr_yiaddr by apply Hi. exact Hc.
Qed.

Lemma sendOffer_dynamic s p :
  sinv s → readable p → find_static_lease_by_chaddr s (chaddr p) = None →
  ∃ r s' out, sendOffer s p = Ok (r, s', out) ∧ evolves s s' (chaddr p)
    ∧ (offered_to s s' p out
       ∨ (r = -1 ∧ out = [] ∧ ((∃ s1, searched s s1 ∧ exhausted s1)
                              ∨ ∀ l, l ∈ leases s' → now s' ≤ l_expires l))).
Proof.
  intros Hs Hp Hst. pose proof Hp as [Hl Hb _]. unfold sendOffer.
  pose proof (length_chaddr p Hl) as Hc.
  destruct (init_packet_spec s p DHCPOFFER) as (q & E & D); [unfold DHCPOFFER; lia|done..|].
  rewrite E, bind_ret, Hst. clear E.
  destruct (offer_candidate_spec s p Hs Hp) as (cand & lt & E & Hcand & Hpref). rewrite E, bind_ret. clear E.
  destruct (offer_address_spec s cand (chaddr p) Hs Hc (λ H, proj1 (Hcand H))) as (y & s1 & E & Ev & Hy & Hex).
  rewrite E, bind_ret. clear E. cbv zeta.
  destruct (Z.eqb_spec y 0) as [->|Hy0].
  { exists (-1), s1, []. split; [done|]. split; [done|]. right. auto. }
  destruct (Hy Hy0) as [Hm Hwhere]. destruct (host_name_spec p Hp) as (h & E). rewrite E, bind_ret. clear E.
  rewrite (set_yiaddr_is_bytes _ _ _ y D). pose proof (ev_cfg _ _ _ Ev) as Ecfg.
  pose proof (evolves_sinv _ _ _ Hs Ev) as Hs1.
  pose proof (add_lease_evolves s1 (chaddr p) y (c_offer_time (cfg s1)) h Hs1 Hm) as Ev2.
  pose proof (evolves_trans _ _ _ _ Ev Ev2) as Ev3.
  pose proof (add_lease_spec s1 (chaddr p) y (c_offer_time (cfg s1)) h) as Hsp.
  pose proof (add_lease_fixed s1 (chaddr p) y (c_offer_time (cfg s1)) h) as (_ & _ & F3).
  destruct (add_lease s1 (chaddr p) y (c_offer_time (cfg s1)) h) as [[i|] s2]; cbn [snd] in *.
  2: { exists (-1), s2, []. split; [done|]. split; [done|]. right. split; [done|]. split; [done|]. right.
       destruct Hsp as [-> Hf]. rewrite Forall_forall in Hf. exact Hf. }
  destruct Hsp as (l0 & _ & _ & _ & _ & Hlk).
  assert (Hch : chosen s s2 p y).
  { destruct Hwhere as [->|[-> Hfree]]; [left; by apply Hcand|right]. split; [|by exists s1].
    intros y' Hy'. pose proof (Hpref y' Hy') as <-. by destruct Hy'. }
  destruct (asked_time_spec p Hp) as (asked & E & _). rewrite E, bind_ret.
  destruct (reply_tail s2 p DHCPOFFER y q (offer_time s2 lt asked)) as (q1 & q2 & E1 & E2 & Hq).
  { rewrite (ev_cfg _ _ _ Ev3). apply Hs. }
  { apply Hm. }
  { by rewrite (ev_cfg _ _ _ Ev3). }
  rewrite E1, bind_ret, E2, bind_ret. eexists _, s2, _. split; [done|]. split; [done|]. left.
  pose proof (ev_cfg _ _ _ Ev3) as Ecfg2.
  eexists y, (offer_time s2 lt asked), q2, i, _.
  split; [by rewrite (send_packet_cfg s s2)|]. split; [by eapply is_reply_cfg|].
  split; [done|]. split; [exact Hch|]. split; [rewrite (Hlk i), decide_True by done; done|].
  split; [done|]. split; [done|]. split; [cbn; by rewrite Ecfg, F3|].
  rewrite <- Ecfg2. destruct (offer_time_spec s2 lt asked) as [T1 T2]. split; [done|].
  intros a Ea. apply (T2 a). congruence.
Qed.

(** ** Acknowledgements *)

Lemma ack_time_spec s asked :
  ack_time s asked = c_lease (cfg s)
  ∨ (asked = Some (ack_time s asked) ∧ c_min_lease (cfg s) ≤ ack_time s asked
     ∧ (ack_time s asked ≤ c_lease (cfg s) ∨ ack_time s asked = 0xFFFFFFFF)).
Proof.
  unfold ack_time. destruct asked as [a|]; [|by left].
  destruct (Z.eqb_spec a 0xFFFFFFFF) as [->|]; cbn [negb andb].
  - destruct (Z.ltb_spec 0xFFFFFFFF (c_min_lease (cfg s))); [by left|right]. auto.
  - destruct (Z.ltb_spec (c_lease (cfg s)) a); [by left|].
    destruct (Z.ltb_spec a (c_min_lease (cfg s))); [by left|right]. auto.
Qed.

(** A change of the entry [i] that keeps its address, and its client or none. *)
Record mild (f : offered → offered) (l : offered) : Prop := {
  mi_yiaddr : l_yiaddr (f l) = l_yiaddr l;
  mi_chaddr : l_chaddr (f l) = l_chaddr l ∨ l_chaddr (f l) = blank_chaddr;
  mi_ok : lease_ok l → lease_ok (f l) }.

Lemma alter_table_ok t f i l : table_ok t → t !! i = Some l → mild f l → table_ok (alter f i t).
Proof.
  intros [Hf Hu] Hi [My Mc Mo].
  assert (Hback : ∀ j k, alter f i t !! j = Some k → ∃ k0, t !! j = Some k0 ∧ l_yiaddr k = l_yiaddr k0
    ∧ (l_chaddr k = l_chaddr k0 ∨ l_chaddr k = blank_chaddr) ∧ (lease_ok k0 → lease_ok k)).
  { intros j k Hj. rewrite alter_lookup in Hj. case_decide; [subst j|exists k; auto].
    rewrite Hi in Hj. injection Hj as <-. by exists l. }
  split.
  - apply Forall_lookup. intros j k Hj. destruct (Hback j k Hj) as (k0 & Hk0 & _ & _ & Hok).
    apply Hok. exact (Forall_lookup_1 _ _ _ _ Hf Hk0).
  - intros j j' a b Ha Hb Hjj.
    destruct (Hback j a Ha) as (a0 & Ha0 & -> & Hca & _), (Hback j' b Hb) as (b0 & Hb0 & -> & Hcb & _).
    destruct (Hu j j' a0 b0 Ha0 Hb0 Hjj) as [H1 H2]. split; [done|]. intros Hn E.
    destruct Hca as [Hca|Hca]; [|by rewrite Hca in Hn]. destruct Hcb as [Hcb|Hcb].
    + apply H2; congruence.
    + by rewrite E, Hcb in Hn.
Qed.

Lemma alter_evolves s f i c l :
  sinv s → leases s !! i = Some l → mild f l → l_chaddr l = c ∨ l_expires l < now s →
  evolves s (with_leases s (alter f i (leases s))) c.
Proof.
  intros [Hok _ _ _ Hsep _] Hi Hm Hown. constructor; cbn; try done; try lia.
  - by eapply alter_table_ok.
  - apply length_alter.
  - intros k x Hk Hx Hy. apply list_elem_of_lookup in Hk as [j Hj]. rewrite alter_lookup in Hj.
    case_decide; [subst j|apply Hsep; [by eapply list_elem_of_lookup_2|done..]].
    rewrite Hi in Hj. injection Hj as <-. destruct Hm as [My [->| ->] _]; [|by right].
    apply Hsep; [by eapply list_elem_of_lookup_2|done|congruence].
  - intros j k Hk He Hne _. rewrite alter_lookup. case_decide; [|done]. subst j.
    rewrite Hi in Hk. injection Hk as ->. destruct Hown; [done|lia].
  - intros k Hk. apply list_elem_of_lookup in Hk as [j Hj]. rewrite alter_lookup in Hj.
    case_decide; [subst j|apply known_in; by eapply list_elem_of_lookup_2].
    rewrite Hi in Hj. injection Hj as <-. rewrite (mi_yiaddr _ _ Hm). apply known_in. by eapply list_elem_of_lookup_2.
Qed.

Lemma mild_acked l : mild set_acked l.
Proof. constructor; [done|by left|done]. Qed.

(** The table entry of an acknowledged lease: the client's, or none when the
    table is full of live leases of others. *)
Definition recorded (s s' : server) (c : bytes) (y t : Z) : Prop :=
  (∃ i l, leases s' !! i = Some l ∧ l_chaddr l = c ∧ l_yiaddr l = y
     ∧ l_expires l = u32 (now s + t) ∧ l_acked l = 1)
  ∨ ((∀ l, l ∈ leases s' → now s ≤ l_expires l) ∧ (is_blank c = false → ¬ holds s c y)).

(** The outcome of [sendACK]. *)
Definition acknowledged (s s' : server) (p : bytes) (y : Z) (out : list action) : Prop :=
  ∃ t q, is_reply s p DHCPACK y (Some t) q
    ∧ (t = c_lease (cfg s)
       ∨ (asked_time p = Ok (Some t) ∧ c_min_lease (cfg s) ≤ t ∧ (t ≤ c_lease (cfg s) ∨ t = 0xFFFFFFFF)))
    ∧ ((out = [send_packet s q false] ∧ s' = s
        ∧ (net_send (send_packet s q false) < 0 ∨ t = 0xFFFFFFFF))
       ∨ (0 ≤ net_send (send_packet s q false) ∧ t ≠ 0xFFFFFFFF
          ∧ out = [send_packet s q false; WriteLeases (write_leases s')]
          ∧ recorded s s' (chaddr p) y t)).

Lemma add_lease_recorded s c y t h :
  sinv s →
  match add_lease s c y t h with
  | (Some i, s') => ∃ l, leases s' !! i = Some l ∧ l_chaddr l = c ∧ l_yiaddr l = y
      ∧ l_expires l = u32 (now s + t)
  | (None, s') => recorded s s' c y t
  end.
Proof.
  intros Hs. pose proof (add_lease_spec s c y t h) as H.
  destruct (add_lease s c y t h) as [[i|] s'].
  - destruct H as (l & _ & _ & _ & _ & Ht). eexists. rewrite (Ht i), decide_True by done. done.
  - destruct H as [-> Hf]. right. cbn in Hf |- *. rewrite Forall_forall in Hf. split; [done|].
    intros Hb (l & Hl & Hlc & _). assert (zero_lease ∈ clear_lease (leases s) c y) as Hz.
    { apply list_elem_of_fmap. exists l. split; [|done]. unfold clears.
      by rewrite Hb, bool_decide_true by done. }
    specialize (Hf _ Hz). pose proof (si_now s Hs). cbn in Hf. lia.
Qed.

Lemma sendACK_spec s p y :
  sinv s → readable p → may_have s (chaddr p) y →
  ∃ r s' out, sendACK s p y = Ok (r, s', out) ∧ evolves s s' (chaddr p) ∧ acknowledged s s' p y out.
Proof.
  intros Hs Hp Hm. pose proof Hp as [Hl Hb Hopt]. unfold sendACK.
  destruct (init_packet_spec s p DHCPACK) as (q & E & D); [unfold DHCPACK; lia|done..|].
  rewrite E, bind_ret. clear E. destruct (asked_time_spec p Hp) as (asked & Ea & _).
  rewrite Ea, bind_ret. set (t := ack_time s asked).
  destruct (reply_tail s p DHCPACK y q t) as (q1 & q2 & E1 & E2 & Hq);
    [apply Hs|apply Hm|done|].
  cbv zeta. rewrite E1, bind_ret, E2, bind_ret.
  destruct (Hopt DHCP_HOST_NAME) as (hp & Eh & _); [unfold DHCP_HOST_NAME; lia|].
  rewrite Eh, bind_ret. clear E1 E2 Eh. set (a := send_packet s q2 false).
  assert (Ht : t = c_lease (cfg s) ∨ (asked_time p = Ok (Some t) ∧ c_min_lease (cfg s) ≤ t
      ∧ (t ≤ c_lease (cfg s) ∨ t = 0xFFFFFFFF))).
  { destruct (ack_time_spec s asked) as [?|[E ?]]; [by left|right]. split; [|done].
    by rewrite Ea, E. }
  destruct (Z.ltb_spec (net_send a) 0) as [Hn|Hn].
  { exists (-1), s, [a]. split; [done|]. split; [by apply evolves_refl|]. exists t, q2. split; [done|]. split; [done|].
    left. split; [done|]. split; [done|]. by (left + right). }
  destruct (Z.eqb_spec t 0xFFFFFFFF) as [Hinf|Hinf].
  { exists 0, s, [a]. split; [done|]. split; [by apply evolves_refl|]. exists t, q2. split; [done|]. split; [done|].
    left. split; [done|]. split; [done|]. by (left + right). }
  destruct (host_name_spec p Hp) as (h & E). rewrite E, bind_ret. clear E.
  assert (Eq : chaddr q2 = chaddr p) by apply Hq. rewrite Eq.
  pose proof (add_lease_evolves s (chaddr p) y t h Hs Hm) as Ev.
  pose proof (add_lease_recorded s (chaddr p) y t h Hs) as Hrec.
  destruct (add_lease s (chaddr p) y t h) as [[i|] s1]; cbn [snd] in *.
  - destruct Hrec as (l & Hi & Hlc & Hly & Hle). pose proof (evolves_sinv _ _ _ Hs Ev) as Hs1.
    pose proof (alter_evolves s1 set_acked i (chaddr p) l Hs1 Hi (mild_acked l) (or_introl Hlc)) as Ev2.
    eexists _, _, _. split; [done|]. split; [by eapply evolves_trans|].
    exists t, q2. split; [done|]. split; [done|]. right. split; [done|]. split; [done|]. split; [done|].
    left. exists i, (set_acked l). cbn. rewrite list_lookup_alter_eq, Hi. done.
  - eexists _, _, _. split; [done|]. split; [done|].
    exists t, q2. split; [done|]. split; [done|]. right. done.
Qed.

Lemma sendNAK_spec s p :
  length p = 548%nat → is_bytes p →
  ∃ q, sendNAK s p = Ok (net_send (send_packet s q true), s, [send_packet s q true])
    ∧ draft p [Opt DHCP_MESSAGE_TYPE [DHCPNAK]; Opt DHCP_SERVER_ID (be_bytes 4 (c_server (cfg s)))] q.
Proof.
  intros Hl Hb. unfold sendNAK. destruct (init_packet_spec s p DHCPNAK) as (q & E & D); [unfold DHCPNAK; lia|done..|].
  rewrite E, bind_ret. by exists q.
Qed.

Lemma send_inform_spec s p :
  cfg_ok (cfg s) → length p = 548%nat → is_bytes p →
  ∃ q more, send_inform s p = Ok (net_send (send_packet s q false), s, [send_packet s q false])
    ∧ draft p (Opt DHCP_MESSAGE_TYPE [DHCPACK] :: Opt DHCP_SERVER_ID (be_bytes 4 (c_server (cfg s))) :: more) q
    ∧ Forall (from_config (c_options (cfg s))) more.
Proof.
  intros Hc Hl Hb. unfold send_inform.
  destruct (init_packet_spec s p DHCPACK) as (q & E & D); [unfold DHCPACK; lia|done..|].
  rewrite E, bind_ret. destruct (finish_reply_spec s p _ q ltac:(apply Hc) D) as (q2 & more & E2 & D2 & Hm & _).
  rewrite E2, bind_ret. exists q2, more. done.
Qed.
End arp.
