(* ===== verification/DhcpServerProps.v ===== *)
(** * The DHCP server: what it does with every message

    [handle_packet] on the messages the server can read: it completes, keeps the
    invariant, touches no live lease of another client, and answers only as the
    tables allow. *)

From stdpp Require Import base numbers sets list.
From S2P Require Import Prelude Bytes DhcpOptions DhcpOptionsProps DhcpPacket DhcpPacketProps.
From S2P Require Import DhcpLeases DhcpLeasesProps DhcpServer DhcpReply DhcpServerInv.

#[global] Arguments handle_request : simpl never.
#[global] Arguments handle_packet : simpl never.
#[global] Arguments add_simple_option : simpl never.

(** ** Messages *)

(** A static client's REQUEST is written to, so its options must be a list. *)
Definition static_ready (s : server) (p : bytes) : Prop :=
  is_Some (find_static_lease_by_chaddr s (chaddr p)) → ∃ its, has_items p its ∧ items_readable its.

Lemma asked_time_item p its ptr d :
  has_items p its → no_overload its → find_item its DHCP_LEASE_TIME 240 = Some (ptr, d) →
  length d = 4%nat → asked_time p = Ok (Some (be_val d)).
Proof.
  intros Hp Hno Hf H4. pose proof (has_items_length _ _ Hp) as Hlen.
  assert (E : get_option p DHCP_LEASE_TIME = Ok (Some ptr)).
  { rewrite (get_option_has_items p its DHCP_LEASE_TIME Hp Hno) by (unfold DHCP_LEASE_TIME; lia). by rewrite Hf. }
  destruct Hp as (Hl & _ & rest & Hd). unfold asked_time. rewrite E, bind_ret.
  destruct (find_item_data its p 240 rest DHCP_LEASE_TIME ptr d Hd Hf) as (Hs & _ & _ & Hr & _).
  rewrite read32_slice by lia. rewrite bind_ret, <- H4, Hs. done.
Qed.

(** The message of a static client with the infinite lease time. *)
Lemma static_request p its :
  has_items p its → items_readable its → is_bytes p →
  ∃ n p', add_simple_option p DHCP_LEASE_TIME 0xFFFFFFFF = Ok (n, p') ∧ readable p'
    ∧ take 240 p' = take 240 p
    ∧ ((length (encs its) + 7 < 308)%nat → find_item its DHCP_LEASE_TIME 240 = None →
       asked_time p' = Ok (Some 0xFFFFFFFF)).
Proof.
  intros Hp Hir Hb. unfold add_simple_option. rewrite option_length_lease_time.
  change (4 =? 0) with false. cbn match.
  set (d := be_bytes (Z.to_nat 4) 0xFFFFFFFF).
  change (DHCP_LEASE_TIME :: 4 :: d) with (DHCP_LEASE_TIME :: Z.of_nat (length d) :: d).
  pose proof (add_option_string_spec p its DHCP_LEASE_TIME d [] Hp) as H. rewrite app_nil_r in H.
  cbn [enc] in H. specialize (H ltac:(split; [unfold DHCP_LEASE_TIME; lia|vm_compute; lia])).
  pose proof (is_bytes_be_bytes (Z.to_nat 4) 0xFFFFFFFF) as Hd. fold d in Hd.
  case_decide as Hfit.
  2: { exists 0, p. split; [done|]. split; [by eapply readable_items|]. split; [done|].
       intros. exfalso. apply Hfit. change (length d) with 4%nat. lia. }
  destruct H as (p' & E & Hp' & Ht). exists (Z.of_nat (length d) + 2), p'. split; [exact E|].
  assert (Hir' : items_readable (its ++ [Opt DHCP_LEASE_TIME d])).
  { destruct Hir as [Hno H4]. split.
    - intros e [He|He]%elem_of_app; [by apply (Hno e)|]. apply list_elem_of_singleton in He. done.
    - intros c e [He|He]%elem_of_app Hc; [by eapply H4|]. apply list_elem_of_singleton in He.
      injection He as -> ->. done. }
  assert (Hb' : is_bytes p').
  { eapply add_option_string_bytes; [exact Hb| |exact E].
    constructor; [unfold is_u8, DHCP_LEASE_TIME; lia|]. constructor; [unfold is_u8; change (length d) with 4%nat; lia|done]. }
  pose proof (readable_items p' _ Hp' Hir' Hb') as Hr. split; [done|]. split; [done|]. intros _ Hf.
  assert (Hf' : find_item (its ++ [Opt DHCP_LEASE_TIME d]) DHCP_LEASE_TIME 240
    = Some ((240 + length (encs its) + 2)%nat, d)).
  { rewrite find_item_app, Hf. cbn [find_item]. by rewrite Z.eqb_refl. }
  apply (asked_time_item _ _ _ d Hp' (proj1 Hir') Hf'). done.
Qed.

(** ** REQUEST *)

Section arp.
Context `{Harp : ArpPing} `{!ArpOK Harp} `{Hnet : Network}.

(** The message asks this server for the address [y]: it names no other server,
    and [y] is its requested address, or in its absence its [ciaddr]. *)
Definition asks (s : server) (p : bytes) (y : Z) : Prop :=
  ∃ id r, number p DHCP_SERVER_ID = Ok id ∧ number p DHCP_REQUESTED_IP = Ok r
    ∧ (id = None ∨ id = Some (c_server (cfg s)))
    ∧ (r = Some y ∨ (r = None ∧ ciaddr p = y)).

(** The static address of a client. *)
Definition static_of (s : server) (c : bytes) (y : Z) : Prop :=
  ∃ t, find_static_lease_by_chaddr s c = Some t ∧ l_yiaddr t = y.

(** What the server does on the REQUEST [p]. *)
Inductive requested_effect (s : server) (p : bytes) : server → list action → Prop :=
| re_silent s' : evolves s s' (chaddr p) → requested_effect s p s' []
| re_nak q :
    draft p [Opt DHCP_MESSAGE_TYPE [DHCPNAK]; Opt DHCP_SERVER_ID (be_bytes 4 (c_server (cfg s)))] q →
    requested_effect s p s [send_packet s q true]
| re_ack y s' out :
    asks s p y → holds s (chaddr p) y → evolves s s' (chaddr p) → acknowledged s s' p y out →
    requested_effect s p s' out
| re_static y p' s' out :
    asks s p y → static_of s (chaddr p) y → evolves s s' (chaddr p) →
    take 240 p' = take 240 p → acknowledged s s' p' y out → requested_effect s p s' out.

Lemma re_evolves s p s' out : sinv s → requested_effect s p s' out → evolves s s' (chaddr p).
Proof. intros Hs []; [done|by apply evolves_refl|done|done]. Qed.

Lemma discard_Ok (r : res (Z * server * list action)) n s' out :
  r = Ok (n, s', out) → discard r = Ok (s', out).
Proof. by intros ->. Qed.

(** [request_leased] and [request_unknown] end in one of these. *)
Lemma do_nak s p : readable p → ∃ s' out, discard (sendNAK s p) = Ok (s', out) ∧ requested_effect s p s' out.
Proof.
  intros [Hl Hb _]. destruct (sendNAK_spec s p Hl Hb) as (q & E & D). eexists _, _.
  split; [by eapply discard_Ok|]. by constructor.
Qed.

Lemma do_silent s p :
  sinv s → ∃ s' out, @Ok (server * list action) (s, []) = Ok (s', out) ∧ requested_effect s p s' out.
Proof. intros Hs. exists s, []. split; [done|]. constructor. by apply evolves_refl. Qed.

Lemma do_ack s p y :
  sinv s → readable p → asks s p y → holds s (chaddr p) y →
  ∃ s' out, discard (sendACK s p y) = Ok (s', out) ∧ requested_effect s p s' out.
Proof.
  intros Hs Hp Ha Hh. pose proof (holds_may_have s (chaddr p) y Hs (length_chaddr p (rd_len p Hp)) Hh) as Hm.
  destruct (sendACK_spec s p y Hs Hp Hm) as (r & s' & out & E & Ev & Hack).
  exists s', out. split; [by eapply discard_Ok|]. by eapply re_ack.
Qed.

Lemma request_leased_spec s p l id r :
  sinv s → readable p → number p DHCP_SERVER_ID = Ok id → number p DHCP_REQUESTED_IP = Ok r →
  l ∈ leases s → l_chaddr l = chaddr p →
  ∃ s' out, request_leased s p l id r = Ok (s', out) ∧ requested_effect s p s' out.
Proof.
  intros Hs Hp Hid Hr Hl Hc.
  assert (Hh : holds s (chaddr p) (l_yiaddr l)) by (by exists l).
  unfold request_leased. destruct id as [id|].
  - destruct (Z.eqb_spec id (c_server (cfg s))) as [->|]; cbn [andb]; [|by apply do_silent].
    case_bool_decide as E; [|by apply do_silent]. subst r. apply do_ack; [done|done| |done].
    exists (Some (c_server (cfg s))), (Some (l_yiaddr l)). auto 8.
  - destruct r as [r|].
    + destruct (Z.eqb_spec (l_yiaddr l) r) as [<-|]; [|by apply do_nak]. apply do_ack; [done|done| |done].
      exists None, (Some (l_yiaddr l)). auto 8.
    + destruct (Z.eqb_spec (l_yiaddr l) (ciaddr p)) as [E|]; [|by apply do_nak].
      apply do_ack; [done|done| |done]. exists None, None. auto 8.
Qed.

Lemma request_unknown_spec s p id r :
  sinv s → readable p →
  ∃ s' out, request_unknown s p id r = Ok (s', out) ∧ requested_effect s p s' out.
Proof.
  intros Hs Hp. unfold request_unknown. destruct id; [by apply do_silent|]. destruct r as [r|].
  - destruct (find_static_lease_by_yiaddr s r); [by apply do_nak|].
    destruct (find_lease_by_yiaddr s r) as [[i l]|] eqn:Ef; [|by apply do_nak].
    destruct (lease_expired l (now s)) eqn:El; [|by apply do_nak].
    apply find_by_yiaddr_Some in Ef as [Hi _]. apply Z.ltb_lt in El. eexists _, _. split; [done|].
    constructor. apply (alter_evolves _ _ _ _ l); [done|done| |by right].
    constructor; [done|by right|]. intros (H1 & H2 & H3 & H4). done.
  - destruct (negb _); [by apply do_nak|by apply do_silent].
Qed.

Lemma number_spec p code :
  readable p → code ∈ number_codes →
  ∃ o r, get_option p code = Ok o ∧ option32 p o = Ok r ∧ number p code = Ok r.
Proof.
  intros Hp Hc. destruct (option32_spec p code Hp Hc) as (o & r & E & Er & _). exists o, r.
  split; [done|]. split; [done|]. unfold number. by rewrite E, bind_ret.
Qed.

Lemma static_may_have s c t :
  sinv s → length c = 16%nat → find_static_lease_by_chaddr s c = Some t → may_have s c (l_yiaddr t).
Proof.
  intros [_ _ Hst Hun Hsep _] Hc Hf. apply find_static_in in Hf as Hin. destruct Hin as [Hin E].
  apply bool_decide_eq_true in E. apply find_static_Some in Hf as (Hin' & _ & Hn0).
  rewrite Forall_forall in Hst. constructor; [done|by apply Hst| | |].
  - intros l Hl _ Hy. destruct (Hsep l t Hl Hin Hy); [left; congruence|by right; left].
  - intros x Hx Hy. left. rewrite (Hun x t Hx Hin) by congruence. done.
  - right; right; right. by exists t.
Qed.

Lemma do_static s p t its :
  sinv s → is_bytes p → has_items p its → items_readable its →
  find_static_lease_by_chaddr s (chaddr p) = Some t → asks s p (l_yiaddr t) →
  ∃ s' out, ('(_, p) ← add_simple_option p DHCP_LEASE_TIME 0xFFFFFFFF; discard (sendACK s p (l_yiaddr t)))
      = Ok (s', out) ∧ requested_effect s p s' out.
Proof.
  intros Hs Hb Hp Hir Ht Ha. assert (Hl : length p = 548%nat) by apply Hp.
  destruct (static_request p its Hp Hir Hb) as (n & p' & E & Hr & Htk & _).
  rewrite E, bind_ret. assert (Ec : chaddr p' = chaddr p).
  { unfold chaddr. apply slice_head; [done|unfold F_chaddr; lia]. }
  pose proof (static_may_have s (chaddr p') t Hs) as Hm. rewrite Ec in Hm.
  specialize (Hm (length_chaddr p Hl) Ht). rewrite <- Ec in Hm.
  destruct (sendACK_spec s p' (l_yiaddr t) Hs Hr Hm) as (k & s' & out & E2 & Ev & Hack).
  rewrite Ec in Ev. exists s', out. split; [by eapply discard_Ok|].
  eapply (re_static _ _ (l_yiaddr t) p'); [done|by exists t|done|done|done].
Qed.

Lemma handle_request_spec s p :
  sinv s → readable p → static_ready s p →
  ∃ s' out, handle_request s p = Ok (s', out) ∧ requested_effect s p s' out.
Proof.
  intros Hs Hp Hst. unfold handle_request.
  destruct (number_spec p DHCP_REQUESTED_IP Hp) as (ro & r & E1 & E2 & Er); [set_solver|].
  destruct (number_spec p DHCP_SERVER_ID Hp) as (io & id & E3 & E4 & Eid); [set_solver|].
  rewrite E1, bind_ret, E3, bind_ret, E2, bind_ret, E4, bind_ret.
  assert (Hown : ∃ s' out, match find_lease_by_chaddr s (chaddr p) with
      | Some (_, l) => request_leased s p l id r | None => request_unknown s p id r end = Ok (s', out)
      ∧ requested_effect s p s' out).
  { destruct (find_lease_by_chaddr s (chaddr p)) as [[i l]|] eqn:Ef; [|by apply request_unknown_spec].
    apply find_by_chaddr_Some in Ef as [Hi Hc]. apply request_leased_spec; try done.
    by eapply list_elem_of_lookup_2. }
  destruct (find_static_lease_by_chaddr s (chaddr p)) as [t|] eqn:Et; [|exact Hown].
  destruct id as [id|]; [|exact Hown].
  destruct (Z.eqb_spec id (c_server (cfg s))) as [->|]; [|exact Hown].
  case_bool_decide as Hreq; [|by apply do_nak].
  destruct Hst as (its & Hi & Hir); [by eexists|].
  apply (do_static s p t its); [done|apply Hp|done..|].
  exists (Some (c_server (cfg s))), r. auto 8.
Qed.

(** ** Every message *)

Definition typed (p : bytes) (t : Z) : Prop :=
  ∃ ptr, get_option p DHCP_MESSAGE_TYPE = Ok (Some ptr) ∧ byte_at p ptr = Ok t.

(** What the server does on the message [p]. *)
Inductive effect (s : server) (p : bytes) : server → list action → Prop :=
| ef_silent s' : ¬ typed p DHCPDISCOVER → evolves s s' (chaddr p) → effect s p s' []
| ef_abandon s' : typed p DHCPDISCOVER → evolves s s' (chaddr p) →
    (∃ s1, searched s s1 ∧ exhausted s1) ∨ (∀ l, l ∈ leases s' → now s' ≤ l_expires l) →
    effect s p s' []
| ef_offer_static t q : typed p DHCPDISCOVER → find_static_lease_by_chaddr s (chaddr p) = Some t →
    is_reply s p DHCPOFFER (l_yiaddr t) (Some 0xFFFFFFFF) q → effect s p s [send_packet s q false]
| ef_offer s' out : typed p DHCPDISCOVER → find_static_lease_by_chaddr s (chaddr p) = None →
    evolves s s' (chaddr p) → offered_to s s' p out → effect s p s' out
| ef_request s' out : typed p DHCPREQUEST → requested_effect s p s' out → effect s p s' out
| ef_inform q more : typed p DHCPINFORM →
    draft p (Opt DHCP_MESSAGE_TYPE [DHCPACK] :: Opt DHCP_SERVER_ID (be_bytes 4 (c_server (cfg s))) :: more) q →
    Forall (from_config (c_options (cfg s))) more → effect s p s [send_packet s q false].

Lemma ef_evolves s p s' out : sinv s → effect s p s' out → evolves s s' (chaddr p).
Proof. intros Hs []; try done; try by apply evolves_refl. by eapply re_evolves. Qed.

Lemma update_own_evolves s p f :
  sinv s → (∀ l, mild f l) → evolves s (update_own s p f) (chaddr p).
Proof.
  intros Hs Hm. unfold update_own.
  destruct (find_lease_by_chaddr s (chaddr p)) as [[i l]|] eqn:Ef; [|by apply evolves_refl].
  apply find_by_chaddr_Some in Ef as [Hi Hc].
  apply (alter_evolves _ _ _ _ l); [done|done|apply Hm|by left].
Qed.

Lemma typed_ne p ptr t t' :
  get_option p DHCP_MESSAGE_TYPE = Ok (Some ptr) → byte_at p ptr = Ok t → t ≠ t' → ¬ typed p t'.
Proof. intros E Et Hne (ptr' & E' & Et'). congruence. Qed.

Lemma handle_packet_spec s p :
  sinv s → readable p → static_ready s p →
  ∃ s' out, handle_packet s p = Ok (s', out) ∧ effect s p s' out.
Proof.
  intros Hs Hp Hst. pose proof Hp as [Hl Hb Hopt]. unfold handle_packet.
  destruct (Hopt DHCP_MESSAGE_TYPE) as (o & E & Ho); [unfold DHCP_MESSAGE_TYPE; lia|].
  rewrite E, bind_ret. destruct o as [ptr|].
  2: { exists s, []. split; [done|]. apply ef_silent; [|by apply evolves_refl].
       intros (ptr & E' & _). congruence. }
  destruct (Ho ptr eq_refl) as (_ & Hptr & _).
  destruct (byte_at_lt p ptr) as (t & Et & _); [lia|]. rewrite Et, bind_ret.
  assert (Hty : ∀ k, t = k → typed p k) by (intros k <-; by exists ptr).
  pose proof (typed_ne p ptr t DHCPDISCOVER E Et) as Hnd.
  destruct (Z.eqb_spec t DHCPDISCOVER) as [Hd|Hd].
  { destruct (find_static_lease_by_chaddr s (chaddr p)) as [l|] eqn:Ef.
    - destruct (sendOffer_static s p l Hs Hp Ef) as (q & Eq & Hq). eexists _, _.
      split; [by eapply discard_Ok|]. eapply ef_offer_static; [auto|exact Ef|exact Hq].
    - destruct (sendOffer_dynamic s p Hs Hp Ef) as (r & s' & out & Eq & Ev & [Hoff|(_ & -> & Hno)]);
        (eexists s', _; split; [by eapply discard_Ok|]); [by apply ef_offer; auto|by apply ef_abandon; auto]. }
  destruct (Z.eqb_spec t DHCPREQUEST) as [Hr|_].
  { destruct (handle_request_spec s p Hs Hp Hst) as (s' & out & Eq & Heff). exists s', out.
    split; [done|]. apply ef_request; auto. }
  destruct (Z.eqb_spec t DHCPDECLINE) as [_|_].
  { eexists _, _. split; [done|]. apply ef_silent; [auto|]. apply update_own_evolves; [done|]. intros l.
    constructor; [done|by right|]. intros (H1 & H2 & H3 & H4). split; [done|]. split; [done|]. split; [apply u32_range|done]. }
  destruct (Z.eqb_spec t DHCPRELEASE) as [_|_].
  { eexists _, _. split; [done|]. apply ef_silent; [auto|]. apply update_own_evolves; [done|]. intros l.
    constructor; [done|by left|]. intros (H1 & H2 & H3 & H4). split; [done|]. split; [done|]. split; [apply u32_range|done]. }
  destruct (Z.eqb_spec t DHCPINFORM) as [Hi|_].
  { destruct (send_inform_spec s p ltac:(apply Hs) Hl Hb) as (q & more & Eq & D & Hm). eexists _, _.
    split; [by eapply discard_Ok|]. eapply ef_inform; eauto. }
  exists s, []. split; [done|]. apply ef_silent; [auto|by apply evolves_refl].
Qed.

(** ** Promises: the addresses sent out with a lease time *)

Definition payload (a : action) : option bytes :=
  match a with
  | Kernel q _ _ _ _ => Some q
  | Raw q _ _ _ _ _ _ => Some q
  | WriteLeases _ => None
  end.

Definition promises (out : list action) (y t : Z) : Prop :=
  ∃ a q, a ∈ out ∧ payload a = Some q ∧ yiaddr q = y ∧ asked_time q = Ok (Some t).

Lemma payload_send s q b : payload (send_packet s q b) = Some q.
Proof.
  unfold send_packet, send_packet_to_relay, send_packet_to_client.
  destruct (negb _); [done|]. destruct b; [done|]. destruct (negb _); [done|]. by destruct (negb _).
Qed.

Lemma promises_sent s q b rest y t :
  promises (send_packet s q b :: rest) y t → (∀ a, a ∈ rest → payload a = None) →
  yiaddr q = y ∧ asked_time q = Ok (Some t).
Proof.
  intros (a & q' & Ha & Hq & Hy & Ht) Hr. apply elem_of_cons in Ha as [->|Ha]; [|rewrite (Hr a Ha) in Hq; done].
  rewrite payload_send in Hq. by injection Hq as ->.
Qed.

(** A message with these items has no lease time. *)
Lemma no_lease_time p its t :
  has_items p its → (∀ d, Opt DHCP_LEASE_TIME d ∉ its) → no_overload its → asked_time p ≠ Ok (Some t).
Proof.
  intros Hp Hn Hno. unfold asked_time.
  rewrite (get_option_has_items p its DHCP_LEASE_TIME Hp Hno) by (unfold DHCP_LEASE_TIME; lia).
  destruct (find_item its DHCP_LEASE_TIME 240) as [[ptr d]|] eqn:E; [|done].
  destruct Hp as (_ & _ & rest & Hd).
  by destruct (find_item_data its p 240 rest _ ptr d Hd E) as (_ & _ & _ & _ & Hin%Hn).
Qed.

Lemma from_config_items l more c d :
  Forall (from_config l) more → Opt c d ∈ more → c ≠ DHCP_LEASE_TIME ∧ c ≠ DHCP_OPTION_OVER.
Proof.
  intros Hf Hin. rewrite Forall_forall in Hf. destruct (Hf _ Hin) as (c' & v & E & ? & ? & _).
  by injection E as -> ->.
Qed.

Lemma nak_promises_nothing s p q y t :
  draft p [Opt DHCP_MESSAGE_TYPE [DHCPNAK]; Opt DHCP_SERVER_ID (be_bytes 4 (c_server (cfg s)))] q →
  ¬ promises [send_packet s q true] y t.
Proof.
  intros D [_ Ht]%promises_sent; [|by intros a ?%elem_of_nil].
  revert Ht. eapply no_lease_time; [apply D| |].
  - intros d [E|[E|[]%elem_of_nil]%elem_of_cons]%elem_of_cons; injection E; done.
  - intros d [E|[E|[]%elem_of_nil]%elem_of_cons]%elem_of_cons; injection E; done.
Qed.

Lemma inform_promises_nothing s p q more y t :
  draft p (Opt DHCP_MESSAGE_TYPE [DHCPACK] :: Opt DHCP_SERVER_ID (be_bytes 4 (c_server (cfg s))) :: more) q →
  Forall (from_config (c_options (cfg s))) more → ¬ promises [send_packet s q false] y t.
Proof.
  intros D Hm [_ Ht]%promises_sent; [|by intros a ?%elem_of_nil].
  revert Ht. eapply no_lease_time; [apply D| |].
  - intros d [E|[E|Hin]%elem_of_cons]%elem_of_cons; [injection E; done..|].
    by destruct (from_config_items _ _ _ _ Hm Hin).
  - intros d [E|[E|Hin]%elem_of_cons]%elem_of_cons; [injection E; done..|].
    by destruct (from_config_items _ _ _ _ Hm Hin).
Qed.

(** The lease time of a reply is the one it was built with. *)
Lemma reply_time s p t y v q :
  is_reply s p t y (Some v) q → is_u32 v → asked_time q = Ok (Some v).
Proof.
  intros [(more & Hi & Hm) _ _ _ _ _ _ _] Hv.
  rewrite (asked_time_item q _ (240 + 3 + 6 + 2)%nat (be_bytes 4 v) Hi).
  - do 2 f_equal. rewrite be_val_bytes. apply Z.mod_small. exact Hv.
  - intros d Hin. apply elem_of_cons in Hin as [E|Hin]; [injection E; done|].
    apply elem_of_cons in Hin as [E|Hin]; [injection E; done|].
    apply elem_of_cons in Hin as [E|Hin]; [injection E; done|].
    by destruct (from_config_items _ _ _ _ Hm Hin).
  - done.
  - apply length_be_bytes.
Qed.

(** What an acknowledgement promises. *)
Lemma acknowledged_promises s s' p y out y' t :
  acknowledged s s' p y out → promises out y' t → y' = y.
Proof.
  intros (v & q & Hq & _ & Hout) Hp. assert (yiaddr q = y' ∧ asked_time q = Ok (Some t)) as [Hy _].
  { destruct Hout as [(-> & _)|(_ & _ & -> & _)]; eapply promises_sent; try exact Hp.
    - by intros a ?%elem_of_nil.
    - intros a ?%list_elem_of_singleton. by subst a. }
  pose proof (ir_yiaddr _ _ _ _ _ _ Hq). congruence.
Qed.

(** A live lease of another client is never promised. *)
Lemma static_exclusive s c y l :
  sinv s → static_of s c y → l ∈ leases s → l_chaddr l ≠ c → is_blank (l_chaddr l) = false →
  l_yiaddr l ≠ y.
Proof.
  intros Hs (t & Ht & <-) Hl Hne Hb E. apply find_static_in in Ht as [Hin Hc].
  apply bool_decide_eq_true in Hc. destruct (si_sep s Hs l t Hl Hin E); congruence.
Qed.

Lemma holds_exclusive s c y l :
  table_ok (leases s) → holds s c y → l ∈ leases s → l_chaddr l ≠ c → l_yiaddr l ≠ 0 → l_yiaddr l ≠ y.
Proof.
  intros Hok (k & Hk & Hkc & Hky) Hl Hne H0 E. apply list_elem_of_lookup in Hk as [j Hj].
  apply list_elem_of_lookup in Hl as [i Hi].
  assert (i = j) as -> by (eapply table_unique_y; eauto; congruence). congruence.
Qed.

Lemma effect_exclusive s p s' out y t i l :
  sinv s → effect s p s' out → promises out y t →
  leases s !! i = Some l → l_chaddr l ≠ chaddr p → is_blank (l_chaddr l) = false → l_yiaddr l ≠ 0 →
  now s' ≤ l_expires l → l_yiaddr l ≠ y.
Proof.
  intros Hs He Hp Hi Hne Hb H0 Hexp. pose proof (list_elem_of_lookup_2 _ _ _ Hi) as Hl.
  pose proof (ef_evolves _ _ _ _ Hs He) as Ev.
  destruct He as [? ? ?|? ? ? ?|x q _ Hx Hq|? ? _ _ _ Hoff|? ? _ Hr|q more _ D Hm].
  - by destruct Hp as (a & _ & []%elem_of_nil & _).
  - by destruct Hp as (a & _ & []%elem_of_nil & _).
  - apply promises_sent in Hp as [Hy _]; [|by intros a ?%elem_of_nil].
    rewrite (ir_yiaddr _ _ _ _ _ _ Hq) in Hy. eapply static_exclusive; eauto. by exists x.
  - destruct Hoff as (y0 & t0 & q & j & k & -> & Hq & _ & _ & Hj & Hkc & Hky & _).
    apply promises_sent in Hp as [Hy _]; [|by intros a ?%elem_of_nil].
    rewrite (ir_yiaddr _ _ _ _ _ _ Hq) in Hy. subst y.
    pose proof (ev_keep _ _ _ Ev i l Hi Hexp Hne Hb) as Hi'.
    eapply holds_exclusive; [apply Ev|exists k; split; [by eapply list_elem_of_lookup_2|done]| |done|done].
    by eapply list_elem_of_lookup_2.
  - destruct Hr as [? ?|q D|y0 ? ? _ Hh _ Hack|y0 p' ? ? _ Hst _ _ Hack].
    + by destruct Hp as (a & _ & []%elem_of_nil & _).
    + by apply (nak_promises_nothing _ _ _ _ _ D) in Hp.
    + rewrite (acknowledged_promises _ _ _ _ _ _ _ Hack Hp). eapply holds_exclusive; eauto. apply Hs.
    + rewrite (acknowledged_promises _ _ _ _ _ _ _ Hack Hp). by eapply static_exclusive.
  - by apply (inform_promises_nothing _ _ _ _ _ _ D Hm) in Hp.
Qed.

(** ** Turns of the loop *)

Lemma chaddr_set_flags p v : length p = 548%nat → chaddr (set16 p F_flags v) = chaddr p.
Proof.
  intros Hl. assert (L2 : length (be_bytes 2 v) = 2%nat) by apply length_be_bytes.
  unfold chaddr, set16, F_flags, F_chaddr. by rewrite slice_splice_after by lia.
Qed.

(** A message as it is read: its bytes, and that the server can read them. *)
Record deliverable (s : server) (data : bytes) : Prop := {
  dl_bytes : is_bytes data;
  dl_len : (length data ≤ 548)%nat;
  dl_read : readable (splice zero_msg 0 data);
  dl_static : static_ready s (splice zero_msg 0 data) }.

Definition input_ok (s : server) (i : input) : Prop :=
  match i with Message (Some data) => deliverable s data | _ => True end.

(** The options do not depend on the header fields before [sname]. *)
Lemma get_option_loop_ext fuel p q base i len over curr code :
  (∀ k, (44 ≤ k)%nat → p !! k = q !! k) → (44 ≤ base)%nat →
  get_option_loop fuel p base i len over curr code = get_option_loop fuel q base i len over curr code.
Proof.
  intros H. assert (Hb : ∀ k, (44 ≤ k)%nat → byte_at p k = byte_at q k)
    by (intros k Hk; unfold byte_at; by rewrite H).
  revert base i len over curr. induction fuel as [|fuel IH]; intros base i len over curr Hge; [done|].
  cbn [get_option_loop]. case_decide; [done|]. rewrite (Hb (base + i)%nat) by lia.
  destruct (byte_at q (base + i)) as [c| |]; cbn [mbind res_bind]; [|done..]. rewrite !Hb by lia.
  destruct (c =? code); [done|]. destruct (c =? DHCP_PADDING); [by apply IH|].
  destruct (c =? DHCP_OPTION_OVER).
  { destruct (byte_at q (base + i + 1)) as [l| |]; cbn [mbind res_bind]; [|done..]. case_decide; [done|].
    destruct (byte_at q (base + i + 3)) as [o| |]; cbn [mbind res_bind]; [|done..].
    destruct (byte_at q (base + 1)) as [l1| |]; cbn [mbind res_bind]; [|done..]. by apply IH. }
  destruct (c =? DHCP_END).
  { destruct (_ && _); [apply IH; unfold F_file; lia|]. destruct (_ && _); [apply IH; unfold F_sname; lia|done]. }
  destruct (byte_at q (base + i + 1)) as [l| |]; cbn [mbind res_bind]; [|done..]. by apply IH.
Qed.

Lemma get_option_loop_ge fuel p base i len over curr code ptr :
  (44 ≤ base)%nat → get_option_loop fuel p base i len over curr code = Ok (Some ptr) → (46 ≤ ptr)%nat.
Proof.
  revert base i len over curr. induction fuel as [|fuel IH]; intros base i len over curr Hge H; [done|].
  cbn [get_option_loop] in H. case_decide; [done|]. apply bind_Ok in H as (c & _ & H).
  destruct (c =? code).
  { apply bind_Ok in H as (l & _ & H). case_decide; [done|]. injection H as <-. lia. }
  destruct (c =? DHCP_PADDING); [by eapply IH|]. destruct (c =? DHCP_OPTION_OVER).
  { apply bind_Ok in H as (l & _ & H). case_decide; [done|]. res_inv. by eapply IH. }
  destruct (c =? DHCP_END).
  { destruct (_ && _); [eapply IH; [|exact H]; unfold F_file; lia|].
    destruct (_ && _); [eapply IH; [|exact H]; unfold F_sname; lia|done]. }
  res_inv. by eapply IH.
Qed.

Lemma get_option_ext p q code :
  (∀ k, (44 ≤ k)%nat → p !! k = q !! k) → get_option p code = get_option q code.
Proof.
  intros H. unfold get_option. generalize OPTION_FUEL. intros fuel.
  apply get_option_loop_ext; [exact H|unfold F_options; lia].
Qed.

Lemma get_option_ge p code ptr : get_option p code = Ok (Some ptr) → (46 ≤ ptr)%nat.
Proof.
  unfold get_option. generalize OPTION_FUEL. intros fuel. apply get_option_loop_ge. unfold F_options. lia.
Qed.

Lemma readable_set_flags p v : readable p → readable (set16 p F_flags v).
Proof.
  intros [Hl Hb H]. assert (L2 : length (be_bytes 2 v) = 2%nat) by apply length_be_bytes.
  assert (E : ∀ k, (44 ≤ k)%nat → set16 p F_flags v !! k = p !! k).
  { intros k Hk. unfold set16, F_flags. apply lookup_splice_ne; lia. }
  constructor; [unfold set16, F_flags; rewrite length_splice; lia|apply is_bytes_splice; [done|apply is_bytes_be_bytes]|].
  intros code Hc. destruct (H code Hc) as (r & Er & Hr). exists r.
  rewrite (get_option_ext _ p code E). split; [done|].
  intros ptr ->. destruct (Hr ptr eq_refl) as ((l & El & Hm) & Hrest). split; [|done].
  apply get_option_ge in Er. exists l. split; [|done]. unfold byte_at in *. by rewrite E by lia.
Qed.

Lemma static_ready_set_flags s p v :
  length p = 548%nat → static_ready s p → static_ready s (set16 p F_flags v).
Proof.
  intros Hl H. unfold static_ready. rewrite chaddr_set_flags by done.
  intros Hs. destruct (H Hs) as (its & Hi & Hr). exists its. split; [|done].
  apply has_items_header; [done|]. rewrite length_be_bytes. unfold F_flags. lia.
Qed.

Lemma get_packet_spec s data :
  deliverable s data →
  ∃ n p, get_packet (Some data) = Ok (n, p)
    ∧ (n < 0 ∨ (readable p ∧ static_ready s p ∧ chaddr p = chaddr (splice zero_msg 0 data))).
Proof.
  intros [Hb Hlen Hr Hst]. unfold get_packet. set (p := splice zero_msg 0 data) in *.
  rewrite write_at_Ok by (change (length zero_msg) with 548%nat; lia). rewrite bind_ret. fold p.
  destruct (negb _); [exists (-2), p; split; [done|left; lia]|].
  destruct (op p =? BOOTREQUEST).
  2: { rewrite bind_ret. eexists _, p. split; [done|]. by right. }
  destruct (rd_opt p Hr DHCP_VENDOR) as (r & E & Hv); [unfold DHCP_VENDOR; lia|]. rewrite E, bind_ret.
  destruct r as [v|]; [|rewrite bind_ret; eexists _, p; split; [done|by right]].
  destruct (Hv v eq_refl) as ((l & El & _) & _). rewrite El, bind_ret. pose proof (rd_len p Hr) as Hl.
  destruct (_ && _); rewrite bind_ret; eexists _, _; (split; [done|right]); [|done].
  split; [by apply readable_set_flags|]. split; [by apply static_ready_set_flags|].
  by apply chaddr_set_flags.
Qed.

(** The client of an input. *)
Definition from_other (c : bytes) (i : input) : Prop :=
  match i with Message (Some data) => chaddr (splice zero_msg 0 data) ≠ c | _ => True end.

(** One turn: nothing, or the effect of one message. *)
Inductive turn_effect (s : server) (i : input) : server → list action → Prop :=
| te_idle out : (∀ y t, ¬ promises out y t) → turn_effect s i s out
| te_message data p s' out : i = Message (Some data) → chaddr p = chaddr (splice zero_msg 0 data) →
    readable p → effect s p s' out → turn_effect s i s' out.

Lemma round_spec s te i :
  sinv s → input_ok s i →
  ∃ o out, server_round s te i = Ok (o, out) ∧
    match o with
    | None => i = SignalTerm
    | Some (s', _) => turn_effect s i s' out
    end.
Proof.
  intros Hs Hi. assert (Hno : ∀ y t, ¬ promises [] y t) by (by intros y t (a & _ & []%elem_of_nil & _)).
  assert (Hnw : ∀ x y t, ¬ promises [WriteLeases x] y t).
  { intros x y t (a & q & Ha & Hq & _). apply list_elem_of_singleton in Ha as ->. done. }
  destruct i as [| | | |[data|]]; cbn [server_round input_ok] in *.
  - eexists _, _. split; [done|]. by constructor.
  - eexists _, _. split; [done|]. by constructor.
  - eexists _, _. split; [done|]. by constructor.
  - by eexists _, _.
  - destruct (get_packet_spec s data Hi) as (n & p & E & Hp). rewrite E, bind_ret.
    destruct (Z.ltb_spec n 0); [eexists _, _; split; [done|by constructor]|].
    destruct Hp as [?|(Hr & Hst & Hc)]; [lia|].
    destruct (handle_packet_spec s p Hs Hr Hst) as (s' & out & E2 & He). rewrite E2, bind_ret.
    eexists _, _. split; [done|]. by eapply te_message.
  - eexists _, _. split; [done|]. by constructor.
Qed.

Lemma turn_evolves s i s' out c :
  sinv s → turn_effect s i s' out → from_other c i → sinv s' ∧ now s ≤ now s'
  ∧ ∀ k l, leases s !! k = Some l → now s' ≤ l_expires l → l_chaddr l = c → is_blank c = false →
      leases s' !! k = Some l.
Proof.
  intros Hs [? _|data p s1 o1 -> Hc Hr He] Hf; [auto with lia|].
  pose proof (ef_evolves _ _ _ _ Hs He) as Ev. split; [by eapply evolves_sinv|]. split; [apply Ev|].
  intros k l Hk Hexp <- Hb. apply (ev_keep _ _ _ Ev); [done..| |done]. cbn in Hf. congruence.
Qed.

(** Turns of the loop and passing time, without a message of the client [c]. *)
Inductive run (c : bytes) : server → server → Prop :=
| run_refl s : run c s s
| run_tick s s' dt : run c s s' → 0 ≤ dt → run c s (with_now s' (now s' + dt))
| run_turn s s' i te s'' te' out :
    run c s s' → input_ok s' i → from_other c i →
    server_round s' te i = Ok (Some (s'', te'), out) → run c s s''.

Lemma round_turn s te i s' te' out :
  sinv s → input_ok s i → server_round s te i = Ok (Some (s', te'), out) → turn_effect s i s' out.
Proof.
  intros Hs Hi E. destruct (round_spec s te i Hs Hi) as (o & out' & E' & H). rewrite E in E'.
  by injection E' as <- <-.
Qed.

Lemma run_keeps c s s' :
  run c s s' → sinv s → is_blank c = false →
  sinv s' ∧ now s ≤ now s' ∧ ∀ k l, leases s !! k = Some l → l_chaddr l = c → now s' ≤ l_expires l →
    leases s' !! k = Some l.
Proof.
  induction 1 as [s|s s' dt Hrun IH Hdt|s s' i te s'' te' out Hrun IH Hi Hf E]; intros Hs Hb.
  - auto with lia.
  - destruct (IH Hs Hb) as (Hs' & Hn & Hk). cbn. split; [destruct Hs'; constructor; cbn; auto; lia|].
    split; [lia|]. intros k l Hl Hc He. apply Hk; [done..|lia].
  - destruct (IH Hs Hb) as (Hs' & Hn & Hk).
    destruct (turn_evolves s' i s'' out c Hs') as (Hs'' & Hn' & Hk'); [by eapply round_turn|done|].
    split; [done|]. split; [lia|]. intros k l Hl Hc He. apply Hk'; [|done..]. apply Hk; [done..|lia].
Qed.

Lemma handle_discover s p : typed p DHCPDISCOVER → handle_packet s p = discard (sendOffer s p).
Proof.
  intros (ptr & E & Et). unfold handle_packet. rewrite E, bind_ret, Et, bind_ret. reflexivity.
Qed.

Lemma handle_request_msg s p : typed p DHCPREQUEST → handle_packet s p = handle_request s p.
Proof.
  intros (ptr & E & Et). unfold handle_packet. rewrite E, bind_ret, Et, bind_ret. reflexivity.
Qed.

Lemma typed_inj p t t' : typed p t → typed p t' → t = t'.
Proof. intros (ptr & E & Et) (ptr' & E' & Et'). congruence. Qed.
End arp.
