(* ===== verification/DhcpReplyBytes.v ===== *)
(** * The replies of the DHCP server consist of bytes *)

From stdpp Require Import base numbers strings list.
From S2P Require Import Prelude Bytes DhcpOptions DhcpOptionsProps DhcpPacket DhcpPacketProps.
From S2P Require Import DhcpLeases DhcpLeasesProps DhcpServer DhcpReply DhcpServerInv DhcpServerProps.

(** The strings of the configuration. *)
Record cfg_bytes (c : server_config) : Prop := {
  cb_options : Forall is_bytes (c_options c);
  cb_sname : ∀ x, c_sname c = Some x → is_bytes x;
  cb_boot_file : ∀ x, c_boot_file c = Some x → is_bytes x }.

Lemma c_str_bytes b : is_bytes b → is_bytes (c_str b).
Proof. induction 1 as [|x b Hx Hb IH]; cbn; [constructor|]. case_match; [constructor|by constructor]. Qed.

Lemma strncpy_bytes b n : is_bytes b → is_bytes (strncpy b n).
Proof.
  intros Hb. unfold strncpy. apply Forall_app. split; [by apply Forall_take, c_str_bytes|].
  apply Forall_replicate. unfold is_u8. lia.
Qed.

Lemma add_simple_bytes p code v n p' :
  is_bytes p → is_u8 code → add_simple_option p code v = Ok (n, p') → is_bytes p'.
Proof.
  intros Hp Hc H. unfold add_simple_option in H. cbv zeta in H.
  destruct (Z.eqb_spec (option_length code) 0) as [|Hn]; [by injection H as _ <-|].
  eapply add_option_string_bytes; [exact Hp| |exact H]. constructor; [done|].
  constructor; [|apply is_bytes_be_bytes].
  assert (Hall : ∀ l a, a ∈ option_lengths → foldl (λ length o, if opt_code o =? code
      then option_lengths !!! Z.to_nat (Z.land (opt_flags o) TYPE_MASK) else length) a l ∈ option_lengths).
  { induction l as [|o l IH]; intros a Ha; [done|]. cbn. apply IH. case_match; [|done].
    destruct (decide (Z.to_nat (Z.land (opt_flags o) TYPE_MASK) < 10)%nat).
    - by apply list_elem_of_lookup_total_2.
    - rewrite list_lookup_total_alt, lookup_ge_None_2 by (cbn; lia). by (do 3 right; left). }
  pose proof (Hall options 0 ltac:(by left)) as Hin. unfold option_length.
  revert Hin. generalize (foldl (λ length o, if opt_code o =? code
      then option_lengths !!! Z.to_nat (Z.land (opt_flags o) TYPE_MASK) else length) 0 options).
  intros x Hin. unfold option_lengths in Hin. unfold is_u8. rewrite !elem_of_cons, elem_of_nil in Hin. lia.
Qed.

Section server.
Context (s : server) (Hc : cfg_bytes (cfg s)).

Lemma server_init_bytes old t p :
  1 ≤ t ≤ 8 → is_bytes old → DhcpServer.init_packet s old t = Ok p → is_bytes p.
Proof.
  intros Ht Ho H. unfold DhcpServer.init_packet in H.
  destruct (init_header_spec t Ht) as (p0 & E0 & _ & _ & Hb & _). rewrite E0, bind_ret in H.
  apply bind_Ok in H as ((n & p') & E & H). injection H as <-.
  eapply (add_simple_bytes _ DHCP_SERVER_ID); [|unfold is_u8, DHCP_SERVER_ID; lia|exact E].
  unfold copy_fields, set32, set16. cbv zeta.
  repeat (apply is_bytes_splice; [|try apply is_bytes_be_bytes]); [done|by apply is_bytes_slice].
Qed.

Lemma add_options_bytes p l p' : is_bytes p → Forall is_bytes l → add_options p l = Ok p' → is_bytes p'.
Proof.
  intros Hp Hl. revert p Hp. induction Hl as [|d l Hd Hl IH]; intros p Hp H; cbn [add_options] in H.
  - by injection H as <-.
  - apply bind_Ok in H as (c & _ & H). destruct (c =? DHCP_LEASE_TIME); [by eapply IH|].
    apply bind_Ok in H as ((n & p1) & E & H). eapply IH; [|exact H].
    by eapply add_option_string_bytes; [..|exact E].
Qed.

Lemma finish_reply_bytes p p' : is_bytes p → finish_reply s p = Ok p' → is_bytes p'.
Proof.
  intros Hp H. unfold finish_reply in H. apply bind_Ok in H as (p1 & E & H). injection H as <-.
  apply add_options_bytes in E; [|done|apply Hc]. unfold add_bootp_options, set32. cbv zeta.
  assert (H1 : is_bytes (splice p1 F_siaddr (be_bytes 4 (c_siaddr (cfg s)))))
    by (apply is_bytes_splice; [done|apply is_bytes_be_bytes]).
  destruct (c_sname (cfg s)) as [nm|] eqn:En; destruct (c_boot_file (cfg s)) as [bf|] eqn:Eb;
    repeat (apply is_bytes_splice; [|apply strncpy_bytes; (by eapply cb_sname) || (by eapply cb_boot_file)]); exact H1.
Qed.

Lemma set_yiaddr_bytes p y : is_bytes p → is_bytes (set32 p F_yiaddr y).
Proof. intros Hp. apply is_bytes_splice; [done|apply is_bytes_be_bytes]. Qed.
End server.

(** What is sent in an answer. *)
Definition sends_bytes (out : list action) : Prop := ∀ a q, a ∈ out → payload a = Some q → is_bytes q.

Lemma sends_one s q b rest :
  is_bytes q → (∀ a, a ∈ rest → payload a = None) → sends_bytes (send_packet s q b :: rest).
Proof.
  intros Hq Hr a p [->|Ha]%elem_of_cons E; [|by rewrite Hr in E]. rewrite payload_send in E. by injection E as <-.
Qed.

Section arp.
Context `{Harp : ArpPing} `{!ArpOK Harp} `{Hnet : Network}.

Lemma sendOffer_bytes s p r s' out :
  sinv s → readable p → cfg_bytes (cfg s) → sendOffer s p = Ok (r, s', out) → sends_bytes out.
Proof.
  intros Hs Hp Hc H. pose proof Hp as [Hl Hb _]. unfold sendOffer in H.
  apply bind_Ok in H as (q & Eq & H). pose proof (server_init_bytes s p DHCPOFFER q) as Hq.
  specialize (Hq ltac:(unfold DHCPOFFER; lia) Hb Eq). clear Eq.
  assert (Hfin : ∀ (s1 : server) y v n q1 q2, cfg s1 = cfg s →
    add_simple_option (set32 q F_yiaddr y) DHCP_LEASE_TIME v = Ok (n, q1) → finish_reply s1 q1 = Ok q2 → is_bytes q2).
  { intros s1 y v n q1 q2 Ec E1 E2. eapply (finish_reply_bytes s1); [by rewrite Ec| |exact E2].
    eapply (add_simple_bytes _ DHCP_LEASE_TIME); [|unfold is_u8, DHCP_LEASE_TIME; lia|exact E1]. by apply set_yiaddr_bytes. }
  assert (Hno : ∀ a q, a ∈ @nil action → payload a = Some q → is_bytes q) by (intros ? ? []%elem_of_nil).
  destruct (find_static_lease_by_chaddr s (chaddr p)) as [t|].
  { cbv zeta in H. apply bind_Ok in H as ((n & q1) & E1 & H). apply bind_Ok in H as (q2 & E2 & H).
    injection H as <- <- <-. apply sends_one; [by eapply Hfin|by intros ? []%elem_of_nil]. }
  destruct (offer_candidate_spec s p Hs Hp) as (cand & lt & E & Hcand & _). rewrite E, bind_ret in H. clear E.
  pose proof (length_chaddr p Hl) as Hlc.
  destruct (offer_address_spec s cand (chaddr p) Hs Hlc (λ H, proj1 (Hcand H))) as (y & s1 & E & Ev & _).
  rewrite E, bind_ret in H. clear E. cbv zeta in H.
  destruct (y =? 0); [by injection H as <- <- <-|].
  apply bind_Ok in H as (h & _ & H).
  pose proof (add_lease_fixed s1 (chaddr (set32 q F_yiaddr y)) y (c_offer_time (cfg s1)) h) as (F1 & _).
  destruct (add_lease s1 _ y (c_offer_time (cfg s1)) h) as [[i|] s2]; [|by injection H as <- <- <-].
  cbn [snd] in F1. pose proof (ev_cfg _ _ _ Ev) as Ec.
  apply bind_Ok in H as (asked & _ & H). apply bind_Ok in H as ((n & q1) & E1 & H).
  apply bind_Ok in H as (q2 & E2 & H). injection H as <- <- <-.
  apply sends_one; [|by intros ? []%elem_of_nil]. eapply Hfin; [|exact E1|exact E2]. congruence.
Qed.

Lemma sendACK_bytes s p y r s' out :
  is_bytes p → cfg_bytes (cfg s) → sendACK s p y = Ok (r, s', out) → sends_bytes out.
Proof.
  intros Hb Hc H. unfold sendACK in H. apply bind_Ok in H as (q & Eq & H).
  pose proof (server_init_bytes s p DHCPACK q) as Hq.
  specialize (Hq ltac:(unfold DHCPACK; lia) Hb Eq). clear Eq. cbv zeta in H.
  apply bind_Ok in H as (asked & _ & H). apply bind_Ok in H as ((n & q1) & E1 & H).
  apply bind_Ok in H as (q2 & E2 & H). apply bind_Ok in H as (hp & _ & H).
  assert (Hq2 : is_bytes q2).
  { eapply (finish_reply_bytes s Hc); [|exact E2].
    eapply (add_simple_bytes _ DHCP_LEASE_TIME); [|unfold is_u8, DHCP_LEASE_TIME; lia|exact E1]. by apply set_yiaddr_bytes. }
  assert (H1 : sends_bytes [send_packet s q2 false]) by (apply sends_one; [done|by intros ? []%elem_of_nil]).
  destruct (net_send _ <? 0); [by injection H as <- <- <-|].
  destruct (_ =? 0xFFFFFFFF); [by injection H as <- <- <-|].
  apply bind_Ok in H as (h & _ & H). destruct (add_lease s _ y _ h) as [o s1].
  injection H as <- <- <-. apply sends_one; [done|]. intros a ->%list_elem_of_singleton. done.
Qed.
End arp.
