(* ===== verification/DhcpServerSafety.v ===== *)
(** * The DHCP server: the theorems

    Safety of every turn of the loop, isolation of clients, correctness of offers
    and acknowledgements, no double allocation. *)

From stdpp Require Import base numbers sets list.
From S2P Require Import Prelude Bytes DhcpOptions DhcpOptionsProps DhcpPacket DhcpPacketProps.
From S2P Require Import DhcpLeases DhcpLeasesProps DhcpServer DhcpReply DhcpServerInv DhcpServerProps.

Section arp.
Context `{Harp : ArpPing} `{!ArpOK Harp} `{Hnet : Network}.


(** Whatever other clients send, and however the clock advances, a client's
    entry stays in the table until it expires. *)
Theorem server_isolates c s s' i l
    (Hs : sinv s) (Hrun : run c s s') (Hb : is_blank c = false)
    (Hl : leases s !! i = Some l) (Hc : l_chaddr l = c) (He : now s' ≤ l_expires l) :
  leases s' !! i = Some l ∧ sinv s'.
Proof.
  destruct (run_keeps c s s' Hrun Hs Hb) as (Hs' & _ & Hk). split; [|done]. by apply Hk.
Qed.

(** C27: on a DISCOVER the server offers a client with a static address that
    address, with an infinite lease.  Any other client is offered the address of its
    table entry; if it has no entry, the address it requests, when that is in the range,
    nobody's static address and in no lease that has not expired; otherwise an address
    with the same properties that nobody answers for, and one out of an expired lease
    only when every such address is in the table ([chosen]).  The entry made for the
    offer expires [offer_time] seconds later; the lease time is at least [min_lease] or
    the configured one, and not above it when the client asked for one.  No offer is
    made only when no address is free or no entry has expired. *)
Theorem server_offer_correct s p (Hs : sinv s) (Hp : readable p) (Hd : typed p DHCPDISCOVER) :
  ∃ s' out, handle_packet s p = Ok (s', out) ∧
    match find_static_lease_by_chaddr s (chaddr p) with
    | Some t => s' = s ∧ ∃ q, out = [send_packet s q false]
        ∧ is_reply s p DHCPOFFER (l_yiaddr t) (Some 0xFFFFFFFF) q
    | None =>
        (∃ y t q i l, out = [send_packet s q false] ∧ is_reply s p DHCPOFFER y (Some t) q
           ∧ y ≠ 0 ∧ chosen s s' p y
           ∧ leases s' !! i = Some l ∧ l_chaddr l = chaddr p ∧ l_yiaddr l = y
           ∧ l_expires l = u32 (now s' + c_offer_time (cfg s))
           ∧ (t = c_lease (cfg s) ∨ c_min_lease (cfg s) ≤ t)
           ∧ (∀ a, asked_time p = Ok (Some a) → t ≤ c_lease (cfg s)))
        ∨ (out = [] ∧ ((∃ s1, searched s s1 ∧ exhausted s1) ∨ ∀ l, l ∈ leases s' → now s' ≤ l_expires l))
    end.
Proof.
  rewrite (handle_discover s p Hd). destruct (find_static_lease_by_chaddr s (chaddr p)) as [t|] eqn:Ef.
  - destruct (sendOffer_static s p t Hs Hp Ef) as (q & E & Hq). eexists _, _.
    split; [by eapply discard_Ok|]. split; [done|]. by exists q.
  - destruct (sendOffer_dynamic s p Hs Hp Ef) as (r & s' & out & E & _ & [Hoff|(_ & -> & Hw)]);
      eexists s', _; (split; [by eapply discard_Ok|]); [left; exact Hoff|right; done].
Qed.

(** C26: an address that the server sends with a lease time in answer to a REQUEST
    is the one the client asks this server for, and the client's own: the address
    of its table entry or its static address.  The lease time is the configured
    one, or the one asked for when that lies between [min_lease] and the
    configured one or is infinite.  Whenever the answer is sent and the time is
    finite, the lease file is written and the client's entry is made to expire at
    the end of the lease, unless the table has no room. *)
Theorem server_acks_own s p s' out y t
    (Hs : sinv s) (Hp : readable p) (Hst : static_ready s p) (Hr : typed p DHCPREQUEST)
    (E : handle_packet s p = Ok (s', out)) (Hy : promises out y t) :
  asks s p y ∧ (holds s (chaddr p) y ∨ static_of s (chaddr p) y)
  ∧ ∃ p', take 240 p' = take 240 p ∧ (p' = p ∨ static_of s (chaddr p) y)
      ∧ acknowledged s s' p' y out.
Proof.
  rewrite (handle_request_msg s p Hr) in E.
  destruct (handle_request_spec s p Hs Hp Hst) as (s1 & o1 & E1 & He). rewrite E in E1.
  injection E1 as <- <-. destruct He as [? ?|q D|y0 ? ? Ha Hh _ Hack|y0 p' ? ? Ha Hh _ Ht Hack].
  - by destruct Hy as (a & _ & []%elem_of_nil & _).
  - by apply (nak_promises_nothing _ _ _ _ _ D) in Hy.
  - rewrite (acknowledged_promises _ _ _ _ _ _ _ Hack Hy). eauto 10.
  - rewrite (acknowledged_promises _ _ _ _ _ _ _ Hack Hy). eauto 10.
Qed.

(** C2: no double allocation.  While the lease of the client [c] has not expired,
    and whatever the other clients have sent since, no answer to another client
    offers or grants its address. *)
Theorem server_no_double_allocation c s s1 s2 i l j te te' out y t
    (Hs : sinv s) (Hl : leases s !! i = Some l) (Hc : l_chaddr l = c) (Hb : is_blank c = false)
    (Hrun : run c s s1) (Hj : input_ok s1 j) (Hj' : from_other c j)
    (E : server_round s1 te j = Ok (Some (s2, te'), out)) (Hy : promises out y t)
    (He : now s2 ≤ l_expires l) (H0 : l_yiaddr l ≠ 0) :
  l_yiaddr l ≠ y.
Proof.
  destruct (run_keeps c s s1 Hrun Hs Hb) as (Hs1 & _ & Hk).
  pose proof (round_turn _ _ _ _ _ _ Hs1 Hj E) as Ht.
  destruct (turn_evolves s1 j s2 out c Hs1 Ht Hj') as (_ & Hn & _).
  destruct Ht as [? Hno|data p s2 o -> Hcp _ Heff]; [by apply Hno in Hy|].
  eapply (effect_exclusive s1 p s2 o y t i l); try done.
  - apply Hk; [done|done|lia].
  - cbn in Hj'. congruence.
  - congruence.
Qed.
End arp.
