(* ===== verification/DhcpServerDemo.v ===== *)
(** * The DHCP server on concrete messages: witnesses and flaws *)

From stdpp Require Import base numbers sets list.
From S2P Require Import Prelude Bytes DhcpOptions DhcpOptionsProps DhcpPacket DhcpPacketProps.
From S2P Require Import DhcpLeases DhcpLeasesProps DhcpServer DhcpReply DhcpServerInv DhcpServerProps DhcpServerSafety.

(** ** Executable checks *)

Definition item_okb (it : item) : bool :=
  match it with
  | Pad => true
  | Opt c d => (0 <? c) && (c <? 255) && (length d <=? 255)%nat && negb (c =? DHCP_OPTION_OVER)
      && (negb (bool_decide (c ∈ number_codes)) || (length d =? 4)%nat)
  end.

Lemma item_okb_sound its : forallb item_okb its = true → Forall item_ok its ∧ items_readable its.
Proof.
  rewrite forallb_forall. intros H. split; [|split].
  - rewrite Forall_forall. intros it Hit. specialize (H it (proj1 (list_elem_of_In _ _) Hit)).
    destruct it as [|c d]; [done|]. cbn in H.
    rewrite !andb_true_iff, !Z.ltb_lt, Nat.leb_le in H. cbn. lia.
  - intros d Hd. specialize (H _ (proj1 (list_elem_of_In _ _) Hd)). cbn in H.
    rewrite !andb_true_iff in H. destruct H as [[_ H] _]. by vm_compute in H.
  - intros c d Hd Hc. specialize (H _ (proj1 (list_elem_of_In _ _) Hd)). cbn in H.
    rewrite bool_decide_true in H by done. cbn [negb orb] in H. apply andb_true_iff in H as [_ H].
    by apply Nat.eqb_eq in H.
Qed.

(** The message of the client [mac] with the options [its]. *)
Definition request (mac : bytes) (its : list item) : bytes :=
  splice (set8 (set32 (message (encs its ++ [255])) F_cookie DHCP_MAGIC) F_op BOOTREQUEST) F_chaddr mac.

Definition request_okb (mac : bytes) (its : list item) : bool :=
  let p := request mac its in
  bytesb p && forallb item_okb its && (length p =? 548)%nat
  && bool_decide (take (length (encs its) + 1) (drop 240 p) = encs its ++ [255]).

Lemma request_ok mac its :
  request_okb mac its = true →
  has_items (request mac its) its ∧ items_readable its ∧ readable (request mac its).
Proof.
  unfold request_okb. cbv zeta. set (p := request mac its).
  rewrite !andb_true_iff, Nat.eqb_eq. intros [[[Hb Hi] Hl] Hd]. apply bool_decide_eq_true in Hd.
  apply bytesb_sound in Hb. apply item_okb_sound in Hi as [Hok Hr].
  assert (Hp : has_items p its).
  { split; [done|]. split; [done|]. exists (drop (length (encs its) + 1) (drop 240 p)).
    rewrite <- (take_drop (length (encs its) + 1) (drop 240 p)) at 1. rewrite Hd, <- app_assoc. done. }
  split; [done|]. split; [done|]. by eapply readable_items.
Qed.

Lemma request_deliverable s mac its :
  request_okb mac its = true → deliverable s (request mac its).
Proof.
  intros H. pose proof (request_ok mac its H) as (Hp & Hi & Hr).
  assert (E : splice zero_msg 0 (request mac its) = request mac its)
    by (apply splice_all; rewrite (rd_len _ Hr); done).
  constructor; rewrite ?E; [apply Hr|rewrite (rd_len _ Hr); lia|done|]. intros _. exists its. exact (conj Hp Hi).
Qed.

Lemma request_static s mac its : request_okb mac its = true → static_ready s (request mac its).
Proof. intros H. pose proof (request_ok mac its H) as (Hp & Hi & _). intros _. exists its. exact (conj Hp Hi). Qed.

#[global] Strategy 1000 [request].

Definition promisesb (out : list action) (y t : Z) : bool :=
  existsb (λ a, match payload a with
                | Some q => (yiaddr q =? y) && bool_decide (asked_time q = Ok (Some t))
                | None => false
                end) out.

Lemma promisesb_sound out y t : promisesb out y t = true → promises out y t.
Proof.
  unfold promisesb. rewrite existsb_exists. intros (a & Ha & H). apply list_elem_of_In in Ha.
  destruct (payload a) as [q|] eqn:E; [|done]. apply andb_true_iff in H as [H1 H2].
  apply Z.eqb_eq in H1. apply bool_decide_eq_true in H2. by exists a, q.
Qed.

(** ** The demonstration network *)

Definition demo_net : Network := λ _, 576.
#[local] Existing Instance demo_arp.
#[local] Existing Instance demo_arp_ok.
#[local] Existing Instance demo_net.

Lemma demo_sinv : sinv demo_server.
Proof.
  constructor.
  - apply demo_table_ok.
  - repeat split; vm_compute; done || constructor.
  - repeat constructor; by vm_compute.
  - intros a b Ha Hb _. cbn in Ha, Hb. apply list_elem_of_singleton in Ha, Hb. congruence.
  - intros l x Hl Hx E. cbn in Hx. apply list_elem_of_singleton in Hx as ->.
    cbn in Hl. rewrite !elem_of_cons in Hl. destruct Hl as [->|[->|[->|[->|[]%elem_of_nil]]]]; done.
  - by vm_compute.
Qed.

Definition discover_its (more : list item) : list item := Opt DHCP_MESSAGE_TYPE [DHCPDISCOVER] :: more.
Definition request_its (y : Z) (more : list item) : list item :=
  Opt DHCP_MESSAGE_TYPE [DHCPREQUEST] :: Opt DHCP_SERVER_ID (be_bytes 4 0x0A000001)
    :: Opt DHCP_REQUESTED_IP (be_bytes 4 y) :: more.

Definition state_after (r : result) : server := match r with Ok (s, _) => s | _ => demo_server end.
Definition out_of (r : result) : list action := match r with Ok (_, out) => out | _ => [] end.
Definition completes (r : result) : bool := match r with Ok _ => true | _ => false end.

Lemma completes_eq r : completes r = true → r = Ok (state_after r, out_of r).
Proof. by destruct r as [[]| |]. Qed.

Definition host3 : item := Opt DHCP_HOST_NAME [104; 111; 115; 116].
Definition ask102 : item := Opt DHCP_REQUESTED_IP (be_bytes 4 0x0A000102).
Definition disc3 : bytes := request (demo_mac 3) (discover_its [ask102; host3]).
Definition req3 : bytes := request (demo_mac 3) (request_its 0x0A000102 [host3]).
(** Client 3 discovers, and is granted the address of the expired lease. *)
Definition s_offer : server := state_after (handle_packet demo_server disc3).
Definition s_ack : server := state_after (handle_packet s_offer req3).

Example demo_offer : completes (handle_packet demo_server disc3) = true
  ∧ promisesb (out_of (handle_packet demo_server disc3)) 0x0A000102 3600 = true.
Proof. by vm_compute. Qed.
Example demo_ack : completes (handle_packet s_offer req3) = true
  ∧ promisesb (out_of (handle_packet s_offer req3)) 0x0A000102 3600 = true.
Proof. by vm_compute. Qed.

(** ** Flaws *)

(** A REQUEST with an infinite lease time. *)
Definition req3_inf : bytes := 
  request (demo_mac 3) (request_its 0x0A000102 [Opt DHCP_LEASE_TIME (be_bytes 4 0xFFFFFFFF)]).
Definition s_inf : server := state_after (handle_packet s_offer req3_inf).
(** A DISCOVER of another client for the same address, 61 seconds later. *)
Definition disc4 : bytes := 
  request (demo_mac 4) (discover_its [ask102]).

(** A client that asks for the lease time 0xFFFFFFFF is granted an infinite
    lease that the server does not record (the test for static clients is on the
    lease time, not on the client); when the entry of the offer has expired the
    address is offered to another client. *)
Theorem server_infinite_lease_unrecorded :
  find_static_lease_by_chaddr demo_server (demo_mac 3) = None
  ∧ handle_packet s_offer req3_inf = Ok (s_inf, out_of (handle_packet s_offer req3_inf))
  ∧ promises (out_of (handle_packet s_offer req3_inf)) 0x0A000102 0xFFFFFFFF
  ∧ s_inf = s_offer
  ∧ promises (out_of (handle_packet (with_now s_inf (now s_inf + 61)) disc4)) 0x0A000102 3600.
Proof.
  split; [by vm_compute|]. split; [apply completes_eq; by vm_compute|].
  split; [apply promisesb_sound; by vm_compute|]. split; [by vm_compute|].
  apply promisesb_sound. by vm_compute.
Qed.

Definition req9 : bytes := 
  request (demo_mac 9) (request_its 0x0A000103 [Opt DHCP_LEASE_TIME (be_bytes 4 600)]).
Definition s_static : server := state_after (handle_packet demo_server req9).
(** The same client after a restart: no server identifier. *)
Definition reboot9 : bytes :=
  request (demo_mac 9) [Opt DHCP_MESSAGE_TYPE [DHCPREQUEST]; Opt DHCP_REQUESTED_IP (be_bytes 4 0x0A000103)].

Definition sent (out : list action) : bytes := default [] (head out ≫= payload).

(** The infinite lease of a static client is an option appended behind the
    client's own: one that asks for 600 seconds is granted 600 seconds and entered
    in the table of dynamic leases.  A static client that names no server, as
    after a restart, is refused its own address with a NAK. *)
Theorem static_client_flaws :
  find_static_lease_by_chaddr demo_server (demo_mac 9) ≠ None
  ∧ promises (out_of (handle_packet demo_server req9)) 0x0A000103 600
  ∧ holds s_static (demo_mac 9) 0x0A000103
  ∧ completes (handle_packet demo_server reboot9) = true
  ∧ typed (sent (out_of (handle_packet demo_server reboot9))) DHCPNAK.
Proof.
  split; [by vm_compute|]. split; [apply promisesb_sound; by vm_compute|]. split.
  { exists (default zero_lease (leases s_static !! 2%nat)). split; [|by vm_compute].
    apply (list_elem_of_lookup_2 _ 2). by vm_compute. }
  split; [by vm_compute|]. exists 242%nat. split; by vm_compute.
Qed.

(** ** Witnesses *)

Lemma disc3_ok : request_okb (demo_mac 3) (discover_its [ask102; host3]) = true.
Proof. by vm_compute. Qed.
Lemma req3_ok : request_okb (demo_mac 3) (request_its 0x0A000102 [host3]) = true.
Proof. by vm_compute. Qed.
Lemma disc4_ok :
  request_okb (demo_mac 4) (discover_its [ask102]) = true.
Proof. by vm_compute. Qed.

(** The state after a message satisfies the invariant. *)
Lemma state_after_sinv s mac its :
  sinv s → request_okb mac its = true → sinv (state_after (handle_packet s (request mac its))).
Proof.
  intros Hs Hk. pose proof (request_ok _ _ Hk) as (_ & _ & Hr).
  destruct (handle_packet_spec s _ Hs Hr (request_static s mac its Hk)) as (s' & out & E & He).
  rewrite E. cbn [state_after]. exact (evolves_sinv _ _ _ Hs (ef_evolves _ _ _ _ Hs He)).
Qed.

Lemma s_offer_sinv : sinv s_offer.
Proof. exact (state_after_sinv _ _ _ demo_sinv disc3_ok). Qed.
Lemma s_ack_sinv : sinv s_ack.
Proof. exact (state_after_sinv _ _ _ s_offer_sinv req3_ok). Qed.


Lemma server_offer_correct_witness :
  ∃ s' out, handle_packet demo_server disc3 = Ok (s', out) ∧ out ≠ [].
Proof.
  pose proof (request_ok _ _ disc3_ok) as (_ & _ & Hr).
  assert (Ht : typed disc3 DHCPDISCOVER) by (exists 242%nat; split; by vm_compute).
  destruct (server_offer_correct demo_server disc3 demo_sinv Hr Ht) as (s' & out & E & _).
  exists s', out. split; [done|]. intros ->.
  assert (H : length (out_of (handle_packet demo_server disc3)) = 1%nat) by (by vm_compute).
  by rewrite E in H.
Defined.

Lemma server_acks_own_witness : asks s_offer req3 0x0A000102 ∧ holds s_offer (chaddr req3) 0x0A000102.
Proof.
  pose proof (request_ok _ _ req3_ok) as (_ & _ & Hr).
  assert (Ht : typed req3 DHCPREQUEST) by (exists 242%nat; split; by vm_compute).
  assert (E : handle_packet s_offer req3 = Ok (s_ack, out_of (handle_packet s_offer req3)))
    by (apply completes_eq; by vm_compute).
  assert (Hp : promises (out_of (handle_packet s_offer req3)) 0x0A000102 3600)
    by (apply promisesb_sound; by vm_compute).
  destruct (server_acks_own s_offer req3 s_ack _ _ _ s_offer_sinv Hr (request_static _ _ _ req3_ok) Ht E Hp)
    as (Ha & Hh & _).
  split; [exact Ha|]. destruct Hh as [Hh|(t & Ht' & _)]; [exact Hh|].
  exfalso. revert Ht'. by vm_compute.
Defined.

(** The entry of client 3 after its ACK, and the turn in which client 4 asks for
    the same address. *)
Definition index3 : nat := match find_lease_by_chaddr s_ack (demo_mac 3) with Some (i, _) => i | None => 99 end.
Definition lease3 : offered := default zero_lease (leases s_ack !! index3).
Definition out4 : list action := out_of (handle_packet s_ack disc4).
Definition s4 : server := state_after (handle_packet s_ack disc4).

Lemma lease3_at : leases s_ack !! index3 = Some lease3 ∧ l_chaddr lease3 = demo_mac 3
  ∧ l_yiaddr lease3 = 0x0A000102 ∧ now s4 <= l_expires lease3.
Proof. split; [|split; [|split]]; by vm_compute. Qed.
Lemma mac3_nonblank : is_blank (demo_mac 3) = false.
Proof. by vm_compute. Qed.

Lemma disc4_other : from_other (demo_mac 3) (Message (Some disc4)).
Proof. by vm_compute. Qed.

Lemma round4_eq : server_round s_ack 0 (Message (Some disc4)) = Ok (Some (s4, 0), out4).
Proof. vm_compute. reflexivity. Qed.

Lemma server_isolates_witness : leases s4 !! index3 = Some lease3.
Proof.
  destruct lease3_at as (Hl & Hc & _ & He).
  assert (Hrun : run (demo_mac 3) s_ack s4).
  { apply (run_turn _ _ s_ack (Message (Some disc4)) 0 s4 0 out4);
      [apply run_refl|exact (request_deliverable s_ack _ _ disc4_ok)|exact disc4_other|exact round4_eq]. }
  exact (proj1 (server_isolates _ _ _ _ _ s_ack_sinv Hrun mac3_nonblank Hl Hc He)).
Defined.

(** Client 4 asks for the address of client 3, and is offered another one. *)
Lemma server_no_double_allocation_witness :
  promises out4 0x0A000104 3600 ∧ l_yiaddr lease3 ≠ 0x0A000104.
Proof.
  assert (Hp : promises out4 0x0A000104 3600) by (apply promisesb_sound; by vm_compute).
  split; [exact Hp|]. destruct lease3_at as (Hl & Hc & Hy & He).
  assert (H0 : l_yiaddr lease3 ≠ 0) by (by rewrite Hy).
  exact (server_no_double_allocation (demo_mac 3) s_ack s_ack s4 index3 lease3 (Message (Some disc4)) 0 0
    out4 0x0A000104 3600 s_ack_sinv Hl Hc mac3_nonblank
    (run_refl _ _) (request_deliverable s_ack _ _ disc4_ok) disc4_other round4_eq Hp He H0).
Defined.
