(* ===== verification/DhcpFiles.v ===== *)
(** * The files of the DHCP server (progs.gpl/udhcpcd: files.c)

    The configuration file and the file of leases.  C strings live in buffers: a
    string is a position in a list of bytes, and ends at the first zero; a buffer
    without one faults.  [strtok] writes into the buffer and remembers where it
    stopped.  Name resolution is outside: [inet_aton] and [gethostbyname] are
    parameters.  [write_leases] is in DhcpServer.v. *)

From stdpp Require Import base numbers strings list.
From S2P Require Import Prelude Bytes DhcpOptions DhcpLeases DhcpServer.

(** ** Strings in buffers *)

(** [strspn] and [strcspn] on the characters of a string. *)
Fixpoint strspn (s delims : bytes) : nat :=
  match s with
  | x :: s => if is_in delims x then S (strspn s delims) else 0
  | [] => 0
  end.
Fixpoint strcspn (s delims : bytes) : nat :=
  match s with
  | x :: s => if is_in delims x then 0 else S (strcspn s delims)
  | [] => 0
  end.

(** [strtok] from the remembered position [pos]: the position of the token, the
    buffer and the new position. *)
Definition strtok (b : bytes) (pos : nat) (delims : bytes) : res (option nat * bytes * nat) :=
  s ← string_at b pos;
  let start := (pos + strspn s delims)%nat in
  s ← string_at b start;
  if decide (s = []) then mret (None, b, start)
  else
    let stop := (start + strcspn s delims)%nat in
    c ← byte_at b stop;
    if c =? 0 then mret (Some start, b, stop)
    else b ← write_at b stop [0]; mret (Some start, b, S stop).

(** ** [strtoul] and [strtol] with base 0 *)

Definition digit_value (c : Z) : Z :=
  if isdigit c then c - 48
  else if (97 <=? lower c) && (lower c <=? 122) then lower c - 87 else 99.

(** The digits of a number in [base], and the rest. *)
Fixpoint digits (base acc : Z) (s : bytes) : Z * bytes :=
  match s with
  | c :: s' => if digit_value c <? base then digits base (acc * base + digit_value c) s' else (acc, s)
  | [] => (acc, [])
  end.

(** Sign, magnitude and rest; the whole string is the rest when there is no number. *)
Definition number_base0 (s : bytes) : bool * Z * bytes :=
  let t := drop (strspn s [32; 9; 10; 11; 12; 13]) s in
  let neg := hd 0 t =? 45 in
  let t := if is_in [43; 45] (hd 0 t) then tail t else t in
  let hex := (hd 0 t =? 48) && (lower (hd 0 (tail t)) =? 120) && (digit_value (hd 0 (drop 2 t)) <? 16) in
  let '(v, rest) :=
    if hex then digits 16 0 (drop 2 t)
    else if isdigit (hd 0 t) then digits (if hd 0 t =? 48 then 8 else 10) 0 t
    else (0, s) in
  (neg, v, rest).

(** The value and the characters from [endptr] on; [long] has 32 bits. *)
Definition strtoul (s : bytes) : Z * bytes :=
  let '(neg, v, rest) := number_base0 s in
  (if 0xFFFFFFFF <? v then 0xFFFFFFFF else if neg : bool then u32 (- v) else v, rest).
Definition strtol (s : bytes) : Z * bytes :=
  let '(neg, v, rest) := number_base0 s in
  let v := if neg : bool then - v else v in
  (if 0x7FFFFFFF <? v then 0x7FFFFFFF else if v <? -0x80000000 then -0x80000000 else v, rest).

(** ** The configuration as variables of the keywords *)

Inductive var : Type :=
| V_start | V_end | V_interface | V_options | V_max_leases | V_remaining | V_auto_time
| V_decline_time | V_conflict_time | V_offer_time | V_min_lease | V_lease_file | V_pidfile
| V_notify_file | V_siaddr | V_sname | V_boot_file | V_none.

#[export] Instance var_eq_dec : EqDecision var.
Proof. solve_decision. Defined.

Definition pick {A} (v w : var) (new old : A) : A := if decide (v = w) then new else old.

(** [*dest = x] for the variable of a keyword that is a number. *)
Definition store_num (v : var) (x : Z) (c : server_config) : server_config :=
  mk_config (c_server c) (pick v V_start x (c_start c)) (pick v V_end x (c_end c)) (c_options c)
    (c_interface c) (c_ifindex c) (c_arp c) (c_lease c) (pick v V_max_leases x (c_max_leases c))
    (pick v V_remaining x (c_remaining c)) (pick v V_auto_time x (c_auto_time c))
    (pick v V_decline_time x (c_decline_time c)) (pick v V_conflict_time x (c_conflict_time c))
    (pick v V_offer_time x (c_offer_time c)) (pick v V_min_lease x (c_min_lease c))
    (c_lease_file c) (c_pidfile c) (c_notify_file c) (pick v V_siaddr x (c_siaddr c)) (c_sname c)
    (c_boot_file c).

(** The same for strings. *)
Definition store_str (v : var) (x : bytes) (c : server_config) : server_config :=
  mk_config (c_server c) (c_start c) (c_end c) (c_options c) (pick v V_interface (Some x) (c_interface c))
    (c_ifindex c) (c_arp c) (c_lease c) (c_max_leases c) (c_remaining c) (c_auto_time c)
    (c_decline_time c) (c_conflict_time c) (c_offer_time c) (c_min_lease c)
    (pick v V_lease_file (Some x) (c_lease_file c)) (pick v V_pidfile (Some x) (c_pidfile c))
    (pick v V_notify_file (Some x) (c_notify_file c)) (c_siaddr c) (pick v V_sname (Some x) (c_sname c))
    (pick v V_boot_file (Some x) (c_boot_file c)).

Definition store_options (l : option_set) (c : server_config) : server_config :=
  mk_config (c_server c) (c_start c) (c_end c) l (c_interface c) (c_ifindex c) (c_arp c) (c_lease c)
    (c_max_leases c) (c_remaining c) (c_auto_time c) (c_decline_time c) (c_conflict_time c)
    (c_offer_time c) (c_min_lease c) (c_lease_file c) (c_pidfile c) (c_notify_file c) (c_siaddr c)
    (c_sname c) (c_boot_file c).

(** What the handlers change: the configuration, the static leases and the
    [index] of [read_static]. *)
Record fstate := mk_fstate
  { f_cfg : server_config; f_static : list offered; f_index : nat }.

Definition with_cfg (st : fstate) c := mk_fstate c (f_static st) (f_index st).

(** What [main] has zeroed before: [server_config] and [static_leases]. *)
Definition zero_config : server_config :=
  mk_config 0 0 0 [] None 0 (replicate 6 0) 0 0 0 0 0 0 0 0 None None None 0 None None.
Definition start_state : fstate := mk_fstate zero_config (replicate MAX_STATIC_LEASES zero_lease) 0.

(** ** The handlers *)

Class Hosts := { inet_aton : bytes → option Z; gethostbyname : bytes → option Z }.

(** The result of a handler, the buffer after it and the state. *)
Definition handled := res (Z * bytes * fstate).

Section hosts.
Context `{Hosts}.

(** [None] when [read_ip] returns 0. *)
Definition read_ip (line : bytes) : option Z :=
  match inet_aton line with
  | Some a => Some a
  | None => gethostbyname line
  end.

Definition read_u32 (line : bytes) : Z * Z :=
  let '(v, rest) := strtoul line in (v, if decide (rest = []) then 1 else 0).

Definition read_yn (line : bytes) : option Z :=
  if strcaseeq (chars "yes") line then Some 1
  else if strcaseeq (chars "no") line then Some 0 else None.

(** *** [read_opt] *)

Definition find_name (name : bytes) : option dhcp_option :=
  foldl (λ o d, if decide (chars (opt_name d) = name) then Some d else o) None options.

(** The switch of [read_opt] on the string at [val]: [retval] and the bytes in
    [buffer], and, for an address pair, the buffer and position of [strtok]. *)
Definition opt_value (o : dhcp_option) (b : bytes) (tok : nat) (val : nat)
  : res (option bytes * bytes * nat) :=
  s ← string_at b val;
  let type := Z.land (opt_flags o) TYPE_MASK in
  let ok (rest data : bytes) := if decide (rest = []) then Some data else None in
  if type =? OPTION_IP then mret (be_bytes 4 <$> read_ip s, b, tok)
  else if type =? OPTION_IP_PAIR then
    '(val2, b, tok) ← strtok b tok (chars ", " ++ [9] ++ chars "/-");
    match val2, read_ip s with
    | Some v2, Some a => s2 ← string_at b v2; mret ((λ x, be_bytes 4 a ++ be_bytes 4 x) <$> read_ip s2, b, tok)
    | _, _ => mret (None, b, tok)
    end
  else if type =? OPTION_STRING then
    mret (if decide (s = []) then None else Some (take 254 s), b, tok)
  else if type =? OPTION_BOOLEAN then mret ((λ x, [x]) <$> read_yn s, b, tok)
  else if type =? OPTION_U8 then let '(v, rest) := strtoul s in mret (ok rest [u8 v], b, tok)
  else if type =? OPTION_U16 then let '(v, rest) := strtoul s in mret (ok rest (be_bytes 2 v), b, tok)
  else if type =? OPTION_S16 then let '(v, rest) := strtol s in mret (ok rest (be_bytes 2 v), b, tok)
  else if type =? OPTION_U32 then let '(v, rest) := strtoul s in mret (ok rest (be_bytes 4 v), b, tok)
  else if type =? OPTION_S32 then let '(v, rest) := strtol s in mret (ok rest (be_bytes 4 v), b, tok)
  else mret (None, b, tok).

(** The do-while loop: [after] is [line + strlen(opt) + 1]. *)
Fixpoint opt_loop (fuel : nat) (o : dhcp_option) (b : bytes) (tok after : nat) (retval : Z)
    (l : option_set) : res (Z * bytes * option_set) :=
  match fuel with
  | O => NoFuel
  | S fuel =>
      let length := option_lengths !!! Z.to_nat (Z.land (opt_flags o) TYPE_MASK) in
      '(val, b, tok) ← (if 1 <? length then strtok b tok (chars ", " ++ [9]) else mret (Some after, b, tok));
      match val with
      | None => mret (retval, b, l)
      | Some v =>
          '(data, b, tok) ← opt_value o b tok v;
          match data with
          | None => mret (0, b, l)
          | Some d =>
              let l := attach_option l o d in
              if Z.land (opt_flags o) OPTION_LIST =? 0 then mret (1, b, l)
              else opt_loop fuel o b tok after 1 l
          end
      end
  end.

(** The loop runs once per token, or once. *)
Definition read_opt (b : bytes) (line : nat) (st : fstate) : handled :=
  '(opt, b, tok) ← strtok b line (chars " " ++ [9] ++ chars "=");
  match opt with
  | None => mret (0, b, st)
  | Some p =>
      name ← string_at b p;
      match find_name name with
      | None => mret (0, b, st)
      | Some o =>
          '(r, b, l) ← opt_loop (S (length b)) o b tok (line + length name + 1) 0 (c_options (f_cfg st));
          mret (r, b, with_cfg st (store_options l (f_cfg st)))
      end
  end.

(** *** [read_haddr] and [read_static] *)

Definition hex_digit (c : Z) : option Z :=
  if isdigit c then Some (c - 48)
  else if (97 <=? c) && (c <=? 102) then Some (c - 97 + 10)
  else if (65 <=? c) && (c <=? 70) then Some (c - 65 + 10) else None.

(** The loop of [read_haddr], [n] bytes to go: the bytes stored and what is left
    of the string. *)
Fixpoint haddr_loop (n : nat) (bufp acc : bytes) : option (bytes * bytes) :=
  match n, bufp with
  | S n, c :: bufp =>
      match hex_digit c with
      | None => None
      | Some hi =>
          let c := hd 0 bufp in
          let colon x := (x =? 58) || (x =? 45) in
          match hex_digit c with
          | None =>
              if colon c || (c =? 0) then
                let bufp := if c =? 0 then bufp else tail bufp in
                haddr_loop n (if colon (hd 0 bufp) then tail bufp else bufp) (acc ++ [hi])
              else None
          | Some lo =>
              let bufp := tail bufp in
              haddr_loop n (if colon (hd 0 bufp) then tail bufp else bufp) (acc ++ [hi * 16 + lo])
          end
      end
  | _, _ => Some (acc, bufp)
  end.

(** The sixteen bytes of [chaddr], zeroed before, when the result is 1. *)
Definition haddr_of (s : bytes) : option bytes :=
  match haddr_loop 6 s [] with
  | Some (mac, []) => if decide (length mac = 6%nat) then Some (mac ++ replicate 10 0) else None
  | _ => None
  end.

Definition read_haddr (b : bytes) (line : nat) : res (option bytes * bytes) :=
  '(p, b, _) ← strtok b line (chars ", " ++ [9]);
  match p with
  | None => Fault
  | Some p => s ← string_at b p; mret (haddr_of s, b)
  end.

Definition set_static (l : offered) (yiaddr : Z) (chaddr : bytes) : offered :=
  mk_lease chaddr yiaddr (l_expires l) (l_acked l) (l_hostname l).

Definition read_static (b : bytes) (line : nat) (st : fstate) : handled :=
  if decide (MAX_STATIC_LEASES ≤ f_index st)%nat then mret (0, b, st)
  else
    '(val, b, tok) ← strtok b line (chars ", " ++ [9]);
    match val with
    | None => Fault
    | Some v =>
        s ← string_at b v;
        let ip := read_ip s in
        '(val, b, _) ← strtok b tok (chars ", " ++ [9] ++ chars "/-");
        match val, ip with
        | Some v, Some yiaddr =>
            '(mac, b) ← read_haddr b v;
            match mac with
            | Some chaddr =>
                mret (1, b, mk_fstate (f_cfg st)
                  (alter (λ l, set_static l yiaddr chaddr) (f_index st) (f_static st)) (S (f_index st)))
            | None => mret (0, b, st)
            end
        | _, _ => mret (0, b, st)
        end
    end.

(** *** The keywords *)

Inductive handler := H_ip | H_str | H_opt | H_u32 | H_yn | H_static.
Record config_keyword := mk_keyword
  { kw_name : String.string; kw_handler : handler; kw_var : var; kw_def : String.string }.

#[local] Open Scope string_scope.
Definition keywords : list config_keyword :=
  [ mk_keyword "start" H_ip V_start "192.168.0.20";
    mk_keyword "end" H_ip V_end "192.168.0.254";
    mk_keyword "interface" H_str V_interface "eth0";
    mk_keyword "option" H_opt V_options "";
    mk_keyword "opt" H_opt V_options "";
    mk_keyword "max_leases" H_u32 V_max_leases "254";
    mk_keyword "remaining" H_yn V_remaining "yes";
    mk_keyword "auto_time" H_u32 V_auto_time "7200";
    mk_keyword "decline_time" H_u32 V_decline_time "3600";
    mk_keyword "conflict_time" H_u32 V_conflict_time "3600";
    mk_keyword "offer_time" H_u32 V_offer_time "60";
    mk_keyword "min_lease" H_u32 V_min_lease "60";
    mk_keyword "lease_file" H_str V_lease_file "/var/lib/misc/udhcpd.leases";
    mk_keyword "pidfile" H_str V_pidfile "/var/run/udhcpd.pid";
    mk_keyword "notify_file" H_str V_notify_file "";
    mk_keyword "siaddr" H_ip V_siaddr "0.0.0.0";
    mk_keyword "sname" H_str V_sname "";
    mk_keyword "boot_file" H_str V_boot_file "";
    mk_keyword "static" H_static V_none "" ].
#[local] Close Scope string_scope.

(** [handler(line, var)] *)
Definition handle (k : config_keyword) (b : bytes) (line : nat) (st : fstate) : handled :=
  match kw_handler k with
  | H_opt => read_opt b line st
  | H_static => read_static b line st
  | H_ip =>
      s ← string_at b line;
      mret match read_ip s with
           | Some a => (1, b, with_cfg st (store_num (kw_var k) a (f_cfg st)))
           | None => (0, b, st)
           end
  | H_str =>
      s ← string_at b line;
      mret (1, b, with_cfg st (store_str (kw_var k) s (f_cfg st)))
  | H_u32 =>
      s ← string_at b line;
      let '(v, ok) := read_u32 s in
      mret (ok, b, with_cfg st (store_num (kw_var k) v (f_cfg st)))
  | H_yn =>
      s ← string_at b line;
      mret match read_yn s with
           | Some a => (1, b, with_cfg st (store_num (kw_var k) a (f_cfg st)))
           | None => (0, b, st)
           end
  end.

(** [handler(def, var)]: the default is a string of its own. *)
Definition handle_default (k : config_keyword) (st : fstate) : res fstate :=
  '(_, _, st) ← handle k (chars (kw_def k) ++ [0]) 0 st; mret st.

(** The first loop of [read_config]. *)
Fixpoint set_defaults (l : list config_keyword) (st : fstate) : res fstate :=
  match l with
  | [] => mret st
  | k :: l =>
      st ← (if decide (kw_def k = EmptyString) then mret st else handle_default k st);
      set_defaults l st
  end.

(** The loop over the keywords for the token of a line. *)
Fixpoint apply_keywords (l : list config_keyword) (b : bytes) (token line : nat) (st : fstate)
  : res (bytes * fstate) :=
  match l with
  | [] => mret (b, st)
  | k :: l =>
      t ← string_at b token;
      if strcaseeq t (chars (kw_name k)) then
        '(r, b, st) ← handle k b line st;
        st ← (if r =? 0 then handle_default k st else mret st);
        apply_keywords l b token line st
      else apply_keywords l b token line st
  end.

(** Trailing white space: the length of what remains. *)
Fixpoint trimmed (s : bytes) : nat :=
  match s with
  | [] => 0
  | x :: s => match trimmed s with
              | O => if isspace x then 0 else 1
              | n => S n
              end
  end.

(** The body of the loop of [read_config] on a buffer that holds a line. *)
Definition config_line (b : bytes) (st : fstate) : res (bytes * fstate) :=
  s ← string_at b 0;
  let nl := strcspn s [10] in
  b ← (if decide (nl < length s)%nat then write_at b nl [0] else mret b);
  s ← string_at b 0;
  let token := strspn s (chars " " ++ [9]) in
  let s := drop token s in
  if decide (s = []) then mret (b, st)
  else
    let line := strcspn s (chars " " ++ [9] ++ chars "=") in
    if decide (length s ≤ line)%nat then mret (b, st)
    else
      b ← write_at b (token + line) [0];
      s ← string_at b (token + line + 1);
      let skip := strspn s (chars " " ++ [9] ++ chars "=") in
      let start := (token + line + 1 + skip)%nat in
      s ← string_at b start;
      b ← write_at b (start + trimmed s) [0];
      apply_keywords keywords b token start st.

(** [fgets(buffer, 80, in)]: what is read and what is left of the file. *)
Definition fgets_split (file : bytes) : bytes * bytes :=
  let n := Nat.min 79 (S (strcspn file [10])) in (take n file, drop n file).

Fixpoint config_lines (fuel : nat) (file b : bytes) (st : fstate) : res fstate :=
  match file with
  | [] => mret st
  | _ =>
      match fuel with
      | O => NoFuel
      | S fuel =>
          let '(l, rest) := fgets_split file in
          b ← write_at b 0 (l ++ [0]);
          '(b, st) ← config_line b st;
          config_lines fuel rest b st
      end
  end.

(** [read_config]: [file] is [None] when it cannot be opened, [junk] what the
    buffer holds at first.  Every turn reads at least one byte. *)
Definition read_config (file : option bytes) (junk : bytes) (st : fstate) : res (Z * fstate) :=
  st ← set_defaults keywords st;
  match file with
  | None => mret (0, st)
  | Some f => st ← config_lines (length f) f junk st; mret (1, st)
  end.
End hosts.

(** ** [read_leases] *)

(** A record of the file: [struct dhcpOfferedAddr]. *)
Definition LEASE_SIZE : nat := 92.
Definition lease_of (r : bytes) : offered :=
  mk_lease (slice r 0 16) (get32 r 16) (get32 r 20) (get32 r 24) (slice r 28 64).

(** The search of the static leases for the client or the address of a record. *)
Fixpoint matched (t : list offered) (l : offered) : bool :=
  match t with
  | [] => false
  | x :: t =>
      if l_yiaddr x =? 0 then false
      else bool_decide (l_chaddr l = l_chaddr x) || (l_yiaddr x =? l_yiaddr l) || matched t l
  end.

(** One record: the state, and whether the loop goes on and counts it. *)
Definition read_lease (s : server) (l : offered) : server * option bool :=
  if (c_start (cfg s) <=? l_yiaddr l) && (l_yiaddr l <=? c_end (cfg s)) && negb (l_acked l =? 0)
     && negb (matched (static_leases s) l)
  then
    let expires := if c_remaining (cfg s) =? 0 then u32 (l_expires l - now s) else l_expires l in
    match add_lease s (l_chaddr l) (l_yiaddr l) expires (Some (l_hostname l)) with
    | (Some i, s) => (with_leases s (alter set_acked i (leases s)), Some true)
    | (None, s) => (s, None)
    end
  else (s, Some false).

Fixpoint read_leases_loop (fuel : nat) (file : bytes) (i : Z) (s : server) : res server :=
  if (i <? c_max_leases (cfg s)) && (Z.of_nat LEASE_SIZE <=? Z.of_nat (length file)) then
    match fuel with
    | O => NoFuel
    | S fuel =>
        match read_lease s (lease_of (take LEASE_SIZE file)) with
        | (s, None) => mret s
        | (s, Some counted) =>
            read_leases_loop fuel (drop LEASE_SIZE file) (if counted : bool then i + 1 else i) s
        end
    end
  else mret s.

(** Every turn consumes a record. *)
Definition read_leases (file : option bytes) (s : server) : res server :=
  match file with
  | None => mret s
  | Some f => read_leases_loop (length f) f 0 s
  end.
