(* ===== verification/DhcpFilesProps.v ===== *)
(** * The files of the DHCP server: the theorems

    Hardware addresses and the file of leases read back what was written; reading
    a configuration stops on every file; a malformed static lease is fatal. *)

From stdpp Require Import base numbers sets strings list.
From S2P Require Import Prelude Bytes DhcpOptions DhcpOptionsProps DhcpLeases DhcpLeasesProps DhcpServer DhcpFiles.

#[global] Arguments attach_option : simpl never.

(** ** Hardware addresses *)

Definition hex_char (v : Z) : Z := if v <? 10 then 48 + v else 87 + v.
Definition hex2 (x : Z) : bytes := [hex_char (x / 16); hex_char (x `mod` 16)].

(** A hardware address in text, the bytes separated by [sep]. *)
Fixpoint print_mac (sep : bytes) (mac : bytes) : bytes :=
  match mac with
  | [] => []
  | [x] => hex2 x
  | x :: mac => hex2 x ++ sep ++ print_mac sep mac
  end.

Definition separator (sep : bytes) : Prop := sep = [] ∨ sep = [58] ∨ sep = [45].

Lemma hex_char_digit v : 0 ≤ v < 16 → hex_digit (hex_char v) = Some v.
Proof.
  intros H. assert (v ∈ seqZ 0 16) as Hv by (apply elem_of_seqZ; lia). revert v Hv H.
  apply (Forall_forall (λ v, 0 ≤ v < 16 → hex_digit (hex_char v) = Some v) (seqZ 0 16)).
  repeat (constructor; [done|]). constructor.
Qed.

Lemma hex_char_other v : 0 ≤ v < 16 → (hex_char v =? 58) || (hex_char v =? 45) = false.
Proof.
  intros H. unfold hex_char. apply orb_false_iff. rewrite !Z.eqb_neq. destruct (Z.ltb_spec v 10); lia.
Qed.

Lemma print_mac_head sep x mac :
  is_u8 x → ∃ v rest, print_mac sep (x :: mac) = hex_char v :: rest ∧ 0 ≤ v < 16.
Proof.
  unfold is_u8. intros Hx. exists (x / 16).
  destruct mac as [|y mac]; (eexists; split; [reflexivity|]);
    (split; [apply Z.div_pos; lia|apply Z.div_lt_upper_bound; lia]).
Qed.

Lemma haddr_loop_print sep mac acc :
  separator sep → is_bytes mac → haddr_loop (length mac) (print_mac sep mac) acc = Some (acc ++ mac, []).
Proof.
  intros Hsep. revert acc. induction mac as [|x mac IH]; intros acc Hb; [by rewrite app_nil_r|].
  apply Forall_cons in Hb as [Hx Hb]. pose proof Hx as Hx'. unfold is_u8 in Hx'.
  assert (Hhi : 0 ≤ x / 16 < 16) by (split; [apply Z.div_pos; lia|apply Z.div_lt_upper_bound; lia]).
  assert (Hlo : 0 ≤ x `mod` 16 < 16) by (apply Z.mod_pos_bound; lia).
  assert (Hval : x / 16 * 16 + x `mod` 16 = x) by (pose proof (Z.div_mod x 16); lia).
  destruct mac as [|y mac].
  { cbn [length print_mac hex2 haddr_loop]. rewrite hex_char_digit by done. cbn [hd tail].
    rewrite hex_char_digit by done. rewrite Hval. done. }
  change (print_mac sep (x :: y :: mac)) with (hex2 x ++ sep ++ print_mac sep (y :: mac)).
  specialize (IH (acc ++ [x]) Hb). rewrite <- app_assoc in IH.
  pose proof (print_mac_head sep y mac) as Hhd. apply Forall_cons in Hb as [Hy Hb].
  destruct (Hhd Hy) as (v & rest & Epm & Hv). rewrite Epm in IH |- *.
  change (length (x :: y :: mac)) with (S (length (y :: mac))).
  cbn [hex2 app haddr_loop]. rewrite hex_char_digit by done. cbn [hd tail].
  rewrite hex_char_digit, Hval by done.
  destruct Hsep as [->|[->| ->]]; cbn [app hd tail]; [rewrite hex_char_other by done|..]; exact IH.
Qed.

Lemma haddr_loop_length n s acc mac rest :
  haddr_loop n s acc = Some (mac, rest) →
  (length mac ≤ length acc + n)%nat ∧ (is_bytes acc → is_bytes mac).
Proof.
  assert (Hd : ∀ c v, hex_digit c = Some v → 0 ≤ v < 16).
  { intros c v. unfold hex_digit, isdigit.
    destruct (Z.leb_spec 48 c), (Z.leb_spec c 57), (Z.leb_spec 97 c), (Z.leb_spec c 102),
      (Z.leb_spec 65 c), (Z.leb_spec c 70); cbn [andb]; intros [=]; lia. }
  revert s acc. induction n as [|n IH]; intros s acc H; cbn [haddr_loop] in H.
  { injection H as <- <-. split; [lia|done]. }
  destruct s as [|c s]; [injection H as <- <-; split; [lia|done]|].
  destruct (hex_digit c) as [hi|] eqn:Ehi; [|done]. apply Hd in Ehi.
  assert (Hstep : ∀ s' v, 0 ≤ v < 256 → haddr_loop n s' (acc ++ [v]) = Some (mac, rest) →
    (length mac ≤ length acc + S n)%nat ∧ (is_bytes acc → is_bytes mac)).
  { intros s' v Hv E. apply IH in E as [E1 E2]. rewrite length_app in E1. cbn in E1. split; [lia|].
    intros Ha. apply E2. apply Forall_app. split; [done|]. constructor; [done|constructor]. }
  destruct (hex_digit (hd 0 s)) as [lo|] eqn:Elo.
  - apply Hd in Elo. eapply Hstep; [|exact H]. lia.
  - destruct (_ || _); [|done]. eapply Hstep; [|exact H]. lia.
Qed.

(** A hardware address of six bytes, printed with two digits per byte and
    separated by colons, dashes or nothing, is read back, and padded with zeros
    to the sixteen bytes of [chaddr]; whatever the text, no more than six bytes are
    stored, and an accepted address has six. *)
Theorem read_haddr_roundtrip sep mac s chaddr :
  (separator sep → is_bytes mac → length mac = 6%nat →
   haddr_of (print_mac sep mac) = Some (mac ++ replicate 10 0))
  ∧ (∀ m rest, haddr_loop 6 s [] = Some (m, rest) → (length m ≤ 6)%nat ∧ is_bytes m)
  ∧ (haddr_of s = Some chaddr → length chaddr = 16%nat ∧ is_bytes chaddr ∧ drop 6 chaddr = replicate 10 0).
Proof.
  split; [|split].
  - intros Hs Hb Hl. unfold haddr_of. rewrite <- Hl, haddr_loop_print by done. cbn [app].
    by rewrite decide_True by done.
  - intros m rest E. apply haddr_loop_length in E as [E1 E2]. cbn in E1. split; [done|]. apply E2. constructor.
  - unfold haddr_of. destruct (haddr_loop 6 s []) as [[m [|]]|] eqn:E; [|done..].
    destruct (decide (length m = 6%nat)) as [Hm|]; [|done]. intros [= <-].
    apply haddr_loop_length in E as [_ E2].
    split; [rewrite length_app, Hm; done|]. split.
    + apply Forall_app. split; [apply E2; constructor|]. repeat (constructor; [unfold is_u8; lia|]). constructor.
    + by rewrite drop_app_length'.
Qed.

Lemma read_haddr_roundtrip_witness :
  haddr_of (print_mac [58] [0; 80; 186; 1; 2; 171]) = Some ([0; 80; 186; 1; 2; 171] ++ replicate 10 0).
Proof.
  apply (read_haddr_roundtrip [58] [0; 80; 186; 1; 2; 171] [] []); [right; by left| |done].
  repeat constructor; unfold is_u8; lia.
Defined.

(** ** The file of leases *)

(** The entries that are written. *)
Definition listed (l : offered) : bool := negb (l_yiaddr l =? 0) && negb (l_acked l =? 0).

(** A host name as [add_lease] stores it. *)
Definition hostname_ok (h : bytes) : Prop := <[63%nat := 0]> (strncpy h 64) = h.

(** An entry that the file carries over a restart. *)
Record portable (c : server_config) (st : list offered) (l : offered) : Prop := {
  po_range : c_start c ≤ l_yiaddr l ≤ c_end c;
  po_static : matched st l = false;
  po_acked : l_acked l = 1;
  po_hostname : hostname_ok (l_hostname l) }.

(** The entry after the restart: a lease that has expired ends now. *)
Definition renewed (now : Z) (l : offered) : offered :=
  mk_lease (l_chaddr l) (l_yiaddr l) (Z.max now (l_expires l)) 1 (l_hostname l).

Lemma length_lease_record s l : lease_ok l → length (lease_record s l) = 92%nat.
Proof.
  intros (Hc & _ & _ & Hh). unfold lease_record. rewrite !length_app, !length_be_bytes, Hc, Hh. done.
Qed.

Definition remaining (s : server) (l : offered) : Z :=
  if lease_expired l (now s) then 0 else l_expires l - now s.

Lemma lease_of_record s l :
  lease_ok l → c_remaining (cfg s) ≠ 0 → 0 ≤ now s → l_acked l = 1 →
  lease_of (lease_record s l) = mk_lease (l_chaddr l) (l_yiaddr l) (remaining s l) 1 (l_hostname l).
Proof.
  intros (Hc & Hy & He & Hh) Hr Hn Ha. unfold lease_record.
  rewrite (proj2 (Z.eqb_neq _ _) Hr). cbn [negb]. fold (remaining s l).
  assert (Hrem : is_u32 (remaining s l)).
  { unfold remaining, lease_expired, is_u32 in *. destruct (Z.ltb_spec (l_expires l) (now s)); lia. }
  generalize dependent (remaining s l). intros r Hrem. rewrite Ha.
  set (y4 := be_bytes 4 (l_yiaddr l)). set (r4 := be_bytes 4 r). set (a4 := be_bytes 4 1).
  assert (Ly : length y4 = 4%nat) by apply length_be_bytes.
  assert (Lr : length r4 = 4%nat) by apply length_be_bytes.
  assert (La : length a4 = 4%nat) by apply length_be_bytes.
  assert (Hat : ∀ (x y z : bytes) off n, length x = off → length y = n → slice (x ++ y ++ z) off n = y).
  { intros x y z off n <- <-. unfold slice. rewrite drop_app_length. apply take_app_length. }
  unfold lease_of, get32. f_equal.
  - unfold slice. rewrite drop_0. by rewrite take_app_length'.
  - rewrite (Hat (l_chaddr l) y4) by done. unfold y4. rewrite be_val_bytes. by apply Z.mod_small.
  - rewrite (app_assoc (l_chaddr l)). rewrite (Hat (l_chaddr l ++ y4) r4) by (rewrite ?length_app; lia).
    unfold r4. rewrite be_val_bytes. by apply Z.mod_small.
  - rewrite (app_assoc (l_chaddr l)), (app_assoc (l_chaddr l ++ y4)).
    rewrite (Hat ((l_chaddr l ++ y4) ++ r4) a4) by (rewrite ?length_app; lia). unfold a4. by rewrite be_val_bytes.
  - rewrite (app_assoc (l_chaddr l)), (app_assoc (l_chaddr l ++ y4)), (app_assoc ((l_chaddr l ++ y4) ++ r4)).
    rewrite <- (app_nil_r (l_hostname l)) at 1. apply Hat; rewrite ?length_app; lia.
Qed.

(** *** Adding to a table whose last entries are unused *)

Lemma oldest_loop_live t t' k x o :
  Forall (λ l, x ≤ l_expires l) t → oldest_loop (t ++ t') k x o = oldest_loop t' (k + length t) x o.
Proof.
  intros H. revert k. induction H as [|l t Hl Ht IH]; intros k; cbn [app oldest_loop length].
  - f_equal. lia.
  - destruct (Z.ltb_spec (l_expires l) x); [lia|]. rewrite IH. f_equal. lia.
Qed.

Lemma oldest_first_unused t m now :
  Forall (λ l, now ≤ l_expires l) t → 0 < now →
  oldest_expired_lease (t ++ replicate (S m) zero_lease) now = Some (length t).
Proof.
  intros Ht Hn. unfold oldest_expired_lease. rewrite oldest_loop_live by done. cbn [replicate oldest_loop].
  change (l_expires zero_lease) with 0. destruct (Z.ltb_spec 0 now); [|lia].
  rewrite <- (app_nil_r (replicate m zero_lease)).
  rewrite oldest_loop_live by (apply Forall_replicate; cbn; lia). done.
Qed.

Lemma clear_nothing t m c y :
  Forall (λ a, clears c y a = false) t → y ≠ 0 →
  clear_lease (t ++ replicate m zero_lease) c y = t ++ replicate m zero_lease.
Proof.
  intros Ht Hy. assert (Hz : clears c y zero_lease = false).
  { unfold clears. change (l_yiaddr zero_lease) with 0.
    rewrite (proj2 (Z.eqb_neq 0 y)) by lia. rewrite andb_false_r, orb_false_r. apply andb_false_iff.
    destruct (is_blank c) eqn:Eb; [by left|right]. apply bool_decide_eq_false. intros E.
    change (l_chaddr zero_lease) with blank_chaddr in E. by rewrite <- E in Eb. }
  unfold clear_lease. rewrite fmap_app, fmap_replicate, Hz. f_equal.
  induction Ht as [|a t Ha Ht IH]; [done|]. cbn. by rewrite Ha, IH.
Qed.

Lemma add_unused s t m c y d h :
  leases s = t ++ replicate (S m) zero_lease → Forall (λ a, clears c y a = false) t → y ≠ 0 →
  Forall (λ l, now s ≤ l_expires l) t → 0 < now s → hostname_ok h →
  add_lease s c y d (Some h)
  = (Some (length t), with_leases s (t ++ mk_lease c y (u32 (now s + d)) 0 h :: replicate m zero_lease)).
Proof.
  intros Hl Hc Hy Hlive Hn Hh. unfold add_lease. rewrite Hl, clear_nothing, oldest_first_unused by done.
  do 2 f_equal. rewrite alter_app_r_alt by lia. rewrite Nat.sub_diag. cbn [replicate alter list_alter].
  unfold fill_lease. by rewrite Hh.
Qed.

Lemma read_unused s t m l r :
  leases s = t ++ replicate (S m) zero_lease →
  Forall (λ a, clears (l_chaddr l) (l_yiaddr l) a = false) t → l_yiaddr l ≠ 0 →
  Forall (λ l, now s ≤ l_expires l) t → 0 < now s → portable (cfg s) (static_leases s) l →
  c_remaining (cfg s) ≠ 0 → 0 ≤ r → now s + r < 4294967296 →
  read_lease s (mk_lease (l_chaddr l) (l_yiaddr l) r 1 (l_hostname l))
  = (with_leases s (t ++ mk_lease (l_chaddr l) (l_yiaddr l) (now s + r) 1 (l_hostname l) :: replicate m zero_lease),
     Some true).
Proof.
  intros Hl Hc Hy Hlive Hn [Hr Hm Ha Hh] Hrem Hr0 Hr1. unfold read_lease. cbn [l_yiaddr l_acked l_chaddr l_expires l_hostname].
  assert (Em : matched (static_leases s) (mk_lease (l_chaddr l) (l_yiaddr l) r 1 (l_hostname l)) = false).
  { rewrite <- Hm. clear. induction (static_leases s) as [|x st IH]; [done|]. cbn. by rewrite IH. }
  rewrite Em, (proj2 (Z.leb_le _ _) (proj1 Hr)), (proj2 (Z.leb_le _ _) (proj2 Hr)).
  change (1 =? 0) with false. cbn [negb andb]. rewrite (proj2 (Z.eqb_neq _ _) Hrem).
  rewrite (add_unused s t m) by done. rewrite u32_id by (unfold is_u32; lia). cbn [leases with_leases].
  do 2 f_equal. unfold with_leases. cbn. f_equal. rewrite alter_app_r_alt by lia. by rewrite Nat.sub_diag.
Qed.

Lemma table_ok_cons l t :
  table_ok (l :: t) → lease_ok l ∧ table_ok t ∧ Forall (λ b, clears (l_chaddr b) (l_yiaddr b) l = false) t.
Proof.
  intros [Hf Hu]. apply Forall_cons in Hf as [Hl Hf]. split; [done|]. split; [split; [done|]|].
  - intros i j a b Hi Hj Hij. apply (Hu (S i) (S j)); [done..|lia].
  - apply Forall_lookup. intros j b Hj. destruct (Hu (S j) 0%nat b l) as [Hy Hc]; [done..|].
    unfold clears. destruct (is_blank (l_chaddr b)) eqn:Eb; cbn [negb andb orb].
    + destruct (Z.eqb_spec (l_yiaddr b) 0); [done|]. cbn. apply Z.eqb_neq. intros E. by apply Hy.
    + rewrite bool_decide_false by (intros E; by apply Hc). cbn.
      destruct (Z.eqb_spec (l_yiaddr b) 0); [done|]. cbn. apply Z.eqb_neq. intros E. by apply Hy.
Qed.

(** The records of a table, as [write_leases] concatenates them. *)
Definition records (s : server) (t : list offered) : bytes :=
  concat ((λ l, if listed l then lease_record s l else []) <$> t).

Definition renewals (now : Z) (t : list offered) : list offered :=
  renewed now <$> filter (λ l, listed l = true) t.

Lemma read_records src t :
  c_remaining (cfg src) ≠ 0 → 0 < now src → table_ok t →
  Forall (λ l, listed l = true → portable (cfg src) (static_leases src) l) t → ∀ acc m s fuel i,
  cfg s = cfg src → static_leases s = static_leases src → now s = now src →
  leases s = acc ++ replicate m zero_lease → (length (renewals (now src) t) ≤ m)%nat →
  Forall (λ l, now src ≤ l_expires l) acc →
  Forall (λ b, Forall (λ a, clears (l_chaddr b) (l_yiaddr b) a = false) acc) t →
  now src < 4294967296 →
  i + Z.of_nat (length (renewals (now src) t)) ≤ c_max_leases (cfg src) →
  (length (records src t) ≤ fuel)%nat →
  read_leases_loop fuel (records src t) i s
  = Ok (with_leases s (acc ++ renewals (now src) t
      ++ replicate (m - length (renewals (now src) t)) zero_lease)).
Proof.
  intros Hrem Hn. induction t as [|l t IH]; intros Hok Hpo acc m s fuel i Hcfg Hst Hnow Hle Hm Hlive Hind Hn32 Hi Hfu.
  { cbn [renewals filter list_filter fmap list_fmap app length]. rewrite Nat.sub_0_r, <- Hle.
    assert (E : with_leases s (leases s) = s) by (by destruct s). rewrite E.
    destruct fuel; cbn [read_leases_loop records fmap list_fmap concat length];
      rewrite (proj2 (Z.leb_gt _ _)) by done; by rewrite andb_false_r. }
  apply table_ok_cons in Hok as (Hl & Hok & Hrest). apply Forall_cons in Hpo as [Hp Hpo].
  apply Forall_cons in Hind as [Hi0 Hind].
  destruct (listed l) eqn:El.
  2: { assert (E1 : records src (l :: t) = records src t) by (unfold records; cbn; by rewrite El).
       assert (E2 : renewals (now src) (l :: t) = renewals (now src) t)
         by (unfold renewals; by rewrite filter_cons_False by congruence).
       rewrite E1, E2 in *. by apply IH. }
  assert (E1 : records src (l :: t) = lease_record src l ++ records src t)
    by (unfold records; cbn; by rewrite El).
  assert (E2 : renewals (now src) (l :: t) = renewed (now src) l :: renewals (now src) t)
    by (unfold renewals; by rewrite filter_cons_True by congruence).
  rewrite E1, E2 in *. cbn [length] in Hm, Hi. specialize (Hp eq_refl).
  pose proof (length_lease_record src l Hl) as Hlen. rewrite length_app in Hfu.
  destruct m as [|m]; [lia|]. destruct fuel as [|fuel]; [lia|]. cbn [read_leases_loop].
  rewrite Hcfg, (proj2 (Z.ltb_lt _ _)) by lia. unfold LEASE_SIZE.
  rewrite (proj2 (Z.leb_le _ _)) by (rewrite length_app; lia). cbn [andb].
  rewrite take_app_length', drop_app_length' by done. rewrite (lease_of_record src l) by (try done; try lia; apply Hp).
  apply andb_true_iff in El as [Hy%negb_true_iff%Z.eqb_neq _].
  pose proof Hl as (_ & _ & He & _). unfold is_u32 in He.
  assert (Hexp : now src + remaining src l = Z.max (now src) (l_expires l) ∧ 0 ≤ remaining src l).
  { unfold remaining, lease_expired. destruct (Z.ltb_spec (l_expires l) (now src)); lia. }
  rewrite (read_unused s acc m l (remaining src l)) by (rewrite ?Hcfg, ?Hst, ?Hnow; try done; lia).
  rewrite Hnow, (proj1 Hexp). rewrite (cons_middle _ acc), app_assoc.
  rewrite (IH Hok Hpo (acc ++ [renewed (now src) l]) m _ fuel (i + 1)); try done; try lia.
  - cbn [length]. rewrite Nat.sub_succ, <- (app_assoc acc [renewed (now src) l] (renewals (now src) t ++ _)). reflexivity.
  - apply Forall_app. split; [done|]. repeat constructor. cbn. lia.
  - rewrite Forall_forall in Hind, Hrest |- *. intros b Hb. apply Forall_app. split; [by apply Hind|].
    repeat constructor. rewrite <- (Hrest b Hb). done.
Qed.

(** C35: a restart keeps the leases.  When the file holds remaining times, reading
    what [write_leases] wrote into an empty table of the same size, at the same
    time and with the same configuration, gives the granted leases in their order,
    each with its client, address, host name and remaining time (leases that had
    expired end now), followed by unused entries. *)
Theorem leases_file_roundtrip s s0
    (Hrem : c_remaining (cfg s) ≠ 0) (Hn : 0 < now s < 4294967296) (Hok : table_ok (leases s))
    (Hpo : Forall (λ l, listed l = true → portable (cfg s) (static_leases s) l) (leases s))
    (Hmax : Z.of_nat (length (leases s)) = c_max_leases (cfg s))
    (H0 : s0 = with_leases s (replicate (length (leases s)) zero_lease)) :
  read_leases (Some (write_leases s)) s0
  = Ok (with_leases s (renewals (now s) (leases s)
      ++ replicate (length (leases s) - length (renewals (now s) (leases s))) zero_lease)).
Proof.
  assert (Hlen : (length (renewals (now s) (leases s)) ≤ length (leases s))%nat).
  { unfold renewals. rewrite length_fmap. apply length_filter. }
  subst s0. unfold read_leases. change (write_leases s) with (records s (leases s)).
  rewrite (read_records s (leases s) Hrem ltac:(lia) Hok Hpo [] (length (leases s))); try done; try lia.
  by apply Forall_true.
Qed.

(** ** Reading a configuration stops *)

Definition stops {A} (r : res A) : Prop := r ≠ NoFuel.

Lemma stops_bind {A B} (m : res A) (f : A → res B) :
  stops m → (∀ a, m = Ok a → stops (f a)) → stops (m ≫= f).
Proof. unfold stops. intros Hm Hf. destruct m; cbn; [by apply Hf|done|done]. Qed.

Lemma stops_deref {A} (o : option A) : stops (deref o).
Proof. by destruct o. Qed.
Lemma stops_string_at b pos : stops (string_at b pos).
Proof. apply stops_deref. Qed.
Lemma stops_byte_at b i : stops (byte_at b i).
Proof. apply stops_deref. Qed.
Lemma stops_write_at b i s : stops (write_at b i s).
Proof. unfold write_at. by destruct (decide _). Qed.

Create HintDb stops.
#[local] Hint Resolve stops_string_at stops_byte_at stops_write_at : stops.

(** Follows the binds and branches of a program. *)
Ltac stops_steps :=
  repeat match goal with
  | |- stops (mret _) => done
  | |- stops (Ok _) => done
  | |- stops Fault => done
  | |- stops (_ ≫= _) => apply stops_bind; [solve [auto with stops]|intros ? ?]
  | |- stops (if ?c then _ else _) => destruct c
  | |- stops (match ?c with Some _ => _ | None => _ end) => destruct c
  | |- stops (let '(_, _) := ?c in _) => destruct c
  end.

Lemma stops_strtok b pos delims : stops (strtok b pos delims).
Proof. unfold strtok. stops_steps. Qed.
#[local] Hint Resolve stops_strtok : stops.

Lemma string_at_head b pos s : string_at b pos = Ok s → s ≠ [] → byte_at b pos ≠ Ok 0.
Proof.
  unfold string_at, byte_at. intros H Hs E. apply deref_Ok in H, E.
  assert (E' : drop pos b !! 0%nat = Some 0) by (by rewrite lookup_drop, Nat.add_0_r).
  destruct (drop pos b) as [|x l]; [done|]. cbn in E'. injection E' as ->. cbn in H. by injection H as <-.
Qed.

(** [strtok] goes on, inside the buffer. *)
Lemma strtok_advances b pos delims p b' pos' :
  strtok b pos delims = Ok (Some p, b', pos') →
  length b' = length b ∧ (pos < pos' ≤ length b)%nat.
Proof.
  unfold strtok. intros H. apply bind_Ok in H as (s & _ & H). apply bind_Ok in H as (s2 & Es & H).
  destruct (decide (s2 = [])) as [|Hs]; [done|]. apply bind_Ok in H as (c & Ec & H).
  set (start := (pos + strspn s delims)%nat) in *. set (stop := (start + strcspn s2 delims)%nat) in *.
  assert (Hstop : (stop < length b)%nat) by (unfold byte_at in Ec; apply deref_Ok in Ec; by apply lookup_lt_Some in Ec).
  destruct (Z.eqb_spec c 0) as [->|].
  - injection H as _ <- <-. split; [done|]. pose proof (string_at_head _ _ _ Es Hs) as Hne.
    assert (stop ≠ start) by congruence. lia.
  - apply bind_Ok in H as (b2 & E2 & H). injection H as _ <- <-. unfold write_at in E2.
    destruct (decide _) as [Hw|]; [|done]. injection E2 as <-. split; [by apply length_splice|]. lia.
Qed.

Section hosts.
Context `{Hh : Hosts}.

Lemma stops_opt_value o b tok v : stops (opt_value o b tok v).
Proof. unfold opt_value. stops_steps. Qed.
#[local] Hint Resolve stops_opt_value : stops.

Lemma strtok_length b pos delims r b' pos' :
  strtok b pos delims = Ok (r, b', pos') → length b' = length b ∧ (pos ≤ pos')%nat.
Proof.
  destruct r; [intros H; apply strtok_advances in H; lia|]. unfold strtok. intros H.
  apply bind_Ok in H as (s & _ & H). apply bind_Ok in H as (s2 & Es & H).
  destruct (decide _).
  - injection H as <- <-. split; [done|lia].
  - apply bind_Ok in H as (c & _ & H). destruct (c =? 0); [done|]. by apply bind_Ok in H as (? & _ & ?).
Qed.

Lemma opt_value_length o b tok v d b' tok' :
  opt_value o b tok v = Ok (d, b', tok') → length b' = length b ∧ (tok ≤ tok')%nat.
Proof.
  unfold opt_value. intros H. apply bind_Ok in H as (s & _ & H).
  repeat match type of H with
  | (if ?c then _ else _) = _ => destruct c
  | (let '(_, _) := ?c in _) = _ => destruct c
  | mret _ = Ok _ => injection H as _ <- <-; split; [done|lia]
  end.
  apply bind_Ok in H as ([[v2 b2] t2] & E & H). apply strtok_length in E as [E1 E2].
  destruct v2 as [v2|]; [|by injection H as _ <- <-].
  destruct (read_ip s); [|by injection H as _ <- <-].
  apply bind_Ok in H as (s2 & _ & H). by injection H as _ <- <-.
Qed.

(** An option that may be a list takes more than a byte per value. *)
Definition multi_byte (o : dhcp_option) : Prop :=
  Z.land (opt_flags o) OPTION_LIST ≠ 0 →
  1 < option_lengths !!! Z.to_nat (Z.land (opt_flags o) TYPE_MASK).

Lemma find_name_multi name o : find_name name = Some o → multi_byte o.
Proof.
  assert (H : ∀ l acc, (∀ d, acc = Some d → multi_byte d) → Forall multi_byte l →
    foldl (λ o d, if decide (chars (opt_name d) = name) then Some d else o) acc l = Some o → multi_byte o).
  { intros l. induction l as [|d l IH]; intros acc Hacc Hf Ho; [by apply Hacc|].
    apply Forall_cons in Hf as [Hd Hf]. cbn in Ho. revert Ho. apply IH; [|done].
    destruct (decide _); [by intros d' [= <-]|done]. }
  apply (H options None); [done|]. unfold options.
  repeat (constructor; [unfold multi_byte; vm_compute; congruence|]). constructor.
Qed.

Lemma stops_opt_loop fuel o b tok after r l :
  multi_byte o → (length b - tok < fuel)%nat → stops (opt_loop fuel o b tok after r l).
Proof.
  intros Ho. revert b tok r l. induction fuel as [|fuel IH]; intros b tok r l Hf; [lia|]. cbn [opt_loop].
  destruct (Z.ltb_spec 1 (option_lengths !!! Z.to_nat (Z.land (opt_flags o) TYPE_MASK))) as [Hlen|Hlen].
  - apply stops_bind; [auto with stops|]. intros [[v b1] t1] E1. destruct v as [v|]; [|done].
    apply strtok_advances in E1 as [L1 A1]. apply stops_bind; [auto with stops|].
    intros [[d b2] t2] E2. apply opt_value_length in E2 as [L2 A2]. destruct d as [d|]; [|done].
    destruct (_ =? 0); [done|]. apply IH. lia.
  - rewrite bind_ret. apply stops_bind; [auto with stops|]. intros [[d b2] t2] _. destruct d as [d|]; [|done].
    destruct (Z.eqb_spec (Z.land (opt_flags o) OPTION_LIST) 0) as [|Hl]; [done|].
    specialize (Ho Hl). lia.
Qed.

Lemma stops_read_opt b line st : stops (read_opt b line st).
Proof.
  unfold read_opt. apply stops_bind; [auto with stops|]. intros [[p b1] t1] _. destruct p as [p|]; [|done].
  apply stops_bind; [auto with stops|]. intros name _. destruct (find_name name) as [o|] eqn:Eo; [|done].
  apply stops_bind; [|by intros [[? ?] ?] _]. apply stops_opt_loop; [by eapply find_name_multi|lia].
Qed.

Lemma stops_read_haddr b line : stops (read_haddr b line).
Proof. unfold read_haddr. stops_steps. Qed.
#[local] Hint Resolve stops_read_opt stops_read_haddr : stops.

Lemma stops_handle k b line st : stops (handle k b line st).
Proof. unfold handle, read_static. destruct (kw_handler k); auto with stops; stops_steps. Qed.
#[local] Hint Resolve stops_handle : stops.

Lemma stops_handle_default k st : stops (handle_default k st).
Proof. unfold handle_default. stops_steps. Qed.
#[local] Hint Resolve stops_handle_default : stops.

Lemma stops_set_defaults l st : stops (set_defaults l st).
Proof.
  revert st. induction l as [|k l IH]; intros st; cbn [set_defaults]; [done|].
  apply stops_bind; [destruct (decide _); [done|auto with stops]|]. intros st' _. apply IH.
Qed.

Lemma stops_apply_keywords l b t line st : stops (apply_keywords l b t line st).
Proof.
  revert b st. induction l as [|k l IH]; intros b st; cbn [apply_keywords]; [done|].
  apply stops_bind; [auto with stops|]. intros s _. destruct (strcaseeq _ _); [|apply IH].
  apply stops_bind; [auto with stops|]. intros [[r b1] st1] _.
  apply stops_bind; [destruct (r =? 0); [auto with stops|done]|]. intros st2 _. apply IH.
Qed.
#[local] Hint Resolve stops_set_defaults stops_apply_keywords : stops.

Lemma stops_config_line b st : stops (config_line b st).
Proof.
  unfold config_line. apply stops_bind; [auto with stops|]. intros s _.
  apply stops_bind; [destruct (decide _); [auto with stops|done]|]. intros b1 _. stops_steps. auto with stops.
Qed.

Lemma stops_config_lines fuel file b st : (length file ≤ fuel)%nat → stops (config_lines fuel file b st).
Proof.
  revert file b st. induction fuel as [|fuel IH]; intros file b st Hf; destruct file as [|x file];
    [done|cbn in Hf; lia|done|]. cbn [config_lines fgets_split].
  apply stops_bind; [auto with stops|]. intros b1 _.
  apply stops_bind; [apply stops_config_line|]. intros [b2 st2] _. apply IH.
  rewrite length_drop. cbn [length] in *. lia.
Qed.

Lemma stops_read_config file junk st : stops (read_config file junk st).
Proof.
  unfold read_config.
  apply stops_bind; [auto with stops|]. intros st1 _. destruct file as [f|]; [|done].
  apply stops_bind; [by apply stops_config_lines|]. by intros.
Qed.
End hosts.

(** ** Concrete files *)

(** Dotted decimal addresses. *)
Fixpoint dotted (n : nat) (acc : Z) (s : bytes) : option Z :=
  let '(v, rest) := digits 10 0 s in
  if isdigit (hd 0 s) && (v <? 256) then
    match n, rest with
    | O, [] => Some (acc * 256 + v)
    | S n, 46 :: rest => dotted n (acc * 256 + v) rest
    | _, _ => None
    end
  else None.

Definition demo_hosts : Hosts := {| inet_aton := dotted 3 0; gethostbyname := λ _, None |}.
#[local] Existing Instance demo_hosts.

Definition junk80 : bytes := replicate 80 0.
Definition lines (l : list String.string) : bytes := concat ((λ s, chars s ++ [10]) <$> l).

#[local] Open Scope string_scope.
Definition good_file : bytes :=
  lines ["start 10.0.0.20"; "  end = 10.0.0.40"; "max_leases 20"; "remaining no";
         "option dns 10.0.0.1, 10.0.0.2"; "opt domain home net"; "opt lease 600"; "# comment";
         "static 10.0.0.9 00:50:ba:01:02:ab"].
Definition bad_mac : bytes := lines ["static 10.0.0.9 00:50:ba"].
Definition dash_mac : bytes := lines ["static 10.0.0.9 00-50-ba-01-02-ab"].
#[local] Close Scope string_scope.

(** A line "static" that cannot be read makes [read_config] call the handler
    on its empty default, and [read_static] passes the null pointer of [strtok] to
    [inet_aton].  Besides lines with a bad hardware address this hits every line
    with dashes in the address, which [read_haddr] accepts but the [strtok] of
    [read_static] cuts; the same address with colons is read. *)
Theorem read_config_bad_static_crashes :
  read_config (Some bad_mac) junk80 start_state = Fault
  ∧ read_config (Some dash_mac) junk80 start_state = Fault
  ∧ haddr_of (chars "00-50-ba-01-02-ab") = Some ([0; 80; 186; 1; 2; 171] ++ replicate 10 0)
  ∧ ∃ st, read_config (Some good_file) junk80 start_state = Ok (1, st)
      ∧ c_start (f_cfg st) = 0x0A000014 ∧ c_end (f_cfg st) = 0x0A000028
      ∧ c_max_leases (f_cfg st) = 20 ∧ c_remaining (f_cfg st) = 0 ∧ c_min_lease (f_cfg st) = 60
      ∧ c_options (f_cfg st) = [[6; 8; 10; 0; 0; 1; 10; 0; 0; 2]; 15 :: 8 :: chars "home net"; [51; 4; 0; 0; 2; 88]]
      ∧ head (f_static st) = Some (mk_lease ([0; 80; 186; 1; 2; 171] ++ replicate 10 0) 0x0A000009 0 0 (replicate 64 0))
      ∧ f_index st = 1%nat.
Proof.
  split; [by vm_compute|]. split; [by vm_compute|]. split; [by vm_compute|].
  eexists. split; [by vm_compute|]. by vm_compute.
Qed.

(** A table with a granted lease, an expired one and an offer. *)
Definition host_a : bytes := chars "alpha" ++ replicate 59 0.
Definition file_server : server :=
  with_leases demo_server
    [mk_lease (demo_mac 1) 0x0A000101 5000 1 host_a; mk_lease (demo_mac 2) 0x0A000102 500 1 host_a;
     mk_lease (demo_mac 4) 0x0A000104 1060 0 (replicate 64 0); zero_lease].

Lemma leases_file_roundtrip_witness :
  read_leases (Some (write_leases file_server)) (with_leases file_server (replicate 4 zero_lease))
  = Ok (with_leases file_server
      [mk_lease (demo_mac 1) 0x0A000101 5000 1 host_a; mk_lease (demo_mac 2) 0x0A000102 1000 1 host_a;
       zero_lease; zero_lease]).
Proof.
  assert (Ht : table_ok (leases file_server)) by (apply table_okb_sound; by vm_compute).
  assert (Hp : Forall (λ l, listed l = true → portable (cfg file_server) (static_leases file_server) l)
    (leases file_server)).
  { repeat (constructor; [intros H; first [by vm_compute in H|constructor; by vm_compute]|]). constructor. }
  assert (Hn : 0 < now file_server < 4294967296) by (by vm_compute).
  assert (Hr : c_remaining (cfg file_server) ≠ 0) by (by vm_compute).
  exact (leases_file_roundtrip file_server _ Hr Hn Ht Hp eq_refl eq_refl).
Defined.
