(* ===== verification/DhcpClient.v ===== *)
(** * The DHCP client (progs.gpl/udhcpcd: clientpacket.c, dhcpc.c)

    The messages the client sends, and its state machine: one turn of the loop of
    [main] on what [select] reports.  Sockets, the clock, the random numbers and
    the hook script are outside: inputs of a turn or actions in its result. *)

From stdpp Require Import base numbers strings list.
From S2P Require Import Prelude Bytes DhcpOptions DhcpPacket DhcpLeases DhcpServer DhcpFiles.

(** ** Configuration and state *)

Record client_config := mk_client_config
  { cc_quit_after_lease : bool; cc_abort_if_no_lease : bool; cc_background_if_no_lease : bool;
    cc_clientid : bytes; cc_hostname : option bytes; cc_ifindex : Z; cc_arp : bytes;
    cc_discover_delay : Z; cc_discover_retry : Z; cc_discover_sleep : Z; cc_isQuerySrv : bool }.

Inductive client_state :=
| INIT_SELECTING | REQUESTING | BOUND | RENEWING | REBINDING | INIT_REBOOT | RENEW_REQUESTED | RELEASED.
#[export] Instance client_state_eq_dec : EqDecision client_state.
Proof. solve_decision. Defined.

Inductive listen := LISTEN_NONE | LISTEN_KERNEL | LISTEN_RAW.
#[export] Instance listen_eq_dec : EqDecision listen.
Proof. solve_decision. Defined.

(** The globals of dhcpc.c and the locals of [main] that live over the turns;
    [fd_open] tells whether [fd] is a socket, [packet] is the receive buffer. *)
Record client := mk_client
  { state : client_state; requested_ip : Z; server_addr : Z; timeout : Z; packet_num : Z;
    listen_mode : listen; fd_open : bool; foreground : bool; c_xid : Z; t1 : Z; t2 : Z; start : Z;
    lease : Z; packet : bytes }.

Definition with_state (c : client) s :=
  mk_client s (requested_ip c) (server_addr c) (timeout c) (packet_num c) (listen_mode c) (fd_open c)
    (foreground c) (c_xid c) (t1 c) (t2 c) (start c) (lease c) (packet c).
Definition with_requested (c : client) r :=
  mk_client (state c) r (server_addr c) (timeout c) (packet_num c) (listen_mode c) (fd_open c)
    (foreground c) (c_xid c) (t1 c) (t2 c) (start c) (lease c) (packet c).
Definition with_server (c : client) a :=
  mk_client (state c) (requested_ip c) a (timeout c) (packet_num c) (listen_mode c) (fd_open c)
    (foreground c) (c_xid c) (t1 c) (t2 c) (start c) (lease c) (packet c).
(** [timeout] and [packet_num] *)
Definition with_timer (c : client) t n :=
  mk_client (state c) (requested_ip c) (server_addr c) t n (listen_mode c) (fd_open c)
    (foreground c) (c_xid c) (t1 c) (t2 c) (start c) (lease c) (packet c).
Definition with_listen (c : client) m o :=
  mk_client (state c) (requested_ip c) (server_addr c) (timeout c) (packet_num c) m o
    (foreground c) (c_xid c) (t1 c) (t2 c) (start c) (lease c) (packet c).
Definition with_foreground (c : client) :=
  mk_client (state c) (requested_ip c) (server_addr c) (timeout c) (packet_num c) (listen_mode c)
    (fd_open c) true (c_xid c) (t1 c) (t2 c) (start c) (lease c) (packet c).
Definition with_xid (c : client) x :=
  mk_client (state c) (requested_ip c) (server_addr c) (timeout c) (packet_num c) (listen_mode c)
    (fd_open c) (foreground c) x (t1 c) (t2 c) (start c) (lease c) (packet c).
(** [t1], [t2], [start], [lease] *)
Definition with_times (c : client) a b s l :=
  mk_client (state c) (requested_ip c) (server_addr c) (timeout c) (packet_num c) (listen_mode c)
    (fd_open c) (foreground c) (c_xid c) a b s l (packet c).
Definition with_packet (c : client) p :=
  mk_client (state c) (requested_ip c) (server_addr c) (timeout c) (packet_num c) (listen_mode c)
    (fd_open c) (foreground c) (c_xid c) (t1 c) (t2 c) (start c) (lease c) p.

(** ** clientpacket.c *)

Section messages.
Variable cfg : client_config.

(** [vendor_id]: "udhcp " and the version. *)
Definition vendor_id : bytes :=
  let str := chars "udhcp 0.9.8-pre" in DHCP_VENDOR :: Z.of_nat (length str) :: str.

Definition init_packet (type : Z) : res bytes :=
  p ← init_header type;
  p ← write_at p F_chaddr (cc_arp cfg);
  '(_, p) ← add_option_string p (cc_clientid cfg);
  p ← match cc_hostname cfg with
      | Some h => '(_, p) ← add_option_string p h; mret p
      | None => mret p
      end;
  '(_, p) ← add_option_string p vendor_id;
  mret p.

(** The codes of the options to request. *)
Definition requests : bytes :=
  opt_code <$> filter (λ o, Z.land (opt_flags o) OPTION_REQ ≠ 0) options.

Definition add_requests (p : bytes) : res bytes :=
  e ← end_option p;
  let len := length requests in
  p ← write_at p (F_options + e) [DHCP_PARAM_REQ];
  p ← write_at p (F_options + e + 2) requests;
  p ← write_at p (F_options + e + 1) [Z.of_nat len];
  write_at p (F_options + e + 2 + len) [DHCP_END].

(** [raw_packet] to everybody. *)
Definition broadcast (p : bytes) : action :=
  Raw p 0 CLIENT_PORT INADDR_BROADCAST SERVER_PORT MAC_BCAST_ADDR (cc_ifindex cfg).

Definition send_discover (xid requested : Z) : res action :=
  p ← init_packet DHCPDISCOVER;
  let p := set32 p F_xid xid in
  '(_, p) ← (if requested =? 0 then mret (0, p) else add_simple_option p DHCP_REQUESTED_IP requested);
  p ← add_requests p;
  mret (broadcast p).

Definition send_selecting (xid server requested : Z) : res action :=
  p ← init_packet DHCPREQUEST;
  let p := set32 p F_xid xid in
  '(_, p) ← add_simple_option p DHCP_REQUESTED_IP requested;
  '(_, p) ← add_simple_option p DHCP_SERVER_ID server;
  p ← add_requests p;
  mret (broadcast p).

Definition send_renew (xid server ciaddr : Z) : res action :=
  p ← init_packet DHCPREQUEST;
  let p := set32 p F_xid xid in
  let p := set32 p F_ciaddr ciaddr in
  p ← add_requests p;
  mret (if server =? 0 then broadcast p else Kernel p ciaddr CLIENT_PORT server SERVER_PORT).

(** [random] is what [random_xid] returns. *)
Definition send_release (random server ciaddr : Z) : res action :=
  p ← init_packet DHCPRELEASE;
  let p := set32 p F_xid random in
  let p := set32 p F_ciaddr ciaddr in
  '(_, p) ← add_simple_option p DHCP_REQUESTED_IP ciaddr;
  '(_, p) ← add_simple_option p DHCP_SERVER_ID server;
  mret (Kernel p ciaddr CLIENT_PORT server SERVER_PORT).

Definition send_decline (xid : Z) : res action :=
  p ← init_packet DHCPDECLINE;
  mret (broadcast (set32 p F_xid xid)).
End messages.

(** ** dhcpc.c *)

(** What the client does besides changing its state. *)
Inductive caction : Type :=
| Send (a : action)
| Script (packet : option bytes) (name : String.string)
| Print (s : String.string)
| Sleep (seconds : Z).

Inductive outcome := Running (c : client) | Exited (code : Z).
Definition turn_result := res (outcome * list caction).

Definition change_mode (c : client) (m : listen) : client := with_listen c m false.

(** [background]; the fork is disabled in the source. *)
Definition background (c : client) : client := with_foreground c.

Definition perform_renew (c : client) : client * list caction :=
  let '(c, out) :=
    match state c with
    | BOUND => (with_state (change_mode c LISTEN_RAW) RENEW_REQUESTED, [])
    | RENEWING | REBINDING => (with_state c RENEW_REQUESTED, [])
    | RENEW_REQUESTED =>
        (with_state (change_mode c LISTEN_RAW) INIT_SELECTING, [Script None "deconfig"])
    | REQUESTING | RELEASED => (with_state (change_mode c LISTEN_RAW) INIT_SELECTING, [])
    | INIT_SELECTING | INIT_REBOOT => (c, [])
    end in
  (with_timer c 0 0, out).

Definition perform_release (cfg : client_config) (random : Z) (c : client)
  : res (client * list caction) :=
  out ← (if decide (state c = BOUND ∨ state c = RENEWING ∨ state c = REBINDING)
         then a ← send_release cfg random (server_addr c) (requested_ip c);
              mret [Send a; Script None "deconfig"]
         else mret []);
  mret (with_timer (with_state (change_mode c LISTEN_NONE) RELEASED) 0x7fffffff (packet_num c), out).

(** The delay after a DISCOVER or REQUEST: a shift by 32 or more is undefined. *)
Definition retry_timeout (cfg : client_config) (c : client) (now : Z) : res Z :=
  if (0 <=? packet_num c) && (packet_num c <? 32) then
    let t := u32 (Z.shiftl (u32 (cc_discover_delay cfg)) (packet_num c)) in
    mret (u32 ((if 64 <? t then 64 else t) + now))
  else Fault.

(** The cases of the first switch: [timeout] has passed. *)

Definition timeout_selecting (cfg : client_config) (random now : Z) (c : client) : turn_result :=
  if packet_num c <? cc_discover_retry cfg then
    let c := if packet_num c =? 0 then with_xid c random else c in
    a ← send_discover cfg (c_xid c) (requested_ip c);
    t ← retry_timeout cfg c now;
    mret (Running (with_timer c t (packet_num c + 1)), [Send a])
  else if cc_isQuerySrv cfg then mret (Exited 1, [Print "no"])
  else if negb (cc_background_if_no_lease cfg) && cc_abort_if_no_lease cfg then mret (Exited 1, [])
  else
    let c := if cc_background_if_no_lease cfg then background c else c in
    if cc_discover_sleep cfg =? 0 then mret (Exited 1, [])
    else mret (Running (with_timer c (u32 (now + cc_discover_sleep cfg)) 0), []).

Definition timeout_requesting (cfg : client_config) (now : Z) (c : client) : turn_result :=
  let renew := bool_decide (state c = RENEW_REQUESTED) in
  if packet_num c <? cc_discover_retry cfg then
    a ← (if renew then send_renew cfg (c_xid c) (server_addr c) (requested_ip c)
         else send_selecting cfg (c_xid c) (server_addr c) (requested_ip c));
    t ← retry_timeout cfg c now;
    mret (Running (with_timer c t (packet_num c + 1)), [Send a])
  else
    let out := if renew then [Script None "deconfig"] else [] in
    if cc_discover_sleep cfg =? 0 then mret (Exited 1, out)
    else mret (Running (change_mode (with_timer (with_state c INIT_SELECTING) now 0) LISTEN_RAW), out).

Definition timeout_renewing (cfg : client_config) (now : Z) (c : client) : turn_result :=
  if u32 (t2 c - t1 c) <=? lease c / 14400 + 1 then
    mret (Running (with_timer (with_state c REBINDING) (u32 (now + (t2 c - t1 c))) (packet_num c)), [])
  else
    a ← send_renew cfg (c_xid c) (server_addr c) (requested_ip c);
    let t1' := u32 (u32 (t2 c - t1 c) / 2 + t1 c) in
    mret (Running (with_timer (with_times c t1' (t2 c) (start c) (lease c)) (u32 (t1' + start c))
                     (packet_num c)), [Send a]).

Definition timeout_rebinding (cfg : client_config) (now : Z) (c : client) : turn_result :=
  if u32 (lease c - t2 c) <=? lease c / 14400 + 1 then
    mret (Running (change_mode (with_timer (with_state c INIT_SELECTING) now 0) LISTEN_RAW),
          [Script None "deconfig"])
  else
    a ← send_renew cfg (c_xid c) 0 (requested_ip c);
    let t2' := u32 (u32 (lease c - t2 c) / 2 + t2 c) in
    mret (Running (with_timer (with_times c (t1 c) t2' (start c) (lease c)) (u32 (t2' + start c))
                     (packet_num c)), [Send a]).

Definition on_timeout (cfg : client_config) (random now : Z) (c : client) : turn_result :=
  match state c with
  | INIT_SELECTING => timeout_selecting cfg random now c
  | RENEW_REQUESTED | REQUESTING => timeout_requesting cfg now c
  | BOUND => timeout_renewing cfg now (change_mode (with_state c RENEWING) LISTEN_RAW)
  | RENEWING => timeout_renewing cfg now c
  | REBINDING => timeout_rebinding cfg now c
  | RELEASED => mret (Running (with_timer c 0x7fffffff (packet_num c)), [])
  | INIT_REBOOT => mret (Running c, [])
  end.


(** *** Packets *)

(** [get_packet] or [get_raw_packet], into the buffer of [main]. *)
Definition receive (c : client) (data : option bytes) : res (Z * bytes) :=
  if decide (listen_mode c = LISTEN_KERNEL) then get_packet data else get_raw_packet (packet c) data.

(** In INIT_SELECTING: an offer, [p] is the buffer and [type] the message type. *)
Definition packet_selecting (cfg : client_config) (now type : Z) (c : client) : turn_result :=
  let p := packet c in
  if type =? DHCPOFFER then
    temp ← get_option p DHCP_SERVER_ID;
    match temp with
    | Some ptr =>
        if cc_isQuerySrv cfg then mret (Exited 0, [Print "yes"])
        else
          server ← read32 p ptr;
          mret (Running (with_timer (with_state (with_requested (with_xid (with_server c server)
                  (xid p)) (yiaddr p)) REQUESTING) now 0), [])
    | None => mret (Running c, [])
    end
  else mret (Running c, []).

(** The lease time of an ACK. *)
Definition lease_of_ack (p : bytes) : res Z :=
  temp ← get_option p DHCP_LEASE_TIME;
  match temp with
  | None => mret (60 * 60)
  | Some ptr => read32 p ptr
  end.

Definition enter_bound (cfg : client_config) (now : Z) (c : client) : turn_result :=
  let p := packet c in
  lease ← lease_of_ack p;
  let t1 := lease / 2 in
  let t2 := Z.shiftr (u32 (lease * 7)) 3 in
  let c' := with_requested (with_timer (with_times c t1 t2 (u32 now) lease) (u32 (t1 + u32 now))
             (packet_num c)) (yiaddr p) in
  let out := [Script (Some p) (if decide (state c = RENEWING ∨ state c = REBINDING)
                               then "renew" else "bound")] in
  let c' := change_mode (with_state c' BOUND) LISTEN_NONE in
  if cc_quit_after_lease cfg then mret (Exited 0, out)
  else mret (Running (if foreground c then c' else background c'), out).

Section receive.
Context `{ArpPing}.

Definition packet_ack (cfg : client_config) (now : Z) (c : client) : turn_result :=
  let p := packet c in
  if bool_decide (state c = REQUESTING) && (fst (arpping (yiaddr p) now) =? 0) then
    a ← send_decline cfg (c_xid c);
    mret (Running (with_timer (with_requested (with_state c INIT_SELECTING) 0) now 0),
          [Send a; Sleep 3])
  else enter_bound cfg now c.

Definition packet_nak (now : Z) (c : client) : outcome * list caction :=
  (Running (change_mode (with_timer (with_requested (with_state c INIT_SELECTING) 0) now 0) LISTEN_RAW),
   [Script (Some (packet c)) "nak"]
     ++ (if decide (state c = REQUESTING) then [] else [Script None "deconfig"]) ++ [Sleep 3]).

(** The second switch; the buffer holds the message. *)
Definition on_packet (cfg : client_config) (now type : Z) (c : client) : turn_result :=
  match state c with
  | INIT_SELECTING => packet_selecting cfg now type c
  | RENEW_REQUESTED | REQUESTING | RENEWING | REBINDING =>
      if type =? DHCPACK then packet_ack cfg now c
      else if type =? DHCPNAK then mret (packet_nak now c)
      else mret (Running c, [])
  | BOUND | RELEASED | INIT_REBOOT => mret (Running c, [])
  end.

(** [eintr]: whether [errno] is EINTR after the read. *)
Definition handle_ready (cfg : client_config) (now : Z) (data : option bytes) (eintr : bool)
    (c : client) : turn_result :=
  '(len, p) ← receive c data;
  let c := with_packet c p in
  let c := if (len =? -1) && negb eintr then change_mode c (listen_mode c) else c in
  if len <? 0 then mret (Running c, [])
  else if negb (xid p =? c_xid c) then mret (Running c, [])
  else
    message ← get_option p DHCP_MESSAGE_TYPE;
    match message with
    | None => mret (Running c, [])
    | Some ptr => type ← byte_at p ptr; on_packet cfg now type c
    end.

(** *** The loop of [main] *)

Inductive client_signal := USR1 | USR2 | TERM.

(** What [select] and the read that follows it deliver; [None] for a failed read
    of the signal pipe. *)
Inductive event : Type :=
| Quiet
| Ready (data : option bytes) (eintr : bool)
| Signal (s : option client_signal)
| SelectFails.

(** The surroundings of a turn: whether a socket can be opened, a random number, the
    time before and after [select]. *)
Record weather := mk_weather { opens : bool; random : Z; now0 : Z; now1 : Z }.

Definition handle_signal (cfg : client_config) (w : weather) (s : client_signal) (c : client)
  : turn_result :=
  match s with
  | USR1 => let '(c, out) := perform_renew c in mret (Running c, out)
  | USR2 => '(c, out) ← perform_release cfg (random w) c; mret (Running c, out)
  | TERM => mret (Exited 0, [])
  end.

Definition client_turn (cfg : client_config) (w : weather) (e : event) (c : client) : turn_result :=
  let reopen := negb (bool_decide (listen_mode c = LISTEN_NONE)) && negb (fd_open c) in
  if reopen && negb (opens w) then mret (Exited 0, [])
  else
    let c := if reopen then with_listen c (listen_mode c) true else c in
    match (if s32 (timeout c - now0 w) <=? 0 then Quiet else e) with
    | Quiet => on_timeout cfg (random w) (now1 w) c
    | Ready data eintr =>
        if decide (listen_mode c = LISTEN_NONE) then mret (Running c, [])
        else handle_ready cfg (now1 w) data eintr c
    | Signal (Some s) => handle_signal cfg w s c
    | Signal None | SelectFails => mret (Running c, [])
    end.
End receive.

(** The start of [main]: [requested] is the address of the option -r; the
    buffer and [lease] are not initialised. *)
Definition client_start (cfg : client_config) (fg : bool) (requested now lease : Z) (buffer : bytes)
  : client * list caction :=
  (mk_client INIT_SELECTING requested 0 now 0 LISTEN_RAW false fg 0 0 0 0 lease buffer,
   if cc_isQuerySrv cfg then [] else [Script None "deconfig"]).

(** *** The command line *)

(** The options of [getopt_long], with [optarg] as a C string; the values of
    [inet_addr] and [atoi] are given. *)
Inductive carg : Type :=
| Arg_clientid (optarg : bytes) | Arg_foreground | Arg_background | Arg_hostname (optarg : bytes)
| Arg_now | Arg_quit | Arg_request (addr : Z) | Arg_queryserver
| Arg_delay (n : Z) | Arg_retry (n : Z) | Arg_sleep (n : Z).

(** [xmalloc(len + 2)], filled; [data] is what is stored behind the length first. *)
Definition fill_arg (code : Z) (optarg : bytes) (data : bytes) : res bytes :=
  let len := if (255 <? length (c_str optarg))%nat then 255%nat else length (c_str optarg) in
  b ← write_at (replicate (len + 2) 0) 0 ([code; Z.of_nat len] ++ data);
  write_at b 2 (strncpy optarg len).

Record command := mk_command { cmd_cfg : client_config; cmd_clientid : option bytes; cmd_foreground : bool; cmd_requested : Z }.

Definition apply_carg (s : command) (a : carg) : res command :=
  let '(mk_command (mk_client_config q n b id h i arp delay retry slp query) cid fg req) := s in
  match a with
  | Arg_clientid o =>
      d ← fill_arg DHCP_CLIENT_ID o [0];
      mret (mk_command (mk_client_config q n b id h i arp delay retry slp query) (Some d) fg req)
  | Arg_foreground => mret (mk_command (cmd_cfg s) cid true req)
  | Arg_background => mret (mk_command (mk_client_config q n true id h i arp delay retry slp query) cid fg req)
  | Arg_hostname o =>
      d ← fill_arg DHCP_HOST_NAME o [];
      mret (mk_command (mk_client_config q n b id (Some d) i arp delay retry slp query) cid fg req)
  | Arg_now => mret (mk_command (mk_client_config q true b id h i arp delay retry slp query) cid fg req)
  | Arg_quit => mret (mk_command (mk_client_config true n b id h i arp delay retry slp query) cid fg req)
  | Arg_request r => mret (mk_command (cmd_cfg s) cid fg r)
  | Arg_queryserver => mret (mk_command (mk_client_config q n b id h i arp 2 2 0 true) cid fg req)
  | Arg_delay v => mret (mk_command (mk_client_config q n b id h i arp v retry slp query) cid fg req)
  | Arg_retry v => mret (mk_command (mk_client_config q n b id h i arp delay v slp query) cid fg req)
  | Arg_sleep v => mret (mk_command (mk_client_config q n b id h i arp delay retry v query) cid fg req)
  end.

Fixpoint apply_cargs (s : command) (l : list carg) : res command :=
  match l with
  | [] => mret s
  | a :: l => s ← apply_carg s a; apply_cargs s l
  end.

(** The default client identifier: the hardware address. *)
Definition default_clientid (arp : bytes) : bytes := [DHCP_CLIENT_ID; 7; 1] ++ arp.

(** The configuration after the command line, for the interface [ifindex], [arp]. *)
Definition client_setup (l : list carg) (ifindex : Z) (arp : bytes) : res command :=
  '(mk_command k cid fg req) ← apply_cargs
      (mk_command (mk_client_config false false false [] None 0 (replicate 6 0) 4 5 60 false) None false 0) l;
  let id := match cid with Some d => d | None => default_clientid arp end in
  mret (mk_command (mk_client_config (cc_quit_after_lease k) (cc_abort_if_no_lease k)
          (cc_background_if_no_lease k) id (cc_hostname k) ifindex arp (cc_discover_delay k)
          (cc_discover_retry k) (cc_discover_sleep k) (cc_isQuerySrv k)) cid fg req).

#[global] Strategy 300 [init_packet add_requests].
#[global] Strategy 200 [send_discover send_selecting send_renew send_release send_decline].
