(* ===== verification/DhcpClientMsg.v ===== *)
(** * The messages of the DHCP client

    What [send_discover], [send_selecting], [send_renew], [send_release] and
    [send_decline] send: the header byte by byte, the options as a list of items. *)

From stdpp Require Import base numbers strings list.
From S2P Require Import Prelude Bytes DhcpOptions DhcpOptionsProps DhcpPacket DhcpPacketProps.
From S2P Require Import DhcpLeases DhcpServer DhcpReply DhcpFiles DhcpClient.

#[global] Arguments DhcpClient.init_packet : simpl never.
#[global] Arguments add_requests : simpl never.
#[global] Arguments init_header : simpl never.

(** ** Headers *)

Lemma take_splice_in (p : bytes) k off s :
  (off + length s ≤ k)%nat → (k ≤ length p)%nat → take k (splice p off s) = splice (take k p) off s.
Proof.
  intros H Hk. unfold splice. rewrite take_take, Nat.min_l by lia.
  rewrite take_app, length_take, Nat.min_l by lia. rewrite (take_ge (take off p)) by (rewrite length_take; lia).
  f_equal. rewrite take_app, (take_ge s) by lia. f_equal.
  rewrite skipn_firstn_comm. f_equal. lia.
Qed.

(** The 240 bytes before the options: operation, transaction, client address and
    hardware address; the rest is zero up to the cookie. *)
Definition head (o xid ciaddr : Z) (arp : bytes) : bytes :=
  [o; ETH_10MB; ETH_10MB_LEN; 0] ++ be_bytes 4 xid ++ replicate 4 0 ++ be_bytes 4 ciaddr
  ++ replicate 12 0 ++ arp ++ replicate 10 0 ++ replicate 192 0 ++ be_bytes 4 DHCP_MAGIC.

(** The operation [init_header] gives a message. *)
Definition type_op (t : Z) : Z := default 0 (header_op t).

Lemma init_header_head t p :
  1 ≤ t ≤ 8 → init_header t = Ok p → take 240 p = head (type_op t) 0 0 (replicate 6 0).
Proof.
  intros Ht. assert (t = 1 ∨ t = 2 ∨ t = 3 ∨ t = 4 ∨ t = 5 ∨ t = 6 ∨ t = 7 ∨ t = 8) as Hc by lia.
  destruct_or! Hc; subst t; vm_compute; by intros [= <-].
Qed.

Lemma be_bytes_4 v : ∃ a b c d, be_bytes 4 v = [a; b; c; d].
Proof. rewrite !be_bytes_S. by eexists _, _, _, _. Qed.

Lemma list_6 (l : bytes) : length l = 6%nat → ∃ a b c d e f, l = [a; b; c; d; e; f].
Proof. intros H. do 7 (destruct l as [|? l]; try done). by eexists _, _, _, _, _, _. Qed.

Lemma length_head o x y arp : length arp = 6%nat → length (head o x y arp) = 240%nat.
Proof. intros H. unfold head. rewrite !length_app, !length_be_bytes, H. done. Qed.

Lemma head_arp o x y arp arp' :
  length arp = 6%nat → length arp' = 6%nat → splice (head o x y arp) F_chaddr arp' = head o x y arp'.
Proof.
  intros H H'. destruct (list_6 arp H) as (?&?&?&?&?&?&->), (list_6 arp' H') as (?&?&?&?&?&?&->).
  unfold head. destruct (be_bytes_4 x) as (?&?&?&?&->), (be_bytes_4 y) as (?&?&?&?&->). reflexivity.
Qed.

Lemma head_xid o x x' y arp : splice (head o x y arp) F_xid (be_bytes 4 x') = head o x' y arp.
Proof.
  unfold head. destruct (be_bytes_4 x) as (?&?&?&?&->), (be_bytes_4 x') as (?&?&?&?&->). reflexivity.
Qed.

Lemma head_ciaddr o x y y' arp : splice (head o x y arp) F_ciaddr (be_bytes 4 y') = head o x y' arp.
Proof.
  unfold head. destruct (be_bytes_4 x) as (?&?&?&?&->), (be_bytes_4 y) as (?&?&?&?&->),
    (be_bytes_4 y') as (?&?&?&?&->). reflexivity.
Qed.

(** The fields of a message with such a header. *)
Lemma head_fields o x y arp p :
  length arp = 6%nat → is_u32 x → is_u32 y → take 240 p = head o x y arp →
  op p = o ∧ xid p = x ∧ flags p = 0 ∧ ciaddr p = y ∧ giaddr p = 0 ∧ yiaddr p = 0
  ∧ chaddr p = arp ++ replicate 10 0 ∧ cookie p = DHCP_MAGIC.
Proof.
  intros Ha Hx Hy Ht.
  assert (Hs : ∀ off n, (off + n ≤ 240)%nat → slice p off n = slice (head o x y arp) off n).
  { intros off n H. apply slice_head; [|done]. rewrite Ht. symmetry. apply take_ge. by rewrite length_head. }
  assert (Ev : ∀ v, is_u32 v → be_val (be_bytes 4 v) = v)
    by (intros v Hv; rewrite be_val_bytes; by apply Z.mod_small).
  unfold op, xid, flags, ciaddr, giaddr, yiaddr, chaddr, cookie, get32, get16.
  rewrite !Hs by (cbv; lia).
  assert (H1 : slice (head o x y arp) F_op 1 = [o] ∧ slice (head o x y arp) F_xid 4 = be_bytes 4 x
    ∧ slice (head o x y arp) F_flags 2 = [0; 0] ∧ slice (head o x y arp) F_ciaddr 4 = be_bytes 4 y
    ∧ slice (head o x y arp) F_giaddr 4 = [0; 0; 0; 0] ∧ slice (head o x y arp) F_yiaddr 4 = [0; 0; 0; 0]
    ∧ slice (head o x y arp) F_chaddr 16 = arp ++ replicate 10 0
    ∧ slice (head o x y arp) F_cookie 4 = be_bytes 4 DHCP_MAGIC).
  { destruct (list_6 arp Ha) as (?&?&?&?&?&?&->). unfold head.
    destruct (be_bytes_4 x) as (?&?&?&?&->), (be_bytes_4 y) as (?&?&?&?&->). repeat split. }
  destruct H1 as (-> & -> & -> & -> & -> & -> & -> & ->). rewrite !Ev by done.
  split; [unfold be_val; cbn; lia|]. repeat split.
Qed.

(** ** Options *)

(** The version, as in [vendor_id]. *)
Definition version : bytes := chars "udhcp 0.9.8-pre".
Lemma vendor_id_enc : vendor_id = enc (Opt DHCP_VENDOR version).
Proof. reflexivity. Qed.

Definition host_items (host : option bytes) : list item :=
  match host with Some n => [Opt DHCP_HOST_NAME n] | None => [] end.

(** The options every message of the client starts with. *)
Definition identity (t : Z) (id : bytes) (host : option bytes) : list item :=
  Opt DHCP_MESSAGE_TYPE [t] :: Opt DHCP_CLIENT_ID id :: host_items host ++ [Opt DHCP_VENDOR version].

(** The configuration of a client: its identifier and host name are options, and
    leave room for those of any message. *)
Record identified (k : client_config) (id : bytes) (host : option bytes) : Prop := {
  id_arp : length (cc_arp k) = 6%nat;
  id_arp_bytes : is_bytes (cc_arp k);
  id_clientid : cc_clientid k = enc (Opt DHCP_CLIENT_ID id);
  id_hostname : cc_hostname k = (λ n, enc (Opt DHCP_HOST_NAME n)) <$> host;
  id_length : (length id ≤ 255)%nat;
  id_host_length : ∀ n, host = Some n → (length n ≤ 255)%nat;
  id_room : (length (encs (identity 0 id host)) + 19 ≤ 308)%nat;
  id_bytes : is_bytes id;
  id_host_bytes : ∀ n, host = Some n → is_bytes n }.

Lemma length_identity t id host : length (encs (identity t id host)) = length (encs (identity 0 id host)).
Proof. unfold identity. by rewrite !encs_cons, !length_app. Qed.

(** A message of the client [k]: its items and its header. *)
Record client_msg (k : client_config) (t xid ciaddr : Z) (its : list item) (p : bytes) : Prop := {
  cm_items : has_items p its;
  cm_head : take 240 p = head (type_op t) xid ciaddr (cc_arp k);
  cm_bytes : is_bytes p }.

(** One more option. *)
Lemma client_msg_add k t x y its p c d :
  client_msg k t x y its p → 0 < c < 255 → (length d ≤ 255)%nat → is_bytes d →
  (length (encs its) + length d + 3 < 308)%nat →
  ∃ p', add_option_string p (enc (Opt c d)) = Ok (Z.of_nat (length d) + 2, p')
    ∧ client_msg k t x y (its ++ [Opt c d]) p'.
Proof.
  intros [Hi Hh Hb] Hc Hd Hbd Hroom.
  pose proof (add_option_string_spec p its c d [] Hi ltac:(split; lia)) as H.
  rewrite decide_True, app_nil_r in H by done. destruct H as (p' & E & Hi' & Ht). exists p'.
  split; [done|]. constructor; [done|congruence|].
  eapply add_option_string_bytes; [exact Hb| |exact E].
  constructor; [unfold is_u8; lia|]. constructor; [unfold is_u8; lia|done].
Qed.

Lemma client_msg_number k t x y its p c v :
  client_msg k t x y its p → 0 < c < 255 → option_length c = 4 →
  (length (encs its) + 7 < 308)%nat →
  ∃ p', add_simple_option p c v = Ok (6, p') ∧ client_msg k t x y (its ++ [Opt c (be_bytes 4 v)]) p'.
Proof.
  intros Hm Hc Ho Hr. pose proof (length_be_bytes 4 v) as L.
  destruct (client_msg_add k t x y its p c (be_bytes 4 v) Hm Hc) as (p' & E & Hm');
    [lia|apply is_bytes_be_bytes|lia|].
  exists p'. split; [|done]. unfold add_simple_option. rewrite Ho. cbv zeta.
  change (4 =? 0) with false. cbv iota. change (Z.to_nat 4) with 4%nat.
  cbn [enc] in E. rewrite L in E. exact E.
Qed.

Lemma client_msg_set_xid k t x y its p x' :
  client_msg k t x y its p → client_msg k t x' y its (set32 p F_xid x').
Proof.
  intros [Hi Hh Hb]. assert (L : length (be_bytes 4 x') = 4%nat) by done.
  assert (Hl : length p = 548%nat) by apply Hi. unfold set32, F_xid. constructor.
  - apply has_items_header; [done|lia].
  - rewrite take_splice_in, Hh by lia. apply head_xid.
  - apply is_bytes_splice; [done|apply is_bytes_be_bytes].
Qed.

Lemma client_msg_set_ciaddr k t x y its p y' :
  client_msg k t x y its p → client_msg k t x y' its (set32 p F_ciaddr y').
Proof.
  intros [Hi Hh Hb]. assert (L : length (be_bytes 4 y') = 4%nat) by done.
  assert (Hl : length p = 548%nat) by apply Hi. unfold set32, F_ciaddr. constructor.
  - apply has_items_header; [done|lia].
  - rewrite take_splice_in, Hh by lia. apply head_ciaddr.
  - apply is_bytes_splice; [done|apply is_bytes_be_bytes].
Qed.

Section messages.
Context (k : client_config) (id : bytes) (host : option bytes) (Hk : identified k id host).

Lemma init_packet_items t :
  1 ≤ t ≤ 8 →
  ∃ p, DhcpClient.init_packet k t = Ok p ∧ client_msg k t 0 0 (identity t id host) p.
Proof.
  intros Ht. pose proof Hk as [Ha Hab Hid Hho Hil Hhl Hr Hib Hhb].
  destruct (init_header_spec t Ht) as (p0 & E0 & Hi0 & _ & Hb0 & _).
  pose proof (init_header_head t p0 Ht E0) as Hh0. assert (Hl0 : length p0 = 548%nat) by apply Hi0.
  unfold DhcpClient.init_packet. rewrite E0, bind_ret.
  rewrite write_at_Ok by (rewrite Ha, Hl0; unfold F_chaddr; lia). rewrite bind_ret.
  assert (Hm : client_msg k t 0 0 [Opt DHCP_MESSAGE_TYPE [t]] (splice p0 F_chaddr (cc_arp k))).
  { unfold F_chaddr. constructor; [apply has_items_header; [done|lia]| |by apply is_bytes_splice].
    rewrite take_splice_in, Hh0 by lia. by apply head_arp. }
  assert (Hr' : (length (encs (host_items host)) + length id + 41 ≤ 308)%nat).
  { revert Hr. unfold identity. rewrite !encs_cons, encs_app, !length_app. cbn. lia. }
  rewrite Hid.
  destruct (client_msg_add k t 0 0 _ _ DHCP_CLIENT_ID id Hm) as (p1 & E1 & H1);
    [unfold DHCP_CLIENT_ID; lia|done|done|cbn; lia|].
  rewrite E1, bind_ret.
  assert (E2 : ∃ p2, match cc_hostname k with
      | Some h => '(_, p) ← add_option_string p1 h; mret p | None => mret p1 end = Ok p2
      ∧ client_msg k t 0 0 (Opt DHCP_MESSAGE_TYPE [t] :: Opt DHCP_CLIENT_ID id :: host_items host) p2).
  { rewrite Hho. destruct host as [n|]; cbn [fmap option_fmap option_map]; [|by exists p1].
    destruct (client_msg_add k t 0 0 _ _ DHCP_HOST_NAME n H1) as (p2 & E2 & H2);
      [unfold DHCP_HOST_NAME; lia|by apply Hhl|by apply Hhb| |].
    { cbn in Hr' |- *. rewrite !length_app in *. cbn in *. lia. }
    rewrite E2, bind_ret. by exists p2. }
  destruct E2 as (p2 & E2 & H2). rewrite E2, bind_ret, vendor_id_enc.
  destruct (client_msg_add k t 0 0 _ _ DHCP_VENDOR version H2) as (p3 & E3 & H3);
    [unfold DHCP_VENDOR; lia|cbn; lia|repeat constructor; unfold is_u8; cbn; lia| |].
  { rewrite !encs_cons, !length_app. cbn in Hr' |- *. lia. }
  rewrite E3, bind_ret. by exists p3.
Qed.

(** ** [add_requests] *)

Definition request_item : item := Opt DHCP_PARAM_REQ requests.

Lemma requests_eq : requests = [1; 3; 6; 15].
Proof. reflexivity. Qed.

(** The code, the length and the data are written one after the other; together
    they are the item, and the end mark is written behind it. *)
Lemma splice_parts (p d : bytes) i c z :
  (i + length d + 3 ≤ length p)%nat →
  splice (splice (splice (splice p i [c]) (i + 2) d) (i + 1) [Z.of_nat (length d)]) (i + 2 + length d) [z]
  = splice (splice p i (c :: Z.of_nat (length d) :: d)) (i + length d + 2) [z].
Proof.
  intros H. apply list_eq. intros j.
  assert (L : ∀ q off s, splice q off s = take off q ++ s ++ drop (off + length s) q) by done.
  replace (i + length d + 2)%nat with (i + 2 + length d)%nat by lia. f_equal. f_equal.
  rewrite <- (take_drop i p). set (a := take i p). set (b := drop i p).
  assert (Ha : length a = i) by (subst a; rewrite length_take; lia).
  assert (Hb : (length d + 3 ≤ length b)%nat) by (subst b; rewrite length_drop; lia).
  clearbody a b. destruct b as [|b0 [|b1 b]]; [cbn in Hb; lia..|].
  rewrite !L. repeat (rewrite ?take_app_length', ?drop_app_length' by lia).
  subst i. rewrite take_app_length. rewrite drop_app_ge by lia.
  replace (length a + length [c] - length a)%nat with 1%nat by (cbn; lia). cbn [drop].
  rewrite (take_app_ge a) by lia. replace (length a + 2 - length a)%nat with 2%nat by lia. cbn [app take].
  rewrite (drop_app_ge a) by lia. replace (length a + 2 + length d - length a)%nat with (2 + length d)%nat by lia.
  cbn [app drop Nat.add].
  rewrite <- app_assoc. cbn [app]. rewrite (take_app_ge a) by lia.
  replace (length a + 1 - length a)%nat with 1%nat by lia. cbn [take].
  rewrite (drop_app_ge a) by (cbn; lia). cbn [length].
  replace (length a + 1 + 1 - length a)%nat with 2%nat by lia. cbn [drop].
  rewrite (drop_app_ge a) by (cbn; lia).
  replace (length a + S (S (length d)) - length a)%nat with (2 + length d)%nat by lia.
  cbn [drop Nat.add]. rewrite <- app_assoc. done.
Qed.

Lemma add_requests_spec t x y its p :
  client_msg k t x y its p → (length (encs its) + 7 ≤ 308)%nat →
  ∃ p', add_requests p = Ok p' ∧ client_msg k t x y (its ++ [request_item]) p'.
Proof.
  intros [Hi Hh Hb] Hr. assert (Hl : length p = 548%nat) by apply Hi.
  assert (Lr : length requests = 4%nat) by done.
  pose proof (has_items_write p its DHCP_PARAM_REQ requests Hi) as Hw.
  unfold add_requests. rewrite (end_option_spec p its Hi), bind_ret.
  change F_options with 240%nat. set (e := length (encs its)) in *.
  assert (L1 : length [DHCP_PARAM_REQ] = 1%nat) by done.
  assert (L2 : length [Z.of_nat (length requests)] = 1%nat) by done.
  assert (L3 : length [DHCP_END] = 1%nat) by done.
  assert (E1 : write_at p (240 + e) [DHCP_PARAM_REQ] = Ok (splice p (240 + e) [DHCP_PARAM_REQ]))
    by (apply write_at_Ok; lia).
  rewrite E1, bind_ret. set (p1 := splice p (240 + e) [DHCP_PARAM_REQ]).
  assert (K1 : length p1 = 548%nat) by (subst p1; rewrite length_splice; lia).
  rewrite write_at_Ok, bind_ret by lia. set (p2 := splice p1 _ requests).
  assert (K2 : length p2 = 548%nat) by (subst p2; rewrite length_splice; lia).
  rewrite write_at_Ok, bind_ret by lia. set (p3 := splice p2 _ _).
  assert (K3 : length p3 = 548%nat) by (subst p3; rewrite length_splice; lia).
  rewrite write_at_Ok by lia.
  eexists. split; [done|]. subst p3 p2 p1.
  rewrite splice_parts by lia. cbn [enc] in Hw.
  set (s := DHCP_PARAM_REQ :: Z.of_nat (length requests) :: requests) in *.
  assert (Ls : length s = 6%nat) by done.
  constructor.
  - apply Hw; [split; [unfold DHCP_PARAM_REQ; lia|lia]|lia].
  - rewrite !take_splice; rewrite ?length_splice; try lia. exact Hh.
  - apply is_bytes_splice; [apply is_bytes_splice; [done|]|].
    + subst s. rewrite requests_eq. repeat constructor; unfold is_u8, DHCP_PARAM_REQ; cbn; lia.
    + constructor; [unfold is_u8, DHCP_END; lia|constructor].
Qed.

(** ** The messages *)

Definition number_item (code v : Z) : item := Opt code (be_bytes 4 v).

#[local] Opaque identity.
Lemma encs_nil_length : length (encs []) = 0%nat.
Proof. done. Qed.
Ltac roomy :=
  unfold number_item; rewrite ?encs_app, ?encs_cons, ?length_app; try rewrite length_identity;
  rewrite ?encs_nil_length; cbn [enc length]; rewrite ?length_be_bytes;
  pose proof (id_room k id host Hk); lia.

Lemma send_discover_spec x requested :
  ∃ p, send_discover k x requested = Ok (broadcast k p)
    ∧ client_msg k DHCPDISCOVER x 0
        (identity DHCPDISCOVER id host
         ++ (if requested =? 0 then [] else [number_item DHCP_REQUESTED_IP requested]) ++ [request_item]) p.
Proof.
  destruct (init_packet_items DHCPDISCOVER) as (p0 & E0 & H0); [unfold DHCPDISCOVER; lia|].
  unfold send_discover. rewrite E0, bind_ret. apply (client_msg_set_xid _ _ _ _ _ _ x) in H0.
  cbv zeta. destruct (requested =? 0).
  - rewrite bind_ret. destruct (add_requests_spec _ _ _ _ _ H0) as (p1 & E1 & H1); [roomy|].
    rewrite E1, bind_ret. by exists p1.
  - destruct (client_msg_number _ _ _ _ _ _ DHCP_REQUESTED_IP requested H0) as (p1 & E1 & H1);
      [unfold DHCP_REQUESTED_IP; lia|done|roomy|]. rewrite E1, bind_ret.
    destruct (add_requests_spec _ _ _ _ _ H1) as (p2 & E2 & H2); [roomy|].
    rewrite E2, bind_ret. exists p2. by rewrite <- app_assoc in H2.
Qed.

(** Address and server, the options of a REQUEST in SELECTING and of a RELEASE. *)
Definition address_items (requested server : Z) : list item :=
  [number_item DHCP_REQUESTED_IP requested; number_item DHCP_SERVER_ID server].

Lemma add_address_items t x y its p requested server :
  client_msg k t x y its p → (length (encs its) + 13 < 308)%nat →
  ∃ p1 p2, add_simple_option p DHCP_REQUESTED_IP requested = Ok (6, p1)
    ∧ add_simple_option p1 DHCP_SERVER_ID server = Ok (6, p2)
    ∧ client_msg k t x y (its ++ address_items requested server) p2.
Proof.
  intros H0 Hr.
  destruct (client_msg_number _ _ _ _ _ _ DHCP_REQUESTED_IP requested H0) as (p1 & E1 & H1);
    [unfold DHCP_REQUESTED_IP; lia|done|lia|].
  destruct (client_msg_number _ _ _ _ _ _ DHCP_SERVER_ID server H1) as (p2 & E2 & H2);
    [unfold DHCP_SERVER_ID; lia|done|roomy|].
  exists p1, p2. rewrite <- app_assoc in H2. done.
Qed.

Lemma send_selecting_spec x server requested :
  ∃ p, send_selecting k x server requested = Ok (broadcast k p)
    ∧ client_msg k DHCPREQUEST x 0
        (identity DHCPREQUEST id host ++ address_items requested server ++ [request_item]) p.
Proof.
  destruct (init_packet_items DHCPREQUEST) as (p0 & E0 & H0); [unfold DHCPREQUEST; lia|].
  unfold send_selecting. rewrite E0, bind_ret. apply (client_msg_set_xid _ _ _ _ _ _ x) in H0.
  cbv zeta. destruct (add_address_items _ _ _ _ _ requested server H0) as (p1 & p2 & E1 & E2 & H2); [roomy|].
  rewrite E1, bind_ret, E2, bind_ret.
  destruct (add_requests_spec _ _ _ _ _ H2) as (p3 & E3 & H3); [unfold address_items; roomy|].
  rewrite E3, bind_ret. exists p3. by rewrite <- app_assoc in H3.
Qed.

Lemma send_renew_spec x server ciaddr :
  ∃ p, send_renew k x server ciaddr
      = Ok (if server =? 0 then broadcast k p else Kernel p ciaddr CLIENT_PORT server SERVER_PORT)
    ∧ client_msg k DHCPREQUEST x ciaddr (identity DHCPREQUEST id host ++ [request_item]) p.
Proof.
  destruct (init_packet_items DHCPREQUEST) as (p0 & E0 & H0); [unfold DHCPREQUEST; lia|].
  unfold send_renew. rewrite E0, bind_ret. apply (client_msg_set_xid _ _ _ _ _ _ x) in H0.
  apply (client_msg_set_ciaddr _ _ _ _ _ _ ciaddr) in H0. cbv zeta.
  destruct (add_requests_spec _ _ _ _ _ H0) as (p1 & E1 & H1); [roomy|].
  rewrite E1, bind_ret. by exists p1.
Qed.

Lemma send_release_spec x server ciaddr :
  ∃ p, send_release k x server ciaddr = Ok (Kernel p ciaddr CLIENT_PORT server SERVER_PORT)
    ∧ client_msg k DHCPRELEASE x ciaddr (identity DHCPRELEASE id host ++ address_items ciaddr server) p.
Proof.
  destruct (init_packet_items DHCPRELEASE) as (p0 & E0 & H0); [unfold DHCPRELEASE; lia|].
  unfold send_release. rewrite E0, bind_ret. apply (client_msg_set_xid _ _ _ _ _ _ x) in H0.
  apply (client_msg_set_ciaddr _ _ _ _ _ _ ciaddr) in H0. cbv zeta.
  destruct (add_address_items _ _ _ _ _ ciaddr server H0) as (p1 & p2 & E1 & E2 & H2); [roomy|].
  rewrite E1, bind_ret, E2, bind_ret. by exists p2.
Qed.

Lemma send_decline_spec x :
  ∃ p, send_decline k x = Ok (broadcast k p)
    ∧ client_msg k DHCPDECLINE x 0 (identity DHCPDECLINE id host) p.
Proof.
  destruct (init_packet_items DHCPDECLINE) as (p0 & E0 & H0); [unfold DHCPDECLINE; lia|].
  unfold send_decline. rewrite E0, bind_ret. apply (client_msg_set_xid _ _ _ _ _ _ x) in H0.
  by eexists.
Qed.
End messages.

(** Every message of the client carries, after the header with its hardware
    address, its transaction number and, when it has an address, that address, the
    message type, the client identifier, the host name if any and the vendor, and
    then: in a DISCOVER the address it would like, if any, and the list of options
    it asks for; in a REQUEST from REQUESTING the address and the server, and the
    list; in a REQUEST from RENEWING or REBINDING only the list; in a RELEASE the
    address and the server; in a DECLINE nothing.  All but the REQUEST to a known
    server and the RELEASE are broadcast; these go from the client's address to the
    server. *)
Theorem client_messages_correct k id host xid server requested random
    (Hk : identified k id host) :
  (∃ p, send_discover k xid requested = Ok (broadcast k p)
     ∧ client_msg k DHCPDISCOVER xid 0
         (identity DHCPDISCOVER id host
          ++ (if requested =? 0 then [] else [number_item DHCP_REQUESTED_IP requested]) ++ [request_item]) p)
  ∧ (∃ p, send_selecting k xid server requested = Ok (broadcast k p)
     ∧ client_msg k DHCPREQUEST xid 0
         (identity DHCPREQUEST id host ++ address_items requested server ++ [request_item]) p)
  ∧ (∃ p, send_renew k xid server requested
       = Ok (if server =? 0 then broadcast k p else Kernel p requested CLIENT_PORT server SERVER_PORT)
     ∧ client_msg k DHCPREQUEST xid requested (identity DHCPREQUEST id host ++ [request_item]) p)
  ∧ (∃ p, send_release k random server requested = Ok (Kernel p requested CLIENT_PORT server SERVER_PORT)
     ∧ client_msg k DHCPRELEASE random requested
         (identity DHCPRELEASE id host ++ address_items requested server) p)
  ∧ (∃ p, send_decline k xid = Ok (broadcast k p)
     ∧ client_msg k DHCPDECLINE xid 0 (identity DHCPDECLINE id host) p).
Proof.
  split; [by apply send_discover_spec|]. split; [by apply send_selecting_spec|].
  split; [by apply send_renew_spec|]. split; [by apply send_release_spec|by apply send_decline_spec].
Qed.

(** ** The command line *)

Lemma fill_arg_spec code o data :
  (length data ≤ Nat.min 255 (length (c_str o)))%nat →
  fill_arg code o data = Ok (enc (Opt code (take 255 (c_str o)))).
Proof.
  intros Hd. unfold fill_arg. cbv zeta.
  set (len := if (255 <? length (c_str o))%nat then 255%nat else length (c_str o)).
  assert (Hlen : len = Nat.min 255 (length (c_str o)))
    by (subst len; destruct (Nat.ltb_spec 255 (length (c_str o))); lia).
  clearbody len. rewrite write_at_Ok by (rewrite length_replicate; cbn; lia). rewrite bind_ret.
  assert (Es : strncpy o len = take 255 (c_str o)).
  { unfold strncpy. rewrite length_take. replace (len - Nat.min len (length (c_str o)))%nat with 0%nat by lia.
    cbn [replicate]. rewrite app_nil_r. destruct (decide (255 ≤ length (c_str o))%nat).
    - replace len with 255%nat by lia. done.
    - rewrite !take_ge by lia. done. }
  rewrite Es. assert (Hs : length (take 255 (c_str o)) = len) by (rewrite length_take; lia).
  rewrite write_at_Ok by (rewrite length_splice; rewrite ?length_replicate; cbn; lia).
  f_equal. unfold splice at 1. rewrite Hs.
  rewrite drop_ge by (rewrite length_splice; rewrite ?length_replicate; cbn; lia).
  rewrite app_nil_r. unfold splice. rewrite take_0. cbn [app take enc]. by rewrite Hs.
Qed.

(** Only the client identifier is written with a byte of its own first, which an
    empty one has no room for. *)
Lemma empty_clientid_overflows s : apply_carg s (Arg_clientid []) = Fault.
Proof. by destruct s as [[]]. Qed.

(** With the default identifier every host name leaves room enough; with a long
    identifier it need not: [add_requests] does not check, and writes behind the
    message. *)
Lemma default_identified k arp host :
  length arp = 6%nat → is_bytes arp → cc_arp k = arp → cc_clientid k = default_clientid arp →
  cc_hostname k = (λ n, enc (Opt DHCP_HOST_NAME n)) <$> host →
  (∀ n, host = Some n → (length n ≤ 255)%nat ∧ is_bytes n) → identified k (1 :: arp) host.
Proof.
  intros Hl Hb Ea Ei Eh Hn. constructor; rewrite ?Ea; try done.
  - rewrite Ei. unfold default_clientid. cbn [enc length]. by rewrite Hl.
  - cbn. lia.
  - intros n ->. by apply Hn.
  - unfold identity. rewrite !encs_cons, encs_app, !length_app. destruct host as [n|].
    + destruct (Hn n eq_refl) as [Hln _]. unfold host_items. rewrite encs_cons, length_app. cbn. lia.
    + cbn. lia.
  - constructor; [unfold is_u8; lia|done].
  - intros n ->. by apply Hn.
Qed.
