(* ===== verification/DhcpClientProps.v ===== *)
(** * The DHCP client: every turn of the loop

    Each turn completes, keeps the invariant, runs the scripts that make the
    interface carry the address of the client's state, and enters BOUND only on
    an acknowledgement. *)

From stdpp Require Import base numbers sets strings list.
From S2P Require Import Prelude Bytes DhcpOptions DhcpOptionsProps DhcpPacket DhcpPacketProps.
From S2P Require Import DhcpLeases DhcpServer DhcpReply DhcpServerInv DhcpServerProps DhcpFiles DhcpClient DhcpClientMsg.

#[global] Arguments send_discover : simpl never.
#[global] Arguments send_selecting : simpl never.
#[global] Arguments send_renew : simpl never.
#[global] Arguments send_release : simpl never.
#[global] Arguments send_decline : simpl never.
#[global] Arguments get_raw_packet : simpl never.

(** ** Invariant *)

Record cinv (c : client) : Prop := {
  ci_packet : length (packet c) = 548%nat;
  ci_num : 0 ≤ packet_num c;
  ci_listen : listen_mode c ≠ LISTEN_KERNEL }.

(** A received frame can be handled: it does not overflow the buffers, and what is
    then in the buffer can be read. *)
Definition event_ok (c : client) (e : event) : Prop :=
  match e with
  | Ready data _ => ∃ n p, get_raw_packet (packet c) data = Ok (n, p) ∧ length p = 548%nat
      ∧ (0 ≤ n → readable p)
  | _ => True
  end.

(** The states in which the client has an address, and the address. *)
Definition holding (s : client_state) : bool :=
  match s with BOUND | RENEWING | REBINDING | RENEW_REQUESTED => true | _ => false end.
Definition uses (c : client) : option Z := if holding (state c) then Some (requested_ip c) else None.

(** What the scripts do to the address of the interface. *)
Definition configure (i : option Z) (a : caction) : option Z :=
  match a with
  | Script (Some p) name =>
      if decide (name = "bound" ∨ name = "renew") then Some (yiaddr p) else i
  | Script None name => if decide (name = "deconfig") then None else i
  | _ => i
  end.
Definition configures (i : option Z) (out : list caction) : option Z := foldl configure i out.

(** An acknowledgement of the client's request, in the frame [data]. *)
Record acked `{ArpPing} (now : Z) (c : client) (data : option bytes) (c' : client) : Prop := {
  ak_state : holding (state c) = true ∨ state c = REQUESTING;
  ak_not_bound : state c ≠ BOUND;
  ak_frame : ∃ n, get_raw_packet (packet c) data = Ok (n, packet c') ∧ 0 ≤ n;
  ak_xid : xid (packet c') = c_xid c;
  ak_type : typed (packet c') DHCPACK;
  ak_arp : state c = REQUESTING → fst (arpping (yiaddr (packet c')) now) ≠ 0;
  ak_address : requested_ip c' = yiaddr (packet c');
  ak_lease : lease_of_ack (packet c') = Ok (lease c');
  ak_times : t1 c' = lease c' / 2 ∧ t2 c' = Z.shiftr (u32 (lease c' * 7)) 3 ∧ start c' = u32 now
    ∧ timeout c' = u32 (t1 c' + start c') }.

(** The outcome of a turn; [B] says how BOUND was entered. *)
Definition good (B : client → Prop) (c : client) (o : outcome) (out : list caction) : Prop :=
  match o with
  | Exited _ => True
  | Running c' => cinv c' ∧ configures (uses c) out = uses c'
      ∧ (state c' = BOUND → (state c = BOUND ∧ requested_ip c' = requested_ip c) ∨ B c')
  end.

Lemma good_idle B c : cinv c → good B c (Running c) [].
Proof. intros H. split; [done|]. split; [done|]. by left. Qed.

Lemma good_mono (B B' : client → Prop) c o out : (∀ c', B c' → B' c') → good B c o out → good B' c o out.
Proof. intros HB. destruct o as [c'|]; [|done]. cbn. intros (? & ? & H). split; [done|]. split; [done|]. naive_solver. Qed.

(** ** Timeouts *)

Section client.
Context (k : client_config) (id : bytes) (host : option bytes) (Hk : identified k id host).
Context (Hretry : cc_discover_retry k ≤ 32).
Context `{Harp : ArpPing}.

Lemma retry_timeout_spec c now :
  0 ≤ packet_num c → packet_num c < cc_discover_retry k → ∃ t, retry_timeout k c now = Ok t.
Proof.
  intros H0 H1. unfold retry_timeout. destruct (Z.leb_spec 0 (packet_num c)); [|lia].
  destruct (Z.ltb_spec (packet_num c) 32); [|lia]. by eexists.
Qed.

Lemma timeout_selecting_spec r now c :
  cinv c → state c = INIT_SELECTING →
  ∃ o out, timeout_selecting k r now c = Ok (o, out) ∧ good (λ _, False) c o out.
Proof.
  intros [H1 H2 H3] Es. unfold timeout_selecting, good, uses.
  destruct (Z.ltb_spec (packet_num c) (cc_discover_retry k)) as [Hn|Hn].
  - cbv zeta. set (c0 := if packet_num c =? 0 then with_xid c r else c).
    assert (E0 : packet_num c0 = packet_num c ∧ state c0 = state c ∧ packet c0 = packet c
      ∧ listen_mode c0 = listen_mode c) by (subst c0; destruct (_ =? _); done).
    destruct E0 as (E1 & E2 & E3 & E4).
    destruct (send_discover_spec k id host Hk (c_xid c0) (requested_ip c0)) as (p & E & _).
    rewrite E, bind_ret. destruct (retry_timeout_spec c0 now) as (t & Et); [lia..|].
    rewrite Et, bind_ret. eexists _, _. split; [reflexivity|].
    split; [constructor; cbn; [congruence|lia|congruence]|].
    cbn [with_timer state]. rewrite E2, Es. done.
  - destruct (cc_isQuerySrv k); [by eexists _, _|].
    destruct (negb _ && _); [by eexists _, _|]. cbv zeta.
    set (c0 := if cc_background_if_no_lease k then background c else c).
    assert (E0 : state c0 = state c ∧ packet c0 = packet c ∧ listen_mode c0 = listen_mode c)
      by (subst c0; destruct (cc_background_if_no_lease k); done).
    destruct E0 as (E2 & E3 & E4). destruct (cc_discover_sleep k =? 0); [by eexists _, _|].
    eexists _, _. split; [reflexivity|]. split; [constructor; cbn; [congruence|lia|congruence]|].
    cbn [with_timer state]. rewrite E2, Es. done.
Qed.

Lemma timeout_requesting_spec now c :
  cinv c → state c = REQUESTING ∨ state c = RENEW_REQUESTED →
  ∃ o out, timeout_requesting k now c = Ok (o, out) ∧ good (λ _, False) c o out.
Proof.
  intros [H1 H2 H3] Es. unfold timeout_requesting, good, uses. cbv zeta.
  destruct (Z.ltb_spec (packet_num c) (cc_discover_retry k)) as [Hn|Hn].
  - assert (Ha : ∃ a, (if bool_decide (state c = RENEW_REQUESTED)
        then send_renew k (c_xid c) (server_addr c) (requested_ip c)
        else send_selecting k (c_xid c) (server_addr c) (requested_ip c)) = Ok a).
    { destruct (bool_decide _).
      - destruct (send_renew_spec k id host Hk (c_xid c) (server_addr c) (requested_ip c)) as (p & E & _).
        by eexists.
      - destruct (send_selecting_spec k id host Hk (c_xid c) (server_addr c) (requested_ip c)) as (p & E & _).
        by eexists. }
    destruct Ha as (a & E). rewrite E, bind_ret.
    destruct (retry_timeout_spec c now) as (t & Et); [done..|]. rewrite Et, bind_ret.
    eexists _, _. split; [reflexivity|]. split; [constructor; cbn; done || lia|]. split; [done|].
    cbn. intros E'. destruct Es; congruence.
  - destruct (cc_discover_sleep k =? 0); [by eexists _, _|].
    eexists _, _. split; [reflexivity|]. split; [constructor; cbn; done || lia|].
    split; [|done]. destruct Es as [-> | ->]; done.
Qed.

Lemma timeout_renewing_spec now c :
  cinv c → state c = RENEWING →
  ∃ o out, timeout_renewing k now c = Ok (o, out) ∧ good (λ _, False) c o out.
Proof.
  intros [H1 H2 H3] Es. unfold timeout_renewing, good, uses.
  destruct (_ <=? _).
  - eexists _, _. split; [reflexivity|]. split; [constructor; cbn; done|]. rewrite Es. done.
  - destruct (send_renew_spec k id host Hk (c_xid c) (server_addr c) (requested_ip c)) as (p & E & _).
    rewrite E, bind_ret. eexists _, _. split; [reflexivity|]. split; [constructor; cbn; done|].
    cbn [with_timer with_times state]. rewrite Es. done.
Qed.

Lemma timeout_rebinding_spec now c :
  cinv c → state c = REBINDING →
  ∃ o out, timeout_rebinding k now c = Ok (o, out) ∧ good (λ _, False) c o out.
Proof.
  intros [H1 H2 H3] Es. unfold timeout_rebinding, good, uses.
  destruct (_ <=? _).
  - eexists _, _. split; [reflexivity|]. split; [constructor; cbn; done|]. rewrite Es. done.
  - destruct (send_renew_spec k id host Hk (c_xid c) 0 (requested_ip c)) as (p & E & _).
    rewrite E, bind_ret. eexists _, _. split; [reflexivity|]. split; [constructor; cbn; done|].
    cbn [with_timer with_times state]. rewrite Es. done.
Qed.

Lemma on_timeout_spec r now c :
  cinv c → ∃ o out, on_timeout k r now c = Ok (o, out) ∧ good (λ _, False) c o out.
Proof.
  intros Hc. pose proof Hc as [H1 H2 H3]. unfold on_timeout.
  destruct (state c) eqn:Es.
  - by apply timeout_selecting_spec.
  - apply timeout_requesting_spec; auto.
  - destruct (timeout_renewing_spec now (change_mode (with_state c RENEWING) LISTEN_RAW)) as (o & out & E & Hg);
      [constructor; done|done|]. exists o, out. split; [done|].
    destruct o as [c'|]; [|done]. cbn in Hg |- *. destruct Hg as (? & Hu & Hb). split; [done|].
    split; [|tauto]. unfold uses in Hu |- *. cbn in Hu. by rewrite Es.
  - by apply timeout_renewing_spec.
  - by apply timeout_rebinding_spec.
  - eexists _, _. split; [reflexivity|]. by apply good_idle.
  - apply timeout_requesting_spec; auto.
  - eexists _, _. split; [reflexivity|]. split; [constructor; cbn; done|]. unfold uses. cbn.
    rewrite Es. done.
Qed.

(** ** Signals *)

Lemma perform_renew_spec B c :
  cinv c → good B c (Running (fst (perform_renew c))) (snd (perform_renew c)).
Proof.
  intros [H1 H2 H3]. unfold perform_renew, good, uses.
  destruct (state c) eqn:Es; cbn;
    (split; [constructor; cbn; done|]; rewrite ?Es; done).
Qed.

Lemma perform_release_spec B r c :
  cinv c → state c ≠ RENEW_REQUESTED →
  ∃ c' out, perform_release k r c = Ok (c', out) ∧ good B c (Running c') out.
Proof.
  intros [H1 H2 H3] Hs. unfold perform_release.
  assert (Ho : ∃ out, (if decide (state c = BOUND ∨ state c = RENEWING ∨ state c = REBINDING)
      then a ← send_release k r (server_addr c) (requested_ip c); mret [Send a; Script None "deconfig"]
      else mret []) = Ok out ∧ configures (uses c) out = None).
  { case_decide as Hd.
    - destruct (send_release_spec k id host Hk r (server_addr c) (requested_ip c)) as (p & E & _).
      rewrite E, bind_ret. by eexists.
    - eexists. split; [reflexivity|]. unfold uses. destruct (state c); naive_solver. }
  destruct Ho as (out & E & Hu). rewrite E, bind_ret. eexists _, _. split; [reflexivity|].
  split; [constructor; cbn; done|]. split; [|done]. by rewrite Hu.
Qed.

(** ** Packets *)

Lemma lease_of_ack_spec p : readable p → ∃ l, lease_of_ack p = Ok l.
Proof.
  intros Hp. destruct (option32_spec p DHCP_LEASE_TIME Hp) as (o & r & E & Er & _ & _ & Hr); [set_solver|].
  unfold lease_of_ack. rewrite E, bind_ret. destruct o as [ptr|]; [|by eexists].
  unfold option32 in Er. apply bind_Ok in Er as (v & Ev & _). by exists v.
Qed.

Lemma enter_bound_spec now c :
  cinv c → readable (packet c) →
  ∃ o out l, enter_bound k now c = Ok (o, out) ∧ lease_of_ack (packet c) = Ok l
    ∧ match o with
      | Exited _ => True
      | Running c' => cinv c' ∧ configures (uses c) out = uses c' ∧ packet c' = packet c
          ∧ requested_ip c' = yiaddr (packet c) ∧ lease c' = l
          ∧ t1 c' = l / 2 ∧ t2 c' = Z.shiftr (u32 (l * 7)) 3 ∧ start c' = u32 now
          ∧ timeout c' = u32 (t1 c' + start c')
      end.
Proof.
  intros [H1 H2 H3] Hp. destruct (lease_of_ack_spec _ Hp) as (l & El).
  unfold enter_bound. rewrite El, bind_ret. cbv zeta.
  destruct (cc_quit_after_lease k); [by eexists _, _, l|].
  eexists _, _, l. split; [reflexivity|]. split; [done|].
  destruct (foreground c); (split; [constructor; cbn; done|]); (split; [|done]); by case_decide.
Qed.

Lemma packet_ack_spec now c :
  cinv c → readable (packet c) → state c = REQUESTING ∨ (holding (state c) = true ∧ state c ≠ BOUND) →
  ∃ o out, packet_ack k now c = Ok (o, out) ∧
    good (λ c', packet c' = packet c ∧ (state c = REQUESTING → fst (arpping (yiaddr (packet c')) now) ≠ 0)
      ∧ requested_ip c' = yiaddr (packet c') ∧ lease_of_ack (packet c') = Ok (lease c')
      ∧ t1 c' = lease c' / 2 ∧ t2 c' = Z.shiftr (u32 (lease c' * 7)) 3 ∧ start c' = u32 now
      ∧ timeout c' = u32 (t1 c' + start c')) c o out.
Proof.
  intros Hc Hp Hs. unfold packet_ack.
  destruct (bool_decide (state c = REQUESTING) && (fst (arpping (yiaddr (packet c)) now) =? 0)) eqn:E.
  - apply andb_true_iff in E as [Es _]. apply bool_decide_eq_true in Es.
    destruct (send_decline_spec k id host Hk (c_xid c)) as (p & Ed & _).
    rewrite Ed, bind_ret. eexists _, _. split; [reflexivity|]. destruct Hc.
    split; [constructor; cbn; done|]. unfold uses. by rewrite Es.
  - destruct (enter_bound_spec now c Hc Hp) as (o & out & l & Eb & El & Ho).
    exists o, out. split; [done|]. destruct o as [c'|]; [|done].
    destruct Ho as (Hc' & Hu & Ep & Hr & Hl & Ht). split; [done|]. split; [done|]. intros _. right.
    rewrite Ep, Hl. split; [done|]. split; [|naive_solver].
    intros Es Ha. rewrite bool_decide_true in E by done. cbn [andb] in E. lia.
Qed.

Lemma packet_selecting_spec now t c :
  cinv c → readable (packet c) → state c = INIT_SELECTING →
  ∃ o out, packet_selecting k now t c = Ok (o, out) ∧ good (λ _, False) c o out.
Proof.
  intros Hc Hp Es. pose proof Hc as [H1 H2 H3]. unfold packet_selecting. cbv zeta.
  destruct (t =? DHCPOFFER); [|eexists _, _; split; [reflexivity|by apply good_idle]].
  destruct (option32_spec (packet c) DHCP_SERVER_ID Hp) as (o & r & E & Er & _); [set_solver|].
  rewrite E, bind_ret. destruct o as [ptr|]; [|eexists _, _; split; [reflexivity|by apply good_idle]].
  destruct (cc_isQuerySrv k); [by eexists _, _|].
  unfold option32 in Er. apply bind_Ok in Er as (v & Ev & _). rewrite Ev, bind_ret.
  eexists _, _. split; [reflexivity|]. split; [constructor; cbn; done|]. unfold uses. by rewrite Es.
Qed.

Lemma packet_nak_spec B now c :
  cinv c → state c = REQUESTING ∨ holding (state c) = true →
  good B c (fst (packet_nak now c)) (snd (packet_nak now c)).
Proof.
  intros [H1 H2 H3] Hs. unfold packet_nak, good, uses. cbn [fst snd].
  split; [constructor; cbn; done|]. split; [|done].
  case_decide as Hd; [by rewrite Hd|]. by destruct Hs as [Hs| ->].
Qed.

(** Everything the client does with a frame. *)
Lemma handle_ready_spec now data eintr c :
  cinv c → event_ok c (Ready data eintr) →
  ∃ o out, handle_ready k now data eintr c = Ok (o, out) ∧ good (acked now c data) c o out.
Proof.
  intros [H1 H2 H3] (n & p & E & Hl & Hr). unfold handle_ready, receive.
  rewrite decide_False by done. rewrite E, bind_ret. cbv zeta.
  set (c1 := if (n =? -1) && negb eintr then change_mode (with_packet c p) (listen_mode c) else with_packet c p).
  assert (H4 : state c1 = state c ∧ requested_ip c1 = requested_ip c ∧ packet c1 = p
    ∧ c_xid c1 = c_xid c ∧ cinv c1) by (subst c1; destruct (_ && _); repeat split; done).
  destruct H4 as (Es & Er & Ep & Ex & Hc1).
  assert (Hg : ∀ B o out, good B c1 o out → good B c o out).
  { intros B o out. unfold good, uses. by rewrite Es, Er. }
  assert (Hidle : ∃ o out, Ok (Running c1, []) = Ok (o, out) ∧ good (acked now c data) c o out).
  { eexists _, _. split; [done|]. apply Hg. by apply good_idle. }
  change (listen_mode (with_packet c p)) with (listen_mode c). fold c1.
  destruct (Z.ltb_spec n 0) as [Hn|Hn]; [exact Hidle|]. specialize (Hr Hn).
  destruct (Z.eqb_spec (xid p) (c_xid c1)) as [Hx|Hx]; cbn [negb]; [|exact Hidle].
  destruct (rd_opt p Hr DHCP_MESSAGE_TYPE) as (m & Em & Hm); [unfold DHCP_MESSAGE_TYPE; lia|].
  rewrite Em, bind_ret. destruct m as [ptr|]; [|exact Hidle].
  destruct (Hm ptr eq_refl) as (_ & Hptr & _).
  destruct (byte_at_lt p ptr) as (t & Et & _); [lia|]. rewrite Et, bind_ret.
  assert (Hr1 : readable (packet c1)) by (by rewrite Ep).
  assert (Hno : ∀ o out, good (λ _, False) c1 o out → good (acked now c data) c o out).
  { intros o out Ho. apply Hg. eapply good_mono; [|exact Ho]. done. }
  assert (Hreq : state c1 = REQUESTING ∨ (holding (state c1) = true ∧ state c1 ≠ BOUND) →
    ∃ o out, (if t =? DHCPACK then packet_ack k now c1
              else if t =? DHCPNAK then mret (packet_nak now c1) else mret (Running c1, [])) = Ok (o, out)
      ∧ good (acked now c data) c o out).
  { intros Hs1. destruct (Z.eqb_spec t DHCPACK) as [->|].
    - destruct (packet_ack_spec now c1 Hc1 Hr1 Hs1) as (o & out & Ea & Ha). exists o, out. split; [done|].
      apply Hg. eapply good_mono; [|exact Ha]. cbn. intros c' (E1 & E2 & E3 & E4 & E5).
      rewrite Es in E2, Hs1. rewrite Ep in E1. rewrite Ex in Hx.
      constructor; [by destruct Hs1 as [|[? _]]; [right|left]|by destruct Hs1 as [->|[_ ?]]
        |exists n; by rewrite E1|by rewrite E1|rewrite E1; by exists ptr|exact E2|exact E3|exact E4|exact E5].
    - destruct (t =? DHCPNAK); [|exact Hidle].
      destruct (packet_nak now c1) as [o out] eqn:Ek. exists o, out. split; [done|]. apply Hg.
      change o with (fst (o, out)). change out with (snd (o, out)) at 2. rewrite <- Ek.
      apply packet_nak_spec; [done|naive_solver]. }
  unfold on_packet. destruct (state c1) eqn:Es1; try exact Hidle; try (apply Hreq; auto).
  - destruct (packet_selecting_spec now t c1 Hc1 Hr1 Es1) as (o & out & Ea & Ha). exists o, out. auto.
Qed.

(** ** Turns *)

(** The event a turn handles. *)
Definition handled_event (w : weather) (e : event) (c : client) : event :=
  if s32 (timeout c - now0 w) <=? 0 then Quiet else e.

Lemma client_turn_spec w e c :
  cinv c → event_ok c e →
  ∃ o out, client_turn k w e c = Ok (o, out) ∧
    (handled_event w e c = Signal (Some USR2) ∧ state c = RENEW_REQUESTED ∧ (∃ c', o = Running c' ∧ cinv c' ∧ state c' = RELEASED)
     ∨ good (λ c', ∃ data eintr, handled_event w e c = Ready data eintr ∧ acked (now1 w) c data c') c o out).
Proof.
  intros Hc He. pose proof Hc as [H1 H2 H3]. unfold client_turn. cbv zeta.
  destruct (negb _ && negb (fd_open c) && negb (opens w)) eqn:Eo; [eexists _, _; split; [done|right; exact I]|].
  set (c0 := if negb _ && negb (fd_open c) then with_listen c (listen_mode c) true else c).
  assert (E0 : timeout c0 = timeout c ∧ state c0 = state c ∧ requested_ip c0 = requested_ip c
    ∧ packet c0 = packet c ∧ c_xid c0 = c_xid c ∧ listen_mode c0 = listen_mode c ∧ cinv c0)
    by (subst c0; clear Eo; destruct (negb _ && negb (fd_open c)); (do 6 (split; [reflexivity|])); [by constructor|exact Hc]).
  destruct E0 as (E1 & E2 & E3 & E4 & E5 & E6 & Hc0).
  fold (handled_event w e c0). assert (Eh : handled_event w e c0 = handled_event w e c)
    by (unfold handled_event; by rewrite E1). rewrite Eh. clear Eh.
  assert (Hg : ∀ B o out, good B c0 o out → good B c o out).
  { intros B o out. unfold good, uses. by rewrite E2, E3. }
  set (B := λ c', ∃ data eintr, handled_event w e c = Ready data eintr ∧ acked (now1 w) c data c').
  assert (Hh : event_ok c0 (handled_event w e c)).
  { unfold handled_event. destruct (_ <=? _); [done|]. destruct e; try done. cbn in *. by rewrite E4. }
  destruct (handled_event w e c) as [|data eintr|[[| |]|]|] eqn:Ev.
  - destruct (on_timeout_spec (random w) (now1 w) c0 Hc0) as (o & out & E & Ho).
    exists o, out. split; [done|right]. apply Hg. by eapply good_mono; [|exact Ho].
  - destruct (decide (listen_mode c0 = LISTEN_NONE)) as [Hn|Hn].
    + eexists _, _. split; [reflexivity|right]. apply Hg. by apply good_idle.
    + destruct (handle_ready_spec (now1 w) data eintr c0 Hc0 Hh) as (o & out & E & Ho).
      exists o, out. split; [done|right]. apply Hg. eapply good_mono; [|exact Ho].
      cbn. intros c' Ha. exists data, eintr. split; [done|].
      destruct Ha. rewrite E2, E4, E5 in *. constructor; done.
  - cbn [handle_signal]. destruct (perform_renew c0) as [c' out] eqn:Ep.
    eexists _, _. split; [done|right]. apply Hg. pose proof (perform_renew_spec B c0 Hc0) as Hr.
    by rewrite Ep in Hr.
  - cbn [handle_signal]. destruct (decide (state c0 = RENEW_REQUESTED)) as [Es|Es].
    + exists (Running (with_timer (with_state (change_mode c0 LISTEN_NONE) RELEASED) 0x7fffffff (packet_num c0))), [].
      unfold perform_release. rewrite decide_False by (rewrite Es; intros [|[|]]; done). split; [done|]. left.
      split; [done|]. split; [congruence|]. eexists. split; [done|]. split; [|done].
      destruct Hc0. constructor; cbn; done.
    + destruct (perform_release_spec B (random w) c0 Hc0 Es) as (c' & out & E & Ho).
      rewrite E, bind_ret. eexists _, _. split; [done|right]. by apply Hg.
  - cbn [handle_signal]. eexists _, _. split; [reflexivity|]. by right.
  - eexists _, _. split; [done|right]. apply Hg. by apply good_idle.
  - eexists _, _. split; [done|right]. apply Hg. by apply good_idle.
Qed.
End client.

(** ** The theorems *)

(** C24: for a client whose identifier and host name leave room for its options and
    which tries at most 32 times, every turn of the loop completes without undefined
    behaviour, whatever [select] reports, when a frame that arrives fits the buffers
    and the options of its message can be looked up ([event_ok]); the client stays in
    [cinv] (the size of the packet, the number of tries, no kernel socket);
    and the interface carries the address that belongs to the state: the scripts
    run in the turn set it to [requested_ip] when the client enters BOUND,
    RENEWING, REBINDING or RENEW_REQUESTED and remove it when it leaves them, but
    for a SIGUSR2 in RENEW_REQUESTED. *)
Theorem client_turn_safe `{Harp : ArpPing} k id host w e c
    (Hk : identified k id host) (Hr : cc_discover_retry k ≤ 32) (Hc : cinv c) (He : event_ok c e) :
  ∃ o out, client_turn k w e c = Ok (o, out) ∧
    match o with
    | Exited _ => True
    | Running c' => cinv c' ∧
        (e = Signal (Some USR2) ∧ state c = RENEW_REQUESTED ∨ configures (uses c) out = uses c')
    end.
Proof.
  destruct (client_turn_spec k id host Hk Hr w e c Hc He) as (o & out & E & H). exists o, out.
  split; [done|]. destruct H as [(Hv & Hs & c' & -> & Hc' & _)|Hg].
  - split; [done|]. left. split; [|done]. unfold handled_event in Hv. by destruct (_ <=? _).
  - destruct o as [c'|]; [|done]. destruct Hg as (? & ? & _). split; [done|]. by right.
Qed.

(** C25: the client enters BOUND only on a frame that carries an acknowledgement
    with the transaction number of its request, in a state in which it waits for
    one and, from REQUESTING, after nobody has answered an ARP request for the
    address; it then has the address and the lease time of that message (an hour
    when it names none), renews at half the time, rebinds at 7/8 of it modulo
    2^32, and counts from the time the frame was read. *)
Theorem client_binds_on_ack `{Harp : ArpPing} k id host w e c c' out
    (Hk : identified k id host) (Hr : cc_discover_retry k ≤ 32) (Hc : cinv c) (He : event_ok c e)
    (E : client_turn k w e c = Ok (Running c', out)) (Hb : state c' = BOUND) :
  state c = BOUND ∧ requested_ip c' = requested_ip c
  ∨ ∃ data eintr, e = Ready data eintr ∧ acked (now1 w) c data c'.
Proof.
  destruct (client_turn_spec k id host Hk Hr w e c Hc He) as (o & out' & E' & H).
  rewrite E in E'. injection E' as <- <-. destruct H as [(_ & _ & c1 & [= <-] & _ & Hs)|(_ & _ & H)]; [congruence|].
  destruct (H Hb) as [?|(data & eintr & Hv & Ha)]; [by left|right]. exists data, eintr. split; [|done].
  unfold handled_event in Hv. by destruct (_ <=? _).
Qed.

(** A SIGUSR1 to a bound client followed by a SIGUSR2 before an answer: the
    client enters RELEASED without a RELEASE message and without the "deconfig"
    script, so that the interface keeps an address the state no longer has; a
    SIGUSR2 alone does both. *)
Theorem client_release_skipped k id host r r' c
    (Hk : identified k id host) (Hs : state c = BOUND) :
  (∃ c1 c2, perform_renew c = (c1, []) ∧ perform_release k r c1 = Ok (c2, []) ∧ state c2 = RELEASED
     ∧ configures (uses c) [] = Some (requested_ip c) ∧ uses c2 = None)
  ∧ ∃ c2 p, perform_release k r' c
      = Ok (c2, [Send (Kernel p (requested_ip c) CLIENT_PORT (server_addr c) SERVER_PORT); Script None "deconfig"])
    ∧ state c2 = RELEASED ∧ client_msg k DHCPRELEASE r' (requested_ip c)
        (identity DHCPRELEASE id host ++ address_items (requested_ip c) (server_addr c)) p.
Proof.
  split.
  - eexists _, _. unfold perform_renew, uses. rewrite Hs. split; [reflexivity|]. split; [reflexivity|]. done.
  - destruct (send_release_spec k id host Hk r' (server_addr c) (requested_ip c)) as (p & E & Hm).
    unfold perform_release. rewrite decide_True, E, bind_ret by auto. eexists _, p. split; [reflexivity|]. done.
Qed.
