(* ===== verification/DhcpClientLease.v ===== *)
(** * The DHCP client: the lease runs out

    A bound client that hears nothing renews, rebinds and gives its address up,
    in finitely many turns and in time, when the turns of the loop are not late. *)

From stdpp Require Import base numbers strings list.
From S2P Require Import Prelude Bytes DhcpOptions DhcpPacket DhcpLeases DhcpServer DhcpFiles DhcpClient DhcpClientMsg DhcpClientProps.

(** A turn in which [select] has waited for the timeout, at most [d] seconds late,
    and sockets can be opened. *)
Record prompt (d : Z) (c : client) (w : weather) : Prop := {
  pr_opens : opens w = true;
  pr_time : timeout c ≤ now1 w ≤ timeout c + d }.

(** The times of a lease: from when the client asks its server, from when it asks every
    server, the end, and how long before the next of these times it stops asking. *)
Record plan := mk_plan { pl_renew : Z; pl_rebind : Z; pl_end : Z; pl_margin : Z }.

(** A turn that keeps the address, at the time [now]: the client asks its server to renew
    the lease, and again after half of the time that is left; it goes on to REBINDING; or
    it asks every server. *)
Inductive phase_step (k : client_config) (d : Z) (q : plan) (now : Z) (c c' : client) : list caction → Prop :=
| Renews a :
    state c = BOUND ∨ state c = RENEWING → state c' = RENEWING → pl_renew q ≤ now ≤ pl_rebind q + d →
    send_renew k (c_xid c) (server_addr c) (requested_ip c) = Ok a →
    timeout c' = timeout c + (pl_rebind q - timeout c) / 2 → phase_step k d q now c c' [Send a]
| Rebinds :
    state c = BOUND ∨ state c = RENEWING → state c' = REBINDING →
    pl_rebind q - pl_margin q ≤ now ≤ pl_rebind q + d → pl_rebind q ≤ timeout c' ≤ pl_rebind q + d →
    phase_step k d q now c c' []
| Asks_all a :
    state c = REBINDING → state c' = REBINDING → pl_rebind q ≤ now ≤ pl_end q + 2 * d →
    send_renew k (c_xid c) 0 (requested_ip c) = Ok a → phase_step k d q now c c' [Send a].

(** Whatever the surroundings, turns without an answer lead from [c] through these phases
    to a turn in which the client gives up the address, at the end of REBINDING; until
    then it keeps the address. *)
Inductive gives_up (k : client_config) (d : Z) (q : plan) : client → Prop :=
| Gives_up c : (∀ w, prompt d c w → then_gives_up k d q w c) → gives_up k d q c
with then_gives_up (k : client_config) (d : Z) (q : plan) : weather → client → Prop :=
| Lost w c c' :
    client_turn (H := λ _ _, (1, 0)) k w Quiet c = Ok (Running c', [Script None "deconfig"]) →
    state c = REBINDING → state c' = INIT_SELECTING →
    pl_end q - pl_margin q ≤ now1 w ≤ pl_end q + 2 * d →
    then_gives_up k d q w c
| Kept w c c' out :
    client_turn (H := λ _ _, (1, 0)) k w Quiet c = Ok (Running c', out) →
    phase_step k d q (now1 w) c c' out → uses c' = uses c → gives_up k d q c' → then_gives_up k d q w c.

(** The fields of the lease. *)
Record lease_ok (d : Z) (c : client) : Prop := {
  lo_t2 : t2 c ≤ lease c;
  lo_start : 0 ≤ start c;
  lo_lease : 0 ≤ lease c;
  lo_limit : start c + lease c + 2 * d < 4294967296;
  lo_d : 0 ≤ d }.

Section client.
Context (k : client_config) (id : bytes) (host : option bytes) (Hk : identified k id host).
Context (d : Z).

#[local] Abbreviation turn := (client_turn (H := λ _ _, (1, 0)) k).

(** The client at the switch of a turn: the socket is open when it listens. *)
Definition opened (c : client) : client :=
  if negb (bool_decide (listen_mode c = LISTEN_NONE)) && negb (fd_open c)
  then with_listen c (listen_mode c) true else c.

Lemma quiet_turn `{Harp : ArpPing} w c :
  opens w = true → client_turn k w Quiet c = on_timeout k (random w) (now1 w) (opened c).
Proof.
  intros Ho. unfold client_turn, opened. rewrite Ho. cbn [negb]. rewrite andb_false_r. cbv zeta.
  by destruct (s32 _ <=? 0).
Qed.

Lemma opened_same c :
  state (opened c) = state c ∧ t1 (opened c) = t1 c ∧ t2 (opened c) = t2 c ∧ lease (opened c) = lease c
  ∧ start (opened c) = start c ∧ requested_ip (opened c) = requested_ip c
  ∧ c_xid (opened c) = c_xid c ∧ server_addr (opened c) = server_addr c ∧ packet_num (opened c) = packet_num c.
Proof. unfold opened. by destruct (_ && _). Qed.

Lemma u32_sub a b : 0 ≤ b ≤ a → a < 4294967296 → u32 (a - b) = a - b.
Proof. intros. apply u32_id. unfold is_u32. lia. Qed.

(** Half of the way from [a] to [b]. *)
Lemma half_u32 a b :
  0 ≤ a ≤ b → b < 4294967296 → u32 ((b - a) / 2 + a) = (b - a) / 2 + a ∧ a ≤ (b - a) / 2 + a ≤ b
  ∧ (1 < b - a → b - ((b - a) / 2 + a) < b - a).
Proof.
  intros H Hb.
  pose proof (Z.div_mod (b - a) 2). pose proof (Z.mod_pos_bound (b - a) 2).
  rewrite u32_id by (unfold is_u32; lia). lia.
Qed.

Lemma quarter_day l : 0 ≤ l → 1 ≤ l / 14400 + 1.
Proof. intros H. pose proof (Z.div_pos l 14400). lia. Qed.

(** *** REBINDING *)

(** The plan of a lease of [l] seconds from [s] on. *)
Definition fits (q : plan) (s l : Z) : Prop := pl_end q = s + l ∧ pl_margin q = l / 14400 + 1.

Lemma rebinding_gives_up q n c :
  state c = REBINDING → lease_ok d c → 0 ≤ t2 c → start c + t2 c ≤ timeout c ≤ start c + t2 c + d →
  fits q (start c) (lease c) → pl_rebind q ≤ start c + t2 c →
  lease c - t2 c ≤ Z.of_nat n → gives_up k d q c.
Proof.
  revert c. induction n as [|n IH]; intros c Hs [L1 L2 L3 L4 L5] Ht2 Hto [Q1 Q2] Hq Hn;
    constructor; intros w [Ho Hw]; pose proof (quiet_turn (Harp := λ _ _, (1, 0)) w c Ho) as Et;
    destruct (opened_same c) as (E1 & E2 & E3 & E4 & E5 & E6 & E7 & E8 & E9);
    unfold on_timeout in Et; rewrite E1, Hs in Et; unfold timeout_rebinding in Et; rewrite E3, E4 in Et;
    rewrite u32_sub in Et by lia; pose proof (quarter_day (lease c) L3);
    (destruct (Z.leb_spec (lease c - t2 c) (lease c / 14400 + 1));
      [eapply Lost; [exact Et|done|done|lia]|]).
  - lia.
  - destruct (send_renew_spec k id host Hk (c_xid (opened c)) 0 (requested_ip (opened c))) as (p & E & _).
    rewrite E, bind_ret in Et. cbv zeta in Et. rewrite E6, E7 in E.
    destruct (half_u32 (t2 c) (lease c)) as (Eh & Hh & Hd); [lia..|]. rewrite !Eh, E5 in Et.
    eapply Kept; [exact Et| |unfold uses; cbn [with_timer with_times state requested_ip]; by rewrite E1, E6|].
    { eapply Asks_all; [done|cbn; by rewrite E1|lia|exact E]. }
    clear Et. set (c' := with_timer _ _ _).
    assert (F : state c' = REBINDING ∧ lease c' = lease c ∧ start c' = start c
      ∧ t2 c' = (lease c - t2 c) / 2 + t2 c ∧ timeout c' = u32 ((lease c - t2 c) / 2 + t2 c + start c))
      by (subst c'; cbn; rewrite E1; auto).
    destruct F as (F1 & F2 & F3 & F4 & F5). rewrite u32_id in F5 by (unfold is_u32; lia).
    apply IH; [done|constructor; lia|lia|lia|by rewrite F2, F3|lia..].
Qed.

(** *** RENEWING, and BOUND, which the first turn makes RENEWING *)

Lemma renewing_step w c :
  opens w = true → state c = BOUND ∨ state c = RENEWING →
  ∃ c1, turn w Quiet c = timeout_renewing k (now1 w) c1 ∧ state c1 = RENEWING ∧ t1 c1 = t1 c
    ∧ t2 c1 = t2 c ∧ lease c1 = lease c ∧ start c1 = start c ∧ uses c1 = uses c
    ∧ c_xid c1 = c_xid c ∧ server_addr c1 = server_addr c ∧ requested_ip c1 = requested_ip c.
Proof.
  intros Ho Hs. rewrite (quiet_turn (Harp := λ _ _, (1, 0)) w c Ho).
  destruct (opened_same c) as (E1 & E2 & E3 & E4 & E5 & E6 & E7 & E8 & E9).
  unfold on_timeout. rewrite E1. unfold uses. destruct Hs as [Hs|Hs]; rewrite Hs.
  - exists (change_mode (with_state (opened c) RENEWING) LISTEN_RAW).
    cbn. rewrite E2, E3, E4, E5, E6, E7, E8. auto 14.
  - exists (opened c). rewrite E1, E2, E3, E4, E5, E6, E7, E8, Hs. auto 14.
Qed.

(** The turn that ends RENEWING. *)
Lemma rebinding_next q c c1 t :
  lease_ok d c → 0 ≤ t1 c ≤ t2 c → timeout c = start c + t1 c → timeout c ≤ t ≤ timeout c + d →
  t2 c1 = t2 c → lease c1 = lease c → start c1 = start c →
  fits q (start c) (lease c) → pl_rebind q = start c + t2 c →
  let c' := with_timer (with_state c1 REBINDING) (u32 (t + (t2 c - t1 c))) (packet_num c1) in
  pl_rebind q ≤ timeout c' ≤ pl_rebind q + d ∧ gives_up k d q c'.
Proof.
  intros [L1 L2 L3 L4 L5] Ht Hto Hw E3 E4 E5 Hf Hq. set (c' := with_timer _ _ _). cbv zeta.
  assert (F : state c' = REBINDING ∧ lease c' = lease c ∧ start c' = start c ∧ t2 c' = t2 c
    ∧ timeout c' = u32 (t + (t2 c - t1 c))) by (subst c'; cbn; auto 10).
  destruct F as (F1 & F2 & F3 & F4 & F5). rewrite u32_id in F5 by (unfold is_u32; lia).
  split; [lia|]. apply (rebinding_gives_up q (Z.to_nat (lease c'))); [done|constructor; lia|lia|lia| |lia..].
  by rewrite F2, F3.
Qed.

Lemma renewing_gives_up q n c :
  state c = BOUND ∨ state c = RENEWING → lease_ok d c → 0 ≤ t1 c ≤ t2 c → timeout c = start c + t1 c →
  fits q (start c) (lease c) → pl_rebind q = start c + t2 c → pl_renew q ≤ timeout c →
  t2 c - t1 c ≤ Z.of_nat n → gives_up k d q c.
Proof.
  revert c. induction n as [|n IH]; intros c Hs [L1 L2 L3 L4 L5] Ht Hto Hf Hq Hr Hn;
    constructor; intros w [Ho Hw];
    destruct (renewing_step w c Ho Hs) as (c1 & Et & E1 & E2 & E3 & E4 & E5 & Eu & E6 & E7 & E8);
    unfold timeout_renewing in Et; rewrite E2, E3, E4 in Et; rewrite u32_sub in Et by lia;
    pose proof (quarter_day (lease c) L3); pose proof Hf as [Q1 Q2];
    (destruct (Z.leb_spec (t2 c - t1 c) (lease c / 14400 + 1)) as [Hle|Hgt];
      [destruct (rebinding_next q c c1 (now1 w)) as [Hb Hg]; [done..|];
       eapply Kept; [exact Et|apply Rebinds; [done|done|lia|exact Hb]|unfold uses in *; rewrite E1 in Eu; exact Eu|exact Hg]|]).
  - lia.
  - destruct (send_renew_spec k id host Hk (c_xid c1) (server_addr c1) (requested_ip c1)) as (p & Ep & _).
    rewrite Ep, bind_ret in Et. cbv zeta in Et. rewrite E7, E8 in Et. rewrite E6, E7, E8 in Ep.
    destruct (half_u32 (t1 c) (t2 c)) as (Eh & Hh & Hd); [lia..|]. rewrite !Eh, E5 in Et.
    set (c' := with_timer _ _ _) in Et.
    assert (F : state c' = RENEWING ∧ lease c' = lease c ∧ start c' = start c ∧ t2 c' = t2 c
      ∧ t1 c' = (t2 c - t1 c) / 2 + t1 c ∧ timeout c' = u32 ((t2 c - t1 c) / 2 + t1 c + start c))
      by (subst c'; cbn; auto 10).
    destruct F as (F1 & F2 & F3 & F4 & F5 & F6). rewrite u32_id in F6 by (unfold is_u32; lia).
    eapply Kept; [exact Et| |unfold uses in *; subst c'; cbn [with_timer with_times state requested_ip]; exact Eu|].
    + apply Renews; [done|done|lia|exact Ep|].
      rewrite F6, Hq, Hto. replace (start c + t2 c - (start c + t1 c)) with (t2 c - t1 c) by lia. lia.
    + apply IH; [by right|constructor; lia|lia|lia|by rewrite F2, F3|lia..].
Qed.
End client.

(** ** The theorems *)

(** The times of a bound client's lease: half of it, seven eighths, and all of it. *)
Definition lease_plan (c : client) : plan :=
  mk_plan (start c + lease c / 2) (start c + lease c * 7 / 8) (start c + lease c) (lease c / 14400 + 1).

(** C28: a bound client that hears nothing renews, rebinds and gives its address up in
    time.  Let the lease be shorter than 2^32/7 seconds and end, with the delays, before
    2^32, and let [t1], [t2] and [timeout] be those of a client that has just entered
    BOUND.  However late the turns of the loop are, up to [d] seconds each, when sockets
    can be opened: from half of the lease on the client asks its server, each time after
    half of the time that is left, until less than a 14400th of the lease and a second is
    left to its seven eighths; it is then REBINDING, and from the seven eighths on asks
    every server; and finitely many turns end in INIT_SELECTING with the "deconfig"
    script, not earlier than a 14400th of the lease and a second before its end, and at
    most [2 d] seconds after it.  Until then the address stays. *)
Theorem client_lease_runs_out k id host d c
    (Hk : identified k id host) (Hs : state c = BOUND)
    (H1 : t1 c = lease c / 2) (H2 : t2 c = Z.shiftr (u32 (lease c * 7)) 3)
    (Ht : timeout c = u32 (t1 c + start c)) (H0 : 0 ≤ start c) (Hl : 0 ≤ lease c)
    (H7 : lease c * 7 < 4294967296) (Hd : 0 ≤ d) (Hlim : start c + lease c + 2 * d < 4294967296) :
  gives_up k d (lease_plan c) c.
Proof.
  rewrite u32_id in H2 by (unfold is_u32; lia). rewrite Z.shiftr_div_pow2 in H2 by lia.
  change (2 ^ 3) with 8 in H2.
  pose proof (Z.div_mod (lease c) 2 ltac:(lia)). pose proof (Z.mod_pos_bound (lease c) 2).
  pose proof (Z.div_mod (lease c * 7) 8 ltac:(lia)). pose proof (Z.mod_pos_bound (lease c * 7) 8).
  assert (t1 c ≤ t2 c).
  { rewrite H1, H2. apply Z.div_le_lower_bound; [lia|]. lia. }
  rewrite u32_id in Ht by (unfold is_u32; lia).
  apply (renewing_gives_up k id host Hk d (lease_plan c) (Z.to_nat (t2 c))); [by left|constructor; lia|lia|lia|done|cbn; lia..].
Qed.

(** With a longer lease the multiplication overflows: [t2] is less than [t1], and
    the client renews but sets its next timeout behind the end of the lease. *)
Lemma client_overstays k id host c w
    (Hk : identified k id host) (Hs : state c = BOUND) (Hl : lease c = 613566757)
    (H1 : t1 c = lease c / 2) (H2 : t2 c = Z.shiftr (u32 (lease c * 7)) 3)
    (H0 : 0 ≤ start c < 1900000000) (Ho : opens w = true) :
  t2 c = 0 ∧ ∃ c' out, client_turn (H := λ _ _, (1, 0)) k w Quiet c = Ok (Running c', out)
    ∧ uses c' = uses c ∧ start c' = start c ∧ start c + lease c + 1600000000 < timeout c'.
Proof.
  rewrite Hl in H1, H2. change (613566757 / 2) with 306783378 in H1.
  change (Z.shiftr (u32 (613566757 * 7)) 3) with 0 in H2. split; [done|].
  destruct (renewing_step k w c Ho (or_introl Hs)) as (c1 & Et & E1 & E2 & E3 & E4 & E5 & Eu & _).
  unfold timeout_renewing in Et. rewrite E2, E3, E4, Hl, H1, H2 in Et.
  change (u32 (0 - 306783378) <=? 613566757 / 14400 + 1) with false in Et. cbv iota in Et.
  destruct (send_renew_spec k id host Hk (c_xid c1) (server_addr c1) (requested_ip c1)) as (p & Ep & _).
  rewrite Ep, bind_ret in Et. eexists _, _. split; [exact Et|]. clear Et.
  split; [exact Eu|]. split; [exact E5|]. cbn [with_timer timeout]. rewrite E5, Hl.
  change (u32 (u32 (0 - 306783378) / 2 + 306783378)) with 2300875337.
  rewrite u32_id by (unfold is_u32; lia). lia.
Qed.
