(* ===== verification/DhcpHandshake.v ===== *)
(** * Client and server together

    The exchange DISCOVER, OFFER, REQUEST, ACK between the client of dhcpc.c and
    the server of dhcpd.c, over the frames of packet.c and clientpacket.c: what one
    sends is what the other reads. *)

From stdpp Require Import base numbers sets strings list.
From S2P Require Import Prelude Bytes DhcpOptions DhcpOptionsProps DhcpPacket DhcpPacketProps.
From S2P Require Import DhcpLeases DhcpLeasesProps DhcpServer DhcpReply DhcpServerInv DhcpServerProps DhcpReplyBytes.
From S2P Require Import DhcpFiles DhcpClient DhcpClientMsg DhcpClientProps DhcpClientLease.

#[global] Arguments handle_packet : simpl never.
#[global] Arguments client_turn : simpl never.
#[global] Arguments raw_packet_frame : simpl never.

(** ** The exchange *)

(** The frame of a packet sent with [raw_packet]. *)
Definition wire (a : action) : res (option bytes) :=
  match a with
  | Raw p sip sport dip dport _ _ =>
      f ← raw_packet_frame p sip sport dip dport; mret (Some (frame_bytes f))
  | _ => mret None
  end.

Section arp.
Context `{Harp : ArpPing} `{Hnet : Network}.

(** The server's answer to what the client has sent. *)
Definition answer (s : server) (out : list caction) : result :=
  match out with
  | [Send a] =>
      match payload a with
      | Some p => '(n, p) ← get_packet (Some p); if n <? 0 then mret (s, []) else handle_packet s p
      | None => mret (s, [])
      end
  | _ => mret (s, [])
  end.

(** One round trip: the client's turn [w] after a timeout, the server's answer, and
    the client's turn [w'] on the first packet of the answer. *)
Definition round_trip (k : client_config) (w w' : weather) (s : server) (c : client)
  : res (outcome * server) :=
  '(o, out) ← client_turn k w Quiet c;
  match o with
  | Exited n => mret (Exited n, s)
  | Running c =>
      '(s, ans) ← answer s out;
      match ans with
      | [] => mret (Running c, s)
      | a :: _ =>
          f ← wire a;
          '(o, _) ← client_turn k w' (Ready f false) c;
          mret (o, s)
      end
  end.
End arp.

(** ** The client's messages, read by the server *)

Lemma identity_codes t id host c d :
  Opt c d ∈ identity t id host → c = DHCP_MESSAGE_TYPE ∨ c = DHCP_CLIENT_ID ∨ c = DHCP_HOST_NAME ∨ c = DHCP_VENDOR.
Proof.
  unfold identity. rewrite !elem_of_cons, elem_of_app. intros [E|[E|[H|H]]].
  - injection E as -> ->. auto.
  - injection E as -> ->. auto.
  - destruct host; [|by apply elem_of_nil in H]. apply list_elem_of_singleton in H. injection H as -> ->. auto.
  - apply list_elem_of_singleton in H. injection H as -> ->. auto.
Qed.

(** The options after the identity: numbers of four bytes, and the list. *)
Definition plain (it : item) : Prop :=
  (∃ v, it = number_item DHCP_REQUESTED_IP v) ∨ (∃ v, it = number_item DHCP_SERVER_ID v) ∨ it = request_item.

Lemma client_items_readable t id host more :
  Forall plain more → items_readable (identity t id host ++ more).
Proof.
  intros Hm. rewrite Forall_forall in Hm. split.
  - intros d [H|H]%elem_of_app.
    + apply identity_codes in H. unfold DHCP_OPTION_OVER, DHCP_MESSAGE_TYPE, DHCP_CLIENT_ID, DHCP_HOST_NAME, DHCP_VENDOR in H. lia.
    + apply Hm in H as [[v E]|[[v E]|E]]; injection E; done.
  - intros c d [H|H]%elem_of_app Hc.
    + apply identity_codes in H. unfold number_codes in Hc. rewrite !elem_of_cons, elem_of_nil in Hc.
      unfold DHCP_REQUESTED_IP, DHCP_LEASE_TIME, DHCP_SERVER_ID, DHCP_MESSAGE_TYPE, DHCP_CLIENT_ID, DHCP_HOST_NAME, DHCP_VENDOR in *. lia.
    + apply Hm in H as [[v E]|[[v E]|E]]; unfold number_item, request_item in E; injection E as -> ->;
        [apply length_be_bytes..|]. unfold number_codes in Hc. rewrite !elem_of_cons, elem_of_nil in Hc.
      unfold DHCP_REQUESTED_IP, DHCP_LEASE_TIME, DHCP_SERVER_ID, DHCP_PARAM_REQ in *. lia.
Qed.

(** An option that the identity does not have is looked up behind it. *)
Lemma find_behind t id host more code :
  code ≠ DHCP_MESSAGE_TYPE → code ≠ DHCP_CLIENT_ID → code ≠ DHCP_HOST_NAME → code ≠ DHCP_VENDOR →
  find_item (identity t id host ++ more) code 240
  = find_item more code (240 + length (encs (identity t id host))).
Proof.
  intros H1 H2 H3 H4. rewrite find_item_app.
  assert (E : ∀ its off, (∀ c d, Opt c d ∈ its → c ≠ code) → find_item its code off = None).
  { induction its as [|[|c d] its IH]; intros off H; [done| |]; cbn [find_item].
    - apply IH. intros c d Hc. apply (H c d). by right.
    - destruct (Z.eqb_spec c code) as [->|]; [by destruct (H code d); [left|]|].
      apply IH. intros c' d' Hc. apply (H c' d'). by right. }
  rewrite E; [done|]. intros c d Hc. apply identity_codes in Hc. destruct_or! Hc; congruence.
Qed.

Section message.
Context (k : client_config) (id : bytes) (host : option bytes) (Hk : identified k id host).
Context (t x y : Z) (more : list item) (p : bytes).
Context (Hm : client_msg k t x y (identity t id host ++ more) p) (Hp : Forall plain more).

Lemma client_msg_readable : readable p.
Proof.
  destruct Hm as [Hi _ Hb]. eapply readable_items; [exact Hi|by apply client_items_readable|done].
Qed.

Lemma client_lookup code :
  0 < code < 255 → get_option p code = Ok (fst <$> find_item (identity t id host ++ more) code 240).
Proof.
  intros Hc. apply get_option_has_items; [apply Hm| |done]. by apply client_items_readable.
Qed.

Lemma client_typed : typed p t.
Proof.
  exists 242%nat. split.
  - rewrite client_lookup by (unfold DHCP_MESSAGE_TYPE; lia). reflexivity.
  - destruct Hm as [(Hl & _ & rest & Hd) _ _]. unfold identity in Hd. rewrite encs_app, encs_cons in Hd.
    rewrite <- !app_assoc in Hd. eapply byte_at_drop.
    eapply (drop_step p 240 [DHCP_MESSAGE_TYPE; 1]); [exact Hd|cbn; lia].
Qed.

(** [get_packet] delivers it. *)
Lemma client_get_packet :
  type_op t = BOOTREQUEST → is_u32 x → is_u32 y → get_packet (Some p) = Ok (548, p).
Proof.
  intros Ho Hx Hy. pose proof Hm as [Hi Hh Hb]. assert (Hl : length p = 548%nat) by apply Hi.
  destruct (head_fields _ _ _ _ _ (id_arp _ _ _ Hk) Hx Hy Hh) as (E1 & _ & _ & _ & _ & _ & _ & E8).
  unfold get_packet. rewrite write_at_Ok by (change (length zero_msg) with 548%nat; lia). rewrite bind_ret.
  rewrite splice_all by done. rewrite E8, Z.eqb_refl. cbn [negb]. rewrite E1, Ho. change (BOOTREQUEST =? BOOTREQUEST) with true.
  cbv iota. rewrite client_lookup by (unfold DHCP_VENDOR; lia).
  destruct (find_item (identity t id host ++ more) DHCP_VENDOR 240) as [[v d]|] eqn:Ef; cbn [fmap option_fmap option_map fst].
  2: { rewrite !bind_ret, Hl. done. }
  rewrite bind_ret. destruct Hi as (_ & _ & rest & Hd).
  destruct (find_item_data _ p 240 rest DHCP_VENDOR v d Hd Ef) as (_ & Ev & _ & _ & Hin).
  rewrite Ev, bind_ret.
  assert (Hd' : d = version).
  { apply elem_of_app in Hin as [Hin|Hin].
    - unfold identity in Hin. rewrite !elem_of_cons, elem_of_app in Hin.
      destruct Hin as [E|[E|[H|H]]]; [by injection E|by injection E| |].
      + destruct host; [|by apply elem_of_nil in H]. apply list_elem_of_singleton in H. by injection H.
      + apply list_elem_of_singleton in H. by injection H.
    - rewrite Forall_forall in Hp. apply Hp in Hin as [[u E]|[[u E]|E]]; by injection E. }
  subst d. change (Z.of_nat (length version) =? Z.of_nat (length broken_vendor)) with false.
  cbn [andb]. rewrite bind_ret, Hl. done.
Qed.

Lemma client_no_lease_time : asked_time p = Ok None.
Proof.
  unfold asked_time. rewrite client_lookup by (unfold DHCP_LEASE_TIME; lia).
  rewrite find_behind by done. rewrite Forall_forall in Hp.
  destruct (find_item more _ _) as [[ptr d]|] eqn:Ef; [|done].
  exfalso. destruct Hm as [(_ & _ & rest & Hd) _ _]. rewrite encs_app, <- app_assoc in Hd.
  assert (Hd' : drop (240 + length (encs (identity t id host))) p = encs more ++ 255 :: rest)
    by (by eapply drop_step).
  destruct (find_item_data _ _ _ _ _ _ _ Hd' Ef) as (_ & _ & _ & _ & Hin).
  apply Hp in Hin as [[u E]|[[u E]|E]]; by injection E.
Qed.
End message.

(** ** The server's replies, read by the client *)

Lemma reply_no_overload s old t y v q more :
  Forall (from_config (c_options (cfg s))) more → is_reply s old t y (Some v) q →
  no_overload (Opt DHCP_MESSAGE_TYPE [t] :: Opt DHCP_SERVER_ID (be_bytes 4 (c_server (cfg s)))
    :: [Opt DHCP_LEASE_TIME (be_bytes 4 v)] ++ more).
Proof.
  intros Hm _ d Hin. apply elem_of_cons in Hin as [E|Hin]; [by injection E|].
  apply elem_of_cons in Hin as [E|Hin]; [by injection E|].
  apply elem_of_cons in Hin as [E|Hin]; [by injection E|].
  by destruct (from_config_items _ _ _ _ Hm Hin).
Qed.

Lemma reply_lookup s old t y v q :
  is_reply s old t y (Some v) q → is_u32 (c_server (cfg s)) →
  typed q t ∧ ∃ ptr, get_option q DHCP_SERVER_ID = Ok (Some ptr) ∧ read32 q ptr = Ok (c_server (cfg s)).
Proof.
  intros Hq Hu. destruct (ir_items _ _ _ _ _ _ Hq) as (more & Hi & Hm).
  pose proof (reply_no_overload _ _ _ _ _ _ more Hm Hq) as Hno.
  pose proof Hi as (Hl & _ & rest & Hd). split.
  - exists 242%nat. split.
    + rewrite (get_option_has_items q _ DHCP_MESSAGE_TYPE Hi Hno) by (unfold DHCP_MESSAGE_TYPE; lia). reflexivity.
    + rewrite encs_cons, <- app_assoc in Hd. eapply byte_at_drop.
      eapply (drop_step q 240 [DHCP_MESSAGE_TYPE; 1]); [exact Hd|cbn; lia].
  - exists 245%nat. split.
    + rewrite (get_option_has_items q _ DHCP_SERVER_ID Hi Hno) by (unfold DHCP_SERVER_ID; lia). reflexivity.
    + rewrite read32_slice by lia. f_equal.
      destruct (find_item_data _ q 240 rest DHCP_SERVER_ID 245 (be_bytes 4 (c_server (cfg s))) Hd eq_refl) as (Hs & _).
      rewrite length_be_bytes in Hs. rewrite Hs, be_val_bytes. by apply Z.mod_small.
Qed.

Lemma asked_lease q v : asked_time q = Ok (Some v) → lease_of_ack q = Ok v.
Proof.
  unfold asked_time, lease_of_ack. intros H. apply bind_Ok in H as (o & E & H). rewrite E, bind_ret.
  destruct o as [ptr|]; [|done]. apply bind_Ok in H as (u & E' & H). injection H as <-. done.
Qed.

Section receive.
Context `{Harp : ArpPing}.

(** A message with the client's transaction number that arrives in time. *)
Lemma receive_turn k w c q sip sport dip mac i t :
  listen_mode c = LISTEN_RAW → opens w = true → 0 < s32 (timeout c - now0 w) →
  is_bytes q → length q = 548%nat → length (packet c) = 548%nat → cookie q = DHCP_MAGIC →
  is_u32 sip → is_u32 dip → xid q = c_xid c → typed q t →
  ∃ f, wire (Raw q sip sport dip CLIENT_PORT mac i) = Ok (Some f)
    ∧ client_turn k w (Ready (Some f) false) c = on_packet k (now1 w) t (with_packet (opened c) q).
Proof.
  intros Hlm Ho Ht Hb Hl Hlp Hck Hs Hd Hx (ptr & E1 & E2).
  assert (Hop : packet (opened c) = packet c ∧ listen_mode (opened c) = LISTEN_RAW ∧ timeout (opened c) = timeout c
    ∧ c_xid (opened c) = c_xid c) by (unfold opened; rewrite Hlm; destruct (fd_open c); done).
  destruct Hop as (P1 & P2 & P3 & P4).
  destruct (raw_packet_roundtrip q (packet c) sip sport dip Hb Hl Hlp Hs Hd Hck) as (f & Ef & _ & Er).
  exists (frame_bytes f). split; [unfold wire; by rewrite Ef, bind_ret|].
  unfold client_turn. rewrite Ho. cbn [negb]. rewrite andb_false_r. cbv zeta. fold (opened c).
  rewrite P3. destruct (Z.leb_spec (s32 (timeout c - now0 w)) 0); [lia|].
  rewrite P2. rewrite decide_False by done. unfold handle_ready, receive. rewrite P2, decide_False by done.
  rewrite P1, Er, bind_ret. change (548 =? -1) with false. cbn [andb]. cbv zeta.
  change (548 <? 0) with false. cbv iota. cbn [c_xid with_packet]. rewrite P4, Hx, Z.eqb_refl. cbn [negb].
  rewrite E1, bind_ret, E2, bind_ret. done.
Qed.

(** On an offer in INIT_SELECTING. *)
Lemma receive_offer k now c s old y v q :
  state c = INIT_SELECTING → packet c = q → cc_isQuerySrv k = false →
  is_reply s old DHCPOFFER y (Some v) q → is_u32 (c_server (cfg s)) → yiaddr q = y →
  on_packet k now DHCPOFFER c
  = Ok (Running (with_timer (with_state (with_requested (with_xid (with_server c (c_server (cfg s)))
          (xid q)) y) REQUESTING) now 0), []).
Proof.
  intros Es Ep Hq Hr Hu Hy. destruct (reply_lookup _ _ _ _ _ _ Hr Hu) as (_ & ptr & E1 & E2).
  unfold on_packet. rewrite Es. unfold packet_selecting. cbv zeta. rewrite Ep.
  change (DHCPOFFER =? DHCPOFFER) with true. cbv iota. rewrite E1, bind_ret, Hq, E2, bind_ret, Hy. done.
Qed.

(** On an acknowledgement in REQUESTING. *)
Lemma receive_ack k now c s old y v q :
  state c = REQUESTING → packet c = q → cc_quit_after_lease k = false → fst (arpping y now) ≠ 0 →
  is_reply s old DHCPACK y (Some v) q → is_u32 v → 0 ≤ now < 4294967296 →
  ∃ c' out, on_packet k now DHCPACK c = Ok (Running c', out) ∧ state c' = BOUND ∧ requested_ip c' = y
    ∧ lease c' = v ∧ start c' = now ∧ server_addr c' = server_addr c.
Proof.
  intros Es Ep Hq Ha Hr Hv Hn. unfold on_packet. rewrite Es.
  change (DHCPACK =? DHCPACK) with true. cbv iota. unfold packet_ack. cbv zeta. rewrite Ep, Es.
  pose proof (ir_yiaddr _ _ _ _ _ _ Hr) as Hy. rewrite Hy, bool_decide_true by done. cbn [andb].
  destruct (Z.eqb_spec (fst (arpping y now)) 0); [done|].
  unfold enter_bound. cbv zeta. rewrite Ep.
  rewrite (asked_lease q v) by (by eapply reply_time). rewrite bind_ret, Hq.
  rewrite (u32_id now) by done.
  destruct (foreground c); (eexists _, _; split; [reflexivity|]; cbn; by rewrite Hy).
Qed.
End receive.

(** ** The turns in which the client asks *)

(** The surroundings of a round trip: sockets can be opened, the clock is far from
    its end, and the answer arrives within [d] seconds. *)
Record in_time (d : Z) (w w' : weather) : Prop := {
  it_opens : opens w = true;
  it_opens' : opens w' = true;
  it_random : is_u32 (random w);
  it_now : 0 ≤ now1 w ≤ now0 w';
  it_answer : now0 w' < now1 w + d;
  it_limit : 0 ≤ now1 w' < 2147483584 ∧ now1 w < 2147483584 }.

Section ask.
Context `{Harp : ArpPing}.
Context (k : client_config) (id : bytes) (host : option bytes) (Hk : identified k id host).
Context (Hdelay : 1 ≤ cc_discover_delay k ≤ 64) (Hretry : 1 ≤ cc_discover_retry k).

Lemma first_retry c now :
  packet_num c = 0 → 0 ≤ now < 2147483584 → retry_timeout k c now = Ok (cc_discover_delay k + now).
Proof.
  intros Hn H. unfold retry_timeout. rewrite Hn. change (0 <=? 0) with true. change (0 <? 32) with true.
  cbn [andb]. cbv zeta. rewrite Z.shiftl_0_r, (u32_id (cc_discover_delay k)) by (unfold is_u32; lia).
  rewrite (u32_id (cc_discover_delay k)) by (unfold is_u32; lia).
  destruct (Z.ltb_spec 64 (cc_discover_delay k)); [lia|]. by rewrite u32_id by (unfold is_u32; lia).
Qed.

Lemma discover_turn c w w' :
  state c = INIT_SELECTING → packet_num c = 0 → listen_mode c = LISTEN_RAW →
  in_time (cc_discover_delay k) w w' →
  ∃ c1 p more, client_turn k w Quiet c = Ok (Running c1, [Send (broadcast k p)])
    ∧ client_msg k DHCPDISCOVER (random w) 0 (identity DHCPDISCOVER id host ++ more) p ∧ Forall plain more
    ∧ state c1 = INIT_SELECTING ∧ listen_mode c1 = LISTEN_RAW ∧ packet c1 = packet c
    ∧ c_xid c1 = random w ∧ 0 < s32 (timeout c1 - now0 w').
Proof.
  intros Es Hn Hl [Ho Ho' Hr Hw Ha [Hlim Hlim']]. pose proof (quiet_turn k w c Ho) as Et.
  destruct (opened_same c) as (E1 & _ & _ & _ & _ & E6 & E7 & E8 & E9).
  unfold on_timeout in Et. rewrite E1, Es in Et. unfold timeout_selecting in Et. rewrite E9, Hn in Et.
  destruct (Z.ltb_spec 0 (cc_discover_retry k)); [|lia]. cbv zeta in Et.
  change (0 =? 0) with true in Et. cbv iota in Et.
  destruct (send_discover_spec k id host Hk (c_xid (with_xid (opened c) (random w)))
    (requested_ip (with_xid (opened c) (random w)))) as (p & Ep & Hm).
  rewrite Ep, bind_ret, first_retry, bind_ret in Et by (cbn; rewrite ?E9; done || lia).
  eexists _, p, _. split; [exact Et|]. split; [exact Hm|]. split.
  { apply Forall_app. split; [|constructor; [by right; right|constructor]]. destruct (_ =? 0); [constructor|].
    constructor; [left; by eexists|constructor]. }
  cbn. split; [by rewrite E1|]. rewrite <- Hl. split; [unfold opened; by destruct (_ && _)|].
  split; [unfold opened; by destruct (_ && _)|]. split; [done|]. rewrite s32_id; lia.
Qed.

Lemma select_turn c w w' :
  state c = REQUESTING → packet_num c = 0 → listen_mode c = LISTEN_RAW →
  in_time (cc_discover_delay k) w w' →
  ∃ c1 p, client_turn k w Quiet c = Ok (Running c1, [Send (broadcast k p)])
    ∧ client_msg k DHCPREQUEST (c_xid c) 0
        (identity DHCPREQUEST id host ++ address_items (requested_ip c) (server_addr c) ++ [request_item]) p
    ∧ state c1 = REQUESTING ∧ listen_mode c1 = LISTEN_RAW ∧ packet c1 = packet c
    ∧ c_xid c1 = c_xid c ∧ server_addr c1 = server_addr c ∧ 0 < s32 (timeout c1 - now0 w').
Proof.
  intros Es Hn Hl [Ho Ho' Hr Hw Ha [Hlim Hlim']]. pose proof (quiet_turn k w c Ho) as Et.
  destruct (opened_same c) as (E1 & _ & _ & _ & _ & E6 & E7 & E8 & E9).
  unfold on_timeout in Et. rewrite E1, Es in Et. unfold timeout_requesting in Et. rewrite E9, Hn, E1, Es in Et.
  destruct (Z.ltb_spec 0 (cc_discover_retry k)); [|lia]. cbv zeta in Et. rewrite bool_decide_false in Et by done.
  rewrite E6, E7, E8 in Et.
  destruct (send_selecting_spec k id host Hk (c_xid c) (server_addr c) (requested_ip c)) as (p & Ep & Hm).
  rewrite Ep, bind_ret, first_retry, bind_ret in Et by (rewrite ?E9; done || lia).
  eexists _, p. split; [exact Et|]. split; [exact Hm|].
  cbn. split; [by rewrite E1|]. rewrite <- Hl. split; [unfold opened; by destruct (_ && _)|].
  split; [unfold opened; by destruct (_ && _)|]. split; [done|]. split; [done|]. rewrite s32_id; lia.
Qed.
End ask.

(** ** The server's turns *)

Section server.
Context `{Harp : ArpPing} `{!ArpOK Harp} `{Hnet : Network} (Hsend : ∀ a, 0 ≤ net_send a).
Context (k : client_config) (id : bytes) (host : option bytes) (Hk : identified k id host).

(** The hardware address as the server keeps it. *)
Definition mac : bytes := cc_arp k ++ replicate 10 0.

Lemma direct_reply s p t y o q :
  is_reply s p t y o q → giaddr p = 0 → ciaddr p = 0 → flags p = 0 →
  send_packet s q false
  = Raw q (c_server (cfg s)) SERVER_PORT y CLIENT_PORT (chaddr q) (c_ifindex (cfg s)).
Proof.
  intros Hq Hg Hc Hf. unfold send_packet, send_packet_to_client.
  rewrite (ir_giaddr _ _ _ _ _ _ Hq), (ir_ciaddr _ _ _ _ _ _ Hq), (ir_flags _ _ _ _ _ _ Hq).
  rewrite Hg, Hc, Hf, (ir_yiaddr _ _ _ _ _ _ Hq). done.
Qed.

(** The server's answer to a DISCOVER of a client without a static address. *)
Lemma discover_answer s x more p :
  sinv s → cfg_bytes (cfg s) → find_static_lease_by_chaddr s mac = None → is_u32 x →
  client_msg k DHCPDISCOVER x 0 (identity DHCPDISCOVER id host ++ more) p → Forall plain more →
  ∃ s1 out, answer s [Send (broadcast k p)] = Ok (s1, out) ∧ evolves s s1 mac
    ∧ ((∃ y v q, out = [Raw q (c_server (cfg s)) SERVER_PORT y CLIENT_PORT (chaddr q) (c_ifindex (cfg s))]
          ∧ is_reply s p DHCPOFFER y (Some v) q ∧ is_bytes q ∧ y ≠ 0 ∧ holds s1 mac y ∧ xid q = x)
       ∨ (out = [] ∧ ((∃ s2, searched s s2 ∧ exhausted s2) ∨ ∀ l, l ∈ leases s1 → now s1 ≤ l_expires l))).
Proof.
  intros Hs Hcb Hst Hx Hm Hp.
  assert (H0 : is_u32 0) by (unfold is_u32; lia).
  destruct (head_fields _ x 0 _ p (id_arp _ _ _ Hk) Hx H0 (cm_head _ _ _ _ _ _ Hm))
    as (_ & Ex & Ef & Ec & Eg & _ & Ech & _).
  pose proof (client_msg_readable _ _ _ _ _ _ _ _ Hm Hp) as Hr.
  pose proof (client_typed _ _ _ _ _ _ _ _ Hm Hp) as Ht.
  unfold answer, broadcast. cbn [payload].
  rewrite (client_get_packet k id host Hk _ _ _ _ _ Hm Hp) by (done || (unfold is_u32; lia)).
  rewrite bind_ret. change (548 <? 0) with false. cbv iota. rewrite (handle_discover s p Ht).
  fold mac in Ech. rewrite <- Ech in Hst |- *.
  destruct (sendOffer_dynamic s p Hs Hr Hst) as (r & s1 & out & E & Ev & Hcase).
  pose proof (sendOffer_bytes s p r s1 out Hs Hr Hcb E) as Hbytes.
  exists s1, out. split; [by eapply discard_Ok|]. split; [done|].
  destruct Hcase as [(y & v & q & i & l & -> & Hq & Hy & _ & Hi & Hlc & Hly & _)|(_ & -> & Hw)]; [left|by right].
  exists y, v, q. rewrite (direct_reply s p _ _ _ _ Hq Eg Ec Ef) in *.
  split; [done|]. split; [done|].
  split; [eapply Hbytes; [by left|done]|]. split; [done|]. split.
  - exists l. split; [by eapply list_elem_of_lookup_2|done].
  - by rewrite (ir_xid _ _ _ _ _ _ Hq).
Qed.

(** The numbers of its REQUEST. *)
Lemma request_numbers x y server p :
  is_u32 y → is_u32 server →
  client_msg k DHCPREQUEST x 0
    (identity DHCPREQUEST id host ++ address_items y server ++ [request_item]) p →
  ∃ rp ip, get_option p DHCP_REQUESTED_IP = Ok rp ∧ get_option p DHCP_SERVER_ID = Ok ip
    ∧ option32 p rp = Ok (Some y) ∧ option32 p ip = Ok (Some server).
Proof.
  intros Hy Hv Hm. set (more := address_items y server ++ [request_item]) in *.
  assert (Hp : Forall plain more).
  { constructor; [left; by eexists|]. constructor; [right; left; by eexists|].
    constructor; [by right; right|constructor]. }
  pose proof Hm as [(Hl & _ & rest & Hd) _ _].
  set (e := length (encs (identity DHCPREQUEST id host))).
  assert (Hfind : ∀ code ptr v, (code = DHCP_REQUESTED_IP ∨ code = DHCP_SERVER_ID) → is_u32 v →
    find_item more code (240 + e) = Some (ptr, be_bytes 4 v) →
    get_option p code = Ok (Some ptr) ∧ option32 p (Some ptr) = Ok (Some v)).
  { intros code ptr v Hc Hu Hf. split.
    - rewrite (client_lookup _ _ _ _ _ _ _ _ Hm Hp) by (unfold DHCP_REQUESTED_IP, DHCP_SERVER_ID in Hc; lia).
      rewrite find_behind by (destruct Hc; subst; done). fold e. by rewrite Hf.
    - rewrite encs_app, <- app_assoc in Hd.
      assert (Hd' : drop (240 + e) p = encs more ++ 255 :: rest) by (by eapply drop_step).
      destruct (find_item_data _ _ _ _ _ _ _ Hd' Hf) as (Hs & _ & _ & Hlen & _).
      rewrite length_be_bytes in Hs, Hlen.
      assert (240 + e + length (encs more) < 548)%nat.
      { pose proof (has_items_length _ _ (cm_items _ _ _ _ _ _ Hm)) as Hi.
        rewrite encs_app, length_app in Hi. fold e in Hi. lia. }
      unfold option32. rewrite read32_slice by lia. rewrite bind_ret, Hs, be_val_bytes.
      by rewrite Z.mod_small. }
  destruct (Hfind DHCP_REQUESTED_IP (240 + e + 2)%nat y) as [E1 E2]; [by left|done|done|].
  destruct (Hfind DHCP_SERVER_ID (240 + e + 4 + 2 + 2)%nat server) as [E3 E4]; [by right|done|done|].
  by exists (Some (240 + e + 2)%nat), (Some (240 + e + 4 + 2 + 2)%nat).
Qed.

(** The server's answer to the REQUEST of a client that holds the address. *)
Lemma request_answer s x y p :
  sinv s → cfg_bytes (cfg s) → find_static_lease_by_chaddr s mac = None → is_blank mac = false →
  c_lease (cfg s) ≠ 0xFFFFFFFF → is_u32 x → is_u32 y → holds s mac y →
  client_msg k DHCPREQUEST x 0
    (identity DHCPREQUEST id host ++ address_items y (c_server (cfg s)) ++ [request_item]) p →
  ∃ s1 q rest, answer s [Send (broadcast k p)]
      = Ok (s1, Raw q (c_server (cfg s)) SERVER_PORT y CLIENT_PORT (chaddr q) (c_ifindex (cfg s)) :: rest)
    ∧ evolves s s1 mac ∧ is_reply s p DHCPACK y (Some (c_lease (cfg s))) q ∧ is_bytes q ∧ xid q = x
    ∧ ∃ i l, leases s1 !! i = Some l ∧ l_chaddr l = mac ∧ l_yiaddr l = y
        ∧ l_expires l = u32 (now s + c_lease (cfg s)) ∧ l_acked l = 1.
Proof.
  intros Hs Hcb Hst Hbl Hinf Hx Hy Hh Hm. assert (H0 : is_u32 0) by (unfold is_u32; lia).
  destruct (head_fields _ x 0 _ p (id_arp _ _ _ Hk) Hx H0 (cm_head _ _ _ _ _ _ Hm))
    as (_ & Ex & Ef & Ec & Eg & _ & Ech & _). fold mac in Ech.
  assert (Hp : Forall plain (address_items y (c_server (cfg s)) ++ [request_item])).
  { constructor; [left; by eexists|]. constructor; [right; left; by eexists|].
    constructor; [by right; right|constructor]. }
  pose proof (client_msg_readable _ _ _ _ _ _ _ _ Hm Hp) as Hr.
  pose proof (client_typed _ _ _ _ _ _ _ _ Hm Hp) as Ht.
  pose proof (client_no_lease_time _ _ _ _ _ _ _ _ Hm Hp) as Hasked.
  assert (Hsrv : is_u32 (c_server (cfg s))) by apply Hs.
  destruct (request_numbers x y _ p Hy Hsrv Hm) as (rp & ip & E1 & E2 & E3 & E4).
  unfold answer, broadcast. cbn [payload].
  rewrite (client_get_packet k id host Hk _ _ _ _ _ Hm Hp) by (done || (unfold is_u32; lia)).
  rewrite bind_ret. change (548 <? 0) with false. cbv iota. rewrite (handle_request_msg s p Ht).
  unfold handle_request. rewrite E1, bind_ret, E2, bind_ret, E3, bind_ret, E4, bind_ret.
  rewrite <- Ech in *. rewrite Hst.
  pose proof Hh as (l0 & Hl0 & Hc0 & Hy0).
  destruct (find_lease_by_chaddr s (chaddr p)) as [[i l]|] eqn:Efl.
  2: { exfalso. pose proof (find_lease_None _ _ _ _ Efl Hl0) as F. cbn in F. apply bool_decide_eq_false in F. done. }
  apply find_by_chaddr_Some in Efl as [Hi Hc].
  assert (l = l0) as ->.
  { apply list_elem_of_lookup in Hl0 as [j Hj]. destruct (decide (i = j)) as [->|Hne]; [congruence|].
    destruct (proj2 (si_table s Hs) i j l l0 Hi Hj Hne) as [_ Hu]. destruct Hu; congruence. }
  unfold request_leased. rewrite Z.eqb_refl, bool_decide_true by (by rewrite Hy0). cbn [andb]. rewrite Hy0.
  pose proof (holds_may_have s (chaddr p) y Hs (length_chaddr p (rd_len p Hr)) Hh) as Hmay.
  destruct (sendACK_spec s p y Hs Hr Hmay) as (r & s1 & out & E & Ev & t & q & Hq & Htt & Hout).
  pose proof (sendACK_bytes s p y r s1 out (rd_bytes p Hr) Hcb E) as Hbytes.
  assert (t = c_lease (cfg s)) as -> by (destruct Htt as [|[Ha _]]; [done|congruence]).
  rewrite (direct_reply s p _ _ _ _ Hq Eg Ec Ef) in *.
  destruct Hout as [(_ & _ & [Hneg|?])|(_ & _ & -> & Hrec)]; [|done|].
  { specialize (Hsend (Raw q (c_server (cfg s)) SERVER_PORT y CLIENT_PORT (chaddr q) (c_ifindex (cfg s)))). lia. }
  eexists s1, q, _. split; [by eapply discard_Ok|]. split; [done|]. split; [done|].
  split; [eapply Hbytes; [by left|done]|]. split; [by rewrite (ir_xid _ _ _ _ _ _ Hq)|].
  destruct Hrec as [(j & l & ? & ? & ? & ? & ?)|[_ Hno]]; [by exists j, l|by destruct (Hno Hbl)].
Qed.
End server.

(** ** The theorem *)

(** C3: a client without a static address that starts, and a server: the client's
    DISCOVER either finds the server without a free address or entry and goes
    unanswered, or the OFFER takes the client to REQUESTING; then its REQUEST is
    acknowledged, and when nobody answers the ARP request the client is BOUND, to
    the address and for the lease time that the server's table has for its
    hardware address.  The answers arrive within the client's first timeout, and
    what is sent arrives. *)
Theorem client_server_handshake `{Harp : ArpPing} `{!ArpOK Harp} `{Hnet : Network}
    k id host s c w1 w2 w3 w4
    (Hk : identified k id host) (Hdelay : 1 ≤ cc_discover_delay k ≤ 64) (Hretry : 1 ≤ cc_discover_retry k)
    (Hquit : cc_quit_after_lease k = false) (Hquery : cc_isQuerySrv k = false)
    (Hs : sinv s) (Hcb : cfg_bytes (cfg s)) (Hsend : ∀ a, 0 ≤ net_send a)
    (Hst : find_static_lease_by_chaddr s (mac k) = None) (Hbl : is_blank (mac k) = false)
    (Hinf : c_lease (cfg s) ≠ 0xFFFFFFFF)
    (Hc : state c = INIT_SELECTING) (Hn : packet_num c = 0) (Hl : listen_mode c = LISTEN_RAW)
    (Hbuf : length (packet c) = 548%nat)
    (H12 : in_time (cc_discover_delay k) w1 w2) (H34 : in_time (cc_discover_delay k) w3 w4)
    (Hfree : ∀ y, fst (arpping y (now1 w4)) ≠ 0) :
  ∃ c1 s1, round_trip k w1 w2 s c = Ok (Running c1, s1) ∧
    ((state c1 = INIT_SELECTING
      ∧ ((∃ s2, searched s s2 ∧ exhausted s2) ∨ ∀ l, l ∈ leases s1 → now s1 ≤ l_expires l))
     ∨ (state c1 = REQUESTING ∧ ∃ c2 s2, round_trip k w3 w4 s1 c1 = Ok (Running c2, s2)
          ∧ state c2 = BOUND ∧ requested_ip c2 ≠ 0 ∧ server_addr c2 = c_server (cfg s)
          ∧ lease c2 = c_lease (cfg s) ∧ start c2 = now1 w4
          ∧ ∃ i l, leases s2 !! i = Some l ∧ l_chaddr l = mac k ∧ l_yiaddr l = requested_ip c2
              ∧ l_expires l = u32 (now s1 + lease c2) ∧ l_acked l = 1)).
Proof.
  destruct (discover_turn k id host Hk Hdelay Hretry c w1 w2 Hc Hn Hl H12)
    as (c1 & p1 & more & E1 & M1 & P1 & S1 & L1 & B1 & X1 & T1).
  pose proof (it_random _ _ _ H12) as Hx.
  destruct (discover_answer k id host Hk s _ more p1 Hs Hcb Hst Hx M1 P1) as (s1 & out & A1 & Ev1 & Hcase).
  unfold round_trip at 1. rewrite E1, bind_ret, A1, bind_ret.
  destruct Hcase as [(y & v & q & -> & Hq & Hqb & Hy0 & Hh & Hqx)|(-> & Hw)].
  2: { exists c1, s1. split; [done|]. by left. }
  pose proof (evolves_sinv _ _ _ Hs Ev1) as Hs1. pose proof (ev_cfg _ _ _ Ev1) as Ecfg.
  assert (Hsrv : is_u32 (c_server (cfg s))) by apply Hs.
  assert (Hy : is_u32 y).
  { destruct Hh as (l & Hl' & _ & <-). destruct (si_table s1 Hs1) as [Hf _]. rewrite Forall_forall in Hf.
    by apply Hf. }
  destruct (reply_lookup _ _ _ _ _ _ Hq Hsrv) as (Hty & _).
  destruct (ir_items _ _ _ _ _ _ Hq) as (? & (Hlq & _) & _).
  destruct (receive_turn k w2 c1 q (c_server (cfg s)) SERVER_PORT y (chaddr q) (c_ifindex (cfg s)) DHCPOFFER)
    as (f & W1 & R1); [done|apply H12|done|done|done|by rewrite B1|apply Hq|done|done|congruence|done|].
  rewrite W1, bind_ret, R1.
  destruct (opened_same c1) as (O1 & _). set (c1' := with_packet (opened c1) q).
  assert (F1 : state c1' = INIT_SELECTING) by (subst c1'; cbn; by rewrite O1).
  rewrite (receive_offer k (now1 w2) c1' s p1 y v q F1 eq_refl Hquery Hq Hsrv (ir_yiaddr _ _ _ _ _ _ Hq)), bind_ret.
  set (c2 := with_timer _ _ _).
  assert (F2 : state c2 = REQUESTING ∧ packet_num c2 = 0 ∧ listen_mode c2 = LISTEN_RAW ∧ c_xid c2 = xid q
    ∧ requested_ip c2 = y ∧ server_addr c2 = c_server (cfg s) ∧ packet c2 = q).
  { subst c2 c1'. cbn. repeat split; try done. rewrite <- L1. unfold opened. by destruct (_ && _). }
  destruct F2 as (S2 & N2 & L2 & X2 & Y2 & V2 & B2). clearbody c2.
  eexists c2, s1. split; [done|]. right. split; [done|].
  destruct (select_turn k id host Hk Hdelay Hretry c2 w3 w4 S2 N2 L2 H34)
    as (c3 & p2 & E2 & M2 & S3 & L3 & B3 & X3 & V3 & T3).
  rewrite X2, Y2, V2, Hqx, <- Ecfg in M2.
  assert (Hst1 : find_static_lease_by_chaddr s1 (mac k) = None).
  { unfold find_static_lease_by_chaddr. by rewrite (ev_static _ _ _ Ev1). }
  destruct (request_answer Hsend k id host Hk s1 _ y p2 Hs1 ltac:(by rewrite Ecfg) Hst1 Hbl
    ltac:(by rewrite Ecfg) Hx Hy Hh M2) as (s2 & q2 & rest & A2 & Ev2 & Hq2 & Hqb2 & Hqx2 & Hrec).
  unfold round_trip. rewrite E2, bind_ret, A2, bind_ret.
  destruct (reply_lookup _ _ _ _ _ _ Hq2 ltac:(by rewrite Ecfg)) as (Hty2 & _).
  destruct (ir_items _ _ _ _ _ _ Hq2) as (? & (Hlq2 & _) & _).
  destruct (receive_turn k w4 c3 q2 (c_server (cfg s1)) SERVER_PORT y (chaddr q2) (c_ifindex (cfg s1)) DHCPACK)
    as (f2 & W2 & R2);
    [done|apply H34|done|done|done|by rewrite B3, B2|apply Hq2|by rewrite Ecfg|done|congruence|done|].
  rewrite W2, bind_ret, R2.
  destruct (opened_same c3) as (O3 & _ & _ & _ & _ & _ & _ & O4 & _). set (c3' := with_packet (opened c3) q2).
  assert (F3 : state c3' = REQUESTING) by (subst c3'; cbn; by rewrite O3).
  pose proof (it_limit _ _ _ H34) as [Hlim _].
  assert (Hlease : is_u32 (c_lease (cfg s1))) by apply Hs1.
  destruct (receive_ack k (now1 w4) c3' s1 p2 y _ q2 F3 eq_refl Hquit (Hfree y) Hq2 Hlease ltac:(lia))
    as (c4 & out4 & R4 & S4 & Y4 & L4 & T4 & V4).
  rewrite R4, bind_ret. exists c4, s2. split; [done|]. split; [done|]. rewrite Y4, L4, T4, V4.
  split; [done|]. split; [subst c3'; cbn; congruence|]. split; [by rewrite Ecfg|]. split; [done|]. exact Hrec.
Qed.
