(* ===== verification/DhcpClientDemo.v ===== *)
(** * The DHCP client on concrete inputs: witnesses *)

From stdpp Require Import base numbers sets strings list.
From S2P Require Import Prelude Bytes DhcpOptions DhcpOptionsProps DhcpPacket DhcpPacketProps.
From S2P Require Import DhcpLeases DhcpLeasesProps DhcpServer DhcpReply DhcpServerInv DhcpServerProps DhcpReplyBytes DhcpServerDemo.
From S2P Require Import DhcpFiles DhcpClient DhcpClientMsg DhcpClientProps DhcpClientLease DhcpHandshake.

(** ** A client, a server and a network *)

Definition demo_hw : bytes := [0; 80; 186; 1; 2; 3].
Definition demo_host : bytes := chars "host".
Definition demo_client : client_config :=
  mk_client_config false false false (default_clientid demo_hw) (Some (enc (Opt DHCP_HOST_NAME demo_host)))
    2 demo_hw 4 5 60 false.

Lemma demo_identified : identified demo_client (1 :: demo_hw) (Some demo_host).
Proof.
  apply (default_identified _ demo_hw); try done.
  - by apply bytesb_sound.
  - intros n [= <-]. split; [vm_compute; lia|by apply bytesb_sound].
Qed.

(** The configuration is what the command line "-H host" makes. *)
Example demo_setup :
  cmd_cfg <$> client_setup [Arg_hostname (demo_host ++ [0])] 2 demo_hw = Ok demo_client.
Proof. by vm_compute. Qed.

(** Somebody answers for one address, until the time 1500. *)
Definition early_arp : ArpPing := λ a t, (if (a =? 0x0A0000FE) && (t <? 1500) then 0 else 1, 2).
Lemma early_arp_ok : ArpOK early_arp.
Proof. intros a t. cbn. lia. Qed.
#[local] Existing Instance early_arp.
#[local] Existing Instance early_arp_ok.
#[local] Existing Instance demo_net.

Definition demo_start : client := fst (client_start demo_client false 0 2000 0 zero_msg).
Definition w1 : weather := mk_weather true 0x12345678 2000 2000.
Definition w2 : weather := mk_weather true 7 2000 2001.
Definition w3 : weather := mk_weather true 8 2001 2001.
Definition w4 : weather := mk_weather true 9 2001 2002.

Definition running (o : outcome) : client := match o with Running c => c | Exited _ => demo_start end.
Definition client_of (r : turn_result) : client := match r with Ok (o, _) => running o | _ => demo_start end.
Definition sent_by (r : turn_result) : list caction := match r with Ok (_, out) => out | _ => [] end.
Definition trip_client (r : res (outcome * server)) : client := match r with Ok (o, _) => running o | _ => demo_start end.
Definition trip_server (r : res (outcome * server)) : server := match r with Ok (_, s) => s | _ => demo_server end.

(** ** Witnesses *)

Lemma cinv_start : cinv demo_start.
Proof. constructor; [reflexivity|cbn; lia|done]. Qed.

Lemma client_turn_safe_witness :
  ∃ c' out, client_turn demo_client w1 Quiet demo_start = Ok (Running c', out)
    ∧ cinv c' ∧ configures (uses demo_start) out = uses c'.
Proof.
  assert (Hr : cc_discover_retry demo_client ≤ 32) by (cbn; lia).
  destruct (client_turn_safe demo_client (1 :: demo_hw) (Some demo_host) w1 Quiet demo_start
    demo_identified Hr cinv_start I) as (o & out & E & H).
  destruct o as [c'|n]; [|exfalso; vm_compute in E; discriminate E].
  exists c', out. destruct H as (Hc & [[? _]|Hu]); [discriminate|]. split; [exact E|]. split; [exact Hc|exact Hu].
Defined.

Lemma client_messages_correct_witness :
  ∃ p, send_selecting demo_client 5 0x0A000001 0x0A000102 = Ok (broadcast demo_client p)
    ∧ has_items p (identity DHCPREQUEST (1 :: demo_hw) (Some demo_host)
        ++ address_items 0x0A000102 0x0A000001 ++ [request_item]).
Proof.
  destruct (client_messages_correct demo_client (1 :: demo_hw) (Some demo_host) 5 0x0A000001 0x0A000102 0
    demo_identified) as (_ & (p & E & Hm) & _).
  exists p. split; [exact E|apply Hm].
Defined.

(** A bound client. *)
Definition demo_bound : client :=
  mk_client BOUND 0x0A000102 0x0A000001 3800 0 LISTEN_NONE false true 5 1800 3150 2000 3600 zero_msg.

Lemma client_release_skipped_witness :
  ∃ c1 c2, perform_renew demo_bound = (c1, []) ∧ perform_release demo_client 1 c1 = Ok (c2, [])
    ∧ state c2 = RELEASED ∧ uses demo_bound = Some 0x0A000102 ∧ uses c2 = None.
Proof.
  destruct (client_release_skipped demo_client (1 :: demo_hw) (Some demo_host) 1 2 demo_bound
    demo_identified eq_refl) as ((c1 & c2 & E1 & E2 & E3 & E4 & E5) & _).
  exists c1, c2. split; [exact E1|]. split; [exact E2|]. split; [exact E3|]. split; [exact E4|exact E5].
Defined.

Lemma client_lease_runs_out_witness : gives_up demo_client 5 (mk_plan 3800 5150 5600 1) demo_bound.
Proof.
  apply (client_lease_runs_out demo_client (1 :: demo_hw) (Some demo_host) 5 demo_bound
    demo_identified eq_refl eq_refl eq_refl eq_refl); cbn; lia.
Defined.

(** The exchange of the two demonstration programs. *)
Definition trip1 := round_trip demo_client w1 w2 demo_server demo_start.
Definition trip2 := round_trip demo_client w3 w4 (trip_server trip1) (trip_client trip1).

Lemma trip1_requesting : state (trip_client trip1) = REQUESTING.
Proof. by vm_compute. Qed.

Lemma in_time_12 : in_time (cc_discover_delay demo_client) w1 w2.
Proof. constructor; cbn; unfold is_u32; done || lia. Qed.
Lemma in_time_34 : in_time (cc_discover_delay demo_client) w3 w4.
Proof. constructor; cbn; unfold is_u32; done || lia. Qed.

Lemma client_server_handshake_witness :
  state (trip_client trip2) = BOUND ∧ lease (trip_client trip2) = 3600
  ∧ ∃ i l, leases (trip_server trip2) !! i = Some l ∧ l_chaddr l = mac demo_client
      ∧ l_yiaddr l = requested_ip (trip_client trip2).
Proof.
  assert (Hd : 1 ≤ cc_discover_delay demo_client ≤ 64) by (cbn; lia).
  assert (Hr : 1 ≤ cc_discover_retry demo_client) by (cbn; lia).
  assert (Hcb : cfg_bytes (cfg demo_server)) by (constructor; [constructor|done|done]).
  assert (Hsend : ∀ a, 0 ≤ net_send a) by (intros a; cbv; discriminate).
  assert (Hfree : ∀ y, fst (arpping y (now1 w4)) ≠ 0).
  { intros y. unfold arpping, early_arp. cbn. by rewrite andb_false_r. }
  assert (Hst : find_static_lease_by_chaddr demo_server (mac demo_client) = None) by (by vm_compute).
  destruct (client_server_handshake demo_client (1 :: demo_hw) (Some demo_host) demo_server demo_start w1 w2 w3 w4
    demo_identified Hd Hr eq_refl eq_refl demo_sinv Hcb Hsend Hst eq_refl ltac:(cbn; lia)
    eq_refl eq_refl eq_refl eq_refl in_time_12 in_time_34 Hfree) as (c1 & s1 & E1 & Hcase).
  change (trip1 = Ok (Running c1, s1)) in E1. unfold trip2.
  pose proof trip1_requesting as Hs1. rewrite E1 in Hs1 |- *. cbn [trip_client trip_server running] in *.
  destruct Hcase as [[Hs2 _]|(_ & c2 & s2 & E2 & B & _ & _ & L & _ & i & l & H1 & H2 & H3 & _)]; [congruence|].
  rewrite E2. cbn [trip_client trip_server running]. split; [exact B|]. split; [exact L|].
  exists i, l. split; [exact H1|]. split; [exact H2|exact H3].
Defined.

(** The turn in which the client of that exchange becomes bound. *)
Definition asking : client := client_of (client_turn demo_client w3 Quiet (trip_client trip1)).
Definition ack_frame : option bytes :=
  match answer (trip_server trip1) (sent_by (client_turn demo_client w3 Quiet (trip_client trip1))) with
  | Ok (_, a :: _) => match wire a with Ok f => f | _ => None end
  | _ => None
  end.
Definition bound_turn : turn_result := client_turn demo_client w4 (Ready ack_frame false) asking.

Lemma asking_event : event_ok asking (Ready ack_frame false).
Proof.
  set (r := get_raw_packet (packet asking) ack_frame).
  assert (E : r = Ok (548, match r with Ok (_, p) => p | _ => [] end)) by (by vm_compute).
  exists 548, (match r with Ok (_, p) => p | _ => [] end). split; [exact E|].
  split; [by vm_compute|]. intros _.
  set (its := [Opt DHCP_MESSAGE_TYPE [DHCPACK]; Opt DHCP_SERVER_ID (be_bytes 4 0x0A000001);
               Opt DHCP_LEASE_TIME (be_bytes 4 3600)]).
  apply (readable_items _ its).
  - split; [by vm_compute|]. split; [repeat constructor; vm_compute; lia|].
    exists (replicate 292 0). by vm_compute.
  - apply item_okb_sound. by vm_compute.
  - apply bytesb_sound. by vm_compute.
Qed.

Lemma client_binds_on_ack_witness :
  ∃ data eintr, Ready ack_frame false = Ready data eintr ∧ acked (now1 w4) asking data (client_of bound_turn).
Proof.
  assert (Hr : cc_discover_retry demo_client ≤ 32) by (cbn; lia).
  assert (Hc : cinv asking) by (constructor; [by vm_compute|by vm_compute|by vm_compute]).
  assert (E : client_turn demo_client w4 (Ready ack_frame false) asking
    = Ok (Running (client_of bound_turn), sent_by bound_turn)) by (by vm_compute).
  assert (Hb : state (client_of bound_turn) = BOUND) by (by vm_compute).
  destruct (client_binds_on_ack demo_client (1 :: demo_hw) (Some demo_host) w4 (Ready ack_frame false) asking
    _ _ demo_identified Hr Hc asking_event E Hb) as [[Hs _]|H]; [|exact H].
  exfalso. revert Hs. by vm_compute.
Defined.
