(* ===== verification/DhcpScript.v ===== *)
(** * The environment of the DHCP client's script (progs.gpl/udhcpcd/script.c)

    [fill_envp] turns the address and the options of a message into the strings
    of the environment.  Every string is printed into a heap block whose size is
    estimated first; here a block is the list of its bytes, and printing behind
    its end faults. *)

From stdpp Require Import base numbers strings list.
From S2P Require Import Prelude Bytes DhcpOptions DhcpLeases DhcpFiles.

(** [max_option_length], indexed by the type. *)
Definition max_option_length : list Z := [0; 17; 34; 1; 5; 5; 7; 8; 12; 13].

Definition option_type (o : dhcp_option) : Z := Z.land (opt_flags o) TYPE_MASK.

Definition upper_length (length : Z) (o : dhcp_option) : Z :=
  max_option_length !!! Z.to_nat (option_type o)
  * (length / option_lengths !!! Z.to_nat (option_type o)).

(** ** Printing *)

(** [%d] and [%u]. *)
Fixpoint dec_digits (fuel : nat) (z : Z) : bytes :=
  match fuel with
  | O => []
  | S fuel => if z <? 10 then [48 + z] else dec_digits fuel (z / 10) ++ [48 + z `mod` 10]
  end.
Definition dec (z : Z) : bytes := if z <? 0 then 45 :: dec_digits 10 (- z) else dec_digits 10 z.

(** [sprintf(dest, ...)] with the text [t]: the block and the new [dest]. *)
Definition sprintf (b : bytes) (dest : nat) (t : bytes) : res (bytes * nat) :=
  b ← write_at b dest (t ++ [0]); mret (b, (dest + length t)%nat).

Definition ip_text (pre ip : bytes) : bytes :=
  let d i := dec (ip !!! i) in
  pre ++ d 0%nat ++ [46] ++ d 1%nat ++ [46] ++ d 2%nat ++ [46] ++ d 3%nat ++ [32].

Definition sprintip (b : bytes) (dest : nat) (pre : bytes) (p : bytes) (opt : nat) : res (bytes * nat) :=
  ip ← read_at p opt 4; sprintf b dest (ip_text pre ip).

(** One turn of the switch: the block, [dest], [option] and [optlen]. *)
Definition fill_step (type : Z) (b : bytes) (dest : nat) (p : bytes) (opt : nat) (optlen : Z)
  : res (bytes * nat * nat * Z) :=
  if type =? OPTION_IP_PAIR then
    '(b, dest) ← sprintip b dest [] p opt;
    b ← write_at b dest [47];
    '(b, dest) ← sprintip b (S dest) [] p (opt + 4);
    mret (b, dest, (opt + 4)%nat, 4)
  else if type =? OPTION_IP then
    '(b, dest) ← sprintip b dest [] p opt; mret (b, dest, opt, optlen)
  else if type =? OPTION_BOOLEAN then
    c ← byte_at p opt;
    '(b, dest) ← sprintf b dest (chars (if c =? 0 then "no " else "yes ")); mret (b, dest, opt, optlen)
  else if type =? OPTION_U8 then
    c ← byte_at p opt; '(b, dest) ← sprintf b dest (dec c ++ [32]); mret (b, dest, opt, optlen)
  else if (type =? OPTION_U16) || (type =? OPTION_S16) then
    v ← read16 p opt; '(b, dest) ← sprintf b dest (dec v ++ [32]); mret (b, dest, opt, optlen)
  else if type =? OPTION_U32 then
    v ← read32 p opt; '(b, dest) ← sprintf b dest (dec v ++ [32]); mret (b, dest, opt, optlen)
  else if type =? OPTION_S32 then
    v ← read32 p opt; '(b, dest) ← sprintf b dest (dec (s32 v) ++ [32]); mret (b, dest, opt, optlen)
  else mret (b, dest, opt, optlen).

Fixpoint fill_loop (fuel : nat) (type : Z) (b : bytes) (dest : nat) (p : bytes) (opt : nat) (optlen len : Z)
  : res bytes :=
  match fuel with
  | O => NoFuel
  | S fuel =>
      if type =? OPTION_STRING then
        s ← read_at p opt (Z.to_nat len);
        b ← write_at b dest s;
        write_at b (dest + Z.to_nat len) [0]
      else
        '(b, dest, opt, optlen) ← fill_step type b dest p opt optlen;
        if len - optlen <=? 0 then mret b
        else fill_loop fuel type b dest p (opt + Z.to_nat optlen) optlen (len - optlen)
  end.

(** [option] points to the data at [opt] of the message [p].  A turn consumes at
    least one of at most 255 bytes. *)
Definition fill_options (b : bytes) (p : bytes) (opt : nat) (o : dhcp_option) : res bytes :=
  len ← byte_at p (opt - 1);
  '(b, dest) ← sprintf b 0 (chars (opt_name o) ++ [61]);
  fill_loop 256 (option_type o) b dest p opt (option_lengths !!! Z.to_nat (option_type o)) len.

(** ** The environment *)

(** The first variable of [environ] that begins with [prefix]. *)
Fixpoint find_env (environ : list bytes) (prefix defaultstr : bytes) : bytes :=
  match environ with
  | [] => defaultstr
  | e :: environ => if bool_decide (take (length prefix) e = prefix) then e else find_env environ prefix defaultstr
  end.

(** A block of [size] bytes, printed into; the string it then holds. *)
Definition print_block (size : nat) (f : bytes → res bytes) : res bytes :=
  b ← f (replicate size 0); string_at b 0.

(** The first loop: the options of the table that the message has. *)
Fixpoint count_options (l : list dhcp_option) (p : bytes) : res nat :=
  match l with
  | [] => mret 0%nat
  | o :: l =>
      r ← get_option p (opt_code o);
      n ← count_options l p;
      mret match r with Some _ => S n | None => n end
  end.

(** The second loop. *)
Fixpoint option_strings (l : list dhcp_option) (p : bytes) : res (list bytes) :=
  match l with
  | [] => mret []
  | o :: l =>
      r ← get_option p (opt_code o);
      match r with
      | None => option_strings l p
      | Some opt =>
          len ← byte_at p (opt - 1);
          s ← print_block (Z.to_nat (upper_length len o) + length (chars (opt_name o)) + 2)
                (λ b, fill_options b p opt o);
          rest ← option_strings l p;
          mret (s :: rest)
      end
  end.

(** A string field of [size] bytes: its last byte is set to zero, and the string is
    printed into a block of the exact size. *)
Definition field_string (name : bytes) (p : bytes) (off size : nat) : res (bytes * bytes) :=
  let p := set8 p (off + size - 1) 0 in
  let s := c_str (slice p off size) in
  e ← print_block (length name + 1 + length s) (λ b, '(b, _) ← sprintf b 0 (name ++ s); mret b);
  mret (e, p).

(** The value of [over]. *)
Definition overload (p : bytes) : res Z :=
  r ← get_option p DHCP_OPTION_OVER;
  match r with
  | None => mret 0
  | Some ptr => byte_at p ptr
  end.

(** [fill_envp]: the capacity of the array, the strings in it without the NULL at its
    end, and the message after it.  [prefix] are the strings in front. *)
Definition fill_envp (environ : list bytes) (interface : bytes) (packet : option bytes)
  : res (nat * list bytes * option bytes) :=
  let iface := chars "interface=" ++ interface in
  let env := [iface; find_env environ (chars "PATH") (chars "PATH=/bin:/usr/bin:/sbin:/usr/sbin");
              find_env environ (chars "HOME") (chars "HOME=/")] in
  match packet with
  | None => mret (5%nat, env, None)
  | Some p =>
      n ← count_options options p;
      over ← overload p;
      let has_si := negb (siaddr p =? 0) in
      let has_file := (Z.land over FILE_FIELD =? 0) && negb (p !!! F_file =? 0) in
      let has_sname := (Z.land over SNAME_FIELD =? 0) && negb (p !!! F_sname =? 0) in
      let count (b : bool) := if b then 1%nat else 0%nat in
      let num_options := (n + count has_si + count has_file + count has_sname)%nat in
      ip ← print_block 19 (λ b, '(b, _) ← sprintip b 0 (chars "ip=") p F_yiaddr; mret b);
      opts ← option_strings options p;
      si ← (if has_si
            then s ← print_block 23 (λ b, '(b, _) ← sprintip b 0 (chars "siaddr=") p F_siaddr; mret b); mret [s]
            else mret []);
      '(file, p) ← (if has_file then '(e, p) ← field_string (chars "boot_file=") p F_file 128; mret ([e], p)
                    else mret ([], p));
      '(sname, p) ← (if has_sname then '(e, p) ← field_string (chars "sname=") p F_sname 64; mret ([e], p)
                     else mret ([], p));
      mret ((num_options + 5)%nat, env ++ [ip] ++ opts ++ si ++ file ++ sname, Some p)
  end.
