(* ===== verification/DhcpScriptProps.v ===== *)
(** * The environment of the script: the theorems

    The estimates are large enough for options whose length is a multiple of their
    unit, and the strings are the values in text; they are too small for other
    lengths, and for the longest addresses. *)

From stdpp Require Import base numbers sets strings list.
From S2P Require Import Prelude Bytes DhcpOptions DhcpOptionsProps DhcpLeases DhcpServerInv DhcpServerDemo DhcpFiles DhcpScript.

#[global] Arguments ip_text : simpl never.
#[global] Arguments dec : simpl never.
#[global] Arguments chars : simpl never.

(** ** Numbers in text *)

Definition nonzero (t : bytes) : Prop := Forall (λ x, x ≠ 0) t.

Lemma dec_digits_spec fuel n z :
  (1 ≤ n ≤ fuel)%nat → 0 ≤ z < 10 ^ Z.of_nat n →
  (length (dec_digits fuel z) ≤ n)%nat ∧ nonzero (dec_digits fuel z).
Proof.
  revert n z. induction fuel as [|fuel IH]; intros n z Hn Hz; [lia|]. cbn [dec_digits].
  destruct (Z.ltb_spec z 10); [cbn; split; [lia|repeat constructor; lia]|].
  destruct n as [|[|n]]; [lia|cbn in Hz; lia|].
  assert (Hd : 0 ≤ z / 10 < 10 ^ Z.of_nat (S n)).
  { rewrite Nat2Z.inj_succ, Z.pow_succ_r in Hz by lia. split; [apply Z.div_pos; lia|].
    apply Z.div_lt_upper_bound; lia. }
  destruct (IH (S n) (z / 10)) as [Hl Hnz]; [lia|done|]. rewrite length_app. cbn.
  pose proof (Z.mod_pos_bound z 10). split; [lia|]. apply Forall_app. split; [done|]. repeat constructor. lia.
Qed.

Lemma dec_spec n z :
  (1 ≤ n ≤ 10)%nat → 0 ≤ z < 10 ^ Z.of_nat n → (length (dec z) ≤ n)%nat ∧ nonzero (dec z).
Proof.
  intros Hn Hz. unfold dec. destruct (Z.ltb_spec z 0); [lia|]. by apply dec_digits_spec.
Qed.

Lemma dec_signed_spec z : - 10 ^ 10 < z < 10 ^ 10 → (length (dec z) ≤ 11)%nat ∧ nonzero (dec z).
Proof.
  intros Hz. unfold dec. destruct (Z.ltb_spec z 0).
  - destruct (dec_digits_spec 10 10 (- z)) as [Hl Hn]; [lia|change (Z.of_nat 10) with 10; lia|].
    cbn [length]. split; [lia|]. constructor; [lia|done].
  - destruct (dec_digits_spec 10 10 z) as [Hl Hn]; [lia|change (Z.of_nat 10) with 10; lia|]. split; [lia|done].
Qed.

Lemma byte_text x : is_u8 x → (length (dec x) ≤ 3)%nat ∧ nonzero (dec x).
Proof. intros Hx. apply dec_spec; [lia|]. change (10 ^ Z.of_nat 3) with 1000. unfold is_u8 in Hx. lia. Qed.

Lemma total_byte (b : bytes) i : is_bytes b → (i < length b)%nat → is_u8 (b !!! i).
Proof. intros Hb Hi. by apply Forall_lookup_total_1. Qed.

Lemma ip_text_spec pre ip :
  is_bytes ip → length ip = 4%nat → nonzero pre →
  (length (ip_text pre ip) ≤ length pre + 16)%nat ∧ nonzero (ip_text pre ip).
Proof.
  intros Hb Hl Hp. unfold ip_text. cbv zeta.
  destruct (byte_text (ip !!! 0%nat)) as [L0 N0]; [apply total_byte; [done|lia]|].
  destruct (byte_text (ip !!! 1%nat)) as [L1 N1]; [apply total_byte; [done|lia]|].
  destruct (byte_text (ip !!! 2%nat)) as [L2 N2]; [apply total_byte; [done|lia]|].
  destruct (byte_text (ip !!! 3%nat)) as [L3 N3]; [apply total_byte; [done|lia]|].
  rewrite !length_app. cbn [length]. split; [lia|]. unfold nonzero in *.
  rewrite !Forall_app. repeat split; try done; repeat constructor; lia.
Qed.

(** ** The text of an option *)

Definition numeric (t : Z) : Prop :=
  t ∈ [OPTION_IP; OPTION_BOOLEAN; OPTION_U8; OPTION_U16; OPTION_S16; OPTION_U32; OPTION_S32].

Definition unit_of (t : Z) : nat := Z.to_nat (option_lengths !!! Z.to_nat t).
Definition text_size (t : Z) : nat := Z.to_nat (max_option_length !!! Z.to_nat t).

(** One value of [unit_of t] bytes. *)
Definition value_text (t : Z) (d : bytes) : bytes :=
  if t =? OPTION_IP then ip_text [] d
  else if t =? OPTION_BOOLEAN then chars (if d !!! 0%nat =? 0 then "no " else "yes ")
  else if t =? OPTION_S32 then dec (s32 (be_val d)) ++ [32]
  else dec (be_val d) ++ [32].

Fixpoint chunks (m u : nat) (d : bytes) : list bytes :=
  match m with
  | O => []
  | S m => take u d :: chunks m u (drop u d)
  end.

Definition values_text (t : Z) (m : nat) (d : bytes) : bytes :=
  concat (value_text t <$> chunks m (unit_of t) d).

Lemma numeric_cases t (P : Z → Prop) :
  P OPTION_IP → P OPTION_BOOLEAN → P OPTION_U8 → P OPTION_U16 → P OPTION_S16 → P OPTION_U32 → P OPTION_S32 →
  numeric t → P t.
Proof.
  intros ? ? ? ? ? ? ? H. unfold numeric in H. rewrite !elem_of_cons, elem_of_nil in H. by destruct_or! H; subst.
Qed.

Lemma be_val_lt n d : is_bytes d → length d = n → 0 ≤ be_val d < 256 ^ Z.of_nat n.
Proof. intros Hb <-. by apply be_val_range. Qed.

Ltac text_sizes :=
  match goal with |- context [text_size ?t] =>
    let n := eval vm_compute in (text_size t) in change (text_size t) with n end.

(** A value and the zero behind it fit into the estimate for it. *)
Lemma value_text_spec t d :
  numeric t → is_bytes d → length d = unit_of t →
  (length (value_text t d) + 1 ≤ text_size t)%nat ∧ nonzero (value_text t d).
Proof.
  intros Ht Hb. pattern t. apply (numeric_cases t); [..|exact Ht]; intros Hl; unfold value_text;
    cbn [Z.eqb Pos.eqb OPTION_IP OPTION_BOOLEAN OPTION_U8 OPTION_U16 OPTION_S16 OPTION_U32 OPTION_S32].
  - destruct (ip_text_spec [] d Hb Hl) as [H1 H2]; [constructor|]. cbn in H1. text_sizes. split; [lia|done].
  - text_sizes. destruct (d !!! 0%nat =? 0); (split; [vm_compute; lia|apply (bool_decide_eq_true_1 (Forall (λ x, x ≠ 0) _)); by vm_compute]).
  - pose proof (be_val_lt 1 d Hb Hl) as Hr. destruct (dec_spec 3 (be_val d)) as [H1 H2]; [lia|cbn in *; lia|].
    rewrite length_app. text_sizes. cbn [length]. split; [lia|]. apply Forall_app. split; [done|repeat constructor; lia].
  - pose proof (be_val_lt 2 d Hb Hl) as Hr. destruct (dec_spec 5 (be_val d)) as [H1 H2]; [lia|cbn in *; lia|].
    rewrite length_app. text_sizes. cbn [length]. split; [lia|]. apply Forall_app. split; [done|repeat constructor; lia].
  - pose proof (be_val_lt 2 d Hb Hl) as Hr. destruct (dec_spec 5 (be_val d)) as [H1 H2]; [lia|cbn in *; lia|].
    rewrite length_app. text_sizes. cbn [length]. split; [lia|]. apply Forall_app. split; [done|repeat constructor; lia].
  - pose proof (be_val_lt 4 d Hb Hl) as Hr. destruct (dec_spec 10 (be_val d)) as [H1 H2]; [lia|cbn in *; lia|].
    rewrite length_app. text_sizes. cbn [length]. split; [lia|]. apply Forall_app. split; [done|repeat constructor; lia].
  - destruct (dec_signed_spec (s32 (be_val d))) as [H1 H2].
    { unfold s32. pose proof (Z.mod_pos_bound (be_val d + 2147483648) 4294967296). lia. }
    rewrite length_app. text_sizes. cbn [length]. split; [lia|]. apply Forall_app. split; [done|repeat constructor; lia].
Qed.

(** ** Printing into a block *)

(** [b] holds the text [t] and a zero behind it, and [n] more bytes. *)
Definition holds_text (b t : bytes) (n : nat) : Prop := ∃ r, b = t ++ 0 :: r ∧ length r = n.

Lemma sprintf_spec b t n s :
  holds_text b t n → (length s ≤ n)%nat →
  ∃ b', sprintf b (length t) s = Ok (b', length (t ++ s)) ∧ holds_text b' (t ++ s) (n - length s).
Proof.
  intros (r & -> & Hr) Hs. unfold sprintf. rewrite write_at_Ok by (rewrite !length_app; cbn; lia).
  rewrite bind_ret, <- length_app. eexists. split; [reflexivity|].
  exists (drop (length s) r). split; [|rewrite length_drop; lia].
  unfold splice. rewrite take_app_length, <- !app_assoc. f_equal. f_equal. cbn [app]. f_equal.
  rewrite drop_app_ge by lia. rewrite length_app. cbn [length].
  replace (length t + (length s + 1) - length t)%nat with (S (length s)) by lia. done.
Qed.

Lemma blank_block n : holds_text (replicate (S n) 0) [] n.
Proof. exists (replicate n 0). split; [done|apply length_replicate]. Qed.

Lemma read_text b t n : holds_text b t n → nonzero t → string_at b 0 = Ok t.
Proof.
  intros (r & -> & _) Hz. unfold string_at. rewrite drop_0.
  assert (E : until_zero (t ++ 0 :: r) = Some t); [|by rewrite E].
  induction Hz as [|x t Hx Hz IH]; [done|]. cbn [app until_zero].
  destruct (Z.eqb_spec x 0); [done|]. by rewrite IH.
Qed.

(** One value. *)
Lemma fill_step_spec t b dest p opt d n :
  numeric t → is_bytes p → (opt + unit_of t ≤ length p)%nat → slice p opt (unit_of t) = d →
  holds_text b dest n → (length (value_text t d) ≤ n)%nat →
  ∃ b', fill_step t b (length dest) p opt (Z.of_nat (unit_of t))
      = Ok (b', length (dest ++ value_text t d), opt, Z.of_nat (unit_of t))
    ∧ holds_text b' (dest ++ value_text t d) (n - length (value_text t d)).
Proof.
  intros Ht Hb Hl Hd Hh Hn.
  destruct (sprintf_spec b dest n (value_text t d) Hh Hn) as (b' & E & Hh'). exists b'. split; [|done].
  assert (Hld : length d = unit_of t) by (rewrite <- Hd; by apply length_slice).
  revert Hl Hd Hld E. clear Hn Hh Hh'. pattern t. apply (numeric_cases t); [..|exact Ht]; clear t Ht;
    unfold fill_step, value_text, sprintip, read16, read32; intros Hl Hd Hld E;
    cbn [Z.eqb Pos.eqb OPTION_IP_PAIR OPTION_IP OPTION_BOOLEAN OPTION_U8 OPTION_U16 OPTION_S16 OPTION_U32 OPTION_S32 orb] in *.
  - change (unit_of OPTION_IP) with 4%nat in *. rewrite read_at_Ok by done. rewrite bind_ret. by rewrite Hd, E, bind_ret.
  - change (unit_of OPTION_BOOLEAN) with 1%nat in *.
    destruct (byte_at_lt p opt) as (c & Ec & Hc); [lia|]. rewrite Ec, bind_ret.
    assert (d !!! 0%nat = c) as Hc'.
    { rewrite <- Hd. apply list_lookup_total_correct. unfold slice. rewrite lookup_take_lt by lia.
      by rewrite lookup_drop, Nat.add_0_r. }
    rewrite Hc' in E |- *. by rewrite E, bind_ret.
  - change (unit_of OPTION_U8) with 1%nat in *.
    destruct (byte_at_lt p opt) as (c & Ec & Hc); [lia|]. rewrite Ec, bind_ret.
    assert (be_val d = c) as Hc'.
    { destruct d as [|x [|y d]]; [done| |done].
      assert (Some x = Some c) as [= ->].
      { rewrite <- Hc. change (Some x) with ([x] !! 0%nat). rewrite <- Hd. unfold slice.
        rewrite lookup_take_lt by lia. by rewrite lookup_drop, Nat.add_0_r. }
      rewrite be_val_cons. cbn. unfold be_val. lia. }
    rewrite Hc' in E |- *. by rewrite E, bind_ret.
  - change (unit_of OPTION_U16) with 2%nat in *. rewrite read_at_Ok by done. rewrite Hd. cbn [fmap res_fmap]. by rewrite bind_ret, E, bind_ret.
  - change (unit_of OPTION_S16) with 2%nat in *. rewrite read_at_Ok by done. rewrite Hd. cbn [fmap res_fmap]. by rewrite bind_ret, E, bind_ret.
  - change (unit_of OPTION_U32) with 4%nat in *. rewrite read_at_Ok by done. rewrite Hd. cbn [fmap res_fmap]. by rewrite bind_ret, E, bind_ret.
  - change (unit_of OPTION_S32) with 4%nat in *. rewrite read_at_Ok by done. rewrite Hd. cbn [fmap res_fmap]. by rewrite bind_ret, E, bind_ret.
Qed.

(** ** The loop *)

Lemma unit_pos t : numeric t → (1 ≤ unit_of t)%nat.
Proof. intros Ht. pattern t. apply (numeric_cases t); [..|exact Ht]; vm_compute; lia. Qed.

Lemma slice_split p opt d u :
  (u ≤ length d)%nat → slice p opt (length d) = d →
  slice p opt u = take u d ∧ slice p (opt + u) (length (drop u d)) = drop u d.
Proof.
  intros Hu Hd. split.
  - transitivity (take u (slice p opt (length d))); [|by rewrite Hd].
    unfold slice. rewrite take_take. f_equal. lia.
  - transitivity (drop u (slice p opt (length d))); [|by rewrite Hd].
    unfold slice. rewrite skipn_firstn_comm, drop_drop, length_drop. done.
Qed.

Lemma fill_loop_spec t m fuel b dest p opt d n :
  numeric t → is_bytes p → length d = (unit_of t * S m)%nat → slice p opt (length d) = d →
  (opt + length d ≤ length p)%nat → holds_text b dest n → (length (values_text t (S m) d) ≤ n)%nat →
  (m < fuel)%nat →
  ∃ b' n', fill_loop fuel t b (length dest) p opt (Z.of_nat (unit_of t)) (Z.of_nat (length d)) = Ok b'
    ∧ holds_text b' (dest ++ values_text t (S m) d) n'.
Proof.
  intros Ht Hb. revert fuel b dest opt d n. pose proof (unit_pos t Ht) as Hu.
  assert (Hs : (t =? OPTION_STRING) = false)
    by (pattern t; apply (numeric_cases t); [..|exact Ht]; reflexivity).
  induction m as [|m IH]; intros fuel b dest opt d n Hl Hd Hp Hh Hn Hf;
    (destruct fuel as [|fuel]; [lia|]); cbn [fill_loop]; rewrite Hs;
    destruct (slice_split p opt d (unit_of t)) as [D1 D2]; try done; try lia;
    unfold values_text in *; cbn [chunks fmap list_fmap concat] in *; rewrite length_app in Hn;
    (destruct (fill_step_spec t b dest p opt (take (unit_of t) d) n) as (b1 & E & Hh1); [done|done|lia|done|done|lia|]);
    rewrite E, bind_ret.
  - destruct (Z.leb_spec (Z.of_nat (length d) - Z.of_nat (unit_of t)) 0); [|lia].
    rewrite app_nil_r. by exists b1, (n - length (value_text t (take (unit_of t) d)))%nat.
  - destruct (Z.leb_spec (Z.of_nat (length d) - Z.of_nat (unit_of t)) 0); [lia|].
    assert (Hld : length (drop (unit_of t) d) = (unit_of t * S m)%nat) by (rewrite length_drop; lia).
    replace (Z.of_nat (length d) - Z.of_nat (unit_of t)) with (Z.of_nat (length (drop (unit_of t) d)))
      by (rewrite length_drop; lia).
    rewrite Nat2Z.id.
    destruct (IH fuel b1 (dest ++ value_text t (take (unit_of t) d)) (opt + unit_of t)%nat
      (drop (unit_of t) d) _ Hld D2 ltac:(lia) Hh1) as (b' & n' & E' & Hh'); [cbn [chunks fmap list_fmap concat]; lia|lia|].
    exists b', n'. split; [exact E'|]. by rewrite <- app_assoc in Hh'.
Qed.

(** ** One option *)

Lemma values_text_spec t m d :
  numeric t → is_bytes d → length d = (unit_of t * m)%nat →
  (length (values_text t m d) + m ≤ text_size t * m)%nat ∧ nonzero (values_text t m d).
Proof.
  intros Ht. revert d. unfold values_text. induction m as [|m IH]; intros d Hb Hl;
    cbn [chunks fmap list_fmap concat]; [cbn; split; [lia|constructor]|].
  destruct (value_text_spec t (take (unit_of t) d)) as [H1 H2];
    [done|by apply Forall_take|rewrite length_take; lia|].
  destruct (IH (drop (unit_of t) d)) as [H3 H4]; [by apply Forall_drop|rewrite length_drop; lia|].
  rewrite length_app. split; [lia|]. by apply Forall_app.
Qed.

(** The entries of the table. *)
Lemma table_entry o :
  o ∈ options → nonzero (chars (opt_name o)) ∧ 0 < opt_code o < 255
  ∧ (option_type o = OPTION_STRING ∨ numeric (option_type o)).
Proof.
  intros Ho. assert (H : Forall (λ o, Forall (λ x, x ≠ 0) (chars (opt_name o)) ∧ (0 < opt_code o ∧ opt_code o < 255)
    ∧ (option_type o = OPTION_STRING ∨ option_type o ∈ [OPTION_IP; OPTION_BOOLEAN; OPTION_U8; OPTION_U16; OPTION_S16; OPTION_U32; OPTION_S32])) options).
  { apply (bool_decide_eq_true_1 (Forall _ options)). by vm_compute. }
  rewrite Forall_forall in H. by apply H.
Qed.

(** Data whose length is a positive multiple of the unit, or any string. *)
Definition well_sized (o : dhcp_option) (d : bytes) : Prop :=
  option_type o = OPTION_STRING ∨ ∃ m, length d = (unit_of (option_type o) * S m)%nat.

Definition option_text (o : dhcp_option) (d : bytes) : bytes :=
  chars (opt_name o) ++ [61] ++
  if option_type o =? OPTION_STRING then c_str d
  else values_text (option_type o) (length d / unit_of (option_type o)) d.

Definition block_size (o : dhcp_option) (len : nat) : nat :=
  Z.to_nat (upper_length (Z.of_nat len) o) + length (chars (opt_name o)) + 2.

Lemma upper_length_spec o len m :
  numeric (option_type o) → len = (unit_of (option_type o) * m)%nat →
  Z.to_nat (upper_length (Z.of_nat len) o) = (text_size (option_type o) * m)%nat
  ∧ (len / unit_of (option_type o))%nat = m.
Proof.
  intros Ht ->. pose proof (unit_pos _ Ht) as Hu. split.
  - unfold upper_length. set (t := option_type o) in *.
    assert (Eu : option_lengths !!! Z.to_nat t = Z.of_nat (unit_of t) ∧ 0 ≤ max_option_length !!! Z.to_nat t)
      by (pattern t; apply (numeric_cases t); [..|exact Ht]; vm_compute; split; done).
    destruct Eu as [-> Hm]. rewrite <- Nat2Z.inj_div, Nat.mul_comm, Nat.div_mul by lia.
    rewrite Z2Nat.inj_mul, Nat2Z.id by lia. done.
  - rewrite Nat.mul_comm. apply Nat.div_mul. lia.
Qed.

Lemma until_zero_c_str t d r : nonzero t → until_zero (t ++ d ++ 0 :: r) = Some (t ++ c_str d).
Proof.
  intros Hz. induction Hz as [|x t Hx Hz IH]; cbn [app until_zero c_str].
  - induction d as [|x d IHd]; cbn [app until_zero c_str]; [done|]. destruct (x =? 0); [done|]. by rewrite IHd.
  - destruct (Z.eqb_spec x 0); [done|]. by rewrite IH.
Qed.

(** Printing a string option: the bytes behind the text, cut at a zero. *)
Lemma fill_string_spec b dest p opt d n fuel optlen :
  holds_text b dest n → nonzero dest → slice p opt (length d) = d → (opt + length d ≤ length p)%nat →
  (length d ≤ n)%nat → (0 < fuel)%nat →
  ∃ b', fill_loop fuel OPTION_STRING b (length dest) p opt optlen (Z.of_nat (length d)) = Ok b'
    ∧ string_at b' 0 = Ok (dest ++ c_str d).
Proof.
  intros (r & -> & Hr) Hz Hd Hp Hn Hf. destruct fuel as [|fuel]; [lia|]. cbn [fill_loop].
  change (OPTION_STRING =? OPTION_STRING) with true. cbv iota. rewrite Nat2Z.id.
  rewrite read_at_Ok, bind_ret, Hd by lia.
  rewrite write_at_Ok by (rewrite length_app; cbn; lia). rewrite bind_ret.
  assert (Es : splice (dest ++ 0 :: r) (length dest) d = dest ++ d ++ drop (length d) (0 :: r)).
  { unfold splice. rewrite take_app_length, drop_app_ge by lia. do 3 f_equal. lia. }
  rewrite Es, write_at_Ok by (rewrite !length_app, length_drop; cbn; lia).
  eexists. split; [reflexivity|].
  assert (Ez : splice (dest ++ d ++ drop (length d) (0 :: r)) (length dest + length d) [0]
    = dest ++ d ++ 0 :: drop (length d + 1) (0 :: r)).
  { unfold splice. rewrite (app_assoc dest d), <- length_app, take_app_length.
    assert (E : drop (length (dest ++ d) + length [0]) ((dest ++ d) ++ drop (length d) (0 :: r))
      = drop (length d + 1) (0 :: r)).
    { rewrite drop_app_ge by lia. rewrite drop_drop. f_equal. cbn [length]. lia. }
    rewrite E, <- app_assoc. done. }
  rewrite Ez. unfold string_at. rewrite drop_0, until_zero_c_str by done. done.
Qed.

Lemma print_option_spec o p opt d :
  o ∈ options → is_bytes p → byte_at p (opt - 1) = Ok (Z.of_nat (length d)) → slice p opt (length d) = d →
  (opt + length d ≤ length p)%nat → (length d ≤ 255)%nat → well_sized o d →
  print_block (block_size o (length d)) (λ b, fill_options b p opt o) = Ok (option_text o d).
Proof.
  intros Ho Hb Hlen Hd Hp H255 Hw. destruct (table_entry o Ho) as (Hname & _ & Htype).
  unfold print_block, fill_options, block_size. rewrite Hlen, bind_ret.
  set (name := chars (opt_name o)) in *. set (t := option_type o) in *.
  set (size := (Z.to_nat (upper_length (Z.of_nat (length d)) o) + length name + 1)%nat).
  replace (Z.to_nat (upper_length (Z.of_nat (length d)) o) + length name + 2)%nat with (S size) by lia.
  destruct (sprintf_spec _ [] size (name ++ [61]) (blank_block size)) as (b1 & E1 & H1);
    [rewrite length_app; cbn; lia|]. cbn [length app] in E1, H1. rewrite E1, bind_ret.
  assert (Hnz : nonzero (name ++ [61])) by (apply Forall_app; split; [done|]; apply Forall_singleton; lia).
  unfold option_text. fold t name. destruct (decide (t = OPTION_STRING)) as [Es|Es].
  - rewrite Es. change (OPTION_STRING =? OPTION_STRING) with true. cbv iota.
    destruct (fill_string_spec b1 (name ++ [61]) p opt d _ 256 (option_lengths !!! Z.to_nat OPTION_STRING) H1 Hnz Hd Hp)
      as (b2 & E2 & Hs); [|lia|].
    { rewrite length_app. subst size. unfold upper_length. fold t. rewrite Es.
      change (max_option_length !!! Z.to_nat OPTION_STRING) with 1.
      change (option_lengths !!! Z.to_nat OPTION_STRING) with 1. rewrite Z.div_1_r. cbn [length]. lia. }
    rewrite E2, bind_ret, Hs, <- app_assoc. done.
  - destruct Htype as [|Ht]; [done|]. destruct Hw as [|(m & Hm)]; [done|]. fold t in Hm.
    destruct (upper_length_spec o (length d) (S m) Ht Hm) as [Hup Hdiv]. fold t in Hup, Hdiv.
    destruct (Z.eqb_spec t OPTION_STRING); [done|]. rewrite Hdiv.
    assert (Hbd : is_bytes d) by (rewrite <- Hd; by apply is_bytes_slice).
    destruct (values_text_spec t (S m) d Ht Hbd Hm) as [Hv Hvz].
    assert (Eu : option_lengths !!! Z.to_nat t = Z.of_nat (unit_of t))
      by (pattern t; apply (numeric_cases t); [..|exact Ht]; reflexivity).
    rewrite Eu. pose proof (unit_pos t Ht).
    destruct (fill_loop_spec t m 256 b1 (name ++ [61]) p opt d _ Ht Hb Hm Hd Hp H1) as (b2 & n2 & E2 & H2); [|nia|].
    { subst size. rewrite Hup, length_app. cbn [length]. lia. }
    rewrite E2, bind_ret. erewrite read_text; [|exact H2|by apply Forall_app]. by rewrite <- app_assoc.
Qed.

(** ** The environment *)

(** The strings of the options of the table among the items. *)
Definition table_strings (l : list dhcp_option) (its : list item) : list bytes :=
  omap (λ o, option_text o <$> (snd <$> find_item its (opt_code o) 240)) l.

Definition table_sized (its : list item) : Prop :=
  ∀ o ptr d, o ∈ options → find_item its (opt_code o) 240 = Some (ptr, d) → well_sized o d.

(** The address in text, with the space behind it, has at most 15 characters. *)
Definition short_address (ip : bytes) : Prop := (length (ip_text [] ip) ≤ 15)%nat.

Lemma print_block_spec n t :
  nonzero t → (length t ≤ n)%nat →
  print_block (S n) (λ b, '(b, _) ← sprintf b 0 t; mret b) = Ok t.
Proof.
  intros Hz Hn. unfold print_block.
  destruct (sprintf_spec _ [] n t (blank_block n) Hn) as (b & E & Hb). cbn [length app] in E, Hb.
  rewrite E, bind_ret. change (mret b) with (Ok b). rewrite bind_ret. by eapply read_text.
Qed.

Lemma print_ip_spec n pre p off :
  is_bytes p → (off + 4 ≤ length p)%nat → nonzero pre → (length pre + length (ip_text [] (slice p off 4)) ≤ n)%nat →
  print_block (S n) (λ b, '(b, _) ← sprintip b 0 pre p off; mret b) = Ok (ip_text pre (slice p off 4)).
Proof.
  intros Hb Hl Hp Hn. destruct (ip_text_spec pre (slice p off 4)) as [_ Hz];
    [by apply is_bytes_slice|by apply length_slice|done|].
  rewrite <- (print_block_spec n _ Hz).
  - unfold print_block, sprintip. rewrite read_at_Ok by done. done.
  - assert (E : ip_text pre (slice p off 4) = pre ++ ip_text [] (slice p off 4)) by done.
    rewrite E, length_app. lia.
Qed.

Lemma c_str_nonzero s : nonzero (c_str s).
Proof. induction s as [|x s IH]; cbn; [constructor|]. destruct (Z.eqb_spec x 0); [constructor|by constructor]. Qed.

Definition field_text (name : bytes) (p : bytes) (off size : nat) : bytes :=
  name ++ c_str (slice (set8 p (off + size - 1) 0) off size).

Lemma field_string_spec name p off size :
  nonzero name → field_string name p off size = Ok (field_text name p off size, set8 p (off + size - 1) 0).
Proof.
  intros Hn. unfold field_string, field_text. cbv zeta. set (s := c_str _).
  replace (length name + 1 + length s)%nat with (S (length (name ++ s))) by (rewrite length_app; lia).
  rewrite print_block_spec; [|apply Forall_app; split; [done|apply c_str_nonzero]|done]. done.
Qed.

Section items.
Context (p : bytes) (its : list item) (Hp : has_items p its) (Hno : no_overload its) (Hb : is_bytes p).

Lemma count_options_spec l :
  (∀ o, o ∈ l → 0 < opt_code o < 255) → count_options l p = Ok (length (table_strings l its)).
Proof.
  induction l as [|o l IH]; intros Hl; [done|]. cbn [count_options].
  rewrite (get_option_has_items p its _ Hp Hno) by (apply Hl; by left). rewrite bind_ret, IH, bind_ret
    by (intros o' Ho'; apply Hl; by right).
  unfold table_strings. cbn [omap list_omap]. by destruct (find_item its (opt_code o) 240) as [[ptr d]|].
Qed.

Lemma option_strings_spec l :
  table_sized its → (∀ o, o ∈ l → o ∈ options) → option_strings l p = Ok (table_strings l its).
Proof.
  intros Hw. induction l as [|o l IH]; intros Hl; [done|]. cbn [option_strings].
  destruct (table_entry o (Hl o ltac:(by left))) as (_ & Hc & _).
  rewrite (get_option_has_items p its _ Hp Hno Hc). rewrite bind_ret.
  unfold table_strings in *. cbn [omap list_omap].
  destruct (find_item its (opt_code o) 240) as [[ptr d]|] eqn:Ef; cbn [fmap option_fmap option_map fst snd].
  2: { apply IH. intros o' Ho'. apply Hl. by right. }
  pose proof (has_items_length _ _ Hp) as Hlen. destruct Hp as (Hlp & Hok & rest & Hd).
  destruct (find_item_data its p 240 rest _ ptr d Hd Ef) as (D1 & D2 & D3 & D4 & Hin).
  rewrite D2, bind_ret. change (Z.to_nat (upper_length (Z.of_nat (length d)) o) + length (chars (opt_name o)) + 2)%nat
    with (block_size o (length d)).
  rewrite Forall_forall in Hok. destruct (Hok _ Hin) as [_ H255].
  rewrite print_option_spec; [|apply Hl; by left|done|done|done|lia|done|by eapply Hw, Ef; apply Hl; left].
  rewrite bind_ret, IH by (intros o' Ho'; apply Hl; by right). done.
Qed.

Lemma overload_none : overload p = Ok 0.
Proof.
  unfold overload. rewrite (get_option_has_items p its _ Hp Hno) by (unfold DHCP_OPTION_OVER; lia).
  destruct (find_item its DHCP_OPTION_OVER 240) as [[ptr d]|] eqn:Ef; [|done].
  destruct Hp as (_ & _ & rest & Hd).
  destruct (find_item_data its p 240 rest _ ptr d Hd Ef) as (_ & _ & _ & _ & Hin). by apply Hno in Hin.
Qed.
End items.

(** For a message whose options are a list of items, those of the table that
    are not strings with a length that is a positive multiple of their unit, and
    whose addresses have at most 14 characters in text, the environment of the
    script is built without writing beyond a block or the array: it has the
    interface, PATH and HOME, the address of the client, one string "name=values"
    for each option of the table that the message has, in the order of the table,
    the server's address if there is one, and the file and server name fields if
    they are not empty; the array is filled to its end. *)
Theorem script_environment_correct environ interface p its
    (Hp : has_items p its) (Hno : no_overload its) (Hb : is_bytes p) (Hw : table_sized its)
    (Hy : short_address (slice p F_yiaddr 4)) (Hs : siaddr p = 0 ∨ short_address (slice p F_siaddr 4)) :
  let file := if p !!! F_file =? 0 then [] else [field_text (chars "boot_file=") p F_file 128] in
  let p1 := if p !!! F_file =? 0 then p else set8 p 235 0 in
  let sname := if p !!! F_sname =? 0 then [] else [field_text (chars "sname=") p1 F_sname 64] in
  let p2 := if p !!! F_sname =? 0 then p1 else set8 p1 107 0 in
  let env := [chars "interface=" ++ interface;
              find_env environ (chars "PATH") (chars "PATH=/bin:/usr/bin:/sbin:/usr/sbin");
              find_env environ (chars "HOME") (chars "HOME=/")]
    ++ [ip_text (chars "ip=") (slice p F_yiaddr 4)] ++ table_strings options its
    ++ (if siaddr p =? 0 then [] else [ip_text (chars "siaddr=") (slice p F_siaddr 4)]) ++ file ++ sname in
  fill_envp environ interface (Some p) = Ok ((length env + 1)%nat, env, Some p2).
Proof.
  cbv zeta. unfold fill_envp. assert (Hl : length p = 548%nat) by apply Hp.
  rewrite (count_options_spec p its Hp Hno) by (intros o Ho; by apply table_entry). rewrite bind_ret.
  rewrite (overload_none p its Hp Hno), bind_ret. cbv zeta.
  change (Z.land 0 FILE_FIELD =? 0) with true. change (Z.land 0 SNAME_FIELD =? 0) with true. cbn [andb].
  assert (Hnz : ∀ s, forallb (λ x, negb (x =? 0)) s = true → nonzero s).
  { intros s. rewrite forallb_forall. intros H. apply Forall_forall. intros x Hx.
    apply list_elem_of_In in Hx. apply H in Hx. destruct (Z.eqb_spec x 0); done. }
  assert (L1 : (F_yiaddr + 4 ≤ length p)%nat) by (rewrite Hl; unfold F_yiaddr; lia).
  assert (L2 : (F_siaddr + 4 ≤ length p)%nat) by (rewrite Hl; unfold F_siaddr; lia).
  change 19%nat with (S 18). rewrite (print_ip_spec 18 (chars "ip=") p F_yiaddr Hb L1);
    [|by apply Hnz|change (length (chars "ip=")) with 3%nat; unfold short_address in Hy; lia].
  rewrite bind_ret, (option_strings_spec p its Hp Hno Hb _ Hw) by done. rewrite bind_ret.
  assert (Hsi : (if negb (siaddr p =? 0)
      then s ← print_block 23 (λ b, '(b, _) ← sprintip b 0 (chars "siaddr=") p F_siaddr; mret b); mret [s]
      else mret []) = Ok (if siaddr p =? 0 then [] else [ip_text (chars "siaddr=") (slice p F_siaddr 4)])).
  { destruct (Z.eqb_spec (siaddr p) 0) as [|Hsi]; cbn [negb]; [done|]. destruct Hs as [|Hs]; [done|].
    change 23%nat with (S 22). rewrite (print_ip_spec 22 (chars "siaddr=") p F_siaddr Hb L2); [done|by apply Hnz|].
    change (length (chars "siaddr=")) with 7%nat. unfold short_address in Hs. lia. }
  rewrite Hsi, bind_ret. rewrite !length_app. cbn [length].
  destruct (p !!! F_file =? 0); cbn [negb];
    [|rewrite field_string_spec, bind_ret by (by apply Hnz)]; change (@mret res res_ret) with (@Ok);
    rewrite bind_ret; (destruct (p !!! F_sname =? 0); cbn [negb];
      [|rewrite field_string_spec, bind_ret by (by apply Hnz)]); rewrite bind_ret;
    do 3 f_equal; destruct (siaddr p =? 0); cbn [negb length]; lia.
Qed.

(** ** The environment of the script on concrete messages: a witness and the flaws *)

(** An acknowledgement for the address [y] with the options [more]. *)
Definition script_items (more : list item) : list item := Opt DHCP_MESSAGE_TYPE [DHCPACK] :: more.
Definition script_message (y : bytes) (more : list item) : bytes :=
  splice (request (replicate 6 1) (script_items more)) F_yiaddr y.

(** Two routers, a host name and a lease time, and a name in the file field. *)
Definition lan_items : list item :=
  [Opt DHCP_SUBNET [255; 255; 255; 0]; Opt 3 [10; 0; 0; 1; 10; 0; 0; 2]; Opt DHCP_HOST_NAME (chars "host");
   Opt DHCP_LEASE_TIME (be_bytes 4 3600)].
Definition lan_message : bytes := splice (script_message [10; 0; 1; 2] lan_items) F_file (chars "boot").


(** [well_sized] as a check. *)
Definition sizedb (o : dhcp_option) (d : bytes) : bool :=
  let u := unit_of (option_type o) in
  (option_type o =? OPTION_STRING)
  || ((0 <? length d / u)%nat && (length d =? u * (length d / u))%nat).

Definition table_sizedb (its : list item) : bool :=
  forallb (λ o, match find_item its (opt_code o) 240 with Some (_, d) => sizedb o d | None => true end) options.

Lemma table_sizedb_sound its : table_sizedb its = true → table_sized its.
Proof.
  unfold table_sizedb. rewrite forallb_forall. intros H o ptr d Ho E.
  specialize (H o (proj1 (list_elem_of_In _ _) Ho)). rewrite E in H. unfold sizedb in H.
  apply orb_true_iff in H as [H|H]; [left; by apply Z.eqb_eq|right].
  apply andb_true_iff in H as [H1 H2]. apply Nat.ltb_lt in H1. apply Nat.eqb_eq in H2.
  exists (Nat.pred (length d / unit_of (option_type o))). rewrite Nat.succ_pred by lia. done.
Qed.

Definition environment_of (r : res (nat * list bytes * option bytes)) : list bytes :=
  match r with Ok (_, env, _) => env | _ => [] end.

Lemma script_environment_correct_witness :
  fill_envp [] (chars "eth0") (Some lan_message)
  = Ok (11%nat, map chars
          ["interface=eth0"; "PATH=/bin:/usr/bin:/sbin:/usr/sbin"; "HOME=/"; "ip=10.0.1.2 ";
           "subnet=255.255.255.0 "; "router=10.0.0.1 10.0.0.2 "; "hostname=host"; "lease=3600 "; "dhcptype=5 ";
           "boot_file=boot"]%string, Some (set8 lan_message 235 0)).
Proof.
  assert (Hp : has_items lan_message (script_items lan_items)).
  { split; [by vm_compute|]. split; [apply item_okb_sound; by vm_compute|].
    exists (drop (length (encs (script_items lan_items)) + 1) (drop 240 lan_message)). by vm_compute. }
  assert (Hno : no_overload (script_items lan_items)) by (apply item_okb_sound; by vm_compute).
  assert (Hb : is_bytes lan_message) by (apply bytesb_sound; by vm_compute).
  assert (Hw : table_sized (script_items lan_items)) by (apply table_sizedb_sound; by vm_compute).
  assert (Hy : short_address (slice lan_message F_yiaddr 4)) by (unfold short_address; vm_compute; lia).
  rewrite (script_environment_correct [] (chars "eth0") lan_message _ Hp Hno Hb Hw Hy); [by vm_compute|].
  left. by vm_compute.
Defined.

(** ** Flaws *)

(** Two estimates are too small.  The block of "ip=" has no room for the space
    behind an address of 15 characters, so that 192.168.100.100 ends with a write one
    byte behind it (and the block of "siaddr=" likewise), while 192.168.100.10 fits;
    and the estimate for an option rounds its length down to whole values, so that the
    last value of an address list of 7 bytes, and every value of an option of no
    bytes, is printed behind the block. *)
Theorem script_overflows :
  fill_envp [] (chars "eth0") (Some (script_message [192; 168; 100; 100] [])) = Fault
  ∧ fill_envp [] (chars "eth0")
      (Some (splice (script_message [10; 0; 1; 2] []) F_siaddr [192; 168; 100; 100])) = Fault
  ∧ last (take 4 (environment_of (fill_envp [] (chars "eth0") (Some (script_message [192; 168; 100; 10] [])))))
    = Some (chars "ip=192.168.100.10 ")
  ∧ fill_envp [] (chars "eth0") (Some (script_message [10; 0; 1; 2] [Opt 3 [10; 0; 0; 1; 10; 0; 0]])) = Fault
  ∧ fill_envp [] (chars "eth0") (Some (script_message [10; 0; 1; 2] [Opt DHCP_SUBNET []])) = Fault.
Proof. by repeat split; vm_compute. Qed.
