(* ===== verification/DhcpDump.v ===== *)
(** * Printing the file of leases (progs.gpl/udhcpcd/dumpleases.c)

    [dumpleases] has a structure of its own for the records of the file, without the
    member [ACKed] that [write_leases] writes. *)

From stdpp Require Import base numbers strings list.
From S2P Require Import Prelude Bytes DhcpOptions DhcpLeases DhcpLeasesProps DhcpServer DhcpFiles DhcpFilesProps DhcpScript.

(** [struct lease_t] *)
Record lease_t := mk_lease_t { lt_chaddr : bytes; lt_yiaddr : Z; lt_expires : Z; lt_hostname : bytes }.
Definition LEASE_T_SIZE : nat := 88.

Definition lease_t_of (r : bytes) : lease_t :=
  mk_lease_t (slice r 0 16) (get32 r 16) (get32 r 20) (slice r 24 64).

Inductive mode := REMAINING | ABSOLUTE.

(** ** Printing *)

(** [%-ns] *)
Definition pad_right (n : nat) (s : bytes) : bytes := s ++ replicate (n - length s) 32.

(** [%02x] is [hex2]. *)
Definition mac_text (chaddr : bytes) : bytes :=
  let x i := hex2 (chaddr !!! i) in
  x 0%nat ++ [58] ++ x 1%nat ++ [58] ++ x 2%nat ++ [58] ++ x 3%nat ++ [58] ++ x 4%nat ++ [58] ++ x 5%nat.

(** [inet_ntoa] *)
Definition dotted_text (a : Z) : bytes :=
  let d i := dec (be_bytes 4 a !!! i) in d 0%nat ++ [46] ++ d 1%nat ++ [46] ++ d 2%nat ++ [46] ++ d 3%nat.

(** One unit of the time that is left: what is printed, and the rest. *)
Definition unit_text (expires size : Z) (name : String.string) : bytes * Z :=
  if size <? expires then (dec (Z.quot expires size) ++ chars name, Z.rem expires size) else ([], expires).

Definition remaining_text (expires : Z) : bytes :=
  if expires =? 0 then chars "expired" ++ [10]
  else
    let '(days, e) := unit_text expires (60 * 60 * 24) " days, " in
    let '(hours, e) := unit_text e (60 * 60) " hours, " in
    let '(minutes, e) := unit_text e 60 " minutes, " in
    days ++ hours ++ minutes ++ dec e ++ chars " seconds" ++ [10].

Section dump.
Context (ctime : Z → bytes).

(** The line of a record; a host name that is not terminated is read past its end. *)
Definition lease_line (m : mode) (l : lease_t) : res bytes :=
  name ← deref (until_zero (lt_hostname l));
  let expires := s32 (lt_expires l) in
  mret (pad_right 16 name ++ [32] ++ mac_text (lt_chaddr l) ++ [32] ++ pad_right 15 (dotted_text (lt_yiaddr l)) ++ [32]
        ++ match m with REMAINING => remaining_text expires | ABSOLUTE => ctime expires end).

(** The loop: every turn consumes a record. *)
Fixpoint dump_loop (fuel : nat) (m : mode) (file : bytes) : res (list bytes) :=
  if decide (LEASE_T_SIZE ≤ length file)%nat then
    match fuel with
    | O => NoFuel
    | S fuel =>
        line ← lease_line m (lease_t_of (take LEASE_T_SIZE file));
        rest ← dump_loop fuel m (drop LEASE_T_SIZE file);
        mret (line :: rest)
    end
  else mret [].

Definition dumpleases (m : mode) (file : bytes) : res (list bytes) := dump_loop (length file) m file.
End dump.

(** ** Properties *)

(** The times that are printed add up. *)
Definition unit_of_time (e size : Z) : Z * Z := if size <? e then (Z.quot e size, Z.rem e size) else (0, e).

Lemma unit_adds_up e size : 0 < size → 0 ≤ e → let '(n, r) := unit_of_time e size in e = n * size + r ∧ 0 ≤ r ≤ size ∧ 0 ≤ n.
Proof.
  intros Hs He. unfold unit_of_time. destruct (Z.ltb_spec size e); [|lia].
  rewrite Z.quot_div_nonneg, Z.rem_mod_nonneg by lia. pose proof (Z.div_mod e size). pose proof (Z.mod_pos_bound e size).
  pose proof (Z.div_pos e size). lia.
Qed.

Lemma remaining_text_spec e :
  0 < e < 2147483648 →
  ∃ d h m s, e = d * 86400 + h * 3600 + m * 60 + s ∧ 0 ≤ s ≤ 60 ∧ 0 ≤ m ≤ 60 ∧ 0 ≤ h ≤ 24
    ∧ remaining_text e = (if 86400 <? e then dec d ++ chars " days, " else [])
        ++ (if 3600 <? h * 3600 + m * 60 + s then dec h ++ chars " hours, " else [])
        ++ (if 60 <? m * 60 + s then dec m ++ chars " minutes, " else []) ++ dec s ++ chars " seconds" ++ [10].
Proof.
  intros He. pose proof (unit_adds_up e 86400 ltac:(lia) ltac:(lia)) as H1.
  destruct (unit_of_time e 86400) as [d e1] eqn:E1. destruct H1 as [H1 H1'].
  pose proof (unit_adds_up e1 3600 ltac:(lia) ltac:(lia)) as H2. destruct (unit_of_time e1 3600) as [h e2] eqn:E2.
  destruct H2 as [H2 H2']. pose proof (unit_adds_up e2 60 ltac:(lia) ltac:(lia)) as H3.
  destruct (unit_of_time e2 60) as [m s] eqn:E3. destruct H3 as [H3 H3'].
  assert (Hm : 0 ≤ m ≤ 60) by lia. assert (Hh : 0 ≤ h ≤ 24) by lia.
  exists d, h, m, s. split; [lia|]. split; [lia|]. split; [done|]. split; [done|].
  assert (He2 : m * 60 + s = e2) by lia. assert (He1 : h * 3600 + m * 60 + s = e1) by lia. rewrite He1, He2.
  unfold remaining_text. destruct (Z.eqb_spec e 0); [lia|].
  change (60 * 60 * 24) with 86400. change (60 * 60) with 3600.
  assert (Hu : ∀ x size n, unit_text x size n
    = (if size <? x then dec (fst (unit_of_time x size)) ++ chars n else [], snd (unit_of_time x size))).
  { intros x size n0. unfold unit_text, unit_of_time. by destruct (size <? x). }
  rewrite !Hu, E1. cbn [fst snd]. rewrite E2. cbn [fst snd]. by rewrite E3.
Qed.

(** The loop ends on every file. *)
Lemma dumpleases_stops ctime m file : dumpleases ctime m file ≠ NoFuel.
Proof.
  unfold dumpleases. assert (H : ∀ fuel f, (length f ≤ fuel)%nat → dump_loop ctime fuel m f ≠ NoFuel); [|by apply H].
  induction fuel as [|fuel IH]; intros f Hf; cbn [dump_loop]; unfold LEASE_T_SIZE in *; (destruct (decide _); [|done]); [lia|].
  unfold lease_line. destruct (until_zero _); [|done]. cbn [deref]. rewrite !bind_ret.
  specialize (IH (drop 88 f)). rewrite length_drop in IH. destruct (dump_loop _ _ _ _); [done|done|]. destruct IH; [lia|done].
Qed.

(** ** The records do not match *)

Definition two_leases : server :=
  mk_server (cfg demo_server)
    [mk_lease (demo_mac 1) 0x0A000101 5000 1 (chars "alpha" ++ replicate 59 0);
     mk_lease (demo_mac 2) 0x0A000102 5000 1 (chars "beta" ++ replicate 60 0)] [] 1000.

(** Of two leases with names, the first is printed without its name, and of the
    second nothing is printed that belongs to it: its record is read four bytes too
    early. *)
Example dumpleases_misreads :
  dumpleases (λ _, []) REMAINING (write_leases two_leases)
  = Ok [pad_right 16 [] ++ chars " 00:50:ba:01:02:01 10.0.1.1        1 hours, 6 minutes, 40 seconds" ++ [10];
        pad_right 16 [] ++ chars " 00:00:00:00:00:50 0.0.0.0         1941 days, 19 hours, 26 minutes, 58 seconds" ++ [10]].
Proof. by vm_compute. Qed.
