(* ===== verification/Syscalls.v ===== *)
(** * System calls

    A call asks the operating system, whose answer may depend on everything asked
    before: the state of a program that calls is the trace of its calls and their
    answers, and the operating system is a function of it.  [opened] are the
    descriptors the trace leaves open. *)

From stdpp Require Import base numbers gmap sets list.
From S2P Require Import Prelude Bytes.

Inductive address : Type :=
| Inet (port ip : Z)
| Link (protocol ifindex halen : Z) (haddr : bytes)
| Device (name : bytes)
| Unix (path : bytes).

Inductive call : Type :=
| Socket (domain type protocol : Z)
| Setsockopt (fd option : Z) (value : bytes)
| Ioctl (fd request : Z) (name : bytes)
| Bind (fd : Z) (a : address)
| Connect (fd : Z) (a : address)
| Sendto (fd : Z) (data : bytes) (a : address)
| Write (fd : Z) (data : bytes)
| Send (fd : Z) (data : bytes)
| Recv (fd : Z) (size : nat)
| Read (fd : Z) (size : nat)
| Fcntl (fd : Z)
| Select (fd seconds : Z)
| Sysinfo
| Open (path : bytes)
| Lockf (fd cmd : Z)
| Fdopen (fd : Z)
| Unlink (path : bytes)
| Close (fd : Z).

(** The result, [errno], and the bytes delivered. *)
Record reply := mk_reply { rv : Z; errno : Z; delivered : bytes }.

Definition trace : Type := list (call * reply).

Class Os := answer_to : trace → call → reply.

(** Constants of the kernel's headers for the target. *)
Definition PF_INET : Z := 2.
Definition PF_PACKET : Z := 17.
Definition SOCK_DGRAM : Z := 1.
Definition SOCK_RAW : Z := 3.
Definition SOCK_PACKET : Z := 10.
Definition SO_REUSEADDR : Z := 0x0004.
Definition SO_BROADCAST : Z := 0x0020.
Definition SO_BINDTODEVICE : Z := 25.
Definition SIOCGIFADDR : Z := 0x8915.
Definition SIOCGIFHWADDR : Z := 0x8927.
Definition SIOCGIFINDEX : Z := 0x8933.
Definition EINTR : Z := 4.
Definition IFNAMSIZ : nat := 16.
Definition ARPHRD_ETHER : Z := 1.

(** An [int] that is one, as an option's value. *)
Definition one : bytes := [0; 0; 0; 1].

(** ** Descriptors *)

Definition opens (o : gset Z) (e : call * reply) : gset Z :=
  match e with
  | (Socket _ _ _, a) | (Open _, a) => if rv a <? 0 then o else {[rv a]} ∪ o
  | (Close fd, _) => o ∖ {[fd]}
  | _ => o
  end.

Definition opened (t : trace) : gset Z := foldl opens ∅ t.

(** What the manual pages promise: [socket] and [open] give -1 or a descriptor that
    is not open, the [ioctl]s fill in the sixteen bytes of the union, and [recv] and
    [read] deliver what they count, within the buffer. *)
Class OsOk (os : Os) : Prop := {
  os_socket : ∀ t d ty p, let a := answer_to t (Socket d ty p) in rv a = -1 ∨ (0 ≤ rv a ∧ rv a ∉ opened t);
  os_open : ∀ t path, let a := answer_to t (Open path) in rv a = -1 ∨ (0 ≤ rv a ∧ rv a ∉ opened t);
  os_ioctl : ∀ t fd r n, let a := answer_to t (Ioctl fd r n) in
    rv a = 0 → length (delivered a) = 16%nat ∧ is_bytes (delivered a);
  os_recv : ∀ t fd n, let a := answer_to t (Recv fd n) in
    0 ≤ rv a → rv a = Z.of_nat (length (delivered a)) ∧ (length (delivered a) ≤ n)%nat ∧ is_bytes (delivered a);
  os_read : ∀ t fd n, let a := answer_to t (Read fd n) in
    0 ≤ rv a → rv a = Z.of_nat (length (delivered a)) ∧ (length (delivered a) ≤ n)%nat ∧ is_bytes (delivered a) }.

(** ** Programs that call *)

Definition sys (A : Type) : Type := trace → res (A * trace).

#[export] Instance sys_ret : MRet sys := λ A a t, Ok (a, t).
#[export] Instance sys_bind : MBind sys := λ A B f m t,
  match m t with Ok (a, t) => f a t | Fault => Fault | NoFuel => NoFuel end.

Section calls.
Context `{Os}.

Definition ask (c : call) : sys reply := λ t, let a := answer_to t c in Ok (a, t ++ [(c, a)]).

(** [close(fd); return -1;] *)
Definition close_fail (fd : Z) : sys Z := _ ← ask (Close fd); mret (-1).

(** A computation that does not call. *)
Definition lift {A} (r : res A) : sys A := λ t,
  match r with Ok a => Ok (a, t) | Fault => Fault | NoFuel => NoFuel end.

Lemma ask_bind {A} (c : call) (k : reply → sys A) t :
  (ask c ≫= k) t = k (answer_to t c) (t ++ [(c, answer_to t c)]).
Proof. done. Qed.

Lemma lift_bind {A B} (r : res A) (k : A → sys B) a t :
  r = Ok a → (lift r ≫= k) t = k a t.
Proof. intros ->. done. Qed.

Lemma opened_app t t' : opened (t ++ t') = foldl opens (opened t) t'.
Proof. apply foldl_app. Qed.

(** Only [socket], [open] and [close] change the descriptors. *)
Lemma opened_snoc t c a : opened (t ++ [(c, a)]) = opens (opened t) (c, a).
Proof. by rewrite opened_app. Qed.
End calls.

(** ** Runs of programs that call: the calls they make, and loops without a bound

    A loop that waits for the outside has no bound of its own.  [upto] says of such a
    program that it completes with a result that its calls explain, or that the operating
    system has woken it as often as its fuel. *)

(** The calls [u] were made after [t]. *)
Inductive asked `{Os} : trace → trace → Prop :=
| asked_nil t : asked t []
| asked_cons t c u : asked (t ++ [(c, answer_to t c)]) u → asked t ((c, answer_to t c) :: u).

(** How often [select] came back before its time. *)
Definition wakeup (e : call * reply) : bool :=
  match e with (Select _ _, a) => negb (rv a =? 0) | _ => false end.
Definition wakeups (u : trace) : nat := length (List.filter wakeup u).

Lemma wakeups_app u v : wakeups (u ++ v) = (wakeups u + wakeups v)%nat.
Proof. unfold wakeups. by rewrite List.filter_app, length_app. Qed.

(** The calls [u] lead from [t] to [t']. *)
Definition ran `{Os} (t u t' : trace) : Prop := t' = t ++ u ∧ asked t u.

Section runs.
Context `{Hos : Os}.

Lemma ran_nil t : ran t [] t.
Proof. split; [by rewrite app_nil_r|constructor]. Qed.

Lemma asked_app t u v : asked t u → asked (t ++ u) v → asked t (u ++ v).
Proof.
  intros Hu Hv. induction Hu as [t|t c u Hu IH]; [by rewrite app_nil_r in Hv|].
  cbn [app]. constructor. apply IH. by rewrite <- app_assoc.
Qed.

Lemma ran_app t u t1 u1 t2 : ran t u t1 → ran t1 u1 t2 → ran t (u ++ u1) t2.
Proof. intros [-> Hu] [-> Hu1]. split; [by rewrite app_assoc|by apply asked_app]. Qed.

Lemma ran_call t u t1 c :
  ran t u t1 → ran t (u ++ [(c, answer_to t1 c)]) (t1 ++ [(c, answer_to t1 c)]).
Proof. intros Hu. eapply ran_app; [exact Hu|]. split; [done|]. constructor. constructor. Qed.

(** ** Completion up to a number of wake-ups *)

Definition upto (fuel : nat) {A} (m : sys A) (t : trace) (Q : A → trace → Prop) : Prop :=
  match m t with
  | Ok (a, t') => ∃ u, ran t u t' ∧ Q a u
  | Fault => False
  | NoFuel => ∃ u, asked t u ∧ (fuel ≤ wakeups u)%nat
  end.

Lemma upto_ret {A} fuel (a : A) t (Q : A → trace → Prop) : Q a [] → upto fuel (mret a) t Q.
Proof. intros HQ. exists []. split; [apply ran_nil|done]. Qed.

Lemma upto_out {A} t (Q : A → trace → Prop) : upto 0 (lift NoFuel) t Q.
Proof. exists []. split; [constructor|apply Nat.le_0_l]. Qed.

Lemma upto_mono {A} fuel fuel' (m : sys A) t (Q Q' : A → trace → Prop) :
  upto fuel m t Q → (fuel' ≤ fuel)%nat → (∀ a u, asked t u → Q a u → Q' a u) → upto fuel' m t Q'.
Proof.
  unfold upto. intros H Hf HQ. destruct (m t) as [[a t']| |]; [|done|].
  - destruct H as (u & [-> Hu] & Ha). exists u. split; [done|by apply HQ].
  - destruct H as (u & Hu & Hw). exists u. split; [done|lia].
Qed.

Lemma upto_bind {A B} fuel (m : sys A) (k : A → sys B) t Q Q' :
  upto fuel m t Q →
  (∀ a u, asked t u → Q a u → upto (fuel - wakeups u) (k a) (t ++ u) (λ b v, Q' b (u ++ v))) →
  upto fuel (m ≫= k) t Q'.
Proof.
  unfold upto, mbind, sys_bind. intros H Hk. destruct (m t) as [[a t']| |]; [|done|done].
  destruct H as (u & [-> Hu] & Ha). specialize (Hk a u Hu Ha). destruct (k a (t ++ u)) as [[b t']| |]; [|done|].
  - destruct Hk as (v & [-> Hv] & Hb). exists (u ++ v). split; [|done].
    split; [by rewrite app_assoc|by apply asked_app].
  - destruct Hk as (v & Hv & Hw). exists (u ++ v). split; [by apply asked_app|]. rewrite wakeups_app. lia.
Qed.

(** A call in front. *)
Lemma upto_ask {A} fuel (c : call) (k : reply → sys A) t Q :
  (let a := answer_to t c in
   upto (if wakeup (c, a) then pred fuel else fuel) (k a) (t ++ [(c, a)]) (λ b u, Q b ((c, a) :: u))) →
  upto fuel (ask c ≫= k) t Q.
Proof.
  cbv zeta. unfold upto. rewrite ask_bind. intros H. destruct (k _ _) as [[b t']| |]; [|done|].
  - destruct H as (u & [-> Hu] & Hb). eexists (_ :: u). split; [|exact Hb].
    split; [by rewrite <- app_assoc|by constructor].
  - destruct H as (u & Hu & Hw). exists ((c, answer_to t c) :: u). split; [by constructor|].
    unfold wakeups in *. cbn [List.filter]. destruct (wakeup _); cbn [length]; lia.
Qed.

Lemma upto_lift {A B} fuel (r : res A) (k : A → sys B) a t Q :
  r = Ok a → upto fuel (k a) t Q → upto fuel (lift r ≫= k) t Q.
Proof. intros E H. unfold upto. by rewrite (lift_bind _ _ a). Qed.

(** A program that does not ask. *)
Lemma upto_done {A} fuel (m : sys A) t a (Q : A → trace → Prop) : m t = Ok (a, t) → Q a [] → upto fuel m t Q.
Proof. intros E HQ. unfold upto. rewrite E. exists []. split; [apply ran_nil|done]. Qed.
End runs.

(** What a run gave, for examples. *)
Definition result_of {A} (d : A) (r : res (A * trace)) : A := match r with Ok (a, _) => a | _ => d end.
Definition trace_of {A} (r : res (A * trace)) : trace := match r with Ok (_, t) => t | _ => [] end.
