(* ===== verification/DhcpSockets.v ===== *)
(** * The sockets of the DHCP programs (progs.gpl/udhcpcd: socket.c, arpping.c,
    pidfile.c, [raw_packet] and [kernel_packet] of packet.c)

    Constants are those of the kernel's headers for the target. *)

From stdpp Require Import base numbers list.
From S2P Require Import Prelude Bytes DhcpOptions DhcpPacket DhcpServer DhcpScript Syscalls.

Definition IPPROTO_RAW : Z := 255.
Definition ETH_P_IP : Z := 0x0800.
Definition ETH_P_ARP : Z := 0x0806.
Definition INADDR_ANY : Z := 0.

(** What [read_interface] stores through its pointers. *)
Record interface_info := mk_info { i_ifindex : Z; i_addr : Z; i_arp : bytes }.

(** [strcpy] of a string into a member of [n] bytes. *)
Definition strcpy (n : nat) (s : bytes) : res bytes := if decide (length s < n)%nat then Ok s else Fault.

Section sockets.
Context `{Os}.

(** ** socket.c *)

(** [want_addr] tells whether [addr] is not NULL. *)
Definition read_interface (interface : bytes) (want_addr : bool) (o : interface_info)
  : sys (Z * interface_info) :=
  fd ← ask (Socket PF_INET SOCK_RAW IPPROTO_RAW);
  if rv fd <? 0 then mret (-1, o)
  else
    name ← lift (strcpy IFNAMSIZ interface);
    '(failed, o) ←
      (if want_addr then
         a ← ask (Ioctl (rv fd) SIOCGIFADDR name);
         mret (if rv a =? 0 then (false, mk_info (i_ifindex o) (get32 (delivered a) 4) (i_arp o))
               else (true, o))
       else mret (false, o));
    if failed : bool then mret (-1, o)
    else
      a ← ask (Ioctl (rv fd) SIOCGIFINDEX name);
      if negb (rv a =? 0) then mret (-1, o)
      else
        let o := mk_info (s32 (get32 (delivered a) 0)) (i_addr o) (i_arp o) in
        a ← ask (Ioctl (rv fd) SIOCGIFHWADDR name);
        if negb (rv a =? 0) then mret (-1, o)
        else
          _ ← ask (Close (rv fd));
          mret (0, mk_info (i_ifindex o) (i_addr o) (slice (delivered a) 2 6)).

Definition listen_socket (ip port : Z) (inf : bytes) : sys Z :=
  fd ← ask (Socket PF_INET SOCK_DGRAM IPPROTO_UDP);
  if rv fd <? 0 then mret (-1)
  else
    a ← ask (Setsockopt (rv fd) SO_REUSEADDR one);
    if rv a =? -1 then close_fail (rv fd)
    else
      a ← ask (Setsockopt (rv fd) SO_BROADCAST one);
      if rv a =? -1 then close_fail (rv fd)
      else
        a ← ask (Setsockopt (rv fd) SO_BINDTODEVICE (take IFNAMSIZ inf ++ replicate (IFNAMSIZ - length inf) 0));
        if rv a <? 0 then close_fail (rv fd)
        else
          a ← ask (Bind (rv fd) (Inet (u16 port) ip));
          if rv a =? -1 then close_fail (rv fd) else mret (rv fd).

Definition raw_socket (ifindex : Z) : sys Z :=
  fd ← ask (Socket PF_PACKET SOCK_DGRAM ETH_P_IP);
  if rv fd <? 0 then mret (-1)
  else
    a ← ask (Bind (rv fd) (Link ETH_P_IP ifindex 0 []));
    if rv a <? 0 then close_fail (rv fd) else mret (rv fd).

(** ** packet.c *)

Definition raw_packet (payload : bytes) (source_ip source_port dest_ip dest_port : Z)
    (dest_arp : bytes) (ifindex : Z) : sys Z :=
  fd ← ask (Socket PF_PACKET SOCK_DGRAM ETH_P_IP);
  if rv fd <? 0 then mret (-1)
  else
    arp ← lift (read_at dest_arp 0 6);
    let dest := Link ETH_P_IP ifindex 6 arp in
    a ← ask (Bind (rv fd) dest);
    if rv a <? 0 then close_fail (rv fd)
    else
      f ← lift (raw_packet_frame payload source_ip source_port dest_ip dest_port);
      result ← ask (Sendto (rv fd) (frame_bytes f) dest);
      _ ← ask (Close (rv fd));
      mret (rv result).

Definition kernel_packet (payload : bytes) (source_ip source_port dest_ip dest_port : Z) : sys Z :=
  fd ← ask (Socket PF_INET SOCK_DGRAM IPPROTO_UDP);
  if rv fd <? 0 then mret (-1)
  else
    a ← ask (Setsockopt (rv fd) SO_REUSEADDR one);
    if rv a =? -1 then mret (-1)
    else
      a ← ask (Bind (rv fd) (Inet (u16 source_port) source_ip));
      if rv a =? -1 then mret (-1)
      else
        a ← ask (Connect (rv fd) (Inet (u16 dest_port) dest_ip));
        if rv a =? -1 then mret (-1)
        else
          result ← ask (Write (rv fd) payload);
          _ ← ask (Close (rv fd));
          mret (rv result).

(** ** arpping.c *)

Definition ARP_SIZE : nat := 60.
Definition ARPOP_REQUEST : Z := 1.
Definition ARPOP_REPLY : Z := 2.

(** The members of [struct arpMsg]: [operation] at 20, [sHaddr] at 22, [sInaddr] at
    28, [tHaddr] at 32, [tInaddr] at 38. *)
Definition arp_request (yiaddr ip : Z) (mac : bytes) : bytes :=
  replicate 6 255 ++ mac ++ be_bytes 2 ETH_P_ARP ++ be_bytes 2 ARPHRD_ETHER ++ be_bytes 2 ETH_P_IP
  ++ [6; 4] ++ be_bytes 2 ARPOP_REQUEST ++ mac ++ be_bytes 4 ip ++ replicate 6 0 ++ be_bytes 4 yiaddr
  ++ replicate 18 0.

Definition arp_answers (arp : bytes) (yiaddr : Z) (mac : bytes) : bool :=
  (get16 arp 20 =? ARPOP_REPLY) && bool_decide (slice arp 32 6 = mac) && (get32 arp 28 =? yiaddr).

(** [_uptime]; a [sysinfo] that fails leaves [info] uninitialised. *)
Definition uptime : sys Z :=
  a ← ask Sysinfo;
  if rv a =? 0 then mret (s32 (get32 (delivered a) 0)) else lift Fault.

(** The body of the loop up to the clock: [rv], the buffer, and whether it breaks. *)
Definition arp_wait (s yiaddr : Z) (mac : bytes) (timeout r : Z) (arp : bytes) : sys (Z * bytes * bool) :=
  e ← ask (Select s timeout);
  if rv e <? 0 then mret (if errno e =? EINTR then r else 0, arp, false)
  else if 0 <? rv e then
    d ← ask (Recv s ARP_SIZE);
    let arp := if rv d <? 0 then arp else splice arp 0 (delivered d) in
    let found := arp_answers arp yiaddr mac in
    mret (if found then 0 else if rv d <? 0 then 0 else r, arp, found)
  else mret (r, arp, false).

Fixpoint arp_loop (fuel : nat) (s yiaddr : Z) (mac : bytes) (timeout prev r : Z) (arp : bytes) : sys Z :=
  if timeout <=? 0 then mret r
  else
    match fuel with
    | O => lift NoFuel
    | S fuel =>
        '(r, arp, found) ← arp_wait s yiaddr mac timeout r arp;
        if found : bool then mret r
        else
          now ← uptime;
          prev' ← uptime;
          arp_loop fuel s yiaddr mac (timeout - (now - prev)) prev' r arp
    end.

(** [fuel] bounds how often [select] may wake up. *)
Definition arpping_call (fuel : nat) (yiaddr ip : Z) (mac interface : bytes) : sys Z :=
  s ← ask (Socket PF_PACKET SOCK_PACKET ETH_P_ARP);
  if rv s =? -1 then mret (-1)
  else
    a ← ask (Setsockopt (rv s) SO_BROADCAST one);
    if rv a =? -1 then close_fail (rv s)
    else
      mac ← lift (read_at mac 0 6);
      let arp := arp_request yiaddr ip mac in
      name ← lift (strcpy 14 interface);
      a ← ask (Sendto (rv s) arp (Device name));
      prev ← uptime;
      r ← arp_loop fuel (rv s) yiaddr mac 2 prev (if rv a <? 0 then 0 else 1) arp;
      _ ← ask (Close (rv s));
      mret r.

(** ** pidfile.c *)

Definition F_ULOCK : Z := 0.
Definition F_LOCK : Z := 1.

Definition pidfile_acquire (pidfile : option bytes) : sys Z :=
  match pidfile with
  | None => mret (-1)
  | Some path =>
      fd ← ask (Open path);
      if rv fd <? 0 then mret (rv fd) else _ ← ask (Lockf (rv fd) F_LOCK); mret (rv fd)
  end.

(** [fclose] writes what [fprintf] has buffered and closes the descriptor, which is
    then unlocked and closed again. *)
Definition pidfile_write_release (pid pid_fd : Z) : sys () :=
  if pid_fd <? 0 then mret ()
  else
    out ← ask (Fdopen pid_fd);
    _ ← (if rv out =? 0 then mret ()
         else _ ← ask (Write pid_fd (dec pid ++ [10])); _ ← ask (Close pid_fd); mret ());
    _ ← ask (Lockf pid_fd F_ULOCK);
    _ ← ask (Close pid_fd);
    mret ().

Definition pidfile_delete (pidfile : option bytes) : sys () :=
  match pidfile with
  | None => mret ()
  | Some path => _ ← ask (Unlink path); mret ()
  end.
End sockets.

(** What the server asks for, done; [WriteLeases] uses no socket. *)
Definition do_action `{Os} (a : action) : sys Z :=
  match a with
  | Kernel p sip sport dip dport => kernel_packet p sip sport dip dport
  | Raw p sip sport dip dport arp ifindex => raw_packet p sip sport dip dport arp ifindex
  | WriteLeases _ => mret 0
  end.
