(* ===== verification/SocketProps.v ===== *)
(** * Descriptors: the theorems about the sockets of the DHCP programs *)

From stdpp Require Import base numbers gmap sets list.
From S2P Require Import Prelude Bytes DhcpOptions DhcpPacket DhcpPacketProps DhcpServer Syscalls DhcpSockets.

(** [m], started after the calls [t], completes, and [Q] holds of its result and the
    calls then made. *)
Definition post {A} (m : sys A) (t : trace) (Q : A → trace → Prop) : Prop :=
  ∃ a t', m t = Ok (a, t') ∧ Q a t'.

Section rules.
Context `{Hos : Os}.

Lemma post_ask {A} (c : call) (k : reply → sys A) t Q :
  post (k (answer_to t c)) (t ++ [(c, answer_to t c)]) Q → post (ask c ≫= k) t Q.
Proof. done. Qed.

Lemma post_ret {A} (a : A) t (Q : A → trace → Prop) : Q a t → post (mret a) t Q.
Proof. intros HQ. by exists a, t. Qed.

Lemma post_bind {A B} (m : sys A) (k : A → sys B) t Q :
  post m t (λ a t', post (k a) t' Q) → post (m ≫= k) t Q.
Proof. intros (a & t' & E & b & t'' & E' & HQ). exists b, t''. split; [|done]. unfold mbind, sys_bind. by rewrite E. Qed.

Lemma post_lift {A B} (r : res A) (k : A → sys B) a t Q : r = Ok a → post (k a) t Q → post (lift r ≫= k) t Q.
Proof. intros E (b & t' & E' & HQ). exists b, t'. split; [|done]. by rewrite (lift_bind _ _ a). Qed.

Lemma post_weaken {A} (m : sys A) t (Q R : A → trace → Prop) :
  post m t Q → (∀ a t', Q a t' → R a t') → post m t R.
Proof. intros (a & t' & E & HQ) H. exists a, t'. auto. Qed.
End rules.

(** ** Descriptors *)

(** The calls on one descriptor, all but [close], do not change what is open. *)
Definition on_fd (c : call) : option Z :=
  match c with
  | Setsockopt fd _ _ | Ioctl fd _ _ | Bind fd _ | Connect fd _ | Sendto fd _ _ | Write fd _ | Recv fd _ | Select fd _ | Lockf fd _ | Fdopen fd
  | Send fd _ | Read fd _ | Fcntl fd => Some fd
  | _ => None
  end.

Lemma opened_on_fd t c a fd : on_fd c = Some fd → opened (t ++ [(c, a)]) = opened t.
Proof. intros H. rewrite opened_snoc. by destruct c. Qed.

Lemma opened_sysinfo t a : opened (t ++ [(Sysinfo, a)]) = opened t.
Proof. by rewrite opened_snoc. Qed.

Lemma opened_socket t d ty p a : opened (t ++ [(Socket d ty p, a)]) = if rv a <? 0 then opened t else {[rv a]} ∪ opened t.
Proof. by rewrite opened_snoc. Qed.

Lemma opened_close t fd a o :
  fd ∉ o → opened t = {[fd]} ∪ o → opened (t ++ [(Close fd, a)]) = o.
Proof. intros H E. rewrite opened_snoc. cbn. rewrite E. set_solver. Qed.

Section accounted.
Context `{Hos : Os} `{!OsOk Hos}.

Lemma post_socket {A} d ty p (k : reply → sys A) t Q :
  (∀ a t', rv a = -1 → opened t' = opened t → post (k a) t' Q) →
  (∀ a t', 0 ≤ rv a → rv a ∉ opened t → opened t' = {[rv a]} ∪ opened t → post (k a) t' Q) →
  post (ask (Socket d ty p) ≫= k) t Q.
Proof.
  intros Hf Hs. apply post_ask. destruct (os_socket t d ty p) as [H|[H1 H2]].
  - apply Hf; [done|]. rewrite opened_socket. by rewrite H.
  - apply Hs; [done|done|]. rewrite opened_socket. destruct (Z.ltb_spec (rv (answer_to t (Socket d ty p))) 0); [lia|done].
Qed.

Lemma post_on_fd {A} c fd (k : reply → sys A) t Q :
  on_fd c = Some fd →
  (∀ a t', a = answer_to t c → t' = t ++ [(c, a)] → opened t' = opened t → post (k a) t' Q) →
  post (ask c ≫= k) t Q.
Proof. intros Hc H. apply post_ask. eapply H; [done|done|]. by eapply opened_on_fd. Qed.

Lemma post_sysinfo {A} (k : reply → sys A) t Q :
  (∀ a t', t' = t ++ [(Sysinfo, a)] → opened t' = opened t → post (k a) t' Q) → post (ask (Sysinfo) ≫= k) t Q.
Proof. intros H. apply post_ask. eapply H; [done|]. by apply opened_sysinfo. Qed.

Lemma post_close {A} fd o (k : reply → sys A) t Q :
  fd ∉ o → opened t = {[fd]} ∪ o →
  (∀ a t', t' = t ++ [(Close fd, a)] → opened t' = o → post (k a) t' Q) → post (ask (Close fd) ≫= k) t Q.
Proof. intros H1 H2 H. apply post_ask. eapply H; [done|]. by eapply opened_close. Qed.

Lemma post_close_fail fd o t (Q : Z → trace → Prop) :
  fd ∉ o → opened t = {[fd]} ∪ o → (∀ t', opened t' = o → Q (-1) t') → post (close_fail fd) t Q.
Proof. intros H1 H2 H. unfold close_fail. eapply post_close; [done..|]. intros a t' _ E. apply post_ret. auto. Qed.

(** [fd] is the new descriptor, and the one that is open now. *)
Definition owns (t : trace) (fd : Z) (t' : trace) : Prop :=
  0 ≤ fd ∧ (fd ∉ opened t) ∧ opened t' = ({[fd]} ∪ opened t).

(** The result of a function that gives a socket to its caller. *)
Definition socket_or_error (t : trace) (r : Z) (t' : trace) : Prop :=
  (r = -1 ∧ opened t' = opened t) ∨ owns t r t'.

Lemma owned t fd t1 : 0 ≤ fd → fd ∉ opened t → opened t1 = {[fd]} ∪ opened t → owns t fd t1.
Proof. done. Qed.
Lemma owns_on t fd t1 t2 : owns t fd t1 → opened t2 = opened t1 → owns t fd t2.
Proof. intros (H1 & H2 & H3) E. split; [done|]. split; [done|]. congruence. Qed.
Lemma no_socket t t' : opened t' = opened t → socket_or_error t (-1) t'.
Proof. by left. Qed.
Lemma has_socket t fd t' : owns t fd t' → socket_or_error t fd t'.
Proof. by right. Qed.

(** A call on the descriptor that a function owns. *)
Lemma post_owned {A} c fd (k : reply → sys A) t t1 Q :
  on_fd c = Some fd → owns t fd t1 →
  (∀ a t2, a = answer_to t1 c → t2 = t1 ++ [(c, a)] → owns t fd t2 → post (k a) t2 Q) →
  post (ask c ≫= k) t1 Q.
Proof. intros Hc Ho H. eapply post_on_fd; [done|]. intros a t2 Ea Et E. apply H; [done|done|]. by eapply owns_on. Qed.

Lemma post_give_up fd t t1 (Q : Z → trace → Prop) :
  owns t fd t1 → (∀ t2, opened t2 = opened t → Q (-1) t2) → post (close_fail fd) t1 Q.
Proof. intros (H1 & H2 & H3) H. by eapply post_close_fail. Qed.

Lemma post_close_owned {A} fd t t1 (k : reply → sys A) Q :
  owns t fd t1 →
  (∀ a t2, t2 = t1 ++ [(Close fd, a)] → opened t2 = opened t → post (k a) t2 Q) →
  post (ask (Close fd) ≫= k) t1 Q.
Proof. intros (H1 & H2 & H3) H. by eapply post_close. Qed.

(** The two ways a function that opens a socket begins. *)
Lemma post_open {A} d ty p (k : reply → sys A) t (Q : A → trace → Prop) :
  (∀ a t', rv a = -1 → opened t' = opened t → post (k a) t' Q) →
  (∀ a t', rv a ≠ -1 → (rv a <? 0) = false → owns t (rv a) t' → post (k a) t' Q) →
  post (ask (Socket d ty p) ≫= k) t Q.
Proof.
  intros Hf Hs. apply post_socket; [done|]. intros a t' H1 H2 H3.
  apply Hs; [lia|by apply Z.ltb_ge|done].
Qed.

(** One call on the owned descriptor; [H] says that it is owned. *)
Ltac on_owned H :=
  eapply post_owned; [reflexivity|exact H|]; clear H; let a := fresh "reply" in let s := fresh "trace" in intros a s _ _ H.

Lemma listen_socket_spec ip port inf t : post (listen_socket ip port inf) t (socket_or_error t).
Proof.
  unfold listen_socket. apply post_open; [intros a t' -> E; apply post_ret; by left|].
  intros fd t1 _ -> H1.
  on_owned H1. case (_ =? -1); [by apply (post_give_up _ _ _ _ H1), no_socket|].
  on_owned H1. case (_ =? -1); [by apply (post_give_up _ _ _ _ H1), no_socket|].
  on_owned H1. case (_ <? 0); [by apply (post_give_up _ _ _ _ H1), no_socket|].
  on_owned H1. case (_ =? -1); [by apply (post_give_up _ _ _ _ H1), no_socket|].
  apply post_ret. by right.
Qed.

Lemma raw_socket_spec ifindex t : post (raw_socket ifindex) t (socket_or_error t).
Proof.
  unfold raw_socket. apply post_open; [intros a t' -> E; apply post_ret; by left|].
  intros fd t1 _ -> H1. on_owned H1.
  case (_ <? 0); [by apply (post_give_up _ _ _ _ H1), no_socket|]. apply post_ret. by right.
Qed.

(** The last call failed, and the descriptor it was on is left open. *)
Definition leaks (t : trace) (t' : trace) : Prop :=
  ∃ fd c a, owns t fd t' ∧ last t' = Some (c, a) ∧ on_fd c = Some fd ∧ rv a ≠ 0.

Lemma leaks_now t fd c a t1 : owns t fd (t1 ++ [(c, a)]) → on_fd c = Some fd → rv a ≠ 0 → leaks t (t1 ++ [(c, a)]).
Proof. intros H1 H2 H3. exists fd, c, a. split; [done|]. split; [by rewrite last_snoc|done]. Qed.

Lemma sent_before {A} (x : A) l l' : x ∈ l → x ∈ l ++ l'.
Proof. rewrite elem_of_app. by left. Qed.
Lemma sent_last {A} (x : A) l : x ∈ l ++ [x].
Proof. rewrite elem_of_app, list_elem_of_singleton. by right. Qed.

Lemma raw_packet_correct payload sip sport dip dport arp ifindex t :
  is_bytes payload → length payload = MSG_SIZE → is_u32 sip → is_u32 dip → (6 ≤ length arp)%nat →
  post (raw_packet payload sip sport dip dport arp ifindex) t (λ r t',
    opened t' = opened t
    ∧ (r ≠ -1 → ∃ f fd a, raw_packet_frame payload sip sport dip dport = Ok f ∧ r = rv a
        ∧ (Sendto fd (frame_bytes f) (Link ETH_P_IP ifindex 6 (slice arp 0 6)), a) ∈ t')).
Proof.
  intros Hb Hl Hs Hd Ha. destruct (raw_packet_frame_spec payload sip sport dip dport Hb Hl Hs Hd) as (c & h & Ef & _).
  unfold raw_packet. apply post_open; [intros a t' -> E; by apply post_ret|].
  intros fd t1 _ -> H1. eapply post_lift; [by apply read_at_Ok|]. on_owned H1.
  case (_ <? 0); [by apply (post_give_up _ _ _ _ H1)|].
  eapply post_lift; [exact Ef|]. eapply post_owned; [done|exact H1|]. intros a2 t2 _ -> H2.
  eapply post_close_owned; [exact H2|]. intros a3 t3 -> H3. apply post_ret. split; [done|].
  intros _. eexists _, _, a2. split; [exact Ef|]. split; [done|]. apply sent_before, sent_last.
Qed.

Lemma kernel_packet_correct payload sip sport dip dport t :
  post (kernel_packet payload sip sport dip dport) t (λ r t',
    (opened t' = opened t
     ∧ (r ≠ -1 → ∃ fd a a1 a2, r = rv a ∧ (Write fd payload, a) ∈ t'
          ∧ (Bind fd (Inet (u16 sport) sip), a1) ∈ t' ∧ (Connect fd (Inet (u16 dport) dip), a2) ∈ t'))
    ∨ r = -1 ∧ leaks t t').
Proof.
  unfold kernel_packet. apply post_open; [intros a t' -> E; apply post_ret; by left|].
  intros fd t1 _ -> H1. eapply post_owned; [done|exact H1|]. intros a2 t2 _ -> H2.
  case (Z.eqb_spec (rv a2) (-1)); intros E2; [apply post_ret; right; split; [done|]; apply (leaks_now _ _ _ _ _ H2); [done|lia]|].
  eapply post_owned; [done|exact H2|]. intros a3 t3 _ Et3 H3.
  case (Z.eqb_spec (rv a3) (-1)); intros E3;
    [apply post_ret; right; split; [done|]; subst t3; apply (leaks_now _ _ _ _ _ H3); [done|lia]|].
  eapply post_owned; [done|exact H3|]. intros a4 t4 _ Et4 H4.
  case (Z.eqb_spec (rv a4) (-1)); intros E4;
    [apply post_ret; right; split; [done|]; subst t4; apply (leaks_now _ _ _ _ _ H4); [done|lia]|].
  eapply post_owned; [done|exact H4|]. intros a5 t5 _ Et5 H5.
  eapply post_close_owned; [exact H5|]. intros a6 t6 -> H6. apply post_ret. left. split; [done|]. intros _.
  exists (rv fd), a5, a3, a4. subst t5 t4 t3. split; [done|].
  split; [apply sent_before, sent_last|]. split; [do 3 apply sent_before; apply sent_last|do 2 apply sent_before; apply sent_last].
Qed.

(** [read_interface] fills the three values in; it leaves its socket open when an
    [ioctl] fails. *)
Lemma read_interface_correct name want o t :
  (length name < 16)%nat →
  post (read_interface name want o) t (λ ro t',
    (fst ro = 0 ∧ opened t' = opened t ∧ length (i_arp (snd ro)) = 6%nat ∧ is_bytes (i_arp (snd ro))
     ∧ (if want : bool then is_u32 (i_addr (snd ro)) else i_addr (snd ro) = i_addr o))
    ∨ (fst ro = -1 ∧ (opened t' = opened t ∨ leaks t t'))).
Proof.
  intros Hn. unfold read_interface.
  apply post_open; [intros a t' -> E; apply post_ret; right; split; [done|by left]|].
  intros fd t1 _ -> H1. eapply post_lift; [unfold strcpy, IFNAMSIZ; by rewrite decide_True by lia|].
  apply post_bind.
  assert (Hfirst : post (if want then a ← ask (Ioctl (rv fd) SIOCGIFADDR name);
      mret (if rv a =? 0 then (false, mk_info (i_ifindex o) (get32 (delivered a) 4) (i_arp o)) else (true, o))
    else mret (false, o)) t1 (λ fo t2,
      if fst fo : bool then leaks t t2
      else owns t (rv fd) t2 ∧ if want : bool then is_u32 (i_addr (snd fo)) else snd fo = o)).
  { destruct want; [|by apply post_ret]. eapply post_owned; [done|exact H1|]. intros a t2 -> Et H2. apply post_ret.
    destruct (Z.eqb_spec (rv (answer_to t1 (Ioctl (rv fd) SIOCGIFADDR name))) 0) as [E|E]; cbn [fst snd].
    - split; [done|]. destruct (os_ioctl _ _ _ _ E) as [Hl Hb]. by apply get32_range.
    - subst t2. by apply (leaks_now _ _ _ _ _ H2). }
  eapply post_weaken; [exact Hfirst|]. intros [failed o1] t2. cbn [fst snd].
  destruct failed; [intros Hl; apply post_ret; right; split; [done|by right]|]. intros [H2 Ho].
  eapply post_owned; [done|exact H2|]. intros a3 t3 _ Et3 H3.
  destruct (Z.eqb_spec (rv a3) 0) as [E3|E3]; cbn [negb].
  2: { apply post_ret. right. split; [done|]. right. subst t3. by apply (leaks_now _ _ _ _ _ H3). }
  eapply post_owned; [done|exact H3|]. intros a4 t4 -> Et4 H4.
  destruct (Z.eqb_spec (rv (answer_to t3 (Ioctl (rv fd) SIOCGIFHWADDR name))) 0) as [E4|E4]; cbn [negb].
  2: { apply post_ret. right. split; [done|]. right. subst t4. by apply (leaks_now _ _ _ _ _ H4). }
  eapply post_close_owned; [exact H4|]. intros a5 t5 _ H5. apply post_ret. left. cbn [fst snd i_arp i_addr].
  destruct (os_ioctl _ _ _ _ E4) as [Hl Hb]. split; [done|]. split; [done|].
  split; [apply length_slice; lia|]. split; [by apply is_bytes_slice|]. destruct want; [done|by rewrite Ho].
Qed.
(** The descriptor of the file of the process id is closed again. *)
Lemma pidfile_spec pidfile pid t :
  post (fd ← pidfile_acquire pidfile; pidfile_write_release pid fd) t (λ _ t', opened t' = opened t).
Proof.
  apply post_bind. unfold pidfile_acquire. destruct pidfile as [path|]; [|by apply post_ret, post_ret].
  apply post_ask. set (a := answer_to t (Open path)).
  assert (Ho : rv a = -1 ∨ 0 ≤ rv a ∧ rv a ∉ opened t) by apply os_open.
  assert (E : opened (t ++ [(Open path, a)]) = if rv a <? 0 then opened t else {[rv a]} ∪ opened t)
    by (by rewrite opened_snoc).
  destruct (Z.ltb_spec (rv a) 0) as [Hn|Hn]; unfold pidfile_write_release.
  { apply post_ret. rewrite (proj2 (Z.ltb_lt _ _) Hn). by apply post_ret. }
  destruct Ho as [|[H1 H2]]; [lia|]. assert (O : owns t (rv a) (t ++ [(Open path, a)])) by done.
  eapply post_owned; [done|exact O|]. intros b t2 _ _ O2. apply post_ret.
  rewrite (proj2 (Z.ltb_ge _ _) Hn). eapply post_owned; [done|exact O2|]. intros out t3 _ _ O3.
  destruct (rv out =? 0).
  - on_owned O3. eapply post_close_owned; [exact O3|]. intros ? t5 _ E5. by apply post_ret.
  - apply post_bind. eapply post_owned; [done|exact O3|]. intros ? t4 _ _ O4.
    eapply post_close_owned; [exact O4|]. intros ? t5 _ E5. apply post_ret.
    eapply (post_on_fd _ (rv a)); [done|]. intros ? t6 _ _ E6. apply post_ask, post_ret. rewrite opened_snoc. cbn.
    rewrite E6, E5. set_solver.
Qed.
End accounted.

(** The descriptors of the DHCP programs.  [listen_socket] and [raw_socket] give
    their caller a new descriptor, the only one they leave open, or -1 and none;
    [raw_packet] closes what it opens on every path, and has sent the frame of the
    message to the interface unless it returns -1; [kernel_packet] sends the message
    from the address and port and to those it is given, or returns -1, and closes its
    socket except when [setsockopt], [bind] or [connect] fails: then the socket is left
    open for ever; and [read_interface] likewise, when an [ioctl] fails, else it
    returns the index, address and hardware address. *)
Theorem sockets_accounted `{Hos : Os} `{!OsOk Hos} t ip port inf ifindex payload sip sport dip dport arp want o
    (Hb : is_bytes payload) (Hl : length payload = MSG_SIZE) (Hs : is_u32 sip) (Hd : is_u32 dip)
    (Ha : (6 ≤ length arp)%nat) (Hn : (length inf < 16)%nat) :
  post (listen_socket ip port inf) t (socket_or_error t)
  ∧ post (raw_socket ifindex) t (socket_or_error t)
  ∧ post (raw_packet payload sip sport dip dport arp ifindex) t (λ r t',
      opened t' = opened t
      ∧ (r ≠ -1 → ∃ f fd a, raw_packet_frame payload sip sport dip dport = Ok f ∧ r = rv a
          ∧ (Sendto fd (frame_bytes f) (Link ETH_P_IP ifindex 6 (slice arp 0 6)), a) ∈ t'))
  ∧ post (kernel_packet payload sip sport dip dport) t (λ r t',
      (opened t' = opened t
       ∧ (r ≠ -1 → ∃ fd a a1 a2, r = rv a ∧ (Write fd payload, a) ∈ t'
            ∧ (Bind fd (Inet (u16 sport) sip), a1) ∈ t' ∧ (Connect fd (Inet (u16 dport) dip), a2) ∈ t'))
      ∨ r = -1 ∧ leaks t t')
  ∧ post (read_interface inf want o) t (λ ro t',
      (fst ro = 0 ∧ opened t' = opened t ∧ length (i_arp (snd ro)) = 6%nat ∧ is_bytes (i_arp (snd ro))
       ∧ (if want : bool then is_u32 (i_addr (snd ro)) else i_addr (snd ro) = i_addr o))
      ∨ (fst ro = -1 ∧ (opened t' = opened t ∨ leaks t t'))).
Proof.
  split; [apply listen_socket_spec|]. split; [apply raw_socket_spec|].
  split; [by apply raw_packet_correct|]. split; [apply kernel_packet_correct|by apply read_interface_correct].
Qed.
