(* ===== verification/ArpProps.v ===== *)
(** * [arpping]: the theorems

    [arpping] is compared with a reading of the trace: what it heard and what
    failed decide its result. *)

From stdpp Require Import base numbers gmap sets list.
From S2P Require Import Prelude Bytes DhcpOptions DhcpOptionsProps DhcpPacket DhcpPacketProps DhcpServer DhcpServerDemo Syscalls DhcpSockets SocketProps.

(** ** The trace *)

Definition uptime_of (a : reply) : Z := s32 (get32 (delivered a) 0).

(** The last uptime that was read. *)
Definition clock (t : trace) : option Z :=
  last (omap (λ e, match e with (Sysinfo, a) => Some (uptime_of a) | _ => None end) t).

(** [sysinfo] fills a valid buffer; a [select] that timed out has waited: the next
    uptime shows it. *)
Class OsTime (os : Os) : Prop := {
  os_sysinfo t : rv (answer_to t Sysinfo) = 0;
  os_time t fd n prev :
    let a := answer_to t (Select fd n) in
    rv a = 0 → clock t = Some prev → prev + n ≤ uptime_of (answer_to (t ++ [(Select fd n, a)]) Sysinfo) }.

(** A call that [arpping] takes for an error: it goes on and answers 0 in the end. *)
Definition broken (u : trace) : bool :=
  existsb (λ e, match e with
                | (Select _ _, a) => (rv a <? 0) && negb (errno a =? EINTR)
                | (Recv _ _, a) | (Sendto _ _ _, a) => rv a <? 0
                | _ => false
                end) u.

(** Whether a reply for the address was received, into a buffer that holds [arp]. *)
Fixpoint heard (yiaddr : Z) (mac arp : bytes) (u : trace) : bool :=
  match u with
  | [] => false
  | (Recv _ _, a) :: u =>
      if rv a <? 0 then heard yiaddr mac arp u
      else let arp := splice arp 0 (delivered a) in arp_answers arp yiaddr mac || heard yiaddr mac arp u
  | _ :: u => heard yiaddr mac arp u
  end.

Lemma clock_uptime t a : clock (t ++ [(Sysinfo, a)]) = Some (uptime_of a).
Proof. unfold clock. rewrite omap_app. cbn. apply last_snoc. Qed.

Lemma clock_other t c a : c ≠ Sysinfo → clock (t ++ [(c, a)]) = clock t.
Proof. intros Hc. unfold clock. rewrite omap_app. cbn. destruct c; try done; by rewrite app_nil_r. Qed.

Section loop.
Context `{Hos : Os} `{!OsOk Hos} `{!OsTime Hos} (yiaddr : Z) (mac : bytes) (t0 : trace) (s : Z).

Lemma uptime_bind {A} (k : Z → sys A) t :
  (uptime ≫= k) t = k (uptime_of (answer_to t Sysinfo)) (t ++ [(Sysinfo, answer_to t Sysinfo)]).
Proof.
  change ((uptime ≫= k) t) with (((if rv (answer_to t Sysinfo) =? 0 then mret (uptime_of (answer_to t Sysinfo)) else lift Fault)
    ≫= k) (t ++ [(Sysinfo, answer_to t Sysinfo)])). by rewrite os_sysinfo.
Qed.

Lemma ask_bind2 {A B} (c : call) (f : reply → sys A) (k : A → sys B) t :
  ((ask c ≫= f) ≫= k) t = (f (answer_to t c) ≫= k) (t ++ [(c, answer_to t c)]).
Proof. done. Qed.
Lemma ret_bind {A B} (a : A) (k : A → sys B) t : (mret a ≫= k) t = k a t.
Proof. done. Qed.

(** What [rv] is in the end when it is [r] and the buffer holds [arp] before the
    calls [u]. *)
Definition verdict (r : Z) (arp : bytes) (u : trace) : Z :=
  if broken u || heard yiaddr mac arp u then 0 else r.

(** What the loop guarantees after the calls [t]. *)
Definition loop_result (fuel : nat) (t : trace) (r : Z) (arp : bytes) (res : res (Z * trace)) : Prop :=
  match res with
  | Ok (r', t') => owns t0 s t' ∧ ∃ u, t' = t ++ u ∧ asked t u ∧ r' = verdict r arp u
  | Fault => False
  | NoFuel => ∃ u, asked t u ∧ wakeups u = fuel
  end.

Lemma loop_stops fuel t r arp : owns t0 s t → loop_result fuel t r arp (Ok (r, t)).
Proof. intros Ho. split; [done|]. exists []. rewrite app_nil_r. split; [done|]. split; [constructor|done]. Qed.

(** One call in front. *)
Lemma loop_call fuel t c a r arp r1 arp1 res :
  a = answer_to t c → (∀ u, verdict r arp ((c, a) :: u) = verdict r1 arp1 u) →
  loop_result fuel (t ++ [(c, a)]) r1 arp1 res →
  loop_result (if wakeup (c, a) then S fuel else fuel) t r arp res.
Proof.
  intros -> Hv H. destruct res as [[r' t']| |]; [|done|].
  - destruct H as (Ho & u & -> & Hu & ->). split; [done|]. eexists ((c, _) :: u).
    rewrite <- app_assoc. split; [done|]. split; [by constructor|]. by rewrite Hv.
  - destruct H as (u & Hu & E). exists ((c, answer_to t c) :: u). split; [by constructor|].
    unfold wakeups in *. cbn [List.filter]. destruct (wakeup _); cbn [length]; lia.
Qed.

Lemma loop_quiet fuel t c a r arp r1 arp1 res :
  a = answer_to t c → wakeup (c, a) = false → (∀ u, verdict r arp ((c, a) :: u) = verdict r1 arp1 u) →
  loop_result fuel (t ++ [(c, a)]) r1 arp1 res → loop_result fuel t r arp res.
Proof. intros Ha Hw Hv H. pose proof (loop_call _ _ _ _ _ _ _ _ _ Ha Hv H) as H'. by rewrite Hw in H'. Qed.

Lemma verdict_sysinfo r arp a u : verdict r arp ((Sysinfo, a) :: u) = verdict r arp u.
Proof. done. Qed.

Lemma verdict_select r arp fd n a u :
  verdict r arp ((Select fd n, a) :: u)
  = verdict (if (rv a <? 0) && negb (errno a =? EINTR) then 0 else r) arp u.
Proof.
  unfold verdict, broken. cbn [existsb heard]. destruct ((rv a <? 0) && negb (errno a =? EINTR)); cbn [orb]; [by case_match|done].
Qed.

Lemma verdict_recv r arp fd n a u :
  verdict r arp ((Recv fd n, a) :: u)
  = verdict (if (rv a <? 0) || arp_answers (splice arp 0 (delivered a)) yiaddr mac then 0 else r)
      (if rv a <? 0 then arp else splice arp 0 (delivered a)) u.
Proof.
  unfold verdict, broken. cbn [existsb heard]. destruct (rv a <? 0); cbn [orb]; [by case_match|].
  destruct (arp_answers _ _ _); cbn [orb]; [|done]. rewrite orb_true_r. by case_match.
Qed.

Lemma owns_call t c a : owns t0 s t → on_fd c = Some s ∨ c = Sysinfo → owns t0 s (t ++ [(c, a)]).
Proof.
  intros Ho [Hc| ->]; (eapply owns_on; [exact Ho|]); [by eapply opened_on_fd|apply opened_sysinfo].
Qed.

(** The two readings of the clock between two turns. *)
Lemma loop_clocks fuel timeout prev r arp t :
  owns t0 s t →
  (∀ t', owns t0 s t' → ∀ timeout prev, clock t' = Some prev →
     loop_result fuel t' r arp (arp_loop fuel s yiaddr mac timeout prev r arp t')) →
  loop_result fuel t r arp
    ((now ← uptime; prev' ← uptime; arp_loop fuel s yiaddr mac (timeout - (now - prev)) prev' r arp) t).
Proof.
  intros Ho IH. rewrite !uptime_bind.
  eapply (loop_quiet _ _ Sysinfo); [reflexivity|reflexivity|intros u; apply verdict_sysinfo|].
  eapply (loop_quiet _ _ Sysinfo); [reflexivity|reflexivity|intros u; apply verdict_sysinfo|].
  apply IH; [|apply clock_uptime]. apply owns_call; [|by right]. apply owns_call; [done|by right].
Qed.

Lemma arp_loop_done fuel timeout prev r arp t :
  timeout ≤ 0 → arp_loop fuel s yiaddr mac timeout prev r arp t = Ok (r, t).
Proof. intros H. destruct fuel; cbn [arp_loop]; by rewrite (proj2 (Z.leb_le _ _)). Qed.

Lemma arp_loop_spec fuel timeout prev r arp t :
  owns t0 s t → clock t = Some prev →
  loop_result fuel t r arp (arp_loop fuel s yiaddr mac timeout prev r arp t).
Proof.
  revert timeout prev r arp t. induction fuel as [|fuel IH]; intros timeout prev r arp t Ho Hc; cbn [arp_loop];
    (destruct (Z.leb_spec timeout 0) as [Ht|Ht]; [by apply loop_stops|]).
  { exists []. split; [constructor|done]. }
  set (e := answer_to t (Select s timeout)).
  assert (Ho1 : owns t0 s (t ++ [(Select s timeout, e)])) by (apply owns_call; [done|by left]).
  assert (IH' : ∀ r arp t', owns t0 s t' → ∀ timeout prev, clock t' = Some prev →
    loop_result fuel t' r arp (arp_loop fuel s yiaddr mac timeout prev r arp t')) by eauto.
  unfold arp_wait.
  rewrite ask_bind2. fold e. destruct (Z.ltb_spec (rv e) 0) as [He|He].
  { pose proof (loop_call fuel t (Select s timeout) e r arp) as Hcall.
    assert (Hw : wakeup (Select s timeout, e) = true) by (cbn; destruct (Z.eqb_spec (rv e) 0); [lia|done]).
    rewrite Hw in Hcall. eapply Hcall; [done|intros u; apply verdict_select|].
    rewrite (proj2 (Z.ltb_lt _ _)) by done. rewrite ret_bind. cbn [andb negb].
    replace (if negb (errno e =? EINTR) then 0 else r) with (if errno e =? EINTR then r else 0) by (by case_match).
    apply loop_clocks; [done|]. intros. by apply IH'. }
  destruct (Z.ltb_spec 0 (rv e)) as [He'|He'].
  2: { assert (rv e = 0) as He0 by lia. rewrite ret_bind. cbn [andb].
       eapply (loop_quiet _ _ (Select s timeout)); [reflexivity|cbn; fold e; by rewrite He0|intros u; apply verdict_select|].
       fold e. rewrite He0. cbn [Z.ltb Z.compare andb]. rewrite !uptime_bind.
       eapply (loop_quiet _ _ Sysinfo); [reflexivity|reflexivity|intros u; apply verdict_sysinfo|].
       eapply (loop_quiet _ _ Sysinfo); [reflexivity|reflexivity|intros u; apply verdict_sysinfo|].
       assert (Htime : prev + timeout ≤ uptime_of (answer_to (t ++ [(Select s timeout, e)]) Sysinfo))
         by exact (os_time t s timeout prev He0 Hc).
       match goal with |- loop_result _ ?t' ?r _ ?x =>
         assert (x = Ok (r, t')) as -> by (refine (arp_loop_done _ _ _ _ _ _ _); lia) end.
       apply loop_stops. do 2 (apply owns_call; [|by right]). done. }
  pose proof (loop_call fuel t (Select s timeout) e r arp) as Hcall.
  assert (Hw : wakeup (Select s timeout, e) = true) by (cbn; destruct (Z.eqb_spec (rv e) 0); [lia|done]).
  rewrite Hw in Hcall. eapply Hcall; [done|intros u; apply verdict_select|].
  rewrite (proj2 (Z.ltb_ge _ _)) by done. cbn [andb]. rewrite ask_bind2.
  set (d := answer_to _ (Recv s ARP_SIZE)).
  assert (Ho2 : owns t0 s ((t ++ [(Select s timeout, e)]) ++ [(Recv s ARP_SIZE, d)])) by (apply owns_call; [done|by left]).
  eapply (loop_quiet _ _ (Recv s ARP_SIZE) d); [reflexivity|reflexivity|intros u; apply verdict_recv|].
  rewrite ret_bind.
  set (arp1 := if rv d <? 0 then arp else splice arp 0 (delivered d)).
  destruct (arp_answers arp1 yiaddr mac) eqn:Ef.
  { replace (if (rv d <? 0) || arp_answers (splice arp 0 (delivered d)) yiaddr mac then 0 else r) with 0.
    - apply loop_stops, Ho2.
    - subst arp1. destruct (rv d <? 0); [done|]. by rewrite Ef. }
  replace (if (rv d <? 0) || arp_answers (splice arp 0 (delivered d)) yiaddr mac then 0 else r)
    with (if rv d <? 0 then 0 else r).
  2: { subst arp1. destruct (rv d <? 0); [done|]. by rewrite Ef. }
  apply loop_clocks; [done|]. intros. by apply IH'.
Qed.
End loop.

(** ** [arpping] *)

(** The calls begin with a [socket] or [setsockopt] that fails. *)
Definition refused (u : trace) : bool :=
  match u with
  | (Socket _ _ _, a) :: (Setsockopt _ _ _, b) :: _ => (rv a =? -1) || (rv b =? -1)
  | (Socket _ _ _, a) :: _ => rv a =? -1
  | _ => false
  end.

Lemma heard_app_close y mac arp u fd a : heard y mac arp (u ++ [(Close fd, a)]) = heard y mac arp u.
Proof.
  revert arp. induction u as [|[c b] u IH]; intros arp; [done|]. cbn [heard app].
  destruct c; auto. destruct (rv b <? 0); [auto|]. by rewrite IH.
Qed.

Lemma broken_app_close u fd a : broken (u ++ [(Close fd, a)]) = broken u.
Proof. unfold broken. rewrite existsb_app. cbn. by rewrite orb_false_r. Qed.

(** What [arpping] with this [fuel] does after the calls [t]. *)
Definition arp_outcome `{Os} (fuel : nat) (yiaddr ip : Z) (mac interface : bytes) (t : trace)
    (res : res (Z * trace)) : Prop :=
  match res with
  | Ok (r, t') =>
      opened t' = opened t ∧ ∃ u, ran t u t'
      ∧ r = (if refused u then -1
             else if broken u || heard yiaddr mac (arp_request yiaddr ip mac) u then 0 else 1)
      ∧ (r ≠ -1 → ∃ s a, (Sendto s (arp_request yiaddr ip mac) (Device interface), a) ∈ u)
  | Fault => False
  | NoFuel => ∃ u, asked t u ∧ (fuel ≤ wakeups u)%nat
  end.

Lemma arpping_outcome `{Hos : Os} `{!OsOk Hos} `{!OsTime Hos} fuel yiaddr ip mac interface t
    (Hm : length mac = 6%nat) (Hi : (length interface < 14)%nat) :
  arp_outcome fuel yiaddr ip mac interface t (arpping_call fuel yiaddr ip mac interface t).
Proof.
  unfold arpping_call. rewrite ask_bind.
  pose proof (os_socket t PF_PACKET SOCK_PACKET ETH_P_ARP) as Hs.
  pose proof (ran_call t [] t (Socket PF_PACKET SOCK_PACKET ETH_P_ARP) (ran_nil t)) as S1. cbn [app] in S1.
  set (a1 := answer_to t (Socket PF_PACKET SOCK_PACKET ETH_P_ARP)) in *. cbv zeta in Hs.
  set (t1 := t ++ _) in *.
  destruct (Z.eqb_spec (rv a1) (-1)) as [E1|E1].
  { split; [unfold t1; rewrite opened_socket; by rewrite E1|]. eexists. split; [exact S1|].
    split; [cbn; by rewrite E1|done]. }
  destruct Hs as [|[P1 P2]]; [done|]. set (s := rv a1) in *.
  assert (O1 : owns t s t1).
  { split; [done|]. split; [done|]. unfold t1. rewrite opened_socket. fold s.
    by rewrite (proj2 (Z.ltb_ge _ _)). }
  rewrite ask_bind. pose proof (ran_call _ _ _ (Setsockopt s SO_BROADCAST one) S1) as S2. cbn [app] in S2.
  set (a2 := answer_to t1 (Setsockopt s SO_BROADCAST one)) in *. set (t2 := t1 ++ _) in *.
  assert (O2 : owns t s t2) by (eapply owns_on; [exact O1|by eapply opened_on_fd]).
  destruct (Z.eqb_spec (rv a2) (-1)) as [E2|E2].
  { split; [by apply (opened_close t2 s _ (opened t)); apply O2|].
    eexists. split; [exact (ran_call _ _ _ (Close s) S2)|].
    split; [cbn; by rewrite E2, orb_true_r|done]. }
  rewrite (lift_bind _ _ mac) by (rewrite read_at_Ok by lia; unfold slice; by rewrite drop_0, take_ge by lia).
  rewrite (lift_bind _ _ interface) by (unfold strcpy; by rewrite decide_True by lia).
  rewrite ask_bind. set (arp := arp_request yiaddr ip mac).
  pose proof (ran_call _ _ _ (Sendto s arp (Device interface)) S2) as S3. cbn [app] in S3.
  set (a3 := answer_to t2 (Sendto s arp (Device interface))) in *. set (t3 := t2 ++ _) in *.
  assert (O3 : owns t s t3) by (eapply owns_on; [exact O2|by eapply opened_on_fd]).
  pose proof (ran_call _ _ _ Sysinfo S3) as S4. cbn [app] in S4.
  set (a4 := answer_to t3 Sysinfo) in *. set (t4 := t3 ++ _) in *.
  assert (O4 : owns t s t4) by (eapply owns_on; [exact O3|apply opened_sysinfo]).
  set (r0 := if rv a3 <? 0 then 0 else 1).
  pose proof (arp_loop_spec yiaddr mac t s fuel 2 (uptime_of a4) r0 arp t4 O4 (clock_uptime _ _)) as H.
  match goal with |- arp_outcome _ _ _ _ _ _ ?x => 
    assert (x = match arp_loop fuel s yiaddr mac 2 (uptime_of a4) r0 arp t4 with
                | Ok (r, t') => Ok (r, t' ++ [(Close s, answer_to t' (Close s))]) | Fault => Fault | NoFuel => NoFuel end) as -> end.
  { etrans; [exact (uptime_bind _ t3)|reflexivity]. }
  destruct (arp_loop _ _ _ _ _ _ _ _ _) as [[r t']| |]; [|done|].
  - destruct H as (O5 & u & E5 & A5 & Er). pose proof (ran_app _ _ _ _ _ S4 (conj E5 A5)) as S5.
    split; [by apply (opened_close t' s _ (opened t)); apply O5|].
    eexists. split; [exact (ran_call _ _ _ (Close s) S5)|].
    split; [|intros _; exists s, a3; by right; right; left].
    rewrite Er. unfold verdict, r0. rewrite broken_app_close, heard_app_close.
    cbn [app refused heard]. unfold broken at 2. cbn [existsb orb]. fold (broken u) s.
    rewrite (proj2 (Z.eqb_neq s _) E1), (proj2 (Z.eqb_neq (rv a2) _) E2). cbn [orb].
    fold arp. by destruct (rv a3 <? 0), (broken u), (heard yiaddr mac arp u).
  - destruct H as (u & A5 & E5). eexists. split; [exact (proj2 (ran_app _ _ _ _ _ S4 (conj eq_refl A5)))|].
    unfold wakeups in *. cbn [app List.filter wakeup]. lia.
Qed.

(** What the comment of [arpping] promises: -1 on an error, 0 for an address in use, 1
    for a free one. *)
Definition arp_result `{Os} (fuel : nat) (yiaddr ip : Z) (mac interface : bytes) (t : trace)
    (res : res (Z * trace)) : Prop :=
  match res with
  | Ok (r, t') =>
      opened t' = opened t ∧ ∃ u, ran t u t'
      ∧ (broken u = false →
         r = if refused u then -1 else if heard yiaddr mac (arp_request yiaddr ip mac) u then 0 else 1)
      ∧ (r = 1 → broken u = false)
      ∧ (r ≠ -1 → ∃ s a, (Sendto s (arp_request yiaddr ip mac) (Device interface), a) ∈ u)
  | Fault => False
  | NoFuel => ∃ u, asked t u ∧ (fuel ≤ wakeups u)%nat
  end.

(** C40: [arpping] opens a socket, broadcasts one request on the interface and closes
    the socket again.  When no call fails after that, its result is -1 if the socket or
    its option was refused, 0 if a reply for the address came back to this hardware
    address, and 1 if none did; an address is never called free when the request could
    not be sent, or a wait or a reading failed ([arpping_send_fails] shows the value
    that the comment leaves out).  For any bound, it ends within this number of
    [select]s that do not time out, those that fail or are interrupted included, or
    the operating system has let it have so many. *)
Theorem arpping_correct `{Hos : Os} `{!OsOk Hos} `{!OsTime Hos} fuel yiaddr ip mac interface t
    (Hm : length mac = 6%nat) (Hi : (length interface < 14)%nat) :
  arp_result fuel yiaddr ip mac interface t (arpping_call fuel yiaddr ip mac interface t).
Proof.
  pose proof (arpping_outcome fuel yiaddr ip mac interface t Hm Hi) as H.
  destruct (arpping_call fuel yiaddr ip mac interface t) as [[r t']| |]; [|done..].
  destruct H as (Ho & u & Hu & -> & Hsent). split; [done|]. exists u. split; [done|].
  split; [by intros ->|]. split; [|done]. destruct (refused u); [done|]. by destruct (broken u).
Qed.

(** ** An operating system, and the sockets of the DHCP programs on it: witnesses *)

Definition demo_ether : bytes := [0; 80; 186; 1; 2; 3].

(** The reply of the owner of 10.0.1.2. *)
Definition demo_reply : bytes :=
  demo_ether ++ [0; 80; 186; 9; 9; 9] ++ be_bytes 2 ETH_P_ARP ++ be_bytes 2 ARPHRD_ETHER ++ be_bytes 2 ETH_P_IP
  ++ [6; 4] ++ be_bytes 2 ARPOP_REPLY ++ [0; 80; 186; 9; 9; 9] ++ be_bytes 4 0x0A000102 ++ demo_ether
  ++ be_bytes 4 0x0A000001 ++ replicate 18 0.

Definition received (t : trace) : bool :=
  existsb (λ e, match e with (Recv _ _, _) => true | _ => false end) t.

Definition max_uptime : Z := 2147483647.

(** The uptime after [t]: the last one, and the time of a [select] since. *)
Definition clock_now (t : trace) : Z :=
  let prev := default 0 (clock t) in
  match last t with
  | Some (Select _ n, a) => if (rv a =? 0) && (0 <=? prev + n) && (prev + n <=? max_uptime) then prev + n else 0
  | _ => if 0 <=? prev then prev else 0
  end.

(** One descriptor at a time; [bind] is refused on the ports of a list. *)
Definition demo_os (busy : list Z) : Os := λ t c,
  match c with
  | Socket _ _ _ | Open _ => mk_reply (if decide (5 ∈ opened t) then -1 else 5) 0 []
  | Ioctl _ r _ => mk_reply 0 0 (if r =? SIOCGIFHWADDR then [0; 1] ++ demo_ether ++ replicate 8 0
                                 else if r =? SIOCGIFADDR then [0; 2; 0; 0; 10; 0; 0; 1] ++ replicate 8 0
                                 else [0; 0; 0; 2] ++ replicate 12 0)
  | Bind _ (Inet port _) => mk_reply (if bool_decide (port ∈ busy) then -1 else 0) 0 []
  | Recv _ n => mk_reply (Z.of_nat (length (take n demo_reply))) 0 (take n demo_reply)
  | Select _ n =>
      let prev := default 0 (clock t) in
      if negb (received t) then mk_reply 1 0 []
      else if (0 <=? prev + n) && (prev + n <=? max_uptime) then mk_reply 0 0 [] else mk_reply (-1) EINTR []
  | Sysinfo => mk_reply 0 0 (be_bytes 4 (clock_now t))
  | Read _ _ => mk_reply (-1) 0 []
  | Sendto _ data _ | Write _ data | Send _ data => mk_reply (Z.of_nat (length data)) 0 []
  | _ => mk_reply 0 0 []
  end.

Lemma demo_reply_bytes n : is_bytes (take n demo_reply).
Proof. apply Forall_take, bytesb_sound. by vm_compute. Qed.

Lemma demo_os_ok busy : OsOk (demo_os busy).
Proof.
  constructor.
  - intros t d ty p. cbn. case_decide; [by left|right]. split; [lia|done].
  - intros t path. cbn. case_decide; [by left|right]. split; [lia|done].
  - intros t fd r n a _. subst a. unfold answer_to, demo_os. cbn [delivered].
    case_match; [|case_match]; (split; [done|apply bytesb_sound; by vm_compute]).
  - intros t fd n a _. subst a. unfold answer_to, demo_os. cbn [rv delivered].
    split; [done|]. split; [rewrite length_take; lia|apply demo_reply_bytes].
  - intros t fd n a Ha. subst a. cbn in Ha. lia.
Qed.

Lemma uptime_of_be z e : 0 ≤ z ≤ max_uptime → uptime_of (mk_reply 0 e (be_bytes 4 z)) = z.
Proof.
  intros Hz. unfold uptime_of, max_uptime in *. cbn [delivered]. unfold get32, slice. rewrite drop_0.
  rewrite take_ge by (by rewrite length_be_bytes). rewrite be_val_bytes, Z.mod_small by (cbn; lia). apply s32_id. lia.
Qed.

Lemma demo_os_time busy : OsTime (demo_os busy).
Proof.
  constructor; [done|]. intros t fd n prev a Ha Hc. subst a. unfold answer_to, demo_os in *. cbv zeta in *. rewrite Hc in *. change (default 0 (Some prev)) with prev in *.
  destruct (received t); cbn [negb] in *; [|done].
  destruct ((0 <=? prev + n) && (prev + n <=? max_uptime)) eqn:E; [|done].
  apply andb_true_iff in E as [E1 E2]. apply Z.leb_le in E1, E2.
  assert (Hnow : clock_now (t ++ [(Select fd n, mk_reply 0 0 [])]) = prev + n).
  { unfold clock_now. rewrite clock_other, Hc, last_snoc by done. change (default 0 (Some prev)) with prev. cbn [rv Z.eqb andb].
    by rewrite (proj2 (Z.leb_le _ _) E1), (proj2 (Z.leb_le _ _) E2). }
  rewrite Hnow, uptime_of_be by lia. done.
Qed.

#[local] Instance demo_instance : Os := demo_os [].
#[local] Instance demo_instance_ok : OsOk demo_instance := demo_os_ok [].
#[local] Instance demo_instance_time : OsTime demo_instance := demo_os_time [].


(** The owner of 10.0.1.2 answers; nobody does for 10.0.1.3. *)
Definition eth0 : bytes := [101; 116; 104; 48].
Example arpping_used : result_of 7 (arpping_call 3 0x0A000102 0x0A000001 demo_ether eth0 []) = 0.
Proof. by vm_compute. Qed.
Example arpping_free : result_of 7 (arpping_call 3 0x0A000103 0x0A000001 demo_ether eth0 []) = 1.
Proof. by vm_compute. Qed.

(** A request that is not sent gives 0, "addr used", where the comment has -1, "error". *)
Example arpping_send_fails :
  let os : Os := λ t c, match c with
    | Sendto _ _ _ => mk_reply (-1) 0 [] | Select _ _ => mk_reply (if received t then 0 else 1) 0 []
    | _ => demo_os [] t c end in
  result_of 7 (@arpping_call os 3 0x0A000103 0x0A000001 demo_ether eth0 []) = 0.
Proof. by vm_compute. Qed.

(** ** Witnesses *)

Lemma arpping_correct_witness :
  ∃ t' u, arpping_call 3 0x0A000102 0x0A000001 demo_ether eth0 [] = Ok (0, t')
    ∧ opened t' = ∅ ∧ ran [] u t' ∧ heard 0x0A000102 demo_ether (arp_request 0x0A000102 0x0A000001 demo_ether) u = true.
Proof.
  assert (Hi : (length eth0 < 14)%nat) by (vm_compute; lia).
  pose proof (arpping_correct 3 0x0A000102 0x0A000001 demo_ether eth0 [] eq_refl Hi) as H.
  set (r := arpping_call 3 0x0A000102 0x0A000001 demo_ether eth0 []) in *.
  assert (E : r = Ok (0, trace_of r)) by (by vm_compute).
  rewrite E in H. destruct H as (Ho & u & Hs & Hr & _).
  exists (trace_of r), u. split; [exact E|]. split; [exact Ho|]. split; [exact Hs|].
  assert (Eu : trace_of r = u) by exact (proj1 Hs). rewrite <- Eu. by vm_compute.
Defined.

Definition offer_message : bytes := message [53; 1; 2; 255].

Lemma sockets_accounted_witness :
  post (listen_socket 0 67 eth0) [] (socket_or_error [])
  ∧ (∃ r t', raw_packet offer_message 0x0A000001 67 0xFFFFFFFF 68 demo_ether 2 [] = Ok (r, t') ∧ opened t' = opened []).
Proof.
  assert (Hb : is_bytes offer_message) by (apply bytesb_sound; by vm_compute).
  assert (Hl : length offer_message = MSG_SIZE) by (by vm_compute).
  assert (Hs : is_u32 0x0A000001) by (unfold is_u32; lia).
  assert (Hd : is_u32 0xFFFFFFFF) by (unfold is_u32; lia).
  assert (Ha : (6 ≤ length demo_ether)%nat) by (vm_compute; lia).
  assert (Hn : (length eth0 < 16)%nat) by (vm_compute; lia).
  destruct (sockets_accounted [] 0 67 eth0 2 offer_message 0x0A000001 67 0xFFFFFFFF 68 demo_ether true
    (mk_info 0 0 []) Hb Hl Hs Hd Ha Hn) as (H1 & _ & (r & t' & E & Ho & _) & _).
  split; [exact H1|]. exists r, t'. split; [exact E|exact Ho].
Defined.

(** ** The leak of [kernel_packet] *)

(** While another program holds the client's port, every renewal of the client and
    every reply to a relay costs a descriptor. *)
Example kernel_packet_leaks :
  let os := demo_os [68] in
  let r := @kernel_packet os offer_message 0x0A000102 68 0x0A000001 67 [] in
  result_of 0 r = -1 ∧ opened (trace_of r) = {[5]}
  ∧ opened (trace_of (@kernel_packet (demo_os []) offer_message 0x0A000102 68 0x0A000001 67 [])) = ∅.
Proof. by vm_compute. Qed.
