(* ===== verification/DhcpConfigProps.v ===== *)
(** * What [read_config] leaves behind

    Whatever the file holds, the configuration is one that the server can work
    with: options that are sorted and well formed, numbers of 32 bits, and static
    leases in front of unused entries. *)

From stdpp Require Import base numbers sets strings list.
From S2P Require Import Prelude Bytes DhcpOptions DhcpOptionsProps DhcpLeases DhcpLeasesProps DhcpServer DhcpReply DhcpServerInv DhcpReplyBytes DhcpFiles DhcpFilesProps.

(** ** Results of a computation *)

Definition returns {A} (m : res A) (Q : A → Prop) : Prop := ∀ a, m = Ok a → Q a.

Lemma returns_bind {A B} (m : res A) (f : A → res B) P Q :
  returns m P → (∀ a, P a → returns (f a) Q) → returns (m ≫= f) Q.
Proof. intros Hm Hf b H. apply bind_Ok in H as (a & Ea & Eb). eapply Hf; [by apply Hm|exact Eb]. Qed.

Lemma returns_ret {A} (a : A) (Q : A → Prop) : Q a → returns (mret a) Q.
Proof. intros H b [= <-]. exact H. Qed.

Lemma returns_any {A} (m : res A) : returns m (λ _, True).
Proof. done. Qed.

Lemma returns_weaken {A} (m : res A) (P Q : A → Prop) : returns m P → (∀ a, P a → Q a) → returns m Q.
Proof. intros H HPQ a E. by apply HPQ, H. Qed.

Lemma returns_fault {A} (Q : A → Prop) : returns Fault Q.
Proof. done. Qed.

(** ** Options *)

(** A block of the option list. *)
Record block_ok (d : bytes) : Prop := {
  bk_set : set_ok d;
  bk_bytes : is_bytes d;
  bk_over : set_code d ≠ DHCP_OPTION_OVER;
  bk_lease : set_code d = DHCP_LEASE_TIME → length d = 6%nat }.

Definition blocks_ok (l : option_set) : Prop := options_ok l ∧ Forall block_ok l.

Lemma update_option_in l c f b :
  b ∈ update_option l c f → b ∈ l ∨ ∃ d, d ∈ l ∧ set_code d = c ∧ b = f d.
Proof.
  induction l as [|x l IH]; cbn; [by left|]. destruct (set_code x <? c); [set_solver|].
  destruct (Z.eqb_spec (set_code x) c); [|by left]. set_solver.
Qed.

(** What [opt_value] stores for the option [o]. *)
Definition value_ok (o : dhcp_option) (v : bytes) : Prop :=
  is_bytes v ∧ (length v ≤ 255)%nat ∧ (opt_code o = DHCP_LEASE_TIME → length v = 4%nat).

Lemma table_codes o : o ∈ options →
  0 < opt_code o < 128 ∧ opt_code o ≠ DHCP_OPTION_OVER
  ∧ (opt_code o = DHCP_LEASE_TIME → Z.land (opt_flags o) OPTION_LIST = 0 ∧ Z.land (opt_flags o) TYPE_MASK = OPTION_U32).
Proof.
  revert o. apply Forall_forall. unfold options.
  repeat (constructor; [split; [cbn; lia|split; [by vm_compute|by vm_compute]]|]). constructor.
Qed.

Lemma attach_option_blocks l o v :
  blocks_ok l → o ∈ options → value_ok o v → blocks_ok (attach_option l o v).
Proof.
  intros [Hl Hb] Ho (Hv & Hlen & Hlease). destruct (table_codes o Ho) as (Hc & Hno & Hls).
  rewrite Forall_forall in Hb. pose proof (proj1 Hl) as Hset. rewrite Forall_forall in Hset.
  unfold attach_option. rewrite s8_id by lia. destruct (find_option l (opt_code o)) as [d|] eqn:Ef.
  - destruct (update_option_spec l (opt_code o) (λ d, attach_existing d o v) Hl) as (H1 & _ & _).
    { intros e He. destruct (attach_existing_spec e o v He) as (-> & ? & ?). done. }
    split; [exact H1|]. apply Forall_forall. intros b Hin. apply update_option_in in Hin as [Hin|(e & He & Ec & ->)];
      [by apply Hb|].
    destruct (attach_existing_spec e o v (Hset e He)) as (-> & Hj & Ej). destruct (Hb e He) as [B1 B2 B3 B4].
    constructor; rewrite ?Ej; [done| |done|].
    + unfold joined. case_match; [|done]. destruct (Hset e He) as (c & w & Ee & Hcw & Hw). subst e. cbn [drop] in *.
      rewrite drop_0 in *. repeat (apply Forall_cons; split); [unfold is_u8, set_code; cbn; lia| |].
      * match goal with H : _ = true |- _ => apply andb_true_iff in H as [_ H]; apply Z.leb_le in H end.
        rewrite length_app. unfold is_u8. lia.
      * apply Forall_app. split; [|done]. by do 2 apply Forall_inv_tail in B2.
    + intros E. unfold joined. rewrite (proj1 (Hls ltac:(congruence))). cbn. auto.
  - rewrite u8_id by (unfold is_u8; lia). set (d := opt_code o :: _).
    assert (Hd : block_ok d).
    { constructor; [by exists (opt_code o), v| |done|].
      - repeat (apply Forall_cons; split); [unfold is_u8; lia|unfold is_u8; lia|done].
      - intros E. cbn. by rewrite Hlease. }
    destruct (insert_option_spec l d (opt_code o) Hl) as (H1 & _ & H3); [apply Hd|done|done|].
    split; [exact H1|]. apply Forall_forall. intros b Hin. destruct (H3 b Hin) as [-> |]; [done|by apply Hb].
Qed.

(** ** Strings and numbers *)

Lemma chars_bytes s : is_bytes (chars s).
Proof.
  unfold chars. apply Forall_fmap, Forall_forall. intros c _. unfold is_u8. cbn.
  pose proof (Ascii.N_ascii_bounded c). lia.
Qed.

Lemma until_zero_bytes b s : is_bytes b → until_zero b = Some s → is_bytes s.
Proof.
  intros Hb. revert s. induction Hb as [|x b Hx Hb IH]; intros s; cbn; [done|].
  destruct (x =? 0); [intros [= <-]; constructor|]. intros E. apply fmap_Some in E as (s2 & E & ->). constructor; [exact Hx|by apply IH].
Qed.

Lemma returns_string_at b pos : is_bytes b → returns (string_at b pos) is_bytes.
Proof. intros Hb s E. apply deref_Ok in E. eapply until_zero_bytes; [|exact E]. by apply Forall_drop. Qed.

Lemma returns_write_at b off s : is_bytes b → is_bytes s → returns (write_at b off s) is_bytes.
Proof. intros Hb Hs b2 E. exact (write_at_bytes _ _ _ _ Hb Hs E). Qed.

Lemma zero_bytes : is_bytes [0].
Proof. constructor; [unfold is_u8; lia|constructor]. Qed.

Lemma returns_strtok b pos delims : is_bytes b → returns (strtok b pos delims) (λ r, is_bytes (snd (fst r))).
Proof.
  intros Hb. unfold strtok. eapply returns_bind; [apply returns_any|]. intros s _.
  eapply returns_bind; [apply returns_any|]. intros s2 _. destruct (decide _); [by apply returns_ret|].
  eapply returns_bind; [apply returns_any|]. intros c _. destruct (c =? 0); [by apply returns_ret|].
  eapply returns_bind; [apply returns_write_at; [done|apply zero_bytes]|]. intros b' Hb'. by apply returns_ret.
Qed.

Lemma digits_nonneg base acc s : 0 < base → 0 ≤ acc → 0 ≤ fst (digits base acc s).
Proof.
  intros Hb. revert acc. induction s as [|c s IH]; intros acc Ha; cbn [digits]; [done|].
  destruct (Z.ltb_spec (digit_value c) base); [|done]. apply IH.
  assert (0 ≤ digit_value c).
  { unfold digit_value, isdigit. destruct ((48 <=? c) && (c <=? 57)) eqn:E1; [lia|].
    destruct ((97 <=? lower c) && (lower c <=? 122)) eqn:E2; lia. }
  nia.
Qed.

Lemma strtoul_range s : is_u32 (fst (strtoul s)).
Proof.
  unfold strtoul. destruct (number_base0 s) as [[neg v] rest] eqn:E.
  assert (Hv : 0 ≤ v).
  { unfold number_base0 in E. cbv zeta in E.
    match type of E with (let '(_, _) := ?d in _) = _ => assert (0 ≤ fst d); [|destruct d as [v' rest']] end.
    { destruct (_ && (_ <? 16)); [by apply digits_nonneg|]. destruct (isdigit _); [|done].
      apply digits_nonneg; [by destruct (_ =? 48)|done]. }
    by injection E as _ <- _. }
  cbn [fst]. destruct (Z.ltb_spec 0xFFFFFFFF v); [unfold is_u32; lia|]. destruct neg; [apply u32_range|unfold is_u32; lia].
Qed.

(** Addresses of the resolver. *)
Class HostsOk (h : Hosts) : Prop :=
  { aton_range : ∀ s a, inet_aton s = Some a → is_u32 a; byname_range : ∀ s a, gethostbyname s = Some a → is_u32 a }.

Section hosts.
Context `{Hh : Hosts} `{!HostsOk Hh}.

Lemma read_ip_range s a : read_ip s = Some a → is_u32 a.
Proof. unfold read_ip. destruct (inet_aton s) eqn:E; [intros [= <-]; by eapply aton_range|apply byname_range]. Qed.

Lemma read_yn_range s a : read_yn s = Some a → is_u32 a.
Proof. unfold read_yn, is_u32. repeat case_match; intros [=]; lia. Qed.

Lemma find_name_in name o : find_name name = Some o → o ∈ options.
Proof.
  assert (H : ∀ l acc, (∀ d, acc = Some d → d ∈ options) → (∀ d, d ∈ l → d ∈ options) →
    foldl (λ o d, if decide (chars (opt_name d) = name) then Some d else o) acc l = Some o → o ∈ options).
  { intros l. induction l as [|d l IH]; intros acc Hacc Hl; [by apply Hacc|]. cbn. apply IH; [|set_solver].
    destruct (decide _); [|done]. intros d' [= <-]. set_solver. }
  by apply (H options None).
Qed.

Lemma be_value n v : is_bytes (be_bytes n v) ∧ length (be_bytes n v) = n.
Proof. split; [apply is_bytes_be_bytes|apply length_be_bytes]. Qed.

(** A value of the right type for an option of the table. *)
Lemma value_okI o v :
  o ∈ options → is_bytes v → (length v ≤ 255)%nat →
  (Z.land (opt_flags o) TYPE_MASK = OPTION_U32 → length v = 4%nat) → value_ok o v.
Proof. intros Ho Hb Hl H. split; [done|]. split; [done|]. intros E. by apply H, (table_codes o Ho). Qed.

Lemma returns_opt_value o b tok val :
  o ∈ options → is_bytes b →
  returns (opt_value o b tok val) (λ r, is_bytes (snd (fst r)) ∧ ∀ v, fst (fst r) = Some v → value_ok o v).
Proof.
  intros Ho Hb. unfold opt_value. eapply returns_bind; [by apply returns_string_at|]. intros s Hs.
  assert (Hval : ∀ (d : option bytes) n, (∀ v, d = Some v → is_bytes v ∧ length v = n) → (n ≤ 255)%nat →
    (Z.land (opt_flags o) TYPE_MASK = OPTION_U32 → n = 4%nat) →
    returns (mret (d, b, tok)) (λ r : option bytes * bytes * nat,
      is_bytes (snd (fst r)) ∧ ∀ v, fst (fst r) = Some v → value_ok o v)).
  { intros d n Hd Hn Ht. apply returns_ret. split; [done|]. cbn. intros v E. destruct (Hd v E) as [H1 H2].
    apply value_okI; [done|done|lia|]. intros E'. rewrite H2. auto. }
  assert (Hmap : ∀ (f : Z → bytes) n x, (∀ a, is_bytes (f a) ∧ length (f a) = n) →
    ∀ v, f <$> x = Some v → is_bytes v ∧ length v = n).
  { intros f n x Hf v (a & _ & ->)%fmap_Some. apply Hf. }
  assert (Hok : ∀ (rest d : bytes) n, is_bytes d ∧ length d = n →
    ∀ v, (if decide (rest = []) then Some d else None) = Some v → is_bytes v ∧ length v = n).
  { intros rest d n Hd v. case_decide; [by intros [= <-]|done]. }
  assert (H1 : ∀ x, is_u8 x → is_bytes [x] ∧ length [x] = 1%nat) by (intros; split; [by apply Forall_singleton|done]).
  destruct (Z.eqb_spec (Z.land (opt_flags o) TYPE_MASK) OPTION_IP) as [E|_];
    [apply (Hval _ 4%nat); [apply Hmap; intros; apply be_value|lia|done]|].
  destruct (Z.eqb_spec (Z.land (opt_flags o) TYPE_MASK) OPTION_IP_PAIR) as [E|_].
  { eapply returns_bind; [by apply returns_strtok|]. intros [[val2 b2] tok2] Hb2. cbn [fst snd] in Hb2.
    assert (Hnone : returns (mret (None, b2, tok2)) (λ r : option bytes * bytes * nat,
      is_bytes (snd (fst r)) ∧ ∀ v, fst (fst r) = Some v → value_ok o v)) by (by apply returns_ret).
    destruct val2 as [v2|]; [|done]. destruct (read_ip s) as [a|]; [|done].
    eapply returns_bind; [apply returns_any|]. intros s2 _. apply returns_ret. split; [done|]. cbn [fst snd].
    intros v E'. apply (Hmap _ 8%nat) in E' as [H2 H3].
    - apply value_okI; [done|done|lia|]. rewrite E. done.
    - intros x. split; [apply Forall_app; split; apply is_bytes_be_bytes|]. by rewrite length_app, !length_be_bytes. }
  destruct (Z.eqb_spec (Z.land (opt_flags o) TYPE_MASK) OPTION_STRING) as [E|_].
  { apply (Hval _ (length (take 254 s))); [|rewrite length_take; lia|rewrite E; done].
    intros v. case_decide; [done|]. intros [= <-]. split; [by apply Forall_take|done]. }
  destruct (Z.eqb_spec (Z.land (opt_flags o) TYPE_MASK) OPTION_BOOLEAN) as [E|_].
  { apply (Hval _ 1%nat); [|lia|rewrite E; done]. intros v Ev. apply fmap_Some in Ev as (x & Ex & ->).
    apply H1. unfold read_yn, is_u8 in *. revert Ex. repeat case_match; intros [=]; lia. }
  destruct (strtoul s) as [v rest], (strtol s) as [v' rest'].
  destruct (Z.eqb_spec (Z.land (opt_flags o) TYPE_MASK) OPTION_U8) as [E|_];
    [apply (Hval _ 1%nat); [apply Hok, H1, u8_range|lia|rewrite E; done]|].
  destruct (Z.eqb_spec (Z.land (opt_flags o) TYPE_MASK) OPTION_U16) as [E|_];
    [apply (Hval _ 2%nat); [apply Hok, be_value|lia|rewrite E; done]|].
  destruct (Z.eqb_spec (Z.land (opt_flags o) TYPE_MASK) OPTION_S16) as [E|_];
    [apply (Hval _ 2%nat); [apply Hok, be_value|lia|rewrite E; done]|].
  destruct (Z.eqb_spec (Z.land (opt_flags o) TYPE_MASK) OPTION_U32) as [E|_];
    [apply (Hval _ 4%nat); [apply Hok, be_value|lia|done]|].
  destruct (Z.eqb_spec (Z.land (opt_flags o) TYPE_MASK) OPTION_S32) as [E|_];
    [apply (Hval _ 4%nat); [apply Hok, be_value|lia|done]|].
  by apply returns_ret.
Qed.
(** ** The state of [read_config] *)

(** The numbers of the configuration. *)
Definition numbers (c : server_config) : list Z :=
  [c_server c; c_start c; c_end c; c_lease c; c_max_leases c; c_remaining c; c_auto_time c; c_decline_time c;
   c_conflict_time c; c_offer_time c; c_min_lease c; c_siaddr c].

Record config_ok (c : server_config) : Prop := {
  co_options : blocks_ok (c_options c);
  co_numbers : Forall is_u32 (numbers c);
  co_sname : ∀ x, c_sname c = Some x → is_bytes x;
  co_boot_file : ∀ x, c_boot_file c = Some x → is_bytes x }.

Record fstate_ok (st : fstate) : Prop := {
  fs_cfg : config_ok (f_cfg st);
  fs_length : length (f_static st) = MAX_STATIC_LEASES;
  fs_index : (f_index st ≤ MAX_STATIC_LEASES)%nat;
  fs_leases : Forall lease_ok (f_static st);
  fs_unused : ∀ i, (f_index st ≤ i < MAX_STATIC_LEASES)%nat → f_static st !! i = Some zero_lease }.

Lemma pick_ok {A} (P : A → Prop) v w new old : P new → P old → P (pick v w new old).
Proof. intros. unfold pick. by case_decide. Qed.

Lemma store_num_ok v x c : is_u32 x → config_ok c → config_ok (store_num v x c).
Proof.
  intros Hx [H1 H2 H3 H4]. constructor; [done| |done|done].
  assert (Hp : ∀ w old, is_u32 old → is_u32 (pick v w x old)) by (intros; by apply pick_ok).
  unfold numbers, store_num in *. cbn -[pick] in *. rewrite !Forall_cons in H2 |- *. destruct_and! H2. split_and!; auto.
Qed.

Lemma store_str_ok v x c : is_bytes x → config_ok c → config_ok (store_str v x c).
Proof.
  intros Hx [H1 H2 H3 H4]. constructor; [done|done| |]; intros y; cbn; unfold pick; case_decide; auto;
    by intros [= <-].
Qed.

Lemma store_options_ok l c : blocks_ok l → config_ok c → config_ok (store_options l c).
Proof. intros Hl [H1 H2 H3 H4]. by constructor. Qed.

Lemma with_cfg_ok st c : fstate_ok st → config_ok c → fstate_ok (with_cfg st c).
Proof. intros [H1 H2 H3 H4 H5] Hc. by constructor. Qed.

(** What a handler leaves: a buffer of bytes and a good state. *)
Definition handled_ok (r : Z * bytes * fstate) : Prop := is_bytes (snd (fst r)) ∧ fstate_ok (snd r).

Lemma returns_opt_loop fuel o b tok after r l :
  o ∈ options → is_bytes b → blocks_ok l →
  returns (opt_loop fuel o b tok after r l) (λ x, is_bytes (snd (fst x)) ∧ blocks_ok (snd x)).
Proof.
  intros Ho. revert b tok r l. induction fuel as [|fuel IH]; intros b tok r l Hb Hl; cbn [opt_loop]; [done|].
  eapply (returns_bind _ _ (λ x, is_bytes (snd (fst x)))).
  { destruct (1 <? _); [by apply returns_strtok|by apply returns_ret]. }
  intros [[val b1] tok1] Hb1. cbn [fst snd] in Hb1. destruct val as [v|]; [|by apply returns_ret].
  eapply returns_bind; [by apply returns_opt_value|]. intros [[d b2] tok2] [Hb2 Hd]. cbn [fst snd] in Hb2, Hd.
  destruct d as [d|]; [|by apply returns_ret].
  assert (Hl' : blocks_ok (attach_option l o d)) by (apply attach_option_blocks; auto).
  cbv zeta. destruct (_ =? 0); [by apply returns_ret|by apply IH].
Qed.

Lemma returns_read_opt b line st :
  is_bytes b → fstate_ok st → returns (read_opt b line st) handled_ok.
Proof.
  intros Hb Hst. unfold read_opt. eapply returns_bind; [by apply returns_strtok|]. intros [[p b1] tok] Hb1.
  cbn [fst snd] in Hb1. destruct p as [p|]; [|by apply returns_ret].
  eapply returns_bind; [apply returns_any|]. intros name _. destruct (find_name name) as [o|] eqn:Eo; [|by apply returns_ret].
  eapply returns_bind; [apply returns_opt_loop; [by eapply find_name_in|done|apply Hst]|].
  intros [[r b2] l] [Hb2 Hl]. apply returns_ret. split; [done|]. cbn [fst snd] in *.
  apply with_cfg_ok; [done|]. apply store_options_ok; [done|apply Hst].
Qed.

Lemma haddr_of_spec s mac : haddr_of s = Some mac → length mac = 16%nat.
Proof.
  unfold haddr_of. destruct (haddr_loop 6 s []) as [[m rest]|]; [|done]. destruct rest; [|done].
  case_decide as E; [|done]. intros [= <-]. by rewrite length_app, E.
Qed.

Lemma returns_read_haddr b line :
  is_bytes b → returns (read_haddr b line) (λ r, is_bytes (snd r) ∧ ∀ mac, fst r = Some mac → length mac = 16%nat).
Proof.
  intros Hb. unfold read_haddr. eapply returns_bind; [by apply returns_strtok|]. intros [[p b1] tok] Hb1.
  cbn [fst snd] in Hb1. destruct p as [p|]; [|done]. eapply returns_bind; [apply returns_any|]. intros s _.
  apply returns_ret. split; [done|]. intros mac. apply haddr_of_spec.
Qed.

Lemma add_static_ok st y mac :
  fstate_ok st → (f_index st < MAX_STATIC_LEASES)%nat → is_u32 y → length mac = 16%nat →
  fstate_ok (mk_fstate (f_cfg st) (alter (λ l, set_static l y mac) (f_index st) (f_static st)) (S (f_index st))).
Proof.
  intros [H1 H2 H3 H4 H5] Hi Hy Hm. constructor; cbn; [done|by rewrite length_alter|lia| |].
  - apply Forall_lookup. intros i l. rewrite alter_lookup. destruct (decide _).
    + intros (l0 & Hl0 & ->)%fmap_Some. rewrite Forall_lookup in H4. specialize (H4 _ _ Hl0).
      unfold lease_ok in *. cbn. intuition.
    + intros Hl. rewrite Forall_lookup in H4. by eapply H4.
  - intros i Hi'. rewrite alter_lookup. destruct (decide _); [lia|]. apply H5. lia.
Qed.

Lemma returns_read_static b line st :
  is_bytes b → fstate_ok st → returns (read_static b line st) handled_ok.
Proof.
  intros Hb Hst. unfold read_static. destruct (decide _) as [|Hi]; [by apply returns_ret|].
  eapply returns_bind; [by apply returns_strtok|]. intros [[v b1] tok] Hb1. cbn [fst snd] in Hb1.
  destruct v as [v|]; [|done]. eapply returns_bind; [apply returns_any|]. intros s _. cbv zeta.
  eapply returns_bind; [by apply returns_strtok|]. intros [[v2 b2] tok2] Hb2. cbn [fst snd] in Hb2.
  assert (Hno : returns (mret (0, b2, st)) handled_ok) by (by apply returns_ret).
  destruct v2 as [v2|]; [|done]. destruct (read_ip s) as [y|] eqn:Ey; [|done].
  eapply returns_bind; [by apply returns_read_haddr|]. intros [mac b3] [Hb3 Hm]. cbn [fst snd] in Hb3, Hm.
  destruct mac as [mac|]; apply returns_ret; (split; [done|]); [|done]. cbn [snd].
  apply add_static_ok; [done|lia|by eapply read_ip_range|by apply Hm].
Qed.

Lemma returns_handle k b line st :
  is_bytes b → fstate_ok st → returns (handle k b line st) handled_ok.
Proof.
  intros Hb Hst. pose proof Hst as [Hc _ _ _ _].
  assert (Hset : ∀ r c, config_ok c → handled_ok (r, b, with_cfg st c)).
  { intros r c Hc'. split; [done|]. by apply with_cfg_ok. }
  unfold handle. destruct (kw_handler k).
  - eapply returns_bind; [apply returns_any|]. intros s _. apply returns_ret.
    destruct (read_ip s) as [a|] eqn:E; [|done]. apply Hset, store_num_ok; [by eapply read_ip_range|done].
  - eapply returns_bind; [by apply returns_string_at|]. intros s Hs. apply returns_ret.
    by apply Hset, store_str_ok.
  - by apply returns_read_opt.
  - eapply returns_bind; [apply returns_any|]. intros s _. unfold read_u32. pose proof (strtoul_range s) as Hr.
    destruct (strtoul s) as [v rest]. apply returns_ret. by apply Hset, store_num_ok.
  - eapply returns_bind; [apply returns_any|]. intros s _. apply returns_ret.
    destruct (read_yn s) as [a|] eqn:E; [|done]. apply Hset, store_num_ok; [by eapply read_yn_range|done].
  - by apply returns_read_static.
Qed.

Lemma returns_handle_default k st : fstate_ok st → returns (handle_default k st) fstate_ok.
Proof.
  intros Hst. unfold handle_default. eapply returns_bind; [apply returns_handle; [|done]|].
  - apply Forall_app. split; [apply chars_bytes|apply zero_bytes].
  - intros [[r b] st'] [_ H]. by apply returns_ret.
Qed.

Lemma returns_set_defaults l st : fstate_ok st → returns (set_defaults l st) fstate_ok.
Proof.
  revert st. induction l as [|k l IH]; intros st Hst; cbn [set_defaults]; [by apply returns_ret|].
  eapply returns_bind; [|exact IH]. destruct (decide _); [by apply returns_ret|by apply returns_handle_default].
Qed.

Definition line_ok (r : bytes * fstate) : Prop := is_bytes (fst r) ∧ fstate_ok (snd r).

Lemma returns_apply_keywords l b t line st :
  is_bytes b → fstate_ok st → returns (apply_keywords l b t line st) line_ok.
Proof.
  revert b st. induction l as [|k l IH]; intros b st Hb Hst; cbn [apply_keywords]; [by apply returns_ret|].
  eapply returns_bind; [apply returns_any|]. intros s _. destruct (strcaseeq _ _); [|by apply IH].
  eapply returns_bind; [by apply returns_handle|]. intros [[r b1] st1] [Hb1 Hst1]. cbn [fst snd] in *.
  eapply (returns_bind _ _ fstate_ok); [destruct (r =? 0); [by apply returns_handle_default|by apply returns_ret]|].
  intros st2 Hst2. by apply IH.
Qed.

Lemma returns_config_line b st : is_bytes b → fstate_ok st → returns (config_line b st) line_ok.
Proof.
  intros Hb Hst. unfold config_line. eapply returns_bind; [apply returns_any|]. intros s _. cbv zeta.
  eapply (returns_bind _ _ is_bytes).
  { destruct (decide _); [apply returns_write_at; [done|apply zero_bytes]|by apply returns_ret]. }
  intros b1 Hb1. eapply returns_bind; [apply returns_any|]. intros s1 _.
  destruct (decide _); [by apply returns_ret|]. destruct (decide _); [by apply returns_ret|].
  eapply returns_bind; [apply returns_write_at; [done|apply zero_bytes]|]. intros b2 Hb2.
  do 2 (eapply returns_bind; [apply returns_any|]; intros ? _).
  eapply returns_bind; [apply returns_write_at; [done|apply zero_bytes]|]. intros b3 Hb3.
  by apply returns_apply_keywords.
Qed.

Lemma returns_config_lines fuel file b st :
  is_bytes file → is_bytes b → fstate_ok st → returns (config_lines fuel file b st) fstate_ok.
Proof.
  revert file b st. induction fuel as [|fuel IH]; intros file b st Hf Hb Hst; destruct file as [|x file];
    [by apply returns_ret|done|by apply returns_ret|]. cbn [config_lines fgets_split].
  eapply returns_bind; [apply returns_write_at; [done|]|].
  { apply Forall_app. split; [by apply Forall_take|apply zero_bytes]. }
  intros b1 Hb1. eapply returns_bind; [by apply returns_config_line|]. intros [b2 st2] [Hb2 Hst2].
  apply IH; [by apply Forall_drop|done|done].
Qed.

Lemma returns_read_config file junk st :
  fstate_ok st → (∀ f, file = Some f → is_bytes f) → is_bytes junk →
  returns (read_config file junk st) (λ x, fstate_ok (snd x) ∧ (fst x = 0 ↔ file = None)).
Proof.
  intros Hst Hf Hj. unfold read_config. eapply returns_bind; [by apply returns_set_defaults|]. intros st1 Hst1.
  destruct file as [f|]; [|by apply returns_ret].
  eapply returns_bind; [apply returns_config_lines; [by apply Hf|done|done]|]. intros st2 Hst2. by apply returns_ret.
Qed.

(** Whatever the configuration file holds, [read_config] stops (each turn of its
    loop reads a byte at least, and [read_opt] goes through the values of an option
    with [strtok] until they are used up), and when it completes, the configuration
    is one the server can work with: the options are sorted with one well-formed
    block per code, none of them the overload option and the lease time of four
    bytes; the numbers have 32 bits; and the static leases are entries for clients
    of 16 bytes, at most 32, with unused entries behind them. *)
Theorem read_config_correct file junk st
    (Hst : fstate_ok st) (Hf : ∀ f, file = Some f → is_bytes f) (Hj : is_bytes junk) :
  read_config file junk st ≠ NoFuel
  ∧ ∀ r st', read_config file junk st = Ok (r, st') → fstate_ok st' ∧ (r = 0 ↔ file = None).
Proof.
  split; [by apply stops_read_config|]. intros r st' E. exact (returns_read_config file junk st Hst Hf Hj _ E).
Qed.
End hosts.

Lemma start_state_ok : fstate_ok start_state.
Proof.
  constructor; [|done|cbn; lia| |].
  - constructor; [|repeat (constructor; [unfold is_u32; cbn; lia|]); constructor|done|done].
    split; [|constructor]. split; constructor.
  - apply Forall_replicate, zero_lease_ok.
  - intros i Hi. apply lookup_replicate. cbn in Hi. split; [done|lia].
Qed.
