(* ===== verification/DhcpStart.v ===== *)
(** * The start of the DHCP server (progs.gpl/udhcpcd/dhcpd.c, [main] up to its loop)

    It joins the configuration file, the file of leases, the interface and the table
    of leases.  The contents of the two files, the process id, the time and the size
    of the heap are arguments. *)

From stdpp Require Import base numbers list gmap sets strings.
From S2P Require Import Prelude Bytes DhcpOptions DhcpOptionsProps DhcpLeases DhcpLeasesProps DhcpServer DhcpReply DhcpServerInv DhcpReplyBytes DhcpServerDemo DhcpFiles DhcpFilesProps Syscalls DhcpSockets SocketProps ArpProps DhcpConfigProps.

Definition LEASE_TIME : Z := 60 * 60 * 24 * 10.

(** [server_config.lease]: the option of the configuration, or ten days. *)
Definition config_lease (c : server_config) : res Z :=
  match find_option (c_options c) DHCP_LEASE_TIME with
  | Some d => read32 d 2
  | None => mret LEASE_TIME
  end.

(** [malloc] and [memset] of the table.  The product is not checked: when it wraps,
    the loops over the table leave it, and when [malloc] fails, [memset] writes to
    NULL. *)
Definition allocate (heap n : Z) : res (list offered) :=
  let size := Z.of_nat LEASE_SIZE * n in
  if (u32 size =? size) && (size <=? heap) then Ok (replicate (Z.to_nat n) zero_lease) else Fault.

Definition with_lease (c : server_config) (lease : Z) : server_config :=
  mk_config (c_server c) (c_start c) (c_end c) (c_options c) (c_interface c) (c_ifindex c) (c_arp c) lease
    (c_max_leases c) (c_remaining c) (c_auto_time c) (c_decline_time c) (c_conflict_time c) (c_offer_time c)
    (c_min_lease c) (c_lease_file c) (c_pidfile c) (c_notify_file c) (c_siaddr c) (c_sname c) (c_boot_file c).

Definition with_interface (c : server_config) (i : interface_info) : server_config :=
  mk_config (i_addr i) (c_start c) (c_end c) (c_options c) (c_interface c) (i_ifindex i) (i_arp i) (c_lease c)
    (c_max_leases c) (c_remaining c) (c_auto_time c) (c_decline_time c) (c_conflict_time c) (c_offer_time c)
    (c_min_lease c) (c_lease_file c) (c_pidfile c) (c_notify_file c) (c_siaddr c) (c_sname c) (c_boot_file c).

Section start.
Context `{Os} `{Hosts}.

(** [exit_server]. *)
Definition exit_server (c : server_config) : sys () := pidfile_delete (c_pidfile c).

(** The server and [timeout_end], or [None] when the process exits; and the lease
    file it has written. *)
Definition server_start (file : option bytes) (junk : bytes) (lease_file : option bytes) (heap pid now : Z)
  : sys (option (server * Z) * action) :=
  '(_, st) ← lift (read_config file junk start_state);
  let c := f_cfg st in
  fd ← pidfile_acquire (c_pidfile c);
  _ ← pidfile_write_release pid fd;
  lease ← lift (config_lease c);
  let c := with_lease c lease in
  t ← lift (allocate heap (c_max_leases c));
  s ← lift (read_leases lease_file (mk_server c t (f_static st) now));
  let out := WriteLeases (write_leases s) in
  name ← lift (deref (c_interface c));
  '(r, i) ← read_interface name true (mk_info (c_ifindex c) (c_server c) (c_arp c));
  if r <? 0 then _ ← exit_server c; mret (None, out)
  else mret (Some (mk_server (with_interface (cfg s) i) (leases s) (static_leases s) now,
                   u32 (now + c_auto_time (cfg s))), out).
End start.

(** ** The start of the DHCP server establishes its invariant *)

(** ** The file of leases *)

(** What reading leases keeps. *)
Record same_server (s s' : server) : Prop := {
  ss_cfg : cfg s' = cfg s;
  ss_static : static_leases s' = static_leases s;
  ss_now : now s' = now s;
  ss_len : length (leases s') = length (leases s);
  ss_planned : planned s → planned s' }.

Lemma same_refl s : same_server s s.
Proof. by constructor. Qed.
Lemma same_trans s1 s2 s3 : same_server s1 s2 → same_server s2 s3 → same_server s1 s3.
Proof. intros [] []. constructor; (congruence || auto). Qed.

Lemma set_acked_planned s i : planned s → planned (with_leases s (alter set_acked i (leases s))).
Proof.
  intros Hp l Hl. apply list_elem_of_lookup in Hl as [j Hj]. cbn [with_leases leases] in Hj. rewrite alter_lookup in Hj.
  destruct (decide _).
  - apply fmap_Some in Hj as (l0 & Hl0 & ->). apply (Hp l0). by eapply list_elem_of_lookup_2.
  - apply Hp. by eapply list_elem_of_lookup_2.
Qed.

Lemma matched_statics t l x :
  matched t l = false → x ∈ statics t → l_yiaddr x ≠ l_yiaddr l ∧ l_chaddr l ≠ l_chaddr x.
Proof.
  induction t as [|y t IH]; cbn; [set_solver|]. destruct (l_yiaddr y =? 0); [set_solver|].
  rewrite !orb_false_iff. intros [[H1 H2] H3] [->|Hx]%elem_of_cons; [|by apply IH].
  apply bool_decide_eq_false in H1. by apply Z.eqb_neq in H2.
Qed.

Lemma set_acked_table t i : table_ok t → table_ok (alter set_acked i t).
Proof.
  intros [Hf Hu]. assert (Hl : ∀ j a, alter set_acked i t !! j = Some a →
    ∃ a0, t !! j = Some a0 ∧ l_yiaddr a = l_yiaddr a0 ∧ l_chaddr a = l_chaddr a0 ∧ (lease_ok a0 → lease_ok a)).
  { intros j a. rewrite alter_lookup. destruct (decide _); [|naive_solver].
    intros (a0 & E & ->)%fmap_Some. by exists a0. }
  split.
  - apply Forall_lookup. intros j a Ha. destruct (Hl j a Ha) as (a0 & E & _ & _ & Hok).
    apply Hok. rewrite Forall_lookup in Hf. by eapply Hf.
  - intros j k a b Ha Hb Hne. destruct (Hl j a Ha) as (a0 & Ea & -> & -> & _), (Hl k b Hb) as (b0 & Eb & -> & -> & _).
    by eapply Hu.
Qed.

Lemma set_acked_separated st t i : separated st t → separated st (alter set_acked i t).
Proof.
  intros Hs l x Hl Hx E. apply list_elem_of_lookup in Hl as [j Hj]. rewrite alter_lookup in Hj.
  destruct (decide _).
  - apply fmap_Some in Hj as (l0 & Hl0 & ->). apply (Hs l0 x); [by eapply list_elem_of_lookup_2|done|done].
  - apply (Hs l x); [by eapply list_elem_of_lookup_2|done|done].
Qed.

Lemma read_lease_sinv s l :
  sinv s → length (l_chaddr l) = 16%nat → is_u32 (l_yiaddr l) →
  sinv (fst (read_lease s l)) ∧ same_server s (fst (read_lease s l)).
Proof.
  intros Hs Hc Hy. unfold read_lease. destruct (_ && _) eqn:Eg; [|split; [done|apply same_refl]].
  apply andb_true_iff in Eg as [[[H1%Z.leb_le H2%Z.leb_le]%andb_true_iff _]%andb_true_iff Hm%negb_true_iff]. cbv zeta.
  set (e := if c_remaining (cfg s) =? 0 then _ else _). set (h := Some (l_hostname l)).
  pose proof (add_lease_fixed s (l_chaddr l) (l_yiaddr l) e h) as (F1 & F2 & F3).
  destruct (add_lease_ok s (l_chaddr l) (l_yiaddr l) e h (si_table s Hs) Hc Hy) as [O1 O2].
  assert (Hsep : separated (static_leases s) (leases (snd (add_lease s (l_chaddr l) (l_yiaddr l) e h)))).
  { intros a x Ha Hx E. destruct (add_lease_in s _ _ _ _ a Ha) as [H|[->|[_ E2]]].
    - by apply (si_sep s Hs).
    - by right.
    - destruct (matched_statics _ _ _ Hm Hx). congruence. }
  assert (Hpl : planned s → planned (snd (add_lease s (l_chaddr l) (l_yiaddr l) e h))).
  { apply known_planned; [done..|]. intros a Ha. destruct (add_lease_in s _ _ _ _ a Ha) as [?|[->|[_ ->]]];
      [by apply known_in|apply known_zero|by right; right; left]. }
  destruct Hs. destruct (add_lease s (l_chaddr l) (l_yiaddr l) e h) as [[i|] s']; cbn [fst snd] in *.
  - split; [|constructor; try done; [cbn; by rewrite length_alter|intros; apply set_acked_planned; auto]].
    constructor; cbn; rewrite ?F1, ?F2, ?F3; try done; [by apply set_acked_table|by apply set_acked_separated].
  - split; [|by constructor]. constructor; rewrite ?F1, ?F2, ?F3; done.
Qed.

Lemma read_leases_loop_sinv fuel f i s :
  (length f ≤ fuel)%nat → is_bytes f → sinv s →
  ∃ s', read_leases_loop fuel f i s = Ok s' ∧ sinv s' ∧ same_server s s'.
Proof.
  revert f i s. induction fuel as [|fuel IH]; intros f i s Hf Hb Hs; cbn [read_leases_loop];
    (destruct (_ && _) eqn:E; [|exists s; split; [done|]; split; [done|apply same_refl]]);
    apply andb_true_iff in E as [_ E%Z.leb_le].
  { unfold LEASE_SIZE in E. lia. }
  assert (Hl : (92 ≤ length f)%nat) by (unfold LEASE_SIZE in E; lia).
  assert (Hb' : is_bytes (take LEASE_SIZE f)) by (by apply Forall_take).
  destruct (read_lease_sinv s (lease_of (take LEASE_SIZE f)) Hs) as [H1 H2].
  { cbn. apply length_slice. rewrite length_take. unfold LEASE_SIZE. lia. }
  { cbn. by apply get32_range. }
  destruct (read_lease s _) as [s1 [counted|]]; cbn [fst] in *; [|by exists s1].
  destruct (IH (drop LEASE_SIZE f) (if counted then i + 1 else i) s1) as (s2 & E2 & H3 & H4).
  - rewrite length_drop. unfold LEASE_SIZE. lia.
  - by apply Forall_drop.
  - done.
  - exists s2. split; [exact E2|]. split; [done|]. by eapply same_trans.
Qed.

(** Any file of leases leaves a good table. *)
Lemma read_leases_sinv f s :
  (∀ b, f = Some b → is_bytes b) → sinv s → ∃ s', read_leases f s = Ok s' ∧ sinv s' ∧ same_server s s'.
Proof.
  intros Hf Hs. destruct f as [f|]; cbn [read_leases]; [|exists s; split; [done|]; split; [done|apply same_refl]].
  apply read_leases_loop_sinv; [done|by apply Hf|done].
Qed.

(** ** The process id *)

Lemma post_pidfile `{Hos : Os} `{!OsOk Hos} {A} pidfile pid (k : sys A) t Q :
  (∀ t', opened t' = opened t → post k t' Q) →
  post (fd ← pidfile_acquire pidfile; _ ← pidfile_write_release pid fd; k) t Q.
Proof.
  intros H. destruct (pidfile_spec pidfile pid t) as (u & t' & E & Ho). destruct (H t' Ho) as (a & t2 & E2 & HQ).
  exists a, t2. split; [|exact HQ]. unfold mbind, sys_bind in E |- *.
  destruct (pidfile_acquire pidfile t) as [[fd t1]| |]; [|done|done]. by rewrite E.
Qed.

(** ** The table and the lease time *)

Lemma zero_table_ok n : table_ok (replicate n zero_lease).
Proof.
  split; [apply Forall_replicate, zero_lease_ok|].
  intros i j a b [-> _]%lookup_replicate [-> _]%lookup_replicate _. split; [done|]. intros H. by vm_compute in H.
Qed.

Lemma zero_table_separated st n : separated st (replicate n zero_lease).
Proof. intros l x [-> _]%elem_of_replicate _ _. by right. Qed.

Lemma config_lease_spec c : blocks_ok (c_options c) → ∃ v, config_lease c = Ok v ∧ is_u32 v.
Proof.
  intros [_ Hb]. unfold config_lease. destruct (find_option (c_options c) DHCP_LEASE_TIME) as [d|] eqn:E.
  - destruct (find_option_code _ _ _ E) as [Hc Hd]. rewrite Forall_forall in Hb. destruct (Hb d Hd) as [_ Hby _ Hl].
    specialize (Hl Hc). rewrite (read32_slice d 2) by lia. exists (get32 d 2). split; [done|]. by apply get32_range.
  - exists LEASE_TIME. split; [done|]. unfold is_u32, LEASE_TIME. lia.
Qed.

Lemma allocate_spec heap n :
  is_u32 n → Z.of_nat LEASE_SIZE * n ≤ heap → heap < 4294967296 →
  allocate heap n = Ok (replicate (Z.to_nat n) zero_lease).
Proof.
  intros Hn H1 H2. unfold allocate. cbv zeta. unfold is_u32, LEASE_SIZE in *.
  rewrite u32_id by (unfold is_u32; lia). by rewrite Z.eqb_refl, (proj2 (Z.leb_le _ _)).
Qed.

Lemma cfg_options_of c : blocks_ok (c_options c) → cfg_options_ok (c_options c) ∧ Forall is_bytes (c_options c).
Proof.
  intros [_ H]. split; (eapply Forall_impl; [exact H|]); intros d []; auto.
Qed.

(** The file of leases does not depend on the interface. *)
Lemma write_leases_interface s i t :
  now s = t → write_leases (mk_server (with_interface (cfg s) i) (leases s) (static_leases s) t) = write_leases s.
Proof. by intros <-. Qed.

(** What the configuration must say for the server to start: an interface, a range
    that does not end at the last address, no static address twice, and a table that
    fits in the heap. *)
Record startable (heap : Z) (st : fstate) (name : bytes) : Prop := {
  sb_interface : c_interface (f_cfg st) = Some name;
  sb_name : (length name < IFNAMSIZ)%nat;
  sb_end : c_end (f_cfg st) < 4294967295;
  sb_unique : ∀ a b, a ∈ statics (f_static st) → b ∈ statics (f_static st) → l_yiaddr a = l_yiaddr b → a = b;
  sb_heap : Z.of_nat LEASE_SIZE * c_max_leases (f_cfg st) ≤ heap < 4294967296 }.

(** The running server and what it has written. *)
Definition started (st : fstate) (t : trace) (r : option (server * Z) * action) (t' : trace) : Prop :=
  match fst r with
  | None => True
  | Some (s, timeout_end) =>
      sinv s ∧ planned s ∧ cfg_bytes (cfg s) ∧ length (c_arp (cfg s)) = 6%nat
      ∧ Z.of_nat (length (leases s)) = c_max_leases (f_cfg st) ∧ static_leases s = f_static st
      ∧ snd r = WriteLeases (write_leases s) ∧ timeout_end = u32 (now s + c_auto_time (f_cfg st))
      ∧ opened t' = opened t
  end.

(** The server starts in its invariant.  When [read_config] has completed with a
    configuration that names an interface, has no static address twice and whose table
    of leases fits in the heap, then, whatever the file of leases holds, the start
    completes, and unless it exits (because an [ioctl] fails) the server runs with a
    table as long as configured, in which no client and no address appears twice, no
    static address is held by another client and every address is in the range or static; it has the address of the interface, has
    written the table it has read, and has closed every descriptor. *)
Theorem server_start_correct `{Hos : Os} `{!OsOk Hos} `{Hh : Hosts} `{!HostsOk Hh}
    file junk lease_file heap pid now t r st name
    (Hf : ∀ f, file = Some f → is_bytes f) (Hj : is_bytes junk) (Hl : ∀ f, lease_file = Some f → is_bytes f)
    (Hn : 0 < now) (Hread : read_config file junk start_state = Ok (r, st)) (Hst : startable heap st name) :
  post (server_start file junk lease_file heap pid now) t (started st t).
Proof.
  destruct (returns_read_config file junk start_state start_state_ok Hf Hj _ Hread) as [[Hc Hlen _ Hleases _] _].
  cbn [snd] in *. destruct Hst as [Hname Hnl Hend Huniq Hheap].
  destruct (config_lease_spec (f_cfg st) (co_options _ Hc)) as (lease & Elease & Hlease).
  pose proof (co_numbers _ Hc) as Hnum. unfold numbers in Hnum. rewrite !Forall_cons in Hnum. destruct_and! Hnum.
  destruct (cfg_options_of _ (co_options _ Hc)) as [Hopt Hby].
  set (c := with_lease (f_cfg st) lease).
  set (s0 := mk_server c (replicate (Z.to_nat (c_max_leases c)) zero_lease) (f_static st) now).
  assert (Hs0 : sinv s0).
  { constructor; cbn; [apply zero_table_ok| |done|done|apply zero_table_separated|done].
    unfold cfg_ok, is_u32 in *. cbn. split; [done|]. split; [done|]. split; [lia|]. done. }
  destruct (read_leases_sinv lease_file s0 Hl Hs0) as (s & Es & Hs & Hsame).
  unfold server_start. eapply post_lift; [exact Hread|]. cbv zeta. apply post_pidfile. intros t1 Ht1.
  eapply post_lift; [exact Elease|]. fold c.
  eapply post_lift; [apply allocate_spec; [done|apply Hheap|apply Hheap]|]. fold s0.
  assert (Ei : deref (c_interface c) = Ok name) by (change (c_interface c) with (c_interface (f_cfg st)); by rewrite Hname).
  eapply post_lift; [exact Es|]. eapply post_lift; [exact Ei|].
  apply post_bind. eapply post_weaken; [by apply read_interface_correct|].
  intros [ri i] t2 Hri. cbn [fst snd] in Hri. destruct Hri as [(-> & Ho & Ha & _ & Hi)|[-> _]].
  2: { cbn [Z.ltb Z.compare]. apply post_bind. unfold exit_server, pidfile_delete.
       destruct (c_pidfile c); [apply post_ask|]; by apply post_ret, post_ret. }
  cbn [Z.ltb Z.compare]. apply post_ret. destruct Hsame as [E1 E2 E3 E4 E5].
  assert (Hpl : planned s).
  { apply E5. subst s0. intros l Hin. cbn in Hin. apply elem_of_replicate in Hin as [-> _]. by left. }
  subst s0. cbn in E1, E2, E3, E4.
  unfold started. cbn [fst snd]. destruct Hs as [T1 T2 T3 T4 T5 T6].
  split; [constructor; cbn; [done| |done|done|done|lia]|].
  { rewrite E1. unfold cfg_ok, is_u32 in *. cbn. split; [done|]. split; [done|]. split; [lia|]. done. }
  split; [exact Hpl|]. cbn [cfg leases static_leases].
  split; [rewrite E1; by destruct Hc; constructor|]. split; [done|].
  split; [rewrite E4, length_replicate; unfold is_u32 in *; lia|]. split; [done|].
  split; [by rewrite write_leases_interface|]. split; [by rewrite E1|congruence].
Qed.

(** ** A configuration file, and the start of a server with it: witnesses *)

Lemma dotted_range n acc s a :
  (n ≤ 3)%nat → 0 ≤ acc < 256 ^ (3 - Z.of_nat n) → dotted n acc s = Some a → is_u32 a.
Proof.
  revert acc s. induction n as [|n IH]; intros acc s Hn Ha; cbn [dotted];
    pose proof (digits_nonneg 10 0 s eq_refl ltac:(done)) as Hd; destruct (digits 10 0 s) as [v rest];
    cbn [fst] in Hd; (destruct (_ && (v <? 256)) eqn:E; [|done]); apply andb_true_iff in E as [_ E%Z.ltb_lt].
  - destruct rest; [|done]. intros [= <-]. cbn in Ha. unfold is_u32. lia.
  - destruct rest as [|x rest]; [done|]. destruct (decide (x = 46)) as [->|Hx].
    + apply IH; [lia|]. replace (3 - Z.of_nat n) with (Z.succ (3 - Z.of_nat (S n))) by lia.
      rewrite Z.pow_succ_r by lia. lia.
    + intros H. exfalso. destruct x as [|p|p]; try discriminate H.
      repeat (destruct p as [p|p|]; try discriminate H; try congruence).
Qed.

Lemma demo_hosts_ok : HostsOk demo_hosts.
Proof.
  constructor; [|done]. intros s a. apply (dotted_range 3 0); [lia|]. cbn. lia.
Qed.
#[local] Existing Instance demo_hosts.
#[local] Existing Instance demo_hosts_ok.
#[local] Existing Instance demo_instance.
#[local] Existing Instance demo_instance_ok.

Definition demo_read : res (Z * fstate) := read_config (Some good_file) junk80 start_state.
Definition demo_state : fstate := match demo_read with Ok (_, st) => st | _ => start_state end.

Lemma demo_read_eq : read_config (Some good_file) junk80 start_state = Ok (1, demo_state).
Proof. by vm_compute. Qed.

Lemma good_file_bytes f : Some good_file = Some f → is_bytes f.
Proof. intros [= <-]. apply bytesb_sound. by vm_compute. Qed.
Lemma junk80_bytes : is_bytes junk80.
Proof. apply bytesb_sound. by vm_compute. Qed.

Lemma read_config_correct_witness :
  read_config (Some good_file) junk80 start_state = Ok (1, demo_state)
  ∧ fstate_ok demo_state ∧ f_index demo_state = 1%nat ∧ c_options (f_cfg demo_state)
    = [[6; 8; 10; 0; 0; 1; 10; 0; 0; 2]; 15 :: 8 :: chars "home net"; [51; 4; 0; 0; 2; 88]].
Proof.
  destruct (read_config_correct (Some good_file) junk80 start_state start_state_ok good_file_bytes junk80_bytes)
    as [_ H].
  destruct (H _ _ demo_read_eq) as [Hok _].
  split; [exact demo_read_eq|]. split; [exact Hok|]. split; [by vm_compute|by vm_compute].
Defined.

(** The file of a restart: one lease, and one that clashes with the static address. *)
Definition old_leases : bytes :=
  replicate 15 0 ++ [7] ++ be_bytes 4 0x0A000019 ++ be_bytes 4 500 ++ be_bytes 4 1 ++ replicate 64 0
  ++ replicate 15 0 ++ [8] ++ be_bytes 4 0x0A000009 ++ be_bytes 4 500 ++ be_bytes 4 1 ++ replicate 64 0.

Lemma demo_startable : startable 1000000 demo_state eth0.
Proof.
  constructor; [by vm_compute|vm_compute; lia|by vm_compute| |by vm_compute].
  intros a b Ha Hb _. assert (E : statics (f_static demo_state) = [default zero_lease (head (statics (f_static demo_state)))])
    by (by vm_compute).
  rewrite E in Ha, Hb. apply list_elem_of_singleton in Ha, Hb. congruence.
Qed.

Lemma server_start_correct_witness :
  post (server_start (Some good_file) junk80 (Some old_leases) 1000000 77 1000) [] (started demo_state [])
  ∧ ∃ s out t', server_start (Some good_file) junk80 (Some old_leases) 1000000 77 1000 [] = Ok (Some (s, 8200), out, t')
      ∧ sinv s ∧ map l_yiaddr (take 2 (leases s)) = [0x0A000019; 0].
Proof.
  assert (Hl : ∀ f, Some old_leases = Some f → is_bytes f)
    by (intros f [= <-]; apply bytesb_sound; by vm_compute).
  assert (Hn : 0 < 1000) by lia.
  pose proof (server_start_correct (Some good_file) junk80 (Some old_leases) 1000000 77 1000 [] 1 demo_state eth0
    good_file_bytes junk80_bytes Hl Hn demo_read_eq demo_startable) as H.
  split; [exact H|]. destruct H as ([o out] & t' & E & Hs).
  set (r := server_start (Some good_file) junk80 (Some old_leases) 1000000 77 1000 []) in *.
  set (s := match r with Ok (Some (s, _), _, _) => s | _ => mk_server zero_config [] [] 0 end).
  assert (Er : r = Ok (Some (s, 8200), match r with Ok (_, out, _) => out | _ => WriteLeases [] end,
    match r with Ok (_, _, t) => t | _ => [] end)) by (by vm_compute).
  assert (Eo : o = Some (s, 8200)) by (rewrite E in Er; congruence).
  exists s, out, t'. rewrite Eo in E, Hs. split; [exact E|]. split; [apply Hs|by vm_compute].
Defined.
