(* ===== verification/Dirutil.v ===== *)
(** * Paths (comlib/dirutil.c)

    Strings are their characters; the copies that the functions return are new
    strings, and [free] has no effect here.  The file system is outside: its state,
    [stat] (whether the path exists and is a directory) and [mkdir] are parameters. *)

From stdpp Require Import base numbers list sets.
From S2P Require Import Prelude Bytes.

Definition SLASH : Z := 47.
Definition DOT : Z := 46.

(** ** Names *)

(** The characters in reverse order: slashes go while more than one character is
    left. *)
Fixpoint strip (r : bytes) : bytes :=
  match r with
  | x :: r' => if (x =? SLASH) && negb (bool_decide (r' = [])) then strip r' else r
  | [] => []
  end.
Definition stripslash (pathname : bytes) : bytes := reverse (strip (reverse pathname)).

(** [strrchr]: the index of the last occurrence. *)
Fixpoint strrchr (s : bytes) (c : Z) : option nat :=
  match s with
  | [] => None
  | x :: s => match strrchr s c with
              | Some i => Some (S i)
              | None => if x =? c then Some 0%nat else None
              end
  end.

Definition basenamex (pathname : bytes) : bytes :=
  let dup := stripslash pathname in
  match strrchr dup SLASH with
  | None => dup
  | Some i => drop (S i) dup
  end.

Definition dirname (pathname : bytes) : bytes :=
  let dup := stripslash pathname in
  match strrchr dup SLASH with
  | None => [DOT]
  | Some i => take (if decide (i = 0%nat) then 1 else i) dup
  end.

(** ** [make_valid_path] *)

Class FileSystem (FS : Type) :=
  { stat : FS → bytes → option bool; mkdir : FS → bytes → option FS }.

(** [fuel] bounds the depth of the recursion. *)
Fixpoint make_valid_path `{FileSystem FS} (fuel : nat) (fs : FS) (dir : bytes) : res (Z * FS) :=
  let path := stripslash dir in
  match stat fs path with
  | Some true => mret (1, fs)
  | Some false => mret (0, fs)
  | None =>
      match fuel with
      | O => NoFuel
      | S fuel =>
          '(r, fs) ← make_valid_path fuel fs (dirname path);
          if r =? 0 then mret (0, fs)
          else match mkdir fs path with
               | None => mret (0, fs)
               | Some fs => mret (1, fs)
               end
      end
  end.

(** ** Paths: the theorems

    A path is its directory, a slash and its base name; [make_valid_path] ends, and
    leaves a directory or reports why it could not. *)

(** ** Names *)

Lemma strip_spec r :
  ∃ n, r = replicate n SLASH ++ strip r ∧ (r ≠ [] → strip r ≠ [])
    ∧ (strip r = [SLASH] ∨ ∀ x, head (strip r) = Some x → x ≠ SLASH).
Proof.
  induction r as [|x r IH]; [exists 0%nat; split; [done|]; split; [done|by right]|]. cbn [strip].
  destruct (Z.eqb_spec x SLASH) as [->|Hx]; cbn [andb].
  2: { exists 0%nat. split; [done|]. split; [done|]. right. by intros y [= <-]. }
  case_bool_decide as Hr; cbn [negb].
  - exists 0%nat. split; [done|]. split; [done|]. left. by rewrite Hr.
  - destruct IH as (n & E & H1 & H2). exists (S n). cbn. rewrite <- E. auto.
Qed.

(** Only slashes at the end go, and one stays when there is nothing else. *)
Lemma stripslash_spec p :
  ∃ n, p = stripslash p ++ replicate n SLASH ∧ (p ≠ [] → stripslash p ≠ [])
    ∧ (stripslash p = [SLASH] ∨ ∀ x, last (stripslash p) = Some x → x ≠ SLASH).
Proof.
  unfold stripslash. destruct (strip_spec (reverse p)) as (n & E & H1 & H2). exists n. split; [|split].
  - rewrite <- (reverse_involutive p) at 1. rewrite E at 1. by rewrite reverse_app, reverse_replicate.
  - intros Hp H. apply (f_equal reverse) in H. rewrite reverse_involutive in H. apply H1 in H; [done|].
    intros E2. apply (f_equal reverse) in E2. by rewrite reverse_involutive in E2.
  - destruct H2 as [->|H2]; [by left|right]. intros x. rewrite last_reverse. apply H2.
Qed.

Lemma stripslash_length p : (length (stripslash p) ≤ length p)%nat.
Proof. destruct (stripslash_spec p) as (n & E & _). rewrite E at 2. rewrite length_app. lia. Qed.

Lemma strip_id r : (∀ x, head r = Some x → x ≠ SLASH) → strip r = r.
Proof. destruct r as [|x r]; [done|]. intros H. cbn. destruct (Z.eqb_spec x SLASH); [by destruct (H x)|done]. Qed.

Lemma stripslash_idemp p : stripslash (stripslash p) = stripslash p.
Proof.
  destruct (stripslash_spec p) as (_ & _ & _ & [H|H]); [by rewrite H|].
  unfold stripslash at 1. rewrite strip_id; [apply reverse_involutive|].
  intros x. rewrite <- last_reverse, reverse_involutive. apply H.
Qed.

Lemma strrchr_spec s c :
  match strrchr s c with
  | Some i => s = take i s ++ c :: drop (S i) s ∧ c ∉ drop (S i) s
  | None => c ∉ s
  end.
Proof.
  induction s as [|x s IH]; cbn [strrchr]; [by apply not_elem_of_nil|]. destruct (strrchr s c) as [i|].
  - destruct IH as [E H]. split; [|done]. cbn. by rewrite <- E.
  - destruct (Z.eqb_spec x c) as [->|Hx]; [by split|]. by rewrite not_elem_of_cons.
Qed.

(** A path without the slashes at its end is its directory, a slash and its base
    name; or a file of the root; or, without any slash, its base name. *)
Lemma path_splits p :
  if decide (SLASH ∈ stripslash p) then
    (SLASH ∉ basenamex p)
    ∧ (stripslash p = dirname p ++ [SLASH] ++ basenamex p
       ∨ dirname p = [SLASH] ∧ stripslash p = SLASH :: basenamex p)
  else dirname p = [DOT] ∧ basenamex p = stripslash p.
Proof.
  unfold dirname, basenamex. cbv zeta. pose proof (strrchr_spec (stripslash p) SLASH) as H.
  destruct (strrchr (stripslash p) SLASH) as [i|]; [|by rewrite decide_False].
  destruct H as [E H]. rewrite decide_True by (rewrite E; set_solver). split; [done|].
  destruct (decide (i = 0%nat)) as [->|]; [right|left; exact E].
  destruct (stripslash p) as [|x d]; [done|]. cbn in E |- *. injection E as ->. by rewrite ?drop_0.
Qed.

(** The directory of a path is shorter than the path, or it is the root or here. *)
Lemma dirname_shorter p :
  dirname p = [SLASH] ∨ dirname p = [DOT] ∨ (length (dirname p) < length p)%nat.
Proof.
  unfold dirname. cbv zeta. pose proof (strrchr_spec (stripslash p) SLASH) as H.
  pose proof (stripslash_length p) as Hl.
  destruct (strrchr (stripslash p) SLASH) as [i|]; [|by right; left]. destruct H as [E _].
  destruct (decide (i = 0%nat)) as [->|Hi].
  - left. destruct (stripslash p) as [|x d]; [done|]. cbn in E |- *. by injection E as ->.
  - do 2 right. apply (f_equal length) in E. rewrite length_app, length_take in E. cbn in E. rewrite length_take. lia.
Qed.

(** ** [make_valid_path] *)

(** The root and the current directory exist, a directory that is made is one, and
    making it changes nothing else that exists. *)
Class FileSystemOk FS `{FileSystem FS} : Prop := {
  fs_root : ∀ fs, stat fs [SLASH] = Some true;
  fs_here : ∀ fs, stat fs [DOT] = Some true;
  fs_made : ∀ fs p fs', mkdir fs p = Some fs' → stat fs' p = Some true;
  fs_keeps : ∀ fs p fs' q b, mkdir fs p = Some fs' → stat fs q = Some b → stat fs' q = Some b }.

Section make.
Context `{FileSystem FS} `{!FileSystemOk FS}.

(** Why a path could not be made: something on it is a file, or the directory to make
    it in is there and refuses. *)
Definition obstacle (fs : FS) : Prop :=
  (∃ q, stat fs q = Some false)
  ∨ ∃ fs1 q, (∀ p b, stat fs p = Some b → stat fs1 p = Some b)
      ∧ stat fs1 (stripslash (dirname q)) = Some true ∧ mkdir fs1 q = None.

Definition path_result (fs : FS) (dir : bytes) (r : Z) (fs' : FS) : Prop :=
  (∀ q b, stat fs q = Some b → stat fs' q = Some b)
  ∧ (r = 1 ∧ stat fs' (stripslash dir) = Some true ∨ r = 0 ∧ obstacle fs).

Lemma make_existing fuel fs dir : stat fs (stripslash dir) = Some true → make_valid_path fuel fs dir = Ok (1, fs).
Proof. intros E. destruct fuel; cbn [make_valid_path]; by rewrite E. Qed.

Lemma make_valid_path_spec fuel fs dir :
  (length dir < fuel)%nat → ∃ r fs', make_valid_path fuel fs dir = Ok (r, fs') ∧ path_result fs dir r fs'.
Proof.
  revert fs dir. induction fuel as [|fuel IH]; intros fs dir Hf; [lia|]. cbn [make_valid_path].
  destruct (stat fs (stripslash dir)) as [[|]|] eqn:Es.
  { exists 1, fs. split; [done|]. split; [done|by left]. }
  { exists 0, fs. split; [done|]. split; [done|]. right. split; [done|]. left. eauto. }
  assert (Hrec : ∃ r fs', make_valid_path fuel fs (dirname (stripslash dir)) = Ok (r, fs')
      ∧ path_result fs (dirname (stripslash dir)) r fs').
  { pose proof (stripslash_length dir). destruct (dirname_shorter (stripslash dir)) as [E|[E|E]]; [| |apply IH; lia].
    - rewrite E. exists 1, fs. rewrite make_existing by apply fs_root. split; [done|]. split; [done|]. left.
      split; [done|apply fs_root].
    - rewrite E. exists 1, fs. rewrite make_existing by apply fs_here. split; [done|]. split; [done|]. left.
      split; [done|apply fs_here]. }
  destruct Hrec as (r & fs1 & E & Hkeep & Hr). rewrite E, bind_ret.
  destruct Hr as [[-> Hd]|[-> Ho]]; cbn [Z.eqb].
  2: { exists 0, fs1. split; [done|]. split; [done|by right]. }
  destruct (mkdir fs1 (stripslash dir)) as [fs2|] eqn:Em.
  - exists 1, fs2. split; [done|]. split; [|left; split; [done|by eapply fs_made]].
    intros q b Hq. eapply fs_keeps; [done|]. by apply Hkeep.
  - exists 0, fs1. split; [done|]. split; [done|]. right. split; [done|]. right.
    exists fs1, (stripslash dir). auto.
Qed.

(** [make_valid_path] ends, at a depth no greater than the length of the path.
    It returns 1 and the path is a directory, or 0, and then something on the path is
    a file or a [mkdir] in a directory that exists has failed; whatever existed
    before still does.  A path (without the slashes at its end) is its [dirname], a
    slash and its [basenamex], or a file of the root, or, without a slash, its base
    name, whose directory is ".". *)
Theorem make_valid_path_correct fs dir :
  (∃ r fs', make_valid_path (S (length dir)) fs dir = Ok (r, fs') ∧ path_result fs dir r fs')
  ∧ if decide (SLASH ∈ stripslash dir) then
      (SLASH ∉ basenamex dir)
      ∧ (stripslash dir = dirname dir ++ [SLASH] ++ basenamex dir
         ∨ dirname dir = [SLASH] ∧ stripslash dir = SLASH :: basenamex dir)
    else dirname dir = [DOT] ∧ basenamex dir = stripslash dir.
Proof. split; [apply make_valid_path_spec; lia|apply path_splits]. Qed.
End make.

(** ** A file system *)

(** The directories that exist, and those that are refused. *)
Definition demo_fs : FileSystem (list bytes * list bytes) :=
  {| stat := λ fs p, if decide (p ∈ [[SLASH]; [DOT]] ++ fst fs) then Some true else None;
     mkdir := λ fs p, if decide (p ∈ snd fs) then None else Some (p :: fst fs, snd fs) |}.
#[local] Existing Instance demo_fs.

Lemma demo_fs_ok : FileSystemOk (list bytes * list bytes).
Proof.
  constructor; cbn.
  - intros fs. by rewrite decide_True by set_solver.
  - intros fs. by rewrite decide_True by set_solver.
  - intros fs p fs'. case_decide; [done|]. intros [= <-]. cbn. by rewrite decide_True by set_solver.
  - intros fs p fs' q b. case_decide; [done|]. intros [= <-]. cbn. case_decide; [|done].
    intros [= <-]. by rewrite decide_True by set_solver.
Qed.
#[local] Existing Instance demo_fs_ok.

(** "/a/b/" *)
Definition demo_path : bytes := [47; 97; 47; 98; 47].

Lemma make_valid_path_correct_witness :
  (∃ fs', make_valid_path 6 ([], []) demo_path = Ok (1, fs') ∧ fst fs' = [[47; 97; 47; 98]; [47; 97]])
  ∧ (∃ r fs', make_valid_path 6 ([], [[47; 97; 47; 98]]) demo_path = Ok (r, fs')
      ∧ path_result ([], [[47; 97; 47; 98]]) demo_path r fs').
Proof.
  split; [eexists; split; [by vm_compute|done]|].
  exact (proj1 (make_valid_path_correct ([], [[47; 97; 47; 98]]) demo_path)).
Defined.

(** The comment promises no trailing slash: the directory of "a//b" is "a/". *)
Example dirname_keeps_slash : dirname [97; 47; 47; 98] = [97; 47].
Proof. by vm_compute. Qed.
