(* ===== verification/Xmldbc.v ===== *)
(** * The client of the XML database (comlib/libxmldbc.c, include/xmldb.h,
    include/libxmldbc.h)

    A request is a header and a string on a local socket; the answer is a text that
    ends with a zero byte, or a return code.  Formatted strings are arguments; what a
    variable holds that is not initialised is an argument, too. *)

From stdpp Require Import base numbers strings list gmap sets.
From S2P Require Import Prelude Bytes DhcpOptions DhcpOptionsProps DhcpPacket DhcpLeases DhcpServer DhcpServerDemo DhcpFiles Syscalls DhcpSockets SocketProps ArpProps.

(** ** Constants *)

Definition AF_UNIX : Z := 1.
Definition SOCK_STREAM : Z := 2.
Definition XMLDB_DEFAULT_UNIXSOCK : bytes := chars "/var/run/xmldb_sock".
Definition XMLDB_GET : Z := 1.
Definition XMLDB_SET : Z := 2.
Definition XMLDB_DEL : Z := 3.
Definition XMLDB_RELOAD : Z := 4.
Definition XMLDB_DUMP : Z := 5.
Definition XMLDB_EPHP : Z := 10.
Definition XMLDB_SETEXT : Z := 11.
Definition XMLDB_TIMER : Z := 12.
Definition XMLDB_KILLTIMER : Z := 13.
Definition MAX_CMD_LEN : nat := 1024.

(** ** Strings *)

Definition IS_WHITE (x : Z) : bool := (x =? 32) || (x =? 9).

(** The string from the first character on that is not white. *)
Fixpoint lxmldbc_eatwhite (s : bytes) : bytes :=
  match s with
  | x :: s' => if IS_WHITE x then lxmldbc_eatwhite s' else s
  | [] => []
  end.

(** The string without the white characters at its end. *)
Fixpoint lxmldbc_reatwhite (s : bytes) : bytes :=
  match s with
  | x :: s => match lxmldbc_reatwhite s with
              | [] => if IS_WHITE x then [] else [x]
              | s' => x :: s'
              end
  | [] => []
  end.

(** What [vsnprintf] leaves of the text [s] in a buffer of [n] bytes. *)
Definition snprintf (n : nat) (s : bytes) : bytes := take (n - 1) s.

(** [lxmldbc_run_shell]: [popen] gives, for a command, the output of the process, or
    [None]; the string in the buffer afterwards.  An empty string has its last
    character in front of the buffer. *)
Definition lxmldbc_run_shell (popen : bytes → option bytes) (size : nat) (text : bytes) : res (Z * bytes) :=
  match popen (snprintf MAX_CMD_LEN text) with
  | Some output =>
      let s := c_str (take (size - 1) output) in
      match s with
      | [] => Fault
      | _ => mret (0, if last s is Some 10 then removelast s else s)
      end
  | None => mret (-1, [])
  end.

Section client.
Context `{Os}.

(** ** The socket *)

(** [sun_path] has 108 bytes. *)
Definition open_socket (sockname : option bytes) : sys Z :=
  fd ← ask (Socket AF_UNIX SOCK_STREAM 0);
  if rv fd <? 0 then mret (-1)
  else
    _ ← ask (Fcntl (rv fd));
    a ← ask (Connect (rv fd) (Unix (snprintf 108 (default XMLDB_DEFAULT_UNIXSOCK sockname))));
    if rv a <? 0 then close_fail (rv fd) else mret (rv fd).

(** [rgdb_ipc_t]: the action, the length, the flags, and the code, which is not set. *)
Definition ipc_bytes (action length flags : Z) (junk : bytes) : bytes :=
  be_bytes 2 action ++ be_bytes 2 length ++ be_bytes 4 flags ++ junk.

(** [param] has [size] bytes; the length is an [unsigned short]. *)
Definition send_xmldb_cmd (fd action flags : Z) (param junk : bytes) : sys Z :=
  let len := u16 (Z.of_nat (length param)) in
  a ← ask (Send fd (ipc_bytes action len flags junk));
  if rv a <=? 0 then mret (-1)
  else
    a ← ask (Send fd (take (Z.to_nat len) param));
    if rv a <=? 0 then mret (-1) else mret 0.

(** ** Answers *)

(** What is written to the output; [fuel] bounds how often [select] returns. *)
Fixpoint redirect_output (fuel : nat) (fd : Z) : sys bytes :=
  match fuel with
  | O => lift NoFuel
  | S fuel =>
      a ← ask (Select fd (-1));
      if 0 <? rv a then
        r ← ask (Read fd 1024);
        if rv r <=? 0 then mret []
        else if bool_decide (last (delivered r) = Some 0) then mret (c_str (delivered r))
        else rest ← redirect_output fuel fd; mret (delivered r ++ rest)
      else redirect_output fuel fd
  end.

(** [buff] after the reads, and how much was written. *)
Fixpoint redirect_to_buffer (fuel : nat) (fd : Z) (buff : bytes) (written : nat) : sys (nat * bytes) :=
  match fuel with
  | O => lift NoFuel
  | S fuel =>
      a ← ask (Select fd (-1));
      if 0 <? rv a then
        r ← ask (Read fd (length buff - written));
        if rv r <=? 0 then mret (written, buff)
        else
          let buff := splice buff written (delivered r) in
          let written := (written + length (delivered r))%nat in
          if buff !!! (written - 1)%nat =? 0 then mret (written, buff)
          else if decide (written ≤ length buff)%nat then mret (written, buff)
          else redirect_to_buffer fuel fd buff written
      else redirect_to_buffer fuel fd buff written
  end.

(** ** Commands *)

Definition cmd_w_out (fuel : nat) (sn : option bytes) (action flags : Z) (param junk : bytes) : sys (Z * bytes) :=
  sock ← open_socket sn;
  if 0 <? sock then
    r ← send_xmldb_cmd sock action flags param junk;
    ret_out ← (if 0 <=? r then out ← redirect_output fuel sock; mret (0, out) else mret (-1, []));
    _ ← ask (Close sock);
    mret ret_out
  else mret (-1, []).

(** [ipc.retcode] after a read into a structure that held [ipc]; the result of the read
    is not looked at. *)
Definition retcode (ipc : bytes) (a : reply) : Z :=
  s32 (get32 (if rv a <? 0 then ipc else splice ipc 0 (delivered a)) 8).

Definition cmd_wo_out (sn : option bytes) (action flags : Z) (param junk ipc : bytes) : sys Z :=
  sock ← open_socket sn;
  if 0 <? sock then
    r ← send_xmldb_cmd sock action flags param junk;
    ret ← (if 0 <=? r then a ← ask (Read sock 12); mret (retcode ipc a) else mret (-1));
    _ ← ask (Close sock);
    mret ret
  else mret (-1).

(** A C string as a parameter, with its zero byte. *)
Definition cstring (s : bytes) : bytes := s ++ [0].

Definition xmldbc_get_wb (fuel : nat) (sn : option bytes) (f : Z) (node buff junk : bytes) : sys (Z * bytes) :=
  sock ← open_socket sn;
  if 0 <? sock then
    r ← send_xmldb_cmd sock XMLDB_GET f (cstring node) junk;
    ret_buff ← (if 0 <=? r then x ← redirect_to_buffer fuel sock buff 0; mret (0, snd x) else mret (-1, buff));
    _ ← ask (Close sock);
    mret ret_buff
  else mret (-1, buff).

Definition xmldbc_get fuel sn f node junk := cmd_w_out fuel sn XMLDB_GET f (cstring node) junk.
Definition xmldbc_ephp fuel sn f file junk := cmd_w_out fuel sn XMLDB_EPHP f (cstring file) junk.

(** ["%s %s"] in 511 bytes. *)
Definition pair_text (node value : bytes) : bytes := snprintf 511 (node ++ [32] ++ value).

Definition xmldbc_set sn f node value junk ipc := cmd_wo_out sn XMLDB_SET f (cstring (pair_text node value)) junk ipc.
Definition xmldbc_setext sn f node cmd junk ipc := cmd_wo_out sn XMLDB_SETEXT f (cstring (pair_text node cmd)) junk ipc.
Definition xmldbc_timer sn f cmd junk ipc := cmd_wo_out sn XMLDB_TIMER f (cstring cmd) junk ipc.
Definition xmldbc_killtimer sn f tag junk ipc := cmd_wo_out sn XMLDB_KILLTIMER f (cstring tag) junk ipc.
Definition xmldbc_del sn f node junk ipc := cmd_wo_out sn XMLDB_DEL f (cstring node) junk ipc.
Definition xmldbc_reload sn f file junk ipc := cmd_wo_out sn XMLDB_RELOAD f (cstring file) junk ipc.
Definition xmldbc_dump sn f file junk ipc := cmd_wo_out sn XMLDB_DUMP f (cstring file) junk ipc.
End client.

(** ** The client of the XML database: the theorems *)

(** ** Strings *)

Lemma eatwhite_spec s :
  ∃ w, s = w ++ lxmldbc_eatwhite s ∧ Forall (λ x, IS_WHITE x = true) w
    ∧ ∀ x, head (lxmldbc_eatwhite s) = Some x → IS_WHITE x = false.
Proof.
  induction s as [|x s IH]; [by exists []|]. cbn [lxmldbc_eatwhite]. destruct (IS_WHITE x) eqn:E.
  - destruct IH as (w & Es & Hw & Hh). exists (x :: w). cbn. rewrite <- Es. split; [done|]. split; [by constructor|done].
  - exists []. split; [done|]. split; [constructor|]. by intros y [= <-].
Qed.

Lemma reatwhite_spec s :
  ∃ w, s = lxmldbc_reatwhite s ++ w ∧ Forall (λ x, IS_WHITE x = true) w
    ∧ ∀ x, last (lxmldbc_reatwhite s) = Some x → IS_WHITE x = false.
Proof.
  induction s as [|x s (w & Es & Hw & Hh)]; [by exists []|]. cbn [lxmldbc_reatwhite].
  destruct (lxmldbc_reatwhite s) as [|y s'] eqn:E.
  - cbn in Es. subst w. destruct (IS_WHITE x) eqn:Ex.
    + exists (x :: s). split; [done|]. split; [by constructor|done].
    + exists s. split; [done|]. split; [done|]. by intros z [= <-].
  - exists w. split; [by rewrite Es at 1|]. split; [done|]. intros z Hz. apply Hh. by rewrite last_cons_cons in Hz.
Qed.

(** The output of a command, up to the size of the buffer and without the end of its
    last line. *)
Lemma run_shell_spec popen size text output x s :
  popen (snprintf MAX_CMD_LEN text) = Some output → c_str (take (size - 1) output) = x :: s →
  lxmldbc_run_shell popen size text = Ok (0, if last (x :: s) is Some 10 then removelast (x :: s) else x :: s).
Proof. intros E1 E2. unfold lxmldbc_run_shell. rewrite E1. cbv zeta. by rewrite E2. Qed.

Lemma run_shell_silent popen size text :
  popen (snprintf MAX_CMD_LEN text) = Some [] → lxmldbc_run_shell popen size text = Fault.
Proof. intros E. unfold lxmldbc_run_shell. by rewrite E, take_nil. Qed.

(** ** The trace *)

(** The pieces of the answer. *)
Definition chunks (u : trace) : list bytes :=
  omap (λ e, match e with (Read _ _, a) => if 0 <? rv a then Some (delivered a) else None | _ => None end) u.

(** How often [select] returned. *)
Definition is_select (e : call * reply) : bool := match e with (Select _ _, _) => true | _ => false end.
Definition selects (u : trace) : nat := length (List.filter is_select u).

(** The request that was sent. *)
Definition requested (action flags : Z) (param junk : bytes) (u : trace) : Prop :=
  ∃ fd a b, (Send fd (ipc_bytes action (Z.of_nat (length param)) flags junk), a) ∈ u ∧ (Send fd param, b) ∈ u
    ∧ 0 < rv a ∧ 0 < rv b.

Definition text (w : bytes) : Prop := Forall (λ x, x ≠ 0) w.

(** The answer [w], with its zero byte or cut off by the end of the connection. *)
Definition answered (u : trace) (out : bytes) : Prop :=
  ∀ w, text w → concat (chunks u) = w ++ [0] ∨ concat (chunks u) = w → out = w.

Lemma c_str_text w r : text w → c_str (w ++ 0 :: r) = w.
Proof.
  induction 1 as [|x w Hx Hw IH]; [done|]. cbn. destruct (Z.eqb_spec x 0); [done|]. by rewrite IH.
Qed.

Lemma answered_end d : last d = Some 0 → ∀ w, text w → d = w ++ [0] ∨ d = w → c_str d = w.
Proof.
  intros Hd w Hw [->|E]; [by apply c_str_text|]. exfalso. rewrite E in Hd.
  apply last_Some in Hd as (l' & Hd). rewrite Hd in Hw. apply Forall_app in Hw as [_ Hw].
  by apply Forall_inv in Hw.
Qed.

Lemma answered_more d c rest :
  last d ≠ Some 0 → d ≠ [] → (∀ w, text w → c = w ++ [0] ∨ c = w → rest = w) →
  ∀ w, text w → d ++ c = w ++ [0] ∨ d ++ c = w → d ++ rest = w.
Proof.
  intros Hd Hne Hc w Hw [E|E].
  - destruct (decide (c = [])) as [->|Hcn].
    { rewrite app_nil_r in E. subst d. by rewrite last_snoc in Hd. }
    destruct (exists_last Hcn) as (c' & x & Ec). rewrite Ec in E. rewrite app_assoc in E.
    apply app_inj_tail in E as [E ->]. subst w. f_equal. apply Hc; [|by left].
    by apply Forall_app in Hw as [_ Hw].
  - subst w. f_equal. apply Hc; [|by right]. by apply Forall_app in Hw as [_ Hw].
Qed.

Section client.
Context `{Hos : Os} `{!OsOk Hos} (t0 : trace) (fd : Z).

(** What a loop over the answer guarantees after the calls [t]. *)
Definition read_result {A} (fuel : nat) (t : trace) (Q : A → trace → Prop) (res : res (A * trace)) : Prop :=
  match res with
  | Ok (a, t') => owns t0 fd t' ∧ ∃ u, ran t u t' ∧ Q a u
  | Fault => False
  | NoFuel => ∃ u, asked t u ∧ selects u = fuel
  end.

(** One call in front. *)
Lemma read_call {A} fuel t c (Q Q' : A → trace → Prop) res :
  (∀ a u, Q' a u → Q a ((c, answer_to t c) :: u)) →
  read_result fuel (t ++ [(c, answer_to t c)]) Q' res →
  read_result (if is_select (c, answer_to t c) then S fuel else fuel) t Q res.
Proof.
  intros HQ H. destruct res as [[a t']| |]; [|done|].
  - destruct H as (Ho & u & [-> Hu] & Ha). split; [done|]. exists ((c, answer_to t c) :: u).
    split; [|by apply HQ]. split; [by rewrite <- app_assoc|by constructor].
  - destruct H as (u & Hu & E). exists ((c, answer_to t c) :: u). split; [by constructor|].
    unfold selects in *. cbn [List.filter]. destruct (is_select _); cbn [length]; lia.
Qed.

Lemma read_done {A} fuel t (a : A) (Q : A → trace → Prop) : owns t0 fd t → Q a [] → read_result fuel t Q (Ok (a, t)).
Proof. intros Ho HQ. split; [done|]. exists []. split; [apply ran_nil|done]. Qed.

Lemma owns_next t c a : owns t0 fd t → on_fd c = Some fd → owns t0 fd (t ++ [(c, a)]).
Proof. intros Ho Hc. eapply owns_on; [exact Ho|by eapply opened_on_fd]. Qed.

Lemma read_map {A B} fuel t (m : sys A) (f : A → B) (Q : A → trace → Prop) Q' :
  read_result fuel t Q (m t) → (∀ a u, Q a u → Q' (f a) u) → read_result fuel t Q' ((a ← m; mret (f a)) t).
Proof.
  intros H HQ. unfold mbind, sys_bind. destruct (m t) as [[a t']| |]; [|done|done].
  destruct H as (Ho & u & Hu & Ha). split; [done|]. exists u. auto.
Qed.

Lemma redirect_output_spec fuel t :
  owns t0 fd t → read_result fuel t (λ out u, answered u out) (redirect_output fuel fd t).
Proof.
  revert t. induction fuel as [|fuel IH]; intros t Ho; cbn [redirect_output].
  { exists []. split; [constructor|done]. }
  rewrite ask_bind. set (a := answer_to t (Select fd (-1))).
  assert (Ho1 : owns t0 fd (t ++ [(Select fd (-1), a)])) by (by apply owns_next).
  apply (read_call fuel t (Select fd (-1)) _ (λ out u, answered u out)); [done|]. fold a.
  destruct (Z.ltb_spec 0 (rv a)) as [Ha|Ha]; [|by apply IH]. rewrite ask_bind.
  set (t1 := t ++ [(Select fd (-1), a)]) in *. set (r := answer_to t1 (Read fd 1024)).
  pose proof (owns_next t1 (Read fd 1024) r Ho1 eq_refl) as Ho2.
  pose proof (os_read t1 fd 1024) as Hread. cbv zeta in Hread. fold r in Hread.
  apply (read_call fuel t1 (Read fd 1024) _ (λ out u,
    ∀ w, text w → (if 0 <? rv r then delivered r else []) ++ concat (chunks u) = w ++ [0]
         ∨ (if 0 <? rv r then delivered r else []) ++ concat (chunks u) = w → out = w)).
  { intros out u H w Hw. unfold chunks. cbn [omap list_omap]. fold r. specialize (H w Hw).
    destruct (0 <? rv r); exact H. }
  fold r. destruct (Z.leb_spec (rv r) 0) as [Hr|Hr].
  { apply read_done; [done|]. rewrite (proj2 (Z.ltb_ge _ _)) by done. cbn. intros w Hw [E|E]; [|done].
    by destruct w. }
  rewrite (proj2 (Z.ltb_lt _ _)) by done. destruct (Hread ltac:(lia)) as (Hl & _ & _).
  case_bool_decide as Hlast.
  { apply read_done; [done|]. cbn. rewrite app_nil_r. by apply answered_end. }
  assert (Hne : delivered r ≠ []) by (intros E; rewrite E in Hl; cbn in Hl; lia).
  apply (read_map _ _ _ _ (λ out u, answered u out)); [by apply IH|].
  intros rest u Hrest. by apply answered_more.
Qed.

(** What the buffer holds: nothing new, or what one read gave. *)
Definition one_read (buff : bytes) (u : trace) (buff' : bytes) : Prop :=
  (chunks u = [] ∧ buff' = buff)
  ∨ ∃ d, chunks u = [d] ∧ (length d ≤ length buff)%nat ∧ buff' = splice buff 0 d.

Lemma redirect_to_buffer_spec fuel buff t :
  owns t0 fd t →
  read_result fuel t (λ x u, one_read buff u (snd x)) (redirect_to_buffer fuel fd buff 0 t).
Proof.
  revert t. induction fuel as [|fuel IH]; intros t Ho; cbn [redirect_to_buffer].
  { exists []. split; [constructor|done]. }
  rewrite ask_bind. set (a := answer_to t (Select fd (-1))).
  assert (Ho1 : owns t0 fd (t ++ [(Select fd (-1), a)])) by (by apply owns_next).
  apply (read_call fuel t (Select fd (-1)) _ (λ x u, one_read buff u (snd x))); [done|]. fold a.
  destruct (Z.ltb_spec 0 (rv a)) as [Ha|Ha]; [|by apply IH]. rewrite ask_bind, Nat.sub_0_r.
  set (t1 := t ++ [(Select fd (-1), a)]) in *. set (r := answer_to t1 (Read fd (length buff))).
  pose proof (owns_next t1 (Read fd (length buff)) r Ho1 eq_refl) as Ho2.
  pose proof (os_read t1 fd (length buff)) as Hread. cbv zeta in Hread. fold r in Hread.
  apply (read_call fuel t1 (Read fd (length buff)) _ (λ x u, chunks u = []
    ∧ snd x = if 0 <? rv r then splice buff 0 (delivered r) else buff)).
  { intros [n b] u [Hu ->]. unfold one_read, chunks in *. cbn [omap list_omap snd]. fold r.
    destruct (Z.ltb_spec 0 (rv r)); [right|left; done]. exists (delivered r). rewrite Hu.
    split; [done|]. split; [apply Hread; lia|done]. }
  fold r. destruct (Z.leb_spec (rv r) 0) as [Hr|Hr].
  { apply read_done; [done|]. by rewrite (proj2 (Z.ltb_ge _ _)). }
  destruct (Hread ltac:(lia)) as (Hl & Hle & _). cbv zeta. rewrite (proj2 (Z.ltb_lt _ _)) by done.
  destruct (_ =? 0); [by apply read_done|].
  rewrite decide_True by (rewrite length_splice; cbn; lia). by apply read_done.
Qed.
End client.

(** ** Commands *)

Lemma chunks_app u v : chunks (u ++ v) = chunks u ++ chunks v.
Proof. apply omap_app. Qed.
Lemma selects_app u v : selects (u ++ v) = (selects u + selects v)%nat.
Proof. unfold selects. by rewrite List.filter_app, length_app. Qed.

Section commands.
Context `{Hos : Os} `{!OsOk Hos}.

(** What a command guarantees after the calls [t]. *)
Definition command_result {A} (fuel : nat) (t : trace) (Q : A → trace → Prop) (res : res (A * trace)) : Prop :=
  match res with
  | Ok (a, t') => opened t' = opened t ∧ ∃ u, ran t u t' ∧ Q a u
  | Fault => False
  | NoFuel => ∃ u, asked t u ∧ (fuel ≤ selects u)%nat
  end.

Lemma open_socket_spec sn t :
  ∃ r t1 u, open_socket sn t = Ok (r, t1) ∧ ran t u t1 ∧ chunks u = []
    ∧ (r = -1 ∧ opened t1 = opened t ∨ owns t r t1).
Proof.
  unfold open_socket. rewrite ask_bind.
  pose proof (ran_call t [] t (Socket AF_UNIX SOCK_STREAM 0) (ran_nil t)) as S1. cbn [app] in S1.
  pose proof (os_socket t AF_UNIX SOCK_STREAM 0) as Hs. cbv zeta in Hs.
  set (a := answer_to t (Socket AF_UNIX SOCK_STREAM 0)) in *. set (t1 := t ++ _) in *.
  assert (E1 : opened t1 = if rv a <? 0 then opened t else {[rv a]} ∪ opened t) by apply opened_socket.
  destruct (Z.ltb_spec (rv a) 0) as [Ha|Ha].
  { eexists _, _, _. split; [reflexivity|]. split; [exact S1|]. split; [done|by left]. }
  destruct Hs as [|[_ Hn]]; [lia|]. assert (O1 : owns t (rv a) t1) by done.
  rewrite ask_bind. pose proof (ran_call _ _ _ (Fcntl (rv a)) S1) as S2. cbn [app] in S2.
  set (t2 := t1 ++ _) in *. assert (O2 : owns t (rv a) t2) by (eapply owns_on; [exact O1|by eapply opened_on_fd]).
  rewrite ask_bind. set (c := Connect (rv a) _). pose proof (ran_call _ _ _ c S2) as S3. cbn [app] in S3.
  set (t3 := t2 ++ _) in *. assert (O3 : owns t (rv a) t3) by (eapply owns_on; [exact O2|by eapply opened_on_fd]).
  destruct (_ <? 0).
  - eexists _, _, _. split; [reflexivity|]. split; [exact (ran_call _ _ _ (Close (rv a)) S3)|].
    split; [done|]. left. split; [done|]. apply (opened_close t3 (rv a)); apply O3.
  - eexists _, _, _. split; [reflexivity|]. split; [exact S3|]. split; [done|by right].
Qed.

Lemma send_spec t0 fd action flags param junk t :
  owns t0 fd t → Z.of_nat (length param) < 65536 →
  ∃ r t1 u, send_xmldb_cmd fd action flags param junk t = Ok (r, t1) ∧ ran t u t1 ∧ chunks u = []
    ∧ owns t0 fd t1 ∧ (r = -1 ∨ r = 0 ∧ requested action flags param junk u).
Proof.
  intros O0 Hl. unfold send_xmldb_cmd.
  assert (Eu : u16 (Z.of_nat (length param)) = Z.of_nat (length param)) by (apply Z.mod_small; lia). rewrite Eu. cbv zeta. rewrite ask_bind.
  set (c1 := Send fd (ipc_bytes _ _ _ _)). pose proof (ran_call t [] t c1 (ran_nil t)) as S1. cbn [app] in S1.
  set (a := answer_to t c1) in *. set (t1 := t ++ _) in *.
  assert (O1 : owns t0 fd t1) by (eapply owns_on; [exact O0|by eapply opened_on_fd]).
  destruct (Z.leb_spec (rv a) 0) as [Ha|Ha].
  { eexists _, _, _. split; [reflexivity|]. split; [exact S1|]. split; [done|]. split; [done|by left]. }
  rewrite ask_bind, Nat2Z.id, take_ge by done. set (c2 := Send fd param).
  pose proof (ran_call _ _ _ c2 S1) as S2. cbn [app] in S2. set (b := answer_to t1 c2) in *. set (t2 := t1 ++ _) in *.
  assert (O2 : owns t0 fd t2) by (eapply owns_on; [exact O1|by eapply opened_on_fd]).
  destruct (Z.leb_spec (rv b) 0) as [Hb|Hb]; eexists _, _, _; (split; [reflexivity|]); (split; [exact S2|]);
    (split; [done|]); (split; [done|]); [by left|right]. split; [done|].
  exists fd, a, b. split; [by left|]. split; [by right; left|done].
Qed.

(** The frame that every command shares: [Q] is what the body guarantees. *)
Lemma command_spec {A} fuel sn action flags param junk (body : Z → sys A) (fail : A) (Q : A → trace → Prop) t :
  0 ∈ opened t → Z.of_nat (length param) < 65536 →
  (∀ fd t1, owns t fd t1 → read_result t fd fuel t1 Q (body fd t1)) →
  command_result fuel t (λ a u, (a = fail ∧ chunks u = [])
      ∨ requested action flags param junk u ∧ ∃ v, Q a v ∧ chunks v = chunks u)
    ((sock ← open_socket sn;
      if 0 <? sock then
        r ← send_xmldb_cmd sock action flags param junk;
        x ← (if 0 <=? r then body sock else mret fail);
        _ ← ask (Close sock);
        mret x
      else mret fail) t).
Proof.
  intros H0 Hl Hbody. destruct (open_socket_spec sn t) as (fd & t1 & u1 & E1 & S1 & C1 & [[-> Ho]|O1]).
  { unfold mbind at 1, sys_bind. rewrite E1. cbn [Z.ltb Z.compare]. split; [done|]. exists u1. split; [done|]. by left. }
  assert (Hfd : 0 < fd) by (destruct O1 as (? & Hn & _); destruct (decide (fd = 0)); [congruence|lia]).
  unfold mbind at 1, sys_bind. rewrite E1, (proj2 (Z.ltb_lt _ _) Hfd).
  destruct (send_spec t fd action flags param junk t1 O1 Hl) as (r & t2 & u2 & E2 & S2 & C2 & O2 & Hr).
  unfold mbind at 1, sys_bind. rewrite E2. pose proof (ran_app _ _ _ _ _ S1 S2) as S12.
  assert (Hclose : ∀ (x : A) t3 u3, ran t2 u3 t3 → owns t fd t3 →
    (x = fail ∧ chunks u3 = [] ∨ requested action flags param junk u2 ∧ Q x u3) →
    command_result fuel t (λ a u, (a = fail ∧ chunks u = [])
        ∨ requested action flags param junk u ∧ ∃ v, Q a v ∧ chunks v = chunks u)
      (Ok (x, t3 ++ [(Close fd, answer_to t3 (Close fd))]))).
  { intros x t3 u3 S3 O3 Hx. pose proof (ran_app _ _ _ _ _ S12 S3) as S123.
    split; [apply (opened_close t3 fd); apply O3|]. eexists. split; [exact (ran_call _ _ _ (Close fd) S123)|].
    rewrite !chunks_app, C1, C2. cbn [app]. rewrite app_nil_r.
    destruct Hx as [[-> Hc]|[(fd' & a & b & R1 & R2 & R3) HQ]]; [left; by split|right].
    split; [|by exists u3]. exists fd', a, b. rewrite !elem_of_app. tauto. }
  destruct Hr as [->|[-> Hr]]; cbn [Z.leb Z.compare].
  - exact (Hclose fail t2 [] (ran_nil t2) O2 (or_introl (conj eq_refl eq_refl))).
  - specialize (Hbody fd t2 O2). unfold mbind at 1, sys_bind. destruct (body fd t2) as [[x t3]| |]; [|done|].
    + destruct Hbody as (O3 & u3 & S3 & HQ). exact (Hclose x t3 u3 S3 O3 (or_intror (conj Hr HQ))).
    + destruct Hbody as (u3 & A3 & E3). exists ((u1 ++ u2) ++ u3).
      split; [exact (proj2 (ran_app _ _ _ _ _ S12 (conj eq_refl A3)))|]. rewrite selects_app. lia.
Qed.

Lemma command_mono {A} fuel t (Q Q' : A → trace → Prop) res :
  (∀ a u, Q a u → Q' a u) → command_result fuel t Q res → command_result fuel t Q' res.
Proof. intros HQ. destruct res as [[a t']| |]; [|done|done]. intros (Ho & u & Hu & Ha). split; [done|]. exists u. auto. Qed.

Lemma pair_text_short node value : Z.of_nat (length (cstring (pair_text node value))) < 65536.
Proof. unfold cstring, pair_text, snprintf. rewrite length_app, length_take. cbn [length]. lia. Qed.

Lemma read_retcode t0 fd fuel ipc t :
  owns t0 fd t →
  read_result t0 fd fuel t (λ x u, ∀ d, chunks u = [d] → x = s32 (get32 (splice ipc 0 d) 8))
    ((a ← ask (Read fd 12); mret (retcode ipc a)) t).
Proof.
  intros Ho. rewrite ask_bind. set (a := answer_to t (Read fd 12)).
  apply (read_call _ _ fuel t (Read fd 12) _ (λ x u, u = [] ∧ x = retcode ipc a));
    [|by apply read_done; [apply owns_next|]].
  intros x u [-> ->] d. unfold chunks, retcode. cbn [omap list_omap]. fold a.
  destruct (Z.ltb_spec 0 (rv a)); [|done]. intros [= <-]. by rewrite (proj2 (Z.ltb_ge _ _)) by lia.
Qed.

(** A request of the client of the XML database sends its header and its string
    and closes its socket again (when descriptor 0 is open, which is not taken for a
    socket).  [xmldbc_get] returns 0 and the text that the database answers, however
    it is cut into pieces, or -1; [xmldbc_get_wb] fills its buffer with one piece of
    the answer only; and [xmldbc_set] (like the other commands without a text)
    returns the code of the answer.  The calls go on only as long as [select] returns. *)
Theorem xmldb_client_correct fuel sn f node value buff junk ipc t
    (H0 : 0 ∈ opened t) (Hn : Z.of_nat (length node) < 65535) :
  command_result fuel t (λ x u, (x = (-1, []) ∧ chunks u = [])
      ∨ requested XMLDB_GET f (cstring node) junk u ∧ fst x = 0 ∧ answered u (snd x))
    (xmldbc_get fuel sn f node junk t)
  ∧ command_result fuel t (λ x u, (x = (-1, buff) ∧ chunks u = [])
      ∨ requested XMLDB_GET f (cstring node) junk u ∧ fst x = 0 ∧ one_read buff u (snd x))
    (xmldbc_get_wb fuel sn f node buff junk t)
  ∧ command_result fuel t (λ x u, (x = -1 ∧ chunks u = [])
      ∨ requested XMLDB_SET f (cstring (pair_text node value)) junk u
        ∧ ∀ d, chunks u = [d] → x = s32 (get32 (splice ipc 0 d) 8))
    (xmldbc_set sn f node value junk ipc t).
Proof.
  assert (Hc : Z.of_nat (length (cstring node)) < 65536) by (unfold cstring; rewrite length_app; cbn; lia).
  assert (Hp : Z.of_nat (length (cstring (pair_text node value))) < 65536) by apply pair_text_short.
  split; [|split].
  - eapply command_mono; [|apply (command_spec fuel sn _ _ _ _
      (λ fd, out ← redirect_output fuel fd; mret (0, out)) _ (λ x v, fst x = 0 ∧ answered v (snd x))); [done|done|]].
    + intros x u [?|[? (v & [? Ha] & E)]]; [by left|right]. split; [done|]. split; [done|].
      unfold answered in *. by rewrite <- E.
    + intros fd t1 O. apply (read_map _ _ _ _ _ _ (λ out u, answered u out)); [by apply redirect_output_spec|done].
  - eapply command_mono; [|apply (command_spec fuel sn _ _ _ _
      (λ fd, x ← redirect_to_buffer fuel fd buff 0; mret (0, snd x)) _ (λ x v, fst x = 0 ∧ one_read buff v (snd x)));
      [done|done|]].
    + intros x u [?|[? (v & [? Ha] & E)]]; [by left|right]. split; [done|]. split; [done|].
      unfold one_read in *. by rewrite <- E.
    + intros fd t1 O. apply (read_map _ _ _ _ _ _ (λ x u, one_read buff u (snd x)));
        [by apply redirect_to_buffer_spec|done].
  - eapply command_mono; [|apply (command_spec fuel sn _ _ _ _
      (λ fd, a ← ask (Read fd 12); mret (retcode ipc a)) _ (λ x v, ∀ d, chunks v = [d] → x = s32 (get32 (splice ipc 0 d) 8)));
      [done|done|]].
    + intros x u [?|[? (v & Ha & E)]]; [by left|right]. split; [done|]. by rewrite <- E.
    + intros fd t1 O. by apply read_retcode.
Qed.
End commands.

(** ** The client of the XML database: a database that answers in two pieces *)

(** How often the answer was read. *)
Definition reads (t : trace) : nat :=
  length (List.filter (λ e, match e with (Read _ _, _) => true | _ => false end) t).

(** The answer to the first reads. *)
Definition pieces : list bytes := [chars "192.168."; chars "0.1" ++ [0]].

Definition piece (t : trace) (n : nat) : bytes := take n (nth (reads t) pieces []).

#[local] Instance demo_db : Os := λ t c,
  match c with
  | Socket _ _ _ | Open _ => mk_reply (if decide (5 ∈ opened t) then -1 else 5) 0 []
  | Read _ n => mk_reply (Z.of_nat (length (piece t n))) 0 (piece t n)
  | Select _ _ => mk_reply 1 0 []
  | Send _ data => mk_reply (Z.of_nat (length data)) 0 []
  | Recv _ _ | Ioctl _ _ _ => mk_reply (-1) 0 []
  | _ => mk_reply 0 0 []
  end.

Lemma piece_bytes t n : is_bytes (piece t n).
Proof.
  unfold piece. apply Forall_take. destruct (reads t) as [|[|k]]; cbn [nth pieces].
  1,2: apply bytesb_sound; by vm_compute.
  destruct k; constructor.
Qed.

#[local] Instance demo_db_ok : OsOk demo_db.
Proof.
  constructor.
  - intros t d ty p. cbn. case_decide; [by left|right]. split; [lia|done].
  - intros t path. cbn. case_decide; [by left|right]. split; [lia|done].
  - intros t fd r n a Ha. subst a. cbn in Ha. lia.
  - intros t fd n a Ha. subst a. cbn in Ha. lia.
  - intros t fd n a _. subst a. unfold answer_to, demo_db. cbn [rv delivered].
    split; [done|]. split; [unfold piece; rewrite length_take; lia|apply piece_bytes].
Qed.

(** Descriptor 0 is open. *)
Definition demo_start : trace := [(Open (chars "/dev/console"), mk_reply 0 0 [])].

Definition demo_node : bytes := chars "/lan/ip".
Definition demo_buff : bytes := replicate 20 255.

Lemma xmldb_client_correct_witness :
  (∃ t', xmldbc_get 3 None 0 demo_node (replicate 4 0) demo_start = Ok ((0, chars "192.168.0.1"), t'))
  ∧ command_result 3 demo_start (λ x u, (x = (-1, []) ∧ chunks u = [])
      ∨ requested XMLDB_GET 0 (cstring demo_node) (replicate 4 0) u ∧ fst x = 0 ∧ answered u (snd x))
    (xmldbc_get 3 None 0 demo_node (replicate 4 0) demo_start).
Proof.
  split; [eexists; by vm_compute|].
  apply (xmldb_client_correct 3 None 0 demo_node [] demo_buff (replicate 4 0)
           (replicate 12 0) demo_start); [by apply (bool_decide_eq_true_1 (0 ∈ opened demo_start)); vm_compute|by vm_compute].
Defined.

(** The same answer in a buffer: the first piece only. *)
Example get_wb_first_piece :
  match xmldbc_get_wb 3 None 0 demo_node demo_buff (replicate 4 0) demo_start with
  | Ok (x, _) => x = (0, splice demo_buff 0 (chars "192.168."))
  | _ => False
  end.
Proof. by vm_compute. Qed.
