(* ===== verification/PppFsm.v ===== *)
(** * The automaton of PPP's control protocols (progs.gpl/pppd.alpha/fsm.c, fsm.h)

    LCP, IPCP and CCP negotiate with the same automaton; each gives it the routines
    that deal with its options.  These work on a state [U] of their own and do not call
    the automaton back.  What the automaton does to the outside is a list of actions:
    packets, the timer, and the calls that tell the layers above and below. *)

From stdpp Require Import base numbers list.
From S2P Require Import Prelude Bytes.

(** ** Constants *)

Definition HEADERLEN : Z := 4.
Definition PPP_HDRLEN : Z := 4.
Definition PPP_MRU : Z := 1500.
Definition PPP_ALLSTATIONS : Z := 0xff.
Definition PPP_UI : Z := 0x03.

Definition CONFREQ : Z := 1.
Definition CONFACK : Z := 2.
Definition CONFNAK : Z := 3.
Definition CONFREJ : Z := 4.
Definition TERMREQ : Z := 5.
Definition TERMACK : Z := 6.
Definition CODEREJ : Z := 7.

Inductive link_state :=
  INITIAL | STARTING | CLOSED | STOPPED | CLOSING | STOPPING | REQSENT | ACKRCVD | ACKSENT | OPENED.
#[export] Instance link_state_eq_dec : EqDecision link_state.
Proof. solve_decision. Defined.

(** [OPT_PASSIVE], [OPT_RESTART] and [OPT_SILENT] *)
Record fsm_flags := mk_flags { opt_passive : bool; opt_restart : bool; opt_silent : bool }.

Definition DEFTIMEOUT : Z := 3.
Definition DEFMAXTERMREQS : Z := 2.
Definition DEFMAXCONFREQS : Z := 10.
Definition DEFMAXNAKLOOPS : Z := 5.

(** ** The automaton and its surroundings *)

(** [unit] and the names are left out; [fsm_id] (the member [id]) and [reqid] are [u_char]s. *)
Record fsm := mk_fsm {
  protocol : Z; state : link_state; flags : fsm_flags; fsm_id : Z; reqid : Z; seen_ack : bool;
  timeouttime : Z; maxconfreqtransmits : Z; retransmits : Z; maxtermtransmits : Z;
  nakloops : Z; maxnakloops : Z; term_reason : bytes }.

Definition with_state (f : fsm) (v : link_state) : fsm :=
  mk_fsm (protocol f) v (flags f) (fsm_id f) (reqid f) (seen_ack f) (timeouttime f) (maxconfreqtransmits f)
    (retransmits f) (maxtermtransmits f) (nakloops f) (maxnakloops f) (term_reason f).
Definition with_id (f : fsm) (v : Z) : fsm :=
  mk_fsm (protocol f) (state f) (flags f) v (reqid f) (seen_ack f) (timeouttime f) (maxconfreqtransmits f)
    (retransmits f) (maxtermtransmits f) (nakloops f) (maxnakloops f) (term_reason f).
Definition with_reqid (f : fsm) (v : Z) : fsm :=
  mk_fsm (protocol f) (state f) (flags f) (fsm_id f) v (seen_ack f) (timeouttime f) (maxconfreqtransmits f)
    (retransmits f) (maxtermtransmits f) (nakloops f) (maxnakloops f) (term_reason f).
Definition with_seen_ack (f : fsm) (v : bool) : fsm :=
  mk_fsm (protocol f) (state f) (flags f) (fsm_id f) (reqid f) v (timeouttime f) (maxconfreqtransmits f)
    (retransmits f) (maxtermtransmits f) (nakloops f) (maxnakloops f) (term_reason f).
Definition with_retransmits (f : fsm) (v : Z) : fsm :=
  mk_fsm (protocol f) (state f) (flags f) (fsm_id f) (reqid f) (seen_ack f) (timeouttime f) (maxconfreqtransmits f)
    v (maxtermtransmits f) (nakloops f) (maxnakloops f) (term_reason f).
Definition with_nakloops (f : fsm) (v : Z) : fsm :=
  mk_fsm (protocol f) (state f) (flags f) (fsm_id f) (reqid f) (seen_ack f) (timeouttime f) (maxconfreqtransmits f)
    (retransmits f) (maxtermtransmits f) v (maxnakloops f) (term_reason f).
Definition with_term_reason (f : fsm) (v : bytes) : fsm :=
  mk_fsm (protocol f) (state f) (flags f) (fsm_id f) (reqid f) (seen_ack f) (timeouttime f) (maxconfreqtransmits f)
    (retransmits f) (maxtermtransmits f) (nakloops f) (maxnakloops f) v.

(** The actions in the order of the calls.  A call of a routine that a protocol leaves
    out ([NULL]) is listed as well. *)
Inductive action :=
| Output (packet : bytes)
| SetTimer (seconds : Z)
| ClearTimer
| ThisLayerUp
| ThisLayerDown
| ThisLayerStarted
| ThisLayerFinished
| Retransmit.

(** [struct fsm_callbacks], with [peer_mru[unit]], which LCP sets.  [addci] gets the
    length that [cilen] has computed and gives the options it leaves in the packet; the
    routines that look at options get the rest of the packet; [reqci] also gives
    the code of the answer and the options of the answer. *)
Class Callbacks (U : Type) := {
  peer_mru : U → Z;
  resetci : option (U → U);
  cilen : option (U → Z);
  addci : option (U → Z → bytes * U);
  ackci : option (U → bytes → bool * U);
  nakci : option (U → bytes → Z * U);
  rejci : option (U → bytes → Z * U);
  reqci : option (U → bytes → bool → Z * bytes * U);
  up : option (U → U);
  down : option (U → U);
  starting : option (U → U);
  finished : option (U → U);
  retransmit : option (U → U);
  extcode : option (U → Z → Z → bytes → bool * U) }.

Section automaton.
Context `{Callbacks U}.

(** A piece of the program: from the automaton and the protocol's state to the new ones
    and the actions. *)
Definition prog (A : Type) : Type := fsm * U → res (A * (fsm * U) * list action).

#[export] Instance prog_ret : MRet prog := λ A a s, Ok (a, s, []).
#[export] Instance prog_bind : MBind prog := λ A B k m s,
  match m s with
  | Ok (a, s, l) =>
      match k a s with
      | Ok (b, s, l') => Ok (b, s, l ++ l')
      | Fault => Fault
      | NoFuel => NoFuel
      end
  | Fault => Fault
  | NoFuel => NoFuel
  end.

Definition get : prog (fsm * U) := λ s, Ok (s, s, []).
Definition set_fsm (g : fsm → fsm) : prog () := λ s, Ok ((), (g (fst s), snd s), []).
Definition set_state (v : link_state) : prog () := set_fsm (λ f, with_state f v).
Definition tell (a : action) : prog () := λ s, Ok ((), s, [a]).
Definition fault {A} : prog A := λ _, Fault.
(** A routine that works on the protocol's state. *)
Definition run {A} (g : U → A * U) : prog A := λ s, let '(a, u) := g (snd s) in Ok (a, (fst s, u), []).
Definition update (g : option (U → U)) : prog () := run (λ u, ((), default id g u)).
Definition notify (a : action) (g : option (U → U)) : prog () := _ ← tell a; update g.

Definition UNTIMEOUT : prog () := tell ClearTimer.
Definition TIMEOUT : prog () := s ← get; tell (SetTimer (timeouttime (fst s))).

(** ** Sending *)

Definition packet_of (prot code i : Z) (data : bytes) : bytes :=
  [PPP_ALLSTATIONS; PPP_UI] ++ be_bytes 2 prot
  ++ [u8 code; u8 i] ++ be_bytes 2 (Z.of_nat (length data) + HEADERLEN) ++ data.

(** [outpacket_buf] has [PPP_MRU + PPP_HDRLEN] bytes; a negative length is copied as an
    unsigned number. *)
Definition fsm_sdata (code i : Z) (data : bytes) : prog () :=
  s ← get;
  let datalen := Z.min (Z.of_nat (length data)) (peer_mru (snd s) - HEADERLEN) in
  if (datalen <? 0) || (PPP_MRU + PPP_HDRLEN <? datalen + HEADERLEN + PPP_HDRLEN) then fault
  else tell (Output (packet_of (protocol (fst s)) code i (take (Z.to_nat datalen) data))).

Definition negotiating (v : link_state) : bool :=
  match v with REQSENT | ACKRCVD | ACKSENT => true | _ => false end.

(** [f->reqid = ++f->id] *)
Definition new_reqid : prog Z :=
  s ← get;
  let i := u8 (fsm_id (fst s) + 1) in
  _ ← set_fsm (λ f, with_reqid (with_id f i) i);
  mret i.

Definition decr_retransmits : prog () := set_fsm (λ f, with_retransmits f (retransmits f - 1)).

(** The options of a Configure-Request. *)
Definition request_options : prog bytes :=
  match cilen, addci with
  | Some cilen, Some addci => run (λ u, addci u (Z.min (cilen u) (peer_mru u - HEADERLEN)))
  | _, _ => mret []
  end.

Definition fsm_sconfreq (retransmit : bool) : prog () :=
  s ← get;
  _ ← (if negotiating (state (fst s)) then mret ()
       else _ ← update resetci; set_fsm (λ f, with_nakloops f 0));
  _ ← (if retransmit then mret ()
       else _ ← set_fsm (λ f, with_retransmits f (maxconfreqtransmits f)); _ ← new_reqid; mret ());
  _ ← set_fsm (λ f, with_seen_ack f false);
  ci ← request_options;
  s ← get;
  _ ← fsm_sdata CONFREQ (reqid (fst s)) ci;
  _ ← decr_retransmits;
  TIMEOUT.

(** The Terminate-Request of [fsm_close], [fsm_timeout] and [fsm_protreject]. *)
Definition send_termreq : prog () :=
  i ← new_reqid;
  s ← get;
  _ ← fsm_sdata TERMREQ i (term_reason (fst s));
  _ ← TIMEOUT;
  decr_retransmits.

(** ** Events from the layers above and below *)

Definition fsm_init (f : fsm) : fsm :=
  mk_fsm (protocol f) INITIAL (mk_flags false false false) 0 (reqid f) (seen_ack f) DEFTIMEOUT DEFMAXCONFREQS
    (retransmits f) DEFMAXTERMREQS (nakloops f) DEFMAXNAKLOOPS [].

Definition fsm_lowerup : prog () :=
  s ← get;
  match state (fst s) with
  | INITIAL => set_state CLOSED
  | STARTING =>
      if opt_silent (flags (fst s)) then set_state STOPPED
      else _ ← fsm_sconfreq false; set_state REQSENT
  | _ => mret ()
  end.

Definition fsm_lowerdown : prog () :=
  s ← get;
  match state (fst s) with
  | CLOSED => set_state INITIAL
  | STOPPED => _ ← set_state STARTING; notify ThisLayerStarted starting
  | CLOSING => _ ← set_state INITIAL; UNTIMEOUT
  | STOPPING | REQSENT | ACKRCVD | ACKSENT => _ ← set_state STARTING; UNTIMEOUT
  | OPENED => _ ← notify ThisLayerDown down; set_state STARTING
  | INITIAL | STARTING => mret ()
  end.

Definition reopen : prog () :=
  s ← get;
  if opt_restart (flags (fst s)) then _ ← fsm_lowerdown; fsm_lowerup else mret ().

Definition fsm_open : prog () :=
  s ← get;
  match state (fst s) with
  | INITIAL => _ ← set_state STARTING; notify ThisLayerStarted starting
  | CLOSED =>
      if opt_silent (flags (fst s)) then set_state STOPPED
      else _ ← fsm_sconfreq false; set_state REQSENT
  | CLOSING => _ ← set_state STOPPING; reopen
  | STOPPED | OPENED => reopen
  | _ => mret ()
  end.

Definition fsm_close (reason : bytes) : prog () :=
  _ ← set_fsm (λ f, with_term_reason f reason);
  s ← get;
  match state (fst s) with
  | STARTING => set_state INITIAL
  | STOPPED => set_state CLOSED
  | STOPPING => set_state CLOSING
  | REQSENT | ACKRCVD | ACKSENT | OPENED =>
      _ ← (if decide (state (fst s) = OPENED) then notify ThisLayerDown down else UNTIMEOUT);
      _ ← set_fsm (λ f, with_retransmits f (maxtermtransmits f));
      _ ← send_termreq;
      set_state CLOSING
  | _ => mret ()
  end.

Definition fsm_timeout : prog () :=
  s ← get;
  match state (fst s) with
  | CLOSING | STOPPING =>
      if retransmits (fst s) <=? 0 then
        _ ← set_state (if decide (state (fst s) = CLOSING) then CLOSED else STOPPED);
        notify ThisLayerFinished finished
      else send_termreq
  | REQSENT | ACKRCVD | ACKSENT =>
      if retransmits (fst s) <=? 0 then
        _ ← set_state STOPPED;
        if opt_passive (flags (fst s)) then mret () else notify ThisLayerFinished finished
      else
        _ ← notify Retransmit retransmit;
        _ ← fsm_sconfreq true;
        s ← get;
        if decide (state (fst s) = ACKRCVD) then set_state REQSENT else mret ()
  | _ => mret ()
  end.

(** ** Packets *)

Definition restart : prog () := _ ← notify ThisLayerDown down; fsm_sconfreq false.

(** The answer to a Configure-Request, once the state is one that answers. *)
Definition answer_confreq (i : Z) (inp : bytes) : prog () :=
  s ← get;
  '(code, ci) ← match reqci with
                | Some reqci =>
                    let reject_if_disagree := maxnakloops (fst s) <=? nakloops (fst s) in
                    run (λ u, reqci u inp reject_if_disagree)
                | None => mret (if decide (inp = []) then CONFACK else CONFREJ, inp)
                end;
  _ ← fsm_sdata code i ci;
  s ← get;
  if code =? CONFACK then
    _ ← (if decide (state (fst s) = ACKRCVD) then
           _ ← UNTIMEOUT; _ ← set_state OPENED; notify ThisLayerUp up
         else set_state ACKSENT);
    set_fsm (λ f, with_nakloops f 0)
  else
    _ ← (if decide (state (fst s) = ACKRCVD) then mret () else set_state REQSENT);
    if code =? CONFNAK then set_fsm (λ f, with_nakloops f (nakloops f + 1)) else mret ().

Definition fsm_rconfreq (i : Z) (inp : bytes) : prog () :=
  s ← get;
  match state (fst s) with
  | CLOSED => fsm_sdata TERMACK i []
  | CLOSING | STOPPING => mret ()
  | OPENED => _ ← restart; answer_confreq i inp
  | STOPPED => _ ← fsm_sconfreq false; _ ← set_state REQSENT; answer_confreq i inp
  | _ => answer_confreq i inp
  end.

Definition fsm_rconfack (i : Z) (inp : bytes) : prog () :=
  s ← get;
  if negb (i =? reqid (fst s)) || seen_ack (fst s) then mret ()
  else
    ok ← match ackci with
         | Some ackci => run (λ u, ackci u inp)
         | None => mret (bool_decide (inp = []))
         end;
    if negb ok then mret ()
    else
      _ ← set_fsm (λ f, with_seen_ack f true);
      match state (fst s) with
      | CLOSED | STOPPED => fsm_sdata TERMACK i []
      | REQSENT => _ ← set_state ACKRCVD; set_fsm (λ f, with_retransmits f (maxconfreqtransmits f))
      | ACKRCVD => _ ← UNTIMEOUT; _ ← fsm_sconfreq false; set_state REQSENT
      | ACKSENT =>
          _ ← UNTIMEOUT;
          _ ← set_state OPENED;
          _ ← set_fsm (λ f, with_retransmits f (maxconfreqtransmits f));
          notify ThisLayerUp up
      | OPENED => _ ← restart; set_state REQSENT
      | _ => mret ()
      end.

Definition fsm_rconfnakrej (code i : Z) (inp : bytes) : prog () :=
  s ← get;
  if negb (i =? reqid (fst s)) || seen_ack (fst s) then mret ()
  else
    ret ← match (if code =? CONFNAK then nakci else rejci) with
          | Some proc => run (λ u, proc u inp)
          | None => mret 0
          end;
    if ret =? 0 then mret ()
    else
      _ ← set_fsm (λ f, with_seen_ack f true);
      match state (fst s) with
      | CLOSED | STOPPED => fsm_sdata TERMACK i []
      | REQSENT | ACKSENT =>
          _ ← UNTIMEOUT;
          if ret <? 0 then set_state STOPPED else fsm_sconfreq false
      | ACKRCVD => _ ← UNTIMEOUT; _ ← fsm_sconfreq false; set_state REQSENT
      | OPENED => _ ← restart; set_state REQSENT
      | _ => mret ()
      end.

Definition fsm_rtermreq (i : Z) : prog () :=
  s ← get;
  _ ← match state (fst s) with
      | ACKRCVD | ACKSENT => set_state REQSENT
      | OPENED =>
          _ ← set_fsm (λ f, with_retransmits f 0);
          _ ← set_state STOPPING;
          _ ← notify ThisLayerDown down;
          TIMEOUT
      | _ => mret ()
      end;
  fsm_sdata TERMACK i [].

Definition fsm_rtermack : prog () :=
  s ← get;
  match state (fst s) with
  | CLOSING => _ ← UNTIMEOUT; _ ← set_state CLOSED; notify ThisLayerFinished finished
  | STOPPING => _ ← UNTIMEOUT; _ ← set_state STOPPED; notify ThisLayerFinished finished
  | ACKRCVD => set_state REQSENT
  | OPENED => restart
  | _ => mret ()
  end.

Definition fsm_rcoderej (inp : bytes) : prog () :=
  s ← get;
  if Z.of_nat (length inp) <? HEADERLEN then mret ()
  else if decide (state (fst s) = ACKRCVD) then set_state REQSENT else mret ().

Definition fsm_protreject : prog () :=
  s ← get;
  match state (fst s) with
  | CLOSING => _ ← UNTIMEOUT; _ ← set_state CLOSED; notify ThisLayerFinished finished
  | CLOSED => _ ← set_state CLOSED; notify ThisLayerFinished finished
  | STOPPING | REQSENT | ACKRCVD | ACKSENT =>
      _ ← UNTIMEOUT; _ ← set_state STOPPED; notify ThisLayerFinished finished
  | STOPPED => _ ← set_state STOPPED; notify ThisLayerFinished finished
  | OPENED =>
      _ ← notify ThisLayerDown down;
      _ ← set_fsm (λ f, with_retransmits f (maxtermtransmits f));
      _ ← send_termreq;
      set_state STOPPING
  | INITIAL | STARTING => mret ()
  end.

(** The unknown code is rejected with the whole packet, up to its length. *)
Definition reject_code (code i : Z) (inpacket : bytes) (len : Z) : prog () :=
  known ← match extcode with
          | Some extcode => run (λ u, extcode u code i (slice inpacket 4 (Z.to_nat (len - HEADERLEN))))
          | None => mret false
          end;
  if (known : bool) then mret ()
  else
    s ← get;
    let i := u8 (fsm_id (fst s) + 1) in
    _ ← set_fsm (λ f, with_id f i);
    fsm_sdata CODEREJ i (take (Z.to_nat len) inpacket).

(** [inpacket] are the [l] bytes received. *)
Definition fsm_input (inpacket : bytes) : prog () :=
  let l := Z.of_nat (length inpacket) in
  if l <? HEADERLEN then mret ()
  else
    let code := inpacket !!! 0%nat in
    let i := inpacket !!! 1%nat in
    let len := get16 inpacket 2 in
    if (len <? HEADERLEN) || (l <? len) then mret ()
    else
      s ← get;
      if decide (state (fst s) = INITIAL ∨ state (fst s) = STARTING) then mret ()
      else
        let inp := slice inpacket 4 (Z.to_nat (len - HEADERLEN)) in
        if code =? CONFREQ then fsm_rconfreq i inp
        else if code =? CONFACK then fsm_rconfack i inp
        else if (code =? CONFNAK) || (code =? CONFREJ) then fsm_rconfnakrej code i inp
        else if code =? TERMREQ then fsm_rtermreq i
        else if code =? TERMACK then fsm_rtermack
        else if code =? CODEREJ then fsm_rcoderej inp
        else reject_code code i inpacket len.

(** ** One step *)

Inductive event :=
| LowerUp | LowerDown | OpenLink | CloseLink (reason : bytes) | TimerExpired
| Received (packet : bytes) | ProtocolRejected.

Definition fsm_step (e : event) : prog () :=
  match e with
  | LowerUp => fsm_lowerup
  | LowerDown => fsm_lowerdown
  | OpenLink => fsm_open
  | CloseLink reason => fsm_close reason
  | TimerExpired => fsm_timeout
  | Received packet => fsm_input packet
  | ProtocolRejected => fsm_protreject
  end.
End automaton.
