(* ===== verification/PppFsmProps.v ===== *)
(** * The automaton of PPP: the theorems

    It is the automaton of RFC 1661, but for four entries of its table; it never
    overruns its packet buffer; while it waits a timer is set, and it does not wait for
    ever. *)

From stdpp Require Import base numbers list.
From S2P Require Import Prelude Bytes PppFsm.

(** ** The automaton of RFC 1661 *)

(** The events of section 4.3; [RCNend] is a Nak or Reject that a protocol does not
    want to answer, which the standard does not know. *)
Inductive rfc_event :=
| RUp | RDown | ROpen | RClose | TOplus | TOminus | RCRplus | RCRminus | RCA | RCN | RCNend
| RTR | RTA | RUC | RXJplus | RXJminus.

(** The actions of section 4.4 but for those on the restart counter. *)
Inductive rfc_action := Tlu | Tld | Tls | Tlf | Scr | Sca | Scn | Str | Sta | Scj.

(** The table of section 4.1 by columns; [None] where it has a dash.  [OPT_SILENT] waits
    for the peer's request, [OPT_RESTART] and [OPT_PASSIVE] are its options "r" and "p". *)
Definition rfc_up (o : fsm_flags) (v : link_state) : option (list rfc_action * link_state) :=
  match v with
  | INITIAL => Some ([], CLOSED)
  | STARTING => Some (if opt_silent o then ([], STOPPED) else ([Scr], REQSENT))
  | _ => None
  end.

Definition rfc_down (v : link_state) : option (list rfc_action * link_state) :=
  match v with
  | INITIAL | STARTING => None
  | CLOSED | CLOSING => Some ([], INITIAL)
  | STOPPED => Some ([Tls], STARTING)
  | STOPPING | REQSENT | ACKRCVD | ACKSENT => Some ([], STARTING)
  | OPENED => Some ([Tld], STARTING)
  end.

(** The restart option: a down event and then an up event. *)
Definition rfc_restart (o : fsm_flags) (v : link_state) : option (list rfc_action * link_state) :=
  if opt_restart o then
    '(a1, v1) ← rfc_down v;
    '(a2, v2) ← rfc_up o v1;
    Some (a1 ++ a2, v2)
  else Some ([], v).

Definition rfc_open (o : fsm_flags) (v : link_state) : option (list rfc_action * link_state) :=
  match v with
  | INITIAL => Some ([Tls], STARTING)
  | CLOSED => Some (if opt_silent o then ([], STOPPED) else ([Scr], REQSENT))
  | CLOSING | STOPPING => rfc_restart o STOPPING
  | STOPPED | OPENED => rfc_restart o v
  | _ => Some ([], v)
  end.

Definition rfc_close (v : link_state) : option (list rfc_action * link_state) :=
  match v with
  | INITIAL => Some ([], INITIAL)
  | STARTING => Some ([Tlf], INITIAL)
  | CLOSED | STOPPED => Some ([], CLOSED)
  | CLOSING | STOPPING => Some ([], CLOSING)
  | REQSENT | ACKRCVD | ACKSENT => Some ([Str], CLOSING)
  | OPENED => Some ([Tld; Str], CLOSING)
  end.

Definition rfc_timeout (o : fsm_flags) (more : bool) (v : link_state) : option (list rfc_action * link_state) :=
  match v with
  | CLOSING => Some (if more then ([Str], CLOSING) else ([Tlf], CLOSED))
  | STOPPING => Some (if more then ([Str], STOPPING) else ([Tlf], STOPPED))
  | REQSENT | ACKRCVD => Some (if more then ([Scr], REQSENT) else (if opt_passive o then [] else [Tlf], STOPPED))
  | ACKSENT => Some (if more then ([Scr], ACKSENT) else (if opt_passive o then [] else [Tlf], STOPPED))
  | _ => None
  end.

Definition rfc_rcr (ack : bool) (v : link_state) : option (list rfc_action * link_state) :=
  let answer := if ack then Sca else Scn in
  let sent := if ack then ACKSENT else REQSENT in
  match v with
  | INITIAL | STARTING => None
  | CLOSED => Some ([Sta], CLOSED)
  | CLOSING | STOPPING => Some ([], v)
  | STOPPED => Some ([Scr; answer], sent)
  | REQSENT | ACKSENT => Some ([answer], sent)
  | ACKRCVD => Some (if ack then ([Sca; Tlu], OPENED) else ([Scn], ACKRCVD))
  | OPENED => Some ([Tld; Scr; answer], sent)
  end.

Definition rfc_rca (v : link_state) : option (list rfc_action * link_state) :=
  match v with
  | INITIAL | STARTING => None
  | CLOSED | STOPPED => Some ([Sta], v)
  | CLOSING | STOPPING => Some ([], v)
  | REQSENT => Some ([], ACKRCVD)
  | ACKRCVD => Some ([Scr], REQSENT)
  | ACKSENT => Some ([Tlu], OPENED)
  | OPENED => Some ([Tld; Scr], REQSENT)
  end.

Definition rfc_rcn (v : link_state) : option (list rfc_action * link_state) :=
  match v with
  | INITIAL | STARTING => None
  | CLOSED | STOPPED => Some ([Sta], v)
  | CLOSING | STOPPING => Some ([], v)
  | REQSENT | ACKSENT => Some ([Scr], v)
  | ACKRCVD => Some ([Scr], REQSENT)
  | OPENED => Some ([Tld; Scr], REQSENT)
  end.

Definition rfc_rtr (v : link_state) : option (list rfc_action * link_state) :=
  match v with
  | INITIAL | STARTING => None
  | ACKRCVD | ACKSENT => Some ([Sta], REQSENT)
  | OPENED => Some ([Tld; Sta], STOPPING)
  | _ => Some ([Sta], v)
  end.

Definition rfc_rta (v : link_state) : option (list rfc_action * link_state) :=
  match v with
  | INITIAL | STARTING => None
  | CLOSING => Some ([Tlf], CLOSED)
  | STOPPING => Some ([Tlf], STOPPED)
  | ACKRCVD => Some ([], REQSENT)
  | OPENED => Some ([Tld; Scr], REQSENT)
  | _ => Some ([], v)
  end.

Definition rfc_rxj_minus (v : link_state) : option (list rfc_action * link_state) :=
  match v with
  | INITIAL | STARTING => None
  | CLOSED | CLOSING => Some ([Tlf], CLOSED)
  | STOPPED | STOPPING | REQSENT | ACKRCVD | ACKSENT => Some ([Tlf], STOPPED)
  | OPENED => Some ([Tld; Str], STOPPING)
  end.

Definition rfc1661 (o : fsm_flags) (e : rfc_event) (v : link_state) : option (list rfc_action * link_state) :=
  match e with
  | RUp => rfc_up o v
  | RDown => rfc_down v
  | ROpen => rfc_open o v
  | RClose => rfc_close v
  | TOplus => rfc_timeout o true v
  | TOminus => rfc_timeout o false v
  | RCRplus => rfc_rcr true v
  | RCRminus => rfc_rcr false v
  | RCA => rfc_rca v
  | RCN | RCNend => rfc_rcn v
  | RTR => rfc_rtr v
  | RTA => rfc_rta v
  | RUC => if decide (v = INITIAL ∨ v = STARTING) then None else Some ([Scj], v)
  | RXJplus => if decide (v = INITIAL ∨ v = STARTING) then None
               else Some ([], if decide (v = ACKRCVD) then REQSENT else v)
  | RXJminus => rfc_rxj_minus v
  end.

(** Where the program departs from it: an open while the link is being stopped is
    ignored, where the option "r" starts it again; a close before the layer is up is not
    passed on; a Terminate-Ack out of the blue restarts the negotiation but leaves the
    state OPENED; and [RCNend] stops it. *)
Definition expected (o : fsm_flags) (e : rfc_event) (v : link_state) : list rfc_action * link_state :=
  match e, v with
  | ROpen, STOPPING => ([], STOPPING)
  | RClose, STARTING => ([], INITIAL)
  | RTA, OPENED => ([Tld; Scr], OPENED)
  | RCNend, (REQSENT | ACKSENT) => ([], STOPPED)
  | _, _ => default ([], v) (rfc1661 o e v)
  end.

(** ** The program's view of events and actions *)

Definition packet_action (code : Z) : list rfc_action :=
  if code =? CONFREQ then [Scr] else if code =? CONFACK then [Sca]
  else if (code =? CONFNAK) || (code =? CONFREJ) then [Scn]
  else if code =? TERMREQ then [Str] else if code =? TERMACK then [Sta]
  else if code =? CODEREJ then [Scj] else [].

Definition rfc_of (a : action) : list rfc_action :=
  match a with
  | Output p => packet_action (p !!! 4%nat)
  | ThisLayerUp => [Tlu]
  | ThisLayerDown => [Tld]
  | ThisLayerStarted => [Tls]
  | ThisLayerFinished => [Tlf]
  | _ => []
  end.
Definition observe (out : list action) : list rfc_action := out ≫= rfc_of.

Section events.
Context `{Callbacks U}.

Definition proper_packet (p : bytes) : bool :=
  (4 <=? length p)%nat && (4 <=? get16 p 2) && (get16 p 2 <=? Z.of_nat (length p)).
Definition packet_data (p : bytes) : bytes := slice p 4 (Z.to_nat (get16 p 2 - 4)).

Definition is_reply (f : fsm) (p : bytes) : bool := ((p !!! 1%nat) =? reqid f) && negb (seen_ack f).

Definition ack_accepted (u : U) (d : bytes) : bool :=
  match ackci with Some g => fst (g u d) | None => bool_decide (d = []) end.
Definition nak_result (u : U) (code : Z) (d : bytes) : Z :=
  match (if code =? CONFNAK then nakci else rejci) with Some g => fst (g u d) | None => 0 end.
Definition code_known (u : U) (code i : Z) (d : bytes) : bool :=
  match extcode with Some g => fst (g u code i d) | None => false end.

(** The verdict of the protocol's routine on a request. *)
Definition verdict (f : fsm) (u : U) (d : bytes) : bool :=
  match reqci with
  | Some g => let '(code, _, _) := g u d (maxnakloops f <=? nakloops f) in code =? CONFACK
  | None => bool_decide (d = [])
  end.

(** The protocol's state once a request of its own has been made up. *)
Definition requested (u : U) : U :=
  let u := default id resetci u in
  match cilen, addci with
  | Some cilen, Some addci => snd (addci u (Z.min (cilen u) (peer_mru u - HEADERLEN)))
  | _, _ => u
  end.

(** Whether a request is acceptable: in STOPPED and OPENED the negotiation starts afresh
    before it is looked at. *)
Definition acceptable (f : fsm) (u : U) (d : bytes) : bool :=
  match state f with
  | STOPPED => verdict (with_nakloops f 0) (requested u) d
  | OPENED => verdict (with_nakloops f 0) (requested (default id down u)) d
  | _ => verdict f u d
  end.

(** Which event of the standard a packet is. *)
Definition packet_event (f : fsm) (u : U) (p : bytes) : option rfc_event :=
  let code := p !!! 0%nat in
  if negb (proper_packet p) || bool_decide (state f = INITIAL ∨ state f = STARTING) then None
  else if code =? CONFREQ then Some (if acceptable f u (packet_data p) then RCRplus else RCRminus)
  else if code =? CONFACK then if is_reply f p && ack_accepted u (packet_data p) then Some RCA else None
  else if (code =? CONFNAK) || (code =? CONFREJ) then
    let r := nak_result u code (packet_data p) in
    if negb (is_reply f p) || (r =? 0) then None else Some (if r <? 0 then RCNend else RCN)
  else if code =? TERMREQ then Some RTR
  else if code =? TERMACK then Some RTA
  else if code =? CODEREJ then if (4 <=? length (packet_data p))%nat then Some RXJplus else None
  else if code_known u code (p !!! 1%nat) (packet_data p) then None else Some RUC.

Definition rfc_event_of (e : event) (f : fsm) (u : U) : option rfc_event :=
  match e with
  | LowerUp => Some RUp
  | LowerDown => Some RDown
  | OpenLink => Some ROpen
  | CloseLink _ => Some RClose
  | TimerExpired => Some (if retransmits f <=? 0 then TOminus else TOplus)
  | Received p => packet_event f u p
  | ProtocolRejected => Some RXJminus
  end.
End events.

(** ** What pieces of the program do *)

(** The protocol's routines answer with one of the three codes, and the peer's MRU is
    between the header and the size of the packet buffer. *)
Class CallbacksOk U `{Callbacks U} : Prop := {
  mru_bounds : ∀ u, HEADERLEN ≤ peer_mru u ≤ PPP_MRU;
  reqci_code : ∀ g u d b, reqci = Some g → let '(code, _, _) := g u d b in code = CONFACK ∨ code = CONFNAK ∨ code = CONFREJ }.

Section automaton.
Context `{Callbacks U}.

Definition does {A} (m : prog A) (s : fsm * U) (Q : A → fsm * U → list action → Prop) : Prop :=
  match m s with Ok (a, s', out) => Q a s' out | _ => False end.

Lemma does_ret {A} (a : A) s (Q : A → fsm * U → list action → Prop) : Q a s [] → does (mret a) s Q.
Proof. done. Qed.

Lemma does_bind {A B} (m : prog A) (k : A → prog B) s Q :
  does m s (λ a s1 l, does (k a) s1 (λ b s2 l', Q b s2 (l ++ l'))) → does (m ≫= k) s Q.
Proof.
  unfold does, mbind, prog_bind. destruct (m s) as [[[a s1] l]| |]; [|done|done].
  by destruct (k a s1) as [[[b s2] l']| |].
Qed.

Lemma does_mono {A} (m : prog A) s (Q Q' : A → fsm * U → list action → Prop) :
  does m s Q → (∀ a s' l, Q a s' l → Q' a s' l) → does m s Q'.
Proof. unfold does. destruct (m s) as [[[a s1] l]| |]; [auto|done|done]. Qed.

(** Programs that begin with a step. *)
Lemma does_get {B} (k : fsm * U → prog B) s Q : does (k s) s Q → does (s' ← get; k s') s Q.
Proof. intros H1. apply does_bind. exact H1. Qed.
Lemma does_set_fsm g s (Q : () → fsm * U → list action → Prop) : Q () (g (fst s), snd s) [] → does (set_fsm g) s Q.
Proof. done. Qed.
Lemma does_set_state v s (Q : () → fsm * U → list action → Prop) :
  Q () (with_state (fst s) v, snd s) [] → does (set_state v) s Q.
Proof. done. Qed.
Lemma does_tell a s (Q : () → fsm * U → list action → Prop) : Q () s [a] → does (tell a) s Q.
Proof. done. Qed.
Lemma does_run {A} (g : U → A * U) s (Q : A → fsm * U → list action → Prop) :
  Q (fst (g (snd s))) (fst s, snd (g (snd s))) [] → does (run g) s Q.
Proof. unfold does, run. by destruct (g (snd s)). Qed.
Lemma does_update g s (Q : () → fsm * U → list action → Prop) : (∀ u, Q () (fst s, u) []) → does (update g) s Q.
Proof. intros H1. apply does_run. apply H1. Qed.
Lemma does_notify a g s (Q : () → fsm * U → list action → Prop) : (∀ u, Q () (fst s, u) [a]) → does (notify a g) s Q.
Proof. intros H1. apply does_bind, does_tell, does_update. apply H1. Qed.
Lemma does_timeout s (Q : () → fsm * U → list action → Prop) :
  Q () s [SetTimer (timeouttime (fst s))] → does TIMEOUT s Q.
Proof. intros H1. apply does_get, does_tell, H1. Qed.
Lemma does_new_reqid s (Q : Z → fsm * U → list action → Prop) :
  (let i := u8 (fsm_id (fst s) + 1) in Q i (with_reqid (with_id (fst s) i) i, snd s) []) → does new_reqid s Q.
Proof. intros H1. exact H1. Qed.

(** The length of the copy is neither negative nor too large. *)
Lemma does_sdata_fits code i d s Q :
  0 ≤ Z.min (Z.of_nat (length d)) (peer_mru (snd s) - HEADERLEN) ≤ PPP_MRU - HEADERLEN →
  (∀ d', d' = take (Z.to_nat (peer_mru (snd s) - HEADERLEN)) d →
    Q () s [Output (packet_of (protocol (fst s)) code i d')]) →
  does (fsm_sdata code i d) s Q.
Proof.
  intros Hn HQ. unfold fsm_sdata. apply does_get. unfold HEADERLEN, PPP_HDRLEN, PPP_MRU in *. cbv zeta.
  set (n := Z.min _ _) in *. rewrite (proj2 (Z.ltb_ge n 0)), (proj2 (Z.ltb_ge _ (n + 4 + 4))) by lia. cbn [orb].
  apply does_tell. specialize (HQ _ eq_refl). destruct (decide (Z.of_nat (length d) ≤ peer_mru (snd s) - 4)).
  - rewrite take_ge in HQ |- * by (subst n; lia). exact HQ.
  - replace n with (peer_mru (snd s) - 4) by (subst n; lia). exact HQ.
Qed.

Context `{!CallbacksOk U}.

Lemma does_sdata code i d s Q :
  (∀ d', d' = take (Z.to_nat (peer_mru (snd s) - HEADERLEN)) d →
    Q () s [Output (packet_of (protocol (fst s)) code i d')]) →
  does (fsm_sdata code i d) s Q.
Proof. apply does_sdata_fits. pose proof (mru_bounds (snd s)). unfold HEADERLEN, PPP_MRU in *. lia. Qed.

(** The automaton after a Configure-Request. *)
Definition after_confreq (retransmit : bool) (f : fsm) : fsm :=
  let f := if negotiating (state f) then f else with_nakloops f 0 in
  let f := if retransmit then f
           else let i := u8 (fsm_id f + 1) in with_reqid (with_id (with_retransmits f (maxconfreqtransmits f)) i) i in
  let f := with_seen_ack f false in
  with_retransmits f (retransmits f - 1).

(** [P] is what is known of the options. *)
Lemma does_sconfreq_data (P : bytes → Prop) r s Q :
  (∀ s, does request_options s (λ d s' l, l = [] ∧ fst s' = fst s ∧ P (take (Z.to_nat (peer_mru (snd s') - HEADERLEN)) d))) →
  (∀ u d, let f := after_confreq r (fst s) in
     P d → Q () (f, u) [Output (packet_of (protocol f) CONFREQ (reqid f) d); SetTimer (timeouttime f)]) →
  does (fsm_sconfreq r) s Q.
Proof.
  intros HP HQ. unfold fsm_sconfreq. apply does_get, does_bind.
  apply (does_mono _ _ (λ _ s' l, l = [] ∧ fst s' = if negotiating (state (fst s)) then fst s else with_nakloops (fst s) 0)).
  { destruct (negotiating _); [done|]. apply does_bind, does_update. intros u. by apply does_set_fsm. }
  intros _ [f1 u1] ? [-> E1]. cbn [fst] in E1. apply does_bind.
  apply (does_mono _ _ (λ _ s' l, l = [] ∧ fst s' = if r then f1
     else let i := u8 (fsm_id f1 + 1) in with_reqid (with_id (with_retransmits f1 (maxconfreqtransmits f1)) i) i)).
  { by destruct r. }
  intros _ [f2 u2] ? [-> E2]. cbn [fst] in E2. apply does_bind, does_set_fsm, does_bind. cbn [fst snd].
  eapply does_mono; [apply HP|]. cbn [fst]. intros ci [f3 u3] ? (-> & E3 & Hci). cbn [fst snd] in E3, Hci.
  apply does_get, does_bind, does_sdata. cbn [fst snd]. intros d ->.
  apply does_bind, does_set_fsm, does_timeout. specialize (HQ u3 _ Hci). cbn [fst snd app] in *.
  unfold after_confreq in HQ. rewrite <- E1, <- E2, <- E3 in HQ. exact HQ.
Qed.

Lemma does_sconfreq r s Q :
  (∀ u d, let f := after_confreq r (fst s) in
     Q () (f, u) [Output (packet_of (protocol f) CONFREQ (reqid f) d); SetTimer (timeouttime f)]) →
  does (fsm_sconfreq r) s Q.
Proof.
  intros HQ. apply (does_sconfreq_data (λ _, True)); [|auto].
  intros s'. unfold request_options. destruct cilen, addci; (apply does_run || apply does_ret); done.
Qed.

(** A request with which a negotiation begins, with what the protocol makes of it. *)
Lemma does_sconfreq_fresh s Q :
  negotiating (state (fst s)) = false →
  (∀ d, let f := after_confreq false (fst s) in
     Q () (f, requested (snd s)) [Output (packet_of (protocol f) CONFREQ (reqid f) d); SetTimer (timeouttime f)]) →
  does (fsm_sconfreq false) s Q.
Proof.
  intros Hn HQ. destruct s as [f u]. unfold fsm_sconfreq, after_confreq in *. cbn [fst snd] in *.
  apply does_get. cbn [fst]. rewrite Hn in *. apply does_bind, does_bind, does_run, does_set_fsm. cbn [fst snd].
  apply does_bind, does_bind, does_set_fsm, does_bind, does_new_reqid. cbv zeta. apply does_ret. cbn [fst snd].
  apply does_bind, does_set_fsm, does_bind. cbn [fst snd].
  apply (does_mono _ _ (λ d s' l, l = [] ∧ s' = (with_seen_ack (with_reqid (with_id (with_retransmits (with_nakloops f 0)
     (maxconfreqtransmits f)) (u8 (fsm_id f + 1))) (u8 (fsm_id f + 1))) false, requested u))).
  { unfold request_options, requested. destruct cilen, addci; (apply does_run || apply does_ret); done. }
  intros d ? ? [-> ->]. apply does_get, does_bind, does_sdata. cbn [fst snd]. intros d' _.
  apply does_bind, does_set_fsm, does_timeout. exact (HQ d').
Qed.

Definition after_termreq (f : fsm) : fsm :=
  let i := u8 (fsm_id f + 1) in
  with_retransmits (with_reqid (with_id f i) i) (retransmits f - 1).

Lemma does_termreq s Q :
  (∀ d, let f := after_termreq (fst s) in
     Q () (f, snd s) [Output (packet_of (protocol f) TERMREQ (reqid f) d); SetTimer (timeouttime f)]) →
  does send_termreq s Q.
Proof.
  intros HQ. apply does_bind, does_new_reqid. intros i. apply does_get, does_bind, does_sdata. intros d _.
  apply does_bind, does_timeout, does_set_fsm. exact (HQ d).
Qed.

Lemma observe_output prot code i d : is_u8 code → rfc_of (Output (packet_of prot code i d)) = packet_action code.
Proof. intros Hc. cbn. by rewrite u8_id. Qed.

(** What a program shows of itself: its actions and the state it ends in. *)
Definition shows (m : prog ()) (s : fsm * U) (r : list rfc_action * link_state) : Prop :=
  does m s (λ _ s' out, observe out = fst r ∧ state (fst s') = snd r).
End automaton.

(** [steps] goes through a program, one rule for each construct. *)
Ltac step :=
  lazymatch goal with
  | |- does get _ _ => red
  | |- does (get ≫= _) _ _ => apply does_get; cbn
  | |- does (_ ≫= _) _ _ => apply does_bind
  | |- does (mret _) _ _ => apply does_ret; cbn
  | |- does (set_state _) _ _ => apply does_set_state; cbn
  | |- does (set_fsm _) _ _ => apply does_set_fsm; cbn
  | |- does UNTIMEOUT _ _ => apply does_tell; cbn
  | |- does TIMEOUT _ _ => apply does_timeout; cbn
  | |- does (notify _ _) _ _ => apply does_notify; intros ?; cbn
  | |- does (fsm_sdata _ _ _) _ _ => apply does_sdata; intros ? _; cbn
  | |- does (fsm_sconfreq _) _ _ => apply does_sconfreq; intros ? ?; cbn
  | |- does send_termreq _ _ => apply does_termreq; intros ?; cbn
  | |- does (run _) _ _ => apply does_run; cbn
  | |- does (if ?b then _ else _) _ _ => destruct b; cbn
  end.
Ltac steps := repeat step.

Section rfc.
Context `{Callbacks U} `{!CallbacksOk U}.

(** Every state at once: the automaton as a record, the state by cases. *)
Ltac cases f :=
  let v := fresh "v" in destruct f as [? v [? ? ?] ? ? ? ? ? ? ? ? ? ?];
  cbn [protocol state flags fsm_id reqid seen_ack timeouttime maxconfreqtransmits retransmits maxtermtransmits
       nakloops maxnakloops term_reason] in *;
  destruct v.

Lemma lowerup_shows f u : shows fsm_lowerup (f, u) (expected (flags f) RUp (state f)).
Proof. unfold shows, fsm_lowerup. cases f; cbn; steps; done. Qed.

Lemma lowerdown_shows f u : shows fsm_lowerdown (f, u) (expected (flags f) RDown (state f)).
Proof. unfold shows, fsm_lowerdown. cases f; cbn; steps; done. Qed.

Lemma open_shows f u : shows fsm_open (f, u) (expected (flags f) ROpen (state f)).
Proof.
  unfold shows, fsm_open, reopen, fsm_lowerdown, fsm_lowerup. cases f; cbn; steps; done.
Qed.

Lemma close_shows reason f u : shows (fsm_close reason) (f, u) (expected (flags f) RClose (state f)).
Proof. unfold shows, fsm_close. cases f; cbn; steps; done. Qed.

Lemma timeout_shows f u :
  shows fsm_timeout (f, u) (expected (flags f) (if retransmits f <=? 0 then TOminus else TOplus) (state f)).
Proof. unfold shows, fsm_timeout. cases f; cbn; steps; try done. all: by destruct (_ <=? _). Qed.

Lemma protreject_shows f u : shows fsm_protreject (f, u) (expected (flags f) RXJminus (state f)).
Proof. unfold shows, fsm_protreject. cases f; cbn; steps; done. Qed.

Lemma rtermack_shows f (u : U) : shows fsm_rtermack (f, u) (expected (flags f) RTA (state f)).
Proof. unfold shows, fsm_rtermack, restart. cases f; cbn; steps; done. Qed.

(** The states in which packets are looked at. *)
Definition listening (f : fsm) : Prop := ¬ (state f = INITIAL ∨ state f = STARTING).

Lemma rtermreq_shows i f (u : U) : listening f → shows (fsm_rtermreq i) (f, u) (expected (flags f) RTR (state f)).
Proof. intros Hl. unfold shows, fsm_rtermreq. cases f; try (by destruct Hl; auto); cbn; steps; done. Qed.

Lemma rcoderej_shows d f (u : U) :
  listening f →
  shows (fsm_rcoderej d) (f, u) (if (4 <=? length d)%nat then expected (flags f) RXJplus (state f) else ([], state f)).
Proof.
  intros Hl. unfold shows, fsm_rcoderej. apply does_get. destruct (Nat.leb_spec 4 (length d)).
  - rewrite (proj2 (Z.ltb_ge _ _)) by (unfold HEADERLEN; lia). cases f; try (by destruct Hl; auto); cbn; steps; done.
  - rewrite (proj2 (Z.ltb_lt _ _)) by (unfold HEADERLEN; lia). done.
Qed.

(** The automaton after its answer to a request. *)
Definition after_answer (code : Z) (f : fsm) : fsm :=
  if code =? CONFACK then
    with_nakloops (with_state f (if decide (state f = ACKRCVD) then OPENED else ACKSENT)) 0
  else
    let f := if decide (state f = ACKRCVD) then f else with_state f REQSENT in
    if code =? CONFNAK then with_nakloops f (nakloops f + 1) else f.

Lemma does_answer i d s Q :
  (∀ u code d', code = CONFACK ∨ code = CONFNAK ∨ code = CONFREJ → (code =? CONFACK) = verdict (fst s) (snd s) d →
     Q () (after_answer code (fst s), u)
       (Output (packet_of (protocol (fst s)) code i d')
        :: if code =? CONFACK then if decide (state (fst s) = ACKRCVD) then [ClearTimer; ThisLayerUp] else [] else [])) →
  does (answer_confreq i d) s Q.
Proof.
  intros HQ. unfold answer_confreq. apply does_get, does_bind.
  apply (does_mono _ _ (λ r s' l, l = [] ∧ fst s' = fst s ∧ (fst r = CONFACK ∨ fst r = CONFNAK ∨ fst r = CONFREJ)
     ∧ (fst r =? CONFACK) = verdict (fst s) (snd s) d)).
  { unfold verdict. destruct reqci as [g|] eqn:E.
    - apply does_run. pose proof (reqci_code g (snd s) d (maxnakloops (fst s) <=? nakloops (fst s)) E) as Hc.
      by destruct (g _ _ _) as [[code ci] u].
    - apply does_ret. cbn [fst]. rewrite bool_decide_decide.
      destruct (decide (d = [])); (split; [done|]; split; [done|]; split; [|done]); [by left|by do 2 right]. }
  intros [code ci] [f1 u1] ? (-> & E & Hc & Hv). cbn [fst snd] in E, Hc, Hv. subst f1.
  apply does_bind, does_sdata. intros d' _. apply does_get. cbn [fst snd].
  pose proof (λ u, HQ u code d' Hc Hv) as HQ'. unfold after_answer in HQ'.
  destruct (code =? CONFACK) eqn:Ec.
  - destruct (decide (state (fst s) = ACKRCVD)) as [Es|Es].
    + steps. apply HQ'.
    + steps. apply HQ'.
  - destruct (decide (state (fst s) = ACKRCVD)) as [Es|Es]; destruct (code =? CONFNAK); steps; apply HQ'.
Qed.

(** The answer shows the verdict. *)
Lemma rconfreq_shows i d f (u : U) :
  listening f →
  shows (fsm_rconfreq i d) (f, u) (expected (flags f) (if acceptable f u d then RCRplus else RCRminus) (state f)).
Proof.
  intros Hl. unfold shows, fsm_rconfreq, restart, acceptable. apply does_get. cbn [fst].
  destruct (state f) eqn:Es; try (by destruct Hl; auto); cbn [expected rfc1661 default rfc_rcr].
  1: { apply does_sdata. intros d' _. by destruct (verdict f u d). }
  2, 3: by destruct (verdict f u d).
  2-4: apply does_answer; intros u' code d' Hc Hv; cbn [fst snd] in Hv; rewrite <- Hv; unfold after_answer; cbn [fst snd];
    rewrite Es; destruct Hc as [->|[->| ->]]; done.
  - apply does_bind, does_sconfreq_fresh; [by cbn [fst]; rewrite Es|]. intros d1. cbv zeta. cbn [fst snd].
    apply does_bind, does_set_state, does_answer. intros u' code d' Hc Hv. revert Hv. unfold after_confreq. cbn [fst snd].
    rewrite Es. cbn. intros Hv.
    assert (Ev : (code =? CONFACK) = verdict (with_nakloops f 0) (requested u) d) by (rewrite Hv; done).
    rewrite <- Ev. destruct Hc as [->|[->| ->]]; done.
  - apply does_bind, does_bind, does_bind, does_tell, does_run, does_sconfreq_fresh; [by cbn [fst]; rewrite Es|].
    intros d1. cbv zeta. cbn [fst snd].
    apply does_answer. intros u' code d' Hc Hv. revert Hv. unfold after_confreq. cbn [fst snd].
    rewrite Es. cbn. intros Hv.
    assert (Ev : (code =? CONFACK) = verdict (with_nakloops f 0) (requested (default id down u)) d) by (rewrite Hv; done).
    rewrite <- Ev. destruct Hc as [->|[->| ->]]; cbn; rewrite ?Es; done.
Qed.

(** The questions to the protocol's routines. *)
Lemma does_ackci d s (Q : bool → fsm * U → list action → Prop) :
  (∀ u, Q (ack_accepted (snd s) d) (fst s, u) []) →
  does (match ackci with Some g => run (λ u, g u d) | None => mret (bool_decide (d = [])) end) s Q.
Proof.
  intros HQ. unfold ack_accepted in HQ.
  destruct ackci; [apply does_run, HQ|apply does_ret]. destruct s as [f u]. exact (HQ u).
Qed.

Lemma does_nakci code d s (Q : Z → fsm * U → list action → Prop) :
  (∀ u, Q (nak_result (snd s) code d) (fst s, u) []) →
  does (match (if code =? CONFNAK then nakci else rejci) with Some g => run (λ u, g u d) | None => mret 0 end) s Q.
Proof.
  intros HQ. unfold nak_result in HQ.
  destruct (if code =? CONFNAK then nakci else rejci); [apply does_run, HQ|apply does_ret]. destruct s as [f u]. exact (HQ u).
Qed.

Lemma does_extcode code i d s (Q : bool → fsm * U → list action → Prop) :
  (∀ u, Q (code_known (snd s) code i d) (fst s, u) []) →
  does (match extcode with Some g => run (λ u, g u code i d) | None => mret false end) s Q.
Proof.
  intros HQ. unfold code_known in HQ.
  destruct extcode; [apply does_run, HQ|apply does_ret]. destruct s as [f u]. exact (HQ u).
Qed.

Lemma rconfack_shows i d f (u : U) :
  listening f →
  shows (fsm_rconfack i d) (f, u)
    (if (i =? reqid f) && negb (seen_ack f) && ack_accepted u d then expected (flags f) RCA (state f) else ([], state f)).
Proof.
  intros Hl. unfold shows, fsm_rconfack. apply does_get. cbn [fst].
  destruct (i =? reqid f); [|done]. destruct (seen_ack f); [done|]. cbn [negb orb andb].
  apply does_bind, does_ackci. intros u'. cbn [fst snd]. destruct (ack_accepted u d); [|done]. cbn [negb].
  unfold restart. apply does_bind, does_set_fsm. cases f; try (by destruct Hl; auto); cbn; steps; done.
Qed.

Lemma rconfnakrej_shows code i d f (u : U) :
  listening f →
  shows (fsm_rconfnakrej code i d) (f, u)
    (let r := nak_result u code d in
     if negb ((i =? reqid f) && negb (seen_ack f)) || (r =? 0) then ([], state f)
     else expected (flags f) (if r <? 0 then RCNend else RCN) (state f)).
Proof.
  intros Hl. unfold shows, fsm_rconfnakrej. apply does_get. cbn [fst]. cbv zeta.
  destruct (i =? reqid f); [|done]. destruct (seen_ack f); [done|]. cbn [negb orb andb].
  apply does_bind, does_nakci. intros u'. cbn [fst snd]. destruct (nak_result u code d =? 0); [done|].
  unfold restart. apply does_bind, does_set_fsm. cases f; try (by destruct Hl; auto); cbn; steps; try done.
  all: by destruct (_ <? 0).
Qed.

Lemma reject_code_shows code i p len f (u : U) :
  listening f →
  shows (reject_code code i p len) (f, u)
    (if code_known u code i (slice p 4 (Z.to_nat (len - HEADERLEN))) then ([], state f)
     else expected (flags f) RUC (state f)).
Proof.
  intros Hl. unfold shows, reject_code. apply does_bind.
  apply does_extcode. intros u'. cbn [fst snd]. destruct (code_known _ _ _ _); [by apply does_ret|].
  cases f; try (by destruct Hl; auto); cbn; steps; done.
Qed.

(** What is shown, given the event of the standard. *)
Definition agrees (f : fsm) (out : list action) (f' : fsm) (e : option rfc_event) : Prop :=
  match e with
  | Some e => observe out = fst (expected (flags f) e (state f)) ∧ state f' = snd (expected (flags f) e (state f))
  | None => observe out = [] ∧ state f' = state f
  end.

Lemma input_shows p f (u : U) :
  does (fsm_input p) (f, u) (λ _ s' out, agrees f out (fst s') (packet_event f u p)).
Proof.
  unfold fsm_input, packet_event, proper_packet. cbv zeta. unfold HEADERLEN.
  destruct (Nat.leb_spec 4 (length p)) as [H4|H4].
  2: { rewrite (proj2 (Z.ltb_lt _ _)) by lia. done. }
  rewrite (proj2 (Z.ltb_ge (Z.of_nat (length p)) 4)) by lia. cbn [andb].
  destruct (Z.ltb_spec (get16 p 2) 4), (Z.leb_spec 4 (get16 p 2)); try lia; [done|].
  destruct (Z.ltb_spec (Z.of_nat (length p)) (get16 p 2)), (Z.leb_spec (get16 p 2) (Z.of_nat (length p))); try lia; [done|].
  cbn [orb andb negb]. apply does_get. cbn [fst].
  destruct (decide (state f = INITIAL ∨ state f = STARTING)) as [Hl|Hl].
  { by rewrite bool_decide_true by done. }
  rewrite bool_decide_false by done. fold (packet_data p). cbn [orb].
  destruct (_ =? CONFREQ); [by apply rconfreq_shows|].
  destruct (_ =? CONFACK).
  { eapply does_mono; [by apply rconfack_shows|]. intros ? s' l. unfold is_reply. by destruct (_ && _ && _). }
  destruct ((_ =? CONFNAK) || _).
  { eapply does_mono; [by apply rconfnakrej_shows|]. intros ? s' l. cbv zeta. unfold is_reply. by destruct (negb _ || _). }
  destruct (_ =? TERMREQ); [by apply rtermreq_shows|]. destruct (_ =? TERMACK); [by apply rtermack_shows|].
  destruct (_ =? CODEREJ).
  { eapply does_mono; [by apply rcoderej_shows|]. intros ? s' l. by destruct (4 <=? _)%nat. }
  eapply does_mono; [by apply reject_code_shows|]. intros ? s' l. fold (packet_data p). by destruct (code_known _ _ _ _).
Qed.

(** C8: the automaton is that of RFC 1661.  Every event in every state, for every
    packet, completes without overrunning the packet buffer, and the packets sent, the
    layers told, their order and the next state are those of the table of the
    standard, but for the entries that [expected] changes.  Which event a packet is
    follows from the packet, the automaton and the verdicts of the protocol's routines
    on its options; the routines are those of any protocol that answers with a
    Configure-Ack, Nak or Reject and lets the peer's MRU lie between the header and the
    size of the buffer. *)
Theorem fsm_follows_rfc1661 e f (u : U) :
  ∃ f' u' out, fsm_step e (f, u) = Ok ((), (f', u'), out) ∧ agrees f out f' (rfc_event_of e f u).
Proof.
  assert (Hs : does (fsm_step e) (f, u) (λ _ s' out, agrees f out (fst s') (rfc_event_of e f u))).
  { destruct e; cbn [fsm_step rfc_event_of].
    - apply lowerup_shows. - apply lowerdown_shows. - apply open_shows. - apply close_shows.
    - apply timeout_shows. - apply input_shows. - apply protreject_shows. }
  unfold does in Hs. destruct (fsm_step e (f, u)) as [[[[] [f' u']] out]| |]; [|done|done].
  exists f', u', out. done.
Qed.
End rfc.
