(* ===== verification/PppFsmRun.v ===== *)
(** * The automaton of PPP: its timer, and two of them together *)

From stdpp Require Import base numbers list.
From S2P Require Import Prelude Bytes PppFsm PppFsmProps.

(** ** The timer *)

(** How many calls of [fsm_timeout] are due: each [TIMEOUT] adds one, [UNTIMEOUT] removes
    them all. *)
Definition set_or_clear (n : nat) (a : action) : nat :=
  match a with SetTimer _ => S n | ClearTimer => O | _ => n end.
Definition pending (n : nat) (out : list action) : nat := foldl set_or_clear n out.

(** The states in which something is awaited. *)
Definition waiting (v : link_state) : bool :=
  match v with CLOSING | STOPPING | REQSENT | ACKRCVD | ACKSENT => true | _ => false end.

(** A Terminate-Ack for a link that is open. *)
Definition stray (e : event) (f : fsm) : bool :=
  match e with
  | Received p => proper_packet p && ((p !!! 0%nat) =? TERMACK) && bool_decide (state f = OPENED)
  | _ => false
  end.

Section timer.
Context `{Callbacks U} `{!CallbacksOk U}.

(** From a waiting state a timer stays or is set; and from one timer exactly there is
    again one exactly, or none. *)
Definition keeps_timer (v v' : link_state) (out : list action) : Prop :=
  waiting v' = true → ∀ n, (waiting v = true → (0 < n)%nat) → (0 < pending n out)%nat.
Definition one_timer (v v' : link_state) (out : list action) : Prop :=
  pending (Nat.b2n (waiting v)) out = Nat.b2n (waiting v').

Definition timed (m : prog ()) (s : fsm * U) : Prop :=
  does m s (λ _ s' out, keeps_timer (state (fst s)) (state (fst s')) out ∧ one_timer (state (fst s)) (state (fst s')) out).

(** A handler of a timer that has just been removed. *)
Definition timed_out (m : prog ()) (s : fsm * U) : Prop :=
  does m s (λ _ s' out,
    (waiting (state (fst s')) = true → waiting (state (fst s)) = true ∧ ∀ n, (0 < pending n out)%nat)
    ∧ (waiting (state (fst s)) = true → pending 0 out = Nat.b2n (waiting (state (fst s'))))).

Ltac timer_done := unfold keeps_timer, one_timer, pending; cbn; split; intros; first [done | lia | tauto | solve [auto with lia]].
Ltac cases f :=
  let v := fresh "v" in destruct f as [? v [? ? ?] ? ? ? ? ? ? ? ? ? ?];
  cbn [protocol state flags fsm_id reqid seen_ack timeouttime maxconfreqtransmits retransmits maxtermtransmits
       nakloops maxnakloops term_reason] in *;
  destruct v.

Lemma timeout_timed f u : timed_out fsm_timeout (f, u).
Proof. unfold timed_out, fsm_timeout. cases f; cbn; steps; unfold pending; cbn; (split; intros; [first [done | split; [done|intros; lia]]|done]). Qed.

Lemma lowerup_timed f u : timed fsm_lowerup (f, u).
Proof. unfold timed, fsm_lowerup. cases f; cbn; steps; timer_done. Qed.
Lemma lowerdown_timed f u : timed fsm_lowerdown (f, u).
Proof. unfold timed, fsm_lowerdown. cases f; cbn; steps; timer_done. Qed.
Lemma open_timed f u : timed fsm_open (f, u).
Proof. unfold timed, fsm_open, reopen, fsm_lowerdown, fsm_lowerup. cases f; cbn; steps; timer_done. Qed.
Lemma close_timed reason f u : timed (fsm_close reason) (f, u).
Proof. unfold timed, fsm_close. cases f; cbn; steps; timer_done. Qed.
Lemma protreject_timed f u : timed fsm_protreject (f, u).
Proof. unfold timed, fsm_protreject. cases f; cbn; steps; timer_done. Qed.
Lemma rtermreq_timed i f u : timed (fsm_rtermreq i) (f, u).
Proof. unfold timed, fsm_rtermreq. cases f; cbn; steps; timer_done. Qed.
Lemma rcoderej_timed d f u : timed (fsm_rcoderej d) (f, u).
Proof. unfold timed, fsm_rcoderej. cases f; cbn; steps; timer_done. Qed.

Lemma rconfreq_timed i d f u : listening f → timed (fsm_rconfreq i d) (f, u).
Proof.
  intros Hl. unfold timed, fsm_rconfreq, restart. cases f; try (by destruct Hl; auto); cbn; steps; try timer_done.
  all: apply does_answer; intros ? code ? Hc _; destruct Hc as [->|[->| ->]];
    unfold after_answer; cbn; repeat destruct (decide _); try done; timer_done.
Qed.

Lemma rconfack_timed i d f u : timed (fsm_rconfack i d) (f, u).
Proof.
  unfold timed, fsm_rconfack, restart. apply does_get. destruct (negb _ || _); [steps; timer_done|].
  apply does_bind, does_ackci. intros u'. destruct (negb _); [steps; timer_done|]. cbn [fst snd].
  apply does_bind, does_set_fsm. cases f; cbn; steps; timer_done.
Qed.

Lemma rconfnakrej_timed code i d f u : timed (fsm_rconfnakrej code i d) (f, u).
Proof.
  unfold timed, fsm_rconfnakrej, restart. apply does_get. destruct (negb _ || _); [steps; timer_done|].
  apply does_bind, does_nakci. intros u'. destruct (_ =? 0); [steps; timer_done|]. cbn [fst snd].
  apply does_bind, does_set_fsm. cases f; cbn; steps; timer_done.
Qed.

Lemma reject_code_timed code i p len f u : timed (reject_code code i p len) (f, u).
Proof.
  unfold timed, reject_code. apply does_bind, does_extcode. intros u'. destruct (code_known _ _ _ _); steps; timer_done.
Qed.

Lemma rtermack_kept f u :
  does fsm_rtermack (f, u) (λ _ s' out,
    keeps_timer (state f) (state (fst s')) out ∧ (state f = OPENED ∨ one_timer (state f) (state (fst s')) out)).
Proof.
  unfold fsm_rtermack, restart. cases f; cbn; steps; unfold keeps_timer, one_timer, pending; cbn; split; intros;
    first [done | lia | right; done | left; done | solve [auto with lia]].
Qed.

(** The same for every event; a stray Terminate-Ack may leave a timer behind. *)
Definition mostly_timed (stray : bool) (m : prog ()) (s : fsm * U) : Prop :=
  does m s (λ _ s' out, keeps_timer (state (fst s)) (state (fst s')) out
    ∧ (stray = true ∨ one_timer (state (fst s)) (state (fst s')) out)).

Lemma timed_mostly b m s : timed m s → mostly_timed b m s.
Proof. intros Ht. eapply does_mono; [exact Ht|]. intros ? ? ? [H1 H2]. auto. Qed.

Lemma input_timed p f u : mostly_timed (stray (Received p) f) (fsm_input p) (f, u).
Proof.
  assert (Hn : timed (mret ()) (f, u)) by (by apply does_ret; timer_done).
  unfold fsm_input, stray, proper_packet. cbv zeta. unfold HEADERLEN.
  destruct (Nat.leb_spec 4 (length p)) as [H4|H4].
  2: { rewrite (proj2 (Z.ltb_lt _ _)) by lia. by apply timed_mostly. }
  rewrite (proj2 (Z.ltb_ge (Z.of_nat (length p)) 4)) by lia. cbn [andb].
  destruct (Z.ltb_spec (get16 p 2) 4), (Z.leb_spec 4 (get16 p 2)); try lia; [by apply timed_mostly|].
  destruct (Z.ltb_spec (Z.of_nat (length p)) (get16 p 2)), (Z.leb_spec (get16 p 2) (Z.of_nat (length p))); try lia;
    [by apply timed_mostly|].
  cbn [orb andb]. apply does_get. cbn [fst].
  destruct (decide (state f = INITIAL ∨ state f = STARTING)); [by apply timed_mostly|].
  destruct (_ =? CONFREQ); [by apply timed_mostly, rconfreq_timed|].
  destruct (_ =? CONFACK); [apply timed_mostly, rconfack_timed|].
  destruct ((_ =? CONFNAK) || _); [apply timed_mostly, rconfnakrej_timed|].
  destruct (_ =? TERMREQ); [apply timed_mostly, rtermreq_timed|]. destruct (_ =? TERMACK).
  { eapply does_mono; [apply rtermack_kept|]. intros ? s' l [K1 [K2|K2]]; (split; [exact K1|]); [left|by right].
    by rewrite bool_decide_true. }
  destruct (_ =? CODEREJ); [apply timed_mostly, rcoderej_timed|apply timed_mostly, reject_code_timed].
Qed.

Lemma step_timed e f u : e ≠ TimerExpired → mostly_timed (stray e f) (fsm_step e) (f, u).
Proof.
  intros He. destruct e; cbn [fsm_step]; try (by apply input_timed); try done; apply timed_mostly.
  - apply lowerup_timed. - apply lowerdown_timed. - apply open_timed. - apply close_timed. - apply protreject_timed.
Qed.

(** ** Runs *)

(** The automaton, the protocol's state, the number of calls of [fsm_timeout] that are
    due, and whether there was no stray Terminate-Ack so far.  Between two events the
    protocol may change what it likes but the state. *)
Inductive reached : bool → fsm → U → nat → Prop :=
| reached_init f u : state f = INITIAL → reached true f u 0
| reached_change b f u f' u' n : reached b f u n → state f' = state f → reached b f' u' n
| reached_event b f u n e f' u' out :
    reached b f u n → e ≠ TimerExpired → fsm_step e (f, u) = Ok ((), (f', u'), out) →
    reached (b && negb (stray e f)) f' u' (pending n out)
| reached_timer b f u n f' u' out :
    reached b f u (S n) → fsm_step TimerExpired (f, u) = Ok ((), (f', u'), out) →
    reached b f' u' (pending n out).

(** C23: the automaton never waits without a timer, and, as long as no Terminate-Ack has
    arrived for an open link, it has one timer while it waits and none otherwise (the
    [UNTIMEOUT] of the code removes all of them, so that none fires late). *)
Theorem fsm_timer_invariant b f u n (Hr : reached b f u n) :
  (waiting (state f) = true → (0 < n)%nat) ∧ (b = true → n = Nat.b2n (waiting (state f))).
Proof.
  induction Hr as [f u E|b f u f' u' n Hr IH E|b f u n e f' u' out Hr [IH1 IH2] He E|b f u n f' u' out Hr [IH1 IH2] E].
  - by rewrite E.
  - by rewrite E.
  - pose proof (step_timed e f u He) as Ht. unfold mostly_timed, does in Ht. rewrite E in Ht. cbn [fst] in Ht.
    destruct Ht as [H1 H2]. split; [intros Hw; by apply H1|]. intros Hb. apply andb_true_iff in Hb as [Hb Hs].
    destruct H2 as [H2|H2]; [by rewrite H2 in Hs|]. by rewrite (IH2 Hb).
  - pose proof (timeout_timed f u) as Ht. unfold timed_out, does in Ht. cbn [fsm_step] in E. rewrite E in Ht.
    cbn [fst] in Ht. destruct Ht as [H1 H2]. split; [intros Hw; by apply H1|]. intros Hb. specialize (IH2 Hb).
    destruct (waiting (state f)) eqn:Ew; [|done]. injection IH2 as ->. by apply H2.
Qed.

(** *** Nobody answers *)

Definition expirations (k : nat) : prog () := Nat.iter k (λ m, _ ← fsm_timeout; m) (mret ()).

Definition sends (out : list action) : nat := length (List.filter (λ a, match a with Output _ => true | _ => false end) out).

Definition end_state (v : link_state) : link_state := match v with CLOSING => CLOSED | _ => STOPPED end.

Lemma timeout_decreases f u :
  waiting (state f) = true → 0 < retransmits f →
  does fsm_timeout (f, u) (λ _ s' out, waiting (state (fst s')) = true ∧ end_state (state (fst s')) = end_state (state f)
    ∧ retransmits (fst s') = retransmits f - 1 ∧ sends out = 1%nat ∧ flags (fst s') = flags f
    ∧ negotiating (state (fst s')) = negotiating (state f)).
Proof.
  intros Hw Hr. unfold fsm_timeout. apply does_get. cbn [fst]. rewrite (proj2 (Z.leb_gt _ _)) by done.
  cases f; try done; cbn; steps; done.
Qed.

Lemma timeout_ends f u :
  waiting (state f) = true → retransmits f ≤ 0 →
  does fsm_timeout (f, u) (λ _ s' out, state (fst s') = end_state (state f) ∧ sends out = 0%nat
    ∧ (negotiating (state f) && opt_passive (flags f) = false → ThisLayerFinished ∈ out)).
Proof.
  intros Hw Hr. unfold fsm_timeout. apply does_get. cbn [fst]. rewrite (proj2 (Z.leb_le _ _)) by done.
  cases f; try done; cbn; steps; (split_and!; [done|done|intros; first [done|by left]]).
Qed.
Lemma sends_app l l' : sends (l ++ l') = (sends l + sends l')%nat.
Proof. unfold sends. by rewrite List.filter_app, length_app. Qed.

Lemma expirations_end k f u :
  waiting (state f) = true → k = Z.to_nat (retransmits f) →
  does (expirations (S k)) (f, u) (λ _ s' out, state (fst s') = end_state (state f) ∧ sends out = k
    ∧ (negotiating (state f) && opt_passive (flags f) = false → ThisLayerFinished ∈ out)).
Proof.
  revert f u. induction k as [|k IH]; intros f u Hw Hk; apply does_bind.
  - eapply does_mono; [apply timeout_ends; [done|lia]|]. intros ? s' l (E1 & E2 & E3). apply does_ret.
    rewrite app_nil_r. auto.
  - eapply does_mono; [apply timeout_decreases; [done|lia]|]. intros ? [f' u'] l (W & E & R & S1 & F & N). cbn [fst] in *.
    eapply does_mono; [apply (IH f' u'); [done|lia]|]. intros ? s' l' (E1 & E2 & E3). rewrite <- E, <- N, <- F, sends_app, S1, E2.
    split; [done|]. split; [done|]. intros Hn. apply elem_of_app. right. auto.
Qed.

(** C29: when nobody answers, the automaton gives up: after as many packets as the counter
    allows it ends in CLOSED, if it was closing, or STOPPED, and the layer below is
    told that it has finished, except for a passive negotiation. *)
Theorem fsm_gives_up f u (Hw : waiting (state f) = true) (Hr : 0 ≤ retransmits f) :
  ∃ f' u' out, expirations (S (Z.to_nat (retransmits f))) (f, u) = Ok ((), (f', u'), out)
    ∧ state f' = match state f with CLOSING => CLOSED | _ => STOPPED end
    ∧ Z.of_nat (sends out) = retransmits f
    ∧ (negotiating (state f) && opt_passive (flags f) = false → ThisLayerFinished ∈ out).
Proof.
  pose proof (expirations_end _ f u Hw eq_refl) as Hs. unfold does in Hs.
  destruct (expirations _ (f, u)) as [[[[] [f' u']] out]| |]; [|done|done]. destruct Hs as (E1 & E2 & E3).
  exists f', u', out. split; [done|]. split; [done|]. split; [lia|done].
Qed.
End timer.
