(* ===== verification/PppFsmLink.v ===== *)
(** * Two automata of PPP on a link

    Both sides have started; the packets of each arrive at the other in their order,
    before a timer expires.  Whatever the order of the arrivals on the two sides, the
    link is open after four of them. *)

From stdpp Require Import base numbers list relations.
From S2P Require Import Prelude Bytes PppFsm PppFsmProps PppFsmRun.

(** ** The link *)

(** The address, the control byte and the protocol are taken off on the way. *)
Definition transmitted (out : list action) : list bytes :=
  out ≫= λ a, match a with Output p => [drop 4 p] | _ => [] end.

Record link (U : Type) := mk_link { here : fsm * U; there : fsm * U; to_there : list bytes; to_here : list bytes }.
Arguments mk_link {U} _ _ _ _.
Arguments here {U} _.
Arguments there {U} _.
Arguments to_there {U} _.
Arguments to_here {U} _.

Section link.
Context `{Callbacks U}.

Inductive deliver : link U → link U → Prop :=
| deliver_there a b p q q' b' out :
    fsm_input p b = Ok ((), b', out) → deliver (mk_link a b (p :: q) q') (mk_link a b' q (q' ++ transmitted out))
| deliver_here a b p q q' a' out :
    fsm_input p a = Ok ((), a', out) → deliver (mk_link a b q (p :: q')) (mk_link a' b (q ++ transmitted out) q').

(** Both layers below have come up. *)
Inductive started : link U → Prop :=
| started_link a0 b0 a b out_a out_b :
    state (fst a0) = STARTING → opt_silent (flags (fst a0)) = false → fsm_lowerup a0 = Ok ((), a, out_a) →
    state (fst b0) = STARTING → opt_silent (flags (fst b0)) = false → fsm_lowerup b0 = Ok ((), b, out_b) →
    started (mk_link a b (transmitted out_a) (transmitted out_b)).

(** Two sides that agree: there are options, short enough for every peer, that each side
    asks for, that each acknowledges as they are, and whose acknowledgement each takes. *)
Class Agreeable (fine : bytes → Prop) : Prop := {
  fine_none : fine [];
  fine_short : ∀ d, fine d → (length d ≤ 124)%nat;
  fine_mru : ∀ u, 128 ≤ peer_mru u;
  fine_asked : ∀ g u n, addci = Some g → fine (fst (g u n));
  fine_answer : ∃ g, reqci = Some g ∧ ∀ u d b, fine d → fst (g u d b) = (CONFACK, d);
  fine_ack : ∀ u d, fine d → ack_accepted u d = true }.

Context `{!CallbacksOk U} (fine : bytes → Prop) `{!Agreeable fine}.

(** ** Packets *)

Definition wire (code i : Z) (d : bytes) : bytes :=
  [u8 code; u8 i] ++ be_bytes 2 (Z.of_nat (length d) + HEADERLEN) ++ d.

Lemma wire_of prot code i d : drop 4 (packet_of prot code i d) = wire code i d.
Proof. done. Qed.

Lemma wire_length code i d : length (wire code i d) = (4 + length d)%nat.
Proof. unfold wire. rewrite !length_app, length_be_bytes. cbn. lia. Qed.

Lemma wire_get16 code i d : (length d ≤ 124)%nat → get16 (wire code i d) 2 = Z.of_nat (length d) + 4.
Proof.
  intros Hl. change (be_val (be_bytes 2 (Z.of_nat (length d) + HEADERLEN)) = Z.of_nat (length d) + 4).
  rewrite be_val_bytes. apply Z.mod_small. unfold HEADERLEN. cbn. lia.
Qed.

Lemma wire_data code i d : slice (wire code i d) 4 (Z.to_nat (Z.of_nat (length d) + 4 - 4)) = d.
Proof.
  unfold slice, wire. rewrite app_assoc, drop_app_length' by (by rewrite length_app, length_be_bytes).
  apply take_ge. lia.
Qed.

(** A packet of the link is looked at. *)
Lemma does_wire code i d s Q :
  is_u8 code → is_u8 i → (length d ≤ 124)%nat → listening (fst s) →
  does (if code =? CONFREQ then fsm_rconfreq i d
        else if code =? CONFACK then fsm_rconfack i d
        else if (code =? CONFNAK) || (code =? CONFREJ) then fsm_rconfnakrej code i d
        else if code =? TERMREQ then fsm_rtermreq i
        else if code =? TERMACK then fsm_rtermack
        else if code =? CODEREJ then fsm_rcoderej d
        else reject_code code i (wire code i d) (Z.of_nat (length d) + 4)) s Q →
  does (fsm_input (wire code i d)) s Q.
Proof.
  intros Hc Hi Hl Hs HQ. unfold fsm_input. rewrite wire_get16, wire_length by done. cbv zeta.
  unfold HEADERLEN. rewrite !(proj2 (Z.ltb_ge _ _)) by lia. cbn [orb]. apply does_get.
  rewrite decide_False by exact Hs. rewrite wire_data.
  replace (wire code i d !!! 0%nat) with code by (by cbn; rewrite u8_id).
  replace (wire code i d !!! 1%nat) with i by (by cbn; rewrite u8_id). exact HQ.
Qed.

(** ** A side of the link *)

(** It has its request out with the number [i], and has got the peer's request, and the
    acknowledgement of its own. *)
Definition side_state (req ack : bool) : link_state :=
  if req then if ack then OPENED else ACKSENT else REQSENT.
Definition side (req ack : bool) (i : Z) (s : fsm * U) : Prop :=
  state (fst s) = side_state req ack ∧ reqid (fst s) = i ∧ is_u8 i ∧ (ack = false → seen_ack (fst s) = false).

Lemma fine_sent d u : fine d → take (Z.to_nat (peer_mru u - HEADERLEN)) d = d.
Proof. intros Hd. apply take_ge. pose proof (fine_short d Hd). pose proof (fine_mru u). unfold HEADERLEN. lia. Qed.

Lemma options_fine s :
  does request_options s (λ d s' l, l = [] ∧ fst s' = fst s ∧ fine (take (Z.to_nat (peer_mru (snd s') - HEADERLEN)) d)).
Proof.
  assert (H0 : does (mret []) s (λ d s' l, l = [] ∧ fst s' = fst s ∧ fine (take (Z.to_nat (peer_mru (snd s') - HEADERLEN)) d))).
  { apply does_ret. rewrite take_nil. split; [done|]. split; [done|apply fine_none]. }
  unfold request_options. destruct cilen as [c|]; [|done]. destruct addci as [g|] eqn:E; [|done].
  apply does_run. split; [done|]. split; [done|]. rewrite fine_sent; by apply fine_asked.
Qed.

(** The start. *)
Lemma lowerup_sends s :
  state (fst s) = STARTING → opt_silent (flags (fst s)) = false →
  does fsm_lowerup s (λ _ s' out, ∃ i d, side false false i s' ∧ fine d ∧ transmitted out = [wire CONFREQ i d]).
Proof.
  intros Hs Ho. unfold fsm_lowerup. apply does_get. rewrite Hs, Ho. apply does_bind, (does_sconfreq_data fine).
  { apply options_fine. }
  intros u d f Hd. apply does_set_state. exists (reqid f), d. split_and!; [|done|done].
  unfold f, after_confreq, side. rewrite Hs. cbn. split_and!; auto with wbr.
Qed.

(** The peer's request is acknowledged. *)
Lemma request_arrives i j d s :
  side false false i s → is_u8 j → fine d →
  does (fsm_input (wire CONFREQ j d)) s (λ _ s' out, side true false i s' ∧ transmitted out = [wire CONFACK j d]).
Proof.
  intros (Hs & Hi & Hu & Hk) Hj Hd. apply does_wire; [done|done|by apply fine_short| |].
  { intros [E|E]; by rewrite Hs in E. }
  cbn [Z.eqb CONFREQ Pos.eqb]. unfold fsm_rconfreq. apply does_get. rewrite Hs. cbn [side_state].
  unfold answer_confreq. apply does_get. destruct fine_answer as (g & -> & Hg). apply does_bind, does_run.
  specialize (Hg (snd s) d (maxnakloops (fst s) <=? nakloops (fst s)) Hd).
  destruct (g _ _ _) as [[code ci] u]. cbn [fst snd] in *. injection Hg as -> ->.
  apply does_bind, does_sdata. cbn [fst snd]. intros d' ->. rewrite fine_sent by done. apply does_get. cbn [fst].
  cbn [Z.eqb CONFACK Pos.eqb]. rewrite Hs. cbn [side_state].
  rewrite decide_False by done. steps. split; [|done]. split_and!; auto.
Qed.

(** The acknowledgement of its own request opens it. *)
Lemma ack_arrives i d s :
  side true false i s → fine d →
  does (fsm_input (wire CONFACK i d)) s (λ _ s' out, side true true i s' ∧ transmitted out = []).
Proof.
  intros (Hs & Hi & Hu & Hk) Hd. apply does_wire; [done|done|by apply fine_short| |].
  { intros [E|E]; by rewrite Hs in E. }
  cbn [Z.eqb CONFACK CONFREQ Pos.eqb]. unfold fsm_rconfack. apply does_get. rewrite Hi, Z.eqb_refl, (Hk eq_refl).
  cbn [negb orb]. apply does_bind, does_ackci. intros u. rewrite fine_ack by done. cbn [negb].
  apply does_bind, does_set_fsm. rewrite Hs. cbn [side_state]. steps. split; [|done]. split_and!; done.
Qed.

(** ** The link as a whole *)

(** Which requests and which acknowledgements have arrived: [ra] and [ka] the request of
    this side and the acknowledgement of it, [rb] and [kb] those of the other side. *)
Definition joined (ra rb ka kb : bool) (l : link U) : Prop :=
  ∃ ia ib da db, side rb ka ia (here l) ∧ side ra kb ib (there l) ∧ fine da ∧ fine db
    ∧ to_there l = (if ra then [] else [wire CONFREQ ia da]) ++ (if rb then if kb then [] else [wire CONFACK ib db] else [])
    ∧ to_here l = (if rb then [] else [wire CONFREQ ib db]) ++ (if ra then if ka then [] else [wire CONFACK ia da] else [])
    ∧ (ka || kb = true → ra = true ∧ rb = true).

Definition arrived (ra rb ka kb : bool) : nat := Nat.b2n ra + Nat.b2n rb + Nat.b2n ka + Nat.b2n kb.

Definition swap (l : link U) : link U := mk_link (there l) (here l) (to_here l) (to_there l).

Lemma joined_swap ra rb ka kb l : joined ra rb ka kb l → joined rb ra kb ka (swap l).
Proof.
  intros (ia & ib & da & db & Ha & Hb & Fa & Fb & E1 & E2 & Hk). exists ib, ia, db, da. cbn. split_and!; try done.
  intros Hkb. rewrite orb_comm in Hkb. apply Hk in Hkb. tauto.
Qed.

(** One packet arrives on the other side. *)
Lemma arrives_there ra rb ka kb l p q :
  joined ra rb ka kb l → to_there l = p :: q →
  does (fsm_input p) (there l) (λ _ b' out, ∃ ra' kb',
    joined ra' rb ka kb' (mk_link (here l) b' q (to_here l ++ transmitted out))
    ∧ arrived ra' rb ka kb' = S (arrived ra rb ka kb)).
Proof.
  intros (ia & ib & da & db & Ha & Hb & Fa & Fb & E1 & E2 & Hk) Ep. rewrite Ep in E1.
  pose proof Ha as (_ & _ & Hua & _). destruct ra; cbn [app] in E1.
  - destruct rb; [|done]. destruct kb; [done|]. injection E1 as -> ->.
    eapply does_mono; [by apply ack_arrives|]. intros ? b' out [Hb' Ho]. exists true, true.
    split; [|unfold arrived; cbn; lia]. exists ia, ib, da, db. rewrite Ho, app_nil_r. by split_and!.
  - destruct kb; [by destruct Hk as [? _]; [apply orb_true_r|]|].
    destruct ka; [by destruct Hk|]. injection E1 as -> Eq.
    eapply does_mono; [by apply request_arrives|]. intros ? b' out [Hb' Ho]. exists true, false.
    split; [|unfold arrived; cbn; lia]. exists ia, ib, da, db. cbn [here there to_there to_here].
    rewrite Ho, E2, Eq, app_nil_r. by split_and!.
Qed.

Lemma deliver_joined ra rb ka kb l l' :
  joined ra rb ka kb l → deliver l l' →
  ∃ ra' rb' ka' kb', joined ra' rb' ka' kb' l' ∧ arrived ra' rb' ka' kb' = S (arrived ra rb ka kb).
Proof.
  intros Hj Hd. inversion Hd as [a b p q q' b' out E|a b p q q' a' out E]; subst.
  - pose proof (arrives_there _ _ _ _ _ p q Hj eq_refl) as Ht. unfold does in Ht. cbn [there] in Ht. rewrite E in Ht.
    destruct Ht as (ra' & kb' & ? & ?). by exists ra', rb, ka, kb'.
  - pose proof (arrives_there _ _ _ _ _ p q' (joined_swap _ _ _ _ _ Hj) eq_refl) as Ht.
    unfold does in Ht. cbn [swap here there] in Ht. rewrite E in Ht.
    destruct Ht as (rb' & ka' & Hj' & Hn). exists ra, rb', ka', kb. split; [exact (joined_swap _ _ _ _ _ Hj')|].
    unfold arrived in *. lia.
Qed.

Lemma joined_goes_on ra rb ka kb l : joined ra rb ka kb l → (arrived ra rb ka kb < 4)%nat → ∃ l', deliver l l'.
Proof.
  intros Hj Hn. destruct (to_there l) as [|p q] eqn:E1.
  - destruct (to_here l) as [|p q] eqn:E2.
    + exfalso. destruct Hj as (ia & ib & da & db & _ & _ & _ & _ & H1 & H2 & _). rewrite H1 in E1. rewrite H2 in E2.
      destruct ra, rb; try done. destruct ka, kb; done || (unfold arrived in Hn; cbn in Hn; lia).
    + pose proof (arrives_there _ _ _ _ _ p q (joined_swap _ _ _ _ _ Hj) E2) as Ht. unfold does in Ht.
      destruct (fsm_input p (there (swap l))) as [[[[] a'] out]| |] eqn:Ei; [|done|done].
      destruct l as [a b qa qb]. cbn in *. subst. eexists. by eapply deliver_here.
  - pose proof (arrives_there _ _ _ _ _ p q Hj E1) as Ht. unfold does in Ht.
    destruct (fsm_input p (there l)) as [[[[] b'] out]| |] eqn:Ei; [|done|done].
    destruct l as [a b qa qb]. cbn in *. subst. eexists. by eapply deliver_there.
Qed.

Lemma started_joined l : started l → joined false false false false l.
Proof.
  intros [a0 b0 a b oa ob Ha1 Ha2 Ea Hb1 Hb2 Eb].
  pose proof (lowerup_sends a0 Ha1 Ha2) as Ha. pose proof (lowerup_sends b0 Hb1 Hb2) as Hb. unfold does in Ha, Hb.
  rewrite Ea in Ha. rewrite Eb in Hb. destruct Ha as (ia & da & Sa & Fa & Ta), Hb as (ib & db & Sb & Fb & Tb).
  exists ia, ib, da, db. cbn. rewrite Ta, Tb. by split_and!.
Qed.

Lemma nsteps_joined n l l' :
  joined false false false false l → nsteps deliver n l l' →
  ∃ ra rb ka kb, joined ra rb ka kb l' ∧ arrived ra rb ka kb = n.
Proof.
  intros Hj Hn. revert l' Hn. induction n as [|n IH]; intros l' Hn.
  - inversion Hn; subst. by exists false, false, false, false.
  - apply nsteps_inv_r in Hn as (l1 & Hn & Hd). destruct (IH l1 Hn) as (ra & rb & ka & kb & Hj1 & <-).
    destruct (deliver_joined _ _ _ _ _ _ Hj1 Hd) as (ra' & rb' & ka' & kb' & ? & ?). by exists ra', rb', ka', kb'.
Qed.

(** C18: two sides that agree open the link: from the moment both have sent their
    requests there are four arrivals, in whatever order they come on the two sides, no
    run stops before, and then both automata are OPENED and no packet is on the way. *)
Theorem fsm_handshake l n l' (Hs : started l) (Hn : nsteps deliver n l l') :
  (n ≤ 4)%nat ∧ ((n < 4)%nat → ∃ l2, deliver l' l2)
  ∧ (n = 4%nat → state (fst (here l')) = OPENED ∧ state (fst (there l')) = OPENED ∧ to_there l' = [] ∧ to_here l' = []).
Proof.
  destruct (nsteps_joined n l l' (started_joined l Hs) Hn) as (ra & rb & ka & kb & Hj & <-). split_and!.
  - unfold arrived. destruct ra, rb, ka, kb; cbn; lia.
  - apply joined_goes_on, Hj.
  - intros E. destruct ra, rb, ka, kb; try discriminate. destruct Hj as (ia & ib & da & db & (-> & _) & (-> & _) & _ & _ & -> & -> & _).
    done.
Qed.
End link.

(** ** The automaton of PPP with a concrete protocol: witnesses and flaws *)

(** The only option is an MRU of 1500; other requests are rejected.  The state is the
    peer's MRU. *)
Definition demo_options : bytes := [1; 4; 5; 220].
Definition demo_fine (d : bytes) : Prop := d ∈ [[]; demo_options].
#[local] Instance demo_fine_dec d : Decision (demo_fine d) := _.

Definition demo_callbacks (mru : Z → Z) : Callbacks Z := {|
  peer_mru := mru;
  resetci := Some (λ u, u);
  cilen := Some (λ _, 4);
  addci := Some (λ u _, (demo_options, u));
  ackci := Some (λ u d, (bool_decide (demo_fine d), u));
  nakci := None;
  rejci := Some (λ u _, (-1, u));
  reqci := Some (λ u d _, (if decide (demo_fine d) then CONFACK else CONFREJ, d, u));
  up := None; down := None; starting := None; finished := None; retransmit := None; extcode := None |}.

#[local] Instance demo : Callbacks Z := demo_callbacks (λ u, Z.max 128 (Z.min 1500 u)).

#[local] Instance demo_ok : CallbacksOk Z.
Proof.
  constructor; cbn.
  - intros u. unfold HEADERLEN, PPP_MRU. lia.
  - intros g u d b [= <-]. case_decide; auto.
Qed.

#[local] Instance demo_agreeable : Agreeable demo_fine.
Proof.
  constructor; cbn.
  - by left.
  - intros d Hd. apply list_elem_of_In in Hd as [<-|[<-|[]]]; cbn; lia.
  - intros u. lia.
  - intros g u n [= <-]. by right; left.
  - eexists. split; [done|]. intros u d b Hd. cbn. by rewrite decide_True.
  - intros u d Hd. by apply bool_decide_true.
Qed.

Definition demo_fsm (v : link_state) : fsm :=
  mk_fsm 0xc021 v (mk_flags false false false) 7 7 false 3 10 10 2 0 5 [].

Definition after {U} (m : res (() * (fsm * U) * list action)) (d : fsm * U) : fsm * U :=
  match m with Ok (_, s, _) => s | _ => d end.
Definition shown {U} (m : res (() * (fsm * U) * list action)) : list action :=
  match m with Ok (_, _, l) => l | _ => [] end.
Definition state_after {U} (m : res (() * (fsm * U) * list action)) : option link_state :=
  match m with Ok (_, (f, _), _) => Some (state f) | _ => None end.

(** ** Witnesses *)

(** A Configure-Ack in ACKSENT opens the link. *)
Definition ack_packet : bytes := wire CONFACK 7 demo_options.

Lemma fsm_follows_rfc1661_witness :
  (∃ f' u' out, fsm_step (Received ack_packet) (demo_fsm ACKSENT, 1500) = Ok ((), (f', u'), out)
     ∧ agrees (demo_fsm ACKSENT) out f' (Some RCA))
  ∧ expected (flags (demo_fsm ACKSENT)) RCA ACKSENT = ([Tlu], OPENED).
Proof.
  split; [|done].
  destruct (fsm_follows_rfc1661 (Received ack_packet) (demo_fsm ACKSENT) 1500) as (f' & u' & out & E & A).
  exists f', u', out. split; [exact E|]. exact A.
Defined.

(** Two events after the start. *)
Lemma demo_reached :
  let s1 := after (fsm_step OpenLink (demo_fsm INITIAL, 1500)) (demo_fsm INITIAL, 0) in
  let s2 := after (fsm_step LowerUp s1) s1 in
  reached true (fst s2) (snd s2) 1.
Proof.
  intros s1 s2.
  assert (E1 : fsm_step OpenLink (demo_fsm INITIAL, 1500) = Ok ((), (fst s1, snd s1), shown (fsm_step OpenLink (demo_fsm INITIAL, 1500)))) by done.
  assert (E2 : fsm_step LowerUp (fst s1, snd s1) = Ok ((), (fst s2, snd s2), shown (fsm_step LowerUp s1))) by (by vm_compute).
  assert (H1 : reached true (fst s1) (snd s1) 0).
  { refine (reached_event true _ _ 0 _ _ _ _ (reached_init (demo_fsm INITIAL) 1500 eq_refl) _ E1). discriminate. }
  refine (reached_event true _ _ 0 _ _ _ _ H1 _ E2). discriminate.
Qed.

Lemma fsm_timer_invariant_witness :
  let s1 := after (fsm_step OpenLink (demo_fsm INITIAL, 1500)) (demo_fsm INITIAL, 0) in
  let s2 := after (fsm_step LowerUp s1) s1 in
  state (fst s2) = REQSENT ∧ 1%nat = Nat.b2n (waiting (state (fst s2))).
Proof.
  intros s1 s2. split; [done|].
  exact (proj2 (fsm_timer_invariant true (fst s2) (snd s2) 1 demo_reached) eq_refl).
Defined.

Lemma fsm_gives_up_witness :
  ∃ f' u' out, expirations 11 (demo_fsm REQSENT, 1500) = Ok ((), (f', u'), out) ∧ state f' = STOPPED
    ∧ sends out = 10%nat ∧ ThisLayerFinished ∈ out.
Proof.
  assert (Hr : 0 ≤ retransmits (demo_fsm REQSENT)) by (vm_compute; discriminate).
  destruct (fsm_gives_up (demo_fsm REQSENT) 1500 eq_refl Hr) as (f' & u' & out & E & Es & En & Ef).
  exists f', u', out. split; [exact E|]. split; [exact Es|]. split; [|exact (Ef eq_refl)].
  apply Nat2Z.inj. exact En.
Defined.

(** *** The link *)

Definition side0 : fsm * Z := after (fsm_lowerup (demo_fsm STARTING, 1500)) (demo_fsm STARTING, 0).
Definition request0 : list bytes := transmitted (shown (fsm_lowerup (demo_fsm STARTING, 1500))).
Definition link0 : link Z := mk_link side0 side0 request0 request0.

Definition turn (l : link Z) (there_first : bool) : link Z :=
  if there_first then
    match to_there l with
    | p :: q => let m := fsm_input p (there l) in mk_link (here l) (after m (there l)) q (to_here l ++ transmitted (shown m))
    | [] => l
    end
  else
    match to_here l with
    | p :: q => let m := fsm_input p (here l) in mk_link (after m (here l)) (there l) (to_there l ++ transmitted (shown m)) q
    | [] => l
    end.

Lemma link0_started : started link0.
Proof. by apply (started_link (demo_fsm STARTING, 1500) (demo_fsm STARTING, 1500) side0 side0 (shown (fsm_lowerup (demo_fsm STARTING, 1500))) (shown (fsm_lowerup (demo_fsm STARTING, 1500)))). Qed.

Lemma deliver_turn a b p q q' :
  (match fsm_input p b with Ok _ => true | _ => false end) = true →
  deliver (mk_link a b (p :: q) q') (turn (mk_link a b (p :: q) q') true).
Proof.
  intros E. unfold turn. cbn. destruct (fsm_input p b) as [[[[] b'] out]| |] eqn:E'; [|done|done].
  by apply deliver_there.
Qed.

Lemma deliver_turn_here a b p q q' :
  (match fsm_input p a with Ok _ => true | _ => false end) = true →
  deliver (mk_link a b q (p :: q')) (turn (mk_link a b q (p :: q')) false).
Proof.
  intros E. unfold turn. cbn. destruct (fsm_input p a) as [[[[] a'] out]| |] eqn:E'; [|done|done].
  by apply deliver_here.
Qed.

Definition link1 : link Z := Eval vm_compute in turn link0 true.
Definition link2 : link Z := Eval vm_compute in turn link1 false.
Definition link3 : link Z := Eval vm_compute in turn link2 true.
Definition link4 : link Z := Eval vm_compute in turn link3 false.

Lemma link4_steps : nsteps deliver 4 link0 link4.
Proof.
  assert (E0 : link0 = mk_link (here link0) (there link0) (to_there link0) (to_here link0)) by done.
  apply (nsteps_l _ 3 link0 link1 link4); [by refine (deliver_turn _ _ _ [] _ _)|].
  apply (nsteps_l _ 2 link1 link2 link4); [by refine (deliver_turn_here _ _ _ _ _ _)|].
  apply (nsteps_l _ 1 link2 link3 link4); [by refine (deliver_turn _ _ _ [] _ _)|].
  apply (nsteps_l _ 0 link3 link4 link4); [by refine (deliver_turn_here _ _ _ _ [] _)|constructor].
Qed.

Lemma fsm_handshake_witness :
  state (fst (here link4)) = OPENED ∧ state (fst (there link4)) = OPENED ∧ to_there link4 = [] ∧ to_here link4 = [].
Proof.
  exact (proj2 (proj2 (fsm_handshake demo_fine link0 4 link4 link0_started link4_steps)) eq_refl).
Defined.

(** ** Flaws *)

(** A Terminate-Ack for an open link: the layers above are told that it is down and a
    Configure-Request is sent, but the state stays OPENED and a timer is left, which
    the next Configure-Request of the peer doubles. *)
Definition stray_ack : bytes := wire TERMACK 1 [].
Definition stray_run : fsm * Z := after (fsm_step (Received stray_ack) (demo_fsm OPENED, 1500)) (demo_fsm INITIAL, 0).

Example stray_terminate_ack :
  let m := fsm_step (Received stray_ack) (demo_fsm OPENED, 1500) in
  let m' := fsm_step (Received (wire CONFREQ 9 demo_options)) stray_run in
  state_after m = Some OPENED ∧ observe (shown m) = [Tld; Scr] ∧ pending 0 (shown m) = 1%nat
  ∧ state_after m' = Some ACKSENT ∧ pending (pending 0 (shown m)) (shown m') = 2%nat.
Proof. by vm_compute. Qed.

(** CCP sets the restart option (main.c), but only an open in STOPPED, OPENED and CLOSING
    looks at it: while the link is being stopped the request to open it is lost. *)
Example open_while_stopping :
  let f := mk_fsm 0xc021 STOPPING (mk_flags false true false) 7 7 false 3 10 10 2 0 5 [] in
  state_after (fsm_step OpenLink (f, 1500)) = Some STOPPING
  ∧ shown (fsm_step OpenLink (f, 1500)) = []
  ∧ rfc1661 (flags f) ROpen STOPPING = Some ([Scr], REQSENT)
  ∧ rfc1661 (flags f) ROpen CLOSING = Some ([Scr], REQSENT)
  ∧ state_after (fsm_step OpenLink (with_state f CLOSING, 1500)) = Some REQSENT.
Proof. by vm_compute. Qed.

(** LCP takes every MRU from 128 bytes on from the peer, and the packet buffer has room
    for 1500: with a larger one the rejection of a packet of full length is written
    beyond it. *)
Example code_reject_overruns :
  let unknown := [200; 1] ++ be_bytes 2 1500 ++ replicate 1496 0 in
  fsm_input (H := demo_callbacks (λ _, 1600)) unknown (demo_fsm OPENED, 1500) = Fault
  ∧ fsm_input (H := demo_callbacks (λ _, 1500)) unknown (demo_fsm OPENED, 1500) ≠ Fault.
Proof. by vm_compute. Qed.
