(* ===== verification/LcpOptions.v ===== *)
(** * The options of LCP (progs.gpl/pppd.alpha/lcp.c, lcp.h, chap.h)

    The routines that the automaton calls for the options of the link: the own request,
    the peer's answers to it, and the peer's request.  [len] is the length of the list of
    bytes that are left, so that both move together.  [mrand48] is the sequence of
    random numbers; a state has the number that have been drawn. *)

From stdpp Require Import base numbers list.
From S2P Require Import Prelude Bytes PppFsm.

(** ** Constants *)

Definition CI_MRU : Z := 1.
Definition CI_ASYNCMAP : Z := 2.
Definition CI_AUTHTYPE : Z := 3.
Definition CI_QUALITY : Z := 4.
Definition CI_MAGICNUMBER : Z := 5.
Definition CI_PCOMPRESSION : Z := 7.
Definition CI_ACCOMPRESSION : Z := 8.
Definition CI_CALLBACK : Z := 13.
Definition CI_MRRU : Z := 17.
Definition CI_SSNHF : Z := 18.
Definition CI_EPDISC : Z := 19.
Definition CBCP_OPT : Z := 6.
Definition DEFMRU : Z := 1500.
Definition MINMRU : Z := 128.
Definition DEFLOOPBACKFAIL : Z := 10.
Definition PPP_PAP : Z := 0xc023.
Definition PPP_LQR : Z := 0xc025.
Definition PPP_CHAP : Z := 0xc223.
Definition PPP_EAP : Z := 0xc227.
Definition MAX_ENDP_LEN : Z := 20.

Definition CILEN_VOID : Z := 2.
Definition CILEN_CHAR : Z := 3.
Definition CILEN_SHORT : Z := 4.
Definition CILEN_CHAP : Z := 5.
Definition CILEN_LONG : Z := 6.
Definition CILEN_LQR : Z := 8.
Definition CILEN_CBCP : Z := 3.

Definition CHAP_DIGEST_MD5 : Z := 5.
Definition CHAP_MICROSOFT : Z := 0x80.
Definition CHAP_MICROSOFT_V2 : Z := 0x81.
Definition MDTYPE_MICROSOFT_V2 : Z := 0x1.
Definition MDTYPE_MICROSOFT : Z := 0x2.
Definition MDTYPE_MD5 : Z := 0x4.
Definition MDTYPE_NONE : Z := 0.

(** C's truth of an [int]. *)
Definition nz (z : Z) : bool := negb (z =? 0).

Definition CHAP_DIGEST (mdtype : Z) : Z :=
  if nz (Z.land mdtype MDTYPE_MICROSOFT_V2) then CHAP_MICROSOFT_V2
  else if nz (Z.land mdtype MDTYPE_MICROSOFT) then CHAP_MICROSOFT
  else if nz (Z.land mdtype MDTYPE_MD5) then CHAP_DIGEST_MD5 else 0.

Definition CHAP_MDTYPE (mdtype : Z) : Z := Z.land (Z.lxor mdtype (mdtype - 1)) mdtype.

Definition CHAP_MDTYPE_D (digest : Z) : Z :=
  if digest =? CHAP_MICROSOFT_V2 then MDTYPE_MICROSOFT_V2
  else if digest =? CHAP_MICROSOFT then MDTYPE_MICROSOFT
  else if digest =? CHAP_DIGEST_MD5 then MDTYPE_MD5 else 0.

Definition CHAP_CANDIGEST (mdtype digest : Z) : bool :=
  nz (if digest =? CHAP_MICROSOFT_V2 then Z.land mdtype MDTYPE_MICROSOFT_V2
      else if digest =? CHAP_MICROSOFT then Z.land mdtype MDTYPE_MICROSOFT
      else if digest =? CHAP_DIGEST_MD5 then Z.land mdtype MDTYPE_MD5 else 0).

(** ** The state of the options *)

(** The members [passive], [silent], [restart] and [ignore_mtu] are not looked at here.
    The length of the discriminator is that of its value. *)
Record lcp_options := mk_lcp_options {
  neg_mru : bool; neg_asyncmap : bool; neg_upap : bool; neg_chap : bool; neg_eap : bool; neg_magicnumber : bool;
  neg_pcompression : bool; neg_accompression : bool; neg_lqr : bool; neg_cbcp : bool; neg_mrru : bool;
  neg_ssnhf : bool; neg_endpoint : bool;
  mru : Z; mrru : Z; chap_mdtype : Z; asyncmap : Z; magicnumber : Z; numloops : Z; lqr_period : Z;
  endpoint_class : Z; endpoint_value : bytes }.

(** [BZERO] *)
Definition no_options : lcp_options :=
  mk_lcp_options false false false false false false false false false false false false false 0 0 0 0 0 0 0 0 [].

Definition set_neg_mru (o : lcp_options) (b : bool) (v : Z) : lcp_options :=
  mk_lcp_options b (neg_asyncmap o) (neg_upap o) (neg_chap o) (neg_eap o) (neg_magicnumber o) (neg_pcompression o)
    (neg_accompression o) (neg_lqr o) (neg_cbcp o) (neg_mrru o) (neg_ssnhf o) (neg_endpoint o) v (mrru o)
    (chap_mdtype o) (asyncmap o) (magicnumber o) (numloops o) (lqr_period o) (endpoint_class o) (endpoint_value o).
Definition set_neg_asyncmap (o : lcp_options) (b : bool) (v : Z) : lcp_options :=
  mk_lcp_options (neg_mru o) b (neg_upap o) (neg_chap o) (neg_eap o) (neg_magicnumber o) (neg_pcompression o)
    (neg_accompression o) (neg_lqr o) (neg_cbcp o) (neg_mrru o) (neg_ssnhf o) (neg_endpoint o) (mru o) (mrru o)
    (chap_mdtype o) v (magicnumber o) (numloops o) (lqr_period o) (endpoint_class o) (endpoint_value o).
(** The three ways to authenticate. *)
Definition set_auth (o : lcp_options) (upap chap eap : bool) (mdtype : Z) : lcp_options :=
  mk_lcp_options (neg_mru o) (neg_asyncmap o) upap chap eap (neg_magicnumber o) (neg_pcompression o)
    (neg_accompression o) (neg_lqr o) (neg_cbcp o) (neg_mrru o) (neg_ssnhf o) (neg_endpoint o) (mru o) (mrru o)
    mdtype (asyncmap o) (magicnumber o) (numloops o) (lqr_period o) (endpoint_class o) (endpoint_value o).
Definition set_neg_upap (o : lcp_options) (b : bool) : lcp_options := set_auth o b (neg_chap o) (neg_eap o) (chap_mdtype o).
Definition set_neg_chap (o : lcp_options) (b : bool) : lcp_options := set_auth o (neg_upap o) b (neg_eap o) (chap_mdtype o).
Definition set_neg_eap (o : lcp_options) (b : bool) : lcp_options := set_auth o (neg_upap o) (neg_chap o) b (chap_mdtype o).
Definition set_mdtype (o : lcp_options) (v : Z) : lcp_options := set_auth o (neg_upap o) (neg_chap o) (neg_eap o) v.
Definition set_neg_magicnumber (o : lcp_options) (b : bool) (v : Z) : lcp_options :=
  mk_lcp_options (neg_mru o) (neg_asyncmap o) (neg_upap o) (neg_chap o) (neg_eap o) b (neg_pcompression o)
    (neg_accompression o) (neg_lqr o) (neg_cbcp o) (neg_mrru o) (neg_ssnhf o) (neg_endpoint o) (mru o) (mrru o)
    (chap_mdtype o) (asyncmap o) v (numloops o) (lqr_period o) (endpoint_class o) (endpoint_value o).
Definition set_neg_pcompression (o : lcp_options) (b : bool) : lcp_options :=
  mk_lcp_options (neg_mru o) (neg_asyncmap o) (neg_upap o) (neg_chap o) (neg_eap o) (neg_magicnumber o) b
    (neg_accompression o) (neg_lqr o) (neg_cbcp o) (neg_mrru o) (neg_ssnhf o) (neg_endpoint o) (mru o) (mrru o)
    (chap_mdtype o) (asyncmap o) (magicnumber o) (numloops o) (lqr_period o) (endpoint_class o) (endpoint_value o).
Definition set_neg_accompression (o : lcp_options) (b : bool) : lcp_options :=
  mk_lcp_options (neg_mru o) (neg_asyncmap o) (neg_upap o) (neg_chap o) (neg_eap o) (neg_magicnumber o)
    (neg_pcompression o) b (neg_lqr o) (neg_cbcp o) (neg_mrru o) (neg_ssnhf o) (neg_endpoint o) (mru o) (mrru o)
    (chap_mdtype o) (asyncmap o) (magicnumber o) (numloops o) (lqr_period o) (endpoint_class o) (endpoint_value o).
Definition set_neg_lqr (o : lcp_options) (b : bool) (v : Z) : lcp_options :=
  mk_lcp_options (neg_mru o) (neg_asyncmap o) (neg_upap o) (neg_chap o) (neg_eap o) (neg_magicnumber o)
    (neg_pcompression o) (neg_accompression o) b (neg_cbcp o) (neg_mrru o) (neg_ssnhf o) (neg_endpoint o) (mru o) (mrru o)
    (chap_mdtype o) (asyncmap o) (magicnumber o) (numloops o) v (endpoint_class o) (endpoint_value o).
Definition set_neg_cbcp (o : lcp_options) (b : bool) : lcp_options :=
  mk_lcp_options (neg_mru o) (neg_asyncmap o) (neg_upap o) (neg_chap o) (neg_eap o) (neg_magicnumber o)
    (neg_pcompression o) (neg_accompression o) (neg_lqr o) b (neg_mrru o) (neg_ssnhf o) (neg_endpoint o) (mru o) (mrru o)
    (chap_mdtype o) (asyncmap o) (magicnumber o) (numloops o) (lqr_period o) (endpoint_class o) (endpoint_value o).
Definition set_neg_mrru (o : lcp_options) (b : bool) (v : Z) : lcp_options :=
  mk_lcp_options (neg_mru o) (neg_asyncmap o) (neg_upap o) (neg_chap o) (neg_eap o) (neg_magicnumber o)
    (neg_pcompression o) (neg_accompression o) (neg_lqr o) (neg_cbcp o) b (neg_ssnhf o) (neg_endpoint o) (mru o) v
    (chap_mdtype o) (asyncmap o) (magicnumber o) (numloops o) (lqr_period o) (endpoint_class o) (endpoint_value o).
Definition set_neg_ssnhf (o : lcp_options) (b : bool) : lcp_options :=
  mk_lcp_options (neg_mru o) (neg_asyncmap o) (neg_upap o) (neg_chap o) (neg_eap o) (neg_magicnumber o)
    (neg_pcompression o) (neg_accompression o) (neg_lqr o) (neg_cbcp o) (neg_mrru o) b (neg_endpoint o) (mru o) (mrru o)
    (chap_mdtype o) (asyncmap o) (magicnumber o) (numloops o) (lqr_period o) (endpoint_class o) (endpoint_value o).
Definition set_neg_endpoint (o : lcp_options) (b : bool) (class : Z) (value : bytes) : lcp_options :=
  mk_lcp_options (neg_mru o) (neg_asyncmap o) (neg_upap o) (neg_chap o) (neg_eap o) (neg_magicnumber o)
    (neg_pcompression o) (neg_accompression o) (neg_lqr o) (neg_cbcp o) (neg_mrru o) (neg_ssnhf o) b (mru o) (mrru o)
    (chap_mdtype o) (asyncmap o) (magicnumber o) (numloops o) (lqr_period o) class value.
Definition set_numloops (o : lcp_options) (v : Z) : lcp_options :=
  mk_lcp_options (neg_mru o) (neg_asyncmap o) (neg_upap o) (neg_chap o) (neg_eap o) (neg_magicnumber o)
    (neg_pcompression o) (neg_accompression o) (neg_lqr o) (neg_cbcp o) (neg_mrru o) (neg_ssnhf o) (neg_endpoint o) (mru o) (mrru o)
    (chap_mdtype o) (asyncmap o) (magicnumber o) v (lqr_period o) (endpoint_class o) (endpoint_value o).

(** [lcp_init]'s wishes and permissions. *)
Definition lcp_init_wantoptions : lcp_options :=
  mk_lcp_options true true false false false true true true false false false false false DEFMRU 0 0 0 0 0 0 0 [].
Definition lcp_init_allowoptions : lcp_options :=
  mk_lcp_options true true true true true true true true false false false false true 16384 0 7 0 0 0 0 0 [].

(** ** The own request *)

Definition PUTSHORT (v : Z) : bytes := be_bytes 2 v.
Definition PUTLONG (v : Z) : bytes := be_bytes 4 v.

Definition ci_void (opt : Z) : bytes := [opt; CILEN_VOID].
Definition ci_short (opt v : Z) : bytes := [opt; CILEN_SHORT] ++ PUTSHORT v.
Definition ci_chap (opt v : Z) : bytes := [opt; CILEN_CHAP] ++ PUTSHORT PPP_CHAP ++ [CHAP_DIGEST v].
Definition ci_long (opt v : Z) : bytes := [opt; CILEN_LONG] ++ PUTLONG v.
Definition ci_lqr (opt v : Z) : bytes := [opt; CILEN_LQR] ++ PUTSHORT PPP_LQR ++ PUTLONG v.
Definition ci_char (opt v : Z) : bytes := [opt; CILEN_CHAR; v].
Definition ci_endp (opt class : Z) (value : bytes) : bytes :=
  [opt; CILEN_CHAR + Z.of_nat (length value); class] ++ value.

(** The conditions under which the options are in the request. *)
Definition asks_mru (go : lcp_options) : bool := neg_mru go && negb (mru go =? DEFMRU).
Definition asks_asyncmap (go : lcp_options) : bool := neg_asyncmap go && negb (asyncmap go =? 0xffffffff).
Definition asks_chap (go : lcp_options) : bool := negb (neg_eap go) && neg_chap go.
Definition asks_upap (go : lcp_options) : bool := negb (neg_eap go) && negb (neg_chap go) && neg_upap go.

Definition len_if (neg : bool) (n : Z) : Z := if neg then n else 0.

Definition lcp_cilen (go : lcp_options) : Z :=
  len_if (asks_mru go) CILEN_SHORT + len_if (asks_asyncmap go) CILEN_LONG + len_if (neg_eap go) CILEN_SHORT
  + len_if (asks_chap go) CILEN_CHAP + len_if (asks_upap go) CILEN_SHORT + len_if (neg_lqr go) CILEN_LQR
  + len_if (neg_cbcp go) CILEN_CBCP + len_if (neg_magicnumber go) CILEN_LONG + len_if (neg_pcompression go) CILEN_VOID
  + len_if (neg_accompression go) CILEN_VOID + len_if (neg_mrru go) CILEN_SHORT + len_if (neg_ssnhf go) CILEN_VOID
  + len_if (neg_endpoint go) (CILEN_CHAR + Z.of_nat (length (endpoint_value go))).

Definition add_if (neg : bool) (ci : bytes) : bytes := if neg then ci else [].

Definition lcp_addci (go : lcp_options) : bytes :=
  add_if (asks_mru go) (ci_short CI_MRU (mru go))
  ++ add_if (asks_asyncmap go) (ci_long CI_ASYNCMAP (asyncmap go))
  ++ add_if (neg_eap go) (ci_short CI_AUTHTYPE PPP_EAP)
  ++ add_if (asks_chap go) (ci_chap CI_AUTHTYPE (chap_mdtype go))
  ++ add_if (asks_upap go) (ci_short CI_AUTHTYPE PPP_PAP)
  ++ add_if (neg_lqr go) (ci_lqr CI_QUALITY (lqr_period go))
  ++ add_if (neg_cbcp go) (ci_char CI_CALLBACK CBCP_OPT)
  ++ add_if (neg_magicnumber go) (ci_long CI_MAGICNUMBER (magicnumber go))
  ++ add_if (neg_pcompression go) (ci_void CI_PCOMPRESSION)
  ++ add_if (neg_accompression go) (ci_void CI_ACCOMPRESSION)
  ++ add_if (neg_mrru go) (ci_short CI_MRRU (mrru go))
  ++ add_if (neg_ssnhf go) (ci_void CI_SSNHF)
  ++ add_if (neg_endpoint go) (ci_endp CI_EPDISC (endpoint_class go) (endpoint_value go)).

(** ** The peer's Ack *)

(** The next [n] bytes, if they are there. *)
Definition take_ci (n : Z) (p : bytes) : option (bytes * bytes) :=
  if n <=? Z.of_nat (length p) then Some (take (Z.to_nat n) p, drop (Z.to_nat n) p) else None.

(** One of the macros [ACKCI...]; [check] looks at the data of the option.  [None] is
    the jump to [bad]. *)
Definition ackci (neg : bool) (opt n : Z) (check : bytes → bool) (p : bytes) : option bytes :=
  if neg then
    '(c, p) ← take_ci n p;
    if (c !!! 1%nat =? n) && (c !!! 0%nat =? opt) && check (drop 2 c) then Some p else None
  else Some p.

Definition is_void (d : bytes) : bool := true.
Definition is_short (v : Z) (d : bytes) : bool := get16 d 0 =? v.
Definition is_char (v : Z) (d : bytes) : bool := d !!! 0%nat =? v.
Definition is_long (v : Z) (d : bytes) : bool := get32 d 0 =? v.
Definition is_chap (v : Z) (d : bytes) : bool := (get16 d 0 =? PPP_CHAP) && (d !!! 2%nat =? CHAP_DIGEST v).
Definition is_lqr (v : Z) (d : bytes) : bool := (get16 d 0 =? PPP_LQR) && (get32 d 2 =? v).
Definition is_endp (class : Z) (value d : bytes) : bool := (d !!! 0%nat =? class) && bool_decide (drop 1 d = value).

Definition endp_len (go : lcp_options) : Z := CILEN_CHAR + Z.of_nat (length (endpoint_value go)).

Definition lcp_ackci (go : lcp_options) (p : bytes) : bool :=
  bool_decide (
    (p ← ackci (asks_mru go) CI_MRU CILEN_SHORT (is_short (mru go)) p;
     p ← ackci (asks_asyncmap go) CI_ASYNCMAP CILEN_LONG (is_long (asyncmap go)) p;
     p ← ackci (neg_eap go) CI_AUTHTYPE CILEN_SHORT (is_short PPP_EAP) p;
     p ← ackci (asks_chap go) CI_AUTHTYPE CILEN_CHAP (is_chap (chap_mdtype go)) p;
     p ← ackci (asks_upap go) CI_AUTHTYPE CILEN_SHORT (is_short PPP_PAP) p;
     p ← ackci (neg_lqr go) CI_QUALITY CILEN_LQR (is_lqr (lqr_period go)) p;
     p ← ackci (neg_cbcp go) CI_CALLBACK CILEN_CHAR (is_char CBCP_OPT) p;
     p ← ackci (neg_magicnumber go) CI_MAGICNUMBER CILEN_LONG (is_long (magicnumber go)) p;
     p ← ackci (neg_pcompression go) CI_PCOMPRESSION CILEN_VOID is_void p;
     p ← ackci (neg_accompression go) CI_ACCOMPRESSION CILEN_VOID is_void p;
     p ← ackci (neg_mrru go) CI_MRRU CILEN_SHORT (is_short (mrru go)) p;
     p ← ackci (neg_ssnhf go) CI_SSNHF CILEN_VOID is_void p;
     ackci (neg_endpoint go) CI_EPDISC (endp_len go) (is_endp (endpoint_class go) (endpoint_value go)) p)
    = Some []).

(** ** The peer's Reject *)

(** One of the macros [REJCI...]: an option that is next is checked and dropped from
    [try]. *)
Definition rejci (neg : bool) (opt n : Z) (check : bytes → bool) (clear : lcp_options → lcp_options)
    (s : bytes * lcp_options) : option (bytes * lcp_options) :=
  let '(p, try) := s in
  if neg && (n <=? Z.of_nat (length p)) && (p !!! 1%nat =? n) && (p !!! 0%nat =? opt) then
    if check (take (Z.to_nat (n - 2)) (drop 2 p)) then Some (drop (Z.to_nat n) p, clear try) else None
  else Some s.

Definition clear_mru (o : lcp_options) : lcp_options := set_neg_mru o false (mru o).
Definition clear_asyncmap (o : lcp_options) : lcp_options := set_neg_asyncmap o false (asyncmap o).
Definition clear_eap (o : lcp_options) : lcp_options := set_neg_eap o false.
(** [try.neg_chap = 0; try.neg_eap = try.neg_upap = 0] *)
Definition clear_chap (o : lcp_options) : lcp_options := set_auth o false false false (chap_mdtype o).
Definition clear_upap (o : lcp_options) : lcp_options := set_neg_upap o false.
Definition clear_lqr (o : lcp_options) : lcp_options := set_neg_lqr o false (lqr_period o).
Definition clear_cbcp (o : lcp_options) : lcp_options := set_neg_cbcp o false.
Definition clear_magicnumber (o : lcp_options) : lcp_options := set_neg_magicnumber o false (magicnumber o).
Definition clear_pcompression (o : lcp_options) : lcp_options := set_neg_pcompression o false.
Definition clear_accompression (o : lcp_options) : lcp_options := set_neg_accompression o false.
Definition clear_mrru (o : lcp_options) : lcp_options := set_neg_mrru o false (mrru o).
Definition clear_ssnhf (o : lcp_options) : lcp_options := set_neg_ssnhf o false.
Definition clear_endpoint (o : lcp_options) : lcp_options := set_neg_endpoint o false (endpoint_class o) (endpoint_value o).

(** [None] is a bad Reject; else the new [go]. *)
Definition lcp_rejci (opened : bool) (go : lcp_options) (p : bytes) : option lcp_options :=
  s ← rejci (neg_mru go) CI_MRU CILEN_SHORT (is_short (mru go)) clear_mru (p, go);
  s ← rejci (neg_asyncmap go) CI_ASYNCMAP CILEN_LONG (is_long (asyncmap go)) clear_asyncmap s;
  s ← rejci (neg_eap go) CI_AUTHTYPE CILEN_SHORT (is_short PPP_EAP) clear_eap s;
  s ← rejci (asks_chap go) CI_AUTHTYPE CILEN_CHAP (is_chap (chap_mdtype go)) clear_chap s;
  s ← rejci (asks_upap go) CI_AUTHTYPE CILEN_SHORT (is_short PPP_PAP) clear_upap s;
  s ← rejci (neg_lqr go) CI_QUALITY CILEN_LQR (is_lqr (lqr_period go)) clear_lqr s;
  s ← rejci (neg_cbcp go) CI_CALLBACK CILEN_CBCP (is_char CBCP_OPT) clear_cbcp s;
  s ← rejci (neg_magicnumber go) CI_MAGICNUMBER CILEN_LONG (is_long (magicnumber go)) clear_magicnumber s;
  s ← rejci (neg_pcompression go) CI_PCOMPRESSION CILEN_VOID is_void clear_pcompression s;
  s ← rejci (neg_accompression go) CI_ACCOMPRESSION CILEN_VOID is_void clear_accompression s;
  s ← rejci (neg_mrru go) CI_MRRU CILEN_SHORT (is_short (mrru go)) clear_mrru s;
  s ← rejci (neg_ssnhf go) CI_SSNHF CILEN_VOID is_void clear_ssnhf s;
  '(p, try) ← rejci (neg_endpoint go) CI_EPDISC (endp_len go) (is_endp (endpoint_class go) (endpoint_value go)) clear_endpoint s;
  if decide (p = []) then Some (if (opened : bool) then go else try) else None.

(** ** The peer's Nak *)

(** [p], [no], [try], the hash algorithms of [go], which are changed on the way, whether
    the line is looped back, and the random numbers drawn. *)
Record nak_state := mk_nak {
  nk_p : bytes; nk_no : lcp_options; nk_try : lcp_options; nk_mdtype : Z; nk_looped : bool; nk_drawn : nat }.

Definition nak_set (s : nak_state) (p : bytes) (no try : lcp_options) : nak_state :=
  mk_nak p no try (nk_mdtype s) (nk_looped s) (nk_drawn s).

(** One of the macros [NAKCI...]: an option that is next is taken, and [code] gets its
    data, [no] and [try]. *)
Definition nakci (neg : bool) (opt n : Z) (code : bytes → lcp_options * lcp_options → lcp_options * lcp_options)
    (s : nak_state) : nak_state :=
  let p := nk_p s in
  if neg && (n <=? Z.of_nat (length p)) && (p !!! 1%nat =? n) && (p !!! 0%nat =? opt) then
    let '(no, try) := code (take (Z.to_nat (n - 2)) (drop 2 p)) (nk_no s, nk_try s) in
    nak_set s (drop (Z.to_nat n) p) no try
  else s.

(** The test that line 1057 makes: the macro [CHAP_DIGEST] has no parentheses of its own. *)
Definition differs_from_digest (cichar mdtype : Z) : bool :=
  nz (if negb (cichar =? Z.land mdtype MDTYPE_MICROSOFT_V2) then CHAP_MICROSOFT_V2
      else if nz (Z.land mdtype MDTYPE_MICROSOFT) then CHAP_MICROSOFT
      else if nz (Z.land mdtype MDTYPE_MD5) then CHAP_DIGEST_MD5 else 0).

(** The Nak of the authentication; [None] is the jump to [bad], with the algorithms of [go]. *)
Definition nak_auth (go : lcp_options) (s : nak_state) : nak_state + Z :=
  let p := nk_p s in
  let cilen := p !!! 1%nat in
  if (neg_chap go || neg_upap go || neg_eap go) && (CILEN_SHORT <=? Z.of_nat (length p))
     && (p !!! 0%nat =? CI_AUTHTYPE) && (CILEN_SHORT <=? cilen) && (cilen <=? Z.of_nat (length p)) then
    let no := set_auth (nk_no s) (neg_upap go) (neg_chap go) (neg_eap go) (chap_mdtype (nk_no s)) in
    let cishort := get16 p 2 in
    let try := nk_try s in
    let next := drop (Z.to_nat cilen) p in
    if (cishort =? PPP_PAP) && (cilen =? CILEN_SHORT) then
      if neg_eap go then inl (nak_set s next no (set_neg_eap try false))
      else if neg_chap go then inl (nak_set s next no (set_neg_chap try false))
      else inr (nk_mdtype s)
    else if (cishort =? PPP_CHAP) && (cilen =? CILEN_CHAP) then
      let cichar := p !!! 4%nat in
      let suggested := if CHAP_CANDIGEST (chap_mdtype go) cichar then CHAP_MDTYPE_D cichar else nk_mdtype s in
      let s' := mk_nak next no try suggested (nk_looped s) (nk_drawn s) in
      if neg_eap go then inl (nak_set s' next no (set_neg_eap try false))
      else if neg_chap go then
        if differs_from_digest cichar (chap_mdtype go) then
          if CHAP_CANDIGEST (chap_mdtype go) cichar then inl s'
          else
            let try := set_mdtype try (Z.land (chap_mdtype try) (Z.lnot (CHAP_MDTYPE (chap_mdtype try)))) in
            inl (nak_set s next no (if chap_mdtype try =? MDTYPE_NONE then set_neg_chap try false else try))
        else inr (nk_mdtype s)
      else inl (nak_set s next no (set_neg_upap try false))
    else
      inl (nak_set s next no
        (if neg_eap go then set_neg_eap try false
         else if neg_chap go then set_neg_chap try false
         else set_neg_upap try false))
  else inl s.

(** The options that are left, which the own request did not have. *)
Fixpoint nak_rest (fuel : nat) (go no try : lcp_options) (p : bytes) : res (option lcp_options) :=
  if Z.of_nat (length p) <=? CILEN_VOID then mret (Some try)
  else
    match fuel with
    | O => NoFuel
    | S fuel =>
        let citype := p !!! 0%nat in
        let cilen := p !!! 1%nat in
        if (cilen <? CILEN_VOID) || (Z.of_nat (length p) <? cilen) then mret None
        else
          let next := drop (Z.to_nat cilen) p in
          let bad (b : bool) (try : lcp_options) := if b then mret None else nak_rest fuel go no try next in
          if citype =? CI_MRU then
            bad (asks_mru go || neg_mru no || negb (cilen =? CILEN_SHORT))
                (if get16 p 2 <? DEFMRU then set_neg_mru try true (get16 p 2) else try)
          else if citype =? CI_ASYNCMAP then bad (asks_asyncmap go || neg_asyncmap no || negb (cilen =? CILEN_LONG)) try
          else if citype =? CI_AUTHTYPE then
            bad (neg_chap go || neg_chap no || neg_upap go || neg_upap no || neg_eap go || neg_eap no) try
          else if citype =? CI_MAGICNUMBER then
            bad (neg_magicnumber go || neg_magicnumber no || negb (cilen =? CILEN_LONG)) try
          else if citype =? CI_PCOMPRESSION then
            bad (neg_pcompression go || neg_pcompression no || negb (cilen =? CILEN_VOID)) try
          else if citype =? CI_ACCOMPRESSION then
            bad (neg_accompression go || neg_accompression no || negb (cilen =? CILEN_VOID)) try
          else if citype =? CI_QUALITY then bad (neg_lqr go || neg_lqr no || negb (cilen =? CILEN_LQR)) try
          else if citype =? CI_MRRU then bad (neg_mrru go || neg_mrru no || negb (cilen =? CILEN_SHORT)) try
          else if citype =? CI_SSNHF then
            bad (neg_ssnhf go || neg_ssnhf no || negb (cilen =? CILEN_VOID)) (set_neg_ssnhf try true)
          else if citype =? CI_EPDISC then bad (neg_endpoint go || neg_endpoint no || (cilen <? CILEN_CHAR)) try
          else bad false try
    end.

(** Whether the Nak is good, the new [go], the random numbers drawn, and whether the
    line is found to be looped back, for which the routine closes the link. *)
Record nak_result := mk_nak_result { nr_good : bool; nr_go : lcp_options; nr_drawn : nat; nr_close : bool }.

Section random.
Context (mrand48 : nat → Z).

Definition magic (drawn : nat) : Z * nat := (u32 (mrand48 drawn), S drawn).

Definition seen (f : lcp_options → lcp_options) (c : lcp_options → lcp_options) (no_try : lcp_options * lcp_options)
    : lcp_options * lcp_options := (f (fst no_try), c (snd no_try)).

(** The Nak of the magic number. *)
Definition nak_magic (go : lcp_options) (s : nak_state) : nak_state :=
  let p := nk_p s in
  if neg_magicnumber go && (CILEN_LONG <=? Z.of_nat (length p)) && (p !!! 1%nat =? CILEN_LONG) && (p !!! 0%nat =? CI_MAGICNUMBER)
  then
    let '(m, drawn) := magic (nk_drawn s) in
    mk_nak (drop (Z.to_nat CILEN_LONG) p) (set_neg_magicnumber (nk_no s) true (magicnumber (nk_no s)))
      (set_neg_magicnumber (nk_try s) (neg_magicnumber (nk_try s)) m) (nk_mdtype s) true drawn
  else s.

Definition nak_endpoint (go : lcp_options) (s : nak_state) : nak_state :=
  let p := nk_p s in
  let n := p !!! 1%nat in
  if neg_endpoint go && (CILEN_CHAR <=? Z.of_nat (length p)) && (p !!! 0%nat =? CI_EPDISC) && (CILEN_CHAR <=? n)
     && (n <=? Z.of_nat (length p))
  then
    nak_set s (drop (Z.to_nat n) p) (set_neg_endpoint (nk_no s) true (endpoint_class (nk_no s)) (endpoint_value (nk_no s)))
      (clear_endpoint (nk_try s))
  else s.

(** The options that the own request has, in its order. *)
Definition nak_own (wo go : lcp_options) (s : nak_state) : nak_state + Z :=
  let s := nakci (asks_mru go) CI_MRU CILEN_SHORT
    (λ d, seen (λ no, set_neg_mru no true (mru no))
               (λ try, let v := get16 d 0 in
                       if (v <=? mru wo) || (v <=? DEFMRU) then set_neg_mru try (neg_mru try) v else try)) s in
  let s := nakci (asks_asyncmap go) CI_ASYNCMAP CILEN_LONG
    (λ d, seen (λ no, set_neg_asyncmap no true (asyncmap no))
               (λ try, set_neg_asyncmap try (neg_asyncmap try) (Z.lor (asyncmap go) (get32 d 0)))) s in
  match nak_auth go s with
  | inr md => inr md
  | inl s =>
      let s := nakci (neg_lqr go) CI_QUALITY CILEN_LQR
        (λ d, seen (λ no, set_neg_lqr no true (lqr_period no))
                   (λ try, if negb (get16 d 0 =? PPP_LQR) then clear_lqr try else set_neg_lqr try (neg_lqr try) (get32 d 2))) s in
      let s := nakci (neg_cbcp go) CI_CALLBACK CILEN_CHAR (λ _, seen (λ no, set_neg_cbcp no true) clear_cbcp) s in
      let s := nak_magic go s in
      let s := nakci (neg_pcompression go) CI_PCOMPRESSION CILEN_VOID
        (λ _, seen (λ no, set_neg_pcompression no true) clear_pcompression) s in
      let s := nakci (neg_accompression go) CI_ACCOMPRESSION CILEN_VOID
        (λ _, seen (λ no, set_neg_accompression no true) clear_accompression) s in
      let s := nakci (neg_mrru go) CI_MRRU CILEN_SHORT
        (λ d, seen (λ no, set_neg_mrru no true (mrru no))
                   (λ try, let v := get16 d 0 in if v <=? mrru wo then set_neg_mrru try (neg_mrru try) v else try)) s in
      let s := nakci (neg_ssnhf go) CI_SSNHF CILEN_VOID (λ _, seen (λ no, set_neg_ssnhf no true) clear_ssnhf) s in
      inl (nak_endpoint go s)
  end.

Definition lcp_nakci (opened : bool) (wo go : lcp_options) (drawn : nat) (p : bytes) : res nak_result :=
  match nak_own wo go (mk_nak p no_options go (chap_mdtype go) false drawn) with
  | inr mdtype => mret (mk_nak_result false (set_mdtype go mdtype) drawn false)
  | inl s =>
      r ← nak_rest (length (nk_p s)) go (nk_no s) (nk_try s) (nk_p s);
      match r with
      | None => mret (mk_nak_result false (set_mdtype go (nk_mdtype s)) (nk_drawn s) false)
      | Some try =>
          if (opened : bool) then mret (mk_nak_result true (set_mdtype go (nk_mdtype s)) (nk_drawn s) false)
          else
            let try := set_numloops try (if nk_looped s then numloops try + 1 else 0) in
            mret (mk_nak_result true try (nk_drawn s) (nk_looped s && (DEFLOOPBACKFAIL <=? numloops try)))
      end
  end.

(** ** The peer's request *)

(** What the loop keeps: [ho], the Nak that is being built in [nak_buffer], the options
    to reject, [rc], and the random numbers drawn. *)
Record req_state := mk_req { rq_ho : lcp_options; rq_nak : bytes; rq_rej : bytes; rq_rc : Z; rq_drawn : nat }.

(** The verdict on one option: an Ack with the new [ho], a Nak with what is put
    into the buffer, or a Reject. *)
Inductive verdict := Accept (ho : lcp_options) | Nak (hint : bytes) | Reject.

Definition nak_chap (mdtype : Z) : bytes := ci_chap CI_AUTHTYPE mdtype.
Definition nak_eap : bytes := ci_short CI_AUTHTYPE PPP_EAP.
Definition nak_pap : bytes := ci_short CI_AUTHTYPE PPP_PAP.

(** [d] is the data of the option, [cilen] its length with the header. *)
Definition req_auth (ao ho : lcp_options) (cilen : Z) (d : bytes) : verdict :=
  if (cilen <? CILEN_SHORT) || negb (neg_upap ao || neg_chap ao || neg_eap ao) then Reject
  else
    let cishort := get16 d 0 in
    if cishort =? PPP_PAP then
      if neg_chap ho || neg_eap ho || negb (cilen =? CILEN_SHORT) then Reject
      else if negb (neg_upap ao) then Nak (if neg_eap ao then nak_eap else nak_chap (chap_mdtype ao))
      else Accept (set_neg_upap ho true)
    else if cishort =? PPP_CHAP then
      if neg_upap ho || neg_eap ho || negb (cilen =? CILEN_CHAP) then Reject
      else if negb (neg_chap ao) then Nak (if neg_eap ao then nak_eap else nak_pap)
      else
        let cichar := d !!! 2%nat in
        if negb (CHAP_CANDIGEST (chap_mdtype ao) cichar) then Nak (nak_chap (chap_mdtype ao))
        else Accept (set_auth ho (neg_upap ho) true (neg_eap ho) (CHAP_MDTYPE_D cichar))
    else if cishort =? PPP_EAP then
      if neg_chap ho || neg_upap ho || negb (cilen =? CILEN_SHORT) then Reject
      else if negb (neg_eap ao) then
        Nak (if neg_chap ao then [CI_AUTHTYPE; CILEN_CHAP] ++ PUTSHORT PPP_CHAP ++ [u8 (chap_mdtype ao)] else nak_pap)
      else Accept (set_neg_eap ho true)
    else Nak (if neg_eap ao then nak_eap else if neg_chap ao then nak_chap (chap_mdtype ao) else nak_pap).

(** The [switch] on the type; also whether a random number has been drawn. *)
Definition req_verdict (multilink : bool) (go ao ho : lcp_options) (drawn : nat) (citype cilen : Z) (d : bytes)
    : verdict * nat :=
  let sized (n : Z) := cilen =? n in
  if citype =? CI_MRU then
    (if negb (neg_mru ao) || negb (sized CILEN_SHORT) then Reject
     else if get16 d 0 <? MINMRU then Nak (ci_short CI_MRU MINMRU)
     else Accept (set_neg_mru ho true (get16 d 0)), drawn)
  else if citype =? CI_ASYNCMAP then
    (if negb (neg_asyncmap ao) || negb (sized CILEN_LONG) then Reject
     else
       let cilong := get32 d 0 in
       if nz (Z.land (asyncmap ao) (Z.lnot cilong)) then Nak (ci_long CI_ASYNCMAP (Z.lor (asyncmap ao) cilong))
       else Accept (set_neg_asyncmap ho true cilong), drawn)
  else if citype =? CI_AUTHTYPE then (req_auth ao ho cilen d, drawn)
  else if citype =? CI_QUALITY then
    (if negb (neg_lqr ao) || negb (sized CILEN_LQR) then Reject
     else if negb (get16 d 0 =? PPP_LQR) then Nak (ci_lqr CI_QUALITY (lqr_period ao))
     else Accept ho, drawn)
  else if citype =? CI_MAGICNUMBER then
    if negb (neg_magicnumber ao || neg_magicnumber go) || negb (sized CILEN_LONG) then (Reject, drawn)
    else
      let cilong := get32 d 0 in
      if neg_magicnumber go && (cilong =? magicnumber go) then
        let '(m, drawn) := magic drawn in (Nak (ci_long CI_MAGICNUMBER m), drawn)
      else (Accept (set_neg_magicnumber ho true cilong), drawn)
  else if citype =? CI_PCOMPRESSION then
    (if negb (neg_pcompression ao) || negb (sized CILEN_VOID) then Reject else Accept (set_neg_pcompression ho true), drawn)
  else if citype =? CI_ACCOMPRESSION then
    (if negb (neg_accompression ao) || negb (sized CILEN_VOID) then Reject else Accept (set_neg_accompression ho true), drawn)
  else if citype =? CI_MRRU then
    (if negb (neg_mrru ao) || negb multilink || negb (sized CILEN_SHORT) then Reject
     else Accept (set_neg_mrru ho true (get16 d 0)), drawn)
  else if citype =? CI_SSNHF then
    (if negb (neg_ssnhf ao) || negb multilink || negb (sized CILEN_VOID) then Reject else Accept (set_neg_ssnhf ho true), drawn)
  else if citype =? CI_EPDISC then
    (if negb (neg_endpoint ao) || (cilen <? CILEN_CHAR) || (CILEN_CHAR + MAX_ENDP_LEN <? cilen) then Reject
     else Accept (set_neg_endpoint ho true (d !!! 0%nat) (drop 1 d)), drawn)
  else (Reject, drawn).

(** [PUTCHAR]s behind [nakp], inside [nak_buffer]. *)
Definition put_nak (nak hint : bytes) : res bytes :=
  if Z.of_nat (length (nak ++ hint)) <=? PPP_MRU then mret (nak ++ hint) else Fault.

(** What follows the [switch], for the option [ci] with the type [citype]. *)
Definition req_account (reject_if_disagree : bool) (citype : Z) (ci : bytes) (v : verdict) (drawn : nat) (s : req_state)
    : res req_state :=
  let reject nak := mret (mk_req (rq_ho s) nak (rq_rej s ++ ci) CONFREJ drawn) in
  match v with
  | Accept ho => mret (mk_req ho (rq_nak s) (rq_rej s) (rq_rc s) drawn)
  | Nak hint =>
      nak ← put_nak (rq_nak s) hint;
      if reject_if_disagree && negb (citype =? CI_MAGICNUMBER) then reject nak
      else mret (mk_req (rq_ho s) nak (rq_rej s) (if rq_rc s =? CONFREJ then CONFREJ else CONFNAK) drawn)
  | Reject => reject (rq_nak s)
  end.

Fixpoint req_loop (fuel : nat) (multilink reject_if_disagree : bool) (go ao : lcp_options) (l : bytes) (s : req_state)
    : res req_state :=
  match l with
  | [] => mret s
  | _ :: _ =>
      match fuel with
      | O => NoFuel
      | S fuel =>
          let cilen := l !!! 1%nat in
          if (Z.of_nat (length l) <? 2) || (cilen <? 2) || (Z.of_nat (length l) <? cilen) then
            req_account reject_if_disagree 0 l Reject (rq_drawn s) s
          else
            let ci := take (Z.to_nat cilen) l in
            let '(v, drawn) := req_verdict multilink go ao (rq_ho s) (rq_drawn s) (l !!! 0%nat) cilen (drop 2 ci) in
            s ← req_account reject_if_disagree (l !!! 0%nat) ci v drawn s;
            req_loop fuel multilink reject_if_disagree go ao (drop (Z.to_nat cilen) l) s
      end
  end.

(** The code of the answer, its options, the new [ho], the random numbers drawn. *)
Definition lcp_reqci (multilink : bool) (go ao : lcp_options) (drawn : nat) (inp : bytes) (reject_if_disagree : bool)
    : res (Z * bytes * lcp_options * nat) :=
  s ← req_loop (length inp) multilink reject_if_disagree go ao inp (mk_req no_options [] [] CONFACK drawn);
  mret (rq_rc s, if rq_rc s =? CONFACK then inp else if rq_rc s =? CONFNAK then rq_nak s else rq_rej s, rq_ho s, rq_drawn s).
End random.
