(* ===== verification/LcpOptionsProps.v ===== *)
(** * The options of LCP: the theorems

    The peer's Ack must be the request, its Reject a selection from it; a request is
    acknowledged exactly when every option in it is permitted; the answer fits its
    buffer for requests up to 1200 bytes. *)

From stdpp Require Import base numbers list.
From S2P Require Import Prelude Bytes PppFsm LcpOptions.

(** ** Options in range *)

(** The values that go out in options fit the types of their members. *)
Record wire_range (o : lcp_options) : Prop := {
  ir_mru : 0 ≤ mru o < 65536;
  ir_mrru : 0 ≤ mrru o < 65536;
  ir_asyncmap : is_u32 (asyncmap o);
  ir_magic : is_u32 (magicnumber o);
  ir_lqr : is_u32 (lqr_period o);
  ir_class : is_u8 (endpoint_class o);
  ir_value : is_bytes (endpoint_value o);
  ir_length : Z.of_nat (length (endpoint_value o)) ≤ MAX_ENDP_LEN }.

Lemma CHAP_DIGEST_range v : is_u8 (CHAP_DIGEST v).
Proof. unfold CHAP_DIGEST. repeat destruct (nz _); done. Qed.

(** ** Options as a list *)

(** An option of the own request: when it is there, its type, length and check in an
    answer, how it looks, and how it is given up. *)
Record field := mk_field {
  fd_cond : bool; fd_opt : Z; fd_n : Z; fd_check : bytes → bool; fd_ci : bytes; fd_clear : lcp_options → lcp_options }.

(** The check accepts exactly the data that were sent. *)
Definition field_ok (f : field) : Prop :=
  2 ≤ fd_n f ∧ Z.of_nat (length (fd_ci f)) = fd_n f ∧ fd_ci f !!! 0%nat = fd_opt f ∧ fd_ci f !!! 1%nat = fd_n f
  ∧ ∀ d, is_bytes d → Z.of_nat (length d) = fd_n f - 2 → fd_check f d = true ↔ d = drop 2 (fd_ci f).

Definition fields (go : lcp_options) (m a : bool) : list field :=
  [mk_field m CI_MRU CILEN_SHORT (is_short (mru go)) (ci_short CI_MRU (mru go)) clear_mru;
   mk_field a CI_ASYNCMAP CILEN_LONG (is_long (asyncmap go)) (ci_long CI_ASYNCMAP (asyncmap go)) clear_asyncmap;
   mk_field (neg_eap go) CI_AUTHTYPE CILEN_SHORT (is_short PPP_EAP) (ci_short CI_AUTHTYPE PPP_EAP) clear_eap;
   mk_field (asks_chap go) CI_AUTHTYPE CILEN_CHAP (is_chap (chap_mdtype go)) (ci_chap CI_AUTHTYPE (chap_mdtype go)) clear_chap;
   mk_field (asks_upap go) CI_AUTHTYPE CILEN_SHORT (is_short PPP_PAP) (ci_short CI_AUTHTYPE PPP_PAP) clear_upap;
   mk_field (neg_lqr go) CI_QUALITY CILEN_LQR (is_lqr (lqr_period go)) (ci_lqr CI_QUALITY (lqr_period go)) clear_lqr;
   mk_field (neg_cbcp go) CI_CALLBACK CILEN_CHAR (is_char CBCP_OPT) (ci_char CI_CALLBACK CBCP_OPT) clear_cbcp;
   mk_field (neg_magicnumber go) CI_MAGICNUMBER CILEN_LONG (is_long (magicnumber go)) (ci_long CI_MAGICNUMBER (magicnumber go)) clear_magicnumber;
   mk_field (neg_pcompression go) CI_PCOMPRESSION CILEN_VOID is_void (ci_void CI_PCOMPRESSION) clear_pcompression;
   mk_field (neg_accompression go) CI_ACCOMPRESSION CILEN_VOID is_void (ci_void CI_ACCOMPRESSION) clear_accompression;
   mk_field (neg_mrru go) CI_MRRU CILEN_SHORT (is_short (mrru go)) (ci_short CI_MRRU (mrru go)) clear_mrru;
   mk_field (neg_ssnhf go) CI_SSNHF CILEN_VOID is_void (ci_void CI_SSNHF) clear_ssnhf;
   mk_field (neg_endpoint go) CI_EPDISC (endp_len go) (is_endp (endpoint_class go) (endpoint_value go))
     (ci_endp CI_EPDISC (endpoint_class go) (endpoint_value go)) clear_endpoint].

(** Those of the request, and those that [lcp_rejci] looks for. *)
Definition asked_fields (go : lcp_options) : list field := fields go (asks_mru go) (asks_asyncmap go).
Definition rej_fields (go : lcp_options) : list field := fields go (neg_mru go) (neg_asyncmap go).

Lemma void_spec d : is_bytes d → Z.of_nat (length d) = 0 → is_void d = true ↔ d = [].
Proof. intros _ Hl. destruct d; [done|cbn in Hl; lia]. Qed.

Lemma be_spec n v d : is_bytes d → length d = n → 0 ≤ v < 256 ^ Z.of_nat n → (be_val d =? v) = true ↔ d = be_bytes n v.
Proof.
  intros Hd Hl Hv. rewrite Z.eqb_eq. split.
  - intros <-. rewrite <- Hl. symmetry. by apply be_bytes_val.
  - intros ->. rewrite be_val_bytes. by apply Z.mod_small.
Qed.

Lemma slice_all n (d : bytes) : (length d ≤ n)%nat → slice d 0 n = d.
Proof. intros H. unfold slice. rewrite drop_0. by apply take_ge. Qed.

Lemma short_spec v d : 0 ≤ v < 65536 → is_bytes d → Z.of_nat (length d) = 2 → is_short v d = true ↔ d = PUTSHORT v.
Proof.
  intros Hv Hd Hl. unfold is_short, get16. rewrite slice_all by lia.
  apply be_spec; [done|lia|done].
Qed.

Lemma long_spec v d : is_u32 v → is_bytes d → Z.of_nat (length d) = 4 → is_long v d = true ↔ d = PUTLONG v.
Proof.
  intros Hv Hd Hl. unfold is_long, get32. rewrite slice_all by lia.
  apply be_spec; [done|lia|exact Hv].
Qed.

Lemma chap_spec v d : is_bytes d → Z.of_nat (length d) = 3 → is_chap v d = true ↔ d = PUTSHORT PPP_CHAP ++ [CHAP_DIGEST v].
Proof.
  intros Hd Hl. destruct d as [|a [|b [|c [|? ?]]]]; cbn [length] in Hl; try lia.
  unfold is_chap. rewrite andb_true_iff. change (get16 [a; b; c] 0) with (be_val [a; b]). change ([a; b; c] !!! 2%nat) with c.
  assert (Hab : is_bytes [a; b]) by (unfold is_bytes in *; rewrite !Forall_cons in *; tauto).
  rewrite (be_spec 2 PPP_CHAP [a; b]), Z.eqb_eq by (done || (cbn; done)).
  split; [intros [E ->]|intros E]; [by injection E as -> ->|]. by injection E as -> -> ->.
Qed.

Lemma lqr_spec v d : is_u32 v → is_bytes d → Z.of_nat (length d) = 6 → is_lqr v d = true ↔ d = PUTSHORT PPP_LQR ++ PUTLONG v.
Proof.
  intros Hv Hd Hl. destruct d as [|a [|b r]]; cbn [length] in Hl; try lia.
  unfold is_lqr. rewrite andb_true_iff. change (get16 (a :: b :: r) 0) with (be_val [a; b]).
  replace (get32 (a :: b :: r) 2) with (be_val r) by (unfold get32, slice; cbn [drop]; f_equal; symmetry; apply take_ge; lia).
  assert (Hab : is_bytes [a; b] ∧ is_bytes r) by (unfold is_bytes in *; rewrite !Forall_cons, Forall_nil in *; tauto). destruct Hab as [Hab Hr].
  rewrite (be_spec 2 PPP_LQR [a; b]), (be_spec 4 v r) by (done || (cbn; done) || lia).
  split; [intros [E ->]; by injection E as -> ->|intros E]. by injection E as -> -> ->.
Qed.

Lemma endp_spec class value d :
  is_bytes d → Z.of_nat (length d) = 1 + Z.of_nat (length value) → is_endp class value d = true ↔ d = class :: value.
Proof.
  intros Hd Hl. destruct d as [|c d]; [cbn in Hl; lia|]. unfold is_endp. rewrite andb_true_iff, bool_decide_eq_true, Z.eqb_eq.
  cbn. rewrite drop_0. split; [by intros [-> ->]|by intros [= -> ->]].
Qed.

Lemma char_spec v d : Z.of_nat (length d) = 1 → is_char v d = true ↔ d = [v].
Proof.
  intros Hl. destruct d as [|c [|? ?]]; cbn in Hl; try lia. unfold is_char. rewrite Z.eqb_eq. cbn.
  split; [by intros ->|by intros [= ->]].
Qed.

Lemma fields_ok go m a : wire_range go → Forall field_ok (fields go m a).
Proof.
  intros []. repeat apply List.Forall_cons; [..|constructor]; (split; [unfold endp_len, CILEN_CHAR, fd_n, CILEN_SHORT, CILEN_LONG, CILEN_LQR, CILEN_VOID, CILEN_CHAP; lia|]);
    (split; [unfold fd_ci, fd_n, ci_short, ci_long, ci_chap, ci_lqr, ci_char, ci_void, ci_endp, PUTSHORT, PUTLONG, endp_len, CILEN_CHAR;
             rewrite ?length_app, ?length_be_bytes; cbn [length]; rewrite ?length_app; cbn; try done; lia|]);
    (split; [done|]); (split; [done|]); cbn [fd_check fd_n fd_ci]; intros d Hd Hl.
  - by apply short_spec.
  - by apply long_spec.
  - by apply short_spec.
  - by apply chap_spec.
  - by apply short_spec.
  - by apply lqr_spec.
  - by apply char_spec.
  - by apply long_spec.
  - by apply void_spec.
  - by apply void_spec.
  - by apply short_spec.
  - by apply void_spec.
  - apply endp_spec; [done|]. unfold endp_len, CILEN_CHAR in Hl. lia.
Qed.

(** The options of [fs] whose condition holds. *)
Definition request (fs : list field) : bytes := fs ≫= λ f, add_if (fd_cond f) (fd_ci f).

Lemma lcp_addci_fields go : lcp_addci go = request (asked_fields go).
Proof. unfold request, asked_fields, fields. cbn [mbind list_bind]. by rewrite app_nil_r. Qed.

Lemma is_bytes_app a b : is_bytes (a ++ b) ↔ is_bytes a ∧ is_bytes b.
Proof. apply Forall_app. Qed.

Lemma lcp_addci_bytes go : wire_range go → is_bytes (lcp_addci go).
Proof.
  intros []. assert (Hif : ∀ b ci, is_bytes ci → is_bytes (add_if b ci)) by (by intros [] ?; [|constructor]).
  assert (H1 : ∀ a l, is_u8 a → is_bytes l → is_bytes (a :: l)) by (intros; by apply Forall_cons).
  unfold lcp_addci, ci_short, ci_long, ci_chap, ci_lqr, ci_char, ci_void, ci_endp, PUTSHORT, PUTLONG.
  repeat first [apply is_bytes_app; split | apply Hif | apply is_bytes_be_bytes | apply H1 | apply CHAP_DIGEST_range | apply Forall_nil; exact I | assumption];
    try done.
  unfold is_u8, CILEN_CHAR, MAX_ENDP_LEN in *. lia.
Qed.

Lemma request_cons f fs : request (f :: fs) = add_if (fd_cond f) (fd_ci f) ++ request fs.
Proof. done. Qed.

(** The option at the head of a list of bytes. *)
Lemma field_head f : field_ok f → fd_ci f = fd_opt f :: fd_n f :: drop 2 (fd_ci f).
Proof.
  intros (Hn & Hl & H0 & H1 & _). destruct (fd_ci f) as [|x [|y r]]; cbn [length] in Hl; [lia|lia|].
  cbn in H0, H1. by subst.
Qed.

(** An option taken from the front. *)
Lemma field_front f p :
  field_ok f → is_bytes p → fd_n f ≤ Z.of_nat (length p) →
  (p !!! 1%nat =? fd_n f) = true → (p !!! 0%nat =? fd_opt f) = true →
  fd_check f (drop 2 (take (Z.to_nat (fd_n f)) p)) = true ↔ p = fd_ci f ++ drop (Z.to_nat (fd_n f)) p.
Proof.
  intros Hf Hp Hn E1 E0. apply Z.eqb_eq in E1, E0. pose proof (field_head f Hf) as Hhead.
  destruct Hf as (H2 & Hl & _ & _ & Hc). set (c := take (Z.to_nat (fd_n f)) p).
  assert (Hlc : Z.of_nat (length c) = fd_n f) by (subst c; rewrite length_take; lia).
  assert (Ec : c = fd_opt f :: fd_n f :: drop 2 c).
  { subst c. destruct p as [|x [|y r]]; cbn [length] in Hn; try lia. cbn in E0, E1. subst x y.
    by destruct (Z.to_nat (fd_n f)) as [|[|k]] eqn:Ek; [lia|lia|]. }
  assert (Hbc : is_bytes (drop 2 c)) by (apply Forall_drop, Forall_take, Hp).
  rewrite Hc by (done || (rewrite length_drop; lia)).
  assert (Ep : p = c ++ drop (Z.to_nat (fd_n f)) p) by (symmetry; apply take_drop). split; intros E.
  - rewrite Ep at 1. f_equal. rewrite Ec, Hhead. by rewrite E.
  - apply (f_equal (take (Z.to_nat (fd_n f)))) in E. rewrite take_app_length' in E by lia. unfold c. by rewrite E.
Qed.

(** ** Acks *)

Definition ack_field (f : field) (p : bytes) : option bytes := ackci (fd_cond f) (fd_opt f) (fd_n f) (fd_check f) p.
Fixpoint ack_fields (fs : list field) (p : bytes) : option bytes :=
  match fs with
  | [] => Some p
  | f :: fs => p ← ack_field f p; ack_fields fs p
  end.

Lemma lcp_ackci_fields go p : lcp_ackci go p = bool_decide (ack_fields (asked_fields go) p = Some []).
Proof.
  unfold lcp_ackci, asked_fields, fields. cbn [ack_fields]. unfold ack_field. cbn [fd_cond fd_opt fd_n fd_check].
  do 12 (match goal with |- bool_decide (ackci ?c ?o ?n ?k ?p ≫= _ = _) = _ => destruct (ackci c o n k p) end;
         cbn [mbind option_bind]; [|reflexivity]).
  by destruct (ackci _ _ _ _ _).
Qed.

Lemma ack_field_spec f p q : field_ok f → is_bytes p → ack_field f p = Some q ↔ p = add_if (fd_cond f) (fd_ci f) ++ q.
Proof.
  intros Hf Hp. unfold ack_field, ackci. destruct (fd_cond f); cbn [add_if app]; [|split; [by intros [= ->]|by intros ->]].
  unfold take_ci. destruct (Z.leb_spec (fd_n f) (Z.of_nat (length p))) as [Hn|Hn]; cbn [mbind option_bind].
  - replace (take (Z.to_nat (fd_n f)) p !!! 1%nat) with (p !!! 1%nat).
    2: { rewrite !list_lookup_total_alt, lookup_take_lt; [done|]. destruct Hf as (? & _). lia. }
    replace (take (Z.to_nat (fd_n f)) p !!! 0%nat) with (p !!! 0%nat).
    2: { rewrite !list_lookup_total_alt, lookup_take_lt; [done|]. destruct Hf as (? & _). lia. }
    destruct (p !!! 1%nat =? fd_n f) eqn:E1, (p !!! 0%nat =? fd_opt f) eqn:E0; cbn [andb].
    2-4: split; [done|]; intros ->; exfalso; rewrite (field_head f Hf) in E0, E1; cbn in E0, E1;
         rewrite Z.eqb_refl in *; done.
    pose proof (field_front f p Hf Hp Hn E1 E0) as Hfront.
    destruct (fd_check f _).
    + destruct Hfront as [Hfront _]. specialize (Hfront eq_refl). split; [by intros [= <-]|]. intros ->. f_equal.
      destruct Hf as (? & Hl & _). apply drop_app_length'. lia.
    + split; [done|]. intros ->. exfalso. assert (false = true); [|done]. apply Hfront. f_equal.
      destruct Hf as (? & Hl & _). symmetry. apply drop_app_length'. lia.
  - split; [done|]. intros ->. rewrite length_app in Hn. destruct Hf as (? & Hl & _). lia.
Qed.

Lemma ack_fields_spec fs p q : Forall field_ok fs → is_bytes p → ack_fields fs p = Some q ↔ p = request fs ++ q.
Proof.
  intros Hfs. revert p. induction Hfs as [|f fs Hf Hfs IH]; intros p Hp; cbn [ack_fields].
  - split; [by intros [= ->]|by intros ->].
  - rewrite request_cons, <- app_assoc. split.
    + intros E. apply bind_Some in E as (p1 & E1 & E2). apply ack_field_spec in E1 as ->; [|done|done].
      apply is_bytes_app in Hp as [_ Hp]. f_equal. by apply IH.
    + intros ->. apply bind_Some. exists (request fs ++ q). split; [by apply ack_field_spec|].
      apply is_bytes_app in Hp as [_ Hp]. by apply IH.
Qed.

(** The peer's Ack is good exactly when it is the request: the same options, in the
    same order, with the same values. *)
Theorem lcp_ackci_iff (go : lcp_options) (p : bytes) :
  wire_range go → is_bytes p → lcp_ackci go p = true ↔ p = lcp_addci go.
Proof.
  intros Hgo Hp. rewrite lcp_ackci_fields, bool_decide_eq_true, lcp_addci_fields.
  rewrite ack_fields_spec by (apply fields_ok || done; done). by rewrite app_nil_r.
Qed.

(** ** Rejects *)

Definition rej_field (f : field) (s : bytes * lcp_options) : option (bytes * lcp_options) :=
  rejci (fd_cond f) (fd_opt f) (fd_n f) (fd_check f) (fd_clear f) s.
Fixpoint rej_run (fs : list field) (s : bytes * lcp_options) : option (bytes * lcp_options) :=
  match fs with
  | [] => Some s
  | f :: fs => s ← rej_field f s; rej_run fs s
  end.

Lemma lcp_rejci_fields opened go p :
  lcp_rejci opened go p =
  '(p, try) ← rej_run (rej_fields go) (p, go); if decide (p = []) then Some (if (opened : bool) then go else try) else None.
Proof.
  unfold lcp_rejci, rej_fields, fields. change CILEN_CBCP with CILEN_CHAR. cbn [rej_run]. unfold rej_field. cbn [fd_cond fd_opt fd_n fd_check fd_clear].
  do 12 (match goal with |- rejci ?c ?o ?n ?k ?f ?p ≫= _ = _ => destruct (rejci c o n k f p) end;
         cbn [mbind option_bind]; [|reflexivity]).
  match goal with |- rejci ?c ?o ?n ?k ?f ?p ≫= _ = _ => destruct (rejci c o n k f p) as [[? ?]|] end; done.
Qed.

(** A selection of the options [fs] that are asked for, in their order, and [o] without them. *)
Inductive selects : list field → bytes → lcp_options → lcp_options → Prop :=
| selects_nil o : selects [] [] o o
| selects_skip f fs p o o' : selects fs p o o' → selects (f :: fs) p o o'
| selects_take f fs p o o' : fd_cond f = true → selects fs p (fd_clear f o) o' → selects (f :: fs) (fd_ci f ++ p) o o'.

(** Options that are asked for have different types. *)
Fixpoint apart (fs : list field) : Prop :=
  match fs with
  | [] => True
  | f :: fs => (∀ g, g ∈ fs → fd_cond f = true → fd_cond g = true → fd_opt f ≠ fd_opt g) ∧ apart fs
  end.

Lemma fields_apart go m a : apart (fields go m a).
Proof.
  assert (Hskip : ∀ f fs, (Forall (λ g, fd_cond f = true → fd_cond g = true → fd_opt f ≠ fd_opt g) fs) → apart fs → apart (f :: fs)).
  { intros f fs Hf Hfs. split; [|done]. intros g Hg. by apply (proj1 (Forall_forall _ _) Hf). }
  unfold fields, asks_chap, asks_upap.
  repeat (apply Hskip; [repeat (apply Forall_cons; split; [cbn; try done; destruct (neg_eap go), (neg_chap go); done|]); constructor|]). done.
Qed.

Lemma selects_head fs p o o' :
  Forall field_ok fs → selects fs p o o' → p ≠ [] → ∃ f, f ∈ fs ∧ fd_cond f = true ∧ p !!! 0%nat = fd_opt f.
Proof.
  intros Hfs Hs. induction Hs as [o|f fs p o o' Hs IH|f fs p o o' Hc Hs IH]; intros Hp; [done| |].
  - apply Forall_cons in Hfs as [_ Hfs]. destruct (IH Hfs Hp) as (g & Hg & Hcg & E). exists g. split; [by right|done].
  - apply Forall_cons in Hfs as [Hf _]. exists f. split; [by left|]. split; [done|]. by rewrite (field_head f Hf).
Qed.

Lemma rej_run_selects fs p o o' :
  Forall field_ok fs → apart fs → is_bytes p → rej_run fs (p, o) = Some ([], o') ↔ selects fs p o o'.
Proof.
  intros Hfs. revert p o. induction Hfs as [|f fs Hf Hfs IH]; intros p o Ha Hp; cbn [rej_run].
  - split; [intros [= -> ->]; constructor|]. intros Hs. by inversion Hs.
  - destruct Ha as [Hfar Ha]. pose proof Hf as (Hn2 & Hln & _). unfold rej_field, rejci at 1.
    destruct (fd_cond f && _ && _ && _) eqn:E.
    + apply andb_true_iff in E as [E E0]. apply andb_true_iff in E as [E E1]. apply andb_true_iff in E as [Ec En].
      apply Z.leb_le in En. pose proof (field_front f p Hf Hp En E1 E0) as Hfront.
      replace (take (Z.to_nat (fd_n f - 2)) (drop 2 p)) with (drop 2 (take (Z.to_nat (fd_n f)) p)).
      2: { rewrite take_drop_commute. do 2 f_equal. lia. }
      destruct (fd_check f _) eqn:Echk; cbn [mbind option_bind].
      * destruct Hfront as [Hfront _]. specialize (Hfront eq_refl). rewrite IH by (done || by apply Forall_drop). split.
        -- intros Hs. rewrite Hfront. by constructor.
        -- intros Hs. inversion Hs as [|? ? ? ? ? Hs'|? ? p' ? ? _ Hs']; subst.
           ++ exfalso. assert (Hne : p ≠ []) by (intros ->; cbn in En; lia).
              destruct (selects_head _ _ _ _ Hfs Hs' Hne) as (g & Hg & Hcg & Eg). apply Z.eqb_eq in E0.
              apply (Hfar g Hg Ec Hcg). congruence.
           ++ rewrite drop_app_length' by lia. done.
      * split; [done|]. intros Hs. exfalso. inversion Hs as [|? ? ? ? ? Hs'|? ? p' ? ? _ Hs']; subst.
        -- assert (Hne : p ≠ []) by (intros ->; cbn in En; lia).
           destruct (selects_head _ _ _ _ Hfs Hs' Hne) as (g & Hg & Hcg & Eg). apply Z.eqb_eq in E0.
           apply (Hfar g Hg Ec Hcg). congruence.
        -- assert (false = true); [|done]. apply Hfront. by rewrite drop_app_length' by lia.
    + cbn [mbind option_bind]. rewrite IH by done. split; [by constructor|]. intros Hs.
      inversion Hs as [|? ? ? ? ? Hs'|? ? p' ? ? Hc Hs']; subst; [done|]. exfalso.
      rewrite Hc, length_app in E. rewrite (proj2 (Z.leb_le _ _)) in E by lia.
      rewrite (field_head f Hf) in E. cbn in E. by rewrite !Z.eqb_refl in E.
Qed.

(** The peer's Reject is good exactly when it is a selection of the options of the
    request, in their order and with their values (also of an MRU or a map that was not
    sent since it has the default value); and then exactly these options are given up,
    with a CHAP option every way to authenticate. *)
Theorem lcp_rejci_iff (go : lcp_options) (p : bytes) (go' : lcp_options) :
  wire_range go → is_bytes p → lcp_rejci false go p = Some go' ↔ selects (rej_fields go) p go go'.
Proof.
  intros Hgo Hp. unfold rej_fields. rewrite <- (rej_run_selects _ _ _ _ (fields_ok go _ _ Hgo) (fields_apart go _ _) Hp), lcp_rejci_fields. unfold rej_fields.
  destruct (rej_run _ _) as [[q try]|]; cbn [mbind option_bind]; [|done].
  destruct (decide (q = [])) as [->|Hq]; [by split; intros [= ->]|]. split; [done|]. by intros [= -> ->].
Qed.

(** ** Requests of the peer *)

Section requests.
Context (mrand48 : nat → Z) (multilink reject_if_disagree : bool) (go ao : lcp_options).

Definition answer (l : bytes) (s : req_state) : res req_state :=
  req_loop mrand48 (length l) multilink reject_if_disagree go ao l s.

(** The head of [l] is not an option. *)
Definition malformed (l : bytes) : bool :=
  (Z.of_nat (length l) <? 2) || (l !!! 1%nat <? 2) || (Z.of_nat (length l) <? l !!! 1%nat).

Lemma req_loop_fuel fuel l s :
  (length l ≤ fuel)%nat → req_loop mrand48 fuel multilink reject_if_disagree go ao l s = answer l s.
Proof.
  unfold answer. revert fuel s. induction l as [l IH] using (induction_ltof1 _ (@length Z)); unfold ltof in IH. intros fuel s Hf.
  destruct l as [|x l]; [by destruct fuel|]. destruct fuel as [|fuel]; [cbn in Hf; lia|]. cbn [length req_loop].
  change ((Z.of_nat (S (length l)) <? 2) || ((x :: l) !!! 1%nat <? 2) || (Z.of_nat (S (length l)) <? (x :: l) !!! 1%nat)) with (malformed (x :: l)).
  destruct (malformed (x :: l)) eqn:Hm; [done|]. unfold malformed in Hm. rewrite !orb_false_iff in Hm. destruct Hm as [[_ Hm] _].
  apply Z.ltb_ge in Hm. destruct (req_verdict _ _ _ _ _ _ _ _ _) as [v d]. destruct (req_account _ _ _ _ _ _) as [s1| |]; [|done|done].
  rewrite !bind_ret. set (l' := drop _ _). assert (Hl' : (length l' ≤ length l)%nat) by (subst l'; rewrite length_drop; cbn [length]; lia).
  cbn [length] in Hf. rewrite (IH l' ltac:(cbn [length]; lia) fuel), (IH l' ltac:(cbn [length]; lia) (length l)) by lia. done.
Qed.

Lemma answer_step l s :
  l ≠ [] →
  answer l s = if malformed l then req_account reject_if_disagree 0 l Reject (rq_drawn s) s
               else
                 let ci := take (Z.to_nat (l !!! 1%nat)) l in
                 let '(v, drawn) := req_verdict mrand48 multilink go ao (rq_ho s) (rq_drawn s) (l !!! 0%nat) (l !!! 1%nat) (drop 2 ci) in
                 s ← req_account reject_if_disagree (l !!! 0%nat) ci v drawn s;
                 answer (drop (Z.to_nat (l !!! 1%nat)) l) s.
Proof.
  intros Hl. destruct l as [|x l]; [done|]. unfold answer at 1. cbn [length req_loop].
  change ((Z.of_nat (S (length l)) <? 2) || ((x :: l) !!! 1%nat <? 2) || (Z.of_nat (S (length l)) <? (x :: l) !!! 1%nat)) with (malformed (x :: l)).
  destruct (malformed (x :: l)) eqn:Hm; [done|]. unfold malformed in Hm. rewrite !orb_false_iff in Hm. destruct Hm as [[_ Hm] _].
  apply Z.ltb_ge in Hm. cbv zeta. destruct (req_verdict _ _ _ _ _ _ _ _ _) as [v d].
  destruct (req_account _ _ _ _ _ _) as [s1| |]; [|done|done]. rewrite !bind_ret.
  apply req_loop_fuel. rewrite length_drop. cbn [length]. lia.
Qed.

(** A hint is at most a quarter longer than the option that it answers. *)
Lemma req_verdict_hint ho drawn citype cilen d hint :
  2 ≤ cilen → fst (req_verdict mrand48 multilink go ao ho drawn citype cilen d) = Nak hint →
  4 * Z.of_nat (length hint) ≤ 5 * cilen.
Proof.
  intros Hc. unfold req_verdict, req_auth, nak_eap, nak_pap, nak_chap, magic.
  unfold CILEN_SHORT, CILEN_LONG, CILEN_LQR, CILEN_VOID, CILEN_CHAR, CILEN_CHAP.
  repeat (case_match; cbn [fst]; try discriminate); intros [= <-]; cbn [length app ci_short ci_long ci_chap ci_lqr PUTSHORT PUTLONG be_bytes];
    rewrite ?negb_false_iff, ?orb_false_iff, ?negb_true_iff, ?Z.eqb_eq, ?Z.ltb_ge in *;
    unfold PUTSHORT, PUTLONG; rewrite ?length_app, ?length_be_bytes; cbn [length]; lia.
Qed.

(** What an answer may look like. *)
Definition fits (l : bytes) (s s' : req_state) : Prop :=
  Z.of_nat (length (rq_nak s')) ≤ PPP_MRU ∧ rq_rc s' ∈ [CONFACK; CONFNAK; CONFREJ]
  ∧ (∃ x, rq_rej s' = rq_rej s ++ x ∧ x `sublist_of` l ∧ (rq_rc s' = CONFREJ → rq_rc s = CONFREJ ∨ x ≠ []))
  ∧ (rq_rc s' = CONFACK → rq_rc s = CONFACK).

Lemma answer_fits l s :
  4 * Z.of_nat (length (rq_nak s)) + 5 * Z.of_nat (length l) ≤ 4 * PPP_MRU → rq_rc s ∈ [CONFACK; CONFNAK; CONFREJ] →
  ∃ s', answer l s = Ok s' ∧ fits l s s'.
Proof.
  revert s. induction l as [l IH] using (induction_ltof1 _ (@length Z)); unfold ltof in IH. intros s Hb Hrc.
  destruct (decide (l = [])) as [->|Hl].
  { exists s. split; [done|]. split; [cbn in Hb; lia|]. split; [done|]. split; [|done]. exists []. rewrite app_nil_r. split; [done|]. split; [done|by left]. }
  rewrite answer_step by done. destruct (malformed l) eqn:Hm.
  { eexists. split; [done|]. unfold fits. cbn. split; [lia|]. split; [by right; right; left|]. split; [|done].
    exists l. split; [done|]. split; [done|by right]. }
  unfold malformed in Hm. rewrite !orb_false_iff, !Z.ltb_ge in Hm. destruct Hm as [[Hl2 Hm] Hm2]. cbv zeta.
  set (cilen := l !!! 1%nat) in *. set (ci := take (Z.to_nat cilen) l). set (l' := drop (Z.to_nat cilen) l).
  assert (Hl' : Z.of_nat (length l') = Z.of_nat (length l) - cilen) by (subst l'; rewrite length_drop; lia).
  assert (Hci : ci ++ l' = l) by apply take_drop.
  destruct (req_verdict _ _ _ _ _ _ _ _ _) as [v d] eqn:Ev.
  assert (Hhint : ∀ hint, v = Nak hint → 4 * Z.of_nat (length hint) ≤ 5 * cilen).
  { intros hint ->. eapply (req_verdict_hint (rq_ho s) (rq_drawn s) (l !!! 0%nat) cilen (drop 2 ci)); [done|]. by rewrite Ev. }
  assert (Hacc : ∃ s1, req_account reject_if_disagree (l !!! 0%nat) ci v d s = Ok s1
     ∧ 4 * Z.of_nat (length (rq_nak s1)) ≤ 4 * Z.of_nat (length (rq_nak s)) + 5 * cilen
     ∧ fits ci s s1).
  { unfold fits. destruct v as [ho|hint|]; cbn [req_account].
    - eexists. split; [done|]. cbn. split; [lia|]. split; [lia|]. split; [done|]. split; [|done]. exists []. rewrite app_nil_r.
      split; [done|]. split; [apply sublist_nil_l|by left].
    - specialize (Hhint hint eq_refl). unfold put_nak. rewrite (proj2 (Z.leb_le _ _)) by (rewrite length_app; lia). rewrite bind_ret.
      destruct (reject_if_disagree && _).
      + eexists. split; [done|]. cbn. rewrite length_app. split; [lia|]. split; [lia|]. split; [by right; right; left|]. split; [|done].
        exists ci. split; [done|]. split; [done|]. right. intros E. rewrite E in Hci. cbn in Hci. rewrite Hci in Hl'. lia.
      + eexists. split; [done|]. cbn. rewrite length_app. split; [lia|]. split; [lia|].
        destruct (Z.eqb_spec (rq_rc s) CONFREJ) as [Er|Er].
        * split; [by right; right; left|]. split; [|done]. exists []. rewrite app_nil_r. split; [done|]. split; [apply sublist_nil_l|by left].
        * split; [by right; left|]. split; [|done]. exists []. rewrite app_nil_r. split; [done|]. split; [apply sublist_nil_l|done].
    - eexists. split; [done|]. cbn. split; [lia|]. split; [lia|]. split; [by right; right; left|]. split; [|done].
      exists ci. split; [done|]. split; [done|]. right. intros E. rewrite E in Hci. cbn in Hci. rewrite Hci in Hl'. lia. }
  destruct Hacc as (s1 & -> & Hn1 & F1 & F2 & (x1 & E1 & X1 & Y1) & F4). rewrite bind_ret.
  destruct (IH l' ltac:(lia) s1 ltac:(lia) F2) as (s' & -> & G1 & G2 & (x2 & E2 & X2 & Y2) & G4).
  exists s'. split; [done|]. split; [done|]. split; [done|]. split; [|auto].
  exists (x1 ++ x2). rewrite E2, E1, app_assoc. split; [done|]. split; [rewrite <- Hci; by apply sublist_app|].
  intros E. destruct (Y2 E) as [E'|Hx]; [|right; by destruct x1]. destruct (Y1 E') as [|Hx]; [by left|]. right. by destruct x1.
Qed.

(** ** Requests built by [lcp_addci] *)

(** An option of the request at the front, and its verdict. *)
Lemma answer_field f rest s :
  field_ok f →
  answer (fd_ci f ++ rest) s =
    let '(v, drawn) := req_verdict mrand48 multilink go ao (rq_ho s) (rq_drawn s) (fd_opt f) (fd_n f) (drop 2 (fd_ci f)) in
    s ← req_account reject_if_disagree (fd_opt f) (fd_ci f) v drawn s; answer rest s.
Proof.
  intros Hf. pose proof (field_head f Hf) as Hh. destruct Hf as (Hn & Hl & H0 & H1 & _).
  rewrite answer_step by (rewrite Hh; done).
  assert (E0 : (fd_ci f ++ rest) !!! 0%nat = fd_opt f) by (by rewrite Hh).
  assert (E1 : (fd_ci f ++ rest) !!! 1%nat = fd_n f) by (by rewrite Hh).
  unfold malformed. rewrite E0, E1, length_app. rewrite !(proj2 (Z.ltb_ge _ _)) by lia. cbn [orb]. cbv zeta.
  rewrite take_app_length', drop_app_length' by lia. done.
Qed.

(** It is acknowledged. *)
Lemma answer_accepts f rest s ho :
  field_ok f →
  (fd_cond f = true → req_verdict mrand48 multilink go ao (rq_ho s) (rq_drawn s) (fd_opt f) (fd_n f) (drop 2 (fd_ci f)) = (Accept ho, rq_drawn s)) →
  answer (add_if (fd_cond f) (fd_ci f) ++ rest) s
  = answer rest (mk_req (if fd_cond f then ho else rq_ho s) (rq_nak s) (rq_rej s) (rq_rc s) (rq_drawn s)).
Proof.
  intros Hf Hv. destruct (fd_cond f); cbn [add_if app]; [|by destruct s].
  rewrite answer_field by done. rewrite Hv by done. cbn [req_account]. by rewrite bind_ret.
Qed.

Lemma answer_rc l s s' : answer l s = Ok s' → rq_rc s' = CONFACK → rq_rc s = CONFACK.
Proof.
  revert s. induction l as [l IH] using (induction_ltof1 _ (@length Z)); unfold ltof in IH. intros s E Hrc.
  destruct (decide (l = [])) as [->|Hl]; [by injection E as <-|]. rewrite answer_step in E by done.
  destruct (malformed l) eqn:Hm; [by injection E as <-|]. cbv zeta in E.
  destruct (req_verdict _ _ _ _ _ _ _ _ _) as [v d]. destruct (req_account _ _ _ _ _ _) as [s1| |] eqn:Ea; [|done|done].
  rewrite bind_ret in E. unfold malformed in Hm. rewrite !orb_false_iff, !Z.ltb_ge in Hm. destruct Hm as [[Hl2 Hm] Hm2].
  apply IH in E; [|rewrite length_drop; lia|done]. destruct v as [ho|hint|]; cbn [req_account] in Ea.
  - by injection Ea as <-.
  - unfold put_nak in Ea. destruct (_ <=? _); [|done]. rewrite bind_ret in Ea. destruct (reject_if_disagree && _); injection Ea as <-; [done|].
    cbn in E. by destruct (rq_rc s =? CONFREJ).
  - by injection Ea as <-.
Qed.

(** When the answer is an Ack, every option in it has been accepted. *)
Lemma answer_accepted f rest s s' :
  field_ok f → answer (add_if (fd_cond f) (fd_ci f) ++ rest) s = Ok s' → rq_rc s' = CONFACK →
  ∃ s1, answer rest s1 = Ok s'
    ∧ (fd_cond f = true → ∃ ho ho' drawn drawn', req_verdict mrand48 multilink go ao ho drawn (fd_opt f) (fd_n f) (drop 2 (fd_ci f)) = (Accept ho', drawn')).
Proof.
  intros Hf E Hrc. destruct (fd_cond f); cbn [add_if app] in E; [|by exists s].
  rewrite answer_field in E by done. destruct (req_verdict _ _ _ _ _ _ _ _ _) as [v d] eqn:Ev.
  destruct (req_account _ _ _ _ _ _) as [s1| |] eqn:Ea; [|done|done]. rewrite bind_ret in E. exists s1. split; [done|].
  intros _. pose proof (answer_rc _ _ _ E Hrc) as Hrc1. destruct v as [ho|hint|]; cbn [req_account] in Ea.
  - by exists (rq_ho s), ho, (rq_drawn s), d.
  - exfalso. unfold put_nak in Ea. destruct (_ <=? _); [|done]. rewrite bind_ret in Ea.
    destruct (reject_if_disagree && _); injection Ea as <-; [done|]. cbn in Hrc1. by destruct (rq_rc s =? CONFREJ).
  - exfalso. by injection Ea as <-.
Qed.

(** The options [p] of the peer are permitted. *)
Record permits (p : lcp_options) : Prop := {
  pm_mru : asks_mru p = true → neg_mru ao = true ∧ MINMRU ≤ mru p;
  pm_asyncmap : asks_asyncmap p = true → neg_asyncmap ao = true ∧ Z.land (asyncmap ao) (Z.lnot (asyncmap p)) = 0;
  pm_eap : neg_eap p = true → neg_eap ao = true;
  pm_chap : asks_chap p = true → neg_chap ao = true ∧ CHAP_CANDIGEST (chap_mdtype ao) (CHAP_DIGEST (chap_mdtype p)) = true;
  pm_upap : asks_upap p = true → neg_upap ao = true;
  pm_lqr : neg_lqr p = true → neg_lqr ao = true;
  pm_cbcp : neg_cbcp p = false;
  pm_magic : neg_magicnumber p = true →
    (neg_magicnumber ao || neg_magicnumber go = true) ∧ (neg_magicnumber go = true → magicnumber p ≠ magicnumber go);
  pm_pcompression : neg_pcompression p = true → neg_pcompression ao = true;
  pm_accompression : neg_accompression p = true → neg_accompression ao = true;
  pm_mrru : neg_mrru p = true → neg_mrru ao = true ∧ multilink = true;
  pm_ssnhf : neg_ssnhf p = true → neg_ssnhf ao = true ∧ multilink = true;
  pm_endpoint : neg_endpoint p = true → neg_endpoint ao = true ∧ Z.of_nat (length (endpoint_value p)) ≤ MAX_ENDP_LEN }.

(** What is recorded of them in [ho]; the quality reports are not. *)
Definition granted (p : lcp_options) : lcp_options :=
  mk_lcp_options (asks_mru p) (asks_asyncmap p) (asks_upap p) (asks_chap p) (neg_eap p) (neg_magicnumber p)
    (neg_pcompression p) (neg_accompression p) false false (neg_mrru p) (neg_ssnhf p) (neg_endpoint p)
    (if asks_mru p then mru p else 0) (if neg_mrru p then mrru p else 0)
    (if asks_chap p then CHAP_MDTYPE_D (CHAP_DIGEST (chap_mdtype p)) else 0)
    (if asks_asyncmap p then asyncmap p else 0) (if neg_magicnumber p then magicnumber p else 0) 0 0
    (if neg_endpoint p then endpoint_class p else 0) (if neg_endpoint p then endpoint_value p else []).

(** The verdicts on the options that [lcp_addci] writes. *)
Lemma get16_short v : 0 ≤ v < 65536 → get16 (PUTSHORT v) 0 = v.
Proof. intros H. unfold get16, PUTSHORT. rewrite slice_all by done. rewrite be_val_bytes. by apply Z.mod_small. Qed.

Lemma get32_long v : is_u32 v → get32 (PUTLONG v) 0 = v.
Proof. intros H. unfold get32, PUTLONG. rewrite slice_all by done. rewrite be_val_bytes. by apply Z.mod_small. Qed.

Lemma nz_false z : nz z = false ↔ z = 0.
Proof. unfold nz. rewrite negb_false_iff. apply Z.eqb_eq. Qed.

Abbreviation judge ho drawn f := (req_verdict mrand48 multilink go ao ho drawn (fd_opt f) (fd_n f) (drop 2 (fd_ci f))).

Definition nth_field (p : lcp_options) (i : nat) : field :=
  nth i (asked_fields p) (mk_field false 0 0 is_void [] id).

Lemma judge_mru p ho drawn :
  wire_range p → judge ho drawn (nth_field p 0) =
  (if negb (neg_mru ao) then Reject else if mru p <? MINMRU then Nak (ci_short CI_MRU MINMRU) else Accept (set_neg_mru ho true (mru p)), drawn).
Proof.
  intros []. change (judge ho drawn (nth_field p 0)) with
    (if negb (neg_mru ao) || false then Reject else if get16 (PUTSHORT (mru p)) 0 <? MINMRU then Nak (ci_short CI_MRU MINMRU)
     else Accept (set_neg_mru ho true (get16 (PUTSHORT (mru p)) 0)), drawn).
  by rewrite get16_short, orb_false_r.
Qed.

Lemma judge_asyncmap p ho drawn :
  wire_range p → judge ho drawn (nth_field p 1) =
  (if negb (neg_asyncmap ao) then Reject
   else if nz (Z.land (asyncmap ao) (Z.lnot (asyncmap p))) then Nak (ci_long CI_ASYNCMAP (Z.lor (asyncmap ao) (asyncmap p)))
   else Accept (set_neg_asyncmap ho true (asyncmap p)), drawn).
Proof.
  intros []. change (judge ho drawn (nth_field p 1)) with
    (if negb (neg_asyncmap ao) || false then Reject
     else let cilong := get32 (PUTLONG (asyncmap p)) 0 in
       if nz (Z.land (asyncmap ao) (Z.lnot cilong)) then Nak (ci_long CI_ASYNCMAP (Z.lor (asyncmap ao) cilong))
       else Accept (set_neg_asyncmap ho true cilong), drawn).
  by rewrite get32_long, orb_false_r.
Qed.

Lemma judge_eap p ho drawn :
  ∃ h, judge ho drawn (nth_field p 2) =
  (if negb (neg_upap ao || neg_chap ao || neg_eap ao) then Reject
   else if neg_chap ho || neg_upap ho || false then Reject else if negb (neg_eap ao) then Nak h else Accept (set_neg_eap ho true), drawn).
Proof. eexists. reflexivity. Qed.

Lemma judge_chap p ho drawn :
  ∃ h h', judge ho drawn (nth_field p 3) =
  (if negb (neg_upap ao || neg_chap ao || neg_eap ao) then Reject
   else if neg_upap ho || neg_eap ho || false then Reject else if negb (neg_chap ao) then Nak h
   else if negb (CHAP_CANDIGEST (chap_mdtype ao) (CHAP_DIGEST (chap_mdtype p))) then Nak h'
   else Accept (set_auth ho (neg_upap ho) true (neg_eap ho) (CHAP_MDTYPE_D (CHAP_DIGEST (chap_mdtype p)))), drawn).
Proof. do 2 eexists. reflexivity. Qed.

Lemma judge_upap p ho drawn :
  ∃ h, judge ho drawn (nth_field p 4) =
  (if negb (neg_upap ao || neg_chap ao || neg_eap ao) then Reject
   else if neg_chap ho || neg_eap ho || false then Reject else if negb (neg_upap ao) then Nak h else Accept (set_neg_upap ho true), drawn).
Proof. eexists. reflexivity. Qed.

Lemma judge_lqr p ho drawn : judge ho drawn (nth_field p 5) = (if negb (neg_lqr ao) then Reject else Accept ho, drawn).
Proof.
  change (judge ho drawn (nth_field p 5)) with
    (if negb (neg_lqr ao) || false then Reject else if negb (get16 (PUTSHORT PPP_LQR ++ PUTLONG (lqr_period p)) 0 =? PPP_LQR)
     then Nak (ci_lqr CI_QUALITY (lqr_period ao)) else Accept ho, drawn).
  by rewrite orb_false_r.
Qed.

Lemma judge_cbcp p ho drawn : judge ho drawn (nth_field p 6) = (Reject, drawn).
Proof. reflexivity. Qed.

Lemma judge_magic p ho drawn :
  wire_range p → judge ho drawn (nth_field p 7) =
  if negb (neg_magicnumber ao || neg_magicnumber go) then (Reject, drawn)
  else if neg_magicnumber go && (magicnumber p =? magicnumber go) then
    (Nak (ci_long CI_MAGICNUMBER (fst (magic mrand48 drawn))), snd (magic mrand48 drawn))
  else (Accept (set_neg_magicnumber ho true (magicnumber p)), drawn).
Proof.
  intros []. change (judge ho drawn (nth_field p 7)) with
    (if negb (neg_magicnumber ao || neg_magicnumber go) || false then (Reject, drawn)
     else let cilong := get32 (PUTLONG (magicnumber p)) 0 in
       if neg_magicnumber go && (cilong =? magicnumber go) then
         (Nak (ci_long CI_MAGICNUMBER (fst (magic mrand48 drawn))), snd (magic mrand48 drawn))
       else (Accept (set_neg_magicnumber ho true cilong), drawn)).
  by rewrite get32_long, orb_false_r.
Qed.

Lemma judge_pcompression p ho drawn :
  judge ho drawn (nth_field p 8) = (if negb (neg_pcompression ao) || false then Reject else Accept (set_neg_pcompression ho true), drawn).
Proof. reflexivity. Qed.

Lemma judge_accompression p ho drawn :
  judge ho drawn (nth_field p 9) = (if negb (neg_accompression ao) || false then Reject else Accept (set_neg_accompression ho true), drawn).
Proof. reflexivity. Qed.

Lemma judge_mrru p ho drawn :
  wire_range p → judge ho drawn (nth_field p 10) =
  (if negb (neg_mrru ao) || negb multilink || false then Reject else Accept (set_neg_mrru ho true (mrru p)), drawn).
Proof.
  intros []. change (judge ho drawn (nth_field p 10)) with
    (if negb (neg_mrru ao) || negb multilink || false then Reject else Accept (set_neg_mrru ho true (get16 (PUTSHORT (mrru p)) 0)), drawn).
  by rewrite get16_short.
Qed.

Lemma judge_ssnhf p ho drawn :
  judge ho drawn (nth_field p 11) = (if negb (neg_ssnhf ao) || negb multilink || false then Reject else Accept (set_neg_ssnhf ho true), drawn).
Proof. reflexivity. Qed.

Lemma judge_endpoint p ho drawn :
  judge ho drawn (nth_field p 12) =
  (if negb (neg_endpoint ao) || (endp_len p <? CILEN_CHAR) || (CILEN_CHAR + MAX_ENDP_LEN <? endp_len p) then Reject
   else Accept (set_neg_endpoint ho true (endpoint_class p) (endpoint_value p)), drawn).
Proof.
  change (judge ho drawn (nth_field p 12)) with
  (if negb (neg_endpoint ao) || (endp_len p <? CILEN_CHAR) || (CILEN_CHAR + MAX_ENDP_LEN <? endp_len p) then Reject
   else Accept (set_neg_endpoint ho true (endpoint_class p) (drop 0 (endpoint_value p))), drawn).
  by rewrite drop_0.
Qed.

Lemma if_mru (c : bool) v o : (if c then set_neg_mru o true v else o) = set_neg_mru o (c || neg_mru o) (if c then v else mru o).
Proof. by destruct c, o. Qed.
Lemma if_asyncmap (c : bool) v o : (if c then set_neg_asyncmap o true v else o) = set_neg_asyncmap o (c || neg_asyncmap o) (if c then v else asyncmap o).
Proof. by destruct c, o. Qed.
Lemma if_eap (c : bool) o : (if c then set_neg_eap o true else o) = set_neg_eap o (c || neg_eap o).
Proof. by destruct c, o. Qed.
Lemma if_chap (c : bool) v o :
  (if c then set_auth o (neg_upap o) true (neg_eap o) v else o) = set_auth o (neg_upap o) (c || neg_chap o) (neg_eap o) (if c then v else chap_mdtype o).
Proof. by destruct c, o. Qed.
Lemma if_upap (c : bool) o : (if c then set_neg_upap o true else o) = set_neg_upap o (c || neg_upap o).
Proof. by destruct c, o. Qed.
Lemma if_magic (c : bool) v o : (if c then set_neg_magicnumber o true v else o) = set_neg_magicnumber o (c || neg_magicnumber o) (if c then v else magicnumber o).
Proof. by destruct c, o. Qed.
Lemma if_pcompression (c : bool) o : (if c then set_neg_pcompression o true else o) = set_neg_pcompression o (c || neg_pcompression o).
Proof. by destruct c, o. Qed.
Lemma if_accompression (c : bool) o : (if c then set_neg_accompression o true else o) = set_neg_accompression o (c || neg_accompression o).
Proof. by destruct c, o. Qed.
Lemma if_mrru (c : bool) v o : (if c then set_neg_mrru o true v else o) = set_neg_mrru o (c || neg_mrru o) (if c then v else mrru o).
Proof. by destruct c, o. Qed.
Lemma if_ssnhf (c : bool) o : (if c then set_neg_ssnhf o true else o) = set_neg_ssnhf o (c || neg_ssnhf o).
Proof. by destruct c, o. Qed.
Lemma if_endpoint (c : bool) k v o :
  (if c then set_neg_endpoint o true k v else o) = set_neg_endpoint o (c || neg_endpoint o) (if c then k else endpoint_class o) (if c then v else endpoint_value o).
Proof. by destruct c, o. Qed.

Lemma asked_nth p : asked_fields p = nth_field p <$> seq 0 13.
Proof. reflexivity. Qed.

Lemma nth_field_ok p i : wire_range p → (i < 13)%nat → field_ok (nth_field p i).
Proof.
  intros Hp Hi. pose proof (fields_ok p (asks_mru p) (asks_asyncmap p) Hp) as Hall. rewrite Forall_forall in Hall. apply Hall.
  unfold nth_field. apply list_elem_of_In. apply nth_In. exact Hi.
Qed.

(** The permitted options of a request, one at a time. *)
Section steps.
Context (p : lcp_options) (Hp : wire_range p) (Hpm : permits p) (rest : bytes) (ho : lcp_options) (nak rej : bytes) (rc : Z) (drawn : nat).

Abbreviation step i new :=
  (answer (add_if (fd_cond (nth_field p i)) (fd_ci (nth_field p i)) ++ rest) (mk_req ho nak rej rc drawn)
   = answer rest (mk_req new nak rej rc drawn)).

(** It is enough that the verdict accepts. *)
Lemma accept_step i new :
  (i < 13)%nat → (fd_cond (nth_field p i) = true → judge ho drawn (nth_field p i) = (Accept new, drawn)) →
  step i (if fd_cond (nth_field p i) then new else ho).
Proof. intros Hi Hv. by rewrite (answer_accepts (nth_field p i) rest (mk_req ho nak rej rc drawn) new (nth_field_ok p i Hp Hi) Hv). Qed.

Lemma accept_mru : step 0 (set_neg_mru ho (asks_mru p || neg_mru ho) (if asks_mru p then mru p else mru ho)).
Proof.
  rewrite <- if_mru. apply (accept_step 0); [lia|]. intros Hc. destruct (pm_mru _ Hpm Hc) as [Ha Hm].
  rewrite judge_mru by done. by rewrite Ha, (proj2 (Z.ltb_ge _ _)).
Qed.
Lemma accept_asyncmap : step 1 (set_neg_asyncmap ho (asks_asyncmap p || neg_asyncmap ho) (if asks_asyncmap p then asyncmap p else asyncmap ho)).
Proof.
  rewrite <- if_asyncmap. apply (accept_step 1); [lia|]. intros Hc. destruct (pm_asyncmap _ Hpm Hc) as [Ha Hm].
  rewrite judge_asyncmap by done. by rewrite Ha, (proj2 (nz_false _)).
Qed.
Lemma accept_eap : neg_chap ho = false → neg_upap ho = false → step 2 (set_neg_eap ho (neg_eap p || neg_eap ho)).
Proof.
  intros H1 H2. rewrite <- if_eap. apply (accept_step 2); [lia|]. intros Hc. pose proof (pm_eap _ Hpm Hc) as Ha.
  destruct (judge_eap p ho drawn) as [h ->]. by rewrite Ha, H1, H2, !orb_true_r.
Qed.
Lemma accept_chap :
  neg_upap ho = false → neg_eap ho = neg_eap p →
  step 3 (set_auth ho (neg_upap ho) (asks_chap p || neg_chap ho) (neg_eap ho)
            (if asks_chap p then CHAP_MDTYPE_D (CHAP_DIGEST (chap_mdtype p)) else chap_mdtype ho)).
Proof.
  intros H1 H2. rewrite <- if_chap. apply (accept_step 3); [lia|]. intros Hc. destruct (pm_chap _ Hpm Hc) as [Ha Hd].
  destruct (judge_chap p ho drawn) as (h & h' & ->). change (asks_chap p = true) in Hc. unfold asks_chap in Hc.
  apply andb_true_iff in Hc as [Hc _]. apply negb_true_iff in Hc. by rewrite Ha, Hd, H1, H2, Hc, !orb_true_r.
Qed.
Lemma accept_upap : neg_chap ho = asks_chap p → neg_eap ho = neg_eap p → step 4 (set_neg_upap ho (asks_upap p || neg_upap ho)).
Proof.
  intros H1 H2. rewrite <- if_upap. apply (accept_step 4); [lia|]. intros Hc. pose proof (pm_upap _ Hpm Hc) as Ha.
  destruct (judge_upap p ho drawn) as [h ->]. change (asks_upap p = true) in Hc. unfold asks_upap in Hc. unfold asks_chap in H1.
  destruct (neg_eap p), (neg_chap p); try done. by rewrite Ha, H1, H2.
Qed.
Lemma accept_lqr : step 5 ho.
Proof.
  pose proof (accept_step 5 ho) as H. destruct (fd_cond (nth_field p 5)) eqn:Hc; apply H; [lia| |lia|done];
  intros _; rewrite judge_lqr; by rewrite (pm_lqr _ Hpm Hc).
Qed.
Lemma accept_cbcp : step 6 ho.
Proof. change (fd_cond (nth_field p 6)) with (neg_cbcp p). by rewrite (pm_cbcp _ Hpm). Qed.
Lemma accept_magic : step 7 (set_neg_magicnumber ho (neg_magicnumber p || neg_magicnumber ho) (if neg_magicnumber p then magicnumber p else magicnumber ho)).
Proof.
  rewrite <- if_magic. apply (accept_step 7); [lia|]. intros Hc. destruct (pm_magic _ Hpm Hc) as [Ha Hm].
  rewrite judge_magic by done. rewrite Ha. cbn [negb]. destruct (neg_magicnumber go) eqn:Eg; [|done].
  by rewrite (proj2 (Z.eqb_neq _ _)) by auto.
Qed.
Lemma accept_pcompression : step 8 (set_neg_pcompression ho (neg_pcompression p || neg_pcompression ho)).
Proof.
  rewrite <- if_pcompression. apply (accept_step 8); [lia|]. intros Hc. rewrite judge_pcompression.
  by rewrite (pm_pcompression _ Hpm Hc).
Qed.
Lemma accept_accompression : step 9 (set_neg_accompression ho (neg_accompression p || neg_accompression ho)).
Proof.
  rewrite <- if_accompression. apply (accept_step 9); [lia|]. intros Hc. rewrite judge_accompression.
  by rewrite (pm_accompression _ Hpm Hc).
Qed.
Lemma accept_mrru : step 10 (set_neg_mrru ho (neg_mrru p || neg_mrru ho) (if neg_mrru p then mrru p else mrru ho)).
Proof.
  rewrite <- if_mrru. apply (accept_step 10); [lia|]. intros Hc. rewrite judge_mrru by done.
  by destruct (pm_mrru _ Hpm Hc) as [-> ->].
Qed.
Lemma accept_ssnhf : step 11 (set_neg_ssnhf ho (neg_ssnhf p || neg_ssnhf ho)).
Proof.
  rewrite <- if_ssnhf. apply (accept_step 11); [lia|]. intros Hc. rewrite judge_ssnhf.
  by destruct (pm_ssnhf _ Hpm Hc) as [-> ->].
Qed.
Lemma accept_endpoint :
  step 12 (set_neg_endpoint ho (neg_endpoint p || neg_endpoint ho) (if neg_endpoint p then endpoint_class p else endpoint_class ho)
             (if neg_endpoint p then endpoint_value p else endpoint_value ho)).
Proof.
  rewrite <- if_endpoint. apply (accept_step 12); [lia|]. intros Hc. rewrite judge_endpoint.
  destruct (pm_endpoint _ Hpm Hc) as [-> Hl]. unfold endp_len, CILEN_CHAR.
  by rewrite !(proj2 (Z.ltb_ge _ _)) by lia.
Qed.
End steps.

Lemma answer_permitted p drawn :
  wire_range p → permits p →
  answer (request (asked_fields p)) (mk_req no_options [] [] CONFACK drawn) = Ok (mk_req (granted p) [] [] CONFACK drawn).
Proof.
  intros Hp Hpm. rewrite asked_nth. unfold request. cbn [fmap list_fmap seq mbind list_bind].
  change (list_fmap _ _ _ _) with (@nil field).
  rewrite accept_mru by done. rewrite accept_asyncmap by done. rewrite accept_eap by done. rewrite accept_chap by done || (cbn; by rewrite orb_false_r).
  rewrite accept_upap by done || (cbn; by rewrite !orb_false_r). rewrite accept_lqr, accept_cbcp, accept_magic, accept_pcompression, accept_accompression, accept_mrru, accept_ssnhf, accept_endpoint by done.
  unfold no_options, set_neg_upap, set_neg_eap. cbn. rewrite !orb_false_r. done.
Qed.

(** An option of a request that is acknowledged has been accepted. *)
Lemma accepted_field p i rest s s' :
  wire_range p → (i < 13)%nat → answer (add_if (fd_cond (nth_field p i)) (fd_ci (nth_field p i)) ++ rest) s = Ok s' → rq_rc s' = CONFACK →
  (∃ s1, answer rest s1 = Ok s')
  ∧ (fd_cond (nth_field p i) = true → ∃ ho ho' drawn drawn', judge ho drawn (nth_field p i) = (Accept ho', drawn')).
Proof.
  intros Hp Hi E Hrc. destruct (answer_accepted _ _ _ _ (nth_field_ok p i Hp Hi) E Hrc) as (s1 & E1 & Hv). split; [by exists s1|done].
Qed.

(** Reading an acceptance: the conditions that were tested. *)
Ltac verdict := repeat (case_match; try discriminate); rewrite ?orb_false_iff, ?negb_false_iff, ?negb_true_iff, ?Z.ltb_ge in *.

Lemma answer_only_permitted p drawn s' :
  wire_range p → answer (request (asked_fields p)) (mk_req no_options [] [] CONFACK drawn) = Ok s' → rq_rc s' = CONFACK → permits p.
Proof.
  intros Hp E Hrc. rewrite asked_nth in E. unfold request in E. cbn [fmap list_fmap seq mbind list_bind] in E.
  change (list_fmap _ _ _ _) with (@nil field) in E.
  apply accepted_field in E as [[s0 E] V0]; [|done|lia|done]. apply accepted_field in E as [[s1 E] V1]; [|done|lia|done].
  apply accepted_field in E as [[s2 E] V2]; [|done|lia|done]. apply accepted_field in E as [[s3 E] V3]; [|done|lia|done].
  apply accepted_field in E as [[s4 E] V4]; [|done|lia|done]. apply accepted_field in E as [[s5 E] V5]; [|done|lia|done].
  apply accepted_field in E as [[s6 E] V6]; [|done|lia|done]. apply accepted_field in E as [[s7 E] V7]; [|done|lia|done].
  apply accepted_field in E as [[s8 E] V8]; [|done|lia|done]. apply accepted_field in E as [[s9 E] V9]; [|done|lia|done].
  apply accepted_field in E as [[s10 E] V10]; [|done|lia|done]. apply accepted_field in E as [[s11 E] V11]; [|done|lia|done].
  apply accepted_field in E as [_ V12]; [|done|lia|done]. clear s0 s1 s2 s3 s4 s5 s6 s7 s8 s9 s10 s11.
  constructor.
  - intros Hc. destruct (V0 Hc) as (ho & ho' & d & d' & V). rewrite judge_mru in V by done. verdict. done.
  - intros Hc. destruct (V1 Hc) as (ho & ho' & d & d' & V). rewrite judge_asyncmap in V by done. verdict.
    split; [done|]. by apply nz_false.
  - intros Hc. destruct (V2 Hc) as (ho & ho' & d & d' & V). destruct (judge_eap p ho d) as [h Ej]. rewrite Ej in V. by verdict.
  - intros Hc. destruct (V3 Hc) as (ho & ho' & d & d' & V). destruct (judge_chap p ho d) as (h & h' & Ej). rewrite Ej in V. by verdict.
  - intros Hc. destruct (V4 Hc) as (ho & ho' & d & d' & V). destruct (judge_upap p ho d) as [h Ej]. rewrite Ej in V. by verdict.
  - intros Hc. destruct (V5 Hc) as (ho & ho' & d & d' & V). rewrite judge_lqr in V. by verdict.
  - destruct (neg_cbcp p) eqn:Hc; [|done]. destruct (V6 Hc) as (ho & ho' & d & d' & V). by rewrite judge_cbcp in V.
  - intros Hc. destruct (V7 Hc) as (ho & ho' & d & d' & V). rewrite judge_magic in V by done. verdict.
    split; [done|]. intros Hg. rewrite Hg in *. cbn [andb] in *. by apply Z.eqb_neq.
  - intros Hc. destruct (V8 Hc) as (ho & ho' & d & d' & V). rewrite judge_pcompression in V. verdict. tauto.
  - intros Hc. destruct (V9 Hc) as (ho & ho' & d & d' & V). rewrite judge_accompression in V. verdict. tauto.
  - intros Hc. destruct (V10 Hc) as (ho & ho' & d & d' & V). rewrite judge_mrru in V by done. verdict. tauto.
  - intros Hc. destruct (V11 Hc) as (ho & ho' & d & d' & V). rewrite judge_ssnhf in V. verdict. tauto.
  - intros Hc. destruct (V12 Hc) as (ho & ho' & d & d' & V). rewrite judge_endpoint in V. unfold endp_len, CILEN_CHAR in V. verdict.
    split; [tauto|lia].
Qed.
End requests.

(** A request that is not too long is answered; the form of the answer. *)
Lemma reqci_run (mrand48 : nat → Z) (multilink reject_if_disagree : bool) (go ao : lcp_options) (drawn : nat) (inp : bytes) :
  let s := mk_req no_options [] [] CONFACK drawn in
  Z.of_nat (length inp) ≤ 1200 →
  ∃ s', answer mrand48 multilink reject_if_disagree go ao inp s = Ok s' ∧ fits inp s s'
    ∧ lcp_reqci mrand48 multilink go ao drawn inp reject_if_disagree
      = Ok (rq_rc s', if rq_rc s' =? CONFACK then inp else if rq_rc s' =? CONFNAK then rq_nak s' else rq_rej s', rq_ho s', rq_drawn s').
Proof.
  intros s Hl. destruct (answer_fits mrand48 multilink reject_if_disagree go ao inp s) as (s' & E & Hf);
    [cbn; unfold PPP_MRU; lia|by left|]. exists s'. split; [done|]. split; [done|].
  unfold lcp_reqci. unfold answer in E. fold s. by rewrite E, bind_ret.
Qed.

(** A request as [lcp_addci] builds it is acknowledged exactly when it is permitted. *)
Lemma reqci_acks (mrand48 : nat → Z) (multilink reject_if_disagree : bool) (go ao p : lcp_options) (drawn : nat) :
  wire_range p →
  (permits multilink go ao p ↔
   ∃ out ho drawn', lcp_reqci mrand48 multilink go ao drawn (lcp_addci p) reject_if_disagree = Ok (CONFACK, out, ho, drawn'))
  ∧ (permits multilink go ao p →
     lcp_reqci mrand48 multilink go ao drawn (lcp_addci p) reject_if_disagree = Ok (CONFACK, lcp_addci p, granted p, drawn)).
Proof.
  intros Hp. assert (Hyes : permits multilink go ao p →
    lcp_reqci mrand48 multilink go ao drawn (lcp_addci p) reject_if_disagree = Ok (CONFACK, lcp_addci p, granted p, drawn)).
  { intros Hpm. unfold lcp_reqci. pose proof (answer_permitted mrand48 multilink reject_if_disagree go ao p drawn Hp Hpm) as E.
    rewrite <- lcp_addci_fields in E. unfold answer in E. by rewrite E, bind_ret. }
  split; [split|].
  - intros Hpm. do 3 eexists. by apply Hyes.
  - intros (out & ho & drawn' & E). unfold lcp_reqci in E. destruct (req_loop _ _ _ _ _ _ _ _) as [s'| |] eqn:El; [|done|done].
    rewrite bind_ret in E. injection E as Hrc _ _ _. rewrite lcp_addci_fields in El.
    by apply (answer_only_permitted mrand48 multilink reject_if_disagree go ao p drawn s' Hp El).
  - exact Hyes.
Qed.

(** The answer to any request of up to 1200 bytes is computed inside the buffers: it
    is an Ack of the request as it is, a Nak of at most 1500 bytes, or a Reject, not
    empty, of bytes of the request in their order. *)
Theorem lcp_reqci_bounds (mrand48 : nat → Z) (multilink reject_if_disagree : bool) (go ao : lcp_options) (drawn : nat) (inp : bytes) :
  Z.of_nat (length inp) ≤ 1200 →
  ∃ rc out ho drawn', lcp_reqci mrand48 multilink go ao drawn inp reject_if_disagree = Ok (rc, out, ho, drawn')
    ∧ ((rc = CONFACK ∧ out = inp) ∨ (rc = CONFNAK ∧ Z.of_nat (length out) ≤ PPP_MRU)
       ∨ (rc = CONFREJ ∧ out ≠ [] ∧ out `sublist_of` inp)).
Proof.
  intros Hl. destruct (reqci_run mrand48 multilink reject_if_disagree go ao drawn inp Hl)
    as (s' & _ & (Hn & Hrc & (x & Ex & Hx & Hne) & _) & E). eexists _, _, _, _. split; [exact E|]. cbn in Ex.
  apply list_elem_of_In in Hrc as [Hrc|[Hrc|[Hrc|[]]]]; rewrite <- Hrc.
  - by left.
  - right. left. split; [done|exact Hn].
  - right. right. split; [done|]. cbn. rewrite Ex. split; [|done]. destruct (Hne (eq_sym Hrc)) as [|]; [done|done].
Qed.

(** ** Any request *)

(** Options as a peer writes them: a type and data. *)
Definition written (os : list (Z * bytes)) : bytes := os ≫= λ x, [fst x; 2 + Z.of_nat (length (snd x))] ++ snd x.

Section any_request.
Context (multilink : bool) (go ao : lcp_options).

(** The options that may be granted: those that the permissions [ao] have, with data of
    the right size and a value that is permitted. *)
Definition admits (x : Z * bytes) : bool :=
  let '(t, d) := x in
  let sized n := Z.of_nat (length d) =? n in
  if t =? CI_MRU then neg_mru ao && sized 2 && (MINMRU <=? get16 d 0)
  else if t =? CI_ASYNCMAP then neg_asyncmap ao && sized 4 && (Z.land (asyncmap ao) (Z.lnot (get32 d 0)) =? 0)
  else if t =? CI_AUTHTYPE then
    (neg_upap ao && sized 2 && (get16 d 0 =? PPP_PAP)) || (neg_eap ao && sized 2 && (get16 d 0 =? PPP_EAP))
    || (neg_chap ao && sized 3 && (get16 d 0 =? PPP_CHAP) && CHAP_CANDIGEST (chap_mdtype ao) (d !!! 2%nat))
  else if t =? CI_QUALITY then neg_lqr ao && sized 6 && (get16 d 0 =? PPP_LQR)
  else if t =? CI_MAGICNUMBER then
    (neg_magicnumber ao || neg_magicnumber go) && sized 4 && negb (neg_magicnumber go && (get32 d 0 =? magicnumber go))
  else if t =? CI_PCOMPRESSION then neg_pcompression ao && sized 0
  else if t =? CI_ACCOMPRESSION then neg_accompression ao && sized 0
  else if t =? CI_MRRU then neg_mrru ao && multilink && sized 2
  else if t =? CI_SSNHF then neg_ssnhf ao && multilink && sized 0
  else if t =? CI_EPDISC then neg_endpoint ao && (1 <=? Z.of_nat (length d)) && (Z.of_nat (length d) <=? 1 + MAX_ENDP_LEN)
  else false.

(** At most one protocol to authenticate with is asked for. *)
Definition is_auth (prot : Z) (x : Z * bytes) : bool := (fst x =? CI_AUTHTYPE) && (get16 (snd x) 0 =? prot).
Definition one_protocol (os : list (Z * bytes)) : Prop :=
  ∀ d d', (CI_AUTHTYPE, d) ∈ os → (CI_AUTHTYPE, d') ∈ os → get16 d 0 = get16 d' 0.

(** What is recorded of an option. *)
Definition record (ho : lcp_options) (x : Z * bytes) : lcp_options :=
  let '(t, d) := x in
  if t =? CI_MRU then set_neg_mru ho true (get16 d 0)
  else if t =? CI_ASYNCMAP then set_neg_asyncmap ho true (get32 d 0)
  else if t =? CI_AUTHTYPE then
    if get16 d 0 =? PPP_PAP then set_neg_upap ho true
    else if get16 d 0 =? PPP_CHAP then set_auth ho (neg_upap ho) true (neg_eap ho) (CHAP_MDTYPE_D (d !!! 2%nat))
    else set_neg_eap ho true
  else if t =? CI_QUALITY then ho
  else if t =? CI_MAGICNUMBER then set_neg_magicnumber ho true (get32 d 0)
  else if t =? CI_PCOMPRESSION then set_neg_pcompression ho true
  else if t =? CI_ACCOMPRESSION then set_neg_accompression ho true
  else if t =? CI_MRRU then set_neg_mrru ho true (get16 d 0)
  else if t =? CI_SSNHF then set_neg_ssnhf ho true
  else set_neg_endpoint ho true (d !!! 0%nat) (drop 1 d).
Definition recorded (os : list (Z * bytes)) : lcp_options := foldl record no_options os.

(** Another protocol has been granted before. *)
Definition clash (ho : lcp_options) (x : Z * bytes) : bool :=
  let '(t, d) := x in
  (t =? CI_AUTHTYPE)
  && (if get16 d 0 =? PPP_PAP then neg_chap ho || neg_eap ho
      else if get16 d 0 =? PPP_CHAP then neg_upap ho || neg_eap ho else neg_chap ho || neg_upap ho).

Lemma auth_accepts ho d :
  let x := (CI_AUTHTYPE, d) in
  if admits x && negb (clash ho x) then req_auth ao ho (2 + Z.of_nat (length d)) d = Accept (record ho x)
  else ∀ ho', req_auth ao ho (2 + Z.of_nat (length d)) d ≠ Accept ho'.
Proof.
  unfold admits, clash, record. cbn [fst snd]. change (CI_AUTHTYPE =? CI_MRU) with false. change (CI_AUTHTYPE =? CI_ASYNCMAP) with false.
  rewrite Z.eqb_refl. cbv iota. cbn [andb]. unfold req_auth, CILEN_SHORT, CILEN_CHAP.
  set (n := Z.of_nat (length d)). assert (Hn : 0 ≤ n) by lia. clearbody n.
  assert (H4 : (2 + n =? 4) = (n =? 2)) by (destruct (Z.eqb_spec (2 + n) 4), (Z.eqb_spec n 2); lia).
  assert (H5 : (2 + n =? 5) = (n =? 3)) by (destruct (Z.eqb_spec (2 + n) 5), (Z.eqb_spec n 3); lia). rewrite H4, H5.
  assert (Hs : (n =? 2) = true ∨ (n =? 3) = true → (2 + n <? 4) = false) by (rewrite !Z.eqb_eq; intros ?; apply Z.ltb_ge; lia).
  destruct (Z.eqb_spec (get16 d 0) PPP_PAP) as [E|]; [|destruct (Z.eqb_spec (get16 d 0) PPP_CHAP) as [E|]; [|destruct (Z.eqb_spec (get16 d 0) PPP_EAP) as [E|]]];
    rewrite ?E; cbn [Z.eqb PPP_PAP PPP_CHAP PPP_EAP Pos.eqb]; rewrite ?andb_false_r, ?andb_true_r, ?orb_false_l, ?orb_false_r.
  - destruct (n =? 2); [rewrite (Hs (or_introl eq_refl)) by done|].
    + destruct (neg_upap ao), (neg_chap ao), (neg_eap ao), (neg_chap ho), (neg_eap ho); by cbn.
    + rewrite andb_false_r. cbn [andb negb orb]. rewrite !orb_true_r. by destruct (_ || _).
  - destruct (n =? 3) eqn:E3; [rewrite (Hs (or_intror eq_refl)) by done|].
    + destruct (neg_upap ao), (neg_chap ao), (neg_eap ao), (neg_upap ho), (neg_eap ho), (CHAP_CANDIGEST _ _); by cbn.
    + rewrite andb_false_r. cbn [andb negb orb]. rewrite !orb_true_r. by destruct (_ || _).
  - destruct (n =? 2); [rewrite (Hs (or_introl eq_refl)) by done|].
    + destruct (neg_upap ao), (neg_chap ao), (neg_eap ao), (neg_chap ho), (neg_upap ho); by cbn.
    + rewrite andb_false_r. cbn [andb negb orb]. rewrite !orb_true_r. by destruct (_ || _).
  - cbn [andb]. by destruct (_ || _).
Qed.

Lemma verdict_accepts (mrand48 : nat → Z) ho drawn t d :
  let v := req_verdict mrand48 multilink go ao ho drawn t (2 + Z.of_nat (length d)) d in
  if admits (t, d) && negb (clash ho (t, d)) then v = (Accept (record ho (t, d)), drawn) else ∀ ho', fst v ≠ Accept ho'.
Proof.
  destruct (Z.eqb_spec t CI_AUTHTYPE) as [->|Ht].
  { cbv zeta. change (req_verdict mrand48 multilink go ao ho drawn CI_AUTHTYPE (2 + Z.of_nat (length d)) d)
      with (req_auth ao ho (2 + Z.of_nat (length d)) d, drawn). pose proof (auth_accepts ho d) as Ha. cbv zeta in Ha.
    destruct (_ && _); [by rewrite Ha|exact Ha]. }
  apply Z.eqb_neq in Ht. intros v. unfold admits, clash, record. subst v. unfold req_verdict, magic. rewrite Ht. cbn [andb negb].
  rewrite andb_true_r. unfold CILEN_SHORT, CILEN_LONG, CILEN_LQR, CILEN_VOID, CILEN_CHAR, MAX_ENDP_LEN.
  set (n := Z.of_nat (length d)). assert (Hn : 0 ≤ n) by lia. clearbody n.
  assert (Hsz : ∀ k m, m = 2 + k → (2 + n =? m) = (n =? k)) by (intros k m ->; destruct (Z.eqb_spec (2 + n) (2 + k)), (Z.eqb_spec n k); lia).
  rewrite ?(Hsz 2 4), ?(Hsz 4 6), ?(Hsz 6 8), ?(Hsz 0 2) by done.
  destruct (t =? CI_MRU).
  { rewrite Z.leb_antisym. destruct (neg_mru ao), (n =? 2), (get16 d 0 <? MINMRU); by cbn. }
  destruct (t =? CI_ASYNCMAP).
  { unfold nz. destruct (neg_asyncmap ao), (n =? 4), (Z.land _ _ =? 0); by cbn. }
  destruct (t =? CI_QUALITY).
  { destruct (neg_lqr ao), (n =? 6), (get16 d 0 =? PPP_LQR); by cbn. }
  destruct (t =? CI_MAGICNUMBER).
  { destruct (neg_magicnumber ao), (neg_magicnumber go), (n =? 4), (get32 d 0 =? magicnumber go); by cbn. }
  destruct (t =? CI_PCOMPRESSION); [destruct (neg_pcompression ao), (n =? 0); by cbn|].
  destruct (t =? CI_ACCOMPRESSION); [destruct (neg_accompression ao), (n =? 0); by cbn|].
  destruct (t =? CI_MRRU); [destruct (neg_mrru ao), multilink, (n =? 2); by cbn|].
  destruct (t =? CI_SSNHF); [destruct (neg_ssnhf ao), multilink, (n =? 0); by cbn|].
  destruct (t =? CI_EPDISC); [|done].
  destruct (neg_endpoint ao); [|done]. cbn [negb andb orb].
  destruct (Z.leb_spec 1 n), (Z.ltb_spec (2 + n) 3); try lia; cbn [andb orb]; [|done].
  destruct (Z.leb_spec n (1 + 20)), (Z.ltb_spec (3 + 20) (2 + n)); try lia; by cbn.
Qed.

(** A request that is accepted, option by option. *)
Fixpoint accepts (ho : lcp_options) (os : list (Z * bytes)) : Prop :=
  match os with
  | [] => True
  | x :: os => admits x = true ∧ clash ho x = false ∧ accepts (record ho x) os
  end.

(** The protocols that have been granted are those that were asked for. *)
Definition grants (ho : lcp_options) (os : list (Z * bytes)) : Prop :=
  neg_upap ho = existsb (is_auth PPP_PAP) os ∧ neg_chap ho = existsb (is_auth PPP_CHAP) os ∧ neg_eap ho = existsb (is_auth PPP_EAP) os.

Lemma grants_record ho os x : grants ho os → admits x = true → grants (record ho x) (os ++ [x]).
Proof.
  intros (H1 & H2 & H3) Ha. unfold grants. rewrite !existsb_app. cbn [existsb]. rewrite <- H1, <- H2, <- H3, !orb_false_r.
  destruct x as [t d]. unfold is_auth. cbn [fst snd]. destruct (Z.eqb_spec t CI_AUTHTYPE) as [->|Hne].
  - unfold admits in Ha. cbn in Ha. rewrite !orb_true_iff, !andb_true_iff, !Z.eqb_eq in Ha. unfold record. cbn [andb].
    change (CI_AUTHTYPE =? CI_MRU) with false. change (CI_AUTHTYPE =? CI_ASYNCMAP) with false. rewrite Z.eqb_refl. cbv iota.
    destruct Ha as [[(_ & E)|(_ & E)]|((_ & E) & _)]; rewrite E; cbn; rewrite ?orb_false_r, ?orb_true_r; done.
  - cbn [andb]. rewrite !orb_false_r. apply Z.eqb_neq in Hne. unfold record. rewrite Hne. by repeat case_match.
Qed.

Lemma admits_auth d : admits (CI_AUTHTYPE, d) = true → get16 d 0 = PPP_PAP ∨ get16 d 0 = PPP_EAP ∨ get16 d 0 = PPP_CHAP.
Proof.
  unfold admits. cbn. rewrite !orb_true_iff, !andb_true_iff, !Z.eqb_eq. tauto.
Qed.

(** An option of the list asks for the protocol. *)
Lemma exists_auth prot os : existsb (is_auth prot) os = true ↔ ∃ d, (CI_AUTHTYPE, d) ∈ os ∧ get16 d 0 = prot.
Proof.
  rewrite existsb_exists. unfold is_auth. split.
  - intros ((t & d) & Hin & E). cbn in E. rewrite andb_true_iff, !Z.eqb_eq in E. destruct E as [-> E]. exists d. split; [|done].
    by apply list_elem_of_In.
  - intros (d & Hin & E). exists (CI_AUTHTYPE, d). cbn. split; [by apply list_elem_of_In|]. by apply Z.eqb_eq.
Qed.

(** A clash is a request for two protocols. *)
Lemma clash_protocols ho os x :
  grants ho os → admits x = true → Forall (λ y, admits y = true) os →
  clash ho x = false ↔ ∀ d d', x = (CI_AUTHTYPE, d) → (CI_AUTHTYPE, d') ∈ os → get16 d 0 = get16 d' 0.
Proof.
  intros (H1 & H2 & H3) Ha Hos. destruct x as [t d]. unfold clash. destruct (Z.eqb_spec t CI_AUTHTYPE) as [->|Hne]; cbn [andb].
  2: { split; [|done]. intros _ d1 d' E. by injection E. }
  assert (Hno : ∀ prot, existsb (is_auth prot) os = false ↔ ∀ d', (CI_AUTHTYPE, d') ∈ os → get16 d' 0 ≠ prot).
  { intros prot. rewrite <- not_true_iff_false, exists_auth. naive_solver. }
  assert (Hall : ∀ d', (CI_AUTHTYPE, d') ∈ os → get16 d' 0 = PPP_PAP ∨ get16 d' 0 = PPP_EAP ∨ get16 d' 0 = PPP_CHAP).
  { intros d' Hd. apply admits_auth. rewrite Forall_forall in Hos. by apply Hos. }
  assert (Hgoal : (∀ d1 d', (CI_AUTHTYPE, d) = (CI_AUTHTYPE, d1) → (CI_AUTHTYPE, d') ∈ os → get16 d1 0 = get16 d' 0)
     ↔ ∀ d', (CI_AUTHTYPE, d') ∈ os → get16 d 0 = get16 d' 0) by naive_solver. rewrite Hgoal, H1, H2, H3.
  destruct (admits_auth d Ha) as [E|[E|E]]; rewrite E; cbn; rewrite orb_false_iff, !Hno; split.
  all: try (intros [Ha1 Ha2] d' Hd; specialize (Hall d' Hd); specialize (Ha1 d' Hd); specialize (Ha2 d' Hd); intuition congruence).
  all: intros Hs; split; intros d' Hd; rewrite <- (Hs d' Hd); done.
Qed.

Lemma accepts_protocols pre ho os :
  grants ho pre → Forall (λ y, admits y = true) pre → one_protocol pre →
  accepts ho os ↔ Forall (λ x, admits x = true) os ∧ one_protocol (pre ++ os).
Proof.
  revert pre ho. induction os as [|x os IH]; intros pre ho Hg Hpre Hone; cbn [accepts].
  - rewrite app_nil_r. by split; [intros _; split; [constructor|]|].
  - destruct (admits x) eqn:Ha. 2: { split; [by intros [? _]|]. intros [Hf _]. apply Forall_cons in Hf as [Hf _]. by rewrite Ha in Hf. }
    rewrite (clash_protocols ho pre x Hg Ha Hpre).
    assert (Hadm : Forall (λ y, admits y = true) (pre ++ [x])) by (apply Forall_app; split; [done|]; by constructor).
    assert (E : pre ++ x :: os = (pre ++ [x]) ++ os) by (by rewrite <- app_assoc).
    split.
    + intros (_ & Hc & Hacc). assert (Hone' : one_protocol (pre ++ [x])).
      { intros d d' Hd Hd'. rewrite elem_of_app, list_elem_of_singleton in Hd, Hd'.
        destruct Hd as [Hd|Hd], Hd' as [Hd'|Hd']; [by apply Hone| | |by congruence].
        - symmetry. by apply (Hc d' d).
        - by apply (Hc d d'). }
      apply (IH (pre ++ [x])) in Hacc as [Hf Hp]; [|by apply grants_record|done|done]. split; [by constructor|]. by rewrite E.
    + intros [Hf Hp]. apply Forall_cons in Hf as [_ Hf]. split; [done|]. rewrite E in Hp.
      assert (Hone' : one_protocol (pre ++ [x])) by (intros d d' Hd Hd'; apply Hp; apply elem_of_app; by left).
      split; [|apply (IH (pre ++ [x])); [by apply grants_record|done|done|by split]].
      intros d d' -> Hd'. apply Hone'; apply elem_of_app; [right; by apply list_elem_of_singleton|by left].
Qed.

Context (mrand48 : nat → Z) (reject_if_disagree : bool).
Abbreviation answer := (answer mrand48 multilink reject_if_disagree go ao).

Lemma written_head t d os :
  written ((t, d) :: os) = [t; 2 + Z.of_nat (length d)] ++ d ++ written os.
Proof. unfold written. cbn. done. Qed.

Lemma malformed_written t d l : malformed ([t; 2 + Z.of_nat (length d)] ++ d ++ l) = false.
Proof.
  unfold malformed. cbn [app length lookup_total list_lookup_total]. rewrite !length_app. rewrite !orb_false_iff, !Z.ltb_ge. lia.
Qed.

(** An option at the front. *)
Lemma answer_option t d l ho drawn :
  let s := mk_req ho [] [] CONFACK drawn in
  answer ([t; 2 + Z.of_nat (length d)] ++ d ++ l) s =
    let '(v, drawn) := req_verdict mrand48 multilink go ao ho drawn t (2 + Z.of_nat (length d)) d in
    s ← req_account reject_if_disagree t ([t; 2 + Z.of_nat (length d)] ++ d) v drawn s; answer l s.
Proof.
  intros s. rewrite answer_step by done. rewrite malformed_written. cbv zeta.
  assert (E1 : ([t; 2 + Z.of_nat (length d)] ++ d ++ l) !!! 1%nat = 2 + Z.of_nat (length d)) by done. rewrite E1.
  rewrite (app_assoc _ d l).
  assert (Hl : Z.to_nat (2 + Z.of_nat (length d)) = length ([t; 2 + Z.of_nat (length d)] ++ d)) by (cbn [app length]; lia).
  rewrite Hl, take_app_length, drop_app_length. reflexivity.
Qed.

Lemma answer_accepts_all os ho drawn :
  accepts ho os → answer (written os) (mk_req ho [] [] CONFACK drawn) = Ok (mk_req (foldl record ho os) [] [] CONFACK drawn).
Proof.
  revert ho. induction os as [|[t d] os IH]; intros ho; cbn [accepts]; [done|]. intros (Ha & Hc & Hr).
  rewrite written_head, answer_option. pose proof (verdict_accepts mrand48 ho drawn t d) as Hv. cbv zeta in Hv. rewrite Ha, Hc in Hv. cbn [negb andb] in Hv.
  rewrite Hv. cbn [req_account rq_ho rq_nak rq_rej rq_rc]. rewrite bind_ret. by apply IH.
Qed.

Lemma answer_accepted_all l ho drawn s' :
  answer l (mk_req ho [] [] CONFACK drawn) = Ok s' → rq_rc s' = CONFACK → ∃ os, l = written os ∧ accepts ho os.
Proof.
  revert ho drawn. induction l as [l IH] using (induction_ltof1 _ (@length Z)); unfold ltof in IH. intros ho drawn E Hrc.
  destruct (decide (l = [])) as [->|Hl]; [by exists []|]. destruct (malformed l) eqn:Hm.
  { rewrite answer_step, Hm in E by done. by injection E as <-. }
  destruct l as [|t [|n r]]; [done|by unfold malformed in Hm|].
  unfold malformed in Hm. rewrite !orb_false_iff, !Z.ltb_ge in Hm. cbn [length lookup_total list_lookup_total] in Hm. destruct Hm as [[_ Hn] Hlen].
  set (d := take (Z.to_nat (n - 2)) r). set (r' := drop (Z.to_nat (n - 2)) r).
  assert (Hd : 2 + Z.of_nat (length d) = n) by (subst d; rewrite length_take; lia).
  assert (Hr : r = d ++ r') by (symmetry; apply take_drop).
  assert (El : t :: n :: r = [t; 2 + Z.of_nat (length d)] ++ d ++ r') by (rewrite Hd, <- Hr; done).
  rewrite El, answer_option in E. pose proof (verdict_accepts mrand48 ho drawn t d) as Hv. cbv zeta in Hv.
  assert (Hlt : (length r' < length (t :: n :: r))%nat) by (rewrite El, !length_app; cbn; lia).
  destruct (admits (t, d) && negb (clash ho (t, d))) eqn:Hac.
  - apply andb_true_iff in Hac as [Ha Hc]. apply negb_true_iff in Hc. rewrite Hv in E. cbn [req_account rq_ho rq_nak rq_rej rq_rc] in E. rewrite bind_ret in E.
    destruct (IH r' Hlt _ _ E Hrc) as (os & -> & Hos). exists ((t, d) :: os). split; [by rewrite written_head|]. by split.
  - exfalso. destruct (req_verdict _ _ _ _ _ _ _ _ _) as [v dr]. cbn [fst] in Hv.
    destruct (req_account _ _ _ _ _ _) as [s1| |] eqn:Ea; [|done|done]. rewrite bind_ret in E. apply answer_rc in E; [|done].
    destruct v as [ho'|hint|]; cbn [req_account rq_rc rq_nak rq_ho rq_rej] in Ea; [by destruct (Hv ho')| |by injection Ea as <-].
    destruct (put_nak [] hint) as [nak| |]; [|done|done]. rewrite bind_ret in Ea. by destruct (_ && _); injection Ea as <-.
Qed.
End any_request.

(** C30: A request of the peer is acknowledged exactly when it consists of well-formed
    options that are all permitted, with at most one protocol to authenticate with: a
    request that is cut short, with an unknown option, an option that is not permitted, of a
    wrong size or with a wrong value is not.  Then the answer is the request itself, and
    the peer's options are recorded with their values, the last one where they are repeated.
    In particular this is so for a request as [lcp_addci] builds it; then the peer accepts the Ack. *)
Theorem lcp_reqci_acks_permitted (mrand48 : nat → Z) (multilink reject_if_disagree : bool) (go ao : lcp_options) (drawn : nat) (inp : bytes) :
  ((∃ out ho drawn', lcp_reqci mrand48 multilink go ao drawn inp reject_if_disagree = Ok (CONFACK, out, ho, drawn'))
   ↔ ∃ os, inp = written os ∧ Forall (λ x, admits multilink go ao x = true) os ∧ one_protocol os)
  ∧ (∀ os, inp = written os → Forall (λ x, admits multilink go ao x = true) os → one_protocol os →
     lcp_reqci mrand48 multilink go ao drawn inp reject_if_disagree = Ok (CONFACK, inp, recorded os, drawn))
  ∧ (∀ p, wire_range p → inp = lcp_addci p →
     (permits multilink go ao p ↔
      ∃ out ho drawn', lcp_reqci mrand48 multilink go ao drawn inp reject_if_disagree = Ok (CONFACK, out, ho, drawn'))
     ∧ (permits multilink go ao p →
        lcp_reqci mrand48 multilink go ao drawn inp reject_if_disagree = Ok (CONFACK, inp, granted p, drawn)
        ∧ lcp_ackci p inp = true)).
Proof.
  assert (Hiff : ∀ os, accepts multilink go ao no_options os ↔ Forall (λ x, admits multilink go ao x = true) os ∧ one_protocol os).
  { intros os. apply (accepts_protocols multilink go ao []); [done|constructor|]. intros d d' Hd. by apply elem_of_nil in Hd. }
  assert (Hyes : ∀ os, inp = written os → Forall (λ x, admits multilink go ao x = true) os → one_protocol os →
     lcp_reqci mrand48 multilink go ao drawn inp reject_if_disagree = Ok (CONFACK, inp, recorded os, drawn)).
  { intros os -> H1 H2. unfold lcp_reqci.
    pose proof (answer_accepts_all multilink go ao mrand48 reject_if_disagree os no_options drawn (proj2 (Hiff os) (conj H1 H2))) as E.
    unfold answer in E. by rewrite E, bind_ret. }
  split; [|split; [exact Hyes|]].
  - split.
    + intros (out & ho & drawn' & E). unfold lcp_reqci in E. destruct (req_loop _ _ _ _ _ _ _ _) as [s'| |] eqn:El; [|done|done].
      rewrite bind_ret in E. injection E as Hrc _ _ _.
      destruct (answer_accepted_all multilink go ao mrand48 reject_if_disagree inp no_options drawn s' El Hrc) as (os & Hos & Ha).
      exists os. split; [done|]. by apply Hiff.
    + intros (os & H1 & H2 & H3). do 3 eexists. by apply Hyes.
  - intros p Hp ->. destruct (reqci_acks mrand48 multilink reject_if_disagree go ao p drawn Hp) as [Hi Hy]. split; [exact Hi|].
    intros Hpm. split; [by apply Hy|]. apply lcp_ackci_iff; [done|by apply lcp_addci_bytes|done].
Qed.
