(* ===== verification/LcpNegotiate.v ===== *)
(** * The options of LCP: a request meets the peer's verdict

    [lcp_addci] and [lcp_rejci] of one side against [lcp_reqci] of the other: what the
    peer rejects is understood, and once it rejects what it disagrees with, a few
    rounds lead to an acknowledged request. *)

From stdpp Require Import base numbers list.
From S2P Require Import Prelude Bytes PppFsm LcpOptions LcpOptionsProps.

(** ** Giving up options *)

(** The options that are on. *)
Definition flags (o : lcp_options) : list bool :=
  [neg_mru o; neg_asyncmap o; neg_upap o; neg_chap o; neg_eap o; neg_magicnumber o; neg_pcompression o;
   neg_accompression o; neg_lqr o; neg_cbcp o; neg_mrru o; neg_ssnhf o; neg_endpoint o].
Definition weight (o : lcp_options) : Z := foldr (λ b n, Z.b2z b + n) 0 (flags o).

(** The values are kept, and options are only given up. *)
Record gives_up (o o' : lcp_options) : Prop := {
  gu_range : wire_range o → wire_range o';
  gu_magic : magicnumber o' = magicnumber o;
  gu_flags : Forall2 (λ b' b, Is_true b' → Is_true b) (flags o') (flags o) }.

Lemma gives_up_refl o : gives_up o o.
Proof. split; [done|done|]. by repeat constructor. Qed.

Lemma gives_up_trans o1 o2 o3 : gives_up o1 o2 → gives_up o2 o3 → gives_up o1 o3.
Proof.
  intros [R1 M1 F1] [R2 M2 F2]. split; [auto|congruence|]. clear R1 M1 R2 M2.
  revert F1. generalize (flags o1). induction F2 as [|b3 b2 l3 l2 Hb _ IH]; intros l1 F1; inversion F1; subst; [done|].
  constructor; [auto|]. by apply IH.
Qed.

Lemma gives_up_weight o o' : gives_up o o' → weight o' ≤ weight o.
Proof.
  intros [_ _ F]. unfold weight. induction F as [|b' b l' l Hb _ IH]; [done|]. cbn.
  destruct b', b; cbn in *; lia || (exfalso; by apply Hb).
Qed.

Lemma fields_give_up go m a f o : f ∈ fields go m a → gives_up o (fd_clear f o).
Proof.
  revert f. refine (proj1 (Forall_forall _ _) _). repeat (apply Forall_cons; split); [..|by apply Forall_nil]; 
  (split; [by intros []|done|]; destruct o; repeat constructor; cbn; auto || by intros []).
Qed.

Lemma b2z_pos b : 0 ≤ Z.b2z b.
Proof. by destruct b. Qed.

Lemma fields_lighter go f : f ∈ rej_fields go → fd_cond f = true → weight (fd_clear f go) < weight go.
Proof.
  revert f. refine (proj1 (Forall_forall _ _) _). repeat (apply Forall_cons; split); [..|by apply Forall_nil];
    intros Hc; unfold weight, asks_chap, asks_upap in *; cbn in *;
    rewrite ?andb_true_iff, ?negb_true_iff in Hc; destruct_and?;
    repeat match goal with H : ?b = true |- _ => rewrite H; clear H end; cbn [Z.b2z];
    pose proof (b2z_pos (neg_upap go)); pose proof (b2z_pos (neg_eap go)); lia.
Qed.

Lemma selects_give_up go m a fs x o o' : fs ⊆ fields go m a → selects fs x o o' → gives_up o o'.
Proof.
  intros Hfs Hs. induction Hs as [o|f fs p o o' _ IH|f fs p o o' _ _ IH]; [apply gives_up_refl| |].
  - apply IH. intros g Hg. apply Hfs. by right.
  - eapply gives_up_trans; [|apply IH; intros g Hg; apply Hfs; by right].
    apply (fields_give_up go m a). apply Hfs. by left.
Qed.

(** A selection that is not empty makes the options fewer. *)
Lemma selects_lighter go fs x go' :
  fs ⊆ rej_fields go → selects fs x go go' → x ≠ [] → weight go' < weight go.
Proof.
  intros Hfs Hs Hx. remember go as o eqn:Eo in Hs. induction Hs as [o|f fs p o o' _ IH|f fs p o o' Hc Hs _]; [done| |]; subst o.
  - apply IH; [intros g Hg; apply Hfs; by right|done|done].
  - pose proof (fields_lighter go f ltac:(apply Hfs; by left) Hc) as Hl.
    assert (Hg : gives_up (fd_clear f go) o').
    { eapply (selects_give_up go (neg_mru go) (neg_asyncmap go)); [|exact Hs]. intros g Hg. apply Hfs. by right. }
    apply gives_up_weight in Hg. lia.
Qed.

(** An MRU or a map that has been sent may be rejected. *)
Lemma selects_asked go x o o' : selects (asked_fields go) x o o' → selects (rej_fields go) x o o'.
Proof.
  unfold asked_fields, rej_fields, fields. intros Hs.
  assert (Htail : ∀ f f' fs fs' x o o', (fd_cond f = true → fd_cond f' = true) → fd_ci f = fd_ci f' → fd_clear f = fd_clear f' →
    (∀ x o o', selects fs x o o' → selects fs' x o o') → selects (f :: fs) x o o' → selects (f' :: fs') x o o').
  { intros f f' fs fs' y u u' Hc Hci Hcl IH H. inversion H; subst; [apply selects_skip; auto|]. rewrite Hci. apply selects_take; [auto|].
    rewrite <- Hcl. auto. }
  revert Hs. apply Htail; [|done|done|].
  { cbn. unfold asks_mru. intros H. by apply andb_true_iff in H as [H _]. }
  intros y u u'. apply Htail; [|done|done|done].
  cbn. unfold asks_asyncmap. intros H. by apply andb_true_iff in H as [H _].
Qed.

(** ** What the peer rejects *)

Section peer.
Context (mrand48 : nat → Z) (multilink reject_if_disagree : bool) (pgo pao : lcp_options).

Abbreviation answer := (answer mrand48 multilink reject_if_disagree pgo pao).
Abbreviation verdict_on f ho drawn :=
  (req_verdict mrand48 multilink pgo pao ho drawn (fd_opt f) (fd_n f) (drop 2 (fd_ci f))).

(** One option more: what it adds to the options to reject, and the code of the answer. *)
Lemma account_step f v drawn s s1 :
  req_account reject_if_disagree (fd_opt f) (fd_ci f) v drawn s = Ok s1 →
  (rq_rej s1 = rq_rej s ∧ (rq_rc s1 = CONFREJ → rq_rc s = CONFREJ)
   ∧ (rq_rc s1 = CONFNAK → rq_rc s = CONFNAK ∨ ∃ h, v = Nak h ∧ (reject_if_disagree = true → fd_opt f = CI_MAGICNUMBER)))
  ∨ (rq_rej s1 = rq_rej s ++ fd_ci f ∧ rq_rc s1 = CONFREJ).
Proof.
  intros E. destruct v as [ho|h|]; cbn [req_account] in E.
  - injection E as <-. left. cbn. split; [done|]. split; [done|by left].
  - unfold put_nak in E. destruct (_ <=? _); [|done]. rewrite bind_ret in E.
    destruct reject_if_disagree; cbn [andb] in E.
    + destruct (Z.eqb_spec (fd_opt f) CI_MAGICNUMBER) as [Em|Em]; cbn [negb] in E; injection E as <-; [left|right]; cbn; [|done].
      split; [done|]. destruct (Z.eqb_spec (rq_rc s) CONFREJ); [done|]. split; [done|]. intros _. right. by exists h.
    + injection E as <-. left. cbn. split; [done|]. destruct (Z.eqb_spec (rq_rc s) CONFREJ); [done|]. split; [done|]. intros _. right. by exists h.
  - injection E as <-. right. by cbn.
Qed.

Lemma answer_selects fs s s' :
  Forall field_ok fs → answer (request fs) s = Ok s' →
  ∃ x, rq_rej s' = rq_rej s ++ x ∧ (∀ o, ∃ o', selects fs x o o') ∧ (rq_rc s' = CONFREJ → rq_rc s = CONFREJ ∨ x ≠ []).
Proof.
  intros Hfs. revert s. induction Hfs as [|f fs Hf Hfs IH]; intros s E.
  - injection E as <-. exists []. rewrite app_nil_r. split; [done|]. split; [|by left]. intros o. exists o. constructor.
  - rewrite request_cons in E. destruct (fd_cond f) eqn:Hc; cbn [add_if app] in E.
    + rewrite answer_field in E by done. destruct (verdict_on f _ _) as [v d] eqn:Ev.
      destruct (req_account _ _ _ _ _ _) as [s1| |] eqn:Ea; [|done|done]. rewrite bind_ret in E.
      destruct (IH s1 E) as (x & Ex & Hx & Hrc). apply account_step in Ea as [(Er & Hk & _)|[Er Hk]].
      * exists x. rewrite Ex, Er. split; [done|]. split.
        -- intros o. destruct (Hx o) as [o' Ho]. exists o'. by constructor.
        -- intros H. destruct (Hrc H) as [|]; [left; auto|by right].
      * exists (fd_ci f ++ x). rewrite Ex, Er, app_assoc. split; [done|]. split.
        -- intros o. destruct (Hx (fd_clear f o)) as [o' Ho]. exists o'. by constructor.
        -- intros _. right. by rewrite (field_head f Hf).
    + destruct (IH s E) as (x & Ex & Hx & Hrc). exists x. split; [done|]. split; [|done].
      intros o. destruct (Hx o) as [o' Ho]. exists o'. by constructor.
Qed.

(** Where disagreement is rejected, only the magic number is answered with a Nak. *)
Lemma answer_no_nak fs s s' :
  reject_if_disagree = true → Forall field_ok fs →
  (∀ f ho drawn h d, f ∈ fs → fd_cond f = true → fd_opt f = CI_MAGICNUMBER → verdict_on f ho drawn ≠ (Nak h, d)) →
  answer (request fs) s = Ok s' → rq_rc s ≠ CONFNAK → rq_rc s' ≠ CONFNAK.
Proof.
  intros Hrej Hfs. revert s. induction Hfs as [|f fs Hf Hfs IH]; intros s Hv E Hrc.
  - by injection E as <-.
  - assert (Hv' : ∀ g ho drawn h d, g ∈ fs → fd_cond g = true → fd_opt g = CI_MAGICNUMBER → verdict_on g ho drawn ≠ (Nak h, d)).
    { intros g ho drawn h d Hg. apply Hv. by right. }
    rewrite request_cons in E. destruct (fd_cond f) eqn:Hc; cbn [add_if app] in E; [|by apply (IH s)].
    rewrite answer_field in E by done. destruct (verdict_on f _ _) as [v d] eqn:Ev.
    destruct (req_account _ _ _ _ _ _) as [s1| |] eqn:Ea; [|done|done]. rewrite bind_ret in E.
    apply (IH s1); [done|done|]. intros Hn. apply account_step in Ea as [(_ & _ & Hk)|[_ Hk]]; [|by rewrite Hk in Hn].
    destruct (Hk Hn) as [|(h & -> & Hm)]; [done|]. by apply (Hv f _ _ h d (list_elem_of_here _ _) Hc (Hm Hrej) Ev).
Qed.

(** The own magic number is not that of the peer. *)
Definition magic_differs (go : lcp_options) : Prop :=
  neg_magicnumber go = true → neg_magicnumber pgo = true → magicnumber go ≠ magicnumber pgo.

Lemma magic_no_nak go f ho drawn h d :
  wire_range go → magic_differs go → f ∈ asked_fields go → fd_cond f = true → fd_opt f = CI_MAGICNUMBER → verdict_on f ho drawn ≠ (Nak h, d).
Proof.
  intros Hgo Hm Hf Hc Hopt. assert (Ef : f = nth_field go 7).
  { clear Hc. revert f Hf Hopt. refine (proj1 (Forall_forall _ _) _). by repeat (apply Forall_cons; split). }
  subst f. rewrite judge_magic by done. destruct (negb _); [done|]. destruct (neg_magicnumber pgo) eqn:Ep; cbn [andb]; [|done].
  rewrite (proj2 (Z.eqb_neq _ _)) by (by apply Hm). done.
Qed.
End peer.

(** A request as it is built is short. *)
Lemma add_if_app (b : bool) ci rest n k :
  Z.of_nat (length ci) ≤ n → 0 ≤ n → Z.of_nat (length rest) ≤ k → Z.of_nat (length (add_if b ci ++ rest)) ≤ n + k.
Proof. intros H1 H2 H3. rewrite length_app. destruct b; cbn [add_if length]; lia. Qed.

Lemma lcp_addci_length go : wire_range go → Z.of_nat (length (lcp_addci go)) ≤ 120.
Proof.
  intros Hgo. pose proof (ir_length _ Hgo) as Hl. unfold MAX_ENDP_LEN in Hl. unfold lcp_addci.
  change 120 with (8 + (8 + (8 + (8 + (8 + (8 + (8 + (8 + (8 + (8 + (8 + (8 + 24)))))))))))).
  do 12 (apply add_if_app; [done|done|]). destruct (neg_endpoint go); cbn [add_if ci_endp length app]; lia.
Qed.

(** ** Rounds of the negotiation *)

Section negotiation.
Context (mrand48 : nat → Z) (multilink : bool) (pgo pao : lcp_options).

(** The peer, which has sent enough Naks, answers the request of [go]; a Reject leads to the
    next request, an Ack ends the exchange with the final options and those that the
    peer has recorded. *)
Fixpoint negotiate (rounds : nat) (drawn : nat) (go : lcp_options) : option (lcp_options * lcp_options) :=
  match rounds with
  | O => None
  | S rounds =>
      match lcp_reqci mrand48 multilink pgo pao drawn (lcp_addci go) true with
      | Ok (rc, out, ho, drawn) =>
          if rc =? CONFACK then if lcp_ackci go out then Some (go, ho) else None
          else if rc =? CONFREJ then go ← lcp_rejci false go out; negotiate rounds drawn go
          else None
      | _ => None
      end
  end.
End negotiation.

Lemma weight_range o : 0 ≤ weight o ≤ 13.
Proof. unfold weight, flags. cbn [foldr]. repeat match goal with |- context [Z.b2z ?b] => pose proof (b2z_pos b); assert (Z.b2z b ≤ 1) by (by destruct b); generalize dependent (Z.b2z b); intros end. lia. Qed.

(** A Reject of an own request is good: the options in it are given up, and they are
    fewer then. *)
Lemma lcp_reject_step (mrand48 : nat → Z) (multilink reject_if_disagree : bool) (pgo pao go : lcp_options)
    (drawn drawn' : nat) (out : bytes) (ho : lcp_options) :
  wire_range go →
  lcp_reqci mrand48 multilink pgo pao drawn (lcp_addci go) reject_if_disagree = Ok (CONFREJ, out, ho, drawn') →
  ∃ go', lcp_rejci false go out = Some go' ∧ gives_up go go' ∧ weight go' < weight go.
Proof.
  intros Hgo E. unfold lcp_reqci in E. destruct (req_loop _ _ _ _ _ _ _ _) as [s'| |] eqn:El; [|done|done].
  rewrite bind_ret in E. injection E as Hrc Eout _ _. rewrite Hrc in Eout. cbn in Eout. subst out.
  pose proof El as El'. rewrite lcp_addci_fields in El'.
  destruct (answer_selects mrand48 multilink reject_if_disagree pgo pao (asked_fields go) _ s' (fields_ok go _ _ Hgo) El') as (x & Ex & Hx & Hne).
  cbn in Ex. destruct (Hx go) as [go' Hs]. apply selects_asked in Hs. exists go'. rewrite Ex. split.
  - apply lcp_rejci_iff; [done| |done].
    destruct (answer_fits mrand48 multilink reject_if_disagree pgo pao (lcp_addci go) (mk_req no_options [] [] CONFACK drawn))
      as (s2 & E2 & _ & _ & (y & Ey & Hy & _) & _); [|by left|].
    { pose proof (lcp_addci_length go Hgo). cbn. unfold PPP_MRU. lia. }
    unfold answer in E2. rewrite El in E2. injection E2 as <-. rewrite Ex in Ey. cbn in Ey. subst y.
    pose proof (lcp_addci_bytes go Hgo) as Hb. unfold is_bytes in *. rewrite Forall_forall in Hb |- *. intros z Hz. apply Hb.
    by eapply elem_of_sublist.
  - split; [by eapply (selects_give_up go (neg_mru go) (neg_asyncmap go))|].
    apply (selects_lighter go (rej_fields go) x); [done|done|]. by destruct (Hne Hrc) as [|].
Qed.

(** The magic number is kept. *)
Lemma gives_up_magic pgo go go' : gives_up go go' → magic_differs pgo go → magic_differs pgo go'.
Proof.
  intros [_ M F] Hm. unfold magic_differs. rewrite M. intros Hn. apply Hm.
  apply (Forall2_lookup_lr _ _ _ 5 (neg_magicnumber go') (neg_magicnumber go)) in F; [|done|done].
  rewrite Hn in F. by destruct (neg_magicnumber go); [|destruct F].
Qed.

(** What a round may lead to. *)
Lemma negotiate_round (mrand48 : nat → Z) (multilink : bool) (pgo pao go : lcp_options) (drawn : nat) :
  wire_range go → magic_differs pgo go →
  (permits multilink pgo pao go
   ∧ ∀ n, negotiate mrand48 multilink pgo pao (S n) drawn go = Some (go, granted go))
  ∨ (∃ go' drawn', gives_up go go' ∧ weight go' < weight go
     ∧ ∀ n, negotiate mrand48 multilink pgo pao (S n) drawn go = negotiate mrand48 multilink pgo pao n drawn' go').
Proof.
  intros Hgo Hm. destruct (reqci_acks mrand48 multilink true pgo pao go drawn Hgo) as [Hiff Hack].
  pose proof (lcp_addci_length go Hgo) as Hlen.
  destruct (reqci_run mrand48 multilink true pgo pao drawn (lcp_addci go) ltac:(lia)) as (s' & El & (_ & Hrc & _) & E).
  apply list_elem_of_In in Hrc as [Hrc|[Hrc|[Hrc|[]]]]; rewrite <- Hrc in E.
  - left. assert (Hpm : permits multilink pgo pao go) by (apply Hiff; eauto). split; [done|]. intros n. cbn [negotiate].
    rewrite (Hack Hpm). cbn [Z.eqb]. by rewrite (proj2 (lcp_ackci_iff go _ Hgo (lcp_addci_bytes go Hgo)) eq_refl).
  - exfalso. rewrite lcp_addci_fields in El. symmetry in Hrc. revert Hrc.
    apply (answer_no_nak mrand48 multilink true pgo pao (asked_fields go) (mk_req no_options [] [] CONFACK drawn) s' eq_refl (fields_ok go _ _ Hgo)); [|exact El|done].
    intros f h0 d0 h d Hf Hc Ho. by apply (magic_no_nak mrand48 multilink pgo pao go).
  - right. cbn [Z.eqb CONFREJ CONFACK CONFNAK Pos.eqb] in E.
    destruct (lcp_reject_step mrand48 multilink true pgo pao go drawn _ _ _ Hgo E) as (go' & Er & Hg & Hl).
    eexists go', _. split; [done|]. split; [done|]. intros n. cbn [negotiate]. rewrite E. cbn [Z.eqb CONFREJ CONFACK Pos.eqb]. by rewrite Er.
Qed.

(** C20: With a peer that rejects what it disagrees with, and has another magic number,
    at most fourteen rounds lead to an Ack: the options that are left are permitted,
    their values are the own ones, and the peer has recorded exactly them. *)
Theorem lcp_negotiation_ends (mrand48 : nat → Z) (multilink : bool) (pgo pao go : lcp_options) (drawn : nat) :
  wire_range go → magic_differs pgo go →
  ∃ go', negotiate mrand48 multilink pgo pao 14 drawn go = Some (go', granted go')
    ∧ gives_up go go' ∧ permits multilink pgo pao go'.
Proof.
  intros Hgo Hm. pose proof (weight_range go) as [_ Hw]. change 14%nat with (S 13).
  assert (Hw' : weight go ≤ Z.of_nat 13) by exact Hw. clear Hw. revert Hw'. generalize 13%nat as n. intros n.
  revert go drawn Hgo Hm. induction n as [|n IH]; intros go drawn Hgo Hm Hw;
    destruct (negotiate_round mrand48 multilink pgo pao go drawn Hgo Hm) as [[Hpm E]|(go' & drawn' & Hg & Hl & E)].
  1,3: exists go; split; [apply E|]; split; [apply gives_up_refl|done].
  - pose proof (weight_range go'). lia.
  - assert (Hm' : magic_differs pgo go') by (eapply gives_up_magic; [done|done]).
    destruct (IH go' drawn' (gu_range _ _ Hg Hgo) Hm' ltac:(lia)) as (go2 & E2 & Hg2 & Hpm). exists go2.
    split; [by rewrite E|]. split; [by eapply gives_up_trans|done].
Qed.
