(* ===== verification/LcpTyped.v ===== *)
(** * The options of LCP: values in range

    Every routine of the options completes, keeps every number in the range of the type
    of its member and the discriminator inside its array, and writes bytes. *)

From stdpp Require Import base numbers list.
From S2P Require Import Prelude Bytes PppFsm LcpOptions LcpOptionsProps LcpNegotiate.

(** ** Values in range *)

(** Every member is in the range of its type: those that go out in options, the set of
    algorithms, an [unsigned char], and the number of loops, an [int]. *)
Record in_range (o : lcp_options) : Prop := {
  ir_wire : wire_range o;
  ir_mdtype : is_u8 (chap_mdtype o);
  ir_numloops : -2147483648 ≤ numloops o < 2147483648 }.

(** ** Data of the options *)

Lemma lor_range a b : is_u32 a → is_u32 b → is_u32 (Z.lor a b).
Proof.
  unfold is_u32. intros Ha Hb. cut (0 ≤ Z.lor a b < 4294967296 ∨ 4294967296 < Z.lor a b ≤ 0); [lia|]. apply Z.div_small_iff; [done|].
  change 4294967296 with (2 ^ 32). rewrite <- Z.shiftr_div_pow2, Z.shiftr_lor, !Z.shiftr_div_pow2 by done.
  by rewrite !Z.div_small.
Qed.

Lemma total_u8 b i : is_bytes b → is_u8 (b !!! i).
Proof.
  intros Hb. rewrite list_lookup_total_alt. destruct (b !! i) eqn:E; [|done]. cbn. by eapply Forall_lookup_1 in Hb.
Qed.

Lemma land_u8 a b : is_u8 a → is_u8 (Z.land a b).
Proof.
  intros Ha. replace a with (Z.land a 255).
  - rewrite <- Z.land_assoc, (Z.land_comm 255), Z.land_assoc. change 255 with (Z.ones 8). rewrite Z.land_ones by done. by apply Z.mod_pos_bound.
  - change 255 with (Z.ones 8). rewrite Z.land_ones by done. by apply Z.mod_small.
Qed.

Lemma mdtype_u8 d : is_u8 (CHAP_MDTYPE_D d).
Proof. unfold CHAP_MDTYPE_D. by repeat case_match. Qed.

Create HintDb ranges.
#[export] Hint Resolve get16_range get32_range lor_range total_u8 is_bytes_be_bytes CHAP_DIGEST_range land_u8 mdtype_u8 : ranges.

(** ** Setters *)

Lemma range_mru o b v : in_range o → 0 ≤ v < 65536 → in_range (set_neg_mru o b v).
Proof. by intros [[] ? ?] ?. Qed.
Lemma range_mrru o b v : in_range o → 0 ≤ v < 65536 → in_range (set_neg_mrru o b v).
Proof. by intros [[] ? ?] ?. Qed.
Lemma range_asyncmap o b v : in_range o → is_u32 v → in_range (set_neg_asyncmap o b v).
Proof. by intros [[] ? ?] ?. Qed.
Lemma range_magicnumber o b v : in_range o → is_u32 v → in_range (set_neg_magicnumber o b v).
Proof. by intros [[] ? ?] ?. Qed.
Lemma range_lqr o b v : in_range o → is_u32 v → in_range (set_neg_lqr o b v).
Proof. by intros [[] ? ?] ?. Qed.
Lemma range_endpoint o b class value :
  in_range o → is_u8 class → is_bytes value → Z.of_nat (length value) ≤ MAX_ENDP_LEN → in_range (set_neg_endpoint o b class value).
Proof. by intros [[] ? ?]. Qed.
Lemma range_auth o upap chap eap md : in_range o → is_u8 md → in_range (set_auth o upap chap eap md).
Proof. by intros [[] ? ?]. Qed.
Lemma range_pcompression o b : in_range o → in_range (set_neg_pcompression o b).
Proof. by intros [[] ? ?]. Qed.
Lemma range_accompression o b : in_range o → in_range (set_neg_accompression o b).
Proof. by intros [[] ? ?]. Qed.
Lemma range_cbcp o b : in_range o → in_range (set_neg_cbcp o b).
Proof. by intros [[] ? ?]. Qed.
Lemma range_ssnhf o b : in_range o → in_range (set_neg_ssnhf o b).
Proof. by intros [[] ? ?]. Qed.
Lemma range_numloops o v : in_range o → -2147483648 ≤ v < 2147483648 → in_range (set_numloops o v).
Proof. by intros [[] ? ?]. Qed.
Lemma wire_none : wire_range no_options.
Proof. split; done || by apply Forall_nil. Qed.
Lemma range_none : in_range no_options.
Proof. split; [apply wire_none|done|done]. Qed.

Lemma in_mru o : in_range o → 0 ≤ mru o < 65536.
Proof. intros [H _ _]. apply H. Qed.
Lemma in_mrru o : in_range o → 0 ≤ mrru o < 65536.
Proof. intros [H _ _]. apply H. Qed.
Lemma in_asyncmap o : in_range o → is_u32 (asyncmap o).
Proof. intros [H _ _]. apply H. Qed.
Lemma in_magic o : in_range o → is_u32 (magicnumber o).
Proof. intros [H _ _]. apply H. Qed.
Lemma in_lqr o : in_range o → is_u32 (lqr_period o).
Proof. intros [H _ _]. apply H. Qed.
Lemma in_class o : in_range o → is_u8 (endpoint_class o).
Proof. intros [H _ _]. apply H. Qed.
Lemma in_value o : in_range o → is_bytes (endpoint_value o).
Proof. intros [H _ _]. apply H. Qed.
Lemma in_length o : in_range o → Z.of_nat (length (endpoint_value o)) ≤ MAX_ENDP_LEN.
Proof. intros [H _ _]. apply H. Qed.

#[export] Hint Resolve range_mru range_mrru range_asyncmap range_magicnumber range_lqr range_endpoint range_auth range_pcompression
  range_accompression range_cbcp range_ssnhf range_numloops range_none
  in_mru in_mrru in_asyncmap in_magic in_lqr in_class in_value in_length ir_mdtype ir_numloops : ranges.

Ltac ranges := eauto 8 with ranges.

(** ** Naks and Rejects *)

(** The copy of the options has the number of loops [k]. *)
Definition nak_typed (k : Z) (s : nak_state) : Prop :=
  is_bytes (nk_p s) ∧ in_range (nk_no s) ∧ (in_range (nk_try s) ∧ numloops (nk_try s) = k) ∧ is_u8 (nk_mdtype s).

(** The setters keep the number of loops. *)
Ltac copies := split; [ranges|split; [ranges|try done; try assumption]].

Lemma nakci_typed k neg opt n code s :
  (∀ d no try, is_bytes d → in_range no → in_range try → numloops try = k →
     in_range (fst (code d (no, try))) ∧ in_range (snd (code d (no, try))) ∧ numloops (snd (code d (no, try))) = k) →
  nak_typed k s → nak_typed k (nakci neg opt n code s).
Proof.
  intros Hcode (Hp & Hno & (Htry & Hk) & Hmd). unfold nakci. destruct (_ && _ && _ && _); [|done].
  specialize (Hcode (take (Z.to_nat (n - 2)) (drop 2 (nk_p s))) (nk_no s) (nk_try s) ltac:(by apply Forall_take, Forall_drop) Hno Htry Hk).
  destruct (code _ _) as [no try]. split; [by apply Forall_drop|]. destruct Hcode as (H1 & H2 & H3). split; [exact H1|]. split; [|exact Hmd]. by split.
Qed.

Lemma nak_auth_typed k go s :
  in_range go → nak_typed k s → match nak_auth go s with inl s' => nak_typed k s' | inr md => is_u8 md end.
Proof.
  intros Hgo (Hp & Hno & (Htry & Hk) & Hmd). unfold nak_auth. destruct (_ && _ && _ && _ && _); [|done].
  assert (Hd : is_bytes (drop (Z.to_nat (nk_p s !!! 1%nat)) (nk_p s))) by (by apply Forall_drop).
  unfold nak_typed. cbv zeta.
  repeat case_match; simplify_eq; try done; cbn [nk_p nk_no nk_try nk_mdtype nak_set];
    unfold set_neg_eap, set_neg_chap, set_neg_upap, set_mdtype;
    (split; [done|]); (split; [ranges|]); (split; [split; [|done]|]); try done; try apply mdtype_u8; ranges.
  apply range_auth; [ranges|cbn; ranges].
Qed.

Section typed.
Context (mrand48 : nat → Z).

Lemma magic_range drawn : is_u32 (fst (magic mrand48 drawn)).
Proof. apply u32_range. Qed.

Lemma nak_magic_typed k go s : nak_typed k s → nak_typed k (nak_magic mrand48 go s).
Proof.
  intros (Hp & Hno & (Htry & Hk) & Hmd). unfold nak_magic. destruct (_ && _ && _ && _); [|done]. destruct (magic mrand48 (nk_drawn s)) as [m d] eqn:Em.
  pose proof (magic_range (nk_drawn s)) as Hm. rewrite Em in Hm. split; [by apply Forall_drop|]. cbn. split; [ranges|]. split; [|done]. split; [ranges|done].
Qed.

Lemma nak_endpoint_typed k go s : nak_typed k s → nak_typed k (nak_endpoint go s).
Proof.
  intros (Hp & Hno & (Htry & Hk) & Hmd). unfold nak_endpoint. destruct (_ && _ && _ && _ && _); [|done].
  split; [by apply Forall_drop|]. cbn. unfold clear_endpoint. split; [ranges|]. split; [|done]. split; [ranges|done].
Qed.

Lemma nak_own_typed k wo go s :
  in_range go → nak_typed k s → match nak_own mrand48 wo go s with inl s' => nak_typed k s' | inr md => is_u8 md end.
Proof.
  intros Hgo Hs. unfold nak_own. set (s2 := nakci (asks_asyncmap go) _ _ _ _).
  assert (H2 : nak_typed k s2) by (repeat (apply nakci_typed; [intros d no try Hd Hno Htry Hk; cbn [seen fst snd]; repeat case_match; copies|]); done).
  clearbody s2. pose proof (nak_auth_typed k go s2 Hgo H2) as H3. destruct (nak_auth go s2) as [s3|md]; [|done]. clear H2 Hs.
  apply nak_endpoint_typed.
  repeat (apply nakci_typed; [intros d no try Hd Hno Htry Hk; cbn [seen fst snd]; unfold clear_ssnhf, clear_accompression, clear_pcompression, clear_cbcp, clear_lqr; repeat case_match; copies|]).
  apply nak_magic_typed.
  repeat (apply nakci_typed; [intros d no try Hd Hno Htry Hk; cbn [seen fst snd]; unfold clear_cbcp, clear_lqr; repeat case_match; copies|]).
  done.
Qed.

(** The loop over the options that are left ends. *)
Lemma nak_rest_typed k fuel go no try p :
  is_bytes p → (length p ≤ fuel)%nat → in_range try → numloops try = k →
  ∃ r, nak_rest fuel go no try p = Ok r ∧ ∀ try', r = Some try' → in_range try' ∧ numloops try' = k.
Proof.
  revert try p. induction fuel as [|fuel IH]; intros try p Hp Hf Htry Hk; cbn [nak_rest];
    (destruct (Z.leb_spec (Z.of_nat (length p)) CILEN_VOID) as [Hl|Hl]; [exists (Some try); by split; [|intros ? [= <-]]|]); unfold CILEN_VOID in Hl; [lia|].
  destruct (_ || _) eqn:Eb; [by exists None|]. rewrite orb_false_iff, !Z.ltb_ge in Eb. unfold CILEN_VOID in Eb.
  assert (Hd : is_bytes (drop (Z.to_nat (p !!! 1%nat)) p)) by (by apply Forall_drop).
  assert (Hlen : (length (drop (Z.to_nat (p !!! 1%nat)) p) ≤ fuel)%nat) by (rewrite length_drop; lia).
  repeat case_match; try (by exists None); (apply IH; [exact Hd|exact Hlen|ranges|done]).
Qed.

(** ** Requests *)

Lemma ci_bytes_cons a b l : is_u8 a → is_u8 b → is_bytes l → is_bytes ([a; b] ++ l).
Proof. intros Ha Hb Hl. by apply Forall_cons; split; [|apply Forall_cons]. Qed.

Lemma nak_chap_bytes v : is_bytes (nak_chap v).
Proof.
  apply ci_bytes_cons; [done|done|]. apply is_bytes_app. split; [apply is_bytes_be_bytes|]. by apply Forall_cons; split; [apply CHAP_DIGEST_range|].
Qed.

Definition verdict_typed (v : verdict) : Prop :=
  match v with Accept ho => in_range ho | Nak h => is_bytes h | Reject => True end.

Lemma req_auth_typed ao ho cilen d : in_range ho → verdict_typed (req_auth ao ho cilen d).
Proof.
  intros Hho. unfold req_auth. repeat case_match; cbn [verdict_typed]; try done; unfold set_neg_upap, set_neg_eap; try (by unfold set_neg_upap, set_neg_eap; ranges);
    try apply nak_chap_bytes; try (by apply ci_bytes_cons; [..|apply is_bytes_be_bytes]).
  apply ci_bytes_cons; [done|done|]. apply is_bytes_app. split; [apply is_bytes_be_bytes|]. apply Forall_cons. split; [apply u8_range|by apply Forall_nil].
Qed.

Lemma req_verdict_typed multilink go ao ho drawn citype cilen d :
  in_range ao → in_range ho → is_bytes d → Z.of_nat (length d) ≤ cilen - 2 →
  verdict_typed (fst (req_verdict mrand48 multilink go ao ho drawn citype cilen d)).
Proof.
  intros Hao Hho Hd Hl. unfold req_verdict. pose proof (magic_range drawn) as Hm. destruct (magic mrand48 drawn) as [m d']. cbn in Hm.
  repeat (case_match; cbn [fst verdict_typed]; try done); try apply req_auth_typed; try (by ranges);
    try (by apply ci_bytes_cons; [..|apply is_bytes_be_bytes]).
  - apply ci_bytes_cons; [done|done|]. apply is_bytes_app. split; apply is_bytes_be_bytes.
  - rewrite !orb_false_iff in *. destruct_and?. rewrite !Z.ltb_ge in *. apply range_endpoint; [done|ranges|by apply Forall_drop|].
    rewrite length_drop. unfold CILEN_CHAR in *. lia.
Qed.

Definition req_typed (s : req_state) : Prop := in_range (rq_ho s) ∧ is_bytes (rq_nak s) ∧ is_bytes (rq_rej s).

Lemma req_account_typed rej citype ci v drawn s s' :
  is_bytes ci → verdict_typed v → req_typed s → req_account rej citype ci v drawn s = Ok s' → req_typed s'.
Proof.
  intros Hci Hv (Hho & Hnak & Hrej) E. destruct v as [ho|h|]; cbn [req_account verdict_typed] in *.
  - by injection E as <-.
  - unfold put_nak in E. destruct (_ <=? _); [|done]. rewrite bind_ret in E.
    destruct (_ && _); injection E as <-; (split; [done|split]); try done; by apply is_bytes_app.
  - injection E as <-. split; [done|]. split; [done|]. by apply is_bytes_app.
Qed.

Lemma req_loop_typed fuel multilink rej go ao l s s' :
  in_range ao → is_bytes l → req_typed s → req_loop mrand48 fuel multilink rej go ao l s = Ok s' → req_typed s'.
Proof.
  intros Hao. revert l s. induction fuel as [|fuel IH]; intros l s Hl Hs E; (destruct l as [|x l]; [by injection E as <-|]); [done|].
  cbn [req_loop] in E. set (p := x :: l) in *. destruct (_ || _ || _) eqn:Em.
  - by eapply req_account_typed; [exact Hl| | |exact E].
  - rewrite !orb_false_iff, !Z.ltb_ge in Em. destruct Em as [[_ Em] _].
    destruct (req_verdict _ _ _ _ _ _ _ _ _) as [v d] eqn:Ev. destruct (req_account _ _ _ _ _ _) as [s1| |] eqn:Ea; [|done|done].
    rewrite bind_ret in E. apply IH in E; [done|by apply Forall_drop|].
    eapply req_account_typed; [|  |exact Hs|exact Ea]; [by apply Forall_take|].
    replace v with (fst (v, d)) by done. rewrite <- Ev. apply req_verdict_typed; [done|by apply Hs|by apply Forall_drop, Forall_take|].
    rewrite length_drop, length_take. lia.
Qed.

Lemma lcp_rejci_typed opened go p go' : in_range go → lcp_rejci opened go p = Some go' → in_range go'.
Proof.
  intros Hgo. rewrite lcp_rejci_fields.
  assert (Hfs : Forall (λ f, ∀ o, in_range o → in_range (fd_clear f o)) (rej_fields go)).
  { repeat (apply Forall_cons; split); [..|by apply Forall_nil]; cbn [fd_clear]; intros o Ho;
      unfold clear_mru, clear_asyncmap, clear_eap, clear_chap, clear_upap, clear_lqr, clear_cbcp, clear_magicnumber, clear_pcompression,
        clear_accompression, clear_mrru, clear_ssnhf, clear_endpoint, set_neg_eap, set_neg_upap; ranges. }
  assert (Hrun : ∀ q o q' o', in_range o → rej_run (rej_fields go) (q, o) = Some (q', o') → in_range o').
  { induction Hfs as [|f fs Hf _ IH]; intros q o q' o' Ho E; [by injection E as _ <-|]. cbn [rej_run] in E. unfold rej_field, rejci in E.
    destruct (_ && _ && _ && _); [|by eapply IH]. destruct (fd_check f _); [|done]. cbn in E. eapply IH, E. by apply Hf. }
  destruct (rej_run _ _) as [[q try]|] eqn:E; [|done]. cbn. destruct (decide _); [|done]. intros [= <-]. destruct opened; [done|]. by eapply Hrun.
Qed.

Lemma lcp_nakci_typed opened wo go drawn p :
  in_range go → numloops go < 2147483647 → is_bytes p →
  ∃ r, lcp_nakci mrand48 opened wo go drawn p = Ok r ∧ in_range (nr_go r).
Proof.
  intros Hgo Hk Hp. unfold lcp_nakci.
  pose proof (nak_own_typed (numloops go) wo go (mk_nak p no_options go (chap_mdtype go) false drawn) Hgo) as Ho.
  specialize (Ho ltac:(split; [done|]; split; [apply range_none|]; split; [done|apply Hgo])).
  destruct (nak_own _ _ _ _) as [s|md]; [|eexists; split; [reflexivity|]; cbn [nr_go]; unfold set_mdtype; ranges].
  destruct Ho as (Hq & _ & [Htry Hn] & Hmd).
  destruct (nak_rest_typed (numloops go) (length (nk_p s)) go (nk_no s) (nk_try s) (nk_p s) Hq (le_n _) Htry Hn) as (r & -> & Hr).
  rewrite bind_ret. destruct r as [try|]; [|eexists; split; [reflexivity|]; cbn [nr_go]; unfold set_mdtype; ranges].
  destruct (Hr try eq_refl) as [Ht Ht']. destruct opened; (eexists; split; [reflexivity|]); cbn [nr_go]; [unfold set_mdtype; ranges|].
  apply range_numloops; [done|]. pose proof (ir_numloops _ Hgo). destruct (nk_looped s); lia.
Qed.

Lemma lcp_reqci_typed multilink go ao drawn p rej rc out ho drawn' :
  in_range ao → is_bytes p → lcp_reqci mrand48 multilink go ao drawn p rej = Ok (rc, out, ho, drawn') → in_range ho ∧ is_bytes out.
Proof.
  intros Hao Hp E. unfold lcp_reqci in E.
  destruct (req_loop _ _ _ _ _ _ _ _) as [s'| |] eqn:El; [|done|done]. rewrite bind_ret in E. injection E as <- <- <- _.
  apply req_loop_typed in El as (Hho & Hnak & Hrej); [|done|done|split; [apply range_none|by split; apply Forall_nil]].
  split; [done|]. by repeat case_match.
Qed.

(** C39: The options stay in range: every number in the range of its member's type, the
    discriminator inside its array of 20 bytes.  A request is made of bytes; the routines
    for the answers to it complete and leave the own options in range (the number of loops
    is below the largest [int] before it is counted up); and the answer to a peer's request,
    which is computed if the request has at most 1200 bytes, is made of bytes, fits the
    buffer, and records options in range. *)
Theorem lcp_options_typed (wo go ao : lcp_options) (p : bytes) :
  in_range go → in_range ao → numloops go < 2147483647 → is_bytes p →
  is_bytes (lcp_addci go)
  ∧ (∀ opened go', lcp_rejci opened go p = Some go' → in_range go')
  ∧ (∀ opened drawn, ∃ r, lcp_nakci mrand48 opened wo go drawn p = Ok r ∧ in_range (nr_go r))
  ∧ (∀ multilink drawn rej, Z.of_nat (length p) ≤ 1200 →
       ∃ rc out ho drawn', lcp_reqci mrand48 multilink go ao drawn p rej = Ok (rc, out, ho, drawn')
         ∧ in_range ho ∧ is_bytes out ∧ Z.of_nat (length out) ≤ PPP_MRU)
  ∧ (∀ multilink drawn rej rc out ho drawn',
       lcp_reqci mrand48 multilink go ao drawn p rej = Ok (rc, out, ho, drawn') → in_range ho ∧ is_bytes out).
Proof.
  intros Hgo Hao Hk Hp. split; [by apply lcp_addci_bytes, Hgo|]. split; [|split; [|split]].
  - intros opened go'. by apply lcp_rejci_typed.
  - intros opened drawn. by apply lcp_nakci_typed.
  - intros multilink drawn rej Hl.
    destruct (reqci_run mrand48 multilink rej go ao drawn p Hl) as (s' & _ & (Hn & Hrc & (x & Ex & Hx & _) & _) & E).
    do 4 eexists. split; [exact E|]. destruct (lcp_reqci_typed _ _ _ _ _ _ _ _ _ _ Hao Hp E) as [H1 H2]. split; [done|]. split; [done|].
    cbn in Ex. apply sublist_length in Hx. unfold PPP_MRU in *. repeat case_match; rewrite ?Ex; lia.
  - intros multilink drawn rej rc out ho drawn'. by apply lcp_reqci_typed.
Qed.
End typed.
