(* ===== verification/LcpNak.v ===== *)
(** * The options of LCP: every answer is understood

    The answers that [lcp_reqci] gives to a request of [lcp_addci] are good for the
    routines that read answers: the Naks above all. *)

From stdpp Require Import base numbers list.
From S2P Require Import Prelude Bytes PppFsm LcpOptions LcpOptionsProps LcpNegotiate LcpTyped.

(** ** The Naks of a peer *)

Section peer.
Context (mrand48 : nat → Z) (multilink reject_if_disagree : bool) (pgo pao : lcp_options).

Abbreviation answer := (answer mrand48 multilink reject_if_disagree pgo pao).
Abbreviation verdict_on f ho drawn :=
  (req_verdict mrand48 multilink pgo pao ho drawn (fd_opt f) (fd_n f) (drop 2 (fd_ci f))).

(** The hint that an option of the request gets. *)
Definition hint_of (f : field) (h : bytes) : Prop :=
  h = [] ∨ (fd_cond f = true ∧ ∃ ho drawn drawn', verdict_on f ho drawn = (Nak h, drawn')).

Lemma answer_hints fs s s' :
  Forall field_ok fs → answer (request fs) s = Ok s' → rq_rc s' ≠ CONFREJ →
  ∃ hs, rq_nak s' = rq_nak s ++ concat hs ∧ Forall2 hint_of fs hs.
Proof.
  intros Hfs. revert s. induction Hfs as [|f fs Hf Hfs IH]; intros s E Hrc.
  - injection E as <-. exists []. by rewrite app_nil_r.
  - rewrite request_cons in E. destruct (fd_cond f) eqn:Hc; cbn [add_if app] in E.
    + rewrite answer_field in E by done. destruct (verdict_on f _ _) as [v d] eqn:Ev.
      destruct (req_account _ _ _ _ _ _) as [s1| |] eqn:Ea; [|done|done]. rewrite bind_ret in E.
      destruct (IH s1 E Hrc) as (hs & En & Hhs).
      assert (Hh : ∃ h, rq_nak s1 = rq_nak s ++ h ∧ hint_of f h).
      { destruct v as [ho|h|]; cbn [req_account] in Ea.
        - injection Ea as <-. exists []. rewrite app_nil_r. split; [done|by left].
        - unfold put_nak in Ea. destruct (_ <=? _); [|done]. rewrite bind_ret in Ea. exists h. split; [by destruct (_ && _); injection Ea as <-|].
          right. split; [done|]. by exists (rq_ho s), (rq_drawn s), d.
        - injection Ea as <-. exists []. rewrite app_nil_r. split; [done|by left]. }
      destruct Hh as (h & E1 & Hh). exists (h :: hs). rewrite En, E1, <- app_assoc. split; [done|by constructor].
    + destruct (IH s E Hrc) as (hs & En & Hhs). exists ([] :: hs). split; [done|]. constructor; [by left|done].
Qed.

(** The hints for the authentication. *)
Definition auth_hint (go : lcp_options) (h : bytes) : Prop :=
  h = nak_eap ∧ neg_eap go = false
  ∨ h = nak_pap ∧ (neg_eap go || neg_chap go = true)
  ∨ (∃ v, h = [CI_AUTHTYPE; CILEN_CHAP] ++ PUTSHORT PPP_CHAP ++ [v] ∧ (neg_eap go = true ∨ v ≠ 1)).

Lemma CHAP_DIGEST_not_1 v : CHAP_DIGEST v ≠ 1.
Proof. unfold CHAP_DIGEST. by repeat destruct (nz _). Qed.

(** The Naks of the ways to authenticate. *)
Lemma hint_eap go h : hint_of (nth_field go 2) h → h = [] ∨ neg_eap go = true ∧ auth_hint go h.
Proof.
  intros [->|(Hc & ho & d & d' & E)]; [by left|right]. split; [exact Hc|]. change (neg_eap go = true) in Hc.
  change ((if negb (neg_upap pao || neg_chap pao || neg_eap pao) then Reject
   else if neg_chap ho || neg_upap ho || false then Reject
   else if negb (neg_eap pao) then Nak (if neg_chap pao then [CI_AUTHTYPE; CILEN_CHAP] ++ PUTSHORT PPP_CHAP ++ [u8 (chap_mdtype pao)] else nak_pap)
   else Accept (set_neg_eap ho true), d) = (Nak h, d')) in E.
  destruct (negb _); [done|]. destruct (_ || _); [done|]. destruct (negb _); [|done]. injection E as <- _. unfold auth_hint. rewrite Hc.
  destruct (neg_chap pao); [right; right; eexists; by split; [|left]|right; by left].
Qed.

Lemma hint_chap go h : hint_of (nth_field go 3) h → h = [] ∨ asks_chap go = true ∧ auth_hint go h.
Proof.
  intros [->|(Hc & ho & d & d' & E)]; [by left|right]. split; [exact Hc|]. change (asks_chap go = true) in Hc.
  apply andb_true_iff in Hc as [He Hc]. apply negb_true_iff in He.
  change ((if negb (neg_upap pao || neg_chap pao || neg_eap pao) then Reject
   else if neg_upap ho || neg_eap ho || false then Reject
   else if negb (neg_chap pao) then Nak (if neg_eap pao then nak_eap else nak_pap)
   else if negb (CHAP_CANDIGEST (chap_mdtype pao) (CHAP_DIGEST (chap_mdtype go))) then Nak (nak_chap (chap_mdtype pao))
   else Accept (set_auth ho (neg_upap ho) true (neg_eap ho) (CHAP_MDTYPE_D (CHAP_DIGEST (chap_mdtype go)))), d) = (Nak h, d')) in E.
  destruct (negb _); [done|]. destruct (_ || _); [done|]. unfold auth_hint. rewrite He, Hc. destruct (negb _).
  - injection E as <- _. destruct (neg_eap pao); [by left|right; by left].
  - destruct (negb _); [|done]. injection E as <- _. right. right. eexists. split; [done|]. right. apply CHAP_DIGEST_not_1.
Qed.

Lemma hint_upap go h : hint_of (nth_field go 4) h → h = [] ∨ asks_upap go = true ∧ auth_hint go h.
Proof.
  intros [->|(Hc & ho & d & d' & E)]; [by left|right]. split; [exact Hc|]. change (asks_upap go = true) in Hc.
  apply andb_true_iff in Hc as [Hc _]. apply andb_true_iff in Hc as [He _]. apply negb_true_iff in He.
  change ((if negb (neg_upap pao || neg_chap pao || neg_eap pao) then Reject
   else if neg_chap ho || neg_eap ho || false then Reject
   else if negb (neg_upap pao) then Nak (if neg_eap pao then nak_eap else nak_chap (chap_mdtype pao))
   else Accept (set_neg_upap ho true), d) = (Nak h, d')) in E.
  destruct (negb _); [done|]. destruct (_ || _); [done|]. destruct (negb _); [|done]. unfold auth_hint. rewrite He.
  injection E as <- _. destruct (neg_eap pao); [by left|]. right. right. eexists. split; [done|]. right. apply CHAP_DIGEST_not_1.
Qed.

(** Options that are never answered with a Nak. *)
Lemma hint_none f h : (∀ ho drawn h d, verdict_on f ho drawn ≠ (Nak h, d)) → hint_of f h → h = [].
Proof. intros Hf [->|(_ & ho & d & d' & E)]; [done|]. by apply Hf in E. Qed.

Lemma hints_of_request go hs :
  wire_range go → Forall2 hint_of (asked_fields go) hs →
  ∃ h0 h1 ha h7, concat hs = h0 ++ h1 ++ ha ++ h7
    ∧ (h0 = [] ∨ asks_mru go = true ∧ ∃ v, h0 = ci_short CI_MRU v)
    ∧ (h1 = [] ∨ asks_asyncmap go = true ∧ ∃ v, h1 = ci_long CI_ASYNCMAP v)
    ∧ (ha = [] ∨ (neg_chap go || neg_upap go || neg_eap go = true) ∧ auth_hint go ha)
    ∧ (h7 = [] ∨ neg_magicnumber go = true ∧ ∃ v, h7 = ci_long CI_MAGICNUMBER v).
Proof.
  intros Hgo Hhs. rewrite asked_nth in Hhs. cbn [fmap list_fmap seq] in Hhs.
  do 13 (apply Forall2_cons_inv_l in Hhs as (?h & ? & ?Hh & Hhs & ->)). apply Forall2_nil_inv_l in Hhs as ->.
  apply hint_eap in Hh1. apply hint_chap in Hh2. apply hint_upap in Hh3.
  apply hint_none in Hh4, Hh5, Hh7, Hh8, Hh9, Hh10, Hh11.
  2: { intros ho d x d'. rewrite judge_endpoint. by destruct (_ || _). }
  2: { intros ho d x d'. rewrite judge_ssnhf. by destruct (_ || _). }
  2: { intros ho d x d'. rewrite judge_mrru by done. by destruct (_ || _). }
  2: { intros ho d x d'. rewrite judge_accompression. by destruct (_ || _). }
  2: { intros ho d x d'. rewrite judge_pcompression. by destruct (_ || _). }
  2: { intros ho d x d'. by rewrite judge_cbcp. }
  2: { intros ho d x d'. rewrite judge_lqr. by destruct (negb _). }
  subst. exists h, h0, (h1 ++ h2 ++ h3), h6. cbn [concat app]. rewrite app_nil_r, <- !app_assoc. split; [done|].
  split; [|split; [|split]].
  - destruct Hh as [->|(Hc & ho & d & d' & E)]; [by left|right]. split; [exact Hc|]. rewrite judge_mru in E by done.
    destruct (negb _); [done|]. destruct (_ <? _); [|done]. injection E as <- _. by eexists.
  - destruct Hh0 as [->|(Hc & ho & d & d' & E)]; [by left|right]. split; [exact Hc|]. rewrite judge_asyncmap in E by done.
    destruct (negb _); [done|]. destruct (nz _); [|done]. injection E as <- _. by eexists.
  - unfold asks_chap, asks_upap in *.
    destruct (neg_eap go), (neg_chap go), (neg_upap go); cbn in *; repeat match goal with H : ?x = [] ∨ false = true ∧ _ |- _ =>
      destruct H as [->|[? _]]; [|done] end; cbn [app]; rewrite ?app_nil_r; tauto.
  - destruct Hh6 as [->|(Hc & ho & d & d' & E)]; [by left|right]. split; [exact Hc|]. rewrite judge_magic in E by done.
    destruct (negb _); [done|]. destruct (_ && _); [|done]. injection E as <- _. by eexists.
Qed.
End peer.

(** ** Reading them *)

Lemma nakci_skip neg opt n code s :
  0 < n → (nk_p s = [] ∨ nk_p s !!! 0%nat ≠ opt) → nakci neg opt n code s = s.
Proof.
  intros Hn Hs. unfold nakci. destruct (_ && _ && _ && _) eqn:E; [|done]. exfalso.
  rewrite !andb_true_iff, Z.eqb_eq, Z.leb_le in E. destruct E as [[[_ El] _] E0]. rewrite Z.eqb_eq in E0.
  destruct Hs as [Hs|Hs]; [rewrite Hs in El; cbn in El; lia|done].
Qed.

Lemma nakci_take opt n code s ci rest :
  nk_p s = ci ++ rest → 2 ≤ n → Z.of_nat (length ci) = n → ci !!! 0%nat = opt → ci !!! 1%nat = n →
  nk_p (nakci true opt n code s) = rest.
Proof.
  intros Hs Hn Hl H0 H1. unfold nakci. rewrite Hs, length_app. rewrite (proj2 (Z.leb_le _ _)) by lia.
  rewrite (lookup_total_app_l ci rest 1), (lookup_total_app_l ci rest 0) by lia. rewrite H0, H1, !Z.eqb_refl. cbn [andb].
  destruct (code _ _) as [no try]. cbn. apply drop_app_length'. lia.
Qed.

Lemma nak_auth_skip go s : (nk_p s = [] ∨ nk_p s !!! 0%nat ≠ CI_AUTHTYPE) → nak_auth go s = inl s.
Proof.
  intros Hs. unfold nak_auth. destruct (_ && _ && _ && _ && _) eqn:E; [|done]. exfalso.
  rewrite !andb_true_iff, !Z.leb_le, Z.eqb_eq in E. destruct E as [[[[_ El] E0] _] _].
  destruct Hs as [Hs|Hs]; [rewrite Hs in El; by cbn in El|done].
Qed.

(** The test of line 1057 never fails for a hint of another algorithm. *)
Lemma differs_from_hint v mdtype : v ≠ 1 → CHAP_DIGEST mdtype ≠ 0 → differs_from_digest v mdtype = true.
Proof.
  unfold differs_from_digest, CHAP_DIGEST. intros Hv Hd. destruct (Z.eqb_spec v (Z.land mdtype MDTYPE_MICROSOFT_V2)) as [->|]; [|done]. cbn [negb].
  destruct (nz (Z.land mdtype MDTYPE_MICROSOFT)); [done|]. destruct (nz (Z.land mdtype MDTYPE_MD5)); [done|].
  destruct (nz (Z.land mdtype MDTYPE_MICROSOFT_V2)) eqn:E; [|done]. exfalso. apply Hv. unfold MDTYPE_MICROSOFT_V2 in *.
  pose proof (Z.land_ones mdtype 1 ltac:(lia)) as Ho. change (Z.ones 1) with 1 in Ho. rewrite Ho in *.
  pose proof (Z.mod_pos_bound mdtype (2 ^ 1) ltac:(lia)). destruct (Z.eq_dec (mdtype mod 2 ^ 1) 0) as [E0|]; [by rewrite E0 in E|lia].
Qed.

Lemma nak_auth_take go s h rest :
  nk_p s = h ++ rest → (neg_chap go || neg_upap go || neg_eap go = true) → auth_hint go h →
  (neg_chap go = true → CHAP_DIGEST (chap_mdtype go) ≠ 0) →
  ∃ s', nak_auth go s = inl s' ∧ nk_p s' = rest.
Proof.
  intros Hs Hany Hh Hd. unfold nak_auth. rewrite Hs, Hany.
  assert (Hgood : ∃ n, Z.of_nat (length h) = n ∧ (n = 4 ∨ n = 5) ∧ (h ++ rest) !!! 1%nat = n ∧ (h ++ rest) !!! 0%nat = CI_AUTHTYPE
    ∧ drop (Z.to_nat n) (h ++ rest) = rest).
  { destruct Hh as [[-> _]|[[-> _]|(v & -> & _)]]; [exists 4|exists 4|exists 5];
    (split; [done|]; split; [tauto|]; split; [done|]; split; [done|]; apply drop_0). }
  destruct Hgood as (n & Hl & Hn & E1 & E0 & Ed). rewrite E1, E0, Ed, length_app. unfold CILEN_SHORT.
  rewrite !(proj2 (Z.leb_le _ _)) by lia. cbn [andb Z.eqb CI_AUTHTYPE Pos.eqb]. cbv zeta.
  destruct Hh as [[-> He]|[[-> Hec]|(v & -> & Hv)]].
  - cbn in Hl. subst n. change (get16 (nak_eap ++ rest) 2) with PPP_EAP. cbn [andb Z.eqb PPP_PAP PPP_CHAP PPP_EAP Pos.eqb]. by eexists.
  - cbn in Hl. subst n. change (get16 (nak_pap ++ rest) 2) with PPP_PAP. cbn [andb Z.eqb PPP_PAP PPP_CHAP PPP_EAP Pos.eqb].
    destruct (neg_eap go); [by eexists|]. cbn in Hec. rewrite Hec. by eexists.
  - cbn in Hl. subst n. set (p := (_ ++ _) ++ rest). change (get16 p 2) with PPP_CHAP. change (p !!! 4%nat) with v.
    cbn [andb Z.eqb PPP_PAP PPP_CHAP PPP_EAP CILEN_CHAP CILEN_CHAR Pos.eqb]. 
    destruct (neg_eap go); [by eexists|]. destruct (neg_chap go) eqn:Ec; [|by eexists].
    rewrite differs_from_hint by (destruct Hv; done || by apply Hd). destruct (CHAP_CANDIGEST _ _); by eexists.
Qed.

Lemma nak_magic_skip mrand48 go s : (nk_p s = [] ∨ nk_p s !!! 0%nat ≠ CI_MAGICNUMBER) → nak_magic mrand48 go s = s.
Proof.
  intros Hs. unfold nak_magic. destruct (_ && _ && _ && _) eqn:E; [|done]. exfalso.
  rewrite !andb_true_iff, Z.eqb_eq, Z.leb_le in E. destruct E as [[[_ El] _] E0]. rewrite Z.eqb_eq in E0.
  destruct Hs as [Hs|Hs]; [rewrite Hs in El; by cbn in El|done].
Qed.

Lemma nak_magic_take mrand48 go s v rest :
  neg_magicnumber go = true → nk_p s = ci_long CI_MAGICNUMBER v ++ rest → nk_p (nak_magic mrand48 go s) = rest.
Proof.
  intros Hm Hs. unfold nak_magic. rewrite Hs, Hm. rewrite (proj2 (Z.leb_le _ _)) by (rewrite length_app; rewrite Nat2Z.inj_add; change (Z.of_nat (length (ci_long CI_MAGICNUMBER v))) with 6; unfold CILEN_LONG; lia).
  apply drop_0.
Qed.

Lemma nak_endpoint_nil go s : nk_p s = [] → nak_endpoint go s = s.
Proof. intros Hs. unfold nak_endpoint. rewrite Hs. by destruct (neg_endpoint go). Qed.

(** A Nak that only has hints for options of the request, in their order. *)
Lemma nak_own_reads mrand48 wo go s h0 h1 ha h7 :
  nk_p s = h0 ++ h1 ++ ha ++ h7 →
  (h0 = [] ∨ asks_mru go = true ∧ ∃ v, h0 = ci_short CI_MRU v) →
  (h1 = [] ∨ asks_asyncmap go = true ∧ ∃ v, h1 = ci_long CI_ASYNCMAP v) →
  (ha = [] ∨ (neg_chap go || neg_upap go || neg_eap go = true) ∧ auth_hint go ha) →
  (h7 = [] ∨ neg_magicnumber go = true ∧ ∃ v, h7 = ci_long CI_MAGICNUMBER v) →
  (neg_chap go = true → CHAP_DIGEST (chap_mdtype go) ≠ 0) →
  ∃ s', nak_own mrand48 wo go s = inl s' ∧ nk_p s' = [].
Proof.
  intros Hs H0 H1 Ha H7 Hd.
  assert (F7 : h7 = [] ∨ h7 !!! 0%nat = CI_MAGICNUMBER) by (destruct H7 as [->|(_ & v & ->)]; [by left|by right]).
  assert (Fa : ha ++ h7 = [] ∨ (ha ++ h7) !!! 0%nat ∈ [CI_AUTHTYPE; CI_MAGICNUMBER]).
  { destruct Ha as [->|(_ & [[-> _]|[[-> _]|(v & -> & _)]])]; [|right; by left..]. destruct F7 as [->|E]; [by left|].
    right. cbn. rewrite E. right. by left. }
  assert (F1 : h1 ++ ha ++ h7 = [] ∨ (h1 ++ ha ++ h7) !!! 0%nat ∈ [CI_ASYNCMAP; CI_AUTHTYPE; CI_MAGICNUMBER]).
  { destruct H1 as [->|(_ & v & ->)]; [|right; by left]. destruct Fa as [E|E]; [by left|right]. cbn. by right. }
  unfold nak_own. set (s1 := nakci (asks_mru go) _ _ _ s).
  assert (E1 : nk_p s1 = h1 ++ ha ++ h7).
  { subst s1. destruct H0 as [->|(Hc & v & ->)].
    - rewrite nakci_skip; [done|done|]. rewrite Hs. cbn [app]. destruct F1 as [E|E]; [by left|right]. intros E'. rewrite E' in E. apply list_elem_of_In in E. cbn in E. destruct_or! E; done.
    - rewrite Hc. by eapply nakci_take. }
  clearbody s1. set (s2 := nakci (asks_asyncmap go) _ _ _ s1).
  assert (E2 : nk_p s2 = ha ++ h7).
  { subst s2. destruct H1 as [->|(Hc & v & ->)].
    - rewrite nakci_skip; [done|done|]. rewrite E1. cbn [app]. destruct Fa as [E|E]; [by left|right]. intros E'. rewrite E' in E. apply list_elem_of_In in E. cbn in E. destruct_or! E; done.
    - rewrite Hc. by eapply nakci_take. }
  clearbody s2. assert (E3 : ∃ s3, nak_auth go s2 = inl s3 ∧ nk_p s3 = h7).
  { destruct Ha as [->|(Hc & Hh)].
    - exists s2. split; [|done]. apply nak_auth_skip. rewrite E2. destruct F7 as [E|E]; [by left|right]. cbn. by rewrite E.
    - by eapply nak_auth_take. }
  destruct E3 as (s3 & -> & E3). assert (Hh7 : ∀ opt, opt ≠ CI_MAGICNUMBER → nk_p s3 = [] ∨ nk_p s3 !!! 0%nat ≠ opt).
  { intros opt Ho. rewrite E3. destruct F7 as [E|E]; [by left|right]. rewrite E. done. }
  rewrite (nakci_skip (neg_lqr go)) by (done || by apply Hh7). rewrite (nakci_skip (neg_cbcp go)) by (done || by apply Hh7).
  assert (E4 : nk_p (nak_magic mrand48 go s3) = []).
  { destruct H7 as [->|(Hc & v & ->)]; [rewrite nak_magic_skip; [done|by left]|]. eapply nak_magic_take; [done|]. by rewrite app_nil_r. }
  rewrite (nakci_skip (neg_pcompression go)) by (done || by left). rewrite (nakci_skip (neg_accompression go)) by (done || by left).
  rewrite (nakci_skip (neg_mrru go)) by (done || by left). rewrite (nakci_skip (neg_ssnhf go)) by (done || by left).
  rewrite nak_endpoint_nil by done. by eexists.
Qed.

(** C19: Whatever the peer answers to an own request is understood: an Ack, a Reject or a
    Nak is good for the routine that reads it. *)
Theorem lcp_answer_understood (mrand48 : nat → Z) (multilink reject_if_disagree opened : bool) (pgo pao wo go : lcp_options)
    (drawn drawn' own_drawn : nat) (rc : Z) (out : bytes) (ho : lcp_options) :
  wire_range go → (neg_chap go = true → CHAP_DIGEST (chap_mdtype go) ≠ 0) →
  lcp_reqci mrand48 multilink pgo pao drawn (lcp_addci go) reject_if_disagree = Ok (rc, out, ho, drawn') →
  (rc = CONFACK ∧ lcp_ackci go out = true)
  ∨ (rc = CONFREJ ∧ ∃ go', lcp_rejci false go out = Some go' ∧ gives_up go go' ∧ weight go' < weight go)
  ∨ (rc = CONFNAK ∧ ∃ r, lcp_nakci mrand48 opened wo go own_drawn out = Ok r ∧ nr_good r = true).
Proof.
  intros Hgo Hd E. pose proof (lcp_addci_length go Hgo) as Hlen.
  destruct (reqci_run mrand48 multilink reject_if_disagree pgo pao drawn (lcp_addci go) ltac:(lia)) as (s' & El & (_ & Hrc & _) & E2).
  pose proof E as E3. rewrite E in E2. injection E2 as -> -> _ _. apply list_elem_of_In in Hrc as [Hrc|[Hrc|[Hrc|[]]]]; rewrite <- Hrc in *.
  - left. split; [done|]. apply lcp_ackci_iff; [done|by apply lcp_addci_bytes|done].
  - right. right. split; [done|]. rewrite lcp_addci_fields in El.
    destruct (answer_hints mrand48 multilink reject_if_disagree pgo pao (asked_fields go) (mk_req no_options [] [] CONFACK drawn) s'
      (fields_ok go _ _ Hgo) El ltac:(by rewrite <- Hrc)) as (hs & Enak & Hhs).
    destruct (hints_of_request _ _ _ _ go hs Hgo Hhs) as (h0 & h1 & ha & h7 & Ehs & H0 & H1 & Ha & H7).
    unfold lcp_nakci. cbn [Z.eqb CONFNAK CONFACK Pos.eqb].
    destruct (nak_own_reads mrand48 wo go (mk_nak (rq_nak s') no_options go (chap_mdtype go) false own_drawn) h0 h1 ha h7)
      as (s2 & -> & Ep); [by rewrite Enak|done..|]. rewrite Ep. change (nak_rest (length (@nil Z)) go (nk_no s2) (nk_try s2) []) with (Ok (Some (nk_try s2))). rewrite bind_ret. destruct opened; by eexists.
  - right. left. split; [done|]. by apply (lcp_reject_step mrand48 multilink reject_if_disagree pgo pao go drawn drawn' _ ho).
Qed.

(** ** The agreed options in use (progs.gpl/pppd.alpha/lcp.c)

    [lcp_resetci], which starts a negotiation, and [lcp_up] and [lcp_down], which set the
    two directions of the link.  The setters of sys-linux.c are listed as calls. *)

(** Calls of other parts; [Mtu] is [netif_set_mtu]. *)
Inductive link_call :=
| Mtu (mtu : Z)
| SendConfig (mtu asyncmap : Z) (pcomp accomp : bool)
| RecvConfig (mru asyncmap : Z) (pcomp accomp : bool)
| AuthReset | LinkEstablished | LinkDown | EchoLowerUp | EchoLowerDown.

(** The options of one end, and the largest packet that the peer takes. *)
Record ends := mk_ends { e_wo : lcp_options; e_go : lcp_options; e_ao : lcp_options; e_ho : lcp_options; e_peer_mru : Z }.

Definition without_multilink (o : lcp_options) : lcp_options := clear_endpoint (clear_ssnhf (clear_mrru o)).

Section up.
Context (mrand48 : nat → Z).

(** The switches of the command line. *)
Context (multilink noendpoint lax_recv ignore_mtu : bool).

Definition lcp_resetci (drawn : nat) (e : ends) : ends * nat * list link_call :=
  let '(m, drawn) := magic mrand48 drawn in
  let wo := set_numloops (set_neg_magicnumber (e_wo e) (neg_magicnumber (e_wo e)) m) 0 in
  let go := if multilink then wo else without_multilink wo in
  let ao := if noendpoint then clear_endpoint (e_ao e) else e_ao e in
  (mk_ends wo go ao (e_ho e) PPP_MRU, drawn, [AuthReset]).

Definition lcp_up (e : ends) : ends * list link_call :=
  let wo := e_wo e in
  let ao := e_ao e in
  let go := if neg_magicnumber (e_go e) then e_go e else set_neg_magicnumber (e_go e) false 0 in
  let ho := if neg_magicnumber (e_ho e) then e_ho e else set_neg_magicnumber (e_ho e) false 0 in
  let mtu := if neg_mru ho then mru ho else PPP_MRU in
  let rmru := if neg_mru go then Z.max (mru wo) (mru go) else PPP_MRU in
  let '(mtu, rmru, go) := if ignore_mtu then (mru wo, mru wo, set_neg_mru go (neg_mru go) (mru wo)) else (mtu, rmru, go) in
  let out := Z.min (Z.min mtu rmru) (mru ao) in
  (mk_ends wo go ao ho (if neg_mru ho then mru ho else e_peer_mru e),
   [Mtu out;
    SendConfig out (if neg_asyncmap ho then asyncmap ho else 0xffffffff) (neg_pcompression ho) (neg_accompression ho);
    RecvConfig rmru (if lax_recv then 0 else if neg_asyncmap go then asyncmap go else 0xffffffff) (neg_pcompression go) (neg_accompression go);
    EchoLowerUp; LinkEstablished]).

Definition lcp_down (e : ends) : ends * list link_call :=
  let go := e_go e in
  (mk_ends (e_wo e) go (e_ao e) (e_ho e) PPP_MRU,
   [EchoLowerDown; LinkDown; SendConfig PPP_MRU 0xffffffff false false;
    RecvConfig PPP_MRU (if neg_asyncmap go then asyncmap go else 0xffffffff) (neg_pcompression go) (neg_accompression go)]).
End up.

(** ** Both ends of a link *)

(** What one end sends the other takes: packets of its size, with its characters escaped and
    compressed headers only where they are expected. *)
Definition understands (sends receives : list link_call) : Prop :=
  ∃ mtu map pc ac mru map', SendConfig mtu map pc ac ∈ sends ∧ RecvConfig mru map' pc ac ∈ receives
    ∧ mtu ≤ mru ∧ (∀ i, 0 ≤ i → Z.testbit map' i = true → Z.testbit map i = true).

(** The end that has acknowledged a request sends, once the link is up, what the end
    that made the request is set to receive, as long as neither ignores the MTU. *)
Theorem lcp_up_agrees (mrand48 : nat → Z) (multilink rej lax lax' : bool) (mine yours : ends) (drawn drawn' : nat) (out : bytes) (ho : lcp_options) :
  wire_range (e_go mine) →
  lcp_reqci mrand48 multilink (e_go yours) (e_ao yours) drawn (lcp_addci (e_go mine)) rej = Ok (CONFACK, out, ho, drawn') →
  let yours' := mk_ends (e_wo yours) (e_go yours) (e_ao yours) ho (e_peer_mru yours) in
  understands (snd (lcp_up lax' false yours')) (snd (lcp_up lax false mine))
  ∧ (neg_mru ho = true → e_peer_mru (fst (lcp_up lax' false yours')) ≤ Z.max (mru (e_wo mine)) (mru (e_go mine))).
Proof.
  intros Hgo E yours'. destruct (reqci_acks mrand48 multilink rej (e_go yours) (e_ao yours) (e_go mine) drawn Hgo) as [Hiff Hyes].
  assert (Hpm : permits multilink (e_go yours) (e_ao yours) (e_go mine)) by (apply Hiff; eauto).
  rewrite (Hyes Hpm) in E. injection E as _ <- _. destruct mine as [wo go ao hom pm]. destruct yours as [wy gy ay hy py]. cbn [e_go e_wo e_ao e_ho e_peer_mru] in *.
  subst yours'. unfold lcp_up. cbn [e_go e_wo e_ao e_ho e_peer_mru granted neg_magicnumber neg_mru mru].
  (* the end that receives, without its magic number *)
  set (go' := if neg_magicnumber go then go else _).
  assert (Hm : neg_mru go' = neg_mru go ∧ mru go' = mru go ∧ neg_asyncmap go' = neg_asyncmap go ∧ asyncmap go' = asyncmap go
    ∧ neg_pcompression go' = neg_pcompression go ∧ neg_accompression go' = neg_accompression go) by (subst go'; by destruct (neg_magicnumber go)).
  clearbody go'. destruct Hm as (-> & -> & -> & -> & -> & ->).
  set (ho' := if neg_magicnumber go then granted go else _).
  assert (Hh : neg_mru ho' = asks_mru go ∧ mru ho' = (if asks_mru go then mru go else 0) ∧ neg_asyncmap ho' = asks_asyncmap go
    ∧ asyncmap ho' = (if asks_asyncmap go then asyncmap go else 0) ∧ neg_pcompression ho' = neg_pcompression go ∧ neg_accompression ho' = neg_accompression go)
    by (subst ho'; by destruct (neg_magicnumber go)).
  clearbody ho'. destruct Hh as (-> & -> & -> & -> & -> & ->). cbn [snd fst e_peer_mru].
  assert (Hmru : (if asks_mru go then (if asks_mru go then mru go else 0) else PPP_MRU) ≤ (if neg_mru go then Z.max (mru wo) (mru go) else PPP_MRU)).
  { unfold asks_mru. destruct (neg_mru go); cbn [andb]; [|lia]. destruct (Z.eqb_spec (mru go) DEFMRU) as [->|]; cbn [negb]; unfold DEFMRU, PPP_MRU; lia. }
  split; [|unfold asks_mru in *; destruct (neg_mru go); cbn [andb] in *; [|done]; by destruct (negb _)].
  eexists _, _, _, _, _, _. split; [by right; left|]. split; [by right; right; left|]. split; [lia|].
  intros i Hi. unfold asks_asyncmap. destruct lax; [by rewrite Z.testbit_0_l|]. destruct (neg_asyncmap go); cbn [andb]; [|done].
  destruct (Z.eqb_spec (asyncmap go) 0xffffffff) as [->|]; done.
Qed.
