(* ===== verification/LcpDemo.v ===== *)
(** * The options of LCP: evaluations

    A link between two daemons with the default options, what the routines do in corner
    cases, and the theorems at concrete inputs. *)

From stdpp Require Import base numbers list.
From S2P Require Import Prelude Bytes PppFsm LcpOptions LcpOptionsProps LcpNegotiate LcpTyped LcpNak.

(** The random numbers of the examples. *)
Definition mrand48 (n : nat) : Z := 0x01020304 + Z.of_nat n.

(** The default wishes, with a magic number that has been drawn; and a peer that must be
    authenticated with the hash algorithms [md]. *)
Definition wishes : lcp_options := set_neg_magicnumber lcp_init_wantoptions true 0xCAFE.
Definition asks_for_chap (md : Z) : lcp_options := set_auth wishes false true false md.

Definition with_magic (m : Z) : lcp_options := set_neg_magicnumber lcp_init_wantoptions true m.

(** Only CHAP is permitted. *)
Definition only_chap : lcp_options := set_auth lcp_init_allowoptions false true false 7.

Example wishes_request :
  lcp_addci wishes = [2; 6; 0; 0; 0; 0; 5; 6; 0; 0; 0xCA; 0xFE; 7; 2; 8; 2].
Proof. reflexivity. Qed.

Example wishes_length : Z.of_nat (length (lcp_addci wishes)) = lcp_cilen wishes.
Proof. reflexivity. Qed.

(** Two daemons with the defaults agree at once. *)
Example defaults_agree :
  lcp_reqci mrand48 false (with_magic 0xBEEF) lcp_init_allowoptions 0 (lcp_addci wishes) false
  = Ok (CONFACK, lcp_addci wishes, granted wishes, 0%nat).
Proof. reflexivity. Qed.

(** The same magic number on both sides: a Nak with another one, and the next request
    has a number of the own choice. *)
Example looped_back :
  lcp_reqci mrand48 false wishes lcp_init_allowoptions 0 (lcp_addci wishes) false
    = Ok (CONFNAK, ci_long CI_MAGICNUMBER 0x01020304, set_neg_magicnumber (granted wishes) false 0, 1%nat).
Proof. reflexivity. Qed.

(** After ten of them the link is closed. *)
Example loop_closes :
  lcp_nakci mrand48 false wishes (set_numloops wishes 9) 5 (ci_long CI_MAGICNUMBER 0x01020304)
  = Ok (mk_nak_result true (set_numloops (with_magic 0x01020309) 10) 6 true).
Proof. reflexivity. Qed.

(** ** Corner cases *)

(** A CHAP option in a Reject gives up every way to authenticate. *)
Example reject_chap :
  lcp_rejci false (set_auth wishes true true false 4) (ci_chap CI_AUTHTYPE 4) = Some (set_auth wishes false false false 4).
Proof. reflexivity. Qed.

(** The hash algorithm that a Nak suggests is stored in [go], which the last assignment
    of the routine replaces by the copy taken before: the next request asks for MD5 again. *)
Example suggestion_lost :
  lcp_nakci mrand48 false wishes (asks_for_chap 5) 0 (ci_chap CI_AUTHTYPE MDTYPE_MD5)
  = Ok (mk_nak_result true (asks_for_chap 5) 0 false).
Proof. reflexivity. Qed.

(** When the link is up, a Nak should change nothing; the suggestion is kept then. *)
Example suggestion_kept_when_up :
  lcp_nakci mrand48 true wishes (asks_for_chap 5) 0 (ci_chap CI_AUTHTYPE MDTYPE_MD5)
  = Ok (mk_nak_result true (asks_for_chap 4) 0 false).
Proof. reflexivity. Qed.

(** Also by a Nak that is found to be bad later. *)
Example bad_nak_changes :
  lcp_nakci mrand48 false wishes (asks_for_chap 5) 0 (ci_chap CI_AUTHTYPE MDTYPE_MD5 ++ [1; 9; 0; 0])
  = Ok (mk_nak_result false (asks_for_chap 4) 0 false).
Proof. reflexivity. Qed.

(** A Nak with the algorithm that was asked for should be bad; the test without
    parentheses accepts it. *)
Example same_algorithm_accepted :
  lcp_nakci mrand48 false wishes (asks_for_chap 4) 0 (ci_chap CI_AUTHTYPE MDTYPE_MD5)
  = Ok (mk_nak_result true (asks_for_chap 4) 0 false)
  ∧ (CHAP_DIGEST_MD5 =? CHAP_DIGEST 4) = true ∧ differs_from_digest CHAP_DIGEST_MD5 4 = true.
Proof. split_and!; reflexivity. Qed.

(** An option without data at the end of a Nak is not looked at, even if it was asked for
    out of order. *)
Example last_void_option :
  lcp_nakci mrand48 false wishes wishes 0 [8; 2; 7; 2] = Ok (mk_nak_result true (set_neg_accompression wishes false) 0 false)
  ∧ lcp_nakci mrand48 false wishes wishes 0 [8; 2; 7; 2; 7; 2] = Ok (mk_nak_result false wishes 0 false).
Proof. split; reflexivity. Qed.

(** A request for EAP is answered with the set of algorithms in place of an algorithm. *)
Example eap_hint :
  lcp_reqci mrand48 false wishes only_chap 0 (ci_short CI_AUTHTYPE PPP_EAP) false
  = Ok (CONFNAK, [3; 5; 0xc2; 0x23; 7], no_options, 0%nat).
Proof. reflexivity. Qed.

(** [n] options that ask for PAP. *)
Definition many_pap (n : nat) : bytes := concat (replicate n (ci_short CI_AUTHTYPE PPP_PAP)).

(** Where only CHAP is permitted, 300 of them are answered with 1500 bytes, and one more
    writes behind [nak_buffer]. *)
Example nak_buffer_full :
  (match lcp_reqci mrand48 false wishes only_chap 0 (many_pap 300) false with
   | Ok (rc, out, _, _) => (rc =? CONFNAK) && (length out =? 1500)%nat | _ => false end) = true.
Proof. vm_compute. reflexivity. Qed.

Theorem nak_buffer_overflows :
  Z.of_nat (length (many_pap 301)) = 1204
  ∧ lcp_reqci mrand48 false wishes only_chap 0 (many_pap 301) false = Fault.
Proof. split; vm_compute; reflexivity. Qed.

(** ** The theorems at concrete inputs *)

Lemma wishes_range : wire_range wishes.
Proof. by repeat split; try lia; try apply Forall_nil. Qed.

Lemma allow_range : wire_range lcp_init_allowoptions.
Proof. by repeat split; try lia; try apply Forall_nil. Qed.

Lemma wishes_in_range : in_range wishes.
Proof. by split; [exact wishes_range|..]. Qed.

Lemma allow_in_range : in_range lcp_init_allowoptions.
Proof. by split; [exact allow_range|..]. Qed.

Lemma asks_for_chap_range md : wire_range (asks_for_chap md).
Proof. by repeat split; try lia; try apply Forall_nil. Qed.

Lemma wishes_permitted : permits false (with_magic 0xBEEF) lcp_init_allowoptions wishes.
Proof. by constructor. Qed.

Lemma lcp_reqci_bounds_witness :
  ∃ rc out ho drawn', lcp_reqci mrand48 false wishes only_chap 0 (many_pap 3) false = Ok (rc, out, ho, drawn')
    ∧ ((rc = CONFACK ∧ out = many_pap 3) ∨ (rc = CONFNAK ∧ Z.of_nat (length out) ≤ PPP_MRU)
       ∨ (rc = CONFREJ ∧ out ≠ [] ∧ out `sublist_of` many_pap 3)).
Proof. apply (lcp_reqci_bounds mrand48 false false wishes only_chap 0 (many_pap 3)). vm_compute. discriminate. Defined.

(** A foreign peer: a request with packets of 1400 bytes and CHAP with MD5; the same with an
    option that is not known, cut short, or with two protocols. *)
Definition foreign : list (Z * bytes) := [(CI_MRU, PUTSHORT 1400); (CI_AUTHTYPE, PUTSHORT PPP_CHAP ++ [CHAP_DIGEST_MD5])].
Definition verdict_on_request (inp : bytes) : option Z :=
  match lcp_reqci mrand48 false wishes lcp_init_allowoptions 0 inp false with Ok (rc, _, _, _) => Some rc | _ => None end.

Example foreign_verdicts :
  verdict_on_request (written foreign) = Some CONFACK
  ∧ verdict_on_request (written ((99, [1]) :: foreign)) = Some CONFREJ
  ∧ verdict_on_request (take 8 (written foreign)) = Some CONFREJ
  ∧ verdict_on_request (written (foreign ++ [(CI_CALLBACK, [CBCP_OPT])])) = Some CONFREJ
  ∧ verdict_on_request (written (foreign ++ [(CI_AUTHTYPE, PUTSHORT PPP_PAP)])) = Some CONFREJ
  ∧ verdict_on_request (written [(CI_MRU, PUTSHORT 100)]) = Some CONFNAK.
Proof. split_and!; reflexivity. Qed.

Lemma lcp_reqci_acks_permitted_witness :
  lcp_reqci mrand48 false wishes lcp_init_allowoptions 0 (written foreign) false
    = Ok (CONFACK, written foreign, set_auth (set_neg_mru no_options true 1400) false true false MDTYPE_MD5, 0%nat)
  ∧ lcp_reqci mrand48 false (with_magic 0xBEEF) lcp_init_allowoptions 0 (lcp_addci wishes) false
    = Ok (CONFACK, lcp_addci wishes, granted wishes, 0%nat)
  ∧ lcp_ackci wishes (lcp_addci wishes) = true.
Proof.
  split.
  - apply (proj1 (proj2 (lcp_reqci_acks_permitted mrand48 false false wishes lcp_init_allowoptions 0 (written foreign))) foreign).
    + reflexivity.
    + by repeat constructor.
    + intros d d' Hd Hd'. unfold foreign in *. rewrite !elem_of_cons, elem_of_nil in Hd, Hd'.
      destruct Hd as [Hd|[Hd|[]]], Hd' as [Hd'|[Hd'|[]]]; try discriminate. congruence.
  - apply (proj2 (proj2 (lcp_reqci_acks_permitted mrand48 false false (with_magic 0xBEEF) lcp_init_allowoptions 0 (lcp_addci wishes))) wishes).
    + exact wishes_range.
    + reflexivity.
    + exact wishes_permitted.
Defined.

(** The peer wants to authenticate with PAP only: the Nak is understood. *)
Definition only_pap : lcp_options := set_auth lcp_init_allowoptions true false false 0.
Lemma lcp_answer_understood_witness :
  lcp_reqci mrand48 false wishes only_pap 0 (lcp_addci (asks_for_chap 4)) false = Ok (CONFNAK, nak_pap ++ ci_long CI_MAGICNUMBER 0x01020304, set_neg_magicnumber (granted wishes) false 0, 1%nat)
  ∧ ∃ r, lcp_nakci mrand48 false wishes (asks_for_chap 4) 0 (nak_pap ++ ci_long CI_MAGICNUMBER 0x01020304) = Ok r ∧ nr_good r = true.
Proof.
  split; [reflexivity|].
  destruct (lcp_answer_understood mrand48 false false false wishes only_pap wishes (asks_for_chap 4) 0 1 0 CONFNAK
    (nak_pap ++ ci_long CI_MAGICNUMBER 0x01020304) (set_neg_magicnumber (granted wishes) false 0)) as [[E _]|[[E _]|[_ H]]];
    [exact (asks_for_chap_range 4)|discriminate|reflexivity|discriminate|discriminate|exact H].
Defined.

(** It permits neither a map nor compression. *)
Definition strict : lcp_options := set_neg_asyncmap (set_neg_pcompression lcp_init_allowoptions false) false 0.
Lemma lcp_negotiation_ends_witness :
  (∃ go', negotiate mrand48 false (with_magic 0xBEEF) strict 14 0 wishes = Some (go', granted go')
     ∧ gives_up wishes go' ∧ permits false (with_magic 0xBEEF) strict go')
  ∧ negotiate mrand48 false (with_magic 0xBEEF) strict 2 0 wishes
    = Some (clear_pcompression (clear_asyncmap wishes), granted (clear_pcompression (clear_asyncmap wishes))).
Proof.
  split; [|reflexivity].
  apply (lcp_negotiation_ends mrand48 false (with_magic 0xBEEF) strict wishes 0); [exact wishes_range|].
  intros _ _. discriminate.
Defined.

Lemma lcp_options_typed_witness :
  in_range (set_numloops (set_neg_magicnumber wishes true 0x01020304) 1)
  ∧ lcp_nakci mrand48 false wishes wishes 0 (ci_long CI_MAGICNUMBER 7)
    = Ok (mk_nak_result true (set_numloops (set_neg_magicnumber wishes true 0x01020304) 1) 1 false).
Proof.
  split; [|reflexivity].
  destruct (lcp_options_typed mrand48 wishes wishes lcp_init_allowoptions (ci_long CI_MAGICNUMBER 7))
    as (_ & _ & H & _); [exact wishes_in_range|exact allow_in_range|reflexivity|apply ci_bytes_cons; [done|done|apply is_bytes_be_bytes]|].
  destruct (H false 0%nat) as (r & E & Hr).
  assert (Er : r = mk_nak_result true (set_numloops (set_neg_magicnumber wishes true 0x01020304) 1) 1 false) by (by injection E as <-).
  by rewrite Er in Hr.
Defined.

(** ** The link in use *)

(** An end that asks for packets of 1000 bytes, and one with the default options that has
    acknowledged that. *)
Definition small_packets : lcp_options := set_neg_mru wishes true 1000.
Definition small_end : ends := mk_ends small_packets small_packets lcp_init_allowoptions no_options PPP_MRU.
Definition default_end : ends := mk_ends lcp_init_wantoptions (with_magic 0xBEEF) lcp_init_allowoptions (granted small_packets) PPP_MRU.

Example default_end_up :
  snd (lcp_up false false default_end)
  = [Mtu 1000; SendConfig 1000 0 true true; RecvConfig 1500 0 true true; EchoLowerUp; LinkEstablished].
Proof. reflexivity. Qed.

(** With the switch that ignores the MTU it sends packets of 1500 bytes, which the peer
    has not agreed to. *)
Example ignored_mtu :
  snd (lcp_up false true default_end)
  = [Mtu 1500; SendConfig 1500 0 true true; RecvConfig 1500 0 true true; EchoLowerUp; LinkEstablished]
  ∧ RecvConfig 1000 0 true true ∈ snd (lcp_up false false small_end).
Proof. split; [reflexivity|]. right. right. left. Qed.

Example reset_draws_magic :
  e_go (fst (fst (lcp_resetci mrand48 false false 3 small_end))) = set_neg_magicnumber small_packets true 0x01020307.
Proof. reflexivity. Qed.

Lemma small_range : wire_range small_packets.
Proof. by repeat split; try lia; try apply Forall_nil. Qed.

Lemma lcp_up_agrees_witness :
  understands (snd (lcp_up false false default_end)) (snd (lcp_up false false small_end))
  ∧ e_peer_mru (fst (lcp_up false false default_end)) ≤ 1000.
Proof.
  destruct (lcp_up_agrees mrand48 false false false false small_end default_end 0 0 (lcp_addci small_packets) (granted small_packets))
    as [H1 H2]; [exact small_range|reflexivity|]. split; [exact H1|exact (H2 eq_refl)].
Defined.
