(* ===== verification/Eloop.v ===== *)
(** * The event loop of the PPP daemon (progs.gpl/pppd.alpha/eloop.c)

    Readers and signals are growing arrays, timeouts a list in the order of their times.
    The entries are only reached through these, so arrays and list are lists here.
    Handlers and their arguments are pointers; what a handler does is a parameter. *)

From stdpp Require Import base numbers list sorting.
From S2P Require Import Prelude Timeval.

Definition NULL : Z := 0.
Definition ELOOP_ALL_CTX : Z := 0xffffffff.

Record eloop_sock := mk_sock { s_sock : Z; s_eloop_data : Z; s_user_data : Z; s_handler : Z }.
Record eloop_timeout := mk_timeout { t_time : timeval; t_eloop_data : Z; t_user_data : Z; t_handler : Z }.
Record eloop_signal := mk_signal { g_sig : Z; g_user_data : Z; g_handler : Z }.

Record eloop_data := mk_eloop {
  user_data : Z; max_sock : Z; readers : list eloop_sock; timeouts : list eloop_timeout;
  signals : list eloop_signal; terminate : bool }.

Definition with_timeouts (e : eloop_data) (l : list eloop_timeout) : eloop_data :=
  mk_eloop (user_data e) (max_sock e) (readers e) l (signals e) (terminate e).
Definition with_terminate (e : eloop_data) (b : bool) : eloop_data :=
  mk_eloop (user_data e) (max_sock e) (readers e) (timeouts e) (signals e) b.

Definition eloop_init (data : Z) : eloop_data := mk_eloop data 0 [] [] [] false.

(** [alloc] tells whether [malloc] or [realloc] succeeds. *)
Definition eloop_register_read_sock (e : eloop_data) (alloc : bool) (sock handler data user : Z) : Z * eloop_data :=
  if negb alloc then (-1, e)
  else
    (0, mk_eloop (user_data e) (if max_sock e <? sock then sock else max_sock e)
          (readers e ++ [mk_sock sock data user handler]) (timeouts e) (signals e) (terminate e)).

(** The walk to the first entry that is later. *)
Fixpoint insert_timeout (t : eloop_timeout) (l : list eloop_timeout) : list eloop_timeout :=
  match l with
  | [] => [t]
  | x :: l' => if timer_lt (t_time t) (t_time x) then t :: l else x :: insert_timeout t l'
  end.

(** The time now with [secs] and [usecs] added; both members are signed. *)
Definition timeout_at (now : timeval) (secs usecs : Z) : res timeval :=
  carry_usec 2148 (mk_timeval (s32 (tv_sec now + secs)) (s32 (tv_usec now + usecs))).

Definition eloop_register_timeout (e : eloop_data) (alloc : bool) (now : timeval) (secs usecs handler data user : Z)
    : res (Z * eloop_data) :=
  if negb alloc then mret (-1, e)
  else
    t ← timeout_at now secs usecs;
    mret (0, with_timeouts e (insert_timeout (mk_timeout t data user handler) (timeouts e))).

Definition cancelled (handler data user : Z) (t : eloop_timeout) : bool :=
  (t_handler t =? handler) && ((t_eloop_data t =? data) || (data =? ELOOP_ALL_CTX))
  && ((t_user_data t =? user) || (user =? ELOOP_ALL_CTX)).

(** The number removed, and the list that is left. *)
Fixpoint cancel_loop (handler data user : Z) (l : list eloop_timeout) : Z * list eloop_timeout :=
  match l with
  | [] => (0, [])
  | t :: l =>
      let '(removed, l) := cancel_loop handler data user l in
      if cancelled handler data user t then (removed + 1, l) else (removed, t :: l)
  end.

Definition eloop_cancel_timeout (e : eloop_data) (handler data user : Z) : Z * eloop_data :=
  let '(removed, l) := cancel_loop handler data user (timeouts e) in (removed, with_timeouts e l).

Definition eloop_register_signal (e : eloop_data) (alloc : bool) (sig handler user : Z) : Z * eloop_data :=
  if negb alloc then (-1, e)
  else
    (0, mk_eloop (user_data e) (max_sock e) (readers e) (timeouts e)
          (signals e ++ [mk_signal sig user handler]) (terminate e)).

Definition eloop_terminate (e : eloop_data) : eloop_data := with_terminate e true.
Definition eloop_continue (e : eloop_data) : eloop_data := with_terminate e false.
Definition eloop_terminated (e : eloop_data) : bool := terminate e.

(** ** The loop *)

(** What [select] may give: the sockets that are ready, [EINTR], or another error. *)
Inductive selected := Ready (socks : list Z) | Interrupted | Failed.

Section run.
Context {W : Type}.

(** The handlers, which may call the loop. *)
Context (on_timeout : eloop_timeout → W * eloop_data → res (W * eloop_data)).
Context (on_reader : eloop_sock → W * eloop_data → res (W * eloop_data)).
Context (on_signal : eloop_signal → Z → W * eloop_data → res (W * eloop_data)).

Fixpoint find_signal (sig : Z) (l : list eloop_signal) : option eloop_signal :=
  match l with
  | [] => None
  | g :: l => if g_sig g =? sig then Some g else find_signal sig l
  end.

Definition eloop_handle_signal (sig : Z) (s : W * eloop_data) : res (W * eloop_data) :=
  match find_signal sig (signals (snd s)) with
  | Some g => on_signal g (user_data (snd s)) s
  | None => mret s
  end.

Definition eloop_goes_on (e : eloop_data) : bool :=
  negb (terminate e) && (bool_decide (timeouts e ≠ []) || bool_decide (readers e ≠ [])).

(** The time that [select] waits; [None] is for ever. *)
Definition wait_time (e : eloop_data) (now : timeval) : option timeval :=
  match timeouts e with
  | [] => None
  | t :: _ => Some (if timer_ge now (t_time t) then mk_timeval 0 0 else timersub (t_time t) now)
  end.

(** The timeout at the head, if its time has come. *)
Definition expire (now : timeval) (s : W * eloop_data) : res (W * eloop_data) :=
  match timeouts (snd s) with
  | [] => mret s
  | t :: l => if timer_ge now (t_time t) then on_timeout t (fst s, with_timeouts (snd s) l) else mret s
  end.

(** The readers from number [i]; their number is looked up in every turn. *)
Fixpoint readers_loop (fuel : nat) (i : nat) (socks : list Z) (s : W * eloop_data) : res (W * eloop_data) :=
  match readers (snd s) !! i with
  | Some r =>
      if terminate (snd s) then mret s
      else
        match fuel with
        | O => NoFuel
        | S fuel =>
            s ← (if bool_decide (s_sock r ∈ socks) then on_reader r s else mret s);
            readers_loop fuel (S i) socks s
        end
  | None => mret s
  end.

(** One turn of [eloop_run], from [select] on; [None] is the return. *)
Definition eloop_turn (fuel : nat) (now : timeval) (sel : selected) (s : W * eloop_data) : res (option (W * eloop_data)) :=
  match sel with
  | Failed => mret None
  | Interrupted | Ready [] => Some <$> expire now s
  | Ready socks => s ← expire now s; Some <$> readers_loop fuel 0 socks s
  end.
End run.

(** ** The event loop of the PPP daemon: the theorems

    Timeouts are kept in the order of their times, first come first served among
    equal ones; each is called once, when its time has come, or cancelled. *)

(** ** The order of the list *)

Definition due_before (a b : eloop_timeout) : Prop := timer_lt (t_time b) (t_time a) = false.

#[export] Instance due_before_trans : Transitive due_before.
Proof. intros x y z. unfold due_before. rewrite !timer_nlt_spec. lia. Qed.

Abbreviation in_order := (StronglySorted due_before).

(** A new timeout comes behind those that are not later. *)
Lemma insert_timeout_split t l :
  in_order l →
  ∃ l1 l2, l = l1 ++ l2 ∧ insert_timeout t l = l1 ++ t :: l2
    ∧ Forall (λ x, due_before x t) l1 ∧ Forall (λ x, timer_lt (t_time t) (t_time x) = true) l2.
Proof.
  induction 1 as [|x l Hs IH Hx]; cbn [insert_timeout]; [by exists [], []|].
  destruct (timer_lt (t_time t) (t_time x)) eqn:E.
  - exists [], (x :: l). split; [done|]. split; [done|]. split; [done|]. constructor; [done|].
    eapply Forall_impl; [exact Hx|]. intros y Hy. unfold due_before in Hy. rewrite timer_lt_spec in E |- *. rewrite timer_nlt_spec in Hy. lia.
  - destruct IH as (l1 & l2 & -> & -> & H1 & H2). exists (x :: l1), l2. split; [done|]. split; [done|]. by split; [constructor|].
Qed.

Lemma insert_timeout_perm t l : insert_timeout t l ≡ₚ t :: l.
Proof.
  induction l as [|x l IH]; cbn [insert_timeout]; [done|]. destruct (timer_lt _ _); [done|]. rewrite IH. apply Permutation_swap.
Qed.

Lemma insert_timeout_in_order t l : in_order l → in_order (insert_timeout t l).
Proof.
  induction 1 as [|x l Hs IH Hx]; cbn [insert_timeout]; [by repeat constructor|].
  destruct (timer_lt (t_time t) (t_time x)) eqn:E.
  - constructor; [by constructor|]. assert (Ht : due_before t x) by (unfold due_before; rewrite timer_lt_spec in E; rewrite timer_nlt_spec; lia).
    constructor; [done|]. eapply Forall_impl; [exact Hx|]. intros y Hy. by etrans.
  - constructor; [done|]. rewrite insert_timeout_perm. by constructor.
Qed.

(** ** Times and cancellation *)

(** The seconds of the time can be represented. *)
Definition timeout_fits (now : timeval) (secs usecs : Z) : bool :=
  time_fits (mk_timeval (s32 (tv_sec now + secs)) (s32 (tv_usec now + usecs))).

Lemma timeout_at_ok now secs usecs :
  if timeout_fits now secs usecs then ∃ t, timeout_at now secs usecs = Ok t else timeout_at now secs usecs = Fault.
Proof.
  unfold timeout_at, timeout_fits. rewrite carry_usec_spec; [by destruct (time_fits _); [eexists|]|]. cbn.
  unfold s32. pose proof (Z.mod_pos_bound (tv_usec now + usecs + 2147483648) 4294967296). lia.
Qed.

Lemma timeout_at_secs now secs :
  0 ≤ tv_usec now < 1000000 → 0 ≤ tv_sec now → 0 ≤ secs → tv_sec now + secs < 2147483648 →
  timeout_at now secs 0 = Ok (mk_timeval (tv_sec now + secs) (tv_usec now)).
Proof.
  intros Hu Hn Hs Hr. unfold timeout_at. rewrite Z.add_0_r, !s32_id by lia.
  rewrite carry_usec_spec by (cbn; lia). unfold time_fits. cbn. rewrite (proj2 (Z.ltb_lt _ 1000000)) by lia. cbn. rewrite (proj2 (Z.leb_le _ _)) by lia.
  rewrite Z.div_small, Z.mod_small by lia. by rewrite Z.add_0_r.
Qed.

Lemma cancel_loop_spec handler data user l :
  cancel_loop handler data user l
  = (Z.of_nat (length (filter (cancelled handler data user) l)), filter (λ t, negb (cancelled handler data user t)) l).
Proof.
  induction l as [|t l IH]; cbn [cancel_loop]; [done|]. rewrite IH, !filter_cons.
  destruct (cancelled handler data user t); cbn; [|done]. do 2 case_decide; try done. cbn [length]. f_equal. lia.
Qed.

Lemma filter_in_order (P : eloop_timeout → Prop) `{∀ x, Decision (P x)} l : in_order l → in_order (filter P l).
Proof.
  induction 1 as [|x l Hs IH Hx]; [constructor|]. rewrite filter_cons. destruct (decide (P x)); [|done].
  constructor; [done|]. rewrite Forall_forall in *. intros y Hy. apply list_elem_of_filter in Hy as [_ Hy]. by apply Hx.
Qed.

Lemma filter_negb_perm (f : eloop_timeout → bool) l : filter f l ++ filter (λ t, negb (f t)) l ≡ₚ l.
Proof.
  induction l as [|x l IH]; [done|]. rewrite !filter_cons. destruct (f x); cbn; repeat case_decide; try done; cbn.
  - by rewrite IH.
  - by rewrite <- Permutation_middle, IH.
Qed.

(** ** Sequences of calls *)

(** What the users of the loop do with timeouts, and the turns of the loop. *)
Inductive call :=
| Register (alloc : bool) (now : timeval) (secs usecs handler data user : Z)
| Cancel (handler data user : Z)
| Turn (now : timeval).

(** The timeouts that have been registered, cancelled, and called, these with the time. *)
Record history := mk_history {
  registered : list eloop_timeout; removed : list eloop_timeout; called : list (timeval * eloop_timeout) }.

Definition do_call (c : call) (s : history * eloop_data) : res (history * eloop_data) :=
  let '(h, e) := s in
  match c with
  | Register alloc now secs usecs handler data user =>
      '(r, e') ← eloop_register_timeout e alloc now secs usecs handler data user;
      if decide (r = 0) then
        t ← timeout_at now secs usecs;
        mret (mk_history (mk_timeout t data user handler :: registered h) (removed h) (called h), e')
      else mret (h, e')
  | Cancel handler data user =>
      mret (mk_history (registered h) (filter (cancelled handler data user) (timeouts e) ++ removed h) (called h),
            snd (eloop_cancel_timeout e handler data user))
  | Turn now =>
      expire (λ t s, mret (mk_history (registered (fst s)) (removed (fst s)) ((now, t) :: called (fst s)), snd s)) now s
  end.

Fixpoint do_calls (l : list call) (s : history * eloop_data) : res (history * eloop_data) :=
  match l with
  | [] => mret s
  | c :: l => s ← do_call c s; do_calls l s
  end.

(** The list is in order; a registered timeout is pending, or has been cancelled or called,
    once; and it has not been called before its time. *)
Definition accounted (s : history * eloop_data) : Prop :=
  in_order (timeouts (snd s))
  ∧ registered (fst s) ≡ₚ (called (fst s)).*2 ++ removed (fst s) ++ timeouts (snd s)
  ∧ Forall (λ nt, timer_ge (fst nt) (t_time (snd nt)) = true) (called (fst s)).

(** The time of a timeout can be represented. *)
Definition in_time (c : call) : bool :=
  match c with Register alloc now secs usecs _ _ _ => negb alloc || timeout_fits now secs usecs | _ => true end.

Lemma do_call_accounted c s :
  accounted s → if in_time c then ∃ s', do_call c s = Ok s' ∧ accounted s' else do_call c s = Fault.
Proof.
  destruct s as [h e]. intros (Ho & Hp & Hc). cbn in Ho, Hp, Hc. destruct c as [alloc now secs usecs handler data user|handler data user|now].
  - pose proof (timeout_at_ok now secs usecs) as Et. cbn [do_call in_time]. unfold eloop_register_timeout. destruct alloc; cbn [negb orb].
    + destruct (timeout_fits now secs usecs); [destruct Et as [t Et]|by rewrite Et].
      rewrite Et, !bind_ret. cbv beta iota. rewrite decide_True by done. rewrite ?Et, ?bind_ret. eexists. split; [reflexivity|]. unfold accounted. cbn.
      split; [by apply insert_timeout_in_order|]. split; [|done]. rewrite insert_timeout_perm, Hp. solve_Permutation.
    + rewrite bind_ret. cbv beta iota. rewrite decide_False by done. eexists. split; [reflexivity|]. done.
  - cbn [do_call in_time]. eexists. split; [reflexivity|]. unfold eloop_cancel_timeout. rewrite cancel_loop_spec. unfold accounted. cbn.
    split; [by apply filter_in_order|]. split; [|done]. rewrite Hp.
    rewrite <- (filter_negb_perm (cancelled handler data user) (timeouts e)) at 1. solve_Permutation.
  - cbn [do_call in_time]. unfold expire. cbn [snd fst]. destruct (timeouts e) as [|t l] eqn:Et; [eexists; split; [done|]; unfold accounted; cbn; by rewrite Et|].
    destruct (timer_ge now (t_time t)) eqn:Ed; eexists; (split; [done|]); unfold accounted; cbn.
    + apply StronglySorted_inv in Ho as [Ho _]. split; [done|]. split; [|by constructor]. rewrite Hp. solve_Permutation.
    + rewrite Et. done.
Qed.

(** C37: After any calls on the loop its timeouts are in the order of their times, and every
    timeout that was registered is pending, or was cancelled, or was called, exactly once
    and not before its time.  The next turn calls the first of those with the smallest
    time if it is due, and a due timeout is never passed over for one that is later.  Only
    a timeout whose seconds cannot be represented goes wrong. *)
Theorem eloop_timers_correct (data : Z) (l : list call) (now : timeval) :
  if forallb in_time l then
    ∃ h e, do_calls l (mk_history [] [] [], eloop_init data) = Ok (h, e) ∧ accounted (h, e)
      ∧ ∃ h' e', do_call (Turn now) (h, e) = Ok (h', e') ∧ accounted (h', e')
        ∧ (called h' = called h ∧ Forall (λ t, timer_ge now (t_time t) = false) (timeouts e)
           ∨ ∃ t, called h' = (now, t) :: called h ∧ timeouts e = t :: timeouts e' ∧ timer_ge now (t_time t) = true
               ∧ Forall (due_before t) (timeouts e'))
  else do_calls l (mk_history [] [] [], eloop_init data) = Fault.
Proof.
  assert (Hinit : accounted (mk_history [] [] [], eloop_init data)) by (split; [constructor|by split]).
  revert Hinit. generalize (mk_history [] [] [], eloop_init data) as s. induction l as [|c l IH]; intros s Hs; cbn [forallb].
  - destruct s as [h e]. exists h, e. split; [done|]. split; [done|].
    destruct (do_call_accounted (Turn now) (h, e) Hs) as ([h' e'] & E & Hs'). exists h', e'. split; [done|]. split; [done|].
    destruct Hs as (Ho & _ & _). cbn in Ho, E. unfold expire in E. cbn [snd fst] in E.
    destruct (timeouts e) as [|t r] eqn:Et; [injection E as <- <-; by left|].
    apply StronglySorted_inv in Ho as [_ Ht]. destruct (timer_ge now (t_time t)) eqn:Ed; injection E as <- <-.
    + right. exists t. by cbn.
    + left. split; [done|]. constructor; [done|]. eapply Forall_impl; [exact Ht|]. intros x Hx. unfold due_before in Hx.
      rewrite timer_ge_nlt, negb_false_iff, timer_lt_spec in Ed. rewrite timer_ge_nlt, negb_false_iff, timer_lt_spec.
      rewrite timer_nlt_spec in Hx. lia.
  - pose proof (do_call_accounted c s Hs) as Hc. destruct (in_time c); cbn [andb do_calls]; [|by rewrite Hc].
    destruct Hc as (s1 & E & Hs1). specialize (IH s1 Hs1). by rewrite E, bind_ret.
Qed.

(** A timeout that is a moment too late. *)
Example eloop_timeout_overflows :
  do_calls [Register true (mk_timeval 2147483640 999999) 7 1 0x400 0 0] (mk_history [] [] [], eloop_init 0) = Fault.
Proof. by vm_compute. Qed.
