(* ===== verification/LcpEcho.v ===== *)
(** * The echo requests of LCP (progs.gpl/pppd.alpha/lcp.c)

    While the link is up, echo requests are sent at an interval; each has a timeout that
    looks at the number of requests that are not answered.  When there are too many,
    a second set of parameters takes over, if it is given, and then the link is
    closed.  The timers are timeouts of the event loop; [malloc] is taken to succeed, and
    the clock to stand still while a handler runs. *)

From stdpp Require Import base numbers list.
From S2P Require Import Prelude Bytes Timeval PppFsm LcpOptions Eloop.

Definition PROTREJ : Z := 8.
Definition ECHOREQ : Z := 9.
Definition ECHOREP : Z := 10.
Definition DISCREQ : Z := 11.

(** The options of the command line, which do not change. *)
Record echo_options := mk_echo_options {
  lcp_echo_interval_1 : Z; lcp_echo_fails_1 : Z; lcp_timeout_1 : Z;
  lcp_echo_interval_2 : Z; lcp_echo_fails_2 : Z; lcp_timeout_2 : Z }.

(** The static variables; the two that say that a timer runs are 0 or 1. *)
Record echo := mk_echo {
  lcp_echos_pending : Z; lcp_echo_number : Z; lcp_echo_timer_running : bool; lcp_echoreq_running : bool;
  lcp_echo_state : Z; lcp_echo_interval : Z; lcp_echo_fails : Z; lcp_timeout : Z }.

Definition with_pending (e : echo) (v : Z) : echo :=
  mk_echo v (lcp_echo_number e) (lcp_echo_timer_running e) (lcp_echoreq_running e) (lcp_echo_state e)
    (lcp_echo_interval e) (lcp_echo_fails e) (lcp_timeout e).
Definition with_number (e : echo) (v : Z) : echo :=
  mk_echo (lcp_echos_pending e) v (lcp_echo_timer_running e) (lcp_echoreq_running e) (lcp_echo_state e)
    (lcp_echo_interval e) (lcp_echo_fails e) (lcp_timeout e).
Definition with_timer_running (e : echo) (b : bool) : echo :=
  mk_echo (lcp_echos_pending e) (lcp_echo_number e) b (lcp_echoreq_running e) (lcp_echo_state e)
    (lcp_echo_interval e) (lcp_echo_fails e) (lcp_timeout e).
Definition with_echoreq_running (e : echo) (b : bool) : echo :=
  mk_echo (lcp_echos_pending e) (lcp_echo_number e) (lcp_echo_timer_running e) b (lcp_echo_state e)
    (lcp_echo_interval e) (lcp_echo_fails e) (lcp_timeout e).
(** [lcp_echo_state] and the parameters that go with it. *)
Definition with_stage (e : echo) (s interval fails timeout : Z) : echo :=
  mk_echo (lcp_echos_pending e) (lcp_echo_number e) (lcp_echo_timer_running e) (lcp_echoreq_running e) s interval fails timeout.
Definition with_echo_state (e : echo) (s : Z) : echo :=
  with_stage e s (lcp_echo_interval e) (lcp_echo_fails e) (lcp_timeout e).

(** The automaton's state, these variables, the event loop, and the options that have
    been negotiated. *)
Record lcp := mk_lcp { lcp_state : link_state; lcp_echo : echo; lcp_loop : eloop_data; lcp_gotoptions : lcp_options }.

Definition with_lcp_state (w : lcp) (v : link_state) : lcp := mk_lcp v (lcp_echo w) (lcp_loop w) (lcp_gotoptions w).
Definition on_echo (g : echo → echo) (w : lcp) : lcp := mk_lcp (lcp_state w) (g (lcp_echo w)) (lcp_loop w) (lcp_gotoptions w).
Definition with_lcp_loop (w : lcp) (e : eloop_data) : lcp := mk_lcp (lcp_state w) (lcp_echo w) e (lcp_gotoptions w).

(** Calls of other parts: packets to send, [lcp_close] of an open link, and the routine
    [protrej] of a protocol. *)
Inductive lcp_call := Sdata (code id : Z) (data : bytes) | Close | Protrej (prot : Z).

(** The addresses of the two handlers and of the automaton, which is their argument. *)
Definition LcpEchoTimeout_ptr : Z := 0x401000.
Definition LcpEchoRequestTimer_ptr : Z := 0x402000.
Definition lcp_fsm_ptr : Z := 0x10001000.

Section echo.
Context (o : echo_options).

Definition TIMEOUT (now : timeval) (r t : Z) (w : lcp) : res lcp :=
  '(_, e) ← eloop_register_timeout (lcp_loop w) true now (u32 t) 0 r NULL lcp_fsm_ptr;
  mret (with_lcp_loop w e).
Definition UNTIMEOUT (r : Z) (w : lcp) : lcp :=
  with_lcp_loop w (snd (eloop_cancel_timeout (lcp_loop w) r NULL lcp_fsm_ptr)).

Definition LcpSendEchoRequest (w : lcp) : lcp * list lcp_call :=
  if decide (lcp_state w = OPENED) then
    let n := lcp_echo_number (lcp_echo w) in
    (on_echo (λ e, with_pending (with_number e (n + 1)) (lcp_echos_pending e + 1)) w,
     [Sdata ECHOREQ (u8 n) (PUTLONG (magicnumber (lcp_gotoptions w)))])
  else (w, []).

Definition LcpEchoCheck (now : timeval) (w : lcp) : res (lcp * list lcp_call) :=
  let '(w, l) := LcpSendEchoRequest w in
  if decide (lcp_state w = OPENED) then
    w ← TIMEOUT now LcpEchoTimeout_ptr (lcp_timeout (lcp_echo w)) w;
    let w := on_echo (λ e, with_timer_running e true) w in
    w ← TIMEOUT now LcpEchoRequestTimer_ptr (lcp_echo_interval (lcp_echo w)) w;
    mret (on_echo (λ e, with_echoreq_running e true) w, l)
  else mret (w, l).

Definition LcpEchoRequestTimer (now : timeval) (w : lcp) : res (lcp * list lcp_call) :=
  if lcp_echoreq_running (lcp_echo w) then LcpEchoCheck now (on_echo (λ e, with_echoreq_running e false) w)
  else mret (w, []).

Definition lcp_echo_lowerdown (w : lcp) : lcp :=
  let w := if lcp_echo_timer_running (lcp_echo w)
           then UNTIMEOUT LcpEchoTimeout_ptr (on_echo (λ e, with_timer_running e false) w) else w in
  if lcp_echoreq_running (lcp_echo w)
  then UNTIMEOUT LcpEchoRequestTimer_ptr (on_echo (λ e, with_echoreq_running e false) w) else w.

(** [lcp_close] of a link in the state OPENED: [fsm_close] calls [lcp_down], and with it
    [lcp_echo_lowerdown], and goes on to the state CLOSING. *)
Definition LcpLinkFailure (w : lcp) : lcp * list lcp_call :=
  if decide (lcp_state w = OPENED) then (with_lcp_state (lcp_echo_lowerdown w) CLOSING, [Close]) else (w, []).

Definition LcpEchoTimeout (now : timeval) (w : lcp) : res (lcp * list lcp_call) :=
  let e := lcp_echo w in
  if lcp_echo_timer_running e then
    let w := on_echo (λ e, with_timer_running e false) w in
    if lcp_echo_fails e <=? lcp_echos_pending e then
      if (lcp_echo_state e =? 0) && negb (lcp_echo_interval_2 o =? 0) then
        let w := if lcp_echoreq_running e
                 then on_echo (λ e, with_echoreq_running e false) (UNTIMEOUT LcpEchoRequestTimer_ptr w) else w in
        let w := on_echo (λ e, with_pending
                   (with_stage e (lcp_echo_state e + 1) (lcp_echo_interval_2 o) (lcp_echo_fails_2 o) (lcp_timeout_2 o)) 0) w in
        LcpEchoCheck now w
      else
        let '(w, l) := LcpLinkFailure w in
        mret (on_echo (λ e, with_echo_state (with_pending e 0) 0) w, l)
    else if lcp_echos_pending e =? 0 then
      mret (on_echo (λ e, with_stage e 0 (lcp_echo_interval_1 o) (lcp_echo_fails_1 o) (lcp_timeout_1 o)) w, [])
    else mret (w, [])
  else mret (w, []).

(** A reply with the own magic number is an own request that has come back. *)
Definition lcp_received_echo_reply (inp : bytes) (w : lcp) : lcp :=
  if Z.of_nat (length inp) <? 4 then w
  else if neg_magicnumber (lcp_gotoptions w) && (get32 inp 0 =? magicnumber (lcp_gotoptions w)) then w
  else on_echo (λ e, with_pending e 0) w.

Definition lcp_rprotrej (inp : bytes) (w : lcp) : list lcp_call :=
  if Z.of_nat (length inp) <? 2 then []
  else if decide (lcp_state w = OPENED) then [Protrej (get16 inp 0)] else [].

(** The codes that the automaton does not know; also whether LCP knows them.  The magic
    number is written over the first four bytes of a request even if it is shorter. *)
Definition lcp_extcode (code id : Z) (inp : bytes) (w : lcp) : bool * lcp * list lcp_call :=
  if code =? PROTREJ then (true, w, lcp_rprotrej inp w)
  else if code =? ECHOREQ then
    (true, w, if decide (lcp_state w = OPENED)
              then [Sdata ECHOREP id (take (length inp) (PUTLONG (magicnumber (lcp_gotoptions w)) ++ drop 4 inp))] else [])
  else if code =? ECHOREP then (true, lcp_received_echo_reply inp w, [])
  else if code =? DISCREQ then (true, w, [])
  else (false, w, []).

Definition lcp_echo_lowerup (now : timeval) (w : lcp) : res (lcp * list lcp_call) :=
  let w := on_echo (λ _, mk_echo 0 0 false false 0 (lcp_echo_interval_1 o) (lcp_echo_fails_1 o) (lcp_timeout_1 o)) w in
  if negb (lcp_echo_interval (lcp_echo w) =? 0) then LcpEchoCheck now w else mret (w, []).

(** The handlers of the event loop; a foreign one does not touch these variables. *)
Definition lcp_on_timeout (now : timeval) (t : eloop_timeout) (s : (lcp * list lcp_call) * eloop_data)
    : res ((lcp * list lcp_call) * eloop_data) :=
  let '(w, l, e) := s in
  let w := with_lcp_loop w e in
  '(w, l') ← (if t_handler t =? LcpEchoTimeout_ptr then LcpEchoTimeout now w
              else if t_handler t =? LcpEchoRequestTimer_ptr then LcpEchoRequestTimer now w
              else mret (w, []));
  mret (w, l ++ l', lcp_loop w).

(** The part of a turn of the loop that calls a timeout. *)
Definition lcp_expire (now : timeval) (w : lcp) : res (lcp * list lcp_call) :=
  '(w, l, e) ← expire (lcp_on_timeout now) now ((w, []), lcp_loop w);
  mret (with_lcp_loop w e, l).

(** What happens to LCP: the automaton enters the state OPENED and calls [lcp_up], or it
    leaves it for [v] with [lcp_down]; the loop has a turn; a packet with a
    code of LCP's own arrives; other parts set and cancel timeouts of their own. *)
Inductive echo_event :=
| Up (now : timeval)
| Down (v : link_state)
| Expire (now : timeval)
| Extcode (code id : Z) (inp : bytes)
| Foreign (now : timeval) (secs usecs handler data user : Z)
| ForeignCancel (handler data user : Z).

Definition echo_step (ev : echo_event) (w : lcp) : res (lcp * list lcp_call) :=
  match ev with
  | Up now => lcp_echo_lowerup now (with_lcp_state w OPENED)
  | Down v => mret (with_lcp_state (lcp_echo_lowerdown w) v, [])
  | Expire now => lcp_expire now w
  | Extcode code id inp => let '(_, w, l) := lcp_extcode code id inp w in mret (w, l)
  | Foreign now secs usecs handler data user =>
      '(_, e) ← eloop_register_timeout (lcp_loop w) true now secs usecs handler data user;
      mret (with_lcp_loop w e, [])
  | ForeignCancel handler data user => mret (with_lcp_loop w (snd (eloop_cancel_timeout (lcp_loop w) handler data user)), [])
  end.

Fixpoint echo_run (l : list echo_event) (w : lcp) : res (lcp * list lcp_call) :=
  match l with
  | [] => mret (w, [])
  | ev :: l =>
      '(w, c) ← echo_step ev w;
      '(w, c') ← echo_run l w;
      mret (w, c ++ c')
  end.
End echo.
