(* ===== verification/LcpEchoProps.v ===== *)
(** * The echo requests of LCP: the theorems

    A peer that answers often enough is never given up, and a silent one is, within a
    time that is known.  Where a timeout is not longer than the interval that time is
    exact; and while the link is up the next request is always scheduled, and nothing
    is left behind when it goes down. *)

From stdpp Require Import base numbers list sorting.
From S2P Require Import Prelude Bytes Timeval PppFsm LcpOptions Eloop LcpEcho.

(** ** The timers of the loop *)

Definition is_echo (t : eloop_timeout) : bool :=
  (t_handler t =? LcpEchoTimeout_ptr) || (t_handler t =? LcpEchoRequestTimer_ptr).

Definition echo_timers (e : eloop_data) : list eloop_timeout := filter is_echo (timeouts e).

Definition echo_timer (r : Z) (at_ : timeval) : eloop_timeout := mk_timeout at_ NULL lcp_fsm_ptr r.

Lemma filter_insert_none (P : eloop_timeout → bool) t l :
  in_order l → filter P l = [] → filter P (insert_timeout t l) = if P t then [t] else [].
Proof.
  intros Ho Hn. destruct (insert_timeout_split t l Ho) as (l1 & l2 & -> & -> & _ & _).
  rewrite filter_app in Hn |- *. apply app_eq_nil in Hn as [-> H2]. rewrite filter_cons, H2.
  destruct (P t); [by rewrite decide_True|by rewrite decide_False by auto].
Qed.

Lemma filter_insert_last (P : eloop_timeout → bool) t x l :
  in_order l → filter P l = [x] → due_before x t → P t = true → filter P (insert_timeout t l) = [x; t].
Proof.
  intros Ho Hx Hd Ht. destruct (insert_timeout_split t l Ho) as (l1 & l2 & -> & -> & _ & H2).
  rewrite filter_app in Hx |- *. rewrite filter_cons, Ht, decide_True by done.
  assert (E2 : filter P l2 = []).
  { destruct (filter P l2) as [|y l2'] eqn:E; [done|]. exfalso.
    assert (Hy : y ∈ filter P l2) by (rewrite E; left). apply list_elem_of_filter in Hy as [_ Hy].
    rewrite Forall_forall in H2. specialize (H2 y Hy).
    destruct (filter P l1) as [|z l1'] eqn:E1; cbn in Hx; injection Hx as Hx1 Hx2; [|by destruct l1'].
    subst y. unfold due_before in Hd. by rewrite Hd in H2. }
  rewrite E2, app_nil_r in Hx. by rewrite Hx, E2.
Qed.

Lemma filter_insert_other (P : eloop_timeout → bool) t l :
  in_order l → P t = false → filter P (insert_timeout t l) = filter P l.
Proof.
  intros Ho Ht. destruct (insert_timeout_split t l Ho) as (l1 & l2 & -> & -> & _ & _).
  by rewrite !filter_app, filter_cons, Ht, decide_False by auto.
Qed.

Lemma filter_comm (P Q : eloop_timeout → bool) (l : list eloop_timeout) : filter P (filter Q l) = filter Q (filter P l).
Proof. rewrite !list_filter_filter. apply list_filter_iff. intros x. tauto. Qed.

(** ** The invariant *)

(** Times in use: far enough from the end of the clock. *)
Definition clock (now : timeval) : Prop := 0 ≤ tv_usec now < 1000000 ∧ 0 ≤ tv_sec now < 1000000000.

Definition in_range (t : Z) : Prop := 0 ≤ t < 1000000000.
Record timed (o : echo_options) : Prop := {
  timed_t1 : in_range (lcp_timeout_1 o); timed_i1 : in_range (lcp_echo_interval_1 o);
  timed_t2 : in_range (lcp_timeout_2 o); timed_i2 : in_range (lcp_echo_interval_2 o) }.

(** No timeout is longer than its interval. *)
Record calm (o : echo_options) : Prop := {
  calm_1 : 0 ≤ lcp_timeout_1 o ≤ lcp_echo_interval_1 o;
  calm_2 : 0 ≤ lcp_timeout_2 o ≤ lcp_echo_interval_2 o;
  calm_i1 : lcp_echo_interval_1 o < 1000000000;
  calm_i2 : lcp_echo_interval_2 o < 1000000000 }.

#[export] Instance calm_dec o : Decision (calm o).
Proof.
  destruct (decide ((0 ≤ lcp_timeout_1 o ≤ lcp_echo_interval_1 o ∧ 0 ≤ lcp_timeout_2 o ≤ lcp_echo_interval_2 o)
    ∧ lcp_echo_interval_1 o < 1000000000 ∧ lcp_echo_interval_2 o < 1000000000)) as [H|H].
  - left. by constructor; apply H.
  - right. intros []. apply H. by split.
Defined.

Lemma calm_timed o : calm o → timed o.
Proof. intros []. split; unfold in_range; lia. Qed.

Section props.
Context (o : echo_options) (Ho : calm o).

Abbreviation T at_ := (echo_timer LcpEchoTimeout_ptr at_).
Abbreviation R at_ := (echo_timer LcpEchoRequestTimer_ptr at_).

(** The parameters are those of the first or of the second set. *)
Definition stage_ok (e : echo) : Prop :=
  (lcp_echo_state e = 0 ∧ lcp_echo_interval e = lcp_echo_interval_1 o ∧ lcp_echo_fails e = lcp_echo_fails_1 o ∧ lcp_timeout e = lcp_timeout_1 o)
  ∨ (lcp_echo_state e = 1 ∧ lcp_echo_interval_2 o ≠ 0 ∧ lcp_echo_interval e = lcp_echo_interval_2 o
     ∧ lcp_echo_fails e = lcp_echo_fails_2 o ∧ lcp_timeout e = lcp_timeout_2 o).

(** The link is supervised: the next request is scheduled, and the timeout of the last
    one is pending exactly if the variable says so, and is due first. *)
Definition supervised (w : lcp) : Prop :=
  stage_ok (lcp_echo w) ∧ lcp_echoreq_running (lcp_echo w) = true
  ∧ ∃ r, echo_timers (lcp_loop w) = (if lcp_echo_timer_running (lcp_echo w) then [T (fst r); R (snd r)] else [R (snd r)]).

(** It is not: there are no timers. *)
Definition idle (w : lcp) : Prop :=
  lcp_echo_timer_running (lcp_echo w) = false ∧ lcp_echoreq_running (lcp_echo w) = false ∧ echo_timers (lcp_loop w) = [].

Definition echo_inv (w : lcp) : Prop :=
  in_order (timeouts (lcp_loop w))
  ∧ if decide (lcp_state w = OPENED ∧ lcp_echo_interval_1 o ≠ 0) then supervised w else idle w.

Lemma TIMEOUT_ok now r t w :
  clock now → 0 ≤ t < 1000000000 →
  TIMEOUT now r t w = Ok (with_lcp_loop w (with_timeouts (lcp_loop w) (insert_timeout
    (echo_timer r (mk_timeval (tv_sec now + t) (tv_usec now))) (timeouts (lcp_loop w))))).
Proof.
  intros [Hu Hs] Ht. unfold TIMEOUT, eloop_register_timeout. cbn [negb]. rewrite u32_id by (unfold is_u32; lia).
  rewrite timeout_at_secs by lia. by rewrite bind_ret.
Qed.

Lemma stage_times e : stage_ok e → 0 ≤ lcp_timeout e ≤ lcp_echo_interval e ∧ lcp_echo_interval e < 1000000000.
Proof. destruct Ho. intros [(_ & -> & _ & ->)|(_ & _ & -> & _ & ->)]; lia. Qed.

(** A request is sent, and both timers are set. *)
Lemma check_spec now w :
  clock now → in_order (timeouts (lcp_loop w)) → lcp_state w = OPENED → echo_timers (lcp_loop w) = [] → stage_ok (lcp_echo w) →
  let e := lcp_echo w in
  ∃ l, LcpEchoCheck now w
    = Ok (mk_lcp OPENED (mk_echo (lcp_echos_pending e + 1) (lcp_echo_number e + 1) true true (lcp_echo_state e)
                           (lcp_echo_interval e) (lcp_echo_fails e) (lcp_timeout e)) (with_timeouts (lcp_loop w) l) (lcp_gotoptions w),
          [Sdata ECHOREQ (u8 (lcp_echo_number e)) (PUTLONG (magicnumber (lcp_gotoptions w)))])
    ∧ in_order l
    ∧ filter is_echo l = [T (mk_timeval (tv_sec now + lcp_timeout e) (tv_usec now));
                          R (mk_timeval (tv_sec now + lcp_echo_interval e) (tv_usec now))]
    ∧ (timeouts (lcp_loop w) = [] → l = filter is_echo l).
Proof.
  intros Hc Hw Hs Hn Hst e. destruct (stage_times _ Hst) as [Ht Hi]. destruct w as [v e' loop got]. cbn in *. subst v e.
  set (t := T (mk_timeval (tv_sec now + lcp_timeout e') (tv_usec now))). set (r := R (mk_timeval (tv_sec now + lcp_echo_interval e') (tv_usec now))).
  assert (Htr : due_before t r) by (unfold due_before; rewrite timer_nlt_spec; cbn; lia).
  exists (insert_timeout r (insert_timeout t (timeouts loop))). split; [|split; [|split]].
  - unfold LcpEchoCheck, LcpSendEchoRequest. cbn [lcp_state lcp_echo lcp_gotoptions]. rewrite decide_True by done. cbn [on_echo lcp_state]. rewrite decide_True by done.
    rewrite TIMEOUT_ok by (done || cbn; lia). rewrite bind_ret. rewrite TIMEOUT_ok by (done || cbn; lia). by rewrite bind_ret.
  - by do 2 apply insert_timeout_in_order.
  - apply filter_insert_last; [by apply insert_timeout_in_order| |done|done]. by rewrite filter_insert_none by done.
  - intros ->. cbn [insert_timeout]. unfold due_before in Htr. rewrite Htr. reflexivity.
Qed.

(** A timer that is set is taken back. *)
Lemma cancel_timers r w :
  echo_timers (lcp_loop (UNTIMEOUT r w)) = filter (λ t, negb (cancelled r NULL lcp_fsm_ptr t)) (echo_timers (lcp_loop w)).
Proof.
  unfold UNTIMEOUT, eloop_cancel_timeout, echo_timers. rewrite cancel_loop_spec. cbn [snd with_lcp_loop lcp_loop timeouts with_timeouts].
  apply filter_comm.
Qed.

Lemma cancel_in_order e h d u : in_order (timeouts e) → in_order (timeouts (snd (eloop_cancel_timeout e h d u))).
Proof. intros Hw. unfold eloop_cancel_timeout. rewrite cancel_loop_spec. by apply filter_in_order. Qed.

Lemma lowerdown_idle w :
  in_order (timeouts (lcp_loop w)) → supervised w ∨ idle w →
  let w' := lcp_echo_lowerdown w in
  in_order (timeouts (lcp_loop w')) ∧ idle w' ∧ lcp_gotoptions w' = lcp_gotoptions w
  ∧ lcp_echos_pending (lcp_echo w') = lcp_echos_pending (lcp_echo w).
Proof.
  intros Hw [(Hst & Hr & [rt rr] & Et)|(H1 & H2 & H3)] w'; subst w'; unfold lcp_echo_lowerdown.
  - destruct (lcp_echo_timer_running (lcp_echo w)) eqn:Eb.
    + cbn [lcp_echo UNTIMEOUT with_lcp_loop on_echo with_timer_running lcp_echoreq_running]. rewrite Hr. split; [|split; [|done]].
      * by do 2 apply cancel_in_order.
      * split; [done|]. split; [done|]. rewrite cancel_timers. cbn [on_echo lcp_loop]. 
        pose proof (cancel_timers LcpEchoTimeout_ptr (on_echo (λ e, with_timer_running e false) w)) as Ec. cbn [on_echo lcp_loop] in Ec.
        rewrite Ec, Et. reflexivity.
    + rewrite Hr. split; [|split; [|done]].
      * by apply cancel_in_order.
      * split; [done|]. split; [done|]. rewrite cancel_timers. cbn [on_echo lcp_loop]. by rewrite Et.
  - rewrite H1, H2. split; [done|]. by split.
Qed.

(** ** Steps *)

(** What the surroundings see to: times are in range, [lcp_up] is called on a link that
    was not open, and other parts leave the timers of LCP alone. *)
Definition fair (w : lcp) (ev : echo_event) : Prop :=
  match ev with
  | Up now => clock now ∧ lcp_state w ≠ OPENED
  | Down v => v ≠ OPENED
  | Expire now => clock now
  | Extcode _ _ _ => True
  | Foreign now secs usecs handler _ _ =>
      timeout_fits now secs usecs = true ∧ handler ≠ LcpEchoTimeout_ptr ∧ handler ≠ LcpEchoRequestTimer_ptr
  | ForeignCancel handler _ _ => handler ≠ LcpEchoTimeout_ptr ∧ handler ≠ LcpEchoRequestTimer_ptr
  end.

Lemma inv_supervised w : echo_inv w → lcp_state w = OPENED → lcp_echo_interval_1 o ≠ 0 → supervised w.
Proof. intros [_ H] H1 H2. by rewrite decide_True in H. Qed.

Lemma inv_not_idle w : echo_inv w → echo_timers (lcp_loop w) ≠ [] → lcp_state w = OPENED ∧ lcp_echo_interval_1 o ≠ 0 ∧ supervised w.
Proof.
  intros [_ H] Hn. case_decide as Hd; [destruct Hd; tauto|]. by destruct H as (_ & _ & H).
Qed.

Lemma inv_either w : echo_inv w → supervised w ∨ idle w.
Proof. intros [_ H]. case_decide; tauto. Qed.

(** After a request has been sent. *)
Lemma check_inv now w :
  clock now → in_order (timeouts (lcp_loop w)) → lcp_state w = OPENED → lcp_echo_interval_1 o ≠ 0 →
  echo_timers (lcp_loop w) = [] → stage_ok (lcp_echo w) →
  ∃ w' l, LcpEchoCheck now w = Ok (w', l) ∧ echo_inv w' ∧ (Close ∉ l) ∧ Sdata ECHOREQ (u8 (lcp_echo_number (lcp_echo w))) (PUTLONG (magicnumber (lcp_gotoptions w))) ∈ l
    ∧ lcp_state w' = OPENED ∧ lcp_gotoptions w' = lcp_gotoptions w.
Proof.
  intros Hc Hw Hs Hi Hn Hst. destruct (check_spec now w Hc Hw Hs Hn Hst) as (l & E & Hl & Hf & _).
  eexists _, _. split; [exact E|]. split.
  - split; [done|]. rewrite decide_True by done. split; [exact Hst|]. split; [done|]. cbn [lcp_echo lcp_echo_timer_running lcp_loop].
    eexists (_, _). exact Hf.
  - split; [|split; [|done]]; rewrite list_elem_of_singleton; done.
Qed.

(** The handler of a timeout, once it has been taken off the list. *)
Definition call_handler (now : timeval) (t : eloop_timeout) (w : lcp) : res (lcp * list lcp_call) :=
  if t_handler t =? LcpEchoTimeout_ptr then LcpEchoTimeout o now w
  else if t_handler t =? LcpEchoRequestTimer_ptr then LcpEchoRequestTimer now w
  else mret (w, []).

Definition popped (w : lcp) (l : list eloop_timeout) : lcp := with_lcp_loop w (with_timeouts (lcp_loop w) l).

Lemma lcp_expire_spec now w :
  lcp_expire o now w =
  match timeouts (lcp_loop w) with
  | [] => Ok (w, [])
  | t :: l => if timer_ge now (t_time t) then call_handler now t (popped w l) else Ok (w, [])
  end.
Proof.
  unfold lcp_expire, expire. cbn [snd fst]. assert (Eta : with_lcp_loop w (lcp_loop w) = w) by (by destruct w).
  destruct (timeouts (lcp_loop w)) as [|t l] eqn:Et; [by rewrite bind_ret, Eta|].
  destruct (timer_ge now (t_time t)); [|by rewrite bind_ret, Eta]. unfold lcp_on_timeout. fold (call_handler now t (with_lcp_loop w (with_timeouts (lcp_loop w) l))).
  unfold popped. destruct (call_handler _ _ _) as [[w' c]| |]; [|done|done]. rewrite !bind_ret. cbn [app]. by destruct w'.
Qed.

(** The head of the list as the invariant has it. *)
Lemma head_cases w t l :
  echo_inv w → timeouts (lcp_loop w) = t :: l →
  (is_echo t = false ∧ filter is_echo l = echo_timers (lcp_loop w))
  ∨ (∃ r, lcp_state w = OPENED ∧ lcp_echo_interval_1 o ≠ 0 ∧ supervised w ∧ lcp_echo_timer_running (lcp_echo w) = true
       ∧ t = T (fst r) ∧ filter is_echo l = [R (snd r)])
  ∨ (∃ r, lcp_state w = OPENED ∧ lcp_echo_interval_1 o ≠ 0 ∧ supervised w ∧ lcp_echo_timer_running (lcp_echo w) = false
       ∧ t = R r ∧ filter is_echo l = []).
Proof.
  intros Hi Et. destruct (is_echo t) eqn:Ee.
  - right. assert (Hn : echo_timers (lcp_loop w) = t :: filter is_echo l).
    { unfold echo_timers. rewrite Et, filter_cons, decide_True by (by rewrite Ee). done. }
    destruct (inv_not_idle w Hi) as (Hs & Hne & Hsup); [by rewrite Hn|]. pose proof Hsup as (_ & _ & r & Er).
    rewrite Hn in Er. destruct (lcp_echo_timer_running (lcp_echo w)) eqn:Eb.
    + left. exists r. injection Er as -> ->. done.
    + right. exists (snd r). injection Er as -> ->. done.
  - left. split; [done|]. unfold echo_timers. rewrite Et, filter_cons, decide_False by (rewrite Ee; auto). done.
Qed.

Lemma popped_in_order w t l : echo_inv w → timeouts (lcp_loop w) = t :: l → in_order (timeouts (lcp_loop (popped w l))).
Proof. intros [Hw _] Et. rewrite Et in Hw. by apply StronglySorted_inv in Hw as [Hw _]. Qed.

(** The timeout of a request: too many are unanswered, none is, or some are. *)
Lemma timeout_spec now w l rr :
  let e := lcp_echo w in
  clock now → in_order l → lcp_state w = OPENED → lcp_echo_interval_1 o ≠ 0 → supervised w →
  lcp_echo_timer_running e = true → filter is_echo l = [R rr] →
  ∃ w' c, LcpEchoTimeout o now (popped w l) = Ok (w', c) ∧ echo_inv w' ∧ lcp_gotoptions w' = lcp_gotoptions w
    ∧ (lcp_echos_pending e < lcp_echo_fails e → lcp_state w' = OPENED ∧ c = [] ∧ lcp_echos_pending (lcp_echo w') = lcp_echos_pending e)
    ∧ (lcp_echo_fails e ≤ lcp_echos_pending e → lcp_echo_state e = 1 ∨ lcp_echo_interval_2 o = 0 → lcp_state w' = CLOSING ∧ c = [Close])
    ∧ (c = [] ∨ c = [Close] ∨ ∃ i, c = [Sdata ECHOREQ i (PUTLONG (magicnumber (lcp_gotoptions w)))]).
Proof.
  intros e Hc Hl Hs Hi (Hst & Hr & _) Hb Hf. change (lcp_echo w) with e in Hst, Hr. unfold LcpEchoTimeout. change (lcp_echo (popped w l)) with e. rewrite Hb.
  destruct (Z.leb_spec (lcp_echo_fails e) (lcp_echos_pending e)) as [Hle|Hlt].
  - destruct ((lcp_echo_state e =? 0) && negb (lcp_echo_interval_2 o =? 0)) eqn:E2.
    + apply andb_true_iff in E2 as [E0 E2]. apply Z.eqb_eq in E0. apply negb_true_iff, Z.eqb_neq in E2. rewrite Hr.
      set (w1 := on_echo _ (popped w l)). set (w2 := on_echo _ (UNTIMEOUT _ w1)).
      assert (Ht2 : echo_timers (lcp_loop w2) = []).
      { subst w2. cbn [on_echo lcp_loop]. rewrite cancel_timers. subst w1. cbn [on_echo lcp_loop popped with_lcp_loop]. unfold echo_timers. cbn [timeouts with_timeouts].
        rewrite Hf. reflexivity. }
      assert (Ho2 : in_order (timeouts (lcp_loop w2))) by (subst w2 w1; by apply cancel_in_order).
      set (w3 := on_echo _ w2). assert (Hst3 : stage_ok (lcp_echo w3)) by (right; cbn; fold e; rewrite E0; done).
      destruct (check_inv now w3 Hc Ho2 Hs Hi Ht2 Hst3) as (w' & c & E & Hinv & Hcl & Hsd & Hs' & Hg). exists w', c.
      destruct (check_spec now w3 Hc Ho2 Hs Ht2 Hst3) as (l3 & E3 & _). rewrite E3 in E. injection E as <- <-.
      split; [exact E3|]. split; [done|]. split; [exact Hg|]. split; [lia|]. split; [intros _ [|]; lia|]. right. right. by eexists.
    + set (w1 := on_echo _ (popped w l)). unfold LcpLinkFailure. rewrite decide_True by done.
      assert (Hsup : supervised w1).
      { split; [exact Hst|]. split; [exact Hr|]. exists (rr, rr). exact Hf. }
      destruct (lowerdown_idle w1 Hl (or_introl Hsup)) as (Ho1 & Hi1 & Hg1 & _).
      eexists _, _. split; [reflexivity|]. split.
      * split; [exact Ho1|]. rewrite decide_False by (by intros [? _]). exact Hi1.
      * split; [exact Hg1|]. split; [lia|]. split; [done|]. by right; left.
  - destruct (Z.eqb_spec (lcp_echos_pending e) 0) as [H0|H0]; eexists _, _; (split; [reflexivity|]); (split; [|split; [done|split; [done|split; [lia|by left]]]]).
    all: split; [exact Hl|]; rewrite decide_True by done; (split; [|split; [exact Hr|by exists (rr, rr)]]).
    + by left.
    + exact Hst.
Qed.

(** The next request. *)
Lemma request_spec now w l :
  let e := lcp_echo w in
  clock now → in_order l → lcp_state w = OPENED → lcp_echo_interval_1 o ≠ 0 → supervised w → filter is_echo l = [] →
  ∃ w', LcpEchoRequestTimer now (popped w l) = Ok (w', [Sdata ECHOREQ (u8 (lcp_echo_number e)) (PUTLONG (magicnumber (lcp_gotoptions w)))])
    ∧ echo_inv w' ∧ lcp_gotoptions w' = lcp_gotoptions w ∧ lcp_state w' = OPENED.
Proof.
  intros e Hc Hl Hs Hi (Hst & Hr & _) Hf. unfold LcpEchoRequestTimer. change (lcp_echo (popped w l)) with (lcp_echo w). rewrite Hr.
  set (w1 := on_echo _ (popped w l)).
  destruct (check_inv now w1 Hc Hl Hs Hi Hf Hst) as (w' & c & E & Hinv & _ & _ & Hs' & Hg).
  destruct (check_spec now w1 Hc Hl Hs Hf Hst) as (l1 & E1 & _). rewrite E1 in E. injection E as <- <-.
  eexists. split; [exact E1|]. split; [exact Hinv|]. by split.
Qed.

(** The turn of the loop takes the timeout of a request off its list. *)
Definition expires (ev : echo_event) (w : lcp) : bool :=
  match ev, timeouts (lcp_loop w) with
  | Expire now, t :: _ => timer_ge now (t_time t) && (t_handler t =? LcpEchoTimeout_ptr)
  | _, _ => false
  end.

(** A turn of the loop. *)
Lemma expire_step now w :
  clock now → echo_inv w →
  ∃ w' c, lcp_expire o now w = Ok (w', c) ∧ echo_inv w' ∧ lcp_gotoptions w' = lcp_gotoptions w
    ∧ (expires (Expire now) w = false → (Close ∉ c) ∧ lcp_state w' = lcp_state w
       ∧ (c = [] → lcp_echos_pending (lcp_echo w') = lcp_echos_pending (lcp_echo w)))
    ∧ (expires (Expire now) w = true → lcp_echos_pending (lcp_echo w) < lcp_echo_fails (lcp_echo w) →
       c = [] ∧ lcp_state w' = lcp_state w ∧ lcp_echos_pending (lcp_echo w') = lcp_echos_pending (lcp_echo w))
    ∧ (expires (Expire now) w = true → stage_ok (lcp_echo w))
    ∧ (c = [] ∨ c = [Close] ∨ ∃ i, c = [Sdata ECHOREQ i (PUTLONG (magicnumber (lcp_gotoptions w)))]).
Proof.
  intros Hc Hi. rewrite lcp_expire_spec. unfold expires. destruct (timeouts (lcp_loop w)) as [|t l] eqn:Et.
  { eexists _, _. split; [reflexivity|]. split; [done|]. split; [done|]. split; [intros _; split; [apply not_elem_of_nil|done]|]. by split; [|split; [|left]]. }
  destruct (timer_ge now (t_time t)); cbn [andb].
  2: { eexists _, _. split; [reflexivity|]. split; [done|]. split; [done|]. split; [intros _; split; [apply not_elem_of_nil|done]|]. by split; [|split; [|left]]. }
  pose proof (popped_in_order w t l Hi Et) as Hl. unfold call_handler.
  destruct (head_cases w t l Hi Et) as [[He Hf]|[(r & Hs & Hne & Hsup & Hb & -> & Hf)|(r & Hs & Hne & Hsup & Hb & -> & Hf)]].
  - unfold is_echo in He. apply orb_false_iff in He as [-> ->]. eexists _, _. split; [reflexivity|]. split.
    + split; [exact Hl|]. destruct Hi as [_ Hi]. unfold supervised, idle, echo_timers in *. cbn [popped with_lcp_loop lcp_state lcp_echo lcp_loop timeouts with_timeouts].
      by rewrite Hf.
    + split; [done|]. split; [intros _; split; [apply not_elem_of_nil|done]|]. by split; [|split; [|left]].
  - destruct (timeout_spec now w l (snd r) Hc Hl Hs Hne Hsup Hb Hf) as (w' & c & E & Hi' & Hg & H1 & _ & H3). exists w', c.
    split; [exact E|]. split; [done|]. split; [done|]. split; [done|]. split; [|split; [by intros _; apply Hsup|done]].
    intros _ Hlt. destruct (H1 Hlt) as (E1 & E2 & E3). by rewrite E1, Hs.
  - destruct (request_spec now w l Hc Hl Hs Hne Hsup Hf) as (w' & E & Hi' & Hg & Hs'). eexists w', _. split; [exact E|]. split; [done|]. split; [done|].
    split; [intros _; split; [by rewrite list_elem_of_singleton|]; split; [by rewrite Hs', Hs|done]|]. split; [done|]. split; [done|]. right. right. by eexists.
Qed.

(** Timeouts of other parts. *)
Lemma foreign_inv w e :
  echo_inv w → in_order (timeouts e) → echo_timers e = echo_timers (lcp_loop w) → echo_inv (with_lcp_loop w e).
Proof.
  intros [_ Hi] Ho' Et. split; [done|]. unfold supervised, idle in *. cbn [with_lcp_loop lcp_state lcp_echo lcp_loop]. by rewrite Et.
Qed.

Lemma is_echo_false h t d u : h ≠ LcpEchoTimeout_ptr → h ≠ LcpEchoRequestTimer_ptr → is_echo (mk_timeout t d u h) = false.
Proof. intros H1 H2. unfold is_echo. cbn. by rewrite !(proj2 (Z.eqb_neq _ _)). Qed.

Lemma cancel_foreign e h d u :
  h ≠ LcpEchoTimeout_ptr → h ≠ LcpEchoRequestTimer_ptr → echo_timers (snd (eloop_cancel_timeout e h d u)) = echo_timers e.
Proof.
  intros H1 H2. unfold eloop_cancel_timeout, echo_timers. rewrite cancel_loop_spec. cbn [snd timeouts with_timeouts].
  rewrite list_filter_filter. apply list_filter_iff. intros x. unfold is_echo, cancelled.
  destruct (Z.eqb_spec (t_handler x) h) as [->|]; cbn [andb negb]; [|split; [tauto|split; [done|exact I]]].
  rewrite !(proj2 (Z.eqb_neq _ _)) by done. cbn. tauto.
Qed.

Definition valid_reply (got : lcp_options) (ev : echo_event) : bool :=
  match ev with
  | Extcode code _ inp => (code =? ECHOREP) && (4 <=? Z.of_nat (length inp)) && negb (neg_magicnumber got && (get32 inp 0 =? magicnumber got))
  | _ => false
  end.

Lemma extcode_spec code id inp w :
  let '(_, w', c) := lcp_extcode code id inp w in
  w' = (if valid_reply (lcp_gotoptions w) (Extcode code id inp) then on_echo (λ e, with_pending e 0) w else w) ∧ (Close ∉ c) ∧ (∀ i d, Sdata ECHOREQ i d ∉ c).
Proof.
  unfold lcp_extcode, valid_reply. destruct (Z.eqb_spec code PROTREJ) as [->|]; [|destruct (Z.eqb_spec code ECHOREQ) as [->|]; [|destruct (code =? ECHOREP); [|destruct (code =? DISCREQ)]]].
  - split; [done|]. unfold lcp_rprotrej. destruct (_ <? _); [split; intros; apply not_elem_of_nil|]. destruct (decide _); split; intros; rewrite ?list_elem_of_singleton; try done; apply not_elem_of_nil.
  - split; [done|]. destruct (decide _); split; intros; rewrite ?list_elem_of_singleton; try done; apply not_elem_of_nil.
  - cbn [andb]. unfold lcp_received_echo_reply. rewrite Z.leb_antisym. destruct (_ <? 4); cbn [negb andb]; [split; [done|]; split; intros; apply not_elem_of_nil|].
    destruct (_ && _); cbn [negb]; (split; [done|]; split; intros; apply not_elem_of_nil).
  - split; [done|]. split; intros; apply not_elem_of_nil.
  - split; [done|]. split; intros; apply not_elem_of_nil.
Qed.

(** The pending requests do not decide on the invariant. *)
Lemma pending_inv w n : echo_inv w → echo_inv (on_echo (λ e, with_pending e n) w).
Proof. intros [H1 H2]. by split. Qed.

(** A step.  When the timeout of a request expires with fewer requests pending than are
    tolerated, or something else happens, the link is not closed. *)
Definition tolerated (ev : echo_event) (w : lcp) : Prop :=
  expires ev w = true → lcp_echos_pending (lcp_echo w) < lcp_echo_fails (lcp_echo w).

Definition asks (c : lcp_call) : bool := match c with Sdata code _ _ => code =? ECHOREQ | _ => false end.

Lemma step_inv ev w :
  echo_inv w → fair w ev →
  ∃ w' c, echo_step o ev w = Ok (w', c) ∧ echo_inv w'
    ∧ (expires ev w = true → stage_ok (lcp_echo w))
    ∧ (tolerated ev w →
       (Close ∉ c)
       ∧ (existsb asks c = false →
          lcp_echos_pending (lcp_echo w') = 0
          ∨ valid_reply (lcp_gotoptions w) ev = false ∧ lcp_echos_pending (lcp_echo w') = lcp_echos_pending (lcp_echo w))
       ∧ ((∀ v, ev ≠ Down v) → (∃ now, ev = Up now) ∨ lcp_state w = OPENED → lcp_state w' = OPENED)).
Proof.
  intros Hi Hf. destruct ev as [now|v|now|code id inp|now secs usecs h d u|h d u]; cbn [echo_step fair] in *.
  - destruct Hf as [Hc Hs]. unfold lcp_echo_lowerup. set (w1 := on_echo _ (with_lcp_state w OPENED)). destruct Hi as [Hw Hi].
    rewrite decide_False in Hi by (by intros [? _]). destruct Hi as (_ & _ & Hn). change (lcp_echo_interval (lcp_echo w1)) with (lcp_echo_interval_1 o).
    destruct (Z.eqb_spec (lcp_echo_interval_1 o) 0) as [H0|H0]; cbn [negb].
    + eexists _, _. split; [reflexivity|]. split; [split; [exact Hw|]; rewrite decide_False by (by intros [_ ?]); by split|].
      split; [done|]. intros _. split; [apply not_elem_of_nil|]. by split; [left|].
    + destruct (check_inv now w1 Hc Hw eq_refl H0 Hn ltac:(by left)) as (w' & c & E & Hinv & Hcl & Hsd & Hs' & _). exists w', c.
      split; [exact E|]. split; [done|]. split; [done|]. intros _. split; [done|]. split; [|done]. intros Hx. exfalso.
      assert (Hy : existsb asks c = true) by (apply existsb_exists; eexists; by split; [apply list_elem_of_In, Hsd|]). by rewrite Hx in Hy.
  - destruct (lowerdown_idle w (proj1 Hi) (inv_either w Hi)) as (H1 & H2 & _ & H3). eexists _, _. split; [reflexivity|]. split.
    + split; [exact H1|]. by rewrite decide_False by (by intros [? _]).
    + split; [done|]. intros _. split; [apply not_elem_of_nil|]. split; [by right|]. intros H. by destruct (H v).
  - destruct (expire_step now w Hf Hi) as (w' & c & E & Hi' & _ & H1 & H2 & H3 & H4). exists w', c. split; [exact E|]. split; [done|]. split; [done|].
    intros Ht. unfold tolerated in Ht. destruct (expires (Expire now) w) eqn:Ex.
    + destruct (H2 eq_refl (Ht eq_refl)) as (-> & Hs & Hp). split; [apply not_elem_of_nil|]. split; [by right|]. intros _ [[? ?]|Ho']; [done|]. by rewrite Hs.
    + destruct (H1 eq_refl) as (Hcl & Hs & Hp). split; [done|]. split; [|intros _ [[? ?]|Ho']; [done|by rewrite Hs]].
      destruct H4 as [->|[->|(i & ->)]]; [right; split; [done|by apply Hp]|exfalso; apply Hcl; left|done].
  - pose proof (extcode_spec code id inp w) as He. destruct (lcp_extcode code id inp w) as [[k w'] c]. destruct He as (-> & Hcl & Hsd).
    eexists _, _. split; [reflexivity|]. split; [by destruct (valid_reply _ _); [apply pending_inv|]|]. split; [done|]. intros _. split; [done|].
    destruct (valid_reply _ _); (split; [by (left + right)|]); by intros _ [[? ?]|?].
  - destruct Hf as (Ht & H1 & H2). unfold eloop_register_timeout. cbn [negb]. pose proof (timeout_at_ok now secs usecs) as Ex. rewrite Ht in Ex. destruct Ex as [x Ex]. rewrite Ex, !bind_ret.
    eexists _, _. split; [reflexivity|]. split.
    + apply foreign_inv; [done|by apply insert_timeout_in_order; destruct Hi|]. apply filter_insert_other; [by destruct Hi|by apply is_echo_false].
    + split; [done|]. intros _. split; [apply not_elem_of_nil|]. split; [by right|]. by intros _ [[? ?]|?].
  - destruct Hf as [H1 H2]. eexists _, _. split; [reflexivity|]. split.
    + apply foreign_inv; [done|by apply cancel_in_order; destruct Hi|by apply cancel_foreign].
    + split; [done|]. intros _. split; [apply not_elem_of_nil|]. split; [by right|]. by intros _ [[? ?]|?].
Qed.

(** ** Runs *)

(** The surroundings are fair in every step of a run. *)
Fixpoint fair_run (l : list echo_event) (w : lcp) : Prop :=
  match l with
  | [] => True
  | ev :: l => fair w ev ∧ ∀ w' c, echo_step o ev w = Ok (w', c) → fair_run l w'
  end.

End props.

(** A daemon whose link is down. *)
Definition link_is_down (w : lcp) : Prop := lcp_state w ≠ OPENED ∧ in_order (timeouts (lcp_loop w)) ∧ idle w.

Lemma down_inv o w : link_is_down w → echo_inv o w.
Proof. intros (Hs & Hw & Hi). split; [done|]. by rewrite decide_False by (by intros [? _]). Qed.

(** Where no timeout is longer than its interval, in every run: while the link is up
    the timer of the next request is set, once, and the timeout of the last request is
    pending, once and first, exactly if the variable says so; while it is down no timer of
    LCP is set. *)
Theorem echo_supervises (o : echo_options) (l : list echo_event) (w : lcp) :
  calm o → link_is_down w → fair_run o l w →
  ∃ w' c, echo_run o l w = Ok (w', c)
    ∧ (lcp_state w' = OPENED → lcp_echo_interval_1 o ≠ 0 → supervised o w') ∧ (lcp_state w' ≠ OPENED → idle w').
Proof.
  intros Ho Hd. assert (Hi : echo_inv o w) by (by apply down_inv). clear Hd. revert w Hi. induction l as [|ev l IH]; intros w Hi Hf.
  - eexists _, _. split; [reflexivity|]. destruct Hi as [_ Hi]. split.
    + intros H1 H2. by rewrite decide_True in Hi.
    + intros H1. by rewrite decide_False in Hi by (by intros [? _]).
  - destruct Hf as [Hev Hf]. destruct (step_inv o Ho ev w Hi Hev) as (w1 & c1 & E1 & Hi1 & _).
    destruct (IH w1 Hi1 (Hf _ _ E1)) as (w' & c & E & H). exists w', (c1 ++ c). split; [|done].
    cbn [echo_run]. by rewrite E1, bind_ret, E, bind_ret.
Qed.

(** ** A peer that answers

    For all options: what counts is how many requests have been sent since the last
    answer. *)

Section answering.
Context (o : echo_options) (Ho : timed o).

Lemma stage_timed e : stage_ok o e → in_range (lcp_timeout e) ∧ in_range (lcp_echo_interval e).
Proof. destruct Ho. by intros [(_ & -> & _ & ->)|(_ & _ & -> & _ & ->)]. Qed.

(** A request is sent, and both timers are set, whatever is in the list. *)
Lemma check_eq now w :
  clock now → lcp_state w = OPENED → stage_ok o (lcp_echo w) →
  let e := lcp_echo w in
  LcpEchoCheck now w
  = Ok (mk_lcp OPENED (mk_echo (lcp_echos_pending e + 1) (lcp_echo_number e + 1) true true (lcp_echo_state e)
                         (lcp_echo_interval e) (lcp_echo_fails e) (lcp_timeout e))
          (with_timeouts (lcp_loop w)
             (insert_timeout (echo_timer LcpEchoRequestTimer_ptr (mk_timeval (tv_sec now + lcp_echo_interval e) (tv_usec now)))
                (insert_timeout (echo_timer LcpEchoTimeout_ptr (mk_timeval (tv_sec now + lcp_timeout e) (tv_usec now)))
                   (timeouts (lcp_loop w))))) (lcp_gotoptions w),
        [Sdata ECHOREQ (u8 (lcp_echo_number e)) (PUTLONG (magicnumber (lcp_gotoptions w)))]).
Proof.
  intros Hc Hs Hst e. destruct (stage_timed _ Hst) as [Ht Hi]. destruct w as [v e' loop got]. cbn in *. subst v e.
  unfold LcpEchoCheck, LcpSendEchoRequest. cbn [lcp_state lcp_echo lcp_gotoptions]. rewrite decide_True by done. cbn [on_echo lcp_state]. rewrite decide_True by done.
  rewrite TIMEOUT_ok by done. rewrite bind_ret. rewrite TIMEOUT_ok by done. by rewrite bind_ret.
Qed.

(** The number of requests that a peer may leave unanswered in either stage. *)
Definition tolerance : Z :=
  if decide (lcp_echo_interval_2 o = 0) then lcp_echo_fails_1 o else Z.min (lcp_echo_fails_1 o) (lcp_echo_fails_2 o).

Lemma tolerance_fails e : stage_ok o e → tolerance ≤ lcp_echo_fails e.
Proof. unfold tolerance. intros [(_ & _ & -> & _)|(_ & ? & _ & -> & _)]; case_decide; try done; lia. Qed.

Definition asked (c : list lcp_call) : Z := Z.of_nat (length (filter asks c)).

(** The requests since the last answer. *)
Definition outstanding (n : Z) (ev : echo_event) (w : lcp) (c : list lcp_call) : Z :=
  match ev with
  | Up _ => asked c
  | _ => if valid_reply (lcp_gotoptions w) ev then 0 else n + asked c
  end.

(** The surroundings are fair, and whenever the timeout of a request expires, fewer
    requests than are tolerated have been sent since the last answer. *)
Fixpoint answered_run (n : Z) (l : list echo_event) (w : lcp) : Prop :=
  match l with
  | [] => True
  | ev :: l =>
      fair w ev ∧ (expires ev w = true → n < tolerance)
      ∧ ∀ w' c, echo_step o ev w = Ok (w', c) → answered_run (outstanding n ev w c) l w'
  end.

(** While the link is up the variable counts these requests; while it is down the
    handlers do nothing. *)
Definition counts (n : Z) (w : lcp) : Prop :=
  if decide (lcp_state w = OPENED) then stage_ok o (lcp_echo w) ∧ lcp_echos_pending (lcp_echo w) = n
  else lcp_echo_timer_running (lcp_echo w) = false ∧ lcp_echoreq_running (lcp_echo w) = false.

Lemma counts_open n w : lcp_state w = OPENED → counts n w → stage_ok o (lcp_echo w) ∧ lcp_echos_pending (lcp_echo w) = n.
Proof. intros Hs Hc. unfold counts in Hc. by rewrite decide_True in Hc. Qed.

Lemma counts_loop n w e : counts n w → counts n (with_lcp_loop w e).
Proof. done. Qed.

(** A step that leaves the count as it was. *)
Definition quiet (n : Z) (w w' : lcp) (c : list lcp_call) : Prop := counts n w' ∧ c = [] ∧ lcp_state w' = lcp_state w.

Lemma timeout_counts n now w :
  counts n w → n < tolerance → ∃ w' c, LcpEchoTimeout o now w = Ok (w', c) ∧ quiet n w w' c.
Proof.
  intros Hc Hn. unfold LcpEchoTimeout. destruct (lcp_echo_timer_running (lcp_echo w)) eqn:Eb; [|by eexists _, _].
  unfold counts in Hc. case_decide as Hs; [|by destruct Hc as [Hc _]; rewrite Eb in Hc]. destruct Hc as [Hst Hp].
  pose proof (tolerance_fails _ Hst). rewrite (proj2 (Z.leb_gt _ _)) by lia.
  destruct (Z.eqb_spec (lcp_echos_pending (lcp_echo w)) 0); eexists _, _; (split; [reflexivity|]); (split; [|done]);
    unfold counts; rewrite decide_True by done; (split; [|done]); [by left|done].
Qed.

Lemma request_counts n now w :
  clock now → counts n w → ∃ w' c, LcpEchoRequestTimer now w = Ok (w', c)
    ∧ counts (n + asked c) w' ∧ (Close ∉ c) ∧ lcp_state w' = lcp_state w.
Proof.
  intros Hclk Hc. unfold LcpEchoRequestTimer. destruct (lcp_echoreq_running (lcp_echo w)) eqn:Eb.
  2: { eexists _, _. split; [reflexivity|]. rewrite Z.add_0_r. split; [done|]. split; [apply not_elem_of_nil|done]. }
  unfold counts in Hc. case_decide as Hs; [|by destruct Hc as [_ Hc]; rewrite Eb in Hc]. destruct Hc as [Hst Hp].
  set (w1 := on_echo _ w). rewrite (check_eq now w1 Hclk Hs Hst). eexists _, _. split; [reflexivity|].
  split; [|split; [by rewrite list_elem_of_singleton|by rewrite Hs]]. unfold counts. cbn [lcp_state]. rewrite decide_True by done.
  split; [exact Hst|]. cbn [lcp_echo lcp_echos_pending w1 on_echo with_echoreq_running]. by rewrite Hp.
Qed.

Lemma extcode_asks code id inp w : let '(_, _, c) := lcp_extcode code id inp w in asked c = 0.
Proof.
  unfold lcp_extcode. destruct (code =? PROTREJ).
  { unfold lcp_rprotrej. destruct (_ <? _); [done|]. by destruct (decide _). }
  destruct (code =? ECHOREQ); [by destruct (decide _)|]. destruct (code =? ECHOREP); [done|]. by destruct (code =? DISCREQ).
Qed.

Lemma step_counts n ev w :
  counts n w → fair w ev → (expires ev w = true → n < tolerance) →
  ∃ w' c, echo_step o ev w = Ok (w', c) ∧ counts (outstanding n ev w c) w' ∧ (Close ∉ c)
    ∧ ((∀ v, ev ≠ Down v) → (∃ now, ev = Up now) ∨ lcp_state w = OPENED → lcp_state w' = OPENED).
Proof.
  intros Hi Hf Hn. destruct ev as [now|v|now|code id inp|now secs usecs h d u|h d u]; cbn [echo_step fair outstanding valid_reply] in *.
  - destruct Hf as [Hc _]. unfold lcp_echo_lowerup. set (w1 := on_echo _ (with_lcp_state w OPENED)).
    destruct (negb _); [rewrite (check_eq now w1 Hc eq_refl ltac:(by left))|]; eexists _, _; (split; [reflexivity|]);
      (split; [unfold counts; rewrite decide_True by done; split; [by left|done]|]); (split; [|done]).
    + by rewrite list_elem_of_singleton.
    + apply not_elem_of_nil.
  - eexists _, _. split; [reflexivity|]. split; [|split; [apply not_elem_of_nil|intros H; by destruct (H v)]].
    unfold counts. cbn [with_lcp_state lcp_state]. rewrite decide_False by done. unfold lcp_echo_lowerdown.
    destruct (lcp_echo_timer_running (lcp_echo w)) eqn:E1; cbn [lcp_echo UNTIMEOUT with_lcp_loop on_echo with_timer_running lcp_echoreq_running with_lcp_state];
      destruct (lcp_echoreq_running (lcp_echo w)) eqn:E2; cbn; by rewrite ?E1, ?E2.
  - rewrite lcp_expire_spec. unfold expires in Hn. destruct (timeouts (lcp_loop w)) as [|t l] eqn:Et.
    { eexists _, _. split; [reflexivity|]. rewrite Z.add_0_r. split; [done|]. split; [apply not_elem_of_nil|]. by intros _ [[? ?]|?]. }
    destruct (timer_ge now (t_time t)); cbn [andb] in Hn.
    2: { eexists _, _. split; [reflexivity|]. rewrite Z.add_0_r. split; [done|]. split; [apply not_elem_of_nil|]. by intros _ [[? ?]|?]. }
    pose proof (counts_loop n w (with_timeouts (lcp_loop w) l) Hi) as Hi'. unfold call_handler. destruct (t_handler t =? LcpEchoTimeout_ptr).
    + destruct (timeout_counts n now _ Hi' (Hn eq_refl)) as (w' & c & E & Hw & -> & Hs). exists w', []. split; [exact E|]. rewrite Z.add_0_r.
      split; [done|]. split; [apply not_elem_of_nil|]. intros _ [[? ?]|?]; [done|by rewrite Hs].
    + destruct (t_handler t =? LcpEchoRequestTimer_ptr).
      * destruct (request_counts n now _ Hf Hi') as (w' & c & E & Hw & Hcl & Hs). exists w', c. split; [exact E|]. split; [done|]. split; [done|].
        intros _ [[? ?]|?]; [done|by rewrite Hs].
      * eexists _, _. split; [reflexivity|]. rewrite Z.add_0_r. split; [done|]. split; [apply not_elem_of_nil|]. by intros _ [[? ?]|?].
  - pose proof (extcode_spec code id inp w) as He. pose proof (extcode_asks code id inp w) as Ha. destruct (lcp_extcode code id inp w) as [[k w'] c].
    destruct He as (-> & Hcl & _). eexists _, _. split; [reflexivity|]. unfold valid_reply. cbv beta iota. rewrite Ha, Z.add_0_r. split; [|split; [done|]].
    + destruct (_ && _ && _); [|exact Hi]. revert Hi. unfold counts. cbn [on_echo lcp_state]. destruct (decide (lcp_state w = OPENED)); [|done].
      by intros [Hst _].
    + destruct (_ && _ && _); by intros _ [[? ?]|?].
  - destruct Hf as (Ht & _). unfold eloop_register_timeout. cbn [negb]. pose proof (timeout_at_ok now secs usecs) as Ex. rewrite Ht in Ex.
    destruct Ex as [x Ex]. rewrite Ex, !bind_ret. eexists _, _. split; [reflexivity|]. rewrite Z.add_0_r. split; [done|]. split; [apply not_elem_of_nil|]. by intros _ [[? ?]|?].
  - eexists _, _. split; [reflexivity|]. rewrite Z.add_0_r. split; [done|]. split; [apply not_elem_of_nil|]. by intros _ [[? ?]|?].
Qed.
End answering.


(** ** The echo requests of LCP: a silent peer

    When nothing arrives, the link is closed after a time that the options determine. *)

Section silent.
Context (o : echo_options).

(** [n] turns of a loop that is never late, while nothing arrives: each timeout is called
    at its time.  The calls are listed with their time. *)
Fixpoint silent (n : nat) (w : lcp) : res (lcp * list (timeval * lcp_call)) :=
  match n, timeouts (lcp_loop w) with
  | S n, t :: _ =>
      '(w, c) ← lcp_expire o (t_time t) w;
      '(w, c') ← silent n w;
      mret (w, (pair (t_time t) <$> c) ++ c')
  | _, _ => mret (w, [])
  end.

Lemma silent_step n w t l w' c :
  timeouts (lcp_loop w) = t :: l → lcp_expire o (t_time t) w = Ok (w', c) →
  silent (S n) w = '(w2, c') ← silent n w'; mret (w2, (pair (t_time t) <$> c) ++ c').
Proof. intros Et E. cbn [silent]. by rewrite Et, E, bind_ret. Qed.

Lemma silent_app n m w w' c :
  silent n w = Ok (w', c) → silent (n + m) w = '(w2, c') ← silent m w'; mret (w2, c ++ c').
Proof.
  revert w w' c. induction n as [|n IH]; intros w w' c E; cbn [Nat.add silent] in *.
  - injection E as <- <-. destruct (silent m w) as [[w2 c']| |]; done.
  - destruct (timeouts (lcp_loop w)) as [|t l] eqn:Et.
    + injection E as <- <-. destruct m; cbn [silent]; by rewrite ?Et.
    + destruct (lcp_expire o (t_time t) w) as [[w1 c1]| |] eqn:E1; [|done|done]. rewrite bind_ret in E |- *.
      destruct (silent n w1) as [[w2 c2]| |] eqn:E2; [|done|done]. rewrite bind_ret in E. injection E as <- <-.
      rewrite (IH w1 w2 c2 E2). destruct (silent m w2) as [[w3 c3]| |]; [|done|done]. rewrite !bind_ret. by rewrite app_assoc.
Qed.

Context (Ho : calm o).

Abbreviation T at_ := (echo_timer LcpEchoTimeout_ptr at_).
Abbreviation R at_ := (echo_timer LcpEchoRequestTimer_ptr at_).

(** [secs] after [t]. *)
Definition after (t : timeval) (secs : Z) : timeval := mk_timeval (tv_sec t + secs) (tv_usec t).

Lemma after_after t a b : after (after t a) b = after t (a + b).
Proof. unfold after. cbn. f_equal. lia. Qed.

Lemma after_0 t : after t 0 = t.
Proof. unfold after. destruct t. cbn. f_equal. lia. Qed.

(** A request has been sent at [t], and [e] are the variables since. *)
Record just_asked (t : timeval) (e : echo) (w : lcp) : Prop := {
  ja_state : lcp_state w = OPENED;
  ja_echo : lcp_echo w = e;
  ja_flags : lcp_echo_timer_running e = true ∧ lcp_echoreq_running e = true;
  ja_stage : stage_ok o e;
  ja_timers : timeouts (lcp_loop w) = [T (after t (lcp_timeout e)); R (after t (lcp_echo_interval e))] }.

(** What it sends. *)
Definition asks_at (got : lcp_options) (t : timeval) (n : Z) : timeval * lcp_call :=
  (t, Sdata ECHOREQ (u8 n) (PUTLONG (magicnumber got))).

Definition one_more (e : echo) : echo := with_timer_running (with_number (with_pending e (lcp_echos_pending e + 1)) (lcp_echo_number e + 1)) true.

Lemma timer_ge_refl t : timer_ge t t = true.
Proof. rewrite timer_ge_nlt, negb_true_iff, timer_nlt_spec. lia. Qed.

(** The request is sent with an empty loop. *)
Lemma check_asks t w :
  clock t → lcp_state w = OPENED → timeouts (lcp_loop w) = [] → stage_ok o (lcp_echo w) →
  ∃ w', LcpEchoCheck t w = Ok (w', [snd (asks_at (lcp_gotoptions w) t (lcp_echo_number (lcp_echo w)))])
    ∧ just_asked t (with_echoreq_running (one_more (lcp_echo w)) true) w' ∧ lcp_gotoptions w' = lcp_gotoptions w.
Proof.
  intros Hc Hs Hn Hst. destruct (check_spec o Ho t w Hc ltac:(rewrite Hn; constructor) Hs ltac:(unfold echo_timers; by rewrite Hn) Hst) as (l & E & _ & Hf & Hl).
  eexists. split; [exact E|]. split; [|done]. split; [done|done|done|exact Hst|]. cbn [lcp_loop timeouts with_timeouts]. by rewrite (Hl Hn), Hf.
Qed.

(** An interval without an answer, while more are tolerated: the timeout passes and the next
    request is sent. *)
Lemma interval_step t e w :
  clock (after t (lcp_timeout e)) → clock (after t (lcp_echo_interval e)) → just_asked t e w → 0 < lcp_echos_pending e < lcp_echo_fails e →
  ∃ w', silent 2 w = Ok (w', [asks_at (lcp_gotoptions w) (after t (lcp_echo_interval e)) (lcp_echo_number e)])
    ∧ just_asked (after t (lcp_echo_interval e)) (one_more e) w' ∧ lcp_gotoptions w' = lcp_gotoptions w.
Proof.
  intros Hct Hci [Hs He [Hb Hr] Hst Ht] Hp.
  set (w1 := mk_lcp OPENED (with_timer_running e false) (with_timeouts (lcp_loop w) [R (after t (lcp_echo_interval e))]) (lcp_gotoptions w)).
  assert (E1 : lcp_expire o (after t (lcp_timeout e)) w = Ok (w1, [])).
  { rewrite lcp_expire_spec, Ht. cbn [t_time echo_timer]. rewrite timer_ge_refl. unfold call_handler, LcpEchoTimeout. change (lcp_echo (popped w _)) with (lcp_echo w). rewrite He, Hb.
    cbn [t_handler echo_timer]. rewrite Z.eqb_refl. rewrite (proj2 (Z.leb_gt _ _)) by lia. rewrite (proj2 (Z.eqb_neq _ _)) by lia.
    unfold w1, popped, on_echo, with_lcp_loop. cbn. by rewrite Hs, He. }
  set (w2 := mk_lcp OPENED (with_echoreq_running (with_timer_running e false) false) (with_timeouts (lcp_loop w) []) (lcp_gotoptions w)).
  destruct (check_asks (after t (lcp_echo_interval e)) w2) as (w3 & E3 & Hj & Hg); [done|done|done|exact Hst|].
  assert (E2 : lcp_expire o (after t (lcp_echo_interval e)) w1 = Ok (w3, [snd (asks_at (lcp_gotoptions w) (after t (lcp_echo_interval e)) (lcp_echo_number e))])).
  { rewrite lcp_expire_spec. cbn [w1 lcp_loop timeouts with_timeouts t_time echo_timer]. rewrite timer_ge_refl. unfold call_handler, LcpEchoRequestTimer.
    cbn [t_handler echo_timer]. cbn [Z.eqb LcpEchoRequestTimer_ptr LcpEchoTimeout_ptr Pos.eqb]. change (lcp_echo (popped w1 _)) with (with_timer_running e false).
    cbn [lcp_echoreq_running with_timer_running]. rewrite Hr. exact E3. }
  exists w3. split.
  - rewrite (silent_step 1 w _ _ _ _ Ht E1). rewrite (silent_step 0 w1 (R (after t (lcp_echo_interval e))) [] _ _ eq_refl E2). reflexivity.
  - split; [|done]. assert (Ee : with_echoreq_running (one_more (lcp_echo w2)) true = one_more e).
    { unfold one_more. cbn. unfold with_echoreq_running, with_timer_running, with_number, with_pending. cbn. by rewrite Hr. }
    by rewrite Ee in Hj.
Qed.

(** The parameters in use are the same. *)
Definition same_stage (e e' : echo) : Prop :=
  lcp_echo_state e' = lcp_echo_state e ∧ lcp_echo_interval e' = lcp_echo_interval e
  ∧ lcp_echo_fails e' = lcp_echo_fails e ∧ lcp_timeout e' = lcp_timeout e.

Abbreviation all_ask c := (Forall (λ x, asks (snd x) = true) c).

(** As many intervals as it takes until too many requests are pending. *)
Lemma stage_waits (k : nat) t e w :
  clock t → just_asked t e w → 0 < lcp_echos_pending e → lcp_echo_fails e = lcp_echos_pending e + Z.of_nat k →
  tv_sec t + Z.of_nat k * lcp_echo_interval e + lcp_timeout e < 1000000000 →
  ∃ w' e' c, silent (2 * k) w = Ok (w', c) ∧ just_asked (after t (Z.of_nat k * lcp_echo_interval e)) e' w'
    ∧ lcp_echos_pending e' = lcp_echo_fails e ∧ same_stage e e' ∧ lcp_gotoptions w' = lcp_gotoptions w ∧ length c = k ∧ all_ask c.
Proof.
  revert t e w. induction k as [|k IH]; intros t e w Hc Hj Hp Hf Hb.
  - exists w, e, []. split; [done|]. rewrite Z.mul_0_l, after_0. split; [done|]. split; [lia|]. by split.
  - destruct (stage_times o Ho e (ja_stage _ _ _ Hj)) as [Ht Hi]. destruct Hc as [Hu Hs].
    assert (Hki : 0 ≤ Z.of_nat k * lcp_echo_interval e) by (apply Z.mul_nonneg_nonneg; lia).
    destruct (interval_step t e w) as (w1 & E1 & Hj1 & Hg1); [split; cbn; lia|split; cbn; lia|done|lia|].
    destruct (IH (after t (lcp_echo_interval e)) (one_more e) w1) as (w' & e' & c & E & Hj' & Hp' & Hst & Hg & Hl & Hall);
      [split; cbn; lia|done|cbn; lia|cbn; lia|cbn; lia|].
    exists w', e'. eexists. split; [|split; [|split; [exact Hp'|]]].
    + replace (2 * S k)%nat with (2 + 2 * k)%nat by lia. rewrite (silent_app 2 (2 * k) w w1 _ E1), E, bind_ret. reflexivity.
    + rewrite after_after in Hj'. replace (Z.of_nat (S k) * lcp_echo_interval e) with (lcp_echo_interval e + Z.of_nat k * lcp_echo_interval (one_more e)) by (cbn [one_more with_timer_running with_number with_pending lcp_echo_interval]; lia). done.
    + split; [exact Hst|]. split; [by rewrite Hg|]. split; [cbn; by rewrite Hl|]. by constructor.
Qed.

(** Then the timeout ends the first stage ... *)
Lemma stage_ends t e w :
  clock (after t (lcp_timeout e)) → just_asked t e w → lcp_echo_fails e ≤ lcp_echos_pending e →
  lcp_echo_state e = 0 → lcp_echo_interval_2 o ≠ 0 →
  ∃ w' e' c, silent 1 w = Ok (w', [c]) ∧ asks (snd c) = true ∧ just_asked (after t (lcp_timeout e)) e' w' ∧ lcp_echos_pending e' = 1
    ∧ lcp_echo_state e' = 1 ∧ lcp_echo_interval e' = lcp_echo_interval_2 o ∧ lcp_echo_fails e' = lcp_echo_fails_2 o ∧ lcp_timeout e' = lcp_timeout_2 o.
Proof.
  intros Hc [Hs He [Hb Hr] Hst Ht] Hp H0 H2.
  set (e2 := with_pending (with_stage (with_echoreq_running (with_timer_running e false) false) 1 (lcp_echo_interval_2 o) (lcp_echo_fails_2 o) (lcp_timeout_2 o)) 0).
  set (w2 := mk_lcp OPENED e2 (with_timeouts (lcp_loop w) []) (lcp_gotoptions w)).
  destruct (check_asks (after t (lcp_timeout e)) w2) as (w3 & E3 & Hj & _); [done|done|done|right; done|].
  assert (E : lcp_expire o (after t (lcp_timeout e)) w = Ok (w3, [snd (asks_at (lcp_gotoptions w) (after t (lcp_timeout e)) (lcp_echo_number e))])).
  { rewrite lcp_expire_spec, Ht. cbn [t_time echo_timer]. rewrite timer_ge_refl. unfold call_handler, LcpEchoTimeout. change (lcp_echo (popped w _)) with (lcp_echo w). rewrite He, Hb.
    cbn [t_handler echo_timer]. rewrite Z.eqb_refl. rewrite (proj2 (Z.leb_le _ _)) by lia. rewrite H0, (proj2 (Z.eqb_neq (lcp_echo_interval_2 o) 0)) by done. cbn [Z.eqb negb andb]. rewrite Hr.
    match goal with |- LcpEchoCheck _ ?w' = _ => assert (Ew : w' = w2) end; [|by rewrite Ew].
    unfold w2, e2, UNTIMEOUT, eloop_cancel_timeout. rewrite cancel_loop_spec. unfold popped, on_echo, with_lcp_loop. cbn. by rewrite Hs, He, H0. }
  exists w3. eexists _, _. split; [rewrite (silent_step 0 w _ _ _ _ Ht E); reflexivity|]. split; [done|]. split; [exact Hj|]. done.
Qed.

(** ... and the link. *)
Lemma stage_fails t e w :
  just_asked t e w → lcp_echo_fails e ≤ lcp_echos_pending e → lcp_echo_state e = 1 ∨ lcp_echo_interval_2 o = 0 →
  ∃ w', silent 1 w = Ok (w', [(after t (lcp_timeout e), Close)]) ∧ lcp_state w' = CLOSING ∧ timeouts (lcp_loop w') = [].
Proof.
  intros [Hs He [Hb Hr] Hst Ht] Hp H2.
  assert (E : ∃ w', lcp_expire o (after t (lcp_timeout e)) w = Ok (w', [Close]) ∧ lcp_state w' = CLOSING ∧ timeouts (lcp_loop w') = []).
  { rewrite lcp_expire_spec, Ht. cbn [t_time echo_timer]. rewrite timer_ge_refl. unfold call_handler, LcpEchoTimeout. change (lcp_echo (popped w _)) with (lcp_echo w). rewrite He, Hb.
    cbn [t_handler echo_timer]. rewrite Z.eqb_refl. rewrite (proj2 (Z.leb_le _ _)) by lia.
    replace ((lcp_echo_state e =? 0) && negb (lcp_echo_interval_2 o =? 0)) with false by (destruct H2 as [-> | ->]; by rewrite ?andb_false_r).
    unfold LcpLinkFailure. rewrite decide_True by done. eexists. split; [reflexivity|]. split; [done|].
    unfold lcp_echo_lowerdown. cbn [on_echo lcp_echo popped with_lcp_loop with_timer_running lcp_echo_timer_running lcp_echoreq_running]. rewrite He. cbn [lcp_echoreq_running]. rewrite Hr.
    cbn [with_lcp_state lcp_loop on_echo]. unfold UNTIMEOUT, eloop_cancel_timeout. rewrite cancel_loop_spec. reflexivity. }
  destruct E as (w' & E & H). exists w'. split; [|exact H]. by rewrite (silent_step 0 w _ _ _ _ Ht E).
Qed.
End silent.

(** ** A silent peer, with any options *)

Section impatient.
Context (o : echo_options) (Ho : timed o) (now : timeval) (Hnow : clock now).

Abbreviation T x := (echo_timer LcpEchoTimeout_ptr (after now x)).
Abbreviation R x := (echo_timer LcpEchoRequestTimer_ptr (after now x)).

(** At [u] seconds the link is up and nothing has arrived: the next request is scheduled at
    [r], timeouts of requests are due at [ys].  The last request that is
    tolerated is sent at [lo], and then there is a timeout that is due at [dl] at the latest. *)
Record waits (lo dl u r : Z) (ys : list Z) (w : lcp) : Prop := {
  wt_state : lcp_state w = OPENED;
  wt_running : lcp_echoreq_running (lcp_echo w) = true;
  wt_stage : stage_ok o (lcp_echo w);
  wt_interval : 1 ≤ lcp_echo_interval (lcp_echo w);
  wt_dl : dl = lo + lcp_timeout (lcp_echo w);
  wt_order : in_order (timeouts (lcp_loop w));
  wt_timers : timeouts (lcp_loop w) ≡ₚ R r :: ((λ y, T y) <$> ys);
  wt_later : 0 ≤ u ≤ r ∧ Forall (λ y, u ≤ y) ys;
  wt_pending : 1 ≤ lcp_echos_pending (lcp_echo w);
  wt_few : lcp_echos_pending (lcp_echo w) < lcp_echo_fails (lcp_echo w) →
    r = lo - (lcp_echo_fails (lcp_echo w) - 1 - lcp_echos_pending (lcp_echo w)) * lcp_echo_interval (lcp_echo w);
  wt_many : lcp_echo_fails (lcp_echo w) ≤ lcp_echos_pending (lcp_echo w) →
    lo ≤ u ∧ lcp_echo_timer_running (lcp_echo w) = true ∧ ∃ y, y ∈ ys ∧ y ≤ dl }.

Lemma due_before_offset h h' x y : due_before (echo_timer h (after now x)) (echo_timer h' (after now y)) → x ≤ y.
Proof. unfold due_before. rewrite timer_nlt_spec. cbn. lia. Qed.

(** The head of the list: it is not after any other timer. *)
Lemma head_least w t l h x :
  in_order (timeouts (lcp_loop w)) → timeouts (lcp_loop w) = t :: l → t ∈ timeouts (lcp_loop w) →
  echo_timer h (after now x) ∈ timeouts (lcp_loop w) → due_before t (echo_timer h (after now x)).
Proof.
  intros Hi Et _ Hx. rewrite Et in *. apply StronglySorted_inv in Hi as [_ Hi]. rewrite Forall_forall in Hi.
  apply elem_of_cons in Hx as [->|Hx]; [unfold due_before; rewrite timer_nlt_spec; lia|by apply Hi].
Qed.

(** The parameters of the stage. *)
Definition params (e : echo) : Z * Z * Z * Z := (lcp_echo_state e, lcp_echo_interval e, lcp_echo_fails e, lcp_timeout e).

(** A request is sent at [x]. *)
Lemma check_waits x ys w :
  clock (after now x) → 0 ≤ x → lcp_state w = OPENED → stage_ok o (lcp_echo w) → in_order (timeouts (lcp_loop w)) →
  timeouts (lcp_loop w) ≡ₚ ((λ y, T y) <$> ys) →
  ∃ w' c, LcpEchoCheck (after now x) w = Ok (w', [c]) ∧ asks c = true ∧ lcp_state w' = OPENED
    ∧ lcp_echos_pending (lcp_echo w') = lcp_echos_pending (lcp_echo w) + 1
    ∧ lcp_echo_timer_running (lcp_echo w') = true ∧ lcp_echoreq_running (lcp_echo w') = true
    ∧ params (lcp_echo w') = params (lcp_echo w) ∧ stage_ok o (lcp_echo w')
    ∧ in_order (timeouts (lcp_loop w'))
    ∧ timeouts (lcp_loop w') ≡ₚ R (x + lcp_echo_interval (lcp_echo w))
        :: ((λ y, T y) <$> (x + lcp_timeout (lcp_echo w)) :: ys).
Proof.
  intros Hc Hx Hs Hst Hin Hp. eexists _, _. split; [exact (check_eq o Ho _ w Hc Hs Hst)|]. split; [done|].
  do 5 (split; [done|]). split; [exact Hst|]. split; [by do 2 apply insert_timeout_in_order|].
  cbn [lcp_loop timeouts with_timeouts]. rewrite !insert_timeout_perm, Hp.
  change (mk_timeval (tv_sec (after now x) + ?a) (tv_usec (after now x))) with (after (after now x) a).
  rewrite !after_after. done.
Qed.

(** A turn of the loop: it is in the middle of the stage, or at its end. *)
Lemma waits_turn lo dl u r ys w :
  tv_sec now + dl < 1000000000 → waits lo dl u r ys w →
  ∃ t l x, timeouts (lcp_loop w) = t :: l ∧ t_time t = after now x ∧ u ≤ x ≤ dl ∧
    ((∃ w' c r' ys', lcp_expire o (after now x) w = Ok (w', c) ∧ waits lo dl x r' ys' w'
        ∧ forallb asks c = true ∧ lcp_echos_pending (lcp_echo w') = lcp_echos_pending (lcp_echo w) + Z.of_nat (length c)
        ∧ params (lcp_echo w') = params (lcp_echo w)
        ∧ (Z.to_nat (2 * (dl + 1 - r')) + length ys' < Z.to_nat (2 * (dl + 1 - r)) + length ys)%nat)
     ∨ (∃ ys', t = T x ∧ ys ≡ₚ x :: ys' ∧ lo ≤ x ∧ lcp_echo_fails (lcp_echo w) ≤ lcp_echos_pending (lcp_echo w)
        ∧ lcp_echo_timer_running (lcp_echo w) = true)).
Proof.
  intros Hb Hw. pose proof Hw as [Hs Hr Hst Hi1 Hdl Hin Hp [Hu Hys] Hpd Hfew Hmany]. destruct (stage_timed o Ho _ Hst) as [Ht Hi].
  unfold in_range in Ht, Hi. destruct Hnow as [Hus Hsec]. set (e := lcp_echo w) in *.
  destruct (timeouts (lcp_loop w)) as [|t l] eqn:Et; [by apply Permutation_nil_cons in Hp|]. exists t, l.
  assert (Hleast : ∀ h x, echo_timer h (after now x) ∈ R r :: ((λ y, T y) <$> ys) → due_before t (echo_timer h (after now x))).
  { intros h x Hx. rewrite <- Hp, <- Et in Hx. eapply (head_least w t l); [by rewrite Et|done|rewrite Et; left|done]. }
  (* what the head is, and that it is not after [dl] *)
  assert (Hmem : t ∈ R r :: ((λ y, T y) <$> ys)) by (rewrite <- Hp; left).
  assert (Hrd : lcp_echos_pending e < lcp_echo_fails e → r ≤ dl).
  { intros Hlt. rewrite (Hfew Hlt). assert (0 ≤ (lcp_echo_fails e - 1 - lcp_echos_pending e) * lcp_echo_interval e) by (apply Z.mul_nonneg_nonneg; lia). lia. }
  assert (Hhd : ∀ h x, t = echo_timer h (after now x) → x ≤ dl).
  { intros h x ->. destruct (Z.lt_ge_cases (lcp_echos_pending e) (lcp_echo_fails e)) as [Hlt|Hge].
    - pose proof (Hleast LcpEchoRequestTimer_ptr r ltac:(left)) as Hd. apply due_before_offset in Hd. specialize (Hrd Hlt). lia.
    - destruct (Hmany Hge) as (_ & _ & y & Hy & Hyd). pose proof (Hleast LcpEchoTimeout_ptr y ltac:(right; by apply (list_elem_of_fmap_2 (λ y, T y)))) as Hd.
      apply due_before_offset in Hd. lia. }
  apply elem_of_cons in Hmem as [->|Hmem].
  - (* the next request *)
    exists r. split; [done|]. split; [done|]. specialize (Hhd _ _ eq_refl). split; [lia|]. left.
    apply Permutation_cons_inv in Hp. set (w1 := on_echo (λ e, with_echoreq_running e false) (popped w l)).
    destruct (check_waits r ys w1) as (w' & c & E & Hask & Hs' & Hp' & Hb' & Hr' & Hpar & Hst' & Hin' & Hperm);
      [split; cbn; lia|lia|done|exact Hst|cbn; by apply StronglySorted_inv in Hin as [? _]|done|].
    assert (Hpar' : lcp_echo_interval (lcp_echo w') = lcp_echo_interval e ∧ lcp_echo_fails (lcp_echo w') = lcp_echo_fails e ∧ lcp_timeout (lcp_echo w') = lcp_timeout e)
      by (unfold params in Hpar; by injection Hpar as _ -> -> ->).
    destruct Hpar' as (P1 & P2 & P3). change (lcp_echo_interval (lcp_echo w1)) with (lcp_echo_interval e) in Hperm. change (lcp_timeout (lcp_echo w1)) with (lcp_timeout e) in Hperm.
    change (lcp_echos_pending (lcp_echo w1)) with (lcp_echos_pending e) in Hp'.
    exists w', [c], (r + lcp_echo_interval e), ((r + lcp_timeout e) :: ys). split; [|split; [|split; [by cbn; rewrite Hask|split; [by rewrite Hp'|split; [exact Hpar|cbn; lia]]]]].
    + rewrite lcp_expire_spec, Et. cbn [t_time echo_timer]. rewrite timer_ge_refl. unfold call_handler, LcpEchoRequestTimer.
      cbn [t_handler echo_timer]. cbn [Z.eqb LcpEchoRequestTimer_ptr LcpEchoTimeout_ptr Pos.eqb]. change (lcp_echo (popped w l)) with e. rewrite Hr. exact E.
    + split; rewrite ?P1, ?P2, ?P3, ?Hp'; try done; try lia.
      * split; [lia|]. constructor; [lia|]. pose proof (λ y, Hleast LcpEchoTimeout_ptr y) as Hl. apply Forall_forall. intros y Hy.
        specialize (Hl y ltac:(right; by apply (list_elem_of_fmap_2 (λ y, T y)))). by apply due_before_offset in Hl.
      * intros Hge. destruct (Z.lt_ge_cases (lcp_echos_pending e) (lcp_echo_fails e)) as [Hlt|Hge'].
        -- assert (Er : r = lo) by (rewrite (Hfew Hlt); replace (lcp_echo_fails e - 1 - lcp_echos_pending e) with 0 by lia; lia).
           split; [lia|]. split; [done|]. exists (r + lcp_timeout e). split; [left|lia].
        -- destruct (Hmany Hge') as (H1 & _ & y & Hy & Hyd). split; [lia|]. split; [done|]. exists y. split; [by right|done].
  - (* a timeout *)
    apply list_elem_of_fmap in Hmem as (x & -> & Hx). exists x. split; [done|]. split; [done|]. specialize (Hhd _ _ eq_refl).
    assert (Hux : u ≤ x) by (rewrite Forall_forall in Hys; by apply Hys). split; [lia|].
    apply elem_of_Permutation in Hx as [ys' Hys'].
    assert (Hl : l ≡ₚ R r :: ((λ y, T y) <$> ys')) by (rewrite Hys' in Hp; cbn in Hp; rewrite perm_swap in Hp; by apply Permutation_cons_inv in Hp).
    pose proof Hin as Hin2. apply StronglySorted_inv in Hin2 as [Hinl _].
    assert (Hlater : x ≤ r ∧ Forall (λ y, x ≤ y) ys').
    { split; [pose proof (Hleast _ r ltac:(left)) as Hd; by apply due_before_offset in Hd|]. apply Forall_forall. intros y Hy.
      pose proof (Hleast LcpEchoTimeout_ptr y ltac:(right; apply (list_elem_of_fmap_2 (λ y, T y)); rewrite Hys'; by right)) as Hd. by apply due_before_offset in Hd. }
    assert (Hlen : length ys = S (length ys')) by (by rewrite Hys').
    assert (Eexp : lcp_expire o (after now x) w = LcpEchoTimeout o (after now x) (popped w l)).
    { rewrite lcp_expire_spec, Et. cbn [t_time echo_timer]. rewrite timer_ge_refl. unfold call_handler. cbn [t_handler echo_timer]. by rewrite Z.eqb_refl. }
    unfold LcpEchoTimeout in Eexp. change (lcp_echo (popped w l)) with e in Eexp. destruct (lcp_echo_timer_running e) eqn:Eb.
    + destruct (Z.lt_ge_cases (lcp_echos_pending e) (lcp_echo_fails e)) as [Hlt|Hge].
      * left. rewrite (proj2 (Z.leb_gt _ _)) in Eexp by lia. rewrite (proj2 (Z.eqb_neq _ _)) in Eexp by lia.
        eexists _, [], r, ys'. split; [exact Eexp|]. split; [|split; [done|split; [by rewrite Z.add_0_r|split; [done|lia]]]].
        split; try done; [split; [lia|apply Hlater]|cbn; fold e; intros; lia].
      * right. exists ys'. split; [done|]. split; [done|]. split; [|done]. destruct (Hmany Hge) as (H1 & _). lia.
    + left. eexists _, [], r, ys'. split; [exact Eexp|]. split; [|split; [done|split; [by rewrite Z.add_0_r|split; [done|lia]]]].
      split; try done; [split; [lia|apply Hlater]|]. cbn. fold e. intros Hge. destruct (Hmany Hge) as (_ & H2 & _). by rewrite H2 in Eb.
Qed.
(** A stage goes on until its limit is exceeded. *)
Lemma stage_any (n : nat) lo dl u r ys w :
  tv_sec now + dl < 1000000000 → (Z.to_nat (2 * (dl + 1 - r)) + length ys ≤ n)%nat → waits lo dl u r ys w →
  ∃ k w' c x u' r' ys' ys'' l, silent o k w = Ok (w', c) ∧ forallb (λ x, asks (snd x)) c = true
    ∧ lcp_echos_pending (lcp_echo w') = lcp_echos_pending (lcp_echo w) + Z.of_nat (length c)
    ∧ params (lcp_echo w') = params (lcp_echo w) ∧ waits lo dl u' r' ys' w'
    ∧ timeouts (lcp_loop w') = T x :: l ∧ ys' ≡ₚ x :: ys'' ∧ lo ≤ x ≤ dl ∧ u' ≤ x
    ∧ lcp_echo_fails (lcp_echo w') ≤ lcp_echos_pending (lcp_echo w') ∧ lcp_echo_timer_running (lcp_echo w') = true.
Proof.
  revert u r ys w. induction n as [n IH] using lt_wf_ind. intros u r ys w Hb Hn Hw.
  destruct (waits_turn lo dl u r ys w Hb Hw) as (t & l & x & Et & Ex & Hx & [(w1 & c1 & r1 & ys1 & E1 & Hw1 & Ha1 & Hp1 & Hpar1 & Hm)|(ys' & -> & Hys & Hlo & Hp & Hf)]).
  - destruct (IH (Z.to_nat (2 * (dl + 1 - r1)) + length ys1)%nat ltac:(lia) x r1 ys1 w1 Hb ltac:(lia) Hw1)
      as (k & w' & c & y & u' & r' & ys' & ys'' & l' & E & Ha & Hp & Hpar & H).
    exists (S k), w', ((pair (t_time t) <$> c1) ++ c), y, u', r', ys', ys'', l'. split; [|split; [|split; [|split; [by rewrite Hpar|exact H]]]].
    + rewrite (silent_step o k w t l w1 c1 Et) by (by rewrite Ex). by rewrite E, bind_ret.
    + rewrite forallb_app, Ha, andb_true_r. clear -Ha1. induction c1 as [|c0 c1 IH1]; [done|]. cbn in *. apply andb_true_iff in Ha1 as [-> Ha1]. by apply IH1.
    + rewrite length_app, length_fmap. lia.
  - exists 0%nat, w, [], x, u, r, ys, ys', l. split; [done|]. split; [done|]. split; [cbn; lia|]. split; [done|]. split; [done|]. by split_and!; try lia.
Qed.

(** The end of the first stage, where there is a second one. *)
Lemma next_stage lo dl u r ys w x l ys' :
  tv_sec now + dl < 1000000000 → waits lo dl u r ys w → timeouts (lcp_loop w) = T x :: l → ys ≡ₚ x :: ys' →
  lo ≤ x ≤ dl → u ≤ x → lcp_echo_fails (lcp_echo w) ≤ lcp_echos_pending (lcp_echo w) → lcp_echo_timer_running (lcp_echo w) = true →
  lcp_echo_state (lcp_echo w) = 0 → 1 ≤ lcp_echo_interval_2 o → 1 ≤ lcp_echo_fails_2 o →
  let lo2 := x + (lcp_echo_fails_2 o - 1) * lcp_echo_interval_2 o in
  ∃ w' c ys2, silent o 1 w = Ok (w', [(after now x, c)]) ∧ asks c = true ∧ lcp_echos_pending (lcp_echo w') = 1
    ∧ params (lcp_echo w') = (1, lcp_echo_interval_2 o, lcp_echo_fails_2 o, lcp_timeout_2 o)
    ∧ waits lo2 (lo2 + lcp_timeout_2 o) x (x + lcp_echo_interval_2 o) ys2 w'.
Proof.
  intros Hb [Hs Hr Hst Hi1 Hdl Hin Hp [Hu Hys] Hpd _ _] Et Hys' Hx Hux Hge Hf H0 Hi2 Hf2 lo2.
  rewrite Et in Hin, Hp. assert (Hl : l ≡ₚ R r :: ((λ y, T y) <$> ys')) by (rewrite Hys' in Hp; cbn in Hp; rewrite perm_swap in Hp; by apply Permutation_cons_inv in Hp).
  pose proof Hin as Hin2. apply StronglySorted_inv in Hin2 as [Hinl Hle]. destruct Hnow as [Hus Hsec].
  set (l2 := filter (λ t, negb (cancelled LcpEchoRequestTimer_ptr NULL lcp_fsm_ptr t)) l).
  assert (Hl2 : l2 ≡ₚ ((λ y, T y) <$> ys')).
  { unfold l2. rewrite Hl, filter_cons, decide_False by (cbn; tauto). clear. induction ys' as [|y ys' IH]; [done|].
    cbn [fmap list_fmap]. rewrite filter_cons, decide_True by done. by rewrite IH. }
  set (e2 := with_pending (with_stage (with_echoreq_running (with_timer_running (lcp_echo w) false) false) 1 (lcp_echo_interval_2 o) (lcp_echo_fails_2 o) (lcp_timeout_2 o)) 0).
  set (w2 := mk_lcp OPENED e2 (with_timeouts (lcp_loop w) l2) (lcp_gotoptions w)).
  destruct (check_waits x ys' w2) as (w3 & c & E3 & Hask & Hs3 & Hp3 & Hb3 & Hr3 & Hpar3 & Hst3 & Hin3 & Hperm3);
    [split; cbn; lia|lia|done|right; split; [done|split; [lia|done]]|by apply filter_in_order|done|].
  assert (E : lcp_expire o (after now x) w = Ok (w3, [c])).
  { rewrite lcp_expire_spec, Et. cbn [t_time echo_timer]. rewrite timer_ge_refl. unfold call_handler, LcpEchoTimeout. change (lcp_echo (popped w l)) with (lcp_echo w). rewrite Hf.
    cbn [t_handler echo_timer]. rewrite Z.eqb_refl. rewrite (proj2 (Z.leb_le _ _)) by lia. rewrite H0, (proj2 (Z.eqb_neq (lcp_echo_interval_2 o) 0)) by lia. cbn [Z.eqb negb andb]. rewrite Hr.
    match goal with |- LcpEchoCheck _ ?w' = _ => assert (Ew : w' = w2) end; [|by rewrite Ew].
    unfold w2, e2, l2, UNTIMEOUT, eloop_cancel_timeout. rewrite cancel_loop_spec. unfold popped, on_echo, with_lcp_loop. cbn. by rewrite Hs, H0. }
  cbn [w2 lcp_echo e2 with_pending with_stage lcp_echo_interval lcp_timeout lcp_echos_pending] in Hperm3, Hp3.
  assert (Hpar : lcp_echo_interval (lcp_echo w3) = lcp_echo_interval_2 o ∧ lcp_echo_fails (lcp_echo w3) = lcp_echo_fails_2 o ∧ lcp_timeout (lcp_echo w3) = lcp_timeout_2 o)
    by (unfold params in Hpar3; by injection Hpar3 as _ -> -> ->).
  destruct Hpar as (P1 & P2 & P3).
  exists w3, c, ((x + lcp_timeout_2 o) :: ys'). split; [by rewrite (silent_step o 0 w _ _ _ _ Et E)|]. split; [done|]. split; [done|]. split; [exact Hpar3|].
  destruct Ho as [_ _ Ht2 _]. unfold in_range in Ht2.
  assert (Hlater : Forall (λ y, x ≤ y) ys').
  { apply Forall_forall. intros y Hy. rewrite Forall_forall in Hle. pose proof (Hle (T y)) as Hd.
    apply (due_before_offset LcpEchoTimeout_ptr LcpEchoTimeout_ptr), Hd. rewrite Hl. right. by apply (list_elem_of_fmap_2 (λ y, T y)). }
  split; rewrite ?P1, ?P2, ?P3, ?Hp3; try done; try lia.
  - split; [lia|]. constructor; [lia|done].
  - intros Hge2. assert (lo2 = x) by (unfold lo2; replace (lcp_echo_fails_2 o - 1) with 0 by lia; lia). split; [lia|]. split; [done|]. exists (x + lcp_timeout_2 o). split; [left|lia].
Qed.

(** The end of the last stage. *)
Lemma last_stage lo dl u r ys w x l :
  waits lo dl u r ys w → timeouts (lcp_loop w) = T x :: l →
  lcp_echo_fails (lcp_echo w) ≤ lcp_echos_pending (lcp_echo w) → lcp_echo_timer_running (lcp_echo w) = true →
  lcp_echo_state (lcp_echo w) = 1 ∨ lcp_echo_interval_2 o = 0 →
  ∃ w', silent o 1 w = Ok (w', [(after now x, Close)]) ∧ lcp_state w' = CLOSING.
Proof.
  intros Hw Et Hge Hf H2.
  assert (E : ∃ w', lcp_expire o (after now x) w = Ok (w', [Close]) ∧ lcp_state w' = CLOSING).
  { rewrite lcp_expire_spec, Et. cbn [t_time echo_timer]. rewrite timer_ge_refl. unfold call_handler, LcpEchoTimeout. change (lcp_echo (popped w l)) with (lcp_echo w). rewrite Hf.
    cbn [t_handler echo_timer]. rewrite Z.eqb_refl. rewrite (proj2 (Z.leb_le _ _)) by lia.
    replace ((lcp_echo_state (lcp_echo w) =? 0) && negb (lcp_echo_interval_2 o =? 0)) with false by (destruct H2 as [-> | ->]; by rewrite ?andb_false_r).
    unfold LcpLinkFailure. rewrite decide_True by exact (wt_state _ _ _ _ _ _ Hw). eexists. by split. }
  destruct E as (w' & E & H). exists w'. split; [|exact H]. by rewrite (silent_step o 0 w _ _ _ _ Et E).
Qed.
End impatient.

(** The time from the start of the supervision until a silent peer is given up. *)
Definition patience (o : echo_options) : Z :=
  (lcp_echo_fails_1 o - 1) * lcp_echo_interval_1 o + lcp_timeout_1 o
  + if decide (lcp_echo_interval_2 o = 0) then 0 else (lcp_echo_fails_2 o - 1) * lcp_echo_interval_2 o + lcp_timeout_2 o.

(** The requests after the first one. *)
Definition attempts (o : echo_options) : Z :=
  lcp_echo_fails_1 o - 1 + if decide (lcp_echo_interval_2 o = 0) then 0 else lcp_echo_fails_2 o.

(** A lower bound on it. *)
Definition earliest (o : echo_options) : Z :=
  (lcp_echo_fails_1 o - 1) * lcp_echo_interval_1 o
  + if decide (lcp_echo_interval_2 o = 0) then 0 else (lcp_echo_fails_2 o - 1) * lcp_echo_interval_2 o.

(** Where no timeout is longer than its interval the time is exact. *)
Lemma silence_exact (o : echo_options) (w : lcp) (now : timeval) :
  calm o → lcp_echo_interval_1 o ≠ 0 → 1 ≤ lcp_echo_fails_1 o → (lcp_echo_interval_2 o ≠ 0 → 1 ≤ lcp_echo_fails_2 o) →
  link_is_down w → timeouts (lcp_loop w) = [] → clock now → tv_sec now + patience o < 1000000000 →
  ∃ w0 c0 n w' c, echo_step o (Up now) w = Ok (w0, [c0]) ∧ asks c0 = true
    ∧ silent o n w0 = Ok (w', c ++ [(after now (patience o), Close)])
    ∧ Forall (λ x, asks (snd x) = true) c ∧ Z.of_nat (length c) = attempts o
    ∧ lcp_state w' = CLOSING ∧ timeouts (lcp_loop w') = [].
Proof.
  intros Ho Hi H1 H2 Hd Hn Hc Hb. cbn [echo_step]. unfold lcp_echo_lowerup. set (w1 := on_echo _ (with_lcp_state w OPENED)).
  change (lcp_echo_interval (lcp_echo w1)) with (lcp_echo_interval_1 o). rewrite (proj2 (Z.eqb_neq _ _)) by done. cbn [negb].
  assert (Hs1 : stage_ok o (lcp_echo w1)) by (by left).
  destruct (check_asks o Ho now w1) as (w0 & E0 & Hj0 & Hg0); [done|done|done|done|].
  set (e0 := with_echoreq_running (one_more (lcp_echo w1)) true) in Hj0. clear Hs1.
  assert (Hparams : lcp_echos_pending e0 = 1 ∧ lcp_echo_state e0 = 0 ∧ lcp_echo_interval e0 = lcp_echo_interval_1 o
    ∧ lcp_echo_fails e0 = lcp_echo_fails_1 o ∧ lcp_timeout e0 = lcp_timeout_1 o) by done.
  clearbody e0. destruct Hparams as (P1 & P2 & P3 & P4 & P5). destruct (calm_1 _ Ho) as [Ht1 Hi1], (calm_2 _ Ho) as [Ht2 Hi2].
  unfold patience, attempts in *. destruct Hc as [Hu Hs].
  assert (M1 : 0 ≤ (lcp_echo_fails_1 o - 1) * lcp_echo_interval_1 o) by (apply Z.mul_nonneg_nonneg; lia).
  assert (M2 : 0 ≤ (lcp_echo_fails_2 o - 1) * lcp_echo_interval_2 o).
  { destruct (decide (lcp_echo_interval_2 o = 0)) as [-> | Hz]; [lia|]. specialize (H2 Hz). apply Z.mul_nonneg_nonneg; lia. }
  set (k1 := Z.to_nat (lcp_echo_fails_1 o - 1)). assert (Hk1 : Z.of_nat k1 = lcp_echo_fails_1 o - 1) by lia. clearbody k1.
  assert (M1' : Z.of_nat k1 * lcp_echo_interval_1 o = (lcp_echo_fails_1 o - 1) * lcp_echo_interval_1 o) by (by rewrite Hk1).
  destruct (stage_waits o Ho k1 now e0 w0) as (w2 & e2 & c1 & E1 & Hj1 & Hp1 & (S1 & S2 & S3 & S4) & _ & Hl1 & Ha1);
    [by split|done|lia|lia|rewrite P3, P5, M1'; case_decide; lia|]. rewrite P3, M1' in Hj1.
  exists w0. eexists. destruct (decide (lcp_echo_interval_2 o = 0)) as [Hz|Hz].
  - destruct (stage_fails o _ e2 w2 Hj1) as (w3 & E2 & H3); [lia|by right|].
    exists (2 * k1 + 1)%nat, w3, c1. split; [exact E0|]. split; [done|]. split; [|split; [done|split; [lia|exact H3]]].
    rewrite (silent_app o _ 1 w0 w2 _ E1), E2, bind_ret. rewrite after_after, S4, P5, Z.add_0_r. done.
  - specialize (H2 Hz). set (k2 := Z.to_nat (lcp_echo_fails_2 o - 1)). assert (Hk2 : Z.of_nat k2 = lcp_echo_fails_2 o - 1) by lia. clearbody k2.
    assert (M2' : Z.of_nat k2 * lcp_echo_interval_2 o = (lcp_echo_fails_2 o - 1) * lcp_echo_interval_2 o) by (by rewrite Hk2).
    set (t1 := after now ((lcp_echo_fails_1 o - 1) * lcp_echo_interval_1 o)) in *.
    destruct (stage_ends o Ho t1 e2 w2) as (w3 & e3 & c2 & E2 & Ha2 & Hj2 & Q1 & Q2 & Q3 & Q4 & Q5);
      [split; cbn; lia|done|lia|lia|done|].
    set (t2 := after t1 (lcp_timeout e2)) in *.
    destruct (stage_waits o Ho k2 t2 e3 w3) as (w4 & e4 & c3 & E3 & Hj3 & Hp3 & (T1 & T2 & T3 & T4) & _ & Hl3 & Ha3);
      [split; cbn; lia|done|lia|lia|cbn; rewrite Q3, Q5, M2'; lia|]. subst t2 t1. rewrite Q3, M2' in Hj3.
    destruct (stage_fails o _ e4 w4 Hj3) as (w5 & E4 & H5); [lia|left; lia|].
    exists (2 * k1 + (1 + (2 * k2 + 1)))%nat, w5, (c1 ++ c2 :: c3). split; [exact E0|]. split; [done|]. split; [|split; [|split; [|exact H5]]].
    + rewrite (silent_app o _ _ w0 w2 _ E1), (silent_app o 1 _ w2 w3 _ E2), (silent_app o _ 1 w3 w4 _ E3), E4, !bind_ret.
      rewrite !after_after, S4, P5, T4, Q5. rewrite <- !app_assoc. cbn [app]. do 6 f_equal. unfold after. f_equal. f_equal. lia.
    + rewrite Forall_app. split; [done|]. by constructor.
    + rewrite length_app. cbn [length]. lia.
Qed.

(** With any options the time is bounded. *)
Lemma silence_bounded (o : echo_options) (w : lcp) (now : timeval) :
  timed o → lcp_echo_interval_1 o ≠ 0 → 1 ≤ lcp_echo_fails_1 o → (lcp_echo_interval_2 o ≠ 0 → 1 ≤ lcp_echo_fails_2 o) →
  link_is_down w → timeouts (lcp_loop w) = [] → clock now → tv_sec now + patience o < 1000000000 →
  ∃ w0 c0 n w' c d, echo_step o (Up now) w = Ok (w0, [c0]) ∧ asks c0 = true
    ∧ silent o n w0 = Ok (w', c ++ [(after now d, Close)])
    ∧ forallb (λ x, asks (snd x)) c = true ∧ attempts o ≤ Z.of_nat (length c)
    ∧ lcp_state w' = CLOSING ∧ earliest o ≤ d ≤ patience o.
Proof.
  intros Ho Hi H1 H2 Hd Hn Hc Hb. cbn [echo_step]. unfold lcp_echo_lowerup. set (w1 := on_echo _ (with_lcp_state w OPENED)).
  change (lcp_echo_interval (lcp_echo w1)) with (lcp_echo_interval_1 o). rewrite (proj2 (Z.eqb_neq _ _)) by done. cbn [negb].
  pose proof Ho as [Ht1 Hi1 Ht2 Hi2]. unfold in_range in *.
  destruct (check_waits o Ho now 0 [] w1) as (w0 & c0 & E0 & Ha0 & Hs0 & Hp0 & Hb0 & Hr0 & Hpar0 & Hst0 & Hin0 & Hperm0);
    [by rewrite after_0|done|done|by left|change (timeouts (lcp_loop w1)) with (timeouts (lcp_loop w)); rewrite Hn; constructor
    |change (timeouts (lcp_loop w1)) with (timeouts (lcp_loop w)); by rewrite Hn|].
  rewrite after_0 in E0. set (lo := (lcp_echo_fails_1 o - 1) * lcp_echo_interval_1 o) in *. set (dl := lo + lcp_timeout_1 o).
  change (params (lcp_echo w1)) with (0, lcp_echo_interval_1 o, lcp_echo_fails_1 o, lcp_timeout_1 o) in Hpar0.
  change (lcp_echos_pending (lcp_echo w1)) with 0 in Hp0. change (lcp_timeout (lcp_echo w1)) with (lcp_timeout_1 o) in Hperm0.
  change (lcp_echo_interval (lcp_echo w1)) with (lcp_echo_interval_1 o) in Hperm0.
  pose proof Hpar0 as Hpar. unfold params in Hpar. injection Hpar as P0 P1 P2 P3.
  assert (Hw0 : waits o now lo dl 0 (0 + lcp_echo_interval_1 o) [0 + lcp_timeout_1 o] w0).
  { split; rewrite ?P1, ?P2, ?P3, ?Hp0; try done; try lia.
    - split; [lia|]. constructor; [lia|constructor].
    - intros Hge. assert (lo = 0) by (unfold lo; replace (lcp_echo_fails_1 o - 1) with 0 by lia; lia). split; [lia|]. split; [done|].
      exists (0 + lcp_timeout_1 o). split; [left|lia]. }
  assert (Hd2 : 0 ≤ patience o - dl ∧ 0 ≤ earliest o - lo).
  { unfold patience, earliest. fold lo. case_decide as Hz; [lia|]. specialize (H2 Hz).
    assert (0 ≤ (lcp_echo_fails_2 o - 1) * lcp_echo_interval_2 o) by (apply Z.mul_nonneg_nonneg; lia). lia. }
  destruct (stage_any o Ho now Hc _ lo dl _ _ _ w0 ltac:(lia) (le_n _) Hw0)
    as (k & w2 & c & x & u2 & r2 & ys2 & ys3 & l & E & Hac & Hpc & Hparc & Hw2 & Et & Hys & Hx & Hux & Hge & Hf).
  rewrite Hpar0 in Hparc. pose proof Hparc as Hpar. unfold params in Hpar. injection Hpar as Q0 Q1 Q2 Q3. rewrite Hp0 in Hpc.
  destruct (decide (lcp_echo_interval_2 o = 0)) as [Hz|Hz].
  - destruct (last_stage o now _ _ _ _ _ w2 x l Hw2 Et Hge Hf (or_intror Hz)) as (w' & E' & Hs').
    exists w0, c0, (k + 1)%nat, w', c, x. split; [exact E0|]. split; [done|]. split; [by rewrite (silent_app o k 1 w0 w2 c E), E', bind_ret|].
    split; [done|]. unfold attempts, earliest, patience. rewrite !decide_True by done. fold lo. split; [lia|]. split; [done|lia].
  - specialize (H2 Hz).
    destruct (next_stage o Ho now Hc lo dl _ _ _ w2 x l ys3 ltac:(lia) Hw2 Et Hys Hx Hux Hge Hf Q0 ltac:(lia) H2)
      as (w3 & c3 & ys4 & E3 & Ha3 & Hp3 & Hpar3 & Hw3).
    set (lo2 := x + (lcp_echo_fails_2 o - 1) * lcp_echo_interval_2 o) in *.
    assert (Hpt : lo2 + lcp_timeout_2 o ≤ patience o ∧ earliest o ≤ lo2) by (unfold patience, earliest, lo2; rewrite !decide_False by done; fold lo; lia).
    destruct (stage_any o Ho now Hc _ lo2 (lo2 + lcp_timeout_2 o) _ _ _ w3 ltac:(lia) (le_n _) Hw3)
      as (k4 & w4 & c4 & x4 & u4 & r4 & ys5 & ys6 & l4 & E4 & Hac4 & Hpc4 & Hparc4 & Hw4 & Et4 & _ & Hx4 & _ & Hge4 & Hf4).
    rewrite Hpar3 in Hparc4. unfold params in Hparc4. injection Hparc4 as R0 R1 R2 R3. rewrite Hp3 in Hpc4.
    destruct (last_stage o now _ _ _ _ _ w4 x4 l4 Hw4 Et4 Hge4 Hf4 (or_introl R0)) as (w' & E' & Hs').
    exists w0, c0, (k + (1 + (k4 + 1)))%nat, w', (c ++ (after now x, c3) :: c4), x4. split; [exact E0|]. split; [done|]. split; [|split; [|split; [|split; [done|lia]]]].
    + rewrite (silent_app o k _ w0 w2 c E), (silent_app o 1 _ w2 w3 _ E3), (silent_app o k4 1 w3 w4 c4 E4), E', !bind_ret.
      by rewrite <- !app_assoc.
    + rewrite forallb_app, Hac. cbn. by rewrite Ha3.
    + unfold attempts. rewrite decide_False by done. rewrite length_app. cbn [length]. lia.
Qed.


(** ** The echo requests of LCP: evaluations

    The options that the router's scripts write, options that are left out, and the
    theorems at concrete inputs. *)

(** The options of scripts/ppp-setup.sh, those of the router's own ppp_setup.php, and
    an interval with a timeout but without [lcp-echo-failure]. *)
Definition script_options : echo_options := mk_echo_options 30 1 10 10 6 10.
Definition router_options : echo_options := mk_echo_options 30 1 10 6 6 10.
Definition no_failure : echo_options := mk_echo_options 30 0 10 0 0 0.

Definition at_sec (s : Z) : timeval := mk_timeval s 0.
Definition fresh : lcp :=
  mk_lcp INITIAL (mk_echo 0 0 false false 0 0 0 0) (eloop_init 0) (set_neg_magicnumber no_options true 7).

(** The link comes up at 100 seconds and the peer is silent. *)
Definition from_up (o : echo_options) (n : nat) : res (lcp * list (timeval * lcp_call)) :=
  '(w, _) ← echo_step o (Up (at_sec 100)) fresh; silent o n w.

(** The times of the calls, and whether they close the link; and the timeouts that are left. *)
Definition is_close (c : lcp_call) : bool := match c with Close => true | _ => false end.
Definition closes (r : res (lcp * list (timeval * lcp_call))) : option (list (Z * bool) * list (Z * Z)) :=
  match r with
  | Ok (w, c) => Some ((λ x, (tv_sec (fst x), is_close (snd x))) <$> c,
                       (λ t, (t_handler t, tv_sec (t_time t))) <$> timeouts (lcp_loop w))
  | _ => None
  end.

Example script_patience :
  patience script_options = 70
  ∧ closes (from_up script_options 20)
    = Some ([(110, false); (120, false); (130, false); (140, false); (150, false); (160, false); (170, true)], []).
Proof. split; vm_compute; reflexivity. Qed.

(** With the options of the router the second timeout is longer than the interval: the sixth
    request, at 40 seconds, is not waited for, the link is closed at 44, and a timeout
    stays behind, due at 50. *)
Example router_closes_early :
  patience router_options = 50
  ∧ closes (from_up router_options 11)
    = Some ([(110, false); (116, false); (122, false); (128, false); (134, false); (140, false); (144, true)],
            [(LcpEchoTimeout_ptr, 150)]).
Proof. split; vm_compute; reflexivity. Qed.

(** If the link comes up again before that, the timeout of the old request counts for the
    new one, which has had a second: the second set of options takes over. *)
Definition stage_of (r : res (lcp * list lcp_call)) : option (Z * Z) :=
  match r with Ok (w, _) => Some (lcp_echo_state (lcp_echo w), lcp_echo_interval (lcp_echo w)) | _ => None end.
Example router_stale_timeout :
  stage_of ('(w, _) ← from_up router_options 11; echo_run router_options [Down STARTING; Up (at_sec 149)] w) = Some (0, 30)
  ∧ stage_of ('(w, _) ← from_up router_options 11; echo_run router_options [Down STARTING; Up (at_sec 149); Expire (at_sec 150)] w)
    = Some (1, 6).
Proof. split; vm_compute; reflexivity. Qed.

(** Without [lcp-echo-failure] a peer that answers every request is given up at the first
    timeout. *)
Definition a_reply : echo_event := Extcode ECHOREP 1 (PUTLONG 8).
Example no_failure_closes :
  (match echo_run no_failure [Up (at_sec 100); a_reply; Expire (at_sec 110)] fresh with
   | Ok (w, [Sdata _ _ _; Close]) => bool_decide (lcp_state w = CLOSING)
   | _ => false end) = true.
Proof. vm_compute. reflexivity. Qed.

(** ** The theorems at concrete inputs *)

Lemma script_calm : calm script_options.
Proof. by constructor. Qed.

Lemma router_timed : timed router_options.
Proof. by constructor. Qed.

Lemma fresh_down : link_is_down fresh.
Proof. split; [done|]. split; [constructor|done]. Qed.

Definition first_reply : list echo_event := [Up (at_sec 100); a_reply; Expire (at_sec 110); Expire (at_sec 130)].

Lemma at_sec_clock s : 0 ≤ s < 1000000000 → clock (at_sec s).
Proof. split; cbn; lia. Qed.

Lemma first_reply_answered : answered_run router_options 0 first_reply fresh.
Proof.
  unfold first_reply. cbn [answered_run].
  split; [split; [by apply at_sec_clock|done]|]. split; [done|]. intros w1 c1 [= <- <-].
  split; [exact I|]. split; [done|]. intros w2 c2 [= <- <-].
  split; [by apply at_sec_clock|]. split; [done|]. intros w3 c3 [= <- <-].
  split; [by apply at_sec_clock|]. by split.
Qed.

Lemma first_reply_fair : fair_run script_options first_reply fresh.
Proof.
  unfold first_reply. cbn [fair_run].
  split; [split; [by apply at_sec_clock|done]|]. intros w1 c1 [= <- <-].
  split; [exact I|]. intros w2 c2 [= <- <-]. split; [by apply at_sec_clock|]. intros w3 c3 [= <- <-].
  by split; [by apply at_sec_clock|].
Qed.

Lemma echo_supervises_witness :
  ∃ w' c, echo_run script_options first_reply fresh = Ok (w', c)
    ∧ (lcp_state w' = OPENED → lcp_echo_interval_1 script_options ≠ 0 → supervised script_options w') ∧ (lcp_state w' ≠ OPENED → idle w').
Proof.
  apply (echo_supervises script_options first_reply fresh); [exact script_calm|exact fresh_down|exact first_reply_fair].
Defined.


