(* ===== verification/PppHdlc.v ===== *)
(** * Frames of PPP on a serial line (progs.gpl/pppd.alpha: ppp_fcs.c, the HDLC part of
    pptp/pptp_gre.c, l2tp/async-pppd.c)

    The PPTP and the L2TP client talk to the PPP daemon through a pseudo terminal, with
    escaped bytes between flags and a checksum.  What a [read] returned is an argument;
    what happens to a packet is a function of a state, and its result the [int] that
    the callback returns. *)

From stdpp Require Import base numbers list.
From S2P Require Import Prelude Bytes.

(** ** The frame check sequence *)

Definition PPPINITFCS16 : Z := 0xffff.
Definition PPPGOODFCS16 : Z := 0xf0b8.

Definition fcstab : list Z :=
  [0x0000; 0x1189; 0x2312; 0x329b; 0x4624; 0x57ad; 0x6536; 0x74bf; 0x8c48; 0x9dc1; 0xaf5a; 0xbed3;
   0xca6c; 0xdbe5; 0xe97e; 0xf8f7; 0x1081; 0x0108; 0x3393; 0x221a; 0x56a5; 0x472c; 0x75b7; 0x643e;
   0x9cc9; 0x8d40; 0xbfdb; 0xae52; 0xdaed; 0xcb64; 0xf9ff; 0xe876; 0x2102; 0x308b; 0x0210; 0x1399;
   0x6726; 0x76af; 0x4434; 0x55bd; 0xad4a; 0xbcc3; 0x8e58; 0x9fd1; 0xeb6e; 0xfae7; 0xc87c; 0xd9f5;
   0x3183; 0x200a; 0x1291; 0x0318; 0x77a7; 0x662e; 0x54b5; 0x453c; 0xbdcb; 0xac42; 0x9ed9; 0x8f50;
   0xfbef; 0xea66; 0xd8fd; 0xc974; 0x4204; 0x538d; 0x6116; 0x709f; 0x0420; 0x15a9; 0x2732; 0x36bb;
   0xce4c; 0xdfc5; 0xed5e; 0xfcd7; 0x8868; 0x99e1; 0xab7a; 0xbaf3; 0x5285; 0x430c; 0x7197; 0x601e;
   0x14a1; 0x0528; 0x37b3; 0x263a; 0xdecd; 0xcf44; 0xfddf; 0xec56; 0x98e9; 0x8960; 0xbbfb; 0xaa72;
   0x6306; 0x728f; 0x4014; 0x519d; 0x2522; 0x34ab; 0x0630; 0x17b9; 0xef4e; 0xfec7; 0xcc5c; 0xddd5;
   0xa96a; 0xb8e3; 0x8a78; 0x9bf1; 0x7387; 0x620e; 0x5095; 0x411c; 0x35a3; 0x242a; 0x16b1; 0x0738;
   0xffcf; 0xee46; 0xdcdd; 0xcd54; 0xb9eb; 0xa862; 0x9af9; 0x8b70; 0x8408; 0x9581; 0xa71a; 0xb693;
   0xc22c; 0xd3a5; 0xe13e; 0xf0b7; 0x0840; 0x19c9; 0x2b52; 0x3adb; 0x4e64; 0x5fed; 0x6d76; 0x7cff;
   0x9489; 0x8500; 0xb79b; 0xa612; 0xd2ad; 0xc324; 0xf1bf; 0xe036; 0x18c1; 0x0948; 0x3bd3; 0x2a5a;
   0x5ee5; 0x4f6c; 0x7df7; 0x6c7e; 0xa50a; 0xb483; 0x8618; 0x9791; 0xe32e; 0xf2a7; 0xc03c; 0xd1b5;
   0x2942; 0x38cb; 0x0a50; 0x1bd9; 0x6f66; 0x7eef; 0x4c74; 0x5dfd; 0xb58b; 0xa402; 0x9699; 0x8710;
   0xf3af; 0xe226; 0xd0bd; 0xc134; 0x39c3; 0x284a; 0x1ad1; 0x0b58; 0x7fe7; 0x6e6e; 0x5cf5; 0x4d7c;
   0xc60c; 0xd785; 0xe51e; 0xf497; 0x8028; 0x91a1; 0xa33a; 0xb2b3; 0x4a44; 0x5bcd; 0x6956; 0x78df;
   0x0c60; 0x1de9; 0x2f72; 0x3efb; 0xd68d; 0xc704; 0xf59f; 0xe416; 0x90a9; 0x8120; 0xb3bb; 0xa232;
   0x5ac5; 0x4b4c; 0x79d7; 0x685e; 0x1ce1; 0x0d68; 0x3ff3; 0x2e7a; 0xe70e; 0xf687; 0xc41c; 0xd595;
   0xa12a; 0xb0a3; 0x8238; 0x93b1; 0x6b46; 0x7acf; 0x4854; 0x59dd; 0x2d62; 0x3ceb; 0x0e70; 0x1ff9;
   0xf78f; 0xe606; 0xd49d; 0xc514; 0xb1ab; 0xa022; 0x92b9; 0x8330; 0x7bc7; 0x6a4e; 0x58d5; 0x495c;
   0x3de3; 0x2c6a; 0x1ef1; 0x0f78].

(** One turn of the loop of [pppfcs16]. *)
Definition fcs_byte (fcs c : Z) : Z := Z.lxor (Z.shiftr fcs 8) (fcstab !!! Z.to_nat (Z.land (Z.lxor fcs c) 0xff)).
Definition pppfcs16 (fcs : Z) (cp : bytes) : Z := foldl fcs_byte fcs cp.

(** ** The PPTP client *)

Definition PACKET_MAX : Z := 8196.
Definition HDLC_BUFF : Z := 2 * PACKET_MAX + 2.
Definition HDLC_FLAG : Z := 0x7e.
Definition HDLC_ESCAPE : Z := 0x7d.
Definition HDLC_TRANSPARENCY : Z := 0x20.

Definition hdlc_special (c : Z) : bool := (c <? 0x20) || (c =? HDLC_FLAG) || (c =? HDLC_ESCAPE).

(** The two bytes of the complement, the low one first. *)
Definition fcs_bytes (fcs : Z) : bytes :=
  let fcs := Z.lxor fcs 0xffff in [Z.land fcs 0xff; Z.land (Z.shiftr fcs 8) 0xff].

(** [dest] up to [pos]; a frame that is too long is cut off. *)
Fixpoint encaps_loop (source dest : bytes) : bytes :=
  match source with
  | [] => dest
  | c :: source =>
      if HDLC_BUFF <=? Z.of_nat (length dest) then dest
      else if hdlc_special c then
        let dest := dest ++ [HDLC_ESCAPE] in
        encaps_loop source (if Z.of_nat (length dest) <? HDLC_BUFF then dest ++ [Z.lxor c 0x20] else dest)
      else encaps_loop source (dest ++ [c])
  end.

(** What is written to the terminal. *)
Definition encaps_hdlc (sync : bool) (pack : bytes) : bytes :=
  if sync then pack
  else
    let dest := encaps_loop (pack ++ fcs_bytes (pppfcs16 PPPINITFCS16 pack)) [HDLC_FLAG] in
    if Z.of_nat (length dest) <? HDLC_BUFF then dest ++ [HDLC_FLAG] else dest.

(** [copy] up to [len], and [escape]. *)
Record hdlc := mk_hdlc { copy : bytes; escape : Z }.

Section decaps.
Context {S : Type} (cb : S → bytes → Z * S).

(** The loop over the bytes of one read; an error of the callback ends it.  A frame with
    a wrong checksum is reported and delivered. *)
Fixpoint decaps_loop (buffer : bytes) (h : hdlc) (s : S) : Z * hdlc * S :=
  match buffer with
  | [] => (0, h, s)
  | c :: buffer =>
      if negb (c =? HDLC_FLAG) then
        if (escape h =? 0) && (c =? HDLC_ESCAPE) then decaps_loop buffer (mk_hdlc (copy h) HDLC_TRANSPARENCY) s
        else
          let copy := if Z.of_nat (length (copy h)) <? PACKET_MAX then copy h ++ [Z.lxor c (escape h)] else copy h in
          decaps_loop buffer (mk_hdlc copy 0) s
      else if bool_decide (length (copy h) < 4)%nat || negb (escape h =? 0) then decaps_loop buffer (mk_hdlc [] 0) s
      else
        let pack := take (length (copy h) - 2) (copy h) in
        let '(status, s) := cb s pack in
        if status <? 0 then (status, mk_hdlc pack (escape h), s)
        else decaps_loop buffer (mk_hdlc [] 0) s
  end.

(** [data] is what one [read] returned, [None] an error or the end of the file. *)
Definition decaps_hdlc (sync : bool) (data : option bytes) (h : hdlc) (s : S) : Z * hdlc * S :=
  match data with
  | None | Some [] => (-1, h, s)
  | Some buffer =>
      if sync then
        let '(status, s) := cb s buffer in
        (if status <? 0 then status else 0, h, s)
      else decaps_loop buffer h s
  end.
End decaps.

(** ** The L2TP client *)

Definition FRAME_ESC : Z := 0x7d.
Definition FRAME_FLAG : Z := 0x7e.
Definition FRAME_ADDR : Z := 0xff.
Definition FRAME_CTRL : Z := 0x03.
Definition FRAME_ENC : Z := 0x20.
Definition PPP_BUF_SIZE : Z := 4096.
Definition EXTRA_HEADER_ROOM : Z := 32.
Definition L2TP_PACKET : Z := 1536.

Inductive ppp_state := STATE_WAITFOR_FRAME_ADDR | STATE_DROP_PROTO | STATE_BUILDING_PACKET.

Definition frame_special (c : Z) : bool :=
  (c =? FRAME_FLAG) || (c =? FRAME_ADDR) || (c =? FRAME_ESC) || (c <? 0x20).

Definition frame_escape (c : Z) : bytes := if frame_special c then [FRAME_ESC; Z.lxor c FRAME_ENC] else [c].

(** What is written to the terminal; [pppBuf] is not checked for its size. *)
Definition l2tp_async_ppp_handle_frame_from_tunnel (buf : bytes) : res bytes :=
  let fcs := pppfcs16 (pppfcs16 PPPINITFCS16 [FRAME_ADDR; FRAME_CTRL]) buf in
  let out := [FRAME_FLAG; FRAME_ADDR; FRAME_ESC; Z.lxor FRAME_CTRL FRAME_ENC]
             ++ ((buf ++ fcs_bytes fcs) ≫= frame_escape) ++ [FRAME_FLAG] in
  if Z.of_nat (length out) <=? PPP_BUF_SIZE + EXTRA_HEADER_ROOM then mret out else Fault.

(** [PPPState], [packet] up to [PPPPacketSize], and [PPPXorValue]. *)
Record ppp_frame := mk_frame { ppp_st : ppp_state; packet : bytes; xor_value : Z }.

Definition no_frame : ppp_frame := mk_frame STATE_WAITFOR_FRAME_ADDR [] 0.

(** The bytes of one read, and the packets sent through the tunnel. *)
Fixpoint to_tunnel (data : bytes) (f : ppp_frame) : list bytes * ppp_frame :=
  match data with
  | [] => ([], f)
  | c :: data =>
      match ppp_st f with
      | STATE_WAITFOR_FRAME_ADDR =>
          to_tunnel data (if c =? FRAME_ADDR then mk_frame STATE_DROP_PROTO (packet f) (xor_value f) else f)
      | STATE_DROP_PROTO =>
          to_tunnel data (if (c =? Z.lxor FRAME_CTRL FRAME_ENC) || (c =? FRAME_CTRL)
                          then mk_frame STATE_BUILDING_PACKET (packet f) (xor_value f) else f)
      | STATE_BUILDING_PACKET =>
          if c =? FRAME_ESC then to_tunnel data (mk_frame STATE_BUILDING_PACKET (packet f) FRAME_ENC)
          else if c =? FRAME_FLAG then
            if decide (length (packet f) < 2)%nat then ([], f)
            else
              let '(sent, f') := to_tunnel data no_frame in
              (take (length (packet f) - 2) (packet f) :: sent, f')
          else if L2TP_PACKET <=? Z.of_nat (length (packet f)) then to_tunnel data no_frame
          else to_tunnel data (mk_frame STATE_BUILDING_PACKET (packet f ++ [Z.lxor c (xor_value f)]) 0)
      end
  end.

Definition l2tp_async_ppp_handle_frame_to_tunnel (data : option bytes) (f : ppp_frame) : list bytes * ppp_frame :=
  match data with
  | None => ([], f)
  | Some data => to_tunnel (take (Z.to_nat PPP_BUF_SIZE) data) f
  end.
