(* ===== verification/PppHdlcProps.v ===== *)
(** * Frames of PPP: the theorems

    The table of the checksum is the polynomial, the receiver's check accepts what the
    sender computes, and frames come out as they went in, however the reads cut the
    stream. *)

From stdpp Require Import base numbers list.
From S2P Require Import Prelude Bytes PppHdlc.

(** ** The checksum bit by bit *)

(** Division by x^16 + x^12 + x^5 + 1, the low bit first. *)
Definition crc_bit (v : Z) : Z := Z.lxor (Z.shiftr v 1) (if Z.odd v then 0x8408 else 0).
Definition crc_byte (fcs c : Z) : Z := Nat.iter 8 crc_bit (Z.lxor fcs c).
Definition crc (fcs : Z) (l : bytes) : Z := foldl crc_byte fcs l.

Definition is_u16 (z : Z) : Prop := 0 ≤ z < 65536.

Lemma fcstab_bits : forallb (λ i, fcstab !!! i =? Nat.iter 8 crc_bit (Z.of_nat i)) (seq 0 256) = true.
Proof. by vm_compute. Qed.

Lemma fcstab_spec i : 0 ≤ i < 256 → fcstab !!! Z.to_nat i = Nat.iter 8 crc_bit i.
Proof.
  intros Hi. pose proof fcstab_bits as Ht. rewrite forallb_forall in Ht.
  specialize (Ht (Z.to_nat i)). rewrite in_seq in Ht. apply Z.eqb_eq in Ht; [|lia].
  by rewrite Ht, Z2Nat.id by lia.
Qed.

Lemma fcstab_range : forallb (λ i, (0 <=? fcstab !!! i) && (fcstab !!! i <? 65536)) (seq 0 256) = true.
Proof. by vm_compute. Qed.

Lemma crc_bit_lxor a b : crc_bit (Z.lxor a b) = Z.lxor (crc_bit a) (crc_bit b).
Proof.
  unfold crc_bit. rewrite Z.shiftr_lxor.
  assert (Ho : Z.odd (Z.lxor a b) = xorb (Z.odd a) (Z.odd b)) by (rewrite <- !Z.bit0_odd; apply Z.lxor_spec).
  rewrite Ho. apply Z.bits_inj'. intros n Hn. rewrite !Z.lxor_spec.
  destruct (Z.odd a), (Z.odd b); cbn [xorb]; rewrite ?Z.bits_0, ?xorb_false_r, ?xorb_false_l.
  - rewrite <- (xorb_false_r (xorb (Z.testbit (Z.shiftr a 1) n) _)), <- (xorb_nilpotent (Z.testbit 33800 n)) at 1.
    generalize (Z.testbit 33800 n), (Z.testbit (Z.shiftr a 1) n), (Z.testbit (Z.shiftr b 1) n). by intros [] [] [].
  - generalize (Z.testbit 33800 n), (Z.testbit (Z.shiftr a 1) n), (Z.testbit (Z.shiftr b 1) n). by intros [] [] [].
  - by rewrite xorb_assoc.
  - done.
Qed.

Lemma crc_bits_lxor k a b : Nat.iter k crc_bit (Z.lxor a b) = Z.lxor (Nat.iter k crc_bit a) (Nat.iter k crc_bit b).
Proof. induction k as [|k IH]; [done|]. by rewrite !Nat.iter_succ, IH, crc_bit_lxor. Qed.

Lemma crc_bits_shiftl k x : 0 ≤ x → Nat.iter k crc_bit (Z.shiftl x (Z.of_nat k)) = x.
Proof.
  intros Hx. induction k as [|k IH]; [apply Z.shiftl_0_r|]. rewrite Nat.iter_succ_r.
  rewrite <- IH at 2. f_equal. unfold crc_bit.
  assert (Ho : Z.odd (Z.shiftl x (Z.of_nat (S k))) = false).
  { rewrite <- Z.bit0_odd. apply Z.shiftl_spec_low. lia. }
  rewrite Ho, Z.lxor_0_r, Z.shiftr_shiftl_l by lia. f_equal. lia.
Qed.

Lemma split_byte v : 0 ≤ v → v = Z.lxor (Z.shiftl (Z.shiftr v 8) 8) (Z.land v 0xff).
Proof.
  intros Hv. apply Z.bits_inj'. intros n Hn. rewrite Z.lxor_spec, Z.land_spec.
  change 0xff with (Z.ones 8). destruct (Z.ltb_spec n 8).
  - rewrite Z.shiftl_spec_low, Z.ones_spec_low by lia. by rewrite andb_true_r, xorb_false_l.
  - rewrite Z.shiftl_spec by lia. rewrite Z.shiftr_spec by lia. rewrite Z.ones_spec_high by lia.
    rewrite andb_false_r, xorb_false_r. f_equal. lia.
Qed.

Lemma shiftr_small c n : 0 ≤ c < 2 ^ n → 0 ≤ n → Z.shiftr c n = 0.
Proof. intros Hc Hn. rewrite Z.shiftr_div_pow2 by done. by apply Z.div_small. Qed.

Lemma fcs_byte_crc fcs c : 0 ≤ fcs → is_u8 c → fcs_byte fcs c = crc_byte fcs c.
Proof.
  intros Hf Hc. unfold fcs_byte, crc_byte. unfold is_u8 in Hc.
  assert (Hx : 0 ≤ Z.lxor fcs c) by (apply Z.lxor_nonneg; lia).
  rewrite (split_byte (Z.lxor fcs c)) at 2 by done. rewrite crc_bits_lxor.
  change 8 with (Z.of_nat 8) at 3. rewrite crc_bits_shiftl by (by apply Z.shiftr_nonneg).
  rewrite Z.shiftr_lxor, (shiftr_small c 8), Z.lxor_0_r by (cbn; lia). f_equal. apply fcstab_spec.
  change 0xff with (Z.ones 8). rewrite Z.land_ones by lia. by apply Z.mod_pos_bound.
Qed.

Lemma testbit_high a n m : 0 ≤ a < 2 ^ n → 0 ≤ n ≤ m → Z.testbit a m = false.
Proof. intros Ha Hm. rewrite <- (Z.mod_small a (2 ^ n)) by done. by apply Z.mod_pow2_bits_high. Qed.

Lemma lxor_range n a b : 0 ≤ n → 0 ≤ a < 2 ^ n → 0 ≤ b < 2 ^ n → 0 ≤ Z.lxor a b < 2 ^ n.
Proof.
  intros Hn Ha Hb. assert (E : Z.lxor a b = Z.lxor a b `mod` 2 ^ n).
  { rewrite <- Z.land_ones by done. apply Z.bits_inj'. intros m Hm. rewrite Z.land_spec, Z.lxor_spec.
    destruct (Z.ltb_spec m n); [by rewrite Z.ones_spec_low, andb_true_r by lia|].
    by rewrite (testbit_high a n), (testbit_high b n) by lia. }
  rewrite E. apply Z.mod_pos_bound, Z.pow_pos_nonneg; lia.
Qed.

Lemma fcs_byte_range fcs c : is_u16 fcs → is_u16 (fcs_byte fcs c).
Proof.
  intros Hf. unfold is_u16 in *. unfold fcs_byte. set (i := Z.to_nat _).
  assert (Hi : 0 ≤ fcstab !!! i < 65536).
  { pose proof fcstab_range as Ht. rewrite forallb_forall in Ht.
    destruct (decide (i < 256)%nat) as [Hlt|Hge].
    - specialize (Ht i). rewrite in_seq in Ht. apply andb_true_iff in Ht as [H1 H2]; lia.
    - rewrite list_lookup_total_alt, lookup_ge_None_2 by (cbn; lia). cbn. lia. }
  assert (Hs : 0 ≤ Z.shiftr fcs 8 < 65536).
  { rewrite Z.shiftr_div_pow2 by lia. change (2 ^ 8) with 256. split; [apply Z.div_pos; lia|].
    apply Z.div_lt_upper_bound; lia. }
  by apply (lxor_range 16).
Qed.

(** The sender appends the complement, the low byte first; the receiver's sum is then the
    constant. *)
Lemma lxor_shift_cancel a b : Z.lxor a (Z.lxor a b) = b.
Proof. by rewrite <- Z.lxor_assoc, Z.lxor_nilpotent, Z.lxor_0_l. Qed.

Lemma byte_lxor fcs : Z.land (Z.lxor fcs (Z.land (Z.lxor fcs 0xffff) 0xff)) 0xff = 0xff.
Proof.
  change 0xff with (Z.ones 8). change 0xffff with (Z.ones 16). apply Z.bits_inj'. intros n Hn.
  rewrite !Z.land_spec, !Z.lxor_spec, !Z.land_spec, !Z.lxor_spec.
  destruct (Z.ltb_spec n 8).
  - rewrite !Z.ones_spec_low by lia. by destruct (Z.testbit fcs n).
  - rewrite (Z.ones_spec_high 8) by lia. by rewrite andb_false_r.
Qed.

Lemma good_fcs fcs : is_u16 fcs → foldl fcs_byte fcs (fcs_bytes fcs) = PPPGOODFCS16.
Proof.
  intros Hf. unfold fcs_bytes. cbv zeta. cbn [foldl]. unfold fcs_byte at 2. rewrite byte_lxor.
  set (h := Z.land (Z.shiftr (Z.lxor fcs 0xffff) 8) 0xff).
  assert (Eh : h = Z.lxor (Z.shiftr fcs 8) 0xff).
  { subst h. rewrite Z.shiftr_lxor. change (Z.shiftr 65535 8) with 0xff. change 0xff with (Z.ones 8).
    rewrite Z.land_ones by lia. apply Z.mod_small. apply (lxor_range 8); [lia| |by vm_compute].
    unfold is_u16 in Hf. rewrite Z.shiftr_div_pow2 by lia. change (2 ^ 8) with 256.
    split; [apply Z.div_pos; lia|apply Z.div_lt_upper_bound; lia]. }
  unfold fcs_byte. set (t := fcstab !!! Z.to_nat 255).
  assert (E : Z.lxor (Z.lxor (Z.shiftr fcs 8) t) h = Z.lxor t 0xff).
  { rewrite Eh, (Z.lxor_comm (Z.shiftr fcs 8) t), Z.lxor_assoc. by rewrite lxor_shift_cancel. }
  rewrite E, Z.shiftr_lxor, (shiftr_small (Z.shiftr fcs 8) 8); [by vm_compute| |lia].
  unfold is_u16 in Hf. rewrite Z.shiftr_div_pow2 by lia. change (2 ^ 8) with 256.
  split; [apply Z.div_pos; lia|apply Z.div_lt_upper_bound; lia].
Qed.

Lemma pppfcs16_range fcs l : is_u16 fcs → is_u16 (pppfcs16 fcs l).
Proof. revert fcs. induction l as [|c l IH]; intros fcs Hf; [done|]. apply IH, fcs_byte_range, Hf. Qed.

Lemma pppfcs16_crc fcs l : is_u16 fcs → is_bytes l → pppfcs16 fcs l = crc fcs l.
Proof.
  intros Hf Hl. revert fcs Hf. induction Hl as [|c l Hc Hl IH]; intros fcs Hf; [done|].
  unfold crc. cbn [foldl]. rewrite <- fcs_byte_crc by (done || apply Hf). apply IH, fcs_byte_range, Hf.
Qed.

(** The checksum.  The table computes the polynomial of the standard bit by bit, on
    every input; and a frame with the complement of its checksum behind it, the low
    byte first, as both senders write it, has the checksum that the receivers expect. *)
Theorem fcs_correct l (Hl : is_bytes l) :
  pppfcs16 PPPINITFCS16 l = crc PPPINITFCS16 l ∧ is_u16 (pppfcs16 PPPINITFCS16 l)
  ∧ pppfcs16 PPPINITFCS16 (l ++ fcs_bytes (pppfcs16 PPPINITFCS16 l)) = PPPGOODFCS16.
Proof.
  assert (Hi : is_u16 PPPINITFCS16) by (by vm_compute). split; [by apply pppfcs16_crc|].
  split; [by apply pppfcs16_range|]. unfold pppfcs16 at 1. rewrite foldl_app. by apply good_fcs, pppfcs16_range.
Qed.

(** ** The PPTP client *)

Definition hdlc_escape (c : Z) : bytes := if hdlc_special c then [HDLC_ESCAPE; Z.lxor c 0x20] else [c].

Lemma escape_length l : (length (l ≫= hdlc_escape) ≤ 2 * length l)%nat.
Proof. induction l as [|c l IH]; [done|]. cbn. rewrite length_app. unfold hdlc_escape at 1. destruct (hdlc_special c); cbn; lia. Qed.

Lemma encaps_loop_spec l dest :
  Z.of_nat (length dest + 2 * length l) ≤ HDLC_BUFF → encaps_loop l dest = dest ++ (l ≫= hdlc_escape).
Proof.
  revert dest. induction l as [|c l IH]; intros dest Hl; [by rewrite app_nil_r|]. cbn [length] in Hl.
  cbn [encaps_loop mbind list_bind]. rewrite (proj2 (Z.leb_gt _ _)) by lia. cbv zeta. unfold hdlc_escape at 1.
  destruct (hdlc_special c).
  - rewrite (proj2 (Z.ltb_lt _ _)) by (rewrite length_app; cbn; lia). rewrite IH by (rewrite !length_app; cbn; lia).
    by rewrite <- !app_assoc.
  - rewrite IH by (rewrite length_app; cbn; lia). by rewrite <- app_assoc.
Qed.

(** A packet that fits: the receiver's buffer, the least length it takes. *)
Definition sendable (p : bytes) : Prop := is_bytes p ∧ (2 ≤ length p)%nat ∧ Z.of_nat (length p) ≤ PACKET_MAX - 2.

Definition with_fcs (p : bytes) : bytes := p ++ fcs_bytes (pppfcs16 PPPINITFCS16 p).

Lemma with_fcs_length p : length (with_fcs p) = (length p + 2)%nat.
Proof. unfold with_fcs. by rewrite length_app. Qed.

Lemma land_byte v : is_u8 (Z.land v 0xff).
Proof. unfold is_u8. change 0xff with (Z.ones 8). rewrite Z.land_ones by lia. by apply Z.mod_pos_bound. Qed.

Lemma with_fcs_bytes p : is_bytes p → is_bytes (with_fcs p).
Proof. intros Hp. apply Forall_app_2; [done|]. apply Forall_cons_2; [apply land_byte|]. apply Forall_cons_2; [apply land_byte|constructor]. Qed.

Lemma encaps_spec p : sendable p → encaps_hdlc false p = HDLC_FLAG :: (with_fcs p ≫= hdlc_escape) ++ [HDLC_FLAG].
Proof.
  intros (_ & _ & Hl). unfold encaps_hdlc. cbv zeta. fold (with_fcs p). unfold HDLC_BUFF, PACKET_MAX in *.
  pose proof (with_fcs_length p) as Hw. pose proof (escape_length (with_fcs p)) as He.
  rewrite encaps_loop_spec by (rewrite Hw; unfold HDLC_BUFF, PACKET_MAX; cbn [length]; lia).
  rewrite (proj2 (Z.ltb_lt _ _)) by (rewrite length_app; cbn [length]; lia). done.
Qed.

(** An escaped byte is never a flag, and is the byte again with the bit turned. *)
Lemma escaped_bytes :
  forallb (λ i, let c := Z.of_nat i in
    (negb (hdlc_special c) || (negb (Z.lxor c 0x20 =? HDLC_FLAG)))
    && (negb (frame_special c) || (negb (Z.lxor c FRAME_ENC =? FRAME_FLAG) && negb (Z.lxor c FRAME_ENC =? FRAME_ESC)))) (seq 0 256) = true.
Proof. by vm_compute. Qed.

Lemma escaped_byte c : is_u8 c →
  (hdlc_special c = true → Z.lxor c 0x20 ≠ HDLC_FLAG)
  ∧ (frame_special c = true → Z.lxor c FRAME_ENC ≠ FRAME_FLAG ∧ Z.lxor c FRAME_ENC ≠ FRAME_ESC).
Proof.
  intros Hc. pose proof escaped_bytes as Ht. rewrite forallb_forall in Ht. specialize (Ht (Z.to_nat c)).
  unfold is_u8 in Hc. rewrite in_seq, Z2Nat.id in Ht by lia. specialize (Ht ltac:(lia)).
  apply andb_true_iff in Ht as [H1 H2].
  split; intros E; [rewrite E in H1|rewrite E in H2]; cbn [negb orb] in *.
  - apply negb_true_iff, Z.eqb_neq in H1. done.
  - apply andb_true_iff in H2 as [H2 H3]. apply negb_true_iff, Z.eqb_neq in H2, H3. done.
Qed.

Lemma lxor_twice c n : Z.lxor (Z.lxor c n) n = c.
Proof. by rewrite Z.lxor_assoc, Z.lxor_nilpotent, Z.lxor_0_r. Qed.

Section decaps.
Context {S : Type} (cb : S → bytes → Z * S).

(** The bytes between two flags. *)
Lemma decaps_escaped l rest cp s :
  is_bytes l → Z.of_nat (length cp + length l) ≤ PACKET_MAX →
  decaps_loop cb ((l ≫= hdlc_escape) ++ rest) (mk_hdlc cp 0) s = decaps_loop cb rest (mk_hdlc (cp ++ l) 0) s.
Proof.
  intros Hb. revert cp. induction Hb as [|c l Hc Hb IH]; intros cp Hl; [by rewrite app_nil_r|]. cbn [length] in Hl.
  cbn [mbind list_bind]. rewrite <- app_assoc.
  assert (Hroom : (Z.of_nat (length cp) <? PACKET_MAX) = true) by (apply Z.ltb_lt; lia).
  assert (E : decaps_loop cb (hdlc_escape c ++ ((l ≫= hdlc_escape) ++ rest)) (mk_hdlc cp 0) s
      = decaps_loop cb ((l ≫= hdlc_escape) ++ rest) (mk_hdlc (cp ++ [c]) 0) s).
  { unfold hdlc_escape at 1. destruct (hdlc_special c) eqn:Ec; cbn [app decaps_loop copy escape].
    - change (HDLC_ESCAPE =? HDLC_FLAG) with false. change (HDLC_ESCAPE =? HDLC_ESCAPE) with true.
      cbn [negb andb Z.eqb copy escape]. unfold HDLC_TRANSPARENCY.
      rewrite (proj2 (Z.eqb_neq (Z.lxor c 32) HDLC_FLAG)) by (by apply (proj1 (escaped_byte c Hc))).
      change (32 =? 0) with false. cbn [negb andb]. by rewrite Hroom, lxor_twice.
    - unfold hdlc_special in Ec. apply orb_false_iff in Ec as [Ec E1]. apply orb_false_iff in Ec as [_ E2].
      rewrite E1, E2. cbn [negb]. rewrite andb_false_r, Hroom, Z.lxor_0_r. done. }
  rewrite E, IH by (rewrite length_app; cbn; lia). by rewrite <- app_assoc.
Qed.

(** The callback takes every packet. *)
Definition accepts : Prop := ∀ s p, 0 ≤ fst (cb s p).
Definition taken (s : S) (ps : list bytes) : S := foldl (λ s p, snd (cb s p)) s ps.

Lemma decaps_frame p rest s :
  accepts → sendable p →
  decaps_loop cb (encaps_hdlc false p ++ rest) (mk_hdlc [] 0) s = decaps_loop cb rest (mk_hdlc [] 0) (snd (cb s p)).
Proof.
  intros Hcb Hp. rewrite encaps_spec by done. destruct Hp as (Hb & Hl & Hm). cbn [app]. rewrite <- app_assoc.
  pose proof (with_fcs_length p) as Hw.
  change (decaps_loop cb (HDLC_FLAG :: ?l) (mk_hdlc [] 0) s) with (decaps_loop cb l (mk_hdlc [] 0) s).
  rewrite decaps_escaped by (try (by apply with_fcs_bytes); cbn [length]; lia). cbn [app].
  cbn [decaps_loop copy escape]. change (HDLC_FLAG =? HDLC_FLAG) with true. cbn [negb].
  rewrite bool_decide_false by lia. cbn [orb negb Z.eqb]. rewrite Hw, Nat.add_sub.
  assert (Et : take (length p) (with_fcs p) = p) by (unfold with_fcs; by rewrite take_app_length). rewrite Et.
  specialize (Hcb s p). destruct (cb s p) as [status s']. cbn [fst snd] in *.
  by rewrite (proj2 (Z.ltb_ge _ _)).
Qed.

Lemma decaps_frames ps s :
  accepts → Forall sendable ps →
  decaps_loop cb (concat (map (encaps_hdlc false) ps)) (mk_hdlc [] 0) s = (0, mk_hdlc [] 0, taken s ps).
Proof.
  intros Hcb Hps. revert s. induction Hps as [|p ps Hp Hps IH]; intros s; [done|]. cbn [map concat].
  rewrite decaps_frame by done. apply IH.
Qed.

(** Reads one after the other, up to an error. *)
Fixpoint decaps_reads (reads : list bytes) (h : hdlc) (s : S) : Z * hdlc * S :=
  match reads with
  | [] => (0, h, s)
  | d :: reads =>
      let '(status, h, s) := decaps_hdlc cb false (Some d) h s in
      if status <? 0 then (status, h, s) else decaps_reads reads h s
  end.

Lemma decaps_loop_app d1 d2 h s :
  accepts →
  decaps_loop cb (d1 ++ d2) h s = (let '(_, h, s) := decaps_loop cb d1 h s in decaps_loop cb d2 h s)
  ∧ fst (fst (decaps_loop cb d1 h s)) = 0.
Proof.
  intros Hcb. revert h s. induction d1 as [|c d1 IH]; intros h s; [done|]. cbn [app decaps_loop].
  destruct (negb (c =? HDLC_FLAG)); [destruct (_ && _); apply IH|].
  destruct (_ || _); [apply IH|].
  specialize (Hcb s (take (length (copy h) - 2) (copy h))). destruct (cb _ _) as [status s']. cbn [fst] in Hcb.
  rewrite (proj2 (Z.ltb_ge _ _)) by done. apply IH.
Qed.

Lemma decaps_reads_concat reads h s :
  accepts → Forall (λ d, d ≠ []) reads → decaps_reads reads h s = decaps_loop cb (concat reads) h s.
Proof.
  intros Hcb Hr. revert h s. induction Hr as [|d reads Hd Hr IH]; intros h s; [done|]. cbn [decaps_reads concat].
  destruct (decaps_loop_app d (concat reads) h s Hcb) as [E E0]. rewrite E.
  unfold decaps_hdlc. destruct d as [|c d]; [done|].
  destruct (decaps_loop cb (c :: d) h s) as [[status h'] s']. cbn [fst] in E0. subst status. apply IH.
Qed.
End decaps.

(** ** The L2TP client *)

Definition tunnel_fcs (p : bytes) : bytes :=
  p ++ fcs_bytes (pppfcs16 (pppfcs16 PPPINITFCS16 [FRAME_ADDR; FRAME_CTRL]) p).

(** A packet that fits on the way back. *)
Definition tunnelled (p : bytes) : Prop := is_bytes p ∧ Z.of_nat (length p) ≤ L2TP_PACKET - 2.

Lemma frame_escape_length l : (length (l ≫= frame_escape) ≤ 2 * length l)%nat.
Proof. induction l as [|c l IH]; [done|]. cbn. rewrite length_app. unfold frame_escape at 1. destruct (frame_special c); cbn; lia. Qed.

Lemma tunnel_fcs_length p : length (tunnel_fcs p) = (length p + 2)%nat.
Proof. unfold tunnel_fcs. by rewrite length_app. Qed.

Lemma tunnel_fcs_bytes p : is_bytes p → is_bytes (tunnel_fcs p).
Proof. intros Hp. apply Forall_app_2; [done|]. apply Forall_cons_2; [apply land_byte|]. apply Forall_cons_2; [apply land_byte|constructor]. Qed.

Definition tunnel_frame (p : bytes) : bytes :=
  [FRAME_FLAG; FRAME_ADDR; FRAME_ESC; Z.lxor FRAME_CTRL FRAME_ENC] ++ (tunnel_fcs p ≫= frame_escape) ++ [FRAME_FLAG].

(** [pppBuf] is large enough for packets of this length, and overrun by some longer
    ones. *)
Lemma from_tunnel_spec p :
  tunnelled p → l2tp_async_ppp_handle_frame_from_tunnel p = Ok (tunnel_frame p).
Proof.
  intros (_ & Hl). unfold L2TP_PACKET in Hl.
  pose proof (tunnel_fcs_length p). pose proof (frame_escape_length (tunnel_fcs p)).
  assert (Hle : (Z.of_nat (length (tunnel_frame p)) <=? PPP_BUF_SIZE + EXTRA_HEADER_ROOM) = true).
  { apply Z.leb_le. unfold tunnel_frame, PPP_BUF_SIZE, EXTRA_HEADER_ROOM. rewrite !length_app. cbn [length]. lia. }
  transitivity (if Z.of_nat (length (tunnel_frame p)) <=? PPP_BUF_SIZE + EXTRA_HEADER_ROOM
                then Ok (tunnel_frame p) else Fault); [done|by rewrite Hle].
Qed.

Lemma tunnel_escaped l rest pk :
  is_bytes l → Z.of_nat (length pk + length l) ≤ L2TP_PACKET →
  to_tunnel ((l ≫= frame_escape) ++ rest) (mk_frame STATE_BUILDING_PACKET pk 0)
  = to_tunnel rest (mk_frame STATE_BUILDING_PACKET (pk ++ l) 0).
Proof.
  intros Hb. revert pk. induction Hb as [|c l Hc Hb IH]; intros pk Hl; [by rewrite app_nil_r|]. cbn [length] in Hl.
  cbn [mbind list_bind]. rewrite <- app_assoc.
  assert (Hroom : (L2TP_PACKET <=? Z.of_nat (length pk)) = false) by (apply Z.leb_gt; lia).
  assert (E : to_tunnel (frame_escape c ++ ((l ≫= frame_escape) ++ rest)) (mk_frame STATE_BUILDING_PACKET pk 0)
      = to_tunnel ((l ≫= frame_escape) ++ rest) (mk_frame STATE_BUILDING_PACKET (pk ++ [c]) 0)).
  { unfold frame_escape at 1. destruct (frame_special c) eqn:Ec; cbn [app to_tunnel ppp_st packet xor_value].
    - change (FRAME_ESC =? FRAME_ESC) with true. cbn iota.
      destruct (proj2 (escaped_byte c Hc) Ec) as [H1 H2].
      cbn [to_tunnel ppp_st packet xor_value]. rewrite (proj2 (Z.eqb_neq _ _) H1), (proj2 (Z.eqb_neq _ _) H2), Hroom.
      by rewrite lxor_twice.
    - unfold frame_special in Ec. apply orb_false_iff in Ec as [Ec _]. apply orb_false_iff in Ec as [Ec E1].
      apply orb_false_iff in Ec as [E2 _]. unfold FRAME_FLAG, FRAME_ESC in *. rewrite E1, E2, Hroom, Z.lxor_0_r. done. }
  rewrite E, IH by (rewrite length_app; cbn; lia). by rewrite <- app_assoc.
Qed.

Lemma tunnel_one p rest :
  tunnelled p →
  to_tunnel (tunnel_frame p ++ rest) no_frame = (let '(sent, f) := to_tunnel rest no_frame in (p :: sent, f)).
Proof.
  intros (Hb & Hl). unfold tunnel_frame, L2TP_PACKET in *. rewrite <- !app_assoc. pose proof (tunnel_fcs_length p) as Hw.
  cbn [app]. cbn [to_tunnel ppp_st packet xor_value no_frame].
  change (to_tunnel (?a :: ?l) no_frame) with (to_tunnel (a :: l) no_frame).
  change (FRAME_FLAG =? FRAME_ADDR) with false. change (FRAME_ADDR =? FRAME_ADDR) with true. cbn iota.
  cbn [to_tunnel ppp_st packet xor_value no_frame].
  change ((FRAME_ESC =? Z.lxor FRAME_CTRL FRAME_ENC) || (FRAME_ESC =? FRAME_CTRL)) with false.
  change ((Z.lxor FRAME_CTRL FRAME_ENC =? Z.lxor FRAME_CTRL FRAME_ENC) || (Z.lxor FRAME_CTRL FRAME_ENC =? FRAME_CTRL)) with true.
  cbn iota. cbn [to_tunnel ppp_st packet xor_value no_frame].
  rewrite tunnel_escaped by (try (by apply tunnel_fcs_bytes); unfold L2TP_PACKET; cbn [length]; lia). cbn [app to_tunnel ppp_st packet xor_value].
  change (FRAME_FLAG =? FRAME_ESC) with false. change (FRAME_FLAG =? FRAME_FLAG) with true. cbn iota.
  rewrite decide_False by lia. rewrite Hw, Nat.add_sub.
  assert (Et : take (length p) (tunnel_fcs p) = p) by (unfold tunnel_fcs; by rewrite take_app_length).
  rewrite Et. by destruct (to_tunnel rest no_frame).
Qed.

Lemma tunnel_frames ps : Forall tunnelled ps → to_tunnel (concat (map tunnel_frame ps)) no_frame = (ps, no_frame).
Proof.
  induction 1 as [|p ps Hp Hps IH]; [done|]. cbn [map concat]. by rewrite tunnel_one, IH.
Qed.

(** Without the early end of a read, which leaves a frame begun, a read can be cut. *)
Lemma to_tunnel_app a b f :
  ppp_st (snd (to_tunnel (a ++ b) f)) ≠ STATE_BUILDING_PACKET →
  to_tunnel (a ++ b) f = (let '(s1, f1) := to_tunnel a f in let '(s2, f2) := to_tunnel b f1 in (s1 ++ s2, f2)).
Proof.
  revert f. induction a as [|c a IH]; intros f Hf; [cbn; by destruct (to_tunnel b f)|].
  cbn [app to_tunnel] in Hf |- *. destruct (ppp_st f) eqn:Ef; [by apply IH..|].
  destruct (c =? FRAME_ESC); [by apply IH|]. destruct (c =? FRAME_FLAG).
  - case_decide; [by rewrite <- Ef in Hf|]. destruct (to_tunnel (a ++ b) no_frame) as [s f'] eqn:E. cbn [snd] in Hf.
    specialize (IH no_frame). rewrite E in IH. specialize (IH Hf). destruct (to_tunnel a no_frame) as [s1 f1].
    destruct (to_tunnel b f1) as [s2 f2]. by injection IH as -> ->.
  - by destruct (_ <=? _); apply IH.
Qed.

(** One read after the other. *)
Fixpoint tunnel_reads (reads : list bytes) (f : ppp_frame) : list bytes * ppp_frame :=
  match reads with
  | [] => ([], f)
  | d :: reads =>
      let '(s1, f) := l2tp_async_ppp_handle_frame_to_tunnel (Some d) f in
      let '(s2, f) := tunnel_reads reads f in (s1 ++ s2, f)
  end.

Lemma tunnel_reads_concat reads f :
  Forall (λ d, Z.of_nat (length d) ≤ PPP_BUF_SIZE) reads →
  ppp_st (snd (to_tunnel (concat reads) f)) ≠ STATE_BUILDING_PACKET →
  tunnel_reads reads f = to_tunnel (concat reads) f.
Proof.
  intros Hr. revert f. induction Hr as [|d reads Hd Hr IH]; intros f Hf; [done|]. cbn [concat tunnel_reads] in *.
  pose proof (to_tunnel_app _ _ _ Hf) as E. rewrite E in Hf |- *.
  unfold l2tp_async_ppp_handle_frame_to_tunnel. rewrite take_ge by lia.
  destruct (to_tunnel d f) as [s1 f1]. rewrite IH; [done|]. by destruct (to_tunnel (concat reads) f1).
Qed.

(** C34: frames.  The packets that the PPTP client writes to the terminal one after the
    other come out as they are, in their order, when the stream is read back, however
    the reads cut it, if they have from 2 to 8194 bytes; and so do those of the L2TP
    client, of up to 1534 bytes. *)
Theorem frames_roundtrip {S} (cb : S → bytes → Z * S) (s : S) ps reads qs
    (Hcb : ∀ s p, 0 ≤ fst (cb s p)) (Hps : Forall sendable ps)
    (Hr : Forall (λ d, d ≠ []) reads) (Hs : concat reads = concat (map (encaps_hdlc false) ps))
    (Hqs : Forall tunnelled qs) :
  decaps_reads cb reads (mk_hdlc [] 0) s = (0, mk_hdlc [] 0, foldl (λ s p, snd (cb s p)) s ps)
  ∧ ∃ frames, Forall2 (λ q d, l2tp_async_ppp_handle_frame_from_tunnel q = Ok d) qs frames
      ∧ ∀ reads, concat reads = concat frames → Forall (λ d, Z.of_nat (length d) ≤ PPP_BUF_SIZE) reads →
          tunnel_reads reads no_frame = (qs, no_frame).
Proof.
  split; [by rewrite decaps_reads_concat, Hs, decaps_frames|].
  exists (map tunnel_frame qs). split.
  - clear -Hqs. induction Hqs; constructor; [by apply from_tunnel_spec|done].
  - intros rs Ers Hrs. rewrite tunnel_reads_concat by (done || rewrite Ers, tunnel_frames by done; done).
    by rewrite Ers, tunnel_frames.
Qed.

(** ** Witnesses and flaws *)

Definition ipcp_request : bytes := [0x80; 0x21; 1; 1; 0; 10; 3; 6; 10; 0x7e; 0x7d; 0xff].
Definition hdlc_stream : bytes := encaps_hdlc false ipcp_request ++ encaps_hdlc false [0xc0; 0x21].

Definition keep (s : list bytes) (p : bytes) : Z * list bytes := (0, s ++ [p]).

Lemma fcs_correct_witness : pppfcs16 PPPINITFCS16 (with_fcs ipcp_request) = PPPGOODFCS16 ∧ is_bytes ipcp_request.
Proof.
  assert (Hb : is_bytes ipcp_request) by (repeat (apply Forall_cons_2; [unfold is_u8; lia|]); constructor).
  split; [|exact Hb]. exact (proj2 (proj2 (fcs_correct ipcp_request Hb))).
Defined.

Lemma frames_roundtrip_witness :
  decaps_reads keep [take 7 hdlc_stream; drop 7 hdlc_stream] (mk_hdlc [] 0) []
    = (0, mk_hdlc [] 0, [ipcp_request; [0xc0; 0x21]])
  ∧ ∃ frames, Forall2 (λ q d, l2tp_async_ppp_handle_frame_from_tunnel q = Ok d) [ipcp_request] frames
      ∧ ∀ reads, concat reads = concat frames → Forall (λ d, Z.of_nat (length d) ≤ PPP_BUF_SIZE) reads →
          tunnel_reads reads no_frame = ([ipcp_request], no_frame).
Proof.
  assert (Hb : is_bytes ipcp_request) by (repeat (apply Forall_cons_2; [unfold is_u8; lia|]); constructor).
  assert (Hp : Forall sendable [ipcp_request; [0xc0; 0x21]]).
  { repeat (apply Forall_cons_2; [split; [repeat (apply Forall_cons_2; [unfold is_u8; lia|]); constructor|];
      split; [vm_compute; lia|vm_compute; discriminate]|]). constructor. }
  assert (Hr : Forall (λ d, d ≠ []) [take 7 hdlc_stream; drop 7 hdlc_stream]).
  { apply (bool_decide_eq_true_1 _). by vm_compute. }
  assert (Hs : concat [take 7 hdlc_stream; drop 7 hdlc_stream] = concat (map (encaps_hdlc false) [ipcp_request; [0xc0; 0x21]]))
    by (by vm_compute).
  assert (Hq : Forall tunnelled [ipcp_request]).
  { apply Forall_cons_2; [|constructor]. split; [exact Hb|vm_compute; discriminate]. }
  exact (frames_roundtrip keep [] [ipcp_request; [0xc0; 0x21]] [take 7 hdlc_stream; drop 7 hdlc_stream] [ipcp_request]
    (λ _ _, Z.le_refl 0) Hp Hr Hs Hq).
Defined.

(** A frame whose checksum is wrong is delivered all the same. *)
Example bad_checksum_delivered :
  decaps_hdlc keep false (Some [HDLC_FLAG; 0xc0; 0x21; 0x40; 0x40; HDLC_FLAG]) (mk_hdlc [] 0) []
  = (0, mk_hdlc [] 0, [[0xc0; 0x21]])
  ∧ pppfcs16 PPPINITFCS16 [0xc0; 0x21; 0x40; 0x40] ≠ PPPGOODFCS16.
Proof. split; [by vm_compute|by vm_compute]. Qed.

(** A datagram of the tunnel with 2100 zero bytes overruns [pppBuf]. *)
Example from_tunnel_overruns : l2tp_async_ppp_handle_frame_from_tunnel (replicate 2100 0) = Fault.
Proof. by vm_compute. Qed.

(** A flag in front of two bytes of a frame: the rest of the read is lost and the next
    frame is put behind what was read of this one. *)
Example short_frame_sticks :
  to_tunnel ([FRAME_ADDR; FRAME_CTRL; 1; FRAME_FLAG] ++ tunnel_frame [0xc0; 0x21]) no_frame
  = ([], mk_frame STATE_BUILDING_PACKET [1] 0).
Proof. by vm_compute. Qed.
