(* ===== verification/PppQueue.v ===== *)
(** * The queue of early packets (progs.gpl/pppd.alpha/pptp/pqueue.c)

    Entries are linked in both directions, in the order of their numbers, between
    [pq_head] and [pq_tail]; entries that are not used are kept, with their buffers, on
    a second list.  [malloc] gives an address that is not in use, or nothing: whether
    the first and the second allocation of a call succeed are arguments.  The time of
    day is an argument, too. *)

From stdpp Require Import base numbers gmap list sets sorting.
From S2P Require Import Prelude Bytes.

Definition MIN_CAPACITY : Z := 128.
(** [DEFAULT_PACKET_TIMEOUT * 1000000] *)
Definition packet_timeout_usecs : Z := 300000.

Abbreviation ptr := positive.

(** [packlen] is the length of [pn_packet], whose buffer has [pn_capacity] bytes. *)
Record pnode := mk_pnode {
  pn_next : option ptr; pn_prev : option ptr; pn_seq : Z; pn_expires : Z * Z; pn_packet : bytes; pn_capacity : Z }.

Record pqueue := mk_pqueue {
  pq_heap : gmap ptr pnode; pq_head : option ptr; pq_tail : option ptr; pq_freelist_head : option ptr }.

Definition with_next (n : pnode) (v : option ptr) : pnode :=
  mk_pnode v (pn_prev n) (pn_seq n) (pn_expires n) (pn_packet n) (pn_capacity n).
Definition with_prev (n : pnode) (v : option ptr) : pnode :=
  mk_pnode (pn_next n) v (pn_seq n) (pn_expires n) (pn_packet n) (pn_capacity n).

(** A store through a pointer, and one through a pointer that may be [NULL]. *)
Definition store (p : ptr) (g : pnode → pnode) (h : gmap ptr pnode) : res (gmap ptr pnode) :=
  n ← deref (h !! p); mret (<[p := g n]> h).
Definition store_opt (p : option ptr) (g : pnode → pnode) (h : gmap ptr pnode) : res (gmap ptr pnode) :=
  match p with Some p => store p g h | None => mret h end.

(** ** [pqueue_alloc] *)

(** The first entry with room for the packet. *)
Fixpoint find_capacity (fuel : nat) (h : gmap ptr pnode) (p : option ptr) (packlen : Z) : res (option ptr) :=
  match p with
  | None => mret None
  | Some p =>
      match fuel with
      | O => NoFuel
      | S fuel =>
          n ← deref (h !! p);
          if packlen <=? pn_capacity n then mret (Some p) else find_capacity fuel h (pn_next n) packlen
      end
  end.

Definition expiry (now : Z * Z) : Z * Z :=
  let usec := snd now + packet_timeout_usecs in (fst now + usec / 1000000, usec `mod` 1000000).

Definition fresh_ptr (h : gmap ptr pnode) : ptr := fresh (dom h).

(** An entry out of both lists with its capacity, which is zero if it has no buffer
    yet, or [None]: the first unused one with room for the packet, or else the first one
    with its buffer reallocated, or else a new one. *)
Definition get_entry (mem1 : bool) (packlen : Z) (q : pqueue) : res (option (ptr * Z) * pqueue) :=
  let h := pq_heap q in
  match pq_freelist_head q with
  | Some first =>
      found ← find_capacity (size h) h (Some first) packlen;
      match found with
      | Some p =>
          n ← deref (h !! p);
          let free := if decide (pq_freelist_head q = Some p) then pn_next n else pq_freelist_head q in
          h ← store_opt (pn_prev n) (λ m, with_next m (pn_next n)) h;
          h ← store_opt (pn_next n) (λ m, with_prev m (pn_prev n)) h;
          h ← store_opt free (λ m, with_prev m None) h;
          mret (Some (p, pn_capacity n), mk_pqueue h (pq_head q) (pq_tail q) free)
      | None =>
          n ← deref (h !! first);
          h ← store_opt (pn_next n) (λ m, with_prev m None) h;
          let q := mk_pqueue h (pq_head q) (pq_tail q) (pn_next n) in
          mret (if mem1 then Some (first, packlen) else None, q)
      end
  | None =>
      if mem1 then
        let p := fresh_ptr h in
        let q := mk_pqueue (<[p := mk_pnode None None 0 (0, 0) [] 0]> h) (pq_head q) (pq_tail q) None in
        mret (Some (p, 0), q)
      else mret (None, q)
  end.

(** The buffer of an entry without one. *)
Definition get_buffer (mem2 : bool) (packlen capacity : Z) : option Z :=
  if capacity =? 0 then (if mem2 then Some (Z.max MIN_CAPACITY packlen) else None) else Some capacity.

(** The [assert] aborts the program. *)
Definition pqueue_alloc (mem1 mem2 : bool) (now : Z * Z) (seq : Z) (packet : bytes) (q : pqueue)
    : res (option ptr * pqueue) :=
  let packlen := Z.of_nat (length packet) in
  '(e, q) ← get_entry mem1 packlen q;
  match e with
  | None => mret (None, q)
  | Some (p, capacity) =>
      match get_buffer mem2 packlen capacity with
      | None => mret (None, q)
      | Some capacity =>
          if capacity <? packlen then Fault
          else
            let n := mk_pnode None None seq (expiry now) packet capacity in
            mret (Some p, mk_pqueue (<[p := n]> (pq_heap q)) (pq_head q) (pq_tail q) (pq_freelist_head q))
      end
  end.

(** ** [pqueue_add] *)

Inductive place := Duplicate | Before (point : ptr) | AtEnd.

Fixpoint find_place (fuel : nat) (h : gmap ptr pnode) (p : option ptr) (seq : Z) : res place :=
  match p with
  | None => mret AtEnd
  | Some p =>
      match fuel with
      | O => NoFuel
      | S fuel =>
          n ← deref (h !! p);
          if pn_seq n =? seq then mret Duplicate
          else if seq <? pn_seq n then mret (Before p)
          else find_place fuel h (pn_next n) seq
      end
  end.

Definition insert_before (e point : ptr) (q : pqueue) : res pqueue :=
  let h := pq_heap q in
  n ← deref (h !! point);
  h ← store_opt (pn_prev n) (λ m, with_next m (Some e)) h;
  let head := match pn_prev n with Some _ => pq_head q | None => Some e end in
  h ← store e (λ m, with_prev m (pn_prev n)) h;
  h ← store e (λ m, with_next m (Some point)) h;
  h ← store point (λ m, with_prev m (Some e)) h;
  mret (mk_pqueue h head (pq_tail q) (pq_freelist_head q)).

Definition insert_last (e : ptr) (q : pqueue) : res pqueue :=
  let h := pq_heap q in
  '(h, head) ← match pq_head q with
               | None => mret (h, Some e)
               | Some _ =>
                   t ← deref (pq_tail q);
                   h ← store t (λ m, with_next m (Some e)) h;
                   mret (h, pq_head q)
               end;
  h ← store e (λ m, with_prev m (pq_tail q)) h;
  mret (mk_pqueue h head (Some e) (pq_freelist_head q)).

Definition pqueue_add (mem1 mem2 : bool) (now : Z * Z) (seq : Z) (packet : bytes) (q : pqueue) : res (Z * pqueue) :=
  '(e, q) ← pqueue_alloc mem1 mem2 now seq packet q;
  match e with
  | None => mret (-1, q)
  | Some e =>
      at_ ← find_place (size (pq_heap q)) (pq_heap q) (pq_head q) seq;
      match at_ with
      | Duplicate => mret (-1, q)
      | Before point => q ← insert_before e point q; mret (0, q)
      | AtEnd => q ← insert_last e q; mret (0, q)
      end
  end.

(** ** [pqueue_del] and [pqueue_expiry_time] *)

Definition pqueue_del (point : ptr) (q : pqueue) : res pqueue :=
  let h := pq_heap q in
  n ← deref (h !! point);
  let head := if decide (pq_head q = Some point) then pn_next n else pq_head q in
  let tail := if decide (pq_tail q = Some point) then pn_prev n else pq_tail q in
  h ← store_opt (pn_prev n) (λ m, with_next m (pn_next n)) h;
  h ← store_opt (pn_next n) (λ m, with_prev m (pn_prev n)) h;
  let free := pq_freelist_head q in
  h ← store point (λ m, with_prev (with_next m free) None) h;
  h ← store_opt free (λ m, with_prev m (Some point)) h;
  mret (mk_pqueue h head tail (Some point)).

Definition pqueue_expiry_time (now : Z * Z) (n : pnode) : Z :=
  s32 ((fst (pn_expires n) - fst now) * 1000000 + (snd (pn_expires n) - snd now)).

Definition empty_queue : pqueue := mk_pqueue ∅ None None None.

(** ** The queue of early packets: the theorems

    The two lists of entries are linked correctly in both directions, and the queue is
    an ordered map from numbers to packets. *)

(** ** Linked lists *)

(** The entries [l], in this order, between [prev] and [next]. *)
Fixpoint linked (h : gmap ptr pnode) (prev : option ptr) (l : list ptr) (next : option ptr) : Prop :=
  match l with
  | [] => True
  | p :: l => (∃ n, h !! p = Some n ∧ pn_prev n = prev ∧ pn_next n = match l with [] => next | q :: _ => Some q end)
              ∧ linked h (Some p) l next
  end.

Definition first (l : list ptr) (next : option ptr) : option ptr := match l with [] => next | q :: _ => Some q end.
Definition final (prev : option ptr) (l : list ptr) : option ptr := match last l with Some p => Some p | None => prev end.

Lemma final_cons prev p l : final prev (p :: l) = final (Some p) l.
Proof. unfold final. destruct l as [|q l]; [done|]. rewrite last_cons_cons. by destruct (last (q :: l)) eqn:E; [|apply last_None in E]. Qed.

Lemma linked_app h prev l1 l2 next :
  linked h prev (l1 ++ l2) next ↔ linked h prev l1 (first l2 next) ∧ linked h (final prev l1) l2 next.
Proof.
  revert prev. induction l1 as [|p l1 IH]; intros prev; [cbn; tauto|]. rewrite final_cons. cbn [app linked].
  rewrite IH. assert (E : match l1 ++ l2 with [] => next | q :: _ => Some q end = match l1 with [] => first l2 next | q :: _ => Some q end).
  { by destruct l1. }
  rewrite E. tauto.
Qed.

Lemma linked_ext h h' prev l next :
  (∀ p, p ∈ l → h' !! p = h !! p) → linked h prev l next → linked h' prev l next.
Proof.
  revert prev. induction l as [|p l IH]; intros prev Hh; [done|]. cbn. intros [(n & E & E1 & E2) Hl].
  split; [|apply IH; [|done]; intros q Hq; apply Hh; by right].
  exists n. rewrite Hh by (by left). done.
Qed.

Lemma linked_mapped h prev l next p : linked h prev l next → p ∈ l → ∃ n, h !! p = Some n.
Proof.
  revert prev. induction l as [|q l IH]; intros prev Hl Hp; [by apply not_elem_of_nil in Hp|].
  destruct Hl as [(n & E & _) Hl]. apply elem_of_cons in Hp as [->|Hp]; eauto.
Qed.

(** What an entry is besides its links. *)
Definition same_data (n m : pnode) : Prop :=
  pn_seq n = pn_seq m ∧ pn_expires n = pn_expires m ∧ pn_packet n = pn_packet m ∧ pn_capacity n = pn_capacity m.

(** Changing the last entry's [next], or the first entry's [prev]. *)
Lemma linked_last h prev l p next next' :
  NoDup (l ++ [p]) → linked h prev (l ++ [p]) next →
  ∃ n, h !! p = Some n ∧ linked (<[p := with_next n next']> h) prev (l ++ [p]) next'.
Proof.
  intros Hd Hl. apply linked_app in Hl as [H1 H2]. cbn [linked first] in *. destruct H2 as [(n & E & E1 & E2) _].
  exists n. split; [done|]. apply linked_app. cbn [linked first]. split.
  - eapply linked_ext; [|exact H1]. intros q Hq. rewrite lookup_insert_ne; [done|]. intros ->.
    apply NoDup_app in Hd as (_ & Hd & _). apply (Hd q); [done|]. by left.
  - split; [|done]. exists (with_next n next'). by rewrite lookup_insert_eq.
Qed.

Lemma linked_first h prev prev' p l next :
  NoDup (p :: l) → linked h prev (p :: l) next →
  ∃ n, h !! p = Some n ∧ linked (<[p := with_prev n prev']> h) prev' (p :: l) next.
Proof.
  intros Hd [(n & E & E1 & E2) Hl]. exists n. split; [done|]. split.
  - exists (with_prev n prev'). by rewrite lookup_insert_eq.
  - eapply linked_ext; [|exact Hl]. intros q Hq. rewrite lookup_insert_ne; [done|]. intros ->. by apply NoDup_cons in Hd as [? _].
Qed.

(** ** The invariant *)

(** The number, packet and expiry of an entry of the queue. *)
Record item := mk_item { i_seq : Z; i_packet : bytes; i_expires : Z * Z }.
Definition item_of (n : pnode) : item := mk_item (pn_seq n) (pn_packet n) (pn_expires n).

Definition holds (h : gmap ptr pnode) (l : list ptr) (items : list item) : Prop :=
  Forall2 (λ p i, item_of <$> h !! p = Some i) l items.

Definition ordered (items : list item) : Prop := StronglySorted (λ i j, i_seq i < i_seq j) items.

Lemma holds_ext h h' l items :
  (∀ p, p ∈ l → item_of <$> h' !! p = item_of <$> h !! p) → holds h l items → holds h' l items.
Proof.
  intros Hh Hl. unfold holds in *. induction Hl as [|p i l items E Hl IH]; constructor.
  - rewrite Hh by (by left). done.
  - apply IH. intros q Hq. apply Hh. by right.
Qed.

Lemma item_insert (h : gmap ptr pnode) p n m q : h !! p = Some n → item_of m = item_of n → item_of <$> <[p := m]> h !! q = item_of <$> h !! q.
Proof.
  intros E Em. destruct (decide (q = p)) as [->|Hq]; [|by rewrite lookup_insert_ne].
  rewrite lookup_insert_eq, E. cbn. by rewrite Em.
Qed.

(** ** [find_place] and [find_capacity] *)

Lemma find_place_spec fuel h l items seq prev :
  linked h prev l None → holds h l items → ordered items → (length l ≤ fuel)%nat →
  match find_place fuel h (first l None) seq with
  | Ok Duplicate => ∃ i, i ∈ items ∧ i_seq i = seq
  | Ok (Before p) => ∃ l1 l2 i1 i2, l = l1 ++ p :: l2 ∧ items = i1 ++ i2 ∧ length i1 = length l1
      ∧ Forall (λ i, i_seq i < seq) i1 ∧ Forall (λ i, seq < i_seq i) i2
  | Ok AtEnd => Forall (λ i, i_seq i < seq) items
  | _ => False
  end.
Proof.
  revert fuel items prev. induction l as [|p l IH]; intros fuel items prev Hl Hh Ho Hf.
  { inversion Hh; subst. destruct fuel; cbn; constructor. }
  inversion Hh as [|? i ? items' Ei Hh']; subst. cbn [length] in Hf. destruct fuel as [|fuel]; [lia|].
  destruct Hl as [(n & E & E1 & E2) Hl]. cbn [first find_place]. rewrite E in Ei |- *. cbn [deref]. rewrite bind_ret.
  cbn in Ei. injection Ei as <-. apply StronglySorted_inv in Ho as [Ho Hall].
  destruct (Z.eqb_spec (pn_seq n) seq) as [Eq|Hne]; [exists (item_of n); split; [by left|exact Eq]|].
  destruct (Z.ltb_spec seq (pn_seq n)) as [Hlt|Hge].
  - exists [], l, [], (item_of n :: items'). split_and!; try done. constructor; [done|].
    eapply Forall_impl; [exact Hall|]. cbn. lia.
  - specialize (IH fuel items' (Some p) Hl Hh' Ho ltac:(lia)). unfold first in IH. rewrite <- E2 in IH.
    destruct (find_place fuel h (pn_next n) seq) as [[| point |]| |]; [| | |done|done].
    + destruct IH as (i & Hi & Es). exists i. split; [by right|done].
    + destruct IH as (l1 & l2 & i1 & i2 & -> & -> & Hlen & F1 & F2). exists (p :: l1), l2, (item_of n :: i1), i2.
      split_and!; try done; [cbn; lia|]. constructor; [cbn; lia|done].
    + constructor; [cbn; lia|done].
Qed.

Lemma find_capacity_spec fuel h l packlen prev :
  linked h prev l None → (length l ≤ fuel)%nat →
  match find_capacity fuel h (first l None) packlen with
  | Ok (Some p) => ∃ l1 l2 n, l = l1 ++ p :: l2 ∧ h !! p = Some n ∧ packlen ≤ pn_capacity n
  | Ok None => True
  | _ => False
  end.
Proof.
  revert fuel prev. induction l as [|p l IH]; intros fuel prev Hl Hf; [by destruct fuel|].
  cbn [length] in Hf. destruct fuel as [|fuel]; [lia|]. destruct Hl as [(n & E & E1 & E2) Hl].
  cbn [first find_capacity]. rewrite E. cbn [deref]. rewrite bind_ret. destruct (Z.leb_spec packlen (pn_capacity n)).
  - by exists [], l, n.
  - specialize (IH fuel (Some p) Hl ltac:(lia)). unfold first in IH. rewrite <- E2 in IH.
    destruct (find_capacity fuel h (pn_next n) packlen) as [[r|]| |]; [|done|done|done].
    destruct IH as (l1 & l2 & m & -> & Em & Hm). by exists (p :: l1), l2, m.
Qed.

(** ** Changes of the links *)

(** The heap [h'] is [h] with other links for entries of [l] only. *)
Definition relinked (l : list ptr) (h h' : gmap ptr pnode) : Prop :=
  (∀ q, q ∉ l → h' !! q = h !! q) ∧ ∀ q, item_of <$> h' !! q = item_of <$> h !! q.

Lemma relinked_refl l h : relinked l h h.
Proof. done. Qed.

Lemma relinked_trans l1 l2 h1 h2 h3 : relinked l1 h1 h2 → relinked l2 h2 h3 → relinked (l1 ++ l2) h1 h3.
Proof.
  intros [A1 B1] [A2 B2]. split; intros q; [|by rewrite B2, B1].
  rewrite not_elem_of_app. intros [H1 H2]. by rewrite A2, A1.
Qed.

Lemma relinked_weaken l l' h h' : relinked l h h' → (∀ p, p ∈ l → p ∈ l') → relinked l' h h'.
Proof. intros [A B] Hl. split; [|done]. intros q Hq. apply A. intros Hq'. by apply Hq, Hl. Qed.

Lemma relinked_insert h p n m l : h !! p = Some n → item_of m = item_of n → p ∈ l → relinked l h (<[p := m]> h).
Proof.
  intros E Em Hp. split; intros q; [|by eapply item_insert].
  intros Hq. rewrite lookup_insert_ne; [done|]. by intros ->.
Qed.

Lemma relinked_linked l h h' prev l' next :
  relinked l h h' → (∀ p, p ∈ l → p ∉ l') → linked h prev l' next → linked h' prev l' next.
Proof. intros [A _] Hd. apply linked_ext. intros p Hp. apply A. intros Hp'. by apply (Hd p). Qed.

Lemma relinked_holds l h h' l' items : relinked l h h' → holds h l' items → holds h' l' items.
Proof. intros [_ B]. apply holds_ext. intros p _. apply B. Qed.

Lemma relinked_mapped l h h' p : relinked l h h' → is_Some (h !! p) → is_Some (h' !! p).
Proof. intros [_ B] [n E]. specialize (B p). rewrite E in B. destruct (h' !! p); [eauto|done]. Qed.

Lemma linked_snoc_or_nil (l : list ptr) : l = [] ∨ ∃ l' p, l = l' ++ [p].
Proof. destruct l using rev_ind; [by left|right; eauto]. Qed.

Lemma final_snoc prev l p : final prev (l ++ [p]) = Some p.
Proof. unfold final. by rewrite last_snoc. Qed.

Lemma store_ok p g (h : gmap ptr pnode) n : h !! p = Some n → store p g h = Ok (<[p := g n]> h).
Proof. unfold store. by intros ->. Qed.

(** [final prev l]'s [next] is set. *)
Lemma store_last h l next next' :
  NoDup l → linked h None l next →
  ∃ h', store_opt (final None l) (λ m, with_next m next') h = Ok h' ∧ linked h' None l next' ∧ relinked l h h'.
Proof.
  intros Hd Hl. destruct (linked_snoc_or_nil l) as [->|(l' & p & ->)]; [by exists h|].
  destruct (linked_last h None l' p next next' Hd Hl) as (n & E & Hl'). rewrite final_snoc. cbn [store_opt].
  unfold store. rewrite E. cbn [deref]. rewrite bind_ret. eexists. split; [done|]. split; [exact Hl'|].
  eapply relinked_insert; [exact E|done|]. apply elem_of_app. right. by left.
Qed.

Lemma store_first h l prev prev' next :
  NoDup l → linked h prev l next →
  ∃ h', store_opt (first l None) (λ m, with_prev m prev') h = Ok h' ∧ linked h' prev' l next ∧ relinked l h h'.
Proof.
  intros Hd Hl. destruct l as [|p l]; [by exists h|].
  destruct (linked_first h prev prev' p l next Hd Hl) as (n & E & Hl'). cbn [first store_opt].
  unfold store. rewrite E. cbn [deref]. rewrite bind_ret. eexists. split; [done|]. split; [exact Hl'|].
  eapply relinked_insert; [exact E|done|]. by left.
Qed.

(** Taking an entry out of a list. *)
Lemma unlink_spec h l1 p l2 n :
  NoDup (l1 ++ p :: l2) → linked h None (l1 ++ p :: l2) None → h !! p = Some n →
  pn_prev n = final None l1 ∧ pn_next n = first l2 None
  ∧ ∃ h1 h2, store_opt (pn_prev n) (λ m, with_next m (pn_next n)) h = Ok h1
      ∧ store_opt (pn_next n) (λ m, with_prev m (pn_prev n)) h1 = Ok h2
      ∧ linked h2 None (l1 ++ l2) None ∧ relinked (l1 ++ l2) h h2.
Proof.
  intros Hd Hl E. apply linked_app in Hl as [H1 [(n' & E' & E1 & E2) H2]]. rewrite E in E'. injection E' as <-.
  assert (E2' : pn_next n = first l2 None) by exact E2. split; [done|]. split; [done|]. rewrite E1, E2'.
  apply NoDup_app in Hd as (D1 & D12 & D2). apply NoDup_cons in D2 as [Dp D2].
  destruct (store_last h l1 _ (first l2 None) D1 H1) as (h1 & S1 & L1 & R1).
  assert (L2 : linked h1 (Some p) l2 None).
  { eapply relinked_linked; [exact R1| |exact H2]. intros q Hq Hq2. apply (D12 q Hq). by right. }
  destruct (store_first h1 l2 _ (final None l1) None D2 L2) as (h2 & S2 & L2' & R2).
  exists h1, h2. split; [done|]. split; [done|]. split; [|by eapply relinked_trans].
  apply linked_app. split; [|done]. eapply relinked_linked; [exact R2| |exact L1].
  intros q Hq Hq2. apply (D12 q Hq2). by right.
Qed.

(** ** The two lists *)

Record shape (q : pqueue) (l free : list ptr) (items : list item) : Prop := {
  sh_queue : linked (pq_heap q) None l None;
  sh_free : linked (pq_heap q) None free None;
  sh_head : pq_head q = first l None;
  sh_tail : pq_tail q = final None l;
  sh_freelist : pq_freelist_head q = first free None;
  sh_nodup : NoDup (l ++ free);
  sh_items : holds (pq_heap q) l items }.

Lemma linked_size h l prev next : NoDup l → linked h prev l next → (length l ≤ size h)%nat.
Proof.
  intros Hd Hl. assert (Hs : list_to_set l ⊆ dom h).
  { intros p Hp. apply elem_of_list_to_set in Hp. destruct (linked_mapped _ _ _ _ _ Hl Hp) as [n E].
    apply elem_of_dom. eauto. }
  apply subseteq_size in Hs. rewrite size_dom, size_list_to_set in Hs by done. done.
Qed.

Lemma final_app_ne prev l1 p l2 q : final prev (l1 ++ p :: l2) = Some q → q ≠ p → final prev (l1 ++ l2) = Some q.
Proof.
  destruct l2 as [|x l2].
  - rewrite final_snoc. by intros [= <-].
  - unfold final. rewrite !last_app. destruct (last (p :: x :: l2)) eqn:E.
    + rewrite last_cons_cons in E. by rewrite E.
    + by apply last_None in E.
Qed.

(** A node that is in no list. *)
Definition loose (q : pqueue) (l free : list ptr) (p : ptr) : Prop := (p ∉ l) ∧ (p ∉ free) ∧ is_Some (pq_heap q !! p).

Lemma get_entry_spec mem1 packlen q l free items :
  shape q l free items →
  ∃ r q', get_entry mem1 packlen q = Ok (r, q') ∧ ∃ free', shape q' l free' items
    ∧ (mem1 = true → is_Some r)
    ∧ ∀ p cap, r = Some (p, cap) → loose q' l free' p ∧ (cap = 0 ∨ packlen ≤ cap).
Proof.
  intros [Hl Hf Eh Et Ef Hd Hi]. pose proof Hd as Hd'. apply NoDup_app in Hd' as (Dl & Dlf & Df).
  unfold get_entry. rewrite Ef. destruct free as [|f0 fr]; cbn [first].
  - destruct mem1.
    2: { eexists _, q. split; [done|]. exists []. split; [by constructor|]. split; [done|done]. }
    pose proof (is_fresh (dom (pq_heap q))) as Hfr. fold (fresh_ptr (pq_heap q)) in Hfr. set (p := fresh_ptr _) in *.
    apply not_elem_of_dom in Hfr. eexists _, _. split; [done|]. exists [].
    assert (Hp : p ∉ l) by (intros Hp; destruct (linked_mapped _ _ _ _ _ Hl Hp); congruence).
    split; [|split].
    + constructor; cbn; try done.
      * eapply linked_ext; [|exact Hl]. intros x Hx. rewrite lookup_insert_ne; [done|]. by intros ->.
      * eapply holds_ext; [|exact Hi]. intros x Hx. rewrite lookup_insert_ne; [done|]. by intros ->.
    + eauto.
    + intros p' cap [= <- <-]. split; [|by left]. split; [done|].
      split; [by apply not_elem_of_nil|]. cbn. rewrite lookup_insert_eq. eauto.
  - pose proof (find_capacity_spec (size (pq_heap q)) _ _ packlen None Hf (linked_size _ _ _ _ Df Hf)) as Hfind.
    change (first (f0 :: fr) None) with (Some f0) in Hfind.
    destruct (find_capacity _ _ (Some f0) packlen) as [[p|]| |]; [| |done|done]; rewrite bind_ret.
    + destruct Hfind as (l1 & l2 & n & Es & En & Hcap). rewrite En. cbn [deref]. rewrite bind_ret.
      rewrite Es in Hf, Df, Dlf. destruct (unlink_spec _ _ _ _ _ Df Hf En) as (P1 & P2 & h1 & h2 & S1 & S2 & L2 & R2).
      rewrite S1. rewrite bind_ret. rewrite S2, bind_ret.
      assert (Efree : (if decide (Some f0 = Some p) then pn_next n else Some f0) = first (l1 ++ l2) None).
      { destruct l1 as [|x l1]; cbn in Es |- *; injection Es as -> ->.
        - by rewrite decide_True by done.
        - rewrite decide_False; [done|]. intros [= ->]. apply NoDup_app in Df as (_ & Df & _). apply (Df p); by left. }
      rewrite Efree. apply NoDup_app in Df as (D1 & D12 & D2). apply NoDup_cons in D2 as [Dp D2].
      assert (D' : NoDup (l1 ++ l2)).
      { apply NoDup_app. split_and!; try done. intros x Hx Hx2. apply (D12 x Hx). by right. }
      destruct (store_first h2 (l1 ++ l2) None None None D' L2) as (h3 & S3 & L3 & R3). rewrite S3, bind_ret.
      assert (R : relinked (l1 ++ l2) (pq_heap q) h3).
      { eapply relinked_weaken; [by eapply relinked_trans|]. intros x. rewrite elem_of_app. tauto. }
      assert (Hsub : ∀ x, x ∈ l1 ++ l2 → x ∈ l1 ++ p :: l2).
      { intros x. rewrite !elem_of_app, elem_of_cons. tauto. }
      eexists _, _. split; [done|]. exists (l1 ++ l2). split; [|split; [eauto|]].
      * constructor; cbn [pq_heap pq_head pq_tail pq_freelist_head]; try done.
        -- eapply relinked_linked; [exact R| |exact Hl]. intros x Hx Hx2. by apply (Dlf x Hx2), Hsub.
        -- apply NoDup_app. split_and!; try done. intros x Hx Hx2. by apply (Dlf x Hx), Hsub.
        -- by eapply relinked_holds.
      * intros p' cap [= <- <-]. split; [|by right]. split_and!.
        -- intros Hp. apply (Dlf p Hp), elem_of_app. right. by left.
        -- rewrite elem_of_app. intros [Hp|Hp]; [apply (D12 p Hp); by left|done].
        -- eapply relinked_mapped; [exact R|]. eauto.
    + destruct Hf as [(n & En & E1 & E2) Hf]. rewrite En. cbn [deref]. rewrite bind_ret.
      change (pn_next n = first fr None) in E2. rewrite E2. apply NoDup_cons in Df as [Df0 Df].
      destruct (store_first (pq_heap q) fr (Some f0) None None Df Hf) as (h1 & S1 & L1 & R1). rewrite S1, bind_ret.
      eexists _, _. split; [done|]. exists fr. split; [|split].
      * constructor; cbn [pq_heap pq_head pq_tail pq_freelist_head]; try done.
        -- eapply relinked_linked; [exact R1| |exact Hl]. intros x Hx Hx2. apply (Dlf x Hx2). by right.
        -- apply NoDup_app. split_and!; try done. intros x Hx Hx2. apply (Dlf x Hx). by right.
        -- by eapply relinked_holds.
      * intros ->. eauto.
      * intros p cap Hr. destruct mem1; [|done]. injection Hr as <- <-. split; [|by right]. split_and!; [|done|].
        -- intros Hp. apply (Dlf f0 Hp). by left.
        -- eapply relinked_mapped; [exact R1|]. eauto.
Qed.

(** The queue [q] consists of [items], in order. *)
Definition queued (q : pqueue) (items : list item) : Prop := ordered items ∧ ∃ l free, shape q l free items.

Lemma queued_empty : queued empty_queue [].
Proof. split; [constructor|]. exists [], []. constructor; try done; constructor. Qed.

(** ** [pqueue_add] *)

Fixpoint insert_item (i : item) (items : list item) : list item :=
  match items with
  | [] => [i]
  | j :: rest => if i_seq i <? i_seq j then i :: items else j :: insert_item i rest
  end.

Lemma insert_item_elem i items j : j ∈ insert_item i items ↔ j = i ∨ j ∈ items.
Proof.
  induction items as [|k items IH]; cbn; [by rewrite list_elem_of_singleton, elem_of_nil; tauto|].
  destruct (_ <? _); rewrite ?elem_of_cons, ?IH; tauto.
Qed.

Lemma insert_item_ordered i items :
  ordered items → Forall (λ j, i_seq j ≠ i_seq i) items → ordered (insert_item i items).
Proof.
  unfold ordered. induction 1 as [|j items Ho IH Hall]; intros Hne; cbn; [by repeat constructor|].
  apply Forall_cons in Hne as [Hj Hne]. destruct (Z.ltb_spec (i_seq i) (i_seq j)).
  - constructor; [by constructor|]. constructor; [done|]. eapply Forall_impl; [exact Hall|]. cbn. lia.
  - constructor; [by apply IH|]. apply Forall_forall. intros k Hk. apply insert_item_elem in Hk as [->|Hk]; [lia|].
    by apply (proj1 (Forall_forall _ _) Hall).
Qed.

Lemma insert_item_between i i1 i2 :
  Forall (λ j, i_seq j < i_seq i) i1 → Forall (λ j, i_seq i < i_seq j) i2 → insert_item i (i1 ++ i2) = i1 ++ i :: i2.
Proof.
  induction 1 as [|j i1 Hj Hi1 IH]; intros Hi2; cbn.
  - destruct Hi2 as [|j i2 Hj]; [done|]. cbn. by rewrite (proj2 (Z.ltb_lt _ _)).
  - rewrite (proj2 (Z.ltb_ge _ _)) by lia. by rewrite IH.
Qed.

(** A loose entry gets its contents. *)
Lemma shape_fill q l free items p n :
  shape q l free items → p ∉ l → p ∉ free → pn_next n = None → pn_prev n = None →
  let q' := mk_pqueue (<[p := n]> (pq_heap q)) (pq_head q) (pq_tail q) (pq_freelist_head q) in shape q' l free items.
Proof.
  intros [Hl Hf Eh Et Ef Hd Hi] H1 H2 _ _. constructor; cbn; try done.
  - eapply linked_ext; [|exact Hl]. intros x Hx. rewrite lookup_insert_ne; [done|]. by intros ->.
  - eapply linked_ext; [|exact Hf]. intros x Hx. rewrite lookup_insert_ne; [done|]. by intros ->.
  - eapply holds_ext; [|exact Hi]. intros x Hx. rewrite lookup_insert_ne; [done|]. by intros ->.
Qed.

(** It is linked in. *)
Lemma insert_before_spec q l1 p l2 free items i1 i2 e n :
  shape q (l1 ++ p :: l2) free items → items = i1 ++ i2 → length i1 = length l1 →
  e ∉ l1 ++ p :: l2 → e ∉ free → pq_heap q !! e = Some n → pn_next n = None → pn_prev n = None →
  ∃ q', insert_before e p q = Ok q' ∧ shape q' (l1 ++ e :: p :: l2) free (i1 ++ item_of n :: i2).
Proof.
  intros [Hl Hf Eh Et Ef Hd Hi] -> Hlen He1 He2 En N1 N2.
  pose proof Hd as Hd'. apply NoDup_app in Hd' as (Dl & Dlf & Df).
  pose proof Hl as Hl'. apply linked_app in Hl' as [L1 L2].
  pose proof L2 as L2'. destruct L2' as [(m & Em & M1 & M2) _]. unfold insert_before. rewrite Em. cbn [deref]. rewrite bind_ret.
  rewrite M1. pose proof Dl as Dl'. apply NoDup_app in Dl' as (D1 & D12 & D2).
  destruct (store_last (pq_heap q) l1 _ (Some e) D1 L1) as (h1 & S1 & L1' & R1). rewrite S1, bind_ret.
  assert (E1 : h1 !! e = Some n).
  { rewrite (proj1 R1); [done|]. intros Hx. apply He1, elem_of_app. by left. }
  rewrite (store_ok _ _ _ _ E1), bind_ret, (store_ok _ _ _ _ (lookup_insert_eq h1 e _)), bind_ret.
  assert (Hep : e ≠ p) by (intros ->; apply He1, elem_of_app; right; by left).
  assert (E2 : h1 !! p = Some m).
  { rewrite (proj1 R1); [done|]. intros Hx. apply (D12 p Hx). by left. }
  rewrite insert_insert_eq. erewrite store_ok by (rewrite lookup_insert_ne by done; exact E2). rewrite bind_ret.
  set (n' := with_next (with_prev n (final None l1)) (Some p)). set (m' := with_prev m (Some e)).
  set (h' := <[p := m']> (<[e := n']> h1)).
  assert (Hother : ∀ x, x ≠ e → x ≠ p → h' !! x = h1 !! x) by (intros x Hx1 Hx2; subst h'; rewrite !lookup_insert_ne; done).
  assert (Hfree : ∀ x, x ∈ free → h' !! x = pq_heap q !! x).
  { intros x Hx. assert (x ∉ l1 ++ p :: l2) as Hnl by (intros Hx2; by apply (Dlf x)).
    rewrite elem_of_app, elem_of_cons in Hnl.
    rewrite Hother; [apply (proj1 R1); tauto| |]; intros ->; tauto. }
  eexists. split; [done|]. constructor; cbn [pq_heap pq_head pq_tail pq_freelist_head].
  - apply linked_app. cbn [first linked]. split; [|split; [|split]].
    + eapply linked_ext; [|exact L1']. intros x Hx. apply Hother.
      * intros ->. apply He1, elem_of_app. by left.
      * intros ->. apply (D12 p Hx). by left.
    + exists n'. split; [|done]. subst h'. by rewrite lookup_insert_ne, lookup_insert_eq.
    + exists m'. split; [subst h'; by rewrite lookup_insert_eq|]. done.
    + destruct L2 as [_ L2]. eapply linked_ext; [|exact L2]. intros x Hx. rewrite Hother.
      * apply (proj1 R1). intros Hx2. apply (D12 x Hx2). by right.
      * intros ->. apply He1, elem_of_app. right. by right.
      * intros ->. by apply NoDup_cons in D2 as [? _].
  - eapply linked_ext; [|exact Hf]. done.
  - rewrite Eh. destruct l1 as [|x l1]; [done|]. cbn [first app]. destruct (linked_snoc_or_nil (x :: l1)) as [|(l' & y & ->)]; [done|].
    rewrite final_snoc. by destruct l'.
  - rewrite Et. unfold final. rewrite !last_app. by rewrite last_cons_cons.
  - done.
  - rewrite <- app_assoc. cbn [app]. apply NoDup_app. split_and!; [done| |].
    + intros x Hx. rewrite elem_of_cons. intros [->|Hx2]; [by apply He1, elem_of_app; left|].
      rewrite elem_of_cons, elem_of_app in Hx2. destruct Hx2 as [->|[Hx2|Hx2]].
      * apply (D12 p Hx). by left. * apply (D12 x Hx). by right.
      * apply (Dlf x); [apply elem_of_app; by left|done].
    + apply NoDup_cons. split.
      * rewrite elem_of_cons, elem_of_app. intros [->|[Hx|Hx]]; [done| |done]. apply He1, elem_of_app. right. by right.
      * change (NoDup ((p :: l2) ++ free)). apply NoDup_app. split_and!; [done| |done]. intros x Hx. apply Dlf, elem_of_app. by right.
  - unfold holds in *. apply Forall2_app_inv in Hi; [|done]. destruct Hi as [I1 I2]. apply Forall2_app.
    + eapply holds_ext; [|exact I1]. intros x Hx. rewrite Hother; [apply R1| |].
      * intros ->. apply He1, elem_of_app. by left. * intros ->. apply (D12 p Hx). by left.
    + constructor; [subst h'; by rewrite lookup_insert_ne, lookup_insert_eq|].
      eapply holds_ext; [|exact I2]. intros x Hx. destruct (decide (x = p)) as [->|Hxp].
      * subst h'. rewrite lookup_insert_eq, Em. done.
      * rewrite Hother; [apply R1| |done]. intros ->. apply He1, elem_of_app. by right.
Qed.

Lemma insert_last_spec q l free items e n :
  shape q l free items → e ∉ l → e ∉ free → pq_heap q !! e = Some n → pn_next n = None →
  ∃ q', insert_last e q = Ok q' ∧ shape q' (l ++ [e]) free (items ++ [item_of n]).
Proof.
  intros [Hl Hf Eh Et Ef Hd Hi] He1 He2 En N1. pose proof Hd as Hd'. apply NoDup_app in Hd' as (Dl & Dlf & Df).
  destruct (store_last (pq_heap q) l _ (Some e) Dl Hl) as (h1 & S1 & L1 & R1).
  assert (E1 : h1 !! e = Some n) by (by rewrite (proj1 R1)).
  unfold insert_last. assert (Estart : (match pq_head q with
               | None => mret (pq_heap q, Some e)
               | Some _ => t ← deref (pq_tail q); h ← store t (λ m, with_next m (Some e)) (pq_heap q); mret (h, pq_head q)
               end : res (gmap ptr pnode * option ptr)) = Ok (h1, first (l ++ [e]) None)).
  { rewrite Eh, Et. destruct (linked_snoc_or_nil l) as [->|(l' & p & ->)]; [by injection S1 as <-|].
    rewrite final_snoc in S1 |- *. cbn [store_opt] in S1. destruct (first (l' ++ [p]) None) eqn:Efirst; [|by destruct l'].
    cbn [deref]. rewrite bind_ret, S1, bind_ret. unfold first in Efirst |- *. destruct l'; by injection Efirst as ->. }
  cbv zeta. rewrite Estart, bind_ret. rewrite (store_ok _ _ _ _ E1), bind_ret.
  set (n' := with_prev n (pq_tail q)). set (h' := <[e := n']> h1).
  assert (Hother : ∀ x, x ≠ e → h' !! x = h1 !! x) by (intros x Hx; subst h'; by rewrite lookup_insert_ne).
  eexists. split; [done|]. constructor; cbn [pq_heap pq_head pq_tail pq_freelist_head].
  - apply linked_app. cbn [first linked]. split; [|split; [|done]].
    + eapply linked_ext; [|exact L1]. intros x Hx. apply Hother. by intros ->.
    + exists n'. split; [subst h'; by rewrite lookup_insert_eq|done].
  - eapply linked_ext; [|exact Hf]. intros x Hx. rewrite Hother by (by intros ->). apply (proj1 R1). intros Hx2. by apply (Dlf x).
  - done.
  - by rewrite final_snoc.
  - done.
  - rewrite <- app_assoc. apply NoDup_app. split_and!; [done| |].
    + intros x Hx. cbn [app]; rewrite elem_of_cons. intros [->|Hx2]; [done|]. by apply (Dlf x).
    + by apply NoDup_cons.
  - apply Forall2_app.
    + eapply holds_ext; [|exact Hi]. intros x Hx. rewrite Hother by (by intros ->). apply R1.
    + constructor; [|constructor]. subst h'. by rewrite lookup_insert_eq.
Qed.

Definition new_item (now : Z * Z) (seq : Z) (packet : bytes) : item := mk_item seq packet (expiry now).

Lemma pqueue_alloc_spec mem1 mem2 now seq packet q l free items :
  shape q l free items →
  ∃ e q' free', pqueue_alloc mem1 mem2 now seq packet q = Ok (e, q') ∧ shape q' l free' items
    ∧ (mem1 = true → mem2 = true → is_Some e)
    ∧ ∀ p, e = Some p → (p ∉ l) ∧ (p ∉ free') ∧ ∃ n, pq_heap q' !! p = Some n ∧ item_of n = new_item now seq packet
        ∧ pn_next n = None ∧ pn_prev n = None ∧ Z.of_nat (length packet) ≤ pn_capacity n.
Proof.
  intros Hs. destruct (get_entry_spec mem1 (Z.of_nat (length packet)) q l free items Hs)
    as (r & q1 & E & free' & Hs1 & Hmem & Hr).
  unfold pqueue_alloc. rewrite E, bind_ret. destruct r as [[p cap]|].
  - destruct (Hr p cap eq_refl) as [(H1 & H2 & _) Hcap]. destruct (get_buffer mem2 _ cap) as [cap'|] eqn:Eb.
    + assert (Hcap' : Z.of_nat (length packet) ≤ cap').
      { unfold get_buffer in Eb. destruct (Z.eqb_spec cap 0); [destruct mem2; [|done]|]; injection Eb as <-; lia. }
      rewrite (proj2 (Z.ltb_ge _ _)) by lia. eexists _, _, free'. split; [done|].
      split; [by apply (shape_fill q1)|]. split; [eauto|]. intros p' [= <-]. split; [done|]. split; [done|].
      eexists. split; [cbn; by rewrite lookup_insert_eq|]. done.
    + exists None, q1, free'. split; [done|]. split; [done|]. split; [|done]. intros _ ->. unfold get_buffer in Eb. by destruct (cap =? 0).
  - exists None, q1, free'. split; [done|]. split; [done|]. split; [|done]. intros H1 _. by destruct (Hmem H1).
Qed.

(** Addition to the queue; when it fails, the queue is as before. *)
Lemma pqueue_add_spec mem1 mem2 now seq packet q items :
  queued q items →
  ∃ r q', pqueue_add mem1 mem2 now seq packet q = Ok (r, q')
    ∧ ((r = -1 ∧ queued q' items ∧ ((∃ i, i ∈ items ∧ i_seq i = seq) ∨ mem1 && mem2 = false))
       ∨ (r = 0 ∧ Forall (λ i, i_seq i ≠ seq) items ∧ queued q' (insert_item (new_item now seq packet) items))).
Proof.
  intros [Ho (l & free & Hs)].
  destruct (pqueue_alloc_spec mem1 mem2 now seq packet q l free items Hs) as (e & q1 & free' & E & Hs1 & Hmem & He).
  unfold pqueue_add. rewrite E, bind_ret. destruct e as [e|].
  2: { exists (-1), q1. split; [done|]. left. split; [done|]. split; [split; eauto|]. right.
       destruct mem1, mem2; try done. by destruct (Hmem eq_refl eq_refl). }
  destruct (He e eq_refl) as (H1 & H2 & n & En & Ei & N1 & N2 & _).
  pose proof Hs1 as [Hl Hf Eh Et Ef Hd Hi]. pose proof Hd as Hd'. apply NoDup_app in Hd' as (Dl & _ & _).
  pose proof (find_place_spec (size (pq_heap q1)) _ _ _ seq None Hl Hi Ho (linked_size _ _ _ _ Dl Hl)) as Hfind.
  rewrite Eh. destruct (find_place _ _ _ _) as [[|p|]| |]; try done; rewrite bind_ret.
  - exists (-1), q1. split; [done|]. left. split; [done|]. split; [split; eauto|]. by left.
  - destruct Hfind as (l1 & l2 & i1 & i2 & -> & -> & Hlen & F1 & F2).
    destruct (insert_before_spec q1 l1 p l2 free' (i1 ++ i2) i1 i2 e n Hs1 eq_refl Hlen H1 H2 En N1 N2) as (q2 & E2 & Hs2).
    rewrite E2, bind_ret. exists 0, q2. split; [done|]. right. split; [done|].
    assert (Hne : Forall (λ i, i_seq i ≠ seq) (i1 ++ i2)).
    { apply Forall_app. split; (eapply Forall_impl; [eassumption|]); cbn; lia. }
    split; [done|]. split; [by apply insert_item_ordered|]. rewrite insert_item_between by done. rewrite Ei in Hs2. eauto.
  - destruct (insert_last_spec q1 l free' items e n Hs1 H1 H2 En N1) as (q2 & E2 & Hs2).
    rewrite E2, bind_ret. exists 0, q2. split; [done|]. right. split; [done|].
    assert (Hne : Forall (λ i, i_seq i ≠ seq) items) by (eapply Forall_impl; [eassumption|]; cbn; lia).
    split; [done|]. split; [by apply insert_item_ordered|].
    replace (insert_item (new_item now seq packet) items) with (insert_item (new_item now seq packet) (items ++ [])) by (by rewrite app_nil_r).
    rewrite insert_item_between by (by auto). rewrite Ei in Hs2. eauto.
Qed.

(** ** [pqueue_del] *)

Lemma pqueue_del_spec q l1 p l2 free i1 i i2 :
  shape q (l1 ++ p :: l2) free (i1 ++ i :: i2) → length i1 = length l1 →
  ∃ q', pqueue_del p q = Ok q' ∧ shape q' (l1 ++ l2) (p :: free) (i1 ++ i2).
Proof.
  intros [Hl Hf Eh Et Ef Hd Hi] Hlen. pose proof Hd as Hd'. apply NoDup_app in Hd' as (Dl & Dlf & Df).
  destruct (linked_mapped _ _ _ _ p Hl) as [n En]; [apply elem_of_app; right; by left|].
  destruct (unlink_spec _ _ _ _ _ Dl Hl En) as (P1 & P2 & h1 & h2 & S1 & S2 & L2 & R2).
  apply NoDup_app in Dl as (D1 & D12 & D2). apply NoDup_cons in D2 as [Dp D2].
  assert (Dp' : p ∉ l1 ++ l2) by (rewrite elem_of_app; intros [Hp|Hp]; [apply (D12 p Hp); by left|done]).
  assert (Dpf : p ∉ free) by (apply Dlf, elem_of_app; right; by left).
  assert (Hsub : ∀ x, x ∈ l1 ++ l2 → x ∉ free).
  { intros x Hx. apply Dlf. rewrite elem_of_app in Hx |- *. rewrite elem_of_cons. tauto. }
  assert (E2 : h2 !! p = Some n) by (by rewrite (proj1 R2)).
  unfold pqueue_del. rewrite En. cbn [deref]. rewrite bind_ret. cbv zeta. rewrite S1, bind_ret, S2, bind_ret.
  rewrite (store_ok _ _ _ _ E2), bind_ret, Ef.
  set (n' := with_prev (with_next n (first free None)) None). set (h3 := <[p := n']> h2).
  assert (Hother : ∀ x, x ≠ p → h3 !! x = h2 !! x) by (intros x Hx; subst h3; by rewrite lookup_insert_ne).
  assert (F3 : linked h3 None free None).
  { eapply linked_ext; [|exact Hf]. intros x Hx. rewrite Hother by (by intros ->).
    apply (proj1 R2). intros Hx2. by apply (Hsub x). }
  destruct (store_first h3 free None (Some p) None Df F3) as (h4 & S4 & F4 & R4). rewrite S4, bind_ret.
  assert (Hl4 : ∀ x, x ∈ l1 ++ l2 → h4 !! x = h2 !! x).
  { intros x Hx. rewrite (proj1 R4) by (by apply Hsub). apply Hother. by intros ->. }
  eexists. split; [done|]. constructor; cbn [pq_heap pq_head pq_tail pq_freelist_head].
  - by eapply linked_ext.
  - split; [|done]. exists n'. rewrite (proj1 R4) by done. subst h3. rewrite lookup_insert_eq. done.
  - rewrite Eh, P2. destruct l1 as [|x l1]; cbn [first app]; [by rewrite decide_True|].
    rewrite decide_False; [done|]. intros [= ->]. apply Dp'. by left.
  - rewrite Et, P1. case_decide as Hc.
    + destruct l2 as [|y l2]; [by rewrite app_nil_r|]. exfalso. apply Dp. unfold final in Hc.
      rewrite last_app, last_cons_cons in Hc. destruct (last (y :: l2)) eqn:El; [|by apply last_None in El].
      injection Hc as ->. apply last_Some in El as [? ->]. apply elem_of_app. right. by left.
    + destruct (final None (l1 ++ p :: l2)) as [x|] eqn:Ex.
      * symmetry. eapply final_app_ne; [exact Ex|]. by intros ->.
      * unfold final in Ex. rewrite last_app in Ex. destruct (last (p :: l2)) eqn:El; [done|by apply last_None in El].
  - done.
  - apply NoDup_app. split_and!.
    + apply NoDup_app. split_and!; [done| |done]. intros x Hx Hx2. apply (D12 x Hx). by right.
    + intros x Hx. rewrite elem_of_cons. intros [->|Hx2]; [done|]. by apply (Hsub x).
    + by apply NoDup_cons.
  - unfold holds in *. apply Forall2_app_inv in Hi as [I1 I2]; [|done]. inversion I2 as [|? ? ? ? Ei I2']; subst.
    eapply (holds_ext (pq_heap q)); [|by apply Forall2_app].
    intros x Hx. rewrite Hl4 by done. apply R2.
Qed.

(** The first entry, and the queue without it. *)
Lemma pqueue_head_spec q i items :
  queued q (i :: items) →
  ∃ p n q', pq_head q = Some p ∧ pq_heap q !! p = Some n ∧ item_of n = i
    ∧ pqueue_del p q = Ok q' ∧ queued q' items.
Proof.
  intros [Ho (l & free & Hs)]. pose proof Hs as [Hl Hf Eh Et Ef Hd Hi].
  inversion Hi as [|p ? l' ? Ei Hi']; subst. destruct (pq_heap q !! p) as [n|] eqn:En; [|done]. injection Ei as <-.
  destruct (pqueue_del_spec q [] p l' free [] (item_of n) items Hs eq_refl) as (q' & E & Hs').
  exists p, n, q'. split_and!; try done. apply StronglySorted_inv in Ho as [Ho _]. split; eauto.
Qed.

Lemma pqueue_head_nil q : queued q [] → pq_head q = None.
Proof. intros [_ (l & free & [Hl Hf Eh Et Ef Hd Hi])]. by inversion Hi; subst. Qed.

(** ** The queue as an ordered map *)

(** [Pop] is what [dequeue_gre] does with the queue: it reads the first entry, if there
    is one, and deletes it. *)
Inductive op := Add (mem1 mem2 : bool) (now : Z * Z) (seq : Z) (packet : bytes) | Pop.
Inductive reply := Added (r : Z) | Popped (i : option item).

Definition run_op (o : op) (q : pqueue) : res (reply * pqueue) :=
  match o with
  | Add mem1 mem2 now seq packet => '(r, q) ← pqueue_add mem1 mem2 now seq packet q; mret (Added r, q)
  | Pop =>
      match pq_head q with
      | None => mret (Popped None, q)
      | Some p => n ← deref (pq_heap q !! p); q ← pqueue_del p q; mret (Popped (Some (item_of n)), q)
      end
  end.

Fixpoint run_ops (ops : list op) (q : pqueue) : res (list reply * pqueue) :=
  match ops with
  | [] => mret ([], q)
  | o :: ops => '(r, q) ← run_op o q; '(rs, q) ← run_ops ops q; mret (r :: rs, q)
  end.

(** The abstract queue: the packets in the order of their numbers, each number once. *)
Inductive abs_op : list item → op → reply → list item → Prop :=
  | abs_duplicate items mem1 mem2 now seq packet :
      (∃ i, i ∈ items ∧ i_seq i = seq) → abs_op items (Add mem1 mem2 now seq packet) (Added (-1)) items
  | abs_no_memory items mem1 mem2 now seq packet :
      mem1 && mem2 = false → abs_op items (Add mem1 mem2 now seq packet) (Added (-1)) items
  | abs_add items mem1 mem2 now seq packet :
      Forall (λ i, i_seq i ≠ seq) items →
      abs_op items (Add mem1 mem2 now seq packet) (Added 0) (insert_item (new_item now seq packet) items)
  | abs_pop i items : abs_op (i :: items) Pop (Popped (Some i)) items
  | abs_empty : abs_op [] Pop (Popped None) [].

Inductive abs_ops : list item → list op → list reply → list item → Prop :=
  | abs_nil items : abs_ops items [] [] items
  | abs_cons items o r items1 ops rs items2 :
      abs_op items o r items1 → abs_ops items1 ops rs items2 → abs_ops items (o :: ops) (r :: rs) items2.

Lemma queue_op_refines o q items :
  queued q items → ∃ r q' items', run_op o q = Ok (r, q') ∧ abs_op items o r items' ∧ queued q' items'.
Proof.
  intros Hq. destruct o as [mem1 mem2 now seq packet|]; cbn [run_op].
  - destruct (pqueue_add_spec mem1 mem2 now seq packet q items Hq) as (r & q' & E & [(-> & Hq' & Hc)|(-> & Hne & Hq')]);
      rewrite E, bind_ret; eexists _, _, _; (split; [done|]; split; [|exact Hq']).
    + destruct Hc; [by apply abs_duplicate|by apply abs_no_memory].
    + by apply abs_add.
  - destruct items as [|i items].
    + rewrite (pqueue_head_nil q Hq). eexists _, _, []. split; [done|]. split; [constructor|done].
    + destruct (pqueue_head_spec q i items Hq) as (p & n & q' & -> & -> & <- & E & Hq'). cbn [deref].
      rewrite bind_ret, E, bind_ret. eexists _, _, items. split; [done|]. split; [constructor|done].
Qed.

Lemma queue_ops_refines ops q items :
  queued q items → ∃ rs q' items', run_ops ops q = Ok (rs, q') ∧ abs_ops items ops rs items' ∧ queued q' items'.
Proof.
  revert q items. induction ops as [|o ops IH]; intros q items Hq.
  - exists [], q, items. split; [done|]. split; [constructor|done].
  - destruct (queue_op_refines o q items Hq) as (r & q1 & items1 & E & Ha & Hq1).
    destruct (IH q1 items1 Hq1) as (rs & q2 & items2 & E2 & Ha2 & Hq2).
    exists (r :: rs), q2, items2. cbn [run_ops]. rewrite E, bind_ret, E2, bind_ret.
    split; [done|]. split; [|done]. by econstructor.
Qed.

(** C36: The queue of early packets is an ordered map.  From the empty queue, every
    sequence of additions (with any numbers, packets and failures of [malloc]) and of
    removals of the first entry runs without a bad pointer, and the answers are those of
    a list of packets sorted by number in which each number occurs once: an addition
    answers -1 and changes nothing if the number is there or memory is short, and else
    puts the packet at its place; a removal gives the packet with the least number.  At
    the end the entries, followed from [pq_head], are that list. *)
Theorem pqueue_refines_ordered_map (ops : list op) :
  ∃ rs q items, run_ops ops empty_queue = Ok (rs, q) ∧ abs_ops [] ops rs items
    ∧ ordered items ∧ ∃ l, linked (pq_heap q) None l None ∧ pq_head q = first l None ∧ pq_tail q = final None l
        ∧ holds (pq_heap q) l items.
Proof.
  destruct (queue_ops_refines ops empty_queue [] queued_empty) as (rs & q & items & E & Ha & Ho & l & free & []).
  exists rs, q, items. split_and!; try done. by exists l.
Qed.

(** The entry of a duplicate is in neither list afterwards: it is lost. *)
Definition lost (r : res (list reply * pqueue)) : option nat :=
  match r with
  | Ok (_, q) => match pq_freelist_head q with None => Some (size (pq_heap q)) | Some _ => None end
  | _ => None
  end.

Example duplicate_leaks :
  lost (run_ops [Add true true (0, 0) 5 [1]; Add true true (0, 0) 5 [1]; Add true true (0, 0) 5 [1]; Pop] empty_queue) = None
  ∧ lost (run_ops [Add true true (0, 0) 5 [1]; Add true true (0, 0) 5 [1]; Add true true (0, 0) 5 [1]] empty_queue) = Some 3%nat.
Proof. by vm_compute. Qed.
