(* ===== verification/PppGre.v ===== *)
(** * The GRE side of the PPTP client (progs.gpl/pppd.alpha/pptp/pptp_gre.c)

    Packets from the server carry numbers: they are delivered in the order of their
    numbers, early ones wait in the queue, and the highest number is acknowledged within
    half a second, with a packet of the own side or alone.  The time of day, what
    [read] and [write] return and the failures of [malloc] are arguments; the statistics
    are left out, nothing reads them.  Numbers are [u_int32_t]s, but [int]s in the queue. *)

From stdpp Require Import base numbers gmap list.
From S2P Require Import Prelude Bytes PppHdlc PppQueue.

Definition MISSING_WINDOW : Z := 300.
Definition PPTP_GRE_PROTO : Z := 0x880b.
Definition PPTP_GRE_VER : Z := 0x1.
Definition PPTP_GRE_FLAG_C : Z := 0x80.
Definition PPTP_GRE_FLAG_R : Z := 0x40.
Definition PPTP_GRE_FLAG_K : Z := 0x20.
Definition PPTP_GRE_FLAG_S : Z := 0x10.
Definition PPTP_GRE_FLAG_A : Z := 0x80.
(** [sizeof(gre_buff)] and [sizeof(struct pptp_gre_header)] *)
Definition GRE_BUFF : nat := Z.to_nat (PACKET_MAX + 64).
Definition GRE_HEADER : nat := 16.

(** A flag of a byte. *)
Definition has (flags flag : Z) : bool := negb (Z.land flags flag =? 0).

(** [WRAPPED] *)
Definition WRAPPED (curseq lastseq : Z) : bool :=
  (Z.land curseq 0xffffff00 =? 0) && (Z.land lastseq 0xffffff00 =? 0xffffff00).

(** The static variables.  [g_queue] is the state of pqueue.c, and [ack_timers] counts
    the timeouts of [gre_send_ack] that are registered. *)
Record gre := mk_gre {
  ack_sent : Z; ack_recv : Z; seq_sent : Z; seq_recv : Z; peer_call_id : Z; gre_buff : bytes;
  g_first : bool; g_seq : Z; g_queue : pqueue; ack_timers : nat }.

Definition with_buff (g : gre) (b : bytes) : gre :=
  mk_gre (ack_sent g) (ack_recv g) (seq_sent g) (seq_recv g) (peer_call_id g) b (g_first g) (g_seq g) (g_queue g) (ack_timers g).
Definition with_ack_recv (g : gre) (v : Z) : gre :=
  mk_gre (ack_sent g) v (seq_sent g) (seq_recv g) (peer_call_id g) (gre_buff g) (g_first g) (g_seq g) (g_queue g) (ack_timers g).
Definition with_queue (g : gre) (q : pqueue) : gre :=
  mk_gre (ack_sent g) (ack_recv g) (seq_sent g) (seq_recv g) (peer_call_id g) (gre_buff g) (g_first g) (g_seq g) q (ack_timers g).
Definition with_seq_recv (g : gre) (v : Z) : gre :=
  mk_gre (ack_sent g) (ack_recv g) (seq_sent g) v (peer_call_id g) (gre_buff g) (g_first g) (g_seq g) (g_queue g) (ack_timers g).
(** [first = 0] *)
Definition not_first (g : gre) : gre :=
  mk_gre (ack_sent g) (ack_recv g) (seq_sent g) (seq_recv g) (peer_call_id g) (gre_buff g) false (g_seq g) (g_queue g) (ack_timers g).
(** [eloop_register_timeout(0, 500000, gre_send_ack, ...)] *)
Definition add_timer (g : gre) : gre :=
  mk_gre (ack_sent g) (ack_recv g) (seq_sent g) (seq_recv g) (peer_call_id g) (gre_buff g) (g_first g) (g_seq g) (g_queue g) (S (ack_timers g)).
(** [ack_sent = seq_recv; eloop_cancel_timeout(gre_send_ack, ...)] *)
Definition acknowledged (g : gre) : gre :=
  mk_gre (seq_recv g) (ack_recv g) (seq_sent g) (seq_recv g) (peer_call_id g) (gre_buff g) (g_first g) (g_seq g) (g_queue g) 0.
(** [seq_sent = seq; seq++] *)
Definition next_seq (g : gre) : gre :=
  mk_gre (ack_sent g) (ack_recv g) (g_seq g) (seq_recv g) (peer_call_id g) (gre_buff g) (g_first g) (u32 (g_seq g + 1)) (g_queue g) (ack_timers g).

(** [init_vars]: the buffer, the call's number, the queue and the timeouts stay. *)
Definition init_vars (g : gre) : gre :=
  mk_gre 0 0 0 0 (peer_call_id g) (gre_buff g) true 1 (g_queue g) (ack_timers g).

(** [call_callback] for [CALL_OPEN_DONE]; the number comes from [pptp_call_get_ids]. *)
Definition call_open_done (peer_call_id : Z) (g : gre) : gre :=
  mk_gre 0 0 0 0 peer_call_id (gre_buff g) (g_first g) (g_seq g) (g_queue g) (ack_timers g).

(** ** Sending *)

(** The members of the header up to [call_id]. *)
Definition gre_shell (len call_id : Z) (b : bytes) : bytes :=
  let b := set8 b 0 PPTP_GRE_FLAG_K in
  let b := set8 b 1 PPTP_GRE_VER in
  let b := set16 b 2 PPTP_GRE_PROTO in
  let b := set16 b 4 len in
  set16 b 6 call_id.

(** [header->member |= flag] *)
Definition or8 (b : bytes) (off : nat) (flag : Z) : bytes := set8 b off (Z.lor (be_val (slice b off 1)) flag).

(** The result of [encaps_gre], and what it writes to the socket, if it does; [rc] is
    the result of this [write]. *)
Definition encaps_gre (rc : bytes → Z) (pack : option bytes) (g : gre) : Z * option bytes * gre :=
  match pack with
  | None =>
      let b := gre_shell 0 (peer_call_id g) (gre_buff g) in
      if negb (ack_sent g =? seq_recv g) then
        let b := or8 b 1 PPTP_GRE_FLAG_A in
        let b := set16 b 4 0 in
        let b := set32 b 8 (seq_recv g) in
        let out := take (GRE_HEADER - 4) b in
        (rc out, Some out, with_buff (acknowledged g) b)
      else (0, None, with_buff g b)
  | Some pack =>
      let b := gre_shell (Z.of_nat (length pack)) (peer_call_id g) (gre_buff g) in
      let b := or8 b 0 PPTP_GRE_FLAG_S in
      let b := set32 b 8 (g_seq g) in
      let '(b, header_len, g) :=
        if negb (ack_sent g =? seq_recv g) then
          (set32 (or8 b 1 PPTP_GRE_FLAG_A) 12 (seq_recv g), GRE_HEADER, acknowledged g)
        else (b, (GRE_HEADER - 4)%nat, g) in
      if PACKET_MAX + 16 <=? Z.of_nat (header_len + length pack) then (0, None, with_buff g b)
      else
        let b := splice b header_len pack in
        let out := take (header_len + length pack) b in
        (rc out, Some out, with_buff (next_seq g) b)
  end.

Definition gre_send_ack (rc : bytes → Z) (g : gre) : option bytes * gre :=
  if negb (ack_sent g =? seq_recv g) then let '(_, out, g) := encaps_gre rc None g in (out, g) else (None, g).

(** [encaps_gre] as the callback of [decaps_hdlc]; the packets written are collected. *)
Definition encaps_cb (rc : bytes → Z) (s : gre * list bytes) (pack : bytes) : Z * (gre * list bytes) :=
  let '(status, out, g) := encaps_gre rc (Some pack) (fst s) in
  (status, (g, snd s ++ match out with Some o => [o] | None => [] end)).

(** [pty_handler]: whether the connection is closed, and the packets written. *)
Definition pty_handler (rc : bytes → Z) (sync : bool) (data : option bytes) (h : hdlc) (g : gre)
    : bool * hdlc * (gre * list bytes) :=
  let '(status, h, s) := decaps_hdlc (encaps_cb rc) sync data h (g, []) in (status <? 0, h, s).

(** ** Receiving *)

Section receive.
Context {S : Type} (cb : S → bytes → Z * S).

(** [ack_recv] for an acknowledgement. *)
Definition note_ack (ack : Z) (g : gre) : gre :=
  let g := if ack_recv g <? ack then with_ack_recv g ack else g in
  if WRAPPED ack (ack_recv g) then with_ack_recv g ack else g.

(** [data] is what [read] returned.  It is put at the beginning of the buffer, the rest
    of which keeps what was there. *)
Definition decaps_gre (mem1 mem2 : bool) (now : Z * Z) (data : option bytes) (g : gre) (s : S) : res (Z * gre * S) :=
  match data with
  | None | Some [] => mret (-1, g, s)
  | Some data =>
      let data := take GRE_BUFF data in
      let status := Z.of_nat (length data) in
      let buffer := splice (gre_buff g) 0 data in
      let g := with_buff g buffer in
      b0 ← byte_at buffer 0;
      let ip_len := if Z.land b0 0xf0 =? 0x40 then Z.to_nat (Z.land b0 0xf * 4) else O in
      flags ← byte_at buffer ip_len;
      ver ← byte_at buffer (ip_len + 1);
      protocol ← read16 buffer (ip_len + 2);
      payload_len ← read16 buffer (ip_len + 4);
      seq ← read32 buffer (ip_len + 8);
      ack ← read32 buffer (ip_len + 12);
      if negb (Z.land ver 0x7f =? PPTP_GRE_VER) || negb (protocol =? PPTP_GRE_PROTO)
         || has flags PPTP_GRE_FLAG_C || has flags PPTP_GRE_FLAG_R || negb (has flags PPTP_GRE_FLAG_K)
         || negb (Z.land flags 0xf =? 0)
      then mret (0, g, s)
      else
        let g := if has ver PPTP_GRE_FLAG_A then note_ack (if has flags PPTP_GRE_FLAG_S then ack else seq) g else g in
        if negb (has flags PPTP_GRE_FLAG_S) then mret (0, g, s)
        else
          let headersize := if has ver PPTP_GRE_FLAG_A then GRE_HEADER else (GRE_HEADER - 4)%nat in
          if u32 (status - Z.of_nat headersize) <? payload_len then mret (0, g, s)
          else if g_first g || (seq =? u32 (seq_recv g + 1)) || WRAPPED seq (seq_recv g) then
            let g := add_timer (with_seq_recv (not_first g) seq) in
            payload ← read_at buffer (ip_len + headersize) (Z.to_nat payload_len);
            let '(status, s) := cb s payload in
            mret (status, g, s)
          else if (seq <? u32 (seq_recv g + 1)) || WRAPPED (seq_recv g) seq then mret (0, g, s)
          else if (seq <? u32 (seq_recv g + MISSING_WINDOW)) || WRAPPED seq (u32 (seq_recv g + MISSING_WINDOW)) then
            payload ← read_at buffer (ip_len + headersize) (Z.to_nat payload_len);
            '(_, q) ← pqueue_add mem1 mem2 now (s32 seq) payload (g_queue g);
            mret (0, with_queue g q, s)
          else mret (0, g, s)
  end.

(** [now n] is the time when the condition of the loop is evaluated with [n] turns to go. *)
Fixpoint dequeue_loop (fuel : nat) (now : nat → Z * Z) (g : gre) (s : S) : res (Z * gre * S) :=
  match pq_head (g_queue g) with
  | None => mret (0, g, s)
  | Some head =>
      n ← deref (pq_heap (g_queue g) !! head);
      let seq := u32 (pn_seq n) in
      if (seq =? u32 (seq_recv g + 1)) || WRAPPED seq (seq_recv g) || (pqueue_expiry_time (now fuel) n <=? 0) then
        match fuel with
        | O => NoFuel
        | Datatypes.S fuel =>
            let g := with_seq_recv g seq in
            let '(status, s) := cb s (pn_packet n) in
            q ← pqueue_del head (g_queue g);
            let g := with_queue g q in
            if status <? 0 then mret (status, g, s) else dequeue_loop fuel now (add_timer g) s
        end
      else mret (0, g, s)
  end.

Definition dequeue_gre (now : nat → Z * Z) (g : gre) (s : S) : res (Z * gre * S) :=
  dequeue_loop (size (pq_heap (g_queue g))) now g s.

(** [gre_handler], and whether it closes the connection. *)
Definition gre_handler (mem1 mem2 : bool) (now : Z * Z) (nows : nat → Z * Z) (data : option bytes) (g : gre) (s : S)
    : res (bool * gre * S) :=
  '(status, g, s) ← decaps_gre mem1 mem2 now data g s;
  if status <? 0 then mret (true, g, s)
  else
    '(status, g, s) ← dequeue_gre nows g s;
    mret (status <? 0, g, s).
End receive.
