(* ===== verification/PppGreProps.v ===== *)
(** * The GRE side of the PPTP client: the theorems

    What is sent can be received; packets are delivered in the order of their numbers,
    each at most once; none is lost that arrives in time; what has been received is
    acknowledged. *)

From stdpp Require Import base numbers gmap list sorting.
From S2P Require Import Prelude Bytes PppHdlc PppQueue PppGre.

(** ** Packets *)

(** A packet with payload, with or without acknowledgement, and a bare acknowledgement. *)
Definition gre_data (call seq : Z) (ack : option Z) (payload : bytes) : bytes :=
  [0x30; match ack with Some _ => 0x81 | None => 0x01 end] ++ be_bytes 2 PPTP_GRE_PROTO ++ be_bytes 2 (Z.of_nat (length payload))
  ++ be_bytes 2 call ++ be_bytes 4 seq ++ match ack with Some a => be_bytes 4 a | None => [] end ++ payload.

Definition gre_ack (call seq : Z) : bytes :=
  [0x20; 0x81] ++ be_bytes 2 PPTP_GRE_PROTO ++ be_bytes 2 0 ++ be_bytes 2 call ++ be_bytes 4 seq.

(** What the raw socket puts in front of a packet: an IP header, or nothing. *)
Definition ip_header (ip : bytes) : Prop :=
  ip = [] ∨ ∃ ihl rest, 1 ≤ ihl < 16 ∧ ip = 0x40 + ihl :: rest ∧ length ip = Z.to_nat (ihl * 4).

(** The datagram [d] carries [payload] with the number [seq], and one that carries no payload. *)
Definition carries (seq : Z) (payload d : bytes) : Prop :=
  ∃ ip call ack, ip_header ip ∧ d = ip ++ gre_data call seq ack payload ∧ (length d ≤ GRE_BUFF)%nat.
Definition bare (d : bytes) : Prop :=
  ∃ ip call seq, ip_header ip ∧ d = ip ++ gre_ack call seq ∧ (length d ≤ GRE_BUFF)%nat.

Lemma list_16 (b : bytes) : (16 ≤ length b)%nat →
  ∃ x0 x1 x2 x3 x4 x5 x6 x7 x8 x9 x10 x11 x12 x13 x14 x15 rest,
    b = x0 :: x1 :: x2 :: x3 :: x4 :: x5 :: x6 :: x7 :: x8 :: x9 :: x10 :: x11 :: x12 :: x13 :: x14 :: x15 :: rest.
Proof. intros H. do 16 (destruct b as [|? b]; [cbn in H; lia|]). do 17 eexists. done. Qed.

(** The header as it is put together in the buffer. *)
Lemma shell_data len call seq b :
  (16 ≤ length b)%nat →
  ∃ a0 a1 a2 a3 rest,
    set32 (or8 (gre_shell len call b) 0 PPTP_GRE_FLAG_S) 8 seq
    = [0x30; 0x01] ++ be_bytes 2 PPTP_GRE_PROTO ++ be_bytes 2 len ++ be_bytes 2 call ++ be_bytes 4 seq
      ++ a0 :: a1 :: a2 :: a3 :: rest ∧ length b = (16 + length rest)%nat.
Proof.
  intros H. destruct (list_16 b H) as (x0 & x1 & x2 & x3 & x4 & x5 & x6 & x7 & x8 & x9 & x10 & x11 & x12 & x13 & x14 & x15 & rest & ->).
  exists x12, x13, x14, x15, rest. done.
Qed.

Lemma header_ack len call seq ack a0 a1 a2 a3 rest :
  set32 (or8 ([0x30; 0x01] ++ be_bytes 2 PPTP_GRE_PROTO ++ be_bytes 2 len ++ be_bytes 2 call ++ be_bytes 4 seq
      ++ a0 :: a1 :: a2 :: a3 :: rest) 1 PPTP_GRE_FLAG_A) 12 ack
  = [0x30; 0x81] ++ be_bytes 2 PPTP_GRE_PROTO ++ be_bytes 2 len ++ be_bytes 2 call ++ be_bytes 4 seq ++ be_bytes 4 ack ++ rest.
Proof. done. Qed.

Lemma take_written b off s : (off ≤ length b)%nat → take (off + length s) (splice b off s) = take off b ++ s.
Proof.
  intros H. unfold splice. rewrite app_assoc. apply take_app_length'. rewrite length_app, length_take. lia.
Qed.

(** The acknowledgement that a packet takes along. *)
Definition pending_ack (g : gre) : option Z := if ack_sent g =? seq_recv g then None else Some (seq_recv g).

(** What [encaps_gre] writes. *)
Lemma encaps_gre_data rc g pack :
  length (gre_buff g) = GRE_BUFF → Z.of_nat (length pack) < PACKET_MAX →
  ∃ g', encaps_gre rc (Some pack) g
        = (rc (gre_data (peer_call_id g) (g_seq g) (pending_ack g) pack), Some (gre_data (peer_call_id g) (g_seq g) (pending_ack g) pack), g')
    ∧ length (gre_buff g') = GRE_BUFF ∧ g_seq g' = u32 (g_seq g + 1) ∧ seq_sent g' = g_seq g
    ∧ ack_sent g' = seq_recv g ∧ seq_recv g' = seq_recv g ∧ g_first g' = g_first g ∧ g_queue g' = g_queue g
    ∧ peer_call_id g' = peer_call_id g ∧ ack_recv g' = ack_recv g.
Proof.
  intros Hb Hp. unfold encaps_gre.
  destruct (shell_data (Z.of_nat (length pack)) (peer_call_id g) (g_seq g) (gre_buff g)) as (a0 & a1 & a2 & a3 & rest & E & Hrest).
  { rewrite Hb. by vm_compute; lia. }
  rewrite E. unfold pending_ack. destruct (Z.eqb_spec (ack_sent g) (seq_recv g)) as [Ea|Ea]; cbn [negb].
  - set (hdr := _ ++ _). assert (Hh : length hdr = GRE_BUFF).
    { subst hdr. rewrite !length_app, !length_be_bytes. cbn [length]. lia. }
    change (GRE_HEADER - 4)%nat with 12%nat. rewrite (proj2 (Z.leb_gt _ _)) by (unfold PACKET_MAX in *; lia).
    rewrite take_written by (rewrite Hh; vm_compute; lia). eexists. split; [reflexivity|]. clearbody hdr. cbn.
    rewrite length_splice by (rewrite Hh; unfold GRE_BUFF, PACKET_MAX in *; lia). done.
  - rewrite header_ack. set (hdr := _ ++ _). assert (Hh : length hdr = GRE_BUFF).
    { subst hdr. rewrite !length_app, !length_be_bytes. cbn [length]. lia. }
    change GRE_HEADER with 16%nat. rewrite (proj2 (Z.leb_gt _ _)) by (unfold PACKET_MAX in *; lia).
    rewrite take_written by (rewrite Hh; vm_compute; lia). eexists. split; [reflexivity|]. clearbody hdr. cbn.
    rewrite length_splice by (rewrite Hh; unfold GRE_BUFF, PACKET_MAX in *; lia). done.
Qed.

Lemma encaps_gre_ack rc g :
  length (gre_buff g) = GRE_BUFF → ack_sent g ≠ seq_recv g →
  ∃ b, length b = GRE_BUFF
    ∧ encaps_gre rc None g = (rc (gre_ack (peer_call_id g) (seq_recv g)), Some (gre_ack (peer_call_id g) (seq_recv g)), with_buff (acknowledged g) b).
Proof.
  intros Hb Ha. unfold encaps_gre. rewrite (proj2 (Z.eqb_neq _ _) Ha). cbn [negb].
  destruct (list_16 (gre_buff g)) as (x0 & x1 & x2 & x3 & x4 & x5 & x6 & x7 & x8 & x9 & x10 & x11 & x12 & x13 & x14 & x15 & rest & E).
  { rewrite Hb. vm_compute. lia. }
  assert (Hrest : length (gre_buff g) = (16 + length rest)%nat) by (by rewrite E).
  rewrite E. eexists. split; [|reflexivity]. rewrite <- Hb, Hrest. done.
Qed.

(** ** Reading the header *)

Lemma read_in buf ip d o n :
  (length (ip ++ d) ≤ length buf)%nat → (o + n ≤ length d)%nat →
  read_at (splice buf 0 (ip ++ d)) (length ip + o) n = Ok (slice d o n).
Proof.
  intros Hl Ho. rewrite length_app in Hl. rewrite read_at_Ok by (rewrite length_splice; [|rewrite length_app]; lia).
  f_equal. unfold slice, splice. rewrite take_0. cbn [app].
  rewrite <- app_assoc, drop_app_ge by lia. replace (length ip + o - length ip)%nat with o by lia.
  rewrite drop_app_le by lia. rewrite take_app_le; [done|]. rewrite length_drop. lia.
Qed.

Lemma byte_in buf ip d o v :
  (length (ip ++ d) ≤ length buf)%nat → d !! o = Some v →
  byte_at (splice buf 0 (ip ++ d)) (length ip + o) = Ok v.
Proof.
  intros Hl Ho. unfold byte_at, splice. rewrite take_0. cbn [app]. rewrite <- app_assoc, lookup_app_r by lia.
  replace (length ip + o - length ip)%nat with o by lia. rewrite (lookup_app_l_Some _ _ _ _ Ho). done.
Qed.

Lemma ip_len_of buf ip d b0 d' :
  ip_header ip → d = b0 :: d' → (length (ip ++ d) ≤ length buf)%nat → Z.land b0 0xf0 ≠ 0x40 →
  ∃ b, byte_at (splice buf 0 (ip ++ d)) 0 = Ok b
    ∧ (if Z.land b 0xf0 =? 0x40 then Z.to_nat (Z.land b 0xf * 4) else O) = length ip.
Proof.
  intros Hip -> Hl Hb. unfold byte_at, splice. rewrite take_0. cbn [app].
  destruct Hip as [->|(ihl & rest & Hihl & -> & Hlen)]; cbn [app lookup list_lookup].
  - eexists. split; [done|]. by rewrite (proj2 (Z.eqb_neq _ _) Hb).
  - eexists. split; [done|]. rewrite Hlen. clear -Hihl.
    assert (H : ihl ∈ seqZ 1 15) by (apply elem_of_seqZ; lia).
    clear Hihl. revert ihl H. apply Forall_forall. repeat constructor.
Qed.

(** ** One datagram *)

Section window.
Context {S : Type} (cb : S → bytes → Z * S).

(** What happens to a packet with number [seq]. *)
Definition window (mem1 mem2 : bool) (now : Z * Z) (seq : Z) (payload : bytes) (g : gre) (s : S) : res (Z * gre * S) :=
  if g_first g || (seq =? u32 (seq_recv g + 1)) || WRAPPED seq (seq_recv g) then
    let '(status, s) := cb s payload in mret (status, add_timer (with_seq_recv (not_first g) seq), s)
  else if (seq <? u32 (seq_recv g + 1)) || WRAPPED (seq_recv g) seq then mret (0, g, s)
  else if (seq <? u32 (seq_recv g + MISSING_WINDOW)) || WRAPPED seq (u32 (seq_recv g + MISSING_WINDOW)) then
    '(_, q) ← pqueue_add mem1 mem2 now (s32 seq) payload (g_queue g); mret (0, with_queue g q, s)
  else mret (0, g, s).

(** The parts of the state that receiving does not look at. *)
Definition touched (g : gre) (ar : Z) (b : bytes) : gre := with_ack_recv (with_buff g b) ar.

Lemma note_ack_touched ack g b : ∃ ar, note_ack ack (with_buff g b) = touched g ar b.
Proof.
  unfold note_ack. set (c1 := ack_recv (with_buff g b) <? ack). destruct c1.
  - set (c2 := WRAPPED _ _). destruct c2; by exists ack.
  - set (c2 := WRAPPED _ _). destruct c2; [by exists ack|exists (ack_recv g)]. by destruct g.
Qed.

Lemma decaps_gre_data mem1 mem2 now seq payload d g s :
  carries seq payload d → is_u32 seq → length (gre_buff g) = GRE_BUFF →
  ∃ ar b, length b = GRE_BUFF
    ∧ decaps_gre cb mem1 mem2 now (Some d) g s = window mem1 mem2 now seq payload (touched g ar b) s.
Proof.
  intros (ip & call & ack & Hip & -> & Hl) Hseq Hb.
  set (d := gre_data call seq ack payload) in *. set (b := splice (gre_buff g) 0 (ip ++ d)).
  assert (Hld : length d = (match ack with Some _ => 16 | None => 12 end + length payload)%nat) by (by destruct ack).
  assert (Hlb : (length (ip ++ d) ≤ length (gre_buff g))%nat) by (rewrite Hb; exact Hl).
  assert (Hlp : Z.of_nat (length payload) < 65536).
  { rewrite length_app, Hld in Hl. unfold GRE_BUFF, PACKET_MAX in Hl. destruct ack; lia. }
  destruct (ip_len_of (gre_buff g) ip d 0x30 (tail d) Hip eq_refl Hlb) as (b0 & E0 & Eip); [done|].
  assert (Erest : ∃ x, read_at b (length ip + 12) 4 = Ok x).
  { unfold read_at. rewrite decide_True; [eauto|]. subst b. rewrite length_splice by lia. rewrite Hb.
    destruct Hip as [->|(ihl & rest & Hihl & _ & ->)]; unfold GRE_BUFF, PACKET_MAX; cbn [length]; lia. }
  destruct Erest as [xack Exack].
  assert (Ed : ∃ x r, x :: r = ip ++ d) by (destruct ip as [|x r]; [by exists 0x30, (tail d)|by exists x, (r ++ d)]).
  destruct Ed as (x & r & Ed). subst b. unfold decaps_gre. rewrite <- Ed. cbv beta iota zeta. rewrite Ed, take_ge by done. rewrite E0, bind_ret, Eip.
  pose proof (byte_in _ _ _ 0 0x30 Hlb eq_refl) as E00. rewrite Nat.add_0_r in E00. rewrite E00, bind_ret.
  rewrite (byte_in _ _ _ 1 (match ack with Some _ => 0x81 | None => 0x01 end) Hlb eq_refl), bind_ret.
  unfold read16, read32. assert (Hr : ∀ o n, (o + n ≤ 12)%nat → read_at (splice (gre_buff g) 0 (ip ++ d)) (length ip + o) n = Ok (slice d o n)).
  { intros o n Hon. apply read_in; [done|]. rewrite Hld. destruct ack; lia. }
  rewrite (Hr 2%nat 2%nat), (Hr 4%nat 2%nat), (Hr 8%nat 4%nat), Exack by lia. cbn [fmap res_fmap]. rewrite !bind_ret.
  change (slice d 2 2) with (be_bytes 2 PPTP_GRE_PROTO).
  change (slice d 4 2) with (be_bytes 2 (Z.of_nat (length payload))). change (slice d 8 4) with (be_bytes 4 seq).
  rewrite !be_val_bytes. rewrite (Z.mod_small seq) by exact Hseq. rewrite (Z.mod_small (Z.of_nat _)) by (cbn; lia).
  assert (Hpay : ∀ hs, hs = match ack with Some _ => 16%nat | None => 12%nat end →
    read_at (splice (gre_buff g) 0 (ip ++ d)) (length ip + hs) (Z.to_nat (Z.of_nat (length payload))) = Ok payload).
  { intros hs ->. rewrite Nat2Z.id, read_in by (done || (rewrite Hld; destruct ack; lia)). f_equal.
    unfold slice. subst d. destruct ack; cbn; by rewrite firstn_all. }
  assert (Hlen : length (splice (gre_buff g) 0 (ip ++ d)) = GRE_BUFF) by (by rewrite length_splice).
  assert (Hst : ∀ hs, hs = match ack with Some _ => 16%nat | None => 12%nat end →
    (u32 (Z.of_nat (length (ip ++ d)) - Z.of_nat hs) <? Z.of_nat (length payload)) = false).
  { intros hs ->. apply Z.ltb_ge. rewrite length_app, Hld in Hl |- *. unfold GRE_BUFF, PACKET_MAX in Hl.
    unfold u32. rewrite Z.mod_small; destruct ack; lia. }
  clear E0 E00 Hr Hlb. set (b := splice (gre_buff g) 0 (ip ++ d)) in *. clearbody b.
  match goal with |- context [if ?c then mret (0, with_buff g b, s) else _] => replace c with false by (by destruct ack) end.
  set (h := if has _ PPTP_GRE_FLAG_A then note_ack _ _ else with_buff g b).
  assert (Hh : ∃ ar, h = touched g ar b).
  { subst h. destruct ack; [apply note_ack_touched|]. exists (ack_recv g). by destruct g. }
  destruct Hh as [ar Hh]. clearbody h. subst h. exists ar, b. split; [done|].
  change (negb (has 0x30 PPTP_GRE_FLAG_S)) with false. cbv iota.
  match goal with |- context [if ?c then GRE_HEADER else _] => set (hs := if c then GRE_HEADER else (GRE_HEADER - 4)%nat) end.
  specialize (Hpay hs ltac:(by destruct ack)). rewrite Hpay.
  rewrite (Hst hs) by (by destruct ack). unfold window. rewrite !bind_ret. done.
Qed.

Lemma decaps_gre_bare mem1 mem2 now d g s :
  bare d → length (gre_buff g) = GRE_BUFF →
  ∃ ar b, length b = GRE_BUFF ∧ decaps_gre cb mem1 mem2 now (Some d) g s = Ok (0, touched g ar b, s).
Proof.
  intros (ip & call & seq & Hip & -> & Hl) Hb. set (d := gre_ack call seq) in *.
  assert (Hlb : (length (ip ++ d) ≤ length (gre_buff g))%nat) by (rewrite Hb; exact Hl).
  destruct (ip_len_of (gre_buff g) ip d 0x20 (tail d) Hip eq_refl Hlb) as (b0 & E0 & Eip); [done|].
  assert (Hlen : length (splice (gre_buff g) 0 (ip ++ d)) = GRE_BUFF) by (by rewrite length_splice).
  assert (Hr : ∀ o n, (o + n ≤ 16)%nat → ∃ x, read_at (splice (gre_buff g) 0 (ip ++ d)) (length ip + o) n = Ok x).
  { intros o n Hon. unfold read_at. rewrite decide_True; [eauto|]. rewrite Hlen.
    destruct Hip as [->|(ihl & rest & Hihl & _ & ->)]; unfold GRE_BUFF, PACKET_MAX; cbn [length]; lia. }
  assert (Ed : ∃ x r, x :: r = ip ++ d) by (destruct ip as [|x r]; [by exists 0x20, (tail d)|by exists x, (r ++ d)]).
  destruct Ed as (x & r & Ed). unfold decaps_gre. rewrite <- Ed. cbv beta iota zeta. rewrite Ed, take_ge by done.
  rewrite E0, bind_ret, Eip.
  pose proof (byte_in _ _ _ 0 0x20 Hlb eq_refl) as E00. rewrite Nat.add_0_r in E00. rewrite E00, bind_ret.
  rewrite (byte_in _ _ _ 1 0x81 Hlb eq_refl), bind_ret. unfold read16, read32.
  rewrite (read_in _ _ _ 2 2 Hlb) by (vm_compute; lia). change (slice d 2 2) with (be_bytes 2 PPTP_GRE_PROTO).
  destruct (Hr 4%nat 2%nat) as [x1 ->]; [lia|]. destruct (Hr 8%nat 4%nat) as [x2 ->]; [lia|].
  destruct (Hr 12%nat 4%nat) as [x3 ->]; [lia|]. cbn [fmap res_fmap]. rewrite !bind_ret, be_val_bytes.
  set (b := splice (gre_buff g) 0 (ip ++ d)) in *. clearbody b.
  set (h := if has _ PPTP_GRE_FLAG_A then note_ack _ _ else with_buff g b).
  assert (Hh : ∃ ar, h = touched g ar b) by apply note_ack_touched.
  destruct Hh as [ar Hh]. clearbody h. subst h. by exists ar, b.
Qed.
End window.

(** ** The numbers before the first wrap-around *)

Lemma WRAPPED_small cur last : 0 ≤ last < 2147483648 → WRAPPED cur last = false.
Proof.
  intros H. unfold WRAPPED. apply andb_false_intro2, Z.eqb_neq. intros E.
  apply (f_equal (λ z, Z.testbit z 31)) in E. rewrite Z.land_spec in E.
  assert (Et : Z.testbit last 31 = false).
  { destruct (decide (last = 0)) as [->|]; [done|]. apply Z.bits_above_log2; [lia|]. apply Z.log2_lt_pow2; lia. }
  rewrite Et in E. done.
Qed.

Lemma u32_small z : 0 ≤ z < 4294967296 → u32 z = z.
Proof. intros H. by apply Z.mod_small. Qed.

Lemma s32_small z : 0 ≤ z < 2147483648 → s32 z = z.
Proof. intros H. unfold s32. rewrite Z.mod_small; lia. Qed.

(** The callback records the packets; [st] is what it returns. *)
Definition log_cb (st : bytes → Z) (s : list bytes) (b : bytes) : Z * list bytes := (st b, s ++ [b]).

(** The time that is left for an entry. *)
Definition time_left (now expires : Z * Z) : Z := s32 ((fst expires - fst now) * 1000000 + (snd expires - snd now)).

(** The number that has been received when [taken] has been taken from the queue. *)
Definition recv_after (r : Z) (taken : list item) : Z := foldl (λ _ i, i_seq i) r taken.

Lemma queued_size q items : queued q items → (length items ≤ size (pq_heap q))%nat.
Proof.
  intros [_ (l & free & [Hl Hf Eh Et Ef Hd Hi])]. apply NoDup_app in Hd as [Hd _].
  rewrite <- (Forall2_length _ _ _ Hi). by eapply linked_size.
Qed.

Section receiver.
Context (packs : Z → bytes) (N : Z) (HN : N < 2147483648 - MISSING_WINDOW) (st : bytes → Z).

(** The state between two calls.  The numbers of the packets that wait are above those
    that have been delivered. *)
Record receiver (g : gre) (items : list item) : Prop := {
  rv_buff : length (gre_buff g) = GRE_BUFF;
  rv_queue : queued (g_queue g) items;
  rv_range : 0 ≤ seq_recv g ≤ N;
  rv_items : Forall (λ i, seq_recv g < i_seq i ≤ N ∧ i_packet i = packs (i_seq i)) items;
  rv_first : g_first g = true → items = [] }.

(** No packet waits that could be delivered. *)
Definition settled (g : gre) (items : list item) : Prop := Forall (λ i, seq_recv g + 1 < i_seq i) items.

Lemma receiver_touched g items ar b : length b = GRE_BUFF → receiver g items → receiver (touched g ar b) items.
Proof. by intros Hb []. Qed.

Lemma window_spec mem1 mem2 now i g items s :
  receiver g items → settled g items → 1 ≤ i ≤ N →
  let r := window (log_cb st) mem1 mem2 now i (packs i) g s in
  ((g_first g = true ∨ i = seq_recv g + 1)
   ∧ r = Ok (st (packs i), add_timer (with_seq_recv (not_first g) i), s ++ [packs i]))
  ∨ (g_first g = false ∧ i ≤ seq_recv g ∧ r = Ok (0, g, s))
  ∨ (g_first g = false ∧ seq_recv g + 1 < i ∧ ∃ q items', r = Ok (0, with_queue g q, s) ∧ queued q items'
     ∧ (items' = items ∨ items' = insert_item (new_item now i (packs i)) items)
     ∧ (mem1 = true → mem2 = true → i < seq_recv g + MISSING_WINDOW → i ∈ i_seq <$> items')).
Proof.
  intros [Hb Hq Hr Hi Hf] Hs Hi'. unfold window, MISSING_WINDOW in *. cbv zeta.
  rewrite !WRAPPED_small by (rewrite ?u32_small; lia). rewrite !u32_small, !orb_false_r by lia.
  destruct (g_first g) eqn:Ef; [by left; split; [left|]|]. cbn [orb].
  destruct (Z.eqb_spec i (seq_recv g + 1)) as [->|Hne]; [by left; split; [right|]|].
  destruct (Z.ltb_spec i (seq_recv g + 1)); [right; left; split_and!; [done|lia|done]|].
  right; right. split_and!; [done|lia|].
  destruct (Z.ltb_spec i (seq_recv g + 300)).
  - rewrite s32_small by lia.
    destruct (pqueue_add_spec mem1 mem2 now i (packs i) (g_queue g) items Hq) as (r & q & E & [(-> & Hq' & Hc)|(-> & _ & Hq')]);
      rewrite E, bind_ret; eexists q, _; (split; [done|]); (split; [exact Hq'|]).
    + split; [by left|]. intros -> -> _. destruct Hc as [(j & Hj & <-)|]; [|done]. by apply list_elem_of_fmap_2.
    + split; [by right|]. intros _ _ _. apply list_elem_of_fmap. exists (new_item now i (packs i)). split; [done|].
      apply insert_item_elem. by left.
  - exists (g_queue g), items. split; [by destruct g|]. split; [done|]. split; [by left|]. lia.
Qed.

(** What is known of a run of the loop. *)
Definition dequeued (now : nat → Z * Z) (g : gre) (s : list bytes) (items : list item) (r : res (Z * gre * list bytes)) : Prop :=
  ∃ status g' taken rest, r = Ok (status, g', s ++ (i_packet <$> taken))
    ∧ items = taken ++ rest ∧ receiver g' rest ∧ g_first g' = false ∧ seq_recv g' = recv_after (seq_recv g) taken
    ∧ (status < 0 ∨ (status = 0 ∧ settled g' rest))
    ∧ ((∀ b, 0 ≤ st b) → status = 0)
    ∧ ((∀ k i, i ∈ items → 0 < time_left (now k) (i_expires i)) → i_seq <$> taken = seqZ (seq_recv g + 1) (Z.of_nat (length taken)))
    ∧ ack_sent g' = ack_sent g ∧ (status < 0 ∨ (taken = [] ∧ ack_timers g' = ack_timers g) ∨ (0 < ack_timers g')%nat).

Lemma dequeued_nothing now g s items :
  receiver g items → g_first g = false → settled g items → dequeued now g s items (Ok (0, g, s)).
Proof.
  intros Hg Hf Hs. exists 0, g, [], items. rewrite app_nil_r.
  repeat (split; [done || by right|]). right. by left.
Qed.

Lemma dequeue_loop_spec fuel now g s items :
  receiver g items → g_first g = false → (length items ≤ fuel)%nat →
  dequeued now g s items (dequeue_loop (log_cb st) fuel now g s).
Proof.
  revert g s items. induction fuel as [|fuel IH]; intros g s items Hg Hf Hfuel; pose proof Hg as [Hb Hq Hr Hi _].
  - destruct items; [|cbn in Hfuel; lia]. cbn [dequeue_loop]. rewrite (pqueue_head_nil _ Hq). apply dequeued_nothing; [done|done|constructor].
  - destruct items as [|i items].
    { cbn [dequeue_loop]. rewrite (pqueue_head_nil _ Hq). apply dequeued_nothing; [done|done|constructor]. }
    apply Forall_cons in Hi as [[Hi Hp] Hi'].
    destruct (pqueue_head_spec _ _ _ Hq) as (p & n & q & E1 & E2 & E3 & E4 & Hq').
    assert (Eseq : pn_seq n = i_seq i) by (by rewrite <- E3). assert (Epk : pn_packet n = i_packet i) by (by rewrite <- E3).
    assert (Eexp : pn_expires n = i_expires i) by (by rewrite <- E3).
    cbn [dequeue_loop]. rewrite E1, E2. cbn [deref]. rewrite bind_ret. cbv zeta.
    unfold MISSING_WINDOW in HN. rewrite WRAPPED_small by lia. rewrite Eseq, !u32_small by lia. rewrite orb_false_r.
    change (pqueue_expiry_time (now (S fuel)) n) with (time_left (now (S fuel)) (pn_expires n)). rewrite Eexp.
    set (g1 := with_queue (with_seq_recv g (i_seq i)) q).
    assert (Hord : Forall (λ j, i_seq i < i_seq j) items) by (destruct Hq as [Ho _]; by apply StronglySorted_inv in Ho as [_ ?]).
    assert (Hg1 : receiver g1 items).
    { constructor; cbn; [done|done|lia| |by rewrite Hf]. rewrite Forall_forall in Hi', Hord |- *. intros j Hj.
      destruct (Hi' j Hj) as [? ?]. specialize (Hord j Hj). split; [lia|done]. }
    destruct (orb _ _) eqn:Ec.
    2: { apply orb_false_iff in Ec as [Ec _]. apply Z.eqb_neq in Ec. apply dequeued_nothing; [done|done|].
         constructor; [lia|]. eapply Forall_impl; [exact Hord|]. cbn. lia. }
    unfold log_cb at 1. cbn [g_queue with_seq_recv]. rewrite E4, bind_ret, Epk.
    change (with_queue (with_seq_recv g (i_seq i)) q) with g1. destruct (Z.ltb_spec (st (i_packet i)) 0) as [Hst|Hst].
    + exists (st (i_packet i)), g1, [i], items. split; [done|]. split; [done|]. split; [done|]. split; [done|]. split; [done|].
      split; [by left|]. split; [intros Hall; specialize (Hall (i_packet i)); lia|].
      split; [|split; [done|by left]]. intros Hexp. specialize (Hexp (S fuel) i ltac:(by left)).
      rewrite (proj2 (Z.leb_gt _ _)), orb_false_r in Ec by done. apply Z.eqb_eq in Ec. cbn. by rewrite Ec.
    + assert (Hg2 : receiver (add_timer g1) items) by (by destruct Hg1).
      destruct (IH (add_timer g1) (s ++ [i_packet i]) items Hg2 Hf ltac:(cbn in Hfuel; lia))
        as (status & g' & taken & rest & E & -> & Hg' & Hf' & Hr' & H1 & H2 & H3 & H4 & H5).
      exists status, g', (i :: taken), rest. rewrite E, <- app_assoc. split_and!; try done.
      * intros Hexp. cbn [fmap list_fmap length]. change (list_fmap Z _ ?f ?l) with (f <$> l).
        rewrite H3 by (intros k j Hj; apply Hexp; by right).
        specialize (Hexp (S fuel) i ltac:(by left)).
        rewrite (proj2 (Z.leb_gt _ _)), orb_false_r in Ec by done. apply Z.eqb_eq in Ec.
        rewrite Nat2Z.inj_succ, (seqZ_cons (seq_recv g + 1)) by lia. rewrite Ec, Z.pred_succ. cbn [seq_recv add_timer with_queue with_seq_recv g1]. by rewrite Ec.
      * destruct H5 as [H5|[[-> H5]|H5]]; [by left| |by right; right]. right. right. rewrite H5. cbn. lia.
Qed.
(** What has been received is acknowledged, or will be. *)
Definition acked (g : gre) : Prop := ack_sent g = seq_recv g ∨ (0 < ack_timers g)%nat.

Lemma recv_after_bounds r taken :
  StronglySorted (λ i j, i_seq i < i_seq j) taken → Forall (λ i, r < i_seq i) taken →
  r ≤ recv_after r taken ∧ Forall (λ i, r < i_seq i ≤ recv_after r taken) taken.
Proof.
  intros Ho. revert r. induction Ho as [|i taken Ho IH Hall]; intros r Hr; [by split; [cbn; lia|constructor]|].
  apply Forall_cons in Hr as [Hi Hr]. destruct (IH (i_seq i) Hall) as [H1 H2]. cbn [recv_after foldl].
  change (foldl _ (i_seq i) taken) with (recv_after (i_seq i) taken). split; [lia|]. constructor; [lia|].
  eapply Forall_impl; [exact H2|]. cbn. lia.
Qed.

Lemma recv_after_seqZ r taken :
  i_seq <$> taken = seqZ (r + 1) (Z.of_nat (length taken)) → recv_after r taken = r + Z.of_nat (length taken).
Proof.
  revert r. induction taken as [|i taken IH]; intros r E; [cbn; lia|].
  cbn [fmap list_fmap length] in E. rewrite Nat2Z.inj_succ, seqZ_cons in E by lia. injection E as E1 E2.
  cbn [recv_after foldl length]. change (foldl _ (i_seq i) taken) with (recv_after (i_seq i) taken).
  rewrite IH; [lia|]. rewrite Z.pred_succ, <- E1 in E2. by rewrite E1 in E2 |- *.
Qed.

Lemma dequeued_numbers now g s items r :
  receiver g items → dequeued now g s items r →
  ∃ status g' ds rest, r = Ok (status, g', s ++ (packs <$> ds)) ∧ receiver g' rest ∧ g_first g' = false
    ∧ StronglySorted Z.lt ds ∧ seq_recv g ≤ seq_recv g' ∧ Forall (λ d, seq_recv g < d ≤ seq_recv g') ds
    ∧ (status < 0 ∨ (status = 0 ∧ settled g' rest ∧ (acked g → acked g')))
    ∧ ((∀ b, 0 ≤ st b) → status = 0)
    ∧ ((∀ k i, i ∈ items → 0 < time_left (now k) (i_expires i)) → ds = seqZ (seq_recv g + 1) (seq_recv g' - seq_recv g))
    ∧ (∀ x, x ∈ rest → x ∈ items) ∧ ∀ x, x ∈ items → i_seq x ≤ seq_recv g' ∨ x ∈ rest.
Proof.
  intros Hg (status & g' & taken & rest & -> & -> & Hg' & Hf & Hr & H1 & H2 & H3 & H4 & H5).
  destruct Hg as [_ [Ho _] _ Hi _]. apply StronglySorted_app in Ho as (_ & Ho & _).
  apply Forall_app in Hi as [Hi _]. destruct (recv_after_bounds (seq_recv g) taken Ho) as [B1 B2].
  { eapply Forall_impl; [exact Hi|]. cbn. lia. }
  exists status, g', (i_seq <$> taken), rest. rewrite Hr. split_and!; try done.
  - f_equal. f_equal. f_equal. rewrite <- list_fmap_compose. apply list_fmap_ext. intros k x Hx.
    apply list_elem_of_lookup_2 in Hx. by apply (proj1 (Forall_forall _ _) Hi).
  - clear -Ho. induction Ho as [|i taken Ho IH Hall]; cbn; constructor; [done|]. by apply Forall_fmap.
  - by apply Forall_fmap.
  - destruct H1 as [H1|[-> Hs]]; [by left|]. right. split; [done|]. split; [done|]. unfold acked. rewrite H4, Hr.
    destruct H5 as [H5|[[-> H5]|H5]]; [lia| |by right]. cbn. by rewrite H5.
  - intros Hfresh. specialize (H3 Hfresh). rewrite (recv_after_seqZ _ _ H3). rewrite H3. f_equal; lia.
  - intros x Hx. apply elem_of_app. by right.
  - intros x [Hx|Hx]%elem_of_app; [left|by right]. by apply (proj1 (Forall_forall _ _) B2).
Qed.

(** The number up to which all has been delivered; the first packet starts the count. *)
Definition base (g : gre) : Z := if g_first g then 0 else seq_recv g.
Definition start (g : gre) (i : Z) : Z := if g_first g then i - 1 else seq_recv g.

(** Memory is there, the terminal takes everything, no packet has waited for too long
    and the packet is in the window. *)
Definition prompt (mem1 mem2 : bool) (nows : nat → Z * Z) (items : list item) (x : item) (g : gre) : Prop :=
  mem1 = true ∧ mem2 = true ∧ (∀ b, 0 ≤ st b) ∧ (∀ k y, y ∈ items ∨ y = x → 0 < time_left (nows k) (i_expires y))
  ∧ (g_first g = false → i_seq x < seq_recv g + MISSING_WINDOW).

(** The effect of a call of [gre_handler] for packet [i]. *)
Definition handled (mem1 mem2 : bool) (now : Z * Z) (nows : nat → Z * Z) (i : Z) (g : gre) (s : list bytes)
    (items : list item) (r : res (bool * gre * list bytes)) : Prop :=
  ∃ closed g' ds items', r = Ok (closed, g', s ++ (packs <$> ds)) ∧ receiver g' items' ∧ g_first g' = false
    ∧ StronglySorted Z.lt ds ∧ base g ≤ seq_recv g' ∧ Forall (λ d, base g < d ≤ seq_recv g') ds
    ∧ (closed = false → settled g' items' ∧ (acked g → acked g'))
    ∧ (prompt mem1 mem2 nows items (new_item now i (packs i)) g →
       closed = false ∧ ds = seqZ (start g i + 1) (seq_recv g' - start g i) ∧ start g i ≤ seq_recv g'
       ∧ (∀ x, x ∈ items' → x ∈ items ∨ x = new_item now i (packs i))
       ∧ (i ≤ seq_recv g' ∨ i ∈ i_seq <$> items') ∧ ∀ x, x ∈ items → i_seq x ≤ seq_recv g' ∨ x ∈ items').

(** The second half of the handler, when the first has delivered nothing. *)
Lemma handled_dequeue mem1 mem2 now nows i g s items g1 items1 :
  receiver g1 items1 → g_first g = false → g_first g1 = false → seq_recv g1 = seq_recv g → ack_sent g1 = ack_sent g →
  ack_timers g1 = ack_timers g →
  (∀ x, x ∈ items1 → x ∈ items ∨ x = new_item now i (packs i)) → (∀ x, x ∈ items → x ∈ items1) →
  (prompt mem1 mem2 nows items (new_item now i (packs i)) g → i ≤ seq_recv g ∨ i ∈ i_seq <$> items1) →
  handled mem1 mem2 now nows i g s items
    ('(status, g2, s2) ← dequeue_gre (log_cb st) nows g1 s; mret (status <? 0, g2, s2)).
Proof.
  intros Hg1 Hf Hf1 Er Ea Et H1 H2 Hp. unfold dequeue_gre.
  pose proof (dequeue_loop_spec (size (pq_heap (g_queue g1))) nows g1 s items1 Hg1 Hf1 (queued_size _ _ (rv_queue _ _ Hg1))) as Hd.
  destruct (dequeued_numbers _ _ _ _ _ Hg1 Hd) as (status & g' & ds & rest & E & Hg' & Hf' & Hs & Hle & Hds & Hst & Hst0 & Hc & Hr1 & Hr2).
  rewrite E, bind_ret. exists (status <? 0), g', ds, rest. unfold base, start. rewrite Hf, <- Er.
  split; [done|]. split; [done|]. split; [done|]. split; [done|]. split; [done|]. split; [done|]. split.
  - intros Hcl. apply Z.ltb_ge in Hcl. destruct Hst as [|(_ & ? & Hack)]; [lia|]. split; [done|].
    unfold acked in *. by rewrite Ea, Er, Et in Hack.
  - intros Hprompt. specialize (Hp Hprompt). destruct Hprompt as (_ & _ & Hpos & Hexp & _).
    split; [by rewrite (Hst0 Hpos)|]. split; [by apply Hc; intros k x Hx; apply Hexp, H1|]. split; [done|].
    split; [by intros x Hx; apply H1, Hr1|]. split.
    + destruct Hp as [Hp|Hp]; [left; lia|]. apply list_elem_of_fmap in Hp as (x & -> & Hx).
      destruct (Hr2 x Hx) as [|Hx']; [by left|]. right. by apply list_elem_of_fmap_2.
    + intros x Hx. apply Hr2, H2, Hx.
Qed.

Lemma gre_handler_data mem1 mem2 now nows i d g s items :
  receiver g items → settled g items → carries i (packs i) d → 1 ≤ i ≤ N →
  handled mem1 mem2 now nows i g s items (gre_handler (log_cb st) mem1 mem2 now nows (Some d) g s).
Proof.
  intros Hg Hset Hd Hi. unfold gre_handler. pose proof HN as HN'. unfold MISSING_WINDOW in HN'.
  destruct (decaps_gre_data (log_cb st) mem1 mem2 now i (packs i) d g s Hd ltac:(unfold is_u32; lia) (rv_buff _ _ Hg)) as (ar & b & Hb & ->).
  pose proof (receiver_touched g items ar b Hb Hg) as Hg1. set (g1 := touched g ar b) in *.
  assert (Hset1 : settled g1 items) by exact Hset.
  destruct (window_spec mem1 mem2 now i g1 items s Hg1 Hset1 Hi) as [(Hc & ->)|[(Hf & Hc & ->)|(Hf & Hc & q & items' & -> & Hq & Hitems & Hin)]];
    rewrite bind_ret.
  - set (g2 := add_timer (with_seq_recv (not_first g1) i)).
    assert (Hge : base g < i ∧ start g i = i - 1).
    { unfold base, start. change (g_first g1) with (g_first g) in Hc. change (seq_recv g1) with (seq_recv g) in Hc.
      destruct (g_first g); [lia|]. destruct Hc as [|]; [done|lia]. }
    assert (Hg2 : receiver g2 items).
    { destruct Hg1 as [? ? ? Hit Hfi]. constructor; cbn; [done|done|lia| |done].
      change (g_first g1) with (g_first g) in Hc, Hfi. destruct Hc as [Hc|Hc]; [by rewrite Hfi|]. subst i.
      apply Forall_forall. intros x Hx. rewrite Forall_forall in Hit. specialize (Hit x Hx).
      unfold settled in Hset. rewrite Forall_forall in Hset. specialize (Hset x Hx). cbn in Hit |- *. split; [lia|apply Hit]. }
    destruct (Z.ltb_spec (st (packs i)) 0) as [Hst|Hst].
    + exists true, g2, [i], items. split; [done|]. split; [done|]. split; [done|]. split; [by repeat constructor|].
      cbn. split; [lia|]. split; [constructor; [lia|done]|]. split; [done|]. intros (_ & _ & Hpos & _). specialize (Hpos (packs i)). lia.
    + unfold dequeue_gre.
      pose proof (dequeue_loop_spec (size (pq_heap (g_queue g2))) nows g2 (s ++ [packs i]) items Hg2 eq_refl (queued_size _ _ (rv_queue _ _ Hg2))) as Hdq.
      destruct (dequeued_numbers _ _ _ _ _ Hg2 Hdq) as (status & g' & ds & rest & E & Hg' & Hf' & Hs & Hle & Hds & Hst' & Hst0 & Hco & Hr1 & Hr2).
      rewrite E, bind_ret. exists (status <? 0), g', (i :: ds), rest. cbn [seq_recv add_timer with_seq_recv g2] in *.
      split; [by rewrite <- app_assoc|]. split; [done|]. split; [done|]. split.
      { constructor; [done|]. eapply Forall_impl; [exact Hds|]. cbn. lia. }
      split; [lia|]. split; [constructor; [lia|]; eapply Forall_impl; [exact Hds|]; cbn; lia|]. split.
      * intros Hcl. apply Z.ltb_ge in Hcl. destruct Hst' as [|(_ & ? & Hack)]; [lia|]. split; [done|]. intros _. apply Hack. right. cbn. lia.
      * intros (_ & _ & Hpos & Hexp & _). split; [by rewrite (Hst0 Hpos)|]. destruct Hge as [_ ->].
        rewrite Hco by (intros k x Hx; apply Hexp; by left). split.
        { replace (i - 1 + 1) with i by lia. rewrite (seqZ_cons i) by lia. f_equal. f_equal; lia. }
        split; [lia|]. split; [intros x Hx; left; by apply Hr1|]. split; [by left|]. exact Hr2.
  - rewrite (proj2 (Z.ltb_ge 0 0)) by lia. apply handled_dequeue with (items1 := items); try done.
    + intros x Hx. by left.
    + intros _. left. exact Hc.
  - rewrite (proj2 (Z.ltb_ge 0 0)) by lia. apply handled_dequeue with (items1 := items'); try done.
    + destruct Hg1 as [? ? ? Hit ?]. constructor; cbn; try done; [|by cbn in Hf; rewrite Hf].
      destruct Hitems as [-> | ->]; [done|]. apply Forall_forall. intros x [->|Hx]%insert_item_elem.
      * cbn in Hc |- *. split; [lia|done].
      * by apply (proj1 (Forall_forall _ _) Hit).
    + intros x Hx. destruct Hitems as [-> | ->]; [by left|]. apply insert_item_elem in Hx as [->|Hx]; [by right|by left].
    + intros x Hx. destruct Hitems as [-> | ->]; [done|]. apply insert_item_elem. by right.
    + intros (M1 & M2 & _ & _ & Hw). right. apply Hin; [done|done|]. by apply Hw.
Qed.

(** What one event does to the numbers, whatever it is. *)
Definition progress (g : gre) (s : list bytes) (r : res (bool * gre * list bytes)) : Prop :=
  ∃ closed g' ds items', r = Ok (closed, g', s ++ (packs <$> ds)) ∧ receiver g' items'
    ∧ StronglySorted Z.lt ds ∧ base g ≤ base g' ∧ Forall (λ d, base g < d ≤ base g') ds
    ∧ (closed = false → settled g' items' ∧ (acked g → acked g')).

Lemma handled_progress mem1 mem2 now nows i g s items r : handled mem1 mem2 now nows i g s items r → progress g s r.
Proof.
  intros (closed & g' & ds & items' & -> & Hg' & Hf & Hs & Hle & Hds & Hc & _).
  exists closed, g', ds, items'. unfold base at 2 4. rewrite Hf. done.
Qed.

Lemma gre_handler_bare mem1 mem2 now nows d g s items :
  receiver g items → settled g items → bare d → progress g s (gre_handler (log_cb st) mem1 mem2 now nows (Some d) g s).
Proof.
  intros Hg Hset Hd. unfold gre_handler.
  destruct (decaps_gre_bare (log_cb st) mem1 mem2 now d g s Hd (rv_buff _ _ Hg)) as (ar & b & Hb & ->).
  pose proof (receiver_touched g items ar b Hb Hg) as Hg1. rewrite bind_ret, (proj2 (Z.ltb_ge 0 0)) by lia.
  set (g1 := touched g ar b) in *. destruct (g_first g) eqn:Hf.
  - assert (Hnil : items = []) by (by apply (rv_first _ _ Hg)). subst items. unfold dequeue_gre.
    assert (Hdq : dequeue_loop (log_cb st) (size (pq_heap (g_queue g1))) nows g1 s = Ok (0, g1, s)).
    { destruct (size _); cbn [dequeue_loop]; by rewrite (pqueue_head_nil _ (rv_queue _ _ Hg1)). }
    rewrite Hdq, bind_ret. exists false, g1, [], []. rewrite app_nil_r. split; [done|]. split; [done|]. split; [constructor|].
    split; [done|]. split; [constructor|]. done.
  - eapply handled_progress with (i := seq_recv g) (items := items), (handled_dequeue true true (0, 0)) with (items1 := items); try done.
    + intros x Hx. by left.
    + intros _. by left.
Qed.

End receiver.

(** ** Connections *)

(** What happens during a connection: a datagram arrives, a packet of the own side is
    sent, the first timeout of [gre_send_ack] is due. *)
Inductive gre_event :=
| Recv (mem1 mem2 : bool) (now : Z * Z) (nows : nat → Z * Z) (d : bytes)
| SendPack (pack : bytes)
| AckDue.

Section connection.
Context (st rc : bytes → Z).

(** A timeout is taken off the list before its handler is called. *)
Definition timer_fired (n : nat) (g : gre) : gre :=
  mk_gre (ack_sent g) (ack_recv g) (seq_sent g) (seq_recv g) (peer_call_id g) (gre_buff g) (g_first g) (g_seq g) (g_queue g) n.

Definition gre_step (e : gre_event) (g : gre) (s : list bytes) : res (bool * gre * list bytes) :=
  match e with
  | Recv mem1 mem2 now nows d => gre_handler (log_cb st) mem1 mem2 now nows (Some d) g s
  | SendPack pack => let '(_, _, g) := encaps_gre rc (Some pack) g in mret (false, g, s)
  | AckDue =>
      match ack_timers g with
      | O => mret (false, g, s)
      | S n => mret (false, snd (gre_send_ack rc (timer_fired n g)), s)
      end
  end.

(** The events up to the end of the connection. *)
Fixpoint gre_run (es : list gre_event) (g : gre) (s : list bytes) : res (bool * gre * list bytes) :=
  match es with
  | [] => mret (false, g, s)
  | e :: es =>
      '(closed, g, s) ← gre_step e g s;
      if (closed : bool) then mret (true, g, s) else gre_run es g s
  end.

(** The datagrams come from a peer that sends the packets [packs], numbered from 1 up
    to at most [N]; the network may lose, repeat and reorder them. *)
Definition from_peer (packs : Z → bytes) (N : Z) (e : gre_event) : Prop :=
  match e with
  | Recv _ _ _ _ d => bare d ∨ ∃ i, 1 ≤ i ≤ N ∧ carries i (packs i) d
  | SendPack pack => Z.of_nat (length pack) < PACKET_MAX
  | AckDue => True
  end.

(** The state at the beginning. *)
Definition new_connection (g : gre) : Prop :=
  length (gre_buff g) = GRE_BUFF ∧ queued (g_queue g) [] ∧ g_first g = true ∧ seq_recv g = 0 ∧ ack_sent g = 0.

Context (packs : Z → bytes) (N : Z) (HN : N < 2147483648 - MISSING_WINDOW).

Lemma receiver_same g g' items :
  receiver packs N g items → length (gre_buff g') = GRE_BUFF → g_queue g' = g_queue g → seq_recv g' = seq_recv g → g_first g' = g_first g →
  receiver packs N g' items ∧ base g' = base g ∧ (settled g items → settled g' items).
Proof.
  intros [] Hb Eq Er Ef. unfold base, settled. rewrite Er, Ef. split; [|done].
  constructor; [done|by rewrite Eq|by rewrite Er|by rewrite Er|by rewrite Ef].
Qed.

Lemma gre_step_progress e g s items :
  receiver packs N g items → settled g items → from_peer packs N e → progress packs N g s (gre_step e g s).
Proof.
  intros Hg Hset He. destruct e as [mem1 mem2 now nows d|pack|]; cbn [gre_step].
  - destruct He as [He|(i & Hi & He)].
    + by eapply gre_handler_bare.
    + eapply handled_progress. by eapply gre_handler_data.
  - destruct (encaps_gre_data rc g pack (rv_buff _ _ _ _ Hg) He) as (g' & -> & Hb & _ & _ & Ea & Er & Ef & Eq & _).
    destruct (receiver_same g g' items Hg Hb Eq Er Ef) as (Hg' & Eb & Hs').
    exists false, g', [], items. rewrite app_nil_r. split; [done|]. split; [done|]. split; [constructor|]. rewrite Eb.
    split; [lia|]. split; [constructor|]. intros _. split; [auto|]. intros _. left. by rewrite Ea, Er.
  - assert (Hnop : ∀ g', (length (gre_buff g') = GRE_BUFF ∧ g_queue g' = g_queue g ∧ seq_recv g' = seq_recv g ∧ g_first g' = g_first g) →
        (acked g → acked g') → progress packs N g s (Ok (false, g', s))).
    { intros g' (Hb & Eq & Er & Ef) Hack. destruct (receiver_same g g' items Hg Hb Eq Er Ef) as (Hg' & Eb & Hs').
      exists false, g', [], items. rewrite app_nil_r. split; [done|]. split; [done|]. split; [constructor|]. rewrite Eb.
      split; [lia|]. split; [constructor|]. auto. }
    destruct (ack_timers g) as [|n] eqn:En; [apply Hnop; [|done]; by destruct Hg|].
    unfold gre_send_ack. set (g1 := timer_fired n g).
    destruct (Z.eqb_spec (ack_sent g1) (seq_recv g1)) as [Ea|Ea]; cbn [negb].
    + apply Hnop; [by destruct Hg|]. intros _. left. exact Ea.
    + destruct (encaps_gre_ack rc g1 (rv_buff _ _ _ _ Hg) Ea) as (b & Hb & ->). apply Hnop; [done|]. intros _. by left.
Qed.

Lemma gre_run_progress es g s items :
  receiver packs N g items → settled g items → acked g → Forall (from_peer packs N) es →
  ∃ closed g' ds, gre_run es g s = Ok (closed, g', s ++ (packs <$> ds)) ∧ StronglySorted Z.lt ds
    ∧ Forall (λ d, base g < d ≤ N) ds ∧ (closed = false → acked g' ∧ length (gre_buff g') = GRE_BUFF).
Proof.
  revert g s items. induction es as [|e es IH]; intros g s items Hg Hset Hack Hes.
  - exists false, g, []. rewrite app_nil_r. split; [done|]. split; [constructor|]. split; [constructor|]. intros _. split; [done|apply Hg].
  - apply Forall_cons in Hes as [He Hes].
    destruct (gre_step_progress e g s items Hg Hset He) as (closed & g1 & ds & items' & E & Hg' & Hs & Hle & Hds & Hc).
    cbn [gre_run]. rewrite E, bind_ret.
    assert (HbN : base g1 ≤ N) by (unfold base; destruct Hg', Hg; destruct (g_first g1); lia).
    assert (HdsN : Forall (λ d, base g < d ≤ N) ds) by (eapply Forall_impl; [exact Hds|]; cbn; lia).
    destruct closed; [by exists true, g1, ds|]. destruct (Hc eq_refl) as [Hset' Hack'].
    destruct (IH g1 (s ++ (packs <$> ds)) items' Hg' Hset' (Hack' Hack) Hes) as (closed & g' & ds' & E' & Hs' & Hds' & Hc').
    exists closed, g', (ds ++ ds'). rewrite E', fmap_app, app_assoc. split; [done|].
    split; [|split; [apply Forall_app; split; [done|]; eapply Forall_impl; [exact Hds'|]; cbn; lia|done]].
    apply StronglySorted_app. split_and!; [|done|done]. intros x y Hx Hy.
    rewrite Forall_forall in Hds, Hds'. specialize (Hds x Hx). specialize (Hds' y Hy). lia.
Qed.
End connection.

Lemma new_receiver packs N g : new_connection g → 0 ≤ N → receiver packs N g [] ∧ settled g [] ∧ acked g ∧ base g = 0.
Proof.
  intros (Hb & Hq & Hf & Hr & Ha) HN. unfold base. rewrite Hf. split; [|split; [constructor|split; [left; congruence|done]]].
  constructor; [done|done|lia|constructor|done].
Qed.

(** C9: Packets are delivered in the order of their numbers, each at most once.  In a new
    connection to a peer that sends well-formed datagrams ([from_peer]) and fewer than
    2^31 - 300 packets, in whatever way they come - its datagrams are lost, repeated or reordered by the network, they or bare
    acknowledgements arrive at any time, with or without an IP header, memory runs out,
    waiting packets time out, packets are sent, the terminal reports errors - the
    handlers run without a bad access, and what is passed to the terminal is the
    packets of the peer with the numbers of a strictly increasing list. *)
Theorem gre_in_order (st rc : bytes → Z) (packs : Z → bytes) (N : Z) (es : list gre_event) (g : gre) :
  0 ≤ N < 2147483648 - MISSING_WINDOW → new_connection g → Forall (from_peer packs N) es →
  ∃ closed g' ds, gre_run st rc es g [] = Ok (closed, g', packs <$> ds)
    ∧ StronglySorted Z.lt ds ∧ Forall (λ d, 1 ≤ d ≤ N) ds.
Proof.
  intros HN Hg Hes. destruct (new_receiver packs N g Hg ltac:(lia)) as (Hr & Hs & Ha & Hb).
  destruct (gre_run_progress st rc packs N ltac:(lia) es g [] [] Hr Hs Ha Hes) as (closed & g' & ds & E & Hds & Hrange & _).
  exists closed, g', ds. split; [done|]. split; [done|]. eapply Forall_impl; [exact Hrange|]. cbn. lia.
Qed.

(** What has been received is acknowledged.  In such a connection, after every
    event, the highest number that has been delivered has been sent to the peer as an
    acknowledgement, or a timeout is registered; and when the timeout is due, a packet
    that acknowledges this number is written, and no timeout is left. *)
Theorem gre_acknowledges (st rc : bytes → Z) (packs : Z → bytes) (N : Z) (es : list gre_event) (g : gre) :
  0 ≤ N < 2147483648 - MISSING_WINDOW → new_connection g → Forall (from_peer packs N) es →
  ∃ closed g' s, gre_run st rc es g [] = Ok (closed, g', s)
    ∧ (closed = false → ack_sent g' = seq_recv g'
       ∨ ((0 < ack_timers g')%nat ∧ ∃ g'', gre_send_ack rc g' = (Some (gre_ack (peer_call_id g') (seq_recv g')), g'')
            ∧ ack_sent g'' = seq_recv g' ∧ seq_recv g'' = seq_recv g' ∧ ack_timers g'' = O)).
Proof.
  intros HN Hg Hes. destruct (new_receiver packs N g Hg ltac:(lia)) as (Hr & Hs & Ha & Hb).
  destruct (gre_run_progress st rc packs N ltac:(lia) es g [] [] Hr Hs Ha Hes) as (closed & g' & ds & E & _ & _ & Hc).
  exists closed, g', (packs <$> ds). split; [done|]. intros Hcl. destruct (Hc Hcl) as [Hack Hb'].
  destruct (decide (ack_sent g' = seq_recv g')) as [|Hne]; [by left|]. right. destruct Hack as [|Ht]; [done|].
  split; [done|]. destruct (encaps_gre_ack rc g' Hb' Hne) as (b & _ & Eack).
  unfold gre_send_ack. rewrite (proj2 (Z.eqb_neq _ _) Hne), Eack. cbn [negb]. by eexists.
Qed.

(** ** Everything arrives *)

Definition usecs (t : Z * Z) : Z := fst t * 1000000 + snd t.

Lemma time_left_expiry now later t0 :
  t0 ≤ usecs now < t0 + packet_timeout_usecs → t0 ≤ usecs later < t0 + packet_timeout_usecs → 0 < time_left later (expiry now).
Proof.
  unfold usecs, packet_timeout_usecs, time_left, expiry. cbn [fst snd]. intros H1 H2.
  pose proof (Z.div_mod (snd now + 300000) 1000000 ltac:(lia)).
  set (q := _ / 1000000) in *. set (r := _ `mod` 1000000) in *. unfold s32. rewrite Z.mod_small; lia.
Qed.

(** The datagram of packet [j] arrives within the 300 ms from [t0] on. *)
Definition on_time (packs : Z → bytes) (N t0 j : Z) (e : gre_event) : Prop :=
  1 ≤ j ≤ N ∧ ∃ now nows d, e = Recv true true now nows d ∧ carries j (packs j) d
    ∧ t0 ≤ usecs now < t0 + packet_timeout_usecs ∧ ∀ k, t0 ≤ usecs (nows k) < t0 + packet_timeout_usecs.

Section complete.
Context (st rc : bytes → Z) (Hst : ∀ b, 0 ≤ st b) (packs : Z → bytes) (N t0 : Z) (HN : N ≤ MISSING_WINDOW).

Definition waiting (items : list item) : Prop :=
  Forall (λ x, ∃ now, t0 ≤ usecs now < t0 + packet_timeout_usecs ∧ i_expires x = expiry now) items.

(** One datagram, in a connection that has begun or with the first packet. *)
Lemma on_time_step j e g items seen :
  receiver packs N g items → settled g items → waiting items → on_time packs N t0 j e →
  (g_first g = true → j = 1 ∧ seen = []) → (g_first g = false → 1 ≤ seq_recv g) →
  (∀ x, x ∈ seen → x ≤ base g ∨ x ∈ i_seq <$> items) →
  ∃ g' items', gre_step st rc e g (packs <$> seqZ 1 (base g)) = Ok (false, g', packs <$> seqZ 1 (base g'))
    ∧ receiver packs N g' items' ∧ settled g' items' ∧ waiting items' ∧ g_first g' = false ∧ 1 ≤ seq_recv g'
    ∧ ∀ x, x ∈ j :: seen → x ≤ base g' ∨ x ∈ i_seq <$> items'.
Proof.
  intros Hg Hset Hw (Hj & now & nows & d & -> & Hd & Hnow & Hnows) Hfirst Hnf Hseen. cbn [gre_step].
  unfold MISSING_WINDOW in HN.
  destruct (gre_handler_data packs N ltac:(unfold MISSING_WINDOW; lia) st true true now nows j d g (packs <$> seqZ 1 (base g)) items Hg Hset Hd Hj)
    as (closed & g' & ds & items' & E & Hg' & Hf & _ & Hle & _ & Hcl & Hp).
  destruct Hp as (-> & -> & Hge & H1 & H2 & H3).
  { split; [done|]. split; [done|]. split; [done|]. split.
    - intros k y [Hy| ->].
      + unfold waiting in Hw. rewrite Forall_forall in Hw. destruct (Hw y Hy) as (n & Hn & ->). by apply (time_left_expiry n (nows k) t0).
      + cbn. by apply (time_left_expiry now (nows k) t0).
    - intros Hff. cbn. specialize (Hnf Hff). unfold MISSING_WINDOW. lia. }
  destruct (Hcl eq_refl) as [Hset' _].
  assert (Hstart : start g j = base g).
  { unfold start, base. destruct (g_first g); [|done]. destruct (Hfirst eq_refl). lia. }
  assert (Hbase' : base g' = seq_recv g') by (unfold base; by rewrite Hf).
  assert (Hbase : 0 ≤ base g) by (unfold base; destruct Hg; destruct (g_first g); lia).
  exists g', items'. rewrite E, Hstart, Hbase'. rewrite Hstart in Hge. split.
  { f_equal. f_equal. rewrite <- fmap_app. f_equal.
    replace (seq_recv g') with (base g + (seq_recv g' - base g)) at 2 by lia. rewrite seqZ_app by lia. f_equal. f_equal. lia. }
  split; [done|]. split; [done|]. split.
  { apply Forall_forall. intros x Hx. destruct (H1 x Hx) as [Hx'| ->].
    - unfold waiting in Hw. rewrite Forall_forall in Hw. by apply Hw.
    - exists now. split; [done|done]. }
  split; [done|].
  assert (Hseq : ∀ x, x ∈ j :: seen → x ≤ seq_recv g' ∨ x ∈ i_seq <$> items').
  { intros x [-> |Hx]%elem_of_cons; [exact H2|]. destruct (Hseen x Hx) as [Hx'|Hx']; [left; lia|].
    apply list_elem_of_fmap in Hx' as (y & -> & Hy). destruct (H3 y Hy) as [|Hy']; [by left|]. right. by apply list_elem_of_fmap_2. }
  split; [|done]. destruct (g_first g) eqn:Ef.
  - destruct (Hfirst eq_refl) as [-> ->]. destruct (Hseq 1) as [|Hin]; [by left|done|].
    apply list_elem_of_fmap in Hin as (y & Hy & Hin). pose proof (rv_items _ _ _ _ Hg') as Hit. rewrite Forall_forall in Hit.
    specialize (Hit y Hin). pose proof (rv_range _ _ _ _ Hg').
    unfold settled in Hset'. rewrite Forall_forall in Hset'. specialize (Hset' y Hin). cbn in Hset'. lia.
  - specialize (Hnf eq_refl). unfold base in Hge. rewrite Ef in Hge. lia.
Qed.

Lemma on_time_run js es g items (seen : list Z) :
  receiver packs N g items → settled g items → waiting items → Forall2 (on_time packs N t0) js es →
  g_first g = false → 1 ≤ seq_recv g → (∀ x, x ∈ seen → x ≤ base g ∨ x ∈ i_seq <$> items) →
  (∀ j, 1 ≤ j ≤ N → j ∈ seen ∨ j ∈ js) →
  ∃ g', gre_run st rc es g (packs <$> seqZ 1 (base g)) = Ok (false, g', packs <$> seqZ 1 N).
Proof.
  intros Hg Hset Hw Hes. revert g items seen Hg Hset Hw. induction Hes as [|j e js es He Hes IH];
    intros g items seen Hg Hset Hw Hf Hr Hseen Hall; cbn [gre_run].
  - exists g. assert (Hb : base g = N).
    { pose proof (rv_range _ _ _ _ Hg). unfold base in *. rewrite Hf in *. destruct (decide (seq_recv g = N)) as [|Hne]; [done|].
      exfalso. destruct (Hall (seq_recv g + 1)) as [Hin|Hin]; [lia| |by apply not_elem_of_nil in Hin].
      destruct (Hseen _ Hin) as [|Hx]; [lia|]. apply list_elem_of_fmap in Hx as (y & Hy & Hin').
      unfold settled in Hset. rewrite Forall_forall in Hset. specialize (Hset y Hin'). cbn in Hset. lia. }
    by rewrite Hb.
  - destruct (on_time_step j e g items seen Hg Hset Hw He) as (g' & items' & -> & Hg' & Hset' & Hw' & Hf' & Hr' & Hseen');
      [by rewrite Hf|done|done|].
    rewrite bind_ret. apply (IH g' items' (j :: seen)); try done.
    intros x Hx. destruct (Hall x Hx) as [Hin|[-> |Hin]%elem_of_cons]; [left; by right|left; by left|by right].
Qed.
End complete.

(** The packets [ps] are sent one after the other. *)
Fixpoint send_all (rc : bytes → Z) (ps : list bytes) (g : gre) : list bytes :=
  match ps with
  | [] => []
  | p :: ps =>
      let '(_, out, g) := encaps_gre rc (Some p) g in
      match out with Some d => d :: send_all rc ps g | None => send_all rc ps g end
  end.

Lemma send_all_spec rc ps g :
  length (gre_buff g) = GRE_BUFF → Forall (λ p, Z.of_nat (length p) < PACKET_MAX) ps →
  0 ≤ g_seq g → g_seq g + Z.of_nat (length ps) < 4294967296 →
  Forall2 (λ '(k, p) d, ∃ call ack, d = gre_data call (g_seq g + Z.of_nat k) ack p) (zip (seq 0 (length ps)) ps) (send_all rc ps g).
Proof.
  intros Hb Hps. revert g Hb. induction Hps as [|p ps Hp Hps IH]; intros g Hb H0 Hn; cbn [length seq zip zip_with send_all]; [constructor|].
  destruct (encaps_gre_data rc g p Hb Hp) as (g' & -> & Hb' & Es & _). cbn [length] in Hn. constructor.
  - exists (peer_call_id g), (pending_ack g). by rewrite Z.add_0_r.
  - rewrite u32_small in Es by lia. specialize (IH g' Hb' ltac:(lia) ltac:(lia)).
    rewrite <- seq_shift. change (zip (S <$> seq 0 (length ps)) ps) with (zip_with pair (S <$> seq 0 (length ps)) ps).
    rewrite zip_with_fmap_l. revert IH. generalize (send_all rc ps g'). generalize (seq 0 (length ps)). clear -Es.
    induction ps as [|p ps IH]; intros [|k ks] ds H; inversion H as [|? d ? ds' Hd H']; subst; cbn; constructor.
    + destruct Hd as (call & ack & ->). exists call, ack. by replace (g_seq g + Z.of_nat (S k)) with (g_seq g' + Z.of_nat k) by lia.
    + by apply IH.
Qed.

(** The arrival of the datagram with index [ar_index], behind the header [ar_ip]; the
    times when it is queued and when the conditions of [dequeue_gre] are evaluated. *)
Record arrival := mk_arrival { ar_index : nat; ar_ip : bytes; ar_now : Z * Z; ar_nows : nat → Z * Z }.

Definition arrive (ds : list bytes) (a : arrival) : gre_event :=
  Recv true true (ar_now a) (ar_nows a) (ar_ip a ++ ds !!! ar_index a).

Definition arrival_ok (n : nat) (t0 : Z) (a : arrival) : Prop :=
  (ar_index a < n)%nat ∧ ip_header (ar_ip a)
  ∧ t0 ≤ usecs (ar_now a) < t0 + packet_timeout_usecs ∧ ∀ k, t0 ≤ usecs (ar_nows a k) < t0 + packet_timeout_usecs.

(** The largest payload that fits into [gre_buff] with any IP header. *)
Definition GRE_PAYLOAD : Z := PACKET_MAX + 64 - 60 - 16.

Lemma ip_header_length ip : ip_header ip → (length ip ≤ 60)%nat.
Proof. intros [-> |(ihl & rest & H & _ & ->)]; [cbn; lia|]. lia. Qed.

(** C15: Nothing is lost that arrives in time.  In a new connection, a side that sends the packets [ps], at
    most 300, from number 1 on, and the network delivers the datagrams in any order, with
    repetitions, the first one first, each at least once, within 300 ms; then the other
    side passes exactly [ps] to the terminal, in this order, if this does not fail and
    memory is available. *)
Theorem gre_complete (st rc : bytes → Z) (ps : list bytes) (gs g : gre) (t0 : Z) (arr : list arrival) :
  (∀ b, 0 ≤ st b) → new_connection g → length (gre_buff gs) = GRE_BUFF → g_seq gs = 1 →
  Forall (λ p, Z.of_nat (length p) ≤ GRE_PAYLOAD) ps → Z.of_nat (length ps) ≤ MISSING_WINDOW →
  Forall (arrival_ok (length ps) t0) arr → head (ar_index <$> arr) = Some 0%nat →
  (∀ i, (i < length ps)%nat → i ∈ ar_index <$> arr) →
  ∃ g', gre_run st rc (arrive (send_all rc ps gs) <$> arr) g [] = Ok (false, g', ps).
Proof.
  intros Hst Hg Hb Hseq Hps Hn Harr Hhead Hall. unfold MISSING_WINDOW in Hn.
  assert (Hps' : Forall (λ p, Z.of_nat (length p) < PACKET_MAX) ps).
  { eapply Forall_impl; [exact Hps|]. cbn. unfold GRE_PAYLOAD. lia. }
  pose proof (send_all_spec rc ps gs Hb Hps' ltac:(lia) ltac:(lia)) as Hds. set (ds := send_all rc ps gs) in *.
  set (packs := λ j : Z, ps !!! Z.to_nat (j - 1)). set (N := Z.of_nat (length ps)) in *.
  assert (Hpacks : packs <$> seqZ 1 N = ps).
  { apply list_eq. intros k. rewrite list_lookup_fmap. destruct (decide (k < length ps)%nat) as [Hk|Hk].
    - rewrite lookup_seqZ_lt by lia. cbn. unfold packs. destruct (lookup_lt_is_Some_2 ps k Hk) as [p Ep]. rewrite Ep. f_equal.
      apply list_lookup_total_correct. rewrite <- Ep. f_equal. lia.
    - rewrite lookup_seqZ_ge by lia. by rewrite (proj2 (lookup_ge_None ps k)) by lia. }
  assert (Hcarries : ∀ a, arrival_ok (length ps) t0 a → on_time packs N t0 (Z.of_nat (ar_index a) + 1) (arrive ds a)).
  { intros a (Hi & Hip & Hnow & Hnows). split; [lia|]. eexists _, _, _. split; [reflexivity|]. split; [|done].
    destruct (lookup_lt_is_Some_2 ps (ar_index a) Hi) as [p Ep].
    assert (Ez : zip (seq 0 (length ps)) ps !! ar_index a = Some (ar_index a, p)).
    { apply lookup_zip_Some. split; [|done]. by rewrite lookup_seq_lt. }
    destruct (Forall2_lookup_l _ _ _ _ _ Hds Ez) as (d & Ed & call & ack & ->). rewrite Hseq in Ed.
    rewrite (list_lookup_total_correct _ _ _ Ed). replace (packs (Z.of_nat (ar_index a) + 1)) with p.
    2: { symmetry. apply list_lookup_total_correct. rewrite <- Ep. f_equal. lia. }
    exists (ar_ip a), call, ack. split; [done|]. split; [do 2 f_equal; lia|]. rewrite length_app.
    apply ip_header_length in Hip. rewrite Forall_forall in Hps. apply list_elem_of_lookup_2 in Ep. specialize (Hps p Ep). cbn in Hps.
    unfold GRE_PAYLOAD, GRE_BUFF, PACKET_MAX in *. unfold gre_data. rewrite !length_app, !length_be_bytes.
    destruct ack; rewrite ?length_be_bytes; cbn [length]; lia. }
  destruct arr as [|a arr]; [done|]. injection Hhead as Ha. apply Forall_cons in Harr as [Hok Harr].
  destruct (new_receiver packs N g Hg ltac:(lia)) as (Hr & Hs & _ & Hb0).
  pose proof (Hcarries a Hok) as Hfirst. rewrite Ha in Hfirst.
  destruct (on_time_step st rc Hst packs N t0 Hn 1 (arrive ds a) g [] [] Hr Hs ltac:(constructor) Hfirst)
    as (g1 & items1 & E & Hr1 & Hs1 & Hw1 & Hf1 & Hge1 & Hseen1); [done| |by intros x ?%elem_of_nil|].
  { destruct Hg as (_ & _ & -> & _). done. }
  rewrite Hb0 in E. cbn [fmap list_fmap gre_run]. change (packs <$> seqZ 1 0) with (@nil bytes) in E. rewrite E, bind_ret.
  change (list_fmap arrival gre_event (arrive ds) arr) with (arrive ds <$> arr).
  rewrite <- Hpacks. apply (on_time_run st rc Hst packs N t0 Hn ((λ a, Z.of_nat (ar_index a) + 1) <$> arr) _ g1 items1 [1]); try done.
  - clear -Hcarries Harr. induction Harr as [|a arr Hok Harr IH]; cbn; constructor; [by apply Hcarries|exact IH].
  - intros j Hj. specialize (Hall (Z.to_nat (j - 1)) ltac:(lia)). cbn [fmap list_fmap] in Hall.
    apply elem_of_cons in Hall as [Hin|Hin]; [left; apply elem_of_cons; left; lia|]. right.
    apply list_elem_of_fmap in Hin as (b & Hb' & Hin). apply list_elem_of_fmap. exists b. split; [lia|done].
Qed.

(** ** The GRE side of the PPTP client: examples

    The theorems at concrete connections, and what happens outside of their conditions. *)

Definition ok_status (b : bytes) : Z := 1.
Definition demo_gre : gre := mk_gre 0 0 0 0 7 (replicate GRE_BUFF 0) true 1 empty_queue 0.
Definition demo_packs (i : Z) : bytes := [i; i + 1].
Definition demo_time : Z * Z := (100, 999999).
Definition demo_ip : bytes := 0x45 :: replicate 19 0.

(** Packet 3 before packet 2, packet 2 twice, a bare acknowledgement. *)
Definition demo_events : list gre_event :=
  [Recv true true demo_time (λ _, demo_time) (demo_ip ++ gre_data 7 1 None [1; 2]);
   Recv true true demo_time (λ _, demo_time) (gre_data 7 3 (Some 1) [3; 4]);
   SendPack [9];
   Recv true false demo_time (λ _, demo_time) (gre_data 7 2 None [2; 3]);
   Recv true true demo_time (λ _, demo_time) (gre_data 7 2 None [2; 3]);
   Recv true true demo_time (λ _, demo_time) (gre_ack 7 1);
   AckDue].

Lemma demo_new : new_connection demo_gre.
Proof. repeat (split; [done || exact queued_empty|]). done. Qed.

Lemma demo_ip_header : ip_header demo_ip.
Proof. right. exists 5, (replicate 19 0). done. Qed.

Lemma no_ip_header : ip_header [].
Proof. by left. Qed.

Lemma demo_carries ip seq ack : ip_header ip → carries seq (demo_packs seq) (ip ++ gre_data 7 seq ack (demo_packs seq)).
Proof.
  intros Hip. exists ip, 7, ack. split; [done|]. split; [done|]. rewrite length_app. apply ip_header_length in Hip.
  assert (length (gre_data 7 seq ack (demo_packs seq)) ≤ 18)%nat by (destruct ack; vm_compute; lia).
  unfold GRE_BUFF, PACKET_MAX. lia.
Qed.

Lemma demo_from_peer : Forall (from_peer demo_packs 3) demo_events.
Proof.
  unfold demo_events. rewrite !Forall_cons. split; [|split; [|split; [|split; [|split; [|split; [|split]]]]]].
  - right. exists 1. split; [lia|]. apply (demo_carries demo_ip 1 None demo_ip_header).
  - right. exists 3. split; [lia|]. apply (demo_carries [] 3 (Some 1) no_ip_header).
  - done.
  - right. exists 2. split; [lia|]. apply (demo_carries [] 2 None no_ip_header).
  - right. exists 2. split; [lia|]. apply (demo_carries [] 2 None no_ip_header).
  - left. exists [], 7, 1. split; [apply no_ip_header|]. split; [done|]. apply (bool_decide_eq_true_1 _). by vm_compute.
  - done.
  - constructor.
Qed.

Lemma demo_N : 0 ≤ 3 < 2147483648 - MISSING_WINDOW.
Proof. unfold MISSING_WINDOW. lia. Qed.

Lemma gre_in_order_witness :
  Forall (from_peer demo_packs 3) demo_events
  ∧ ∃ closed g' ds, gre_run ok_status ok_status demo_events demo_gre [] = Ok (closed, g', demo_packs <$> ds)
      ∧ StronglySorted Z.lt ds ∧ Forall (λ d, 1 ≤ d ≤ 3) ds.
Proof.
  split; [exact demo_from_peer|]. exact (gre_in_order ok_status ok_status demo_packs 3 demo_events demo_gre demo_N demo_new demo_from_peer).
Defined.

Lemma gre_acknowledges_witness :
  Forall (from_peer demo_packs 3) demo_events
  ∧ ∃ closed g' s, gre_run ok_status ok_status demo_events demo_gre [] = Ok (closed, g', s)
      ∧ (closed = false → ack_sent g' = seq_recv g'
         ∨ ((0 < ack_timers g')%nat ∧ ∃ g'', gre_send_ack ok_status g' = (Some (gre_ack (peer_call_id g') (seq_recv g')), g'')
              ∧ ack_sent g'' = seq_recv g' ∧ seq_recv g'' = seq_recv g' ∧ ack_timers g'' = O)).
Proof.
  split; [exact demo_from_peer|]. exact (gre_acknowledges ok_status ok_status demo_packs 3 demo_events demo_gre demo_N demo_new demo_from_peer).
Defined.

Definition demo_arrivals : list arrival :=
  (λ i, mk_arrival i demo_ip demo_time (λ _, demo_time)) <$> [0; 2; 3; 2; 1; 0]%nat.
Definition demo_sent : list bytes := [[1; 2]; []; [0x7e]; [4; 5; 6]].

Lemma demo_arrivals_ok : Forall (arrival_ok 4 (usecs demo_time)) demo_arrivals.
Proof.
  repeat (constructor; [split; [cbn; lia|]; split; [exact demo_ip_header|];
    split; [vm_compute; done|intros k; vm_compute; done]|]). constructor.
Qed.

Lemma demo_arrivals_all i : (i < 4)%nat → i ∈ ar_index <$> demo_arrivals.
Proof. intros H. do 4 (destruct i as [|i]; [apply (bool_decide_eq_true_1 _); by vm_compute|]). lia. Qed.

Lemma gre_complete_witness :
  Forall (arrival_ok 4 (usecs demo_time)) demo_arrivals
  ∧ ∃ g', gre_run ok_status ok_status (arrive (send_all ok_status demo_sent demo_gre) <$> demo_arrivals) demo_gre [] = Ok (false, g', demo_sent).
Proof.
  split; [exact demo_arrivals_ok|].
  apply (gre_complete ok_status ok_status demo_sent demo_gre demo_gre (usecs demo_time) demo_arrivals).
  - intros b. done.
  - exact demo_new.
  - apply (bool_decide_eq_true_1 _). by vm_compute.
  - done.
  - by repeat constructor.
  - done.
  - exact demo_arrivals_ok.
  - done.
  - exact demo_arrivals_all.
Defined.

(** ** Outside of the conditions *)

Definition delivered (r : res (bool * gre * list bytes)) : option (list bytes) :=
  match r with Ok (_, _, s) => Some s | _ => None end.

Definition recv (d : bytes) : gre_event := Recv true true demo_time (λ _, demo_time) d.

(** Packet 3 of an earlier connection waits in the queue; [init_vars] leaves it there,
    and the next connection delivers it after its own packet 2. *)
Example stale_packet_delivered :
  match gre_run ok_status ok_status [recv (gre_data 7 1 None [1]); recv (gre_data 7 3 None [3])] demo_gre [] with
  | Ok (_, g, _) =>
      delivered (gre_run ok_status ok_status [recv (gre_data 7 1 None [11]); recv (gre_data 7 2 None [12])] (init_vars g) [])
      = Some [[11]; [12]; [3]]
  | _ => False
  end.
Proof. by vm_compute. Qed.

(** From 2^31 on the numbers in the queue are negative: packet 2^31 - 1 and 2^31 are
    delivered in the wrong order when both wait. *)
Definition half_way : gre :=
  mk_gre 0 0 0 2147483645 7 (replicate GRE_BUFF 0) false 1 empty_queue 0.

Definition late : Z * Z := (200, 0).

Example order_lost_at_half :
  delivered (gre_run ok_status ok_status
    [recv (gre_data 7 2147483647 None [1]); recv (gre_data 7 2147483648 None [2]);
     Recv true true late (λ _, late) (gre_data 7 2147483646 None [0])] half_way []) = Some [[0]; [2]; [1]].
Proof. by vm_compute. Qed.

(** Shortly before the numbers wrap around, early packets are discarded. *)
Definition near_end : gre :=
  mk_gre 0 0 0 4294967180 7 (replicate GRE_BUFF 0) false 1 empty_queue 0.

Example early_packet_discarded :
  delivered (gre_run ok_status ok_status
    [recv (gre_data 7 4294967182 None [2]); recv (gre_data 7 4294967181 None [1])] near_end []) = Some [[1]].
Proof. by vm_compute. Qed.

(** Six bytes with the length 0xffff: the number of bytes that are left is computed
    without sign, and the handler reads beyond the buffer. *)
Example short_datagram_overruns :
  gre_run ok_status ok_status [recv [0x30; 0x01; 0x88; 0x0b; 0xff; 0xff]] demo_gre [] = Fault.
Proof. by vm_compute. Qed.

(** Behind an IP header a packet may be truncated by the length of this header: the
    terminal gets what the buffer held before. *)
Example truncated_packet_accepted :
  delivered (gre_run ok_status ok_status
    [recv (demo_ip ++ gre_data 7 1 None [1; 2; 3; 4]); recv (demo_ip ++ take 13 (gre_data 7 2 None [5; 6; 7; 8]))] demo_gre [])
  = Some [[1; 2; 3; 4]; [5; 2; 3; 4]].
Proof. by vm_compute. Qed.

(** The call's number is not looked at. *)
Example other_call_accepted :
  delivered (gre_run ok_status ok_status [recv (gre_data 8 1 None [1])] demo_gre []) = Some [[1]].
Proof. by vm_compute. Qed.
