(* ===== verification/Pppoe.v ===== *)
(** * PPPoE: packets, tags and what is sent (progs.gpl/pppd.alpha/pppoe: pppoe.h,
    common.c, the callbacks and senders of discovery.c, [sendPacket] and [receivePacket]
    of if.c)

    A packet is the object of its 1520 bytes.  The structure has bit-fields, which
    [PACK_BITFIELDS_REVERSED] puts in the order type, version; both are four bits of one
    byte.  A local packet is not initialised: its bytes are a function [junk] of the
    calls so far.  The process number is a parameter. *)

From stdpp Require Import base numbers list.
From S2P Require Import Prelude Bytes Syscalls.

(** ** Constants *)

Definition ETH_ALEN : nat := 6.
Definition ETH_DATA_LEN : Z := 1500.
Definition Eth_PPPOE_Discovery : Z := 0x8863.
Definition Eth_PPPOE_Session : Z := 0x8864.

Definition CODE_PADI : Z := 0x09.
Definition CODE_PADO : Z := 0x07.
Definition CODE_PADR : Z := 0x19.
Definition CODE_PADS : Z := 0x65.
Definition CODE_PADT : Z := 0xA7.
Definition CODE_SESS : Z := 0x00.

Definition TAG_END_OF_LIST : Z := 0x0000.
Definition TAG_SERVICE_NAME : Z := 0x0101.
Definition TAG_AC_NAME : Z := 0x0102.
Definition TAG_HOST_UNIQ : Z := 0x0103.
Definition TAG_AC_COOKIE : Z := 0x0104.
Definition TAG_RELAY_SESSION_ID : Z := 0x0110.
Definition TAG_SERVICE_NAME_ERROR : Z := 0x0201.
Definition TAG_AC_SYSTEM_ERROR : Z := 0x0202.
Definition TAG_GENERIC_ERROR : Z := 0x0203.

Inductive disc_state := STATE_SENT_PADI | STATE_RECEIVED_PADO | STATE_SENT_PADR | STATE_SESSION | STATE_TERMINATED.
#[export] Instance disc_state_eq_dec : EqDecision disc_state.
Proof. solve_decision. Defined.

Definition PPPOE_OVERHEAD : Z := 6.
Definition HDR_SIZE : Z := 14 + PPPOE_OVERHEAD.
Definition MAX_PPPOE_PAYLOAD : Z := ETH_DATA_LEN - PPPOE_OVERHEAD.
Definition TAG_HDR_SIZE : Z := 4.

(** ** Data *)

(** The members of [PPPoEPacket]. *)
Definition P_dest : nat := 0.
Definition P_source : nat := 6.
Definition P_proto : nat := 12.
Definition P_vertype : nat := 14.
Definition P_code : nat := 15.
Definition P_session : nat := 16.
Definition P_length : nat := 18.
Definition P_payload : nat := 20.
Definition PACKET_SIZE : nat := 1520.

Definition h_dest (p : bytes) : bytes := slice p P_dest ETH_ALEN.
Definition h_source (p : bytes) : bytes := slice p P_source ETH_ALEN.
Definition p_type (p : bytes) : Z := Z.shiftr (p !!! P_vertype) 4.
Definition p_ver (p : bytes) : Z := Z.land (p !!! P_vertype) 0xf.
Definition p_code (p : bytes) : Z := p !!! P_code.
Definition p_session (p : bytes) : Z := get16 p P_session.
Definition p_length (p : bytes) : Z := get16 p P_length.
Definition p_payload (p : bytes) : bytes := drop P_payload p.

(** [PPPoETag]; the payload has [ETH_DATA_LEN] bytes. *)
Record tag := mk_tag { t_type : Z; t_length : Z; t_payload : bytes }.
Definition tag_bytes (t : tag) : bytes := be_bytes 2 (t_type t) ++ be_bytes 2 (t_length t) ++ t_payload t.
Definition zero_tag : tag := mk_tag 0 0 (replicate (Z.to_nat ETH_DATA_LEN) 0).

(** [debugFile] is left out, it is never set. *)
Record PPPoEConnection := mk_conn {
  discoveryState : disc_state; discoverySocket : Z; sessionSocket : Z; myEth : bytes; peerEth : bytes;
  session : Z; ifName : bytes; serviceName : option bytes; acName : option bytes;
  synchronous : bool; useHostUniq : bool; numPADOs : Z; cookie : tag; relayId : tag }.

Definition with_state (c : PPPoEConnection) (v : disc_state) : PPPoEConnection :=
  mk_conn v (discoverySocket c) (sessionSocket c) (myEth c) (peerEth c) (session c) (ifName c)
    (serviceName c) (acName c) (synchronous c) (useHostUniq c) (numPADOs c) (cookie c) (relayId c).
Definition with_discoverySocket (c : PPPoEConnection) (fd : Z) (hwaddr : bytes) : PPPoEConnection :=
  mk_conn (discoveryState c) fd (sessionSocket c) hwaddr (peerEth c) (session c) (ifName c)
    (serviceName c) (acName c) (synchronous c) (useHostUniq c) (numPADOs c) (cookie c) (relayId c).
Definition with_sessionSocket (c : PPPoEConnection) (fd : Z) (hwaddr : bytes) : PPPoEConnection :=
  mk_conn (discoveryState c) (discoverySocket c) fd hwaddr (peerEth c) (session c) (ifName c)
    (serviceName c) (acName c) (synchronous c) (useHostUniq c) (numPADOs c) (cookie c) (relayId c).
Definition with_peerEth (c : PPPoEConnection) (v : bytes) : PPPoEConnection :=
  mk_conn (discoveryState c) (discoverySocket c) (sessionSocket c) (myEth c) v (session c) (ifName c)
    (serviceName c) (acName c) (synchronous c) (useHostUniq c) (numPADOs c) (cookie c) (relayId c).
Definition with_session (c : PPPoEConnection) (v : Z) : PPPoEConnection :=
  mk_conn (discoveryState c) (discoverySocket c) (sessionSocket c) (myEth c) (peerEth c) v (ifName c)
    (serviceName c) (acName c) (synchronous c) (useHostUniq c) (numPADOs c) (cookie c) (relayId c).
Definition with_numPADOs (c : PPPoEConnection) (v : Z) : PPPoEConnection :=
  mk_conn (discoveryState c) (discoverySocket c) (sessionSocket c) (myEth c) (peerEth c) (session c) (ifName c)
    (serviceName c) (acName c) (synchronous c) (useHostUniq c) v (cookie c) (relayId c).
Definition with_cookie (c : PPPoEConnection) (v : tag) : PPPoEConnection :=
  mk_conn (discoveryState c) (discoverySocket c) (sessionSocket c) (myEth c) (peerEth c) (session c) (ifName c)
    (serviceName c) (acName c) (synchronous c) (useHostUniq c) (numPADOs c) v (relayId c).
Definition with_relayId (c : PPPoEConnection) (v : tag) : PPPoEConnection :=
  mk_conn (discoveryState c) (discoverySocket c) (sessionSocket c) (myEth c) (peerEth c) (session c) (ifName c)
    (serviceName c) (acName c) (synchronous c) (useHostUniq c) (numPADOs c) (cookie c) v.

(** [struct PacketCriteria], the connection included. *)
Record PacketCriteria := mk_criteria {
  pc_conn : PPPoEConnection; acNameOK : bool; serviceNameOK : bool; seenACName : bool; seenServiceName : bool }.

Definition with_conn (pc : PacketCriteria) (c : PPPoEConnection) : PacketCriteria :=
  mk_criteria c (acNameOK pc) (serviceNameOK pc) (seenACName pc) (seenServiceName pc).
Definition saw_ac (pc : PacketCriteria) (ok : bool) : PacketCriteria :=
  mk_criteria (pc_conn pc) (ok || acNameOK pc) (serviceNameOK pc) true (seenServiceName pc).
Definition saw_service (pc : PacketCriteria) (ok : bool) : PacketCriteria :=
  mk_criteria (pc_conn pc) (acNameOK pc) (ok || serviceNameOK pc) (seenACName pc) true.

(** [NOT_UNICAST] *)
Definition NOT_UNICAST (e : bytes) : bool := negb (Z.land (e !!! 0%nat) 0x01 =? 0).

(** ** Parsing *)

Section parse.
(** The callback gets the type, the length and the bytes from the data on, and works on
    what [extra] points to. *)
Context {S : Type} (func : Z → Z → bytes → S → res (Z * S)).

(** The loop over the tags; [cur] is [curTag - packet->payload].  A turn goes on by four
    bytes at least. *)
Fixpoint parse_tags (fuel : nat) (payload : bytes) (len cur : Z) (s : S) : res (Z * S) :=
  match fuel with
  | O => NoFuel
  | Datatypes.S fuel =>
      if negb (cur <? len) then mret (0, s)
      else
        tagType ← read16 payload (Z.to_nat cur);
        tagLen ← read16 payload (Z.to_nat (cur + 2));
        if tagType =? TAG_END_OF_LIST then mret (0, s)
        else if len <? cur + tagLen + TAG_HDR_SIZE then mret (-1, s)
        else
          '(r, s) ← func tagType tagLen (drop (Z.to_nat (cur + TAG_HDR_SIZE)) payload) s;
          if r <? 0 then mret (-1, s)
          else parse_tags fuel payload len (cur + TAG_HDR_SIZE + tagLen) s
  end.

Definition parsePacket (packet : bytes) (s : S) : res (Z * S) :=
  let len := p_length packet in
  if negb (p_ver packet =? 1) then mret (-1, s)
  else if negb (p_type packet =? 1) then mret (-1, s)
  else if ETH_DATA_LEN - 6 <? len then mret (-1, s)
  else parse_tags (Datatypes.S (Z.to_nat len)) (p_payload packet) len 0 s.
End parse.

(** [memcpy(tag, curTag, tagLen + TAG_HDR_SIZE)] *)
Definition copy_in (t : tag) (type len : Z) (data : bytes) : res tag :=
  d ← read_at data 0 (Z.to_nat len);
  payload ← write_at (t_payload t) 0 d;
  mret (mk_tag type len payload).

Fixpoint find_loop (fuel : nat) (payload : bytes) (len cur type : Z) (t : tag) : res (option Z * tag) :=
  match fuel with
  | O => NoFuel
  | S fuel =>
      if negb (cur <? len) then mret (None, t)
      else
        tagType ← read16 payload (Z.to_nat cur);
        tagLen ← read16 payload (Z.to_nat (cur + 2));
        if tagType =? TAG_END_OF_LIST then mret (None, t)
        else if len <? cur + tagLen + TAG_HDR_SIZE then mret (None, t)
        else if tagType =? type then
          t ← copy_in t tagType tagLen (drop (Z.to_nat (cur + TAG_HDR_SIZE)) payload);
          mret (Some cur, t)
        else find_loop fuel payload len (cur + TAG_HDR_SIZE + tagLen) type t
  end.

(** The position of the tag in the payload, and [*tag]. *)
Definition findTag (packet : bytes) (type : Z) (t : tag) : res (option Z * tag) :=
  let len := p_length packet in
  if negb (p_ver packet =? 1) then mret (None, t)
  else if negb (p_type packet =? 1) then mret (None, t)
  else if ETH_DATA_LEN - 6 <? len then mret (None, t)
  else find_loop (S (Z.to_nat len)) (p_payload packet) len 0 type t.

(** A name is configured, and the data is this name; [data] is not read beyond [len]. *)
Definition name_matches (name : option bytes) (len : Z) (data : bytes) : res bool :=
  match name with
  | Some n =>
      if len =? Z.of_nat (length n) then d ← read_at data 0 (Z.to_nat len); mret (strncmp_eq d n (Z.to_nat len))
      else mret false
  | None => mret false
  end.

Definition parsePADOTags (type len : Z) (data : bytes) (pc : PacketCriteria) : res (Z * PacketCriteria) :=
  let conn := pc_conn pc in
  if type =? TAG_AC_NAME then
    ok ← name_matches (acName conn) len data; mret (0, saw_ac pc ok)
  else if type =? TAG_SERVICE_NAME then
    ok ← name_matches (serviceName conn) len data; mret (0, saw_service pc ok)
  else if type =? TAG_AC_COOKIE then
    t ← copy_in (cookie conn) type len data; mret (0, with_conn pc (with_cookie conn t))
  else if type =? TAG_RELAY_SESSION_ID then
    t ← copy_in (relayId conn) type len data; mret (0, with_conn pc (with_relayId conn t))
  else if (type =? TAG_SERVICE_NAME_ERROR) || (type =? TAG_AC_SYSTEM_ERROR) || (type =? TAG_GENERIC_ERROR)
  then mret (-1, pc)
  else mret (0, pc).

Definition parsePADSTags (type len : Z) (data : bytes) (conn : PPPoEConnection) : res (Z * PPPoEConnection) :=
  if (type =? TAG_SERVICE_NAME_ERROR) || (type =? TAG_AC_SYSTEM_ERROR) || (type =? TAG_GENERIC_ERROR)
  then mret (-1, conn)
  else if type =? TAG_RELAY_SESSION_ID then
    t ← copy_in (relayId conn) type len data; mret (0, with_relayId conn t)
  else mret (0, conn).

(** Only logs. *)
Definition parseLogErrs (type len : Z) (data : bytes) (s : ()) : res (Z * ()) := mret (0, s).

Section senders.
Context `{Os} (pid : Z) (junk : trace → bytes).

Definition parseForHostUniq (type len : Z) (data : bytes) (val : Z) : res (Z * Z) :=
  if (type =? TAG_HOST_UNIQ) && (len =? 4) then
    d ← read_at data 0 (Z.to_nat len);
    mret (0, if be_val d =? pid then 1 else val)
  else mret (0, val).

Definition packetIsForMe (conn : PPPoEConnection) (packet : bytes) : res bool :=
  if negb (bool_decide (h_dest packet = myEth conn)) then mret false
  else if negb (useHostUniq conn) then mret true
  else
    '(_, forMe) ← parsePacket parseForHostUniq packet 0;
    mret (negb (forMe =? 0)).

(** ** Sockets *)

(** A local [PPPoEPacket]. *)
Definition uninit : sys bytes := λ t, Ok (junk t, t).

Definition sendPacket (sock : Z) (pkt : bytes) (size : Z) : sys Z :=
  d ← lift (read_at pkt 0 (Z.to_nat size));
  a ← ask (Send sock d);
  mret (if rv a <? 0 then -1 else 0).

(** The result, the packet and [*size]. *)
Definition receivePacket (sock : Z) (pkt : bytes) : sys (Z * bytes * Z) :=
  a ← ask (Recv sock PACKET_SIZE);
  if rv a <? 0 then mret (-1, pkt, rv a)
  else pkt ← lift (write_at pkt 0 (delivered a)); mret (0, pkt, rv a).

(** ** What is sent *)

(** A packet under construction: the object, [cursor - packet.payload] and [plen], a
    [UINT16_t]. *)
Record building := mk_building { b_packet : bytes; b_cursor : Z; b_plen : Z }.

Definition CHECK_ROOM (cursor len : Z) : bool := MAX_PPPOE_PAYLOAD <? cursor + len.

(** The Ethernet header and the first members. *)
Definition start_packet (packet dest source : bytes) (code session : Z) : bytes :=
  let packet := splice packet P_dest dest in
  let packet := splice packet P_source source in
  let packet := set16 packet P_proto Eth_PPPOE_Discovery in
  let packet := set8 packet P_vertype 0x11 in
  let packet := set8 packet P_code code in
  set16 packet P_session session.

(** [memcpy(cursor, tag, n)], and [cursor] and [plen] after it. *)
Definition append (b : building) (tag : bytes) (n : Z) : res building :=
  d ← read_at tag 0 (Z.to_nat n);
  packet ← write_at (b_packet b) (P_payload + Z.to_nat (b_cursor b)) d;
  mret (mk_building packet (b_cursor b + n) (u16 (b_plen b + n))).

Definition host_uniq : bytes := be_bytes 2 TAG_HOST_UNIQ ++ be_bytes 2 4 ++ be_bytes 4 pid.

(** [None] when there is no room. *)
Definition append_host_uniq (checked : bool) (conn : PPPoEConnection) (b : building) : res (option building) :=
  if useHostUniq conn then
    if checked && CHECK_ROOM (b_cursor b) (4 + TAG_HDR_SIZE) then mret None
    else Some <$> append b host_uniq (4 + TAG_HDR_SIZE)
  else mret (Some b).

(** The cookie or the relay's number, if there is one. *)
Definition append_tag (t : tag) (b : building) : res (option building) :=
  if t_type t =? 0 then mret (Some b)
  else if CHECK_ROOM (b_cursor b) (t_length t + TAG_HDR_SIZE) then mret None
  else Some <$> append b (tag_bytes t) (t_length t + TAG_HDR_SIZE).

(** The length, and off it goes. *)
Definition finish (conn : PPPoEConnection) (b : building) : sys Z :=
  sendPacket (discoverySocket conn) (set16 (b_packet b) P_length (b_plen b)) (b_plen b + HDR_SIZE).

(** The first tag; the name is copied with its full length. *)
Definition service_tag (packet : bytes) (conn : PPPoEConnection) (namelen copied : Z) : res bytes :=
  packet ← write_at packet P_payload (be_bytes 2 TAG_SERVICE_NAME ++ be_bytes 2 namelen);
  match serviceName conn with
  | Some n => d ← read_at n 0 (Z.to_nat copied); write_at packet (P_payload + 4) d
  | None => mret packet
  end.

Definition name_length (name : option bytes) : Z := if name is Some n then Z.of_nat (length n) else 0.

Definition sendPADI (conn : PPPoEConnection) : sys Z :=
  packet ← uninit;
  let namelen := u16 (name_length (serviceName conn)) in
  let plen := u16 (TAG_HDR_SIZE + namelen) in
  if CHECK_ROOM 0 plen then mret (-1)
  else
    let packet := start_packet packet (replicate ETH_ALEN 0xFF) (myEth conn) CODE_PADI 0 in
    if CHECK_ROOM 0 (namelen + TAG_HDR_SIZE) then mret (-1)
    else
      packet ← lift (service_tag packet conn namelen (name_length (serviceName conn)));
      b ← lift (append_host_uniq true conn (mk_building packet (namelen + TAG_HDR_SIZE) plen));
      if b is Some b then finish conn b else mret (-1).

Definition sendPADR (conn : PPPoEConnection) : sys Z :=
  packet ← uninit;
  let namelen := u16 (name_length (serviceName conn)) in
  let plen := u16 (TAG_HDR_SIZE + namelen) in
  if CHECK_ROOM 0 plen then mret (-1)
  else
    let packet := start_packet packet (peerEth conn) (myEth conn) CODE_PADR 0 in
    packet ← lift (service_tag packet conn namelen namelen);
    b ← lift (append_host_uniq true conn (mk_building packet (namelen + TAG_HDR_SIZE) plen));
    if b is Some b then
      b ← lift (append_tag (cookie conn) b);
      if b is Some b then
        b ← lift (append_tag (relayId conn) b);
        if b is Some b then finish conn b else mret (-1)
      else mret (-1)
    else mret (-1).

(** The error tag is built in a [PPPoETag], which holds the message and its zero. *)
Definition append_message (msg : option bytes) (b : building) : res building :=
  match msg with
  | Some m =>
      let elen := Z.of_nat (length m) in
      if elen <? ETH_DATA_LEN then append b (be_bytes 2 TAG_GENERIC_ERROR ++ be_bytes 2 elen ++ m) (elen + TAG_HDR_SIZE)
      else Fault
  | None => mret b
  end.

Definition sendPADT (conn : PPPoEConnection) (msg : option bytes) : sys (Z * PPPoEConnection) :=
  packet ← uninit;
  if session conn =? 0 then mret (0, conn)
  else if discoverySocket conn <? 0 then mret (0, conn)
  else
    let packet := start_packet packet (peerEth conn) (myEth conn) CODE_PADT (session conn) in
    let conn := with_session conn 0 in
    b ← lift (append_host_uniq false conn (mk_building packet 0 0));
    if b is Some b then
      b ← lift (append_message msg b);
      b ← lift (append_tag (cookie conn) b);
      if b is Some b then
        b ← lift (append_tag (relayId conn) b);
        if b is Some b then _ ← finish conn b; mret (0, conn)
        else mret (-1, conn)
      else mret (-1, conn)
    else mret (-1, conn).

(** [text] is what the format expands to. *)
Definition sendPADTf (conn : PPPoEConnection) (text : bytes) : sys (Z * PPPoEConnection) :=
  sendPADT conn (Some (take 511 text)).
End senders.
