(* ===== verification/PppoeDisc.v ===== *)
(** * PPPoE: discovery (progs.gpl/pppd.alpha/pppoe: [openInterface] of if.c, the waiting
    and the attempts of discovery.c)

    [fuel] bounds how often [select] may return before its time in one wait.  [select]
    writes the time that is left into its argument; the microseconds are left out. *)

From stdpp Require Import base numbers strings list.
From S2P Require Import Prelude Bytes Syscalls Pppoe.

Definition SIOCGIFMTU : Z := 0x8921.
Definition FD_SETSIZE : Z := 1024.
Definition MAX_PADI_ATTEMPTS : nat := 2.
Definition PADI_TIMEOUT : Z := 2.

(** [strncpy] into [ifr_name]. *)
Definition ifr_name (name : bytes) : bytes := take IFNAMSIZ name ++ replicate (IFNAMSIZ - length name) 0.

(** [FD_SET] writes into an array of bits. *)
Definition FD_SET (fd : Z) : res () := if (0 <=? fd) && (fd <? FD_SETSIZE) then mret () else Fault.

(** What a turn of a loop does: [return -1], [break], [continue] (or the end of the body). *)
Inductive wait_outcome := Failed | Break | Continue.

(** A PADO: the connection and the flags after one packet. *)
Definition pado_tags (packet : bytes) (pc : PacketCriteria) : res (wait_outcome * PacketCriteria) :=
  '(r, pc) ← parsePacket parsePADOTags packet pc;
  if r <? 0 then mret (Failed, pc)
  else if negb (seenACName pc) then mret (Continue, pc)
  else if negb (seenServiceName pc) then mret (Continue, pc)
  else
    let pc := with_conn pc (with_numPADOs (pc_conn pc) (s32 (numPADOs (pc_conn pc) + 1))) in
    if acNameOK pc && serviceNameOK pc then
      mret (Break, with_conn pc (with_state (with_peerEth (pc_conn pc) (h_source packet)) STATE_RECEIVED_PADO))
    else mret (Continue, pc).

Definition pado_packet (pid : Z) (packet : bytes) (len : Z) (pc : PacketCriteria) : res (wait_outcome * PacketCriteria) :=
  if len <? p_length packet + HDR_SIZE then mret (Continue, pc)
  else
    forMe ← packetIsForMe pid (pc_conn pc) packet;
    if negb forMe then mret (Continue, pc)
    else if p_code packet =? CODE_PADO then
      if NOT_UNICAST (h_source packet) then mret (Continue, pc) else pado_tags packet pc
    else mret (Continue, pc).

Definition pads_packet (pid : Z) (packet : bytes) (len : Z) (conn : PPPoEConnection) : res (wait_outcome * PPPoEConnection) :=
  if len <? p_length packet + HDR_SIZE then mret (Continue, conn)
  else if negb (bool_decide (h_source packet = peerEth conn)) then mret (Continue, conn)
  else
    forMe ← packetIsForMe pid conn packet;
    if negb forMe then mret (Continue, conn)
    else if p_code packet =? CODE_PADS then
      '(r, conn) ← parsePacket parsePADSTags packet conn;
      if r <? 0 then mret (Failed, conn) else mret (Break, with_state conn STATE_SESSION)
    else mret (Continue, conn).

Section discovery.
Context `{Os} (pid : Z) (junk : trace → bytes).

(** [hwaddr] is not NULL for any caller. *)
Definition openInterface (ifname : bytes) (type : Z) (hwaddr : bytes) : sys (Z * bytes) :=
  fd ← ask (Socket PF_PACKET SOCK_RAW type);
  if rv fd <? 0 then mret (-1, hwaddr)
  else
    let fail hwaddr := r ← close_fail (rv fd); mret (r, hwaddr) in
    a ← ask (Setsockopt (rv fd) SO_BROADCAST one);
    if rv a <? 0 then fail hwaddr
    else
      a ← ask (Ioctl (rv fd) SIOCGIFHWADDR (ifr_name ifname));
      if rv a <? 0 then fail hwaddr
      else
        let hwaddr := slice (delivered a) 2 ETH_ALEN in
        if negb (get16 (delivered a) 0 =? ARPHRD_ETHER) then fail hwaddr
        else if NOT_UNICAST hwaddr then fail hwaddr
        else
          a ← ask (Ioctl (rv fd) SIOCGIFMTU (ifr_name ifname));
          if rv a <? 0 then fail hwaddr
          else if s32 (get32 (delivered a) 0) <? ETH_DATA_LEN then fail hwaddr
          else
            a ← ask (Ioctl (rv fd) SIOCGIFINDEX (ifr_name ifname));
            if rv a <? 0 then fail hwaddr
            else
              a ← ask (Bind (rv fd) (Link type (s32 (get32 (delivered a) 0)) 0 []));
              if rv a <? 0 then fail hwaddr else mret (rv fd, hwaddr).

(** The inner loop around [select]. *)
Fixpoint wait_readable (fuel : nat) (fd tv_sec : Z) : sys Z :=
  match fuel with
  | O => lift NoFuel
  | S fuel =>
      a ← ask (Select fd tv_sec);
      if (0 <=? rv a) || negb (errno a =? EINTR) then mret (rv a)
      else wait_readable fuel fd (get32 (delivered a) 0)
  end.

Fixpoint pado_loop (fuel : nat) (timeout : Z) (packet : bytes) (pc : PacketCriteria) : sys (Z * PPPoEConnection) :=
  match fuel with
  | O => lift NoFuel
  | S fuel' =>
      let fd := discoverySocket (pc_conn pc) in
      _ ← lift (FD_SET fd);
      r ← wait_readable fuel fd timeout;
      if r <? 0 then mret (-1, pc_conn pc)
      else if r =? 0 then mret (0, pc_conn pc)
      else
        '(e, packet, len) ← receivePacket fd packet;
        if e <? 0 then mret (-1, pc_conn pc)
        else
          '(o, pc) ← lift (pado_packet pid packet len pc);
          match o with
          | Failed => mret (-1, pc_conn pc)
          | Break => mret (0, pc_conn pc)
          | Continue =>
              if decide (discoveryState (pc_conn pc) = STATE_RECEIVED_PADO) then mret (0, pc_conn pc)
              else pado_loop fuel' timeout packet pc
          end
  end.

Definition init_criteria (conn : PPPoEConnection) : PacketCriteria :=
  mk_criteria conn (if acName conn is Some _ then false else true)
    (if serviceName conn is Some _ then false else true) false false.

Definition waitForPADO (fuel : nat) (conn : PPPoEConnection) (timeout : Z) : sys (Z * PPPoEConnection) :=
  packet ← uninit junk;
  pado_loop fuel timeout packet (init_criteria conn).

Fixpoint pads_loop (fuel : nat) (timeout : Z) (packet : bytes) (conn : PPPoEConnection) : sys (Z * PPPoEConnection) :=
  match fuel with
  | O => lift NoFuel
  | S fuel' =>
      let fd := discoverySocket conn in
      _ ← lift (FD_SET fd);
      r ← wait_readable fuel fd timeout;
      if r <? 0 then mret (-1, conn)
      else if r =? 0 then mret (0, conn)
      else
        '(e, packet, len) ← receivePacket fd packet;
        if e <? 0 then mret (-1, conn)
        else
          '(o, conn) ← lift (pads_packet pid packet len conn);
          match o with
          | Failed => mret (-1, conn)
          | Break => mret (0, with_session conn (p_session packet))
          | Continue =>
              if decide (discoveryState conn = STATE_SESSION) then mret (0, with_session conn (p_session packet))
              else pads_loop fuel' timeout packet conn
          end
  end.

Definition waitForPADS (fuel : nat) (conn : PPPoEConnection) (timeout : Z) : sys (Z * PPPoEConnection) :=
  packet ← uninit junk;
  pads_loop fuel timeout packet conn.

(** The attempts that are left: [MAX_PADI_ATTEMPTS - padiAttempts] before it is
    incremented. *)
Fixpoint padi_attempts (more : nat) (fuel : nat) (conn : PPPoEConnection) (timeout : Z) : sys (Z * PPPoEConnection) :=
  match more with
  | O => mret (-1, conn)
  | S more =>
      r ← sendPADI pid junk conn;
      if r <? 0 then mret (-1, conn)
      else
        '(r, conn) ← waitForPADO fuel (with_state conn STATE_SENT_PADI) timeout;
        if r <? 0 then mret (-1, conn)
        else if decide (discoveryState conn = STATE_SENT_PADI) then padi_attempts more fuel conn (timeout * 2)
        else mret (0, conn)
  end.

Definition timeout_message : bytes := chars "Timeout waiting for PADS packets".

Fixpoint padr_attempts (more : nat) (fuel : nat) (conn : PPPoEConnection) (timeout : Z) : sys (Z * PPPoEConnection) :=
  match more with
  | O => '(_, conn) ← sendPADT pid junk conn (Some timeout_message); mret (-1, conn)
  | S more =>
      r ← sendPADR pid junk conn;
      if r <? 0 then mret (-1, conn)
      else
        '(r, conn) ← waitForPADS fuel (with_state conn STATE_SENT_PADR) timeout;
        if r <? 0 then mret (-1, conn)
        else if decide (discoveryState conn = STATE_SENT_PADR) then padr_attempts more fuel conn (timeout * 2)
        else mret (0, conn)
  end.

Definition discovery (fuel : nat) (conn : PPPoEConnection) : sys (Z * PPPoEConnection) :=
  '(fd, hwaddr) ← openInterface (ifName conn) Eth_PPPOE_Discovery (myEth conn);
  '(r, conn) ← padi_attempts MAX_PADI_ATTEMPTS fuel (with_discoverySocket conn fd hwaddr) PADI_TIMEOUT;
  if r <? 0 then mret (-1, conn)
  else
    '(r, conn) ← padr_attempts MAX_PADI_ATTEMPTS fuel conn PADI_TIMEOUT;
    if r <? 0 then mret (-1, conn) else mret (0, with_state conn STATE_SESSION).
End discovery.
