(* ===== verification/PppoeTags.v ===== *)
(** * PPPoE: the tags of a packet

    A reference decoder on lists, and [parsePacket] compared with it. *)

From stdpp Require Import base numbers list.
From S2P Require Import Prelude Bytes Syscalls Pppoe.

#[global] Arguments MAX_PPPOE_PAYLOAD : simpl never.

(** ** The tags of a list of bytes *)

(** A type and a value, and how they are written. *)
Definition tlv : Type := Z * bytes.
Definition enc_tag (x : tlv) : bytes := be_bytes 2 (fst x) ++ be_bytes 2 (Z.of_nat (length (snd x))) ++ snd x.
Definition enc_tags (ts : list tlv) : bytes := concat (enc_tag <$> ts).
Definition tlv_ok (x : tlv) : Prop := 0 < fst x < 65536 ∧ is_bytes (snd x) ∧ Z.of_nat (length (snd x)) < 65536.

(** Where the tags end: with the list or the end marker, in a tag that is not complete, or
    with a single zero byte, which may or may not be the begin of the marker. *)
Inductive ending := Complete | Malformed | Cut.

Fixpoint decode (fuel : nat) (l : bytes) : list tlv * ending :=
  match l with
  | [] => ([], Complete)
  | [a] => ([], if a =? 0 then Cut else Malformed)
  | a :: b :: l =>
      if a * 256 + b =? TAG_END_OF_LIST then ([], Complete)
      else
        match l, fuel with
        | c :: d :: l, S fuel =>
            let n := Z.to_nat (c * 256 + d) in
            if decide (length l < n)%nat then ([], Malformed)
            else let '(ts, e) := decode fuel (drop n l) in ((a * 256 + b, take n l) :: ts, e)
        | _, _ => ([], Malformed)
        end
  end.
Definition tags_of (l : bytes) : list tlv * ending := decode (length l) l.

Lemma be_val_2 a b : be_val [a; b] = a * 256 + b.
Proof. rewrite !be_val_cons. change (be_val []) with 0. cbn [length]. change (256 ^ Z.of_nat 1) with 256. change (256 ^ Z.of_nat 0) with 1. lia. Qed.

Lemma be_bytes_2 v : be_bytes 2 v = [(v / 256) `mod` 256; v `mod` 256].
Proof. rewrite !be_bytes_S. change (256 ^ Z.of_nat 1) with 256. change (256 ^ Z.of_nat 0) with 1. rewrite Z.div_1_r. reflexivity. Qed.

Lemma be_2_value v : 0 ≤ v < 65536 → (v / 256) `mod` 256 * 256 + v `mod` 256 = v.
Proof.
  intros Hv. rewrite (Z.mod_small (v / 256)).
  - pose proof (Z.div_mod v 256). lia.
  - split; [apply Z.div_pos; lia|apply Z.div_lt_upper_bound; lia].
Qed.

Lemma enc_tag_cons x rest :
  tlv_ok x → ∃ a b c d, enc_tag x ++ rest = a :: b :: c :: d :: snd x ++ rest
    ∧ a * 256 + b = fst x ∧ c * 256 + d = Z.of_nat (length (snd x)).
Proof.
  intros (Ht & _ & Hl). unfold enc_tag. rewrite !be_bytes_2. cbn [app]. do 4 eexists. split; [done|].
  split; apply be_2_value; lia.
Qed.

(** The decoder finds what was written, whatever follows. *)
Lemma decode_enc fuel ts rest :
  Forall tlv_ok ts → (length (enc_tags ts ++ rest) ≤ fuel)%nat →
  ∃ fuel', (length rest ≤ fuel')%nat ∧
  decode fuel (enc_tags ts ++ rest) = (let '(ts', e) := decode fuel' rest in (ts ++ ts', e)).
Proof.
  intros Hts. revert fuel. induction Hts as [|x ts Hx Hts IH]; intros fuel Hf.
  { exists fuel. split; [done|]. cbn. by destruct (decode fuel rest). }
  change (enc_tags (x :: ts)) with (enc_tag x ++ enc_tags ts) in *. rewrite <- app_assoc in *.
  destruct (enc_tag_cons x (enc_tags ts ++ rest) Hx) as (a & b & c & d & E & Et & El). rewrite E in *.
  cbn [length] in Hf. rewrite !length_app in Hf. destruct fuel as [|fuel]; [lia|]. cbn [decode].
  rewrite Et, El, Nat2Z.id. destruct Hx as (Ht & _ & _).
  rewrite (proj2 (Z.eqb_neq _ _)) by (unfold TAG_END_OF_LIST; lia).
  rewrite decide_False by (rewrite !length_app; lia). rewrite drop_app_length, take_app_length.
  destruct (IH fuel) as (fuel' & Hf' & ->); [rewrite length_app; lia|]. exists fuel'. split; [done|].
  destruct (decode fuel' rest) as [ts' e]. by destruct x.
Qed.

Lemma tags_of_enc ts : Forall tlv_ok ts → tags_of (enc_tags ts) = (ts, Complete).
Proof.
  intros Hts. unfold tags_of. destruct (decode_enc (length (enc_tags ts)) ts [] Hts) as (f & _ & E).
  { by rewrite app_nil_r. }
  rewrite app_nil_r in E. rewrite E. assert (decode f [] = ([], Complete)) as -> by (by destruct f). by rewrite app_nil_r.
Qed.

Lemma tags_of_enc_end ts rest : Forall tlv_ok ts → tags_of (enc_tags ts ++ 0 :: 0 :: rest) = (ts, Complete).
Proof.
  intros Hts. unfold tags_of. destruct (decode_enc (length (enc_tags ts ++ 0 :: 0 :: rest)) ts (0 :: 0 :: rest) Hts) as (f & Hf & ->); [done|].
  assert (decode f (0 :: 0 :: rest) = ([], Complete)) as -> by (by destruct f). by rewrite app_nil_r.
Qed.

(** And the tags it finds are those that are written there. *)
Lemma decode_sound fuel l ts e :
  is_bytes l → decode fuel l = (ts, e) → Forall tlv_ok ts ∧ ∃ rest, l = enc_tags ts ++ rest.
Proof.
  revert l ts e. induction fuel as [|fuel IH]; intros l ts e Hb E.
  { destruct l as [|a [|b [|c [|d l]]]]; cbn in E; try (destruct (_ =? TAG_END_OF_LIST) in E); injection E as <- <-;
      (split; [constructor|by eexists]). }
  destruct l as [|a [|b l]]; [injection E as <- <-; split; [constructor|by eexists]..|].
  cbn [decode] in E. destruct (Z.eqb_spec (a * 256 + b) TAG_END_OF_LIST) as [Ez|Ez].
  { injection E as <- <-; split; [constructor|by eexists]. }
  destruct l as [|c [|d l]]; [injection E as <- <-; split; [constructor|by eexists]..|].
  destruct (decide _) as [Hn|Hn]; [injection E as <- <-; split; [constructor|by eexists]|].
  apply Nat.nlt_ge in Hn. destruct (decode fuel _) as [ts' e'] eqn:E'. injection E as <- <-.
  apply Forall_cons in Hb as [Ha Hb]. apply Forall_cons in Hb as [Hb Hb'].
  apply Forall_cons in Hb' as [Hc Hb']. apply Forall_cons in Hb' as [Hd Hl]. unfold is_u8 in *.
  destruct (IH _ _ _ (Forall_drop _ _ _ Hl) E') as (Hts & rest & El).
  assert (Hlen : Z.of_nat (length (take (Z.to_nat (c * 256 + d)) l)) = c * 256 + d) by (rewrite length_take; lia).
  split.
  - constructor; [|done]. split; [cbn; unfold TAG_END_OF_LIST in Ez; lia|]. cbn [snd]. split; [by apply Forall_take|lia].
  - exists rest. change (enc_tags (?x :: ?y)) with (enc_tag x ++ enc_tags y). rewrite <- app_assoc, <- El.
    unfold enc_tag. cbn [fst snd]. rewrite Hlen, !be_bytes_2. cbn [app].
    assert (Hq : ∀ x y, 0 ≤ x < 256 → 0 ≤ y < 256 → (x * 256 + y) / 256 = x ∧ (x * 256 + y) `mod` 256 = y).
    { intros x y Hx Hy. rewrite Z.div_add_l, (Z.div_small y) by lia. rewrite (Z.add_comm (x * 256)), Z_mod_plus_full, (Z.mod_small y) by lia. lia. }
    destruct (Hq a b Ha Hb) as [-> ->]. destruct (Hq c d Hc Hd) as [-> ->].
    rewrite !(Z.mod_small _ 256) by lia. by rewrite take_drop.
Qed.

(** ** [parsePacket] *)

Section equiv.
Context {S : Type} (func : Z → Z → bytes → S → res (Z * S)).

(** The callback does not look beyond the value. *)
Definition within : Prop := ∀ ty v rest s, func ty (Z.of_nat (length v)) (v ++ rest) s = func ty (Z.of_nat (length v)) v s.

(** The callback on one value after the other, up to an error. *)
Fixpoint each_tag (ts : list tlv) (s : S) : res (Z * S) :=
  match ts with
  | [] => mret (0, s)
  | (ty, v) :: ts =>
      '(r, s) ← func ty (Z.of_nat (length v)) v s;
      if r <? 0 then mret (-1, s) else each_tag ts s
  end.

(** The result at the end of the tags; [next] is the byte behind the packet. *)
Definition at_end (e : ending) (next : Z) : Z :=
  match e with Complete => 0 | Malformed => -1 | Cut => if next =? 0 then 0 else -1 end.

Definition parse_ref (l : bytes) (next : Z) (s : S) : res (Z * S) :=
  let '(ts, e) := tags_of l in
  '(r, s) ← each_tag ts s;
  if r <? 0 then mret (-1, s) else mret (at_end e next, s).

Lemma read16_at pre a b l : read16 (pre ++ a :: b :: l) (length pre) = Ok (a * 256 + b).
Proof.
  unfold read16. rewrite read_at_Ok by (rewrite length_app; cbn [length]; lia). cbn.
  unfold slice. rewrite drop_app_length. cbn [take firstn]. by rewrite be_val_2.
Qed.

(** One turn, where the list goes on with [a], [b], [c] and [d]. *)
Lemma parse_tags_turn fuel pre a b c d q len s :
  parse_tags func (Datatypes.S fuel) (pre ++ a :: b :: c :: d :: q) len (Z.of_nat (length pre)) s
  = if negb (Z.of_nat (length pre) <? len) then mret (0, s)
    else if a * 256 + b =? TAG_END_OF_LIST then mret (0, s)
    else if len <? Z.of_nat (length pre) + (c * 256 + d) + TAG_HDR_SIZE then mret (-1, s)
    else
      '(r, s) ← func (a * 256 + b) (c * 256 + d) q s;
      if r <? 0 then mret (-1, s)
      else parse_tags func fuel (pre ++ a :: b :: c :: d :: q) len (Z.of_nat (length pre) + TAG_HDR_SIZE + (c * 256 + d)) s.
Proof.
  cbn [parse_tags]. destruct (negb _); [done|]. rewrite Nat2Z.id, read16_at. cbn [mbind res_bind].
  assert (E2 : read16 (pre ++ a :: b :: c :: d :: q) (Z.to_nat (Z.of_nat (length pre) + 2)) = Ok (c * 256 + d)).
  { change (pre ++ a :: b :: c :: d :: q) with (pre ++ [a; b] ++ c :: d :: q). rewrite app_assoc.
    replace (Z.to_nat _) with (length (pre ++ [a; b])) by (rewrite length_app; cbn [length]; lia). apply read16_at. }
  rewrite E2. cbn [mbind res_bind]. do 2 (case_match; [done|]).
  replace (drop _ (pre ++ a :: b :: c :: d :: q)) with q; [done|].
  change (pre ++ a :: b :: c :: d :: q) with (pre ++ [a; b; c; d] ++ q). rewrite app_assoc.
  rewrite drop_app_length'; [done|]. rewrite length_app. unfold TAG_HDR_SIZE. cbn [length]. lia.
Qed.

Lemma decode_turn n a b l :
  decode n (a :: b :: l) =
    if a * 256 + b =? TAG_END_OF_LIST then ([], Complete)
    else match l, n with
         | c :: d :: l, Datatypes.S fuel =>
             let m := Z.to_nat (c * 256 + d) in
             if decide (length l < m)%nat then ([], Malformed)
             else let '(ts, e) := decode fuel (drop m l) in ((a * 256 + b, take m l) :: ts, e)
         | _, _ => ([], Malformed)
         end.
Proof. by destruct n. Qed.

(** What is left is too short for a tag: it is over, one way or another. *)
Lemma parse_tags_short fuel n pre l post a b c d q s :
  l ++ post = a :: b :: c :: d :: q → is_bytes (l ++ post) → (0 < length l < 4)%nat →
  parse_tags func (Datatypes.S fuel) (pre ++ l ++ post) (Z.of_nat (length pre + length l)) (Z.of_nat (length pre)) s
  = mret (at_end (snd (decode n l)) (hd 0 post), s) ∧ fst (decode n l) = [].
Proof.
  intros E Hb Hl. rewrite E in *. rewrite parse_tags_turn.
  apply Forall_cons in Hb as [Ha Hb]. apply Forall_cons in Hb as [Hb Hb2].
  apply Forall_cons in Hb2 as [Hc Hb2]. apply Forall_cons in Hb2 as [Hd _]. unfold is_u8, TAG_END_OF_LIST, TAG_HDR_SIZE in *.
  rewrite (proj2 (Z.ltb_lt _ _)) by lia. cbn [negb].
  rewrite (proj2 (Z.ltb_lt (Z.of_nat (length pre + length l)) _)) by lia.
  destruct l as [|a' [|b' l]]; [cbn [length] in Hl; lia| |].
  - injection E as <- Ep. rewrite Ep. assert (decode n [a'] = ([], if a' =? 0 then Cut else Malformed)) as -> by (by destruct n).
    split; [|done]. cbn [snd hd]. destruct (Z.eqb_spec a' 0) as [->|].
    + rewrite Z.mul_0_l, Z.add_0_l. cbn [at_end]. by destruct (b =? 0).
    + rewrite (proj2 (Z.eqb_neq _ _)) by lia. done.
  - injection E as <- <- Ep. rewrite decode_turn. unfold TAG_END_OF_LIST.
    destruct (a' * 256 + b' =? 0); [done|]. destruct l as [|? [|? ?]]; [done..|cbn [length] in Hl; lia].
Qed.

Lemma parse_tags_spec fuel n pre l post s :
  within → is_bytes (l ++ post) → (length l < fuel)%nat → (length l ≤ n)%nat → (4 ≤ length post)%nat →
  parse_tags func fuel (pre ++ l ++ post) (Z.of_nat (length pre + length l)) (Z.of_nat (length pre)) s
  = (let '(ts, e) := decode n l in
     '(r, s) ← each_tag ts s; if r <? 0 then mret (-1, s) else mret (at_end e (hd 0 post), s)).
Proof.
  intros Hw. revert n pre l s. induction fuel as [|fuel IH]; intros n pre l s Hb Hf Hn Hp; [lia|].
  destruct (decide (l = [])) as [->|Hne].
  { cbn [parse_tags]. rewrite (proj2 (Z.ltb_ge _ _)) by (cbn [length]; lia). destruct n; done. }
  destruct (decide (length l < 4)%nat) as [Hshort|Hlong].
  { assert (∃ a b c d q, l ++ post = a :: b :: c :: d :: q) as (a & b & c & d & q & E).
    { assert (Hlen : (4 ≤ length (l ++ post))%nat) by (rewrite length_app; lia).
      destruct (l ++ post) as [|a [|b [|c [|d q]]]]; cbn [length] in Hlen; try lia. by do 5 eexists. }
    destruct (parse_tags_short fuel n pre l post a b c d q s E Hb) as [-> Et].
    { split; [destruct l; [done|cbn; lia]|done]. }
    destruct (decode n l) as [ts e]. cbn [fst] in Et. by subst ts. }
  destruct l as [|a [|b [|c [|d l]]]]; [cbn [length] in Hlong; lia..|]. clear Hne Hlong.
  change ((a :: b :: c :: d :: l) ++ post) with (a :: b :: c :: d :: l ++ post) in *. rewrite parse_tags_turn, decode_turn.
  rewrite (proj2 (Z.ltb_lt _ _)) by (cbn [length]; lia). cbn [negb].
  destruct (a * 256 + b =? TAG_END_OF_LIST); [done|]. destruct n as [|n]; [cbn [length] in Hn; lia|].
  apply Forall_cons in Hb as [_ Hb]. apply Forall_cons in Hb as [_ Hb].
  apply Forall_cons in Hb as [Hc Hb]. apply Forall_cons in Hb as [Hd Hb]. unfold is_u8 in *.
  cbv zeta. set (m := Z.to_nat (c * 256 + d)). cbn [length] in Hf, Hn.
  destruct (decide (length l < m)%nat) as [Hlt|Hge].
  { rewrite (proj2 (Z.ltb_lt _ _)) by (cbn [length]; unfold TAG_HDR_SIZE; lia). done. }
  rewrite (proj2 (Z.ltb_ge _ _)) by (cbn [length]; unfold TAG_HDR_SIZE; lia).
  assert (El : l = take m l ++ drop m l) by (by rewrite take_drop).
  assert (Hv : length (take m l) = m) by (rewrite length_take; lia). revert El Hv.
  generalize (take m l) as v, (drop m l) as l'. intros v l' -> Hv. rewrite length_app in Hf, Hn, Hge.
  assert (Hcd : c * 256 + d = Z.of_nat (length v)) by lia. rewrite Hcd, <- app_assoc, Hw.
  destruct (decode n l') as [ts e] eqn:Edec. cbn [each_tag].
  destruct (func (a * 256 + b) (Z.of_nat (length v)) v s) as [[r s1]| |]; [|done|done]. cbn [mbind res_bind].
  destruct (r <? 0); [done|].
  change (pre ++ a :: b :: c :: d :: v ++ ?q) with (pre ++ ([a; b; c; d] ++ v) ++ q). rewrite app_assoc.
  set (pre' := pre ++ [a; b; c; d] ++ v).
  assert (Hpre : length pre' = (length pre + 4 + m)%nat) by (subst pre'; rewrite !length_app, Hv; cbn [length]; lia).
  replace (Z.of_nat (length pre) + TAG_HDR_SIZE + _) with (Z.of_nat (length pre')) by (rewrite Hpre; unfold TAG_HDR_SIZE; lia).
  replace (Z.of_nat (length pre + _)) with (Z.of_nat (length pre' + length l')) by (cbn [length]; rewrite length_app; lia).
  rewrite (IH n), Edec by (done || lia || (rewrite <- app_assoc in Hb; by apply Forall_app in Hb as [_ Hb])). done.
Qed.

(** A packet that is looked at. *)
Definition header_ok (p : bytes) : bool := (p_ver p =? 1) && (p_type p =? 1) && (p_length p <=? MAX_PPPOE_PAYLOAD).

(** The bytes that its length covers. *)
Definition covered (p : bytes) : bytes := slice p P_payload (Z.to_nat (p_length p)).
End equiv.

Lemma hd_drop (p : bytes) i j : (i + j < length p)%nat → hd 0 (drop j (drop i p)) = p !!! (i + j)%nat.
Proof.
  intros H. destruct (lookup_lt_is_Some_2 p (i + j)%nat H) as [x Hx].
  rewrite drop_drop, (drop_S _ x) by done. symmetry. by apply list_lookup_total_correct.
Qed.

Lemma parse_packet_ref {S : Type} (func : Z → Z → bytes → S → res (Z * S)) (p : bytes) (s : S) :
  within func → length p = PACKET_SIZE → is_bytes p →
  parsePacket func p s
  = (if header_ok p then parse_ref func (covered p) (p !!! (P_payload + Z.to_nat (p_length p))%nat) s else mret (-1, s)).
Proof.
  intros Hw Hl Hb.
  unfold parsePacket, header_ok. destruct (p_ver p =? 1); [|done]. destruct (p_type p =? 1); [|done]. cbn [negb andb].
  destruct (Z.leb_spec (p_length p) MAX_PPPOE_PAYLOAD) as [Hle|Hgt].
  2: { by rewrite (proj2 (Z.ltb_lt _ _)) by exact Hgt. }
  rewrite (proj2 (Z.ltb_ge _ _)) by exact Hle. pose proof (get16_range p P_length Hb) as Hr. fold (p_length p) in Hr.
  unfold MAX_PPPOE_PAYLOAD, ETH_DATA_LEN, PPPOE_OVERHEAD in Hle. set (n := Z.to_nat (p_length p)).
  assert (Hn : (n ≤ 1494)%nat) by lia. unfold PACKET_SIZE in Hl.
  assert (Hc : length (covered p) = n) by (apply length_slice; unfold P_payload; lia).
  assert (Ep : p_payload p = [] ++ covered p ++ drop n (p_payload p)) by (symmetry; apply (take_drop n (p_payload p))).
  rewrite Ep. replace (p_length p) with (Z.of_nat (length (@nil Z) + length (covered p))) at 1 by (rewrite Hc; cbn [length]; lia).
  change 0 with (Z.of_nat (length (@nil Z))) at 1.
  rewrite (parse_tags_spec func (Datatypes.S n) (length (covered p))) by
    (done || (rewrite <- (app_nil_l (_ ++ _)), <- Ep; by apply Forall_drop)
     || (unfold p_payload; rewrite ?Hc, ?length_drop, Hl; unfold P_payload; lia) || lia).
  unfold parse_ref, tags_of. unfold p_payload. rewrite (hd_drop p) by (unfold P_payload; lia). done.
Qed.

(** The loop over the tags.  On any packet buffer and for any callback that does not
    look beyond the value it is given, [parsePacket] is the fold of the callback over the
    list of tags that the packet decodes to, up to the first error; it never reads outside
    of the buffer, and only when the packet ends in a single zero byte does a byte
    behind it matter.  The tags are those that are written in the packet. *)
Theorem parsePacket_equivalent {S : Type} (func : Z → Z → bytes → S → res (Z * S)) (p : bytes) (s : S)
    (Hw : within func) (Hl : length p = PACKET_SIZE) (Hb : is_bytes p) :
  parsePacket func p s
  = (if header_ok p then parse_ref func (covered p) (p !!! (P_payload + Z.to_nat (p_length p))%nat) s else mret (-1, s))
  ∧ ∃ rest, covered p = enc_tags (fst (tags_of (covered p))) ++ rest.
Proof.
  split; [by apply parse_packet_ref|].
  destruct (tags_of (covered p)) as [ts e] eqn:E. refine (proj2 (decode_sound (length (covered p)) (covered p) ts e _ E)). by apply is_bytes_slice.
Qed.
