(* ===== verification/PppoeSend.v ===== *)
(** * PPPoE: what is sent, and how it is read

    The senders build a packet in an object whose bytes are unknown; what leaves does not
    depend on them.  Every packet is read by [parsePacket] as the tags it was built of. *)

From stdpp Require Import base numbers strings list.
From S2P Require Import Prelude Bytes Syscalls Pppoe PppoeTags.

(** ** Frames *)

Definition disc_header (dest source : bytes) (code session : Z) : bytes :=
  dest ++ source ++ be_bytes 2 Eth_PPPOE_Discovery ++ [0x11; code] ++ be_bytes 2 session.
Definition disc_frame (dest source : bytes) (code session : Z) (ts : list tlv) : bytes :=
  disc_header dest source code session ++ be_bytes 2 (Z.of_nat (length (enc_tags ts))) ++ enc_tags ts.

Definition eth_ok (e : bytes) : Prop := length e = ETH_ALEN ∧ is_bytes e.

(** A tag that was stored: its value lies in the payload and came in one packet. *)
Definition stored (t : tag) : Prop :=
  0 ≤ t_type t < 65536 ∧ 0 ≤ t_length t ≤ 1490 ∧ length (t_payload t) = 1500%nat ∧ is_bytes (t_payload t).
Definition t_value (t : tag) : bytes := take (Z.to_nat (t_length t)) (t_payload t).

(** A connection as the options of the daemon make it: names of less than 64 bytes. *)
Definition name_ok (n : option bytes) : Prop :=
  match n with Some n => (length n < 64)%nat ∧ Forall (λ c, 0 < c < 256) n | None => True end.
Record conn_ok (c : PPPoEConnection) : Prop := {
  co_my : eth_ok (myEth c); co_peer : eth_ok (peerEth c); co_service : name_ok (serviceName c);
  co_ac : name_ok (acName c); co_session : 0 ≤ session c < 65536;
  co_cookie : stored (cookie c); co_relay : stored (relayId c) }.

(** ** The tags of a packet *)

Definition service_tlv (c : PPPoEConnection) : tlv := (TAG_SERVICE_NAME, default [] (serviceName c)).
Definition uniq_tlv (pid : Z) (c : PPPoEConnection) : list tlv :=
  if useHostUniq c then [(TAG_HOST_UNIQ, be_bytes 4 pid)] else [].
Definition stored_tlv (t : tag) : list tlv := if t_type t =? 0 then [] else [(t_type t, t_value t)].
Definition message_tlv (msg : option bytes) : list tlv := if msg is Some m then [(TAG_GENERIC_ERROR, m)] else [].

Definition padi_tags (pid : Z) (c : PPPoEConnection) : list tlv := service_tlv c :: uniq_tlv pid c.
Definition padr_tags (pid : Z) (c : PPPoEConnection) : list tlv :=
  padi_tags pid c ++ stored_tlv (cookie c) ++ stored_tlv (relayId c).
Definition padt_tags (pid : Z) (msg : option bytes) (c : PPPoEConnection) : list tlv :=
  uniq_tlv pid c ++ message_tlv msg ++ stored_tlv (cookie c) ++ stored_tlv (relayId c).

(** There is room for them. *)
Definition fits (ts : list tlv) : Prop := Z.of_nat (length (enc_tags ts)) ≤ MAX_PPPOE_PAYLOAD.
#[global] Instance fits_dec ts : Decision (fits ts).
Proof. unfold fits. apply _. Defined.

Lemma length_enc_tag x : length (enc_tag x) = (4 + length (snd x))%nat.
Proof. unfold enc_tag. by rewrite !length_app, !length_be_bytes. Qed.

Lemma enc_tags_app ts ts' : enc_tags (ts ++ ts') = enc_tags ts ++ enc_tags ts'.
Proof. unfold enc_tags. by rewrite fmap_app, concat_app. Qed.

Lemma enc_tags_one x : enc_tags [x] = enc_tag x.
Proof. apply app_nil_r. Qed.

(** ** Reading a frame *)

Lemma splice_app a r s : splice (a ++ r) (length a) s = a ++ s ++ drop (length s) r.
Proof.
  unfold splice. rewrite take_app_length. do 2 f_equal. rewrite drop_app_ge by lia.
  f_equal. lia.
Qed.

Lemma slice_middle a m r : slice (a ++ m ++ r) (length a) (length m) = m.
Proof. unfold slice. rewrite drop_app_length. apply take_app_length. Qed.

Lemma length_disc_header dest source code session :
  eth_ok dest → eth_ok source → length (disc_header dest source code session) = 18%nat.
Proof. intros [Hd _] [Hs _]. unfold disc_header. by rewrite !length_app, Hd, Hs, !length_be_bytes. Qed.

Lemma get16_be v : 0 ≤ v < 65536 → be_val (be_bytes 2 v) = v.
Proof. intros Hv. rewrite be_val_bytes. by apply Z.mod_small. Qed.

(** A frame in a buffer: every member is what was written, and the tags are found. *)
Lemma slice_at p a m r off n : p = a ++ m ++ r → off = length a → n = length m → slice p off n = m.
Proof. intros -> -> ->. apply slice_middle. Qed.

Lemma lookup_at (p a : bytes) x r i : p = a ++ x :: r → i = length a → p !!! i = x.
Proof. intros -> ->. apply list_lookup_total_correct. by apply list_lookup_middle. Qed.

(** A frame in a buffer: every member is what was written, and the tags are found. *)
Lemma frame_read dest source code session ts buf :
  eth_ok dest → eth_ok source → 0 ≤ session < 65536 → Forall tlv_ok ts → fits ts → length buf = PACKET_SIZE →
  let p := splice buf 0 (disc_frame dest source code session ts) in
  length p = PACKET_SIZE ∧ header_ok p = true ∧ h_dest p = dest ∧ h_source p = source ∧ p_code p = code
  ∧ p_session p = session ∧ p_length p = Z.of_nat (length (enc_tags ts)) ∧ tags_of (covered p) = (ts, Complete).
Proof.
  intros [Hdl _] [Hsl _] Hse Hts Hf Hb p. unfold fits in Hf. unfold ETH_ALEN in *.
  assert (Hlen : length (disc_frame dest source code session ts) = (20 + length (enc_tags ts))%nat).
  { unfold disc_frame, disc_header. rewrite !length_app, !length_be_bytes, Hdl, Hsl. cbn [length]. lia. }
  set (r := drop (20 + length (enc_tags ts)) buf).
  assert (Ep : p = disc_frame dest source code session ts ++ r) by (subst p r; rewrite <- Hlen; apply (splice_app [] buf)).
  assert (Hf' : (length (enc_tags ts) ≤ 1494)%nat) by (unfold MAX_PPPOE_PAYLOAD, ETH_DATA_LEN, PPPOE_OVERHEAD in Hf; lia).
  unfold PACKET_SIZE in *. unfold disc_frame, disc_header in Ep. rewrite <- !app_assoc in Ep. cbn [app] in Ep.
  assert (Epl : p_length p = Z.of_nat (length (enc_tags ts))).
  { unfold p_length, get16. rewrite (slice_at p (dest ++ source ++ be_bytes 2 Eth_PPPOE_Discovery ++ 0x11 :: code :: be_bytes 2 session)
      (be_bytes 2 (Z.of_nat (length (enc_tags ts)))) (enc_tags ts ++ r)).
    - apply get16_be. lia.
    - rewrite Ep, <- !app_assoc. cbn [app]. done.
    - rewrite !length_app, Hdl, Hsl, length_be_bytes. cbn [length]. by rewrite length_be_bytes.
    - by rewrite length_be_bytes. }
  assert (H14 : p !!! P_vertype = 0x11).
  { apply (lookup_at p (dest ++ source ++ be_bytes 2 Eth_PPPOE_Discovery) _
      (code :: be_bytes 2 session ++ be_bytes 2 (Z.of_nat (length (enc_tags ts))) ++ enc_tags ts ++ r)).
    - by rewrite Ep, <- !app_assoc.
    - by rewrite !length_app, Hdl, Hsl, length_be_bytes. }
  split; [subst p; rewrite length_splice; [done|lia]|]. split.
  { unfold header_ok, p_ver, p_type. rewrite H14, Epl. cbn. by apply Z.leb_le. }
  split; [by apply (slice_at _ [] _ _ _ _ Ep)|]. split; [by apply (slice_at _ dest source _ _ _ Ep)|]. split.
  { apply (lookup_at p (dest ++ source ++ be_bytes 2 Eth_PPPOE_Discovery ++ [0x11]) _
      (be_bytes 2 session ++ be_bytes 2 (Z.of_nat (length (enc_tags ts))) ++ enc_tags ts ++ r)).
    - by rewrite Ep, <- !app_assoc.
    - by rewrite !length_app, Hdl, Hsl, length_be_bytes. }
  split.
  { unfold p_session, get16. rewrite (slice_at p (dest ++ source ++ be_bytes 2 Eth_PPPOE_Discovery ++ [0x11; code]) (be_bytes 2 session)
      (be_bytes 2 (Z.of_nat (length (enc_tags ts))) ++ enc_tags ts ++ r)).
    - by apply get16_be.
    - by rewrite Ep, <- !app_assoc.
    - by rewrite !length_app, Hdl, Hsl, length_be_bytes.
    - by rewrite length_be_bytes. }
  split; [done|]. unfold covered. rewrite Epl, Nat2Z.id.
  rewrite (slice_at p (dest ++ source ++ be_bytes 2 Eth_PPPOE_Discovery ++ 0x11 :: code :: be_bytes 2 session
      ++ be_bytes 2 (Z.of_nat (length (enc_tags ts)))) (enc_tags ts) r).
  - by apply tags_of_enc.
  - rewrite Ep, <- !app_assoc. cbn [app]. by rewrite <- !app_assoc.
  - rewrite !length_app, Hdl, Hsl, length_be_bytes. cbn [length]. by rewrite !length_app, !length_be_bytes.
  - done.
Qed.

(** ** Building a packet *)

(** The object holds the header, two bytes for the length, and these tags. *)
Definition built (hd : bytes) (ts : list tlv) (b : building) : Prop :=
  ∃ x rest, b_packet b = (hd ++ x) ++ enc_tags ts ++ rest ∧ length (hd ++ x) = P_payload ∧ length hd = P_length
  ∧ length (b_packet b) = PACKET_SIZE ∧ b_cursor b = Z.of_nat (length (enc_tags ts)) ∧ b_plen b = b_cursor b.

Lemma write_app a r s : (length s ≤ length r)%nat → write_at (a ++ r) (length a) s = Ok (a ++ s ++ drop (length s) r).
Proof. intros H. rewrite write_at_Ok by (rewrite length_app; lia). by rewrite splice_app. Qed.

Lemma append_built hd ts b x d n :
  built hd ts b → take (Z.to_nat n) d = enc_tag x → n = Z.of_nat (length (enc_tag x)) → (length (enc_tag x) ≤ length d)%nat →
  (length (enc_tags ts) + length (enc_tag x) ≤ 1500)%nat →
  ∃ b', append b d n = Ok b' ∧ built hd (ts ++ [x]) b'.
Proof.
  intros (x2 & rest & Ep & Hx & Hh & Hl & Ec & Epl) Ed En Hd Hlen. unfold append.
  rewrite read_at_Ok by lia. cbn [mbind res_bind]. unfold slice. rewrite drop_0, Ed, Ep, Ec, Nat2Z.id, app_assoc.
  rewrite Ep, !length_app in Hl. unfold PACKET_SIZE, P_payload in *. rewrite length_app in Hx.
  assert (E20 : (20 + length (enc_tags ts))%nat = length ((hd ++ x2) ++ enc_tags ts)) by (rewrite !length_app; lia).
  rewrite E20, write_app by lia. cbn [mbind res_bind]. eexists. split; [reflexivity|].
  exists x2, (drop (length (enc_tag x)) rest). cbn [b_packet b_cursor b_plen]. rewrite enc_tags_app, enc_tags_one.
  split; [by rewrite <- !app_assoc|]. split; [rewrite length_app; unfold P_payload; lia|]. split; [done|].
  split; [rewrite !length_app, length_drop; unfold PACKET_SIZE; lia|]. rewrite length_app. split; [lia|].
  rewrite Epl, Ec. unfold u16. rewrite Z.mod_small; lia.
Qed.

Lemma start_packet_spec packet dest source code session :
  length packet = PACKET_SIZE → eth_ok dest → eth_ok source → is_u8 code →
  start_packet packet dest source code session = disc_header dest source code session ++ drop 18 packet.
Proof.
  intros Hp [Hd _] [Hs _] Hc. unfold start_packet, set16, set8, PACKET_SIZE, ETH_ALEN in *. cbv zeta. rewrite (u8_id code), (u8_id 0x11) by (done || (unfold is_u8; lia)).
  change (splice packet P_dest dest) with (splice ([] ++ packet) (length (@nil Z)) dest). rewrite splice_app. cbn [app].
  replace P_source with (length dest) by done. rewrite splice_app, app_assoc.
  replace P_proto with (length (dest ++ source)) by (by rewrite length_app, Hd, Hs). rewrite splice_app, app_assoc, length_be_bytes.
  replace P_vertype with (length ((dest ++ source) ++ be_bytes 2 Eth_PPPOE_Discovery)) by (by rewrite !length_app, Hd, Hs, length_be_bytes).
  rewrite splice_app, app_assoc.
  replace P_code with (length (((dest ++ source) ++ be_bytes 2 Eth_PPPOE_Discovery) ++ [0x11])) by (by rewrite !length_app, Hd, Hs, length_be_bytes).
  rewrite splice_app, app_assoc.
  replace P_session with (length ((((dest ++ source) ++ be_bytes 2 Eth_PPPOE_Discovery) ++ [0x11]) ++ [code])) by (by rewrite !length_app, Hd, Hs, length_be_bytes).
  rewrite splice_app, length_be_bytes, Hd, Hs, !drop_drop. unfold disc_header. by rewrite <- !app_assoc.
Qed.

Lemma name_bytes n : name_ok n → is_bytes (default [] n) ∧ (length (default [] n) < 64)%nat ∧ name_length n = Z.of_nat (length (default [] n)).
Proof.
  destruct n as [n|]; cbn; [|intros _; split; [constructor|split; [lia|done]]]. intros [Hl Hn].
  split; [|done]. eapply Forall_impl; [exact Hn|]. intros c Hc. unfold is_u8. cbn in Hc. lia.
Qed.

(** The first tag. *)
Lemma service_built hd packet c :
  name_ok (serviceName c) → length hd = P_length → length packet = PACKET_SIZE → take P_length packet = hd →
  let n := name_length (serviceName c) in
  ∃ packet', service_tag packet c n n = Ok packet' ∧ built hd [service_tlv c] (mk_building packet' (n + TAG_HDR_SIZE) (TAG_HDR_SIZE + n)).
Proof.
  intros Hn Hh Hp Ht n. destruct (name_bytes _ Hn) as (_ & Hlt & En). fold n in En. unfold PACKET_SIZE, P_length in *.
  assert (E20 : packet = take 20 packet ++ drop 20 packet) by (by rewrite take_drop).
  assert (L20 : length (take 20 packet) = 20%nat) by (rewrite length_take; lia).
  assert (Ed : take 20 packet = hd ++ drop 18 (take 20 packet)).
  { rewrite <- Ht. replace (take 18 packet) with (take 18 (take 20 packet)) by (rewrite take_take; done). by rewrite take_drop. }
  set (x := take 20 packet) in *. set (rest := drop 20 packet) in *.
  assert (Lr : length rest = 1500%nat) by (subst rest; rewrite length_drop; lia).
  set (name := default [] (serviceName c)) in *.
  set (w := be_bytes 2 TAG_SERVICE_NAME ++ be_bytes 2 n).
  assert (Lw : length w = 4%nat) by (unfold w; by rewrite length_app, !length_be_bytes).
  assert (Hbuilt : ∀ p, p = x ++ w ++ name ++ drop (4 + length name) rest →
     built hd [service_tlv c] (mk_building p (n + TAG_HDR_SIZE) (TAG_HDR_SIZE + n))).
  { intros p ->. exists (drop 18 x), (drop (4 + length name) rest). cbn [b_packet b_cursor b_plen].
    rewrite <- Ed, enc_tags_one. unfold service_tlv. fold name. unfold enc_tag. cbn [fst snd]. rewrite <- En.
    split; [unfold w; by rewrite <- !app_assoc|]. split; [done|]. split; [done|].
    rewrite !length_app, length_drop, !length_be_bytes, Lw, L20. unfold PACKET_SIZE, TAG_HDR_SIZE. lia. }
  assert (E1 : write_at packet P_payload w = Ok (x ++ w ++ drop (length w) rest)).
  { rewrite E20. unfold P_payload. rewrite <- L20. apply write_app. lia. }
  unfold service_tag. fold w. rewrite E1. cbn [mbind res_bind].
  destruct (serviceName c) as [nm|] eqn:Es.
  - cbn in name. subst name. rewrite En, Nat2Z.id. rewrite read_at_Ok by lia. cbn [mbind res_bind].
    unfold slice. rewrite drop_0, take_ge by lia.
    replace (P_payload + 4)%nat with (length (x ++ w)) by (rewrite length_app, Lw, L20; done). rewrite app_assoc.
    rewrite write_app by (rewrite length_drop, Lw, Lr; lia). eexists. split; [reflexivity|].
    rewrite <- En. apply Hbuilt. rewrite drop_drop, Lw. by rewrite <- app_assoc.
  - cbn in name. subst name. eexists. split; [reflexivity|]. apply Hbuilt. by rewrite Lw.
Qed.

Section senders.
Context `{Hos : Os} (pid : Z) (junk : trace → bytes).
Context (Hjunk : ∀ t, length (junk t) = PACKET_SIZE).

Lemma host_uniq_built checked c hd ts b :
  built hd ts b → (length (enc_tags ts) ≤ 100)%nat →
  ∃ b', append_host_uniq pid checked c b = Ok (Some b') ∧ built hd (ts ++ uniq_tlv pid c) b'.
Proof.
  intros Hb Hl. unfold append_host_uniq, uniq_tlv. destruct (useHostUniq c).
  2: { exists b. by rewrite app_nil_r. }
  assert (Ec : b_cursor b = Z.of_nat (length (enc_tags ts))) by (by destruct Hb as (? & ? & _ & _ & _ & _ & ? & _)).
  unfold CHECK_ROOM. rewrite (proj2 (Z.ltb_ge _ _)) by (rewrite Ec; unfold MAX_PPPOE_PAYLOAD, ETH_DATA_LEN, PPPOE_OVERHEAD, TAG_HDR_SIZE; lia).
  rewrite andb_false_r.
  assert (Ee : enc_tag (TAG_HOST_UNIQ, be_bytes 4 pid) = host_uniq pid) by done.
  destruct (append_built hd ts b (TAG_HOST_UNIQ, be_bytes 4 pid) (host_uniq pid) (4 + TAG_HDR_SIZE)) as (b' & E & Hb'); [done|by rewrite Ee|done|done| |].
  { rewrite Ee. change (length (host_uniq pid)) with 8%nat. lia. }
  exists b'. rewrite E. done.
Qed.

Lemma tag_bytes_value t : stored t →
  take (Z.to_nat (t_length t + TAG_HDR_SIZE)) (tag_bytes t) = enc_tag (t_type t, t_value t)
  ∧ length (enc_tag (t_type t, t_value t)) = Z.to_nat (t_length t + TAG_HDR_SIZE) ∧ length (tag_bytes t) = 1504%nat.
Proof.
  intros (_ & Hl & Hp & _). unfold tag_bytes, enc_tag, t_value, TAG_HDR_SIZE. cbn [fst snd].
  assert (Ev : length (take (Z.to_nat (t_length t)) (t_payload t)) = Z.to_nat (t_length t)) by (rewrite length_take; lia).
  rewrite Ev, Z2Nat.id by lia. split.
  - rewrite !app_assoc. rewrite take_app, length_app, !length_be_bytes, take_ge by (rewrite length_app, !length_be_bytes; lia).
    do 2 f_equal. lia.
  - rewrite !length_app, !length_be_bytes, Ev, Hp. lia.
Qed.

(** A stored tag is appended when there is room, and the packet given up otherwise. *)
Lemma append_tag_built t hd ts b :
  built hd ts b → stored t → fits ts →
  if decide (fits (ts ++ stored_tlv t)) then ∃ b', append_tag t b = Ok (Some b') ∧ built hd (ts ++ stored_tlv t) b'
  else append_tag t b = Ok None.
Proof.
  intros Hb Ht Hts. unfold append_tag, stored_tlv. destruct (Z.eqb_spec (t_type t) 0) as [E|E].
  { rewrite app_nil_r, decide_True by done. by exists b. }
  assert (Ec : b_cursor b = Z.of_nat (length (enc_tags ts))) by (by destruct Hb as (? & ? & _ & _ & _ & _ & ? & _)).
  destruct (tag_bytes_value t Ht) as (Ev & El & Ef). destruct Ht as (_ & Hl & _).
  assert (Hfit : fits (ts ++ [(t_type t, t_value t)]) ↔ b_cursor b + (t_length t + TAG_HDR_SIZE) ≤ MAX_PPPOE_PAYLOAD).
  { unfold fits. rewrite enc_tags_app, enc_tags_one, length_app, El, Ec. unfold TAG_HDR_SIZE. lia. }
  case_decide as Hd; rewrite Hfit in Hd; unfold CHECK_ROOM.
  - rewrite (proj2 (Z.ltb_ge _ _)) by exact Hd.
    destruct (append_built hd ts b (t_type t, t_value t) (tag_bytes t) (t_length t + TAG_HDR_SIZE)) as (b' & E' & Hb');
      [done|done|rewrite El; unfold TAG_HDR_SIZE; lia|rewrite El, Ef; unfold TAG_HDR_SIZE; lia| |].
    { rewrite El. rewrite Ec in Hd. unfold MAX_PPPOE_PAYLOAD, ETH_DATA_LEN, PPPOE_OVERHEAD, TAG_HDR_SIZE in *. lia. }
    exists b'. by rewrite E'.
  - by rewrite (proj2 (Z.ltb_lt _ _)) by lia.
Qed.

(** One [send]. *)
Definition sends (c : PPPoEConnection) (frame : bytes) (t : trace) : res (Z * trace) :=
  let a := answer_to t (Send (discoverySocket c) frame) in
  Ok (if rv a <? 0 then -1 else 0, t ++ [(Send (discoverySocket c) frame, a)]).

Lemma finish_built c hd ts b t :
  built hd ts b → fits ts →
  finish c b t = sends c (hd ++ be_bytes 2 (Z.of_nat (length (enc_tags ts))) ++ enc_tags ts) t.
Proof.
  intros (x & rest & Ep & Hx & Hh & Hl & Ec & Epl) Hf. unfold finish, sendPacket. rewrite Epl, Ec.
  unfold fits, MAX_PPPOE_PAYLOAD, ETH_DATA_LEN, PPPOE_OVERHEAD, HDR_SIZE, PACKET_SIZE, P_length, P_payload in *.
  set (n := Z.of_nat (length (enc_tags ts))) in *. unfold PPPOE_OVERHEAD.
  assert (Es : set16 (b_packet b) P_length n = (hd ++ be_bytes 2 n ++ enc_tags ts) ++ rest).
  { unfold set16. rewrite Ep, <- !app_assoc. unfold P_length. replace 18%nat with (length hd). rewrite splice_app, length_be_bytes.
    rewrite length_app in Hx. rewrite drop_app_length' by lia. done. }
  unfold P_length in Es. rewrite Es. assert (Hlen : length (hd ++ be_bytes 2 n ++ enc_tags ts) = Z.to_nat (n + (14 + 6))).
  { rewrite !length_app, Hh, length_be_bytes. lia. }
  rewrite (lift_bind _ _ (hd ++ be_bytes 2 n ++ enc_tags ts)); [done|].
  rewrite read_at_Ok by (rewrite length_app; lia). unfold slice. by rewrite drop_0, take_app_length'.
Qed.

Lemma built_start packet dest source code session :
  length packet = PACKET_SIZE → eth_ok dest → eth_ok source → is_u8 code →
  let p := start_packet packet dest source code session in
  length p = PACKET_SIZE ∧ take P_length p = disc_header dest source code session.
Proof.
  intros Hp Hd Hs Hc p. pose proof (length_disc_header dest source code session Hd Hs) as Hl.
  subst p. rewrite start_packet_spec by done. split.
  - rewrite length_app, Hl, length_drop, Hp. done.
  - apply take_app_length'. by rewrite Hl.
Qed.

(** The part of PADI and PADR that is the same. *)
Lemma first_tags c dest code :
  conn_ok c → eth_ok dest → is_u8 code → ∀ t,
  let n := name_length (serviceName c) in
  u16 n = n ∧ u16 (TAG_HDR_SIZE + n) = TAG_HDR_SIZE + n ∧ CHECK_ROOM 0 (TAG_HDR_SIZE + n) = false ∧ CHECK_ROOM 0 (n + TAG_HDR_SIZE) = false
  ∧ fits (padi_tags pid c)
  ∧ ∃ p b, service_tag (start_packet (junk t) dest (myEth c) code 0) c n n = Ok p
    ∧ append_host_uniq pid true c (mk_building p (n + TAG_HDR_SIZE) (TAG_HDR_SIZE + n)) = Ok (Some b)
    ∧ built (disc_header dest (myEth c) code 0) (padi_tags pid c) b.
Proof.
  intros Hc Hd Hcode t n. destruct (name_bytes _ (co_service _ Hc)) as (_ & Hl & En). fold n in En.
  unfold u16, CHECK_ROOM, MAX_PPPOE_PAYLOAD, ETH_DATA_LEN, PPPOE_OVERHEAD, TAG_HDR_SIZE.
  rewrite !Z.mod_small by lia. rewrite !(proj2 (Z.ltb_ge _ _)) by lia. split; [done|]. split; [done|]. split; [done|]. split; [done|].
  assert (Hserv : length (enc_tags [service_tlv c]) = (4 + length (default [] (serviceName c)))%nat) by (by rewrite enc_tags_one, length_enc_tag).
  split.
  { unfold fits, padi_tags. change (?x :: ?l) with ([x] ++ l). rewrite enc_tags_app, length_app, Hserv.
    unfold uniq_tlv, MAX_PPPOE_PAYLOAD, ETH_DATA_LEN, PPPOE_OVERHEAD. destruct (useHostUniq c); [rewrite enc_tags_one, length_enc_tag; cbn [snd]; rewrite length_be_bytes|cbn]; lia. }
  destruct (built_start (junk t) dest (myEth c) code 0 (Hjunk t) Hd (co_my _ Hc) Hcode) as [Hp Ht].
  destruct (service_built (disc_header dest (myEth c) code 0) _ c (co_service _ Hc)
    (length_disc_header _ _ _ _ Hd (co_my _ Hc)) Hp Ht) as (p & Ep & Hb).
  destruct (host_uniq_built true c _ _ _ Hb) as (b & Eb & Hb'); [rewrite Hserv; lia|].
  exists p, b. split; [exact Ep|]. split; [exact Eb|exact Hb'].
Qed.

Definition eth_broadcast : bytes := replicate ETH_ALEN 0xFF.
Lemma broadcast_ok : eth_ok eth_broadcast.
Proof. split; [done|]. repeat constructor; lia. Qed.

Definition padi_frame (c : PPPoEConnection) : bytes := disc_frame eth_broadcast (myEth c) CODE_PADI 0 (padi_tags pid c).
Definition padr_frame (c : PPPoEConnection) : bytes := disc_frame (peerEth c) (myEth c) CODE_PADR 0 (padr_tags pid c).
Definition padt_frame (msg : option bytes) (c : PPPoEConnection) : bytes :=
  disc_frame (peerEth c) (myEth c) CODE_PADT (session c) (padt_tags pid msg c).

Lemma sendPADI_spec c t : conn_ok c → sendPADI pid junk c t = sends c (padi_frame c) t.
Proof.
  intros Hc. destruct (first_tags c eth_broadcast CODE_PADI Hc broadcast_ok) with (t := t) as (E1 & E2 & E3 & E4 & Hf & p & b & Ep & Eb & Hb).
  { unfold is_u8, CODE_PADI. lia. }
  unfold sendPADI. change ((uninit junk ≫= ?k) t) with (k (junk t) t). cbv zeta. rewrite E1, E2, E3, E4.
  rewrite (lift_bind _ _ p) by exact Ep. rewrite (lift_bind _ _ (Some b)) by exact Eb. by eapply finish_built.
Qed.

Lemma fits_prefix ts ts' : fits (ts ++ ts') → fits ts.
Proof. unfold fits. rewrite enc_tags_app, length_app. lia. Qed.

(** The cookie and the relay's number behind other tags, and what happens then. *)
Lemma append_stored {A} c hd ts b (k : building → sys A) (d : A) t :
  conn_ok c → built hd ts b → fits ts →
  let ts' := ts ++ stored_tlv (cookie c) ++ stored_tlv (relayId c) in
  ∃ b', (fits ts' → built hd ts' b') ∧
  (b ← lift (append_tag (cookie c) b);
   if b is Some b then
     b ← lift (append_tag (relayId c) b);
     if b is Some b then k b else mret d
   else mret d) t = if decide (fits ts') then k b' t else Ok (d, t).
Proof.
  intros Hc Hb Hf ts'. pose proof (append_tag_built (cookie c) hd ts b Hb (co_cookie _ Hc) Hf) as H1.
  destruct (decide (fits (ts ++ stored_tlv (cookie c)))) as [Hf1|Hf1].
  2: { exists b. subst ts'. rewrite app_assoc. split; [by intros ?%fits_prefix|].
       rewrite (lift_bind _ _ None) by exact H1. rewrite decide_False by (by intros ?%fits_prefix). done. }
  destruct H1 as (b1 & E1 & Hb1). rewrite (lift_bind _ _ (Some b1)) by exact E1.
  pose proof (append_tag_built (relayId c) hd _ b1 Hb1 (co_relay _ Hc) Hf1) as H2. rewrite <- app_assoc in H2. fold ts' in H2.
  destruct (decide (fits ts')) as [Hf2|Hf2].
  - destruct H2 as (b2 & E2 & Hb2). exists b2. split; [done|]. by rewrite (lift_bind _ _ (Some b2)) by exact E2.
  - exists b. split; [done|]. by rewrite (lift_bind _ _ None) by exact H2.
Qed.

Lemma sendPADR_spec c t :
  conn_ok c → sendPADR pid junk c t = if decide (fits (padr_tags pid c)) then sends c (padr_frame c) t else Ok (-1, t).
Proof.
  intros Hc. destruct (first_tags c (peerEth c) CODE_PADR Hc (co_peer _ Hc)) with (t := t) as (E1 & E2 & E3 & E4 & Hf & p & b & Ep & Eb & Hb).
  { unfold is_u8, CODE_PADR. lia. }
  unfold sendPADR. change ((uninit junk ≫= ?k) t) with (k (junk t) t). cbv zeta. rewrite E1, E2, E3.
  rewrite (lift_bind _ _ p) by exact Ep. rewrite (lift_bind _ _ (Some b)) by exact Eb.
  destruct (append_stored c _ _ b (finish c) (-1) t Hc Hb Hf) as (b' & Hb' & ->). fold (padr_tags pid c) in *.
  case_decide as Hd; [|done]. apply finish_built; auto.
Qed.

Lemma message_built hd ts b msg :
  built hd ts b → (length (enc_tags ts) ≤ 8)%nat → (length (default [] msg) ≤ 511)%nat →
  ∃ b', append_message msg b = Ok b' ∧ built hd (ts ++ message_tlv msg) b'.
Proof.
  intros Hb Hl Hm. destruct msg as [m|]; cbn in Hm; [|exists b; by rewrite app_nil_r].
  unfold append_message, message_tlv, ETH_DATA_LEN. rewrite (proj2 (Z.ltb_lt _ _)) by lia.
  pose proof (length_enc_tag (TAG_GENERIC_ERROR, m)) as Le. cbn [snd] in Le. unfold TAG_HDR_SIZE.
  apply append_built; [done| |lia|exact (Nat.le_refl _)|lia].
  unfold enc_tag. cbn [fst snd]. apply take_ge. rewrite !length_app, !length_be_bytes. lia.
Qed.

(** What [sendPADT] does with a short message. *)
Definition sent_PADT (msg : option bytes) (c : PPPoEConnection) (t : trace) : (Z * PPPoEConnection) * trace :=
  if (session c =? 0) || (discoverySocket c <? 0) then (0, c, t)
  else if decide (fits (padt_tags pid msg c)) then
    (0, with_session c 0, t ++ [(Send (discoverySocket c) (padt_frame msg c), answer_to t (Send (discoverySocket c) (padt_frame msg c)))])
  else (-1, with_session c 0, t).

Lemma sendPADT_spec c msg t :
  conn_ok c → (length (default [] msg) ≤ 511)%nat → sendPADT pid junk c msg t = Ok (sent_PADT msg c t).
Proof.
  intros Hc Hm. unfold sendPADT, sent_PADT. change ((uninit junk ≫= ?k) t) with (k (junk t) t). cbv beta.
  destruct (session c =? 0); [done|]. destruct (discoverySocket c <? 0); [done|]. cbn [orb]. cbv zeta.
  set (hd := disc_header (peerEth c) (myEth c) CODE_PADT (session c)).
  assert (Hcode : is_u8 CODE_PADT) by (unfold is_u8, CODE_PADT; lia).
  destruct (built_start (junk t) (peerEth c) (myEth c) CODE_PADT (session c) (Hjunk t) (co_peer _ Hc) (co_my _ Hc) Hcode) as [Hp Ht].
  fold hd in Ht. set (p := start_packet _ _ _ _ _) in *.
  assert (Hh : length hd = P_length) by (apply length_disc_header; apply Hc).
  assert (Hb0 : built hd [] (mk_building p 0 0)).
  { unfold PACKET_SIZE, P_length in *. exists (slice p 18 2), (drop 20 p). cbn [b_packet b_cursor b_plen].
    split; [|split; [rewrite length_app, Hh, length_slice; [done|lia]|by split]].
    rewrite <- Ht at 1. rewrite <- (take_drop 18 p) at 1. rewrite <- app_assoc. f_equal. unfold slice. cbn [enc_tags].
    rewrite <- (take_drop 2 (drop 18 p)) at 1. by rewrite drop_drop. }
  destruct (host_uniq_built false (with_session c 0) hd [] _ Hb0) as (b1 & E1 & Hb1); [cbn; lia|].
  rewrite (lift_bind _ _ (Some b1)) by exact E1. cbn [app] in Hb1.
  change (uniq_tlv pid (with_session c 0)) with (uniq_tlv pid c) in Hb1.
  assert (Hl1 : (length (enc_tags (uniq_tlv pid c)) ≤ 8)%nat).
  { unfold uniq_tlv. destruct (useHostUniq c); [rewrite enc_tags_one, length_enc_tag; cbn [snd]; rewrite length_be_bytes|cbn]; lia. }
  destruct (message_built hd _ b1 msg Hb1 Hl1 Hm) as (b2 & E2 & Hb2). rewrite (lift_bind _ _ b2) by exact E2.
  assert (Hf2 : fits (uniq_tlv pid c ++ message_tlv msg)).
  { unfold fits, MAX_PPPOE_PAYLOAD, ETH_DATA_LEN, PPPOE_OVERHEAD. rewrite enc_tags_app, length_app.
    destruct msg as [m|]; cbn in Hm; [unfold message_tlv; rewrite enc_tags_one, length_enc_tag; cbn [snd]; lia|cbn [message_tlv enc_tags fmap list_fmap concat length]; lia]. }
  assert (Hc' : conn_ok (with_session c 0)) by (destruct Hc; constructor; try done; cbn; lia).
  destruct (append_stored (with_session c 0) hd _ b2 (λ b, _ ← finish (with_session c 0) b; mret (0, with_session c 0)) (-1, with_session c 0) t Hc' Hb2 Hf2) as (b' & Hb' & E).
  refine (eq_trans E _). clear E. cbn [cookie relayId with_session] in *. rewrite <- app_assoc in *. fold (padt_tags pid msg c) in *.
  case_decide as Hd; [|done]. pose proof (finish_built (with_session c 0) hd _ b' t (Hb' Hd) Hd) as Ef.
  unfold mbind, sys_bind. rewrite Ef. done.
Qed.
End senders.

(** ** The round trip *)

Lemma service_tlv_ok c : conn_ok c → tlv_ok (service_tlv c).
Proof.
  intros Hc. destruct (name_bytes _ (co_service _ Hc)) as (Hb & Hl & _).
  split; [unfold service_tlv, TAG_SERVICE_NAME; cbn; lia|]. split; [exact Hb|cbn [snd service_tlv]; lia].
Qed.

Lemma uniq_tlv_ok pid c : Forall tlv_ok (uniq_tlv pid c).
Proof.
  unfold uniq_tlv. destruct (useHostUniq c); [|constructor]. constructor; [|constructor].
  split; [unfold TAG_HOST_UNIQ; cbn; lia|]. cbn [snd]. split; [apply is_bytes_be_bytes|rewrite length_be_bytes; lia].
Qed.

Lemma stored_tlv_ok t : stored t → Forall tlv_ok (stored_tlv t).
Proof.
  intros (Ht & Hl & Hp & Hb). unfold stored_tlv. destruct (Z.eqb_spec (t_type t) 0); [constructor|].
  constructor; [|constructor]. split; [cbn; lia|]. cbn [snd]. unfold t_value. split; [by apply Forall_take|rewrite length_take; lia].
Qed.

Lemma padr_tags_ok pid c : conn_ok c → Forall tlv_ok (padi_tags pid c) ∧ Forall tlv_ok (padr_tags pid c).
Proof.
  intros Hc. assert (H : Forall tlv_ok (padi_tags pid c)) by (constructor; [by apply service_tlv_ok|apply uniq_tlv_ok]).
  split; [done|]. apply Forall_app_2; [done|]. apply Forall_app_2; apply stored_tlv_ok, Hc.
Qed.

Lemma padt_tags_ok pid msg c :
  conn_ok c → is_bytes (default [] msg) → (length (default [] msg) ≤ 511)%nat → Forall tlv_ok (padt_tags pid msg c).
Proof.
  intros Hc Hb Hl. apply Forall_app_2; [apply uniq_tlv_ok|]. apply Forall_app_2; [|apply Forall_app_2; apply stored_tlv_ok, Hc].
  destruct msg as [m|]; [|constructor]. cbn in Hb, Hl. constructor; [|constructor].
  split; [unfold TAG_GENERIC_ERROR; cbn; lia|]. cbn [snd]. split; [done|lia].
Qed.

(** What a receiver finds that reads [frame] into any buffer. *)
Definition reads_as (frame dest source : bytes) (code session : Z) (ts : list tlv) : Prop :=
  ∀ buf, length buf = PACKET_SIZE →
  let p := splice buf 0 frame in
  header_ok p = true ∧ h_dest p = dest ∧ h_source p = source ∧ p_code p = code ∧ p_session p = session
  ∧ HDR_SIZE + p_length p = Z.of_nat (length frame) ∧ tags_of (covered p) = (ts, Complete).

Lemma frame_reads dest source code session ts :
  eth_ok dest → eth_ok source → 0 ≤ session < 65536 → Forall tlv_ok ts → fits ts →
  reads_as (disc_frame dest source code session ts) dest source code session ts.
Proof.
  intros Hd Hs Hse Hts Hf buf Hb p. destruct (frame_read dest source code session ts buf) as (_ & H1 & H2 & H3 & H4 & H5 & H6 & H7); try done.
  fold p in H1, H2, H3, H4, H5, H6, H7. repeat (split; [done|]). split; [|done]. rewrite H6.
  unfold disc_frame. rewrite !length_app, length_disc_header, length_be_bytes by done. unfold HDR_SIZE, PPPOE_OVERHEAD. lia.
Qed.

(** What is sent.  For any connection the daemon's options can make, and whatever the
    uninitialised packet holds, a PADI and a PADR are one [send] each of a frame that every
    receiver reads back as exactly the tags it was built of: the name of the service (empty if
    none is wanted), the process number if the Host-Uniq tag is used, and in a PADR the
    cookie and the relay's number that were stored.  A PADR whose tags do not fit is an
    error and nothing is sent.  A PADT carries the session, the message and the same tags,
    and afterwards the session is gone, sent or not. *)
Theorem discovery_packets_roundtrip `{Hos : Os} pid (junk : trace → bytes) (c : PPPoEConnection) (msg : bytes) (t : trace)
    (Hj : ∀ t, length (junk t) = PACKET_SIZE) (Hc : conn_ok c) (Hm : is_bytes msg) (Hl : (length msg ≤ 511)%nat) :
  (sendPADI pid junk c t = sends c (padi_frame pid c) t
   ∧ reads_as (padi_frame pid c) eth_broadcast (myEth c) CODE_PADI 0 (padi_tags pid c))
  ∧ (if decide (fits (padr_tags pid c)) then
       sendPADR pid junk c t = sends c (padr_frame pid c) t
       ∧ reads_as (padr_frame pid c) (peerEth c) (myEth c) CODE_PADR 0 (padr_tags pid c)
     else sendPADR pid junk c t = Ok (-1, t))
  ∧ sendPADT pid junk c (Some msg) t = Ok (sent_PADT pid (Some msg) c t)
  ∧ (fits (padt_tags pid (Some msg) c) →
     reads_as (padt_frame pid (Some msg) c) (peerEth c) (myEth c) CODE_PADT (session c) (padt_tags pid (Some msg) c)).
Proof.
  destruct (padr_tags_ok pid c Hc) as [Hi Hr]. pose proof (sendPADR_spec pid junk Hj c t Hc) as Epadr.
  assert (Hf : fits (padi_tags pid c)).
  { refine (proj1 (proj2 (proj2 (proj2 (proj2 (first_tags pid junk Hj c eth_broadcast CODE_PADI Hc broadcast_ok _ t)))))). by unfold is_u8, CODE_PADI. }
  split; [split; [by apply sendPADI_spec|apply frame_reads; try done; [apply broadcast_ok|apply Hc]]|].
  split; [case_decide; [split; [done|apply frame_reads; try done; apply Hc]|done]|].
  split; [by apply sendPADT_spec|]. intros Hft. apply frame_reads; try done; try apply Hc. by apply padt_tags_ok.
Qed.
