(* ===== verification/PppoeDiscProps.v ===== *)
(** * PPPoE: what one packet does in discovery, and the invariant of its loops

    A datagram is judged by its own bytes; the loops are compared with the calls they
    make. *)

From stdpp Require Import base numbers gmap sets strings list.
From S2P Require Import Prelude Bytes Syscalls Pppoe PppoeDisc PppoeTags PppoeSend.

(** ** Datagrams *)

(** The packet is as long as it says. *)
Definition whole (d : bytes) : Prop := (20 ≤ length d)%nat ∧ HDR_SIZE + p_length d ≤ Z.of_nat (length d).
#[global] Instance whole_dec d : Decision (whole d).
Proof. unfold whole. apply _. Defined.
Definition tags (d : bytes) : list tlv := fst (tags_of (covered d)).
Definition is_error (x : tlv) : bool :=
  (fst x =? TAG_SERVICE_NAME_ERROR) || (fst x =? TAG_AC_SYSTEM_ERROR) || (fst x =? TAG_GENERIC_ERROR).

(** No tag reports an error, and none is cut off. *)
Definition readable (d : bytes) : Prop :=
  existsb is_error (tags d) = false ∧ snd (tags_of (covered d)) ≠ Malformed.

(** It is for this end. *)
Definition addressed (pid : Z) (c : PPPoEConnection) (d : bytes) : Prop :=
  whole d ∧ header_ok d = true ∧ h_dest d = myEth c
  ∧ (useHostUniq c = true → ∃ v, (TAG_HOST_UNIQ, v) ∈ tags d ∧ length v = 4%nat ∧ be_val v = pid).

(** An offer, and a confirmation from the peer. *)
Definition is_pado (pid : Z) (c : PPPoEConnection) (d : bytes) : Prop :=
  addressed pid c d ∧ p_code d = CODE_PADO ∧ NOT_UNICAST (h_source d) = false ∧ readable d.
Definition is_pads (pid : Z) (c : PPPoEConnection) (d : bytes) : Prop :=
  addressed pid c d ∧ p_code d = CODE_PADS ∧ h_source d = peerEth c ∧ readable d.

Lemma splice_prefix buf d : (length d ≤ length buf)%nat → splice buf 0 d = d ++ drop (length d) buf.
Proof. intros _. unfold splice. by rewrite take_0. Qed.

Lemma slice_prefix (d r : bytes) off n : (off + n ≤ length d)%nat → slice (d ++ r) off n = slice d off n.
Proof.
  intros H. unfold slice. rewrite drop_app_le by lia. rewrite take_app_le; [done|]. rewrite length_drop. lia.
Qed.

(** A buffer that a whole datagram was read into. *)
Lemma received_whole buf d :
  length buf = PACKET_SIZE → (length d ≤ PACKET_SIZE)%nat → is_bytes d → whole d →
  let p := splice buf 0 d in
  h_dest p = h_dest d ∧ h_source p = h_source d ∧ p_code p = p_code d ∧ p_session p = p_session d
  ∧ p_length p = p_length d ∧ header_ok p = header_ok d ∧ covered p = covered d.
Proof.
  intros Hb Hd Hby [H20 Hw] p. subst p. rewrite splice_prefix by (rewrite Hb; done).
  pose proof (get16_range d P_length Hby) as Hr. fold (p_length d) in Hr. unfold HDR_SIZE, PPPOE_OVERHEAD in Hw.
  assert (Hs : ∀ off n, (off + n ≤ 20)%nat → slice (d ++ drop (length d) buf) off n = slice d off n)
    by (intros; apply slice_prefix; lia).
  assert (Hl : ∀ i, (i < 20)%nat → (d ++ drop (length d) buf) !!! i = d !!! i) by (intros; apply lookup_total_app_l; lia).
  assert (Epl : p_length (d ++ drop (length d) buf) = p_length d) by (unfold p_length, get16; by rewrite Hs by (unfold P_length; lia)).
  unfold h_dest, h_source, p_code, p_session, header_ok, p_ver, p_type, get16, covered. rewrite Epl.
  rewrite !Hs by (unfold P_dest, P_source, P_session, ETH_ALEN; lia). rewrite !Hl by (unfold P_code, P_vertype; lia).
  repeat (split; [done|]). apply slice_prefix. unfold P_payload. lia.
Qed.

(** What is shorter than it says is not looked at. *)
Lemma received_short buf d :
  length buf = PACKET_SIZE → (length d ≤ PACKET_SIZE)%nat → is_bytes d → is_bytes buf → ¬ whole d →
  Z.of_nat (length d) < p_length (splice buf 0 d) + HDR_SIZE.
Proof.
  intros Hb Hd Hby Hbb Hw. pose proof (get16_range (splice buf 0 d) P_length (is_bytes_splice _ _ _ Hbb Hby)) as Hr.
  fold (p_length (splice buf 0 d)) in Hr. unfold HDR_SIZE, PPPOE_OVERHEAD.
  destruct (decide (20 ≤ length d)%nat) as [H20|H20]; [|lia].
  assert (E : p_length (splice buf 0 d) = p_length d).
  { rewrite splice_prefix by (rewrite Hb; done). unfold p_length, get16. by rewrite slice_prefix by (unfold P_length; lia). }
  rewrite E. apply Z.nle_gt. intros H. apply Hw. split; [done|]. unfold HDR_SIZE, PPPOE_OVERHEAD. lia.
Qed.

(** ** The callbacks on values *)

Lemma read_value (v r : bytes) : read_at (v ++ r) 0 (Z.to_nat (Z.of_nat (length v))) = Ok v.
Proof. rewrite Nat2Z.id, read_at_Ok by (rewrite length_app; lia). unfold slice. by rewrite drop_0, take_app_length. Qed.

Lemma read_value' (v : bytes) : read_at v 0 (Z.to_nat (Z.of_nat (length v))) = Ok v.
Proof. pose proof (read_value v []) as H. by rewrite app_nil_r in H. Qed.

Lemma name_within n v r : name_matches n (Z.of_nat (length v)) (v ++ r) = name_matches n (Z.of_nat (length v)) v.
Proof. unfold name_matches. destruct n; [|done]. by rewrite read_value, read_value'. Qed.

Lemma copy_within t ty v r : copy_in t ty (Z.of_nat (length v)) (v ++ r) = copy_in t ty (Z.of_nat (length v)) v.
Proof. unfold copy_in. by rewrite read_value, read_value'. Qed.

Lemma pado_within : within parsePADOTags.
Proof. intros ty v r pc. unfold parsePADOTags. by rewrite !name_within, !copy_within. Qed.
Lemma pads_within : within parsePADSTags.
Proof. intros ty v r c. unfold parsePADSTags. by rewrite copy_within. Qed.
Lemma uniq_within pid : within (parseForHostUniq pid).
Proof. intros ty v r c. unfold parseForHostUniq. by rewrite read_value, read_value'. Qed.

Lemma strncmp_eq_spec v n : length v = length n → Forall (λ c, 0 < c < 256) n → strncmp_eq v n (length n) = bool_decide (v = n).
Proof.
  revert n. induction v as [|x v IH]; intros [|y n] Hl Hn; try done. apply Forall_cons in Hn as [Hy Hn].
  cbn [length strncmp_eq hd tail]. injection Hl as Hl. rewrite IH by done. destruct (Z.eqb_spec x y) as [->|Hne].
  - rewrite (proj2 (Z.eqb_neq y 0)) by lia. cbn [andb orb]. by apply bool_decide_ext; split; [intros ->|intros [= ->]].
  - cbn [andb]. symmetry. apply bool_decide_false. by intros [= ].
Qed.

Lemma name_matches_spec n v : name_ok n → name_matches n (Z.of_nat (length v)) v = Ok (bool_decide (n = Some v)).
Proof.
  intros Hn. unfold name_matches. destruct n as [n|]; [|done]. destruct Hn as [_ Hn].
  destruct (Z.eqb_spec (Z.of_nat (length v)) (Z.of_nat (length n))) as [E|E].
  - rewrite read_value'. cbn [mbind res_bind]. apply Nat2Z.inj in E. rewrite Nat2Z.id, E, strncmp_eq_spec by done.
    unfold mret, res_ret. f_equal. by apply bool_decide_ext; split; [intros ->|intros [= ->]].
  - unfold mret, res_ret. f_equal. symmetry. apply bool_decide_false. by intros [= ->].
Qed.

(** What is stored. *)
Definition store (t : tag) (x : tlv) : tag :=
  mk_tag (fst x) (Z.of_nat (length (snd x))) (snd x ++ drop (length (snd x)) (t_payload t)).

Lemma copy_in_spec t ty v :
  (length v ≤ length (t_payload t))%nat → copy_in t ty (Z.of_nat (length v)) v = Ok (store t (ty, v)).
Proof.
  intros Hl. unfold copy_in. rewrite read_value'. cbn [mbind res_bind]. rewrite write_at_Ok by lia. cbn [mbind res_bind].
  unfold splice. by rewrite take_0.
Qed.

(** A value that came in a packet. *)
Definition small (x : tlv) : Prop := tlv_ok x ∧ (length (snd x) ≤ 1490)%nat.

Lemma store_stored t x : stored t → small x → stored (store t x).
Proof.
  intros (_ & _ & Hp & Hb) [(Ht & Hx & _) Hl]. unfold store. split; [cbn; lia|]. cbn [t_length t_payload]. split; [lia|].
  split; [rewrite length_app, length_drop; lia|]. apply Forall_app_2; [done|by apply Forall_drop].
Qed.

Lemma store_value t x : fst x ≠ 0 → stored_tlv (store t x) = [x].
Proof.
  intros H. unfold stored_tlv, store, t_value. cbn [t_type t_length t_payload]. rewrite (proj2 (Z.eqb_neq _ _)) by done.
  rewrite Nat2Z.id, take_app_length. by destruct x.
Qed.

(** The tags up to the first that ends the parsing. *)
Fixpoint before_error (ts : list tlv) : list tlv :=
  match ts with x :: ts => if is_error x then [] else x :: before_error ts | [] => [] end.

Lemma before_error_all ts : existsb is_error ts = false → before_error ts = ts.
Proof.
  induction ts as [|x ts IH]; [done|]. cbn [existsb before_error]. intros [H1 H2]%orb_false_iff. by rewrite H1, IH.
Qed.
Lemma before_error_incl ts x : x ∈ before_error ts → x ∈ ts.
Proof.
  induction ts as [|y ts IH]; [done|]. cbn [before_error]. destruct (is_error y); [set_solver|]. rewrite !elem_of_cons. naive_solver.
Qed.

Definition pado_effect (pc : PacketCriteria) (x : tlv) : PacketCriteria :=
  let c := pc_conn pc in
  if fst x =? TAG_AC_NAME then saw_ac pc (bool_decide (acName c = Some (snd x)))
  else if fst x =? TAG_SERVICE_NAME then saw_service pc (bool_decide (serviceName c = Some (snd x)))
  else if fst x =? TAG_AC_COOKIE then with_conn pc (with_cookie c (store (cookie c) x))
  else if fst x =? TAG_RELAY_SESSION_ID then with_conn pc (with_relayId c (store (relayId c) x))
  else pc.

Definition pads_effect (c : PPPoEConnection) (x : tlv) : PPPoEConnection :=
  if fst x =? TAG_RELAY_SESSION_ID then with_relayId c (store (relayId c) x) else c.

(** The members that discovery leaves alone once its socket is open. *)
Record same_setup (c c' : PPPoEConnection) : Prop := {
  ss_dsock : discoverySocket c' = discoverySocket c; ss_ssock : sessionSocket c' = sessionSocket c; ss_my : myEth c' = myEth c;
  ss_if : ifName c' = ifName c; ss_service : serviceName c' = serviceName c; ss_ac : acName c' = acName c;
  ss_sync : synchronous c' = synchronous c; ss_uniq : useHostUniq c' = useHostUniq c }.

#[global] Instance same_setup_preorder : PreOrder same_setup.
Proof. split; [by constructor|]. intros a b c [] []. constructor; congruence. Qed.

Lemma store_cookie_ok c x : conn_ok c → small x → conn_ok (with_cookie c (store (cookie c) x)).
Proof. intros [] Hx. constructor; try done. by apply store_stored. Qed.
Lemma store_relay_ok c x : conn_ok c → small x → conn_ok (with_relayId c (store (relayId c) x)).
Proof. intros [] Hx. constructor; try done. by apply store_stored. Qed.

Lemma pado_effect_ok pc x : conn_ok (pc_conn pc) → small x →
  conn_ok (pc_conn (pado_effect pc x)) ∧ same_setup (pc_conn pc) (pc_conn (pado_effect pc x))
  ∧ discoveryState (pc_conn (pado_effect pc x)) = discoveryState (pc_conn pc) ∧ session (pc_conn (pado_effect pc x)) = session (pc_conn pc).
Proof.
  intros Hc Hx. unfold pado_effect. repeat case_match; (split; [by (done || apply store_cookie_ok || apply store_relay_ok)|split; [by constructor|done]]).
Qed.

Lemma pado_callback pc x : conn_ok (pc_conn pc) → small x →
  parsePADOTags (fst x) (Z.of_nat (length (snd x))) (snd x) pc = Ok (if is_error x then (-1, pc) else (0, pado_effect pc x)).
Proof.
  intros Hc [_ Hl]. pose proof (co_cookie _ Hc) as (_ & _ & Hp1 & _). pose proof (co_relay _ Hc) as (_ & _ & Hp2 & _).
  unfold parsePADOTags, pado_effect, is_error. destruct x as [ty v]. cbn [fst snd] in *.
  rewrite !name_matches_spec by apply Hc. rewrite !copy_in_spec by lia. cbn [mbind res_bind].
  destruct (Z.eqb_spec ty TAG_AC_NAME) as [->|]; [done|]. destruct (Z.eqb_spec ty TAG_SERVICE_NAME) as [->|]; [done|].
  destruct (Z.eqb_spec ty TAG_AC_COOKIE) as [->|]; [done|]. destruct (Z.eqb_spec ty TAG_RELAY_SESSION_ID) as [->|]; [done|].
  by case_match.
Qed.

(** All the tags of a PADO. *)
Lemma pado_each ts pc : conn_ok (pc_conn pc) → Forall small ts →
  each_tag parsePADOTags ts pc = Ok (if existsb is_error ts then -1 else 0, foldl pado_effect pc (before_error ts))
  ∧ conn_ok (pc_conn (foldl pado_effect pc (before_error ts))) ∧ same_setup (pc_conn pc) (pc_conn (foldl pado_effect pc (before_error ts)))
  ∧ discoveryState (pc_conn (foldl pado_effect pc (before_error ts))) = discoveryState (pc_conn pc)
  ∧ session (pc_conn (foldl pado_effect pc (before_error ts))) = session (pc_conn pc).
Proof.
  intros Hc Hts. revert pc Hc. induction Hts as [|x ts Hx Hts IH]; intros pc Hc; [done|].
  pose proof (pado_callback pc x Hc Hx) as E. destruct (pado_effect_ok pc x Hc Hx) as (Hc' & Hs & Hst & Hse).
  cbn [each_tag existsb before_error]. destruct x as [ty v]. cbn [fst snd] in E. rewrite E.
  destruct (is_error (ty, v)); [done|]. cbn [mbind res_bind orb foldl]. destruct (IH _ Hc') as (-> & H1 & H2 & H3 & H4).
  split; [done|]. split; [done|]. split; [by etransitivity|]. by rewrite H3, H4, Hst.
Qed.

Lemma pads_callback c x : conn_ok c → small x →
  parsePADSTags (fst x) (Z.of_nat (length (snd x))) (snd x) c = Ok (if is_error x then (-1, c) else (0, pads_effect c x)).
Proof.
  intros Hc [_ Hl]. pose proof (co_relay _ Hc) as (_ & _ & Hp & _).
  unfold parsePADSTags, pads_effect, is_error. destruct x as [ty v]. cbn [fst snd] in *. rewrite copy_in_spec by lia.
  destruct (_ || _); [done|]. by destruct (ty =? TAG_RELAY_SESSION_ID).
Qed.

(** All the tags of a PADS. *)
Lemma pads_each ts c : conn_ok c → Forall small ts →
  each_tag parsePADSTags ts c = Ok (if existsb is_error ts then -1 else 0, foldl pads_effect c (before_error ts))
  ∧ conn_ok (foldl pads_effect c (before_error ts)) ∧ same_setup c (foldl pads_effect c (before_error ts))
  ∧ peerEth (foldl pads_effect c (before_error ts)) = peerEth c ∧ session (foldl pads_effect c (before_error ts)) = session c.
Proof.
  intros Hc Hts. revert c Hc. induction Hts as [|x ts Hx Hts IH]; intros c Hc; [done|].
  pose proof (pads_callback c x Hc Hx) as E. cbn [each_tag existsb before_error]. destruct x as [ty v]. cbn [fst snd] in E. rewrite E.
  destruct (is_error (ty, v)); [done|]. cbn [mbind res_bind orb foldl].
  assert (Hc' : conn_ok (pads_effect c (ty, v))) by (unfold pads_effect; destruct (fst (ty, v) =? TAG_RELAY_SESSION_ID); [by apply store_relay_ok|done]).
  destruct (IH _ Hc') as (-> & H1 & H2 & H3 & H4). split; [done|]. split; [done|].
  unfold pads_effect in *. destruct (fst (ty, v) =? TAG_RELAY_SESSION_ID); [|done].
  split; [|by rewrite H3, H4]. etransitivity; [|exact H2]. by constructor.
Qed.

(** ** One packet *)

Definition is_mine (pid : Z) (x : tlv) : bool :=
  (fst x =? TAG_HOST_UNIQ) && (Z.of_nat (length (snd x)) =? 4) && (be_val (snd x) =? pid).

Lemma uniq_callback pid ty v val :
  parseForHostUniq pid ty (Z.of_nat (length v)) v val = Ok (0, if is_mine pid (ty, v) then 1 else val).
Proof.
  unfold parseForHostUniq, is_mine. cbn [fst snd]. rewrite read_value'.
  by destruct ((ty =? TAG_HOST_UNIQ) && (Z.of_nat (length v) =? 4)).
Qed.

Lemma uniq_each pid ts val :
  each_tag (parseForHostUniq pid) ts val = Ok (0, if existsb (is_mine pid) ts then 1 else val).
Proof.
  revert val. induction ts as [|[ty v] ts IH]; intros val; [done|]. cbn [each_tag existsb]. rewrite uniq_callback.
  cbn [mbind res_bind]. change (0 <? 0) with false. cbn iota. rewrite IH. destruct (is_mine pid (ty, v)); cbn [orb]; [|done]. by case_match.
Qed.

Lemma is_mine_spec pid ts :
  existsb (is_mine pid) ts = true ↔ ∃ v, (TAG_HOST_UNIQ, v) ∈ ts ∧ length v = 4%nat ∧ be_val v = pid.
Proof.
  rewrite existsb_exists. unfold is_mine. split.
  - intros ([ty v] & Hin & H). cbn [fst snd] in H. apply andb_true_iff in H as [H H3]. apply andb_true_iff in H as [H1 H2].
    apply Z.eqb_eq in H1, H2, H3. subst ty. exists v. split; [by apply list_elem_of_In|]. split; [lia|done].
  - intros (v & Hin & Hl & Hp). exists (TAG_HOST_UNIQ, v). split; [by apply list_elem_of_In|]. cbn [fst snd].
    rewrite Hl, Hp. by rewrite !Z.eqb_refl.
Qed.

(** [covered] is short enough for the values to be stored. *)
Lemma small_tags p : is_bytes p → header_ok p = true → Forall small (tags p).
Proof.
  intros Hb Hh. unfold header_ok in Hh. apply andb_true_iff in Hh as [_ Hle]. apply Z.leb_le in Hle.
  unfold tags. destruct (tags_of (covered p)) as [ts e] eqn:E. cbn [fst].
  destruct (decode_sound (length (covered p)) (covered p) ts e (is_bytes_slice _ _ _ Hb) E) as (Hts & rest & Er).
  assert (Hl : (length (enc_tags ts) ≤ 1494)%nat).
  { assert (length (covered p) ≤ 1494)%nat.
    { unfold covered, slice. rewrite length_take. unfold MAX_PPPOE_PAYLOAD, ETH_DATA_LEN, PPPOE_OVERHEAD in Hle. lia. }
    rewrite Er, length_app in H. lia. }
  clear E Er. induction Hts as [|x ts Hx Hts IH]; [constructor|]. change (enc_tags (x :: ts)) with (enc_tag x ++ enc_tags ts) in Hl.
  rewrite length_app, length_enc_tag in Hl. constructor; [split; [done|lia]|apply IH; lia].
Qed.

(** The end of a turn with a PADO that was parsed, and the connection that has chosen. *)
Definition chosen (source : bytes) (c : PPPoEConnection) : PPPoEConnection :=
  with_state (with_peerEth c source) STATE_RECEIVED_PADO.
Definition offer_verdict (source : bytes) (pc : PacketCriteria) : wait_outcome * PacketCriteria :=
  if negb (seenACName pc) then (Continue, pc)
  else if negb (seenServiceName pc) then (Continue, pc)
  else
    let pc := with_conn pc (with_numPADOs (pc_conn pc) (s32 (numPADOs (pc_conn pc) + 1))) in
    if acNameOK pc && serviceNameOK pc then (Break, with_conn pc (chosen source (pc_conn pc))) else (Continue, pc).

(** A turn changes the stored tags at most. *)
Record kept (c c' : PPPoEConnection) : Prop := {
  k_ok : conn_ok c'; k_setup : same_setup c c'; k_state : discoveryState c' = discoveryState c; k_session : session c' = session c }.

Section packet.
Context (pid : Z) (buf d : bytes).
Context (Hbuf : length buf = PACKET_SIZE) (Hbb : is_bytes buf) (Hd : (length d ≤ PACKET_SIZE)%nat) (Hdb : is_bytes d).
Let p := splice buf 0 d.

Lemma p_bytes : is_bytes p ∧ length p = PACKET_SIZE.
Proof. split; [by apply is_bytes_splice|]. unfold p. by rewrite length_splice by (rewrite Hbuf; done). Qed.

(** A packet that is parsed. *)
Lemma parse_whole {S} (func : Z → Z → bytes → S → res (Z * S)) s :
  within func → whole d →
  ∃ next, parsePacket func p s =
    if header_ok d then
      '(r, s) ← each_tag func (tags d) s;
      if r <? 0 then mret (-1, s) else mret (at_end (snd (tags_of (covered d))) next, s)
    else mret (-1, s).
Proof.
  intros Hw Hwh. destruct p_bytes as [Hb Hl]. destruct (received_whole buf d Hbuf Hd Hdb Hwh) as (_ & _ & _ & _ & El & Eh & Ec).
  fold p in El, Eh, Ec. pose proof (parse_packet_ref func p s Hw Hl Hb) as E. rewrite Eh in E. unfold parse_ref, tags in *. rewrite Ec in E.
  eexists. rewrite E. destruct (header_ok d); [|done]. by destruct (tags_of (covered d)).
Qed.

Lemma forMe_spec c : whole d →
  ∃ b, packetIsForMe pid c p = Ok b ∧ (b = true ↔ h_dest d = myEth c
    ∧ (useHostUniq c = true → header_ok d = true ∧ ∃ v, (TAG_HOST_UNIQ, v) ∈ tags d ∧ length v = 4%nat ∧ be_val v = pid)).
Proof.
  intros Hw. destruct (received_whole buf d Hbuf Hd Hdb Hw) as (Ed & _). fold p in Ed. unfold packetIsForMe. rewrite Ed.
  case_bool_decide as Hdest; cbn [negb]; [|exists false; split; [done|naive_solver]].
  destruct (useHostUniq c); cbn [negb]; [|exists true; split; [done|split; [intros _; split; [done|by intros]|done]]].
  destruct (parse_whole (parseForHostUniq pid) 0 (uniq_within pid) Hw) as (next & ->).
  destruct (header_ok d); cbn [mbind res_bind]; [|exists false; split; [done|split; [done|intros [_ H]; by destruct (H eq_refl)]]].
  rewrite uniq_each. cbn [mbind res_bind]. exists (existsb (is_mine pid) (tags d)). split; [by destruct (existsb (is_mine pid) (tags d))|].
  rewrite is_mine_spec. naive_solver.
Qed.

Lemma pado_fold_kept pc l : conn_ok (pc_conn pc) → Forall small l → kept (pc_conn pc) (pc_conn (foldl pado_effect pc (before_error l))).
Proof. intros Hc Hl. destruct (pado_each l pc Hc Hl) as (_ & H1 & H2 & H3 & H4). by constructor. Qed.

Lemma pado_parse pc : conn_ok (pc_conn pc) → whole d →
  let pc' := foldl pado_effect pc (before_error (tags d)) in
  ∃ next, parsePacket parsePADOTags p pc = Ok (
    if header_ok d then
      if existsb is_error (tags d) then (-1, pc') else (at_end (snd (tags_of (covered d))) next, pc')
    else (-1, pc)).
Proof.
  intros Hc Hw pc'. destruct (parse_whole parsePADOTags pc pado_within Hw) as (next & E). exists next. rewrite E.
  destruct (header_ok d) eqn:Eh; [|done]. destruct (pado_each (tags d) pc Hc (small_tags d Hdb Eh)) as (-> & _).
  cbn [mbind res_bind]. by destruct (existsb is_error (tags d)).
Qed.

(** An offer is judged by its tags. *)
Lemma pado_accepted pc :
  conn_ok (pc_conn pc) → is_pado pid (pc_conn pc) d → snd (tags_of (covered d)) = Complete →
  pado_packet pid p (Z.of_nat (length d)) pc = Ok (offer_verdict (h_source d) (foldl pado_effect pc (tags d))).
Proof.
  intros Hc ((Hw & Hh & Hdest & Hu) & Hcode & Hun & Herr & _) Hcomplete. unfold pado_packet.
  destruct (received_whole buf d Hbuf Hd Hdb Hw) as (_ & Es & Eco & _ & El & _). fold p in Es, Eco, El. rewrite Es, Eco, El.
  rewrite (proj2 (Z.ltb_ge _ _)) by (destruct Hw; lia). destruct (forMe_spec (pc_conn pc) Hw) as (b & -> & Hb).
  assert (b = true) as -> by (apply Hb; auto). cbn [mbind res_bind negb]. rewrite Hcode, Hun. change (CODE_PADO =? CODE_PADO) with true. cbn iota.
  unfold pado_tags. destruct (pado_parse pc Hc Hw) as (next & ->). rewrite Hh, Herr, before_error_all, Hcomplete by done.
  cbn [mbind res_bind at_end]. change (0 <? 0) with false. cbn iota. rewrite Es. unfold offer_verdict. by repeat case_match.
Qed.

(** Whatever comes, it is an offer for this end, or changes nothing but stored tags. *)
Lemma pado_packet_spec pc : conn_ok (pc_conn pc) →
  pado_packet pid p (Z.of_nat (length d)) pc = Ok (Continue, pc)
  ∨ (is_pado pid (pc_conn pc) d ∧ kept (pc_conn pc) (pc_conn (foldl pado_effect pc (tags d)))
     ∧ pado_packet pid p (Z.of_nat (length d)) pc = Ok (offer_verdict (h_source d) (foldl pado_effect pc (tags d))))
  ∨ (∃ pc', pado_packet pid p (Z.of_nat (length d)) pc = Ok (Failed, pc') ∧ kept (pc_conn pc) (pc_conn pc')).
Proof.
  intros Hc. unfold pado_packet. destruct (decide (whole d)) as [Hw|Hw].
  2: { left. rewrite (proj2 (Z.ltb_lt _ _)) by (by apply received_short). done. }
  destruct (received_whole buf d Hbuf Hd Hdb Hw) as (_ & Es & Eco & _ & El & _). fold p in Es, Eco, El. rewrite Es, Eco, El.
  rewrite (proj2 (Z.ltb_ge _ _)) by (destruct Hw; lia). destruct (forMe_spec (pc_conn pc) Hw) as (b & -> & Hb). cbn [mbind res_bind].
  destruct b; cbn [negb]; [|by left]. destruct (proj1 Hb eq_refl) as [Hdest Hu]. destruct (Z.eqb_spec (p_code d) CODE_PADO) as [Ecode|]; [|by left].
  destruct (NOT_UNICAST (h_source d)) eqn:Eun; [by left|]. right.
  unfold pado_tags. destruct (pado_parse pc Hc Hw) as (next & ->). cbn [mbind res_bind]. rewrite Es.
  destruct (header_ok d) eqn:Eh; [|right; exists pc; split; [done|by constructor]].
  pose proof (pado_fold_kept pc (tags d) Hc (small_tags d Hdb Eh)) as Hk.
  destruct (existsb is_error (tags d)) eqn:Eerr; [right; eexists; by split|]. rewrite before_error_all in * by done.
  destruct (Z.ltb_spec (at_end (snd (tags_of (covered d))) next) 0) as [Hlt|Hge]; [right; eexists; by split|]. left.
  split; [|split; [done|unfold offer_verdict; by repeat case_match]].
  split; [split; [done|split; [done|split; [done|naive_solver]]]|]. split; [done|]. split; [done|]. split; [done|].
  intros E. rewrite E in Hge. cbn in Hge. lia.
Qed.

Lemma pads_parse c : conn_ok c → whole d →
  let c' := foldl pads_effect c (before_error (tags d)) in
  ∃ next, parsePacket parsePADSTags p c = Ok (
    if header_ok d then
      if existsb is_error (tags d) then (-1, c') else (at_end (snd (tags_of (covered d))) next, c')
    else (-1, c)).
Proof.
  intros Hc Hw c'. destruct (parse_whole parsePADSTags c pads_within Hw) as (next & E). exists next. rewrite E.
  destruct (header_ok d) eqn:Eh; [|done]. destruct (pads_each (tags d) c Hc (small_tags d Hdb Eh)) as (-> & _).
  cbn [mbind res_bind]. by destruct (existsb is_error (tags d)).
Qed.

Lemma pads_accepted c :
  conn_ok c → is_pads pid c d → snd (tags_of (covered d)) = Complete →
  pads_packet pid p (Z.of_nat (length d)) c = Ok (Break, with_state (foldl pads_effect c (tags d)) STATE_SESSION).
Proof.
  intros Hc ((Hw & Hh & Hdest & Hu) & Hcode & Hsrc & Herr & _) Hcomplete. unfold pads_packet.
  destruct (received_whole buf d Hbuf Hd Hdb Hw) as (_ & Es & Eco & _ & El & _). fold p in Es, Eco, El. rewrite Es, Eco, El.
  rewrite (proj2 (Z.ltb_ge _ _)) by (destruct Hw; lia). rewrite bool_decide_true by done. cbn [negb].
  destruct (forMe_spec c Hw) as (b & -> & Hb). assert (b = true) as -> by (apply Hb; auto). cbn [mbind res_bind negb].
  rewrite Hcode. change (CODE_PADS =? CODE_PADS) with true. cbn iota.
  destruct (pads_parse c Hc Hw) as (next & ->). by rewrite Hh, Herr, before_error_all, Hcomplete by done.
Qed.

Lemma pads_packet_spec c : conn_ok c →
  pads_packet pid p (Z.of_nat (length d)) c = Ok (Continue, c)
  ∨ (∃ c', is_pads pid c d ∧ kept c c' ∧ peerEth c' = peerEth c
     ∧ pads_packet pid p (Z.of_nat (length d)) c = Ok (Break, with_state c' STATE_SESSION))
  ∨ (∃ c', pads_packet pid p (Z.of_nat (length d)) c = Ok (Failed, c') ∧ kept c c' ∧ peerEth c' = peerEth c).
Proof.
  intros Hc. unfold pads_packet. destruct (decide (whole d)) as [Hw|Hw].
  2: { left. rewrite (proj2 (Z.ltb_lt _ _)) by (by apply received_short). done. }
  destruct (received_whole buf d Hbuf Hd Hdb Hw) as (_ & Es & Eco & _ & El & _). fold p in Es, Eco, El. rewrite Es, Eco, El.
  rewrite (proj2 (Z.ltb_ge _ _)) by (destruct Hw; lia). case_bool_decide as Hsrc; cbn [negb]; [|by left].
  destruct (forMe_spec c Hw) as (b & -> & Hb). cbn [mbind res_bind].
  destruct b; cbn [negb]; [|by left]. destruct (proj1 Hb eq_refl) as [Hdest Hu]. destruct (Z.eqb_spec (p_code d) CODE_PADS) as [Ecode|]; [|by left].
  right. destruct (pads_parse c Hc Hw) as (next & ->). cbn [mbind res_bind].
  destruct (header_ok d) eqn:Eh; [|right; exists c; split; [done|split; [by constructor|done]]].
  destruct (pads_each (tags d) c Hc (small_tags d Hdb Eh)) as (_ & H1 & H2 & H3 & H4).
  assert (Hk : kept c (foldl pads_effect c (before_error (tags d)))).
  { constructor; [done|done| |done]. clear. generalize (before_error (tags d)) as l. intros l. revert c. induction l as [|x l IH]; intros c; [done|].
    cbn [foldl]. rewrite IH. unfold pads_effect. by case_match. }
  destruct (existsb is_error (tags d)) eqn:Eerr; [right; eexists; split; [done|by split]|].
  destruct (Z.ltb_spec (at_end (snd (tags_of (covered d))) next) 0) as [Hlt|Hge]; [right; eexists; split; [done|by split]|]. left.
  eexists. split; [|split; [exact Hk|by split]].
  split; [split; [done|split; [done|split; [done|naive_solver]]]|]. split; [done|]. split; [done|]. split; [done|].
  intros E. rewrite E in Hge. cbn in Hge. lia.
Qed.
End packet.
