(* ===== verification/PppoeSafe.v ===== *)
(** * PPPoE: what discovery can end in

    [discovery] compared with the calls it makes, for any network. *)

From stdpp Require Import base numbers gmap sets strings list.
From S2P Require Import Prelude Bytes Syscalls Pppoe PppoeDisc PppoeTags PppoeSend PppoeDiscProps.

(** What the manual pages promise besides: [ioctl] gives no positive number, descriptors
    fit into a set of [select], and there is nothing to send to on descriptor -1. *)
Class OsFd (os : Os) : Prop := {
  os_ioctl_result : ∀ t fd r n, rv (answer_to t (Ioctl fd r n)) ≤ 0;
  os_fd_small : ∀ t d ty p, rv (answer_to t (Socket d ty p)) < FD_SETSIZE;
  os_send_closed : ∀ t d, rv (answer_to t (Send (-1) d)) < 0 }.

(** ** Reading the calls *)

(** The frames that were sent. *)
Definition frames (u : trace) : list bytes := omap (λ e, match e with (Send _ d, _) => Some d | _ => None end) u.

Lemma frames_app u v : frames (u ++ v) = frames u ++ frames v.
Proof. unfold frames. apply omap_app. Qed.

(** A tag of an offer that was received. *)
Definition tag_offered (pid : Z) (c : PPPoEConnection) (u : trace) (x : tlv) : Prop :=
  ∃ fd n a, (Recv fd n, a) ∈ u ∧ is_pado pid c (delivered a) ∧ x ∈ tags (delivered a).

(** The names that are asked for were among these tags. *)
Definition named (P : tlv → Prop) (c : PPPoEConnection) : Prop :=
  (∀ v, acName c = Some v → P (TAG_AC_NAME, v)) ∧ (∀ v, serviceName c = Some v → P (TAG_SERVICE_NAME, v)).

(** What the flags mean. *)
Record criteria_ok (P : tlv → Prop) (pc : PacketCriteria) : Prop := {
  cr_ac : acNameOK pc = true → ∀ v, acName (pc_conn pc) = Some v → P (TAG_AC_NAME, v);
  cr_service : serviceNameOK pc = true → ∀ v, serviceName (pc_conn pc) = Some v → P (TAG_SERVICE_NAME, v) }.

Lemma criteria_mono P P' pc : criteria_ok P pc → (∀ x, P x → P' x) → criteria_ok P' pc.
Proof. intros [] H. constructor; eauto. Qed.

Lemma criteria_fold P pc ts : criteria_ok P pc → (∀ x, x ∈ ts → P x) → criteria_ok P (foldl pado_effect pc ts).
Proof.
  revert pc. induction ts as [|x ts IH]; intros pc Hpc Hts; [done|]. cbn [foldl]. apply IH; [|intros y Hy; apply Hts; by right].
  assert (Hx : P x) by (apply Hts; by left). destruct Hpc as [H1 H2]. destruct x as [ty v]. unfold pado_effect. cbn [fst snd].
  destruct (Z.eqb_spec ty TAG_AC_NAME) as [->|].
  { constructor; cbn; [|done]. intros [Hb|Hb]%orb_true_iff w Hw; [apply bool_decide_eq_true in Hb; rewrite Hb in Hw; by injection Hw as <-|auto]. }
  destruct (Z.eqb_spec ty TAG_SERVICE_NAME) as [->|].
  { constructor; cbn; [done|]. intros [Hb|Hb]%orb_true_iff w Hw; [apply bool_decide_eq_true in Hb; rewrite Hb in Hw; by injection Hw as <-|auto]. }
  by repeat case_match.
Qed.

Lemma is_pado_setup pid c c' d : same_setup c c' → is_pado pid c' d → is_pado pid c d.
Proof. intros [] ((? & ? & H & Hu) & ?). rewrite ss_my in H. rewrite ss_uniq in Hu. done. Qed.

Section safe.
Context `{Hos : Os} `{!OsOk Hos} `{!OsFd Hos} (pid : Z) (junk : trace → bytes).
Context (Hjunk : ∀ t, length (junk t) = PACKET_SIZE) (Hjb : ∀ t, is_bytes (junk t)).

Definition open_fd (fd : Z) : Prop := 0 ≤ fd < FD_SETSIZE.

(** ** Waiting *)

Lemma wait_readable_spec fuel fd tv t :
  upto fuel (wait_readable fuel fd tv) t (λ r u, frames u = [] ∧ (0 < r → (1 ≤ wakeups u)%nat)).
Proof.
  revert tv t. induction fuel as [|fuel IH]; intros tv t; cbn [wait_readable]; [apply upto_out|].
  apply upto_ask. cbv zeta. set (a := answer_to t (Select fd tv)).
  assert (Hu : ∀ u, frames ((Select fd tv, a) :: u) = frames u) by done.
  assert (Hw : ∀ u, wakeups ((Select fd tv, a) :: u) = ((if wakeup (Select fd tv, a) then 1 else 0) + wakeups u)%nat)
    by (intros u; unfold wakeups; cbn [List.filter]; by destruct (wakeup _)).
  destruct ((0 <=? rv a) || negb (errno a =? EINTR)) eqn:E.
  - apply upto_ret. rewrite Hu, Hw. split; [done|]. intros Hr. cbn [wakeup]. rewrite (proj2 (Z.eqb_neq _ _)) by lia. cbn. lia.
  - apply orb_false_iff in E as [E _]. apply Z.leb_gt in E.
    assert (wakeup (Select fd tv, a) = true) as -> by (cbn; by rewrite (proj2 (Z.eqb_neq _ _)) by lia).
    eapply upto_mono; [apply IH|done|]. intros r u _ [H1 H2]. rewrite Hu, Hw. split; [done|]. intros Hr. specialize (H2 Hr). lia.
Qed.

Lemma receivePacket_spec fuel fd packet t :
  length packet = PACKET_SIZE →
  upto fuel (receivePacket fd packet) t (λ '(e, p, len) u, ∃ a, u = [(Recv fd PACKET_SIZE, a)]
    ∧ (e = -1 ∨ e = 0 ∧ (length (delivered a) ≤ PACKET_SIZE)%nat ∧ is_bytes (delivered a)
         ∧ p = splice packet 0 (delivered a) ∧ len = Z.of_nat (length (delivered a)))).
Proof.
  intros Hp. unfold receivePacket. apply upto_ask. cbv zeta. cbn [wakeup].
  pose proof (os_recv t fd PACKET_SIZE) as Hrecv. cbv zeta in Hrecv. set (a := answer_to t (Recv fd PACKET_SIZE)) in *.
  destruct (Z.ltb_spec (rv a) 0) as [Ha|Ha]; [apply upto_ret; exists a; by split; [|left]|].
  destruct (Hrecv Ha) as (Hlen & Hle & Hby). eapply upto_lift; [apply write_at_Ok; by rewrite Hp|].
  apply upto_ret. exists a. split; [done|]. right. by rewrite Hlen.
Qed.

(** A turn up to the packet: an error, a timeout, or a packet in the buffer. *)
Lemma receive_spec fuel fd timeout packet {A} (fail timed : sys A) (k : bytes → Z → sys A) t Q :
  open_fd fd → length packet = PACKET_SIZE →
  (∀ f u t', frames u = [] → upto f fail t' (λ b v, Q b (u ++ v))) →
  (∀ f u t', frames u = [] → upto f timed t' (λ b v, Q b (u ++ v))) →
  (∀ u a t', frames u = [] → (length (delivered a) ≤ PACKET_SIZE)%nat → is_bytes (delivered a) →
     upto fuel (k (splice packet 0 (delivered a)) (Z.of_nat (length (delivered a)))) t'
       (λ b v, Q b ((u ++ [(Recv fd PACKET_SIZE, a)]) ++ v))) →
  upto (S fuel)
    (_ ← lift (FD_SET fd);
     r ← wait_readable (S fuel) fd timeout;
     if r <? 0 then fail
     else if r =? 0 then timed
     else
       '(e, packet, len) ← receivePacket fd packet;
       if e <? 0 then fail else k packet len) t Q.
Proof.
  intros Hfd Hp Hfail Htimed Hk. eapply upto_lift.
  { unfold FD_SET. unfold open_fd in Hfd. rewrite (proj2 (Z.leb_le _ _)), (proj2 (Z.ltb_lt _ _)) by lia. reflexivity. }
  eapply upto_bind; [apply wait_readable_spec|]. intros r u Hu [Hfr Hwk]. cbv beta.
  destruct (Z.ltb_spec r 0) as [Hr|Hr]; [by apply Hfail|]. destruct (Z.eqb_spec r 0) as [Hr0|Hr0]; [by apply Htimed|].
  specialize (Hwk ltac:(lia)). eapply upto_bind; [apply receivePacket_spec; done|].
  intros [[e p] len] v Hv (a & -> & He). cbv beta iota.
  assert (Hf : frames (u ++ [(Recv fd PACKET_SIZE, a)]) = []) by (by rewrite frames_app, Hfr).
  destruct He as [->|(-> & Hl & Hb & -> & ->)].
  - change (-1 <? 0) with true. cbn iota. eapply upto_mono; [apply (Hfail _ _ _ Hf)|done|]. intros b w _ H. by rewrite app_assoc.
  - change (0 <? 0) with false. cbn iota. eapply upto_mono; [apply (Hk u a _ Hfr Hl Hb)|cbn; lia|]. intros b w _ H. by rewrite app_assoc.
Qed.

(** ** The wait for an offer *)

(** The last of the calls brought the offer that was chosen. *)
Definition chose (P : tlv → Prop) (c c' : PPPoEConnection) (u : trace) : Prop :=
  ∃ u1 fd n a, u = u1 ++ [(Recv fd n, a)] ∧ is_pado pid c (delivered a) ∧ peerEth c' = h_source (delivered a)
  ∧ named (λ x, P x ∨ tag_offered pid c u x) c.

Definition pado_post (P : tlv → Prop) (c : PPPoEConnection) (x : Z * PPPoEConnection) (u : trace) : Prop :=
  let '(r, c') := x in
  frames u = [] ∧ conn_ok c' ∧ same_setup c c' ∧ session c' = session c
  ∧ (discoveryState c' = discoveryState c ∧ (r = 0 ∨ r = -1)
     ∨ discoveryState c' = STATE_RECEIVED_PADO ∧ r = 0 ∧ chose P c c' u).

Lemma offered_app pid' c u v x : tag_offered pid' c v x → tag_offered pid' c (u ++ v) x.
Proof. intros (fd & n & a & H & ?). exists fd, n, a. split; [|done]. apply elem_of_app. by right. Qed.
Lemma offered_app_l pid' c u v x : tag_offered pid' c u x → tag_offered pid' c (u ++ v) x.
Proof. intros (fd & n & a & H & ?). exists fd, n, a. split; [|done]. apply elem_of_app. by left. Qed.

Lemma pado_post_more P P' c c1 u x v :
  frames u = [] → same_setup c c1 → discoveryState c1 = discoveryState c → session c1 = session c →
  (∀ y, P' y → P y ∨ tag_offered pid c u y) → pado_post P' c1 x v → pado_post P c x (u ++ v).
Proof.
  intros Hu Hs Hst Hse HP. destruct x as [r c']. intros (H1 & H2 & H3 & H4 & H5). rewrite Hst in H5. split; [by rewrite frames_app, Hu|].
  split; [done|]. split; [by etransitivity|]. split; [by rewrite H4|]. destruct H5 as [|(H5 & H6 & (v1 & fd & n & a & -> & Ha & Hp & Hn))]; [by left|right].
  split; [done|]. split; [done|]. exists (u ++ v1), fd, n, a. rewrite <- app_assoc. split; [done|].
  assert (Hoff : ∀ y w, tag_offered pid c1 w y → tag_offered pid c w y).
  { intros y w (fd' & n' & a' & ? & Hpado & ?). exists fd', n', a'. split; [done|]. split; [by eapply is_pado_setup|done]. }
  split; [by eapply is_pado_setup|]. split; [done|]. destruct Hs. destruct Hn as [Hn1 Hn2].
  split; intros w Hw.
  - destruct (Hn1 w) as [HP'|Ho]; [congruence| |right; by apply offered_app, Hoff].
    destruct (HP _ HP') as [|Ho]; [by left|right; by apply offered_app_l].
  - destruct (Hn2 w) as [HP'|Ho]; [congruence| |right; by apply offered_app, Hoff].
    destruct (HP _ HP') as [|Ho]; [by left|right; by apply offered_app_l].
Qed.

Lemma pado_post_same P c r u : conn_ok c → frames u = [] → r = 0 ∨ r = -1 → pado_post P c (r, c) u.
Proof. intros Hc Hu Hr. split; [done|]. split; [done|]. split; [done|]. split; [done|]. by left. Qed.

Lemma pado_post_kept P c c' u : kept c c' → frames u = [] → pado_post P c (-1, c') u.
Proof. intros [] Hu. split; [done|]. split; [done|]. split; [done|]. split; [done|]. left. auto. Qed.

(** What an offer leads to. *)
Lemma offer_cases source pc : conn_ok (pc_conn pc) → eth_ok source →
  (∃ pc', offer_verdict source pc = (Continue, pc') ∧ kept (pc_conn pc) (pc_conn pc') ∧ ∀ P, criteria_ok P pc → criteria_ok P pc')
  ∨ (∃ pc', offer_verdict source pc = (Break, pc') ∧ acNameOK pc = true ∧ serviceNameOK pc = true
     ∧ peerEth (pc_conn pc') = source ∧ discoveryState (pc_conn pc') = STATE_RECEIVED_PADO
     ∧ same_setup (pc_conn pc) (pc_conn pc') ∧ session (pc_conn pc') = session (pc_conn pc) ∧ conn_ok (pc_conn pc')).
Proof.
  intros Hc He. unfold offer_verdict. cbn [acNameOK serviceNameOK with_conn].
  destruct (negb (seenACName pc)); [left; exists pc; split; [done|split; [by constructor|done]]|].
  destruct (negb (seenServiceName pc)); [left; exists pc; split; [done|split; [by constructor|done]]|].
  destruct (acNameOK pc) eqn:E1, (serviceNameOK pc) eqn:E2; cbn [andb];
    try (left; eexists; split; [done|]; split; [constructor; [by destruct Hc|by constructor|done..]|]; intros P []; by constructor).
  right. eexists. split; [done|]. do 4 (split; [done|]). split; [by constructor|]. split; [done|]. by destruct Hc.
Qed.

Lemma source_ok d : whole d → is_bytes d → eth_ok (h_source d).
Proof.
  intros [H _] Hb. split; [|by apply is_bytes_slice]. apply length_slice. unfold P_source, ETH_ALEN. lia.
Qed.

Lemma pado_loop_spec fuel timeout packet pc P t :
  conn_ok (pc_conn pc) → open_fd (discoverySocket (pc_conn pc)) → length packet = PACKET_SIZE → is_bytes packet →
  criteria_ok P pc → discoveryState (pc_conn pc) ≠ STATE_RECEIVED_PADO →
  upto fuel (pado_loop pid fuel timeout packet pc) t (pado_post P (pc_conn pc)).
Proof.
  revert packet pc P t. induction fuel as [|fuel IH]; intros packet pc P t Hc Hfd Hp Hpb Hcr Hst; cbn [pado_loop]; [apply upto_out|].
  refine (receive_spec fuel _ timeout packet (mret (-1, pc_conn pc)) (mret (0, pc_conn pc)) _ t _ Hfd Hp _ _ _).
  - intros f u t' Hu. apply upto_ret. rewrite app_nil_r. apply pado_post_same; auto.
  - intros f u t' Hu. apply upto_ret. rewrite app_nil_r. apply pado_post_same; auto.
  - intros u a t' Hu Hl Hb. set (fd := discoverySocket (pc_conn pc)). set (d := delivered a) in *. cbv beta iota.
    set (v := u ++ [(Recv fd PACKET_SIZE, a)]).
    assert (Hv : frames v = []) by (subst v; by rewrite frames_app, Hu).
    assert (Hp' : length (splice packet 0 d) = PACKET_SIZE) by (rewrite length_splice; [done|by rewrite Hp]).
    assert (Hpb' : is_bytes (splice packet 0 d)) by (by apply is_bytes_splice).
    destruct (pado_packet_spec pid packet d Hp Hpb Hl Hb pc Hc) as [E|[(Ho & Hk & E)|(pc' & E & Hk)]]; (eapply upto_lift; [exact E|]).
    + cbv beta iota. rewrite decide_False by done. eapply upto_mono; [by apply (IH _ _ P)|done|]. intros x w _ Hx.
      eapply (pado_post_more P P); try done. auto.
    + set (pc1 := foldl pado_effect pc (tags d)) in *. destruct Hk as [Hk1 Hk2 Hk3 Hk4].
      assert (Hcr1 : criteria_ok (λ y, P y ∨ y ∈ tags d) pc1) by (apply criteria_fold; [eapply criteria_mono; [exact Hcr|]; auto|auto]).
      assert (Hw : whole d) by apply Ho.
      assert (Hoff : ∀ y, P y ∨ y ∈ tags d → P y ∨ tag_offered pid (pc_conn pc) v y).
      { intros y [|Hy]; [by left|right]. exists fd, PACKET_SIZE, a. split; [subst v; set_solver|done]. }
      destruct (offer_cases (h_source d) pc1 Hk1 (source_ok d Hw Hb)) as [(pc2 & -> & [K1 K2 K3 K4] & Hcr2)|(pc2 & -> & A1 & A2 & A3 & A4 & A5 & A6 & A7)]; cbv beta iota.
      * rewrite decide_False by congruence. eapply upto_mono; [apply (IH _ pc2 (λ y, P y ∨ y ∈ tags d)); try done|done|].
        { by rewrite (ss_dsock _ _ K2), (ss_dsock _ _ Hk2). }
        { by apply Hcr2. }
        { congruence. }
        intros x w _ Hx. eapply pado_post_more; [done|by etransitivity|congruence|congruence|exact Hoff|exact Hx].
      * apply upto_ret. rewrite app_nil_r. split; [done|]. split; [done|]. split; [by etransitivity|]. split; [congruence|]. right.
        split; [done|]. split; [done|]. exists u, fd, PACKET_SIZE, a. split; [done|]. split; [done|]. split; [done|].
        destruct Hcr1 as [C1 C2]. split; intros w Hw'; apply Hoff.
        { apply C1; [done|]. by rewrite (ss_ac _ _ Hk2). }
        { apply C2; [done|]. by rewrite (ss_service _ _ Hk2). }
    + apply upto_ret. rewrite app_nil_r. by apply pado_post_kept.
Qed.

Lemma waitForPADO_spec fuel timeout c t :
  conn_ok c → open_fd (discoverySocket c) → discoveryState c ≠ STATE_RECEIVED_PADO →
  upto fuel (waitForPADO pid junk fuel c timeout) t (pado_post (λ _, False) c).
Proof.
  intros Hc Hfd Hst. refine (pado_loop_spec fuel timeout (junk t) (init_criteria c) (λ _, False) t Hc Hfd (Hjunk t) (Hjb t) _ Hst).
  constructor; cbn; by case_match.
Qed.

(** ** The wait for the confirmation *)

Definition pads_post (c : PPPoEConnection) (x : Z * PPPoEConnection) (u : trace) : Prop :=
  let '(r, c') := x in
  frames u = [] ∧ conn_ok c' ∧ same_setup c c' ∧ peerEth c' = peerEth c
  ∧ (discoveryState c' = discoveryState c ∧ session c' = session c ∧ (r = 0 ∨ r = -1)
     ∨ discoveryState c' = STATE_SESSION ∧ r = 0 ∧ ∃ u1 fd n a,
         u = u1 ++ [(Recv fd n, a)] ∧ is_pads pid c (delivered a) ∧ session c' = p_session (delivered a)).

Lemma pads_peer l c : peerEth (foldl pads_effect c l) = peerEth c.
Proof. revert c. induction l as [|x l IH]; intros c; [done|]. cbn [foldl]. rewrite IH. unfold pads_effect. by case_match. Qed.

Lemma with_session_ok c v : conn_ok c → 0 ≤ v < 65536 → conn_ok (with_session c v).
Proof. intros [] Hv. by constructor. Qed.

Lemma pads_loop_spec fuel timeout packet c t :
  conn_ok c → open_fd (discoverySocket c) → length packet = PACKET_SIZE → is_bytes packet →
  discoveryState c ≠ STATE_SESSION →
  upto fuel (pads_loop pid fuel timeout packet c) t (pads_post c).
Proof.
  revert packet t. induction fuel as [|fuel IH]; intros packet t Hc Hfd Hp Hpb Hst; cbn [pads_loop]; [apply upto_out|].
  assert (Hsame : ∀ r u, frames u = [] → r = 0 ∨ r = -1 → pads_post c (r, c) (u ++ [])).
  { intros r u Hu Hr. rewrite app_nil_r. repeat (split; [done|]). by left. }
  refine (receive_spec fuel _ timeout packet (mret (-1, c)) (mret (0, c)) _ t _ Hfd Hp _ _ _).
  - intros f u t' Hu. apply upto_ret, Hsame; auto.
  - intros f u t' Hu. apply upto_ret, Hsame; auto.
  - intros u a t' Hu Hl Hb. set (fd := discoverySocket c). set (d := delivered a) in *. cbv beta iota.
    assert (Hv : frames (u ++ [(Recv fd PACKET_SIZE, a)]) = []) by (by rewrite frames_app, Hu).
    assert (Hp' : length (splice packet 0 d) = PACKET_SIZE) by (rewrite length_splice; [done|by rewrite Hp]).
    assert (Hpb' : is_bytes (splice packet 0 d)) by (by apply is_bytes_splice).
    destruct (pads_packet_spec pid packet d Hp Hpb Hl Hb c Hc) as [E|[(c' & Ho & [K1 K2 K3 K4] & Kp & E)|(c' & E & [K1 K2 K3 K4] & Kp)]]; (eapply upto_lift; [exact E|]); cbv beta iota.
    + rewrite decide_False by done. eapply upto_mono; [by apply IH|done|]. intros [r c'] w _ (H1 & H2 & H3 & H4 & H5).
      split; [by rewrite frames_app, Hv|]. do 3 (split; [done|]). destruct H5 as [|(H5 & H6 & (w1 & f & n & b & -> & H7))]; [by left|right].
      split; [done|]. split; [done|]. exists ((u ++ [(Recv fd PACKET_SIZE, a)]) ++ w1), f, n, b. split; [by rewrite app_assoc|exact H7].
    + apply upto_ret. rewrite app_nil_r.
      assert (Ho' := Ho). destruct Ho' as ((Hw & _) & _). destruct (received_whole packet d Hp Hl Hb Hw) as (_ & _ & _ & Ese & _).
      split; [done|]. split.
      { apply with_session_ok; [by destruct K1|]. by apply get16_range. }
      split; [by destruct K2; constructor|]. split; [done|]. right. split; [done|]. split; [done|].
      exists u, fd, PACKET_SIZE, a. done.
    + apply upto_ret. rewrite app_nil_r. split; [done|]. split; [done|]. split; [done|]. split; [done|]. left. auto.
Qed.

Lemma waitForPADS_spec fuel timeout c t :
  conn_ok c → open_fd (discoverySocket c) → discoveryState c ≠ STATE_SESSION →
  upto fuel (waitForPADS pid junk fuel c timeout) t (pads_post c).
Proof. intros Hc Hfd Hst. by apply (pads_loop_spec fuel timeout (junk t) c t Hc Hfd (Hjunk t) (Hjb t)). Qed.

(** ** The interface *)

Definition opened_as (hw : bytes) (x : Z * bytes) (u : trace) : Prop :=
  frames u = [] ∧ (fst x = -1 ∨ open_fd (fst x)) ∧ (eth_ok hw → eth_ok (snd x)).

(** A call that sends no frame in front. *)
Lemma opened_call {A} fuel (c : call) (k : reply → sys A) t (Q : A → trace → Prop) :
  (∀ a, wakeup (c, a) = false) →
  (∀ a, a = answer_to t c → upto fuel (k a) (t ++ [(c, a)]) (λ x u, Q x ((c, a) :: u))) → upto fuel (ask c ≫= k) t Q.
Proof. intros Hw H. apply upto_ask. cbv zeta. rewrite Hw. by apply H. Qed.

Lemma opened_fail fuel fd hw hw' t u :
  frames u = [] → (eth_ok hw → eth_ok hw') →
  upto fuel (r ← close_fail fd; mret (r, hw')) t (λ x v, opened_as hw x (u ++ v)).
Proof.
  intros Hu He. unfold close_fail. apply (upto_ask fuel (Close fd) (λ _, mret (-1, hw'))). cbv zeta. cbn [wakeup].
  apply upto_ret. split; [by rewrite frames_app, Hu|]. split; [by left|done].
Qed.

Lemma openInterface_spec fuel ifname type hw t : upto fuel (openInterface ifname type hw) t (opened_as hw).
Proof.
  unfold openInterface. apply opened_call; [done|]. intros a Ea. destruct (Z.ltb_spec (rv a) 0) as [Hneg|Hpos].
  { apply upto_ret. split; [done|]. split; [by left|done]. }
  assert (Hfd : open_fd (rv a)) by (split; [done|rewrite Ea; apply os_fd_small]).
  apply opened_call; [done|]. intros b _. destruct (rv b <? 0); [by apply (opened_fail _ _ _ _ _ [_; _])|].
  apply opened_call; [done|]. intros m Em. destruct (Z.ltb_spec (rv m) 0) as [Hm|Hm]; [by apply (opened_fail _ _ _ _ _ [_; _; _])|].
  assert (He : eth_ok (slice (delivered m) 2 ETH_ALEN)).
  { match type of Em with _ = answer_to ?t' (Ioctl ?f ?r ?n) => pose proof (os_ioctl t' f r n) as Hio; pose proof (os_ioctl_result t' f r n) as Hle end.
    cbv zeta in Hio. rewrite <- Em in Hio, Hle. destruct Hio as [Hl Hb]; [lia|].
    split; [apply length_slice; rewrite Hl; unfold ETH_ALEN; lia|by apply is_bytes_slice]. }
  destruct (negb _); [by apply (opened_fail _ _ _ _ _ [_; _; _])|].
  destruct (NOT_UNICAST _); [by apply (opened_fail _ _ _ _ _ [_; _; _])|].
  apply opened_call; [done|]. intros m2 _. destruct (rv m2 <? 0); [by apply (opened_fail _ _ _ _ _ [_; _; _; _])|].
  destruct (_ <? ETH_DATA_LEN); [by apply (opened_fail _ _ _ _ _ [_; _; _; _])|].
  apply opened_call; [done|]. intros m3 _. destruct (rv m3 <? 0); [by apply (opened_fail _ _ _ _ _ [_; _; _; _; _])|].
  apply opened_call; [done|]. intros m4 _. destruct (rv m4 <? 0); [by apply (opened_fail _ _ _ _ _ [_; _; _; _; _; _])|].
  apply upto_ret. split; [done|]. split; [by right|done].
Qed.

(** ** The attempts *)

Lemma sends_upto fuel (m : sys Z) c f t :
  m t = sends c f t → upto fuel m t (λ r u, frames u = [f] ∧ (discoverySocket c = -1 → r = -1) ∧ (r = 0 ∨ r = -1)).
Proof.
  intros E. unfold upto. rewrite E. unfold sends. set (a := answer_to t _).
  exists [(Send (discoverySocket c) f, a)]. split; [split; [done|]; constructor; constructor|]. split; [done|].
  split; [|by case_match; auto]. intros Hfd. subst a. rewrite Hfd. by rewrite (proj2 (Z.ltb_lt _ _)) by apply os_send_closed.
Qed.

Definition usable (c : PPPoEConnection) : Prop := discoverySocket c = -1 ∨ open_fd (discoverySocket c).

Lemma with_state_ok c v : conn_ok c → conn_ok (with_state c v).
Proof. intros []. by constructor. Qed.

Definition offers_post (n : nat) (c : PPPoEConnection) (x : Z * PPPoEConnection) (u : trace) : Prop :=
  let '(r, c') := x in
  conn_ok c' ∧ same_setup c c' ∧ session c' = session c
  ∧ (∃ k, (k ≤ n)%nat ∧ frames u = replicate k (padi_frame pid c))
  ∧ (r = -1 ∨ r = 0 ∧ discoveryState c' = STATE_RECEIVED_PADO ∧ open_fd (discoverySocket c) ∧ chose (λ _, False) c c' u).

Lemma padi_frame_setup c c' : same_setup c c' → padi_frame pid c' = padi_frame pid c.
Proof. intros []. unfold padi_frame, padi_tags, service_tlv, uniq_tlv. by rewrite ss_my, ss_service, ss_uniq. Qed.

Lemma chose_more c c1 c' u v : same_setup c c1 → chose (λ _, False) c1 c' v → chose (λ _, False) c c' (u ++ v).
Proof.
  intros Hs (v1 & fd & n & a & -> & Ha & Hp & Hn1 & Hn2). exists (u ++ v1), fd, n, a. split; [by rewrite app_assoc|].
  split; [by eapply is_pado_setup|]. split; [done|].
  assert (Hoff : ∀ y, False ∨ tag_offered pid c1 (v1 ++ [(Recv fd n, a)]) y → False ∨ tag_offered pid c (u ++ v1 ++ [(Recv fd n, a)]) y).
  { intros y [[]|(fd' & n' & a' & ? & Hpado & ?)]. right. apply offered_app. exists fd', n', a'. split; [done|]. split; [by eapply is_pado_setup|done]. }
  destruct Hs. split; intros w Hw; apply Hoff; [apply Hn1|apply Hn2]; congruence.
Qed.

Lemma padi_attempts_spec n fuel c timeout t :
  conn_ok c → usable c → upto fuel (padi_attempts pid junk n fuel c timeout) t (offers_post n c).
Proof.
  revert c timeout t. induction n as [|n IH]; intros c timeout t Hc Hfd; cbn [padi_attempts].
  { apply upto_ret. split; [done|]. split; [done|]. split; [done|]. split; [by exists 0%nat|by left]. }
  eapply upto_bind; [apply (sends_upto fuel), sendPADI_spec; done|]. intros r u Hu (Hf & Hbad & Hr).
  assert (Hone : ∀ x, ∃ k, (k ≤ S n)%nat ∧ frames (u ++ x) = replicate k (padi_frame pid c) ++ frames x).
  { intros x. exists 1%nat. split; [lia|]. by rewrite frames_app, Hf. }
  destruct (Z.ltb_spec r 0) as [Hneg|Hpos].
  { apply upto_ret. split; [done|]. split; [done|]. split; [done|]. split; [|by left].
    destruct (Hone []) as (k & Hk & E). exists k. split; [done|]. by rewrite E, app_nil_r. }
  destruct Hfd as [Hfd|Hfd]; [specialize (Hbad Hfd); lia|].
  eapply upto_bind; [eapply (upto_mono fuel); [apply (waitForPADO_spec fuel timeout (with_state c STATE_SENT_PADI)); [by apply with_state_ok|done|done]|lia|intros x v _ H; exact H]|].
  intros [r1 c1] v Hv (H1 & H2 & H3 & H4 & H5). cbv beta iota. change (session (with_state c STATE_SENT_PADI)) with (session c) in H4.
  assert (Hs : same_setup c c1) by (etransitivity; [|exact H3]; by constructor).
  destruct (Z.ltb_spec r1 0) as [Hneg1|Hpos1].
  { apply upto_ret. rewrite app_nil_r. split; [done|]. split; [done|]. split; [done|]. split; [|by left].
    exists 1%nat. split; [lia|]. by rewrite frames_app, Hf, H1. }
  destruct H5 as [[H5 Hr1]|(H5 & Hr1 & Hch)].
  - rewrite decide_True by done. eapply upto_mono; [apply (IH c1)|lia|].
    { done. } { right. by rewrite (ss_dsock _ _ Hs). }
    intros [r2 c2] w _ (W1 & W2 & W3 & (k & Hk & Ek) & W5). split; [done|]. split; [by etransitivity|]. split; [congruence|].
    split. { exists (S k). split; [lia|]. rewrite !frames_app, Hf, H1, Ek. cbn [replicate app]. by rewrite (padi_frame_setup _ _ Hs). }
    destruct W5 as [|(W5 & W6 & W7 & W8)]; [by left|right]. split; [done|]. split; [done|]. split; [done|]. rewrite app_assoc. by eapply chose_more.
  - rewrite decide_False by (by rewrite H5). apply upto_ret. rewrite app_nil_r. split; [done|]. split; [done|]. split; [done|].
    split. { exists 1%nat. split; [lia|]. by rewrite frames_app, Hf, H1. }
    right. split; [done|]. split; [done|]. split; [done|]. eapply chose_more; [|exact Hch]. by constructor.
Qed.

(** A PADR of a connection like this one, to this peer. *)
Definition request_of (c : PPPoEConnection) (f : bytes) : Prop :=
  ∃ cx, conn_ok cx ∧ same_setup c cx ∧ peerEth cx = peerEth c ∧ f = padr_frame pid cx.

Definition confirmed (c c' : PPPoEConnection) (u : trace) : Prop :=
  ∃ u1 fd n a, u = u1 ++ [(Recv fd n, a)] ∧ frames u1 ≠ [] ∧ is_pads pid c (delivered a) ∧ session c' = p_session (delivered a).

Definition requests_post (n : nat) (c : PPPoEConnection) (x : Z * PPPoEConnection) (u : trace) : Prop :=
  let '(r, c') := x in
  conn_ok c' ∧ same_setup c c' ∧ peerEth c' = peerEth c
  ∧ (length (frames u) ≤ n)%nat ∧ Forall (request_of c) (frames u)
  ∧ (r = -1 ∧ session c' = session c ∨ r = 0 ∧ discoveryState c' = STATE_SESSION ∧ confirmed c c' u).

Lemma is_pads_setup c c' d : same_setup c c' → peerEth c' = peerEth c → is_pads pid c' d → is_pads pid c d.
Proof. intros [] Hp ((? & ? & H & Hu) & Hcode & Hsrc & Hr). rewrite ss_my in H. rewrite ss_uniq in Hu. rewrite Hp in Hsrc. done. Qed.

Lemma padr_attempts_spec n fuel c timeout t :
  conn_ok c → open_fd (discoverySocket c) → session c = 0 →
  upto fuel (padr_attempts pid junk n fuel c timeout) t (requests_post n c).
Proof.
  revert c timeout t. induction n as [|n IH]; intros c timeout t Hc Hfd Hse; cbn [padr_attempts].
  { apply (upto_done _ _ _ (-1, c)); [|split; [done|]; split; [done|]; split; [done|]; split; [cbn; lia|]; split; [constructor|by left]].
    unfold mbind, sys_bind. rewrite sendPADT_spec by (try done; vm_compute; lia). unfold sent_PADT. by rewrite Hse. }
  assert (Hreq : ∀ cx, conn_ok cx → same_setup c cx → peerEth cx = peerEth c → request_of c (padr_frame pid cx)) by (intros cx ? ? ?; by exists cx).
  pose proof (sendPADR_spec pid junk Hjunk c t Hc) as Epadr. destruct (decide (fits (padr_tags pid c))) as [Hfit|Hfit].
  2: { apply (upto_done _ _ _ (-1, c)); [unfold mbind, sys_bind; by rewrite Epadr|].
       split; [done|]. split; [done|]. split; [done|]. split; [cbn; lia|]. split; [constructor|by left]. }
  eapply upto_bind; [apply (sends_upto fuel); exact Epadr|]. intros r u Hu (Hf & Hbad & Hr).
  destruct (Z.ltb_spec r 0) as [Hneg|Hpos].
  { apply upto_ret. rewrite app_nil_r. split; [done|]. split; [done|]. split; [done|]. rewrite Hf. split; [cbn; lia|].
    split; [|by left]. constructor; [by apply Hreq|constructor]. }
  eapply upto_bind; [eapply (upto_mono fuel); [apply (waitForPADS_spec fuel timeout (with_state c STATE_SENT_PADR)); [by apply with_state_ok|done|done]|lia|intros x v _ H; exact H]|].
  intros [r1 c1] v Hv (H1 & H2 & H3 & H4 & H5). cbv beta iota. change (peerEth (with_state c STATE_SENT_PADR)) with (peerEth c) in H4.
  change (session (with_state c STATE_SENT_PADR)) with (session c) in H5.
  assert (Hs : same_setup c c1) by (etransitivity; [|exact H3]; by constructor).
  assert (Hfv : frames (u ++ v) = [padr_frame pid c]) by (by rewrite frames_app, Hf, H1).
  destruct (Z.ltb_spec r1 0) as [Hneg1|Hpos1].
  { apply upto_ret. rewrite app_nil_r. split; [done|]. split; [done|]. split; [done|]. rewrite Hfv. split; [cbn; lia|].
    split; [constructor; [by apply Hreq|constructor]|]. left. split; [done|]. destruct H5 as [(_ & H5 & _)|(_ & ? & _)]; [done|lia]. }
  destruct H5 as [(H5 & Hse1 & Hr1)|(H5 & Hr1 & (v1 & fd & m & a & -> & Hpads & Hsess))].
  - rewrite decide_True by done. eapply upto_mono; [apply (IH c1)|lia|].
    { done. } { by rewrite (ss_dsock _ _ Hs). } { by rewrite Hse1. }
    intros [r2 c2] w _ (W1 & W2 & W3 & W4 & W5 & W6). split; [done|]. split; [by etransitivity|]. split; [congruence|].
    rewrite app_assoc, frames_app, Hfv. cbn [app length]. split; [lia|]. split.
    { constructor; [by apply Hreq|]. eapply Forall_impl; [exact W5|]. intros f (cx & X1 & X2 & X3 & ->). apply Hreq; [done|by etransitivity|congruence]. }
    destruct W6 as [[-> W6]|(-> & W6 & (w1 & fd & m & a & -> & Hne & Hpads & Hsess))]; [left; split; [done|congruence]|right].
    split; [done|]. split; [done|]. exists ((u ++ v) ++ w1), fd, m, a. split; [by rewrite app_assoc|].
    split; [rewrite frames_app, Hfv; done|]. split; [by eapply is_pads_setup|done].
  - rewrite decide_False by (by rewrite H5). apply upto_ret. rewrite app_nil_r. split; [done|]. split; [done|]. split; [done|].
    rewrite Hfv. split; [cbn; lia|]. split; [constructor; [by apply Hreq|constructor]|]. right. split; [done|]. split; [done|].
    exists (u ++ v1), fd, m, a. split; [by rewrite app_assoc|]. split; [rewrite frames_app, Hf; done|]. split; [|done].
    eapply is_pads_setup; [| |exact Hpads]; by try constructor.
Qed.
(** ** Discovery *)

#[global] Instance same_setup_sym : Symmetric same_setup.
Proof. intros a b []. constructor; congruence. Qed.

(** The calls brought an offer, after which a request was sent, and then its confirmation. *)
Definition established (c c' : PPPoEConnection) (u : trace) : Prop :=
  ∃ u1 f1 n1 a1 u2 f2 n2 a2,
    u = u1 ++ (Recv f1 n1, a1) :: u2 ++ [(Recv f2 n2, a2)]
    ∧ is_pado pid c (delivered a1) ∧ peerEth c' = h_source (delivered a1)
    ∧ named (tag_offered pid c (u1 ++ [(Recv f1 n1, a1)])) c
    ∧ frames u2 ≠ [] ∧ is_pads pid c' (delivered a2) ∧ session c' = p_session (delivered a2).

Definition discovery_post (c0 : PPPoEConnection) (x : Z * PPPoEConnection) (u : trace) : Prop :=
  let '(r, c') := x in
  ∃ fd hw, let c := with_discoverySocket c0 fd hw in
  conn_ok c' ∧ same_setup c c'
  ∧ (∃ k requests, frames u = replicate k (padi_frame pid c) ++ requests ∧ (k ≤ 2)%nat ∧ (length requests ≤ 2)%nat
     ∧ Forall (request_of c') requests)
  ∧ (r = -1 ∧ session c' = 0 ∨ r = 0 ∧ discoveryState c' = STATE_SESSION ∧ established c c' u).

Lemma offered_setup c c' u x : same_setup c c' → tag_offered pid c u x → tag_offered pid c' u x.
Proof. intros Hs (fd & n & a & ? & H & ?). exists fd, n, a. split; [done|]. split; [by eapply is_pado_setup; [symmetry|]|done]. Qed.

Lemma request_of_peer c c' f : same_setup c c' → peerEth c' = peerEth c → request_of c f → request_of c' f.
Proof. intros Hs Hp (cx & H1 & H2 & H3 & ->). exists cx. split; [done|]. split; [by etransitivity; [symmetry|]|]. split; [congruence|done]. Qed.

Lemma discovery_upto fuel c0 t :
  conn_ok c0 → session c0 = 0 → upto fuel (discovery pid junk fuel c0) t (discovery_post c0).
Proof.
  intros Hc Hse. unfold discovery. eapply upto_bind; [apply (openInterface_spec fuel)|].
  intros [fd hw] u Hu (Hf & Hfd & Heth). cbv beta iota. set (c := with_discoverySocket c0 fd hw). cbn [fst snd] in Hfd, Heth.
  assert (Hcc : conn_ok c) by (destruct Hc; constructor; try done; by apply Heth).
  eapply upto_bind; [eapply (upto_mono fuel); [apply (padi_attempts_spec 2 fuel c PADI_TIMEOUT); done|lia|intros x v _ H; exact H]|].
  intros [r1 c1] v Hv (H1 & H2 & H3 & (k & Hk & Ek) & H5). cbv beta iota. change (session c) with (session c0) in H3.
  destruct (Z.ltb_spec r1 0) as [Hneg|Hpos].
  { apply upto_ret. rewrite app_nil_r. exists fd, hw. fold c. split; [done|]. split; [done|]. split.
    - exists k, []. rewrite app_nil_r, frames_app, Hf. split; [done|]. split; [done|]. split; [cbn; lia|constructor].
    - left. split; [done|congruence]. }
  destruct H5 as [|(Hr1 & Hst & Hopen & (v1 & f1 & n1 & a1 & -> & Hpado & Hpeer & Hnames))]; [lia|].
  eapply upto_bind; [eapply (upto_mono fuel); [apply (padr_attempts_spec 2 fuel c1 PADI_TIMEOUT)|lia|intros x w _ H; exact H]|].
  { done. } { by rewrite (ss_dsock _ _ H2). } { congruence. }
  intros [r2 c2] w Hw (W1 & W2 & W3 & W4 & W5 & W6). cbv beta iota.
  assert (Hframes : frames (u ++ (v1 ++ [(Recv f1 n1, a1)]) ++ w) = replicate k (padi_frame pid c) ++ frames w).
  { rewrite frames_app, Hf. cbn [app]. rewrite frames_app. by f_equal. }
  assert (Hreqs : Forall (request_of c2) (frames w)).
  { eapply Forall_impl; [exact W5|]. intros f. by apply request_of_peer. }
  destruct (Z.ltb_spec r2 0) as [Hneg2|Hpos2].
  { apply upto_ret. rewrite app_nil_r. exists fd, hw. fold c. split; [done|]. split; [by etransitivity|]. split.
    - exists k, (frames w). split; [by rewrite <- Hframes, <- !app_assoc|]. done.
    - left. split; [done|]. destruct W6 as [[_ W6]|(? & _)]; [congruence|lia]. }
  destruct W6 as [[? _]|(Hr2 & Hst2 & (w1 & f2 & n2 & a2 & -> & Hne & Hpads & Hsess))]; [lia|].
  apply upto_ret. rewrite app_nil_r. exists fd, hw. fold c. split; [by apply with_state_ok|].
  split; [etransitivity; [exact H2|]; etransitivity; [exact W2|]; by constructor|]. split.
  { exists k, (frames (w1 ++ [(Recv f2 n2, a2)])). split; [by rewrite <- Hframes, <- !app_assoc|]. split; [done|]. split; [done|].
    eapply Forall_impl; [exact Hreqs|]. intros f. by apply request_of_peer. }
  right. split; [done|]. split; [done|]. exists (u ++ v1), f1, n1, a1, w1, f2, n2, a2.
  split; [by rewrite <- !app_assoc|]. split; [done|]. split; [cbn; congruence|]. split.
  { destruct Hnames as [N1 N2]. split; intros y Hy; rewrite <- app_assoc; apply offered_app; [destruct (N1 y Hy) as [[]|]|destruct (N2 y Hy) as [[]|]]; done. }
  split; [done|]. split; [|done]. eapply (is_pads_setup (with_state c2 STATE_SESSION) c1); [|cbn; congruence|exact Hpads].
  symmetry. etransitivity; [exact W2|]. by constructor.
Qed.
End safe.

(** C4: what discovery can end in.  On any network and any operating system that keeps its
    promises, [discovery] never goes wrong.  It sends at most two PADIs and then at most
    two PADRs, all to the peer it has chosen.  It returns -1, with no session, or 0 in the session state; and
    then it received a PADO addressed to this end, by its Host-Uniq tag if that is used,
    from the unicast address that is the peer now, without error tags; the names that are
    asked for were among the tags of the offers; after it a PADR was sent; and then a PADS
    from this peer for this end came, without error tags, whose session is the
    session.  For any bound, it ends within this number of wake-ups of each wait, or has been woken
    so often. *)
Theorem discovery_safe `{Hos : Os} `{!OsOk Hos} `{!OsFd Hos} (pid : Z) (junk : trace → bytes) fuel c t
    (Hj : ∀ t, length (junk t) = PACKET_SIZE ∧ is_bytes (junk t)) (Hc : conn_ok c) (Hs : session c = 0) :
  upto fuel (discovery pid junk fuel c) t (discovery_post pid c).
Proof. apply discovery_upto; [intros t'; by apply Hj..|done|done]. Qed.
