(* ===== verification/PppoeHandshake.v ===== *)
(** * PPPoE: discovery and an access concentrator

    A concentrator as RFC 2516 describes it, and a network that delivers: discovery finds
    it with one PADI and one PADR. *)

From stdpp Require Import base numbers gmap sets strings list.
From S2P Require Import Prelude Bytes Syscalls Pppoe PppoeDisc PppoeTags PppoeSend PppoeDiscProps PppoeSafe.

(** ** The concentrator *)

Record concentrator := mk_ac { ac_eth : bytes; ac_name : bytes; ac_cookie : bytes; ac_session : Z }.

(** The tags that are returned as they came. *)
Definition echoed (x : tlv) : bool := (fst x =? TAG_SERVICE_NAME) || (fst x =? TAG_HOST_UNIQ).
Definition echo_tags (ts : list tlv) : list tlv := List.filter echoed ts.

Definition offer_tags (ac : concentrator) (ts : list tlv) : list tlv :=
  (TAG_AC_NAME, ac_name ac) :: echo_tags ts ++ [(TAG_AC_COOKIE, ac_cookie ac)].

(** It offers its service to everybody, and opens the session for those who send to it and bring
    its cookie back. *)
Definition respond (ac : concentrator) (f : bytes) : option bytes :=
  if negb (header_ok f) then None
  else if p_code f =? CODE_PADI then
    Some (disc_frame (h_source f) (ac_eth ac) CODE_PADO 0 (offer_tags ac (tags f)))
  else if (p_code f =? CODE_PADR) && bool_decide (h_dest f = ac_eth ac) && bool_decide ((TAG_AC_COOKIE, ac_cookie ac) ∈ tags f) then
    Some (disc_frame (h_source f) (ac_eth ac) CODE_PADS (ac_session ac) (echo_tags (tags f)))
  else None.

Record ac_ok (ac : concentrator) : Prop := {
  ac_eth_ok : eth_ok (ac_eth ac); ac_unicast : NOT_UNICAST (ac_eth ac) = false;
  ac_name_ok : is_bytes (ac_name ac) ∧ (length (ac_name ac) < 256)%nat;
  ac_cookie_ok : is_bytes (ac_cookie ac) ∧ (length (ac_cookie ac) ≤ 1000)%nat;
  ac_session_ok : 0 ≤ ac_session ac < 65536 }.

(** Frames are sent; the answer to one is there at once, and received. *)
Class Delivers (os : Os) (ac : concentrator) : Prop := {
  net_send : ∀ t fd f, 0 ≤ fd → 0 ≤ rv (answer_to t (Send fd f));
  net_select : ∀ t fd f a s g, respond ac f = Some g → 0 < rv (answer_to (t ++ [(Send fd f, a)]) (Select fd s));
  net_recv : ∀ t fd f a s b g, respond ac f = Some g →
    let r := answer_to ((t ++ [(Send fd f, a)]) ++ [(Select fd s, b)]) (Recv fd PACKET_SIZE) in
    delivered r = g ∧ rv r = Z.of_nat (length g) }.

(** ** Frames as datagrams *)

Lemma frame_datagram dest source code session ts :
  eth_ok dest → eth_ok source → is_u8 code → 0 ≤ session < 65536 → Forall tlv_ok ts → fits ts →
  let d := disc_frame dest source code session ts in
  whole d ∧ is_bytes d ∧ (length d ≤ PACKET_SIZE)%nat ∧ header_ok d = true ∧ h_dest d = dest ∧ h_source d = source
  ∧ p_code d = code ∧ p_session d = session ∧ tags_of (covered d) = (ts, Complete).
Proof.
  intros Hd Hs Hc Hse Hts Hf d.
  assert (Hlen : length d = (20 + length (enc_tags ts))%nat).
  { unfold d, disc_frame. rewrite !length_app, length_disc_header, length_be_bytes by done. lia. }
  assert (Hmax : (length d ≤ PACKET_SIZE)%nat) by (unfold fits, MAX_PPPOE_PAYLOAD, ETH_DATA_LEN, PPPOE_OVERHEAD, PACKET_SIZE in *; lia).
  assert (Hb : is_bytes d).
  { unfold d, disc_frame, disc_header. destruct Hd as [_ Hd], Hs as [_ Hs]. unfold is_bytes. rewrite !Forall_app.
    repeat split; try apply is_bytes_be_bytes; try done.
    - constructor; [unfold is_u8; lia|]. by constructor.
    - clear Hf Hlen Hmax. induction Hts as [|x ts (_ & Hx & _) Hts IH]; [constructor|]. change (enc_tags (x :: ts)) with (enc_tag x ++ enc_tags ts).
      apply Forall_app_2; [|done]. unfold enc_tag. apply Forall_app_2; [apply is_bytes_be_bytes|]. apply Forall_app_2; [apply is_bytes_be_bytes|done]. }
  set (buf := replicate PACKET_SIZE 0). assert (Hbuf : length buf = PACKET_SIZE) by apply length_replicate.
  destruct (frame_read dest source code session ts buf Hd Hs Hse Hts Hf Hbuf) as (_ & H1 & H2 & H3 & H4 & H5 & H6 & H7). fold d in H1, H2, H3, H4, H5, H6, H7.
  assert (Hw : whole d).
  { split; [lia|]. assert (E : p_length (splice buf 0 d) = p_length d).
    { rewrite splice_prefix by (by rewrite Hbuf). unfold p_length, get16. by rewrite slice_prefix by (unfold P_length; lia). }
    rewrite <- E, H6, Hlen. unfold HDR_SIZE, PPPOE_OVERHEAD. lia. }
  destruct (received_whole buf d Hbuf Hmax Hb Hw) as (E1 & E2 & E3 & E4 & _ & E6 & E7).
  rewrite E1 in H2. rewrite E2 in H3. rewrite E3 in H4. rewrite E4 in H5. rewrite E6 in H1. rewrite E7 in H7. done.
Qed.

Lemma echo_app ts ts' : echo_tags (ts ++ ts') = echo_tags ts ++ echo_tags ts'.
Proof. apply List.filter_app. Qed.

Lemma echo_padi pid c : echo_tags (padi_tags pid c) = padi_tags pid c.
Proof. unfold padi_tags, uniq_tlv. by destruct (useHostUniq c). Qed.

Section connects.
Context (ac : concentrator) `{Hos : Os} `{!Delivers Hos ac} (pid : Z) (junk : trace → bytes).
Context (Hjunk : ∀ t, length (junk t) = PACKET_SIZE) (Hjb : ∀ t, is_bytes (junk t)) (Hac : ac_ok ac) (Hpid : is_u32 pid).

Lemma uniq_found c ts : ∀ v, useHostUniq c = true → padi_tags pid c ⊆ ts → v = be_bytes 4 pid →
  (TAG_HOST_UNIQ, v) ∈ ts ∧ length v = 4%nat ∧ be_val v = pid.
Proof.
  intros v Hu Hin ->. split; [apply Hin; unfold padi_tags, uniq_tlv; rewrite Hu; set_solver|].
  split; [apply length_be_bytes|]. rewrite be_val_bytes. apply Z.mod_small. exact Hpid.
Qed.

(** One wait that the network answers. *)
Lemma answered_wait {A} fuel t fd f a g timeout packet (fail timed : sys A) (k : bytes → Z → sys A) :
  respond ac f = Some g → open_fd fd → (length g ≤ PACKET_SIZE)%nat → length packet = PACKET_SIZE →
  ∃ u, frames u = [] ∧
  (_ ← lift (FD_SET fd);
   r ← wait_readable (S fuel) fd timeout;
   if r <? 0 then fail
   else if r =? 0 then timed
   else
     '(e, packet, len) ← receivePacket fd packet;
     if e <? 0 then fail else k packet len) (t ++ [(Send fd f, a)])
  = k (splice packet 0 g) (Z.of_nat (length g)) ((t ++ [(Send fd f, a)]) ++ u).
Proof.
  intros Hg Hfd Hl Hp. rewrite (lift_bind _ _ ()) by (unfold FD_SET; unfold open_fd in Hfd; by rewrite (proj2 (Z.leb_le _ _)), (proj2 (Z.ltb_lt _ _)) by lia).
  set (t1 := t ++ [(Send fd f, a)]). set (b := answer_to t1 (Select fd timeout)).
  pose proof (net_select t fd f a timeout g Hg) as Hsel. fold t1 b in Hsel.
  set (r := answer_to (t1 ++ [(Select fd timeout, b)]) (Recv fd PACKET_SIZE)).
  pose proof (net_recv t fd f a timeout b g Hg) as Hrecv. cbv zeta in Hrecv. fold t1 r in Hrecv. destruct Hrecv as [Hdel Hrv].
  exists [(Select fd timeout, b); (Recv fd PACKET_SIZE, r)]. split; [done|].
  assert (E1 : wait_readable (S fuel) fd timeout t1 = Ok (rv b, t1 ++ [(Select fd timeout, b)])).
  { cbn [wait_readable]. unfold mbind, sys_bind, ask. fold b. by rewrite (proj2 (Z.leb_le 0 (rv b))) by lia. }
  assert (E2 : receivePacket fd packet (t1 ++ [(Select fd timeout, b)])
    = Ok (0, splice packet 0 g, Z.of_nat (length g), (t1 ++ [(Select fd timeout, b)]) ++ [(Recv fd PACKET_SIZE, r)])).
  { unfold receivePacket, mbind, sys_bind, ask. fold r. rewrite (proj2 (Z.ltb_ge (rv r) 0)) by lia. unfold lift.
    rewrite Hdel, write_at_Ok by (by rewrite Hp). cbn. by rewrite Hrv. }
  unfold mbind at 1, sys_bind at 1. rewrite E1. rewrite (proj2 (Z.ltb_ge (rv b) 0)), (proj2 (Z.eqb_neq (rv b) 0)) by lia.
  unfold mbind at 1, sys_bind at 1. rewrite E2. cbn. by rewrite <- !app_assoc.
Qed.

Lemma padi_small c : conn_ok c → Forall tlv_ok (padi_tags pid c) ∧ (length (enc_tags (padi_tags pid c)) ≤ 80)%nat.
Proof.
  intros Hc. split; [by apply padr_tags_ok|]. destruct (name_bytes _ (co_service _ Hc)) as (_ & Hl & _).
  unfold padi_tags. change (?x :: ?l) with ([x] ++ l). rewrite enc_tags_app, length_app, enc_tags_one, length_enc_tag. cbn [snd service_tlv].
  unfold uniq_tlv. destruct (useHostUniq c); [rewrite enc_tags_one, length_enc_tag; cbn [snd]; rewrite length_be_bytes|cbn [enc_tags fmap list_fmap concat length]]; lia.
Qed.

Lemma offer_ok c : conn_ok c → let ts := offer_tags ac (padi_tags pid c) in
  Forall tlv_ok ts ∧ fits ts ∧ existsb is_error ts = false ∧ padi_tags pid c ⊆ ts
  ∧ ts = (TAG_AC_NAME, ac_name ac) :: padi_tags pid c ++ [(TAG_AC_COOKIE, ac_cookie ac)].
Proof.
  intros Hc ts. destruct (padi_small c Hc) as [Hts Hl]. destruct (ac_name_ok _ Hac) as [Hn1 Hn2]. destruct (ac_cookie_ok _ Hac) as [Hk1 Hk2].
  assert (Ets : ts = [(TAG_AC_NAME, ac_name ac)] ++ padi_tags pid c ++ [(TAG_AC_COOKIE, ac_cookie ac)]) by (unfold ts, offer_tags; by rewrite echo_padi).
  split.
  { rewrite Ets. apply Forall_app_2; [|apply Forall_app_2; [done|]]; (constructor; [|constructor]); unfold tlv_ok, TAG_AC_NAME, TAG_AC_COOKIE; cbn [fst snd]; (split; [lia|split; [done|lia]]). }
  split.
  { unfold fits, MAX_PPPOE_PAYLOAD, ETH_DATA_LEN, PPPOE_OVERHEAD. rewrite Ets, !enc_tags_app, !enc_tags_one, !length_app, !length_enc_tag. cbn [snd]. lia. }
  split; [rewrite Ets; unfold padi_tags, uniq_tlv; by destruct (useHostUniq c)|]. split; [rewrite Ets; set_solver|done].
Qed.

(** The connection after the offer. *)
Definition offered_conn (c : PPPoEConnection) : PPPoEConnection :=
  let c := with_cookie c (store (cookie c) (TAG_AC_COOKIE, ac_cookie ac)) in
  chosen (ac_eth ac) (with_numPADOs c (s32 (numPADOs c + 1))).

Lemma offer_taken c :
  acName c = None ∨ acName c = Some (ac_name ac) →
  ∃ pc, offer_verdict (ac_eth ac) (foldl pado_effect (init_criteria c) (offer_tags ac (padi_tags pid c))) = (Break, pc) ∧ pc_conn pc = offered_conn c.
Proof.
  intros Hn. unfold offer_tags. rewrite echo_padi. unfold padi_tags, service_tlv, uniq_tlv.
  assert (Ea : bool_decide (acName c = Some (ac_name ac)) || acNameOK (init_criteria c) = true).
  { unfold init_criteria. cbn [acNameOK]. destruct Hn as [-> | ->]; [apply orb_true_r|]. by rewrite bool_decide_true. }
  assert (Es : bool_decide (serviceName c = Some (default [] (serviceName c))) || serviceNameOK (init_criteria c) = true).
  { unfold init_criteria. cbn [serviceNameOK]. destruct (serviceName c); [by rewrite bool_decide_true|apply orb_true_r]. }
  destruct (useHostUniq c); cbn [foldl app pado_effect fst snd];
    change (TAG_AC_NAME =? TAG_AC_NAME) with true; cbn iota; unfold offer_verdict, pado_effect; cbn; cbn in Ea, Es; rewrite Ea, Es; cbn; by eexists.
Qed.

Lemma padi_answered c : conn_ok c →
  respond ac (padi_frame pid c) = Some (disc_frame (myEth c) (ac_eth ac) CODE_PADO 0 (offer_tags ac (padi_tags pid c))).
Proof.
  intros Hc. destruct (padi_small c Hc) as [Hts Hl].
  destruct (frame_datagram eth_broadcast (myEth c) CODE_PADI 0 (padi_tags pid c)) as (_ & _ & _ & H1 & _ & H3 & H4 & _ & H6);
    [apply broadcast_ok|apply Hc|by unfold is_u8, CODE_PADI|done|done|unfold fits, MAX_PPPOE_PAYLOAD, ETH_DATA_LEN, PPPOE_OVERHEAD; lia|].
  unfold respond, padi_frame, tags. by rewrite H1, H3, H4, H6.
Qed.

(** The tags of the request that follows the offer. *)
Lemma request_tags c : t_type (relayId c) = 0 → padr_tags pid (offered_conn c) = padi_tags pid c ++ [(TAG_AC_COOKIE, ac_cookie ac)].
Proof.
  intros Hr. unfold padr_tags. cbn [offered_conn chosen cookie relayId with_state with_peerEth with_numPADOs with_cookie].
  rewrite store_value by done. unfold stored_tlv. rewrite Hr. by rewrite app_nil_r.
Qed.

Lemma offered_conn_ok c : conn_ok c → conn_ok (offered_conn c).
Proof.
  intros Hc. assert (Hs : stored (store (cookie c) (TAG_AC_COOKIE, ac_cookie ac))).
  { destruct (ac_cookie_ok _ Hac). apply store_stored; [apply Hc|]. split; [|cbn [snd]; lia]. unfold tlv_ok, TAG_AC_COOKIE. cbn [fst snd]. split; [lia|]. split; [done|lia]. }
  destruct Hc. constructor; try done. apply Hac.
Qed.

Lemma padr_request_ok c : conn_ok c → t_type (relayId c) = 0 →
  let ts := padr_tags pid (offered_conn c) in
  Forall tlv_ok ts ∧ fits ts ∧ echo_tags ts = padi_tags pid c ∧ (TAG_AC_COOKIE, ac_cookie ac) ∈ ts.
Proof.
  intros Hc Hr ts. destruct (padi_small c Hc) as [Hts Hl]. destruct (ac_cookie_ok _ Hac) as [Hk1 Hk2]. unfold ts. rewrite request_tags by done.
  split. { rewrite <- request_tags by done. apply padr_tags_ok. by apply offered_conn_ok. }
  split. { unfold fits, MAX_PPPOE_PAYLOAD, ETH_DATA_LEN, PPPOE_OVERHEAD. rewrite enc_tags_app, enc_tags_one, length_app, length_enc_tag. cbn [snd]. lia. }
  split; [|set_solver]. rewrite echo_app, echo_padi. apply app_nil_r.
Qed.

Lemma padr_answered c : conn_ok c → t_type (relayId c) = 0 →
  respond ac (padr_frame pid (offered_conn c)) = Some (disc_frame (myEth c) (ac_eth ac) CODE_PADS (ac_session ac) (padi_tags pid c)).
Proof.
  intros Hc Hr. destruct (padr_request_ok c Hc Hr) as (Hts & Hf & He & Hin).
  destruct (frame_datagram (ac_eth ac) (myEth c) CODE_PADR 0 (padr_tags pid (offered_conn c))) as (_ & _ & _ & H1 & H2 & H3 & H4 & _ & H6);
    [apply Hac|apply Hc|by unfold is_u8, CODE_PADR|done|done|done|].
  unfold respond, padr_frame, tags. change (peerEth (offered_conn c)) with (ac_eth ac). change (myEth (offered_conn c)) with (myEth c).
  rewrite H1, H2, H3, H4, H6. cbn [fst]. rewrite !bool_decide_true by done. by rewrite He.
Qed.

(** The two waits. *)
Lemma offer_received c t a timeout :
  conn_ok c → open_fd (discoverySocket c) → discoveryState c = STATE_SENT_PADI → acName c = None ∨ acName c = Some (ac_name ac) →
  ∃ u, frames u = [] ∧
  waitForPADO pid junk 1 c timeout (t ++ [(Send (discoverySocket c) (padi_frame pid c), a)])
  = Ok (0, offered_conn c, (t ++ [(Send (discoverySocket c) (padi_frame pid c), a)]) ++ u).
Proof.
  intros Hc Hfd Hst Hn. destruct (offer_ok c Hc) as (Hts & Hf & Herr & Hsub & _).
  set (ts := offer_tags ac (padi_tags pid c)) in *. set (g := disc_frame (myEth c) (ac_eth ac) CODE_PADO 0 ts).
  destruct (frame_datagram (myEth c) (ac_eth ac) CODE_PADO 0 ts) as (H1 & H2 & H3 & H4 & H5 & H6 & H7 & _ & H9);
    [apply Hc|apply Hac|by unfold is_u8, CODE_PADO|done|done|done|]. fold g in H1, H2, H3, H4, H5, H6, H7, H9.
  assert (Hpado : is_pado pid (pc_conn (init_criteria c)) g).
  { split; [split; [done|split; [done|split; [done|]]]|].
    - intros Hu. exists (be_bytes 4 pid). unfold tags. rewrite H9. by apply (uniq_found c).
    - split; [done|]. split; [rewrite H6; apply Hac|]. unfold readable, tags. by rewrite H9. }
  set (t' := t ++ [(Send (discoverySocket c) (padi_frame pid c), a)]).
  destruct (answered_wait 0 t (discoverySocket c) (padi_frame pid c) a g timeout (junk t') (mret (-1, c)) (mret (0, c))
    (λ packet len, '(o, pc) ← lift (pado_packet pid packet len (init_criteria c));
       match o with
       | Failed => mret (-1, pc_conn pc) | Break => mret (0, pc_conn pc)
       | Continue => if decide (discoveryState (pc_conn pc) = STATE_RECEIVED_PADO) then mret (0, pc_conn pc)
                     else pado_loop pid 0 timeout packet pc
       end) (padi_answered c Hc) Hfd H3 (Hjunk t')) as (u & Hu & E).
  exists u. split; [done|]. refine (eq_trans E _).
  assert (Ht : tags g = ts) by (unfold tags; by rewrite H9).
  pose proof (pado_accepted pid (junk t') g (Hjunk t') (Hjb t') H3 H2 (init_criteria c) Hc Hpado ltac:(by rewrite H9)) as Ep.
  rewrite Ht, H6 in Ep. destruct (offer_taken c Hn) as (pc & Ev & Epc). fold ts in Ev. rewrite Ev in Ep.
  rewrite (lift_bind _ _ (Break, pc)) by exact Ep. by rewrite Epc.
Qed.

Lemma confirmation_received c t a timeout :
  conn_ok c → open_fd (discoverySocket c) → t_type (relayId c) = 0 →
  let c1 := with_state (offered_conn c) STATE_SENT_PADR in
  ∃ u, frames u = [] ∧
  waitForPADS pid junk 1 c1 timeout (t ++ [(Send (discoverySocket c) (padr_frame pid (offered_conn c)), a)])
  = Ok (0, with_session (with_state c1 STATE_SESSION) (ac_session ac), (t ++ [(Send (discoverySocket c) (padr_frame pid (offered_conn c)), a)]) ++ u).
Proof.
  intros Hc Hfd Hr c1. destruct (padi_small c Hc) as [Hts Hl]. set (ts := padi_tags pid c) in *.
  assert (Hf : fits ts) by (unfold fits, MAX_PPPOE_PAYLOAD, ETH_DATA_LEN, PPPOE_OVERHEAD; lia).
  set (g := disc_frame (myEth c) (ac_eth ac) CODE_PADS (ac_session ac) ts).
  destruct (frame_datagram (myEth c) (ac_eth ac) CODE_PADS (ac_session ac) ts) as (H1 & H2 & H3 & H4 & H5 & H6 & H7 & H8 & H9);
    [apply Hc|apply Hac|by unfold is_u8, CODE_PADS|apply Hac|done|done|]. fold g in H1, H2, H3, H4, H5, H6, H7, H8, H9.
  assert (Hc1 : conn_ok c1) by (by apply with_state_ok, offered_conn_ok).
  assert (Herr : existsb is_error ts = false) by (unfold ts, padi_tags, uniq_tlv; by destruct (useHostUniq c)).
  assert (Ht : tags g = ts) by (unfold tags; by rewrite H9).
  assert (Hpads : is_pads pid c1 g).
  { split; [split; [done|split; [done|split; [done|]]]|].
    - intros Hu. exists (be_bytes 4 pid). rewrite Ht. by apply (uniq_found c).
    - split; [done|]. split; [done|]. unfold readable. by rewrite Ht, H9. }
  set (t' := t ++ [(Send (discoverySocket c) (padr_frame pid (offered_conn c)), a)]).
  destruct (answered_wait 0 t (discoverySocket c) (padr_frame pid (offered_conn c)) a g timeout (junk t') (mret (-1, c1)) (mret (0, c1))
    (λ packet len, '(o, c) ← lift (pads_packet pid packet len c1);
       match o with
       | Failed => mret (-1, c) | Break => mret (0, with_session c (p_session packet))
       | Continue => if decide (discoveryState c = STATE_SESSION) then mret (0, with_session c (p_session packet))
                     else pads_loop pid 0 timeout packet c
       end) (padr_answered c Hc Hr) Hfd H3 (Hjunk t')) as (u & Hu & E).
  exists u. split; [done|]. refine (eq_trans E _).
  pose proof (pads_accepted pid (junk t') g (Hjunk t') (Hjb t') H3 H2 c1 Hc1 Hpads ltac:(by rewrite H9)) as Ep. rewrite Ht in Ep.
  assert (Eeff : foldl pads_effect c1 ts = c1) by (unfold ts, padi_tags, uniq_tlv; by destruct (useHostUniq c)). rewrite Eeff in Ep.
  rewrite (lift_bind _ _ (Break, with_state c1 STATE_SESSION)) by exact Ep.
  destruct (received_whole (junk t') g (Hjunk t') H3 H2 H1) as (_ & _ & _ & Es & _). by rewrite Es, H8.
Qed.
End connects.

(** C5: discovery finds a concentrator.  Whatever the names, the Host-Uniq tag and the junk of
    the stack, when the interface opens, a concentrator is there that follows RFC 2516
    (it echoes what it has to and takes only requests that bring its cookie back) and the
    network delivers, then [discovery] returns 0 in the session state, with the session
    and the address of this concentrator, and has sent one PADI and one PADR. *)
Theorem discovery_connects (ac : concentrator) `{Hos : Os} `{!Delivers Hos ac} (pid : Z) (junk : trace → bytes) c0 fd my t t1
    (Hj : ∀ t, length (junk t) = PACKET_SIZE ∧ is_bytes (junk t)) (Hac : ac_ok ac) (Hpid : is_u32 pid)
    (Hc0 : conn_ok c0) (Hr : t_type (relayId c0) = 0) (Hn : acName c0 = None ∨ acName c0 = Some (ac_name ac))
    (Hopen : openInterface (ifName c0) Eth_PPPOE_Discovery (myEth c0) t = Ok (fd, my, t1))
    (Hfd : open_fd fd) (Hmy : eth_ok my) :
  let c := with_discoverySocket c0 fd my in
  ∃ c' t', discovery pid junk 1 c0 t = Ok (0, c', t')
    ∧ discoveryState c' = STATE_SESSION ∧ session c' = ac_session ac ∧ peerEth c' = ac_eth ac
    ∧ frames t' = frames t1 ++ [padi_frame pid c; padr_frame pid (offered_conn ac (with_state c STATE_SENT_PADI))].
Proof.
  assert (Hjl : ∀ t, length (junk t) = PACKET_SIZE) by apply Hj. assert (Hjb : ∀ t, is_bytes (junk t)) by apply Hj.
  intros c. assert (Hc : conn_ok c) by (destruct Hc0; by constructor). set (c1 := with_state c STATE_SENT_PADI).
  assert (Hc1 : conn_ok c1) by (by apply with_state_ok).
  assert (Hsent : ∀ (m : sys Z) t f, m t = sends c f t → m t = Ok (0, t ++ [(Send fd f, answer_to t (Send fd f))])).
  { intros m t' f ->. unfold sends. change (discoverySocket c) with fd. pose proof (net_send (ac := ac) t' fd f (proj1 Hfd)).
    by rewrite (proj2 (Z.ltb_ge _ _)). }
  pose proof (Hsent _ _ _ (sendPADI_spec pid junk Hjl c t1 Hc)) as E1.
  destruct (offer_received ac pid junk Hjl Hjb Hac Hpid c1 t1 (answer_to t1 (Send fd (padi_frame pid c))) PADI_TIMEOUT Hc1 Hfd eq_refl Hn) as (u & Hu & E2).
  change (padi_frame pid c1) with (padi_frame pid c) in E2. change (discoverySocket c1) with fd in E2.
  set (t2 := (t1 ++ [(Send fd (padi_frame pid c), answer_to t1 (Send fd (padi_frame pid c)))]) ++ u) in *.
  set (c2 := offered_conn ac c1) in *. assert (Hc2 : conn_ok c2) by (by apply offered_conn_ok).
  destruct (padr_request_ok ac pid junk Hjl Hjb Hac Hpid c1 Hc1 Hr) as (_ & Hf2 & _). fold c2 in Hf2.
  pose proof (sendPADR_spec pid junk Hjl c2 t2 Hc2) as E3. rewrite decide_True in E3 by done. apply (Hsent _ t2 (padr_frame pid c2)) in E3.
  destruct (confirmation_received ac pid junk Hjl Hjb Hac Hpid c1 t2 (answer_to t2 (Send fd (padr_frame pid c2))) PADI_TIMEOUT Hc1 Hfd Hr) as (v & Hv & E4).
  fold c2 in E4. change (discoverySocket c1) with fd in E4.
  eexists _, _. split.
  { assert (E5 : padi_attempts pid junk 2 1 c PADI_TIMEOUT t1 = Ok (0, c2, t2)).
    { cbn [padi_attempts]. unfold mbind, sys_bind. rewrite E1. cbv beta iota; change (0 <? 0) with false; cbv beta iota. change (with_state c STATE_SENT_PADI) with c1.
      rewrite E2. done. }
    assert (E6 : ∀ v' c3, waitForPADS pid junk 1 (with_state c2 STATE_SENT_PADR) PADI_TIMEOUT (t2 ++ [(Send fd (padr_frame pid c2), answer_to t2 (Send fd (padr_frame pid c2)))]) = Ok (0, c3, v') →
      discoveryState c3 ≠ STATE_SENT_PADR → padr_attempts pid junk 2 1 c2 PADI_TIMEOUT t2 = Ok (0, c3, v')).
    { intros v' c3 E Hst. cbn [padr_attempts]. unfold mbind, sys_bind. rewrite E3. cbv beta iota; change (0 <? 0) with false; cbv beta iota. rewrite E. cbv beta iota. change (0 <? 0) with false. cbv beta iota. by rewrite decide_False. }
    unfold discovery, mbind, sys_bind. rewrite Hopen. change (with_discoverySocket c0 fd my) with c. unfold MAX_PADI_ATTEMPTS. rewrite E5.
    cbv beta iota; change (0 <? 0) with false; cbv beta iota. rewrite (E6 _ _ E4) by done. reflexivity. }
  split; [done|]. split; [done|]. split; [done|]. rewrite !frames_app, Hv. unfold t2. rewrite !frames_app, Hu. cbn. by rewrite <- !app_assoc.
Qed.
