(* ===== verification/PppoeSession.v ===== *)
(** * PPPoE: the session (progs.gpl/pppd.alpha/pppoe: pppoe.c, ppp.c, [computeTCPChecksum]
    and [clampMSS] of common.c)

    Packets of the session go between the Ethernet and the terminal of the PPP daemon.  The
    maximum segment size of TCP may be lowered on the way.  Positions are offsets in the
    object of a packet; 16-bit reads at odd addresses, which the kernel of the target
    emulates, are plain reads.  Handlers work on what one [recv] or [read] delivered.
    [debugFile] is left out, it is never set. *)

From stdpp Require Import base numbers strings list.
From S2P Require Import Prelude Bytes Syscalls PppHdlc Pppoe PppoeDisc.

Definition ENOBUFS : Z := 132.
Definition EAGAIN : Z := 11.
Definition READ_CHUNK : nat := 4096.
Definition PPP_BUF : Z := 4096.
Definition TIOCSETD : Z := 0x7401.
Definition N_HDLC : Z := 13.

(** ** The checksum of TCP *)

(** The loop over the words of the host; the odd byte at the end is added as it is. *)
Fixpoint tcp_sum (sum : Z) (l : bytes) : Z :=
  match l with
  | a :: b :: l => tcp_sum (u32 (sum + (a * 256 + b))) l
  | [a] => u32 (sum + a)
  | [] => sum
  end.

Fixpoint fold32 (fuel : nat) (sum : Z) : res Z :=
  if Z.shiftr sum 16 =? 0 then mret sum
  else match fuel with
       | O => NoFuel
       | S fuel => fold32 fuel (u32 (Z.land sum 0xffff + Z.shiftr sum 16))
       end.

(** Bytes of the segment by the header of IP. *)
Definition tcp_count (ip0 ip2 ip3 : Z) : Z := u16 (u16 (ip2 * 256 + ip3) - Z.land ip0 0x0F * 4).

Definition computeTCPChecksum (packet : bytes) (ipHdr tcpHdr : nat) : res Z :=
  ip2 ← byte_at packet (ipHdr + 2);
  ip3 ← byte_at packet (ipHdr + 3);
  ip0 ← byte_at packet ipHdr;
  let count := tcp_count ip0 ip2 ip3 in
  addresses ← read_at packet (ipHdr + 12) 8;
  proto ← byte_at packet (ipHdr + 9);
  let pseudoHeader := addresses ++ [0; proto; Z.land (Z.shiftr count 8) 0xFF; Z.land count 0xFF] in
  data ← read_at packet tcpHdr (Z.to_nat count);
  sum ← fold32 3 (tcp_sum (tcp_sum 0 pseudoHeader) data);
  mret (u16 (Z.land (Z.lnot sum) 0xFFFF)).

(** ** The maximum segment size *)

Inductive mss_search := Bogus | NoMss | MssAt (opt : nat).

(** The loop over the options; a turn goes on by one byte at least. *)
Fixpoint find_mss (fuel : nat) (packet : bytes) (opt endHdr : nat) : res mss_search :=
  match fuel with
  | O => NoFuel
  | S fuel =>
      if decide (endHdr ≤ opt)%nat then mret NoMss
      else
        c ← byte_at packet opt;
        if c =? 0 then mret NoMss
        else if c =? 1 then find_mss fuel packet (opt + 1) endHdr
        else
          l ← byte_at packet (opt + 1);
          if c =? 2 then mret (if negb (l =? 4) then Bogus else MssAt opt)
          else if l <? 2 then mret Bogus
          else find_mss fuel packet (opt + Z.to_nat l) endHdr
  end.

(** Where the header of IP begins and how long a packet must be; [None] if it is not IPv4. *)
Definition ip_header (packet : bytes) : option (nat * Z) :=
  let b0 := packet !!! P_payload in
  if negb (Z.land b0 0x01 =? 0) then if b0 =? 0x21 then Some ((P_payload + 1)%nat, 41) else None
  else if (b0 =? 0x00) && (packet !!! (P_payload + 1)%nat =? 0x21) then Some ((P_payload + 2)%nat, 42) else None.

(** From the search on. *)
Definition clamp_options (packet : bytes) (ipHdr tcpHdr : nat) (clampMss : Z) : res bytes :=
  t12 ← byte_at packet (tcpHdr + 12);
  let endHdr := (tcpHdr + Z.to_nat (Z.shiftr (Z.land t12 0xF0) 2))%nat in
  s ← find_mss 256 packet (tcpHdr + 20) endHdr;
  match s with
  | Bogus | NoMss => mret packet
  | MssAt opt =>
      mss ← read16 packet (opt + 2);
      if mss <=? u32 clampMss then mret packet
      else
        packet ← write_at packet (opt + 2) [Z.land (Z.shiftr (u32 clampMss) 8) 0xFF; Z.land (u32 clampMss) 0xFF];
        packet ← write_at packet (tcpHdr + 16) [0; 0];
        csum ← computeTCPChecksum packet ipHdr tcpHdr;
        write_at packet (tcpHdr + 16) (be_bytes 2 csum)
  end.

Definition clampMSS (packet : bytes) (clampMss : Z) : res bytes :=
  match ip_header packet with
  | None => mret packet
  | Some (ipHdr, minlen) =>
      if p_length packet <? minlen then mret packet
      else
        ip0 ← byte_at packet ipHdr;
        if negb (Z.land ip0 0xF0 =? 0x40) then mret packet
        else
          ip6 ← byte_at packet (ipHdr + 6);
          ip7 ← byte_at packet (ipHdr + 7);
          if negb (Z.land ip6 0x1F =? 0) || negb (ip7 =? 0) then mret packet
          else
            ip9 ← byte_at packet (ipHdr + 9);
            if negb (ip9 =? 0x06) then mret packet
            else
              let tcpHdr := (ipHdr + Z.to_nat (Z.land ip0 0x0F * 4))%nat in
              t13 ← byte_at packet (tcpHdr + 13);
              if Z.land t13 0x02 =? 0 then mret packet
              else
                csum ← computeTCPChecksum packet ipHdr tcpHdr;
                if negb (csum =? 0) then mret packet
                else clamp_options packet ipHdr tcpHdr clampMss
  end.

(** ** From the Ethernet *)

(** The packet that is for this session. *)
Definition session_packet (conn : PPPoEConnection) (packet : bytes) (len : Z) : bool :=
  (p_length packet + HDR_SIZE <=? len) && (p_code packet =? CODE_SESS) && (p_ver packet =? 1) && (p_type packet =? 1)
  && bool_decide (h_dest packet = myEth conn) && bool_decide (h_source packet = peerEth conn)
  && (p_session packet =? session conn).

(** What is written to an asynchronous terminal; [pppBuf] is not checked for its size. *)
Definition async_frame (payload : bytes) : res bytes :=
  let fcs := pppfcs16 (pppfcs16 PPPINITFCS16 [FRAME_ADDR; FRAME_CTRL]) payload in
  let out := [FRAME_FLAG; FRAME_ADDR; FRAME_ESC; Z.lxor FRAME_CTRL FRAME_ENC]
             ++ ((payload ++ fcs_bytes fcs) ≫= frame_escape) ++ [FRAME_FLAG] in
  if Z.of_nat (length out) <=? PPP_BUF then mret out else Fault.

Definition clamped (packet : bytes) (clampMss : Z) : res bytes :=
  if clampMss =? 0 then mret packet else clampMSS packet clampMss.

(** What is written for a datagram [data] that arrives in [pkt_eth], and [pkt_eth]
    afterwards. *)
Definition read_from_eth (sync : bool) (conn : PPPoEConnection) (pkt_eth : bytes) (data : bytes) (clampMss : Z)
    : res (option bytes * bytes) :=
  pkt ← write_at pkt_eth 0 data;
  if negb (session_packet conn pkt (Z.of_nat (length data))) then mret (None, pkt)
  else
    let plen := p_length pkt in
    pkt ← clamped pkt clampMss;
    payload ← read_at pkt P_payload (Z.to_nat plen);
    if sync then mret (Some ([FRAME_ADDR; FRAME_CTRL] ++ payload), pkt)
    else out ← async_frame payload; mret (Some out, pkt).

Definition asyncReadFromEth := read_from_eth false.
Definition syncReadFromEth := read_from_eth true.

(** ** From the terminal *)

(** The frame that leaves: the packet with its length, clamped. *)
Definition session_frame (packet : bytes) (len clampMss : Z) : res (bytes * bytes) :=
  packet ← clamped (set16 packet P_length len) clampMss;
  d ← read_at packet 0 (Z.to_nat (len + HDR_SIZE));
  mret (d, packet).

(** [PPPState], [PPPPacketSize] and [PPPXorValue]; the bytes are in [pkt_ppp]. *)
Record ppp_reader := mk_reader { r_state : ppp_state; r_size : Z; r_xor : Z }.
Definition initPPP : ppp_reader := mk_reader STATE_WAITFOR_FRAME_ADDR 0 0.

Section terminal.
Context `{Os} (pid : Z) (junk : trace → bytes).

Definition sendSessionPacket (conn : PPPoEConnection) (packet : bytes) (len mss : Z) : sys (Z * bytes) :=
  '(d, packet) ← lift (session_frame packet len mss);
  a ← ask (Send (sessionSocket conn) d);
  if rv a <? 0 then mret (if errno a =? ENOBUFS then 0 else -1, packet) else mret (0, packet).

(** The loops over the bytes of a read, which take up each other where they stop: the
    result, the reader and [pkt_ppp]. *)
Fixpoint read_bytes (conn : PPPoEConnection) (mss : Z) (buf : bytes) (r : ppp_reader) (packet : bytes)
    : sys (Z * ppp_reader * bytes) :=
  match buf with
  | [] => mret (0, r, packet)
  | c :: buf =>
      match r_state r with
      | STATE_WAITFOR_FRAME_ADDR =>
          read_bytes conn mss buf (if c =? FRAME_ADDR then mk_reader STATE_DROP_PROTO (r_size r) (r_xor r) else r) packet
      | STATE_DROP_PROTO =>
          read_bytes conn mss buf
            (if c =? Z.lxor FRAME_CTRL FRAME_ENC then mk_reader STATE_BUILDING_PACKET (r_size r) (r_xor r) else r) packet
      | STATE_BUILDING_PACKET =>
          if c =? FRAME_ESC then read_bytes conn mss buf (mk_reader STATE_BUILDING_PACKET (r_size r) FRAME_ENC) packet
          else if c =? FRAME_FLAG then
            if r_size r <? 2 then mret (-1, r, packet)
            else
              '(e, packet) ← sendSessionPacket conn packet (r_size r - 2) mss;
              if e <? 0 then mret (-1, r, packet) else read_bytes conn mss buf initPPP packet
          else if ETH_DATA_LEN - 4 <=? r_size r then read_bytes conn mss buf initPPP packet
          else
            packet ← lift (write_at packet (P_payload + Z.to_nat (r_size r)) [Z.lxor c (r_xor r)]);
            read_bytes conn mss buf (mk_reader STATE_BUILDING_PACKET (r_size r + 1) 0) packet
      end
  end.

Definition no_traffic : bytes := chars "No PPP traffic!".
Definition too_few : bytes := chars "Too few characters read from PPP!".

Definition asyncReadFromPPP (conn : PPPoEConnection) (fd mss : Z) (r : ppp_reader) (packet : bytes)
    : sys (Z * PPPoEConnection * ppp_reader * bytes) :=
  a ← ask (Read fd READ_CHUNK);
  if rv a <? 0 then mret (-1, conn, r, packet)
  else if rv a =? 0 then '(_, conn) ← sendPADT pid junk conn (Some no_traffic); mret (-1, conn, r, packet)
  else '(e, r, packet) ← read_bytes conn mss (delivered a) r packet; mret (e, conn, r, packet).

(** The address and the control byte land in the length, which is set afterwards. *)
Definition syncReadFromPPP (conn : PPPoEConnection) (fd mss : Z) (packet : bytes) : sys (Z * PPPoEConnection * bytes) :=
  a ← ask (Read fd (Z.to_nat (ETH_DATA_LEN - PPPOE_OVERHEAD + 2)));
  if rv a <? 0 then mret (-1, conn, packet)
  else if rv a =? 0 then '(_, conn) ← sendPADT pid junk conn (Some no_traffic); mret (-1, conn, packet)
  else
    packet ← lift (write_at packet P_length (delivered a));
    if rv a <? 2 then '(_, conn) ← sendPADT pid junk conn (Some too_few); mret (-1, conn, packet)
    else '(e, packet) ← sendSessionPacket conn packet (rv a - 2) mss; mret (e, conn, packet).

(** ** The end of the session *)

Definition padt_message : bytes := chars "Received PADT from peer".
Definition user_message : bytes := chars "User request".

(** Whether the link is hung up, and the connection. *)
Definition discovery_read (conn : PPPoEConnection) (packet : bytes) (len : Z) : sys (bool * PPPoEConnection) :=
  if len <? p_length packet + HDR_SIZE then mret (false, conn)
  else if negb (p_code packet =? CODE_PADT) then mret (false, conn)
  else if negb (bool_decide (h_dest packet = myEth conn)) then mret (false, conn)
  else if negb (bool_decide (h_source packet = peerEth conn)) then mret (false, conn)
  else
    _ ← lift (parsePacket parseLogErrs packet ());
    '(_, conn) ← sendPADT pid junk (with_session conn 0) (Some padt_message);
    mret (true, conn).

(** [pkt_ppp] with its constant members; what it held is [packet]. *)
Definition session_header (packet : bytes) (conn : PPPoEConnection) : bytes :=
  let packet := splice packet P_dest (peerEth conn) in
  let packet := splice packet P_source (myEth conn) in
  let packet := set16 packet P_proto Eth_PPPOE_Session in
  let packet := set8 packet P_vertype 0x11 in
  let packet := set8 packet P_code CODE_SESS in
  set16 packet P_session (session conn).

(** [session]: the connection, the descriptors that are registered as readers, and
    [pkt_ppp]. *)
Definition start_session (conn : PPPoEConnection) (pty : Z) (packet : bytes) : sys (PPPoEConnection * list Z * bytes) :=
  '(fd, hwaddr) ← openInterface (ifName conn) Eth_PPPOE_Session (myEth conn);
  let conn := with_sessionSocket conn fd hwaddr in
  mret (conn, [discoverySocket conn; fd; pty], session_header packet conn).

(** The options of the daemon. *)
Record pppoe_options := mk_options {
  pppoe_dev : bytes; pppoe_srv_name : bytes; pppoe_ac_name : bytes; pppoe_hostuniq : bool; pppoe_synchronous : bool }.

Definition optional (name : bytes) : option bytes := match name with [] => None | _ => Some name end.

(** [conn] after [memset] and the options. *)
Definition fresh_conn (o : pppoe_options) : PPPoEConnection :=
  mk_conn STATE_SENT_PADI (-1) (-1) (replicate ETH_ALEN 0) (replicate ETH_ALEN 0) 0 (pppoe_dev o)
    (optional (pppoe_srv_name o)) (optional (pppoe_ac_name o)) (pppoe_synchronous o) (pppoe_hostuniq o) 0 zero_tag zero_tag.

(** The terminal gets the line discipline and does not block. *)
Definition set_discipline (pty : Z) : sys Z :=
  a ← ask (Ioctl pty TIOCSETD (be_bytes 4 N_HDLC));
  if rv a <? 0 then mret (-1)
  else
    flags ← ask (Fcntl pty);
    if rv flags <? 0 then mret (-1)
    else a ← ask (Fcntl pty); mret (if rv a <? 0 then -1 else 0).

Definition pppoe_module_connect (fuel : nat) (o : pppoe_options) (pty : Z) (packet : bytes)
    : sys (Z * PPPoEConnection * list Z * bytes) :=
  let conn := fresh_conn o in
  if pty =? 0 then '(r, conn) ← discovery pid junk fuel conn; mret (r, conn, [], packet)
  else
    e ← (if synchronous conn then set_discipline pty else mret 0);
    if e <? 0 then mret (-1, conn, [], packet)
    else
      '(r, conn) ← discovery pid junk fuel conn;
      if r <? 0 then mret (-1, conn, [], packet)
      else '(conn, readers, packet) ← start_session conn pty packet; mret (0, conn, readers, packet).

Definition close_if_open (fd : Z) : sys () := if 0 <=? fd then _ ← ask (Close fd); mret () else mret ().

(** The connection that is left is the one [memset] makes. *)
Definition pppoe_module_disconnect (conn : PPPoEConnection) : sys () :=
  '(_, conn) ← sendPADT pid junk conn (Some user_message);
  _ ← close_if_open (discoverySocket conn);
  close_if_open (sessionSocket conn).
End terminal.
