(* ===== verification/PppoeMss.v ===== *)
(** * PPPoE: the maximum segment size

    [computeTCPChecksum] is the checksum of RFC 793 on segments of even length, and [clampMSS]
    lowers the option and leaves a packet whose checksum is right again. *)

From stdpp Require Import base numbers strings list.
From S2P Require Import Prelude Bytes DhcpPacket DhcpPacketProps Syscalls PppHdlc Pppoe PppoeTags PppoeSend PppoeSession.

(** ** The checksum *)

Lemma words_app a b : Nat.Even (length a) → words (a ++ b) = words a + words b.
Proof.
  intros [n Hn]. revert a Hn. induction n as [|n IH]; intros a Hn.
  - destruct a; [done|cbn in Hn; lia].
  - destruct a as [|x [|y a]]; cbn [length] in Hn; try lia. cbn [app words]. rewrite IH by lia. lia.
Qed.

Lemma tcp_sum_spec n l sum :
  is_bytes l → length l = (2 * n)%nat → 0 ≤ sum → sum + 65535 * Z.of_nat n < 4294967296 → tcp_sum sum l = sum + words l.
Proof.
  revert l sum. induction n as [|n IH]; intros l sum Hb Hl H0 Hs.
  - destruct l; cbn in Hl; [cbn; lia|lia].
  - destruct l as [|a [|b l]]; cbn [length] in Hl; try lia.
    apply Forall_cons in Hb as [Ha Hb]. apply Forall_cons in Hb as [Hb Hl2]. unfold is_u8 in *. cbn [tcp_sum words].
    rewrite u32_id by (unfold is_u32; lia). rewrite IH by (done || lia). lia.
Qed.

(** The folding is the one of the DHCP programs on sums of this size. *)
Lemma fold32_spec n s : 0 ≤ s < 2147483648 → fold32 n s = fold_sum n s.
Proof.
  revert s. induction n as [|n IH]; intros s Hs; cbn [fold32 fold_sum]; destruct (Z.shiftr s 16 =? 0); try done.
  destruct (fold_step s Hs) as (E & _ & _).
  assert (Hv : 0 ≤ Z.land s 0xffff + Z.shiftr s 16 < 2147483648).
  { change 0xffff with (Z.ones 16). rewrite Z.land_ones, Z.shiftr_div_pow2 by lia. change (2 ^ 16) with 65536.
    pose proof (Z.mod_pos_bound s 65536). assert (0 ≤ s / 65536 < 32768) by (split; [apply Z.div_pos; lia|apply Z.div_lt_upper_bound; lia]). lia. }
  rewrite u32_id by (unfold is_u32; lia). rewrite s32_id by lia. by apply IH.
Qed.

Lemma fold_sum_more n s r : fold_sum n s = Ok r → fold_sum (S n) s = Ok r.
Proof.
  revert s. induction n as [|n IH]; intros s; cbn [fold_sum]; destruct (Z.shiftr s 16 =? 0); try done.
  intros E. apply IH in E. exact E.
Qed.

(** What a frame of the Ethernet holds at most. *)
Definition ETH_FRAME : nat := 1514.

(** A segment of [n] bytes at [tcp] in a packet whose header of IP is at [ip]. *)
Definition tcp_pseudo (p : bytes) (ip n : nat) : bytes :=
  slice p (ip + 12) 8 ++ [0; p !!! (ip + 9)%nat] ++ be_bytes 2 (Z.of_nat n).
Definition tcp_words (p : bytes) (ip tcp n : nat) : Z := words (tcp_pseudo p ip n ++ slice p tcp n).

Record tcp_at (p : bytes) (ip tcp n : nat) : Prop := {
  ta_len : length p = PACKET_SIZE; ta_bytes : is_bytes p;
  ta_tcp : tcp = (ip + Z.to_nat (Z.land (p !!! ip) 0x0F * 4))%nat; ta_ihl : (ip + 20 ≤ tcp)%nat;
  ta_total : get16 p (ip + 2) = Z.of_nat (tcp - ip + n);
  ta_fits : (20 ≤ n)%nat ∧ (tcp + n ≤ ETH_FRAME)%nat; ta_even : Nat.Even n;
  ta_start : (P_payload < ip)%nat }.

Lemma byte_at_total p i : (i < length p)%nat → byte_at p i = Ok (p !!! i).
Proof. intros H. unfold byte_at. destruct (lookup_lt_is_Some_2 p i H) as [x Hx]. rewrite Hx. cbn. by rewrite (list_lookup_total_correct _ _ _ Hx). Qed.

Lemma get16_bytes p i : (i + 2 ≤ length p)%nat → get16 p i = p !!! i * 256 + p !!! (S i).
Proof.
  intros H. unfold get16, slice. destruct (lookup_lt_is_Some_2 p i) as [x Hx]; [lia|]. destruct (lookup_lt_is_Some_2 p (S i)) as [y Hy]; [lia|].
  rewrite (drop_S _ x i), (drop_S _ y (S i)) by done. cbn [take firstn]. rewrite be_val_2.
  by rewrite (list_lookup_total_correct _ _ _ Hx), (list_lookup_total_correct _ _ _ Hy).
Qed.

Lemma byte_total_range p i : is_bytes p → (i < length p)%nat → is_u8 (p !!! i).
Proof. intros Hb H. destruct (lookup_lt_is_Some_2 p i H) as [x Hx]. rewrite (list_lookup_total_correct _ _ _ Hx). by eapply Forall_lookup_1. Qed.

Lemma land_255 v : Z.land v 0xFF = v `mod` 256.
Proof. change 0xFF with (Z.ones 8). by rewrite Z.land_ones. Qed.

Lemma ihl_range p ip : is_bytes p → (ip < length p)%nat → 0 ≤ Z.land (p !!! ip) 0x0F < 16.
Proof. intros Hb H. change 0x0F with (Z.ones 4). rewrite Z.land_ones by lia. by apply Z.mod_pos_bound. Qed.

Lemma tcp_checksum_spec p ip tcp n :
  tcp_at p ip tcp n →
  ∃ c, computeTCPChecksum p ip tcp = Ok c ∧ 0 ≤ c < 65536 ∧ (tcp_words p ip tcp n + c) `mod` 65535 = 0
    ∧ (c = 65535 ↔ tcp_words p ip tcp n = 0).
Proof.
  intros []. unfold computeTCPChecksum, PACKET_SIZE, ETH_FRAME, P_payload in *. destruct ta_fits0 as [Hn Hfit].
  pose proof (ihl_range p ip ta_bytes0 ltac:(lia)) as Hihl.
  rewrite !byte_at_total by lia. cbn [mbind res_bind].
  assert (Ec : tcp_count (p !!! ip) (p !!! (ip + 2)%nat) (p !!! (ip + 3)%nat) = Z.of_nat n).
  { rewrite get16_bytes in ta_total0 by lia. replace (S (ip + 2)) with (ip + 3)%nat in ta_total0 by lia.
    unfold tcp_count. rewrite ta_total0. unfold u16. rewrite (Z.mod_small (Z.of_nat _)) by lia. rewrite Z.mod_small; lia. }
  rewrite Ec, Nat2Z.id. rewrite !read_at_Ok by lia. cbn [mbind res_bind].
  assert (Eb : [0; p !!! (ip + 9)%nat; Z.land (Z.shiftr (Z.of_nat n) 8) 255; Z.land (Z.of_nat n) 255] = [0; p !!! (ip + 9)%nat] ++ be_bytes 2 (Z.of_nat n)).
  { rewrite be_bytes_2, !land_255, Z.shiftr_div_pow2 by lia. done. }
  rewrite Eb. fold (tcp_pseudo p ip n).
  assert (Hpb : is_bytes (tcp_pseudo p ip n)).
  { unfold tcp_pseudo. apply Forall_app_2; [by apply is_bytes_slice|]. apply Forall_app_2; [|apply is_bytes_be_bytes].
    constructor; [unfold is_u8; lia|]. constructor; [apply byte_total_range; [done|lia]|constructor]. }
  assert (Hpl : length (tcp_pseudo p ip n) = 12%nat) by (unfold tcp_pseudo; rewrite !length_app, length_slice, length_be_bytes by lia; done).
  assert (Hsl : length (slice p tcp n) = n) by (apply length_slice; lia). assert (Hsb : is_bytes (slice p tcp n)) by (by apply is_bytes_slice).
  destruct ta_even0 as [m Hm].
  pose proof (words_range 6 _ Hpb ltac:(lia)) as Hw1. pose proof (words_range m _ Hsb ltac:(lia)) as Hw2.
  rewrite (tcp_sum_spec 6 (tcp_pseudo p ip n) 0) by (done || lia). rewrite (tcp_sum_spec m) by (done || lia). rewrite Z.add_0_l, <- words_app by (exists 6%nat; lia).
  fold (tcp_words p ip tcp n). assert (Hw : 0 ≤ tcp_words p ip tcp n < 2147483648) by (unfold tcp_words; rewrite words_app by (exists 6%nat; lia); lia).
  destruct (fold_sum_spec _ Hw) as (r & Er & Hr & Hmod & Hz). apply fold_sum_more in Er. rewrite fold32_spec, Er by done. cbn [mbind res_bind].
  assert (u16 (Z.land (Z.lnot r) 65535) = 65535 - r) as ->.
  { change 65535 with (Z.ones 16) at 1. rewrite Z.land_ones by lia. change (2 ^ 16) with 65536. unfold u16, Z.lnot. rewrite Z.mod_mod by lia.
    symmetry. apply (Z.mod_unique _ _ (-1)); lia. }
  eexists. split; [done|]. split; [lia|]. split; [|lia].
  rewrite Z.add_mod, <- Hmod, <- Z.add_mod by lia. replace (r + (65535 - r)) with (1 * 65535) by lia. by apply Z_mod_mult.
Qed.

(** ** Options *)

(** The first option of this kind, behind others that are well formed. *)
Inductive mss_at : bytes → nat → Prop :=
| mss_here a b l : mss_at (2 :: 4 :: a :: b :: l) 0
| mss_nop l o : mss_at l o → mss_at (1 :: l) (S o)
| mss_option k v l o : k ≠ 0 → k ≠ 1 → k ≠ 2 → (length v < 254)%nat → mss_at l o →
    mss_at (k :: Z.of_nat (2 + length v) :: v ++ l) (2 + length v + o).

(** None up to the end. *)
Inductive no_mss : bytes → Prop :=
| no_more : no_mss []
| no_end l : no_mss (0 :: l)
| no_nop l : no_mss l → no_mss (1 :: l)
| no_option k v l : k ≠ 0 → k ≠ 1 → k ≠ 2 → (length v < 254)%nat → no_mss l → no_mss (k :: Z.of_nat (2 + length v) :: v ++ l).

Lemma drop_bytes (p : bytes) a x l : drop a p = x :: l → byte_at p a = Ok x ∧ drop (a + 1) p = l.
Proof.
  intros E. assert (Ha : p !! a = Some x) by (pose proof (lookup_drop p a 0) as H; by rewrite E, Nat.add_0_r in H).
  split; [unfold byte_at; by rewrite Ha|]. rewrite <- drop_drop, E. done.
Qed.

(** One option that is passed over. *)
Lemma find_skip fuel p a e k v r :
  drop a p = k :: Z.of_nat (2 + length v) :: v ++ r → (a < e)%nat → k ≠ 0 → k ≠ 1 → k ≠ 2 → (length v < 254)%nat →
  find_mss (S fuel) p a e = find_mss fuel p (a + (2 + length v)) e ∧ drop (a + (2 + length v)) p = r.
Proof.
  intros E Ha H0 H1 H2 Hv. destruct (drop_bytes _ _ _ _ E) as [E1 E'], (drop_bytes _ _ _ _ (proj2 (drop_bytes _ _ _ _ E))) as [E2 E3].
  split.
  - cbn [find_mss]. rewrite decide_False by lia. rewrite E1. cbn [mbind res_bind]. rewrite (proj2 (Z.eqb_neq k 0)), (proj2 (Z.eqb_neq k 1)) by done.
    rewrite E2. cbn [mbind res_bind]. rewrite (proj2 (Z.eqb_neq k 2)) by done. rewrite (proj2 (Z.ltb_ge _ _)) by lia. by rewrite Nat2Z.id.
  - replace (a + (2 + length v))%nat with (a + 1 + 1 + length v)%nat by lia. rewrite <- drop_drop, E3. by rewrite drop_app_length.
Qed.

Lemma find_mss_at l o : mss_at l o → ∀ fuel p a r,
  drop a p = l ++ r → (length l < fuel)%nat → find_mss fuel p a (a + length l) = Ok (MssAt (a + o)).
Proof.
  induction 1 as [b c l|l o Hl IH|k v l o H0 H1 H2 Hv Hl IH]; intros fuel p a r E Hf; (destruct fuel as [|fuel]; [cbn in Hf; lia|]); cbn [app length] in *.
  - destruct (drop_bytes _ _ _ _ E) as [E1 E'], (drop_bytes _ _ _ _ (proj2 (drop_bytes _ _ _ _ E))) as [E2 _].
    cbn [find_mss]. rewrite decide_False by lia. rewrite E1. cbn [mbind res_bind Z.eqb Pos.eqb]. rewrite E2. cbn. by rewrite Nat.add_0_r.
  - destruct (drop_bytes _ _ _ _ E) as [E1 E']. cbn [find_mss]. rewrite decide_False by lia. rewrite E1. cbn [mbind res_bind].
    change (1 =? 0) with false. change (1 =? 1) with true. cbn iota. replace (a + S (length l))%nat with (a + 1 + length l)%nat by lia.
    rewrite (IH fuel p (a + 1)%nat r) by (done || lia). do 2 f_equal. lia.
  - rewrite <- app_assoc in E. rewrite length_app in Hf |- *. destruct (find_skip fuel p a (a + S (S (length v + length l))) k v (l ++ r) E ltac:(lia) H0 H1 H2 Hv) as [-> E'].
    replace (a + S (S (length v + length l)))%nat with (a + (2 + length v) + length l)%nat by lia.
    rewrite (IH fuel p _ r) by (done || lia). do 2 f_equal. lia.
Qed.

Lemma find_no_mss l : no_mss l → ∀ fuel p a r,
  drop a p = l ++ r → (length l < fuel)%nat → find_mss fuel p a (a + length l) = Ok NoMss.
Proof.
  induction 1 as [|l|l Hl IH|k v l H0 H1 H2 Hv Hl IH]; intros fuel p a r E Hf; (destruct fuel as [|fuel]; [cbn in Hf; lia|]); cbn [app length] in *.
  - cbn [find_mss]. by rewrite decide_True by lia.
  - destruct (drop_bytes _ _ _ _ E) as [E1 _]. cbn [find_mss]. rewrite decide_False by lia. by rewrite E1.
  - destruct (drop_bytes _ _ _ _ E) as [E1 E']. cbn [find_mss]. rewrite decide_False by lia. rewrite E1. cbn [mbind res_bind].
    change (1 =? 0) with false. change (1 =? 1) with true. cbn iota. replace (a + S (length l))%nat with (a + 1 + length l)%nat by lia.
    by apply (IH fuel p (a + 1)%nat r); [|lia].
  - rewrite <- app_assoc in E. rewrite length_app in Hf |- *. destruct (find_skip fuel p a (a + S (S (length v + length l))) k v (l ++ r) E ltac:(lia) H0 H1 H2 Hv) as [-> E'].
    replace (a + S (S (length v + length l)))%nat with (a + (2 + length v) + length l)%nat by lia. by apply (IH fuel p _ r); [|lia].
Qed.

(** The search ends on any bytes. *)
Lemma find_total fuel p a e :
  is_bytes p → (e < length p)%nat → (e - a < fuel)%nat →
  ∃ s, find_mss fuel p a e = Ok s ∧ ∀ o, s = MssAt o → (a ≤ o < e)%nat.
Proof.
  intros Hb He. revert a. induction fuel as [|fuel IH]; intros a Hf; [lia|]. cbn [find_mss].
  destruct (decide (e ≤ a)%nat); [by exists NoMss|]. rewrite (byte_at_total p a) by lia. cbn [mbind res_bind].
  destruct (p !!! a =? 0); [by exists NoMss|]. destruct (p !!! a =? 1).
  { destruct (IH (a + 1)%nat ltac:(lia)) as (s & -> & Hs). exists s. split; [done|]. intros o Ho. specialize (Hs o Ho). lia. }
  rewrite (byte_at_total p (a + 1)) by lia. cbn [mbind res_bind]. destruct (p !!! a =? 2).
  { eexists. split; [done|]. intros o. destruct (negb (p !!! (a + 1)%nat =? 4)); [done|]. intros [= <-]. lia. }
  destruct (Z.ltb_spec (p !!! (a + 1)%nat) 2); [by exists Bogus|].
  destruct (IH (a + Z.to_nat (p !!! (a + 1)%nat))%nat ltac:(lia)) as (s & -> & Hs). exists s. split; [done|]. intros o Ho. specialize (Hs o Ho). lia.
Qed.

(** ** Lowering the option *)

Definition lower_mss (p : bytes) (opt : nat) (v : Z) : bytes := set16 p (opt + 2) v.
Definition with_checksum (p : bytes) (tcp : nat) (c : Z) : bytes := set16 (set16 p (tcp + 16) 0) (tcp + 16) c.

Lemma lookup_splice_total_ne b off s i :
  (i < off ∨ off + length s ≤ i)%nat → (off + length s ≤ length b)%nat → splice b off s !!! i = b !!! i.
Proof. intros H Hl. rewrite !list_lookup_total_alt. by rewrite lookup_splice_ne. Qed.

Lemma is_bytes_set16 p off v : is_bytes p → is_bytes (set16 p off v).
Proof. intros Hb. apply is_bytes_splice; [done|apply is_bytes_be_bytes]. Qed.

Lemma set16_ne p off v i : (i < off ∨ off + 2 ≤ i)%nat → (off + 2 ≤ length p)%nat → set16 p off v !!! i = p !!! i.
Proof. intros H Hl. apply lookup_splice_total_ne; by rewrite length_be_bytes. Qed.

Lemma get16_set16 p off v : (off + 2 ≤ length p)%nat → 0 ≤ v < 65536 → get16 (set16 p off v) off = v.
Proof.
  intros H Hv. unfold get16, set16. pose proof (slice_splice p off (be_bytes 2 v)) as E. rewrite length_be_bytes in E.
  rewrite E by done. by apply get16_be.
Qed.

Lemma get16_ext p q off : length p = length q → (off + 2 ≤ length p)%nat → (∀ i, (off ≤ i < off + 2)%nat → p !!! i = q !!! i) → get16 p off = get16 q off.
Proof. intros Hl H E. rewrite !get16_bytes by lia. by rewrite !E by lia. Qed.

(** Nothing of the segment's place depends on its contents. *)
Lemma tcp_at_set16 p ip tcp n off v : tcp_at p ip tcp n → (tcp ≤ off)%nat → (off + 2 ≤ PACKET_SIZE)%nat → tcp_at (set16 p off v) ip tcp n.
Proof.
  intros [] Ho Hl. assert (Hlen : length (set16 p off v) = PACKET_SIZE) by (rewrite length_set16; [done|by rewrite ta_len0]).
  constructor; try done.
  - by apply is_bytes_set16.
  - rewrite set16_ne by (rewrite ?ta_len0; lia). done.
  - rewrite <- ta_total0. apply get16_ext; [by rewrite Hlen|rewrite Hlen; lia|]. intros i Hi. apply set16_ne; [lia|by rewrite ta_len0].
Qed.

Lemma pseudo_set16 p ip tcp n off v : tcp_at p ip tcp n → (tcp ≤ off)%nat → (off + 2 ≤ PACKET_SIZE)%nat → tcp_pseudo (set16 p off v) ip n = tcp_pseudo p ip n.
Proof.
  intros [] Ho Hl. unfold tcp_pseudo. rewrite set16_ne by (rewrite ?ta_len0; lia). unfold set16.
  rewrite slice_splice_before by (rewrite ?ta_len0; lia). done.
Qed.

(** A field of the segment at an even distance counts by its value. *)
Lemma tcp_words_field p ip tcp n k v :
  tcp_at p ip tcp n → Nat.Even k → (k + 2 ≤ n)%nat → 0 ≤ v < 65536 →
  tcp_words (set16 (set16 p (tcp + k) 0) (tcp + k) v) ip tcp n = tcp_words (set16 p (tcp + k) 0) ip tcp n + v.
Proof.
  intros Hp Hk Hn Hv. pose proof (ta_fits _ _ _ _ Hp) as [_ Hfit]. unfold ETH_FRAME in Hfit. assert (tcp + k + 2 ≤ PACKET_SIZE)%nat by (unfold PACKET_SIZE; lia).
  assert (Hp0 : tcp_at (set16 p (tcp + k) 0) ip tcp n) by (apply tcp_at_set16; done || lia).
  unfold tcp_words. rewrite (pseudo_set16 (set16 p (tcp + k) 0) ip tcp n) by (done || lia).
  assert (Hev : Nat.Even (length (tcp_pseudo (set16 p (tcp + k) 0) ip n))).
  { unfold tcp_pseudo. rewrite !length_app, length_be_bytes, length_slice by (destruct Hp0; rewrite ta_len0; lia). by exists 6%nat. }
  rewrite !words_app by done. rewrite <- Z.add_assoc. f_equal.
  assert (Es : ∀ w, slice (set16 p (tcp + k) w) tcp n = slice p tcp k ++ be_bytes 2 w ++ slice p (tcp + k + 2) (n - k - 2)).
  { intros w. unfold set16, splice, slice. rewrite length_be_bytes. pose proof (ta_len _ _ _ _ Hp) as Hl. unfold PACKET_SIZE, ETH_FRAME in *.
    rewrite drop_app_le by (rewrite length_take; lia).
    rewrite (take_app_ge (drop tcp _)) by (rewrite length_drop, length_take; lia).
    rewrite length_drop, length_take. rewrite skipn_firstn_comm.
    replace (tcp + k - tcp)%nat with k by lia. f_equal.
    rewrite take_app_ge by (rewrite length_be_bytes; lia). rewrite length_be_bytes. do 2 f_equal. lia. }
  assert (Hset : set16 (set16 p (tcp + k) 0) (tcp + k) v = set16 p (tcp + k) v).
  { unfold set16, splice. rewrite !length_be_bytes. pose proof (ta_len _ _ _ _ Hp) as Hl. unfold PACKET_SIZE, ETH_FRAME in *.
    rewrite take_app_le by (rewrite length_take; lia). rewrite take_take. rewrite Nat.min_id.
    rewrite drop_app_ge by (rewrite length_take; lia). rewrite length_take.
    rewrite drop_app_ge by (rewrite length_be_bytes; lia). rewrite length_be_bytes, drop_drop. do 3 f_equal. lia. }
  rewrite Hset, !Es.
  assert (Hek : Nat.Even (length (slice p tcp k))) by (rewrite length_slice by (rewrite (ta_len _ _ _ _ Hp); lia); done).
  rewrite !words_app by (done || (rewrite length_be_bytes; by exists 1%nat)). rewrite !be_bytes_2. cbn [words].
  rewrite (be_2_value v) by done. change ((0 / 256) `mod` 256) with 0. change (0 `mod` 256) with 0. lia.
Qed.

(** ** [clampMSS] *)

(** The segment of a connection that is being opened, in a packet of the session. *)
Record syn_segment (p : bytes) (ip tcp n : nat) : Prop := {
  sy_at : tcp_at p ip tcp n;
  sy_ip : ∃ m, ip_header p = Some (ip, m) ∧ m ≤ p_length p;
  sy_version : Z.land (p !!! ip) 0xF0 = 0x40;
  sy_first : Z.land (p !!! (ip + 6)%nat) 0x1F = 0 ∧ p !!! (ip + 7)%nat = 0;
  sy_proto : p !!! (ip + 9)%nat = 6;
  sy_syn : Z.land (p !!! (tcp + 13)%nat) 2 ≠ 0 }.

(** The header of TCP, and its options. *)
Definition tcp_header (p : bytes) (tcp : nat) : nat := Z.to_nat (Z.shiftr (Z.land (p !!! (tcp + 12)%nat) 0xF0) 2).
Definition tcp_options (p : bytes) (tcp : nat) : bytes := slice p (tcp + 20) (tcp_header p tcp - 20).

(** The checksum of RFC 793 is right. *)
Definition valid_tcp (p : bytes) (ip tcp n : nat) : Prop := tcp_words p ip tcp n `mod` 65535 = 0.

Lemma tcp_header_range p tcp : is_bytes p → (tcp + 12 < length p)%nat → (tcp_header p tcp ≤ 60)%nat.
Proof.
  intros Hb H. pose proof (byte_total_range p (tcp + 12) Hb H) as Hr. unfold tcp_header. unfold is_u8 in Hr. rewrite Z.shiftr_div_pow2 by lia. change (2 ^ 2) with 4.
  assert (0 ≤ Z.land (p !!! (tcp + 12)%nat) 0xF0 ≤ 240).
  { revert Hr. generalize (p !!! (tcp + 12)%nat). intros z Hz. assert (Hall : forallb (λ i, let v := Z.land (Z.of_nat i) 0xF0 in (0 <=? v) && (v <=? 240)) (seq 0 256) = true) by (by vm_compute).
    rewrite forallb_forall in Hall. specialize (Hall (Z.to_nat z)). rewrite in_seq, Z2Nat.id in Hall by lia. specialize (Hall ltac:(lia)).
    apply andb_true_iff in Hall as [H1 H2]. lia. }
  assert (Z.land (p !!! (tcp + 12)%nat) 240 / 4 ≤ 60) by (apply Z.div_le_upper_bound; lia). lia.
Qed.

Lemma words_pos p ip tcp n : tcp_at p ip tcp n → p !!! (ip + 9)%nat = 6 → 0 < tcp_words p ip tcp n.
Proof.
  intros [] Hp. unfold tcp_words, tcp_pseudo. unfold PACKET_SIZE, ETH_FRAME in *.
  assert (E8 : Nat.Even (length (slice p (ip + 12) 8))) by (rewrite length_slice by lia; by exists 4%nat).
  rewrite <- !app_assoc, words_app by done. rewrite Hp. cbn [app words].
  pose proof (words_range 4 (slice p (ip + 12) 8) (is_bytes_slice _ _ _ ta_bytes0) ltac:(rewrite length_slice; lia)).
  pose proof (words_range 800 (be_bytes 2 (Z.of_nat n) ++ slice p tcp n)) as H2.
  assert (is_bytes (be_bytes 2 (Z.of_nat n) ++ slice p tcp n)) by (apply Forall_app_2; [apply is_bytes_be_bytes|by apply is_bytes_slice]).
  specialize (H2 ltac:(done) ltac:(rewrite length_app, length_be_bytes, length_slice by lia; lia)). lia.
Qed.

(** The way to the options, for a segment whose checksum the code computes as [c]. *)
Lemma clamp_way p ip tcp n c v :
  syn_segment p ip tcp n → computeTCPChecksum p ip tcp = Ok c →
  clampMSS p v = if c =? 0 then clamp_options p ip tcp v else mret p.
Proof.
  intros [Hat (m & Eip & Hm) Hver [Hf1 Hf2] Hproto Hsyn] Ec. pose proof Hat as []. unfold PACKET_SIZE, ETH_FRAME in *. unfold clampMSS.
  rewrite Eip, (proj2 (Z.ltb_ge _ _)) by done. rewrite !byte_at_total by lia. cbn [mbind res_bind]. rewrite Hver, Hf1, Hf2, Hproto.
  cbn [Z.eqb Pos.eqb negb orb]. rewrite <- ta_tcp0. rewrite byte_at_total by lia. cbn [mbind res_bind].
  rewrite (proj2 (Z.eqb_neq _ _)) by done. rewrite Ec. cbn [mbind res_bind]. by destruct (c =? 0).
Qed.

Lemma checksum_zero p ip tcp n : syn_segment p ip tcp n →
  ∃ c, computeTCPChecksum p ip tcp = Ok c ∧ 0 ≤ c < 65536 ∧ (c = 0 ↔ valid_tcp p ip tcp n).
Proof.
  intros Hs. destruct (tcp_checksum_spec p ip tcp n (sy_at _ _ _ _ Hs)) as (c & E & Hc & Hm & Hz). exists c. split; [done|]. split; [done|].
  pose proof (words_pos _ _ _ _ (sy_at _ _ _ _ Hs) (sy_proto _ _ _ _ Hs)) as Hpos. unfold valid_tcp.
  split; [intros ->; by rewrite Z.add_0_r in Hm|]. intros Hv. rewrite Z.add_mod, Hv, Z.add_0_l, Z.mod_mod in Hm by lia.
  destruct (decide (c = 65535)) as [->|]; [lia|]. rewrite Z.mod_small in Hm; lia.
Qed.

(** The stores of [clampMSS]: the option, then the checksum of what results. *)
Lemma lowered p ip tcp n opt v :
  syn_segment p ip tcp n → (tcp + 20 ≤ opt)%nat → (opt + 4 ≤ PACKET_SIZE)%nat → 0 ≤ v < 65536 →
  ∃ c, computeTCPChecksum (set16 (lower_mss p opt v) (tcp + 16) 0) ip tcp = Ok c ∧ 0 ≤ c < 65536
    ∧ valid_tcp (with_checksum (lower_mss p opt v) tcp c) ip tcp n.
Proof.
  intros [Hat _ _ _ _ _] Ho He Hv. pose proof (ta_fits _ _ _ _ Hat) as [Hn Hfit]. unfold ETH_FRAME in Hfit.
  assert (He2 : (tcp + 16 + 2 ≤ PACKET_SIZE)%nat) by (unfold PACKET_SIZE; lia).
  assert (Hat1 : tcp_at (lower_mss p opt v) ip tcp n) by (apply tcp_at_set16; done || lia).
  assert (Hat2 : tcp_at (set16 (lower_mss p opt v) (tcp + 16) 0) ip tcp n) by (apply tcp_at_set16; done || lia).
  destruct (tcp_checksum_spec _ _ _ _ Hat2) as (c & E & Hc & Hm & _). exists c. split; [done|]. split; [done|].
  unfold valid_tcp, with_checksum. rewrite (tcp_words_field _ ip tcp n 16 c) by (done || lia || by exists 8%nat). done.
Qed.

Definition lowered_packet (p : bytes) (ip tcp opt : nat) (v : Z) : res bytes :=
  c ← computeTCPChecksum (set16 (lower_mss p opt v) (tcp + 16) 0) ip tcp;
  mret (with_checksum (lower_mss p opt v) tcp c).

Lemma be_2_bytes v : [Z.land (Z.shiftr v 8) 0xFF; Z.land v 0xFF] = be_bytes 2 v.
Proof. by rewrite be_bytes_2, !land_255, Z.shiftr_div_pow2 by lia. Qed.

(** What the search finds decides. *)
Lemma clamp_options_spec p ip tcp n v s :
  syn_segment p ip tcp n → 0 ≤ v < 65536 → find_mss 256 p (tcp + 20) (tcp + tcp_header p tcp) = Ok s →
  (∀ o, s = MssAt o → (tcp + 20 ≤ o)%nat ∧ (o + 4 ≤ PACKET_SIZE)%nat) →
  clamp_options p ip tcp v =
    match s with
    | MssAt opt => if get16 p (opt + 2) <=? v then mret p else lowered_packet p ip tcp opt v
    | _ => mret p
    end.
Proof.
  intros Hs Hv Es Hin. pose proof (sy_at _ _ _ _ Hs) as []. destruct ta_fits0 as [Hn Hfit]. unfold ETH_FRAME in Hfit.
  unfold clamp_options. rewrite byte_at_total by (rewrite ta_len0; unfold PACKET_SIZE; lia). rewrite bind_ret.
  assert (Eh : Z.to_nat (Z.shiftr (Z.land (p !!! (tcp + 12)%nat) 0xF0) 2) = tcp_header p tcp) by done. rewrite Eh, Es. clear Eh Es. rewrite bind_ret. destruct s as [| |opt]; try done. specialize (Hin opt eq_refl) as [Ho He].
  unfold read16. rewrite read_at_Ok by (rewrite ta_len0; lia). cbn [fmap res_fmap mbind res_bind]. fold (get16 p (opt + 2)).
  rewrite u32_id by (unfold is_u32; lia). destruct (get16 p (opt + 2) <=? v); [done|].
  rewrite be_2_bytes. rewrite write_at_Ok by (rewrite length_be_bytes, ta_len0; lia). cbn [mbind res_bind].
  fold (set16 p (opt + 2) v). fold (lower_mss p opt v). change [0; 0] with (be_bytes 2 0).
  assert (Hl : length (lower_mss p opt v) = PACKET_SIZE) by (unfold lower_mss; rewrite length_set16 by (rewrite ta_len0; lia); done).
  rewrite write_at_Ok by (rewrite length_be_bytes, Hl; unfold PACKET_SIZE; lia). cbn [mbind res_bind]. fold (set16 (lower_mss p opt v) (tcp + 16) 0).
  unfold lowered_packet. destruct (computeTCPChecksum _ ip tcp) as [c| |]; cbn [mbind res_bind]; try done.
  rewrite write_at_Ok; [done|]. rewrite length_be_bytes, length_set16 by (rewrite Hl; unfold PACKET_SIZE; lia). rewrite Hl. unfold PACKET_SIZE. lia.
Qed.

(** Bytes that are not the value of the option at [opt] or the checksum. *)
Definition elsewhere (tcp opt i : nat) : Prop :=
  i ≠ (opt + 2)%nat ∧ i ≠ (opt + 3)%nat ∧ i ≠ (tcp + 16)%nat ∧ i ≠ (tcp + 17)%nat.

Lemma lowered_bytes p tcp opt v c :
  length p = PACKET_SIZE → (tcp + 20 ≤ opt)%nat → (opt + 4 ≤ PACKET_SIZE)%nat → 0 ≤ v < 65536 →
  let q := with_checksum (lower_mss p opt v) tcp c in
  length q = PACKET_SIZE ∧ get16 q (opt + 2) = v ∧ ∀ i, elsewhere tcp opt i → q !!! i = p !!! i.
Proof.
  intros Hl Ho He Hv q.
  assert (L1 : length (lower_mss p opt v) = PACKET_SIZE) by (unfold lower_mss; rewrite length_set16 by (rewrite Hl; lia); done).
  assert (L2 : length (set16 (lower_mss p opt v) (tcp + 16) 0) = PACKET_SIZE) by (rewrite length_set16 by (rewrite L1; lia); done).
  assert (Lq : length q = PACKET_SIZE) by (unfold q, with_checksum; rewrite length_set16 by (rewrite L2; lia); done).
  assert (Hk : ∀ i, (i < tcp + 16 ∨ tcp + 18 ≤ i)%nat → q !!! i = lower_mss p opt v !!! i).
  { intros i Hi. unfold q, with_checksum. rewrite !set16_ne by (rewrite ?L2, ?L1; lia). done. }
  split; [done|]. split.
  - rewrite (get16_ext q (lower_mss p opt v)); [|by rewrite Lq|rewrite Lq; lia|intros i Hi; apply Hk; lia].
    apply get16_set16; [rewrite Hl; lia|done].
  - intros i (H1 & H2 & H3 & H4). rewrite Hk by lia. unfold lower_mss. apply set16_ne; [lia|rewrite Hl; lia].
Qed.

Lemma valid_dec p ip tcp n : valid_tcp p ip tcp n ∨ ¬ valid_tcp p ip tcp n.
Proof. unfold valid_tcp. destruct (decide (tcp_words p ip tcp n `mod` 65535 = 0)); tauto. Qed.

(** C16: [clampMSS] on a segment of TCP that opens a connection, well formed
    ([syn_segment]): its length is that of the IP header, even, and inside the packet, and its own
    header has between 20 bytes and this length.  It gives a packet.  The packet is the one that came if the checksum of the
    segment is wrong, if its options hold no maximum segment size, or if the
    size is not above [v].  Else the option says [v], the checksum of the
    result is right, and no other byte has changed. *)
Theorem clampMSS_correct (p : bytes) (ip tcp n : nat) (v : Z) :
  syn_segment p ip tcp n → (20 ≤ tcp_header p tcp ≤ n)%nat → 0 ≤ v < 65536 →
  ∃ q, clampMSS p v = Ok q ∧ length q = PACKET_SIZE
    ∧ (¬ valid_tcp p ip tcp n → q = p)
    ∧ (no_mss (tcp_options p tcp) → q = p)
    ∧ (∀ o, mss_at (tcp_options p tcp) o → valid_tcp p ip tcp n →
        let opt := (tcp + 20 + o)%nat in
        (get16 p (opt + 2) ≤ v → q = p)
        ∧ (v < get16 p (opt + 2) → get16 q (opt + 2) = v ∧ valid_tcp q ip tcp n ∧ ∀ i, elsewhere tcp opt i → q !!! i = p !!! i)).
Proof.
  intros Hs Hh Hv. pose proof (sy_at _ _ _ _ Hs) as Hat. destruct (ta_fits _ _ _ _ Hat) as [Hn Hfit]. unfold ETH_FRAME in Hfit.
  pose proof (ta_len _ _ _ _ Hat) as Hl. pose proof (ta_bytes _ _ _ _ Hat) as Hb.
  destruct (checksum_zero p ip tcp n Hs) as (c & Ec & Hc & Hz).
  rewrite (clamp_way p ip tcp n c v Hs Ec).
  destruct (valid_dec p ip tcp n) as [Hval|Hval].
  2: { rewrite (proj2 (Z.eqb_neq c 0)) by tauto. exists p. repeat split; done. }
  rewrite (proj2 Hz Hval), Z.eqb_refl.
  pose proof (tcp_header_range p tcp Hb ltac:(rewrite Hl; unfold PACKET_SIZE; lia)) as Hh60.
  destruct (find_total 256 p (tcp + 20) (tcp + tcp_header p tcp) Hb ltac:(rewrite Hl; unfold PACKET_SIZE; lia) ltac:(lia)) as (s & Es & Hin).
  assert (Hin' : ∀ o, s = MssAt o → (tcp + 20 ≤ o)%nat ∧ (o + 4 ≤ PACKET_SIZE)%nat) by (intros o Ho; specialize (Hin o Ho); unfold PACKET_SIZE; lia).
  rewrite (clamp_options_spec p ip tcp n v s Hs Hv Es Hin').
  assert (Hlen : length (tcp_options p tcp) = (tcp_header p tcp - 20)%nat) by (apply length_slice; rewrite Hl; unfold PACKET_SIZE; lia).
  assert (Hd : drop (tcp + 20) p = tcp_options p tcp ++ drop (tcp_header p tcp - 20) (drop (tcp + 20) p)) by (unfold tcp_options, slice; by rewrite take_drop).
  replace (tcp + tcp_header p tcp)%nat with (tcp + 20 + length (tcp_options p tcp))%nat in Es by (rewrite Hlen; lia).
  assert (Eno : no_mss (tcp_options p tcp) → s = NoMss).
  { intros H. rewrite (find_no_mss _ H 256 p _ _ Hd) in Es by (rewrite Hlen; lia). by injection Es. }
  assert (Eat : ∀ o, mss_at (tcp_options p tcp) o → s = MssAt (tcp + 20 + o)).
  { intros o H. rewrite (find_mss_at _ _ H 256 p _ _ Hd) in Es by (rewrite Hlen; lia). by injection Es. }
  clear Es Hin Hd. destruct s as [| |opt].
  1, 2: exists p; repeat split; try done; by specialize (Eat o ltac:(done)).
  destruct (Hin' opt eq_refl) as [Ho He]. destruct (Z.leb_spec (get16 p (opt + 2)) v) as [Hle|Hgt].
  { exists p. repeat split; try done. all: specialize (Eat o ltac:(done)) as [= ->]; lia. }
  destruct (lowered p ip tcp n opt v Hs Ho He Hv) as (c' & E' & Hc' & Hval').
  destruct (lowered_bytes p tcp opt v c' Hl Ho He Hv) as (Lq & Gq & Kq).
  exists (with_checksum (lower_mss p opt v) tcp c'). unfold lowered_packet. rewrite E'. split; [done|]. split; [done|].
  split; [done|]. split; [intros H; by specialize (Eno H)|]. intros o Hmss _. specialize (Eat o Hmss) as [= ->]. cbv zeta.
  split; [lia|]. by intros _.
Qed.
