(* ===== verification/PppoeSessProps.v ===== *)
(** * PPPoE: packets of the session

    What one end reads from its terminal, cut into reads at any places, is what the other
    end writes to its own. *)

From stdpp Require Import base numbers strings list.
From S2P Require Import Prelude Bytes Syscalls PppHdlc PppHdlcProps Pppoe PppoeTags PppoeSend PppoeSession.

(** ** Frames of the session *)

Definition sess_header (c : PPPoEConnection) : bytes :=
  peerEth c ++ myEth c ++ be_bytes 2 Eth_PPPOE_Session ++ [0x11; CODE_SESS] ++ be_bytes 2 (session c).
Definition sess_frame (c : PPPoEConnection) (p : bytes) : bytes :=
  sess_header c ++ be_bytes 2 (Z.of_nat (length p)) ++ p.

(** A packet of PPP within the MTU, its protocol included. *)
Definition carried (p : bytes) : Prop := is_bytes p ∧ (length p ≤ 1494)%nat.

Lemma carried_tunnelled p : carried p → tunnelled p.
Proof. intros [Hb Hl]. split; [done|]. unfold L2TP_PACKET. lia. Qed.

Lemma async_frame_spec p : carried p → async_frame p = Ok (tunnel_frame p).
Proof.
  intros [Hb Hl]. pose proof (tunnel_fcs_length p). pose proof (frame_escape_length (tunnel_fcs p)).
  transitivity (if Z.of_nat (length (tunnel_frame p)) <=? PPP_BUF then Ok (tunnel_frame p) else Fault); [done|].
  rewrite (proj2 (Z.leb_le _ _)); [done|]. unfold tunnel_frame, PPP_BUF. rewrite !length_app. cbn [length]. lia.
Qed.

Lemma length_sess_header c : eth_ok (peerEth c) → eth_ok (myEth c) → length (sess_header c) = 18%nat.
Proof. intros [Hp _] [Hm _]. unfold sess_header. by rewrite !length_app, Hp, Hm, !length_be_bytes. Qed.

(** The constant members, over any bytes. *)
Lemma session_header_spec packet c :
  eth_ok (peerEth c) → eth_ok (myEth c) → length packet = PACKET_SIZE →
  session_header packet c = sess_header c ++ drop 18 packet.
Proof.
  intros [Hp _] [Hm _] Hl. unfold session_header, sess_header, PACKET_SIZE, ETH_ALEN in *.
  assert (Hs : ∀ x s o, length x = o → splice (x ++ drop o packet) o s = (x ++ s) ++ drop (o + length s) packet).
  { intros x s o <-. rewrite splice_app, drop_drop. by rewrite <- app_assoc. }
  assert (Hat : ∀ x s o k, length x = o → k = (o + length s)%nat → splice (x ++ drop o packet) o s = (x ++ s) ++ drop k packet) by (intros; subst k; by apply Hs).
  unfold set16, set8, P_dest, P_source, P_proto, P_vertype, P_code, P_session.
  rewrite <- (drop_0 packet) at 1. rewrite <- (app_nil_l (drop 0 packet)).
  rewrite (Hat [] _ 0%nat 6%nat) by (done || by rewrite Hp).
  rewrite (Hat _ _ 6%nat 12%nat) by (rewrite ?length_app, ?Hp, ?Hm; done).
  rewrite (Hat _ _ 12%nat 14%nat) by (rewrite ?length_app, ?Hp, ?Hm, ?length_be_bytes; done).
  rewrite (Hat _ _ 14%nat 15%nat) by (rewrite ?length_app, ?Hp, ?Hm, ?length_be_bytes; done).
  rewrite (Hat _ _ 15%nat 16%nat) by (rewrite ?length_app, ?Hp, ?Hm, ?length_be_bytes; done).
  rewrite (Hat _ _ 16%nat 18%nat) by (rewrite ?length_app, ?Hp, ?Hm, ?length_be_bytes; done).
  f_equal. rewrite <- !app_assoc. done.
Qed.

(** ** To the Ethernet *)

(** What [send] answers, apart from failures that end the session. *)
Class Accepts (os : Os) : Prop := {
  accepts_send : ∀ t fd d, let a := answer_to t (Send fd d) in 0 ≤ rv a ∨ errno a = ENOBUFS }.

(** [packet] holds the header, two bytes for the length, [pk], and what is left. *)
Definition holds (c : PPPoEConnection) (pk : bytes) (packet : bytes) : Prop :=
  ∃ x rest, packet = ((sess_header c ++ x) ++ pk) ++ rest ∧ length x = 2%nat ∧ length packet = PACKET_SIZE.

Section terminal.
Context `{Hos : Os}.
Context (c : PPPoEConnection) (Hp : eth_ok (peerEth c)) (Hm : eth_ok (myEth c)).

Lemma holds_nil pk packet : holds c pk packet → holds c [] packet.
Proof. intros (x & rest & -> & Hx & Hl). exists x, (pk ++ rest). rewrite app_nil_r. split; [by rewrite <- !app_assoc|done]. Qed.

Lemma holds_header packet : length packet = PACKET_SIZE → holds c [] (session_header packet c).
Proof.
  intros Hl. rewrite session_header_spec by done. exists (slice packet 18 2), (drop 20 packet).
  pose proof (length_sess_header c Hp Hm). unfold PACKET_SIZE in *. split; [|split].
  - rewrite app_nil_r, <- app_assoc. f_equal. unfold slice. rewrite <- (take_drop 2 (drop 18 packet)) at 1. by rewrite drop_drop.
  - apply length_slice. lia.
  - rewrite length_app, length_drop. lia.
Qed.

(** One byte more. *)
Lemma holds_byte pk packet b :
  holds c pk packet → (length pk < 1496)%nat →
  ∃ packet', write_at packet (P_payload + length pk) [b] = Ok packet' ∧ holds c (pk ++ [b]) packet'.
Proof.
  intros (x & rest & -> & Hx & Hl) Hroom. pose proof (length_sess_header c Hp Hm) as Hh. unfold PACKET_SIZE, P_payload in *.
  rewrite !length_app, Hh, Hx in Hl.
  assert (E : (20 + length pk)%nat = length ((sess_header c ++ x) ++ pk)) by (rewrite !length_app; lia).
  rewrite E, write_app by (cbn [length]; lia). eexists. split; [done|]. exists x, (drop 1 rest).
  split; [by rewrite <- !app_assoc|]. split; [done|]. rewrite !length_app, length_drop. cbn [length]. unfold PACKET_SIZE. lia.
Qed.

(** The bytes of a packet, as they come escaped. *)
Lemma read_escaped l : ∀ pk packet rest t,
  is_bytes l → holds c pk packet → (length pk + length l ≤ 1496)%nat →
  ∃ packet', holds c (pk ++ l) packet' ∧
    read_bytes c 0 ((l ≫= frame_escape) ++ rest) (mk_reader STATE_BUILDING_PACKET (Z.of_nat (length pk)) 0) packet t
    = read_bytes c 0 rest (mk_reader STATE_BUILDING_PACKET (Z.of_nat (length pk + length l)) 0) packet' t.
Proof.
  induction l as [|b l IH]; intros pk packet rest t Hb Hh Hl.
  { exists packet. rewrite app_nil_r. split; [done|]. cbn [length]. by rewrite Nat.add_0_r. }
  apply Forall_cons in Hb as [Hb Hbl]. cbn [length] in Hl. destruct (holds_byte pk packet b Hh ltac:(lia)) as (packet1 & Ew & Hh1).
  destruct (IH (pk ++ [b]) packet1 rest t Hbl Hh1 ltac:(rewrite length_app; cbn; lia)) as (packet2 & Hh2 & E2).
  exists packet2. split; [by rewrite <- app_assoc in Hh2|]. cbn [length].
  replace (length pk + S (length l))%nat with (length (pk ++ [b]) + length l)%nat by (rewrite length_app; cbn; lia). rewrite <- E2.
  cbn [mbind list_bind]. rewrite <- app_assoc.
  assert (Hroom : (ETH_DATA_LEN - 4 <=? Z.of_nat (length pk)) = false) by (apply Z.leb_gt; unfold ETH_DATA_LEN; lia).
  assert (Es : Z.of_nat (length pk) + 1 = Z.of_nat (length (pk ++ [b]))) by (rewrite length_app; cbn; lia).
  unfold frame_escape at 1. destruct (frame_special b) eqn:Eb; cbn [app read_bytes r_state r_size r_xor].
  - change (FRAME_ESC =? FRAME_ESC) with true. cbn iota. destruct (proj2 (escaped_byte b Hb) Eb) as [H1 H2].
    cbn [read_bytes r_state r_size r_xor]. rewrite (proj2 (Z.eqb_neq _ _) H1), (proj2 (Z.eqb_neq _ _) H2), Hroom.
    rewrite lxor_twice, Nat2Z.id, (lift_bind _ _ _ _ Ew), Es. done.
  - unfold frame_special in Eb. apply orb_false_iff in Eb as [Eb _]. apply orb_false_iff in Eb as [Eb E1].
    apply orb_false_iff in Eb as [E3 _]. unfold FRAME_FLAG, FRAME_ESC in *. rewrite E1, E3, Hroom, Z.lxor_0_r.
    rewrite Nat2Z.id, (lift_bind _ _ _ _ Ew), Es. done.
Qed.

(** The end of a packet: it leaves without the two bytes of the checksum. *)
Lemma session_frame_spec p f packet :
  holds c (p ++ f) packet → length f = 2%nat → (length p ≤ 1494)%nat →
  ∃ packet', session_frame packet (Z.of_nat (length p)) 0 = Ok (sess_frame c p, packet') ∧ holds c [] packet'.
Proof.
  intros (x & rest & -> & Hx & Hl) Hf Hlp. pose proof (length_sess_header c Hp Hm) as Hh. unfold PACKET_SIZE in *.
  unfold session_frame, clamped. change (0 =? 0) with true. cbn iota.
  assert (E : set16 (((sess_header c ++ x) ++ p ++ f) ++ rest) P_length (Z.of_nat (length p)) = sess_frame c p ++ f ++ rest).
  { unfold set16, sess_frame. rewrite <- !app_assoc. replace P_length with (length (sess_header c)) by (rewrite Hh; done).
    rewrite splice_app, length_be_bytes. do 3 f_equal. rewrite <- Hx. by rewrite drop_app_length. }
  rewrite E. cbn [mbind res_bind mret res_ret].
  assert (Hlf : length (sess_frame c p) = (20 + length p)%nat) by (unfold sess_frame; rewrite !length_app, Hh, length_be_bytes; lia).
  replace (Z.to_nat (Z.of_nat (length p) + HDR_SIZE)) with (length (sess_frame c p)) by (rewrite Hlf; unfold HDR_SIZE, PPPOE_OVERHEAD; lia).
  rewrite read_at_Ok by (rewrite length_app; lia). cbn [mbind res_bind]. unfold slice. rewrite drop_0, take_app_length.
  eexists. split; [done|]. exists (be_bytes 2 (Z.of_nat (length p))), (p ++ f ++ rest).
  split; [unfold sess_frame; by rewrite app_nil_r, <- !app_assoc|]. split; [by rewrite length_be_bytes|].
  rewrite !length_app in *. cbn [length] in *. unfold PACKET_SIZE. lia.
Qed.

Lemma send_packet `{!Accepts Hos} p f packet t :
  holds c (p ++ f) packet → length f = 2%nat → (length p ≤ 1494)%nat →
  ∃ packet', holds c [] packet' ∧ sendSessionPacket c packet (Z.of_nat (length p)) 0 t
    = Ok ((0, packet'), t ++ [(Send (sessionSocket c) (sess_frame c p), answer_to t (Send (sessionSocket c) (sess_frame c p)))]).
Proof.
  intros Hh Hf Hl. destruct (session_frame_spec p f packet Hh Hf Hl) as (packet' & E & Hh'). exists packet'. split; [done|].
  unfold sendSessionPacket. rewrite (lift_bind _ _ _ _ E). cbv beta iota. rewrite ask_bind.
  destruct (accepts_send t (sessionSocket c) (sess_frame c p)) as [Ha|Ha].
  - by rewrite (proj2 (Z.ltb_ge _ _)).
  - rewrite Ha. by destruct (_ <? 0).
Qed.

(** One frame, from the first flag to the last. *)
Lemma read_frame `{!Accepts Hos} p rest packet t :
  carried p → holds c [] packet →
  ∃ packet', holds c [] packet' ∧
    read_bytes c 0 (tunnel_frame p ++ rest) initPPP packet t
    = read_bytes c 0 rest initPPP packet'
        (t ++ [(Send (sessionSocket c) (sess_frame c p), answer_to t (Send (sessionSocket c) (sess_frame c p)))]).
Proof.
  intros [Hb Hl] Hh. pose proof (tunnel_fcs_length p) as Hw. unfold tunnel_frame. rewrite <- !app_assoc. cbn [app].
  destruct (read_escaped (tunnel_fcs p) [] packet (FRAME_FLAG :: rest) t (tunnel_fcs_bytes p Hb) Hh ltac:(cbn; lia)) as (packet1 & Hh1 & E1).
  cbn [app length] in *. destruct (send_packet p (fcs_bytes (pppfcs16 (pppfcs16 PPPINITFCS16 [FRAME_ADDR; FRAME_CTRL]) p)) packet1 t Hh1 eq_refl Hl) as (packet2 & Hh2 & E2).
  exists packet2. split; [done|]. unfold initPPP at 1.
  cbn [read_bytes r_state r_size r_xor]. change (FRAME_FLAG =? FRAME_ADDR) with false. cbn iota.
  cbn [read_bytes r_state r_size r_xor]. change (FRAME_ADDR =? FRAME_ADDR) with true. cbn iota.
  cbn [read_bytes r_state r_size r_xor]. change (FRAME_ESC =? Z.lxor FRAME_CTRL FRAME_ENC) with false. cbn iota.
  cbn [read_bytes r_state r_size r_xor]. change (Z.lxor FRAME_CTRL FRAME_ENC =? Z.lxor FRAME_CTRL FRAME_ENC) with true. cbn iota.
  cbn [r_size r_xor]. change (Z.of_nat 0) with 0 in E1. rewrite E1, Hw, Nat.add_0_l.
  cbn [read_bytes r_state r_size r_xor]. change (FRAME_FLAG =? FRAME_ESC) with false. change (FRAME_FLAG =? FRAME_FLAG) with true. cbn iota.
  rewrite (proj2 (Z.ltb_ge _ _)) by lia. replace (Z.of_nat (length p + 2) - 2) with (Z.of_nat (length p)) by lia.
  unfold mbind, sys_bind. rewrite E2. cbv beta iota. by change (0 <? 0) with false.
Qed.

(** ** Reads *)

(** Successive reads; the reader that gives up stops. *)
Fixpoint read_all (mss : Z) (reads : list bytes) (r : ppp_reader) (packet : bytes) : sys (Z * ppp_reader * bytes) :=
  match reads with
  | [] => mret (0, r, packet)
  | b :: reads => '(e, r, packet) ← read_bytes c mss b r packet; if e <? 0 then mret (e, r, packet) else read_all mss reads r packet
  end.

(** Where a read ends does not matter. *)
Lemma read_bytes_app mss a b r packet t :
  read_bytes c mss (a ++ b) r packet t
  = ('(e, r, packet) ← read_bytes c mss a r packet; if e <? 0 then mret (e, r, packet) else read_bytes c mss b r packet) t.
Proof.
  revert r packet t. induction a as [|x a IH]; intros r packet t; [done|]. cbn [app read_bytes].
  destruct (r_state r); [by rewrite IH|by rewrite IH|].
  destruct (x =? FRAME_ESC); [by rewrite IH|]. destruct (x =? FRAME_FLAG).
  - destruct (r_size r <? 2); [done|]. unfold mbind, sys_bind. destruct (sendSessionPacket c packet (r_size r - 2) mss t) as [[[e pk] t']| |]; [|done|done].
    destruct (e <? 0); [done|]. rewrite IH. done.
  - destruct (ETH_DATA_LEN - 4 <=? r_size r); [by rewrite IH|]. unfold mbind, sys_bind, lift.
    destruct (write_at packet _ _) as [pk| |]; [|done|done]. rewrite IH. done.
Qed.

Lemma read_all_concat mss reads r packet t : read_all mss reads r packet t = read_bytes c mss (concat reads) r packet t.
Proof.
  revert r packet t. induction reads as [|b reads IH]; intros r packet t; [done|]. cbn [concat read_all]. rewrite read_bytes_app.
  unfold mbind, sys_bind. destruct (read_bytes c mss b r packet t) as [[[[e r'] pk] t']| |]; [|done|done]. by destruct (e <? 0).
Qed.

Lemma read_frames `{!Accepts Hos} ps packet t :
  Forall carried ps → holds c [] packet →
  ∃ packet' t', read_bytes c 0 (concat (map tunnel_frame ps)) initPPP packet t = Ok ((0, initPPP, packet'), t')
    ∧ map fst t' = map fst t ++ map (λ p, Send (sessionSocket c) (sess_frame c p)) ps.
Proof.
  intros Hps. revert packet t. induction Hps as [|p ps Hc Hps IH]; intros packet t Hh.
  { exists packet, t. by rewrite app_nil_r. }
  cbn [map concat]. destruct (read_frame p (concat (map tunnel_frame ps)) packet t Hc Hh) as (packet1 & Hh1 & ->).
  destruct (IH packet1 (t ++ [(Send (sessionSocket c) (sess_frame c p), answer_to t (Send (sessionSocket c) (sess_frame c p)))]) Hh1) as (packet2 & t2 & -> & Et). exists packet2, t2. split; [done|].
  rewrite Et, map_app, <- app_assoc. done.
Qed.
End terminal.

(** ** From the Ethernet *)

(** What is written to the terminal for these datagrams. *)
Fixpoint read_datagrams (conn : PPPoEConnection) (pkt_eth : bytes) (ds : list bytes) : res (list bytes) :=
  match ds with
  | [] => mret []
  | d :: ds =>
      '(out, pkt) ← asyncReadFromEth conn pkt_eth d 0;
      outs ← read_datagrams conn pkt ds;
      mret (if out is Some o then o :: outs else outs)
  end.

(** The two ends of a session. *)
Record session_ends (a b : PPPoEConnection) : Prop := {
  en_a : eth_ok (myEth a); en_b : eth_ok (peerEth a); en_session : 0 ≤ session a < 65536;
  en_my : myEth b = peerEth a; en_peer : peerEth b = myEth a; en_same : session b = session a }.

Lemma frame_arrives a b p pkt :
  session_ends a b → carried p → length pkt = PACKET_SIZE →
  ∃ pkt', asyncReadFromEth b pkt (sess_frame a p) 0 = Ok (Some (tunnel_frame p), pkt') ∧ length pkt' = PACKET_SIZE.
Proof.
  intros [[Hma _] [Hpa _] Hse Hmy Hpe Hss] Hc Hl. pose proof Hc as [Hb Hlp]. unfold ETH_ALEN in *.
  assert (Hlf : length (sess_frame a p) = (20 + length p)%nat).
  { unfold sess_frame, sess_header. rewrite !length_app, Hma, Hpa, !length_be_bytes. cbn [length]. lia. }
  set (r := drop (20 + length p) pkt). unfold PACKET_SIZE in *.
  unfold asyncReadFromEth, read_from_eth. rewrite write_at_Ok by (rewrite Hlf; lia). rewrite bind_ret.
  assert (Ep : splice pkt 0 (sess_frame a p) = sess_frame a p ++ r) by (subst r; rewrite <- Hlf; apply (splice_app [] pkt)).
  rewrite Ep. set (q := sess_frame a p ++ r) in *.
  assert (Eq : q = peerEth a ++ myEth a ++ be_bytes 2 Eth_PPPOE_Session ++ 0x11 :: CODE_SESS :: be_bytes 2 (session a)
      ++ be_bytes 2 (Z.of_nat (length p)) ++ p ++ r) by (subst q; unfold sess_frame, sess_header; rewrite <- !app_assoc; done).
  assert (Elen : p_length q = Z.of_nat (length p)).
  { unfold p_length, get16. rewrite (slice_at q (sess_header a) (be_bytes 2 (Z.of_nat (length p))) (p ++ r)).
    - apply get16_be. lia.
    - subst q. unfold sess_frame. by rewrite <- !app_assoc.
    - unfold sess_header. by rewrite !length_app, Hma, Hpa, !length_be_bytes.
    - by rewrite length_be_bytes. }
  assert (Ecode : p_code q = CODE_SESS).
  { apply (lookup_at q (peerEth a ++ myEth a ++ be_bytes 2 Eth_PPPOE_Session ++ [0x11]) _ (be_bytes 2 (session a) ++ be_bytes 2 (Z.of_nat (length p)) ++ p ++ r)).
    - by rewrite Eq, <- !app_assoc.
    - by rewrite !length_app, Hma, Hpa, length_be_bytes. }
  assert (Evt : q !!! P_vertype = 0x11).
  { apply (lookup_at q (peerEth a ++ myEth a ++ be_bytes 2 Eth_PPPOE_Session) _ (CODE_SESS :: be_bytes 2 (session a) ++ be_bytes 2 (Z.of_nat (length p)) ++ p ++ r)).
    - by rewrite Eq, <- !app_assoc.
    - by rewrite !length_app, Hma, Hpa, length_be_bytes. }
  assert (Eses : p_session q = session a).
  { unfold p_session, get16. rewrite (slice_at q (peerEth a ++ myEth a ++ be_bytes 2 Eth_PPPOE_Session ++ [0x11; CODE_SESS]) (be_bytes 2 (session a)) (be_bytes 2 (Z.of_nat (length p)) ++ p ++ r)).
    - by apply get16_be.
    - by rewrite Eq, <- !app_assoc.
    - by rewrite !length_app, Hma, Hpa, length_be_bytes.
    - by rewrite length_be_bytes. }
  assert (Ed : h_dest q = peerEth a) by (by apply (slice_at _ [] _ _ _ _ Eq)).
  assert (Es : h_source q = myEth a) by (by apply (slice_at _ (peerEth a) _ _ _ _ Eq)).
  assert (Eok : session_packet b q (Z.of_nat (length (sess_frame a p))) = true).
  { unfold session_packet, p_ver, p_type. rewrite Elen, Ecode, Evt, Eses, Ed, Es, Hmy, Hpe, Hss, !bool_decide_eq_true_2, !Z.eqb_refl by done.
    rewrite (proj2 (Z.leb_le _ _)); [done|]. rewrite Hlf. unfold HDR_SIZE, PPPOE_OVERHEAD. lia. }
  assert (Hlq : length q = 1520%nat) by (subst q r; rewrite length_app, length_drop, Hlf; lia).
  rewrite Eok. cbn [negb]. unfold clamped. change (0 =? 0) with true. cbn iota. cbn [mbind res_bind mret res_ret].
  rewrite Elen, Nat2Z.id. rewrite read_at_Ok by (rewrite Hlq; unfold P_payload; lia). cbn [mbind res_bind].
  assert (Epay : slice q P_payload (length p) = p).
  { apply (slice_at q (sess_header a ++ be_bytes 2 (Z.of_nat (length p))) p r).
    - subst q. unfold sess_frame. by rewrite <- !app_assoc.
    - unfold sess_header. by rewrite !length_app, Hma, Hpa, !length_be_bytes.
    - done. }
  rewrite Epay, async_frame_spec by done. eexists. split; [done|]. exact Hlq.
Qed.

Lemma frames_arrive a b ps pkt :
  session_ends a b → Forall carried ps → length pkt = PACKET_SIZE → read_datagrams b pkt (map (sess_frame a) ps) = Ok (map tunnel_frame ps).
Proof.
  intros He Hps. revert pkt. induction Hps as [|p ps Hc Hps IH]; intros pkt Hl; [done|]. cbn [map read_datagrams].
  destruct (frame_arrives a b p pkt He Hc Hl) as (pkt' & -> & Hl'). cbn [mbind res_bind]. by rewrite IH.
Qed.

(** C17: the session carries what it is given.  The frames of packets [ps] come
    from the terminal of [a] in reads cut at any places, in a packet object
    whose bytes before the session are unknown.  The calls that
    [asyncReadFromPPP] makes are one datagram for each packet, and the reader
    is back in its first state.  The other end, reading these datagrams,
    writes the same frames to its own terminal. *)
Theorem session_transparent `{Hos : Os} `{!Accepts Hos} (a b : PPPoEConnection) (ps reads : list bytes) packet pkt_eth t :
  session_ends a b → Forall carried ps → length packet = PACKET_SIZE → length pkt_eth = PACKET_SIZE →
  concat reads = concat (map tunnel_frame ps) →
  ∃ packet' t' ds, read_all a 0 reads initPPP (session_header packet a) t = Ok ((0, initPPP, packet'), t')
    ∧ map fst t' = map fst t ++ map (Send (sessionSocket a)) ds ∧ length ds = length ps
    ∧ read_datagrams b pkt_eth ds = Ok (map tunnel_frame ps).
Proof.
  intros He Hps Hl Hle Hr. pose proof He as []. rewrite read_all_concat, Hr.
  destruct (read_frames a en_b0 en_a0 ps (session_header packet a) t Hps (holds_header a en_b0 en_a0 packet Hl)) as (packet' & t' & E & Et).
  exists packet', t', (map (sess_frame a) ps). split; [done|]. split; [by rewrite Et, map_map|]. split; [by rewrite length_map|].
  by apply frames_arrive.
Qed.
