(* ===== verification/PppoeDemo.v ===== *)
(** * PPPoE: a concentrator, examples and witnesses

    Discovery run against a concentrator, and what the code does where it departs from what
    it means to do. *)

From stdpp Require Import base numbers gmap sets strings list.
From S2P Require Import Prelude Bytes DhcpPacketProps Syscalls PppHdlc PppHdlcProps Pppoe PppoeDisc PppoeTags PppoeSend PppoeDiscProps.
From S2P Require Import PppoeSafe PppoeHandshake PppoeSession PppoeMss PppoeSessProps.

(** ** A network with a concentrator *)

Definition demo_mac : bytes := [0; 80; 186; 1; 2; 3].
Definition demo_ac : concentrator := mk_ac [0; 4; 90; 7; 7; 7] (chars "bras1") [1; 2; 3; 4; 5; 6; 7; 8] 0x1234.

(** Descriptor 5; a frame that is no list of bytes is dropped if [strict]. *)
Definition pppoe_os (strict : bool) (respond : bytes → option bytes) : Os := λ t c,
  match c with
  | Socket _ _ _ | Open _ => mk_reply (if decide (5 ∈ opened t) then -1 else 5) 0 []
  | Ioctl _ r _ => mk_reply 0 0 (if r =? SIOCGIFHWADDR then [0; 1] ++ demo_mac ++ replicate 8 0
                                 else be_bytes 4 1500 ++ replicate 12 0)
  | Send fd d => mk_reply (if fd <? 0 then -1 else Z.of_nat (length d)) 0 []
  | Select _ _ => mk_reply (match last t with Some (Send _ f, _) => if respond f is Some _ then 1 else 0 | _ => 0 end) 0 []
  | Recv _ n =>
      let g := match rev t with (Select _ _, _) :: (Send _ f, _) :: _ => default [] (respond f) | _ => [] end in
      let g := if strict then if bytesb g then take n g else [] else g in
      mk_reply (Z.of_nat (length g)) 0 g
  | Read _ _ => mk_reply (-1) 0 []
  | _ => mk_reply 0 0 []
  end.

Lemma pppoe_os_ok respond : OsOk (pppoe_os true respond).
Proof.
  constructor.
  - intros t d ty p. cbn. case_decide; [by left|right]. split; [lia|done].
  - intros t path. cbn. case_decide; [by left|right]. split; [lia|done].
  - intros t fd r n a _. subst a. unfold answer_to, pppoe_os. cbn [delivered]. destruct (r =? SIOCGIFHWADDR); (split; [done|by apply bytesb_sound]).
  - intros t fd n a _. subst a. unfold answer_to, pppoe_os. cbv zeta. cbn [rv delivered]. set (g := match rev t with [] => _ | _ => _ end).
    split; [done|]. destruct (bytesb g) eqn:E; [|cbn; split; [lia|constructor]]. split; [rewrite length_take; lia|].
    by apply Forall_take, bytesb_sound.
  - intros t fd n a Ha. subst a. cbn in Ha. lia.
Qed.

Lemma pppoe_os_fd strict respond : OsFd (pppoe_os strict respond).
Proof.
  constructor.
  - intros t fd r n. cbn. lia.
  - intros t d ty p. cbn. case_decide; unfold FD_SETSIZE; lia.
  - intros t d. cbn. lia.
Qed.

Lemma pppoe_os_delivers ac : Delivers (pppoe_os false (respond ac)) ac.
Proof.
  constructor.
  - intros t fd f Hfd. cbn. rewrite (proj2 (Z.ltb_ge fd 0)) by done. cbn. lia.
  - intros t fd f a s g Hg. cbn. rewrite last_snoc, Hg. cbn. lia.
  - intros t fd f a s b g Hg r. subst r. unfold answer_to, pppoe_os. rewrite !rev_app_distr. cbn [rev app]. rewrite Hg. done.
Qed.


(** Calls succeed, nothing comes. *)
Definition quiet_os : Os := λ _ _, mk_reply 0 0 [].

Lemma quiet_accepts : Accepts quiet_os.
Proof. constructor. intros t fd d a. left. cbn. lia. Qed.

(** ** A connection *)

Definition demo_options : pppoe_options := mk_options (chars "eth1") [] (chars "bras1") true false.
Definition demo_conn : PPPoEConnection := fresh_conn demo_options.
Definition demo_junk : trace → bytes := λ _, replicate PACKET_SIZE 0xA5.

Lemma demo_junk_ok t : length (demo_junk t) = PACKET_SIZE ∧ is_bytes (demo_junk t).
Proof. split; [apply length_replicate|]. apply bytesb_sound. by vm_compute. Qed.

Lemma zero_tag_stored : stored zero_tag.
Proof.
  unfold stored, zero_tag. cbn [t_type t_length t_payload]. split; [lia|]. split; [lia|]. split; [apply length_replicate|]. apply bytesb_sound. by vm_compute.
Qed.

Lemma eth_okb e : (length e =? 6)%nat && bytesb e = true → eth_ok e.
Proof. rewrite andb_true_iff, Nat.eqb_eq. intros [Hl Hb]. split; [exact Hl|by apply bytesb_sound]. Qed.

Lemma demo_conn_ok : conn_ok demo_conn.
Proof.
  constructor; try apply zero_tag_stored; try (by apply eth_okb; vm_compute); try done.
  - cbn. split; [lia|]. repeat constructor; lia.
Qed.

Lemma demo_ac_ok : ac_ok demo_ac.
Proof.
  constructor; [by apply eth_okb; vm_compute|done|split; [by apply bytesb_sound|cbn; lia]|split; [by apply bytesb_sound|cbn; lia]|cbn; lia].
Qed.

(** The session that discovery opens. *)
Definition connected : res (Z * PPPoEConnection * trace) :=
  @discovery (pppoe_os true (respond demo_ac)) 77 demo_junk 1 demo_conn [].

Example discovery_example :
  match connected with
  | Ok (r, c, t) => r = 0 ∧ session c = 0x1234 ∧ peerEth c = ac_eth demo_ac ∧ length (frames t) = 2%nat
  | _ => False
  end.
Proof. by vm_compute. Qed.

(** ** A segment that opens a connection *)

(** The header of IP, 20 bytes, of a segment of [n] bytes, and a segment with these options. *)
Definition ip_header_of (n : Z) : bytes := [0x45; 0] ++ be_bytes 2 (20 + n) ++ [0; 1; 0x40; 0; 64; 6; 0; 0; 192; 168; 0; 2; 10; 0; 0; 1].
Definition tcp_bytes (sum : Z) (opts data : bytes) : bytes :=
  [0x0C; 0x01; 0; 80; 0; 0; 0; 1; 0; 0; 0; 0; 16 * (5 + Z.of_nat (length opts) `div` 4); 2; 0x16; 0xD0] ++ be_bytes 2 sum ++ [0; 0] ++ opts ++ data.

(** The packet of a session that carries it. *)
Definition ip_packet (c : PPPoEConnection) (segment : bytes) : bytes :=
  splice (replicate PACKET_SIZE 0) 0 (sess_frame c ([0; 0x21] ++ ip_header_of (Z.of_nat (length segment)) ++ segment)).

(** MSS 1460 behind two that are passed over: no operation, and window scale. *)
Definition demo_opts : bytes := [1; 3; 3; 0; 2; 4; 5; 180].
Definition demo_packet : bytes := ip_packet demo_conn (tcp_bytes 38482 demo_opts []).
Definition clamp_result (r : res bytes) : bytes := match r with Ok q => q | _ => [] end.
Definition clamp_bytes : bytes := clamp_result (clampMSS demo_packet 1412).


Lemma demo_packet_tcp : tcp_at demo_packet 22 42 28.
Proof.
  constructor; try (by vm_compute); first [by apply bytesb_sound; vm_compute|by exists 14%nat|vm_compute; lia].
Qed.

Lemma demo_segment : syn_segment demo_packet 22 42 28.
Proof.
  constructor; try (by vm_compute); [apply demo_packet_tcp|]. exists 42. split; [by vm_compute|]. by vm_compute.
Qed.

Lemma clampMSS_correct_witness :
  ∃ q, clampMSS demo_packet 1412 = Ok q ∧ get16 q 68 = 1412 ∧ valid_tcp q 22 42 28 ∧ get16 demo_packet 68 = 1460.
Proof.
  assert (Hh : (20 ≤ tcp_header demo_packet 42 ≤ 28)%nat) by (vm_compute; lia).
  assert (Hv : valid_tcp demo_packet 22 42 28) by (by vm_compute).
  assert (Hm : get16 demo_packet 68 = 1460) by (by vm_compute).
  assert (Ho : mss_at (tcp_options demo_packet 42) 4).
  { assert (Eo : tcp_options demo_packet 42 = 1 :: 3 :: Z.of_nat (2 + length [0]) :: [0] ++ [2; 4; 5; 180]) by (by vm_compute).
    rewrite Eo. apply mss_nop. apply (mss_option 3 [0] [2; 4; 5; 180] 0); [done|done|done|cbn; lia|apply mss_here]. }
  destruct (clampMSS_correct demo_packet 22 42 28 1412 demo_segment Hh ltac:(lia)) as (q & E & _ & _ & _ & H).
  destruct (H 4%nat Ho Hv) as (_ & H2). change (42 + 20 + 4 + 2)%nat with 68%nat in H2. rewrite Hm in H2. destruct (H2 ltac:(lia)) as (H3 & H4 & _).
  exists q. split; [exact E|]. split; [exact H3|]. split; [exact H4|exact Hm].
Defined.

(** ** Witnesses *)

Definition demo_offer : bytes :=
  splice (demo_junk []) 0 (disc_frame demo_mac (ac_eth demo_ac) CODE_PADO 0 (offer_tags demo_ac (padi_tags 77 demo_conn))).

Lemma parsePacket_equivalent_witness :
  parsePacket parsePADOTags demo_offer (init_criteria demo_conn)
  = parse_ref parsePADOTags (covered demo_offer) (demo_offer !!! (P_payload + Z.to_nat (p_length demo_offer))%nat) (init_criteria demo_conn)
  ∧ tags_of (covered demo_offer) = (offer_tags demo_ac (padi_tags 77 demo_conn), Complete).
Proof.
  assert (Hl : length demo_offer = PACKET_SIZE) by (by vm_compute).
  assert (Hb : is_bytes demo_offer) by (apply bytesb_sound; by vm_compute).
  assert (Ho : header_ok demo_offer = true) by (by vm_compute).
  assert (Et : tags_of (covered demo_offer) = (offer_tags demo_ac (padi_tags 77 demo_conn), Complete)) by (by vm_compute).
  destruct (parsePacket_equivalent parsePADOTags demo_offer (init_criteria demo_conn) pado_within Hl Hb) as [H _].
  rewrite Ho in H. split; [exact H|exact Et].
Defined.

Lemma discovery_packets_roundtrip_witness :
  @sendPADI quiet_os 77 demo_junk demo_conn [] = @sends quiet_os demo_conn (padi_frame 77 demo_conn) []
  ∧ reads_as (padi_frame 77 demo_conn) eth_broadcast (myEth demo_conn) CODE_PADI 0 (padi_tags 77 demo_conn).
Proof.
  assert (Hm : is_bytes user_message) by (apply bytesb_sound; by vm_compute).
  assert (Hl : (length user_message ≤ 511)%nat) by (vm_compute; lia).
  destruct (@discovery_packets_roundtrip quiet_os 77 demo_junk demo_conn user_message [] (λ t, proj1 (demo_junk_ok t)) demo_conn_ok Hm Hl) as [[H1 H2] _].
  split; [exact H1|exact H2].
Defined.

Lemma discovery_safe_witness :
  match connected with
  | Ok (r, c, t) => r = 0 ∧ ∃ u, @ran (pppoe_os true (respond demo_ac)) [] u t ∧ discovery_post 77 demo_conn (r, c) u
  | _ => False
  end.
Proof.
  pose proof (@discovery_safe (pppoe_os true (respond demo_ac)) (pppoe_os_ok (respond demo_ac)) (pppoe_os_fd true (respond demo_ac))
    77 demo_junk 1 demo_conn [] demo_junk_ok demo_conn_ok eq_refl) as H.
  assert (E : match connected with Ok (r, c, t) => r = 0 | _ => False end) by (by vm_compute).
  unfold upto in H. fold connected in H. destruct connected as [[[r c] t]| |]; [split; [exact E|exact H]|destruct E|destruct E].
Defined.

Definition open_demo : res (Z * bytes * trace) := @openInterface (pppoe_os false (respond demo_ac)) (chars "eth1") Eth_PPPOE_Discovery (replicate 6 0) [].

Lemma discovery_connects_witness :
  ∃ c' t', @discovery (pppoe_os false (respond demo_ac)) 77 demo_junk 1 demo_conn [] = Ok (0, c', t')
    ∧ discoveryState c' = STATE_SESSION ∧ session c' = 0x1234 ∧ peerEth c' = ac_eth demo_ac.
Proof.
  assert (Hp : is_u32 77) by (unfold is_u32; lia).
  assert (Hf : open_fd 5) by (unfold open_fd, FD_SETSIZE; lia).
  assert (Hm : eth_ok demo_mac) by (by apply eth_okb; vm_compute).
  assert (Eo : open_demo = Ok (5, demo_mac, trace_of open_demo)) by (by vm_compute).
  destruct (@discovery_connects demo_ac (pppoe_os false (respond demo_ac)) (pppoe_os_delivers demo_ac) 77 demo_junk demo_conn 5 demo_mac []
    (trace_of open_demo) demo_junk_ok demo_ac_ok Hp demo_conn_ok eq_refl (or_intror eq_refl) Eo Hf Hm) as (c' & t' & H1 & H2 & H3 & H4 & _).
  exists c', t'. split; [exact H1|]. split; [exact H2|]. split; [exact H3|exact H4].
Defined.

(** The two ends of a session, and packets of it in three reads. *)
Definition near : PPPoEConnection := with_session (with_peerEth (with_discoverySocket demo_conn 5 demo_mac) (ac_eth demo_ac)) 0x1234.
Definition far : PPPoEConnection := with_session (with_peerEth (with_discoverySocket demo_conn 6 (ac_eth demo_ac)) demo_mac) 0x1234.
Definition demo_packets : list bytes := [ipcp_request; [0; 0x21; 0x45; 0x7e; 0x7d; 0xff]].
Definition demo_stream : bytes := concat (map tunnel_frame demo_packets).
Definition demo_reads : list bytes := [take 7 demo_stream; take 30 (drop 7 demo_stream); drop 37 demo_stream].

Lemma session_transparent_witness :
  ∃ packet' t' ds, @read_all quiet_os near 0 demo_reads initPPP (session_header (demo_junk []) near) [] = Ok ((0, initPPP, packet'), t')
    ∧ map fst t' = map (Send (sessionSocket near)) ds ∧ length ds = 2%nat
    ∧ read_datagrams far (demo_junk []) ds = Ok (map tunnel_frame demo_packets).
Proof.
  assert (He : session_ends near far) by (constructor; try done; try (by apply eth_okb; vm_compute); cbn; lia).
  assert (Hc : Forall carried demo_packets).
  { apply Forall_cons_2; [|apply Forall_cons_2; [|constructor]]; (split; [by apply bytesb_sound|vm_compute; lia]). }
  assert (Hr : concat demo_reads = concat (map tunnel_frame demo_packets)) by (by vm_compute).
  destruct (@session_transparent quiet_os quiet_accepts near far demo_packets demo_reads (demo_junk []) (demo_junk []) []
    He Hc (proj1 (demo_junk_ok [])) (proj1 (demo_junk_ok [])) Hr) as (packet' & t' & ds & H1 & H2 & H3 & H4).
  exists packet', t', ds. split; [exact H1|]. split; [exact H2|]. split; [exact H3|exact H4].
Defined.

(** ** Where the code departs from what it means to do *)

(** A PADO for [demo_mac] from this address. *)
Definition pado_from (eth : bytes) (ts : list tlv) : bytes :=
  splice (demo_junk []) 0 (disc_frame demo_mac eth CODE_PADO 0 (uniq_tlv 77 demo_conn ++ ts)).
Definition choosy : PPPoEConnection := fresh_conn (mk_options (chars "eth1") (chars "gold") (chars "bras1") true false).
Definition near_choosy : PPPoEConnection := with_discoverySocket choosy 5 demo_mac.

(** The concentrator asked for does not offer the service, another one does, and is taken. *)
Definition wrong_name : bytes := pado_from [0; 4; 90; 1; 1; 1] [(TAG_AC_NAME, chars "bras1"); (TAG_SERVICE_NAME, chars "tin")].
Definition wrong_ac : bytes := pado_from [0; 4; 90; 2; 2; 2] [(TAG_AC_NAME, chars "rogue"); (TAG_SERVICE_NAME, chars "gold")].

Example names_of_two_offers :
  match pado_packet 77 wrong_name 100 (init_criteria near_choosy) with
  | Ok (o, pc) =>
      o = Continue ∧
      match pado_packet 77 wrong_ac 100 pc with
      | Ok (o', pc') => o' = Break ∧ peerEth (pc_conn pc') = [0; 4; 90; 2; 2; 2]
      | _ => False
      end
  | _ => False
  end
  ∧ (match pado_packet 77 wrong_ac 100 (init_criteria near_choosy) with Ok (o, _) => o = Continue | _ => False end).
Proof. by vm_compute. Qed.

(** Nobody answers: the socket of discovery stays open, and the next attempt cannot close it. *)
Definition alone : res (Z * PPPoEConnection * list Z * bytes * trace) :=
  @pppoe_module_connect (pppoe_os true (λ _, None)) 77 demo_junk 1 demo_options 9 (demo_junk []) [].

Example failed_discovery_leaks :
  match alone with
  | Ok (r, c, readers, _, t) => r = -1 ∧ readers = [] ∧ opened t = {[5]} ∧ length (frames t) = 2%nat
      ∧ discoverySocket (fresh_conn demo_options) = -1
  | _ => False
  end.
Proof. by vm_compute. Qed.

(** The farewell to a PADT of the peer is not sent: the session is already forgotten. *)
Definition padt_packet : bytes :=
  splice (demo_junk []) 0 (disc_frame demo_mac (ac_eth demo_ac) CODE_PADT 0x9999 []).

Example padt_not_answered :
  match @discovery_read quiet_os 77 demo_junk near padt_packet 60 [] with
  | Ok (hangup, c, t) => hangup = true ∧ session c = 0 ∧ t = [] ∧ session near ≠ p_session padt_packet
  | _ => False
  end.
Proof. by vm_compute. Qed.

(** The length in the header of IP is believed. *)
Example checksum_overread : clampMSS (set16 demo_packet 24 65535) 1412 = Fault.
Proof. by vm_compute. Qed.

(** A correct segment of odd length is taken for a damaged one. *)
Definition odd_packet : bytes := ip_packet demo_conn (tcp_bytes 37453 demo_opts [1; 2; 3]).
Example odd_segment_not_clamped :
  words (tcp_pseudo odd_packet 22 31 ++ slice odd_packet 42 31 ++ [0]) `mod` 65535 = 0 ∧ clampMSS odd_packet 1412 = Ok odd_packet.
Proof. by vm_compute. Qed.

(** A frame too short: the rest of the read is lost, and its byte stays before the next frame. *)
Example short_frame :
  match @asyncReadFromPPP (λ _ _, mk_reply 5 0 [0xff; 0x23; 0x41; 0x7e; 0xff]) 77 demo_junk near 3 0 initPPP (demo_junk []) [] with
  | Ok (r, _, reader, _, _) => r = -1 ∧ reader = mk_reader STATE_BUILDING_PACKET 1 0
  | _ => False
  end.
Proof. by vm_compute. Qed.
