(* ===== verification/Md5.v ===== *)
(** * MD5 (progs.gpl/pppd.alpha/md5.c) and RFC 1321

    The message comes in pieces through a buffer of 64 bytes; what [MD5Final] gives is the
    digest of RFC 1321 of the whole message, with its round constants computed from the
    sine. *)

From stdpp Require Import base numbers strings list.
From S2P Require Import Prelude Bytes.

(** ** The step *)

Definition not32 (x : Z) : Z := Z.lxor x 0xffffffff.
Definition F (x y z : Z) : Z := Z.lor (Z.land x y) (Z.land (not32 x) z).
Definition G (x y z : Z) : Z := Z.lor (Z.land x z) (Z.land y (not32 z)).
Definition H (x y z : Z) : Z := Z.lxor (Z.lxor x y) z.
Definition I (x y z : Z) : Z := Z.lxor y (Z.lor x (not32 z)).
Definition ROTATE_LEFT (x n : Z) : Z := Z.lor (u32 (Z.shiftl x n)) (Z.shiftr x (32 - n)).

(** [buf]: [a], [b], [c], [d]. *)
Definition words4 : Type := Z * Z * Z * Z.

Definition FF (f : Z → Z → Z → Z) (a b c d x s ac : Z) : Z :=
  u32 (ROTATE_LEFT (u32 (a + (f b c d + x + ac))) s + b).

(** A line of a round: the names of the variables go around after it. *)
Definition step (f : Z → Z → Z → Z) (inw : list Z) (v : words4) (e : nat * Z * Z) : words4 :=
  let '(a, b, c, d) := v in
  let '(k, s, ac) := e in
  (d, FF f a b c d (inw !!! k) s ac, b, c).

Definition round1 : list (nat * Z * Z) :=
  [(0%nat,7,3614090360); (1%nat,12,3905402710); (2%nat,17,606105819); (3%nat,22,3250441966);
   (4%nat,7,4118548399); (5%nat,12,1200080426); (6%nat,17,2821735955); (7%nat,22,4249261313);
   (8%nat,7,1770035416); (9%nat,12,2336552879); (10%nat,17,4294925233); (11%nat,22,2304563134);
   (12%nat,7,1804603682); (13%nat,12,4254626195); (14%nat,17,2792965006); (15%nat,22,1236535329)].
Definition round2 : list (nat * Z * Z) :=
  [(1%nat,5,4129170786); (6%nat,9,3225465664); (11%nat,14,643717713); (0%nat,20,3921069994);
   (5%nat,5,3593408605); (10%nat,9,38016083); (15%nat,14,3634488961); (4%nat,20,3889429448);
   (9%nat,5,568446438); (14%nat,9,3275163606); (3%nat,14,4107603335); (8%nat,20,1163531501);
   (13%nat,5,2850285829); (2%nat,9,4243563512); (7%nat,14,1735328473); (12%nat,20,2368359562)].
Definition round3 : list (nat * Z * Z) :=
  [(5%nat,4,4294588738); (8%nat,11,2272392833); (11%nat,16,1839030562); (14%nat,23,4259657740);
   (1%nat,4,2763975236); (4%nat,11,1272893353); (7%nat,16,4139469664); (10%nat,23,3200236656);
   (13%nat,4,681279174); (0%nat,11,3936430074); (3%nat,16,3572445317); (6%nat,23,76029189);
   (9%nat,4,3654602809); (12%nat,11,3873151461); (15%nat,16,530742520); (2%nat,23,3299628645)].
Definition round4 : list (nat * Z * Z) :=
  [(0%nat,6,4096336452); (7%nat,10,1126891415); (14%nat,15,2878612391); (5%nat,21,4237533241);
   (12%nat,6,1700485571); (3%nat,10,2399980690); (10%nat,15,4293915773); (1%nat,21,2240044497);
   (8%nat,6,1873313359); (15%nat,10,4264355552); (6%nat,15,2734768916); (13%nat,21,1309151649);
   (4%nat,6,4149444226); (11%nat,10,3174756917); (2%nat,15,718787259); (9%nat,21,3951481745)].

Definition add4 (u v : words4) : words4 :=
  let '(a, b, c, d) := u in
  let '(a', b', c', d') := v in
  (u32 (a + a'), u32 (b + b'), u32 (c + c'), u32 (d + d')).

Definition Transform (buf : words4) (inw : list Z) : words4 :=
  let v := foldl (step F inw) buf round1 in
  let v := foldl (step G inw) v round2 in
  let v := foldl (step H inw) v round3 in
  add4 buf (foldl (step I inw) v round4).

(** ** The context *)

(** [digest] is left out. *)
Record MD5_CTX := mk_ctx { ctx_i0 : Z; ctx_i1 : Z; ctx_buf : words4; ctx_in : bytes }.

Definition PADDING : bytes := 0x80 :: replicate 63 0.

(** What the object held is [garbage]. *)
Definition MD5Init (garbage : bytes) : MD5_CTX :=
  mk_ctx 0 0 (0x67452301, 0xefcdab89, 0x98badcfe, 0x10325476) garbage.

(** Four bytes, the low one first. *)
Definition le_word (b : bytes) (ii : nat) : Z :=
  Z.lor (Z.lor (Z.lor (Z.shiftl (b !!! (ii + 3)%nat) 24) (Z.shiftl (b !!! (ii + 2)%nat) 16)) (Z.shiftl (b !!! (ii + 1)%nat) 8)) (b !!! ii).
Definition le_words (b : bytes) (n : nat) : list Z := map (λ i, le_word b (4 * i)) (seq 0 n).

(** The loop over the bytes; [mdi] is the position in [in]. *)
Fixpoint update_loop (mdi : nat) (buf : words4) (inb data : bytes) : words4 * bytes :=
  match data with
  | [] => (buf, inb)
  | c :: data =>
      let inb := <[mdi := c]> inb in
      if decide (S mdi = 64%nat) then update_loop 0 (Transform buf (le_words inb 16)) inb data
      else update_loop (S mdi) buf inb data
  end.

Definition mdi_of (i0 : Z) : nat := Z.to_nat (Z.land (Z.shiftr i0 3) 0x3F).

Definition MD5Update (c : MD5_CTX) (data : bytes) : MD5_CTX :=
  let inLen := Z.of_nat (length data) in
  let i1 := if u32 (ctx_i0 c + u32 (Z.shiftl inLen 3)) <? ctx_i0 c then u32 (ctx_i1 c + 1) else ctx_i1 c in
  let '(buf, inb) := update_loop (mdi_of (ctx_i0 c)) (ctx_buf c) (ctx_in c) data in
  mk_ctx (u32 (ctx_i0 c + u32 (Z.shiftl inLen 3))) (u32 (i1 + Z.shiftr inLen 29)) buf inb.

(** A word as four bytes. *)
Definition le_bytes (w : Z) : bytes :=
  [Z.land w 0xFF; Z.land (Z.shiftr w 8) 0xFF; Z.land (Z.shiftr w 16) 0xFF; Z.land (Z.shiftr w 24) 0xFF].

Definition MD5Final (c : MD5_CTX) : bytes :=
  let mdi := mdi_of (ctx_i0 c) in
  let padLen := if decide (mdi < 56)%nat then (56 - mdi)%nat else (120 - mdi)%nat in
  let c' := MD5Update c (take padLen PADDING) in
  let '(a, b, d, e) := Transform (ctx_buf c') (le_words (ctx_in c') 14 ++ [ctx_i0 c; ctx_i1 c]) in
  le_bytes a ++ le_bytes b ++ le_bytes d ++ le_bytes e.

(** A message in pieces. *)
Definition digest_of (garbage : bytes) (pieces : list bytes) : bytes := MD5Final (foldl MD5Update (MD5Init garbage) pieces).

(** ** RFC 1321 *)

(** The sine of a natural number, scaled by 2^256, by its series: the sum, and the term that
    is next. *)
Definition SCALE : Z := 2 ^ 256.
Fixpoint sine_series (n : nat) (x term k sum : Z) : Z :=
  match n with
  | O => sum
  | S n => sine_series n x (- (term * x * x / ((k + 1) * (k + 2)))) (k + 2) (sum + term)
  end.
Definition sine (x : Z) : Z := sine_series 150 x (x * SCALE) 1 0.

(** The integer part of 4294967296 times abs(sin(i)). *)
Definition T (i : Z) : Z := Z.shiftr (Z.abs (sine i)) (256 - 32).

(** Operation [i], from 0: the word, the shift, the constant. *)
Definition operation (i : nat) : nat * Z * Z :=
  let '(k, shifts) :=
    match (i / 16)%nat with
    | 0%nat => (i, [7; 12; 17; 22])
    | 1%nat => ((5 * i + 1)%nat, [5; 9; 14; 20])
    | 2%nat => ((3 * i + 5)%nat, [4; 11; 16; 23])
    | _ => ((7 * i)%nat, [6; 10; 15; 21])
    end in
  ((k `mod` 16)%nat, shifts !!! (i `mod` 4)%nat, T (Z.of_nat i + 1)).

Lemma operations : map operation (seq 0 64) = round1 ++ round2 ++ round3 ++ round4.
Proof. by vm_compute. Qed.

Definition function_of (i : nat) : Z → Z → Z → Z :=
  match (i / 16)%nat with 0%nat => F | 1%nat => G | 2%nat => H | _ => I end.

(** Numbers with the low byte first. *)
Fixpoint le_val (l : bytes) : Z := match l with [] => 0 | x :: l => x + 256 * le_val l end.
Definition block_words (b : bytes) : list Z := map (λ j, le_val (slice b (4 * j) 4)) (seq 0 16).

Definition compress (buf : words4) (block : bytes) : words4 :=
  add4 buf (foldl (λ v i, step (function_of i) (block_words block) v (operation i)) buf (seq 0 64)).

Fixpoint blocks (n : nat) (buf : words4) (m : bytes) : words4 :=
  match n with
  | O => buf
  | S n => blocks n (compress buf (take 64 m)) (drop 64 m)
  end.

Definition initial : words4 := (0x67452301, 0xefcdab89, 0x98badcfe, 0x10325476).
Definition zeros (n : nat) : nat := ((119 - n `mod` 64) `mod` 64)%nat.
Definition padded (m : bytes) : bytes :=
  let bits := 8 * Z.of_nat (length m) in
  m ++ 0x80 :: replicate (zeros (length m)) 0 ++ le_bytes (u32 bits) ++ le_bytes (u32 (bits / 2 ^ 32)).

Definition md5 (m : bytes) : bytes :=
  let p := padded m in
  let '(a, b, c, d) := blocks (length p / 64) initial p in
  le_bytes a ++ le_bytes b ++ le_bytes c ++ le_bytes d.

Example md5_empty : md5 [] = [0xd4;0x1d;0x8c;0xd9;0x8f;0;0xb2;4;0xe9;0x80;9;0x98;0xec;0xf8;0x42;0x7e].
Proof. by vm_compute. Qed.
Example md5_alphabet :
  md5 (chars "abcdefghijklmnopqrstuvwxyz") = [0xc3;0xfc;0xd3;0xd7;0x61;0x92;0xe4;0;0x7d;0xfb;0x49;0x6c;0xca;0x67;0xe1;0x3b].
Proof. by vm_compute. Qed.

(** ** The code and the standard *)

Lemma lor_shiftl_add a b n : 0 ≤ n → 0 ≤ a < 2 ^ n → Z.lor (Z.shiftl b n) a = b * 2 ^ n + a.
Proof.
  intros Hn Ha. rewrite <- Z.shiftl_mul_pow2 by done. symmetry. rewrite Z.add_nocarry_lxor.
  - apply Z.bits_inj'. intros k Hk. rewrite Z.lxor_spec, Z.lor_spec. destruct (Z.ltb_spec k n).
    + rewrite Z.shiftl_spec_low by done. by rewrite xorb_false_l.
    + rewrite <- (Z.mod_small a (2 ^ n)) by done. rewrite Z.mod_pow2_bits_high by lia. by rewrite xorb_false_r, orb_false_r.
  - apply Z.bits_inj'. intros k Hk. rewrite Z.land_spec, Z.bits_0. destruct (Z.ltb_spec k n).
    + by rewrite Z.shiftl_spec_low by done.
    + rewrite <- (Z.mod_small a (2 ^ n)) by done. rewrite Z.mod_pow2_bits_high by lia. apply andb_false_r.
Qed.

Lemma le_word_val b j : is_bytes b → (j + 4 ≤ length b)%nat → le_word b j = le_val (slice b j 4).
Proof.
  intros Hb Hl. assert (E : ∀ k, (k < 4)%nat → is_u8 (b !!! (j + k)%nat)).
  { intros k Hk. destruct (lookup_lt_is_Some_2 b (j + k)) as [x Hx]; [lia|]. rewrite (list_lookup_total_correct _ _ _ Hx). by eapply Forall_lookup_1. }
  pose proof (E 0%nat ltac:(lia)) as E0. pose proof (E 1%nat ltac:(lia)) as E1. pose proof (E 2%nat ltac:(lia)) as E2. pose proof (E 3%nat ltac:(lia)) as E3.
  rewrite Nat.add_0_r in E0. unfold is_u8 in *. unfold le_word.
  assert (Es : slice b j 4 = [b !!! j; b !!! (j + 1)%nat; b !!! (j + 2)%nat; b !!! (j + 3)%nat]).
  { unfold slice. assert (D : ∀ k, (k < length b)%nat → drop k b = b !!! k :: drop (S k) b).
    { intros k Hk. destruct (lookup_lt_is_Some_2 b k Hk) as [x Hx]. rewrite (list_lookup_total_correct _ _ _ Hx). by apply drop_S. }
    rewrite (D j), (D (S j)), (D (S (S j))), (D (S (S (S j)))) by lia. cbn [take firstn]. do 4 f_equal; repeat f_equal; lia. }
  rewrite Es. cbn [le_val]. rewrite <- Z.lor_assoc, (lor_shiftl_add (b !!! j) _ 8) by lia.
  assert (A16 : Z.lor (Z.shiftl (b !!! (j + 2)%nat) 16) (b !!! (j + 1)%nat * 2 ^ 8 + b !!! j) = b !!! (j + 2)%nat * 2 ^ 16 + (b !!! (j + 1)%nat * 2 ^ 8 + b !!! j)) by (apply lor_shiftl_add; lia).
  rewrite <- Z.lor_assoc, A16, lor_shiftl_add by lia. lia.
Qed.

Lemma le_words_val b n : is_bytes b → (4 * n ≤ length b)%nat → le_words b n = map (λ j, le_val (slice b (4 * j) 4)) (seq 0 n).
Proof. intros Hb Hl. apply map_ext_in. intros j Hj. rewrite in_seq in Hj. apply le_word_val; [done|lia]. Qed.

(** The rounds of the code are the sixty-four operations. *)
Lemma Transform_compress buf b : is_bytes b → length b = 64%nat → Transform buf (le_words b 16) = compress buf b.
Proof.
  intros Hb Hl. rewrite le_words_val by (done || lia). fold (block_words b). unfold Transform, compress. cbv zeta.
  assert (E : ∀ f l v, (∀ i, i ∈ l → function_of i = f) →
    foldl (λ v i, step (function_of i) (block_words b) v (operation i)) v l = foldl (step f (block_words b)) v (map operation l)).
  { intros f l. induction l as [|i l IH]; intros v Hf; [done|]. cbn [foldl map]. rewrite (Hf i) by constructor. apply IH. intros k Hk. apply Hf. by constructor. }
  change (seq 0 64) with (seq 0 16 ++ seq 16 16 ++ seq 32 16 ++ seq 48 16). rewrite !foldl_app.
  assert (Hr : map operation (seq 0 16) = round1 ∧ map operation (seq 16 16) = round2 ∧ map operation (seq 32 16) = round3 ∧ map operation (seq 48 16) = round4)
    by (by vm_compute). destruct Hr as (R1 & R2 & R3 & R4).
  rewrite (E F (seq 0 16)), (E G (seq 16 16)), (E H (seq 32 16)), (E I (seq 48 16)), R1, R2, R3, R4; [reflexivity|..].
  all: intros i Hi; apply elem_of_seq in Hi; unfold function_of.
  - replace (i / 16)%nat with 3%nat; [done|]. apply (Nat.div_unique _ _ _ (i - 48)); lia.
  - replace (i / 16)%nat with 2%nat; [done|]. apply (Nat.div_unique _ _ _ (i - 32)); lia.
  - replace (i / 16)%nat with 1%nat; [done|]. apply (Nat.div_unique _ _ _ (i - 16)); lia.
  - by rewrite Nat.div_small by lia.
Qed.

(** ** Messages in pieces *)

Lemma blocks_app j k h m : blocks (j + k) h m = blocks k (blocks j h m) (drop (64 * j) m).
Proof.
  revert h m. induction j as [|j IH]; intros h m; [by rewrite Nat.mul_0_r, drop_0|]. cbn [Nat.add blocks].
  rewrite IH, drop_drop. do 2 f_equal. lia.
Qed.

Lemma blocks_prefix k h m x : (64 * k ≤ length m)%nat → blocks k h (m ++ x) = blocks k h m.
Proof.
  revert h m. induction k as [|k IH]; intros h m Hl; [done|]. cbn [blocks].
  rewrite take_app_le, drop_app_le by lia. apply IH. rewrite length_drop. lia.
Qed.

(** [buf] has the complete blocks of [m], [inb] the rest. *)
Definition holds (m : bytes) (buf : words4) (inb : bytes) : Prop :=
  buf = blocks (length m / 64) initial m ∧ take (length m `mod` 64) inb = drop (64 * (length m / 64)) m ∧ length inb = 64%nat.

Lemma div_mod_64 n : (n = 64 * (n / 64) + n `mod` 64 ∧ n `mod` 64 < 64)%nat.
Proof. split; [apply Nat.div_mod_eq|apply Nat.mod_upper_bound; lia]. Qed.

Lemma divmod_is n q r : (n = 64 * q + r)%nat → (r < 64)%nat → (n / 64 = q)%nat ∧ (n `mod` 64 = r)%nat.
Proof. intros E Hr. split; symmetry; [by apply (Nat.div_unique _ _ _ r)|by apply (Nat.mod_unique _ _ q)]. Qed.

Lemma take_insert_S (l : bytes) r c : (r < length l)%nat → take (S r) (<[r := c]> l) = take r l ++ [c].
Proof. intros Hr. rewrite (take_S_r _ _ c) by (by apply list_lookup_insert_eq). by rewrite take_insert_ge by done. Qed.

(** One byte. *)
Lemma holds_char m buf inb c :
  holds m buf inb → is_bytes (m ++ [c]) →
  let r := (length m `mod` 64)%nat in
  let inb1 := <[r := c]> inb in
  if decide (S r = 64%nat) then (length (m ++ [c]) `mod` 64 = 0)%nat ∧ holds (m ++ [c]) (Transform buf (le_words inb1 16)) inb1
  else (length (m ++ [c]) `mod` 64 = S r)%nat ∧ holds (m ++ [c]) buf inb1.
Proof.
  intros (Hbuf & Htk & Hl) Hb r inb1. destruct (div_mod_64 (length m)) as [En Hr]. fold r in En, Hr, Htk. set (q := (length m / 64)%nat) in *.
  assert (Hl1 : length inb1 = 64%nat) by (unfold inb1; by rewrite length_insert).
  assert (Et : take (S r) inb1 = drop (64 * q) (m ++ [c])).
  { unfold inb1. rewrite take_insert_S by lia. rewrite Htk. rewrite drop_app_le by lia. done. }
  destruct (decide (S r = 64%nat)) as [E64|E64].
  - destruct (divmod_is (length (m ++ [c])) (S q) 0) as [Eq Er]; [rewrite length_app; cbn [length]; lia|lia|]. split; [done|]. unfold holds. rewrite Eq, Er.
    rewrite E64, take_ge in Et by lia. split; [|split; [|done]].
    + rewrite (Transform_compress buf inb1) by (try done; rewrite Et; by apply Forall_drop). subst buf.
      replace (S q) with (q + 1)%nat by lia. rewrite blocks_app. rewrite blocks_prefix by lia. cbn [blocks]. f_equal.
      rewrite Et. rewrite take_ge; [done|]. rewrite <- Et. lia.
    + cbn [take firstn]. symmetry. apply drop_ge. rewrite length_app. cbn [length]. lia.
  - destruct (divmod_is (length (m ++ [c])) q (S r)) as [Eq Er]; [rewrite length_app; cbn [length]; lia|lia|]. split; [done|]. unfold holds. rewrite Eq, Er.
    split; [|done]. subst buf. by rewrite blocks_prefix by lia.
Qed.

Lemma update_loop_holds data : ∀ m buf inb,
  holds m buf inb → is_bytes (m ++ data) →
  let '(buf', inb') := update_loop (length m `mod` 64) buf inb data in holds (m ++ data) buf' inb'.
Proof.
  induction data as [|c data IH]; intros m buf inb Hh Hb; [by rewrite app_nil_r|]. cbn [update_loop].
  assert (Hb1 : is_bytes (m ++ [c])) by (unfold is_bytes in *; rewrite !Forall_app, Forall_cons in *; naive_solver).
  replace (m ++ c :: data) with ((m ++ [c]) ++ data) in * by (by rewrite <- app_assoc).
  pose proof (holds_char m buf inb c Hh Hb1) as Hs. cbv zeta in Hs. case_decide; destruct Hs as [Er Hs]; pose proof (IH _ _ _ Hs Hb) as IH1; rewrite Er in IH1; exact IH1.
Qed.

(** The number of bits. *)
Definition counts (n : Z) (i0 i1 : Z) : Prop := i0 = u32 (8 * n) ∧ i1 = u32 (8 * n / 2 ^ 32).

Lemma mdi_of_counts n : mdi_of (u32 (8 * Z.of_nat n)) = (n `mod` 64)%nat.
Proof.
  unfold mdi_of, u32. change 0x3F with (Z.ones 6). rewrite Z.land_ones, Z.shiftr_div_pow2 by lia. change (2 ^ 3) with 8. change (2 ^ 6) with 64.
  assert (E : (8 * Z.of_nat n) `mod` 4294967296 / 8 = Z.of_nat n `mod` 536870912).
  { replace 4294967296 with (8 * 536870912) by done. rewrite Z.mul_mod_distr_l by lia. rewrite Z.mul_comm. by rewrite Z.div_mul. }
  rewrite E. rewrite Z.mod_mod_divide by (by exists 8388608).
  rewrite <- (Nat2Z.id (n `mod` 64)). f_equal. by rewrite Nat2Z.inj_mod.
Qed.

Lemma counts_add n k i0 i1 :
  0 ≤ n → 0 ≤ k < 4294967296 → counts n i0 i1 →
  counts (n + k) (u32 (i0 + u32 (Z.shiftl k 3)))
    (u32 ((if u32 (i0 + u32 (Z.shiftl k 3)) <? i0 then u32 (i1 + 1) else i1) + Z.shiftr k 29)).
Proof.
  intros Hn Hk [-> ->]. rewrite Z.shiftl_mul_pow2, Z.shiftr_div_pow2 by lia. change (2 ^ 3) with 8. change (2 ^ 29) with 536870912. change (2 ^ 32) with 4294967296.
  unfold counts, u32. change (2 ^ 32) with 4294967296.
  set (M := 4294967296) in *.
  pose proof (Z.div_mod (8 * n) M ltac:(lia)) as D1. pose proof (Z.mod_pos_bound (8 * n) M ltac:(lia)) as B1.
  pose proof (Z.div_mod (k * 8) M ltac:(lia)) as D2. pose proof (Z.mod_pos_bound (k * 8) M ltac:(lia)) as B2.
  assert (Ek : k / 536870912 = k * 8 / M) by (unfold M; replace 4294967296 with (536870912 * 8) by done; by rewrite Z.div_mul_cancel_r by lia).
  rewrite Ek. set (a := (8 * n) `mod` M) in *. set (b := (k * 8) `mod` M) in *. set (x := 8 * n / M) in *. set (y := k * 8 / M) in *.
  assert (Es : 8 * (n + k) = M * (x + y) + (a + b)) by lia. rewrite Es.
  assert (Ea : (M * (x + y) + (a + b)) `mod` M = (a + b) `mod` M) by (rewrite Z.add_comm, Z.mul_comm; apply Z_mod_plus_full).
  rewrite Ea. split; [done|].
  assert (Ed : (M * (x + y) + (a + b)) / M = x + y + (a + b) / M) by (rewrite Z.add_comm, (Z.mul_comm M), Z.div_add by lia; lia).
  rewrite Ed. destruct (Z.ltb_spec ((a + b) `mod` M) a) as [Hc|Hc].
  - assert ((a + b) / M = 1) as ->.
    { destruct (Z.ltb_spec (a + b) M); [rewrite Z.mod_small in Hc; lia|]. symmetry. apply (Z.div_unique _ _ _ (a + b - M)); lia. }
    rewrite (Z.add_mod_idemp_l (x `mod` M + 1)) by lia. rewrite <- (Z.add_assoc (x `mod` M)), Z.add_mod_idemp_l by lia. f_equal. lia.
  - assert ((a + b) / M = 0) as ->.
    { apply Z.div_small. destruct (Z.ltb_spec (a + b) M); [lia|]. exfalso.
      assert ((a + b) `mod` M = a + b - M) by (symmetry; apply (Z.mod_unique _ _ 1); lia). lia. }
    rewrite Z.add_mod_idemp_l by lia. f_equal. lia.
Qed.

(** A context that has taken [m]. *)
Definition takes (m : bytes) (c : MD5_CTX) : Prop :=
  holds m (ctx_buf c) (ctx_in c) ∧ counts (Z.of_nat (length m)) (ctx_i0 c) (ctx_i1 c).

Lemma init_takes garbage : length garbage = 64%nat → takes [] (MD5Init garbage).
Proof. intros Hl. done. Qed.

Lemma update_takes m c data :
  takes m c → is_bytes (m ++ data) → Z.of_nat (length data) < 4294967296 → takes (m ++ data) (MD5Update c data).
Proof.
  intros [Hh Hc] Hb Hl. unfold takes, MD5Update. pose proof (update_loop_holds data m (ctx_buf c) (ctx_in c) Hh Hb) as Hu.
  destruct Hc as [E0 E1]. rewrite E0, mdi_of_counts. destruct (update_loop _ _ _ _) as [buf inb]. split; [exact Hu|].
  cbn [ctx_i0 ctx_i1]. rewrite length_app, Nat2Z.inj_add. apply counts_add; [lia|lia|done].
Qed.

Lemma updates_take pieces : ∀ m c,
  takes m c → is_bytes (m ++ concat pieces) → Forall (λ p, Z.of_nat (length p) < 4294967296) pieces →
  takes (m ++ concat pieces) (foldl MD5Update c pieces).
Proof.
  induction pieces as [|p ps IH]; intros m c Ht Hb Hl; [by rewrite app_nil_r|]. cbn [concat foldl] in *.
  apply Forall_cons in Hl as [Hp Hl]. rewrite app_assoc in *. apply IH; [|done|done]. apply update_takes; [done| |done].
  unfold is_bytes in *. rewrite !Forall_app in *. naive_solver.
Qed.

(** ** The end of a message *)

Lemma u32_le_bytes w : is_u32 w → le_val (le_bytes w) = w ∧ is_bytes (le_bytes w).
Proof.
  intros Hw. unfold is_u32 in Hw. unfold le_bytes. change 0xFF with (Z.ones 8). rewrite !Z.land_ones, !Z.shiftr_div_pow2 by lia.
  change (2 ^ 8) with 256. change (2 ^ 16) with (256 * 256). change (2 ^ 24) with (256 * 256 * 256).
  rewrite <- !Z.div_div by lia. split; [|repeat constructor; apply Z.mod_pos_bound; lia]. cbn [le_val].
  pose proof (Z.div_mod w 256 ltac:(lia)). pose proof (Z.div_mod (w / 256) 256 ltac:(lia)). pose proof (Z.div_mod (w / 256 / 256) 256 ltac:(lia)).
  assert (0 ≤ w / 256 / 256 / 256 < 256).
  { split; [repeat (apply Z.div_pos; [|lia]); lia|]. repeat (apply Z.div_lt_upper_bound; [lia|]). lia. }
  rewrite (Z.mod_small (w / 256 / 256 / 256)) by lia. lia.
Qed.

(** The words of the last block, of which the buffer has the first 56 bytes. *)
Lemma last_words inb i0 i1 :
  length inb = 64%nat → is_bytes (take 56 inb) → is_u32 i0 → is_u32 i1 →
  le_words inb 14 ++ [i0; i1] = le_words (take 56 inb ++ le_bytes i0 ++ le_bytes i1) 16.
Proof.
  intros Hl Hb H0 H1. destruct (u32_le_bytes i0 H0) as [V0 B0], (u32_le_bytes i1 H1) as [V1 B1].
  set (b := take 56 inb ++ le_bytes i0 ++ le_bytes i1).
  assert (Ht : length (take 56 inb) = 56%nat) by (rewrite length_take; lia).
  assert (Hbl : length b = 64%nat) by (unfold b; rewrite !length_app, Ht; done).
  assert (Hbb : is_bytes b) by (unfold b, is_bytes in *; rewrite !Forall_app; done).
  assert (Es : le_words b 16 = le_words b 14 ++ [le_word b 56; le_word b 60]).
  { unfold le_words. change (seq 0 16) with (seq 0 14 ++ [14%nat; 15%nat]). by rewrite map_app. }
  rewrite Es. f_equal.
  - unfold le_words. apply map_ext_in. intros j Hj. rewrite in_seq in Hj. unfold le_word.
    assert (Hk : ∀ k, (k < 56)%nat → inb !!! k = b !!! k).
    { intros k Hk. unfold b. rewrite lookup_total_app_l by lia. rewrite !list_lookup_total_alt. by rewrite lookup_take_lt. }
    by rewrite !Hk by lia.
  - f_equal; [|f_equal].
    + rewrite le_word_val by (done || lia). unfold slice, b. rewrite drop_app_ge by lia. rewrite Ht. change (56 - 56)%nat with 0%nat. rewrite drop_0. by rewrite take_app_length' by done.
    + rewrite le_word_val by (done || lia). unfold slice, b. rewrite drop_app_ge by lia. rewrite Ht. change (60 - 56)%nat with 4%nat.
      rewrite drop_app_length' by done. by rewrite take_ge by done.
Qed.

Lemma zeros_spec n : ∃ q, (n + S (zeros n) + 8 = 64 * q)%nat ∧ ((zeros n < 64)%nat ∧
  S (zeros n) = if decide (n `mod` 64 < 56)%nat then (56 - n `mod` 64)%nat else (120 - n `mod` 64)%nat).
Proof.
  destruct (div_mod_64 n) as [En Hr]. unfold zeros. set (r := (n `mod` 64)%nat) in *. case_decide.
  - destruct (divmod_is (119 - r) 1 (55 - r)) as [_ ->]; [lia|lia|]. exists (S (n / 64)). lia.
  - destruct (divmod_is (119 - r) 0 (119 - r)) as [_ ->]; [lia|lia|]. exists (S (S (n / 64))). lia.
Qed.

Lemma final_md5 m c : takes m c → is_bytes m → MD5Final c = md5 m.
Proof.
  intros Ht Hb. pose proof Ht as [_ [E0 E1]]. unfold MD5Final, md5. rewrite E0, mdi_of_counts. rewrite <- E0.
  destruct (zeros_spec (length m)) as (q & Hq & Hz & Ez). rewrite <- Ez.
  assert (Ep : take (S (zeros (length m))) PADDING = 0x80 :: replicate (zeros (length m)) 0).
  { unfold PADDING. cbn [take firstn]. f_equal. rewrite take_replicate. f_equal. lia. }
  rewrite Ep. set (pad := 0x80 :: replicate (zeros (length m)) 0).
  assert (Hpl : length pad = S (zeros (length m))) by (unfold pad; cbn [length]; by rewrite length_replicate).
  assert (Hpb : is_bytes (m ++ pad)).
  { unfold is_bytes in *. rewrite Forall_app. split; [done|]. constructor; [unfold is_u8; lia|]. apply Forall_replicate. unfold is_u8. lia. }
  destruct (update_takes m c pad Ht Hpb ltac:(rewrite Hpl; lia)) as [(Hbuf & Htk & Hl) _]. set (c' := MD5Update c pad) in *.
  destruct (divmod_is (length (m ++ pad)) (q - 1) 56) as [Eq Er]; [rewrite length_app, Hpl; lia|lia|]. rewrite Eq, Er in *.
  assert (H0 : is_u32 (ctx_i0 c)) by (rewrite E0; apply u32_range). assert (H1 : is_u32 (ctx_i1 c)) by (rewrite E1; apply u32_range).
  assert (Hb56 : is_bytes (take 56 (ctx_in c'))) by (rewrite Htk; by apply Forall_drop).
  rewrite (last_words (ctx_in c')) by done. set (block := take 56 (ctx_in c') ++ le_bytes (ctx_i0 c) ++ le_bytes (ctx_i1 c)).
  assert (Hbl : length block = 64%nat) by (unfold block; rewrite !length_app, length_take, Hl; done).
  assert (Hbb : is_bytes block).
  { unfold block, is_bytes. rewrite !Forall_app. split; [done|]. split; by apply u32_le_bytes. }
  rewrite (Transform_compress (ctx_buf c') block) by done.
  assert (Epad : padded m = (m ++ pad) ++ le_bytes (ctx_i0 c) ++ le_bytes (ctx_i1 c)).
  { unfold padded, pad. rewrite E0, E1. by rewrite <- !app_assoc. }
  assert (Elen : (length (padded m) / 64 = q - 1 + 1)%nat).
  { destruct (divmod_is (length (padded m)) (q - 1 + 1) 0) as [-> _]; [|lia|done]. rewrite Epad, !length_app, Hpl. cbn [length le_bytes]. lia. }
  assert (Eb : blocks (length (padded m) / 64) initial (padded m) = compress (ctx_buf c') block).
  { rewrite Elen, blocks_app, Epad. rewrite blocks_prefix by (rewrite length_app, Hpl; lia). rewrite <- Hbuf. cbn [blocks]. f_equal.
    rewrite drop_app_le by (rewrite length_app, Hpl; lia). rewrite <- Htk. apply take_ge. fold block. lia. }
  by rewrite Eb.
Qed.

Lemma digest_md5 garbage pieces :
  length garbage = 64%nat → is_bytes (concat pieces) → Forall (λ p, Z.of_nat (length p) < 4294967296) pieces →
  digest_of garbage pieces = md5 (concat pieces).
Proof.
  intros Hg Hb Hl. apply final_md5; [|done]. apply (updates_take pieces [] (MD5Init garbage)); [by apply init_takes|done|done].
Qed.

(** C31: the digest is that of RFC 1321.  Whatever the context held and however the message
    is cut into pieces, the calls of [MD5Update] and [MD5Final] give the digest of the
    whole message, by the standard's blocks, operations, sine constants and padding. *)
Theorem md5_correct (garbage : bytes) (pieces : list bytes)
    (Hg : length garbage = 64%nat) (Hb : is_bytes (concat pieces)) (Hl : Forall (λ p, Z.of_nat (length p) < 4294967296) pieces) :
  MD5Final (foldl MD5Update (MD5Init garbage) pieces) = md5 (concat pieces).
Proof. by apply digest_md5. Qed.

Lemma md5_correct_witness :
  MD5Final (foldl MD5Update (MD5Init (replicate 64 0xA5)) [chars "abcdefghijklm"; chars "nopqrstuvwxyz"]) = md5 (chars "abcdefghijklmnopqrstuvwxyz").
Proof.
  assert (Hb : is_bytes (concat [chars "abcdefghijklm"; chars "nopqrstuvwxyz"])) by (apply bytesb_sound; by vm_compute).
  assert (Hl : Forall (λ p, Z.of_nat (length p) < 4294967296) [chars "abcdefghijklm"; chars "nopqrstuvwxyz"]) by (repeat constructor).
  assert (E : concat [chars "abcdefghijklm"; chars "nopqrstuvwxyz"] = chars "abcdefghijklmnopqrstuvwxyz") by (by vm_compute).
  rewrite <- E. apply (md5_correct (replicate 64 0xA5) [chars "abcdefghijklm"; chars "nopqrstuvwxyz"]); [apply length_replicate|exact Hb|exact Hl].
Defined.
