(* ===== verification/AuthFile.v ===== *)
(** * The files of secrets (progs.gpl/pppd.alpha: [getword] of options.c, auth.c)

    Each line of [/etc/ppp/pap-secrets] and [chap-secrets] is a client, a server, a secret
    and the addresses that the client may use.  [getword] reads a word at a time;
    [scan_authfile] looks for the line that fits best.  A file is the list of the bytes
    that are still to be read, a word the string in the buffer. *)

From stdpp Require Import base numbers strings list.
From S2P Require Import Prelude Bytes.

Definition MAXWORDLEN : nat := 1024.
Definition MAXSECRETLEN : nat := 256.
Definition NONWILD_SERVER : Z := 1.
Definition NONWILD_CLIENT : Z := 2.

(** ** Words *)

Definition isoctal (c : Z) : bool := (48 <=? c) && (c <? 56).
Definition isxdigit (c : Z) : bool := isdigit c || ((97 <=? lower c) && (lower c <=? 102)).
Definition toupper (c : Z) : Z := if (97 <=? c) && (c <=? 122) then c - 32 else c.

(** White space and comments: [newline], [escape], and the rest from the character that
    ended the loop. *)
Fixpoint skip_space (f : bytes) (newline escape comment : bool) : bool * bool * bytes :=
  match f with
  | [] => (newline, escape, [])
  | c :: f' =>
      if c =? 10 then
        if escape then skip_space f' newline false comment else skip_space f' true escape false
      else if comment then skip_space f' newline escape comment
      else if escape then (newline, escape, f)
      else if c =? 92 then skip_space f' newline true comment
      else if c =? 35 then skip_space f' newline escape true
      else if isspace c then skip_space f' newline escape comment
      else (newline, escape, f)
  end.

(** The digits of [\ddd] and [\xhh]. *)
Fixpoint octal_loop (n : nat) (value : Z) (f : bytes) : Z * bytes :=
  match n, f with
  | S n, c :: f' => if isoctal c then octal_loop n (Z.shiftl value 3 + Z.land c 7) f' else (value, f)
  | _, _ => (value, f)
  end.
Fixpoint hex_loop (n : nat) (value : Z) (f : bytes) : Z * bytes :=
  match n, f with
  | S n, c :: f' =>
      if isxdigit c then
        let digit := toupper c - 48 in
        let digit := if 10 <? digit then digit + (48 + 10 - 65) else digit in
        hex_loop n (Z.shiftl value 4 + digit) f'
      else (value, f)
  | _, _ => (value, f)
  end.

(** The character that an escape stands for. *)
Definition escaped (c : Z) (f' : bytes) : Z * bytes :=
  if c =? 97 then (7, f') else if c =? 98 then (8, f') else if c =? 102 then (12, f')
  else if c =? 110 then (10, f') else if c =? 114 then (13, f') else if c =? 115 then (32, f')
  else if c =? 116 then (9, f')
  else if isoctal c then octal_loop 3 0 (c :: f')
  else if c =? 120 then hex_loop 2 0 f'
  else (c, f').

(** The characters of a word, with the delimiter of a quoted one ([quoted], or 0); whether
    the end of the file has been reached. *)
Fixpoint word_loop (fuel : nat) (f : bytes) (quoted : Z) (escape : bool) (w : bytes) : res (bytes * bytes * bool) :=
  match fuel with
  | O => NoFuel
  | S fuel =>
      match f with
      | [] => Ok (w, [], true)
      | c :: f' =>
          if escape then
            if c =? 10 then word_loop fuel f' quoted false w
            else let '(value, f'') := escaped c f' in word_loop fuel f'' quoted false (w ++ [u8 value])
          else if negb (quoted =? 0) && (c =? quoted) then Ok (w, f', false)
          else if (quoted =? 0) && (isspace c || (c =? 35)) then Ok (w, f, false)
          else if c =? 92 then word_loop fuel f' quoted true w
          else word_loop fuel f' quoted false (w ++ [c])
      end
  end.

(** [None] at the end of the file; [*newlinep]; the rest. *)
Definition getword (f : bytes) : res (option bytes * bool * bytes) :=
  let '(newline, escape, f) := skip_space f false false false in
  let '(quoted, f) :=
    match f with
    | c :: f' => if negb escape && ((c =? 34) || (c =? 39)) then (c, f') else (0, f)
    | [] => (0, [])
    end in
  '(w, f, eof) ← word_loop (S (length f)) f quoted escape [];
  if eof && bool_decide (w = []) then Ok (None, newline, f)
  else Ok (Some (c_str (take (MAXWORDLEN - 1) w)), newline, f).

(** ** Lines *)

Definition ISWILD (word : bytes) : bool := bool_decide (word = [42]).

(** [strcmp(word, name) != 0], for a name that may be [NULL]. *)
Definition differs (name : option bytes) (word : bytes) : bool :=
  match name with Some name => negb (bool_decide (word = name)) | None => false end.

(** [best_flag], [secret] and [addr_list]. *)
Record found := mk_found { best_flag : Z; secret : bytes; addr_list : list bytes }.

(** Two colons. *)
Definition colons (word : bytes) : bool := Nat.leb 2 (length (filter (λ c : Z, c = 58) word)).

Section scan.
(** The content of the file at a path, if it can be opened. *)
Variable files : bytes → option bytes.

(** The secret that a word stands for: itself, or the first word of the file it names,
    which is then the word in the buffer. *)
Definition indirect (word : bytes) : res (option bytes) :=
  match word with
  | 64 :: 47 :: path =>
      match files (47 :: path) with
      | Some sf => '(w, _, _) ← getword sf; Ok w
      | None => Ok None
      end
  | _ => Ok (Some word)
  end.

(** [while (!newline && getword(f, word, &newline, filename))]: the word, [newline], the rest. *)
Fixpoint skip_line (fuel : nat) (word : bytes) (newline : bool) (f : bytes) : res (bytes * bool * bytes) :=
  match fuel with
  | O => NoFuel
  | S fuel =>
      if newline then Ok (word, newline, f)
      else
        '(w, newline, f) ← getword f;
        match w with
        | Some word => skip_line fuel word newline f
        | None => Ok (word, newline, f)
        end
  end.

(** The addresses: the list, the last word, [newline], the rest. *)
Fixpoint read_addrs (fuel : nat) (word : bytes) (f : bytes) (alist : list bytes) : res (list bytes * bytes * bool * bytes) :=
  match fuel with
  | O => NoFuel
  | S fuel =>
      '(w, newline, f) ← getword f;
      match w with
      | Some word => if newline : bool then Ok (alist, word, newline, f) else read_addrs fuel word f (alist ++ [word])
      | None => Ok (alist, word, newline, f)
      end
  end.

(** [NULL] for [client] and [server] is [None]; [want]: [secret] is not [NULL]. *)
Fixpoint scan_loop (fuel : nat) (client server : option bytes) (want flags : bool)
    (word : bytes) (newline : bool) (f : bytes) (best : found) : res found :=
  match fuel with
  | O => NoFuel
  | S fuel =>
      let next := scan_loop fuel client server want flags in
      '(word, newline, f) ← skip_line (S (S (length f))) word newline f;
      if negb newline then Ok best
      else if differs client word && negb (ISWILD word) then next word false f best
      else
        let got_flag := if ISWILD word then 0 else NONWILD_CLIENT in
        '(w, newline, f) ← getword f;
        match w with
        | None => Ok best
        | Some word =>
            if newline : bool then next word newline f best
            else if negb (ISWILD word) && differs server word then next word newline f best
            else
              let got_flag := if ISWILD word then got_flag else Z.lor got_flag NONWILD_SERVER in
              if got_flag <=? best_flag best then next word newline f best
              else
                '(w, newline, f) ← getword f;
                match w with
                | None => Ok best
                | Some word =>
                    if newline : bool then next word newline f best
                    else if flags && negb (colons word) then next word newline f best
                    else
                      lsecret ← (if want then indirect word else Ok (Some (secret best)));
                      match lsecret with
                      | None => next word newline f best
                      | Some lsecret =>
                          let word := if want then lsecret else word in (* getword(sf, word, ...) *)
                          '(alist, word, newline, f) ← read_addrs (S (length f)) word f [];
                          let best := mk_found got_flag lsecret alist in
                          if negb newline then Ok best else next word newline f best
                      end
                end
        end
  end.

(** The addresses up to [--], and the options behind it. *)
Fixpoint split_options (l : list bytes) : list bytes * list bytes :=
  match l with
  | [] => ([], [])
  | w :: l =>
      if bool_decide (w = [45; 45]) then ([], l)
      else let '(addrs, opts) := split_options l in (w :: addrs, opts)
  end.

(** [-1] and what [secret] held, or the flags of the line, the secret, the addresses and
    the options. *)
Definition scan_authfile (f : bytes) (client server : option bytes) (want flags : bool) (old : bytes)
    : res (Z * bytes * list bytes * list bytes) :=
  '(w, _, rest) ← getword f;
  match w with
  | None => Ok (-1, old, [], [])
  | Some word =>
      best ← scan_loop (2 * length f + 4) client server want flags word true rest (mk_found (-1) old []);
      let '(addrs, opts) := split_options (addr_list best) in
      Ok (best_flag best, secret best, addrs, opts)
  end.

End scan.

(** ** Reading makes progress *)

Lemma skip_space_length f : ∀ nl e c, (length (skip_space f nl e c).2 ≤ length f)%nat.
Proof.
  induction f as [|x f IH]; intros nl e c; cbn [skip_space snd length]; [lia|].
  repeat (case_match; cbn [snd length]); try lia; try (etrans; [apply IH|lia]).
Qed.

Lemma skip_space_stop f : ∀ nl e c, match skip_space f nl e c with
  | (_, false, x :: _) => isspace x = false ∧ x ≠ 35 ∧ x ≠ 92
  | _ => True end.
Proof.
  induction f as [|x f IH]; intros nl e c; cbn [skip_space]; [by destruct e|]. destruct (x =? 10); [destruct e; apply IH|].
  destruct c; [apply IH|]. destruct e; [done|]. destruct (Z.eqb_spec x 92); [apply IH|]. destruct (Z.eqb_spec x 35); [apply IH|].
  destruct (isspace x) eqn:Ex; [apply IH|]. done.
Qed.

Lemma octal_loop_length n : ∀ v f, (length (octal_loop n v f).2 ≤ length f)%nat.
Proof.
  induction n as [|n IH]; intros v f; cbn [octal_loop snd]; [lia|]. destruct f as [|c f]; cbn [snd length]; [lia|].
  destruct (isoctal c); cbn [snd length]; [etrans; [apply IH|lia]|lia].
Qed.

Lemma hex_loop_length n : ∀ v f, (length (hex_loop n v f).2 ≤ length f)%nat.
Proof.
  induction n as [|n IH]; intros v f; cbn [hex_loop snd]; [lia|]. destruct f as [|c f]; cbn [snd length]; [lia|].
  destruct (isxdigit c); cbn [snd length]; [etrans; [apply IH|lia]|lia].
Qed.

Lemma escaped_length c f : (length (escaped c f).2 ≤ length f)%nat.
Proof.
  unfold escaped. repeat (destruct (c =? _); [cbn [snd]; lia|]). destruct (isoctal c) eqn:E.
  - change (octal_loop 3 0 (c :: f)) with (if isoctal c then octal_loop 2 (Z.shiftl 0 3 + Z.land c 7) f else (0, c :: f)). rewrite E. apply octal_loop_length.
  - destruct (c =? 120); [apply hex_loop_length|cbn [snd]; lia].
Qed.

Lemma word_loop_ok fuel : ∀ f q e w, (length f < fuel)%nat →
  ∃ w' r eof, word_loop fuel f q e w = Ok (w', r, eof) ∧ (length r ≤ length f)%nat ∧ (eof = true → r = []).
Proof.
  induction fuel as [|n IH]; intros f q e w Hf; [lia|]. destruct f as [|c f]; cbn [word_loop length] in *; [by eauto 6|].
  assert (Hn : ∀ f' e w, (length f' ≤ length f)%nat → ∃ w' r eof, word_loop n f' q e w = Ok (w', r, eof) ∧ (length r ≤ S (length f))%nat ∧ (eof = true → r = [])).
  { intros f' e' w' Hl. destruct (IH f' q e' w') as (? & ? & ? & ? & ? & ?); [lia|]. do 3 eexists. split; [done|]. split; [lia|done]. }
  pose proof (escaped_length c f) as He. destruct e.
  - destruct (c =? 10); [by apply Hn|]. destruct (escaped c f) as [v f']. by apply Hn.
  - destruct (_ && (c =? q)); [do 3 eexists; split; [done|]; split; [lia|done]|].
    destruct (_ && (_ || _)); [do 3 eexists; split; [done|]; split; [cbn; lia|done]|]. destruct (c =? 92); by apply Hn.
Qed.

(** A word is at least a character of the file. *)
Lemma word_loop_first fuel c f q e w : (S (length f) < fuel)%nat → e = true ∨ q ≠ 0 ∨ (isspace c = false ∧ c ≠ 35) →
  ∃ w' r eof, word_loop fuel (c :: f) q e w = Ok (w', r, eof) ∧ (length r ≤ length f)%nat ∧ (eof = true → r = []).
Proof.
  intros Hf Hc. destruct fuel as [|n]; [lia|]. cbn [word_loop].
  assert (Hn : ∀ f' e w, (length f' ≤ length f)%nat → ∃ w' r eof, word_loop n f' q e w = Ok (w', r, eof) ∧ (length r ≤ length f)%nat ∧ (eof = true → r = [])).
  { intros f' e' w' Hl. destruct (word_loop_ok n f' q e' w') as (? & ? & ? & ? & ? & ?); [lia|]. do 3 eexists. split; [done|]. split; [lia|done]. }
  pose proof (escaped_length c f) as He. destruct e.
  - destruct (c =? 10); [by apply Hn|]. destruct (escaped c f) as [v f']. by apply Hn.
  - destruct (_ && (c =? q)); [do 3 eexists; split; [done|]; split; [lia|done]|].
    destruct ((q =? 0) && (isspace c || (c =? 35))) eqn:Es.
    + exfalso. destruct Hc as [?|[?|[Hs Hne]]]; [done|lia|]. rewrite Hs in Es. lia.
    + destruct (c =? 92); by apply Hn.
Qed.

Lemma getword_ok f : ∃ o nl r, getword f = Ok (o, nl, r) ∧
  match o with Some _ => (length r < length f)%nat | None => r = [] end.
Proof.
  unfold getword. pose proof (skip_space_length f false false false) as Hl. pose proof (skip_space_stop f false false false) as Hs.
  destruct (skip_space f false false false) as [[nl e] g]. cbn [snd] in Hl.
  destruct g as [|c g]; [by do 3 eexists|]. cbn [length] in Hl.
  assert (Hend : ∀ (w r : bytes) (eof : bool), (length r < length f)%nat → (eof = true → r = []) →
    ∃ o nl' r', (if eof && bool_decide (w = []) then Ok (None, nl, r) else Ok (Some (c_str (take (MAXWORDLEN - 1) w)), nl, r)) = Ok (o, nl', r') ∧
    match o with Some _ => (length r' < length f)%nat | None => r' = [] end).
  { intros w r eof Hr He. destruct (eof && _) eqn:E; do 3 eexists; (split; [done|]); [|done]. apply He. by destruct eof. }
  destruct (negb e && _) eqn:Eq.
  - destruct (word_loop_ok (S (length g)) g c e []) as (w & r & eof & -> & Hr & He); [lia|]. rewrite bind_ret. apply Hend; [lia|done].
  - destruct (word_loop_first (S (length (c :: g))) c g 0 e []) as (w & r & eof & -> & Hr & He); [cbn; lia| |].
    + destruct e; [by left|]. right; right. naive_solver.
    + rewrite bind_ret. apply Hend; [lia|done].
Qed.

(** The words of a file, each with whether a line starts with it. *)
Fixpoint words (fuel : nat) (f : bytes) : list (bool * bytes) :=
  match fuel with
  | O => []
  | S fuel => match getword f with Ok (Some w, nl, r) => (nl, w) :: words fuel r | _ => [] end
  end.

Inductive reads : bytes → list (bool * bytes) → Prop :=
| reads_end f nl : getword f = Ok (None, nl, []) → reads f []
| reads_word f w nl r ts : getword f = Ok (Some w, nl, r) → (length r < length f)%nat → reads r ts → reads f ((nl, w) :: ts).

Lemma words_read fuel : ∀ f, (length f < fuel)%nat → reads f (words fuel f).
Proof.
  induction fuel as [|n IH]; intros f Hf; [lia|]. cbn [words]. destruct (getword_ok f) as (o & nl & r & E & Hr). rewrite E.
  destruct o as [w|]; [|subst r; by econstructor]. eapply reads_word; [done|done|]. apply IH. lia.
Qed.

(** ** The lines of a file *)

(** Words in lines, after the words [line] of the first one. *)
Fixpoint group (line : list bytes) (ts : list (bool * bytes)) : list (list bytes) :=
  match ts with
  | [] => [line]
  | (true, w) :: ts => line :: group [w] ts
  | (false, w) :: ts => group (line ++ [w]) ts
  end.

Definition lines (f : bytes) : list (list bytes) :=
  match words (S (length f)) f with
  | [] => []
  | (_, w) :: ts => group [w] ts
  end.

Fixpoint rest_of_line (ts : list (bool * bytes)) : list bytes :=
  match ts with (false, w) :: ts => w :: rest_of_line ts | _ => [] end.
Fixpoint next_lines (ts : list (bool * bytes)) : list (list bytes) :=
  match ts with
  | [] => []
  | (true, w) :: ts => group [w] ts
  | (false, _) :: ts => next_lines ts
  end.

Lemma group_cons line ts : group line ts = (line ++ rest_of_line ts) :: next_lines ts.
Proof.
  revert line. induction ts as [|[[|] w] ts IH]; intros line; cbn [group rest_of_line next_lines]; [by rewrite app_nil_r..|].
  rewrite IH. by rewrite <- app_assoc.
Qed.

(** Where a loop that leaves a line is. *)
Definition at_next (ts : list (bool * bytes)) (word : bytes) (newline : bool) (f : bytes) : Prop :=
  (∃ ts', newline = true ∧ reads f ts' ∧ next_lines ts = group [word] ts') ∨ (f = [] ∧ next_lines ts = []).

Lemma reads_nil : reads [] [].
Proof. by eapply reads_end. Qed.

Lemma skip_line_reads f ts : reads f ts → ∀ fuel word, (S (length f) < fuel)%nat →
  ∃ word' nl f', skip_line fuel word false f = Ok (word', nl, f') ∧ at_next ts word' nl f' ∧
    (length f' ≤ length f)%nat ∧ (nl = true → f' = [] ∨ (length f' < length f)%nat).
Proof.
  induction 1 as [f nl E|f w nl r ts E Hl Hr IH]; intros fuel word Hf; (destruct fuel as [|n]; [lia|]); cbn [skip_line]; rewrite E, bind_ret.
  - do 3 eexists. split; [done|]. split; [by right|]. split; [cbn; lia|by left].
  - destruct nl.
    + destruct n as [|n]; [lia|]. cbn [skip_line]. do 3 eexists. split; [done|]. split; [left; by exists ts|]. split; [lia|by right].
    + destruct (IH n w ltac:(lia)) as (w' & nl & f' & -> & Ha & Hl' & Hn). do 3 eexists. split; [done|]. split; [done|]. split; [lia|].
      intros Ht. destruct (Hn Ht) as [?|?]; [by left|right; lia].
Qed.

Lemma read_addrs_reads f ts : reads f ts → ∀ fuel word l, (length f < fuel)%nat →
  ∃ word' nl f', read_addrs fuel word f l = Ok (l ++ rest_of_line ts, word', nl, f') ∧ at_next ts word' nl f' ∧ (length f' ≤ length f)%nat.
Proof.
  induction 1 as [f nl E|f w nl r ts E Hl Hr IH]; intros fuel word l Hf; (destruct fuel as [|n]; [lia|]); cbn [read_addrs]; rewrite E, bind_ret.
  - do 3 eexists. cbn [rest_of_line]. rewrite app_nil_r. split; [done|]. split; [by right|cbn; lia].
  - destruct nl.
    + do 3 eexists. cbn [rest_of_line]. rewrite app_nil_r. split; [done|]. split; [left; by exists ts|lia].
    + destruct (IH n w (l ++ [w]) ltac:(lia)) as (w' & nl & f' & -> & Ha & Hl'). do 3 eexists. cbn [rest_of_line].
      rewrite <- app_assoc. split; [done|]. split; [done|lia].
Qed.

(** ** The best line *)

Section best.
Variable files : bytes → option bytes.
Variables client server : option bytes.
Variables want flags : bool.
Variable old : bytes.

Lemma indirect_ok w : ∃ o, indirect files w = Ok o.
Proof.
  assert (Hg : ∀ sf, ∃ o, ('(w, _, _) ← getword sf; Ok w) = Ok o).
  { intros sf. destruct (getword_ok sf) as (o & nl & r & -> & _). by exists o. }
  unfold indirect. repeat (case_match; try by eexists). apply Hg.
Qed.

Definition secret_word (w : bytes) : option bytes :=
  if want then match indirect files w with Ok o => o | _ => None end else Some old.

(** What a line gives: [None] if it does not fit, or has no secret. *)
Definition entry (line : list bytes) : option found :=
  match line with
  | c :: s :: x :: addrs =>
      if (differs client c && negb (ISWILD c)) || (negb (ISWILD s) && differs server s) || (flags && negb (colons x)) then None
      else
        let flag := if ISWILD c then 0 else NONWILD_CLIENT in
        (λ w, mk_found (if ISWILD s then flag else Z.lor flag NONWILD_SERVER) w addrs) <$> secret_word x
  | _ => None
  end.

Definition consider (best : found) (line : list bytes) : found :=
  match entry line with
  | Some e => if best_flag e <=? best_flag best then best else e
  | None => best
  end.

Definition next_best (best : found) (ts : list (bool * bytes)) (word : bytes) (newline : bool) : found :=
  foldl consider best (if newline then group [word] ts else next_lines ts).

Lemma consider_wanted best line : (want = false → secret best = old) → want = false → secret (consider best line) = old.
Proof.
  intros Hb Hw. unfold consider. destruct (entry line) as [e|] eqn:E; [|by apply Hb]. case_match; [by apply Hb|].
  unfold entry, secret_word in E. repeat case_match; try done; by injection E as <-.
Qed.

Lemma getword_nil : getword [] = Ok (None, false, []).
Proof. done. Qed.

Lemma reads_empty ts : reads [] ts → ts = [].
Proof. inversion 1 as [|f w nl r ts' E]; [done|]. by rewrite getword_nil in E. Qed.

Lemma scan_at_end n word best : scan_loop files (S n) client server want flags word false [] best = Ok best.
Proof. cbn [scan_loop skip_line length]. by rewrite getword_nil, !bind_ret. Qed.

Lemma consider_short best line : (length line < 3)%nat → consider best line = best.
Proof. intros Hl. by destruct line as [|? [|? [|? ?]]]; [..|cbn in Hl; lia]. Qed.

(** The next line is at hand, or the end of the file. *)
Lemma skip_to_line (newline : bool) word f ts best : reads f ts →
  ∃ word' nl f', skip_line (S (S (length f))) word newline f = Ok (word', nl, f') ∧
    ((f' = [] ∧ next_best best ts word newline = best) ∨
     (∃ ts', nl = true ∧ reads f' ts' ∧ next_best best ts word newline = foldl consider best (group [word'] ts') ∧
        (2 * length f' + 2 ≤ 2 * length f + (if newline then 2 else 0))%nat)).
Proof.
  intros Hr. unfold next_best.
  assert (Hend : ∀ ts' word', reads [] ts' → foldl consider best (group [word'] ts') = best).
  { intros ts' w Ht. rewrite (reads_empty ts' Ht). cbn [group foldl]. apply consider_short. cbn. lia. }
  destruct newline.
  - exists word, true, f. split; [done|]. destruct f as [|c f]; [left; by rewrite (Hend ts word)|]. right. exists ts. split; [done|]. split; [done|]. split; [done|lia].
  - destruct (skip_line_reads f ts Hr (S (S (length f))) word ltac:(lia)) as (w' & nl & f' & E & Ha & Hl & Hn).
    exists w', nl, f'. split; [done|]. destruct Ha as [(ts' & -> & Hr' & ->)|[-> ->]]; [|by left].
    destruct f' as [|c f']; [left; by rewrite (Hend ts' w')|]. right. exists ts'. split; [done|]. split; [done|]. split; [done|].
    destruct (Hn eq_refl) as [?|?]; [done|lia].
Qed.

(** The line that is not taken. *)
Lemma leave_line line ts best : (∀ l, entry (line ++ l) = None ∨ ∃ e, entry (line ++ l) = Some e ∧ best_flag e ≤ best_flag best) →
  foldl consider best (group line ts) = foldl consider best (next_lines ts).
Proof.
  intros He. rewrite group_cons. cbn [foldl]. f_equal. unfold consider. destruct (He (rest_of_line ts)) as [->|(e & -> & Hle)]; [done|].
  by rewrite (proj2 (Z.leb_le _ _) Hle).
Qed.

Lemma scan_loop_best fuel : ∀ word (newline : bool) f ts best, reads f ts → (want = false → secret best = old) →
  (2 * length f + (if newline then 2 else 1) < fuel)%nat →
  scan_loop files fuel client server want flags word newline f best = Ok (next_best best ts word newline).
Proof.
  induction fuel as [|n IH]; intros word newline f ts best Hr Hw Hf; [lia|]. cbn [scan_loop].
  destruct (skip_to_line newline word f ts best Hr) as (w1 & nl1 & f1 & E & Hs). rewrite E, bind_ret.
  destruct Hs as [[-> ->]|(ts1 & -> & Hr1 & -> & Hl1)].
  { destruct n as [|n]; [destruct newline; lia|]. rewrite scan_at_end, getword_nil, bind_ret. by repeat case_match. }
  cbn [negb]. assert (Hf1 : (2 * length f1 + 1 < n)%nat) by (destruct newline; lia). clear E Hf Hl1.
  assert (Hleave : ∀ line w ts' f', reads f' ts' → (length f' ≤ length f1)%nat →
    (∀ l, entry (line ++ l) = None ∨ ∃ e, entry (line ++ l) = Some e ∧ best_flag e ≤ best_flag best) →
    scan_loop files n client server want flags w false f' best = Ok (foldl consider best (group line ts'))).
  { intros line w ts' f' Hr' Hl' He. rewrite (IH w false f' ts' best Hr' Hw) by lia. by rewrite (leave_line line ts' best He). }
  assert (Hnext : ∀ line w ts' f', reads f' ts' → (length f' < length f1)%nat → (length line < 3)%nat →
    scan_loop files n client server want flags w true f' best = Ok (foldl consider best (line :: group [w] ts'))).
  { intros line w ts' f' Hr' Hl' Hline. rewrite (IH w true f' ts' best Hr' Hw) by lia. cbn [foldl]. by rewrite consider_short. }
  destruct (differs client w1 && _) eqn:Ec.
  { apply Hleave; [done|done|]. intros l. left. unfold entry. cbn [app]. by destruct l as [|? [|]]; [done..|]; rewrite Ec. }
  inversion Hr1 as [f0 nl0 E0|f0 w2 nl2 f2 ts2 E2 Hl2 Hr2]; subst f0 ts1.
  { rewrite E0, bind_ret. cbn [group foldl]. by rewrite consider_short by (cbn; lia). }
  rewrite E2, bind_ret. destruct nl2; [apply (Hnext [w1]); [done|done|cbn; lia]|]. cbn [group app].
  destruct (negb (ISWILD w2) && _) eqn:Es.
  { apply Hleave; [done|lia|]. intros l. left. unfold entry. cbn [app]. destruct l; [done|]. by rewrite Ec, Es. }
  destruct (Z.leb_spec (if ISWILD w2 then if ISWILD w1 then 0 else NONWILD_CLIENT else Z.lor (if ISWILD w1 then 0 else NONWILD_CLIENT) NONWILD_SERVER) (best_flag best)) as [Hle|Hgt].
  { apply Hleave; [done|lia|]. intros l. unfold entry. cbn [app]. destruct l as [|x l]; [by left|]. rewrite Ec, Es. cbn [orb].
    destruct (flags && _); [by left|]. destruct (secret_word x); cbn; [right; by eexists|by left]. }
  inversion Hr2 as [f0 nl0 E0|f0 w3 nl3 f3 ts3 E3 Hl3 Hr3]; subst f0 ts2.
  { rewrite E0, bind_ret. cbn [group foldl]. by rewrite consider_short by (cbn; lia). }
  rewrite E3, bind_ret. destruct nl3; [apply (Hnext [w1; w2]); [done|lia|cbn; lia]|]. cbn [group app].
  destruct (flags && _) eqn:Ef.
  { apply Hleave; [done|lia|]. intros l. left. unfold entry. cbn [app]. by rewrite Ec, Es, Ef. }
  assert (Esec : (if want then indirect files w3 else Ok (Some (secret best))) = Ok (secret_word w3)).
  { unfold secret_word. destruct want; [|by rewrite Hw]. by destruct (indirect_ok w3) as [o ->]. }
  rewrite Esec, bind_ret. destruct (secret_word w3) as [x|] eqn:Ex.
  - destruct (read_addrs_reads f3 ts3 Hr3 (S (length f3)) (if want then x else w3) [] ltac:(lia)) as (w4 & nl4 & f4 & -> & Ha & Hl4). rewrite bind_ret. cbn [app].
    rewrite group_cons. cbn [app foldl]. set (b := mk_found _ x (rest_of_line ts3)).
    assert (Econs : consider best (w1 :: w2 :: w3 :: rest_of_line ts3) = b).
    { unfold consider, entry. rewrite Ec, Es, Ef, Ex. cbn. fold b. unfold b. cbn [best_flag]. rewrite (proj2 (Z.leb_gt _ _) Hgt). done. }
    rewrite Econs. assert (Hwb : want = false → secret b = old).
    { intros Hf. unfold b, secret_word in *. rewrite Hf in Ex. by injection Ex as <-. }
    destruct Ha as [(ts4 & -> & Hr4 & ->)|[-> ->]]; cbn [negb].
    + rewrite (IH w4 true f4 ts4 b Hr4 Hwb) by lia. done.
    + destruct nl4; cbn [negb foldl]; [|done]. rewrite (IH w4 true [] [] b reads_nil Hwb) by (cbn; lia).
      unfold next_best. cbn [group foldl]. by rewrite consider_short by (cbn; lia).
  - apply Hleave; [done|lia|]. intros l. left. unfold entry. cbn [app]. by rewrite Ec, Es, Ef, Ex.
Qed.

End best.

(** The first of the lines with the highest flags. *)
Definition is_best (entry : list bytes → option found) (ls : list (list bytes)) (e : found) : Prop :=
  ∃ before line after, ls = before ++ line :: after ∧ entry line = Some e ∧
    (∀ l e', l ∈ before → entry l = Some e' → best_flag e' < best_flag e) ∧
    (∀ l e', l ∈ after → entry l = Some e' → best_flag e' ≤ best_flag e).

Lemma consider_best files client server want flags old ls : ∀ b,
  let en := entry files client server want flags old in
  let r := foldl (consider files client server want flags old) b ls in
  (r = b ∧ ∀ l e, l ∈ ls → en l = Some e → best_flag e ≤ best_flag b) ∨ (best_flag b < best_flag r ∧ is_best en ls r).
Proof.
  intros b en. revert b. induction ls as [|l ls IH]; intros b; cbn [foldl].
  { left. split; [done|]. by intros l e ?%elem_of_nil. }
  change (consider files client server want flags old b l) with (match en l with Some e => if best_flag e <=? best_flag b then b else e | None => b end).
  destruct (en l) as [e|] eqn:El; [destruct (Z.leb_spec (best_flag e) (best_flag b)) as [Hle|Hgt]|].
  - destruct (IH b) as [[-> Hb]|[Hlt (bf & li & af & -> & Hli & H1 & H2)]].
    + left. split; [done|]. intros l' e' [->|Hin]%elem_of_cons He'; [congruence|by eapply Hb].
    + right. split; [done|]. exists (l :: bf), li, af. split; [done|]. split; [done|]. split; [|done].
      intros l' e' [->|Hin]%elem_of_cons He'; [rewrite El in He'; injection He' as <-; lia|by eapply H1].
  - right. destruct (IH e) as [[-> Hb]|[Hlt (bf & li & af & -> & Hli & H1 & H2)]].
    + split; [done|]. exists [], l, ls. split; [done|]. split; [done|]. split; [by intros l' e' ?%elem_of_nil|done].
    + split; [lia|]. exists (l :: bf), li, af. split; [done|]. split; [done|]. split; [|done].
      intros l' e' [->|Hin]%elem_of_cons He'; [rewrite El in He'; injection He' as <-; lia|by eapply H1].
  - destruct (IH b) as [[-> Hb]|[Hlt (bf & li & af & -> & Hli & H1 & H2)]].
    + left. split; [done|]. intros l' e' [->|Hin]%elem_of_cons He'; [congruence|by eapply Hb].
    + right. split; [done|]. exists (l :: bf), li, af. split; [done|]. split; [done|]. split; [|done].
      intros l' e' [->|Hin]%elem_of_cons He'; [congruence|by eapply H1].
Qed.

Lemma entry_flag files client server want flags old l e : entry files client server want flags old l = Some e → 0 ≤ best_flag e.
Proof.
  unfold entry. repeat (case_match; try done); intros (x & _ & ->)%fmap_Some; cbn [best_flag]; done.
Qed.

(** The result of [scan_authfile] in terms of the lines. *)
Lemma scan_authfile_lines files f client server want flags old :
  let best := foldl (consider files client server want flags old) (mk_found (-1) old []) (lines f) in
  scan_authfile files f client server want flags old =
    Ok (best_flag best, secret best, fst (split_options (addr_list best)), snd (split_options (addr_list best))).
Proof.
  unfold scan_authfile, lines. cbn [words]. pose proof (words_read (length f)) as Hw. destruct (getword_ok f) as (o & nl & r & -> & Hr). rewrite bind_ret.
  destruct o as [w|]; [|done]. rewrite (scan_loop_best files client server want flags old _ w true r (words (length f) r)); [|by apply Hw|done|lia].
  rewrite bind_ret. unfold next_best. by destruct (split_options _).
Qed.

Definition scan_spec (files : bytes → option bytes) (f : bytes) (client server : option bytes) (want flags : bool) (old : bytes)
    (flag : Z) (sec : bytes) (addrs opts : list bytes) : Prop :=
  let en := entry files client server want flags old in
  if flag <? 0 then sec = old ∧ (∀ l, l ∈ lines f → en l = None)
  else ∃ e, is_best en (lines f) e ∧ flag = best_flag e ∧ sec = secret e ∧ (addrs, opts) = split_options (addr_list e).

Lemma scan_authfile_spec files f client server want flags old :
  ∃ flag sec addrs opts,
    scan_authfile files f client server want flags old = Ok (flag, sec, addrs, opts) ∧
    scan_spec files f client server want flags old flag sec addrs opts.
Proof.
  rewrite scan_authfile_lines. cbv zeta. set (best := foldl _ _ _). do 4 eexists. split; [done|]. unfold scan_spec. cbv zeta.
  destruct (consider_best files client server want flags old (lines f) (mk_found (-1) old [])) as [[E Hb]|[Hlt Hbest]]; fold best in E || fold best in Hlt, Hbest.
  - rewrite E. cbn [best_flag secret]. split; [done|]. intros l Hin. destruct (entry _ _ _ _ _ _ l) as [e|] eqn:El; [|done].
    specialize (Hb l e Hin El). pose proof (entry_flag _ _ _ _ _ _ _ _ El). cbn in Hb. lia.
  - destruct Hbest as (bf & li & af & Els & Eli & H1 & H2). rewrite (proj2 (Z.ltb_ge _ _)) by (by eapply entry_flag).
    exists best. split; [by exists bf, li, af|]. split; [done|]. split; [done|]. by destruct (split_options _).
Qed.

(** C32: For every file and every request, [scan_authfile] ends; it reports that there is no
    secret exactly when no line of the file fits, and else gives the secret, the
    addresses and the options of the first of the lines that fit best. *)
Theorem scan_authfile_correct files f client server want flags old :
  ∃ flag sec addrs opts,
    scan_authfile files f client server want flags old = Ok (flag, sec, addrs, opts) ∧
    let en := entry files client server want flags old in
    if flag <? 0 then sec = old ∧ (∀ l, l ∈ lines f → en l = None)
    else ∃ e, is_best en (lines f) e ∧ flag = best_flag e ∧ sec = secret e ∧ (addrs, opts) = split_options (addr_list e).
Proof. apply scan_authfile_spec. Qed.

(** ** Files that are written word by word *)

Definition quoted_char (c : Z) : bytes := if (c =? 34) || (c =? 92) then [92; c] else [c].
Definition quote (w : bytes) : bytes := 34 :: concat (quoted_char <$> w) ++ [34].
Definition print_line (line : list bytes) : bytes := concat ((λ w, 32 :: quote w) <$> line) ++ [10].
Definition print_file (ls : list (list bytes)) : bytes := concat (print_line <$> ls).

Definition is_word (w : bytes) : Prop := is_bytes w ∧ (0 ∉ w) ∧ (length w < MAXWORDLEN)%nat.

Lemma word_loop_quoted w : ∀ acc rest fuel, is_bytes w → (length (concat (quoted_char <$> w)) < fuel)%nat →
  word_loop fuel (concat (quoted_char <$> w) ++ 34 :: rest) 34 false acc = Ok (acc ++ w, rest, false).
Proof.
  induction w as [|c w IH]; intros acc rest fuel Hb Hf; (destruct fuel as [|n]; [cbn in Hf; lia|]); cbn [fmap list_fmap concat] in *.
  - cbn. by rewrite app_nil_r.
  - apply Forall_cons in Hb as [Hc Hb]. unfold quoted_char at 1. unfold quoted_char at 1 in Hf. rewrite length_app in Hf.
    destruct (Z.eqb_spec c 34) as [->|H34]; [|destruct (Z.eqb_spec c 92) as [->|H92]]; cbn [orb length app] in *.
    + destruct n as [|n]; [lia|]. cbn. rewrite IH by (done || lia). by rewrite <- app_assoc.
    + destruct n as [|n]; [lia|]. cbn. rewrite IH by (done || lia). by rewrite <- app_assoc.
    + cbn [word_loop]. rewrite (proj2 (Z.eqb_neq c 34)), (proj2 (Z.eqb_neq c 92)) by done. cbn [andb negb Z.eqb].
      rewrite IH by (done || lia). by rewrite <- app_assoc.
Qed.

Lemma c_str_id w : 0 ∉ w → c_str w = w.
Proof. induction w as [|c w IH]; [done|]. rewrite not_elem_of_cons. intros [Hc Hw]. cbn [c_str]. destruct (Z.eqb_spec c 0); [by subst|]. by rewrite IH. Qed.

Lemma getword_quote w rest (nl : bool) : is_word w →
  getword ((if nl then [10] else []) ++ 32 :: quote w ++ rest) = Ok (Some w, nl, rest).
Proof.
  intros (Hb & Hz & Hl). unfold getword, quote.
  assert (Es : skip_space ((if nl then [10] else []) ++ 32 :: (34 :: concat (quoted_char <$> w) ++ [34]) ++ rest) false false false =
    (nl, false, 34 :: concat (quoted_char <$> w) ++ 34 :: rest)) by (destruct nl; cbn; by rewrite <- app_assoc).
  rewrite Es. cbn [negb andb orb Z.eqb Pos.eqb]. rewrite word_loop_quoted by (done || (rewrite length_app; cbn [length]; lia)).
  rewrite bind_ret. cbn [app andb]. rewrite take_ge by lia. by rewrite c_str_id.
Qed.

Lemma reads_quote w rest (nl : bool) ts : is_word w → reads rest ts → reads ((if nl then [10] else []) ++ 32 :: quote w ++ rest) ((nl, w) :: ts).
Proof.
  intros Hw Hr. eapply reads_word; [by apply getword_quote| |done]. rewrite length_app. cbn [length]. rewrite length_app. lia.
Qed.

Definition line_words (nl : bool) (line : list bytes) : list (bool * bytes) :=
  match line with w :: line => (nl, w) :: ((false,.) <$> line) | [] => [] end.

Lemma reads_line line : ∀ rest ts (nl : bool), Forall is_word line → line ≠ [] → reads rest ts →
  reads ((if nl then [10] else []) ++ concat ((λ w, 32 :: quote w) <$> line) ++ rest) (line_words nl line ++ ts).
Proof.
  induction line as [|w line IH]; intros rest ts nl Hw Hne Hr; [done|]. apply Forall_cons in Hw as [Hw1 Hw].
  change (concat ((λ w, 32 :: quote w) <$> w :: line)) with (32 :: (quote w ++ concat ((λ w, 32 :: quote w) <$> line))).
  cbn [app line_words]. rewrite <- app_assoc. apply reads_quote; [done|].
  destruct line as [|w2 line]; [done|]. apply (IH rest ts false); done.
Qed.

Lemma reads_file ls : Forall (λ l, Forall is_word l ∧ l ≠ []) ls → reads (10 :: print_file ls) (concat (line_words true <$> ls)).
Proof.
  induction 1 as [|l ls [Hl Hne] _ IH]; [by eapply reads_end|]. unfold print_file. cbn [fmap list_fmap concat]. unfold print_line at 1.
  rewrite <- app_assoc. apply (reads_line l (10 :: print_file ls) _ true); done.
Qed.

Lemma reads_words f ts : reads f ts → ∀ fuel, (length f < fuel)%nat → words fuel f = ts.
Proof.
  induction 1 as [f nl E|f w nl r ts E Hl _ IH]; intros fuel Hf; (destruct fuel as [|n]; [lia|]); cbn [words]; rewrite E; [done|].
  rewrite IH; [done|lia].
Qed.

Lemma group_line line l ts : group line (((false,.) <$> l) ++ ts) = group (line ++ l) ts.
Proof.
  revert line. induction l as [|w l IH]; intros line; cbn [fmap list_fmap app group]; [by rewrite app_nil_r|]. rewrite IH. by rewrite <- app_assoc.
Qed.

Lemma group_lines line ls : Forall (λ l, Forall is_word l ∧ l ≠ []) ls → group line (concat (line_words true <$> ls)) = line :: ls.
Proof.
  intros Hls. revert line. induction Hls as [|l ls [_ Hne] _ IH]; intros line; [done|]. destruct l as [|w l]; [done|].
  cbn [fmap list_fmap concat line_words app group]. by rewrite group_line, IH.
Qed.

(** C33: A file that is written line by line, each word in quotes, has these lines, whatever
    characters but a zero the words have. *)
Theorem secrets_file_roundtrip ls :
  Forall (λ l, Forall is_word l ∧ l ≠ []) ls → lines (print_file ls) = ls.
Proof.
  intros Hls. destruct ls as [|l ls]; [done|]. apply Forall_cons in Hls as [[Hl Hne] Hls]. unfold lines.
  assert (Hr : reads (print_file (l :: ls)) (line_words false l ++ concat (line_words true <$> ls))).
  { unfold print_file. cbn [fmap list_fmap concat]. unfold print_line at 1. rewrite <- app_assoc.
    apply (reads_line l (10 :: print_file ls) _ false); [done|done|by apply reads_file]. }
  rewrite (reads_words _ _ Hr) by lia. destruct l as [|w l]; [done|]. cbn [line_words app]. rewrite group_line. cbn [app]. by apply group_lines.
Qed.

Example a_file : lines (chars "# secrets" ++ [10] ++ chars "client * pass\ word 10.0.0.1 -- mtu 1400" ++ [10] ++ chars "* 'the server' secret")
  = [[chars "client"; chars "*"; chars "pass word"; chars "10.0.0.1"; chars "--"; chars "mtu"; chars "1400"]; [chars "*"; chars "the server"; chars "secret"]].
Proof. by vm_compute. Qed.

Lemma is_word_by w : bytesb w && negb (existsb (Z.eqb 0) w) && (length w <? MAXWORDLEN)%nat = true → is_word w.
Proof.
  rewrite !andb_true_iff, negb_true_iff, Nat.ltb_lt. intros [[Hb Hz] Hl]. split; [by apply bytesb_sound|]. split; [|done].
  intros Hin. apply not_true_iff_false in Hz. apply Hz. apply existsb_exists. exists 0. split; [by apply list_elem_of_In|done].
Qed.

Lemma secrets_file_roundtrip_witness :
  let ls := [[chars "alice"; chars "*"; 34 :: chars "\ #x"]; [chars "*"; chars "gw"; []]] in
  Forall (λ l, Forall is_word l ∧ l ≠ []) ls ∧ lines (print_file ls) = ls.
Proof.
  intros ls. assert (Hls : Forall (λ l, Forall is_word l ∧ l ≠ []) ls).
  { repeat first [apply is_word_by; by vm_compute | done | constructor]. }
  split; [done|]. apply (secrets_file_roundtrip ls). exact Hls.
Defined.
