(* ===== verification/PppAuth.v ===== *)
(** * Authentication of PPP: the state and auth.c (progs.gpl/pppd.alpha)

    When LCP is open, each end may ask the other one to prove who it is, with PAP (upap.c),
    CHAP (chap.c) or EAP; auth.c keeps which proofs are pending ([auth_pending]), and starts
    the network protocols when none is left.  Here are the state of the
    three, [lcp_close] and [link_down], which every failure reaches, and the checks
    of auth.c against the files of secrets.  PapChap has the protocols.

    The state of LCP's automaton that these files see is whether it is open: [lcp_close]
    on an open automaton leaves that state and calls [link_down] before it
    returns ([fsm_close] of PppFsm).  The handlers of EAP and of the network protocols are outside: their
    calls are actions.  Timeouts are a list: [TIMEOUT] adds one, [UNTIMEOUT] removes those of
    its handler, and one that expires is an input. *)

From stdpp Require Import base numbers strings list.
From S2P Require Import Prelude Bytes PppFsm LcpOptions AuthFile.

Definition MAXNAMELEN : nat := 256.

Definition PAP_WITHPEER : Z := 0x1.
Definition PAP_PEER : Z := 0x2.
Definition CHAP_WITHPEER : Z := 0x4.
Definition CHAP_PEER : Z := 0x8.
Definition EAP_WITHPEER : Z := 0x10.
Definition EAP_PEER : Z := 0x20.
Definition CHAP_MD5_WITHPEER : Z := 0x40.
Definition CHAP_MD5_PEER : Z := 0x80.
Definition CHAP_MS_WITHPEER : Z := 0x100.
Definition CHAP_MS_PEER : Z := 0x200.
Definition CHAP_MS2_WITHPEER : Z := 0x400.
Definition CHAP_MS2_PEER : Z := 0x800.

Definition EXIT_PEER_AUTH_FAILED : Z := 11.
Definition EXIT_AUTH_TOPEER_FAILED : Z := 19.

Inductive phase := PHASE_ESTABLISH | PHASE_AUTHENTICATE | PHASE_NETWORK.

(** ** The state *)

Inductive pap_client := UPAPCS_INITIAL | UPAPCS_CLOSED | UPAPCS_PENDING | UPAPCS_AUTHREQ | UPAPCS_OPEN | UPAPCS_BADAUTH.
Inductive pap_server := UPAPSS_INITIAL | UPAPSS_CLOSED | UPAPSS_PENDING | UPAPSS_LISTEN | UPAPSS_OPEN | UPAPSS_BADAUTH.
Inductive chap_client := CHAPCS_INITIAL | CHAPCS_CLOSED | CHAPCS_PENDING | CHAPCS_LISTEN | CHAPCS_RESPONSE | CHAPCS_OPEN.
Inductive chap_server :=
  CHAPSS_INITIAL | CHAPSS_CLOSED | CHAPSS_PENDING | CHAPSS_INITIAL_CHAL | CHAPSS_OPEN | CHAPSS_RECHALLENGE | CHAPSS_BADAUTH.

(** The handlers of timeouts. *)
Inductive timer := upap_timeout | upap_reqtimeout | ChapChallengeTimeout | ChapResponseTimeout | ChapRechallenge.

#[export] Instance pap_client_eq_dec : EqDecision pap_client.
Proof. solve_decision. Defined.
#[export] Instance pap_server_eq_dec : EqDecision pap_server.
Proof. solve_decision. Defined.
#[export] Instance chap_client_eq_dec : EqDecision chap_client.
Proof. solve_decision. Defined.
#[export] Instance chap_server_eq_dec : EqDecision chap_server.
Proof. solve_decision. Defined.
#[export] Instance timer_eq_dec : EqDecision timer.
Proof. solve_decision. Defined.

(** [us_passwd] points to [passwd], and is left out. *)
Record upap_state := mk_upap {
  us_user : bytes; us_userlen : nat; us_passwdlen : nat; us_clientstate : pap_client; us_serverstate : pap_server; us_id : Z; us_timeouttime : Z; us_transmits : Z; us_maxtransmits : Z; us_reqtimeout : Z }.
Definition set_us_clientstate (v : pap_client) (s : upap_state) : upap_state :=
  mk_upap (us_user s) (us_userlen s) (us_passwdlen s) v (us_serverstate s) (us_id s) (us_timeouttime s) (us_transmits s) (us_maxtransmits s) (us_reqtimeout s).
Definition set_us_serverstate (v : pap_server) (s : upap_state) : upap_state :=
  mk_upap (us_user s) (us_userlen s) (us_passwdlen s) (us_clientstate s) v (us_id s) (us_timeouttime s) (us_transmits s) (us_maxtransmits s) (us_reqtimeout s).
Definition set_us_id (v : Z) (s : upap_state) : upap_state :=
  mk_upap (us_user s) (us_userlen s) (us_passwdlen s) (us_clientstate s) (us_serverstate s) v (us_timeouttime s) (us_transmits s) (us_maxtransmits s) (us_reqtimeout s).
Definition set_us_transmits (v : Z) (s : upap_state) : upap_state :=
  mk_upap (us_user s) (us_userlen s) (us_passwdlen s) (us_clientstate s) (us_serverstate s) (us_id s) (us_timeouttime s) v (us_maxtransmits s) (us_reqtimeout s).

(** [challenge] has its first [chal_len] bytes; [response] is the array of 64 bytes, of which
    [resp_length] count; a name is its string, or [NULL]. *)
Record chap_state := mk_chap {
  clientstate : chap_client; serverstate : chap_server; challenge : bytes; chal_id : Z; chal_type : Z; chap_id : Z; chal_name : option bytes; chal_interval : Z; chap_timeouttime : Z; max_transmits : Z; chal_transmits : Z; resp_transmits : Z; response : bytes; resp_length : Z; saresponse : bytes; earesponse : bytes; resp_flags : Z; resp_id : Z; resp_type : Z; resp_name : option bytes }.
Definition set_clientstate (v : chap_client) (s : chap_state) : chap_state :=
  mk_chap v (serverstate s) (challenge s) (chal_id s) (chal_type s) (chap_id s) (chal_name s) (chal_interval s) (chap_timeouttime s) (max_transmits s) (chal_transmits s) (resp_transmits s) (response s) (resp_length s) (saresponse s) (earesponse s) (resp_flags s) (resp_id s) (resp_type s) (resp_name s).
Definition set_serverstate (v : chap_server) (s : chap_state) : chap_state :=
  mk_chap (clientstate s) v (challenge s) (chal_id s) (chal_type s) (chap_id s) (chal_name s) (chal_interval s) (chap_timeouttime s) (max_transmits s) (chal_transmits s) (resp_transmits s) (response s) (resp_length s) (saresponse s) (earesponse s) (resp_flags s) (resp_id s) (resp_type s) (resp_name s).
Definition set_challenge (v : bytes) (s : chap_state) : chap_state :=
  mk_chap (clientstate s) (serverstate s) v (chal_id s) (chal_type s) (chap_id s) (chal_name s) (chal_interval s) (chap_timeouttime s) (max_transmits s) (chal_transmits s) (resp_transmits s) (response s) (resp_length s) (saresponse s) (earesponse s) (resp_flags s) (resp_id s) (resp_type s) (resp_name s).
Definition set_chal_id (v : Z) (s : chap_state) : chap_state :=
  mk_chap (clientstate s) (serverstate s) (challenge s) v (chal_type s) (chap_id s) (chal_name s) (chal_interval s) (chap_timeouttime s) (max_transmits s) (chal_transmits s) (resp_transmits s) (response s) (resp_length s) (saresponse s) (earesponse s) (resp_flags s) (resp_id s) (resp_type s) (resp_name s).
Definition set_chal_type (v : Z) (s : chap_state) : chap_state :=
  mk_chap (clientstate s) (serverstate s) (challenge s) (chal_id s) v (chap_id s) (chal_name s) (chal_interval s) (chap_timeouttime s) (max_transmits s) (chal_transmits s) (resp_transmits s) (response s) (resp_length s) (saresponse s) (earesponse s) (resp_flags s) (resp_id s) (resp_type s) (resp_name s).
Definition set_chap_id (v : Z) (s : chap_state) : chap_state :=
  mk_chap (clientstate s) (serverstate s) (challenge s) (chal_id s) (chal_type s) v (chal_name s) (chal_interval s) (chap_timeouttime s) (max_transmits s) (chal_transmits s) (resp_transmits s) (response s) (resp_length s) (saresponse s) (earesponse s) (resp_flags s) (resp_id s) (resp_type s) (resp_name s).
Definition set_chal_name (v : option bytes) (s : chap_state) : chap_state :=
  mk_chap (clientstate s) (serverstate s) (challenge s) (chal_id s) (chal_type s) (chap_id s) v (chal_interval s) (chap_timeouttime s) (max_transmits s) (chal_transmits s) (resp_transmits s) (response s) (resp_length s) (saresponse s) (earesponse s) (resp_flags s) (resp_id s) (resp_type s) (resp_name s).
Definition set_chal_transmits (v : Z) (s : chap_state) : chap_state :=
  mk_chap (clientstate s) (serverstate s) (challenge s) (chal_id s) (chal_type s) (chap_id s) (chal_name s) (chal_interval s) (chap_timeouttime s) (max_transmits s) v (resp_transmits s) (response s) (resp_length s) (saresponse s) (earesponse s) (resp_flags s) (resp_id s) (resp_type s) (resp_name s).
Definition set_resp_transmits (v : Z) (s : chap_state) : chap_state :=
  mk_chap (clientstate s) (serverstate s) (challenge s) (chal_id s) (chal_type s) (chap_id s) (chal_name s) (chal_interval s) (chap_timeouttime s) (max_transmits s) (chal_transmits s) v (response s) (resp_length s) (saresponse s) (earesponse s) (resp_flags s) (resp_id s) (resp_type s) (resp_name s).
Definition set_response (v : bytes) (s : chap_state) : chap_state :=
  mk_chap (clientstate s) (serverstate s) (challenge s) (chal_id s) (chal_type s) (chap_id s) (chal_name s) (chal_interval s) (chap_timeouttime s) (max_transmits s) (chal_transmits s) (resp_transmits s) v (resp_length s) (saresponse s) (earesponse s) (resp_flags s) (resp_id s) (resp_type s) (resp_name s).
Definition set_resp_length (v : Z) (s : chap_state) : chap_state :=
  mk_chap (clientstate s) (serverstate s) (challenge s) (chal_id s) (chal_type s) (chap_id s) (chal_name s) (chal_interval s) (chap_timeouttime s) (max_transmits s) (chal_transmits s) (resp_transmits s) (response s) v (saresponse s) (earesponse s) (resp_flags s) (resp_id s) (resp_type s) (resp_name s).
Definition set_saresponse (v : bytes) (s : chap_state) : chap_state :=
  mk_chap (clientstate s) (serverstate s) (challenge s) (chal_id s) (chal_type s) (chap_id s) (chal_name s) (chal_interval s) (chap_timeouttime s) (max_transmits s) (chal_transmits s) (resp_transmits s) (response s) (resp_length s) v (earesponse s) (resp_flags s) (resp_id s) (resp_type s) (resp_name s).
Definition set_earesponse (v : bytes) (s : chap_state) : chap_state :=
  mk_chap (clientstate s) (serverstate s) (challenge s) (chal_id s) (chal_type s) (chap_id s) (chal_name s) (chal_interval s) (chap_timeouttime s) (max_transmits s) (chal_transmits s) (resp_transmits s) (response s) (resp_length s) (saresponse s) v (resp_flags s) (resp_id s) (resp_type s) (resp_name s).
Definition set_resp_flags (v : Z) (s : chap_state) : chap_state :=
  mk_chap (clientstate s) (serverstate s) (challenge s) (chal_id s) (chal_type s) (chap_id s) (chal_name s) (chal_interval s) (chap_timeouttime s) (max_transmits s) (chal_transmits s) (resp_transmits s) (response s) (resp_length s) (saresponse s) (earesponse s) v (resp_id s) (resp_type s) (resp_name s).
Definition set_resp_id (v : Z) (s : chap_state) : chap_state :=
  mk_chap (clientstate s) (serverstate s) (challenge s) (chal_id s) (chal_type s) (chap_id s) (chal_name s) (chal_interval s) (chap_timeouttime s) (max_transmits s) (chal_transmits s) (resp_transmits s) (response s) (resp_length s) (saresponse s) (earesponse s) (resp_flags s) v (resp_type s) (resp_name s).
Definition set_resp_type (v : Z) (s : chap_state) : chap_state :=
  mk_chap (clientstate s) (serverstate s) (challenge s) (chal_id s) (chal_type s) (chap_id s) (chal_name s) (chal_interval s) (chap_timeouttime s) (max_transmits s) (chal_transmits s) (resp_transmits s) (response s) (resp_length s) (saresponse s) (earesponse s) (resp_flags s) (resp_id s) v (resp_name s).
Definition set_resp_name (v : option bytes) (s : chap_state) : chap_state :=
  mk_chap (clientstate s) (serverstate s) (challenge s) (chal_id s) (chal_type s) (chap_id s) (chal_name s) (chal_interval s) (chap_timeouttime s) (max_transmits s) (chal_transmits s) (resp_transmits s) (response s) (resp_length s) (saresponse s) (earesponse s) (resp_flags s) (resp_id s) (resp_type s) v.

(** The variables of auth.c, the two protocols, and the timeouts.  [gotoptions] are the options of
    LCP that the peer has agreed to; [passwd] is the buffer of 256 bytes, [peer_authname] its
    string; [attempts] is the static variable of [check_passwd]; of [auth_script_pid] only
    whether a script runs; [randoms] counts the calls of [lrand48]. *)
Record auth := mk_auth {
  upap : upap_state; chap : chap_state; lcp_opened : bool; gotoptions : lcp_options; auth_pending : Z; auth_done : Z; peer_authname : bytes; passwd : bytes; passwd_from_file : bool; used_login : bool; logged_in : bool; attempts : Z; exit_status : Z; auth_state : bool; auth_script_state : bool; auth_script_pid : bool; timers : list (timer * Z); randoms : nat }.
Definition set_upap (v : upap_state) (s : auth) : auth :=
  mk_auth v (chap s) (lcp_opened s) (gotoptions s) (auth_pending s) (auth_done s) (peer_authname s) (passwd s) (passwd_from_file s) (used_login s) (logged_in s) (attempts s) (exit_status s) (auth_state s) (auth_script_state s) (auth_script_pid s) (timers s) (randoms s).
Definition set_chap (v : chap_state) (s : auth) : auth :=
  mk_auth (upap s) v (lcp_opened s) (gotoptions s) (auth_pending s) (auth_done s) (peer_authname s) (passwd s) (passwd_from_file s) (used_login s) (logged_in s) (attempts s) (exit_status s) (auth_state s) (auth_script_state s) (auth_script_pid s) (timers s) (randoms s).
Definition set_lcp_opened (v : bool) (s : auth) : auth :=
  mk_auth (upap s) (chap s) v (gotoptions s) (auth_pending s) (auth_done s) (peer_authname s) (passwd s) (passwd_from_file s) (used_login s) (logged_in s) (attempts s) (exit_status s) (auth_state s) (auth_script_state s) (auth_script_pid s) (timers s) (randoms s).
Definition set_gotoptions (v : lcp_options) (s : auth) : auth :=
  mk_auth (upap s) (chap s) (lcp_opened s) v (auth_pending s) (auth_done s) (peer_authname s) (passwd s) (passwd_from_file s) (used_login s) (logged_in s) (attempts s) (exit_status s) (auth_state s) (auth_script_state s) (auth_script_pid s) (timers s) (randoms s).
Definition set_auth_pending (v : Z) (s : auth) : auth :=
  mk_auth (upap s) (chap s) (lcp_opened s) (gotoptions s) v (auth_done s) (peer_authname s) (passwd s) (passwd_from_file s) (used_login s) (logged_in s) (attempts s) (exit_status s) (auth_state s) (auth_script_state s) (auth_script_pid s) (timers s) (randoms s).
Definition set_auth_done (v : Z) (s : auth) : auth :=
  mk_auth (upap s) (chap s) (lcp_opened s) (gotoptions s) (auth_pending s) v (peer_authname s) (passwd s) (passwd_from_file s) (used_login s) (logged_in s) (attempts s) (exit_status s) (auth_state s) (auth_script_state s) (auth_script_pid s) (timers s) (randoms s).
Definition set_peer_authname (v : bytes) (s : auth) : auth :=
  mk_auth (upap s) (chap s) (lcp_opened s) (gotoptions s) (auth_pending s) (auth_done s) v (passwd s) (passwd_from_file s) (used_login s) (logged_in s) (attempts s) (exit_status s) (auth_state s) (auth_script_state s) (auth_script_pid s) (timers s) (randoms s).
Definition set_passwd (v : bytes) (s : auth) : auth :=
  mk_auth (upap s) (chap s) (lcp_opened s) (gotoptions s) (auth_pending s) (auth_done s) (peer_authname s) v (passwd_from_file s) (used_login s) (logged_in s) (attempts s) (exit_status s) (auth_state s) (auth_script_state s) (auth_script_pid s) (timers s) (randoms s).
Definition set_passwd_from_file (v : bool) (s : auth) : auth :=
  mk_auth (upap s) (chap s) (lcp_opened s) (gotoptions s) (auth_pending s) (auth_done s) (peer_authname s) (passwd s) v (used_login s) (logged_in s) (attempts s) (exit_status s) (auth_state s) (auth_script_state s) (auth_script_pid s) (timers s) (randoms s).
Definition set_used_login (v : bool) (s : auth) : auth :=
  mk_auth (upap s) (chap s) (lcp_opened s) (gotoptions s) (auth_pending s) (auth_done s) (peer_authname s) (passwd s) (passwd_from_file s) v (logged_in s) (attempts s) (exit_status s) (auth_state s) (auth_script_state s) (auth_script_pid s) (timers s) (randoms s).
Definition set_logged_in (v : bool) (s : auth) : auth :=
  mk_auth (upap s) (chap s) (lcp_opened s) (gotoptions s) (auth_pending s) (auth_done s) (peer_authname s) (passwd s) (passwd_from_file s) (used_login s) v (attempts s) (exit_status s) (auth_state s) (auth_script_state s) (auth_script_pid s) (timers s) (randoms s).
Definition set_attempts (v : Z) (s : auth) : auth :=
  mk_auth (upap s) (chap s) (lcp_opened s) (gotoptions s) (auth_pending s) (auth_done s) (peer_authname s) (passwd s) (passwd_from_file s) (used_login s) (logged_in s) v (exit_status s) (auth_state s) (auth_script_state s) (auth_script_pid s) (timers s) (randoms s).
Definition set_exit_status (v : Z) (s : auth) : auth :=
  mk_auth (upap s) (chap s) (lcp_opened s) (gotoptions s) (auth_pending s) (auth_done s) (peer_authname s) (passwd s) (passwd_from_file s) (used_login s) (logged_in s) (attempts s) v (auth_state s) (auth_script_state s) (auth_script_pid s) (timers s) (randoms s).
Definition set_auth_state (v : bool) (s : auth) : auth :=
  mk_auth (upap s) (chap s) (lcp_opened s) (gotoptions s) (auth_pending s) (auth_done s) (peer_authname s) (passwd s) (passwd_from_file s) (used_login s) (logged_in s) (attempts s) (exit_status s) v (auth_script_state s) (auth_script_pid s) (timers s) (randoms s).
Definition set_auth_script_state (v : bool) (s : auth) : auth :=
  mk_auth (upap s) (chap s) (lcp_opened s) (gotoptions s) (auth_pending s) (auth_done s) (peer_authname s) (passwd s) (passwd_from_file s) (used_login s) (logged_in s) (attempts s) (exit_status s) (auth_state s) v (auth_script_pid s) (timers s) (randoms s).
Definition set_auth_script_pid (v : bool) (s : auth) : auth :=
  mk_auth (upap s) (chap s) (lcp_opened s) (gotoptions s) (auth_pending s) (auth_done s) (peer_authname s) (passwd s) (passwd_from_file s) (used_login s) (logged_in s) (attempts s) (exit_status s) (auth_state s) (auth_script_state s) v (timers s) (randoms s).
Definition set_timers (v : list (timer * Z)) (s : auth) : auth :=
  mk_auth (upap s) (chap s) (lcp_opened s) (gotoptions s) (auth_pending s) (auth_done s) (peer_authname s) (passwd s) (passwd_from_file s) (used_login s) (logged_in s) (attempts s) (exit_status s) (auth_state s) (auth_script_state s) (auth_script_pid s) v (randoms s).
Definition set_randoms (v : nat) (s : auth) : auth :=
  mk_auth (upap s) (chap s) (lcp_opened s) (gotoptions s) (auth_pending s) (auth_done s) (peer_authname s) (passwd s) (passwd_from_file s) (used_login s) (logged_in s) (attempts s) (exit_status s) (auth_state s) (auth_script_state s) (auth_script_pid s) (timers s) v.

(** What is constant: names and options of the program, the files, and the C
    library.  [getpwnam] gives the password of an entry; [lrand48 n] is the [n]th random number;
    [scripts]: the scripts of auth.c exist and start; [stack] is what an
    [MD5_CTX] on the stack holds before it is initialised. *)
Record config := mk_config {
  our_name : bytes; user : bytes; remote_name : bytes; hostname : bytes; explicit_remote : bool;
  auth_required : bool; uselogin : bool; cryptpap : bool; want_upap : bool;
  noauth_addrs : list bytes; permitted_numbers : list bytes; remote_number : bytes;
  files : bytes → option bytes; crypt : bytes → bytes → bytes; getpwnam : bytes → option bytes;
  lrand48 : nat → Z; scripts : bool; stack : bytes }.

Definition _PATH_UPAPFILE : bytes := chars "/etc/ppp/pap-secrets".
Definition _PATH_CHAPFILE : bytes := chars "/etc/ppp/chap-secrets".

(** What is done to the outside, in order.  [AllowedAddrs] is [set_allowed_addrs] with the words of
    the line; [StartNetworks] is [start_networks], without the phase; [LcpClose] is the call of
    [lcp_close], with the phase that it enters for a moment. *)
Inductive deed :=
| Output (packet : bytes)
| LcpClose (reason : bytes)
| NetworksDown
| NewPhase (p : phase)
| AllowedAddrs (addrs opts : list bytes)
| EapLowerUp
| EapAuthPeer (name : bytes)
| EapAuthWithPeer (name : bytes)
| AuthScript (up : bool)
| StartNetworks.

(** ** Tasks: pieces of the program *)

Definition task (A : Type) : Type := auth → res (A * auth * list deed).

#[export] Instance task_ret : MRet task := λ A a s, Ok (a, s, []).
#[export] Instance task_bind : MBind task := λ A B k m s,
  match m s with
  | Ok (a, s, l) =>
      match k a s with
      | Ok (b, s, l') => Ok (b, s, l ++ l')
      | Fault => Fault
      | NoFuel => NoFuel
      end
  | Fault => Fault
  | NoFuel => NoFuel
  end.

Definition state : task auth := λ s, Ok (s, s, []).
Definition set (g : auth → auth) : task () := λ s, Ok ((), g s, []).
Definition emit (d : deed) : task () := λ s, Ok ((), s, [d]).
Definition of_res {A} (r : res A) : task A := λ s, match r with Ok a => Ok (a, s, []) | Fault => Fault | NoFuel => NoFuel end.
Definition when (b : bool) (m : task ()) : task () := if b then m else mret ().
Definition on_upap (g : upap_state → upap_state) : task () := set (λ s, set_upap (g (upap s)) s).
Definition on_chap (g : chap_state → chap_state) : task () := set (λ s, set_chap (g (chap s)) s).

Definition TIMEOUT (t : timer) (secs : Z) : task () := set (λ s, set_timers (timers s ++ [(t, secs)]) s).
Definition UNTIMEOUT (t : timer) : task () := set (λ s, set_timers (filter (λ e, e.1 ≠ t) (timers s)) s).

(** ** The link goes down *)

Definition upap_lowerdown : task () :=
  s ← state;
  let u := upap s in
  _ ← when (bool_decide (us_clientstate u = UPAPCS_AUTHREQ)) (UNTIMEOUT upap_timeout);
  _ ← when (bool_decide (us_serverstate u = UPAPSS_LISTEN) && (0 <? us_reqtimeout u)) (UNTIMEOUT upap_reqtimeout);
  _ ← on_upap (set_us_clientstate UPAPCS_INITIAL);
  on_upap (set_us_serverstate UPAPSS_INITIAL).

Definition ChapLowerDown : task () :=
  s ← state;
  let c := chap s in
  _ ← match serverstate c with
      | CHAPSS_INITIAL_CHAL | CHAPSS_RECHALLENGE => UNTIMEOUT ChapChallengeTimeout
      | CHAPSS_OPEN => when (negb (chal_interval c =? 0)) (UNTIMEOUT ChapRechallenge)
      | _ => mret ()
      end;
  _ ← when (bool_decide (clientstate c = CHAPCS_RESPONSE)) (UNTIMEOUT ChapResponseTimeout);
  _ ← on_chap (set_clientstate CHAPCS_INITIAL);
  on_chap (set_serverstate CHAPSS_INITIAL).

Section auth_c.
Variable cfg : config.

(** [auth_script], whose [run_program] gives the process of the script, or nothing. *)
Definition auth_script (up : bool) : task () :=
  _ ← emit (AuthScript up);
  set (set_auth_script_pid (scripts cfg)).

Definition auth_script_done : task () :=
  _ ← set (set_auth_script_pid false);
  s ← state;
  if auth_script_state s then
    when (negb (auth_state s)) (_ ← set (set_auth_script_state false); auth_script false)
  else when (auth_state s) (_ ← set (set_auth_script_state true); auth_script true).

(** [notify] has nobody to tell. *)
Definition link_down : task () :=
  _ ← set (set_auth_state false);
  s ← state;
  _ ← when (auth_script_state s && negb (auth_script_pid s)) (_ ← set (set_auth_script_state false); auth_script false);
  _ ← upap_lowerdown;
  _ ← ChapLowerDown;
  _ ← emit NetworksDown;
  emit (NewPhase PHASE_ESTABLISH).

Definition lcp_close (reason : bytes) : task () :=
  _ ← emit (LcpClose reason);
  s ← state;
  when (lcp_opened s) (_ ← set (set_lcp_opened false); link_down).

(** ** Checks *)

(** A character of a "visible" string. *)
Definition visible_char (c : Z) : bytes :=
  let d := if 0x80 <=? c then c - 0x80 else c in
  (if 0x80 <=? c then [77; 45] else [])
  ++ (if (d <? 0x20) || ((0x7f <=? d) && (d <? 0xa0)) then if d =? 9 then [d] else [94; Z.lxor d 0x40] else [d]).

(** [slprintf(buf, 256, "%.*v", prec, p)] for a pointer into [b]: [strlen] of the whole
    string comes first. *)
Definition visible (b : bytes) (p prec : nat) : res bytes :=
  s ← string_at b p;
  Ok (take 255 (concat (visible_char <$> take prec s))).

(** The message is only sent; [false] is [UPAP_AUTHNAK].  Without shadow passwords and PAM. *)
Definition plogin (name passwd : bytes) : task bool :=
  match getpwnam cfg name with
  | None => mret false
  | Some pw =>
      if Nat.ltb (length pw) 2 || negb (bool_decide (crypt cfg passwd pw = pw)) then mret false
      else _ ← set (set_logged_in true); mret true
  end.

(** Does the line of the file accept the password? *)
Definition line_accepts (name passwd secret : bytes) : task bool :=
  let login_secret := bool_decide (secret = chars "@login") in
  ok ← (if uselogin cfg || login_secret then
          r ← plogin name passwd;
          _ ← when r (set (set_used_login true));
          mret r
        else mret true);
  if negb (bool_decide (secret = [])) && negb login_secret
     && (cryptpap cfg || negb (bool_decide (passwd = secret))) && negb (bool_decide (crypt cfg passwd secret = secret))
  then mret false else mret ok.

(** The user and the password are parts of the packet [b]; [junk] is what [secret] holds.  No
    plugin is loaded, and a failure that only [sleep]s before the answer is not told apart. *)
Definition check_passwd (b : bytes) (auser userlen apasswd passwdlen : nat) (junk : bytes) : task (bool * bytes) :=
  passwd ← of_res (visible b apasswd passwdlen);
  name ← of_res (visible b auser userlen);
  '(ok, addrs, opts) ←
    match files cfg _PATH_UPAPFILE with
    | None => mret (false, [], [])
    | Some f =>
        '(flag, secret, addrs, opts) ← of_res (scan_authfile (files cfg) f (Some name) (Some (our_name cfg)) true false junk);
        if flag <? 0 then mret (false, addrs, opts)
        else ok ← line_accepts name passwd secret; mret (ok, addrs, opts)
    end;
  if ok : bool then
    _ ← set (set_attempts 0);
    _ ← emit (AllowedAddrs addrs opts);
    mret (true, chars "Login ok")
  else
    s ← state;
    _ ← set (set_attempts (attempts s + 1));
    _ ← when (10 <=? attempts s) (lcp_close (chars "login failed"));
    mret (false, chars "Login incorrect").

(** The peer may use the line of the user "" if its secret is empty. *)
Definition null_login (junk : bytes) : task bool :=
  match files cfg _PATH_UPAPFILE with
  | None => mret false
  | Some f =>
      '(flag, secret, addrs, opts) ← of_res (scan_authfile (files cfg) f (Some []) (Some (our_name cfg)) true false junk);
      if (0 <=? flag) && bool_decide (secret = []) then _ ← emit (AllowedAddrs addrs opts); mret true
      else mret false
  end.

(** [strlcpy] into a buffer of [n] bytes, of which the rest stays. *)
Definition strlcpy (dst src : bytes) : bytes := splice dst 0 (take (length dst - 1) src ++ [0]).

Definition get_pap_passwd (junk : bytes) : task bool :=
  match files cfg _PATH_UPAPFILE with
  | None => mret false
  | Some f =>
      let server := if bool_decide (remote_name cfg = []) then None else Some (remote_name cfg) in
      '(flag, secret, _, _) ← of_res (scan_authfile (files cfg) f (Some (user cfg)) server true false junk);
      if flag <? 0 then mret false
      else s ← state; _ ← set (set_passwd (strlcpy (passwd s) secret)); mret true
  end.

Definition get_secret (client server : option bytes) (am_server : bool) : task (option bytes) :=
  s ← state;
  if negb am_server && negb (hd 0 (passwd s) =? 0) then mret (Some (take MAXSECRETLEN (c_str (passwd s))))
  else
    match files cfg _PATH_CHAPFILE with
    | None => mret None
    | Some f =>
        '(flag, secbuf, addrs, opts) ← of_res (scan_authfile (files cfg) f client server true false []);
        if flag <? 0 then mret None
        else
          _ ← when am_server (emit (AllowedAddrs addrs opts));
          mret (Some (take MAXSECRETLEN secbuf))
    end.

(** An empty word makes the code read in front of the word. *)
Fixpoint number_loop (words : list bytes) : res bool :=
  match words with
  | [] => Ok false
  | w :: words =>
      match last w with
      | None => Fault
      | Some c =>
          let l := if c =? 42 then (length w - 1)%nat else length w in
          if bool_decide (lower <$> take l w = lower <$> take l (remote_number cfg)) then Ok true else number_loop words
      end
  end.
Definition auth_number : res bool :=
  match permitted_numbers cfg with [] => Ok true | words => number_loop words end.

(** ** The outcome *)

(** Compression and encryption do not hold the networks up here; the options at the end of the
    line of the file are left out. *)
Definition network_phase : task () :=
  s ← state;
  let go := gotoptions s in
  _ ← when (neg_chap go || neg_upap go || neg_eap go)
        (_ ← set (set_auth_state true);
         when (negb (auth_script_state s) && negb (auth_script_pid s)) (_ ← set (set_auth_script_state true); auth_script true));
  _ ← emit (NewPhase PHASE_NETWORK);
  emit StartNetworks.

Definition auth_peer_fail : task () :=
  _ ← lcp_close (chars "Authentication failed");
  set (set_exit_status EXIT_PEER_AUTH_FAILED).

Definition clear_passwd : task () :=
  s ← state;
  when (passwd_from_file s) (set (set_passwd (replicate MAXSECRETLEN 0))).

Definition auth_withpeer_fail : task () :=
  _ ← clear_passwd;
  _ ← lcp_close (chars "Failed to authenticate ourselves to peer");
  set (set_exit_status EXIT_AUTH_TOPEER_FAILED).

(** [auth_done |= bit], [auth_pending &= ~bit], and the network phase if nothing is pending. *)
Definition auth_complete (bit : Z) : task () :=
  _ ← set (λ s, set_auth_done (Z.lor (auth_done s) bit) s);
  _ ← set (λ s, set_auth_pending (Z.ldiff (auth_pending s) bit) s);
  s ← state;
  when (auth_pending s =? 0) network_phase.

Definition chap_bit (bit md5 ms ms2 flavor : Z) : Z :=
  Z.lor bit (if flavor =? CHAP_DIGEST_MD5 then md5 else if flavor =? CHAP_MICROSOFT then ms else if flavor =? CHAP_MICROSOFT_V2 then ms2 else 0).

(** [name] has at least the bytes that are copied, or ends with a zero before. *)
Definition auth_peer_success (protocol flavor : Z) (name : bytes) (namelen : nat) : task () :=
  let bit :=
    if protocol =? PPP_CHAP then Some (chap_bit CHAP_PEER CHAP_MD5_PEER CHAP_MS_PEER CHAP_MS2_PEER flavor)
    else if protocol =? PPP_PAP then Some PAP_PEER
    else if protocol =? PPP_EAP then Some EAP_PEER else None in
  match bit with
  | None => mret ()
  | Some bit =>
      _ ← set (set_peer_authname (c_str (take (Nat.min namelen (MAXNAMELEN - 1)) name)));
      auth_complete bit
  end.

Definition auth_withpeer_success (protocol flavor : Z) : task () :=
  if protocol =? PPP_CHAP then auth_complete (chap_bit CHAP_WITHPEER CHAP_MD5_WITHPEER CHAP_MS_WITHPEER CHAP_MS2_WITHPEER flavor)
  else if protocol =? PPP_PAP then _ ← clear_passwd; auth_complete PAP_WITHPEER
  else if protocol =? PPP_EAP then auth_complete EAP_WITHPEER
  else auth_complete 0.

End auth_c.
