(* ===== verification/PapChap.v ===== *)
(** * PAP, CHAP and the phases of a link (progs.gpl/pppd.alpha: upap.c, chap.c, auth.c)

    The handlers of both protocols on the state of PppAuth, with MD5 of Md5, and
    [link_established].  [auth_step] is one input of the daemon: LCP comes up or goes down, a
    packet, a timeout, a call from EAP.

    A packet is the rest [b] of the buffer [inpacket_buf] from the header of the protocol on,
    and the length of the packet: what lies behind the packet is read in places.  The
    digests of MS-CHAP (chap_ms.c) are an interface, [MsDigests]. *)

From stdpp Require Import base numbers strings list.
From S2P Require Import Prelude Bytes PppFsm LcpOptions Md5 AuthFile PppAuth.

Definition UPAP_HEADERLEN : Z := 4.
Definition UPAP_AUTHREQ : Z := 1.
Definition UPAP_AUTHACK : Z := 2.
Definition UPAP_AUTHNAK : Z := 3.
Definition UPAP_DEFTIMEOUT : Z := 3.
Definition UPAP_DEFREQTIME : Z := 30.

Definition CHAP_HEADERLEN : Z := 4.
Definition CHAP_CHALLENGE : Z := 1.
Definition CHAP_RESPONSE : Z := 2.
Definition CHAP_SUCCESS : Z := 3.
Definition CHAP_FAILURE : Z := 4.
Definition MIN_CHALLENGE_LENGTH : Z := 16.
Definition MAX_CHALLENGE_LENGTH : Z := 24.
Definition MAX_RESPONSE_LENGTH : nat := 64.
Definition MD5_SIGNATURE_SIZE : nat := 16.
Definition MS_CHAP_RESPONSE_LEN : nat := 49.
Definition MS_AUTH_RESPONSE_LENGTH : nat := 40.
Definition CHAP_DEFTIMEOUT : Z := 3.
Definition CHAP_DEFTRANSMITS : Z := 10.

(** What chap.c uses of chap_ms.c.  [ChapMS] gets the bytes from the challenge on and the secret, and
    gives the 49 bytes of the response; [ChapMS2] also gets the challenge of the peer or makes one of
    random numbers, whose count it gives back, and gives the 40 characters of the
    authenticator's response. *)
Class MsDigests := {
  ChapMS : bytes → bytes → res bytes;
  ChapMS2 : (nat → Z) → nat → bytes → option bytes → bytes → bytes → res (bytes * bytes * nat) }.

Section protocols.
Context `{MsDigests}.
Variable cfg : config.

Definition rand : task Z :=
  s ← state;
  _ ← set (set_randoms (S (randoms s)));
  mret (lrand48 cfg (randoms s)).

(** ** PAP *)

Definition upap_init : upap_state :=
  mk_upap [] 0 0 UPAPCS_INITIAL UPAPSS_INITIAL 0 UPAP_DEFTIMEOUT 0 10 UPAP_DEFREQTIME.

Definition upap_sauthreq : task () :=
  _ ← on_upap (λ u, set_us_id (u8 (us_id u + 1)) u);
  s ← state;
  let u := upap s in
  _ ← emit (Output (packet_of PPP_PAP UPAP_AUTHREQ (us_id u)
        (u8 (Z.of_nat (us_userlen u)) :: take (us_userlen u) (us_user u)
         ++ u8 (Z.of_nat (us_passwdlen u)) :: take (us_passwdlen u) (passwd s))));
  _ ← TIMEOUT upap_timeout (us_timeouttime u);
  on_upap (λ u, set_us_clientstate UPAPCS_AUTHREQ (set_us_transmits (us_transmits u + 1) u)).

Definition upap_sresp (ack : bool) (id : Z) (msg : bytes) : task () :=
  emit (Output (packet_of PPP_PAP (if ack then UPAP_AUTHACK else UPAP_AUTHNAK) id (u8 (Z.of_nat (length msg)) :: msg))).

Definition upap_authwithpeer : task () :=
  _ ← set (λ s, set_upap (let u := upap s in
        mk_upap (user cfg) (length (user cfg)) (length (c_str (passwd s))) (us_clientstate u) (us_serverstate u) (us_id u)
          (us_timeouttime u) 0 (us_maxtransmits u) (us_reqtimeout u)) s);
  s ← state;
  match us_clientstate (upap s) with
  | UPAPCS_INITIAL | UPAPCS_PENDING => on_upap (set_us_clientstate UPAPCS_PENDING)
  | _ => upap_sauthreq
  end.

(** [us_serverstate = UPAPSS_LISTEN], and the time limit. *)
Definition upap_listen : task () :=
  _ ← on_upap (set_us_serverstate UPAPSS_LISTEN);
  s ← state;
  when (0 <? us_reqtimeout (upap s)) (TIMEOUT upap_reqtimeout (us_reqtimeout (upap s))).

Definition upap_authpeer : task () :=
  s ← state;
  match us_serverstate (upap s) with
  | UPAPSS_INITIAL | UPAPSS_PENDING => on_upap (set_us_serverstate UPAPSS_PENDING)
  | _ => upap_listen
  end.

Definition upap_on_timeout : task () :=
  s ← state;
  let u := upap s in
  when (bool_decide (us_clientstate u = UPAPCS_AUTHREQ))
    (if us_maxtransmits u <=? us_transmits u then
       _ ← on_upap (set_us_clientstate UPAPCS_BADAUTH);
       auth_withpeer_fail cfg
     else upap_sauthreq).

Definition upap_on_reqtimeout : task () :=
  s ← state;
  when (bool_decide (us_serverstate (upap s) = UPAPSS_LISTEN))
    (_ ← auth_peer_fail cfg; on_upap (set_us_serverstate UPAPSS_BADAUTH)).

Definition upap_lowerup : task () :=
  s ← state;
  _ ← match us_clientstate (upap s) with
      | UPAPCS_INITIAL => on_upap (set_us_clientstate UPAPCS_CLOSED)
      | UPAPCS_PENDING => upap_sauthreq
      | _ => mret ()
      end;
  s ← state;
  match us_serverstate (upap s) with
  | UPAPSS_INITIAL => on_upap (set_us_serverstate UPAPSS_CLOSED)
  | UPAPSS_PENDING => upap_listen
  | _ => mret ()
  end.

Definition upap_protrej : task () :=
  s ← state;
  _ ← when (bool_decide (us_clientstate (upap s) = UPAPCS_AUTHREQ)) (auth_withpeer_fail cfg);
  s ← state;
  _ ← when (bool_decide (us_serverstate (upap s) = UPAPSS_LISTEN)) (auth_peer_fail cfg);
  upap_lowerdown.

(** The user and the password of a request: where they are and how long, when they are inside
    the [len] bytes behind the header, which is at the start of [b]. *)
Definition parse_authreq (b : bytes) (len : Z) : res (option (nat * nat * nat * nat)) :=
  if len <? 1 then Ok None
  else
    ruserlen ← byte_at b 4;
    let len := len - (1 + ruserlen + 1) in
    if len <? 0 then Ok None
    else
      rpasswdlen ← byte_at b (5 + Z.to_nat ruserlen);
      Ok (if len <? rpasswdlen then None else Some (5%nat, Z.to_nat ruserlen, (6 + Z.to_nat ruserlen)%nat, Z.to_nat rpasswdlen)).

Definition upap_rauthreq (b : bytes) (id len : Z) (junk : bytes) : task () :=
  s ← state;
  match us_serverstate (upap s) with
  | UPAPSS_INITIAL | UPAPSS_CLOSED | UPAPSS_PENDING => mret ()
  | UPAPSS_OPEN => upap_sresp true id []
  | UPAPSS_BADAUTH => upap_sresp false id []
  | UPAPSS_LISTEN =>
      p ← of_res (parse_authreq b len);
      match p with
      | None => mret ()
      | Some (ruser, ruserlen, rpasswd, rpasswdlen) =>
          '(ok, msg) ← check_passwd cfg b ruser ruserlen rpasswd rpasswdlen junk;
          let b := splice b rpasswd (replicate rpasswdlen 0) in
          ok ← (if ok : bool then of_res (auth_number cfg) else mret false);
          _ ← upap_sresp ok id (take 255 msg);
          rhostname ← of_res (visible b ruser ruserlen);
          _ ← (if ok : bool then
                 _ ← on_upap (set_us_serverstate UPAPSS_OPEN);
                 auth_peer_success cfg PPP_PAP 0 (slice b ruser ruserlen) ruserlen
               else
                 _ ← on_upap (set_us_serverstate UPAPSS_BADAUTH);
                 auth_peer_fail cfg);
          s ← state;
          when (0 <? us_reqtimeout (upap s)) (UNTIMEOUT upap_reqtimeout)
      end
  end.

(** The length of the message of an answer is right; the message is only printed. *)
Definition message_ok (b : bytes) (len : Z) : res bool :=
  if len <? 1 then Ok true
  else msglen ← byte_at b 4; Ok (negb ((0 <? msglen) && (len - 1 <? msglen))).

Definition upap_rauthack (b : bytes) (len : Z) : task () :=
  s ← state;
  when (bool_decide (us_clientstate (upap s) = UPAPCS_AUTHREQ))
    (ok ← of_res (message_ok b len);
     when ok (_ ← on_upap (set_us_clientstate UPAPCS_OPEN); auth_withpeer_success cfg PPP_PAP 0)).

Definition upap_rauthnak (b : bytes) (len : Z) : task () :=
  s ← state;
  when (bool_decide (us_clientstate (upap s) = UPAPCS_AUTHREQ))
    (ok ← of_res (message_ok b len);
     when ok (_ ← on_upap (set_us_clientstate UPAPCS_BADAUTH); auth_withpeer_fail cfg)).

(** The code, the identifier and the length behind the header, for [upap_input] and [ChapInput]. *)
Definition packet_header (b : bytes) (l : Z) : res (option (Z * Z * Z)) :=
  if l <? 4 then Ok None
  else
    code ← byte_at b 0;
    id ← byte_at b 1;
    len ← read16 b 2;
    Ok (if (len <? 4) || (l <? len) then None else Some (code, id, len - 4)).

Definition upap_input (b : bytes) (l : Z) (junk : bytes) : task () :=
  h ← of_res (packet_header b l);
  match h with
  | None => mret ()
  | Some (code, id, len) =>
      if code =? UPAP_AUTHREQ then upap_rauthreq b id len junk
      else if code =? UPAP_AUTHACK then upap_rauthack b len
      else if code =? UPAP_AUTHNAK then upap_rauthnak b len
      else mret ()
  end.

(** ** CHAP *)

(** [interval] is what the options then set. *)
Definition ChapInit (interval : Z) : chap_state :=
  mk_chap CHAPCS_INITIAL CHAPSS_INITIAL [] 0 0 0 None interval CHAP_DEFTIMEOUT CHAP_DEFTRANSMITS 0 0
    (replicate MAX_RESPONSE_LENGTH 0) 0 [] (replicate (S MS_AUTH_RESPONSE_LENGTH) 0) 0 0 0 None.

Definition chap_output (code id : Z) (data : bytes) : task () := emit (Output (packet_of PPP_CHAP code id data)).

(** The data of a Challenge or Response. *)
Definition value_name (value name : bytes) : bytes := u8 (Z.of_nat (length value)) :: value ++ name.

Definition ChapSendChallenge : task () :=
  s ← state;
  let c := chap s in
  name ← of_res (deref (chal_name c));
  _ ← chap_output CHAP_CHALLENGE (chal_id c) (value_name (challenge c) name);
  _ ← TIMEOUT ChapChallengeTimeout (chap_timeouttime c);
  on_chap (λ c, set_chal_transmits (chal_transmits c + 1) c).

Definition ChapSendResponse : task () :=
  s ← state;
  let c := chap s in
  name ← of_res (deref (resp_name c));
  _ ← chap_output CHAP_RESPONSE (resp_id c) (value_name (take (Z.to_nat (resp_length c)) (response c)) name);
  _ ← on_chap (set_clientstate CHAPCS_RESPONSE);
  _ ← TIMEOUT ChapResponseTimeout (chap_timeouttime c);
  on_chap (λ c, set_resp_transmits (resp_transmits c + 1) c).

Definition hex_digit (d : Z) : Z := if d <? 10 then 48 + d else 55 + d.
Definition hex_pair (c : Z) : bytes := [hex_digit (c / 16); hex_digit (c `mod` 16)].

(** The message has room for 255 characters. *)
Definition status_message (c : chap_state) (success : bool) : bytes :=
  let welcome := chars "Welcome to " ++ hostname cfg ++ chars "." in
  let refusal := chars "I don't like you.  Go 'way." in
  take 255
    (if success then
       if chal_type c =? CHAP_MICROSOFT_V2 then
         chars "S=" ++ saresponse c ++ (if resp_flags c =? 0 then chars " M=" ++ welcome else [])
       else welcome
     else if (chal_type c =? CHAP_MICROSOFT_V2) || (chal_type c =? CHAP_MICROSOFT) then
       chars "E=691 R=1 C=" ++ concat (hex_pair <$> challenge c) ++ chars " V=0 M=" ++ refusal
     else refusal).

Definition ChapSendStatus (success : bool) : task () :=
  s ← state;
  chap_output (if success then CHAP_SUCCESS else CHAP_FAILURE) (chal_id (chap s)) (status_message (chap s) success).

Fixpoint random_bytes (n : nat) : task bytes :=
  match n with
  | O => mret []
  | S n => r ← rand; l ← random_bytes n; mret (Z.land r 0xff :: l)
  end.

(** An unknown digest is [fatal]: the program ends.  That is a [Fault] here. *)
Definition ChapGenChallenge : task () :=
  s ← state;
  let t := chal_type (chap s) in
  chal_len ←
    (if t =? CHAP_DIGEST_MD5 then
       r ← rand; mret (r `mod` (MAX_CHALLENGE_LENGTH - MIN_CHALLENGE_LENGTH) + MIN_CHALLENGE_LENGTH)
     else if t =? CHAP_MICROSOFT then mret 8
     else if t =? CHAP_MICROSOFT_V2 then mret 16
     else of_res Fault);
  _ ← on_chap (λ c, let id := u8 (chap_id c + 1) in set_chal_transmits 0 (set_chal_id id (set_chap_id id c)));
  l ← random_bytes (Z.to_nat chal_len);
  on_chap (set_challenge l).

Definition new_challenge (next : chap_server) : task () :=
  _ ← ChapGenChallenge;
  _ ← ChapSendChallenge;
  on_chap (set_serverstate next).

Definition ChapAuthWithPeer (our_name : bytes) (digest : Z) : task () :=
  _ ← on_chap (λ c, set_resp_type (u8 digest) (set_resp_name (Some our_name) c));
  s ← state;
  match clientstate (chap s) with
  | CHAPCS_INITIAL | CHAPCS_PENDING => on_chap (set_clientstate CHAPCS_PENDING)
  | _ => on_chap (set_clientstate CHAPCS_LISTEN)
  end.

Definition ChapAuthPeer (our_name : bytes) (digest : Z) : task () :=
  _ ← on_chap (λ c, set_chal_type (u8 digest) (set_chal_name (Some our_name) c));
  s ← state;
  match serverstate (chap s) with
  | CHAPSS_INITIAL | CHAPSS_PENDING => on_chap (set_serverstate CHAPSS_PENDING)
  | _ => new_challenge CHAPSS_INITIAL_CHAL
  end.

Definition chap_on_challenge_timeout : task () :=
  s ← state;
  let c := chap s in
  match serverstate c with
  | CHAPSS_INITIAL_CHAL | CHAPSS_RECHALLENGE =>
      if max_transmits c <=? chal_transmits c then
        _ ← on_chap (set_serverstate CHAPSS_BADAUTH);
        auth_peer_fail cfg
      else ChapSendChallenge
  | _ => mret ()
  end.

Definition chap_on_response_timeout : task () :=
  s ← state;
  when (bool_decide (clientstate (chap s) = CHAPCS_RESPONSE)) ChapSendResponse.

Definition chap_on_rechallenge : task () :=
  s ← state;
  when (bool_decide (serverstate (chap s) = CHAPSS_OPEN)) (new_challenge CHAPSS_RECHALLENGE).

Definition ChapLowerUp : task () :=
  s ← state;
  _ ← match clientstate (chap s) with
      | CHAPCS_INITIAL => on_chap (set_clientstate CHAPCS_CLOSED)
      | CHAPCS_PENDING => on_chap (set_clientstate CHAPCS_LISTEN)
      | _ => mret ()
      end;
  match serverstate (chap s) with
  | CHAPSS_INITIAL => on_chap (set_serverstate CHAPSS_CLOSED)
  | CHAPSS_PENDING => new_challenge CHAPSS_INITIAL_CHAL
  | _ => mret ()
  end.

Definition ChapProtocolReject : task () :=
  s ← state;
  _ ← match serverstate (chap s) with CHAPSS_INITIAL | CHAPSS_CLOSED => mret () | _ => auth_peer_fail cfg end;
  s ← state;
  _ ← match clientstate (chap s) with CHAPCS_INITIAL | CHAPCS_CLOSED => mret () | _ => auth_withpeer_fail cfg end;
  ChapLowerDown.

(** The value and the name of a Challenge or Response of [len] bytes behind the header: the length of
    the value, which is at 5, and the length of the name behind it. *)
Definition parse_value (b : bytes) (len : Z) : res (option (nat * Z)) :=
  if len <? 2 then Ok None
  else
    n ← byte_at b 4;
    let len := len - (1 + n) in
    Ok (if len <? 0 then None else Some (Z.to_nat n, len)).

(** [MD5] of the identifier, the secret and the challenge. *)
Definition chap_md5 (id : Z) (secret challenge : bytes) : bytes := digest_of (stack cfg) [[id]; secret; challenge].

Definition set_resp (r : bytes) (n : nat) (c : chap_state) : chap_state :=
  set_resp_length (Z.of_nat n) (set_response (splice (response c) 0 r) c).

(** The digest for the challenge [n] bytes long at 5; [false] for an unknown type. *)
Definition make_response (b : bytes) (n : nat) (secret : bytes) : task bool :=
  s ← state;
  let c := chap s in
  if resp_type c =? CHAP_DIGEST_MD5 then
    rchallenge ← of_res (read_at b 5 n);
    _ ← on_chap (set_resp (chap_md5 (resp_id c) secret rchallenge) MD5_SIGNATURE_SIZE);
    mret true
  else if resp_type c =? CHAP_MICROSOFT then
    r ← of_res (ChapMS (drop 5 b) secret);
    _ ← on_chap (set_resp r MS_CHAP_RESPONSE_LEN);
    mret true
  else if resp_type c =? CHAP_MICROSOFT_V2 then
    name ← of_res (deref (resp_name c));
    '(r, ea, randoms) ← of_res (ChapMS2 (lrand48 cfg) (randoms s) (drop 5 b) None name secret);
    _ ← set (set_randoms randoms);
    _ ← on_chap (λ c, set_earesponse ea (set_resp r MS_CHAP_RESPONSE_LEN c));
    mret true
  else mret false.

Definition ChapReceiveChallenge (b : bytes) (id len : Z) : task () :=
  s ← state;
  match clientstate (chap s) with
  | CHAPCS_CLOSED | CHAPCS_PENDING => mret ()
  | _ =>
      p ← of_res (parse_value b len);
      match p with
      | None => mret ()
      | Some (rchallenge_len, namelen) =>
          name ← of_res (visible b (5 + rchallenge_len) (Z.to_nat namelen));
          let rhostname :=
            if explicit_remote cfg || (negb (bool_decide (remote_name cfg = [])) && bool_decide (name = []))
            then take 255 (remote_name cfg) else name in
          secret ← get_secret cfg (resp_name (chap s)) (Some rhostname) false;
          _ ← when (bool_decide (clientstate (chap s) = CHAPCS_RESPONSE)) (UNTIMEOUT ChapResponseTimeout);
          _ ← on_chap (λ c, set_resp_transmits 0 (set_resp_id id c));
          known ← make_response b rchallenge_len (default [] secret);
          when known ChapSendResponse
      end
  end.

(** Is the response, [n] bytes at 5, the digest of the secret? *)
Definition check_response (b : bytes) (n : nat) (name secret : bytes) : task bool :=
  s ← state;
  let c := chap s in
  if chal_type c =? CHAP_DIGEST_MD5 then
    if bool_decide (n = MD5_SIGNATURE_SIZE) then
      remmd ← of_res (read_at b 5 MD5_SIGNATURE_SIZE);
      mret (bool_decide (chap_md5 (chal_id c) secret (challenge c) = remmd))
    else mret false
  else if chal_type c =? CHAP_MICROSOFT then
    if bool_decide (n = MS_CHAP_RESPONSE_LEN) then
      use_nt ← of_res (byte_at b (5 + 48));
      if use_nt =? 0 then mret false
      else
        md ← of_res (ChapMS (challenge c) secret);
        _ ← on_chap (set_resp_length (Z.of_nat MS_CHAP_RESPONSE_LEN));
        ntresp ← of_res (read_at b (5 + 24) 24);
        mret (bool_decide (slice md 24 24 = ntresp))
    else mret false
  else if chal_type c =? CHAP_MICROSOFT_V2 then
    if bool_decide (n = MS_CHAP_RESPONSE_LEN) then
      peer ← of_res (read_at b 5 16);
      '(md, sa, randoms) ← of_res (ChapMS2 (lrand48 cfg) (randoms s) (challenge c) (Some peer) name secret);
      _ ← set (set_randoms randoms);
      _ ← on_chap (λ c, set_saresponse sa (set_resp_length (Z.of_nat MS_CHAP_RESPONSE_LEN) c));
      ntresp ← of_res (read_at b (5 + 24) 24);
      mret (bool_decide (slice md 24 24 = ntresp))
    else mret false
  else mret false.

Definition ChapReceiveResponse (b : bytes) (id len : Z) : task () :=
  s ← state;
  let c := chap s in
  match serverstate c with
  | CHAPSS_CLOSED | CHAPSS_PENDING => mret ()
  | old_state =>
      if negb (id =? chal_id c) then mret ()
      else if bool_decide (old_state = CHAPSS_OPEN) then ChapSendStatus true
      else if bool_decide (old_state = CHAPSS_BADAUTH) then ChapSendStatus false
      else
        p ← of_res (parse_value b len);
        match p with
        | None => mret ()
        | Some (remmd_len, namelen) =>
            _ ← UNTIMEOUT ChapChallengeTimeout;
            rhostname ← of_res (visible b (5 + remmd_len) (Z.to_nat namelen));
            _ ← when (chal_type c =? CHAP_MICROSOFT_V2) (flags ← of_res (byte_at b (5 + 48)); on_chap (set_resp_flags flags));
            let name := if explicit_remote cfg then remote_name cfg else rhostname in
            secret ← get_secret cfg (Some name) (chal_name c) true;
            ok ← match secret with None => mret false | Some secret => check_response b remmd_len name secret end;
            _ ← ChapSendStatus ok;
            if ok : bool then
              _ ← on_chap (set_serverstate CHAPSS_OPEN);
              _ ← when (bool_decide (old_state = CHAPSS_INITIAL_CHAL)) (auth_peer_success cfg PPP_CHAP (chal_type c) rhostname (Z.to_nat namelen));
              when (negb (chal_interval c =? 0)) (TIMEOUT ChapRechallenge (chal_interval c))
            else
              _ ← on_chap (set_serverstate CHAPSS_BADAUTH);
              auth_peer_fail cfg
        end
  end.

(** The check of the authenticator's response of MS-CHAPv2; a failure closes the link. *)
Definition check_authenticator (b : bytes) (len : Z) (earesponse : bytes) : task () :=
  if (Z.of_nat MS_AUTH_RESPONSE_LENGTH + 2 <=? len) && bool_decide (slice b 4 2 = chars "S=") then
    if bool_decide (slice b 6 MS_AUTH_RESPONSE_LENGTH = take MS_AUTH_RESPONSE_LENGTH earesponse) then
      let len := len - 2 - Z.of_nat MS_AUTH_RESPONSE_LENGTH in
      if (3 <=? len) && bool_decide (slice b (6 + MS_AUTH_RESPONSE_LENGTH) 3 = chars " M=") then mret ()
      else when (negb (len =? 0)) (auth_withpeer_fail cfg)
    else auth_withpeer_fail cfg
  else auth_withpeer_fail cfg.

Definition ChapReceiveSuccess (b : bytes) (len : Z) : task () :=
  s ← state;
  let c := chap s in
  when (bool_decide (clientstate c = CHAPCS_RESPONSE))
    (_ ← UNTIMEOUT ChapResponseTimeout;
     _ ← when (resp_type c =? CHAP_MICROSOFT_V2) (check_authenticator b len (earesponse c));
     _ ← on_chap (set_clientstate CHAPCS_OPEN);
     auth_withpeer_success cfg PPP_CHAP (resp_type c)).

(** The message is only printed; [malloc] succeeds. *)
Definition ChapReceiveFailure : task () :=
  s ← state;
  when (bool_decide (clientstate (chap s) = CHAPCS_RESPONSE))
    (_ ← UNTIMEOUT ChapResponseTimeout; auth_withpeer_fail cfg).

Definition ChapInput (b : bytes) (l : Z) : task () :=
  h ← of_res (packet_header b l);
  match h with
  | None => mret ()
  | Some (code, id, len) =>
      if code =? CHAP_CHALLENGE then ChapReceiveChallenge b id len
      else if code =? CHAP_RESPONSE then ChapReceiveResponse b id len
      else if code =? CHAP_FAILURE then ChapReceiveFailure
      else if code =? CHAP_SUCCESS then ChapReceiveSuccess b len
      else mret ()
  end.

(** ** The link comes up *)

Definition ask_peer (go : lcp_options) : task Z :=
  if neg_eap go then _ ← emit (EapAuthPeer (our_name cfg)); mret EAP_PEER
  else if neg_chap go then _ ← ChapAuthPeer (our_name cfg) (CHAP_DIGEST (chap_mdtype go)); mret CHAP_PEER
  else if neg_upap go then _ ← upap_authpeer; mret PAP_PEER
  else mret 0.

Definition answer_peer (ho : lcp_options) (junk : bytes) : task Z :=
  if neg_eap ho then _ ← emit (EapAuthWithPeer (user cfg)); mret EAP_WITHPEER
  else if neg_chap ho then _ ← ChapAuthWithPeer (user cfg) (CHAP_DIGEST (chap_mdtype ho)); mret CHAP_WITHPEER
  else if neg_upap ho then
    s ← state;
    _ ← when (hd 0 (passwd s) =? 0) (_ ← set (set_passwd_from_file true); _ ← get_pap_passwd cfg junk; mret ());
    _ ← upap_authwithpeer;
    mret PAP_WITHPEER
  else mret 0.

(** The peer may do without authentication: no one asks for it, some addresses are free, or it
    could log in as "" with PAP. *)
Definition may_refuse (go : lcp_options) (junk : bytes) : task bool :=
  if auth_required cfg && negb (neg_upap go || neg_chap go || neg_eap go) then
    if negb (bool_decide (noauth_addrs cfg = [])) then _ ← emit (AllowedAddrs [] []); mret true
    else if negb (want_upap cfg) || uselogin cfg then mret false
    else null_login cfg junk
  else mret true.

(** [go] and [ho]: what the two ends have agreed to. *)
Definition link_established (go ho : lcp_options) (junk : bytes) : task () :=
  _ ← upap_lowerup;
  _ ← ChapLowerUp;
  _ ← emit EapLowerUp;
  _ ← when (negb (auth_required cfg) && negb (bool_decide (noauth_addrs cfg = []))) (emit (AllowedAddrs [] []));
  ok ← may_refuse go junk;
  if negb ok then
    _ ← lcp_close cfg (chars "peer refused to authenticate");
    set (set_exit_status EXIT_PEER_AUTH_FAILED)
  else
    _ ← emit (NewPhase PHASE_AUTHENTICATE);
    _ ← set (set_used_login false);
    peer ← ask_peer go;
    us ← answer_peer ho junk;
    let auth := Z.lor peer us in
    _ ← set (set_auth_pending auth);
    _ ← set (set_auth_done 0);
    when (auth =? 0) (network_phase cfg).

(** ** The inputs *)

(** [junk] is what buffers on the stack hold. *)
Inductive input :=
| LinkUp (go ho : lcp_options) (junk : bytes)
| LinkDown
| PapPacket (b : bytes) (l : Z) (junk : bytes)
| ChapPacket (b : bytes) (l : Z)
| PapRejected
| ChapRejected
| Expired (t : timer)
| EapPeerResult (ok : bool) (name : bytes)
| EapWithPeerResult (ok : bool)
| ScriptDone.

Definition handler (t : timer) : task () :=
  match t with
  | upap_timeout => upap_on_timeout
  | upap_reqtimeout => upap_on_reqtimeout
  | ChapChallengeTimeout => chap_on_challenge_timeout
  | ChapResponseTimeout => chap_on_response_timeout
  | ChapRechallenge => chap_on_rechallenge
  end.

(** The first timeout of the handler is taken out of the list before it is called. *)
Fixpoint take_timer (t : timer) (l : list (timer * Z)) : option (list (timer * Z)) :=
  match l with
  | [] => None
  | e :: l => if decide (e.1 = t) then Some l else (e ::.) <$> take_timer t l
  end.

(** [lcp_up], [lcp_down], [get_ppp_input], which drops packets unless LCP is open, and [eloop_run]; an
    input that cannot come in the state does nothing. *)
Definition auth_step (i : input) : task () :=
  s ← state;
  match i with
  | LinkUp go ho junk =>
      when (negb (lcp_opened s)) (_ ← set (λ s, set_gotoptions go (set_lcp_opened true s)); link_established go ho junk)
  | LinkDown => when (lcp_opened s) (_ ← set (set_lcp_opened false); link_down cfg)
  | PapPacket b l junk => when (lcp_opened s) (upap_input b l junk)
  | ChapPacket b l => when (lcp_opened s) (ChapInput b l)
  | PapRejected => when (lcp_opened s) upap_protrej
  | ChapRejected => when (lcp_opened s) ChapProtocolReject
  | Expired t =>
      match take_timer t (timers s) with
      | Some l => _ ← set (set_timers l); handler t
      | None => mret ()
      end
  | EapPeerResult ok name =>
      when (lcp_opened s) (if ok then auth_peer_success cfg PPP_EAP 0 name (length name) else auth_peer_fail cfg)
  | EapWithPeerResult ok =>
      when (lcp_opened s) (if ok then auth_withpeer_success cfg PPP_EAP 0 else auth_withpeer_fail cfg)
  | ScriptDone => when (auth_script_pid s) (auth_script_done cfg)
  end.

(** The start of the program: [pw] is the password of the configuration, in its buffer. *)
Definition auth_init (pw : bytes) (interval : Z) : auth :=
  mk_auth upap_init (ChapInit interval)
    false no_options 0 0 [] pw false false false 0 0 false false false [] 0.

End protocols.
