(* ===== verification/AuthProps.v ===== *)
(** * Who reaches the network phase (PppAuth, PapChap)

    Over all sequences of inputs: the networks are started only after the peer has given the
    proof that was agreed with it when LCP came up. *)

From stdpp Require Import base numbers strings list.
From S2P Require Import Prelude Bytes PppFsm LcpOptions Md5 AuthFile PppAuth PapChap.

(** ** Tasks that complete *)

Definition after {A} (m : task A) (s : auth) (Q : A → auth → list deed → Prop) : Prop :=
  match m s with Ok (a, s', l) => Q a s' l | _ => True end.

Lemma after_ok {A} (m : task A) s Q : after m s Q ↔ ∀ a s' l, m s = Ok (a, s', l) → Q a s' l.
Proof. unfold after. destruct (m s) as [[[a s'] l]| |]; naive_solver. Qed.

Lemma bind_task_Ok {A B} (m : task A) (k : A → task B) s b s' l :
  (m ≫= k) s = Ok (b, s', l) ↔ ∃ a s1 l1 l2, m s = Ok (a, s1, l1) ∧ k a s1 = Ok (b, s', l2) ∧ l = l1 ++ l2.
Proof.
  unfold mbind, task_bind. split.
  - destruct (m s) as [[[a s1] l1]| |]; [|done..]. destruct (k a s1) as [[[b' s2] l2]| |] eqn:E; [|done..].
    intros [= -> -> <-]. by exists a, s1, l1, l2.
  - intros (a & s1 & l1 & l2 & -> & -> & ->). done.
Qed.

Lemma of_res_Ok {A} (r : res A) s a s' l : of_res r s = Ok (a, s', l) → r = Ok a ∧ s' = s ∧ l = [].
Proof. unfold of_res. destruct r; [by intros [= -> -> <-]|done..]. Qed.

(** ** What a task may do *)

Definition challenging (c : chap_state) : Prop := serverstate c = CHAPSS_INITIAL_CHAL ∨ serverstate c = CHAPSS_RECHALLENGE.
Definition challenge_packet (c : chap_state) : bytes :=
  packet_of PPP_CHAP CHAP_CHALLENGE (chal_id c) (value_name (challenge c) (default [] (chal_name c))).

(** The bits of [PAP_PEER], [CHAP_PEER] and [EAP_PEER]. *)
Definition peer_bits : list Z := [1; 3; 5].

(** From [s] to [s'] with the deeds [l]: a bit is cleared only if [P] holds of it; the networks are
    started only if [N], and then [P] holds of all bits that were pending; a challenge to be
    answered is the old one or has been sent. *)
Record moves (N : Prop) (P : Z → Prop) (s s' : auth) (l : list deed) : Prop := {
  moves_type : chal_type (chap s') = chal_type (chap s);
  moves_name : chal_name (chap s') = chal_name (chap s);
  moves_bits k : k ∈ peer_bits → Z.testbit (auth_pending s) k = true → Z.testbit (auth_pending s') k = true ∨ P k;
  moves_sub k : k ∈ peer_bits → Z.testbit (auth_pending s') k = true → Z.testbit (auth_pending s) k = true;
  moves_start : StartNetworks ∈ l → N ∧ ∀ k, k ∈ peer_bits → Z.testbit (auth_pending s) k = true → P k;
  moves_open : lcp_opened s' = true → lcp_opened s = true;
  moves_challenge : challenging (chap s') →
    (challenging (chap s) ∧ challenge_packet (chap s') = challenge_packet (chap s)
     ∧ chal_id (chap s') = chal_id (chap s) ∧ challenge (chap s') = challenge (chap s)) ∨ Output (challenge_packet (chap s')) ∈ l }.

Definition keeps N P {A} (m : task A) (s : auth) : Prop := after m s (λ _ s' l, moves N P s s' l).

Lemma moves_refl N P s : moves N P s s [].
Proof. constructor; try done; [by left|by intros ?%elem_of_nil|by left]. Qed.

Lemma moves_trans N P s s1 s2 l1 l2 : moves N P s s1 l1 → moves N P s1 s2 l2 → moves N P s s2 (l1 ++ l2).
Proof.
  intros [T1 N1 B1 U1 S1 O1 C1] [T2 N2 B2 U2 S2 O2 C2]. constructor; [congruence|congruence| |naive_solver| |naive_solver|].
  - intros k Hk Hp. destruct (B1 k Hk Hp) as [Hp1|?]; [by apply B2|by right].
  - intros [Hin|Hin]%elem_of_app; [by apply S1|]. destruct (S2 Hin) as [HN HP]. split; [done|]. intros k Hk Hp.
    destruct (B1 k Hk Hp) as [Hp1|?]; [by apply HP|done].
  - intros Hc. destruct (C2 Hc) as [(Hc1 & E1 & E2 & E3)|Hin]; [|right; apply elem_of_app; by right]. destruct (C1 Hc1) as [(Hc0 & E4 & E5 & E6)|Hin].
    + left. split; [done|]. split; [congruence|]. split; congruence.
    + right. apply elem_of_app. left. by rewrite E1.
Qed.

Lemma moves_mono (N N' : Prop) (P P' : Z → Prop) s s' l : (N → N') → (∀ k, P k → P' k) → moves N P s s' l → moves N' P' s s' l.
Proof. intros HN HP [T Nm B U S O C]. constructor; naive_solver. Qed.

Lemma keeps_bind N P {A B} (m : task A) (k : A → task B) s :
  keeps N P m s → (∀ a s' l, m s = Ok (a, s', l) → keeps N P (k a) s') → keeps N P (m ≫= k) s.
Proof.
  unfold keeps. rewrite !after_ok. intros Hm Hk b s' l (a & s1 & l1 & l2 & E1 & E2 & ->)%bind_task_Ok.
  eapply moves_trans; [by eapply Hm|]. specialize (Hk a s1 l1 E1). rewrite after_ok in Hk. by eapply Hk.
Qed.

(** A task that clears no bit, from any state. *)
Definition gentle (N : Prop) {A} (m : task A) : Prop := ∀ s P, keeps N P m s.

Lemma gentle_bind N {A B} (m : task A) (k : A → task B) : gentle N m → (∀ a, gentle N (k a)) → gentle N (m ≫= k).
Proof. intros Hm Hk s P. apply keeps_bind; [apply Hm|]. intros a s' l _. apply Hk. Qed.

Lemma gentle_weaken (N : Prop) {A} (m : task A) : gentle False m → gentle N m.
Proof.
  intros Hm s P. unfold keeps. apply after_ok. intros a s' l E. specialize (Hm s P). unfold keeps in Hm. rewrite after_ok in Hm.
  by eapply moves_mono, Hm.
Qed.

Lemma gentle_ret N {A} (a : A) : gentle N (mret a).
Proof. intros s P. apply moves_refl. Qed.
Lemma gentle_state N : gentle N state.
Proof. intros s P. apply moves_refl. Qed.
Lemma gentle_of_res N {A} (r : res A) : gentle N (of_res r).
Proof. intros s P. unfold keeps, after, of_res. destruct r; [apply moves_refl|done..]. Qed.
Lemma gentle_emit N d : d ≠ StartNetworks → gentle N (emit d).
Proof. intros Hd s P. unfold keeps, after, emit. constructor; try done; [by left|by intros Hin%list_elem_of_singleton; congruence|by left]. Qed.
Lemma gentle_when N (b : bool) (m : task ()) : gentle N m → gentle N (when b m).
Proof. destruct b; [done|]. intros _. apply gentle_ret. Qed.

Definition untouched (s s' : auth) : Prop :=
  chal_type (chap s') = chal_type (chap s) ∧ chal_name (chap s') = chal_name (chap s) ∧ auth_pending s' = auth_pending s ∧
  (lcp_opened s' = true → lcp_opened s = true) ∧
  (challenging (chap s') → challenging (chap s) ∧ chal_id (chap s') = chal_id (chap s) ∧ challenge (chap s') = challenge (chap s)).

Lemma gentle_set N g : (∀ s, untouched s (g s)) → gentle N (set g).
Proof.
  intros Hg s P. destruct (Hg s) as (T & Nm & B & O & C). unfold keeps, after, set. constructor; [done|done| | | |done|].
  - intros k _. rewrite B. by left.
  - intros k _. by rewrite B.
  - by intros ?%elem_of_nil.
  - intros Hc. left. destruct (C Hc) as (Hc0 & E1 & E2). split; [done|]. split; [|done]. unfold challenge_packet. by rewrite E1, E2, Nm.
Qed.

Create HintDb gentle.
#[export] Hint Resolve gentle_ret gentle_state gentle_of_res : gentle.

Ltac untouched := intros []; unfold untouched, challenging; cbn; naive_solver.
Ltac gentle :=
  repeat first
    [ solve [eauto with gentle]
    | apply gentle_bind; [|intros ?]
    | apply gentle_when
    | apply gentle_emit; discriminate
    | progress cbv zeta
    | progress case_match
    | apply gentle_set; untouched ].

Section gentle_tasks.
Context `{MsDigests}.
Variable cfg : config.

Lemma gentle_timeout t n : gentle False (TIMEOUT t n).
Proof. unfold TIMEOUT. gentle. Qed.
Lemma gentle_untimeout t : gentle False (UNTIMEOUT t).
Proof. unfold UNTIMEOUT. gentle. Qed.
#[local] Hint Resolve gentle_timeout gentle_untimeout : gentle.

Lemma gentle_upap_lowerdown : gentle False upap_lowerdown.
Proof. unfold upap_lowerdown, on_upap. gentle. Qed.
Lemma gentle_ChapLowerDown : gentle False ChapLowerDown.
Proof. unfold ChapLowerDown, on_chap. gentle. Qed.
Lemma gentle_auth_script up : gentle False (auth_script cfg up).
Proof. unfold auth_script. gentle. Qed.
#[local] Hint Resolve gentle_upap_lowerdown gentle_ChapLowerDown gentle_auth_script : gentle.

Lemma gentle_auth_script_done : gentle False (auth_script_done cfg).
Proof. unfold auth_script_done. gentle. Qed.
Lemma gentle_link_down : gentle False (link_down cfg).
Proof. unfold link_down. gentle. Qed.
#[local] Hint Resolve gentle_link_down : gentle.
Lemma gentle_lcp_close r : gentle False (lcp_close cfg r).
Proof. unfold lcp_close. gentle. Qed.
#[local] Hint Resolve gentle_lcp_close : gentle.
Lemma gentle_plogin name pw : gentle False (plogin cfg name pw).
Proof. unfold plogin. gentle. Qed.
#[local] Hint Resolve gentle_plogin : gentle.
Lemma gentle_line_accepts name pw secret : gentle False (line_accepts cfg name pw secret).
Proof. unfold line_accepts. gentle. Qed.
#[local] Hint Resolve gentle_line_accepts : gentle.
Lemma gentle_check_passwd b n1 n2 n3 n4 junk : gentle False (check_passwd cfg b n1 n2 n3 n4 junk).
Proof. unfold check_passwd. gentle. Qed.
Lemma gentle_null_login junk : gentle False (null_login cfg junk).
Proof. unfold null_login. gentle. Qed.
Lemma gentle_get_pap_passwd junk : gentle False (get_pap_passwd cfg junk).
Proof. unfold get_pap_passwd. gentle. Qed.
Lemma gentle_get_secret c s am : gentle False (get_secret cfg c s am).
Proof. unfold get_secret. gentle. Qed.
Lemma gentle_auth_peer_fail : gentle False (auth_peer_fail cfg).
Proof. unfold auth_peer_fail. gentle. Qed.
Lemma gentle_clear_passwd : gentle False clear_passwd.
Proof. unfold clear_passwd. gentle. Qed.
#[local] Hint Resolve gentle_clear_passwd : gentle.
Lemma gentle_auth_withpeer_fail : gentle False (auth_withpeer_fail cfg).
Proof. unfold auth_withpeer_fail. gentle. Qed.
#[local] Hint Resolve gentle_auth_peer_fail gentle_auth_withpeer_fail gentle_check_passwd gentle_get_secret : gentle.

(** PAP *)

Lemma gentle_upap_sauthreq : gentle False upap_sauthreq.
Proof. unfold upap_sauthreq, on_upap. gentle. Qed.
Lemma gentle_upap_sresp ack id msg : gentle False (upap_sresp ack id msg).
Proof. unfold upap_sresp. gentle. Qed.
Lemma gentle_upap_listen : gentle False upap_listen.
Proof. unfold upap_listen, on_upap. gentle. Qed.
#[local] Hint Resolve gentle_upap_sauthreq gentle_upap_sresp gentle_upap_listen : gentle.
Lemma gentle_upap_authwithpeer : gentle False (upap_authwithpeer cfg).
Proof. unfold upap_authwithpeer, on_upap. gentle. Qed.
Lemma gentle_upap_authpeer : gentle False upap_authpeer.
Proof. unfold upap_authpeer, on_upap. gentle. Qed.
Lemma gentle_upap_on_timeout : gentle False (upap_on_timeout cfg).
Proof. unfold upap_on_timeout, on_upap. gentle. Qed.
Lemma gentle_upap_on_reqtimeout : gentle False (upap_on_reqtimeout cfg).
Proof. unfold upap_on_reqtimeout, on_upap. gentle. Qed.
Lemma gentle_upap_lowerup : gentle False upap_lowerup.
Proof. unfold upap_lowerup, on_upap. gentle. Qed.
Lemma gentle_upap_protrej : gentle False (upap_protrej cfg).
Proof. unfold upap_protrej. gentle. Qed.
Lemma gentle_upap_rauthnak b len : gentle False (upap_rauthnak cfg b len).
Proof. unfold upap_rauthnak, on_upap. gentle. Qed.

(** CHAP *)

Lemma gentle_rand : gentle False (rand cfg).
Proof. unfold rand. gentle. Qed.
#[local] Hint Resolve gentle_rand : gentle.
Lemma gentle_random_bytes n : gentle False (random_bytes cfg n).
Proof. induction n as [|n IH]; cbn [random_bytes]; gentle. Qed.
Lemma gentle_ChapSendChallenge : gentle False ChapSendChallenge.
Proof. unfold ChapSendChallenge, chap_output, on_chap. gentle. Qed.
Lemma gentle_ChapSendResponse : gentle False ChapSendResponse.
Proof. unfold ChapSendResponse, chap_output, on_chap. gentle. Qed.
Lemma gentle_ChapSendStatus ok : gentle False (ChapSendStatus cfg ok).
Proof. unfold ChapSendStatus, chap_output. gentle. Qed.
#[local] Hint Resolve gentle_random_bytes gentle_ChapSendChallenge gentle_ChapSendResponse gentle_ChapSendStatus : gentle.
Lemma gentle_chap_on_challenge_timeout : gentle False (chap_on_challenge_timeout cfg).
Proof. unfold chap_on_challenge_timeout, on_chap. gentle. Qed.
Lemma gentle_chap_on_response_timeout : gentle False chap_on_response_timeout.
Proof. unfold chap_on_response_timeout. gentle. Qed.
Lemma gentle_ChapAuthWithPeer name d : gentle False (ChapAuthWithPeer name d).
Proof. unfold ChapAuthWithPeer, on_chap. gentle. Qed.
Lemma gentle_ChapProtocolReject : gentle False (ChapProtocolReject cfg).
Proof. unfold ChapProtocolReject. gentle. Qed.
Lemma gentle_make_response b n secret : gentle False (make_response cfg b n secret).
Proof. unfold make_response, on_chap. gentle. Qed.
Lemma gentle_check_response b n name secret : gentle False (check_response cfg b n name secret).
Proof. unfold check_response, on_chap. gentle. Qed.
Lemma gentle_check_authenticator b len ea : gentle False (check_authenticator cfg b len ea).
Proof. unfold check_authenticator. gentle. Qed.
#[local] Hint Resolve gentle_make_response gentle_check_authenticator : gentle.
Lemma gentle_ChapReceiveChallenge b id len : gentle False (ChapReceiveChallenge cfg b id len).
Proof. unfold ChapReceiveChallenge, on_chap. gentle. Qed.
Lemma gentle_ChapReceiveFailure : gentle False (ChapReceiveFailure cfg).
Proof. unfold ChapReceiveFailure. gentle. Qed.

(** ** Completing a proof *)

Lemma emit_start N P s : N → (∀ k, k ∈ peer_bits → Z.testbit (auth_pending s) k = true → P k) → keeps N P (emit StartNetworks) s.
Proof.
  intros HN HP. unfold keeps, after, emit. constructor; try done; [by left|by left].
Qed.

Lemma network_phase_keeps N P s : N → (∀ k, k ∈ peer_bits → Z.testbit (auth_pending s) k = true → P k) → keeps N P (network_phase cfg) s.
Proof.
  intros HN HP. unfold network_phase. apply keeps_bind; [apply gentle_state|]. intros a s' l [= <- <- <-].
  assert (Hg : gentle N (when (neg_chap (gotoptions s) || neg_upap (gotoptions s) || neg_eap (gotoptions s))
        (_ ← set (set_auth_state true);
         when (negb (auth_script_state s) && negb (auth_script_pid s)) (_ ← set (set_auth_script_state true); auth_script cfg true)))).
  { apply gentle_weaken. gentle. }
  pose proof (Hg s P) as H1. apply keeps_bind; [done|]. intros a1 s1 l1 E1. unfold keeps in H1. rewrite after_ok in H1. specialize (H1 _ _ _ E1).
  assert (H2 : gentle N (emit (NewPhase PHASE_NETWORK))) by (apply gentle_emit; discriminate).
  apply keeps_bind; [apply H2|]. intros a2 s2 l2 [= <- <- <-]. apply emit_start; [done|]. intros k Hk Hb. apply HP; [done|]. by apply H1.
Qed.

Lemma auth_complete_keeps (N : Prop) (P : Z → Prop) bit s : N → (∀ k, k ∈ peer_bits → Z.testbit bit k = true → P k) → keeps N P (auth_complete cfg bit) s.
Proof.
  intros HN HP. unfold auth_complete. apply keeps_bind; [apply gentle_set; untouched|]. intros _ s1 l1 [= <- <-].
  set (s1 := set_auth_done _ s).
  assert (Hset : keeps N P (set (λ s, set_auth_pending (Z.ldiff (auth_pending s) bit) s)) s1).
  { unfold keeps, after, set. constructor; try done; cbn; [| |by intros ?%elem_of_nil|by left].
    - intros k Hk Hp. rewrite Z.ldiff_spec, Hp. destruct (Z.testbit bit k) eqn:Eb; [right; by apply HP|by left].
    - intros k Hk. rewrite Z.ldiff_spec. by intros [? _]%andb_true_iff. }
  apply keeps_bind; [done|]. intros _ s2 l2 [= <- <-]. set (s2 := set_auth_pending _ s1).
  apply keeps_bind; [apply gentle_state|]. intros a s3 l3 [= <- <- <-].
  destruct (Z.eqb_spec (auth_pending s2) 0) as [E|_]; cbn [when]; [|apply gentle_ret].
  apply network_phase_keeps; [done|]. intros k Hk. by rewrite E, Z.bits_0.
Qed.

Lemma auth_withpeer_success_gentle protocol flavor : gentle True (auth_withpeer_success cfg protocol flavor).
Proof.
  assert (Hc : ∀ bit, (∀ k, k ∈ peer_bits → Z.testbit bit k = true → False) → gentle True (auth_complete cfg bit)).
  { intros bit Hb s P. apply auth_complete_keeps; [done|]. intros k Hk Ht. by destruct (Hb k Hk). }
  assert (Hbits : ∀ bit, forallb (λ k, negb (Z.testbit bit k)) peer_bits = true → ∀ k, k ∈ peer_bits → Z.testbit bit k = true → False).
  { intros bit Hb k Hk Ht. rewrite forallb_forall in Hb. specialize (Hb k (proj1 (list_elem_of_In _ _) Hk)). by rewrite Ht in Hb. }
  unfold auth_withpeer_success, chap_bit. repeat case_match; try (apply Hc, Hbits; done).
  apply gentle_bind; [apply gentle_weaken, gentle_clear_passwd|]. intros _. by apply Hc, Hbits.
Qed.

(** The bit of a protocol. *)
Definition peer_bit (protocol : Z) : Z := if protocol =? PPP_CHAP then 3 else if protocol =? PPP_PAP then 1 else 5.

Lemma auth_peer_success_keeps protocol flavor name n s :
  keeps True (λ k, k = peer_bit protocol) (auth_peer_success cfg protocol flavor name n) s.
Proof.
  assert (Hc : ∀ bit s, (∀ k, k ∈ peer_bits → Z.testbit bit k = true → k = peer_bit protocol) → keeps True (λ k, k = peer_bit protocol)
    (_ ← set (set_peer_authname (c_str (take (Nat.min n (MAXNAMELEN - 1)) name))); auth_complete cfg bit) s).
  { intros bit s0 Hb. apply keeps_bind; [apply gentle_set; untouched|]. intros _ s1 l1 _. by apply auth_complete_keeps. }
  assert (Hbits : ∀ bit j, forallb (λ k, negb (Z.testbit bit k) || (k =? j)) peer_bits = true → ∀ k, k ∈ peer_bits → Z.testbit bit k = true → k = j).
  { intros bit j Hb k Hk Ht. rewrite forallb_forall in Hb. specialize (Hb k (proj1 (list_elem_of_In _ _) Hk)). rewrite Ht in Hb. by apply Z.eqb_eq. }
  unfold auth_peer_success, chap_bit, peer_bit in *. destruct (protocol =? PPP_CHAP).
  { apply Hc, Hbits. by repeat case_match. }
  destruct (protocol =? PPP_PAP); [by apply Hc, Hbits|]. destruct (protocol =? PPP_EAP); [by apply Hc, Hbits|]. apply gentle_ret.
Qed.

(** ** Challenges *)

Lemma random_bytes_after n : ∀ s a s' l, random_bytes cfg n s = Ok (a, s', l) →
  l = [] ∧ chap s' = chap s ∧ auth_pending s' = auth_pending s ∧ lcp_opened s' = lcp_opened s ∧ length a = n.
Proof.
  induction n as [|n IH]; intros s a s' l; [by intros [= <- <- <-]|]. cbn [random_bytes].
  intros (r & s1 & l1 & l2 & E1 & (t & s2 & l3 & l4 & E3 & [= <- <- <-] & ->)%bind_task_Ok & ->)%bind_task_Ok.
  destruct (IH _ _ _ _ E3) as (-> & -> & -> & -> & Hl). injection E1 as <- <- <-. split; [done|]. do 3 (split; [done|]). cbn. by rewrite Hl.
Qed.

Lemma ChapGenChallenge_after s a s' l : ChapGenChallenge cfg s = Ok (a, s', l) →
  l = [] ∧ chal_type (chap s') = chal_type (chap s) ∧ chal_name (chap s') = chal_name (chap s) ∧
  auth_pending s' = auth_pending s ∧ lcp_opened s' = lcp_opened s.
Proof.
  unfold ChapGenChallenge, on_chap. intros (s0 & s1 & l1 & l2 & [= <- <- <-] & (n & s2 & l3 & l4 & E & (u & s3 & l5 & l6 & [= <- <- <-] & (r & s4 & l7 & l8 & Er & [= <- <- <-] & ->)%bind_task_Ok & ->)%bind_task_Ok & ->)%bind_task_Ok & ->)%bind_task_Ok.
  destruct (random_bytes_after _ _ _ _ _ Er) as (-> & Hc & Hp & Ho & _). cbn. rewrite Hc, Hp, Ho. cbn.
  assert (Hs : s2 = s ∨ s2 = set_randoms (S (randoms s)) s) by (repeat case_match; [injection E as <- <- <-; by right|injection E as <- <- <-; by left..|done]).
  assert (Hl : l3 = []) by (repeat case_match; [injection E as <- <- <-; done|injection E as <- <- <-; done..|done]).
  rewrite Hl. by destruct Hs as [->| ->].
Qed.

Lemma new_challenge_after next s a s' l : new_challenge cfg next s = Ok (a, s', l) →
  chal_type (chap s') = chal_type (chap s) ∧ chal_name (chap s') = chal_name (chap s) ∧ auth_pending s' = auth_pending s ∧
  lcp_opened s' = lcp_opened s ∧ l = [Output (challenge_packet (chap s'))].
Proof.
  unfold new_challenge. intros (u & s1 & l1 & l2 & E1 & (v & s2 & l3 & l4 & E2 & [= <- <- <-] & ->)%bind_task_Ok & ->)%bind_task_Ok.
  destruct (ChapGenChallenge_after _ _ _ _ E1) as (-> & <- & <- & <- & <-). apply bind_task_Ok in E2 as (s0 & s3 & l5 & l6 & [= <- <- <-] & E & ->). apply bind_task_Ok in E as (name & s4 & l7 & l8 & (En & -> & ->)%of_res_Ok & [= <- <- <-] & ->).
  apply deref_Ok in En. cbn. unfold challenge_packet. cbn. by rewrite En.
Qed.

Lemma new_challenge_gentle next : gentle False (new_challenge cfg next).
Proof.
  intros s P. unfold keeps. apply after_ok. intros a s' l E. destruct (new_challenge_after _ _ _ _ _ E) as (T & Nm & B & O & ->).
  constructor; [done|done| | | | |].
  - intros k _. rewrite B. by left.
  - intros k _. by rewrite B.
  - by intros ?%list_elem_of_singleton.
  - by rewrite O.
  - intros _. right. by apply list_elem_of_singleton.
Qed.
#[local] Hint Resolve new_challenge_gentle auth_withpeer_success_gentle : gentle.

Lemma gentle_ChapLowerUp : gentle False (ChapLowerUp cfg).
Proof. unfold ChapLowerUp, on_chap. gentle. Qed.
Lemma gentle_chap_on_rechallenge : gentle False (chap_on_rechallenge cfg).
Proof. unfold chap_on_rechallenge. gentle. Qed.
Lemma gentle_handler t : gentle False (handler cfg t).
Proof.
  destruct t; [apply gentle_upap_on_timeout|apply gentle_upap_on_reqtimeout|apply gentle_chap_on_challenge_timeout|apply gentle_chap_on_response_timeout|apply gentle_chap_on_rechallenge].
Qed.
Lemma gentle_upap_rauthack b len : gentle True (upap_rauthack cfg b len).
Proof. unfold upap_rauthack, on_upap. gentle. Qed.
Lemma gentle_ChapReceiveSuccess b len : gentle True (ChapReceiveSuccess cfg b len).
Proof.
  unfold ChapReceiveSuccess, on_chap. gentle. 1: apply gentle_weaken; eauto with gentle.
Qed.

(** ** The proofs of the peer *)

Definition login_ok (name pass : bytes) : Prop :=
  ∃ pw, getpwnam cfg name = Some pw ∧ (2 ≤ length pw)%nat ∧ crypt cfg pass pw = pw.

(** The rule of [check_passwd] for the secret of the line. *)
Definition password_fits (name pass secret : bytes) : Prop :=
  (uselogin cfg = true ∨ secret = chars "@login" → login_ok name pass) ∧
  (secret ≠ [] → secret ≠ chars "@login" → (cryptpap cfg = false ∧ pass = secret) ∨ crypt cfg pass secret = secret).

(** The line of a file of secrets for a client and a server. *)
Definition secret_line (path : bytes) (client server : option bytes) (e : found) : Prop :=
  ∃ f, files cfg path = Some f ∧ is_best (entry (files cfg) client server true false []) (lines f) e.

(** The request with user and password in the packet [b] is one to be accepted. *)
Definition pap_accepts (s : auth) (b : bytes) (len : Z) : Prop :=
  us_serverstate (upap s) = UPAPSS_LISTEN ∧ auth_number cfg = Ok true ∧
  ∃ ruser ruserlen rpasswd rpasswdlen name pass e,
    parse_authreq b len = Ok (Some (ruser, ruserlen, rpasswd, rpasswdlen)) ∧
    visible b ruser ruserlen = Ok name ∧ visible b rpasswd rpasswdlen = Ok pass ∧
    secret_line _PATH_UPAPFILE (Some name) (Some (our_name cfg)) e ∧ password_fits name pass (secret e).

(** The value of [n] bytes answers the challenge. *)
Definition digest_fits (s : auth) (b : bytes) (n : nat) (name secret : bytes) : Prop :=
  let c := chap s in
  if chal_type c =? CHAP_DIGEST_MD5 then
    n = MD5_SIGNATURE_SIZE ∧ read_at b 5 n = Ok (chap_md5 cfg (chal_id c) secret (challenge c))
  else if chal_type c =? CHAP_MICROSOFT then
    n = MS_CHAP_RESPONSE_LEN ∧ ∃ md, ChapMS (challenge c) secret = Ok md ∧ read_at b 29 24 = Ok (slice md 24 24)
  else if chal_type c =? CHAP_MICROSOFT_V2 then
    n = MS_CHAP_RESPONSE_LEN ∧ ∃ peer md sa r, read_at b 5 16 = Ok peer ∧
      ChapMS2 (lrand48 cfg) (randoms s) (challenge c) (Some peer) name secret = Ok (md, sa, r) ∧ read_at b 29 24 = Ok (slice md 24 24)
  else False.

Definition chap_accepts (s : auth) (b : bytes) (id len : Z) : Prop :=
  serverstate (chap s) = CHAPSS_INITIAL_CHAL ∧ id = chal_id (chap s) ∧
  ∃ n namelen rhostname e,
    parse_value b len = Ok (Some (n, namelen)) ∧ visible b (5 + n) (Z.to_nat namelen) = Ok rhostname ∧
    let name := if explicit_remote cfg then remote_name cfg else rhostname in
    secret_line _PATH_CHAPFILE (Some name) (chal_name (chap s)) e ∧ digest_fits s b n name (take MAXSECRETLEN (secret e)).

Lemma scan_line f client server junk s flag sec addrs opts s' l :
  of_res (scan_authfile (files cfg) f client server true false junk) s = Ok (flag, sec, addrs, opts, s', l) →
  s' = s ∧ l = [] ∧ (0 ≤ flag → ∃ e, is_best (entry (files cfg) client server true false []) (lines f) e ∧ sec = secret e).
Proof.
  intros (E & -> & ->)%of_res_Ok. split; [done|]. split; [done|]. intros Hf.
  destruct (scan_authfile_spec (files cfg) f client server true false junk) as (flag' & sec' & addrs' & opts' & E' & Hs).
  rewrite E in E'. injection E' as <- <- <- <-. unfold scan_spec in Hs. cbv zeta in Hs. rewrite (proj2 (Z.ltb_ge _ _) Hf) in Hs.
  destruct Hs as (e & He & _ & -> & _). by exists e.
Qed.

Lemma plogin_accepts name pass s s' l : plogin cfg name pass s = Ok (true, s', l) → login_ok name pass.
Proof.
  unfold plogin. destruct (getpwnam cfg name) as [pw|] eqn:E; [|done]. destruct (Nat.ltb_spec (length pw) 2); [done|]. cbn [orb].
  destruct (bool_decide_reflect (crypt cfg pass pw = pw)) as [Hc|]; [|done]. intros _. by exists pw.
Qed.

Lemma line_accepts_fits name pass secret s s' l : line_accepts cfg name pass secret s = Ok (true, s', l) → password_fits name pass secret.
Proof.
  unfold line_accepts. intros (ok & s1 & l1 & l2 & E1 & E2 & ->)%bind_task_Ok. unfold password_fits.
  destruct (bool_decide_reflect (secret = chars "@login")) as [->|Hnl].
  - split; [|done]. intros _. rewrite orb_true_r in E1. apply bind_task_Ok in E1 as (r & s2 & l3 & l4 & Ep & (u & s3 & l5 & l6 & _ & [= -> _ _] & ->)%bind_task_Ok & ->).
    cbn [negb andb] in E2. rewrite andb_false_r in E2. cbn [andb] in E2. injection E2 as -> _ _. by eapply plogin_accepts.
  - rewrite orb_false_r in E1. split.
    + intros [Hu|?]; [|done]. rewrite Hu in E1. apply bind_task_Ok in E1 as (r & s2 & l3 & l4 & Ep & (u & s3 & l5 & l6 & _ & [= -> _ _] & ->)%bind_task_Ok & ->).
      case_match; [done|]. injection E2 as -> _ _. by eapply plogin_accepts.
    + intros Hne _. rewrite (bool_decide_eq_false_2 _ Hne) in E2. cbn [negb andb] in E2.
      destruct (bool_decide_reflect (crypt cfg pass secret = secret)) as [Hc|Hc]; [by right|]. cbn [negb] in E2. rewrite andb_true_r in E2.
      destruct (bool_decide_reflect (pass = secret)) as [->|Hp]; [|by rewrite orb_true_r in E2]. rewrite orb_false_r in E2.
      destruct (cryptpap cfg); [done|]. by left.
Qed.

Lemma check_passwd_accepts b ru rul rp rpl junk s msg s' l : check_passwd cfg b ru rul rp rpl junk s = Ok ((true, msg), s', l) →
  ∃ name pass e, visible b ru rul = Ok name ∧ visible b rp rpl = Ok pass ∧ secret_line _PATH_UPAPFILE (Some name) (Some (our_name cfg)) e ∧ password_fits name pass (secret e).
Proof.
  unfold check_passwd. intros (pass & s1 & l1 & l2 & (Ep & -> & ->)%of_res_Ok & (name & s2 & l3 & l4 & (En & -> & ->)%of_res_Ok & (p & s3 & l5 & l6 & E & E3 & ->)%bind_task_Ok & ->)%bind_task_Ok & ->)%bind_task_Ok.
  destruct p as [[ok addrs] opts]. destruct ok.
  2:{ apply bind_task_Ok in E3 as (? & ? & ? & ? & _ & (? & ? & ? & ? & _ & (? & ? & ? & ? & _ & ? & _)%bind_task_Ok & _)%bind_task_Ok & _). done. }
  clear E3. destruct (files cfg _PATH_UPAPFILE) as [f|] eqn:Ef; [|done].
  apply bind_task_Ok in E as ([[[flag sec] addrs'] opts'] & s4 & l7 & l8 & (-> & -> & Hline)%scan_line & E & ->).
  destruct (Z.ltb_spec flag 0) as [|Hf]; [done|]. destruct (Hline Hf) as (e & He & ->).
  apply bind_task_Ok in E as (ok & s5 & l9 & l10 & Ea & [= -> _ _ _ _] & ->).
  exists name, pass, e. split; [done|]. split; [done|]. split; [by exists f|]. by eapply line_accepts_fits.
Qed.

Lemma upap_rauthreq_keeps b id len junk s : keeps True (λ k, k = 1 ∧ pap_accepts s b len) (upap_rauthreq cfg b id len junk) s.
Proof.
  unfold upap_rauthreq. apply keeps_bind; [apply gentle_state|]. intros a s1 l1 [= <- <- <-].
  destruct (us_serverstate (upap s)) eqn:Es; [apply gentle_weaken; gentle..| |apply gentle_weaken; gentle|apply gentle_weaken; gentle].
  apply keeps_bind; [apply gentle_of_res|]. intros p s1 l1 (Ep & -> & ->)%of_res_Ok. destruct p as [[[[ru rul] rp] rpl]|]; [|apply gentle_ret].
  apply keeps_bind; [apply gentle_weaken; gentle|]. intros [ok msg] s2 l2 Ec. cbv zeta.
  destruct ok; [|apply keeps_bind; [apply gentle_ret|]; intros ok s3 l3 [= <- <- <-]; apply gentle_weaken; unfold on_upap; gentle].
  apply keeps_bind; [apply gentle_of_res|]. intros ok s3 l3 (En & -> & ->)%of_res_Ok. destruct ok; [|apply gentle_weaken; unfold on_upap; gentle].
  apply keeps_bind; [apply gentle_weaken; gentle|]. intros u1 s4 l4 _. apply keeps_bind; [apply gentle_of_res|]. intros u2 s5 l5 _.
  assert (Ha : pap_accepts s b len).
  { split; [done|]. split; [done|]. apply check_passwd_accepts in Ec as (name & pass & e & H1 & H2 & H3 & H4). by exists ru, rul, rp, rpl, name, pass, e. }
  apply keeps_bind; [|intros u3 s6 l6 _; apply gentle_weaken; gentle].
  apply keeps_bind; [apply gentle_weaken; unfold on_upap; gentle|]. intros u4 s7 l7 _.
  unfold keeps. eapply after_ok. intros u5 s8 l8 E. pose proof (auth_peer_success_keeps PPP_PAP 0 (slice (splice b rp (replicate rpl 0)) ru rul) rul s7) as Hk.
  unfold keeps in Hk. rewrite after_ok in Hk. specialize (Hk _ _ _ E). eapply moves_mono, Hk; [done|]. intros k ->. done.
Qed.

(** ** CHAP *)

Lemma check_response_fits b n name secret s s' l : check_response cfg b n name secret s = Ok (true, s', l) → digest_fits s b n name secret.
Proof.
  unfold check_response, digest_fits. intros (s0 & s1 & l1 & l2 & [= <- <- <-] & E & ->)%bind_task_Ok.
  destruct (chal_type (chap s) =? CHAP_DIGEST_MD5).
  { destruct (bool_decide_reflect (n = MD5_SIGNATURE_SIZE)) as [->|]; [|done]. apply bind_task_Ok in E as (r & s2 & l3 & l4 & (Er & -> & ->)%of_res_Ok & E & ->).
    injection E as E _ _. apply bool_decide_eq_true in E. by rewrite E. }
  destruct (chal_type (chap s) =? CHAP_MICROSOFT).
  { destruct (bool_decide_reflect (n = MS_CHAP_RESPONSE_LEN)) as [->|]; [|done]. apply bind_task_Ok in E as (r & s2 & l3 & l4 & (Er & -> & ->)%of_res_Ok & E & ->).
    destruct (r =? 0); [done|]. apply bind_task_Ok in E as (md & s2 & l5 & l6 & (Em & -> & ->)%of_res_Ok & E & ->).
    apply bind_task_Ok in E as (u & s2 & l7 & l8 & _ & E & ->). apply bind_task_Ok in E as (nt & s3 & l9 & l10 & (En & -> & ->)%of_res_Ok & E & ->).
    injection E as E _ _. apply bool_decide_eq_true in E. split; [done|]. exists md. by rewrite E. }
  destruct (chal_type (chap s) =? CHAP_MICROSOFT_V2); [|done].
  destruct (bool_decide_reflect (n = MS_CHAP_RESPONSE_LEN)) as [->|]; [|done]. apply bind_task_Ok in E as (peer & s2 & l3 & l4 & (Er & -> & ->)%of_res_Ok & E & ->).
  apply bind_task_Ok in E as ([[md sa] r] & s2 & l5 & l6 & (Em & -> & ->)%of_res_Ok & E & ->).
  apply bind_task_Ok in E as (u & s2 & l7 & l8 & _ & E & ->). apply bind_task_Ok in E as (u2 & s3 & l9 & l10 & _ & E & ->).
  apply bind_task_Ok in E as (nt & s4 & l11 & l12 & (En & -> & ->)%of_res_Ok & E & ->).
  injection E as E _ _. apply bool_decide_eq_true in E. split; [done|]. exists peer, md, sa, r. by rewrite E.
Qed.

Lemma get_secret_line client server s o s' l : get_secret cfg client server true s = Ok (o, s', l) →
  s' = s ∧ ∀ secret, o = Some secret → ∃ e, secret_line _PATH_CHAPFILE client server e ∧ secret = take MAXSECRETLEN (AuthFile.secret e).
Proof.
  unfold get_secret. intros (s0 & s1 & l1 & l2 & [= <- <- <-] & E & ->)%bind_task_Ok. cbn [negb andb] in E.
  destruct (files cfg _PATH_CHAPFILE) as [f|] eqn:Ef; [|by injection E as <- <- <-].
  apply bind_task_Ok in E as ([[[flag sec] addrs] opts] & s2 & l3 & l4 & (-> & -> & Hline)%scan_line & E & ->).
  destruct (Z.ltb_spec flag 0) as [|Hf]; [by injection E as <- <- <-|].
  apply bind_task_Ok in E as (u & s3 & l5 & l6 & [= <- <- <-] & [= <- <- <-] & ->). split; [done|]. intros secret [= <-].
  destruct (Hline Hf) as (e & He & ->). exists e. split; [by exists f|done].
Qed.

(** The digest depends on the challenge and the random numbers only. *)
Lemma digest_fits_ext s s1 b n name secret : digest_fits s1 b n name secret →
  chal_type (chap s1) = chal_type (chap s) → chal_id (chap s1) = chal_id (chap s) → challenge (chap s1) = challenge (chap s) → randoms s1 = randoms s →
  digest_fits s b n name secret.
Proof. unfold digest_fits. intros Hd E1 E2 E3 Hr. by rewrite E1, E2, E3, Hr in Hd. Qed.

Lemma ChapReceiveResponse_keeps b id len s :
  keeps True (λ k, k = 3 ∧ chap_accepts s b id len) (ChapReceiveResponse cfg b id len) s.
Proof.
  unfold ChapReceiveResponse. apply keeps_bind; [apply gentle_state|]. intros a s1 l1 [= <- <- <-]. cbv zeta.
  assert (Hmain : ∀ old_state, serverstate (chap s) = old_state →
    keeps True (λ k, k = 3 ∧ chap_accepts s b id len)
      (if negb (id =? chal_id (chap s)) then mret ()
       else if bool_decide (old_state = CHAPSS_OPEN) then ChapSendStatus cfg true
       else if bool_decide (old_state = CHAPSS_BADAUTH) then ChapSendStatus cfg false
       else
        p ← of_res (parse_value b len);
        match p with
        | None => mret ()
        | Some (remmd_len, namelen) =>
            _ ← UNTIMEOUT ChapChallengeTimeout;
            rhostname ← of_res (visible b (5 + remmd_len) (Z.to_nat namelen));
            _ ← when (chal_type (chap s) =? CHAP_MICROSOFT_V2) (flags ← of_res (byte_at b (5 + 48)); on_chap (set_resp_flags flags));
            let name := if explicit_remote cfg then remote_name cfg else rhostname in
            secret ← get_secret cfg (Some name) (chal_name (chap s)) true;
            ok ← match secret with None => mret false | Some secret => check_response cfg b remmd_len name secret end;
            _ ← ChapSendStatus cfg ok;
            if ok : bool then
              _ ← on_chap (set_serverstate CHAPSS_OPEN);
              _ ← when (bool_decide (old_state = CHAPSS_INITIAL_CHAL)) (auth_peer_success cfg PPP_CHAP (chal_type (chap s)) rhostname (Z.to_nat namelen));
              when (negb (chal_interval (chap s) =? 0)) (TIMEOUT ChapRechallenge (chal_interval (chap s)))
            else
              _ ← on_chap (set_serverstate CHAPSS_BADAUTH);
              auth_peer_fail cfg
        end) s).
  { intros old Hold. destruct (Z.eqb_spec id (chal_id (chap s))) as [Hid|]; cbn [negb]; [|apply gentle_ret].
    case_bool_decide; [apply gentle_weaken; gentle|]. case_bool_decide; [apply gentle_weaken; gentle|].
    apply keeps_bind; [apply gentle_of_res|]. intros p s1 l1 (Ep & -> & ->)%of_res_Ok. destruct p as [[n namelen]|]; [|apply gentle_ret].
    apply keeps_bind; [apply gentle_weaken; gentle|]. intros u1 s1 l1 [= _ <- _].
    apply keeps_bind; [apply gentle_of_res|]. intros rhostname s2 l2 (Ev & -> & ->)%of_res_Ok.
    apply keeps_bind; [apply gentle_weaken; unfold on_chap; gentle|]. intros u2 s3 l3 Ew. cbv zeta.
    set (s1 := set_timers _ s) in *. set (name := if explicit_remote cfg then _ else _).
    assert (Hs3 : chal_type (chap s3) = chal_type (chap s) ∧ chal_id (chap s3) = chal_id (chap s) ∧ challenge (chap s3) = challenge (chap s) ∧ randoms s3 = randoms s).
    { destruct (chal_type (chap s) =? CHAP_MICROSOFT_V2); [|by injection Ew as _ <- _].
      apply bind_task_Ok in Ew as (x & s4 & l4 & l5 & (_ & -> & _)%of_res_Ok & [= _ <- _] & _). done. }
    apply keeps_bind; [apply gentle_weaken; gentle|]. intros o s4 l4 (-> & Hline)%get_secret_line.
    apply keeps_bind; [apply gentle_weaken; destruct o; [apply gentle_check_response|apply gentle_ret]|]. intros ok s5 l5 Ec.
    apply keeps_bind; [apply gentle_weaken; gentle|]. intros u3 s6 l6 _. destruct ok; [|apply gentle_weaken; unfold on_chap; gentle].
    apply keeps_bind; [apply gentle_weaken; unfold on_chap; gentle|]. intros u4 s7 l7 _.
    apply keeps_bind; [|intros u5 s8 l8 _; apply gentle_weaken; gentle].
    case_bool_decide as Hi; cbn [when]; [|apply gentle_ret].
    assert (Ha : chap_accepts s b id len).
    { split; [congruence|]. split; [done|]. destruct o as [secret|]; [|done]. destruct (Hline secret eq_refl) as (e & He & ->).
      exists n, namelen, rhostname, e. split; [done|]. split; [done|]. cbv zeta. split; [done|].
      destruct Hs3 as (? & ? & ? & ?). apply check_response_fits in Ec. by eapply digest_fits_ext. }
    unfold keeps. eapply after_ok. intros u6 s9 l9 E. pose proof (auth_peer_success_keeps PPP_CHAP (chal_type (chap s)) rhostname (Z.to_nat namelen) s7) as Hk.
    unfold keeps in Hk. rewrite after_ok in Hk. specialize (Hk _ _ _ E). eapply moves_mono, Hk; [done|]. intros k ->. done. }
  destruct (serverstate (chap s)) eqn:Es; try apply gentle_ret; by apply Hmain.
Qed.

(** ** One input *)

Record moment := mk_moment { before : auth; what : input; deeds : list deed }.

Definition pap_proof (s : auth) (i : input) : Prop :=
  ∃ b l junk id len, i = PapPacket b l junk ∧ packet_header b l = Ok (Some (UPAP_AUTHREQ, id, len)) ∧ pap_accepts s b len.
Definition chap_proof (s : auth) (i : input) : Prop :=
  ∃ b l id len, i = ChapPacket b l ∧ packet_header b l = Ok (Some (CHAP_RESPONSE, id, len)) ∧ chap_accepts s b id len.
Definition eap_proof (i : input) : Prop := ∃ name, i = EapPeerResult true name.

Definition proof_of (s : auth) (i : input) (k : Z) : Prop :=
  (k = 1 ∧ pap_proof s i) ∨ (k = 3 ∧ chap_proof s i) ∨ (k = 5 ∧ eap_proof i).

Lemma keeps_mono (N N' : Prop) (P P' : Z → Prop) {A} (m : task A) s : (N → N') → (∀ k, P k → P' k) → keeps N P m s → keeps N' P' m s.
Proof. unfold keeps. rewrite !after_ok. intros HN HP Hk a s' l E. by eapply moves_mono, Hk. Qed.

Lemma gentle_keeps (N : Prop) P {A} (m : task A) s : gentle True m → N → keeps N P m s.
Proof. intros Hg HN. by eapply keeps_mono, Hg. Qed.

Lemma packet_input_keeps b l s i : lcp_opened s = true →
  (∀ junk, i = PapPacket b l junk → keeps (lcp_opened s = true) (proof_of s i) (upap_input cfg b l junk) s) ∧
  (i = ChapPacket b l → keeps (lcp_opened s = true) (proof_of s i) (ChapInput cfg b l) s).
Proof.
  intros Ho. split.
  - intros junk Ei. unfold upap_input. apply keeps_bind; [apply gentle_of_res|]. intros h s1 l1 (Eh & -> & ->)%of_res_Ok.
    destruct h as [[[code id] len]|]; [|apply gentle_ret]. destruct (Z.eqb_spec code UPAP_AUTHREQ) as [->|].
    { eapply keeps_mono, upap_rauthreq_keeps; [done|]. intros k [-> Ha]. left. split; [done|]. by exists b, l, junk, id, len. }
    destruct (code =? UPAP_AUTHACK); [by apply gentle_keeps; [apply gentle_upap_rauthack|]|].
    destruct (code =? UPAP_AUTHNAK); [apply gentle_weaken, gentle_upap_rauthnak|apply gentle_ret].
  - intros Ei. unfold ChapInput. apply keeps_bind; [apply gentle_of_res|]. intros h s1 l1 (Eh & -> & ->)%of_res_Ok.
    destruct h as [[[code id] len]|]; [|apply gentle_ret]. destruct (code =? CHAP_CHALLENGE); [apply gentle_weaken, gentle_ChapReceiveChallenge|].
    destruct (Z.eqb_spec code CHAP_RESPONSE) as [->|].
    { eapply keeps_mono, ChapReceiveResponse_keeps; [done|]. intros k [-> Ha]. right; left. split; [done|]. by exists b, l, id, len. }
    destruct (code =? CHAP_FAILURE); [apply gentle_weaken, gentle_ChapReceiveFailure|].
    destruct (code =? CHAP_SUCCESS); [by apply gentle_keeps; [apply gentle_ChapReceiveSuccess|]|apply gentle_ret].
Qed.

Definition comes_up (s : auth) (i : input) : bool := match i with LinkUp _ _ _ => negb (lcp_opened s) | _ => false end.

Lemma auth_step_keeps i s : comes_up s i = false → keeps (lcp_opened s = true) (proof_of s i) (auth_step cfg i) s.
Proof.
  intros Hu. unfold auth_step. apply keeps_bind; [apply gentle_state|]. intros a s1 l1 [= <- <- <-].
  assert (Hopen : ∀ m, (lcp_opened s = true → keeps (lcp_opened s = true) (proof_of s i) m s) → keeps (lcp_opened s = true) (proof_of s i) (when (lcp_opened s) m) s).
  { intros m Hm. destruct (lcp_opened s); [by apply Hm|apply gentle_ret]. }
  destruct i; cbn [comes_up] in Hu.
  - rewrite Hu. apply gentle_ret.
  - apply Hopen. intros Ho. apply gentle_weaken. gentle.
  - apply Hopen. intros Ho. by apply packet_input_keeps.
  - apply Hopen. intros Ho. by apply packet_input_keeps.
  - apply Hopen. intros Ho. apply gentle_weaken, gentle_upap_protrej.
  - apply Hopen. intros Ho. apply gentle_weaken, gentle_ChapProtocolReject.
  - apply gentle_weaken. case_match; [|apply gentle_ret]. apply gentle_bind; [apply gentle_set; untouched|]. intros _. apply gentle_handler.
  - apply Hopen. intros Ho. destruct ok; [|apply gentle_weaken, gentle_auth_peer_fail].
    eapply keeps_mono, auth_peer_success_keeps; [done|]. intros k ->. right; right. split; [done|]. by exists name.
  - apply Hopen. intros Ho. destruct ok; [|apply gentle_weaken, gentle_auth_withpeer_fail]. by apply gentle_keeps; [apply auth_withpeer_success_gentle|].
  - apply gentle_weaken. apply gentle_when, gentle_auth_script_done.
Qed.

(** ** The link comes up *)

Lemma lcp_close_closed r s a s' l : lcp_close cfg r s = Ok (a, s', l) → lcp_opened s' = false.
Proof.
  unfold lcp_close. intros (u & s1 & l1 & l2 & [= _ <- _] & (t & s2 & l3 & l4 & [= <- <- _] & E & _)%bind_task_Ok & _)%bind_task_Ok.
  destruct (lcp_opened s) eqn:Eo; cbn [when] in E; [|by injection E as _ <- _].
  apply bind_task_Ok in E as (v & s3 & l5 & l6 & [= _ <- _] & E & _). destruct (lcp_opened s') eqn:E'; [|done].
  pose proof (gentle_link_down (set_lcp_opened false s) (λ _, True)) as Hg. unfold keeps in Hg. rewrite after_ok in Hg. by apply (moves_open _ _ _ _ _ (Hg _ _ _ E)) in E'.
Qed.

Lemma keeps_Ok N P {A} (m : task A) s a s' l : keeps N P m s → m s = Ok (a, s', l) → moves N P s s' l.
Proof. unfold keeps. rewrite after_ok. eauto. Qed.

Definition demands (go : lcp_options) : bool := neg_upap go || neg_chap go || neg_eap go.

(** The peer need not say who it is. *)
Definition excused : Prop :=
  auth_required cfg = true → ¬ (noauth_addrs cfg = []) ∨
    (want_upap cfg = true ∧ uselogin cfg = false ∧ ∃ e, secret_line _PATH_UPAPFILE (Some []) (Some (our_name cfg)) e ∧ secret e = []).

Lemma may_refuse_after go junk s ok s' l : may_refuse cfg go junk s = Ok (ok, s', l) →
  s' = s ∧ (StartNetworks ∉ l) ∧ (ok = true → demands go = false → excused).
Proof.
  unfold may_refuse, demands, excused. intros E.
  destruct (auth_required cfg); cbn [andb] in E; [|injection E as <- <- <-; split; [done|]; split; [by intros ?%elem_of_nil|done]].
  destruct (neg_upap go || neg_chap go || neg_eap go); cbn [negb] in E; [injection E as <- <- <-; split; [done|]; split; [by intros ?%elem_of_nil|done]|].
  case_bool_decide as Hn; cbn [negb] in E.
  2:{ apply bind_task_Ok in E as (u & s1 & l1 & l2 & [= <- <- <-] & [= <- <- <-] & ->). split; [done|]. split; [by intros ?%list_elem_of_singleton|]. by left. }
  destruct (want_upap cfg) eqn:Ew; cbn [negb orb] in E; [|injection E as <- <- <-; split; [done|]; split; [by intros ?%elem_of_nil|done]].
  destruct (uselogin cfg) eqn:El; [injection E as <- <- <-; split; [done|]; split; [by intros ?%elem_of_nil|done]|].
  unfold null_login in E. destruct (files cfg _PATH_UPAPFILE) as [f|] eqn:Ef; [|injection E as <- <- <-; split; [done|]; split; [by intros ?%elem_of_nil|done]].
  apply bind_task_Ok in E as ([[[flag sec] addrs] opts] & s2 & l3 & l4 & (-> & -> & Hline)%scan_line & E & ->).
  destruct (Z.leb_spec 0 flag) as [Hf|]; cbn [andb] in E; [|injection E as <- <- <-; split; [done|]; split; [by intros ?%elem_of_nil|done]].
  case_bool_decide as Hs; [|injection E as <- <- <-; split; [done|]; split; [by intros ?%elem_of_nil|done]].
  apply bind_task_Ok in E as (u & s1 & l1 & l2 & [= <- <- <-] & [= <- <- <-] & ->). split; [done|]. split; [by intros ?%list_elem_of_singleton|].
  intros _ _ _. right. split; [done|]. split; [done|]. destruct (Hline Hf) as (e & He & ->). exists e. split; [by exists f|done].
Qed.

Lemma ChapLowerUp_after s a s' l : ChapLowerUp cfg s = Ok (a, s', l) → serverstate (chap s') ≠ CHAPSS_INITIAL ∧ serverstate (chap s') ≠ CHAPSS_PENDING.
Proof.
  unfold ChapLowerUp. intros (s0 & s1 & l1 & l2 & [= <- <- <-] & (u & s2 & l3 & l4 & E1 & E2 & ->)%bind_task_Ok & ->)%bind_task_Ok.
  assert (Hs : serverstate (chap s2) = serverstate (chap s)) by (repeat case_match; injection E1 as _ <- _; done). rewrite <- Hs in E2. clear E1 Hs.
  destruct (serverstate (chap s2)) eqn:Es; try (injection E2 as _ <- _; cbn; by rewrite ?Es).
  unfold new_challenge in E2. apply bind_task_Ok in E2 as (u1 & s3 & l5 & l6 & _ & (u2 & s4 & l7 & l8 & _ & [= _ <- _] & _)%bind_task_Ok & _). done.
Qed.

Lemma ChapAuthPeer_after name d s a s' l : ChapAuthPeer cfg name d s = Ok (a, s', l) →
  serverstate (chap s) ≠ CHAPSS_INITIAL → serverstate (chap s) ≠ CHAPSS_PENDING →
  chal_type (chap s') = u8 d ∧ chal_name (chap s') = Some name ∧ l = [Output (challenge_packet (chap s'))].
Proof.
  unfold ChapAuthPeer. intros (u & s1 & l1 & l2 & [= _ <- <-] & (s0 & s2 & l3 & l4 & [= <- <- <-] & E & ->)%bind_task_Ok & ->)%bind_task_Ok Hi Hp.
  cbn in E. destruct (serverstate (chap s)); try done; by apply new_challenge_after in E as (-> & -> & _ & _ & ->).
Qed.

Lemma no_start {A} (m : task A) s a s' l : gentle False m → m s = Ok (a, s', l) → StartNetworks ∉ l.
Proof. intros Hg E Hin. by destruct (moves_start _ _ _ _ _ (keeps_Ok _ _ _ _ _ _ _ (Hg s (λ _, True)) E) Hin). Qed.

(** The bit of the proof that the options demand. *)
Definition demanded_bit (go : lcp_options) : Z := if neg_eap go then 5 else if neg_chap go then 3 else 1.

Definition asked (go : lcp_options) (s : auth) (sent : list deed) : Prop :=
  neg_eap go = false → neg_chap go = true →
  chal_type (chap s) = u8 (CHAP_DIGEST (chap_mdtype go)) ∧ chal_name (chap s) = Some (our_name cfg) ∧
  (challenging (chap s) → Output (challenge_packet (chap s)) ∈ sent).

Lemma asked_moves N P go s s' sent l : moves N P s s' l → asked go s sent → asked go s' (sent ++ l).
Proof.
  intros [T Nm _ _ _ _ C] Ha He Hc. destruct (Ha He Hc) as (Ht & Hn & Hs). split; [congruence|]. split; [congruence|]. intros Hch.
  apply elem_of_app. destruct (C Hch) as [(Hch0 & -> & _)|?]; [left; by apply Hs|by right].
Qed.

Lemma ask_peer_after go s bits s' l : ask_peer cfg go s = Ok (bits, s', l) →
  serverstate (chap s) ≠ CHAPSS_INITIAL → serverstate (chap s) ≠ CHAPSS_PENDING →
  (StartNetworks ∉ l) ∧ (demands go = true → Z.testbit bits (demanded_bit go) = true) ∧ asked go s' l.
Proof.
  unfold ask_peer, demands, demanded_bit, asked. intros E Hi Hp. destruct (neg_eap go).
  { apply bind_task_Ok in E as (u & s1 & l1 & l2 & [= _ <- <-] & [= <- <- <-] & ->). split; [by intros ?%list_elem_of_singleton|]. by split. }
  destruct (neg_chap go).
  { apply bind_task_Ok in E as (u & s1 & l1 & l2 & E & [= <- <- <-] & ->). destruct (ChapAuthPeer_after _ _ _ _ _ _ E Hi Hp) as (Ht & Hn & ->).
    split; [by intros ?%list_elem_of_singleton|]. split; [done|]. intros _ _. split; [done|]. split; [done|]. intros _. by left. }
  destruct (neg_upap go); [|injection E as <- <- <-; split; [by intros ?%elem_of_nil|by split]].
  apply bind_task_Ok in E as (u & s1 & l1 & l2 & E & [= <- <- <-] & ->). rewrite app_nil_r. split; [by eapply no_start, E; apply gentle_upap_authpeer|]. by split.
Qed.

Lemma gentle_answer_peer ho junk : gentle False (answer_peer cfg ho junk).
Proof.
  unfold answer_peer. pose proof gentle_upap_authwithpeer. pose proof (gentle_get_pap_passwd junk).
  pose proof (λ n d, gentle_ChapAuthWithPeer n d). gentle.
Qed.

Lemma link_established_after go ho junk s a s' l : link_established cfg go ho junk s = Ok (a, s', l) →
  (lcp_opened s' = false ∧ StartNetworks ∉ l) ∨
  ((demands go = false → excused) ∧ (demands go = true → Z.testbit (auth_pending s') (demanded_bit go) = true ∧ StartNetworks ∉ l) ∧ asked go s' l).
Proof.
  unfold link_established. intros (u1 & s1 & l1 & m1 & E1 & (u2 & s2 & l2 & m2 & E2 & (u3 & s3 & l3 & m3 & E3 & (u4 & s4 & l4 & m4 & E4 & (ok & s5 & l5 & m5 & E5 & E & ->)%bind_task_Ok & ->)%bind_task_Ok & ->)%bind_task_Ok & ->)%bind_task_Ok & ->)%bind_task_Ok.
  apply no_start in E1; [|apply gentle_upap_lowerup]. destruct (ChapLowerUp_after _ _ _ _ E2) as [Hi Hp]. apply no_start in E2; [|apply gentle_ChapLowerUp].
  injection E3 as _ <- <-. assert (Es4 : s4 = s2 ∧ StartNetworks ∉ l4).
  { destruct (_ && _); injection E4 as _ <- <-; (split; [done|]); [by intros ?%list_elem_of_singleton|by intros ?%elem_of_nil]. }
  destruct Es4 as [-> Hn4]. destruct (may_refuse_after _ _ _ _ _ _ E5) as (-> & Hn5 & Hex).
  assert (Hpre : ∀ m, StartNetworks ∉ m → StartNetworks ∉ l1 ++ l2 ++ [EapLowerUp] ++ l4 ++ l5 ++ m).
  { intros m Hm. rewrite !elem_of_app, list_elem_of_singleton. naive_solver. }
  destruct ok; cbn [negb] in E.
  2:{ left. apply bind_task_Ok in E as (u6 & s6 & l6 & m6 & E6 & [= _ <- <-] & ->). pose proof (lcp_close_closed _ _ _ _ _ E6) as Ho. split; [done|].
      apply Hpre. rewrite app_nil_r. by eapply no_start, E6; apply gentle_lcp_close. }
  right. apply bind_task_Ok in E as (u6 & s6 & l6 & m6 & [= _ <- <-] & (u7 & s7 & l7 & m7 & [= _ <- <-] & (peer & s8 & l8 & m8 & E8 & (us & s9 & l9 & m9 & E9 & E & ->)%bind_task_Ok & ->)%bind_task_Ok & ->)%bind_task_Ok & ->).
  destruct (ask_peer_after _ _ _ _ _ E8) as (Hn8 & Hbit & Hask); [done..|]. pose proof (keeps_Ok False (λ _, True) _ _ _ _ _ (gentle_answer_peer ho junk _ _) E9) as M9.
  apply no_start in E9; [|apply gentle_answer_peer].
  apply bind_task_Ok in E as (u10 & s10 & l10 & m10 & [= _ <- <-] & (u11 & s11 & l11 & m11 & [= _ <- <-] & E & ->)%bind_task_Ok & ->).
  pose proof (asked_moves _ _ _ _ _ _ _ M9 Hask) as Hask9. set (s11 := set_auth_done _ _) in E.
  assert (Hask11 : asked go s11 (l8 ++ l9)) by exact Hask9.
  assert (Hincl : ∀ d, d ∈ l8 ++ l9 → d ∈ l1 ++ l2 ++ [EapLowerUp] ++ l4 ++ l5 ++ [NewPhase PHASE_AUTHENTICATE] ++ [] ++ l8 ++ l9 ++ [] ++ [] ++ m11).
  { intros d. rewrite !elem_of_app. naive_solver. }
  assert (Hgrow : ∀ s0, asked go s0 (l8 ++ l9) → asked go s0 (l1 ++ l2 ++ [EapLowerUp] ++ l4 ++ l5 ++ [NewPhase PHASE_AUTHENTICATE] ++ [] ++ l8 ++ l9 ++ [] ++ [] ++ m11)).
  { intros s0 Ha He Hc. destruct (Ha He Hc) as (Ht & Hnm & Hs). split; [done|]. split; [done|]. intros Hch. by apply Hincl, Hs. }
  split; [by apply Hex|]. destruct (demands go) eqn:Ed.
  - specialize (Hbit eq_refl).
    assert (Hb : Z.testbit (Z.lor peer us) (demanded_bit go) = true) by (by rewrite Z.lor_spec, Hbit).
    destruct (Z.eqb_spec (Z.lor peer us) 0) as [E0|_]; [by rewrite E0, Z.bits_0 in Hb|]. injection E as _ <- <-.
    split; [intros _; split; [done|]|by apply Hgrow]. apply Hpre. cbn [app]. rewrite elem_of_cons, !elem_of_app, elem_of_nil. naive_solver.
  - split; [done|]. intros He Hc. unfold demands in Ed. rewrite Hc, orb_true_r in Ed. done.
Qed.

(** ** All sequences of inputs *)

(** What has happened since LCP came up with the options [go]: the moments, and the state.  Before that
    anything may have happened. *)
Inductive link_history (go : lcp_options) : list moment → auth → Prop :=
| link_begins s ho junk s' l :
    lcp_opened s = false → auth_step cfg (LinkUp go ho junk) s = Ok ((), s', l) →
    link_history go [mk_moment s (LinkUp go ho junk) l] s'
| link_goes_on h s i s' l :
    link_history go h s → comes_up s i = false → auth_step cfg i s = Ok ((), s', l) →
    link_history go (h ++ [mk_moment s i l]) s'.

Definition started (h : list moment) : Prop := ∃ m, m ∈ h ∧ StartNetworks ∈ deeds m.
Definition sent (h : list moment) (d : deed) : Prop := ∃ m, m ∈ h ∧ d ∈ deeds m.

(** The proof that the options demand has been given; with CHAP, to a challenge that was sent before. *)
Definition authenticated (go : lcp_options) (h : list moment) : Prop :=
  if neg_eap go then ∃ m, m ∈ h ∧ eap_proof (what m)
  else if neg_chap go then
    ∃ h1 m h2, h = h1 ++ m :: h2 ∧ chap_proof (before m) (what m) ∧
      chal_type (chap (before m)) = u8 (CHAP_DIGEST (chap_mdtype go)) ∧ chal_name (chap (before m)) = Some (our_name cfg) ∧
      sent h1 (Output (challenge_packet (chap (before m))))
  else if neg_upap go then ∃ m, m ∈ h ∧ pap_proof (before m) (what m)
  else excused.

Lemma authenticated_app go h h' : authenticated go h → authenticated go (h ++ h').
Proof.
  unfold authenticated. repeat case_match; [| |..].
  - intros (m & Hin & Hm). exists m. split; [apply elem_of_app; by left|done].
  - intros (h1 & m & h2 & -> & ?). exists h1, m, (h2 ++ h'). split; [by rewrite <- app_assoc|done].
  - intros (m & Hin & Hm). exists m. split; [apply elem_of_app; by left|done].
  - done.
Qed.

Lemma sent_app h h' d : sent h d → sent (h ++ h') d.
Proof. intros (m & Hin & Hm). exists m. split; [apply elem_of_app; by left|done]. Qed.

Definition asked_in (go : lcp_options) (s : auth) (h : list moment) : Prop :=
  neg_eap go = false → neg_chap go = true →
  chal_type (chap s) = u8 (CHAP_DIGEST (chap_mdtype go)) ∧ chal_name (chap s) = Some (our_name cfg) ∧
  (challenging (chap s) → sent h (Output (challenge_packet (chap s)))).

Definition link_inv (go : lcp_options) (h : list moment) (s : auth) : Prop :=
  (lcp_opened s = false ∧ ¬ started h) ∨
  ((demands go = false → excused) ∧ (demands go = true → Z.testbit (auth_pending s) (demanded_bit go) = true ∨ authenticated go h) ∧
   (started h → authenticated go h) ∧ asked_in go s h).

Lemma started_app h m : started (h ++ [m]) ↔ started h ∨ StartNetworks ∈ deeds m.
Proof.
  unfold started. split.
  - intros (m' & [Hin|Hin%list_elem_of_singleton]%elem_of_app & Hs); [left; by exists m'|subst; by right].
  - intros [(m' & Hin & Hs)|Hs]; [exists m'; split; [apply elem_of_app; by left|done]|exists m; split; [apply elem_of_app; right; by left|done]].
Qed.

(** A proof of the demanded kind is what the options demand. *)
Lemma proof_authenticates go h s i l : demands go = true → asked_in go s h → proof_of s i (demanded_bit go) → authenticated go (h ++ [mk_moment s i l]).
Proof.
  intros Hd Ha Hp. unfold authenticated, demanded_bit, demands in *. assert (Hin : mk_moment s i l ∈ h ++ [mk_moment s i l]) by (apply elem_of_app; right; by left).
  destruct (neg_eap go) eqn:He; [|destruct (neg_chap go) eqn:Hc].
  - destruct Hp as [[? _]|[[? _]|[_ Hp]]]; [lia|lia|]. by exists (mk_moment s i l).
  - destruct Hp as [[? _]|[[_ Hp]|[? _]]]; [lia| |lia]. destruct (Ha He Hc) as (Ht & Hn & Hs). exists h, (mk_moment s i l), []. split; [done|].
    split; [done|]. split; [done|]. split; [done|]. apply Hs. destruct Hp as (b & len & id & k & _ & _ & Hst & _). by left.
  - destruct Hp as [[_ Hp]|[[? _]|[? _]]]; [|lia|lia]. destruct (neg_upap go); [|done]. by exists (mk_moment s i l).
Qed.

Lemma demanded_peer_bit go : demanded_bit go ∈ peer_bits.
Proof. unfold demanded_bit, peer_bits. repeat case_match; repeat (first [by left|right]). Qed.

Lemma link_history_inv go h s : link_history go h s → link_inv go h s.
Proof.
  induction 1 as [s ho junk s' l Hc E|h s i s' l _ IH Hu E].
  - unfold auth_step in E. apply bind_task_Ok in E as (s0 & s1 & l1 & l2 & [= <- <- <-] & E & ->). rewrite Hc in E. cbn [negb when] in E.
    apply bind_task_Ok in E as (u & s2 & l3 & l4 & [= _ <- <-] & E & ->). cbn [app].
    assert (Hst : ∀ m, started [m] ↔ StartNetworks ∈ deeds m).
    { intros m. rewrite <- (app_nil_l [m]), started_app. unfold started. split; [intros [(m' & Hin%elem_of_nil & _)|?]; done|by right]. }
    destruct (link_established_after _ _ _ _ _ _ _ E) as [[Ho Hn]|(Hex & Hd & Ha)]; [left; split; [done|]; by rewrite Hst|right].
    split; [done|]. split; [intros Hdem; left; by apply Hd|]. split.
    + rewrite Hst. cbn [deeds]. intros Hin. destruct (demands go) eqn:Ed; [by destruct (Hd eq_refl)|]. unfold authenticated. unfold demands in Ed.
      apply orb_false_iff in Ed as [Ed ->]. apply orb_false_iff in Ed as [-> ->]. by apply Hex.
    + intros He Hc'. destruct (Ha He Hc') as (Ht & Hn & Hs). split; [done|]. split; [done|]. intros Hch. eexists. split; [by left|]. by apply Hs.
  - pose proof (auth_step_keeps i s Hu) as Hk. apply keeps_Ok with (1 := Hk) in E as M. destruct M as [T Nm B _ S O C].
    destruct IH as [[Ho Hn]|(Hex & Hd & Hst & Ha)].
    { left. split; [destruct (lcp_opened s') eqn:E'; [by rewrite O in Ho|done]|]. rewrite started_app. cbn [deeds]. intros [?|Hin]; [done|].
      destruct (S Hin) as [Ho' _]. congruence. }
    right. split; [done|]. split; [|split].
    + intros Hdem. destruct (Hd Hdem) as [Hb|Hau]; [|right; by apply authenticated_app]. destruct (B _ (demanded_peer_bit go) Hb) as [?|Hp]; [by left|].
      right. by apply proof_authenticates.
    + rewrite started_app. cbn [deeds]. intros [Hs|Hin]; [by apply authenticated_app, Hst|]. destruct (S Hin) as [_ HP].
      destruct (demands go) eqn:Ed.
      * destruct (Hd eq_refl) as [Hb|Hau]; [|by apply authenticated_app]. apply proof_authenticates; [done|done|]. by apply HP; [apply demanded_peer_bit|].
      * unfold authenticated. unfold demands in Ed. apply orb_false_iff in Ed as [Ed ->]. apply orb_false_iff in Ed as [-> ->]. by apply Hex.
    + intros He Hc. destruct (Ha He Hc) as (Ht & Hn & Hs). split; [congruence|]. split; [congruence|]. intros Hch.
      destruct (C Hch) as [(Hch0 & -> & _)|Hin]; [by apply sent_app, Hs|]. eexists. split; [apply elem_of_app; right; by left|done].
Qed.

(** C6: Whatever comes in, in any order, since LCP came up: if the networks have been started, the peer has
    given the proof that was agreed with it, after it was asked: the right name and password
    (PAP), or the digest of the secret and of a challenge that was sent in this link (CHAP), or
    EAP has accepted it; without an agreement, nobody demands a proof or the peer is excused. *)
Theorem networks_need_proof go h s : link_history go h s → started h → authenticated go h.
Proof.
  intros Hh Hs. destruct (link_history_inv go h s Hh) as [[_ Hn]|(_ & _ & Ha & _)]; [done|by apply Ha].
Qed.

End gentle_tasks.
