(* ===== verification/AuthLink.v ===== *)
(** * No input of the authentication goes wrong (PppAuth, PapChap) *)

From stdpp Require Import base numbers strings list.
From S2P Require Import Prelude Bytes PppFsm LcpOptions Md5 AuthFile PppAuth PapChap AuthProps.

(** ** Tasks that go well *)

Definition completes {A} (m : task A) (s : auth) (Q : A → auth → Prop) : Prop := ∃ a s' l, m s = Ok (a, s', l) ∧ Q a s'.

(** What keeps the protocols from going wrong: with an unknown digest nothing is sent, and who sends
    has a name. *)
Definition wf_server (c : chap_state) : Prop :=
  (chal_type c = 0 ∧ serverstate c ∈ [CHAPSS_INITIAL; CHAPSS_CLOSED; CHAPSS_BADAUTH]) ∨ (chal_type c = CHAP_DIGEST_MD5 ∧ is_Some (chal_name c)).
Definition wf_client (c : chap_state) : Prop :=
  (resp_type c = 0 ∧ clientstate c ≠ CHAPCS_RESPONSE) ∨ (resp_type c = CHAP_DIGEST_MD5 ∧ is_Some (resp_name c)).
Definition wf (s : auth) : Prop := wf_server (chap s) ∧ wf_client (chap s).

Definition goes (Q : auth → Prop) {A} (m : task A) (s : auth) : Prop := completes m s (λ _ s', Q s').
Definition fine {A} (m : task A) : Prop := ∀ s, wf s → goes wf m s.

Lemma completes_bind {A B} (m : task A) (k : A → task B) s Q :
  completes m s (λ a s', completes (k a) s' Q) → completes (m ≫= k) s Q.
Proof.
  intros (a & s1 & l1 & E1 & b & s2 & l2 & E2 & HQ). exists b, s2, (l1 ++ l2). split; [|done]. apply bind_task_Ok. by exists a, s1, l1, l2.
Qed.
Lemma completes_mono {A} (m : task A) s (Q Q' : A → auth → Prop) : completes m s Q → (∀ a s', Q a s' → Q' a s') → completes m s Q'.
Proof. intros (a & s' & l & E & HQ) Hi. exists a, s', l. split; [done|by apply Hi]. Qed.
Lemma completes_ret {A} (a : A) s (Q : A → auth → Prop) : Q a s → completes (mret a) s Q.
Proof. intros HQ. by exists a, s, []. Qed.
Lemma completes_state s Q : Q s s → completes state s Q.
Proof. intros HQ. by exists s, s, []. Qed.
Lemma completes_set g s (Q : () → auth → Prop) : Q () (g s) → completes (set g) s Q.
Proof. intros HQ. by exists (), (g s), []. Qed.
Lemma completes_emit d s (Q : () → auth → Prop) : Q () s → completes (emit d) s Q.
Proof. intros HQ. by exists (), s, [d]. Qed.
Lemma completes_of_res {A} (r : res A) a s (Q : A → auth → Prop) : r = Ok a → Q a s → completes (of_res r) s Q.
Proof. intros -> HQ. by exists a, s, []. Qed.

Lemma goes_bind {A B} (m : task A) (k : A → task B) s :
  goes wf m s → (∀ a s', wf s' → goes wf (k a) s') → goes wf (m ≫= k) s.
Proof. intros Hm Hk. apply completes_bind. eapply completes_mono; [exact Hm|]. intros a s' Hs'. by apply Hk. Qed.
Lemma goes_state_bind {B} (k : auth → task B) s : goes wf (k s) s → goes wf (state ≫= k) s.
Proof. intros Hk. apply completes_bind, completes_state. exact Hk. Qed.
Lemma goes_of_res_bind {A B} (r : res A) a (k : A → task B) s : r = Ok a → goes wf (k a) s → goes wf (of_res r ≫= k) s.
Proof. intros E Hk. apply completes_bind. eapply completes_of_res; [exact E|exact Hk]. Qed.

Lemma fine_ret {A} (a : A) : fine (mret a).
Proof. intros s Hs. by apply completes_ret. Qed.
Lemma fine_emit d : fine (emit d).
Proof. intros s Hs. by apply completes_emit. Qed.
Lemma fine_state : fine state.
Proof. intros s Hs. by apply completes_state. Qed.
Lemma goes_set g s : wf (g s) → goes wf (set g) s.
Proof. intros Hs. by apply completes_set. Qed.
Lemma fine_set g : (∀ s, wf s → wf (g s)) → fine (set g).
Proof. intros Hg s Hs. apply goes_set. by apply Hg. Qed.
Lemma goes_of_res {A} (r : res A) s : (∃ a, r = Ok a) → wf s → goes wf (of_res r) s.
Proof. intros [a E] Hs. by eapply completes_of_res. Qed.

Create HintDb fine.
#[export] Hint Resolve fine_ret fine_emit fine_state : fine.

Ltac known_fine :=
  match goal with
  | |- fine _ => solve [eauto with fine]
  | Hw : wf ?s |- goes wf ?m ?s => let Hf := fresh in assert (Hf : fine m) by (solve [eauto with fine]); exact (Hf s Hw)
  end.
Ltac wf_side Hw :=
  first [exact Hw | left; split; [by apply Hw|done] | right; split; [by apply Hw|by apply Hw]
        | destruct Hw as [[? ?]|[? ?]]; [left; split; [done|first [done|by repeat constructor]]|right; by split]].
Ltac wf_set :=
  match goal with
  | Hw : wf _ |- wf _ => first [exact Hw | destruct Hw as [Hw1 Hw2]; split; [wf_side Hw1|wf_side Hw2]]
  end.
Ltac fine :=
  repeat first
    [ known_fine
    | match goal with |- fine _ => intros ? ? end
    | apply goes_state_bind
    | match goal with |- goes wf (of_res (Ok ?a) ≫= _) _ => apply (goes_of_res_bind (Ok a) a _ _ eq_refl) end
    | apply goes_bind; [|intros ? ? ?]
    | progress cbv beta zeta
    | progress unfold when
    | apply goes_set; wf_set
    | case_match ].

Section fine_tasks.
Context `{MsDigests}.
Variable cfg : config.
Hypothesis words_ok : Forall (λ w, w ≠ []) (permitted_numbers cfg).

Lemma fine_TIMEOUT t n : fine (TIMEOUT t n).
Proof. unfold TIMEOUT. fine. Qed.
Lemma fine_UNTIMEOUT t : fine (UNTIMEOUT t).
Proof. unfold UNTIMEOUT. fine. Qed.
#[local] Hint Resolve fine_TIMEOUT fine_UNTIMEOUT : fine.
Lemma fine_upap_lowerdown : fine upap_lowerdown.
Proof. unfold upap_lowerdown, on_upap. fine. Qed.
Lemma fine_ChapLowerDown : fine ChapLowerDown.
Proof. unfold ChapLowerDown, on_chap. fine. Qed.
Lemma fine_auth_script up : fine (auth_script cfg up).
Proof. unfold auth_script. fine. Qed.
#[local] Hint Resolve fine_upap_lowerdown fine_ChapLowerDown fine_auth_script : fine.
Lemma fine_auth_script_done : fine (auth_script_done cfg).
Proof. unfold auth_script_done. fine. Qed.
Lemma fine_link_down : fine (link_down cfg).
Proof. unfold link_down. fine. Qed.
#[local] Hint Resolve fine_link_down : fine.
Lemma fine_lcp_close r : fine (lcp_close cfg r).
Proof. unfold lcp_close. fine. Qed.
#[local] Hint Resolve fine_lcp_close : fine.

Lemma fine_of_res {A} (r : res A) : (∃ a, r = Ok a) → fine (of_res r).
Proof. intros Hr s Hs. by apply goes_of_res. Qed.
Lemma fine_scan f client server want flags junk : fine (of_res (scan_authfile (files cfg) f client server want flags junk)).
Proof.
  apply fine_of_res. destruct (scan_authfile_spec (files cfg) f client server want flags junk) as (a & b & c & d & E & _). by eexists.
Qed.
#[local] Hint Resolve fine_scan : fine.
Lemma fine_plogin name pass : fine (plogin cfg name pass).
Proof. unfold plogin. fine. Qed.
#[local] Hint Resolve fine_plogin : fine.
Lemma fine_line_accepts name pass secret : fine (line_accepts cfg name pass secret).
Proof. unfold line_accepts. fine. Qed.
#[local] Hint Resolve fine_line_accepts : fine.
Lemma fine_check_passwd b ru rul rp rpl junk :
  (∃ name, visible b ru rul = Ok name) → (∃ pass, visible b rp rpl = Ok pass) → fine (check_passwd cfg b ru rul rp rpl junk).
Proof.
  intros Hn Hp. pose proof (fine_of_res _ Hn). pose proof (fine_of_res _ Hp). unfold check_passwd. fine.
Qed.
Lemma fine_null_login junk : fine (null_login cfg junk).
Proof. unfold null_login. fine. Qed.
Lemma fine_get_pap_passwd junk : fine (get_pap_passwd cfg junk).
Proof. unfold get_pap_passwd. fine. Qed.
Lemma fine_get_secret c s am : fine (get_secret cfg c s am).
Proof. unfold get_secret. fine. Qed.
Lemma fine_auth_peer_fail : fine (auth_peer_fail cfg).
Proof. unfold auth_peer_fail. fine. Qed.
Lemma fine_clear_passwd : fine clear_passwd.
Proof. unfold clear_passwd. fine. Qed.
#[local] Hint Resolve fine_clear_passwd : fine.
Lemma fine_auth_withpeer_fail : fine (auth_withpeer_fail cfg).
Proof. unfold auth_withpeer_fail. fine. Qed.
Lemma fine_network_phase : fine (network_phase cfg).
Proof. unfold network_phase. fine. Qed.
#[local] Hint Resolve fine_network_phase : fine.
Lemma fine_auth_complete bit : fine (auth_complete cfg bit).
Proof. unfold auth_complete. fine. Qed.
#[local] Hint Resolve fine_auth_complete : fine.
Lemma fine_auth_peer_success p f name n : fine (auth_peer_success cfg p f name n).
Proof. unfold auth_peer_success. fine. Qed.
Lemma fine_auth_withpeer_success p f : fine (auth_withpeer_success cfg p f).
Proof. unfold auth_withpeer_success. fine. Qed.
#[local] Hint Resolve fine_null_login fine_get_pap_passwd fine_get_secret fine_auth_peer_fail fine_auth_withpeer_fail
  fine_auth_peer_success fine_auth_withpeer_success fine_auth_script_done : fine.

(** PAP *)

Lemma fine_upap_sauthreq : fine upap_sauthreq.
Proof. unfold upap_sauthreq, on_upap. fine. Qed.
Lemma fine_upap_sresp ack id msg : fine (upap_sresp ack id msg).
Proof. unfold upap_sresp. fine. Qed.
Lemma fine_upap_listen : fine upap_listen.
Proof. unfold upap_listen, on_upap. fine. Qed.
#[local] Hint Resolve fine_upap_sauthreq fine_upap_sresp fine_upap_listen : fine.
Lemma fine_upap_authwithpeer : fine (upap_authwithpeer cfg).
Proof. unfold upap_authwithpeer, on_upap. fine. Qed.
Lemma fine_upap_authpeer : fine upap_authpeer.
Proof. unfold upap_authpeer, on_upap. fine. Qed.
Lemma fine_upap_on_timeout : fine (upap_on_timeout cfg).
Proof. unfold upap_on_timeout, on_upap. fine. Qed.
Lemma fine_upap_on_reqtimeout : fine (upap_on_reqtimeout cfg).
Proof. unfold upap_on_reqtimeout, on_upap. fine. Qed.
Lemma fine_upap_lowerup : fine upap_lowerup.
Proof. unfold upap_lowerup, on_upap. fine. Qed.
Lemma fine_upap_protrej : fine (upap_protrej cfg).
Proof. unfold upap_protrej. fine. Qed.
#[local] Hint Resolve fine_upap_authwithpeer fine_upap_authpeer fine_upap_on_timeout fine_upap_on_reqtimeout fine_upap_lowerup fine_upap_protrej : fine.

(** CHAP *)

Lemma fine_rand : fine (rand cfg).
Proof. unfold rand. fine. Qed.
#[local] Hint Resolve fine_rand : fine.
Lemma fine_random_bytes n : fine (random_bytes cfg n).
Proof. induction n as [|n IH]; cbn [random_bytes]; fine. Qed.
#[local] Hint Resolve fine_random_bytes : fine.
Lemma fine_ChapSendStatus ok : fine (ChapSendStatus cfg ok).
Proof. unfold ChapSendStatus, chap_output. fine. Qed.
#[local] Hint Resolve fine_ChapSendStatus : fine.
Lemma fine_ChapReceiveFailure : fine (ChapReceiveFailure cfg).
Proof. unfold ChapReceiveFailure. fine. Qed.
Lemma fine_check_authenticator b len ea : fine (check_authenticator cfg b len ea).
Proof. unfold check_authenticator. fine. Qed.
#[local] Hint Resolve fine_check_authenticator : fine.
Lemma fine_ChapReceiveSuccess b len : fine (ChapReceiveSuccess cfg b len).
Proof. unfold ChapReceiveSuccess, on_chap. fine. Qed.
Lemma fine_ChapProtocolReject : fine (ChapProtocolReject cfg).
Proof. unfold ChapProtocolReject. fine. Qed.

(** Who challenges has a digest and a name. *)
Lemma wf_challenger s : wf s → serverstate (chap s) ∉ [CHAPSS_INITIAL; CHAPSS_CLOSED; CHAPSS_BADAUTH] →
  chal_type (chap s) = CHAP_DIGEST_MD5 ∧ is_Some (chal_name (chap s)).
Proof. by intros [[[_ ?]|?] _]. Qed.

Lemma goes_ChapSendChallenge s : wf s → is_Some (chal_name (chap s)) → goes wf ChapSendChallenge s.
Proof.
  intros Hw [name Hn]. unfold ChapSendChallenge, chap_output, on_chap. apply goes_state_bind. cbv zeta.
  apply (goes_of_res_bind _ name); [by rewrite Hn|]. fine.
Qed.

Lemma goes_new_challenge next s : wf s → chal_type (chap s) = CHAP_DIGEST_MD5 → is_Some (chal_name (chap s)) → goes wf (new_challenge cfg next) s.
Proof.
  intros Hw Ht Hn. unfold new_challenge.
  assert (Hg : goes wf (ChapGenChallenge cfg) s).
  { unfold ChapGenChallenge, on_chap. apply goes_state_bind. cbv zeta. rewrite Ht. cbn [Z.eqb CHAP_DIGEST_MD5 Pos.eqb]. change (CHAP_DIGEST_MD5 =? CHAP_DIGEST_MD5) with true. fine. }
  destruct Hg as (u & s1 & l1 & E & Hw1). destruct (ChapGenChallenge_after cfg _ _ _ _ E) as (_ & Ht1 & Hn1 & _ & _).
  apply completes_bind. exists u, s1, l1. split; [done|]. rewrite Ht in Ht1. rewrite <- Hn1 in Hn.
  destruct (goes_ChapSendChallenge s1 Hw1 Hn) as (v & s2 & l2 & E2 & Hw2). apply completes_bind. exists v, s2, l2. split; [done|].
  assert (Hs2 : chal_type (chap s2) = chal_type (chap s1) ∧ chal_name (chap s2) = chal_name (chap s1)).
  { apply keeps_Ok with (1 := gentle_ChapSendChallenge s1 (λ _, True)) in E2. by destruct E2. }
  destruct Hs2 as [Ht2 Hn2]. unfold on_chap. apply goes_set. destruct Hw2 as [_ Hc]. split; [|exact Hc]. right. cbn. rewrite Ht2, Hn2. by split.
Qed.

Lemma fine_ChapAuthPeer name d : u8 d = CHAP_DIGEST_MD5 → fine (ChapAuthPeer cfg name d).
Proof.
  intros Hd s Hw. unfold ChapAuthPeer, on_chap. apply completes_bind, completes_set.
  set (s1 := set_chap _ s). assert (Hw1 : wf s1) by (destruct Hw as [_ Hc]; split; [right; by split|exact Hc]).
  apply goes_state_bind. case_match; try (by apply goes_new_challenge); apply goes_set; (split; [right; by split|by apply Hw1]).
Qed.

Lemma fine_ChapLowerUp : fine (ChapLowerUp cfg).
Proof.
  intros s Hw. unfold ChapLowerUp, on_chap. apply goes_state_bind. apply completes_bind.
  assert (Hfirst : completes (match clientstate (chap s) with
      | CHAPCS_INITIAL => set (λ s, set_chap (set_clientstate CHAPCS_CLOSED (chap s)) s)
      | CHAPCS_PENDING => set (λ s, set_chap (set_clientstate CHAPCS_LISTEN (chap s)) s)
      | _ => mret ()
      end) s (λ _ s', wf s' ∧ serverstate (chap s') = serverstate (chap s))).
  { case_match; try (by apply completes_ret); apply completes_set; (split; [|done]); wf_set. }
  eapply completes_mono; [exact Hfirst|]. clear Hfirst. intros _ s1 [Hw1 Es]. rewrite <- Es. destruct (serverstate (chap s1)) eqn:E1; try (by apply fine_ret).
  - apply goes_set. wf_set.
  - destruct (wf_challenger s1 Hw1) as [Ht Hn]; [rewrite E1; repeat (apply not_elem_of_cons; split; [done|]); apply not_elem_of_nil|]. by apply goes_new_challenge.
Qed.

Lemma fine_ChapAuthWithPeer name d : u8 d = CHAP_DIGEST_MD5 → fine (ChapAuthWithPeer name d).
Proof.
  intros Hd s Hw. unfold ChapAuthWithPeer, on_chap. apply completes_bind, completes_set.
  set (s1 := set_chap _ s). assert (Hw1 : wf s1) by (destruct Hw as [Hc _]; split; [exact Hc|right; by split]).
  apply goes_state_bind. case_match; apply goes_set; (split; [by apply Hw1|right; by split]).
Qed.

Lemma goes_ChapSendResponse s : wf s → resp_type (chap s) = CHAP_DIGEST_MD5 → is_Some (resp_name (chap s)) → goes wf ChapSendResponse s.
Proof.
  intros [Hs _] Ht [name Hn]. unfold ChapSendResponse, chap_output, on_chap. apply goes_state_bind. cbv zeta.
  apply (goes_of_res_bind _ name); [by rewrite Hn|]. apply completes_bind, completes_emit, completes_bind, completes_set.
  set (s1 := set_chap _ s). assert (Hw1 : wf s1) by (split; [exact Hs|right; cbn; rewrite Ht, Hn; by split; [|eexists]]). fine.
Qed.

Lemma fine_chap_on_challenge_timeout : fine (chap_on_challenge_timeout cfg).
Proof.
  intros s Hw. unfold chap_on_challenge_timeout, on_chap. apply goes_state_bind. cbv zeta.
  assert (Hsend : serverstate (chap s) ∉ [CHAPSS_INITIAL; CHAPSS_CLOSED; CHAPSS_BADAUTH] → goes wf ChapSendChallenge s).
  { intros Hns. apply goes_ChapSendChallenge; [done|]. by apply wf_challenger. }
  destruct (serverstate (chap s)) eqn:E; try (by apply fine_ret).
  all: case_match; [|apply Hsend; repeat (apply not_elem_of_cons; split; [done|]); apply not_elem_of_nil].
  all: apply goes_bind; [apply goes_set; wf_set|]; intros _ s1 Hw1; by apply fine_auth_peer_fail.
Qed.

Lemma fine_chap_on_rechallenge : fine (chap_on_rechallenge cfg).
Proof.
  intros s Hw. unfold chap_on_rechallenge. apply goes_state_bind. case_bool_decide as E; cbn [when]; [|by apply fine_ret].
  destruct (wf_challenger s Hw) as [Ht Hn]; [rewrite E; repeat (apply not_elem_of_cons; split; [done|]); apply not_elem_of_nil|]. by apply goes_new_challenge.
Qed.

Lemma fine_chap_on_response_timeout : fine chap_on_response_timeout.
Proof.
  intros s Hw. unfold chap_on_response_timeout. apply goes_state_bind. case_bool_decide as E; cbn [when]; [|by apply fine_ret].
  pose proof Hw as [_ [[_ ?]|[Ht Hn]]]; [done|]. by apply goes_ChapSendResponse.
Qed.

Lemma fine_handler t : fine (handler cfg t).
Proof.
  destruct t; [apply fine_upap_on_timeout|apply fine_upap_on_reqtimeout|apply fine_chap_on_challenge_timeout|apply fine_chap_on_response_timeout|apply fine_chap_on_rechallenge].
Qed.

(** ** Packets *)

(** The buffer of a packet of [l] bytes has a zero behind the packet. *)
Definition buffer (b : bytes) (l : Z) : Prop := is_bytes b ∧ l < Z.of_nat (length b) ∧ last b = Some 0.

Lemma until_zero_mem b : 0 ∈ b → is_Some (until_zero b).
Proof.
  induction b as [|x b IH]; [by intros ?%elem_of_nil|]. cbn [until_zero]. destruct (Z.eqb_spec x 0) as [->|Hx]; [by eexists|].
  intros [?|Hin]%elem_of_cons; [congruence|]. destruct (IH Hin) as [u ->]. by eexists.
Qed.

Lemma visible_ok b p n : last b = Some 0 → (p < length b)%nat → ∃ s, visible b p n = Ok s.
Proof.
  intros Hl Hp. unfold visible, string_at. destruct (until_zero_mem (drop p b)) as [u ->]; [|by eexists].
  rewrite last_lookup in Hl. apply (list_elem_of_lookup_2 _ (pred (length b) - p)). rewrite lookup_drop. by replace (p + (pred (length b) - p))%nat with (pred (length b)) by lia.
Qed.

Lemma last_splice b p s : last b = Some 0 → (p + length s < length b)%nat → last (splice b p s) = Some 0.
Proof. rewrite !last_lookup. intros Hl Hp. rewrite length_splice by lia. rewrite lookup_splice_ne by lia. done. Qed.

Lemma byte_at_bytes b i : is_bytes b → (i < length b)%nat → ∃ v, byte_at b i = Ok v ∧ is_u8 v.
Proof. intros Hb Hi. destruct (byte_at_lt b i Hi) as (v & E & _). exists v. split; [done|]. by eapply byte_at_range. Qed.

Lemma packet_header_ok b l : buffer b l →
  ∃ o, packet_header b l = Ok o ∧ ∀ code id len, o = Some (code, id, len) → is_u8 id ∧ 0 ≤ len ∧ 4 + len < Z.of_nat (length b).
Proof.
  intros (Hb & Hl & _). unfold packet_header. destruct (Z.ltb_spec l 4) as [|H4]; [by eexists|].
  destruct (byte_at_bytes b 0 Hb ltac:(lia)) as (code & -> & _). destruct (byte_at_bytes b 1 Hb ltac:(lia)) as (id & -> & Hid). cbn [mbind res_bind].
  unfold read16. rewrite read_at_Ok by lia. cbn [fmap res_fmap mbind res_bind]. eexists. split; [done|]. intros code' id' len'.
  destruct (Z.ltb_spec (be_val (slice b 2 2)) 4); [done|]. destruct (Z.ltb_spec l (be_val (slice b 2 2))); [done|]. intros [= <- <- <-]. split; [done|lia].
Qed.

Lemma parse_authreq_ok b len : is_bytes b → 4 + len < Z.of_nat (length b) →
  ∃ o, parse_authreq b len = Ok o ∧ ∀ ru rul rp rpl, o = Some (ru, rul, rp, rpl) → (ru < length b)%nat ∧ (rp + rpl < length b)%nat.
Proof.
  intros Hb Hl. unfold parse_authreq. destruct (Z.ltb_spec len 1); [by eexists|]. destruct (byte_at_bytes b 4 Hb ltac:(lia)) as (ul & -> & Hu).
  unfold is_u8 in Hu. cbn [mbind res_bind]. destruct (Z.ltb_spec (len - (1 + ul + 1)) 0); [by eexists|].
  destruct (byte_at_bytes b (5 + Z.to_nat ul) Hb ltac:(lia)) as (pl & -> & Hpl). unfold is_u8 in Hpl. cbn [mbind res_bind].
  eexists. split; [done|]. intros ru rul rp rpl. destruct (Z.ltb_spec (len - (1 + ul + 1)) pl); [done|]. intros [= <- <- <- <-]. lia.
Qed.

Lemma parse_value_ok b len : is_bytes b → 4 + len < Z.of_nat (length b) →
  ∃ o, parse_value b len = Ok o ∧ ∀ n nl, o = Some (n, nl) → (5 + n < length b)%nat.
Proof.
  intros Hb Hl. unfold parse_value. destruct (Z.ltb_spec len 2); [by eexists|]. destruct (byte_at_bytes b 4 Hb ltac:(lia)) as (n & -> & Hn).
  unfold is_u8 in Hn. cbn [mbind res_bind]. eexists. split; [done|]. intros n' nl. destruct (Z.ltb_spec (len - (1 + n)) 0); [done|]. intros [= <- <-]. lia.
Qed.

Lemma fine_message_ok b len : is_bytes b → 4 + len < Z.of_nat (length b) → fine (of_res (message_ok b len)).
Proof.
  intros Hb Hl. apply fine_of_res. unfold message_ok. destruct (Z.ltb_spec len 1); [by eexists|].
  destruct (byte_at_bytes b 4 Hb ltac:(lia)) as (m & -> & _). by eexists.
Qed.

Lemma fine_auth_number : fine (of_res (auth_number cfg)).
Proof.
  apply fine_of_res. unfold auth_number. destruct words_ok as [|w words Hw Hws]; [by eexists|]. clear words_ok.
  assert (Hloop : ∀ words, Forall (λ w, w ≠ []) words → ∃ ok, number_loop cfg words = Ok ok); [|apply Hloop; by constructor].
  induction 1 as [|v vs Hv _ [ok IH]]; cbn [number_loop]; [by eexists|]. destruct (last v) as [c|] eqn:E; [|by apply last_None in E].
  cbv zeta. case_bool_decide; [by eexists|]. rewrite IH. by eexists.
Qed.
#[local] Hint Resolve fine_auth_number : fine.

Lemma fine_upap_rauthreq b id len junk : is_bytes b → 4 + len < Z.of_nat (length b) → last b = Some 0 → fine (upap_rauthreq cfg b id len junk).
Proof.
  intros Hb Hl Hz. destruct (parse_authreq_ok b len Hb Hl) as (o & Ep & Ho). unfold upap_rauthreq. rewrite Ep.
  destruct o as [[[[ru rul] rp] rpl]|]; [|unfold on_upap; fine]. destruct (Ho ru rul rp rpl eq_refl) as [Hru Hrp].
  pose proof (fine_check_passwd b ru rul rp rpl junk (visible_ok b ru rul Hz Hru) (visible_ok b rp rpl Hz ltac:(lia))).
  assert (Hz' : last (splice b rp (replicate rpl 0)) = Some 0) by (apply last_splice; [done|rewrite length_replicate; lia]).
  pose proof (fine_of_res _ (visible_ok (splice b rp (replicate rpl 0)) ru rul Hz' ltac:(rewrite length_splice; rewrite ?length_replicate; lia))).
  unfold on_upap. fine.
Qed.

Lemma fine_upap_rauthack b len : is_bytes b → 4 + len < Z.of_nat (length b) → fine (upap_rauthack cfg b len).
Proof. intros Hb Hl. pose proof (fine_message_ok b len Hb Hl). unfold upap_rauthack, on_upap. fine. Qed.
Lemma fine_upap_rauthnak b len : is_bytes b → 4 + len < Z.of_nat (length b) → fine (upap_rauthnak cfg b len).
Proof. intros Hb Hl. pose proof (fine_message_ok b len Hb Hl). unfold upap_rauthnak, on_upap. fine. Qed.

Lemma fine_upap_input b l junk : buffer b l → fine (upap_input cfg b l junk).
Proof.
  intros Hbuf. pose proof Hbuf as (Hb & _ & Hz). destruct (packet_header_ok b l Hbuf) as (o & Eh & Ho). unfold upap_input. rewrite Eh.
  destruct o as [[[code id] len]|]; [|fine]. destruct (Ho code id len eq_refl) as (_ & _ & Hl).
  pose proof (fine_upap_rauthreq b id len junk Hb Hl Hz). pose proof (fine_upap_rauthack b len Hb Hl). pose proof (fine_upap_rauthnak b len Hb Hl). fine.
Qed.

(** The digest of what the peer has asked for: unknown types give no response. *)
Lemma goes_make_response b n secret s : wf s → (5 + n < length b)%nat →
  completes (make_response cfg b n secret) s (λ known s', wf s' ∧ (known = true → resp_type (chap s') = CHAP_DIGEST_MD5 ∧ is_Some (resp_name (chap s')))).
Proof.
  intros Hw Hn. unfold make_response, on_chap. apply completes_bind, completes_state. cbv zeta. pose proof Hw as [Hs [[Ht Hc]|[Ht Hc]]]; rewrite Ht.
  - by apply completes_ret.
  - change (CHAP_DIGEST_MD5 =? CHAP_DIGEST_MD5) with true. cbv iota. apply completes_bind. eapply completes_of_res; [by apply read_at_Ok; lia|].
    apply completes_bind, completes_set, completes_ret. split; [|by split]. split; [exact Hs|]. right. by split.
Qed.

Lemma fine_ChapReceiveChallenge b id len : is_bytes b → 4 + len < Z.of_nat (length b) → last b = Some 0 → fine (ChapReceiveChallenge cfg b id len).
Proof.
  intros Hb Hl Hz. destruct (parse_value_ok b len Hb Hl) as (o & Ep & Ho). unfold ChapReceiveChallenge, on_chap. rewrite Ep.
  destruct o as [[n namelen]|]; [|fine]. pose proof (Ho n namelen eq_refl) as Hn. destruct (visible_ok b (5 + n) (Z.to_nat namelen) Hz Hn) as [name Ev].
  assert (Hrest : ∀ secret s, wf s → goes wf
    (known ← make_response cfg b n secret; when known ChapSendResponse) s).
  { intros secret s Hw. apply completes_bind. eapply completes_mono; [by apply goes_make_response|]. intros known s1 [Hw1 Hk].
    destruct known; cbn [when]; [|by apply fine_ret]. destruct (Hk eq_refl). by apply goes_ChapSendResponse. }
  intros s Hw. apply goes_state_bind.
  assert (Hgo : goes wf (p ← of_res (Ok (Some (n, namelen)));
    match p with
    | None => mret ()
    | Some (rchallenge_len, namelen) =>
        name ← of_res (visible b (5 + rchallenge_len) (Z.to_nat namelen));
        let rhostname :=
          if explicit_remote cfg || (negb (bool_decide (remote_name cfg = [])) && bool_decide (name = []))
          then take 255 (remote_name cfg) else name in
        secret ← get_secret cfg (resp_name (chap s)) (Some rhostname) false;
        _ ← when (bool_decide (clientstate (chap s) = CHAPCS_RESPONSE)) (UNTIMEOUT ChapResponseTimeout);
        _ ← set (λ s, set_chap (set_resp_transmits 0 (set_resp_id id (chap s))) s);
        known ← make_response cfg b rchallenge_len (default [] secret);
        when known ChapSendResponse
    end) s).
  { apply (goes_of_res_bind (Ok _) _ _ _ eq_refl). apply (goes_of_res_bind _ _ _ _ Ev). cbv zeta.
    apply goes_bind; [by apply fine_get_secret|]. intros secret s1 Hw1. apply goes_bind; [fine|]. intros _ s2 Hw2. apply goes_bind; [fine|]. intros _ s3 Hw3.
    by apply Hrest. }
  destruct (clientstate (chap s)); try exact Hgo; by apply fine_ret.
Qed.

(** Only with a known digest is a response accepted. *)
Lemma completes_check_response b n name secret s : wf s → (5 + n < length b)%nat →
  completes (check_response cfg b n name secret) s (λ ok s', wf s' ∧ (ok = true → chal_type (chap s') = CHAP_DIGEST_MD5 ∧ is_Some (chal_name (chap s')))).
Proof.
  intros Hw Hn. unfold check_response, on_chap. apply completes_bind, completes_state. cbv zeta. pose proof Hw as [[[Ht _]|[Ht Hnm]] _]; rewrite Ht; [by apply completes_ret|].
  change (CHAP_DIGEST_MD5 =? CHAP_DIGEST_MD5) with true. cbv iota. case_bool_decide as En; [|by apply completes_ret].
  apply completes_bind. eapply completes_of_res; [apply read_at_Ok; lia|]. by apply completes_ret.
Qed.

Lemma goes_outcome (ok : bool) (first : bool) t name nl interval s : wf s → (ok = true → chal_type (chap s) = CHAP_DIGEST_MD5 ∧ is_Some (chal_name (chap s))) →
  goes wf (_ ← ChapSendStatus cfg ok;
    if ok then
      _ ← on_chap (set_serverstate CHAPSS_OPEN);
      _ ← when first (auth_peer_success cfg PPP_CHAP t name nl);
      when (negb (interval =? 0)) (TIMEOUT ChapRechallenge interval)
    else
      _ ← on_chap (set_serverstate CHAPSS_BADAUTH);
      auth_peer_fail cfg) s.
Proof.
  intros Hw Hok. unfold ChapSendStatus, chap_output, on_chap. apply completes_bind, completes_bind, completes_state, completes_emit.
  destruct ok; [|fine]. destruct (Hok eq_refl) as [Ht Hn]. apply goes_bind; [apply goes_set; destruct Hw as [_ Hc]; split; [right; by split|exact Hc]|].
  intros _ s1 Hw1. fine.
Qed.

Lemma fine_ChapReceiveResponse b id len : is_bytes b → 4 + len < Z.of_nat (length b) → last b = Some 0 → fine (ChapReceiveResponse cfg b id len).
Proof.
  intros Hb Hl Hz s Hw. destruct (parse_value_ok b len Hb Hl) as (o & Ep & Ho). unfold ChapReceiveResponse. rewrite Ep.
  apply goes_state_bind. cbv zeta.
  assert (Hflags : (chal_type (chap s) =? CHAP_MICROSOFT_V2) = false) by (by pose proof Hw as [[[-> _]|[-> _]] _]).
  rewrite Hflags. cbn [when].
  destruct (serverstate (chap s)); try (by apply fine_ret); (destruct (negb (id =? chal_id (chap s))); [by apply fine_ret|]);
    repeat (case_bool_decide; [by apply fine_ChapSendStatus|]); try done.
  all: apply (goes_of_res_bind (Ok _) _ _ _ eq_refl); destruct o as [[n namelen]|]; [|by apply fine_ret].
  all: pose proof (Ho n namelen eq_refl) as Hn; destruct (visible_ok b (5 + n) (Z.to_nat namelen) Hz Hn) as [name Ev].
  all: apply goes_bind; [by apply fine_UNTIMEOUT|]; intros _ s1 Hw1; apply (goes_of_res_bind _ _ _ _ Ev); apply goes_bind; [by apply fine_ret|]; intros _ s2 Hw2.
  all: apply goes_bind; [by apply fine_get_secret|]; intros secret s3 Hw3; apply completes_bind.
  all: apply (completes_mono _ _ (λ ok s', wf s' ∧ (ok = true → chal_type (chap s') = CHAP_DIGEST_MD5 ∧ is_Some (chal_name (chap s')))));
    [destruct secret; [by apply completes_check_response|by apply completes_ret]|]; intros ok s4 [Hw4 Hok]; by apply goes_outcome.
Qed.

Lemma fine_ChapInput b l : buffer b l → fine (ChapInput cfg b l).
Proof.
  intros Hbuf. pose proof Hbuf as (Hb & _ & Hz). destruct (packet_header_ok b l Hbuf) as (o & Eh & Ho). unfold ChapInput. rewrite Eh.
  destruct o as [[[code id] len]|]; [|fine]. destruct (Ho code id len eq_refl) as (_ & _ & Hl).
  pose proof (fine_ChapReceiveChallenge b id len Hb Hl Hz). pose proof (fine_ChapReceiveResponse b id len Hb Hl Hz).
  pose proof fine_ChapReceiveFailure. pose proof (fine_ChapReceiveSuccess b len). fine.
Qed.

(** ** The link comes up, and all inputs *)

(** The digest agreed to is MD5. *)
Definition md5_only (o : lcp_options) : Prop := neg_chap o = true → CHAP_DIGEST (chap_mdtype o) = CHAP_DIGEST_MD5.

Lemma fine_ask_peer go : md5_only go → fine (ask_peer cfg go).
Proof.
  intros Hm. unfold ask_peer. destruct (neg_eap go); [fine|]. destruct (neg_chap go) eqn:Ec; [|fine]. rewrite (Hm Ec).
  pose proof (fine_ChapAuthPeer (our_name cfg) CHAP_DIGEST_MD5 eq_refl). fine.
Qed.

Lemma fine_answer_peer ho junk : md5_only ho → fine (answer_peer cfg ho junk).
Proof.
  intros Hm. unfold answer_peer. destruct (neg_eap ho); [fine|]. destruct (neg_chap ho) eqn:Ec; [|fine]. rewrite (Hm Ec).
  pose proof (fine_ChapAuthWithPeer (user cfg) CHAP_DIGEST_MD5 eq_refl). fine.
Qed.

Lemma fine_link_established go ho junk : md5_only go → md5_only ho → fine (link_established cfg go ho junk).
Proof.
  intros Hg Hh. pose proof (fine_ask_peer go Hg). pose proof (fine_answer_peer ho junk Hh). pose proof fine_ChapLowerUp. unfold link_established, may_refuse. fine.
Qed.

Definition input_ok (i : input) : Prop :=
  match i with
  | LinkUp go ho _ => md5_only go ∧ md5_only ho
  | PapPacket b l _ | ChapPacket b l => buffer b l
  | _ => True
  end.

Lemma fine_auth_step i : input_ok i → fine (auth_step cfg i).
Proof.
  intros Hi. unfold auth_step. pose proof fine_handler. pose proof fine_ChapProtocolReject. destruct i; cbn [input_ok] in Hi.
  - destruct Hi as [Hg Hh]. pose proof (fine_link_established go ho junk Hg Hh). fine.
  - fine.
  - pose proof (fine_upap_input b l junk Hi). fine.
  - pose proof (fine_ChapInput b l Hi). fine.
  - fine.
  - fine.
  - intros s Hw. apply goes_state_bind. destruct (take_timer t (timers s)); [|by apply fine_ret]. apply goes_bind; [apply goes_set; exact Hw|]. intros _ s1 Hw1. by apply fine_handler.
  - fine.
  - fine.
  - fine.
Qed.

Lemma auth_init_wf pw interval : wf (auth_init pw interval).
Proof. split; left; (split; [done|]); [by left|done]. Qed.

End fine_tasks.

(** Inputs one after the other. *)
Fixpoint auth_run `{MsDigests} (cfg : config) (inputs : list input) : task () :=
  match inputs with
  | [] => mret ()
  | i :: inputs => _ ← auth_step cfg i; auth_run cfg inputs
  end.

(** C14: from the start of the program any sequence of inputs (links that come up and go
    down, packets and timeouts, in any order) is handled to its end: no access outside a
    packet, no name that is [NULL], no end of the program; provided that each packet has a
    zero somewhere behind it in the buffer, each link that uses CHAP uses MD5 ([input_ok])
    and no permitted number is empty.  And whenever a challenge is out, there is a name to
    send it with. *)
Theorem auth_never_faults `{MsDigests} (cfg : config) (pw : bytes) (interval : Z) (inputs : list input)
    (Hwords : Forall (λ w, w ≠ []) (permitted_numbers cfg)) (Hin : Forall input_ok inputs) :
  ∃ s l, auth_run cfg inputs (auth_init pw interval) = Ok ((), s, l) ∧ (serverstate (chap s) = CHAPSS_INITIAL_CHAL → is_Some (chal_name (chap s))).
Proof.
  assert (Hfine : fine (auth_run cfg inputs)).
  { induction Hin as [|i inputs Hi _ IH]; cbn [auth_run]; [by apply fine_ret|]. intros s Hw.
    apply goes_bind; [by apply fine_auth_step|]. intros _ s1 Hw1. by apply IH. }
  destruct (Hfine _ (auth_init_wf pw interval)) as ([] & s & l & E & Hw). exists s, l. split; [done|]. intros Hs.
  apply (wf_challenger s Hw). rewrite Hs. repeat (apply not_elem_of_cons; split; [done|]). apply not_elem_of_nil.
Qed.
