(* ===== verification/AuthHandshake.v ===== *)
(** * CHAP between two ends (PppAuth, PapChap)

    Two ends over a link that delivers, step by step; then evaluations, and the theorems
    on authentication at concrete inputs. *)

From stdpp Require Import base numbers strings list.
From S2P Require Import Prelude Bytes PppFsm LcpOptions Md5 AuthFile PppAuth PapChap AuthProps AuthLink.

(** ** Running a task to its end *)

Definition is_output (d : deed) : bool := match d with Output _ => true | _ => false end.
Definition is_start (d : deed) : bool := match d with StartNetworks => true | _ => false end.

Definition runs {A} (m : task A) (s : auth) (Q : A → auth → list deed → Prop) : Prop := ∃ a s' l, m s = Ok (a, s', l) ∧ Q a s' l.

Lemma runs_bind {A B} (m : task A) (k : A → task B) s Q :
  runs m s (λ a s1 l1, runs (k a) s1 (λ b s2 l2, Q b s2 (l1 ++ l2))) → runs (m ≫= k) s Q.
Proof.
  intros (a & s1 & l1 & E1 & b & s2 & l2 & E2 & HQ). exists b, s2, (l1 ++ l2). split; [|done]. apply bind_task_Ok. by exists a, s1, l1, l2.
Qed.
Lemma runs_ret {A} (a : A) s (Q : A → auth → list deed → Prop) : Q a s [] → runs (mret a) s Q.
Proof. intros HQ. by exists a, s, []. Qed.
Lemma runs_state s Q : Q s s [] → runs state s Q.
Proof. intros HQ. by exists s, s, []. Qed.
Lemma runs_set g s (Q : () → auth → list deed → Prop) : Q () (g s) [] → runs (set g) s Q.
Proof. intros HQ. by exists (), (g s), []. Qed.
Lemma runs_emit d s (Q : () → auth → list deed → Prop) : Q () s [d] → runs (emit d) s Q.
Proof. intros HQ. by exists (), s, [d]. Qed.
Lemma runs_of_res {A} (r : res A) a s (Q : A → auth → list deed → Prop) : r = Ok a → Q a s [] → runs (of_res r) s Q.
Proof. intros -> HQ. by exists a, s, []. Qed.
Lemma runs_eq {A} (m : task A) s a s' l (Q : A → auth → list deed → Prop) : m s = Ok (a, s', l) → Q a s' l → runs m s Q.
Proof. intros E HQ. by exists a, s', l. Qed.

Lemma random_bytes_run `{MsDigests} cfg n s :
  random_bytes cfg n s = Ok ((λ i, Z.land (lrand48 cfg i) 0xff) <$> seq (randoms s) n, set_randoms (n + randoms s) s, []).
Proof.
  revert s. induction n as [|n IH]; intros s; [by destruct s|]. cbn [random_bytes]. unfold rand, mbind, task_bind, state, set, mret, task_ret. rewrite IH. cbn. by rewrite Nat.add_succ_r.
Qed.

(** One step: the rule for the task at the front, with what decides a branch computed. *)
Ltac run1 :=
  match goal with
  | |- runs (_ ≫= _) _ _ => apply runs_bind
  | |- runs state _ _ => apply runs_state
  | |- runs (set _) _ _ => apply runs_set
  | |- runs (emit _) _ _ => apply runs_emit
  | |- runs (mret _) _ _ => apply runs_ret
  | |- runs (match ?x with _ => _ end) _ _ => let y := eval cbn in x in progress change x with y
  | |- runs (when ?x _) _ _ => let y := eval cbn in x in progress change x with y
  end.
Ltac run := repeat first [progress cbn [when] | run1 | progress cbv beta].
(** A link that is down. *)
Definition down (s : auth) : Prop :=
  lcp_opened s = false ∧ us_clientstate (upap s) = UPAPCS_INITIAL ∧ us_serverstate (upap s) = UPAPSS_INITIAL ∧
  clientstate (chap s) = CHAPCS_INITIAL ∧ serverstate (chap s) = CHAPSS_INITIAL.

Definition no_auth (o : lcp_options) : Prop := neg_eap o = false ∧ neg_chap o = false ∧ neg_upap o = false.
Definition chap_md5_only (o : lcp_options) : Prop := neg_eap o = false ∧ neg_chap o = true ∧ CHAP_DIGEST (chap_mdtype o) = CHAP_DIGEST_MD5.

Section handshake.
Context `{MsDigests} (r p : config).

Definition challenged (go : lcp_options) (s s' : auth) (l : list deed) : Prop :=
  lcp_opened s' = true ∧ gotoptions s' = go ∧ auth_pending s' = CHAP_PEER ∧ chal_interval (chap s') = chal_interval (chap s) ∧
  serverstate (chap s') = CHAPSS_INITIAL_CHAL ∧
  chal_type (chap s') = CHAP_DIGEST_MD5 ∧ chal_name (chap s') = Some (our_name r) ∧
  is_u8 (chal_id (chap s')) ∧ is_bytes (challenge (chap s')) ∧ (0 < length (challenge (chap s')) < 24)%nat ∧
  filter (λ d, is_output d = true) l = [Output (challenge_packet (chap s'))].

Lemma new_challenge_run next s name Q : chal_type (chap s) = CHAP_DIGEST_MD5 → chal_name (chap s) = Some name →
  (∀ s' l, lcp_opened s' = lcp_opened s → gotoptions s' = gotoptions s → chal_interval (chap s') = chal_interval (chap s) →
    serverstate (chap s') = next → chal_type (chap s') = CHAP_DIGEST_MD5 → chal_name (chap s') = Some name →
    is_u8 (chal_id (chap s')) → is_bytes (challenge (chap s')) → (0 < length (challenge (chap s')) < 24)%nat →
    l = [Output (challenge_packet (chap s'))] → Q () s' l) →
  runs (new_challenge r next) s Q.
Proof.
  intros Ht Hn HQ. unfold new_challenge, ChapGenChallenge, ChapSendChallenge, chap_output, rand, TIMEOUT, on_chap.
  apply runs_bind, runs_bind, runs_state. rewrite Ht. change (CHAP_DIGEST_MD5 =? CHAP_DIGEST_MD5) with true. cbv iota.
  run. eapply runs_eq; [apply random_bytes_run|]. run. eapply runs_of_res; [cbn; by rewrite Hn|]. run.
  apply HQ; try done; cbn.
  - apply u8_range.
  - apply Forall_fmap, Forall_true. intros i. cbn. unfold is_u8. split; [by apply Z.land_nonneg; right|]. change 0xff with (Z.ones 8). rewrite Z.land_ones by done. by apply Z.mod_pos_bound.
  - rewrite length_fmap, length_seq. change (MAX_CHALLENGE_LENGTH - MIN_CHALLENGE_LENGTH) with 8. unfold MIN_CHALLENGE_LENGTH.
    pose proof (Z.mod_pos_bound (lrand48 r (randoms s)) 8). lia.
  - unfold challenge_packet. cbn. by rewrite Hn.
Qed.

Lemma router_up go ho junk s Q : down s → chap_md5_only go → no_auth ho →
  (∀ s' l, challenged go s s' l → Q () s' l) → runs (auth_step r (LinkUp go ho junk)) s Q.
Proof.
  intros (Ho & Hpc & Hps & Hcc & Hcs) (Hge & Hgc & Hgd) (Hhe & Hhc & Hhp) HQ.
  assert (Hdemand : (auth_required r && negb (neg_upap go || neg_chap go || neg_eap go)) = false) by (rewrite Hgc, orb_true_r, orb_true_l; apply andb_false_r).
  unfold auth_step, link_established, upap_lowerup, ChapLowerUp, may_refuse, ask_peer, answer_peer, on_upap, on_chap.
  rewrite Hdemand, Hge, Hgc, Hgd, Hhe, Hhc, Hhp. destruct s as [[] []]. cbn in Ho, Hpc, Hps, Hcc, Hcs. subst.
  run. destruct (negb (auth_required r) && negb (bool_decide (noauth_addrs r = []))).
  all: run; apply runs_bind; unfold ChapAuthPeer, on_chap; run.
  all: apply (new_challenge_run _ _ (our_name r)); [done..|]; intros s' l Ho Hg Hi Hst Ht Hn Hid Hc Hlc ->; run.
  all: change (Z.lor CHAP_PEER 0 =? 0) with false; run; apply HQ; repeat (split; [done|]); done.
Qed.

Definition listening (go : lcp_options) (s s' : auth) : Prop :=
  lcp_opened s' = true ∧ gotoptions s' = go ∧ auth_pending s' = CHAP_WITHPEER ∧ passwd s' = passwd s ∧
  clientstate (chap s') = CHAPCS_LISTEN ∧ resp_type (chap s') = CHAP_DIGEST_MD5 ∧ resp_name (chap s') = Some (user p).

Lemma peer_up go ho junk s Q : down s → no_auth go → chap_md5_only ho → auth_required p = false →
  (∀ s' l, listening go s s' → Q () s' l) → runs (auth_step p (LinkUp go ho junk)) s Q.
Proof.
  intros (Ho & Hpc & Hps & Hcc & Hcs) (Hge & Hgc & Hgp) (Hhe & Hhc & Hhd) Hr HQ.
  unfold auth_step, link_established, upap_lowerup, ChapLowerUp, may_refuse, ask_peer, answer_peer, on_upap, on_chap.
  rewrite Hr, Hge, Hgc, Hgp, Hhe, Hhc, Hhd. destruct s as [[] []]. cbn in Ho, Hpc, Hps, Hcc, Hcs. subst.
  run. destruct (negb (bool_decide (noauth_addrs p = []))).
  all: run; apply runs_bind; unfold ChapAuthWithPeer, on_chap; run.
  all: change (Z.lor 0 CHAP_WITHPEER =? 0) with false; run; apply HQ; repeat (split; [done|]); done.
Qed.

(** ** What a packet of CHAP carries *)

Definition printable (name : bytes) : Prop := Forall (λ c, 0x20 ≤ c < 0x7f) name ∧ (length name ≤ 255)%nat.

(** The packet of a deed behind the header of PPP, in a buffer whose next byte is a zero. *)
Definition carries (packet rest : bytes) : input := ChapPacket (drop 4 packet ++ 0 :: rest) (Z.of_nat (length packet) - 4).

Lemma packet_header_of code id data rest : is_u8 code → is_u8 id → Z.of_nat (length data) < 65000 →
  let packet := packet_of PPP_CHAP code id data in
  packet_header (drop 4 packet ++ 0 :: rest) (Z.of_nat (length packet) - 4) = Ok (Some (code, id, Z.of_nat (length data))).
Proof.
  intros Hc Hid Hl. cbv zeta. set (n := Z.of_nat (length data) + HEADERLEN).
  assert (Ep : packet_of PPP_CHAP code id data = [PPP_ALLSTATIONS; PPP_UI] ++ be_bytes 2 PPP_CHAP ++ code :: id :: be_bytes 2 n ++ data) by (unfold packet_of; by rewrite !u8_id).
  rewrite Ep. change (drop 4 _) with (code :: id :: be_bytes 2 n ++ data).
  assert (El : Z.of_nat (length ([PPP_ALLSTATIONS; PPP_UI] ++ be_bytes 2 PPP_CHAP ++ code :: id :: be_bytes 2 n ++ data)) - 4 = n).
  { rewrite !length_app, !length_be_bytes. cbn [length]. rewrite length_app, length_be_bytes. unfold n, HEADERLEN. lia. }
  rewrite El. unfold packet_header. destruct (Z.ltb_spec n 4) as [Hn|_]; [unfold n, HEADERLEN in Hn; lia|].
  cbn [app]. rewrite <- app_assoc.
  assert (Er : read16 (code :: id :: be_bytes 2 n ++ data ++ 0 :: rest) 2 = Ok n).
  { unfold read16. rewrite read_at_Ok by (cbn [length]; rewrite length_app, length_be_bytes; lia).
    change (slice _ 2 2) with (take 2 (be_bytes 2 n ++ data ++ 0 :: rest)). rewrite take_app_length' by done. cbn [fmap res_fmap]. rewrite be_val_bytes, Z.mod_small; [done|].
    unfold n, HEADERLEN. lia. }
  unfold byte_at at 1 2. cbn [lookup list_lookup deref mbind res_bind]. rewrite Er. cbn [mbind res_bind].
  destruct (Z.ltb_spec n 4) as [Hn|_]; [unfold n, HEADERLEN in Hn; lia|]. rewrite Z.ltb_irrefl. cbn [orb]. unfold n, HEADERLEN. do 4 f_equal. lia.
Qed.

Lemma drop_packet prot code id data : drop 8 (packet_of prot code id data) = data.
Proof. done. Qed.

Lemma drop_carried prot code id data rest : drop 4 (drop 4 (packet_of prot code id data) ++ 0 :: rest) = data ++ 0 :: rest.
Proof. done. Qed.

Lemma visible_printable b pos name rest : printable name → drop pos b = name ++ 0 :: rest → visible b pos (length name) = Ok name.
Proof.
  intros [Hp Hl] E. unfold visible, string_at. rewrite E.
  assert (Ez : until_zero (name ++ 0 :: rest) = Some name).
  { apply until_zero_Some. exists rest. split; [done|]. intros Hin. rewrite Forall_forall in Hp. specialize (Hp _ Hin). lia. }
  rewrite Ez. cbn [deref mbind res_bind]. rewrite (take_ge name) by lia.
  assert (Ev : concat (visible_char <$> name) = name).
  { clear Hl E Ez. induction Hp as [|c name Hc _ IH]; [done|]. cbn [fmap list_fmap concat]. change (list_fmap _ _ visible_char name) with (visible_char <$> name). rewrite IH.
    unfold visible_char. destruct (Z.leb_spec 0x80 c); [lia|]. destruct (Z.ltb_spec c 0x20); [lia|]. destruct (Z.leb_spec 0x7f c); [lia|]. done. }
  rewrite Ev. by rewrite take_ge.
Qed.

(** The value and the name behind it. *)
Section value.
Variables (b value name rest : bytes).
Hypothesis Hb : drop 4 b = value_name value name ++ 0 :: rest.
Hypothesis Hv : (length value < 256)%nat.
Hypothesis Hn : printable name.

Lemma value_drop n x : drop n (value_name value name ++ 0 :: rest) = x → drop (4 + n) b = x.
Proof. rewrite <- Hb. by rewrite drop_drop. Qed.

Lemma parse_value_name : (0 < length value)%nat → parse_value b (Z.of_nat (length (value_name value name))) = Ok (Some (length value, Z.of_nat (length name))).
Proof.
  intros Hpos. unfold parse_value, value_name. cbn [length]. rewrite length_app. destruct (Z.ltb_spec (Z.of_nat (S (length value + length name))) 2); [lia|].
  assert (E4 : byte_at b 4 = Ok (Z.of_nat (length value))).
  { unfold byte_at. assert (El : b !! 4%nat = Some (Z.of_nat (length value))); [|by rewrite El].
    rewrite <- (Nat.add_0_r 4), <- lookup_drop, Hb. cbn. rewrite u8_id; [done|]. unfold is_u8. lia. }
  rewrite E4. cbn [mbind res_bind]. rewrite Nat2Z.id. destruct (Z.ltb_spec (Z.of_nat (S (length value + length name)) - (1 + Z.of_nat (length value))) 0); [lia|].
  do 3 f_equal. lia.
Qed.

Lemma read_carried : read_at b 5 (length value) = Ok value.
Proof.
  assert (E : drop 5 b = value ++ name ++ 0 :: rest).
  { apply (value_drop 1). unfold value_name. change (drop 1 _) with ((value ++ name) ++ 0 :: rest). by rewrite <- app_assoc. }
  rewrite read_at_Ok.
  - unfold slice. rewrite E. by rewrite take_app_length.
  - assert (El : length (drop 5 b) = length (value ++ name ++ 0 :: rest)) by (by rewrite E). rewrite length_drop, !length_app in El. cbn [length] in El. lia.
Qed.

Lemma visible_name : visible b (5 + length value) (length name) = Ok name.
Proof.
  apply (visible_printable _ _ _ rest); [done|]. change (5 + length value)%nat with (4 + (1 + length value))%nat. apply value_drop.
  unfold value_name. change (drop (1 + length value) _) with (drop (length value) ((value ++ name) ++ 0 :: rest)). rewrite <- app_assoc. by apply drop_app_length.
Qed.
End value.

(** ** The four packets *)

(** The file of secrets gives the secret for the two names. *)
Definition knows (cfg : config) (client server secret : bytes) : Prop :=
  ∃ f flag addrs opts, files cfg _PATH_CHAPFILE = Some f ∧
    scan_authfile (files cfg) f (Some client) (Some server) true false [] = Ok (flag, secret, addrs, opts) ∧ 0 ≤ flag.

Definition outputs (l : list deed) : list deed := filter (λ d, is_output d = true) l.
Definition quiet (l : list deed) : Prop := outputs l = [] ∧ StartNetworks ∉ l.

Lemma get_secret_run cfg client server am secret s Q :
  knows cfg client server secret → (am = false → hd 0 (passwd s) = 0) →
  (∀ l, quiet l → Q (Some (take MAXSECRETLEN secret)) s l) → runs (get_secret cfg (Some client) (Some server) am) s Q.
Proof.
  intros (f & flag & addrs & opts & Ef & Es & Hf) Hpw HQ. unfold get_secret. run.
  assert (Ew : negb am && negb (hd 0 (passwd s) =? 0) = false) by (destruct am; [done|]; by rewrite Hpw).
  rewrite Ew, Ef. run. eapply runs_of_res; [exact Es|]. cbv beta iota. rewrite (proj2 (Z.ltb_ge _ _) Hf).
  destruct am; run; apply HQ; split; try done; [by intros ?%list_elem_of_singleton|by intros ?%elem_of_nil].
Qed.

Lemma outputs_app l l' : outputs (l ++ l') = outputs l ++ outputs l'.
Proof. apply filter_app. Qed.

Lemma take_spliced b s n : length s = n → take n (splice b 0 s) = s.
Proof. intros <-. unfold splice. by rewrite take_0, app_nil_l, take_app_length. Qed.

Lemma length_status_message cfg c ok : (length (status_message cfg c ok) ≤ 255)%nat.
Proof. unfold status_message. rewrite length_take. lia. Qed.

Lemma length_digest garbage pieces : length (digest_of garbage pieces) = 16%nat.
Proof. unfold digest_of, MD5Final. by destruct (Transform _ _) as [[[? ?] ?] ?]. Qed.

Lemma length_chap_md5 cfg id secret ch : length (chap_md5 cfg id secret ch) = 16%nat.
Proof. apply length_digest. Qed.

(** The peer answers a challenge. *)
Definition responding (id : Z) (secret ch : bytes) (go : lcp_options) (s' : auth) (l : list deed) : Prop :=
  lcp_opened s' = true ∧ gotoptions s' = go ∧ auth_pending s' = CHAP_WITHPEER ∧ clientstate (chap s') = CHAPCS_RESPONSE ∧
  resp_type (chap s') = CHAP_DIGEST_MD5 ∧ (StartNetworks ∉ l) ∧
  outputs l = [Output (packet_of PPP_CHAP CHAP_RESPONSE id (value_name (chap_md5 p id secret ch) (user p)))].

Lemma peer_answers go id ch server secret rest s0 s Q :
  listening go s0 s → hd 0 (passwd s0) = 0 → explicit_remote p = false → server ≠ [] → knows p (user p) server secret →
  is_u8 id → (0 < length ch < 256)%nat → printable server →
  (∀ s' l, responding id (take MAXSECRETLEN secret) ch go s' l → Q () s' l) →
  runs (auth_step p (carries (packet_of PPP_CHAP CHAP_CHALLENGE id (value_name ch server)) rest)) s Q.
Proof.
  intros (Ho & Hg & Hp & Hpw & Hc & Ht & Hn) Hpw0 He Hne Hk Hid Hch Hsv HQ. rewrite <- Hpw in Hpw0.
  assert (Hlen : Z.of_nat (length (value_name ch server)) < 65000) by (unfold value_name; cbn [length]; rewrite length_app; destruct Hsv; lia).
  unfold auth_step, carries. run. rewrite Ho. cbn [when]. unfold ChapInput.
  apply runs_bind. eapply runs_of_res; [by apply packet_header_of|]. change (CHAP_CHALLENGE =? CHAP_CHALLENGE) with true. cbv iota beta.
  unfold ChapReceiveChallenge. set (b := drop 4 _ ++ 0 :: rest). assert (Hb : drop 4 b = value_name ch server ++ 0 :: rest) by done.
  run. rewrite Hc. apply runs_bind. eapply runs_of_res; [eapply parse_value_name; [exact Hb|lia..]|]. cbv beta iota. rewrite Nat2Z.id.
  apply runs_bind. eapply runs_of_res; [by eapply visible_name; [exact Hb|..]|]. cbv beta zeta.
  rewrite He, (bool_decide_eq_false_2 (server = [])) by done. rewrite andb_false_r. cbn [orb].
  rewrite Hn. apply runs_bind, (get_secret_run _ _ _ _ secret); [done|done|]. intros l1 [Hl1 Hs1]. run. 
  rewrite bool_decide_eq_false_2 by done. unfold on_chap, make_response. run.
  change (resp_type (chap (set_chap _ s))) with (resp_type (chap s)). rewrite Ht. change (CHAP_DIGEST_MD5 =? CHAP_DIGEST_MD5) with true. run.
  eapply runs_of_res; [apply (read_carried b ch server rest Hb); lia|]. unfold on_chap. run.
  unfold ChapSendResponse, chap_output, TIMEOUT, on_chap. run. eapply runs_of_res; [cbn; by rewrite Hn|]. run.
  apply HQ. repeat (split; [done|]). split.
  - cbn [app]. by intros [?|?%list_elem_of_singleton]%elem_of_app.
  - rewrite !outputs_app, Hl1. do 2 f_equal. unfold responding. cbn [chap response resp_length set_chap set_resp set_resp_length set_response]. 
    rewrite Nat2Z.id, take_spliced by apply length_chap_md5. done.
Qed.
(** ** Tasks that send nothing *)

Definition silent {A} (m : task A) : Prop := ∀ s, runs m s (λ _ _ l, quiet l).

Lemma quiet_app l l' : quiet l → quiet l' → quiet (l ++ l').
Proof. intros [E1 N1] [E2 N2]. split; [by rewrite outputs_app, E1, E2|]. by rewrite elem_of_app; intros [?|?]. Qed.
Lemma quiet_nil : quiet [].
Proof. split; [done|by intros ?%elem_of_nil]. Qed.
Lemma silent_bind {A B} (m : task A) (k : A → task B) : silent m → (∀ a, silent (k a)) → silent (m ≫= k).
Proof.
  intros Hm Hk s. apply runs_bind. destruct (Hm s) as (a & s1 & l1 & E & Hl). eapply runs_eq; [exact E|].
  destruct (Hk a s1) as (b & s2 & l2 & E2 & Hl2). eapply runs_eq; [exact E2|]. by apply quiet_app.
Qed.
Lemma silent_emit d : is_output d = false → is_start d = false → silent (emit d).
Proof.
  intros Ho Hs s. apply runs_emit. split; [unfold outputs; by destruct d|]. intros E%list_elem_of_singleton. by rewrite <- E in Hs.
Qed.
Lemma silent_run {A} (m : task A) s Q : silent m → (∀ a s' l, m s = Ok (a, s', l) → quiet l → Q a s' l) → runs m s Q.
Proof. intros Hm HQ. destruct (Hm s) as (a & s' & l & E & Hl). eapply runs_eq; [exact E|]. by apply HQ. Qed.

Ltac silent :=
  repeat first
    [ assumption
    | apply silent_bind; [|intros ?]
    | apply silent_emit; done
    | progress cbv zeta
    | progress unfold when
    | progress case_match
    | intros ?; first [apply runs_state|apply runs_set|apply runs_ret]; apply quiet_nil ].

Lemma silent_lcp_close cfg reason : silent (lcp_close cfg reason).
Proof. unfold lcp_close, link_down, upap_lowerdown, ChapLowerDown, auth_script, UNTIMEOUT, on_upap, on_chap. silent. Qed.

Lemma lcp_close_run cfg reason s Q : (∀ s' l, lcp_opened s' = false → quiet l → Q () s' l) → runs (lcp_close cfg reason) s Q.
Proof. intros HQ. apply silent_run; [apply silent_lcp_close|]. intros [] s' l E Hl. apply HQ; [|done]. by eapply lcp_close_closed. Qed.

Lemma network_phase_run cfg s Q : (∀ s' l, outputs l = [] → StartNetworks ∈ l → Q () s' l) → runs (network_phase cfg) s Q.
Proof.
  intros HQ. unfold network_phase. run. apply silent_run; [unfold auth_script; silent|]. intros _ s1 l1 _ [Hl _]. run. apply HQ.
  - by rewrite !outputs_app, Hl.
  - rewrite !elem_of_app. right; right; right. by left.
Qed.

Lemma auth_complete_run cfg bit s Q : Z.ldiff (auth_pending s) bit = 0 → (∀ s' l, outputs l = [] → StartNetworks ∈ l → Q () s' l) → runs (auth_complete cfg bit) s Q.
Proof.
  intros Hb HQ. unfold auth_complete. run. change (auth_pending (set_auth_pending _ _)) with (Z.ldiff (auth_pending s) bit). rewrite Hb. cbn [when Z.eqb].
  by apply network_phase_run.
Qed.

(** The router compares the response, and says so. *)
Definition judged (fits : bool) (id : Z) (s' : auth) (l : list deed) : Prop :=
  (∃ msg, (length msg ≤ 255)%nat ∧ outputs l = [Output (packet_of PPP_CHAP (if fits then CHAP_SUCCESS else CHAP_FAILURE) id msg)]) ∧
  if fits then StartNetworks ∈ l else (StartNetworks ∉ l) ∧ lcp_opened s' = false.

Lemma router_judges go s0 l0 client value secret rest s Q :
  challenged go s0 s l0 → explicit_remote r = false → knows r client (our_name r) secret → length value = 16%nat → printable client →
  (∀ s' l, judged (bool_decide (chap_md5 r (chal_id (chap s)) (take MAXSECRETLEN secret) (challenge (chap s)) = value)) (chal_id (chap s)) s' l → Q () s' l) →
  runs (auth_step r (carries (packet_of PPP_CHAP CHAP_RESPONSE (chal_id (chap s)) (value_name value client)) rest)) s Q.
Proof.
  intros (Ho & Hg & Hp & Hi & Hst & Ht & Hn & Hid & _) He Hk Hv Hcl HQ.
  assert (Hlen : Z.of_nat (length (value_name value client)) < 65000) by (unfold value_name; cbn [length]; rewrite length_app; destruct Hcl; lia).
  unfold auth_step, carries. run. rewrite Ho. cbn [when]. unfold ChapInput.
  apply runs_bind. eapply runs_of_res; [by apply packet_header_of|]. change (CHAP_RESPONSE =? CHAP_CHALLENGE) with false. change (CHAP_RESPONSE =? CHAP_RESPONSE) with true. cbv iota beta.
  unfold ChapReceiveResponse. set (b := drop 4 _ ++ 0 :: rest). assert (Hb : drop 4 b = value_name value client ++ 0 :: rest) by done.
  run. rewrite Hst, Z.eqb_refl. cbn [negb]. rewrite !bool_decide_eq_false_2 by done.
  apply runs_bind. eapply runs_of_res; [eapply parse_value_name; [exact Hb|lia..]|]. cbv beta iota. rewrite Nat2Z.id. unfold UNTIMEOUT.
  apply runs_bind, runs_set. set (s1 := set_timers _ s). apply runs_bind. eapply runs_of_res; [by eapply visible_name; [exact Hb|..]|].
  rewrite Ht. change (CHAP_DIGEST_MD5 =? CHAP_MICROSOFT_V2) with false. run. rewrite He, Hn.
  apply (get_secret_run _ _ _ _ secret); [done|done|]. intros l1 [Hl1 Hs1]. unfold check_response. run.
  change (chap s1) with (chap s). rewrite Ht. change (CHAP_DIGEST_MD5 =? CHAP_DIGEST_MD5) with true. rewrite bool_decide_eq_true_2 by done. run.
  assert (Hr : read_at b 5 MD5_SIGNATURE_SIZE = Ok value) by (unfold MD5_SIGNATURE_SIZE; rewrite <- Hv; apply (read_carried b value client rest Hb); lia).
  eapply runs_of_res; [exact Hr|]. run.
  assert (Hp' : auth_pending (set_peer_authname (c_str (take (length client `min` (MAXNAMELEN - 1)) client)) (set_chap (set_serverstate CHAPSS_OPEN (chap s1)) s1)) = CHAP_PEER) by exact Hp.
  revert HQ. case_bool_decide as Ed; intros HQ; unfold ChapSendStatus, chap_output; run; unfold on_chap, auth_peer_success; run.
  - rewrite bool_decide_eq_true_2 by done. cbn [when]. rewrite Z.eqb_refl. run. apply auth_complete_run; [by rewrite Hp'|].
    intros s2 l2 Hl2 Hin. apply silent_run; [unfold TIMEOUT; silent|]. intros [] s3 l3 _ [Hl3 _]. apply HQ. split.
    + eexists. split; [apply length_status_message|]. rewrite !outputs_app, Hl1, Hl2, Hl3. done.
    + cbn [app]. apply elem_of_app. right. right. apply elem_of_app. by left.
  - unfold auth_peer_fail. run. apply lcp_close_run. intros s2 l2 Ho2 [Hl2 Hs2]. run. apply HQ. split.
    + eexists. split; [apply length_status_message|]. rewrite !outputs_app, Hl1, Hl2. done.
    + split; [|done]. cbn [app]. rewrite elem_of_app, elem_of_cons, !elem_of_app, elem_of_nil. naive_solver.
Qed.

Lemma peer_hears fits go id secret ch l0 msg rest s Q :
  responding id secret ch go s l0 → is_u8 id → (length msg ≤ 255)%nat →
  (∀ s' l, (if fits : bool then StartNetworks ∈ l else (StartNetworks ∉ l) ∧ lcp_opened s' = false) → Q () s' l) →
  runs (auth_step p (carries (packet_of PPP_CHAP (if fits then CHAP_SUCCESS else CHAP_FAILURE) id msg) rest)) s Q.
Proof.
  intros (Ho & Hg & Hp & Hc & Ht & _ & _) Hid Hm HQ. unfold auth_step, carries. run. rewrite Ho. cbn [when]. unfold ChapInput.
  apply runs_bind. eapply runs_of_res; [apply packet_header_of; [by destruct fits|done|lia]|]. destruct fits; cbv iota beta.
  - change (CHAP_SUCCESS =? CHAP_CHALLENGE) with false. change (CHAP_SUCCESS =? CHAP_RESPONSE) with false. change (CHAP_SUCCESS =? CHAP_FAILURE) with false.
    change (CHAP_SUCCESS =? CHAP_SUCCESS) with true. cbv iota. unfold ChapReceiveSuccess, UNTIMEOUT, on_chap. run. rewrite Hc, bool_decide_eq_true_2 by done. run.
    rewrite Ht. change (CHAP_DIGEST_MD5 =? CHAP_MICROSOFT_V2) with false. run. unfold auth_withpeer_success. rewrite Z.eqb_refl.
    apply auth_complete_run; [change (auth_pending _) with (auth_pending s); by rewrite Hp|]. intros s2 l2 _ Hin. by apply HQ.
  - change (CHAP_FAILURE =? CHAP_CHALLENGE) with false. change (CHAP_FAILURE =? CHAP_RESPONSE) with false. change (CHAP_FAILURE =? CHAP_FAILURE) with true.
    cbv iota. unfold ChapReceiveFailure, UNTIMEOUT. run. rewrite Hc, bool_decide_eq_true_2 by done. run. unfold auth_withpeer_fail. run.
    apply silent_run; [unfold clear_passwd; silent|]. intros [] s2 l2 _ [_ Hs2]. run. apply lcp_close_run. intros s3 l3 Ho3 [_ Hs3]. run. apply HQ.
    split; [|done]. cbn [app]. rewrite app_nil_r, elem_of_app. intros [?|?]; [by apply Hs2|by apply Hs3].
Qed.

Lemma chap_md5_md5 cfg id secret ch : length (stack cfg) = 64%nat → is_u8 id → is_bytes secret → is_bytes ch → (length ch < 24)%nat →
  chap_md5 cfg id (take MAXSECRETLEN secret) ch = md5 (id :: take MAXSECRETLEN secret ++ ch).
Proof.
  intros Hs Hid Hb Hc Hl. unfold chap_md5. rewrite digest_md5; [by cbn [concat app]; rewrite app_nil_r|done| |].
  - cbn [concat app]. rewrite app_nil_r. constructor; [done|]. apply Forall_app. split; [by apply Forall_take|done].
  - apply Forall_cons. split; [done|]. apply Forall_cons. split; [rewrite length_take; unfold MAXSECRETLEN; lia|].
    apply Forall_cons. split; [lia|apply Forall_nil_2].
Qed.

End handshake.

(** The link comes up at both ends, and the packets go to and fro; what holds of the router's state
    after the first step, and of the last states and deeds of the two. *)
Definition chap_exchange `{MsDigests} (r p : config) (agreed none : lcp_options) (junk junk' rest : bytes) (sr sp : auth)
    (outcome : auth → auth → list deed → auth → list deed → Prop) : Prop :=
  runs (auth_step r (LinkUp agreed none junk)) sr (λ _ r1 l1,
    runs (auth_step p (LinkUp none agreed junk')) sp (λ _ p1 _,
      ∃ c, outputs l1 = [Output c] ∧ runs (auth_step p (carries c rest)) p1 (λ _ p2 k2,
        ∃ d, outputs k2 = [Output d] ∧ runs (auth_step r (carries d rest)) r1 (λ _ r2 l2,
          ∃ e, outputs l2 = [Output e] ∧ runs (auth_step p (carries e rest)) p2 (λ _ p3 k3, outcome r1 r2 l2 p3 k3))))).

(** C7: CHAP with MD5, asked for by one end only, between two ends with any random numbers and
    challenge, printable names of at most 255 bytes, no remote name set by an option, and no
    password of the answering end in [passwd], over a link that delivers: each packet that one end sends is the next one that the other one waits for, and
    both start the network protocols if the digests of the two secrets with the challenge are the
    same, as they are for one secret; else both close the link, and neither starts them. *)
Theorem chap_handshake `{MsDigests} (r p : config) (agreed none : lcp_options) (junk junk' rest : bytes) (sr sp : auth) (secret secret' : bytes)
    (Hr : down sr) (Hp : down sp) (Hpw : hd 0 (passwd sp) = 0) (Ha : chap_md5_only agreed) (Hn : no_auth none)
    (Hnr : printable (our_name r)) (Hne : our_name r ≠ []) (Hnp : printable (user p))
    (Her : explicit_remote r = false) (Hep : explicit_remote p = false) (Hreq : auth_required p = false)
    (Hkr : knows r (user p) (our_name r) secret) (Hkp : knows p (user p) (our_name r) secret')
    (Hsr : length (stack r) = 64%nat) (Hsp : length (stack p) = 64%nat) (Hb : is_bytes secret) (Hb' : is_bytes secret') :
  chap_exchange r p agreed none junk junk' rest sr sp (λ r1 r2 l2 p3 k3,
    if decide (md5 (chal_id (chap r1) :: take MAXSECRETLEN secret ++ challenge (chap r1))
               = md5 (chal_id (chap r1) :: take MAXSECRETLEN secret' ++ challenge (chap r1)))
    then StartNetworks ∈ l2 ∧ StartNetworks ∈ k3
    else ((StartNetworks ∉ l2) ∧ lcp_opened r2 = false) ∧ ((StartNetworks ∉ k3) ∧ lcp_opened p3 = false)).
Proof.
  apply router_up; [done..|]. intros r1 l1 Hc. apply peer_up; [done..|]. intros p1 k1 Hl.
  pose proof Hc as (_ & _ & _ & _ & _ & _ & Hnm & Hid & Hbc & Hlc & Hl1).
  unfold challenge_packet in Hl1. rewrite Hnm in Hl1. eexists. split; [exact Hl1|].
  eapply peer_answers; [exact Hl|done|done|done|exact Hkp|done|lia|done|]. intros p2 k2 Hres.
  pose proof Hres as (_ & _ & _ & _ & _ & _ & Hk2). eexists. split; [exact Hk2|].
  eapply router_judges; [exact Hc|done|exact Hkr|apply length_chap_md5|done|]. intros r2 l2 [(msg & Hm & Hl2) Hj].
  eexists. split; [exact Hl2|]. eapply peer_hears; [exact Hres|done|done|]. intros p3 k3 Hh.
  rewrite (chap_md5_md5 r _ secret _ Hsr Hid Hb Hbc) in Hj, Hh by lia. rewrite (chap_md5_md5 p _ secret' _ Hsp Hid Hb' Hbc) in Hj, Hh by lia. case_decide as Ed.
  - by rewrite bool_decide_eq_true_2 in Hj, Hh.
  - by rewrite bool_decide_eq_false_2 in Hj, Hh.
Qed.

(** ** A link with CHAP *)

(** The digests of Microsoft are not used. *)
#[export] Instance no_ms : MsDigests := {| ChapMS _ _ := Fault; ChapMS2 _ _ _ _ _ _ := Fault |}.

(** The end [me]; both ends have the same line in their files of secrets. *)
Definition end_cfg (me : bytes) (secrets : bytes) : config :=
  mk_config me me [] [] false false false false true [] [] [] (λ path, if bool_decide (path = _PATH_CHAPFILE) then Some secrets else None)
    (λ _ _, []) (λ _, None) (λ n, Z.of_nat n * 7 + 3) false (replicate 64 0xA5).

Definition secrets : bytes := chars "# client server secret" ++ [10] ++ chars "peer router s3cret *" ++ [10].
Definition with_chap : lcp_options := set_auth no_options false true false MDTYPE_MD5.

Definition arrives (d : deed) : input := match d with Output packet => carries packet (replicate 64 0) | _ => LinkDown end.

Definition do_input (cfg : config) (s : auth) (i : input) : option (auth * list deed) :=
  match auth_step cfg i s with Ok (_, s', l) => Some (s', l) | _ => None end.
Definition sends (l : list deed) : list input := arrives <$> filter is_output l.

(** The router asks for CHAP; the four packets go to and fro.  What the router and the peer do. *)
Definition exchange (theirs : bytes) : option (list (input * list deed) * list (input * list deed)) :=
  let r := end_cfg (chars "router") secrets in
  let p := end_cfg (chars "peer") theirs in
  let start := auth_init (replicate 256 0) 0 in
  '(r1, l1) ← do_input r start (LinkUp with_chap no_options []);
  '(p1, k1) ← do_input p start (LinkUp no_options with_chap []);
  i2 ← head (sends l1);
  '(p2, k2) ← do_input p p1 i2;
  i3 ← head (sends k2);
  '(r2, l2) ← do_input r r1 i3;
  i4 ← head (sends l2);
  '(p3, k3) ← do_input p p2 i4;
  Some ([(LinkUp with_chap no_options [], l1); (i3, l2)], [(LinkUp no_options with_chap [], k1); (i2, k2); (i4, k3)]).

Definition does (d : deed → bool) (h : list (input * list deed)) : bool := existsb (λ e, existsb d e.2) h.
Definition is_close (d : deed) : bool := match d with LcpClose _ => true | _ => false end.

(** With the same secret both ends start the networks; with another one the router closes the link. *)
Example same_secret : (λ h, (does is_start h.1, does is_start h.2, does is_close h.1)) <$> exchange secrets = Some (true, true, false).
Proof. by vm_compute. Qed.
Example other_secret :
  (λ h, (does is_start h.1, does is_start h.2, does is_close h.1)) <$> exchange (chars "peer router wrong *" ++ [10]) = Some (false, false, true).
Proof. by vm_compute. Qed.

(** ** Evaluations *)

(** Does it start the networks after it has closed LCP? *)
Fixpoint starts_closed (l : list deed) : bool :=
  match l with
  | [] => false
  | LcpClose _ :: l => existsb is_start l
  | _ :: l => starts_closed l
  end.

Definition deeds_of {A} (r : res (A * auth * list deed)) : list deed := match r with Ok (_, _, l) => l | _ => [] end.
Definition state_of {A} (r : res (A * auth * list deed)) : auth := match r with Ok (_, s, _) => s | _ => auth_init [] 0 end.

(** The peer has answered a challenge of MS-CHAPv2; the Success does not have the response that
    it waits for: the link is closed, and the networks are started on it. *)
Example failed_check_goes_on :
  let waiting := set_auth_pending CHAP_WITHPEER (set_lcp_opened true (set_chap (set_clientstate CHAPCS_RESPONSE (set_resp_type CHAP_MICROSOFT_V2 (ChapInit 0))) (auth_init [] 0))) in
  let r := auth_step (end_cfg (chars "peer") secrets) (ChapPacket [3; 1; 0; 6; 83; 61; 0] 6) waiting in
  starts_closed (deeds_of r) = true ∧ lcp_opened (state_of r) = false.
Proof. by vm_compute. Qed.

(** One end logs in with PAP, an Ack with another identifier is taken, the link goes down and comes
    up again: two timeouts of requests are in the list, for one request. *)
Definition with_pap : lcp_options := set_auth no_options true false false 0.
Definition pap_login : task () := auth_run (end_cfg (chars "peer") secrets) [LinkUp no_options with_pap []; PapPacket [2; 77; 0; 5; 0; 0] 5 []].
Definition pap_start : auth := auth_init (chars "secret" ++ replicate 250 0) 0.
Example any_id_is_acked :
  us_id (upap (state_of (pap_login pap_start))) = 1 ∧ us_clientstate (upap (state_of (pap_login pap_start))) = UPAPCS_OPEN
  ∧ existsb is_start (deeds_of (pap_login pap_start)) = true.
Proof. by vm_compute. Qed.
Example timeout_outlives_ack :
  timers (state_of ((_ ← pap_login; auth_run (end_cfg (chars "peer") secrets) [LinkDown; LinkUp no_options with_pap []]) pap_start))
  = [(upap_timeout, 3); (upap_timeout, 3)].
Proof. by vm_compute. Qed.

(** ** The theorems at concrete inputs *)

Fixpoint play (cfg : config) (h : list moment) (s : auth) (inputs : list input) : option (list moment * auth) :=
  match inputs with
  | [] => Some (h, s)
  | i :: inputs =>
      if comes_up s i then None
      else '(s', l) ← do_input cfg s i; play cfg (h ++ [mk_moment s i l]) s' inputs
  end.

Lemma do_input_Ok cfg s i s' l : do_input cfg s i = Some (s', l) → auth_step cfg i s = Ok ((), s', l).
Proof. unfold do_input. destruct (auth_step cfg i s) as [[[[] ?] ?]| |]; [|done..]. by intros [= -> ->]. Qed.

Lemma play_history cfg go h s inputs h' s' : link_history cfg go h s → play cfg h s inputs = Some (h', s') → link_history cfg go h' s'.
Proof.
  revert h s. induction inputs as [|i inputs IH]; intros h s Hh; cbn [play]; [by intros [= <- <-]|].
  destruct (comes_up s i) eqn:Hu; [done|]. destruct (do_input cfg s i) as [[s1 l]|] eqn:E; [|done]. apply IH. apply link_goes_on; [done|done|]. by apply do_input_Ok.
Qed.

Lemma started_existsb h : existsb (λ m, existsb is_start (deeds m)) h = true → started h.
Proof.
  intros (m & Hm & (d & Hd & Ed)%existsb_exists)%existsb_exists. exists m. split; [by apply list_elem_of_In|].
  destruct d; try discriminate Ed. by apply list_elem_of_In.
Qed.

Definition input_okb (i : input) : bool :=
  match i with PapPacket b l _ | ChapPacket b l => bytesb b && (l <? Z.of_nat (length b)) && bool_decide (last b = Some 0) | LinkUp _ _ _ => false | _ => true end.
Lemma input_okb_sound i : input_okb i = true → input_ok i.
Proof.
  destruct i; try done; cbn; intros [[E1 E2]%andb_true_iff E3]%andb_true_iff; (split; [by apply bytesb_sound|]);
    (split; [by apply Z.ltb_lt|]); by apply bool_decide_eq_true in E3.
Qed.

Definition router : config := end_cfg (chars "router") secrets.
Definition start : auth := auth_init (replicate 256 0) 0.
Definition router_open : auth * list deed := default (start, []) (do_input router start (LinkUp with_chap no_options [])).
Definition the_response : input := default LinkDown (e ← exchange secrets; e.1 !! 1%nat ≫= λ p, Some p.1).
Definition router_history : list moment * auth :=
  default ([], start) (play router [mk_moment start (LinkUp with_chap no_options []) router_open.2] router_open.1 [the_response]).

Lemma networks_need_proof_witness :
  link_history router with_chap router_history.1 router_history.2 ∧ started router_history.1 ∧ authenticated router with_chap router_history.1.
Proof.
  assert (Hh : link_history router with_chap router_history.1 router_history.2).
  { apply (play_history router with_chap [mk_moment start (LinkUp with_chap no_options []) router_open.2] router_open.1 [the_response]); [|by vm_compute].
    apply (link_begins router with_chap start no_options []); [done|]. apply do_input_Ok. by vm_compute. }
  assert (Hs : started router_history.1) by (apply started_existsb; by vm_compute).
  split; [exact Hh|]. split; [exact Hs|]. exact (networks_need_proof router with_chap router_history.1 router_history.2 Hh Hs).
Defined.

Lemma auth_never_faults_witness :
  ∃ s l, auth_run router [LinkUp with_chap no_options []; the_response; Expired ChapChallengeTimeout; PapPacket [1; 1; 0; 9; 1; 80; 1; 80; 0; 0] 9 []; LinkDown] start = Ok ((), s, l)
    ∧ (serverstate (chap s) = CHAPSS_INITIAL_CHAL → is_Some (chal_name (chap s))).
Proof.
  apply (auth_never_faults router (replicate 256 0) 0); [by constructor|].
  constructor; [by split|]. constructor; [apply input_okb_sound; by vm_compute|].
  constructor; [exact Logic.I|]. constructor; [apply input_okb_sound; by vm_compute|]. by repeat constructor.
Defined.

Definition peer : config := end_cfg (chars "peer") secrets.

Lemma chap_handshake_witness :
  chap_exchange router peer with_chap no_options [] [] [1; 2; 3] start start (λ r1 r2 l2 p3 k3,
    if decide (md5 (chal_id (chap r1) :: take MAXSECRETLEN (chars "s3cret") ++ challenge (chap r1))
               = md5 (chal_id (chap r1) :: take MAXSECRETLEN (chars "s3cret") ++ challenge (chap r1)))
    then StartNetworks ∈ l2 ∧ StartNetworks ∈ k3
    else ((StartNetworks ∉ l2) ∧ lcp_opened r2 = false) ∧ ((StartNetworks ∉ k3) ∧ lcp_opened p3 = false)).
Proof.
  assert (Hd : down start) by (by repeat split).
  assert (Hk : ∀ me, me = router ∨ me = peer → knows me (chars "peer") (chars "router") (chars "s3cret")).
  { intros me [-> | ->]; exists secrets, 3, [chars "*"], []; (split; [by vm_compute|]); (split; [by vm_compute|done]). }
  assert (Hr : printable (chars "router")) by (split; [apply (bool_decide_eq_true_1 _); by vm_compute|cbn; lia]).
  assert (Hp : printable (chars "peer")) by (split; [apply (bool_decide_eq_true_1 _); by vm_compute|cbn; lia]).
  assert (Hb : is_bytes (chars "s3cret")) by (apply bytesb_sound; by vm_compute).
  apply (chap_handshake router peer with_chap no_options [] [] [1; 2; 3] start start (chars "s3cret") (chars "s3cret")); try done.
  - apply Hk. by left.
  - apply Hk. by right.
Defined.
